(* ===== verification/_CoqProject ===== *)
-Q . S2P
Prelude.v
Intset.v
UtilNum.v
Glob.v
Listpack.v
ListpackRefine.v
Ziplist.v
ZiplistShape.v
ZiplistCascade.v
ZiplistInsert.v
ZiplistDelete.v
ZiplistWalk.v
ZiplistSpec.v
ZiplistMerge.v
Checksum.v
Siphash.v
Lzf.v
LzfProof.v
Rio.v
Dict.v
DictRefine.v
DictScan.v
Adlist.v
AdlistRefine.v
Sds.v
SdsRefine.v
Object.v
Resp.v
RespSafe.v
RespDecode.v
Zskiplist.v
ZskiplistShape.v
ZskiplistRefine.v
ZskiplistSorted.v
ZskiplistQuery.v
ZskiplistSpec.v
Reply.v
Keyspace.v
DictIter.v
ObjectHeap.v
Db.v
DbSpec.v
TString.v
TStringRules.v
TStringSpec.v
TStringProof.v
TStringWrites.v
TStringEdit.v
TStringMany.v
TKeys.v
TKeysSpec.v
TKeysProof.v
TStringCorrect.v
TSession.v
TStringEffects.v
TKeysEffects.v
Outbuf.v
OutbufSpec.v
OutbufProof.v
OutbufSend.v
OutbufCorrect.v
OutbufLoop.v
OutbufServe.v
Rdb.v
RdbProof.v
RdbPayload.v
RdbFile.v
RdbSpec.v
RdbItems.v
RdbLoad.v
RdbSave.v
RdbCorrect.v
DictObj.v
THash.v
THashSpec.v
THashProof.v
THashCorrect.v
TSet.v
TSetSpec.v
TSetCorrect.v
