(* ===== verification/Prelude.v ===== *)
(** * A verification library for the data structures and protocol of Redis 5.0.0

    The C code of the repository is the Redis server under [redis-5.0.0]; file
    names below are relative to [redis-5.0.0/src].  The models are shallow: a C
    function is a Gallina function with the same name, and the part of the state
    it changes is an argument and a result.

    ** Conventions

    - Machine integers are [Z]; a conversion to a width is [uwrap w] or [swrap w]
      ([u8], [u64], [i64], ...), written where the source converts or where an
      operation may wrap.  A signed overflow, which C leaves undefined, is
      modelled by wrapping ([sdsll2str] negates [LLONG_MIN]).
    - A buffer is the list of its bytes.  [mget], [mset], [mread], [mwrite] and
      [mmove] answer [None] outside the buffer: a theorem that says [Some _]
      says that the C code stays inside its memory.  Assertions that fail and
      uses of freed objects are [None] too.
    - Loops are [Fixpoint]s, structural where the source counts down and with
      fuel otherwise.  Running out of fuel is [None]; every theorem about such a
      loop gives the fuel the definition passes and shows that it is enough.
    - What a fresh allocation or an uninitialised variable holds is an argument
      ([junk], [uninit], [buf]).  Allocation does not fail, as with [zmalloc].
    - Hash functions, [dup] and [match] methods and the command executor are
      parameters.

    ** Parts

    - [Prelude]: machine integers, buffers, little endian numbers, bit lemmas,
      and the tactics [zlia], [zbool] and [lxor_ac] used everywhere.
    - [Intset] (intset.c): sorted arrays of 16, 32 or 64 bit integers.  The
      operations refine a finite set of integers ([intset_repr]).
    - [UtilNum] (util.c): [digits10], [ll2string], [string2ll], [string2l], with
      the canonical decimal notation [dec] as reference.
    - [Glob] (util.c): [stringmatchlen] against a declarative matching relation.
    - [Listpack], [ListpackRefine] (listpack.c): serialized lists of strings and
      integers.  [lp_repr] relates the bytes to the sequence of elements.
    - [Ziplist] (ziplist.c), [ZiplistShape], [ZiplistCascade], [ZiplistInsert],
      [ZiplistDelete], [ZiplistWalk], [ZiplistSpec], [ZiplistMerge]: lists of
      strings in one block, whose entries hold the length of the one before in one
      byte or in five.  [zrep] relates the bytes to the strings and the sizes of
      these fields, [zl_at] is what a client knows: the strings and where the
      pointer stands.  [zroom] is the room the strings need with fields of five
      bytes; below [2^32] nothing wraps.
    - [Checksum] (endianconv.c, crc16.c, crc64.c, [keyHashSlot] of cluster.c):
      the table driven checksums against bit by bit division.
    - [Siphash] (siphash.c).
    - [Lzf], [LzfProof] (lzf_c.c, lzf_d.c): compressor and decompressor; the
      decompressor is safe on every input, and undoes the compressor whatever
      the uninitialised hash table of the compressor holds.
    - [Dict], [DictRefine], [DictScan] (dict.c): hash tables with incremental
      rehashing.  [dict_repr] relates the two tables to a finite map; the cursor
      of [dictScan] is analysed through the order of reversed bits.
    - [Adlist], [AdlistRefine] (adlist.c): linked lists in a heap of nodes, with
      the part of the heap each operation leaves alone.
    - [Sds], [SdsRefine] (sds.c): slicing, comparison, splitting and joining,
      quoting and reading back.
    - [Object] (object.c): string objects with reference counts and encodings,
      on a heap; the shared integers are the loop of [createSharedObjects].
    - [Resp], [RespSafe], [RespDecode] (networking.c, aof.c): the query buffer of
      a client.  [Server] is the interface to the rest of the server; its laws
      are [ServerLaws] for safety and [Executes] for decoding, and [LogServer]
      implements both.  [Resp] calls [Sds] ([sdsrange], [sdssplitargs]) and
      [UtilNum] ([string2ll], [ll2string]).

    - [Zskiplist], [ZskiplistShape], [ZskiplistRefine], [ZskiplistSorted],
      [ZskiplistQuery], [ZskiplistSpec] (t_zset.c): the skip list of sorted sets
      on a heap of nodes, with scores as the class [Score] whose laws are
      [ScoreLaws].  [slist] relates it to the sorted sequence of its elements,
      for all levels [random()] may choose.

    - [Reply] (networking.c): the reply functions, over the class [Output] of
      output buffers, with the formats they write; the shared messages of
      [createSharedObjects] are their contents.
    - [Keyspace]: the class [KeyDict] of the dictionaries of a database and its
      laws [KeyDictLaws], implemented by finite maps and by the hash tables of
      [Dict] with [dictSdsHash].
    - [ObjectHeap]: who owns the objects of the heap.  [own h R] says that the
      reference counts are the multiplicities in the multiset [R].
    - [Db], [DbSpec] (db.c): one database with its expires, in a monad of failing
      computations on the state [dbst].  [rep] relates the state to an abstract
      keyspace [astate]; there is one rule for every operation.
    - [TString] (t_string.c), [TStringRules], [TStringSpec], [TStringProof],
      [TStringWrites], [TStringEdit], [TStringMany],
      [TStringCorrect], [TStringEffects]: the string commands.  [TStringSpec] is
      what a command does to the abstract keyspace; [TStringCorrect] collects the
      refinement, [TStringEffects] what follows from it.
    - [TKeys] (db.c, expire.c), [TKeysSpec], [TKeysProof], [TKeysEffects]: the
      commands on keys, in the same way; [command], [run] and [effect] of
      [TStringCorrect] are the table of both.
    - [Outbuf] (networking.c), [OutbufSpec], [OutbufProof], [OutbufSend],
      [OutbufCorrect]: the output buffers of a client, an implementation of
      [Output].  The blocks are on the list heap of [Adlist]; the usable size of an
      allocation, the limits, the clock and the answers of [write] are parameters.
      [buf_ok] is the invariant, [sendable] what is still to be sent.
    - [OutbufLoop] (networking.c, ae.c), [OutbufServe]: the clients of a server, its
      queues [clients_pending_write] and [clients_to_close] and the write handlers;
      a turn of the event loop is [handleClientsWithPendingWrites], the handlers of
      the descriptors that the kernel reports, and the clients that are freed.
      [net_ok] is the invariant; [serves] says what the kernel must do for a client
      in a turn for it to get everything it was told.

    - [TSession]: requests executed one after the other, with the clock of each;
      the states that can be reached are well typed.
    - [DictIter] (dict.c): iterators, and the class [DictIter] that adds iteration
      and growing to [KeyDict], with its laws, for both implementations.
    - [DictObj] (dict.c, server.c): the class [ObjDict] adds to [DictIter] creating a
      dictionary, iterators that are not safe, and shrinking; for hash tables and
      finite maps.
    - [THash] (t_hash.c), [THashSpec], [THashProof], [THashCorrect]: hash objects,
      ziplists of fields and values in turn or dictionaries of the class [ObjDict],
      and their conversion.  [hash_repr] relates an object to a finite map.
    - [TSet] (t_set.c), [TSetSpec], [TSetCorrect]: set objects, intsets or
      dictionaries of the class [ObjDict].  [set_repr] relates an object to a finite
      set of strings.
    - [Rio] (rio.c, rio.h): streams in memory and on files of the C library, which
      keep what is written in a buffer and whose device may be full, with the
      checksum of what goes through.
    - [Rdb] (rdb.c, cluster.c), [RdbProof], [RdbPayload]: lengths, integers and
      strings of the RDB format, compressed with [Lzf], and DUMP payloads.
      [saves m bs n] and [loads m bs x] are the specifications of savers and
      loaders.
    - [RdbFile] (rdb.c, evict.c, object.c): the server as its databases, the heap
      they share, the stream and the files; saving and loading whole files.
      [RdbSpec] describes a file as a sequence of items and what each does to the
      databases; [srep] relates a server to its databases.  [RdbLoad]: each turn
      of the loader applies an item.  [RdbItems], [RdbSave]: the items
      that are saved, and what loading them gives.  [RdbCorrect]: the theorems.

    ** What the theorems show

    Refinement of an abstract set, sequence or map by every operation of a
    structure, the structure's invariant being part of the representation
    relation; memory safety as definedness; termination as enough fuel; round
    trips of the encoders (listpack, LZF, number printing, quoting, the request
    format); commands as refinements of functions on an abstract keyspace, with no
    leaked and no dangling object; replies that the
    event loop brings to the kernel; RDB files that are replaced at once and give
    the databases back in any server; hash and set objects whose encoding cannot
    be seen;
    equivalence of table driven and bit by bit checksums; and for the
    query buffer, that arbitrary input is handled without error and that well
    formed input is executed exactly once however it is cut into reads.

    ** Not modelled

    Input and output, time, threads, random choices and floating point; the
    commands on other types than strings, active expiry; replication, cluster, sentinel, scripting and modules;
    vendored libraries; the Ruby application of the repository.  Of the modelled
    files: the fingerprint of unsafe iterators, random keys and statistics of
    dictionaries; in rdb.c and rio.c values of other types, module data, streams on
    sockets, forks, the clients served during loading and the diffs of an AOF
    rewrite; the header formats
    and printf-like functions of sds.c; event handlers other than the one that
    writes, and what [freeClient] does beyond the output; in
    db.c and t_string.c lazy freeing, access times and frequencies, INCRBYFLOAT,
    blocked and watching clients (events of the log), and the clock during a
    command, which is constant; the statistics [readQueryFromClient] updates; the parsing of
    scores and the ziplist form of t_zset.c.

    ** Plan

    DUMP and RESTORE as commands, bit operations, quicklists and the radix tree, in
    this order. *)
From Stdlib Require Import ZArith Lia String Strings.Byte.
From stdpp Require Import base numbers list option.

#[global] Open Scope Z_scope.

(** * Machine integers *)

(** [uwrap w x]: the value of [x] converted to an unsigned [w]-bit integer. *)
Definition uwrap (w x : Z) : Z := x mod 2 ^ w.

(** [swrap w x]: the value of [x] converted to a signed two's complement
    [w]-bit integer. *)
Definition swrap (w x : Z) : Z := (x + 2 ^ (w - 1)) mod 2 ^ w - 2 ^ (w - 1).

Abbreviation u8 := (uwrap 8).
Abbreviation u16 := (uwrap 16).
Abbreviation u32 := (uwrap 32).
Abbreviation u64 := (uwrap 64).
Abbreviation i8 := (swrap 8).
Abbreviation i16 := (swrap 16).
Abbreviation i32 := (swrap 32).
Abbreviation i64 := (swrap 64).

Definition in_u (w x : Z) : Prop := 0 <= x < 2 ^ w.
Definition in_s (w x : Z) : Prop := - 2 ^ (w - 1) <= x < 2 ^ (w - 1).

Lemma uwrap_small w x : 0 <= x < 2 ^ w -> uwrap w x = x.
Proof. intros. by apply Z.mod_small. Qed.

Lemma uwrap_range w x : 0 <= w -> 0 <= uwrap w x < 2 ^ w.
Proof. intros. apply Z.mod_pos_bound. lia. Qed.

Lemma pow2_half w : 0 < w -> 2 ^ w = 2 * 2 ^ (w - 1).
Proof. intros. rewrite <- Z.pow_succ_r by lia. f_equal. lia. Qed.

Lemma swrap_small w x : 0 < w -> in_s w x -> swrap w x = x.
Proof.
  intros Hw [H1 H2]. unfold swrap. pose proof (pow2_half w Hw).
  rewrite Z.mod_small; lia.
Qed.

Lemma swrap_range w x : 0 < w -> in_s w (swrap w x).
Proof.
  intros Hw. unfold swrap, in_s. pose proof (pow2_half w Hw).
  pose proof (Z.mod_pos_bound (x + 2 ^ (w - 1)) (2 ^ w) ltac:(lia)). lia.
Qed.

(** Conversion to signed forgets a conversion to unsigned of the same width:
    what a cast chain such as [(int64_t)(uint64_t)x] relies on. *)
Lemma swrap_uwrap w x : 0 < w -> swrap w (uwrap w x) = swrap w x.
Proof.
  intros Hw. unfold swrap, uwrap. by rewrite Zplus_mod_idemp_l.
Qed.

Lemma swrap_mod w x k : 0 < w -> swrap w (x + k * 2 ^ w) = swrap w x.
Proof.
  intros Hw. unfold swrap.
  replace (x + k * 2 ^ w + 2 ^ (w - 1)) with (x + 2 ^ (w - 1) + k * 2 ^ w) by lia.
  by rewrite Z.mod_add by lia.
Qed.

Lemma uwrap_swrap w x : 0 < w -> uwrap w (swrap w x) = uwrap w x.
Proof.
  intros Hw. unfold swrap, uwrap. rewrite Zminus_mod_idemp_l. f_equal. lia.
Qed.

(** * Bytes and buffers

    A C buffer is the list of its bytes.  Reads and writes give [None] when
    they touch a byte outside the buffer, so that a result [Some _] carries
    memory safety with it. *)

Definition zlen {A} (l : list A) : Z := Z.of_nat (length l).
Arguments zlen : simpl never.

(** The bytes of a string literal of the source. *)
Definition bytes_of (s : string) : list Z :=
  (fun b => Z.of_N (Byte.to_N b)) <$> list_byte_of_string s.

Definition byte_ok (b : Z) : Prop := 0 <= b < 256.
Abbreviation bytes_ok := (Forall byte_ok).

Section Buffers.
Context {A : Type}.
Implicit Types (m a b c bs : list A) (i off n : Z).

Definition mget m i : option A :=
  if 0 <=? i then m !! Z.to_nat i else None.

Definition mset m i (x : A) : option (list A) :=
  if (0 <=? i) && (i <? zlen m) then Some (<[Z.to_nat i := x]> m) else None.

(** [memcpy(dst, m + off, n)]: the bytes it copies. *)
Definition mread m off n : option (list A) :=
  if (0 <=? off) && (0 <=? n) && (off + n <=? zlen m)
  then Some (take (Z.to_nat n) (drop (Z.to_nat off) m)) else None.

(** [memcpy(m + off, bs, n)]: the buffer after the copy. *)
Definition mwrite m off bs : option (list A) :=
  if (0 <=? off) && (off + zlen bs <=? zlen m)
  then Some (take (Z.to_nat off) m ++ bs ++ drop (Z.to_nat (off + zlen bs)) m)
  else None.

(** [memmove(m + dst, m + src, n)] inside one buffer. *)
Definition mmove m dst src n : option (list A) :=
  bs ← mread m src n; mwrite m dst bs.

(** [zrealloc] to [size] bytes: what was there is kept, bytes beyond the old
    size hold whatever [junk] says. *)
Definition zrealloc (junk : nat -> A) m (size : Z) : list A :=
  (fun i : nat => default (junk i) (m !! i)) <$> seq 0 (Z.to_nat size).

Lemma zlen_nil : zlen (@nil A) = 0.
Proof. done. Qed.

Lemma zlen_cons x m : zlen (x :: m) = 1 + zlen m.
Proof. unfold zlen. cbn [length]. lia. Qed.

Lemma zlen_app a b : zlen (a ++ b) = zlen a + zlen b.
Proof. unfold zlen. rewrite length_app. lia. Qed.

Lemma zlen_nonneg m : 0 <= zlen m.
Proof. unfold zlen. lia. Qed.

Lemma zlen_take (k : nat) m : (Z.of_nat k <= zlen m) -> zlen (take k m) = Z.of_nat k.
Proof. unfold zlen. rewrite length_take. lia. Qed.

Lemma zlen_drop (k : nat) m : (Z.of_nat k <= zlen m) -> zlen (drop k m) = zlen m - Z.of_nat k.
Proof. unfold zlen. rewrite length_drop. lia. Qed.

Lemma zlen_insert (k : nat) (x : A) m : zlen (<[k := x]> m) = zlen m.
Proof. unfold zlen. by rewrite length_insert. Qed.

Lemma zlen_replicate (k : nat) (x : A) : zlen (replicate k x) = Z.of_nat k.
Proof. unfold zlen. by rewrite length_replicate. Qed.

Lemma zlen_rev m : zlen (rev m) = zlen m.
Proof. unfold zlen. by rewrite length_rev. Qed.

Lemma zlen_zrealloc junk m size : 0 <= size -> zlen (zrealloc junk m size) = size.
Proof. intros. unfold zlen, zrealloc. rewrite length_fmap, length_seq. lia. Qed.

Lemma take_zlen_app a b : take (Z.to_nat (zlen a)) (a ++ b) = a.
Proof. unfold zlen. rewrite Nat2Z.id. apply take_app_length. Qed.

Lemma drop_zlen_app a b : drop (Z.to_nat (zlen a)) (a ++ b) = b.
Proof. unfold zlen. rewrite Nat2Z.id. apply drop_app_length. Qed.

(** Reads and writes at a known place of a buffer written as an append. *)
Lemma mread_split a b c off n :
  off = zlen a -> n = zlen b -> mread (a ++ b ++ c) off n = Some b.
Proof.
  intros -> ->. unfold mread. pose proof (zlen_nonneg a). pose proof (zlen_nonneg b).
  pose proof (zlen_nonneg c). rewrite !zlen_app, !Zle_imp_le_bool by lia. cbn.
  by rewrite drop_zlen_app, take_zlen_app.
Qed.

Lemma mwrite_split a b c bs off :
  off = zlen a -> zlen bs = zlen b -> mwrite (a ++ b ++ c) off bs = Some (a ++ bs ++ c).
Proof.
  intros -> Hl. unfold mwrite. pose proof (zlen_nonneg a). pose proof (zlen_nonneg b).
  pose proof (zlen_nonneg c). rewrite Hl, !zlen_app, !Zle_imp_le_bool by lia. cbn.
  rewrite take_zlen_app, <- zlen_app. by rewrite (app_assoc a b c), drop_zlen_app.
Qed.

Lemma mget_split a x c i : i = zlen a -> mget (a ++ x :: c) i = Some x.
Proof.
  intros ->. unfold mget, zlen. rewrite Zle_imp_le_bool by lia.
  rewrite Nat2Z.id. by apply list_lookup_middle.
Qed.

Lemma mset_split a x y c i : i = zlen a -> mset (a ++ x :: c) i y = Some (a ++ y :: c).
Proof.
  intros ->. unfold mset. pose proof (zlen_nonneg a). pose proof (zlen_nonneg c).
  rewrite zlen_app, zlen_cons, Zle_imp_le_bool, (proj2 (Z.ltb_lt _ _)) by lia. cbn.
  f_equal. unfold zlen. rewrite Nat2Z.id.
  rewrite <- (Nat.add_0_r (length a)), insert_app_r. done.
Qed.

Lemma mget_app_r a c i : zlen a <= i -> mget (a ++ c) i = mget c (i - zlen a).
Proof.
  intros Hi. unfold mget. pose proof (zlen_nonneg a).
  rewrite !Zle_imp_le_bool by lia. unfold zlen in *.
  rewrite lookup_app_r by lia. f_equal. lia.
Qed.

Lemma mget_app_l a c i : i < zlen a -> mget (a ++ c) i = mget a i.
Proof.
  intros Hi. unfold mget, zlen in *. destruct (0 <=? i) eqn:E; [|done].
  rewrite lookup_app_l by lia. done.
Qed.

Lemma mget_Some m i x : mget m i = Some x <-> 0 <= i /\ m !! Z.to_nat i = Some x.
Proof. unfold mget. destruct (0 <=? i) eqn:E; split; intros; try lia; intuition (congruence || lia). Qed.

Lemma mget_is_Some m i : 0 <= i < zlen m -> exists x, mget m i = Some x.
Proof.
  intros H. unfold mget, zlen in *. rewrite Zle_imp_le_bool by lia.
  apply lookup_lt_is_Some. lia.
Qed.

Lemma mget_None m i : ~ (0 <= i < zlen m) -> mget m i = None.
Proof.
  intros H. unfold mget, zlen in *. destruct (0 <=? i) eqn:E; [|done].
  apply lookup_ge_None. lia.
Qed.

Lemma mget_range m i x : mget m i = Some x -> 0 <= i < zlen m.
Proof.
  intros [Hi H]%mget_Some. apply lookup_lt_Some in H. unfold zlen. lia.
Qed.

Lemma mread_inv m off n r :
  mread m off n = Some r ->
  exists a c, m = a ++ r ++ c /\ zlen a = off /\ zlen r = n.
Proof.
  unfold mread. case_match eqn:E; [|done]. intros [= <-].
  exists (take (Z.to_nat off) m), (drop (Z.to_nat n) (drop (Z.to_nat off) m)).
  rewrite take_drop, take_drop. split; [done|].
  apply andb_true_iff in E as [[? ?]%andb_true_iff ?].
  rewrite zlen_take by lia. split; [lia|].
  rewrite zlen_take; [lia|]. rewrite zlen_drop by lia. lia.
Qed.

Lemma mread_is_Some m off n :
  0 <= off -> 0 <= n -> off + n <= zlen m -> exists r, mread m off n = Some r /\ zlen r = n.
Proof.
  intros. unfold mread. rewrite !Zle_imp_le_bool by lia. cbn. eexists; split; [done|].
  rewrite zlen_take; [lia|]. rewrite zlen_drop by lia. lia.
Qed.

Lemma mset_is_Some m i x : 0 <= i < zlen m -> mset m i x = Some (<[Z.to_nat i := x]> m).
Proof.
  intros. unfold mset. by rewrite Zle_imp_le_bool, (proj2 (Z.ltb_lt _ _)) by lia.
Qed.

(** Growing keeps the contents and appends [size - zlen m] unknown cells. *)
Lemma zrealloc_grow junk m size :
  zlen m <= size -> exists j, zrealloc junk m size = m ++ j /\ zlen j = size - zlen m.
Proof.
  intros H. exists (drop (length m) (zrealloc junk m size)).
  assert (Hl : zlen (zrealloc junk m size) = size).
  { apply zlen_zrealloc. pose proof (zlen_nonneg m). lia. }
  rewrite zlen_drop by (unfold zlen in *; lia). split; [|unfold zlen in *; lia].
  apply list_eq. intros i. destruct (decide (i < length m)%nat) as [Hi|Hi].
  - rewrite lookup_app_l by done. destruct (lookup_lt_is_Some_2 m i Hi) as [x Hx].
    unfold zrealloc. rewrite list_lookup_fmap, lookup_seq_lt by (unfold zlen in *; lia).
    cbn. by rewrite Hx.
  - rewrite lookup_app_r, lookup_drop by lia. f_equal. lia.
Qed.

Lemma zrealloc_shrink junk a b : zrealloc junk (a ++ b) (zlen a) = a.
Proof.
  apply list_eq. intros i. unfold zrealloc, zlen. rewrite Nat2Z.id, list_lookup_fmap.
  destruct (decide (i < length a)%nat) as [Hi|Hi].
  - rewrite lookup_seq_lt by done. cbn. rewrite lookup_app_l by done.
    destruct (lookup_lt_is_Some_2 a i Hi) as [x Hx]. by rewrite Hx.
  - rewrite lookup_seq_ge, lookup_ge_None_2 by lia. done.
Qed.

(** A write that ends at the buffer's end. *)
Lemma mwrite_end m a b bs off :
  m = a ++ b -> off = zlen a -> zlen bs = zlen b -> mwrite m off bs = Some (a ++ bs).
Proof.
  intros -> -> Hl. rewrite <- (app_nil_r (a ++ b)), <- app_assoc.
  erewrite mwrite_split by done. by rewrite app_nil_r.
Qed.

Lemma app_zlen_inj a a' b b' :
  a ++ b = a' ++ b' -> zlen a = zlen a' -> a = a' /\ b = b'.
Proof. intros H Hl. apply app_inj_1; [unfold zlen in *; lia|done]. Qed.

(** Cut a buffer at an offset. *)
Lemma zlen_cut m i : 0 <= i <= zlen m -> exists a b, m = a ++ b /\ zlen a = i.
Proof.
  intros. exists (take (Z.to_nat i) m), (drop (Z.to_nat i) m).
  rewrite take_drop, zlen_take; [split; [done|]|]; lia.
Qed.
End Buffers.

(** The C string at the start of a buffer: what comes before the first NUL. *)
Fixpoint c_string (m : list Z) : option (list Z) :=
  match m with
  | [] => None
  | c :: m => if c =? 0 then Some [] else s ← c_string m; Some (c :: s)
  end.

Lemma c_string_app s r : Forall (fun c => c <> 0) s -> c_string (s ++ 0 :: r) = Some s.
Proof. induction 1 as [|c s Hc _ IH]; [done|]. cbn [app c_string]. rewrite (proj2 (Z.eqb_neq c 0)) by done. by rewrite IH. Qed.

Create Rewrite HintDb zlen.
#[export] Hint Rewrite @zlen_nil @zlen_cons @zlen_app @zlen_insert @zlen_replicate @zlen_rev : zlen.
#[export] Hint Rewrite @zlen_take @zlen_drop @zlen_zrealloc using (autorewrite with zlen; lia) : zlen.

(** Arithmetic over buffer lengths. *)
Ltac pose_zlen :=
  repeat match goal with
  | |- context [zlen ?l] =>
      lazymatch goal with H : 0 <= zlen l |- _ => fail | _ => pose proof (zlen_nonneg l) end
  | _ : context [zlen ?l] |- _ =>
      lazymatch goal with H : 0 <= zlen l |- _ => fail | _ => pose proof (zlen_nonneg l) end
  end.
Ltac zlia := autorewrite with zlen in *; pose_zlen; lia.

(** * Bits *)

(** Joining a low part and a shifted high part is an addition. *)
Lemma lor_shiftl x b k : 0 <= k -> 0 <= x < 2 ^ k -> Z.lor x (Z.shiftl b k) = x + b * 2 ^ k.
Proof.
  intros Hk Hx. assert (Hl : Z.land x (Z.shiftl b k) = 0).
  { apply Z.bits_inj'. intros n Hn. rewrite Z.land_spec, Z.bits_0, Z.shiftl_spec by lia.
    destruct (decide (n < k)).
    - rewrite (Z.testbit_neg_r b) by lia. apply andb_false_r.
    - destruct (Z.testbit x n) eqn:E; [|done].
      rewrite <- (Z.mod_small x (2 ^ k)), Z.mod_pow2_bits_high in E by lia. done. }
  rewrite <- Z.lxor_lor, <- Z.add_nocarry_lxor by done. by rewrite Z.shiftl_mul_pow2 by lia.
Qed.

(** A property of bytes checked on all of them. *)
Definition all_below (n : nat) (f : Z -> bool) : bool := forallb (fun k => f (Z.of_nat k)) (seq 0 n).

Lemma all_below_spec n f b : all_below n f = true -> 0 <= b < Z.of_nat n -> f b = true.
Proof.
  unfold all_below. rewrite forallb_forall. intros H Hb. specialize (H (Z.to_nat b)).
  rewrite in_seq, Z2Nat.id in H by lia. apply H. lia.
Qed.

Lemma land_ones_mod x k : 0 <= k -> Z.land x (Z.ones k) = x mod 2 ^ k.
Proof. intros. by apply Z.land_ones. Qed.

Lemma land_127 x : Z.land x 127 = x mod 128.
Proof. apply (land_ones_mod x 7). lia. Qed.

Lemma gtb_true a b : b < a -> (a >? b) = true.
Proof. intros. rewrite Z.gtb_ltb. by apply Z.ltb_lt. Qed.
Lemma gtb_false a b : a <= b -> (a >? b) = false.
Proof. intros. rewrite Z.gtb_ltb. by apply Z.ltb_ge. Qed.
Lemma geb_true a b : b <= a -> (a >=? b) = true.
Proof. intros. rewrite Z.geb_leb. by apply Z.leb_le. Qed.
Lemma geb_false a b : a < b -> (a >=? b) = false.
Proof. intros. rewrite Z.geb_leb. by apply Z.leb_gt. Qed.

(** Decide the integer comparisons of the goal that [lia] can decide. *)
Ltac zbool_step :=
  match goal with
  | |- context [?a >? ?b] =>
      first [ rewrite (gtb_true a b) by lia | rewrite (gtb_false a b) by lia ]
  | |- context [?a >=? ?b] =>
      first [ rewrite (geb_true a b) by lia | rewrite (geb_false a b) by lia ]
  | |- context [?a =? ?b] =>
      first [ rewrite (proj2 (Z.eqb_eq a b)) by lia | rewrite (proj2 (Z.eqb_neq a b)) by lia ]
  | |- context [?a <? ?b] =>
      first [ rewrite (proj2 (Z.ltb_lt a b)) by lia | rewrite (proj2 (Z.ltb_ge a b)) by lia ]
  | |- context [?a <=? ?b] =>
      first [ rewrite (proj2 (Z.leb_le a b)) by lia | rewrite (proj2 (Z.leb_gt a b)) by lia ]
  end.
Ltac zbool := repeat zbool_step; cbn [andb orb negb].

(** * Integers as bytes, little endian *)

Fixpoint le_bytes (n : nat) (x : Z) : list Z :=
  match n with
  | O => []
  | S n' => Z.land x 255 :: le_bytes n' (Z.shiftr x 8)
  end.

Fixpoint le_val (bs : list Z) : Z :=
  match bs with
  | [] => 0
  | b :: bs' => b + 256 * le_val bs'
  end.

Lemma land_255 x : Z.land x 255 = x mod 256.
Proof. change 255 with (Z.ones 8). by rewrite Z.land_ones by lia. Qed.

Lemma shiftr_8 x : Z.shiftr x 8 = x / 256.
Proof. by rewrite Z.shiftr_div_pow2 by lia. Qed.

Lemma zlen_le_bytes n x : zlen (le_bytes n x) = Z.of_nat n.
Proof.
  revert x. induction n as [|n IH]; intros x; [done|].
  cbn [le_bytes]. rewrite zlen_cons, IH. lia.
Qed.
#[export] Hint Rewrite zlen_le_bytes : zlen.

Lemma le_bytes_ok n x : bytes_ok (le_bytes n x).
Proof.
  revert x. induction n as [|n IH]; intros x; cbn [le_bytes]; constructor; [|apply IH].
  rewrite land_255. apply Z.mod_pos_bound. lia.
Qed.

Lemma le_val_le_bytes n x : le_val (le_bytes n x) = x mod 2 ^ (8 * Z.of_nat n).
Proof.
  revert x. induction n as [|n IH]; intros x.
  { cbn. by rewrite Z.mod_1_r. }
  cbn [le_bytes le_val]. rewrite IH, land_255, shiftr_8.
  replace (2 ^ (8 * Z.of_nat (S n))) with (256 * 2 ^ (8 * Z.of_nat n)).
  - rewrite Z.rem_mul_r by lia. done.
  - replace (8 * Z.of_nat (S n)) with (8 + 8 * Z.of_nat n) by lia.
    by rewrite Z.pow_add_r by lia.
Qed.

Lemma le_val_range bs : bytes_ok bs -> 0 <= le_val bs < 2 ^ (8 * zlen bs).
Proof.
  induction 1 as [|b bs Hb _ IH]; [by cbn|].
  rewrite zlen_cons. cbn [le_val]. unfold byte_ok in Hb.
  pose proof (zlen_nonneg bs).
  replace (8 * (1 + zlen bs)) with (8 + 8 * zlen bs) by lia.
  rewrite Z.pow_add_r by lia. change (2 ^ 8) with 256. nia.
Qed.

Lemma le_bytes_le_val bs : bytes_ok bs -> le_bytes (length bs) (le_val bs) = bs.
Proof.
  induction 1 as [|b bs Hb _ IH]; [done|].
  cbn [length le_bytes le_val]. unfold byte_ok in Hb. f_equal.
  - rewrite land_255. rewrite Z.mul_comm, Z.mod_add, Z.mod_small; lia.
  - rewrite shiftr_8, Z.mul_comm, Z.div_add, Z.div_small by lia. exact IH.
Qed.

(** The shift-and-mask idioms of the source are [le_bytes] and [le_val]. *)
Lemma le_bytes_2 w : le_bytes 2 w = [Z.land w 255; Z.land (Z.shiftr w 8) 255].
Proof. done. Qed.

Lemma le_bytes_3 w :
  le_bytes 3 w = [Z.land w 255; Z.land (Z.shiftr w 8) 255; Z.land (Z.shiftr w 16) 255].
Proof. cbn [le_bytes]. by rewrite !Z.shiftr_shiftr by lia. Qed.

Lemma le_bytes_4 w :
  le_bytes 4 w = [Z.land w 255; Z.land (Z.shiftr w 8) 255; Z.land (Z.shiftr w 16) 255;
                  Z.land (Z.shiftr w 24) 255].
Proof. cbn [le_bytes]. by rewrite !Z.shiftr_shiftr by lia. Qed.

Lemma le_bytes_8 w :
  le_bytes 8 w = [Z.land w 255; Z.land (Z.shiftr w 8) 255; Z.land (Z.shiftr w 16) 255;
                  Z.land (Z.shiftr w 24) 255; Z.land (Z.shiftr w 32) 255; Z.land (Z.shiftr w 40) 255;
                  Z.land (Z.shiftr w 48) 255; Z.land (Z.shiftr w 56) 255].
Proof. cbn [le_bytes]. by rewrite !Z.shiftr_shiftr by lia. Qed.

(** Bytes joined with [|] and [<<], from the lowest one: [lor_bytes k bs x] joins
    [bs] to [x], the first of them at bit [k]. *)
Fixpoint lor_bytes (k : Z) (bs : list Z) (x : Z) : Z :=
  match bs with
  | [] => x
  | b :: bs' => lor_bytes (k + 8) bs' (Z.lor x (Z.shiftl b k))
  end.

Lemma lor_bytes_spec bs k x :
  0 <= k -> 0 <= x < 2 ^ k -> bytes_ok bs -> lor_bytes k bs x = x + 2 ^ k * le_val bs.
Proof.
  intros Hk Hx Hb. revert k x Hk Hx. induction Hb as [|b bs Hb _ IH]; intros k x Hk Hx; cbn [lor_bytes le_val].
  - lia.
  - unfold byte_ok in Hb. rewrite lor_shiftl by lia.
    assert (2 ^ (k + 8) = 2 ^ k * 256) by (by rewrite Z.pow_add_r by lia).
    rewrite IH by nia. nia.
Qed.

Lemma lor_bytes_le b bs : byte_ok b -> bytes_ok bs -> lor_bytes 8 bs b = le_val (b :: bs).
Proof. intros Hb Hbs. rewrite lor_bytes_spec by (unfold byte_ok in *; auto; lia). cbn [le_val]. lia. Qed.

(** The whole number from its bytes. *)
Lemma le_val_small (n : nat) w : 0 <= w < 2 ^ (8 * Z.of_nat n) -> le_val (le_bytes n w) = w.
Proof. intros. rewrite le_val_le_bytes. by apply Z.mod_small. Qed.

(** The top byte needs no mask when the number fits. *)
Lemma top_byte w k : 0 <= k -> 0 <= w < 2 ^ (k + 8) -> u8 (Z.shiftr w k) = Z.land (Z.shiftr w k) 255.
Proof. intros. by rewrite land_255. Qed.

(** * Exclusive or *)

Lemma uwrap_land w x : 0 <= w -> uwrap w x = Z.land x (Z.ones w).
Proof. intros. symmetry. by apply Z.land_ones. Qed.

Lemma land_lxor_l x y m : Z.land (Z.lxor x y) m = Z.lxor (Z.land x m) (Z.land y m).
Proof.
  apply Z.bits_inj'. intros n _. rewrite !Z.land_spec, !Z.lxor_spec, !Z.land_spec.
  by destruct (Z.testbit x n), (Z.testbit y n), (Z.testbit m n).
Qed.

Lemma uwrap_lxor w x y : 0 <= w -> uwrap w (Z.lxor x y) = Z.lxor (uwrap w x) (uwrap w y).
Proof. intros. rewrite !uwrap_land by done. apply land_lxor_l. Qed.

Lemma lxor_range w x y : 0 <= w -> 0 <= x < 2 ^ w -> 0 <= y < 2 ^ w -> 0 <= Z.lxor x y < 2 ^ w.
Proof.
  intros Hw Hx Hy. rewrite <- (uwrap_small w x), <- (uwrap_small w y), <- uwrap_lxor by done.
  by apply uwrap_range.
Qed.

Lemma shiftr_range w k x : 0 <= k <= w -> 0 <= x < 2 ^ w -> 0 <= Z.shiftr x k < 2 ^ (w - k).
Proof.
  intros Hk Hx. rewrite Z.shiftr_div_pow2 by lia. split; [apply Z.div_pos; lia|].
  apply Z.div_lt_upper_bound; [lia|]. rewrite <- Z.pow_add_r by lia. replace (k + (w - k)) with w by lia. lia.
Qed.

(** A number is its low bits and its high bits. *)
Lemma lxor_split k x : 0 <= k -> x = Z.lxor (x mod 2 ^ k) (Z.shiftl (Z.shiftr x k) k).
Proof.
  intros Hk. apply Z.bits_inj'. intros n Hn. rewrite Z.lxor_spec, Z.shiftl_spec by done.
  destruct (decide (n < k)).
  - rewrite Z.mod_pow2_bits_low, (Z.testbit_neg_r _ (n - k)) by lia. by rewrite xorb_false_r.
  - rewrite Z.mod_pow2_bits_high, Z.shiftr_spec, xorb_false_l by lia. f_equal. lia.
Qed.

(** Bitwise identities of exclusive or, by cases on every bit. *)
Ltac lxor_ac :=
  apply Z.bits_inj'; intros ? _; rewrite ?Z.lxor_spec;
  repeat match goal with |- context [Z.testbit ?a ?n] => destruct (Z.testbit a n) end; reflexivity.

(** * Writes that stay inside a buffer *)

Lemma mset_ok {A} (m : list A) i x : 0 <= i < zlen m -> exists m', mset m i x = Some m' /\ zlen m' = zlen m.
Proof. intros. rewrite mset_is_Some by done. eexists; split; [done|]. apply zlen_insert. Qed.

Lemma mwrite_ok {A} (m : list A) off bs : 0 <= off -> off + zlen bs <= zlen m ->
  exists m', mwrite m off bs = Some m' /\ zlen m' = zlen m.
Proof.
  intros H1 H2. unfold mwrite. pose proof (zlen_nonneg bs).
  rewrite !Zle_imp_le_bool by lia. eexists; split; [done|]. autorewrite with zlen. lia.
Qed.

Lemma Forall_mget {A} (P : A -> Prop) m i x : Forall P m -> mget m i = Some x -> P x.
Proof. intros Hf [_ Hx]%mget_Some. by eapply Forall_lookup_1. Qed.

Lemma mget_at1 {A} (a : list A) x y c i : i = zlen a + 1 -> mget (a ++ x :: y :: c) i = Some y.
Proof. intros ->. change (a ++ x :: y :: c) with (a ++ [x] ++ y :: c). rewrite app_assoc. apply mget_split. zlia. Qed.

Lemma mget_at2 {A} (a : list A) x y z c i : i = zlen a + 2 -> mget (a ++ x :: y :: z :: c) i = Some z.
Proof. intros ->. change (a ++ x :: y :: z :: c) with (a ++ [x; y] ++ z :: c). rewrite app_assoc. apply mget_split. zlia. Qed.

Lemma elem_of_concat {A} (t : list (list A)) x : x ∈ concat t <-> exists c, c ∈ t /\ x ∈ c.
Proof.
  induction t as [|c t IH]; cbn [concat].
  - split; [by intros ?%elem_of_nil|]. intros (c & Hc & _). by apply elem_of_nil in Hc.
  - rewrite elem_of_app, IH. split.
    + intros [?|(c' & ? & ?)]; [exists c|exists c']; split; auto; by constructor.
    + intros (c' & [->|?]%elem_of_cons & ?); eauto.
Qed.

(** One step of a computation that succeeded, without unfolding the rest. *)
Lemma bind_Some {A B} (f : A -> option B) x : (Some x ≫= f) = f x.
Proof. done. Qed.

(** The element a C index designates: from the head, or from the tail when it
    is negative. *)
Definition index_of {A} (es : list A) (index : Z) : option nat :=
  let i := if index <? 0 then zlen es + index else index in
  if (0 <=? i) && (i <? zlen es) then Some (Z.to_nat i) else None.

Lemma index_of_lt {A} (es : list A) index i : index_of es index = Some i -> (i < length es)%nat.
Proof.
  unfold index_of. destruct (_ && _) eqn:E; [|done]. intros [= <-].
  apply andb_true_iff in E as [E1%Z.leb_le E2%Z.ltb_lt]. unfold zlen in *. lia.
Qed.
