(* ===== verification/Intset.v ===== *)
(** * Intset: the sorted integer array behind small integer sets (intset.c)

    State: the [intset] struct, its [contents] as the raw bytes of the flexible
    array.  Every access to [contents] goes through the bounds-checked reads and
    writes of [Prelude], so a [Some] result is also memory safety.  The host is
    little endian: the [memrev*ifbe] and [intrev*ifbe] macros are the identity. *)
From Stdlib Require Import ZArith Lia Sorted.
From stdpp Require Import base numbers list option gmap.
From S2P Require Import Prelude.

(** ** Data and operations *)

Record intset := mk_intset {
  encoding : Z;   (* uint32_t *)
  ilength : Z;    (* uint32_t *)
  contents : list Z  (* int8_t contents[] *)
}.

Definition INTSET_ENC_INT16 : Z := 2.
Definition INTSET_ENC_INT32 : Z := 4.
Definition INTSET_ENC_INT64 : Z := 8.

Definition _intsetValueEncoding (v : Z) : Z :=
  if (v <? - 2 ^ 31) || (2 ^ 31 - 1 <? v) then INTSET_ENC_INT64
  else if (v <? - 2 ^ 15) || (2 ^ 15 - 1 <? v) then INTSET_ENC_INT32
  else INTSET_ENC_INT16.

Definition _intsetGetEncoded (s : intset) (pos enc : Z) : option Z :=
  if enc =? INTSET_ENC_INT64 then
    bs ← mread (contents s) (pos * 8) 8; Some (i64 (le_val bs))
  else if enc =? INTSET_ENC_INT32 then
    bs ← mread (contents s) (pos * 4) 4; Some (i32 (le_val bs))
  else
    bs ← mread (contents s) (pos * 2) 2; Some (i16 (le_val bs)).

Definition _intsetGet (s : intset) (pos : Z) : option Z :=
  _intsetGetEncoded s pos (encoding s).

Definition with_contents (s : intset) (c : list Z) : intset :=
  mk_intset (encoding s) (ilength s) c.

Definition _intsetSet (s : intset) (pos value : Z) : option intset :=
  if encoding s =? INTSET_ENC_INT64 then
    c ← mwrite (contents s) (pos * 8) (le_bytes 8 value); Some (with_contents s c)
  else if encoding s =? INTSET_ENC_INT32 then
    c ← mwrite (contents s) (pos * 4) (le_bytes 4 value); Some (with_contents s c)
  else
    c ← mwrite (contents s) (pos * 2) (le_bytes 2 value); Some (with_contents s c).

Definition intsetNew : intset := mk_intset INTSET_ENC_INT16 0 [].

(** The binary search loop; the state s (min, max, mid, cur) and the result
    (min, mid, cur) after the loop. *)
Fixpoint intsetSearch_loop (fuel : nat) (s : intset) (value min max mid cur : Z)
    : option (Z * Z * Z) :=
  if max >=? min then
    match fuel with
    | O => None
    | S fuel' =>
        let mid := i32 (Z.shiftr (u32 (u32 min + u32 max)) 1) in
        cur ← _intsetGet s mid;
        if value >? cur then intsetSearch_loop fuel' s value (mid + 1) max mid cur
        else if value <? cur then intsetSearch_loop fuel' s value min (mid - 1) mid cur
        else Some (min, mid, cur)
    end
  else Some (min, mid, cur).

(** Result: (found, *pos). The fuel covers the whole array once. *)
Definition intsetSearch (s : intset) (value : Z) : option (bool * Z) :=
  let max := i32 (ilength s - 1) in
  if ilength s =? 0 then Some (false, 0)
  else
    last ← _intsetGet s (i32 (ilength s - 1));
    if value >? last then Some (false, ilength s)
    else
      first ← _intsetGet s 0;
      if value <? first then Some (false, 0)
      else
        r ← intsetSearch_loop (S (Z.to_nat (ilength s))) s value 0 max (-1) (-1);
        let '(min, mid, cur) := r in
        if value =? cur then Some (true, u32 mid) else Some (false, u32 min).

Definition intsetMoveTail (s : intset) (from to : Z) : option intset :=
  let bytes := u32 (ilength s - from) in
  let enc := encoding s in
  let sz := if enc =? INTSET_ENC_INT64 then 8
            else if enc =? INTSET_ENC_INT32 then 4 else 2 in
  c ← mmove (contents s) (to * sz) (from * sz) (u32 (bytes * sz));
  Some (with_contents s c).

Section Alloc.
(** What [zrealloc] leaves in freshly obtained bytes. *)
Variable junk : nat -> Z.

Definition intsetResize (s : intset) (len : Z) : intset :=
  let size := u32 (len * encoding s) in
  with_contents s (zrealloc junk (contents s) size).

(** [while(length--) _intsetSet(s,length+prepend,_intsetGetEncoded(s,length,curenc))] *)
Fixpoint intsetUpgrade_loop (fuel : nat) (s : intset) (length prepend curenc : Z)
    : option intset :=
  if length =? 0 then Some s
  else match fuel with
  | O => None
  | S fuel' =>
      let length := length - 1 in
      v ← _intsetGetEncoded s length curenc;
      s ← _intsetSet s (length + prepend) v;
      intsetUpgrade_loop fuel' s length prepend curenc
  end.

Definition intsetUpgradeAndAdd (s : intset) (value : Z) : option intset :=
  let curenc := encoding s in
  let newenc := _intsetValueEncoding value in
  let length := i32 (ilength s) in
  let prepend := if value <? 0 then 1 else 0 in
  let s := mk_intset newenc (ilength s) (contents s) in
  let s := intsetResize s (u32 (ilength s + 1)) in
  s ← intsetUpgrade_loop (Z.to_nat length) s length prepend curenc;
  s ← (if prepend =? 1 then _intsetSet s 0 value else _intsetSet s (ilength s) value);
  Some (mk_intset (encoding s) (u32 (ilength s + 1)) (contents s)).

(** Result: (the set, *success). *)
Definition intsetAdd (s : intset) (value : Z) : option (intset * bool) :=
  let valenc := _intsetValueEncoding value in
  if valenc >? encoding s then
    s ← intsetUpgradeAndAdd s value; Some (s, true)
  else
    r ← intsetSearch s value;
    let '(found, pos) := r in
    if found : bool then Some (s, false)
    else
      let s := intsetResize s (u32 (ilength s + 1)) in
      s ← (if pos <? ilength s then intsetMoveTail s pos (u32 (pos + 1)) else Some s);
      s ← _intsetSet s pos value;
      Some (mk_intset (encoding s) (u32 (ilength s + 1)) (contents s), true).

Definition intsetRemove (s : intset) (value : Z) : option (intset * bool) :=
  let valenc := _intsetValueEncoding value in
  if valenc <=? encoding s then
    r ← intsetSearch s value;
    let '(found, pos) := r in
    if found : bool then
      let len := ilength s in
      s ← (if pos <? u32 (len - 1) then intsetMoveTail s (u32 (pos + 1)) pos else Some s);
      let s := intsetResize s (u32 (len - 1)) in
      Some (mk_intset (encoding s) (u32 (len - 1)) (contents s), true)
    else Some (s, false)
  else Some (s, false).
End Alloc.

Definition intsetFind (s : intset) (value : Z) : option bool :=
  let valenc := _intsetValueEncoding value in
  if valenc <=? encoding s then
    r ← intsetSearch s value; Some (fst r)
  else Some false.

(** [rnd] s the value [rand()] returned. *)
Definition intsetRandom (rnd : Z) (s : intset) : option Z :=
  _intsetGet s (i32 (rnd mod ilength s)).

(** Result: [Some (Some v)] when the C function returns 1 with [*value = v],
    [Some None] when it returns 0. *)
Definition intsetGet (s : intset) (pos : Z) : option (option Z) :=
  if pos <? ilength s then v ← _intsetGet s (i32 pos); Some (Some v)
  else Some None.

Definition intsetLen (s : intset) : Z := ilength s.

Definition intsetBlobLen (s : intset) : Z := 8 + u32 (ilength s * encoding s).

Example intset_ex :
  (s ← intsetAdd (fun _ => 77) intsetNew 5;
   s ← intsetAdd (fun _ => 77) (fst s) (-70000);
   s ← intsetAdd (fun _ => 77) (fst s) 3;
   s ← intsetAdd (fun _ => 77) (fst s) (2^40);
   s ← intsetRemove (fun _ => 77) (fst s) 3;
   a ← intsetGet (fst s) 0; b ← intsetGet (fst s) 1; c ← intsetGet (fst s) 2;
   f ← intsetFind (fst s) 3;
   Some (intsetLen (fst s), a, b, c, f))
  = Some (3, Some (-70000), Some 5, Some (2^40), false).
Proof. vm_compute. reflexivity. Qed.

(** ** The array as a list of integers *)

Definition enc_ok (e : Z) : Prop := e = 2 \/ e = 4 \/ e = 8.

(** The bytes of the elements [l] at [e] bytes each. *)
Definition encl (e : Z) (l : list Z) : list Z := concat (le_bytes (Z.to_nat e) <$> l).

(** [s] holds exactly the elements [l]; the last bound keeps [len*encoding] of
    [intsetResize] inside its [uint32_t], also after one more insertion. *)
Record intset_repr (s : intset) (l : list Z) : Prop := {
  ir_enc : enc_ok (encoding s);
  ir_len : ilength s = zlen l;
  ir_bytes : contents s = encl (encoding s) l;
  ir_fit : Forall (in_s (8 * encoding s)) l;
  ir_size : (zlen l + 1) * 8 < 2 ^ 32
}.

(** The invariant: the elements are strictly increasing. *)
Definition intset_ok (s : intset) (l : list Z) : Prop :=
  intset_repr s l /\ StronglySorted Z.lt l.

Lemma encl_app e a b : encl e (a ++ b) = encl e a ++ encl e b.
Proof. unfold encl. by rewrite fmap_app, concat_app. Qed.

Lemma encl_cons e x a : encl e (x :: a) = le_bytes (Z.to_nat e) x ++ encl e a.
Proof. done. Qed.

Lemma zlen_encl e l : 0 <= e -> zlen (encl e l) = e * zlen l.
Proof.
  intros He. induction l as [|x l IH]; [cbn; rewrite !zlen_nil; lia|].
  rewrite encl_cons. autorewrite with zlen. rewrite IH. lia.
Qed.

Lemma le_val_signed e x :
  0 < e -> in_s (8 * e) x -> swrap (8 * e) (le_val (le_bytes (Z.to_nat e) x)) = x.
Proof.
  intros He Hx. rewrite le_val_le_bytes, Z2Nat.id by lia.
  change (swrap (8 * e) (uwrap (8 * e) x) = x).
  rewrite swrap_uwrap by lia. apply swrap_small; [lia|done].
Qed.

(** Every element read or written with encoding [e] is a slice of [e] bytes. *)
Lemma getEncoded_split s e a x c pos :
  enc_ok e -> contents s = a ++ le_bytes (Z.to_nat e) x ++ c -> zlen a = pos * e ->
  in_s (8 * e) x -> _intsetGetEncoded s pos e = Some x.
Proof.
  intros He Hc Ha Hx. unfold _intsetGetEncoded. rewrite Hc.
  destruct He as [-> | [-> | ->]]; cbn [Z.eqb INTSET_ENC_INT64 INTSET_ENC_INT32 Pos.eqb];
    (erewrite mread_split by (rewrite ?zlen_le_bytes; lia)); cbn [mbind option_bind];
    f_equal;
    first [exact (le_val_signed 2 x eq_refl Hx) | exact (le_val_signed 4 x eq_refl Hx)
          | exact (le_val_signed 8 x eq_refl Hx)].
Qed.

Lemma set_split s a b c pos v :
  enc_ok (encoding s) -> contents s = a ++ b ++ c -> zlen a = pos * encoding s ->
  zlen b = encoding s ->
  _intsetSet s pos v =
    Some (with_contents s (a ++ le_bytes (Z.to_nat (encoding s)) v ++ c)).
Proof.
  intros He Hc Ha Hb. unfold _intsetSet. rewrite Hc.
  destruct He as [E | [E | E]]; rewrite E in *;
    cbn [Z.eqb INTSET_ENC_INT64 INTSET_ENC_INT32 Pos.eqb];
    (erewrite mwrite_split by (rewrite ?zlen_le_bytes; lia); done).
Qed.

Lemma getEncoded_encl s e a x b c pos :
  enc_ok e -> contents s = encl e (a ++ x :: b) ++ c -> pos = zlen a ->
  in_s (8 * e) x -> _intsetGetEncoded s pos e = Some x.
Proof.
  intros He Hc -> Hx. rewrite encl_app, encl_cons, <- !app_assoc in Hc.
  eapply getEncoded_split; [done|exact Hc| |done].
  rewrite zlen_encl; destruct He as [-> | [-> | ->]]; lia.
Qed.

Lemma repr_get s l i x :
  intset_repr s l -> l !! Z.to_nat i = Some x -> 0 <= i -> _intsetGet s i = Some x.
Proof.
  intros [He Hl Hb Hf Hs] Hi Hp. unfold _intsetGet.
  pose proof (Forall_lookup_1 _ _ _ _ Hf Hi) as Hx.
  apply take_drop_middle in Hi as Hsplit. apply lookup_lt_Some in Hi.
  eapply (getEncoded_encl _ _ (take (Z.to_nat i) l) x (drop (S (Z.to_nat i)) l) []); [done| | |done].
  - by rewrite Hsplit, app_nil_r.
  - unfold zlen. rewrite length_take. lia.
Qed.

(** ** Search *)

Lemma sorted_lookup_lt l i j x y :
  StronglySorted Z.lt l -> l !! i = Some x -> l !! j = Some y -> (i < j)%nat -> x < y.
Proof.
  intros Hs. revert i j. induction Hs as [|z l Hs IH Hz]; intros i j Hi Hj Hij; [done|].
  destruct j as [|j]; [lia|]. destruct i as [|i]; cbn in Hi, Hj.
  - injection Hi as ->. by eapply Forall_lookup_1 in Hz.
  - eapply IH; eauto. lia.
Qed.

Lemma sorted_lookup_le l i j x y :
  StronglySorted Z.lt l -> l !! i = Some x -> l !! j = Some y -> (i <= j)%nat -> x <= y.
Proof.
  intros Hs Hi Hj Hij. destruct (decide (i = j)) as [->|].
  - rewrite Hi in Hj. injection Hj as ->. lia.
  - assert (x < y); [|lia]. eapply (sorted_lookup_lt l i j); eauto. lia.
Qed.

(** Where [v] is, or belongs, in a sorted list. *)
Definition position_of (l : list Z) (v : Z) (found : bool) (pos : Z) : Prop :=
  exists l1 l2, l = l1 ++ l2 /\ pos = zlen l1 /\ Forall (fun x => x < v) l1 /\
    if found then exists l2', l2 = v :: l2' else Forall (fun x => v < x) l2.

Lemma position_of_found l v i :
  StronglySorted Z.lt l -> l !! Z.to_nat i = Some v -> 0 <= i -> position_of l v true i.
Proof.
  intros Hs Hi Hp. apply take_drop_middle in Hi as E.
  exists (take (Z.to_nat i) l), (drop (Z.to_nat i) l).
  assert (Hlt := lookup_lt_Some _ _ _ Hi).
  repeat split.
  - by rewrite take_drop.
  - unfold zlen. rewrite length_take. lia.
  - apply Forall_lookup. intros j x Hj. apply lookup_take_Some in Hj as [Hj ?].
    eapply (sorted_lookup_lt l j (Z.to_nat i)); eauto; lia.
  - exists (drop (S (Z.to_nat i)) l). rewrite <- E at 1.
    rewrite drop_app_length'; [done|]. rewrite length_take. lia.
Qed.

(** The search invariant, index by index: everything left of [min] is smaller,
    everything right of [max] is larger. *)
Definition split_at (l : list Z) (v min max : Z) : Prop :=
  (forall i x, l !! i = Some x -> Z.of_nat i < min -> x < v) /\
  (forall i x, l !! i = Some x -> max < Z.of_nat i -> v < x).

Lemma position_of_missing l v min :
  split_at l v min (min - 1) -> 0 <= min <= zlen l -> position_of l v false min.
Proof.
  intros [Hlo Hhi] Hm. unfold zlen in *.
  exists (take (Z.to_nat min) l), (drop (Z.to_nat min) l). repeat split.
  - by rewrite take_drop.
  - unfold zlen. rewrite length_take. lia.
  - apply Forall_lookup. intros j x Hj. apply lookup_take_Some in Hj as [Hj ?].
    eapply Hlo; eauto; lia.
  - apply Forall_lookup. intros j x Hj. rewrite lookup_drop in Hj. eapply Hhi; eauto; lia.
Qed.

Lemma mid_between min max :
  0 <= min <= max -> max < 2 ^ 31 ->
  min <= i32 (Z.shiftr (u32 (u32 min + u32 max)) 1) <= max.
Proof.
  intros. rewrite !(uwrap_small _ min), !(uwrap_small _ max), uwrap_small by lia.
  rewrite Z.shiftr_div_pow2 by lia. change (2 ^ 1) with 2.
  rewrite swrap_small; [|lia|unfold in_s]; Z.div_mod_to_equations; lia.
Qed.

(** The loop stops with enough fuel; it ends on [value] or with [min] the
    insertion point. *)
Lemma search_loop_spec s l v (fuel : nat) min max mid cur :
  intset_repr s l -> StronglySorted Z.lt l ->
  0 <= min -> max < zlen l -> min <= max + 1 -> max - min < Z.of_nat fuel ->
  split_at l v min max -> cur <> v \/ min <= max ->
  exists min' mid' cur',
    intsetSearch_loop fuel s v min max mid cur = Some (min', mid', cur') /\
    (cur' = v -> 0 <= mid' /\ l !! Z.to_nat mid' = Some v) /\
    (cur' <> v -> split_at l v min' (min' - 1) /\ 0 <= min' <= zlen l).
Proof.
  intros Hr Hs. pose proof (ir_size _ _ Hr) as Hsz.
  revert min max mid cur. induction fuel as [|fuel IH]; intros min max mid cur Hmin Hmax Hmm Hf Hsp Hcur.
  - cbn. destruct (max >=? min) eqn:E; [lia|]. eexists _, _, _; split; [done|].
    split; [lia|]. intros _. replace (min - 1) with max by lia. split; [done|lia].
  - cbn [intsetSearch_loop]. destruct (max >=? min) eqn:E.
    2:{ eexists _, _, _; split; [done|]. split; [lia|]. intros _.
        replace (min - 1) with max by lia. split; [done|lia]. }
    pose proof (mid_between min max ltac:(lia) ltac:(lia)) as Hmid.
    set (m := i32 _) in *. clearbody m.
    destruct (lookup_lt_is_Some_2 l (Z.to_nat m)) as [x Hx]; [unfold zlen in *; lia|].
    erewrite repr_get by (eauto; lia). cbn [mbind option_bind].
    destruct Hsp as [Hlo Hhi].
    destruct (v >? x) eqn:E1; [|destruct (v <? x) eqn:E2].
    + apply IH; try lia. split; [|done]. intros i y Hi Hlt.
      enough (y <= x) by lia. eapply (sorted_lookup_le l i (Z.to_nat m)); eauto; lia.
    + apply IH; try lia. split; [done|]. intros i y Hi Hlt.
      enough (x <= y) by lia. eapply (sorted_lookup_le l (Z.to_nat m) i); eauto; lia.
    + assert (x = v) as -> by lia. eexists _, _, _; split; [done|]. split; [|done].
      intros _. split; [lia|done].
Qed.

Lemma search_spec s l v :
  intset_ok s l ->
  exists found pos, intsetSearch s v = Some (found, pos) /\ position_of l v found pos.
Proof.
  intros [Hr Hs]. pose proof (ir_len _ _ Hr) as Hl. pose proof (ir_size _ _ Hr) as Hsz.
  pose proof (zlen_nonneg l) as Hnn. unfold intsetSearch. rewrite Hl.
  destruct (zlen l =? 0) eqn:E0.
  { eexists false, 0. split; [done|]. exists [], l. destruct l; [|rewrite zlen_cons in E0; zlia].
    repeat split; constructor. }
  rewrite (swrap_small 32 (zlen l - 1)) by (unfold in_s; lia).
  destruct (lookup_lt_is_Some_2 l (Z.to_nat (zlen l - 1))) as [z Hz]; [unfold zlen in *; lia|].
  rewrite (repr_get s l _ z Hr Hz) by lia. cbn [mbind option_bind].
  destruct (v >? z) eqn:E1.
  { eexists false, _; split; [done|]. apply position_of_missing; [|lia]. split.
    - intros i x Hi Hlt. enough (x <= z) by lia.
      eapply (sorted_lookup_le l i (Z.to_nat (zlen l - 1))); eauto; lia.
    - intros i x Hi Hlt. apply lookup_lt_Some in Hi. unfold zlen in *. lia. }
  destruct (lookup_lt_is_Some_2 l 0%nat) as [a Ha]; [unfold zlen in *; lia|].
  rewrite (repr_get s l 0 a Hr Ha) by lia. cbn [mbind option_bind].
  destruct (v <? a) eqn:E2.
  { eexists false, 0; split; [done|]. apply position_of_missing; [|lia]. split; [lia|].
    intros i x Hi Hlt. enough (a <= x) by lia.
    eapply (sorted_lookup_le l 0 i); eauto; lia. }
  edestruct (search_loop_spec s l v (S (Z.to_nat (zlen l))) 0 (zlen l - 1) (-1) (-1))
    as (min' & mid' & cur' & -> & Hfound & Hmiss); eauto; try lia.
  { split; intros i x Hi ?; [lia|]. apply lookup_lt_Some in Hi. unfold zlen in *. lia. }
  cbn [mbind option_bind]. destruct (v =? cur') eqn:E3.
  - destruct Hfound as [? Hi]; [lia|]. assert (Hlt := lookup_lt_Some _ _ _ Hi).
    eexists true, _; split; [done|]. unfold zlen in *.
    rewrite uwrap_small by lia. by apply position_of_found.
  - destruct Hmiss as [? ?]; [lia|]. eexists false, _; split; [done|].
    rewrite uwrap_small by lia. by apply position_of_missing.
Qed.

(** ** Insertion *)

Lemma enc_of_value v : enc_ok (_intsetValueEncoding v).
Proof. unfold _intsetValueEncoding, enc_ok. repeat case_match; auto. Qed.

Lemma value_fits v e :
  in_s 64 v -> enc_ok e -> _intsetValueEncoding v <= e <-> in_s (8 * e) v.
Proof.
  unfold _intsetValueEncoding, INTSET_ENC_INT64, INTSET_ENC_INT32, INTSET_ENC_INT16, in_s.
  intros Hv He. destruct He as [-> | [-> | ->]]; cbn in *; repeat case_match; lia.
Qed.

Lemma value_encoding_fits v : in_s 64 v -> in_s (8 * _intsetValueEncoding v) v.
Proof. intros. apply value_fits; [done|apply enc_of_value|lia]. Qed.

Lemma in_s_mono e e' v : enc_ok e -> enc_ok e' -> e <= e' -> in_s (8 * e) v -> in_s (8 * e') v.
Proof.
  unfold in_s. intros [-> | [-> | ->]] [-> | [-> | ->]]; cbn; lia.
Qed.

Lemma encl_take_drop e l (n : nat) : encl e l = encl e (take n l) ++ encl e (drop n l).
Proof. by rewrite <- encl_app, take_drop. Qed.

(** State of the in-place upgrade when the first [n] elements are still in the
    old encoding [ce] and the others already sit at their new place. *)
Definition upgrading (s : intset) (l : list Z) (ce p n : Z) : Prop :=
  exists mid tl,
    contents s = (encl ce (take (Z.to_nat n) l) ++ mid) ++
                 encl (encoding s) (drop (Z.to_nat n) l) ++ tl /\
    zlen (encl ce (take (Z.to_nat n) l) ++ mid) = (n + p) * encoding s /\
    zlen tl = (1 - p) * encoding s.

Lemma encl_take_S e l k x :
  l !! k = Some x -> encl e (take (S k) l) = encl e (take k l) ++ le_bytes (Z.to_nat e) x.
Proof.
  intros Hk. rewrite (take_S_r _ _ _ Hk), encl_app, encl_cons. cbn. by rewrite app_nil_r.
Qed.

Lemma zlen_take_le {A} (l : list A) (n : nat) : (n <= length l)%nat -> zlen (take n l) = Z.of_nat n.
Proof. intros. rewrite zlen_take; unfold zlen; lia. Qed.

Lemma upgrade_step s l ce p (k : nat) x :
  enc_ok ce -> enc_ok (encoding s) -> ce <= encoding s -> in_s (8 * ce) x -> 0 <= p <= 1 ->
  l !! k = Some x -> upgrading s l ce p (Z.of_nat (S k)) ->
  exists s', (v ← _intsetGetEncoded s (Z.of_nat k) ce; _intsetSet s (Z.of_nat k + p) v) = Some s' /\
    encoding s' = encoding s /\ ilength s' = ilength s /\ upgrading s' l ce p (Z.of_nat k).
Proof.
  intros Hce He Hle Hx Hp Hk (mid & tl & Hc & Hlen & Htl).
  assert (Hlt := lookup_lt_Some _ _ _ Hk). rewrite !Nat2Z.id in *.
  set (e := encoding s) in *.
  assert (Hpos : 2 <= ce <= e) by (destruct Hce as [-> | [-> | ->]]; lia).
  assert (Hek : zlen (encl ce (take k l)) = ce * Z.of_nat k).
  { rewrite zlen_encl, zlen_take_le by lia. lia. }
  (* read *)
  rewrite (encl_take_S _ _ _ _ Hk) in Hc, Hlen.
  erewrite (getEncoded_split _ _ (encl ce (take k l)) x
              (mid ++ encl e (drop (S k) l) ++ tl)); [|done| |lia|done].
  2:{ rewrite Hc, <- !app_assoc. done. }
  cbn [mbind option_bind].
  (* write *)
  autorewrite with zlen in Hlen. rewrite Hek in Hlen.
  edestruct (zlen_cut (encl ce (take k l) ++ le_bytes (Z.to_nat ce) x ++ mid) ((Z.of_nat k + p) * e))
    as (a & b & Hab & Ha); [autorewrite with zlen; pose_zlen; nia|].
  assert (Hb : zlen b = e).
  { apply (f_equal zlen) in Hab. autorewrite with zlen in Hab. nia. }
  rewrite (set_split s a b (encl e (drop (S k) l) ++ tl)); [|done| |done|done].
  2:{ rewrite Hc. rewrite (app_assoc a b), <- Hab, <- !app_assoc. done. }
  eexists; split; [done|]. split; [done|]. split; [done|].
  (* the invariant one element lower *)
  destruct (zlen_cut a (ce * Z.of_nat k)) as (a1 & mid' & -> & Ha1); [nia|].
  assert (a1 = encl ce (take k l)) as ->.
  { rewrite <- !app_assoc in Hab. symmetry.
    apply (app_zlen_inj _ _ _ _ Hab). lia. }
  exists mid', tl. cbn [contents encoding with_contents]. rewrite !Nat2Z.id. fold e. repeat split; [|done|done].
  rewrite (drop_S _ _ _ Hk), encl_cons, <- !app_assoc. done.
Qed.

Lemma upgrade_loop_spec (n : nat) s l ce p :
  enc_ok ce -> enc_ok (encoding s) -> ce <= encoding s -> Forall (in_s (8 * ce)) l -> 0 <= p <= 1 ->
  (n <= length l)%nat -> upgrading s l ce p (Z.of_nat n) ->
  exists s', intsetUpgrade_loop n s (Z.of_nat n) p ce = Some s' /\
    encoding s' = encoding s /\ ilength s' = ilength s /\ upgrading s' l ce p 0.
Proof.
  intros Hce He Hle Hf Hp. revert s He Hle. induction n as [|k IH]; intros s He Hle Hn Hu.
  { exists s. cbn. done. }
  destruct (lookup_lt_is_Some_2 l k ltac:(lia)) as [x Hx].
  edestruct (upgrade_step s l ce p k x) as (s1 & Hs1 & He1 & Hl1 & Hu1); eauto.
  { by eapply Forall_lookup_1. }
  cbn [intsetUpgrade_loop]. zbool.
  replace (Z.of_nat (S k) - 1) with (Z.of_nat k) by lia.
  destruct (_intsetGetEncoded s (Z.of_nat k) ce) as [v|]; [|done].
  cbn [mbind option_bind] in *. rewrite Hs1. cbn [mbind option_bind].
  edestruct IH as (s2 & -> & He2 & Hl2 & Hu2); [rewrite He1; done|rewrite He1; done|lia|exact Hu1|].
  exists s2. repeat split; congruence.
Qed.

Lemma upgrade_start junk s l newenc p :
  intset_repr s l -> enc_ok newenc -> 0 <= p <= 1 -> encoding s <= newenc ->
  (zlen l + 2) * 8 < 2 ^ 32 ->
  upgrading (intsetResize junk (mk_intset newenc (ilength s) (contents s)) (u32 (ilength s + 1)))
    l (encoding s) p (zlen l).
Proof.
  intros [He Hl Hb Hf Hs] Hn Hp Hle Hsz. pose_zlen.
  assert (2 <= encoding s) by (destruct He as [-> | [-> | ->]]; lia).
  assert (newenc <= 8) by (destruct Hn as [-> | [-> | ->]]; lia).
  unfold intsetResize, upgrading. cbn [contents encoding with_contents ilength].
  rewrite Hl, (uwrap_small _ (zlen l + 1)), uwrap_small by nia.
  assert (Hc : zlen (contents s) = encoding s * zlen l) by (rewrite Hb, zlen_encl; lia).
  edestruct (zrealloc_grow junk (contents s) ((zlen l + 1) * newenc)) as (j & Hj & Hjl);
    [nia|].
  edestruct (zlen_cut j ((zlen l + p) * newenc - encoding s * zlen l)) as (mid & tl & -> & Hm); [nia|].
  exists mid, tl. rewrite Hj, Hb. unfold zlen in *. rewrite Nat2Z.id, firstn_all, drop_all.
  cbn [encl fmap list_fmap concat app]. autorewrite with zlen in *.
  repeat split.
  - by rewrite <- !app_assoc.
  - fold (zlen (encl (encoding s) l ++ mid)). autorewrite with zlen. rewrite zlen_encl by lia.
    unfold zlen. lia.
  - rewrite length_app in Hjl. rewrite Hc in Hjl. lia.
Qed.

(** The set after one more element. *)
Lemma ok_built e c l l' v :
  enc_ok e -> in_s (8 * e) v -> Forall (in_s (8 * e)) l -> Permutation l' (v :: l) ->
  StronglySorted Z.lt l' -> (zlen l + 2) * 8 < 2 ^ 32 -> c = encl e l' ->
  intset_ok (mk_intset e (u32 (zlen l + 1)) c) l'.
Proof.
  intros He Hv Hf Hperm Hsort Hsz ->. split; [|done].
  assert (Hzl : zlen l' = zlen l + 1) by (unfold zlen; rewrite Hperm; cbn [length]; lia).
  pose_zlen.
  split; cbn [encoding ilength contents]; [done|rewrite uwrap_small; lia|done| |lia].
  rewrite Hperm. by constructor.
Qed.

(** Where the bytes of the new element go after the upgrade loop. *)
Lemma upgrade_finish s l e v :
  encoding s = e -> enc_ok e -> ilength s = zlen l -> 0 <= zlen l ->
  (exists ce, upgrading s l ce (if v <? 0 then 1 else 0) 0) ->
  exists s', (if (if v <? 0 then 1 else 0) =? 1 then _intsetSet s 0 v else _intsetSet s (ilength s) v)
               = Some s' /\ encoding s' = e /\ ilength s' = zlen l /\
    contents s' = encl e (if v <? 0 then v :: l else l ++ [v]).
Proof.
  intros He Hee Hl Hnn (ce & mid & tl & Hc & Hlen & Htl).
  assert (2 <= e) by (destruct Hee as [-> | [-> | ->]]; lia).
  cbn [Z.to_nat] in Hc, Hlen. rewrite drop_0, take_0, He in *.
  cbn [encl fmap list_fmap concat app] in Hc, Hlen.
  destruct (v <? 0); cbn [Z.eqb Pos.eqb].
  - rewrite (set_split s [] mid (encl e l ++ tl)); rewrite ?He, ?Hc; try done; [|lia].
    eexists. split; [done|]. cbn [encoding ilength with_contents contents app].
    assert (tl = []) as -> by (destruct tl; [done|rewrite zlen_cons in Htl; pose_zlen; lia]).
    by rewrite app_nil_r.
  - assert (mid = []) as -> by (destruct mid; [done|rewrite zlen_cons in Hlen; pose_zlen; lia]).
    rewrite (set_split s (encl e l) tl []); rewrite ?He, ?Hc, ?app_nil_r, ?Hl; try done; [| |lia].
    2:{ rewrite zlen_encl by lia. lia. }
    eexists. split; [done|]. cbn [encoding ilength with_contents contents app].
    rewrite encl_app, encl_cons. cbn. by rewrite !app_nil_r.
Qed.

Lemma sorted_snoc l v :
  StronglySorted Z.lt l -> Forall (fun x => x < v) l -> StronglySorted Z.lt (l ++ [v]).
Proof.
  intros Hs. induction Hs as [|x l Hs IH Hx]; intros Hf; cbn.
  - constructor; constructor.
  - inversion Hf; subst. constructor; [by apply IH|]. apply Forall_app. by repeat constructor.
Qed.

Lemma upgrade_spec junk s l v :
  intset_ok s l -> in_s 64 v -> (zlen l + 2) * 8 < 2 ^ 32 ->
  encoding s < _intsetValueEncoding v ->
  exists s' l', intsetUpgradeAndAdd junk s v = Some s' /\ ~ In v l /\
    Permutation l' (v :: l) /\ intset_ok s' l'.
Proof.
  intros [Hr Hs] Hv Hsz Hlt. pose proof Hr as [He Hl Hb Hf _].
  set (e := _intsetValueEncoding v) in *. assert (Hee : enc_ok e) by apply enc_of_value.
  unfold intsetUpgradeAndAdd. set (p := if v <? 0 then 1 else 0).
  assert (Hp : 0 <= p <= 1) by (unfold p; case_match; lia). pose_zlen.
  fold e. rewrite Hl, (swrap_small 32) by (unfold in_s; lia).
  pose proof (upgrade_start junk s l e p Hr Hee Hp ltac:(lia) Hsz) as Hu. rewrite Hl in Hu.
  cbn [ilength]. set (s0 := intsetResize _ _ _) in *.
  edestruct (upgrade_loop_spec (Z.to_nat (zlen l)) s0 l (encoding s) p)
    as (s1 & Hrun & He1 & Hl1 & Hu1); eauto.
  { cbn. lia. } { unfold zlen. lia. } { unfold zlen in *. by rewrite Z2Nat.id by lia. }
  rewrite Z2Nat.id in Hrun by lia. rewrite Hrun. cbn [mbind option_bind].
  change (encoding s0) with e in He1. change (ilength s0) with (zlen l) in Hl1.
  edestruct (upgrade_finish s1 l e v) as (s2 & Hs2 & He2 & Hl2 & Hc2); eauto.
  fold p in Hs2. rewrite Hs2. cbn [mbind option_bind]. rewrite He2, Hl2.
  assert (Hout : ~ in_s (8 * encoding s) v).
  { intros Hin%value_fits; [|done|done]. unfold e in Hlt. lia. }
  eexists _, (if v <? 0 then v :: l else l ++ [v]). split; [done|].
  assert (Hperm : (if v <? 0 then v :: l else l ++ [v]) ≡ₚ v :: l).
  { case_match; [done|]. by rewrite <- Permutation_cons_append. }
  split; [|split; [done|]].
  { intros Hin. rewrite Forall_forall in Hf. apply Hout, Hf. by apply list_elem_of_In. }
  apply (ok_built _ _ l _ v); auto; [by apply value_encoding_fits| |].
  { eapply Forall_impl; [exact Hf|]. intros x. apply in_s_mono; auto; lia. }
  destruct (v <? 0) eqn:Ev; [constructor; [done|]|apply sorted_snoc; [done|]];
    (eapply Forall_impl; [exact Hf|]); intros x Hx; unfold in_s in *; cbn beta; lia.
Qed.

(** Shifting the tail [l2] by one slot inside a buffer with a free slot. *)
Lemma moveTail_right s l1 l2 j :
  enc_ok (encoding s) -> contents s = encl (encoding s) (l1 ++ l2) ++ j -> zlen j = encoding s ->
  ilength s = zlen l1 + zlen l2 -> (ilength s + 1) * 8 < 2 ^ 32 ->
  exists b, zlen b = encoding s /\
    intsetMoveTail s (zlen l1) (u32 (zlen l1 + 1)) =
      Some (with_contents s (encl (encoding s) l1 ++ b ++ encl (encoding s) l2)).
Proof.
  intros He Hc Hj Hl Hsz. unfold intsetMoveTail. pose_zlen. rewrite Hl in *.
  assert (Hsz' : (if encoding s =? INTSET_ENC_INT64 then 8
            else if encoding s =? INTSET_ENC_INT32 then 4 else 2) = encoding s)
    by (destruct He as [-> | [-> | ->]]; done).
  rewrite Hsz'. set (e := encoding s) in *.
  assert (He2 : 2 <= e <= 8) by (destruct He as [-> | [-> | ->]]; lia).
  rewrite (uwrap_small _ (zlen l1 + 1)), (uwrap_small _ (_ - _)), uwrap_small by nia.
  rewrite encl_app in Hc. unfold mmove. rewrite Hc, <- app_assoc.
  erewrite mread_split by (rewrite zlen_encl; lia). cbn [mbind option_bind].
  edestruct (zlen_cut (encl e l2 ++ j) e) as (b & c & Hbc & Hb);
    [autorewrite with zlen; rewrite zlen_encl by lia; nia|].
  exists b. split; [done|]. rewrite Hbc.
  erewrite (mwrite_end _ (encl e l1 ++ b) c); [|by rewrite <- app_assoc| |].
  - cbn [mbind option_bind]. by rewrite <- app_assoc.
  - autorewrite with zlen. rewrite zlen_encl by lia. lia.
  - apply (f_equal zlen) in Hbc. autorewrite with zlen in Hbc. lia.
Qed.

Lemma sorted_middle l1 l2 v :
  StronglySorted Z.lt (l1 ++ l2) -> Forall (fun x => x < v) l1 -> Forall (fun x => v < x) l2 ->
  StronglySorted Z.lt (l1 ++ v :: l2).
Proof.
  induction l1 as [|x l1 IH]; intros Hs H1 H2; cbn in *.
  - by constructor.
  - inversion Hs as [|? ? Hs' Hx]; inversion H1; subst. constructor; [by apply IH|].
    apply Forall_app in Hx as [? ?]. apply Forall_app; split; [done|].
    constructor; [done|]. eapply Forall_impl; [eassumption|]. cbn. lia.
Qed.

Lemma add_in_place_spec junk s l1 l2 v :
  intset_ok s (l1 ++ l2) -> in_s (8 * encoding s) v -> (zlen (l1 ++ l2) + 2) * 8 < 2 ^ 32 ->
  Forall (fun x => x < v) l1 -> Forall (fun x => v < x) l2 ->
  exists s',
    (let s := intsetResize junk s (u32 (ilength s + 1)) in
     s ← (if zlen l1 <? ilength s then intsetMoveTail s (zlen l1) (u32 (zlen l1 + 1)) else Some s);
     s ← _intsetSet s (zlen l1) v;
     Some (mk_intset (encoding s) (u32 (ilength s + 1)) (contents s), true)) = Some (s', true)
    /\ intset_ok s' (l1 ++ v :: l2).
Proof.
  intros [Hr Hs] Hv Hsz H1 H2. pose proof Hr as [He Hl Hb Hf _]. pose_zlen. cbn zeta.
  set (e := encoding s) in *. autorewrite with zlen in *.
  assert (He2 : 2 <= e <= 8) by (destruct He as [-> | [-> | ->]]; lia).
  unfold intsetResize. rewrite Hl, (uwrap_small _ (_ + 1)), uwrap_small by nia.
  fold e. edestruct (zrealloc_grow junk (contents s) ((zlen l1 + zlen l2 + 1) * e)) as (j & Hj & Hjl).
  { rewrite Hb, zlen_encl by lia. zlia. }
  rewrite Hj, Hb in *. rewrite zlen_encl in Hjl by lia. autorewrite with zlen in Hjl.
  cbn [ilength with_contents]. rewrite Hl.
  assert (Hmv : exists b, zlen b = e /\
    (if zlen l1 <? zlen l1 + zlen l2
     then intsetMoveTail (with_contents s (encl e (l1 ++ l2) ++ j)) (zlen l1) (u32 (zlen l1 + 1))
     else Some (with_contents s (encl e (l1 ++ l2) ++ j)))
    = Some (with_contents s (encl e l1 ++ b ++ encl e l2))).
  { destruct (zlen l1 <? _) eqn:E.
    - eapply (moveTail_right (with_contents s _) l1 l2 j); cbn [encoding ilength with_contents contents];
        rewrite ?Hl; auto; lia.
    - exists j. split; [lia|]. assert (l2 = []) as -> by (destruct l2; [done|zlia]).
      by rewrite !app_nil_r. }
  destruct Hmv as (b & Hbl & ->). cbn [mbind option_bind].
  erewrite (set_split _ (encl e l1) b (encl e l2)); [|done|done| |done].
  2:{ rewrite zlen_encl by lia. cbn. fold e. lia. }
  cbn [mbind option_bind encoding ilength with_contents contents]. rewrite Hl.
  eexists; split; [done|]. fold e.
  rewrite <- zlen_app. apply (ok_built _ _ (l1 ++ l2) _ v); auto.
  - by rewrite <- Permutation_middle.
  - by apply sorted_middle.
  - rewrite zlen_app. lia.
  - by rewrite encl_app.
Qed.

Lemma position_not_in l v pos : position_of l v false pos -> ~ In v l.
Proof.
  intros (l1 & l2 & -> & _ & H1 & H2) [Hin|Hin]%in_app_or;
    [rewrite Forall_forall in H1; specialize (H1 v)|rewrite Forall_forall in H2; specialize (H2 v)];
    rewrite list_elem_of_In in *; intuition lia.
Qed.

Lemma position_in l v pos : position_of l v true pos -> In v l.
Proof. intros (l1 & l2 & -> & _ & _ & l2' & ->). apply in_or_app. cbn. auto. Qed.

(** Insertion, list form: either the value was there and nothing changes, or
    the result holds exactly one more element. *)
Lemma add_spec junk s l v :
  intset_ok s l -> in_s 64 v -> (zlen l + 2) * 8 < 2 ^ 32 ->
  (In v l /\ intsetAdd junk s v = Some (s, false)) \/
  (~ In v l /\ exists s' l', intsetAdd junk s v = Some (s', true) /\
      Permutation l' (v :: l) /\ intset_ok s' l').
Proof.
  intros Hok Hv Hsz. unfold intsetAdd. pose proof (ir_enc _ _ (proj1 Hok)) as He.
  destruct (_intsetValueEncoding v >? encoding s) eqn:E.
  - right. destruct (upgrade_spec junk s l v Hok Hv Hsz ltac:(lia)) as (s' & l' & -> & Hni & Hp & Hok').
    split; [done|]. exists s', l'. done.
  - assert (Hfit : in_s (8 * encoding s) v) by (apply value_fits; auto; lia).
    destruct (search_spec s l v Hok) as (found & pos & -> & Hpos).
    cbn [mbind option_bind]. destruct found.
    + left. split; [by eapply position_in|done].
    + right. split; [by eapply position_not_in|].
      destruct Hpos as (l1 & l2 & -> & -> & H1 & H2).
      edestruct (add_in_place_spec junk s l1 l2 v) as (s' & Hs' & Hok'); eauto.
      exists s', (l1 ++ v :: l2). cbn zeta in Hs'. split; [exact Hs'|]. split; [|done].
      by rewrite <- Permutation_middle.
Qed.

(** ** Removal *)

Lemma moveTail_left s l1 v l2 :
  enc_ok (encoding s) -> contents s = encl (encoding s) (l1 ++ v :: l2) ->
  ilength s = zlen (l1 ++ v :: l2) -> (ilength s + 1) * 8 < 2 ^ 32 ->
  exists b, intsetMoveTail s (u32 (zlen l1 + 1)) (zlen l1) =
      Some (with_contents s (encl (encoding s) (l1 ++ l2) ++ b)).
Proof.
  intros He Hc Hl Hsz. unfold intsetMoveTail. rewrite Hl in *. autorewrite with zlen in *. pose_zlen.
  assert (Hsz' : (if encoding s =? INTSET_ENC_INT64 then 8
            else if encoding s =? INTSET_ENC_INT32 then 4 else 2) = encoding s)
    by (destruct He as [-> | [-> | ->]]; done).
  rewrite Hsz'. set (e := encoding s) in *.
  assert (He2 : 2 <= e <= 8) by (destruct He as [-> | [-> | ->]]; lia).
  rewrite (uwrap_small _ (zlen l1 + 1)), (uwrap_small _ (_ - _)), uwrap_small by nia.
  rewrite encl_app, encl_cons in Hc. unfold mmove. rewrite Hc.
  rewrite (app_assoc (encl e l1)), <- (app_nil_r (encl e l2)).
  erewrite mread_split; [|autorewrite with zlen; rewrite zlen_encl; lia|rewrite zlen_encl; lia].
  cbn [mbind option_bind]. rewrite app_nil_r, <- app_assoc.
  edestruct (zlen_cut (le_bytes (Z.to_nat e) v ++ encl e l2) (zlen (encl e l2))) as (a & b & Hab & Ha);
    [zlia|].
  exists b. rewrite Hab. erewrite mwrite_split by first [lia | rewrite zlen_encl; lia].
  cbn [mbind option_bind]. by rewrite encl_app, <- app_assoc.
Qed.

Lemma sorted_remove l1 v l2 :
  StronglySorted Z.lt (l1 ++ v :: l2) -> StronglySorted Z.lt (l1 ++ l2).
Proof.
  induction l1 as [|x l1 IH]; intros Hs; inversion Hs as [|? ? Hs' Hx]; subst; cbn; [done|].
  constructor; [by apply IH|]. apply Forall_app in Hx as [? Hx]. inversion Hx; subst.
  by apply Forall_app.
Qed.

Lemma remove_found junk s l1 v l2 :
  intset_ok s (l1 ++ v :: l2) ->
  exists s',
    (let len := ilength s in
     s ← (if zlen l1 <? u32 (len - 1) then intsetMoveTail s (u32 (zlen l1 + 1)) (zlen l1) else Some s);
     let s := intsetResize junk s (u32 (len - 1)) in
     Some (mk_intset (encoding s) (u32 (len - 1)) (contents s), true)) = Some (s', true)
    /\ intset_ok s' (l1 ++ l2).
Proof.
  intros [Hr Hs]. pose proof Hr as [He Hl Hb Hf Hsz]. cbn zeta. set (e := encoding s) in *.
  assert (He2 : 2 <= e <= 8) by (destruct He as [-> | [-> | ->]]; lia).
  assert (Hmv : exists b,
    (if zlen l1 <? u32 (ilength s - 1) then intsetMoveTail s (u32 (zlen l1 + 1)) (zlen l1) else Some s)
    = Some (with_contents s (encl e (l1 ++ l2) ++ b))).
  { destruct (zlen l1 <? _) eqn:E.
    - apply (moveTail_left s l1 v l2); auto. lia.
    - rewrite Hl, uwrap_small in E by zlia. assert (l2 = []) as -> by (destruct l2; [done|zlia]).
      exists (le_bytes (Z.to_nat e) v). destruct s; cbn in *. rewrite Hb, app_nil_r.
      rewrite encl_app, encl_cons. cbn. by rewrite app_nil_r. }
  destruct Hmv as (b & ->). cbn [mbind option_bind]. rewrite Hl.
  assert (Hll : zlen (l1 ++ v :: l2) - 1 = zlen (l1 ++ l2)) by zlia.
  pose_zlen. rewrite Hll in *. unfold intsetResize. cbn [encoding contents with_contents]. fold e.
  rewrite (uwrap_small _ (zlen (l1 ++ l2))), uwrap_small by nia.
  replace (zlen (l1 ++ l2) * e) with (zlen (encl e (l1 ++ l2))) by (rewrite zlen_encl; lia).
  rewrite zrealloc_shrink. eexists; split; [done|]. split; [|by eapply sorted_remove].
  apply Forall_app in Hf as [? Hf]. inversion Hf; subst.
  split; cbn [encoding ilength contents with_contents]; auto; [by apply Forall_app|lia].
Qed.

Lemma remove_spec junk s l v :
  intset_ok s l -> in_s 64 v ->
  (~ In v l /\ intsetRemove junk s v = Some (s, false)) \/
  (In v l /\ exists s' l', intsetRemove junk s v = Some (s', true) /\
      Permutation l (v :: l') /\ intset_ok s' l').
Proof.
  intros Hok Hv. unfold intsetRemove. pose proof (proj1 Hok) as [He _ _ Hf _].
  destruct (_intsetValueEncoding v <=? encoding s) eqn:E.
  - destruct (search_spec s l v Hok) as (found & pos & -> & Hpos).
    cbn [mbind option_bind]. destruct found.
    + right. split; [by eapply position_in|].
      destruct Hpos as (l1 & l2 & -> & -> & H1 & l2' & ->).
      edestruct (remove_found junk s l1 v l2') as (s' & Hs' & Hok'); eauto.
      exists s', (l1 ++ l2'). cbn zeta in Hs'. split; [exact Hs'|]. split; [|done].
      by rewrite <- Permutation_middle.
    + left. split; [by eapply position_not_in|done].
  - left. split; [|done]. intros Hin. rewrite Forall_forall in Hf.
    specialize (Hf v ltac:(by apply list_elem_of_In)). apply value_fits in Hf; auto. lia.
Qed.

Lemma find_spec s l v :
  intset_ok s l -> in_s 64 v -> exists b, intsetFind s v = Some b /\ (b = true <-> In v l).
Proof.
  intros Hok Hv. unfold intsetFind. pose proof (proj1 Hok) as [He _ _ Hf _].
  destruct (_intsetValueEncoding v <=? encoding s) eqn:E.
  - destruct (search_spec s l v Hok) as (found & pos & -> & Hpos). cbn.
    exists found. split; [done|]. destruct found.
    + split; [by intros; eapply position_in|done].
    + split; [done|]. intros Hin. by apply position_not_in in Hpos.
  - exists false. split; [done|]. split; [done|]. intros Hin. rewrite Forall_forall in Hf.
    specialize (Hf v ltac:(by apply list_elem_of_In)). apply value_fits in Hf; auto. lia.
Qed.

(** ** The intset as a finite set of integers *)

(** The abstract state: the set of the elements. *)
Definition represents (s : intset) (X : gset Z) : Prop :=
  exists l, intset_ok s l /\ list_to_set l = X.

Lemma represents_in l (v : Z) : v ∈ (list_to_set l : gset Z) <-> In v l.
Proof. rewrite elem_of_list_to_set. apply list_elem_of_In. Qed.

Lemma ok_size s l : intset_ok s l -> zlen l = Z.of_nat (size (list_to_set l : gset Z)).
Proof.
  intros [_ Hs]. rewrite size_list_to_set; [done|].
  induction Hs as [|x l Hs IH Hx]; constructor; [|done].
  intros Hin. rewrite Forall_forall in Hx. specialize (Hx x Hin). lia.
Qed.

Lemma perm_to_set (l l' : list Z) : Permutation l l' -> (list_to_set l : gset Z) = list_to_set l'.
Proof. intros Hp. apply set_eq. intros x. rewrite !elem_of_list_to_set. by rewrite Hp. Qed.

Lemma ok_nodup s l : intset_ok s l -> NoDup l.
Proof.
  intros [_ Hs]. induction Hs as [|x l Hs IH Hx]; constructor; [|done].
  intros Hin. rewrite Forall_forall in Hx. specialize (Hx x Hin). lia.
Qed.

(** [C35] [intsetAdd] inserts into the abstract set and reports whether the
    value was new, without touching a byte outside the array, whatever the
    memory obtained from the allocator holds; this covers the in-place upgrade
    of the encoding. *)
Theorem intsetAdd_refines (junk : nat -> Z) (s : intset) (X : gset Z) (v : Z)
    (HX : represents s X) (Hv : in_s 64 v) (Hsz : (Z.of_nat (size X) + 2) * 8 < 2 ^ 32) :
  exists s', intsetAdd junk s v = Some (s', bool_decide (v ∉ X)) /\
    represents s' ({[v]} ∪ X) /\ (v ∈ X -> s' = s).
Proof.
  destruct HX as (l & Hok & <-). rewrite <- (ok_size s) in Hsz by done.
  destruct (add_spec junk s l v Hok Hv Hsz) as [[Hin ->]|(Hni & s' & l' & -> & Hp & Hok')].
  - apply represents_in in Hin. exists s. rewrite bool_decide_false by tauto.
    split; [done|]. split; [|done]. exists l. split; [done|]. set_solver.
  - rewrite <- represents_in in Hni. exists s'. rewrite bool_decide_true by done.
    split; [done|]. split; [|done]. exists l'. split; [done|].
    rewrite (perm_to_set _ _ Hp). done.
Qed.

(** [intsetRemove] deletes from the abstract set and reports whether the
    value was there. *)
Theorem intsetRemove_refines (junk : nat -> Z) (s : intset) (X : gset Z) (v : Z)
    (HX : represents s X) (Hv : in_s 64 v) :
  exists s', intsetRemove junk s v = Some (s', bool_decide (v ∈ X)) /\
    represents s' (X ∖ {[v]}) /\ (v ∉ X -> s' = s).
Proof.
  destruct HX as (l & Hok & <-).
  destruct (remove_spec junk s l v Hok Hv) as [[Hni ->]|(Hin & s' & l' & -> & Hp & Hok')].
  - rewrite <- represents_in in Hni. exists s. rewrite bool_decide_false by tauto.
    split; [done|]. split; [|done]. exists l. split; [done|]. set_solver.
  - pose proof (ok_nodup _ _ Hok) as Hnd. rewrite Hp in Hnd. inversion Hnd; subst.
    apply represents_in in Hin as Hin'. exists s'. rewrite bool_decide_true by done.
    split; [done|]. split; [|tauto]. exists l'. split; [done|].
    rewrite (perm_to_set _ _ Hp). set_solver.
Qed.

(** [intsetFind] decides membership. *)
Theorem intsetFind_correct (s : intset) (X : gset Z) (v : Z)
    (HX : represents s X) (Hv : in_s 64 v) :
  intsetFind s v = Some (bool_decide (v ∈ X)).
Proof.
  destruct HX as (l & Hok & <-). destruct (find_spec s l v Hok Hv) as (b & -> & Hb).
  f_equal. rewrite <- represents_in in Hb. destruct b.
  - rewrite bool_decide_true; [done|]. by apply Hb.
  - rewrite bool_decide_false; [done|]. intros ?%Hb. done.
Qed.

(** [intsetGet] reads the elements in increasing order: position [i] holds
    the element with exactly [i] smaller elements, and a position past the end
    is reported, not read. *)
Theorem intsetGet_rank (s : intset) (X : gset Z) (pos : Z)
    (HX : represents s X) (Hpos : 0 <= pos) :
  (intsetGet s pos = Some None /\ Z.of_nat (size X) <= pos) \/
  exists v, intsetGet s pos = Some (Some v) /\ v ∈ X /\
    Z.of_nat (size (filter (fun x => x < v) X)) = pos.
Proof.
  destruct HX as (l & Hok & <-). rewrite <- (ok_size s) by done.
  pose proof Hok as [Hr Hs]. pose proof Hr as [_ Hl _ _ Hsz]. unfold intsetGet. rewrite Hl.
  destruct (pos <? zlen l) eqn:E; [|left; split; [done|lia]]. right.
  destruct (lookup_lt_is_Some_2 l (Z.to_nat pos)) as [v Hv]; [unfold zlen in *; lia|].
  rewrite swrap_small by (unfold in_s; lia). rewrite (repr_get s l pos v) by auto.
  exists v. cbn. split; [done|].
  destruct (position_of_found l v pos) as (l1 & l2 & -> & -> & H1 & l2' & ->); auto.
  split; [set_solver|]. unfold zlen. f_equal.
  pose proof (ok_nodup _ _ Hok) as [Hnd1 _]%NoDup_app.
  rewrite <- (size_list_to_set (C := gset Z) l1) by done. f_equal. apply set_eq. intros x.
  rewrite elem_of_filter, !elem_of_list_to_set, elem_of_app, elem_of_cons.
  rewrite !Forall_forall in H1. split; [|intros Hx; split; [by apply H1|by left]].
  intros [Hx [?|[->|Hx2]]]; [done|lia|].
  apply list_elem_of_split in Hx2 as (m1 & m2 & ->). exfalso.
  assert (v < x); [|lia].
  eapply (sorted_lookup_lt _ (length l1) (length l1 + S (length m1))); [exact Hs| | |lia].
  - by apply list_lookup_middle.
  - rewrite lookup_app_r by lia. replace (_ + _ - _)%nat with (S (length m1)) by lia.
    cbn. by apply list_lookup_middle.
Qed.

(** ** The theorems at concrete inputs *)

Definition ex_junk (k : nat) : Z := 77.
Definition ex_set : intset := {| encoding := 4; ilength := 2; contents := [144; 238; 254; 255; 5; 0; 0; 0] |}.

Lemma ex_set_represents : represents ex_set {[ -70000; 5 ]}.
Proof.
  exists [-70000; 5]. split; [|by vm_compute]. split.
  - split; [by right; left|done|done|repeat constructor; by vm_compute|done].
  - repeat constructor; lia.
Defined.

Lemma intsetAdd_witness :
  exists s', intsetAdd ex_junk ex_set (2 ^ 40) = Some (s', true) /\
    represents s' ({[2 ^ 40]} ∪ {[ -70000; 5 ]}) /\ (2 ^ 40 ∈ ({[ -70000; 5 ]} : gset Z) -> s' = ex_set).
Proof.
  exact (intsetAdd_refines ex_junk ex_set {[ -70000; 5 ]} (2 ^ 40) ex_set_represents
    ltac:(by vm_compute) ltac:(by vm_compute)).
Defined.

Lemma intsetRemove_witness :
  exists s', intsetRemove ex_junk ex_set 5 = Some (s', true) /\
    represents s' ({[ -70000; 5 ]} ∖ {[5]}) /\ (5 ∉ ({[ -70000; 5 ]} : gset Z) -> s' = ex_set).
Proof.
  exact (intsetRemove_refines ex_junk ex_set {[ -70000; 5 ]} 5 ex_set_represents ltac:(by vm_compute)).
Defined.

Lemma intsetFind_witness : intsetFind ex_set 6 = Some false.
Proof. exact (intsetFind_correct ex_set {[ -70000; 5 ]} 6 ex_set_represents ltac:(by vm_compute)). Defined.

Lemma intsetGet_witness :
  (intsetGet ex_set 1 = Some None /\ Z.of_nat (size ({[ -70000; 5 ]} : gset Z)) <= 1) \/
  exists v, intsetGet ex_set 1 = Some (Some v) /\ v ∈ ({[ -70000; 5 ]} : gset Z) /\
    Z.of_nat (size (filter (fun x => x < v) ({[ -70000; 5 ]} : gset Z))) = 1.
Proof. exact (intsetGet_rank ex_set {[ -70000; 5 ]} 1 ex_set_represents ltac:(lia)). Defined.
