(* ===== verification/UtilNum.v ===== *)
(** * Integers to decimal strings and back (util.c)

    [digits10], [sdigits10], [ll2string], [string2ll] and [string2l].  A [char *]
    with a length is the list of its bytes; reads and writes outside it give
    [None].  64-bit unsigned arithmetic is written with its wrap-around. *)
From Stdlib Require Import ZArith Lia String.
From stdpp Require Import base numbers list option.
From S2P Require Import Prelude.

(** ** Operations *)

Definition LLONG_MAX : Z := 2 ^ 63 - 1.
Definition LLONG_MIN : Z := - 2 ^ 63.
Definition ULLONG_MAX : Z := 2 ^ 64 - 1.

Definition b2z (b : bool) : Z := if b then 1 else 0.

(** The recursive call is on [v / 10^12]: two levels reach every [uint64_t]. *)
Fixpoint digits10_fuel (fuel : nat) (v : Z) : option Z :=
  match fuel with
  | O => None
  | S fuel' =>
    if v <? 10 then Some 1
    else if v <? 100 then Some 2
    else if v <? 1000 then Some 3
    else if v <? 1000000000000 then
      if v <? 100000000 then
        if v <? 1000000 then
          if v <? 10000 then Some 4
          else Some (5 + b2z (v >=? 100000))
        else Some (7 + b2z (v >=? 10000000))
      else if v <? 10000000000 then Some (9 + b2z (v >=? 1000000000))
      else Some (11 + b2z (v >=? 100000000000))
    else d ← digits10_fuel fuel' (v / 1000000000000); Some (12 + d)
  end.

Definition digits10 (v : Z) : option Z := digits10_fuel 2 v.

Definition sdigits10 (v : Z) : option Z :=
  if v <? 0 then
    let uv := if negb (v =? LLONG_MIN) then u64 (- v) else u64 (LLONG_MAX + 1) in
    d ← digits10 uv; Some (d + 1)
  else digits10 v.

Definition digits : list Z := bytes_of
  ("0001020304050607080910111213141516171819" ++
   "2021222324252627282930313233343536373839" ++
   "4041424344454647484950515253545556575859" ++
   "6061626364656667686970717273747576777879" ++
   "8081828384858687888990919293949596979899")%string.

Fixpoint ll2string_loop (fuel : nat) (dst : list Z) (value next : Z)
    : option (list Z * Z * Z) :=
  if value >=? 100 then
    match fuel with
    | O => None
    | S fuel' =>
        let i := (value mod 100) * 2 in
        let value := value / 100 in
        hi ← mget digits (i + 1); dst ← mset dst next hi;
        lo ← mget digits i; dst ← mset dst (u32 (next - 1)) lo;
        ll2string_loop fuel' dst value (u32 (next - 2))
    end
  else Some (dst, value, next).

(** Result: (returned length, the buffer). *)
Definition ll2string (dst : list Z) (dstlen svalue : Z) : option (Z * list Z) :=
  let '(value, negative) :=
    if svalue <? 0 then
      (if negb (svalue =? LLONG_MIN) then u64 (- svalue) else u64 (LLONG_MAX + 1), 1)
    else (u64 svalue, 0) in
  d ← digits10 value;
  let length := d + negative in
  if length >=? dstlen then Some (0, dst)
  else
    dst ← mset dst length 0;
    let next := u32 (length - 1) in
    r ← ll2string_loop 10 dst value next;
    let '(dst, value, next) := r in
    dst ← (if value <? 10 then mset dst next (48 + value)
           else
             let i := value * 2 in
             hi ← mget digits (i + 1); dst ← mset dst next hi;
             lo ← mget digits i; mset dst (u32 (next - 1)) lo);
    dst ← (if negative =? 1 then mset dst 0 45 else Some dst);
    Some (length, dst).

(** Result of the digit loop: [None] out of bounds, [Some None] the early
    [return 0] on overflow, [Some (Some (v, plen))] the state after the loop. *)
Fixpoint string2ll_loop (fuel : nat) (s : list Z) (slen plen v : Z) : option (option (Z * Z)) :=
  if plen <? slen then
    c ← mget s plen;
    if (48 <=? c) && (c <=? 57) then
      match fuel with
      | O => None
      | S fuel' =>
          if v >? ULLONG_MAX / 10 then Some None
          else
            let v := u64 (v * 10) in
            if v >? ULLONG_MAX - (c - 48) then Some None
            else string2ll_loop fuel' s slen (plen + 1) (u64 (v + (c - 48)))
      end
    else Some (Some (v, plen))
  else Some (Some (v, plen)).

(** [Some (Some v)]: returns 1 with [*value = v]; [Some None]: returns 0. *)
Definition string2ll (s : list Z) (slen : Z) : option (option Z) :=
  if 0 =? slen then Some None
  else
    c0 ← mget s 0;
    if (slen =? 1) && (c0 =? 48) then Some (Some 0)
    else
      let '(negative, plen) := if c0 =? 45 then (true, 1) else (false, 0) in
      if (negative : bool) && (plen =? slen) then Some None
      else
        c ← mget s plen;
        if (49 <=? c) && (c <=? 57) then
          r ← string2ll_loop (Z.to_nat slen) s slen (plen + 1) (u64 (c - 48));
          match r with
          | None => Some None
          | Some (v, plen) =>
              if plen <? slen then Some None
              else if negative then
                if v >? u64 (- (LLONG_MIN + 1) + 1) then Some None
                else Some (Some (i64 (u64 (- v))))
              else if v >? LLONG_MAX then Some None
              else Some (Some (i64 v))
          end
        else Some None.

(** [long] is 64 bits wide, so the range check never fails. *)
Definition string2l (s : list Z) (slen : Z) : option (option Z) :=
  r ← string2ll s slen;
  match r with
  | None => Some None
  | Some llval =>
      if (llval <? - 2 ^ 63) || (llval >? 2 ^ 63 - 1) then Some None
      else Some (Some llval)
  end.

Example ll2string_ex :
  (r ← ll2string (replicate 21 0) 21 (-9223372036854775808);
   Some (take 20 (snd r))) = Some (bytes_of "-9223372036854775808").
Proof. vm_compute. reflexivity. Qed.

Example string2ll_ex :
  string2ll (bytes_of "-9223372036854775808") 20 = Some (Some LLONG_MIN) /\
  string2ll (bytes_of "9223372036854775808") 19 = Some None /\
  string2ll (bytes_of "007") 3 = Some None.
Proof. vm_compute. auto. Qed.

(** ** The reference: canonical decimal notation *)

Fixpoint dec_loop (fuel : nat) (v : Z) (acc : list Z) : list Z :=
  match fuel with
  | O => acc
  | S fuel' =>
      if v <? 10 then 48 + v :: acc
      else dec_loop fuel' (v / 10) (48 + v mod 10 :: acc)
  end.

(** Decimal digits of an unsigned 64-bit integer, no leading zero. *)
Definition udec (v : Z) : list Z := dec_loop 20 v [].
Arguments udec : simpl never.

(** Decimal notation of a signed integer. *)
Definition dec (v : Z) : list Z := if v <? 0 then 45 :: udec (- v) else udec v.

Lemma dec_loop_acc fuel v acc : dec_loop fuel v acc = dec_loop fuel v [] ++ acc.
Proof.
  revert v acc. induction fuel as [|fuel IH]; intros v acc; [done|].
  cbn [dec_loop]. destruct (v <? 10); [done|].
  rewrite (IH (v / 10) [_]), (IH (v / 10) (_ :: acc)), <- app_assoc. done.
Qed.

Lemma dec_loop_S fuel v acc :
  dec_loop (S fuel) v acc =
    if v <? 10 then 48 + v :: acc else dec_loop fuel (v / 10) (48 + v mod 10 :: acc).
Proof. done. Qed.

Lemma dec_loop_fuel fuel fuel' v acc :
  0 <= v < 10 ^ Z.of_nat fuel -> (fuel <= fuel')%nat -> (0 < fuel)%nat ->
  dec_loop fuel' v acc = dec_loop fuel v acc.
Proof.
  revert fuel' v acc. induction fuel as [|fuel IH]; intros fuel' v acc Hv Hle Hpos; [lia|].
  destruct fuel' as [|fuel']; [lia|]. cbn [dec_loop]. destruct (v <? 10) eqn:E; [done|].
  rewrite Nat2Z.inj_succ, Z.pow_succ_r in Hv by lia.
  destruct fuel as [|fuel]; [cbn in Hv; lia|].
  apply IH; [|lia|lia]. split; [apply Z.div_pos; lia|]. apply Z.div_lt_upper_bound; lia.
Qed.

Lemma udec_small v : 0 <= v < 10 -> udec v = [48 + v].
Proof. intros. unfold udec. rewrite (dec_loop_S 19). by zbool. Qed.

Lemma udec_step v : 10 <= v < 10 ^ 20 -> udec v = udec (v / 10) ++ [48 + v mod 10].
Proof.
  intros Hv. unfold udec. rewrite (dec_loop_S 19 v). zbool.
  rewrite dec_loop_acc. rewrite (dec_loop_fuel 19 20); [done| |lia|lia].
  change (Z.of_nat 19) with 19. split; [apply Z.div_pos; lia|].
  apply Z.div_lt_upper_bound; lia.
Qed.

Lemma udec_push v d : 1 <= v -> 0 <= d < 10 -> v * 10 + d < 10 ^ 20 ->
  udec (v * 10 + d) = udec v ++ [48 + d].
Proof.
  intros. rewrite udec_step by lia.
  replace ((v * 10 + d) / 10) with v by (rewrite Z.div_add_l, Z.div_small; lia).
  replace ((v * 10 + d) mod 10) with d; [done|].
  rewrite Z.add_comm, Z.mod_add, Z.mod_small; lia.
Qed.

(** Induction on the decimal digits of [v]. *)
Lemma udec_ind (P : Z -> Prop) :
  (forall v, 0 <= v < 10 -> P v) ->
  (forall v, 10 <= v < 10 ^ 20 -> P (v / 10) -> P v) ->
  forall v, 0 <= v < 10 ^ 20 -> P v.
Proof.
  intros H0 H1 v Hv. assert (Hn : 0 <= v) by lia. revert Hn Hv. pattern v.
  apply (well_founded_induction (Z.lt_wf 0)). clear v. intros v IH Hn Hv.
  destruct (decide (v < 10)); [apply H0; lia|]. apply H1; [lia|].
  apply IH; [|apply Z.div_pos; lia|].
  - split; [apply Z.div_pos; lia|]. apply Z.div_lt; lia.
  - split; [apply Z.div_pos; lia|]. apply Z.div_lt_upper_bound; lia.
Qed.

Lemma udec_digits v : 0 <= v < 10 ^ 20 -> Forall (fun c => 48 <= c <= 57) (udec v).
Proof.
  revert v. apply udec_ind; intros v Hv.
  - rewrite udec_small by done. repeat constructor; lia.
  - intros IH. rewrite udec_step by done. apply Forall_app; split; [done|].
    repeat constructor; pose proof (Z.mod_pos_bound v 10); lia.
Qed.

(** The number of digits is the order of magnitude. *)
Lemma udec_len v : 1 <= v < 10 ^ 20 -> 10 ^ (zlen (udec v) - 1) <= v < 10 ^ zlen (udec v) /\ 1 <= zlen (udec v).
Proof.
  intros Hv. assert (H : 0 <= v < 10 ^ 20) by lia. assert (H1 : 1 <= v) by lia. clear Hv.
  revert v H H1. apply (udec_ind (fun v => 1 <= v ->
    10 ^ (zlen (udec v) - 1) <= v < 10 ^ zlen (udec v) /\ 1 <= zlen (udec v))); intros v Hv.
  - intros ?. rewrite udec_small by done. autorewrite with zlen. cbn. lia.
  - intros IH _. rewrite udec_step by done. autorewrite with zlen.
    destruct IH as [IH Hl]; [apply Z.div_le_lower_bound; lia|].
    set (n := zlen (udec (v / 10))) in *. replace (n + (1 + 0)) with (Z.succ n) by lia.
    replace (Z.succ n - 1) with (Z.succ (n - 1)) by lia.
    rewrite !Z.pow_succ_r by lia. pose proof (Z.div_mod v 10). pose proof (Z.mod_pos_bound v 10).
    lia.
Qed.

Lemma udec_pos v : 0 <= v < 10 ^ 20 -> 1 <= zlen (udec v).
Proof.
  intros Hv. destruct (decide (v = 0)) as [->|]; [done|]. by apply udec_len; lia.
Qed.

Lemma pow10_unique v d d' :
  10 ^ (d - 1) <= v < 10 ^ d -> 10 ^ (d' - 1) <= v < 10 ^ d' -> 1 <= d -> 1 <= d' -> d = d'.
Proof.
  intros H H' Hd Hd'.
  assert (forall a b, 1 <= a -> 1 <= b -> a < b -> 10 ^ a <= 10 ^ (b - 1)) as Hm.
  { intros. apply Z.pow_le_mono_r; lia. }
  destruct (Z.lt_trichotomy d d') as [?|[?|?]]; [|done|].
  - pose proof (Hm d d'). lia.
  - pose proof (Hm d' d). lia.
Qed.

Lemma digits10_range (n : nat) v d :
  1 <= v -> digits10_fuel n v = Some d -> 10 ^ (d - 1) <= v < 10 ^ d /\ 1 <= d.
Proof.
  revert v d. induction n as [|n IH]; intros v d Hv; [done|]. cbn [digits10_fuel]. unfold b2z.
  repeat (case_match; try (intros [= <-]; cbn; lia)).
  destruct (digits10_fuel n _) as [d'|] eqn:E; [|done]. cbn. intros [= <-].
  apply IH in E as [Hd ?]; [|apply Z.div_le_lower_bound; lia].
  replace (12 + d' - 1) with (12 + (d' - 1)) by lia. rewrite !Z.pow_add_r by lia.
  change (10 ^ 12) with 1000000000000.
  pose proof (Z.div_mod v 1000000000000). pose proof (Z.mod_pos_bound v 1000000000000). nia.
Qed.

Lemma digits10_total v : 0 <= v < 2 ^ 64 -> exists d, digits10 v = Some d.
Proof.
  intros Hv. unfold digits10. cbn [digits10_fuel].
  assert (v / 1000000000000 < 100000000) by (apply Z.div_lt_upper_bound; lia).
  repeat (case_match; eauto); try lia; cbn; eauto.
Qed.

Lemma digits10_udec v : 0 <= v < 2 ^ 64 -> digits10 v = Some (zlen (udec v)).
Proof.
  intros Hv.
  destruct (decide (v = 0)) as [->|]; [done|].
  destruct (digits10_total v Hv) as [d Hd]. rewrite Hd. f_equal.
  apply digits10_range in Hd as [? ?]; [|lia].
  destruct (udec_len v) as [? ?]; [lia|]. eapply pow10_unique; eauto.
Qed.

Lemma dec_sign v : dec v = (if v <? 0 then [45] else []) ++ udec (Z.abs v).
Proof. unfold dec. destruct (v <? 0) eqn:E; [rewrite Z.abs_neq by lia|rewrite Z.abs_eq by lia]; done. Qed.

Lemma sdigits10_dec v : in_s 64 v -> sdigits10 v = Some (zlen (dec v)).
Proof.
  intros Hv. unfold in_s in Hv. cbn in Hv. unfold sdigits10. rewrite dec_sign.
  destruct (v <? 0) eqn:E; [|rewrite digits10_udec, Z.abs_eq by lia; by rewrite app_nil_l].
  assert (Hu : (if negb (v =? LLONG_MIN) then u64 (- v) else u64 (LLONG_MAX + 1)) = Z.abs v).
  { unfold LLONG_MIN, LLONG_MAX in *. destruct (v =? _) eqn:E2; cbn [negb].
    - apply Z.eqb_eq in E2. subst v. reflexivity.
    - rewrite uwrap_small; lia. }
  rewrite Hu, digits10_udec by lia. cbn [mbind option_bind]. f_equal. zlia.
Qed.

(** [digits10] and [sdigits10] count the characters of the decimal notation
    of every [uint64_t] and of every [int64_t], the sign included. *)
Theorem digits10_correct (v w : Z) (Hv : 0 <= v < 2 ^ 64) (Hw : in_s 64 w) :
  digits10 v = Some (zlen (udec v)) /\ sdigits10 w = Some (zlen (dec w)).
Proof. split; [by apply digits10_udec|by apply sdigits10_dec]. Qed.

(** ** ll2string prints the canonical notation *)

Definition digits_table_ok : bool :=
  forallb (fun k : nat =>
    let z := Z.of_nat k in
    bool_decide (mget digits (z * 2) = Some (48 + z / 10)) &&
    bool_decide (mget digits (z * 2 + 1) = Some (48 + z mod 10))) (seq 0 100).

Lemma digits_lookup k : 0 <= k < 100 ->
  mget digits (k * 2) = Some (48 + k / 10) /\ mget digits (k * 2 + 1) = Some (48 + k mod 10).
Proof.
  intros Hk. assert (H : digits_table_ok = true) by (vm_compute; reflexivity).
  unfold digits_table_ok in H. rewrite forallb_forall in H.
  specialize (H (Z.to_nat k)). rewrite in_seq, Z2Nat.id in H by lia.
  specialize (H ltac:(lia)). apply andb_true_iff in H as [H1 H2].
  by apply bool_decide_eq_true_1 in H1, H2.
Qed.

Lemma udec_step2 v : 100 <= v < 10 ^ 20 ->
  udec v = udec (v / 100) ++ [48 + (v mod 100) / 10; 48 + (v mod 100) mod 10].
Proof.
  intros Hv. rewrite udec_step, (udec_step (v / 10)) by (Z.div_mod_to_equations; lia).
  rewrite <- app_assoc, Z.div_div by lia. cbn [app].
  replace ((v mod 100) / 10) with ((v / 10) mod 10) by (Z.div_mod_to_equations; lia).
  replace (v mod 100 mod 10) with (v mod 10) by (Z.div_mod_to_equations; lia). done.
Qed.

(** Two digits written back to back at the end of the free part. *)
Lemma write_pair k a x y c hi lo :
  0 <= k < 100 -> zlen a < 2 ^ 31 -> hi = zlen a + 1 -> lo = u32 (hi - 1) ->
  (h ← mget digits (k * 2 + 1); d ← mset (a ++ x :: y :: c) hi h;
   l ← mget digits (k * 2); mset d lo l)
  = Some (a ++ 48 + k / 10 :: 48 + k mod 10 :: c).
Proof.
  intros Hk Ha -> ->. destruct (digits_lookup k Hk) as [-> ->]. cbn [mbind option_bind].
  pose_zlen. rewrite (uwrap_small 32) by lia.
  rewrite (app_assoc a [x] (y :: c) : a ++ x :: y :: c = _).
  rewrite (mset_split (a ++ [x])) by zlia. cbn [mbind option_bind].
  rewrite <- app_assoc. apply mset_split. lia.
Qed.

(** The free part [pre] of the buffer always has room for the digits left. *)
Lemma ll2string_loop_spec (fuel : nat) v p0 pre suf next :
  0 <= v < 10 ^ Z.of_nat (2 * fuel + 2) -> v < 10 ^ 20 ->
  zlen pre = zlen (udec v) -> zlen p0 <= 1 -> zlen pre <= 20 ->
  next = zlen p0 + zlen pre - 1 ->
  exists v' pre' suf',
    ll2string_loop fuel (p0 ++ pre ++ suf) v next =
      Some (p0 ++ pre' ++ suf', v', zlen p0 + zlen pre' - 1) /\
    0 <= v' < 100 /\ zlen pre' = zlen (udec v') /\ udec v' ++ suf' = udec v ++ suf.
Proof.
  revert v pre suf next. induction fuel as [|fuel IH]; intros v pre suf next Hv Hv20 Hpre Hp0 Hp20 ->.
  - cbn [ll2string_loop]. change (10 ^ _) with 100 in Hv. zbool.
    exists v, pre, suf. auto.
  - cbn [ll2string_loop]. destruct (v >=? 100) eqn:E.
    2:{ exists v, pre, suf. split; [done|]. split; [lia|]. auto. }
    assert (Hstep := udec_step2 v ltac:(lia)).
    rewrite Hstep in Hpre. autorewrite with zlen in Hpre. pose_zlen.
    destruct (zlen_cut pre (zlen (udec (v / 100)))) as (a & b & -> & Ha); [lia|].
    autorewrite with zlen in *. destruct b as [|x [|y [|? ?]]]; autorewrite with zlen in *; pose_zlen; try lia.
    pose proof (write_pair (v mod 100) (p0 ++ a) x y suf (zlen p0 + (zlen a + (1 + (1 + 0))) - 1) _
      ltac:(apply Z.mod_pos_bound; lia) ltac:(zlia) ltac:(zlia) eq_refl) as Hw.
    replace (p0 ++ (a ++ [x; y]) ++ suf) with ((p0 ++ a) ++ x :: y :: suf) by (by rewrite <- !app_assoc).
    destruct (mget digits (v mod 100 * 2 + 1)) as [h|]; [|done]. cbn [mbind option_bind] in *.
    destruct (mset _ _ h) as [d|]; [|done]. cbn [mbind option_bind] in *.
    destruct (mget digits (v mod 100 * 2)) as [l|]; [|done]. cbn [mbind option_bind] in *.
    rewrite Hw. cbn [mbind option_bind].
    pose proof (udec_pos (v / 100) ltac:(Z.div_mod_to_equations; lia)).
    rewrite <- app_assoc, (uwrap_small 32) by lia.
    assert (Hb : 0 <= v / 100 < 10 ^ Z.of_nat (2 * fuel + 2)).
    { split; [apply Z.div_pos; lia|]. apply Z.div_lt_upper_bound; [lia|].
      replace (Z.of_nat (2 * S fuel + 2)) with (2 + Z.of_nat (2 * fuel + 2)) in Hv by lia.
      rewrite Z.pow_add_r in Hv by lia. change (10 ^ 2) with 100 in Hv. lia. }
    destruct (IH (v / 100) a (48 + v mod 100 / 10 :: 48 + v mod 100 mod 10 :: suf)
                (zlen p0 + (zlen a + (1 + (1 + 0))) - 1 - 2)) as (v' & pre' & suf' & Hrun & Hv' & Hz & Heq);
      try lia; [Z.div_mod_to_equations; lia|].
    rewrite Hrun. exists v', pre', suf'. repeat split; try done; try lia.
    rewrite Heq, Hstep, <- app_assoc. done.
Qed.

(** The magnitude and sign [ll2string] works with. *)
Lemma ll2string_magnitude v :
  in_s 64 v ->
  (if v <? 0 then
      (if negb (v =? LLONG_MIN) then u64 (- v) else u64 (LLONG_MAX + 1), 1)
    else (u64 v, 0)) = (Z.abs v, b2z (v <? 0)).
Proof.
  unfold in_s. intros Hv. cbn in Hv. destruct (v <? 0) eqn:E.
  - destruct (v =? LLONG_MIN) eqn:E1; cbn [negb]; unfold LLONG_MIN in *.
    + assert (v = - 2 ^ 63) as -> by lia. done.
    + rewrite uwrap_small by lia. f_equal. lia.
  - rewrite uwrap_small by lia. f_equal. lia.
Qed.


(** The last one or two digits fill the free part exactly. *)
Lemma ll2string_last v p0 pre suf :
  0 <= v < 100 -> zlen pre = zlen (udec v) -> zlen p0 <= 1 ->
  (if v <? 10 then mset (p0 ++ pre ++ suf) (zlen p0 + zlen pre - 1) (48 + v)
   else
     let i := v * 2 in
     hi ← mget digits (i + 1); dst ← mset (p0 ++ pre ++ suf) (zlen p0 + zlen pre - 1) hi;
     lo ← mget digits i; mset dst (u32 (zlen p0 + zlen pre - 1 - 1)) lo)
  = Some (p0 ++ udec v ++ suf).
Proof.
  intros Hv Hpre Hp0. pose_zlen. destruct (v <? 10) eqn:E.
  - rewrite udec_small in * by lia. autorewrite with zlen in *.
    destruct pre as [|x [|? ?]]; autorewrite with zlen in *; pose_zlen; try lia.
    cbn [app]. apply mset_split. lia.
  - assert (Hu : udec v = [48 + v / 10; 48 + v mod 10]).
    { rewrite udec_step, udec_small; [done| |lia].
      split; [apply Z.div_pos; lia|apply Z.div_lt_upper_bound; lia]. }
    rewrite Hu in *. autorewrite with zlen in *.
    destruct pre as [|x [|y [|? ?]]]; autorewrite with zlen in *; pose_zlen; try lia.
    cbn zeta. cbn [app]. apply write_pair; lia.
Qed.

Lemma ll2string_spec (dst : list Z) (dstlen v : Z)
    (Hv : in_s 64 v) (Hdst : 0 <= dstlen <= zlen dst) :
  ll2string dst dstlen v =
    if zlen (dec v) >=? dstlen then Some (0, dst)
    else Some (zlen (dec v), dec v ++ [0] ++ drop (S (length (dec v))) dst).
Proof.
  unfold ll2string. rewrite ll2string_magnitude by done. unfold in_s in Hv. cbn in Hv.
  rewrite digits10_udec by lia. cbn [mbind option_bind].
  assert (Hl : zlen (udec (Z.abs v)) + b2z (v <? 0) = zlen (dec v)).
  { rewrite dec_sign. destruct (v <? 0); cbn [b2z]; zlia. }
  rewrite Hl. destruct (zlen (dec v) >=? dstlen) eqn:E; [done|].
  assert (H20 : 1 <= zlen (udec (Z.abs v)) <= 20).
  { destruct (decide (v = 0)) as [->|]; [done|]. destruct (udec_len (Z.abs v)) as [H1 H2]; [lia|].
    destruct (decide (21 <= zlen (udec (Z.abs v)))); [|lia].
    pose proof (Z.pow_le_mono_r 10 20 (zlen (udec (Z.abs v)) - 1)). lia. }
  pose_zlen.
  destruct (zlen_cut dst (b2z (v <? 0))) as (p0 & dst1 & -> & Hp0);
    [destruct (v <? 0); cbn [b2z] in *; lia|].
  autorewrite with zlen in *.
  destruct (zlen_cut dst1 (zlen (udec (Z.abs v)))) as (pre & dst2 & -> & Hpre); [lia|].
  autorewrite with zlen in *. destruct dst2 as [|z rest]; autorewrite with zlen in *; [lia|].
  assert (Hb : 0 <= b2z (v <? 0) <= 1) by (destruct (v <? 0); cbn; lia).
  rewrite app_assoc, mset_split by zlia. cbn [mbind option_bind].
  rewrite (uwrap_small 32) by lia. rewrite <- app_assoc.
  edestruct (ll2string_loop_spec 10 (Z.abs v) p0 pre (0 :: rest)) as (v' & pre' & suf' & Hrun & Hv' & Hz & Heq);
    [| | | | | |rewrite Hrun]; try lia.
  cbn [mbind option_bind]. pose proof (ll2string_last v' p0 pre' suf' Hv' Hz ltac:(lia)) as Hlast.
  cbn zeta in *. rewrite Hlast. cbn [mbind option_bind]. rewrite Heq.
  assert (Hdrop : rest = drop (S (length (dec v))) ((p0 ++ pre) ++ z :: rest)).
  { rewrite (app_assoc _ [z] rest : _ ++ z :: rest = _).
    rewrite drop_app_length'; [done|]. unfold zlen in *. rewrite !length_app. cbn [length]. lia. }
  rewrite <- Hdrop, dec_sign. clear Hdrop Hl E Hb.
  revert Hp0. destruct (v <? 0); intros Hp0; cbn [b2z Z.eqb Pos.eqb] in *.
  - destruct p0 as [|x [|? ?]]; autorewrite with zlen in *; pose_zlen; try lia. done.
  - destruct p0; autorewrite with zlen in *; pose_zlen; [|lia]. done.
Qed.

(** [C37] [ll2string] writes the canonical decimal notation of every
    [long long], NUL terminated, inside [dstlen] bytes and nowhere else, and
    returns its length; when the buffer is too small it returns 0 and writes
    nothing. *)
Theorem ll2string_correct (dst : list Z) (dstlen v : Z)
    (Hv : in_s 64 v) (Hdst : 0 <= dstlen <= zlen dst) :
  ll2string dst dstlen v =
    if zlen (dec v) >=? dstlen then Some (0, dst)
    else Some (zlen (dec v), dec v ++ [0] ++ drop (S (length (dec v))) dst).
Proof. by apply ll2string_spec. Qed.

(** ** string2ll parses exactly the canonical notation *)

(** The value of a digit string. *)
Definition dval (l : list Z) : Z := foldl (fun a c => a * 10 + (c - 48)) 0 l.

Lemma dval_snoc l c : dval (l ++ [c]) = dval l * 10 + (c - 48).
Proof. unfold dval. by rewrite foldl_app. Qed.

Lemma dval_udec v : 0 <= v < 10 ^ 20 -> dval (udec v) = v.
Proof.
  revert v. apply udec_ind; intros v Hv.
  - rewrite udec_small by done. unfold dval. cbn. lia.
  - intros IH. rewrite udec_step, dval_snoc, IH by done. pose proof (Z.div_mod v 10). lia.
Qed.

Lemma dval_app_ge l r :
  0 <= dval l -> Forall (fun c => 48 <= c <= 57) r -> dval l <= dval (l ++ r).
Proof.
  intros Hl Hr. revert l Hl. induction Hr as [|c r Hc Hr IH]; intros l Hl.
  - rewrite app_nil_r. lia.
  - replace (l ++ c :: r) with ((l ++ [c]) ++ r) by (by rewrite <- app_assoc).
    specialize (IH (l ++ [c])). rewrite dval_snoc in IH. lia.
Qed.

(** A number whose digits extend those of [v] is at least [v]. *)
Lemma udec_prefix_le v w r :
  0 <= v < 10 ^ 20 -> 0 <= w < 10 ^ 20 -> udec w = udec v ++ r -> v <= w.
Proof.
  intros Hv Hw E. rewrite <- (dval_udec v), <- (dval_udec w), E by done.
  apply dval_app_ge; [by rewrite dval_udec; lia|].
  pose proof (udec_digits w Hw) as Hd. rewrite E in Hd. by apply Forall_app in Hd as [_ Hd].
Qed.

(** One digit appended to a number that stays below [2^64]. *)
Lemma push_digit v c :
  1 <= v < 2 ^ 64 -> 48 <= c <= 57 ->
  if v >? ULLONG_MAX / 10 then 2 ^ 64 <= v * 10 + (c - 48)
  else u64 (v * 10) = v * 10 /\
       if v * 10 >? ULLONG_MAX - (c - 48) then 2 ^ 64 <= v * 10 + (c - 48)
       else u64 (v * 10 + (c - 48)) = v * 10 + (c - 48) /\ v * 10 + (c - 48) < 2 ^ 64.
Proof.
  intros Hv Hc. unfold ULLONG_MAX. change ((2 ^ 64 - 1) / 10) with 1844674407370955161.
  destruct (v >? 1844674407370955161) eqn:E; [lia|].
  split; [apply uwrap_small; lia|].
  destruct (v * 10 >? _) eqn:E2; [lia|]. split; [apply uwrap_small; lia|lia].
Qed.

(** The digit loop, on the unread rest [r] of the string: it consumes the
    longest digit run [ds], unless the number leaves the 64-bit range. *)
Definition digit_run (r ds r' : list Z) (v w : Z) : Prop :=
  r = ds ++ r' /\ udec w = udec v ++ ds /\ 1 <= w < 2 ^ 64 /\
  (r' = [] \/ exists c r'', r' = c :: r'' /\ ~ (48 <= c <= 57)).

Lemma digit_run_stop r v :
  1 <= v < 2 ^ 64 -> r = [] \/ (exists c r'', r = c :: r'' /\ ~ (48 <= c <= 57)) ->
  digit_run r [] r v v.
Proof. intros. unfold digit_run. rewrite app_nil_r. auto. Qed.

Lemma digit_run_push c r ds r' v w :
  1 <= v -> 48 <= c <= 57 -> v * 10 + (c - 48) < 2 ^ 64 ->
  digit_run r ds r' (v * 10 + (c - 48)) w -> digit_run (c :: r) (c :: ds) r' v w.
Proof.
  intros Hv Hc Hb (-> & Hw & ? & ?). split; [done|]. split; [|done].
  rewrite Hw, udec_push by lia. replace (48 + (c - 48)) with c by lia. by rewrite <- app_assoc.
Qed.

Lemma overflow_run v c r w :
  1 <= v < 2 ^ 64 -> 48 <= c <= 57 -> 2 ^ 64 <= v * 10 + (c - 48) -> 0 <= w < 2 ^ 64 ->
  udec w <> udec v ++ c :: r.
Proof.
  intros Hv Hc Hbig Hw Heq.
  assert (Hpush := udec_push v (c - 48)). replace (48 + (c - 48)) with c in Hpush by lia.
  assert (Hl := udec_digits w ltac:(lia)). rewrite Heq in Hl.
  apply Forall_app in Hl as [_ Hl]. inversion Hl; subst.
  assert (Hge := dval_app_ge (udec v ++ [c]) r).
  rewrite <- app_assoc in Hge. cbn [app] in Hge.
  rewrite <- Heq, dval_snoc, (dval_udec v), (dval_udec w) in Hge by lia.
  specialize (Hge ltac:(lia) ltac:(done)). lia.
Qed.

Lemma string2ll_loop_spec (fuel : nat) pre r v :
  zlen r <= Z.of_nat fuel -> 1 <= v < 2 ^ 64 ->
  let run := string2ll_loop fuel (pre ++ r) (zlen pre + zlen r) (zlen pre) v in
  (run = Some None /\ forall w, 0 <= w < 2 ^ 64 -> udec w <> udec v ++ r) \/
  exists ds r' w, run = Some (Some (w, zlen pre + zlen ds)) /\ digit_run r ds r' v w.
Proof.
  cbn zeta. revert pre r v. induction fuel as [|fuel IH]; intros pre r v Hf Hv; cbn [string2ll_loop].
  { destruct r; [|zlia]. right. exists [], [], v. autorewrite with zlen. rewrite Z.add_0_r. zbool.
    split; [done|]. apply digit_run_stop; auto. }
  destruct r as [|c r].
  { right. exists [], [], v. autorewrite with zlen. rewrite Z.add_0_r. zbool.
    split; [done|]. apply digit_run_stop; auto. }
  autorewrite with zlen in *. pose_zlen. zbool. rewrite mget_split by done. cbn [mbind option_bind].
  destruct ((48 <=? c) && (c <=? 57)) eqn:Ec.
  2:{ right. exists [], (c :: r), v. rewrite zlen_nil, Z.add_0_r. split; [done|].
      apply digit_run_stop; [done|]. right. exists c, r. split; [done|lia]. }
  assert (Hc : 48 <= c <= 57) by lia. pose proof (push_digit v c Hv Hc) as Hp.
  destruct (v >? ULLONG_MAX / 10).
  { left. split; [done|]. intros. by apply overflow_run. }
  destruct Hp as [-> Hp]. destruct (v * 10 >? ULLONG_MAX - (c - 48)).
  { left. split; [done|]. intros. by apply overflow_run. }
  destruct Hp as [-> Hlt]. specialize (IH (pre ++ [c]) r (v * 10 + (c - 48)) ltac:(lia) ltac:(lia)).
  rewrite <- app_assoc in IH. autorewrite with zlen in IH.
  replace (zlen pre + (1 + 0) + zlen r) with (zlen pre + (1 + zlen r)) in IH by lia.
  replace (zlen pre + (1 + 0)) with (zlen pre + 1) in IH by lia. cbn [app] in IH.
  destruct IH as [[-> Hno]|(ds & r' & w & -> & Hrun)]; [left|right].
  - split; [done|]. intros w Hw Heq. apply (Hno w Hw). rewrite Heq, udec_push by lia.
    replace (48 + (c - 48)) with c by lia. by rewrite <- app_assoc.
  - exists (c :: ds), r', w. split; [rewrite zlen_cons; do 3 f_equal; lia|].
    apply digit_run_push; auto; lia.
Qed.

(** The magnitude: what is left of the string after the loop must be nothing. *)
Lemma string2ll_magnitude (fuel : nat) pre c r :
  zlen r <= Z.of_nat fuel -> 49 <= c <= 57 ->
  let s := pre ++ c :: r in
  exists res, string2ll_loop fuel s (zlen s) (zlen pre + 1) (u64 (c - 48)) = Some res /\
    match res with
    | None => forall w, 0 <= w < 2 ^ 64 -> udec w <> c :: r
    | Some (v, plen) =>
        if plen <? zlen s then forall w, 0 <= w < 2 ^ 64 -> udec w <> c :: r
        else udec v = c :: r /\ 1 <= v < 2 ^ 64
    end.
Proof.
  intros Hf Hc s. rewrite uwrap_small by lia.
  pose proof (string2ll_loop_spec fuel (pre ++ [c]) r (c - 48) Hf ltac:(lia)) as Hl. cbn zeta in Hl.
  assert (Hu : udec (c - 48) = [c]) by (rewrite udec_small by lia; f_equal; lia).
  rewrite <- app_assoc, Hu in Hl. autorewrite with zlen in Hl. cbn [app] in Hl. subst s.
  autorewrite with zlen. replace (zlen pre + (1 + 0) + zlen r) with (zlen pre + (1 + zlen r)) in Hl by lia.
  replace (zlen pre + (1 + 0)) with (zlen pre + 1) in Hl by lia.
  destruct Hl as [[-> Hno]|(ds & r' & w & -> & (-> & Hw & Hwr & Hend))].
  { exists None. split; [done|]. exact Hno. }
  exists (Some (w, zlen pre + 1 + zlen ds)). split; [done|]. rewrite Hu in Hw.
  autorewrite with zlen. destruct Hend as [->|(d & r'' & -> & Hd)].
  - autorewrite with zlen. zbool. by rewrite app_nil_r.
  - autorewrite with zlen. pose_zlen. zbool. intros w' Hw' Heq.
    pose proof (udec_digits w' ltac:(lia)) as Hdig. rewrite Heq in Hdig.
    inversion Hdig as [|? ? _ Hdig']; subst. apply Forall_app in Hdig' as [_ Hdig'].
    inversion Hdig'; subst. lia.
Qed.

Lemma udec_head v : 1 <= v < 10 ^ 20 -> exists c r, udec v = c :: r /\ 49 <= c <= 57.
Proof.
  intros Hv. assert (H : 0 <= v < 10 ^ 20) by lia. assert (H1 : 1 <= v) by lia. clear Hv.
  revert v H H1. apply (udec_ind (fun v => 1 <= v -> exists c r, udec v = c :: r /\ 49 <= c <= 57)).
  - intros v Hv ?. rewrite udec_small by done. exists (48 + v), []. split; [done|lia].
  - intros v Hv IH _. destruct IH as (c & r & E & Hc); [apply Z.div_le_lower_bound; lia|].
    rewrite udec_step, E by done. exists c, (r ++ [48 + v mod 10]). done.
Qed.

(** [dec] in terms of a sign and a non-zero magnitude. *)
Lemma dec_cases v : in_s 64 v ->
  (v = 0 /\ dec v = [48]) \/
  (exists c r, 49 <= c <= 57 /\ udec (Z.abs v) = c :: r /\ Z.abs v <= 2 ^ 63 /\
     ((0 < v /\ dec v = c :: r) \/ (v < 0 /\ dec v = 45 :: c :: r))).
Proof.
  unfold in_s. cbn. intros Hv. destruct (decide (v = 0)) as [->|]; [by left|]. right.
  destruct (udec_head (Z.abs v)) as (c & r & E & Hc); [lia|]. exists c, r.
  split; [done|]. split; [done|]. split; [lia|]. rewrite dec_sign, E.
  destruct (v <? 0) eqn:Es; [right|left]; split; try done; lia.
Qed.

Lemma udec_inj v w : 0 <= v < 10 ^ 20 -> 0 <= w < 10 ^ 20 -> udec v = udec w -> v = w.
Proof. intros Hv Hw E. by rewrite <- (dval_udec v), <- (dval_udec w), E. Qed.

(** The end of [string2ll]: sign, magnitude and the range of [long long]. *)
Lemma string2ll_signed (neg : bool) pre c r :
  pre = (if neg then [45] else []) -> 49 <= c <= 57 ->
  let s := pre ++ c :: r in
  exists res,
    (x ← string2ll_loop (Z.to_nat (zlen s)) s (zlen s) (zlen pre + 1) (u64 (c - 48));
     match x with
     | None => Some None
     | Some (v, plen) =>
         if plen <? zlen s then Some None
         else if neg then
           if v >? u64 (- (LLONG_MIN + 1) + 1) then Some None else Some (Some (i64 (u64 (- v))))
         else if v >? LLONG_MAX then Some None else Some (Some (i64 v))
     end) = Some res /\
    forall v, res = Some v <-> in_s 64 v /\ s = dec v.
Proof.
  intros Hpre Hc s.
  destruct (string2ll_magnitude (Z.to_nat (zlen s)) pre c r) as (res & Hrun & Hres);
    [subst s; zlia|done|]. fold s in Hrun. rewrite Hrun. cbn [mbind option_bind].
  assert (Hs : forall v, in_s 64 v -> s = dec v -> udec (Z.abs v) = c :: r /\ (v < 0 <-> neg = true)).
  { intros v Hv E. destruct (dec_cases v Hv) as [[-> E0]|(c' & r' & Hc' & Hu & _ & [[? E0]|[? E0]])];
      rewrite E0 in E; subst s pre; destruct neg; cbn in E; injection E as; subst;
      try lia; split; auto; split; (done || lia). }
  assert (Hnone : (forall w, 0 <= w < 2 ^ 64 -> udec w <> c :: r) ->
                  forall v, None = Some v <-> in_s 64 v /\ s = dec v).
  { intros Hno v. split; [done|]. intros [Hv E]. destruct (Hs v Hv E) as [Hu _].
    destruct (Hno (Z.abs v)); [unfold in_s in Hv; cbn in Hv; lia|done]. }
  destruct res as [[v plen]|]; [|eexists; split; [done|exact (Hnone Hres)]].
  fold s in Hres. revert Hres. destruct (plen <? zlen s); intros Hres; [eexists; split; [done|exact (Hnone Hres)]|]. destruct Hres as [Hv Hvr].
  assert (Hmag : forall w, in_s 64 w -> s = dec w -> Z.abs w = v).
  { intros w Hw E. destruct (Hs w Hw E) as [Hu _]. apply udec_inj; [|lia|congruence].
    unfold in_s in Hw. cbn in Hw. lia. }
  subst pre. destruct neg; cbn [app] in s.
  - change (u64 (- (LLONG_MIN + 1) + 1)) with (2 ^ 63). destruct (v >? 2 ^ 63) eqn:E.
    + eexists; split; [done|]. intros w. split; [done|]. intros [Hw E'].
      specialize (Hmag w Hw E'). unfold in_s in Hw. cbn in Hw. lia.
    + eexists; split; [done|]. rewrite swrap_uwrap, swrap_small by (unfold in_s; cbn; lia).
      intros w. split.
      * intros [= <-]. split; [unfold in_s; cbn; lia|]. rewrite dec_sign. zbool.
        rewrite Z.abs_neq by lia. by rewrite Z.opp_involutive, Hv.
      * intros [Hw E']. specialize (Hmag w Hw E'). destruct (Hs w Hw E') as [_ [_ Hneg]].
        specialize (Hneg eq_refl). f_equal. lia.
  - unfold LLONG_MAX. destruct (v >? _) eqn:E.
    + eexists; split; [done|]. intros w. split; [done|]. intros [Hw E'].
      specialize (Hmag w Hw E'). destruct (Hs w Hw E') as [_ [Hneg _]].
      unfold in_s in Hw. cbn in Hw. destruct (decide (w < 0)); [by specialize (Hneg l)|]. lia.
    + eexists; split; [done|]. rewrite swrap_small by (unfold in_s; cbn; lia). intros w. split.
      * intros [= <-]. split; [unfold in_s; cbn; lia|]. rewrite dec_sign. zbool.
        by rewrite Z.abs_eq, Hv by lia.
      * intros [Hw E']. specialize (Hmag w Hw E'). destruct (Hs w Hw E') as [_ [Hneg _]].
        destruct (decide (w < 0)); [by specialize (Hneg l)|]. f_equal. lia.
Qed.

(** What a canonical notation looks like: refutes [s = dec v] from the first
    characters of [s]. *)
Lemma dec_head v : in_s 64 v ->
  dec v = [48] \/ exists c r, 49 <= c <= 57 /\ (dec v = c :: r \/ dec v = 45 :: c :: r).
Proof.
  intros Hv. destruct (dec_cases v Hv) as [[-> E0]|(c & r & Hc & _ & _ & [[_ E0]|[_ E0]])];
    [left|right|right]; eauto.
Qed.

Ltac dec_shape :=
  intros v Hv E;
  destruct (dec_head v Hv) as [E0|(? & ? & ? & [E0|E0])]; rewrite E0 in E;
  injection E; intros; subst; try zlia; discriminate.

Lemma string2ll_total (s : list Z) :
  exists r, string2ll s (zlen s) = Some r /\
    forall v, r = Some v <-> in_s 64 v /\ s = dec v.
Proof.
  assert (Hno : (forall v, in_s 64 v -> s <> dec v) ->
                forall v, None = Some v <-> in_s 64 v /\ s = dec v).
  { intros H v. split; [done|]. intros [Hv E]. by destruct (H v Hv). }
  unfold string2ll. destruct s as [|c0 s'].
  { eexists; split; [done|]. apply Hno. intros v Hv E.
    destruct (dec_head v Hv) as [E0|(? & ? & _ & [E0|E0])]; congruence. }
  autorewrite with zlen. pose_zlen. zbool. rewrite (mget_split [] c0 s') by done. cbn [mbind option_bind].
  destruct ((1 + zlen s' =? 1) && (c0 =? 48)) eqn:E1.
  { assert (s' = []) as -> by (destruct s'; [done|zlia]). assert (c0 = 48) as -> by lia.
    eexists; split; [done|]. intros v. split; [intros [= <-]; done|]. intros [Hv E].
    destruct (dec_cases v Hv) as [[-> _]|(? & ? & ? & _ & _ & [[_ E0]|[_ E0]])]; [done| |];
      rewrite E0 in E; injection E; intros; try lia; discriminate. }
  destruct (c0 =? 45) eqn:E45; cbn [andb].
  - assert (c0 = 45) as -> by lia. destruct s' as [|c r].
    { autorewrite with zlen. zbool. eexists; split; [done|]. apply Hno. dec_shape. }
    autorewrite with zlen in *. pose_zlen. zbool.
    rewrite (mget_split [45] c r) by done. cbn [mbind option_bind].
    destruct ((49 <=? c) && (c <=? 57)) eqn:Ec.
    + pose proof (string2ll_signed true [45] c r eq_refl ltac:(lia)) as Hsig. cbn zeta in Hsig.
      autorewrite with zlen in Hsig. exact Hsig.
    + eexists; split; [done|]. apply Hno. dec_shape.
  - rewrite (mget_split [] c0 s') by done. cbn [mbind option_bind].
    destruct ((49 <=? c0) && (c0 <=? 57)) eqn:Ec.
    + pose proof (string2ll_signed false [] c0 s' eq_refl ltac:(lia)) as Hsig. cbn zeta in Hsig.
      cbn [app] in Hsig. autorewrite with zlen in Hsig. exact Hsig.
    + eexists; split; [done|]. apply Hno. dec_shape.
Qed.

(** [string2ll] reads nothing outside the string and accepts exactly the
    canonical decimal notations of the [long long] range: it succeeds with [v]
    if and only if the string is the one [ll2string] prints for [v]. *)
Theorem string2ll_correct (s : list Z) :
  exists r, string2ll s (zlen s) = Some r /\
    forall v, r = Some v <-> in_s 64 v /\ s = dec v.
Proof. apply string2ll_total. Qed.

(** ** The theorems at concrete inputs *)

Lemma digits10_witness :
  digits10 18446744073709551615 = Some 20 /\ sdigits10 LLONG_MIN = Some 20.
Proof. exact (digits10_correct 18446744073709551615 LLONG_MIN ltac:(lia) ltac:(by vm_compute)). Defined.

Lemma ll2string_witness :
  ll2string [9; 9; 9; 9; 9; 9; 9] 6 (-8192) = Some (5, bytes_of "-8192" ++ [0; 9]) /\
  ll2string [9; 9; 9; 9; 9; 9; 9] 5 (-8192) = Some (0, [9; 9; 9; 9; 9; 9; 9]).
Proof.
  assert (Hv : in_s 64 (-8192)) by by vm_compute. split.
  - exact (ll2string_correct [9; 9; 9; 9; 9; 9; 9] 6 (-8192) Hv ltac:(vm_compute; split; congruence)).
  - exact (ll2string_correct [9; 9; 9; 9; 9; 9; 9] 5 (-8192) Hv ltac:(vm_compute; split; congruence)).
Defined.

(** [string2l] is [string2ll] where [long] is 64 bits wide. *)
Lemma string2l_eq s : string2l s (zlen s) = string2ll s (zlen s).
Proof.
  unfold string2l. destruct (string2ll_total s) as (r & -> & Hr). cbn [mbind option_bind].
  destruct r as [v|]; [|done]. destruct (proj1 (Hr v) eq_refl) as [Hv _]. unfold in_s in Hv. cbn in Hv.
  unfold LLONG_MIN, LLONG_MAX. by zbool.
Qed.
