(* ===== verification/Glob.v ===== *)
(** * Glob-style pattern matching (util.c, stringmatchlen)

    Used by KEYS, SCAN, PSUBSCRIBE and CONFIG GET.  The pattern and the string
    are the byte buffers behind the two [char *], terminator included, with the
    current index and the remaining length as the code keeps them; a read past
    the terminator gives [None]. *)
From Stdlib Require Import ZArith Lia String.
From stdpp Require Import base numbers list option.
From S2P Require Import Prelude.

(** ** The matcher as written *)

(** [tolower] of the C locale. *)
Definition tolower (c : Z) : Z := if (65 <=? c) && (c <=? 90) then c + 32 else c.

(** What one iteration of the main loop's [switch] does: [return], or fall to
    the code after it with the updated variables. *)
Inductive ctl := Ret (b : bool) | Go (pi pl si sl : Z).

Section Match.
Variables (pat str : list Z) (nocase : bool).

(** The loop that skips stars while the next character is one too. *)
Fixpoint collapse_stars (fuel : nat) (pi pl : Z) : option (Z * Z) :=
  match fuel with
  | O => None
  | S fuel' =>
      c ← mget pat (pi + 1);
      if c =? 42 then collapse_stars fuel' (pi + 1) (pl - 1) else Some (pi, pl)
  end.

(** The trailing loop that skips every star at the current position. *)
Fixpoint skip_stars (fuel : nat) (pi pl : Z) : option (Z * Z) :=
  match fuel with
  | O => None
  | S fuel' =>
      c ← mget pat pi;
      if c =? 42 then skip_stars fuel' (pi + 1) (pl - 1) else Some (pi, pl)
  end.

(** The range test; bytes are signed [char]s. *)
Definition in_range (start end_ c : Z) : bool :=
  let start := i8 start in let end_ := i8 end_ in let c := i8 c in
  let '(start, end_) := if start >? end_ then (end_, start) else (start, end_) in
  let '(start, end_, c) :=
    if nocase then (tolower start, tolower end_, tolower c) else (start, end_, c) in
  (c >=? start) && (c <=? end_).

Definition same_char (a b : Z) : bool :=
  if negb nocase then a =? b else tolower (i8 a) =? tolower (i8 b).

(** The [while(1)] of the '[' case; [si] is the index of [string[0]]. *)
Fixpoint class_loop (fuel : nat) (pi pl si : Z) (m : bool) : option (Z * Z * bool) :=
  match fuel with
  | O => None
  | S fuel' =>
      p0 ← mget pat pi;
      if (p0 =? 92) && (pl >=? 2) then
        p1 ← mget pat (pi + 1); c ← mget str si;
        class_loop fuel' (pi + 2) (pl - 2) si (if p1 =? c then true else m)
      else if p0 =? 93 then Some (pi, pl, m)
      else if pl =? 0 then Some (pi - 1, pl + 1, m)
      else
        p1 ← mget pat (pi + 1);
        if (p1 =? 45) && (pl >=? 3) then
          p2 ← mget pat (pi + 2); c ← mget str si;
          class_loop fuel' (pi + 3) (pl - 3) si (if in_range p0 p2 c then true else m)
        else
          c ← mget str si;
          class_loop fuel' (pi + 1) (pl - 1) si (if same_char p0 c then true else m)
  end.

Definition match_class (fuel : nat) (pi pl si sl : Z) : option ctl :=
  let pi := pi + 1 in let pl := pl - 1 in
  p0 ← mget pat pi;
  let not_ := p0 =? 94 in
  let '(pi, pl) := if not_ then (pi + 1, pl - 1) else (pi, pl) in
  r ← class_loop fuel pi pl si false;
  let '(pi, pl, m) := r in
  let m := if not_ then negb m else m in
  if negb m then Some (Ret false) else Some (Go pi pl (si + 1) (sl - 1)).

Definition match_literal (pi pl si sl : Z) : option ctl :=
  p0 ← mget pat pi; c ← mget str si;
  if negb (same_char p0 c) then Some (Ret false) else Some (Go pi pl (si + 1) (sl - 1)).

(** One entry per iteration of [while(patternLen)]; every iteration and every
    recursive call consumes pattern bytes, so [patternLen] bounds the fuel. *)
Fixpoint match_loop (fuel : nat) (pi pl si sl : Z) : option bool :=
  if pl =? 0 then Some ((pl =? 0) && (sl =? 0))
  else match fuel with
  | O => None
  | S fuel' =>
      p0 ← mget pat pi;
      r ← (if p0 =? 42 then
             q ← collapse_stars (S (length pat)) pi pl;
             let '(pi, pl) := q in
             if pl =? 1 then Some (Ret true)
             else
               (fix star (n : nat) (si sl : Z) : option ctl :=
                  if sl =? 0 then Some (Ret false)
                  else match n with
                  | O => None
                  | S n' =>
                      b ← match_loop fuel' (pi + 1) (pl - 1) si sl;
                      if (b : bool) then Some (Ret true) else star n' (si + 1) (sl - 1)
                  end) (Z.to_nat sl) si sl
           else if p0 =? 63 then
             if sl =? 0 then Some (Ret false) else Some (Go pi pl (si + 1) (sl - 1))
           else if p0 =? 91 then match_class (S (length pat)) pi pl si sl
           else if p0 =? 92 then
             if pl >=? 2 then match_literal (pi + 1) (pl - 1) si sl
             else match_literal pi pl si sl
           else match_literal pi pl si sl);
      match r with
      | Ret b => Some b
      | Go pi pl si sl =>
          let pi := pi + 1 in let pl := pl - 1 in
          if sl =? 0 then
            q ← skip_stars (S (length pat)) pi pl;
            let '(pi, pl) := q in Some ((pl =? 0) && (sl =? 0))
          else match_loop fuel' pi pl si sl
      end
  end.
End Match.

(** [stringmatchlen(pattern, patternLen, string, stringLen, nocase)] on
    NUL-terminated buffers. *)
Definition stringmatchlen (pattern : list Z) (string : list Z) (nocase : bool) : option bool :=
  match_loop (pattern ++ [0]) (string ++ [0]) nocase (length pattern) 0 (zlen pattern) 0 (zlen string).

(** ** The specification *)

Inductive item := Chr (c : Z) | Esc (c : Z) | Range (a b : Z).
Inductive token := TStar | TAny | TSet (neg : bool) (items : list item) | TLit (c : Z).

(** The members of a class, up to its ']' or the end of the pattern. *)
Fixpoint parse_items (p : list Z) : list item * list Z :=
  match p with
  | [] => ([], [])
  | a :: p1 =>
      if a =? 93 then ([], p1)
      else match p1 with
      | [] => ([Chr a], [])
      | b :: p2 =>
          if a =? 92 then let '(is_, r) := parse_items p2 in (Esc b :: is_, r)
          else match p2 with
          | c :: p3 =>
              if b =? 45 then let '(is_, r) := parse_items p3 in (Range a c :: is_, r)
              else let '(is_, r) := parse_items p1 in (Chr a :: is_, r)
          | [] => let '(is_, r) := parse_items p1 in (Chr a :: is_, r)
          end
      end
  end.

(** The pattern as a list of tokens; [length p] is enough fuel. *)
Fixpoint parse_glob (fuel : nat) (p : list Z) : list token :=
  match fuel with
  | O => []
  | S fuel' =>
      match p with
      | [] => []
      | a :: p1 =>
          if a =? 42 then TStar :: parse_glob fuel' p1
          else if a =? 63 then TAny :: parse_glob fuel' p1
          else if a =? 91 then
            let '(neg, p2) := match p1 with
                              | b :: p2 => if b =? 94 then (true, p2) else (false, p1)
                              | [] => (false, [])
                              end in
            let '(is_, r) := parse_items p2 in TSet neg is_ :: parse_glob fuel' r
          else if a =? 92 then
            match p1 with
            | b :: p2 => TLit b :: parse_glob fuel' p2
            | [] => [TLit a]
            end
          else TLit a :: parse_glob fuel' p1
      end
  end.

(** A range holds the characters between its ends, in either order; characters
    are signed, and the case is folded after the ends are ordered. *)
Definition case_of (nocase : bool) (c : Z) : Z := if nocase then tolower c else c.
Definition range_has (nocase : bool) (a b c : Z) : bool :=
  bool_decide (case_of nocase (Z.min (i8 a) (i8 b)) <= case_of nocase (i8 c) <= case_of nocase (Z.max (i8 a) (i8 b))).

(** An escaped member is compared as it is even under [nocase]. *)
Definition item_match (nocase : bool) (c : Z) (it : item) : bool :=
  match it with
  | Chr a => same_char nocase a c
  | Esc a => a =? c
  | Range a b => range_has nocase a b c
  end.

Definition token_match (nocase : bool) (c : Z) (t : token) : bool :=
  match t with
  | TStar => false
  | TAny => true
  | TSet neg its => xorb neg (existsb (item_match nocase c) its)
  | TLit a => same_char nocase a c
  end.

Fixpoint glob_match (nocase : bool) (ts : list token) (s : list Z) : bool :=
  match ts with
  | [] => match s with [] => true | _ => false end
  | TStar :: ts' =>
      (fix star (s : list Z) : bool :=
         glob_match nocase ts' s || match s with [] => false | _ :: s' => star s' end) s
  | t :: ts' =>
      match s with
      | [] => false
      | c :: s' => token_match nocase c t && glob_match nocase ts' s'
      end
  end.

Definition matches (nocase : bool) (pattern string : list Z) : bool :=
  glob_match nocase (parse_glob (length pattern) pattern) string.

Example glob_ex :
  stringmatchlen (bytes_of "h[a-c]*l?\*"%string) (bytes_of "hbXXllo*"%string) false = Some true /\
  matches false (bytes_of "h[a-c]*l?\*"%string) (bytes_of "hbXXllo*"%string) = true /\
  stringmatchlen (bytes_of "h[^a-c]llo"%string) (bytes_of "hbllo"%string) false = Some false.
Proof. vm_compute. auto. Qed.

(** On the empty string the matcher compares the class with the
    terminator and lets the remaining length go negative: a pattern that needs
    at least one character accepts the empty string. *)
Theorem class_matches_empty :
  stringmatchlen (bytes_of "[^a]*"%string) [] false = Some true /\
  matches false (bytes_of "[^a]*"%string) [] = false.
Proof. vm_compute. auto. Qed.

(** ** Correctness *)

(** [r] is what is left of the buffer [l] from index [i] on. *)
Definition sfx (l : list Z) (i : Z) (r : list Z) : Prop := exists pp, l = pp ++ r /\ i = zlen pp.

Lemma sfx_head l i x r : sfx l i (x :: r) -> mget l i = Some x /\ sfx l (i + 1) r.
Proof.
  intros (pp & -> & ->). split; [by apply mget_split|].
  exists (pp ++ [x]). rewrite <- app_assoc. split; [done|zlia].
Qed.

Lemma sfx_start l r : sfx (l ++ r) 0 (l ++ r).
Proof. exists []. done. Qed.

Lemma sfx_len l i r : sfx l i r -> (length r <= length l)%nat.
Proof. intros (pp & -> & _). rewrite length_app. lia. Qed.

(** What is left of a string [p] with its terminator. *)
Lemma sfx_0 l i p : sfx l i (p ++ [0]) ->
  match p with
  | [] => mget l i = Some 0
  | x :: p' => mget l i = Some x /\ sfx l (i + 1) (p' ++ [0])
  end.
Proof. destruct p; intros H; apply sfx_head in H as [H1 H2]; auto. Qed.

Fixpoint strip_stars (p : list Z) : list Z :=
  match p with
  | a :: p' => if a =? 42 then strip_stars p' else p
  | [] => []
  end.

Lemma strip_stars_len p : (length (strip_stars p) <= length p)%nat.
Proof. induction p as [|a p IH]; cbn; [done|]. case_match; cbn; lia. Qed.

Lemma collapse_stars_spec pat (fuel : nat) pi p :
  (length p < fuel)%nat -> sfx pat (pi + 1) (p ++ [0]) ->
  exists pi', collapse_stars pat fuel pi (1 + zlen p) = Some (pi', 1 + zlen (strip_stars p)) /\
    sfx pat (pi' + 1) (strip_stars p ++ [0]).
Proof.
  revert fuel pi. induction p as [|a p IH]; intros fuel pi Hf Hs; destruct fuel as [|fuel];
    cbn [length] in Hf; try lia; apply sfx_0 in Hs as Hh; cbn [collapse_stars].
  - rewrite Hh. cbn. eauto.
  - destruct Hh as [-> Hs']. cbn [mbind option_bind strip_stars]. destruct (a =? 42); [|eauto].
    autorewrite with zlen. replace (1 + (1 + zlen p) - 1) with (1 + zlen p) by lia.
    apply IH; [lia|done].
Qed.

Lemma skip_stars_spec pat (fuel : nat) pi p :
  (length p < fuel)%nat -> sfx pat pi (p ++ [0]) ->
  exists pi', skip_stars pat fuel pi (zlen p) = Some (pi', zlen (strip_stars p)).
Proof.
  revert fuel pi. induction p as [|a p IH]; intros fuel pi Hf Hs; destruct fuel as [|fuel];
    cbn [length] in Hf; try lia; apply sfx_0 in Hs as Hh; cbn [skip_stars].
  - rewrite Hh. cbn. eauto.
  - destruct Hh as [-> Hs']. cbn [mbind option_bind strip_stars]. destruct (a =? 42); [|eauto].
    autorewrite with zlen. replace (1 + zlen p - 1) with (zlen p) by lia.
    apply IH; [lia|done].
Qed.

Lemma in_range_has nocase a b c : in_range nocase a b c = range_has nocase a b c.
Proof.
  unfold in_range, range_has, case_of. destruct (i8 a >? i8 b) eqn:E.
  - rewrite Z.min_r, Z.max_l by lia. case_bool_decide; destruct nocase; lia.
  - rewrite Z.min_l, Z.max_r by lia. case_bool_decide; destruct nocase; lia.
Qed.

Lemma items_eta (x : list item * list Z) it :
  (let '(is_, r) := x in (it :: is_, r)) = (it :: fst x, snd x).
Proof. by destruct x. Qed.

(** The members of a class, one at a time: the ways [parse_items] can step. *)
Lemma parse_items_cases (P : list Z -> list item * list Z -> Prop) :
  P [] ([], []) ->
  (forall p, P (93 :: p) ([], p)) ->
  (forall b p, P p (parse_items p) ->
     P (92 :: b :: p) (Esc b :: fst (parse_items p), snd (parse_items p))) ->
  (forall a c p, a <> 93 -> a <> 92 -> P p (parse_items p) ->
     P (a :: 45 :: c :: p) (Range a c :: fst (parse_items p), snd (parse_items p))) ->
  (forall a p, a <> 93 -> (a <> 92 \/ p = []) ->
     (forall c p', p <> 45 :: c :: p') -> P p (parse_items p) ->
     P (a :: p) (Chr a :: fst (parse_items p), snd (parse_items p))) ->
  forall p, P p (parse_items p).
Proof.
  intros H0 H93 H92 Hr Hc p. remember (length p) as n eqn:Hn.
  assert (Hle : (length p <= n)%nat) by lia. clear Hn. revert p Hle.
  induction n as [|n IH]; intros p Hle; (destruct p as [|a p]; [exact H0|cbn [length] in Hle]); [lia|].
  cbn [parse_items]. destruct (a =? 93) eqn:E93.
  { assert (a = 93) as -> by lia. apply H93. }
  destruct p as [|b p]; [apply (Hc a []); [lia|by right|done|exact H0]|]. cbn [length] in Hle.
  destruct (a =? 92) eqn:E92.
  { assert (a = 92) as -> by lia. rewrite items_eta. apply H92, IH. lia. }
  destruct p as [|c p].
  { rewrite items_eta. apply Hc; [lia|left; lia|done|]. apply IH. cbn in *. lia. }
  destruct (b =? 45) eqn:E45; rewrite items_eta.
  - assert (b = 45) as -> by lia. apply Hr; [lia|lia|]. apply IH. cbn [length] in *. lia.
  - apply Hc; [lia|left; lia| |].
    + intros c' p' [= -> _ _]. lia.
    + apply IH. cbn [length] in *. lia.
Qed.

Lemma parse_items_len p : (length (snd (parse_items p)) <= length p)%nat.
Proof.
  apply (parse_items_cases (fun p r => (length (snd r) <= length p)%nat)); intros; cbn in *; lia.
Qed.

(** The class loop reads exactly the members [parse_items] lists. *)
Lemma class_loop_spec pat str nocase si c p :
  mget str si = Some c ->
  forall (fuel : nat) pi m, (length p < fuel)%nat -> sfx pat pi (p ++ [0]) ->
  exists pi' pl',
    class_loop pat str nocase fuel pi (zlen p) si m =
      Some (pi', pl', m || existsb (item_match nocase c) (fst (parse_items p))) /\
    sfx pat (pi' + 1) (snd (parse_items p) ++ [0]) /\ pl' - 1 = zlen (snd (parse_items p)).
Proof.
  intros Hc. apply (parse_items_cases (fun p r => forall (fuel : nat) pi m,
    (length p < fuel)%nat -> sfx pat pi (p ++ [0]) ->
    exists pi' pl', class_loop pat str nocase fuel pi (zlen p) si m =
      Some (pi', pl', m || existsb (item_match nocase c) (fst r)) /\
    sfx pat (pi' + 1) (snd r ++ [0]) /\ pl' - 1 = zlen (snd r))); clear p.
  - intros fuel pi m Hf Hs. destruct fuel; [cbn in Hf; lia|]. cbn [class_loop].
    rewrite (sfx_0 _ _ [] Hs). cbn. exists (pi - 1), 1. rewrite orb_false_r.
    split; [done|]. split; [by replace (pi - 1 + 1) with pi by lia|done].
  - intros p fuel pi m Hf Hs. destruct fuel; [cbn in Hf; lia|]. cbn [class_loop].
    destruct (sfx_0 _ _ (_ :: _) Hs) as [-> Hs1]. cbn [mbind option_bind Z.eqb Pos.eqb andb].
    exists pi, (zlen (93 :: p)). rewrite orb_false_r. cbn [fst snd]. split; [done|].
    split; [done|zlia].
  - intros b p IH fuel pi m Hf Hs. destruct fuel; [cbn in Hf; lia|]. cbn [class_loop].
    destruct (sfx_0 _ _ (_ :: _) Hs) as [-> Hs1]. destruct (sfx_0 _ _ (_ :: _) Hs1) as [-> Hs2].
    cbn [mbind option_bind]. rewrite Hc. cbn [mbind option_bind]. autorewrite with zlen. pose_zlen. zbool.
    edestruct (IH fuel (pi + 2)) as (pi' & pl' & Hrun & ? & ?);
      [cbn in Hf; lia|by replace (pi + 2) with (pi + 1 + 1) by lia|].
    replace (1 + (1 + zlen p) - 2) with (zlen p) by lia. rewrite Hrun. exists pi', pl'.
    split; [|done]. cbn. destruct (b =? c), m; done.
  - intros a e p Ha Ha' IH fuel pi m Hf Hs. destruct fuel; [cbn in Hf; lia|]. cbn [class_loop].
    destruct (sfx_0 _ _ (_ :: _) Hs) as [-> Hs1]. destruct (sfx_0 _ _ (_ :: _) Hs1) as [-> Hs2].
    destruct (sfx_0 _ _ (_ :: _) Hs2) as [H2 Hs3].
    cbn [mbind option_bind]. autorewrite with zlen. pose_zlen. zbool.
    replace (pi + 2) with (pi + 1 + 1) by lia. rewrite H2. cbn [mbind option_bind]. rewrite Hc.
    cbn [mbind option_bind].
    edestruct (IH fuel (pi + 3)) as (pi' & pl' & Hrun & ? & ?);
      [cbn in Hf; lia|by replace (pi + 3) with (pi + 1 + 1 + 1) by lia|].
    replace (1 + (1 + (1 + zlen p)) - 3) with (zlen p) by lia. rewrite Hrun. exists pi', pl'.
    split; [|done]. cbn. rewrite in_range_has. destruct (range_has nocase a e c), m; done.
  - intros a p Ha Ha' Hp IH fuel pi m Hf Hs. destruct fuel; [cbn in Hf; lia|]. cbn [class_loop].
    destruct (sfx_0 _ _ (_ :: _) Hs) as [-> Hs1]. cbn [mbind option_bind].
    assert (Hnb : (a =? 92) && (zlen (a :: p) >=? 2) = false).
    { destruct Ha' as [?| ->]; [by zbool|]. cbn. by rewrite andb_false_r. }
    assert (Hz : (zlen (a :: p) =? 0) = false) by (apply Z.eqb_neq; zlia).
    rewrite Hnb, (proj2 (Z.eqb_neq a 93)), Hz by lia.
    assert (H1 : exists x, mget pat (pi + 1) = Some x /\ (x =? 45) && (zlen (a :: p) >=? 3) = false).
    { apply sfx_0 in Hs1. destruct p as [|x [|y p]].
      - exists 0. done.
      - exists x. destruct Hs1 as [-> _]. split; [done|]. cbn. by rewrite andb_false_r.
      - exists x. destruct Hs1 as [-> _]. split; [done|]. destruct (x =? 45) eqn:E; [|done].
        exfalso. apply (Hp y p). f_equal. lia. }
    destruct H1 as (x & -> & Hx). cbn [mbind option_bind]. rewrite Hx, Hc. cbn [mbind option_bind].
    edestruct (IH fuel (pi + 1)) as (pi' & pl' & Hrun & ? & ?); [cbn in Hf; lia|done|].
    replace (zlen (a :: p) - 1) with (zlen p) by zlia. rewrite Hrun. exists pi', pl'.
    split; [|done]. cbn. destruct (same_char nocase a c), m; done.
Qed.

(** ** Patterns as token lists *)

Definition parse (p : list Z) : list token := parse_glob (length p) p.

Lemma parse_glob_fuel (fuel : nat) p : (length p <= fuel)%nat -> parse_glob fuel p = parse p.
Proof.
  unfold parse. revert fuel. remember (length p) as n eqn:Hn.
  assert (Hle : (length p <= n)%nat) by lia. clear Hn. revert p Hle.
  induction n as [|n IH]; intros p Hle fuel Hf.
  { destruct p; [|cbn in Hle; lia]. by destruct fuel. }
  destruct fuel as [|fuel]; [lia|]. destruct p as [|a p]; [done|]. cbn [parse_glob length] in *.
  destruct (a =? 42); [f_equal; apply IH; lia|]. destruct (a =? 63); [f_equal; apply IH; lia|].
  destruct (a =? 91).
  - destruct p as [|b p].
    { cbn. by destruct n, fuel. }
    pose proof (parse_items_len p). pose proof (parse_items_len (b :: p)). cbn [length] in *.
    destruct (b =? 94); [destruct (parse_items p) eqn:E|destruct (parse_items (b :: p)) eqn:E];
      f_equal; apply IH; cbn in *; lia.
  - destruct (a =? 92); [|f_equal; apply IH; lia].
    destruct p as [|b p]; [done|]. cbn [length] in *. f_equal. apply IH; lia.
Qed.

Lemma parse_star p : parse (42 :: p) = TStar :: parse p.
Proof. done. Qed.
Lemma parse_any p : parse (63 :: p) = TAny :: parse p.
Proof. done. Qed.
Lemma parse_escape b p : parse (92 :: b :: p) = TLit b :: parse p.
Proof.
  change (parse (92 :: b :: p)) with (TLit b :: parse_glob (S (length p)) p).
  rewrite parse_glob_fuel; [done|lia].
Qed.
Lemma parse_lit a p : a <> 42 -> a <> 63 -> a <> 91 -> a <> 92 -> parse (a :: p) = TLit a :: parse p.
Proof. intros. unfold parse at 1. cbn [length parse_glob]. by zbool. Qed.

(** A class: the optional caret, then the members. *)
Definition class_body (p : list Z) : bool * list Z :=
  match p with
  | b :: p2 => if b =? 94 then (true, p2) else (false, p)
  | [] => (false, [])
  end.

Lemma class_body_len p : (length (snd (class_body p)) <= length p)%nat.
Proof. destruct p as [|b p]; cbn; [done|]. case_match; cbn; lia. Qed.

Lemma parse_class p :
  let its := parse_items (snd (class_body p)) in
  parse (91 :: p) = TSet (fst (class_body p)) (fst its) :: parse (snd its).
Proof.
  cbn zeta. unfold parse at 1. cbn [length parse_glob Z.eqb Pos.eqb].
  change (match p with b :: p2 => if b =? 94 then (true, p2) else (false, p) | [] => (false, []) end)
    with (class_body p).
  pose proof (class_body_len p). destruct (class_body p) as [neg q] eqn:E. cbn [fst snd] in *.
  pose proof (parse_items_len q). destruct (parse_items q) eqn:E2. cbn [fst snd] in *.
  f_equal. apply parse_glob_fuel. lia.
Qed.

Section GlobSpec.
Variable nocase : bool.
Implicit Types (ts : list token) (s : list Z).

Lemma glob_star ts s :
  glob_match nocase (TStar :: ts) s = true <-> exists s1 s2, s = s1 ++ s2 /\ glob_match nocase ts s2 = true.
Proof.
  cbn. induction s as [|c s IH].
  - rewrite orb_false_r. split; [by exists [], []|]. intros (s1 & s2 & E & ?).
    by destruct s1, s2.
  - rewrite orb_true_iff, IH. split.
    + intros [?|(s1 & s2 & -> & ?)]; [by exists [], (c :: s)|]. by exists (c :: s1), s2.
    + intros (s1 & s2 & E & Hm). destruct s1 as [|d s1]; [left; cbn in E; by subst|].
      right. injection E as -> ->. eauto.
Qed.

Lemma glob_star_cons ts c s :
  glob_match nocase (TStar :: ts) (c :: s) =
    glob_match nocase ts (c :: s) || glob_match nocase (TStar :: ts) s.
Proof. done. Qed.

Lemma glob_star_star ts s :
  glob_match nocase (TStar :: TStar :: ts) s = glob_match nocase (TStar :: ts) s.
Proof.
  apply eq_true_iff_eq. rewrite glob_star. split.
  - intros (s1 & s2 & -> & (s3 & s4 & -> & ?)%glob_star). apply glob_star.
    exists (s1 ++ s3), s4. by rewrite app_assoc.
  - intros H. by exists [], s.
Qed.

Lemma glob_strip p s :
  glob_match nocase (TStar :: parse p) s = glob_match nocase (TStar :: parse (strip_stars p)) s.
Proof.
  induction p as [|a p IH]; [done|]. cbn [strip_stars]. destruct (a =? 42) eqn:E; [|done].
  assert (a = 42) as -> by lia. by rewrite parse_star, glob_star_star.
Qed.

(** Only stars match the empty string. *)
Lemma glob_empty p :
  glob_match nocase (parse p) [] = (zlen (strip_stars p) =? 0).
Proof.
  induction p as [|a p IH]; [done|]. cbn [strip_stars]. destruct (a =? 42) eqn:E.
  - assert (a = 42) as -> by lia. rewrite parse_star. cbn. by rewrite IH, orb_false_r.
  - assert ((zlen (a :: p) =? 0) = false) as -> by (apply Z.eqb_neq; zlia).
    unfold parse. cbn [length parse_glob]. rewrite E.
    repeat case_match; done.
Qed.

Lemma strip_stars_head p : match strip_stars p with a :: _ => a <> 42 | [] => True end.
Proof. induction p as [|a p IH]; cbn; [done|]. destruct (a =? 42) eqn:E; [done|lia]. Qed.
End GlobSpec.

(** One step of the main loop, given that the rest of the run is right: [rest]
    is the unread pattern and [s] the unread string after it. *)
Section Step.
Variables (pat str : list Z) (nocase : bool).

Definition good (pi si : Z) (p s : list Z) : Prop :=
  sfx pat pi (p ++ [0]) /\ sfx str si (s ++ [0]).

Definition loop_ok (fuel : nat) : Prop :=
  forall pi si p s, (length p <= fuel)%nat -> s <> [] -> good pi si p s ->
    match_loop pat str nocase fuel pi (zlen p) si (zlen s) = Some (glob_match nocase (parse p) s).

(** The code after the [switch]. *)
Lemma after_switch (fuel : nat) pi pl si sl p s :
  loop_ok fuel -> (length p <= fuel)%nat -> good (pi + 1) si p s -> pl - 1 = zlen p -> sl = zlen s ->
  (if sl =? 0 then
     q ← skip_stars pat (S (length pat)) (pi + 1) (pl - 1);
     let '(pi, pl) := q in Some ((pl =? 0) && (sl =? 0))
   else match_loop pat str nocase fuel (pi + 1) (pl - 1) si sl)
  = Some (glob_match nocase (parse p) s).
Proof.
  intros Hok Hf [Hp Hs] -> ->. destruct s as [|c s].
  - rewrite zlen_nil. cbn [Z.eqb]. pose proof (sfx_len _ _ _ Hp) as Hl. rewrite length_app in Hl.
    destruct (skip_stars_spec pat (S (length pat)) (pi + 1) p) as [pi' ->]; [lia|done|].
    cbn. by rewrite andb_true_r, glob_empty.
  - rewrite (proj2 (Z.eqb_neq (zlen (c :: s)) 0)) by zlia. by apply Hok.
Qed.

(** The inner loop of the '*' case tries every non-empty suffix. *)
Lemma star_loop (fuel : nat) pi p :
  loop_ok fuel -> (length p <= fuel)%nat -> sfx pat (pi + 1) (p ++ [0]) ->
  glob_match nocase (parse p) [] = false ->
  forall s si (n : nat), (length s <= n)%nat -> sfx str si (s ++ [0]) ->
  (fix star (n : nat) (si sl : Z) : option ctl :=
     if sl =? 0 then Some (Ret false)
     else match n with
     | O => None
     | S n' =>
         b ← match_loop pat str nocase fuel (pi + 1) (zlen p) si sl;
         if (b : bool) then Some (Ret true) else star n' (si + 1) (sl - 1)
     end) n si (zlen s) = Some (Ret (glob_match nocase (TStar :: parse p) s)).
Proof.
  intros Hok Hf Hp Hne s. induction s as [|c s IH]; intros si n Hn Hs.
  - replace (glob_match nocase (TStar :: parse p) []) with false by (cbn; by rewrite Hne).
    by destruct n.
  - destruct n as [|n]; cbn [length] in Hn; [lia|].
    rewrite (proj2 (Z.eqb_neq (zlen (c :: s)) 0)) by zlia.
    rewrite Hok by (done || split; done). cbn [mbind option_bind].
    rewrite glob_star_cons. destruct (glob_match nocase (parse p) (c :: s)); [done|].
    replace (zlen (c :: s) - 1) with (zlen s) by zlia. cbn [orb]. apply IH; [lia|].
    by apply sfx_head in Hs as [_ Hs].
Qed.

Lemma class_case (fuel : nat) pi si p c s :
  good pi si (91 :: p) (c :: s) -> (length pat <= fuel)%nat ->
  let its := parse_items (snd (class_body p)) in
  exists pi' pl',
    match_class pat str nocase fuel pi (zlen (91 :: p)) si (zlen (c :: s)) =
      (if token_match nocase c (TSet (fst (class_body p)) (fst its))
       then Some (Go pi' pl' (si + 1) (zlen s)) else Some (Ret false)) /\
    good (pi' + 1) (si + 1) (snd its) s /\ pl' - 1 = zlen (snd its).
Proof.
  intros [Hp Hs] Hf its. destruct (sfx_0 _ _ (_ :: _) Hs) as [Hc Hs'].
  destruct (sfx_0 _ _ (_ :: _) Hp) as [_ Hp1]. unfold match_class.
  pose proof (sfx_len _ _ _ Hp) as Hlen. rewrite length_app in Hlen. cbn [length] in Hlen.
  assert (Hb : exists p0 pi1, mget pat (pi + 1) = Some p0 /\
    (if p0 =? 94 then (pi + 1 + 1, zlen (91 :: p) - 1 - 1) else (pi + 1, zlen (91 :: p) - 1))
      = (pi1, zlen (snd (class_body p))) /\
    (p0 =? 94) = fst (class_body p) /\ sfx pat pi1 (snd (class_body p) ++ [0])).
  { destruct p as [|b p2].
    - exists 0, (pi + 1). split; [apply (sfx_0 _ _ [] Hp1)|]. done.
    - destruct (sfx_0 _ _ (_ :: _) Hp1) as [Hb Hp2]. exists b. cbn [class_body].
      destruct (b =? 94); [exists (pi + 1 + 1)|exists (pi + 1)];
        (split; [done|]); (split; [f_equal; cbn [snd]; zlia|]); done. }
  destruct Hb as (p0 & pi1 & -> & Hpl & Hneg & Hp2). cbn [mbind option_bind].
  rewrite Hpl, Hneg. pose proof (class_body_len p).
  destruct (class_loop_spec pat str nocase si c (snd (class_body p)) Hc fuel pi1 false) as
    (pi' & pl' & -> & Hsfx & Hl); [lia|done|]. cbn [mbind option_bind orb].
  exists pi', pl'. split; [|split; [split; done|done]]. unfold token_match. fold its.
  destruct (fst (class_body p)), (existsb _ _); cbn; try done;
    do 2 f_equal; zlia.
Qed.

Lemma literal_case pi pl si a c s :
  mget pat pi = Some a -> sfx str si (c :: s ++ [0]) ->
  match_literal pat str nocase pi pl si (zlen (c :: s)) =
    if same_char nocase a c then Some (Go pi pl (si + 1) (zlen s)) else Some (Ret false).
Proof.
  intros Ha [Hc _]%sfx_head. unfold match_literal. rewrite Ha. cbn. rewrite Hc. cbn.
  destruct (same_char _ _ _); cbn; [|done]. do 2 f_equal. zlia.
Qed.
End Step.

Lemma glob_match_cons nocase t ts c s :
  t <> TStar ->
  glob_match nocase (t :: ts) (c :: s) = token_match nocase c t && glob_match nocase ts s.
Proof. by destruct t. Qed.

(** The '*' case of the [switch] decides the rest of the match. *)
Lemma star_case pat str nocase (fuel : nat) pi si p s :
  loop_ok pat str nocase fuel -> (length p <= fuel)%nat -> good pat str pi si (42 :: p) s ->
  (q ← collapse_stars pat (S (length pat)) pi (zlen (42 :: p));
   let '(pi, pl) := q in
   if pl =? 1 then Some (Ret true)
   else
     (fix star (n : nat) (si sl : Z) : option ctl :=
        if sl =? 0 then Some (Ret false)
        else match n with
        | O => None
        | S n' =>
            b ← match_loop pat str nocase fuel (pi + 1) (pl - 1) si sl;
            if (b : bool) then Some (Ret true) else star n' (si + 1) (sl - 1)
        end) (Z.to_nat (zlen s)) si (zlen s))
  = Some (Ret (glob_match nocase (parse (42 :: p)) s)).
Proof.
  intros Hok Hf [Hp Hs]. pose proof (sfx_len _ _ _ Hp) as Hl. rewrite length_app in Hl. cbn [length] in Hl.
  destruct (sfx_0 _ _ (_ :: _) Hp) as [_ Hp1]. rewrite zlen_cons, parse_star, glob_strip.
  destruct (collapse_stars_spec pat (S (length pat)) pi p) as (pi' & -> & Hp2); [lia|done|].
  cbn [mbind option_bind]. pose proof (strip_stars_len p). pose proof (strip_stars_head p) as Hh.
  set (q := strip_stars p) in *. destruct (1 + zlen q =? 1) eqn:E.
  - assert (q = []) as -> by (destruct q; [done|zlia]). cbn.
    do 2 f_equal. symmetry. clear. induction s; cbn; [done|]. apply IHs.
  - replace (1 + zlen q - 1) with (zlen q) by lia. apply star_loop; auto; [lia| |unfold zlen; lia].
    rewrite glob_empty. destruct q as [|a q]; [zlia|].
    cbn [strip_stars]. rewrite (proj2 (Z.eqb_neq a 42)) by done. apply Z.eqb_neq. zlia.
Qed.

(** The literal cases: an escaped character, or any other one. *)
Lemma escape_case pat str nocase pi si a p c s :
  good pat str pi si (a :: p) (c :: s) -> a <> 42 -> a <> 63 -> a <> 91 ->
  exists x q pi' pl',
    (if a =? 92 then
       if zlen (a :: p) >=? 2 then match_literal pat str nocase (pi + 1) (zlen (a :: p) - 1) si (zlen (c :: s))
       else match_literal pat str nocase pi (zlen (a :: p)) si (zlen (c :: s))
     else match_literal pat str nocase pi (zlen (a :: p)) si (zlen (c :: s))) =
    (if same_char nocase x c then Some (Go pi' pl' (si + 1) (zlen s)) else Some (Ret false)) /\
    parse (a :: p) = TLit x :: parse q /\ good pat str (pi' + 1) (si + 1) q s /\
    pl' - 1 = zlen q /\ (length q <= length p)%nat.
Proof.
  intros [Hp Hs] H42 H63 H91. destruct (sfx_0 _ _ (_ :: _) Hp) as [Ha Hp1].
  destruct (sfx_0 _ _ (_ :: _) Hs) as [_ Hs1].
  assert (Hplain : parse (a :: p) = TLit a :: parse p ->
    exists x q pi' pl', match_literal pat str nocase pi (zlen (a :: p)) si (zlen (c :: s)) =
      (if same_char nocase x c then Some (Go pi' pl' (si + 1) (zlen s)) else Some (Ret false)) /\
      parse (a :: p) = TLit x :: parse q /\ good pat str (pi' + 1) (si + 1) q s /\
      pl' - 1 = zlen q /\ (length q <= length p)%nat).
  { intros Hparse. exists a, p, pi, (zlen (a :: p)).
    rewrite (literal_case pat str nocase pi (zlen (a :: p)) si a c s Ha Hs).
    repeat split; auto. zlia. }
  destruct (a =? 92) eqn:E92; [|apply Hplain; apply parse_lit; lia].
  assert (a = 92) as -> by lia. destruct p as [|b p]; [by apply Hplain|].
  rewrite (geb_true (zlen (92 :: b :: p)) 2) by zlia.
  destruct (sfx_0 _ _ (_ :: _) Hp1) as [Hb Hp2].
  exists b, p, (pi + 1), (zlen (92 :: b :: p) - 1).
  rewrite (literal_case pat str nocase (pi + 1) (zlen (92 :: b :: p) - 1) si b c s Hb Hs).
  rewrite parse_escape. repeat split; auto; [zlia|cbn; lia].
Qed.

Lemma loop_correct pat str nocase (fuel : nat) : loop_ok pat str nocase fuel.
Proof.
  induction fuel as [|fuel IH]; intros pi si p s Hf Hne [Hp Hs].
  { destruct p; [|cbn in Hf; lia]. destruct s; [done|]. cbn. do 2 f_equal. }
  cbn [match_loop]. destruct p as [|a p].
  { rewrite zlen_nil. destruct s; [done|]. cbn [Z.eqb andb].
    rewrite (proj2 (Z.eqb_neq (zlen _) 0)) by zlia. done. }
  destruct s as [|c s]; [done|]. cbn [length] in Hf.
  rewrite (proj2 (Z.eqb_neq (zlen (a :: p)) 0)) by zlia.
  destruct (sfx_0 _ _ (_ :: _) Hp) as [Ha Hp1]. destruct (sfx_0 _ _ (_ :: _) Hs) as [Hc Hs1].
  rewrite Ha. cbn [mbind option_bind].
  destruct (a =? 42) eqn:E42; [|destruct (a =? 63) eqn:E63; [|destruct (a =? 91) eqn:E91]].
  - assert (a = 42) as -> by lia.
    pose proof (star_case pat str nocase fuel pi si p (c :: s) IH ltac:(lia) (conj Hp Hs)) as Hst.
    cbn zeta in Hst |- *. rewrite Hst. done.
  - assert (a = 63) as -> by lia. rewrite (proj2 (Z.eqb_neq (zlen (c :: s)) 0)) by zlia.
    cbn [mbind option_bind]. rewrite parse_any, glob_match_cons by done. cbn [token_match andb].
    apply after_switch; auto; [lia|split; done|zlia|zlia].
  - assert (a = 91) as -> by lia.
    destruct (class_case pat str nocase (S (length pat)) pi si p c s (conj Hp Hs) ltac:(lia))
      as (pi' & pl' & -> & Hgood & Hl).
    rewrite parse_class, glob_match_cons by done.
    destruct (token_match _ _ _); [|done]. cbn [mbind option_bind andb].
    pose proof (class_body_len p). pose proof (parse_items_len (snd (class_body p))).
    apply after_switch; auto. lia.
  - destruct (escape_case pat str nocase pi si a p c s (conj Hp Hs)) as (x & q & pi' & pl' & -> & Hx & Hg & Hl & ?);
      [lia|lia|lia|].
    rewrite Hx, glob_match_cons by done. cbn [token_match].
    destruct (same_char _ _ _); [|done]. cbn [mbind option_bind andb].
    apply after_switch; auto. lia.
Qed.

(** [C36] On a non-empty string [stringmatchlen] always returns, never reads
    outside the two buffers, and its answer is the declarative meaning of the
    glob pattern: stars, question marks, classes with ranges, negation and
    escapes, unterminated classes included. *)
Theorem stringmatchlen_correct (nocase : bool) (pattern string : list Z) (Hs : string <> []) :
  stringmatchlen pattern string nocase = Some (matches nocase pattern string).
Proof.
  unfold stringmatchlen, matches. apply loop_correct; [lia|done|].
  split; apply sfx_start.
Qed.

Lemma stringmatchlen_correct_witness :
  [104; 105] <> [] /\
  stringmatchlen (bytes_of "h*"%string) [104; 105] true = Some (matches true (bytes_of "h*"%string) [104; 105]).
Proof. split; [discriminate|]. apply (stringmatchlen_correct true (bytes_of "h*"%string) [104; 105]). discriminate. Defined.
