(* ===== verification/Listpack.v ===== *)
(** * Listpack: a list of strings in one allocation (listpack.c)

    A listpack is its byte buffer; element pointers are offsets into it.  The
    elements are the byte strings given to [lpInsert]; those that are canonical
    64-bit integers are stored as integers.  Every byte access is checked, so a
    [Some] result is also memory safety.  [size_t] and [uint64_t] values of valid
    listpacks stay far below [2^64]; the [uint32_t] conversions are written out. *)
From Stdlib Require Import ZArith Lia String.
From stdpp Require Import base numbers list option.
From S2P Require Import Prelude UtilNum.

(** ** Constants and header macros *)

Definition LP_HDR_SIZE : Z := 6.
Definition LP_HDR_NUMELE_UNKNOWN : Z := 65535.
Definition LP_EOF : Z := 255.
Definition UINT32_MAX : Z := 2 ^ 32 - 1.
Definition UINT64_MAX : Z := 2 ^ 64 - 1.

Definition LP_ENCODING_IS_7BIT_UINT (b : Z) : bool := Z.land b 128 =? 0.
Definition LP_ENCODING_IS_6BIT_STR (b : Z) : bool := Z.land b 192 =? 128.
Definition LP_ENCODING_IS_13BIT_INT (b : Z) : bool := Z.land b 224 =? 192.
Definition LP_ENCODING_IS_12BIT_STR (b : Z) : bool := Z.land b 240 =? 224.
Definition LP_ENCODING_IS_16BIT_INT (b : Z) : bool := Z.land b 255 =? 241.
Definition LP_ENCODING_IS_24BIT_INT (b : Z) : bool := Z.land b 255 =? 242.
Definition LP_ENCODING_IS_32BIT_INT (b : Z) : bool := Z.land b 255 =? 243.
Definition LP_ENCODING_IS_64BIT_INT (b : Z) : bool := Z.land b 255 =? 244.
Definition LP_ENCODING_IS_32BIT_STR (b : Z) : bool := Z.land b 255 =? 240.

Definition LP_ENCODING_6BIT_STR_LEN (lp : list Z) (p : Z) : option Z :=
  b0 ← mget lp p; Some (Z.land b0 63).
Definition LP_ENCODING_12BIT_STR_LEN (lp : list Z) (p : Z) : option Z :=
  b0 ← mget lp p; b1 ← mget lp (p + 1); Some (Z.lor (Z.shiftl (Z.land b0 15) 8) b1).
Definition LP_ENCODING_32BIT_STR_LEN (lp : list Z) (p : Z) : option Z :=
  b1 ← mget lp (p + 1); b2 ← mget lp (p + 2); b3 ← mget lp (p + 3); b4 ← mget lp (p + 4);
  Some (Z.lor (Z.lor (Z.lor (Z.shiftl b1 0) (Z.shiftl b2 8)) (Z.shiftl b3 16)) (Z.shiftl b4 24)).

Definition lpGetTotalBytes (lp : list Z) : option Z :=
  b0 ← mget lp 0; b1 ← mget lp 1; b2 ← mget lp 2; b3 ← mget lp 3;
  Some (Z.lor (Z.lor (Z.lor (Z.shiftl b0 0) (Z.shiftl b1 8)) (Z.shiftl b2 16)) (Z.shiftl b3 24)).
Definition lpGetNumElements (lp : list Z) : option Z :=
  b4 ← mget lp 4; b5 ← mget lp 5; Some (Z.lor (Z.shiftl b4 0) (Z.shiftl b5 8)).
Definition lpSetTotalBytes (lp : list Z) (v : Z) : option (list Z) :=
  lp ← mset lp 0 (Z.land v 255); lp ← mset lp 1 (Z.land (Z.shiftr v 8) 255);
  lp ← mset lp 2 (Z.land (Z.shiftr v 16) 255); mset lp 3 (Z.land (Z.shiftr v 24) 255).
Definition lpSetNumElements (lp : list Z) (v : Z) : option (list Z) :=
  lp ← mset lp 4 (Z.land v 255); mset lp 5 (Z.land (Z.shiftr v 8) 255).

(** ** Encoding one element *)

(** The same strict parser as [string2ll], with one more (unreachable) test for
    the lone zero. *)
Definition lpStringToInt64 (s : list Z) (slen : Z) : option (option Z) :=
  if 0 =? slen then Some None
  else
    c0 ← mget s 0;
    if (slen =? 1) && (c0 =? 48) then Some (Some 0)
    else
      let '(negative, plen) := if c0 =? 45 then (true, 1) else (false, 0) in
      if (negative : bool) && (plen =? slen) then Some None
      else
        c ← mget s plen;
        if (49 <=? c) && (c <=? 57) then
          r ← string2ll_loop (Z.to_nat slen) s slen (plen + 1) (u64 (c - 48));
          match r with
          | None => Some None
          | Some (v, plen) =>
              if plen <? slen then Some None
              else if negative then
                if v >? u64 (- (LLONG_MIN + 1) + 1) then Some None
                else Some (Some (i64 (u64 (- v))))
              else if v >? LLONG_MAX then Some None
              else Some (Some (i64 v))
          end
        else if (c =? 48) && (slen =? 1) then Some (Some 0)
        else Some None.

Inductive enctype := LP_ENCODING_INT | LP_ENCODING_STRING.

(** The bytes stored into [intenc] for the integer [v]; [*enclen] is their
    number. *)
Definition lpEncodeInteger (v : Z) : list Z :=
  if (v >=? 0) && (v <=? 127) then [u8 v]
  else if (v >=? -4096) && (v <=? 4095) then
    let v := if v <? 0 then Z.shiftl 1 13 + v else v in
    [u8 (Z.lor (Z.shiftr v 8) 192); Z.land v 255]
  else if (v >=? -32768) && (v <=? 32767) then
    let v := if v <? 0 then Z.shiftl 1 16 + v else v in
    [241; Z.land v 255; u8 (Z.shiftr v 8)]
  else if (v >=? -8388608) && (v <=? 8388607) then
    let v := if v <? 0 then Z.shiftl 1 24 + v else v in
    [242; Z.land v 255; Z.land (Z.shiftr v 8) 255; u8 (Z.shiftr v 16)]
  else if (v >=? -2147483648) && (v <=? 2147483647) then
    let v := if v <? 0 then Z.shiftl 1 32 + v else v in
    [243; Z.land v 255; Z.land (Z.shiftr v 8) 255; Z.land (Z.shiftr v 16) 255; u8 (Z.shiftr v 24)]
  else
    let uv := u64 v in
    [244; Z.land uv 255; Z.land (Z.shiftr uv 8) 255; Z.land (Z.shiftr uv 16) 255;
     Z.land (Z.shiftr uv 24) 255; Z.land (Z.shiftr uv 32) 255; Z.land (Z.shiftr uv 40) 255;
     Z.land (Z.shiftr uv 48) 255; u8 (Z.shiftr uv 56)].

(** Result: (encoding, intenc, *enclen). *)
Definition lpEncodeGetType (ele : list Z) (size : Z) : option (enctype * list Z * Z) :=
  r ← lpStringToInt64 ele size;
  match r with
  | Some v => let intenc := lpEncodeInteger v in Some (LP_ENCODING_INT, intenc, zlen intenc)
  | None =>
      let enclen := if size <? 64 then 1 + size else if size <? 4096 then 2 + size else 5 + size in
      Some (LP_ENCODING_STRING, [], enclen)
  end.

(** The bytes [lpEncodeBacklen] stores; the value it returns is their number,
    with or without a buffer. *)
Definition lpEncodeBacklen (l : Z) : list Z :=
  if l <=? 127 then [u8 l]
  else if l <? 16383 then [u8 (Z.shiftr l 7); Z.lor (Z.land l 127) 128]
  else if l <? 2097151 then
    [u8 (Z.shiftr l 14); Z.lor (Z.land (Z.shiftr l 7) 127) 128; Z.lor (Z.land l 127) 128]
  else if l <? 268435455 then
    [u8 (Z.shiftr l 21); Z.lor (Z.land (Z.shiftr l 14) 127) 128;
     Z.lor (Z.land (Z.shiftr l 7) 127) 128; Z.lor (Z.land l 127) 128]
  else
    [u8 (Z.shiftr l 28); Z.lor (Z.land (Z.shiftr l 21) 127) 128;
     Z.lor (Z.land (Z.shiftr l 14) 127) 128; Z.lor (Z.land (Z.shiftr l 7) 127) 128;
     Z.lor (Z.land l 127) 128].

(** The bounded [do ... while(1)]: at most five bytes are read. *)
Fixpoint lpDecodeBacklen_loop (fuel : nat) (lp : list Z) (p val shift : Z) : option Z :=
  match fuel with
  | O => None
  | S fuel' =>
      b ← mget lp p;
      let val := Z.lor val (u64 (Z.shiftl (Z.land b 127) shift)) in
      if Z.land b 128 =? 0 then Some val
      else
        let shift := shift + 7 in
        let p := p - 1 in
        if shift >? 28 then Some UINT64_MAX else lpDecodeBacklen_loop fuel' lp p val shift
  end.

Definition lpDecodeBacklen (lp : list Z) (p : Z) : option Z := lpDecodeBacklen_loop 5 lp p 0 0.

(** The bytes [lpEncodeString] stores at its target. *)
Definition lpEncodeString (s : list Z) (len : Z) : list Z :=
  if len <? 64 then u8 (Z.lor len 128) :: s
  else if len <? 4096 then u8 (Z.lor (Z.shiftr len 8) 224) :: Z.land len 255 :: s
  else 240 :: Z.land len 255 :: Z.land (Z.shiftr len 8) 255 :: Z.land (Z.shiftr len 16) 255
       :: Z.land (Z.shiftr len 24) 255 :: s.

(** ** Walking *)

Definition lpCurrentEncodedSize (lp : list Z) (p : Z) : option Z :=
  b ← mget lp p;
  if LP_ENCODING_IS_7BIT_UINT b then Some 1
  else if LP_ENCODING_IS_6BIT_STR b then n ← LP_ENCODING_6BIT_STR_LEN lp p; Some (1 + n)
  else if LP_ENCODING_IS_13BIT_INT b then Some 2
  else if LP_ENCODING_IS_16BIT_INT b then Some 3
  else if LP_ENCODING_IS_24BIT_INT b then Some 4
  else if LP_ENCODING_IS_32BIT_INT b then Some 5
  else if LP_ENCODING_IS_64BIT_INT b then Some 9
  else if LP_ENCODING_IS_12BIT_STR b then n ← LP_ENCODING_12BIT_STR_LEN lp p; Some (2 + n)
  else if LP_ENCODING_IS_32BIT_STR b then n ← LP_ENCODING_32BIT_STR_LEN lp p; Some (u32 (5 + n))
  else if b =? LP_EOF then Some 1
  else Some 0.

Definition lpSkip (lp : list Z) (p : Z) : option Z :=
  entrylen ← lpCurrentEncodedSize lp p;
  let entrylen := entrylen + zlen (lpEncodeBacklen entrylen) in
  Some (p + entrylen).

(** Pointer results: [Some None] is the NULL pointer. *)
Definition lpNext (lp : list Z) (p : Z) : option (option Z) :=
  p ← lpSkip lp p; b ← mget lp p;
  if b =? LP_EOF then Some None else Some (Some p).

Definition lpPrev (lp : list Z) (p : Z) : option (option Z) :=
  if p - 0 =? LP_HDR_SIZE then Some None
  else
    let p := p - 1 in
    prevlen ← lpDecodeBacklen lp p;
    let prevlen := prevlen + zlen (lpEncodeBacklen prevlen) in
    Some (Some (p - prevlen + 1)).

Definition lpFirst (lp : list Z) : option (option Z) :=
  b ← mget lp LP_HDR_SIZE;
  if b =? LP_EOF then Some None else Some (Some LP_HDR_SIZE).

Definition lpLast (lp : list Z) : option (option Z) :=
  n ← lpGetTotalBytes lp; lpPrev lp (n - 1).

(** [while(p) { count++; p = lpNext(lp,p); }] *)
Fixpoint lpLength_loop (fuel : nat) (lp : list Z) (p : option Z) (count : Z) : option Z :=
  match p with
  | None => Some count
  | Some p =>
      match fuel with
      | O => None
      | S fuel' => p ← lpNext lp p; lpLength_loop fuel' lp p (u32 (count + 1))
      end
  end.

(** Result: (length, the listpack), whose header may be updated. *)
Definition lpLength (lp : list Z) : option (Z * list Z) :=
  numele ← lpGetNumElements lp;
  if negb (numele =? LP_HDR_NUMELE_UNKNOWN) then Some (numele, lp)
  else
    p ← lpFirst lp;
    count ← lpLength_loop (length lp) lp p 0;
    lp ← (if count <? LP_HDR_NUMELE_UNKNOWN then lpSetNumElements lp count else Some lp);
    Some (count, lp).

Fixpoint lpSeek_forward (fuel : nat) (lp : list Z) (ele : option Z) (index : Z) : option (option Z) :=
  match ele with
  | None => Some None
  | Some p =>
      if index >? 0 then
        match fuel with
        | O => None
        | S fuel' => e ← lpNext lp p; lpSeek_forward fuel' lp e (index - 1)
        end
      else Some ele
  end.

Fixpoint lpSeek_backward (fuel : nat) (lp : list Z) (ele : option Z) (index : Z) : option (option Z) :=
  match ele with
  | None => Some None
  | Some p =>
      if index <? -1 then
        match fuel with
        | O => None
        | S fuel' => e ← lpPrev lp p; lpSeek_backward fuel' lp e (index + 1)
        end
      else Some ele
  end.

Definition lpSeek (lp : list Z) (index : Z) : option (option Z) :=
  let fwd index := e ← lpFirst lp; lpSeek_forward (length lp) lp e index in
  let bwd index := e ← lpLast lp; lpSeek_backward (length lp) lp e index in
  numele ← lpGetNumElements lp;
  if negb (numele =? LP_HDR_NUMELE_UNKNOWN) then
    let index := if index <? 0 then numele + index else index in
    if index <? 0 then Some None
    else if index >=? numele then Some None
    else if index >? numele / 2 then bwd (index - numele)
    else fwd index
  else if index <? 0 then bwd index else fwd index.

(** ** Reading one element *)

(** [LpInt v]: NULL with [*count = v]; [LpPtr off n]: a pointer into the
    listpack with [*count = n]; [LpBuf s]: [intbuf], holding the string [s]. *)
Inductive lpres := LpInt (v : Z) | LpPtr (off count : Z) | LpBuf (s : list Z).

Definition lpGet (lp : list Z) (p : Z) (intbuf : bool) : option lpres :=
  let int_result (uval negstart negmax : Z) :=
    let val := if uval >=? negstart then - (i64 (u64 (negmax - uval))) - 1 else i64 uval in
    (* snprintf "%lld" is the decimal notation *)
    if intbuf then LpBuf (dec val) else LpInt val in
  b ← mget lp p;
  if LP_ENCODING_IS_7BIT_UINT b then Some (int_result (Z.land b 127) UINT64_MAX 0)
  else if LP_ENCODING_IS_6BIT_STR b then
    n ← LP_ENCODING_6BIT_STR_LEN lp p; Some (LpPtr (p + 1) n)
  else if LP_ENCODING_IS_13BIT_INT b then
    b1 ← mget lp (p + 1);
    Some (int_result (Z.lor (Z.shiftl (Z.land b 31) 8) b1) (Z.shiftl 1 12) 8191)
  else if LP_ENCODING_IS_16BIT_INT b then
    b1 ← mget lp (p + 1); b2 ← mget lp (p + 2);
    Some (int_result (Z.lor b1 (Z.shiftl b2 8)) (Z.shiftl 1 15) 65535)
  else if LP_ENCODING_IS_24BIT_INT b then
    b1 ← mget lp (p + 1); b2 ← mget lp (p + 2); b3 ← mget lp (p + 3);
    Some (int_result (Z.lor (Z.lor b1 (Z.shiftl b2 8)) (Z.shiftl b3 16)) (Z.shiftl 1 23)
            (Z.shiftr UINT32_MAX 8))
  else if LP_ENCODING_IS_32BIT_INT b then
    b1 ← mget lp (p + 1); b2 ← mget lp (p + 2); b3 ← mget lp (p + 3); b4 ← mget lp (p + 4);
    Some (int_result (Z.lor (Z.lor (Z.lor b1 (Z.shiftl b2 8)) (Z.shiftl b3 16)) (Z.shiftl b4 24))
            (Z.shiftl 1 31) UINT32_MAX)
  else if LP_ENCODING_IS_64BIT_INT b then
    b1 ← mget lp (p + 1); b2 ← mget lp (p + 2); b3 ← mget lp (p + 3); b4 ← mget lp (p + 4);
    b5 ← mget lp (p + 5); b6 ← mget lp (p + 6); b7 ← mget lp (p + 7); b8 ← mget lp (p + 8);
    Some (int_result
      (Z.lor (Z.lor (Z.lor (Z.lor (Z.lor (Z.lor (Z.lor b1 (Z.shiftl b2 8)) (Z.shiftl b3 16))
        (Z.shiftl b4 24)) (Z.shiftl b5 32)) (Z.shiftl b6 40)) (Z.shiftl b7 48)) (Z.shiftl b8 56))
      (Z.shiftl 1 63) UINT64_MAX)
  else if LP_ENCODING_IS_12BIT_STR b then
    n ← LP_ENCODING_12BIT_STR_LEN lp p; Some (LpPtr (p + 2) n)
  else if LP_ENCODING_IS_32BIT_STR b then
    n ← LP_ENCODING_32BIT_STR_LEN lp p; Some (LpPtr (p + 5) n)
  else Some (int_result (12345678900000000 + b) UINT64_MAX 0).

(** ** Modifying *)

Definition lpNew (junk : nat -> Z) : option (list Z) :=
  let lp := zrealloc junk [] (LP_HDR_SIZE + 1) in
  lp ← lpSetTotalBytes lp (LP_HDR_SIZE + 1);
  lp ← lpSetNumElements lp 0;
  mset lp LP_HDR_SIZE LP_EOF.

Inductive lpwhere := LP_BEFORE | LP_AFTER | LP_REPLACE.

Definition is_replace (w : lpwhere) : bool := match w with LP_REPLACE => true | _ => false end.

(** [ele] is [None] for the NULL pointer.  [Some None] is the NULL result;
    otherwise the listpack and [*newp].  Allocation does not fail. *)
Definition lpInsert (junk : nat -> Z) (lp : list Z) (ele : option (list Z)) (size p : Z)
    (where_ : lpwhere) : option (option (list Z * option Z)) :=
  let where_ := match ele with None => LP_REPLACE | Some _ => where_ end in
  pw ← (match where_ with
        | LP_AFTER => p ← lpSkip lp p; Some (p, LP_BEFORE)
        | w => Some (p, w)
        end);
  let '(p, where_) := pw in
  let poff := p in
  et ← (match ele with
        | Some ele => r ← lpEncodeGetType ele size; Some (Some r)
        | None => Some None
        end);
  let enclen := match et with Some (_, _, n) => n | None => 0 end in
  let backlen := match et with Some (_, _, n) => lpEncodeBacklen n | None => [] end in
  let backlen_size := zlen backlen in
  old_listpack_bytes ← lpGetTotalBytes lp;
  replaced_len ← (if is_replace where_ then
                    n ← lpCurrentEncodedSize lp p;
                    Some (u32 (n + zlen (lpEncodeBacklen n)))
                  else Some 0);
  let new_listpack_bytes := u64 (old_listpack_bytes + enclen + backlen_size - replaced_len) in
  if new_listpack_bytes >? UINT32_MAX then Some None
  else
    let dst := poff in
    let lp := if new_listpack_bytes >? old_listpack_bytes
              then zrealloc junk lp new_listpack_bytes else lp in
    lp ← (if negb (is_replace where_) then
            mmove lp (dst + enclen + backlen_size) dst (old_listpack_bytes - poff)
          else
            let lendiff := enclen + backlen_size - replaced_len in
            mmove lp (dst + replaced_len + lendiff) (dst + replaced_len)
                  (old_listpack_bytes - poff - replaced_len));
    let lp := if new_listpack_bytes <? old_listpack_bytes
              then zrealloc junk lp new_listpack_bytes else lp in
    newp ← (match ele with
            | None => b ← mget lp dst; Some (if b =? LP_EOF then None else Some dst)
            | Some _ => Some (Some dst)
            end);
    lp ← (match ele, et with
          | Some ele, Some (t, intenc, _) =>
              lp ← (match t with
                    | LP_ENCODING_INT => mwrite lp dst intenc
                    | LP_ENCODING_STRING => mwrite lp dst (lpEncodeString ele size)
                    end);
              mwrite lp (dst + enclen) backlen
          | _, _ => Some lp
          end);
    lp ← (if negb (is_replace where_) || (match ele with None => true | _ => false end) then
            num_elements ← lpGetNumElements lp;
            if negb (num_elements =? LP_HDR_NUMELE_UNKNOWN) then
              match ele with
              | Some _ => lpSetNumElements lp (num_elements + 1)
              | None => lpSetNumElements lp (u32 (num_elements - 1))
              end
            else Some lp
          else Some lp);
    lp ← lpSetTotalBytes lp new_listpack_bytes;
    Some (Some (lp, newp)).

Definition lpAppend (junk : nat -> Z) (lp ele : list Z) (size : Z)
    : option (option (list Z * option Z)) :=
  listpack_bytes ← lpGetTotalBytes lp;
  let eofptr := listpack_bytes - 1 in
  lpInsert junk lp (Some ele) size eofptr LP_BEFORE.

Definition lpDelete (junk : nat -> Z) (lp : list Z) (p : Z) : option (option (list Z * option Z)) :=
  lpInsert junk lp None 0 p LP_REPLACE.

Definition lpBytes (lp : list Z) : option Z := lpGetTotalBytes lp.

Example listpack_ex :
  (lp ← lpNew (fun _ => 7);
   r ← lpAppend (fun _ => 7) lp (bytes_of "hello"%string) 5;
   match r with None => None | Some (lp, _) =>
   r ← lpAppend (fun _ => 7) lp (bytes_of "-129"%string) 4;
   match r with None => None | Some (lp, _) =>
   r ← lpInsert (fun _ => 7) lp (Some (bytes_of "70000"%string)) 5 6 LP_BEFORE;
   match r with None => None | Some (lp, _) =>
   n ← lpLength lp; p ← lpSeek lp (-1);
   match p with None => None | Some p =>
   v ← lpGet lp p false; Some (fst n, v) end end end end) = Some (3, LpInt (-129)).
Proof. vm_compute. reflexivity. Qed.

(** ** The codec: what the first byte says *)

Definition class_check (b : Z) : bool :=
  eqb (LP_ENCODING_IS_7BIT_UINT b) (b <? 128) &&
  eqb (LP_ENCODING_IS_6BIT_STR b) ((128 <=? b) && (b <? 192)) &&
  eqb (LP_ENCODING_IS_13BIT_INT b) ((192 <=? b) && (b <? 224)) &&
  eqb (LP_ENCODING_IS_12BIT_STR b) ((224 <=? b) && (b <? 240)) &&
  eqb (LP_ENCODING_IS_32BIT_STR b) (b =? 240) && eqb (LP_ENCODING_IS_16BIT_INT b) (b =? 241) &&
  eqb (LP_ENCODING_IS_24BIT_INT b) (b =? 242) && eqb (LP_ENCODING_IS_32BIT_INT b) (b =? 243) &&
  eqb (LP_ENCODING_IS_64BIT_INT b) (b =? 244).

Lemma class_ranges b : 0 <= b < 256 ->
  LP_ENCODING_IS_7BIT_UINT b = (b <? 128) /\
  LP_ENCODING_IS_6BIT_STR b = ((128 <=? b) && (b <? 192)) /\
  LP_ENCODING_IS_13BIT_INT b = ((192 <=? b) && (b <? 224)) /\
  LP_ENCODING_IS_12BIT_STR b = ((224 <=? b) && (b <? 240)) /\
  LP_ENCODING_IS_32BIT_STR b = (b =? 240) /\ LP_ENCODING_IS_16BIT_INT b = (b =? 241) /\
  LP_ENCODING_IS_24BIT_INT b = (b =? 242) /\ LP_ENCODING_IS_32BIT_INT b = (b =? 243) /\
  LP_ENCODING_IS_64BIT_INT b = (b =? 244).
Proof.
  intros Hb. assert (H : all_below 256 class_check = true) by (vm_compute; reflexivity).
  pose proof (all_below_spec 256 class_check b H Hb) as Hc. unfold class_check in Hc.
  rewrite !andb_true_iff, !eqb_true_iff in Hc. tauto.
Qed.

(** Rewrites the nine tests of a byte [b] into range tests. *)
Ltac classify b :=
  let H := fresh in
  assert (H : 0 <= b < 256) by (unfold byte_ok in *; lia);
  destruct (class_ranges b H) as (H1 & H2 & H3 & H4 & H5 & H6 & H7 & H8 & H9);
  rewrite ?H1, ?H2, ?H3, ?H4, ?H5, ?H6, ?H7, ?H8, ?H9; clear H1 H2 H3 H4 H5 H6 H7 H8 H9; zbool.

(** Reads at constant offsets inside a buffer of the form [a ++ b0 :: b1 :: ...]. *)
Lemma mget_at0 {A} (a : list A) c i : i = zlen a -> mget (a ++ c) i = mget c 0.
Proof. intros ->. rewrite mget_app_r by lia. f_equal. lia. Qed.
Lemma mget_at {A} (a : list A) c k : 0 <= k -> mget (a ++ c) (zlen a + k) = mget c k.
Proof. intros. rewrite mget_app_r by lia. f_equal. lia. Qed.

Ltac bufget :=
  rewrite ?(mget_at0 _ _ (zlen _)), ?mget_at by (reflexivity || lia); cbn [app];
  repeat match goal with
  | |- context [mget (?x :: ?l) ?k] =>
      let r := eval hnf in (mget (x :: l) k) in
      lazymatch r with Some _ => change (mget (x :: l) k) with r end
  end; cbn [mbind option_bind].

(** ** The codec: integers *)

(** What [lpGet] returns for an element whose value is the integer [v]. *)
Definition got_int (intbuf : bool) (v : Z) : lpres := if intbuf then LpBuf (dec v) else LpInt v.

Lemma byte_split v : Z.land v 255 = v mod 256 /\ Z.shiftr v 8 = v / 256 /\
  Z.shiftr v 16 = v / 65536 /\ Z.shiftr v 24 = v / 16777216.
Proof. rewrite land_255, !Z.shiftr_div_pow2 by lia. done. Qed.

(** The sign conversion of [lpGet] undoes the one of [lpEncodeGetType]. *)
Lemma sign_back k v :
  0 < k < 64 -> in_s k v ->
  let w := if v <? 0 then 2 ^ k + v else v in
  (if w >=? 2 ^ (k - 1) then - (i64 (u64 (2 ^ k - 1 - w))) - 1 else i64 w) = v.
Proof.
  intros Hk [H1 H2] w. pose proof (pow2_half k ltac:(lia)) as Hp.
  assert (2 ^ k <= 2 ^ 63) by (apply Z.pow_le_mono_r; lia).
  assert (Hw : 0 <= w < 2 ^ k) by (unfold w; case_match; lia).
  destruct (w >=? 2 ^ (k - 1)) eqn:E.
  - rewrite swrap_uwrap, swrap_small by (try unfold in_s; lia). unfold w in *. case_match; lia.
  - rewrite swrap_small by (try unfold in_s; lia). unfold w in *. case_match; lia.
Qed.

Lemma unsigned_image k v : 0 < k -> in_s k v -> 0 <= (if v <? 0 then 2 ^ k + v else v) < 2 ^ k.
Proof. intros Hk [H1 H2]. pose proof (pow2_half k Hk). case_match; lia. Qed.

Section IntCodec.
Variables (a c : list Z) (ib : bool).

Let decodes (bs : list Z) (v : Z) : Prop :=
  lpCurrentEncodedSize (a ++ bs ++ c) (zlen a) = Some (zlen bs) /\
  lpGet (a ++ bs ++ c) (zlen a) ib = Some (got_int ib v) /\
  exists b0 bs', bs = b0 :: bs' /\ b0 <> 255.

Lemma decode_7bit v : 0 <= v <= 127 -> decodes [u8 v] v.
Proof.
  intros Hv. rewrite uwrap_small by lia. unfold decodes, lpCurrentEncodedSize, lpGet. bufget.
  classify v. rewrite land_127, Z.mod_small by lia. unfold UINT64_MAX. zbool.
  rewrite swrap_small by (unfold in_s; lia). repeat split. exists v, []. split; [done|lia].
Qed.

Lemma decode_13bit v : in_s 13 v ->
  let w := if v <? 0 then Z.shiftl 1 13 + v else v in
  decodes [u8 (Z.lor (Z.shiftr w 8) 192); Z.land w 255] v.
Proof.
  intros Hv w. change (Z.shiftl 1 13) with (2 ^ 13) in w.
  pose proof (unsigned_image 13 v ltac:(lia) Hv) as Hw. fold w in Hw.
  destruct (byte_split w) as (-> & -> & _).
  assert (Hh : 0 <= w / 256 < 32) by (split; [apply Z.div_pos; lia|apply Z.div_lt_upper_bound; lia]).
  assert (Hb : (u8 (Z.lor (w / 256) 192) =? w / 256 + 192) && (Z.land (w / 256 + 192) 31 =? w / 256) = true).
  { apply (all_below_spec 32 (fun h => (u8 (Z.lor h 192) =? h + 192) && (Z.land (h + 192) 31 =? h)));
      [vm_compute; reflexivity|lia]. }
  apply andb_true_iff in Hb as [Hb1%Z.eqb_eq Hb2%Z.eqb_eq]. rewrite Hb1.
  pose proof (Z.mod_pos_bound w 256 ltac:(lia)).
  unfold decodes, lpCurrentEncodedSize, lpGet. bufget. classify (w / 256 + 192).
  rewrite Hb2, Z.lor_comm, lor_shiftl by lia.
  replace (w mod 256 + w / 256 * 2 ^ 8) with w by (pose proof (Z.div_mod w 256); lia).
  pose proof (sign_back 13 v ltac:(lia) Hv) as Hs. fold w in Hs.
  change (Z.shiftl 1 12) with (2 ^ (13 - 1)). change 8191 with (2 ^ 13 - 1). rewrite Hs.
  repeat split. eexists _, _. split; [done|lia].
Qed.

Lemma decode_16bit v : in_s 16 v ->
  let w := if v <? 0 then Z.shiftl 1 16 + v else v in
  decodes [241; Z.land w 255; u8 (Z.shiftr w 8)] v.
Proof.
  intros Hv w. change (Z.shiftl 1 16) with (2 ^ 16) in w.
  pose proof (unsigned_image 16 v ltac:(lia) Hv) as Hw. fold w in Hw.
  destruct (byte_split w) as (-> & -> & _).
  rewrite uwrap_small by (split; [apply Z.div_pos; lia|apply Z.div_lt_upper_bound; lia]).
  pose proof (Z.mod_pos_bound w 256 ltac:(lia)).
  unfold decodes, lpCurrentEncodedSize, lpGet. bufget. classify 241.
  rewrite lor_shiftl by lia.
  replace (w mod 256 + w / 256 * 2 ^ 8) with w by (pose proof (Z.div_mod w 256); lia).
  pose proof (sign_back 16 v ltac:(lia) Hv) as Hs. fold w in Hs.
  change (Z.shiftl 1 15) with (2 ^ (16 - 1)). change 65535 with (2 ^ 16 - 1). rewrite Hs.
  repeat split. eexists _, _. split; [done|lia].
Qed.

(** The encodings of three bytes and more: marker, then little endian. *)
Lemma decode_24bit v : in_s 24 v ->
  let w := if v <? 0 then Z.shiftl 1 24 + v else v in
  decodes [242; Z.land w 255; Z.land (Z.shiftr w 8) 255; u8 (Z.shiftr w 16)] v.
Proof.
  intros Hv w. change (Z.shiftl 1 24) with (2 ^ 24) in w.
  pose proof (unsigned_image 24 v ltac:(lia) Hv) as Hw. fold w in Hw.
  rewrite top_byte by lia.
  pose proof (le_bytes_ok 3 w) as Hb. pose proof (le_val_small 3 w Hw) as Hval.
  rewrite le_bytes_3 in Hb, Hval.
  revert Hb Hval. generalize (Z.land w 255) (Z.land (Z.shiftr w 8) 255) (Z.land (Z.shiftr w 16) 255).
  intros b0 b1 b2 Hb Hval. unfold decodes, lpCurrentEncodedSize, lpGet. bufget. classify 242.
  change (Z.lor (Z.lor b0 (Z.shiftl b1 8)) (Z.shiftl b2 16)) with (lor_bytes 8 [b1; b2] b0).
  rewrite lor_bytes_le by (inversion Hb; done). rewrite Hval.
  pose proof (sign_back 24 v ltac:(lia) Hv) as Hs. fold w in Hs.
  change (Z.shiftl 1 23) with (2 ^ (24 - 1)). change (Z.shiftr UINT32_MAX 8) with (2 ^ 24 - 1).
  rewrite Hs. repeat split. eexists _, _. split; [done|lia].
Qed.

Lemma decode_32bit v : in_s 32 v ->
  let w := if v <? 0 then Z.shiftl 1 32 + v else v in
  decodes [243; Z.land w 255; Z.land (Z.shiftr w 8) 255; Z.land (Z.shiftr w 16) 255;
           u8 (Z.shiftr w 24)] v.
Proof.
  intros Hv w. change (Z.shiftl 1 32) with (2 ^ 32) in w.
  pose proof (unsigned_image 32 v ltac:(lia) Hv) as Hw. fold w in Hw.
  rewrite top_byte by lia.
  pose proof (le_bytes_ok 4 w) as Hb. pose proof (le_val_small 4 w Hw) as Hval.
  rewrite le_bytes_4 in Hb, Hval. revert Hb Hval.
  generalize (Z.land w 255) (Z.land (Z.shiftr w 8) 255) (Z.land (Z.shiftr w 16) 255)
    (Z.land (Z.shiftr w 24) 255).
  intros b0 b1 b2 b3 Hb Hval. unfold decodes, lpCurrentEncodedSize, lpGet. bufget. classify 243.
  change (Z.lor (Z.lor (Z.lor b0 (Z.shiftl b1 8)) (Z.shiftl b2 16)) (Z.shiftl b3 24))
    with (lor_bytes 8 [b1; b2; b3] b0).
  rewrite lor_bytes_le by (inversion Hb; done). rewrite Hval.
  pose proof (sign_back 32 v ltac:(lia) Hv) as Hs. fold w in Hs.
  change (Z.shiftl 1 31) with (2 ^ (32 - 1)). change UINT32_MAX with (2 ^ 32 - 1).
  rewrite Hs. repeat split. eexists _, _. split; [done|lia].
Qed.

Lemma sign_back_64 v : in_s 64 v ->
  (if u64 v >=? 2 ^ 63 then - (i64 (u64 (UINT64_MAX - u64 v))) - 1 else i64 (u64 v)) = v.
Proof.
  intros Hv. rewrite (swrap_uwrap 64 v), (swrap_small 64 v) by (done || lia). unfold in_s in Hv.
  assert (Hu : u64 v = if v <? 0 then v + 2 ^ 64 else v).
  { case_match; [|by apply uwrap_small; lia]. unfold uwrap.
    rewrite <- (Z.mod_add v 1) by lia. rewrite Z.mul_1_l. apply Z.mod_small. lia. }
  rewrite Hu. unfold UINT64_MAX. case_match; [|by zbool].
  zbool. rewrite swrap_uwrap, swrap_small by (try unfold in_s; lia). lia.
Qed.

Lemma decode_64bit v : in_s 64 v ->
  let w := u64 v in
  decodes [244; Z.land w 255; Z.land (Z.shiftr w 8) 255; Z.land (Z.shiftr w 16) 255;
           Z.land (Z.shiftr w 24) 255; Z.land (Z.shiftr w 32) 255; Z.land (Z.shiftr w 40) 255;
           Z.land (Z.shiftr w 48) 255; u8 (Z.shiftr w 56)] v.
Proof.
  intros Hv w. pose proof (uwrap_range 64 v ltac:(lia)) as Hw. fold w in Hw.
  rewrite top_byte by lia.
  pose proof (le_bytes_ok 8 w) as Hb. pose proof (le_val_small 8 w Hw) as Hval.
  rewrite le_bytes_8 in Hb, Hval. revert Hb Hval.
  generalize (Z.land w 255) (Z.land (Z.shiftr w 8) 255) (Z.land (Z.shiftr w 16) 255)
    (Z.land (Z.shiftr w 24) 255) (Z.land (Z.shiftr w 32) 255) (Z.land (Z.shiftr w 40) 255)
    (Z.land (Z.shiftr w 48) 255) (Z.land (Z.shiftr w 56) 255).
  intros b0 b1 b2 b3 b4 b5 b6 b7 Hb Hval. unfold decodes, lpCurrentEncodedSize, lpGet. bufget.
  classify 244.
  match goal with |- context [Z.lor ?x (Z.shiftl b7 56)] =>
    change (Z.lor x (Z.shiftl b7 56)) with (lor_bytes 8 [b1; b2; b3; b4; b5; b6; b7] b0) end.
  rewrite lor_bytes_le by (inversion Hb; done). rewrite Hval.
  change (Z.shiftl 1 63) with (2 ^ 63). unfold w. rewrite sign_back_64 by done.
  repeat split. eexists _, _. split; [done|lia].
Qed.

(** Every integer, at the width its value needs. *)
Lemma decode_integer v : in_s 64 v -> decodes (lpEncodeInteger v) v.
Proof.
  intros Hv. unfold lpEncodeInteger.
  destruct ((v >=? 0) && (v <=? 127)) eqn:E1; [apply decode_7bit; lia|].
  destruct ((v >=? -4096) && (v <=? 4095)) eqn:E2; [apply decode_13bit; unfold in_s; lia|].
  destruct ((v >=? -32768) && (v <=? 32767)) eqn:E3; [apply decode_16bit; unfold in_s; lia|].
  destruct ((v >=? -8388608) && (v <=? 8388607)) eqn:E4; [apply decode_24bit; unfold in_s; lia|].
  destruct ((v >=? -2147483648) && (v <=? 2147483647)) eqn:E5; [apply decode_32bit; unfold in_s; lia|].
  by apply decode_64bit.
Qed.
End IntCodec.

(** ** The codec: strings *)

(** The bytes of the marker and length that precede the string. *)
Definition str_hdr (n : Z) : Z := if n <? 64 then 1 else if n <? 4096 then 2 else 5.

Lemma zlen_encode_string s : zlen (lpEncodeString s (zlen s)) = str_hdr (zlen s) + zlen s.
Proof. unfold lpEncodeString, str_hdr. repeat case_match; autorewrite with zlen; lia. Qed.

Lemma drop_hdr s : drop (Z.to_nat (str_hdr (zlen s))) (lpEncodeString s (zlen s)) = s.
Proof. unfold lpEncodeString, str_hdr. repeat case_match; done. Qed.

Section StrCodec.
Variables (a c : list Z) (ib : bool).

Let decodes_str (bs s : list Z) : Prop :=
  lpCurrentEncodedSize (a ++ bs ++ c) (zlen a) = Some (zlen bs) /\
  lpGet (a ++ bs ++ c) (zlen a) ib = Some (LpPtr (zlen a + str_hdr (zlen s)) (zlen s)) /\
  exists b0 bs', bs = b0 :: bs' /\ b0 <> 255.

Lemma decode_6bit_str s : zlen s < 64 -> decodes_str (u8 (Z.lor (zlen s) 128) :: s) s.
Proof.
  intros Hs. pose_zlen.
  assert (Hb : (u8 (Z.lor (zlen s) 128) =? zlen s + 128) && (Z.land (zlen s + 128) 63 =? zlen s) = true).
  { apply (all_below_spec 64 (fun h => (u8 (Z.lor h 128) =? h + 128) && (Z.land (h + 128) 63 =? h)));
      [vm_compute; reflexivity|lia]. }
  apply andb_true_iff in Hb as [Hb1%Z.eqb_eq Hb2%Z.eqb_eq]. rewrite Hb1.
  unfold decodes_str, lpCurrentEncodedSize, lpGet, LP_ENCODING_6BIT_STR_LEN, str_hdr. bufget.
  classify (zlen s + 128). rewrite Hb2. autorewrite with zlen. repeat split.
  eexists _, _. split; [done|lia].
Qed.

Lemma decode_12bit_str s : 64 <= zlen s < 4096 ->
  decodes_str (u8 (Z.lor (Z.shiftr (zlen s) 8) 224) :: Z.land (zlen s) 255 :: s) s.
Proof.
  intros Hs. set (n := zlen s) in *. destruct (byte_split n) as (-> & -> & _).
  assert (Hh : 0 <= n / 256 < 16) by (split; [apply Z.div_pos; lia|apply Z.div_lt_upper_bound; lia]).
  assert (Hb : (u8 (Z.lor (n / 256) 224) =? n / 256 + 224) && (Z.land (n / 256 + 224) 15 =? n / 256) = true).
  { apply (all_below_spec 16 (fun h => (u8 (Z.lor h 224) =? h + 224) && (Z.land (h + 224) 15 =? h)));
      [vm_compute; reflexivity|lia]. }
  apply andb_true_iff in Hb as [Hb1%Z.eqb_eq Hb2%Z.eqb_eq]. rewrite Hb1.
  pose proof (Z.mod_pos_bound n 256 ltac:(lia)).
  unfold decodes_str, lpCurrentEncodedSize, lpGet, LP_ENCODING_12BIT_STR_LEN, str_hdr. bufget.
  classify (n / 256 + 224). rewrite Hb2, Z.lor_comm, lor_shiftl by lia.
  replace (n mod 256 + n / 256 * 2 ^ 8) with n by (pose proof (Z.div_mod n 256); lia).
  autorewrite with zlen. fold n. zbool. repeat split; [f_equal; lia|].
  eexists _, _. split; [done|lia].
Qed.

Lemma decode_32bit_str s : 4096 <= zlen s -> zlen s + 5 < 2 ^ 32 ->
  decodes_str (240 :: Z.land (zlen s) 255 :: Z.land (Z.shiftr (zlen s) 8) 255 ::
               Z.land (Z.shiftr (zlen s) 16) 255 :: Z.land (Z.shiftr (zlen s) 24) 255 :: s) s.
Proof.
  intros Hs Hs2. set (n := zlen s) in *.
  pose proof (le_bytes_ok 4 n) as Hb. pose proof (le_val_small 4 n ltac:(lia)) as Hval.
  rewrite le_bytes_4 in Hb, Hval. revert Hb Hval.
  generalize (Z.land n 255) (Z.land (Z.shiftr n 8) 255) (Z.land (Z.shiftr n 16) 255)
    (Z.land (Z.shiftr n 24) 255).
  intros b0 b1 b2 b3 Hb Hval.
  unfold decodes_str, lpCurrentEncodedSize, lpGet, LP_ENCODING_32BIT_STR_LEN, str_hdr. bufget.
  classify 240. rewrite Z.shiftl_0_r.
  change (Z.lor (Z.lor (Z.lor b0 (Z.shiftl b1 8)) (Z.shiftl b2 16)) (Z.shiftl b3 24))
    with (lor_bytes 8 [b1; b2; b3] b0).
  rewrite lor_bytes_le by (inversion Hb; done). rewrite Hval, uwrap_small by lia.
  autorewrite with zlen. fold n. zbool. repeat split; [f_equal; lia|].
  eexists _, _. split; [done|lia].
Qed.

Lemma decode_string s : zlen s + 5 < 2 ^ 32 -> decodes_str (lpEncodeString s (zlen s)) s.
Proof.
  intros Hs. unfold lpEncodeString.
  destruct (zlen s <? 64) eqn:E1; [apply decode_6bit_str; lia|].
  destruct (zlen s <? 4096) eqn:E2; [apply decode_12bit_str; lia|apply decode_32bit_str; lia].
Qed.
End StrCodec.

(** ** The codec: backward lengths *)

Lemma cont_byte x : Z.land (Z.lor (Z.land x 127) 128) 127 = x mod 128 /\
  (Z.land (Z.lor (Z.land x 127) 128) 128 =? 0) = false.
Proof.
  rewrite (land_127 x). pose proof (Z.mod_pos_bound x 128 ltac:(lia)) as Hx.
  assert (H : (Z.land (Z.lor (x mod 128) 128) 127 =? x mod 128) &&
              negb (Z.land (Z.lor (x mod 128) 128) 128 =? 0) = true).
  { apply (all_below_spec 128 (fun h => (Z.land (Z.lor h 128) 127 =? h) &&
      negb (Z.land (Z.lor h 128) 128 =? 0))); [vm_compute; reflexivity|lia]. }
  apply andb_true_iff in H as [?%Z.eqb_eq ?%negb_true_iff]. done.
Qed.

Lemma last_byte x : 0 <= x < 128 -> Z.land (u8 x) 127 = x /\ (Z.land (u8 x) 128 =? 0) = true.
Proof.
  intros Hx. assert (H : (Z.land (u8 x) 127 =? x) && (Z.land (u8 x) 128 =? 0) = true).
  { apply (all_below_spec 128 (fun h => (Z.land (u8 h) 127 =? h) && (Z.land (u8 h) 128 =? 0)));
      [vm_compute; reflexivity|lia]. }
  apply andb_true_iff in H as [?%Z.eqb_eq ?]. done.
Qed.

(** One turn of the decoding loop on a continuation byte and on the first byte. *)
Lemma decode_cont (fuel : nat) a x c p val k :
  p = zlen a -> 0 <= k <= 21 -> 0 <= val < 2 ^ k ->
  lpDecodeBacklen_loop (S fuel) (a ++ Z.lor (Z.land x 127) 128 :: c) p val k =
    lpDecodeBacklen_loop fuel (a ++ Z.lor (Z.land x 127) 128 :: c) (p - 1)
      (val + (x mod 128) * 2 ^ k) (k + 7) /\ 0 <= val + (x mod 128) * 2 ^ k < 2 ^ (k + 7).
Proof.
  intros -> Hk Hv. destruct (cont_byte x) as [H1 H2]. pose proof (Z.mod_pos_bound x 128 ltac:(lia)).
  assert (Hp : 2 ^ (k + 7) = 2 ^ k * 128) by (by rewrite Z.pow_add_r by lia).
  assert (2 ^ k <= 2 ^ 21) by (apply Z.pow_le_mono_r; lia).
  split; [|nia]. cbn [lpDecodeBacklen_loop]. rewrite mget_split by done. cbn [mbind option_bind].
  rewrite H1, H2, uwrap_small by (rewrite Z.shiftl_mul_pow2 by lia; nia).
  rewrite lor_shiftl by lia. by zbool.
Qed.

Lemma decode_first (fuel : nat) a x c p val k :
  p = zlen a -> 0 <= k <= 28 -> 0 <= val < 2 ^ k -> 0 <= x < 128 ->
  lpDecodeBacklen_loop (S fuel) (a ++ u8 x :: c) p val k = Some (val + x * 2 ^ k).
Proof.
  intros -> Hk Hv Hx. destruct (last_byte x Hx) as [H1 H2].
  assert (2 ^ k <= 2 ^ 28) by (apply Z.pow_le_mono_r; lia).
  cbn [lpDecodeBacklen_loop]. rewrite mget_split by done. cbn [mbind option_bind].
  rewrite H1, H2, uwrap_small by (rewrite Z.shiftl_mul_pow2 by lia; nia).
  by rewrite lor_shiftl by lia.
Qed.

Definition LP_MAX_ENTRY_BACKLEN : Z := 34359738367.

(** The encoding as a recursion: the low seven bits come last. *)
Fixpoint backlen (k : nat) (l : Z) : list Z :=
  match k with
  | O => [u8 l]
  | S k' => backlen k' (Z.shiftr l 7) ++ [Z.lor (Z.land l 127) 128]
  end.

Lemma zlen_backlen k l : zlen (backlen k l) = Z.of_nat k + 1.
Proof. revert l. induction k as [|k IH]; intros l; cbn [backlen]; autorewrite with zlen; rewrite ?IH; lia. Qed.

Lemma lpEncodeBacklen_backlen l : 0 <= l <= LP_MAX_ENTRY_BACKLEN ->
  exists k : nat, (k <= 4)%nat /\ lpEncodeBacklen l = backlen k l /\ l < 2 ^ (7 * (Z.of_nat k + 1)).
Proof.
  unfold LP_MAX_ENTRY_BACKLEN. intros Hl. unfold lpEncodeBacklen.
  destruct (l <=? 127) eqn:E1; [exists 0%nat|destruct (l <? 16383) eqn:E2; [exists 1%nat|
    destruct (l <? 2097151) eqn:E3; [exists 2%nat|destruct (l <? 268435455) eqn:E4; [exists 3%nat|exists 4%nat]]]];
    cbn [backlen app]; rewrite ?Z.shiftr_shiftr by lia; (split; [lia|]); (split; [done|]);
    cbn; lia.
Qed.

Lemma backlen_decode k (fuel : nat) a l c p val sh :
  0 <= l < 2 ^ (7 * (Z.of_nat k + 1)) -> (k < fuel)%nat -> 0 <= sh -> sh + 7 * Z.of_nat k <= 28 ->
  0 <= val < 2 ^ sh -> p = zlen a + Z.of_nat k ->
  lpDecodeBacklen_loop fuel (a ++ backlen k l ++ c) p val sh = Some (val + l * 2 ^ sh).
Proof.
  revert fuel l c p val sh. induction k as [|k IH]; intros fuel l c p val sh Hl Hf Hsh Hsk Hv ->;
    (destruct fuel as [|fuel]; [lia|]); cbn [backlen].
  - apply decode_first; [lia|lia|lia|]. cbn in Hl. lia.
  - rewrite <- app_assoc. cbn [app].
    assert (Hd : 0 <= Z.shiftr l 7 < 2 ^ (7 * (Z.of_nat k + 1))).
    { rewrite Z.shiftr_div_pow2 by lia. split; [apply Z.div_pos; lia|].
      apply Z.div_lt_upper_bound; [lia|]. rewrite <- Z.pow_add_r by lia.
      replace (7 + 7 * (Z.of_nat k + 1)) with (7 * (Z.of_nat (S k) + 1)) by lia. lia. }
    destruct (decode_cont fuel (a ++ backlen k (Z.shiftr l 7)) l c (zlen a + Z.of_nat (S k)) val sh)
      as [Hrun Hv']; [rewrite zlen_app, zlen_backlen; lia|lia|done|].
    rewrite <- app_assoc in Hrun. rewrite Hrun.
    rewrite IH; [|done|lia|lia|lia|done|lia].
    rewrite Z.shiftr_div_pow2, Z.pow_add_r by lia. change (2 ^ 7) with 128. f_equal.
    pose proof (Z.div_mod l 128). nia.
Qed.

Lemma decode_backlen l a c : 0 <= l <= LP_MAX_ENTRY_BACKLEN ->
  lpDecodeBacklen (a ++ lpEncodeBacklen l ++ c) (zlen a + zlen (lpEncodeBacklen l) - 1) = Some l.
Proof.
  intros Hl. destruct (lpEncodeBacklen_backlen l Hl) as (k & Hk & -> & Hb). unfold lpDecodeBacklen.
  rewrite zlen_backlen. rewrite (backlen_decode k); [f_equal; lia|lia|lia|lia|lia|lia|lia].
Qed.

(** Walking backwards works: [lpDecodeBacklen], reading from its last byte,
    recovers every entry length up to [LP_MAX_ENTRY_BACKLEN] that
    [lpEncodeBacklen] wrote, wherever it sits in the listpack. *)
Theorem backlen_roundtrip (l : Z) (a c : list Z) (Hl : 0 <= l <= LP_MAX_ENTRY_BACKLEN) :
  lpDecodeBacklen (a ++ lpEncodeBacklen l ++ c) (zlen a + zlen (lpEncodeBacklen l) - 1) = Some l.
Proof. by apply decode_backlen. Qed.

Lemma backlen_witness : lpDecodeBacklen ([] ++ lpEncodeBacklen 300000 ++ []) 2 = Some 300000.
Proof. exact (backlen_roundtrip 300000 [] [] ltac:(unfold LP_MAX_ENTRY_BACKLEN; lia)). Defined.
