(* ===== verification/ListpackRefine.v ===== *)
(** * Listpack refines a list of strings

    The abstract state is the list of the elements as they were inserted; this
    file relates it to the bytes and proves every operation of [Listpack] against
    it. *)
From Stdlib Require Import ZArith Lia String.
From stdpp Require Import base numbers list option.
From S2P Require Import Prelude UtilNum Listpack.

(** ** The bytes of a list of elements *)

Definition data (e : list Z) : list Z :=
  match string2ll e (zlen e) with
  | Some (Some v) => lpEncodeInteger v
  | _ => lpEncodeString e (zlen e)
  end.

Definition entry (e : list Z) : list Z := data e ++ lpEncodeBacklen (zlen (data e)).
Definition body (es : list (list Z)) : list Z := concat (entry <$> es).

(** The size of the listpack that holds [es]. *)
Definition lp_total (es : list (list Z)) : Z := 7 + zlen (body es).

(** The offset of element [i]; of the terminator for [i = length es]. *)
Definition off (es : list (list Z)) (i : nat) : Z := 6 + zlen (body (take i es)).

(** The element count of the header: exact, or the "unknown" mark. *)
Definition num_ok (num : Z) (es : list (list Z)) : Prop :=
  num = LP_HDR_NUMELE_UNKNOWN \/ (num = zlen es /\ zlen es < LP_HDR_NUMELE_UNKNOWN).

Definition lp_repr (lp : list Z) (es : list (list Z)) : Prop :=
  lp_total es <= UINT32_MAX /\
  exists num, num_ok num es /\
    lp = le_bytes 4 (lp_total es) ++ le_bytes 2 num ++ body es ++ [LP_EOF].

Lemma body_app a b : body (a ++ b) = body a ++ body b.
Proof. unfold body. by rewrite fmap_app, concat_app. Qed.
Lemma body_cons e b : body (e :: b) = entry e ++ body b.
Proof. done. Qed.
Lemma body_nil : body [] = [].
Proof. done. Qed.
Lemma body_one e : body [e] = entry e.
Proof. unfold body. cbn. apply app_nil_r. Qed.

(** ** One entry inside a buffer *)

Lemma lpStringToInt64_eq s slen : lpStringToInt64 s slen = string2ll s slen.
Proof.
  unfold lpStringToInt64, string2ll. destruct (0 =? slen); [done|].
  destruct (mget s 0) as [c0|] eqn:E0; [|done]. cbn [mbind option_bind].
  destruct ((slen =? 1) && (c0 =? 48)) eqn:E1; [done|].
  destruct (c0 =? 45) eqn:E45; cbn [andb].
  - destruct (1 =? slen) eqn:E2; [done|]. destruct (mget s 1); [|done]. cbn [mbind option_bind].
    destruct ((49 <=? z) && (z <=? 57)); [done|].
    by rewrite (proj2 (Z.eqb_neq slen 1)), andb_false_r by lia.
  - rewrite E0. cbn [mbind option_bind]. destruct ((49 <=? c0) && (c0 <=? 57)); [done|].
    by rewrite andb_comm, E1.
Qed.

(** An element is either a canonical integer or kept as it is. *)
Lemma data_cases e :
  (exists v, string2ll e (zlen e) = Some (Some v) /\ in_s 64 v /\ e = dec v /\ data e = lpEncodeInteger v) \/
  (string2ll e (zlen e) = Some None /\ data e = lpEncodeString e (zlen e)).
Proof.
  destruct (string2ll_total e) as (r & Hr & Hv). unfold data. rewrite Hr.
  destruct r as [v|]; [left|by right]. exists v. destruct (proj1 (Hv v) eq_refl). auto.
Qed.

Lemma zlen_encode_integer v : 1 <= zlen (lpEncodeInteger v) <= 9.
Proof. unfold lpEncodeInteger. repeat case_match; autorewrite with zlen; lia. Qed.

Lemma zlen_backlen_bytes l : 1 <= zlen (lpEncodeBacklen l) <= 5.
Proof. unfold lpEncodeBacklen. repeat case_match; autorewrite with zlen; lia. Qed.

(** The bound under which an element can be stored at all. *)
Definition ele_ok (e : list Z) : Prop := zlen (entry e) <= UINT32_MAX.

Lemma data_len e : ele_ok e -> 1 <= zlen (data e) /\ zlen (data e) + zlen (lpEncodeBacklen (zlen (data e))) < 2 ^ 32.
Proof.
  unfold ele_ok, entry, UINT32_MAX. rewrite zlen_app. pose proof (zlen_backlen_bytes (zlen (data e))).
  destruct (data_cases e) as [(v & _ & _ & _ & ->)|[_ ->]].
  - pose proof (zlen_encode_integer v). lia.
  - rewrite zlen_encode_string. unfold str_hdr. pose_zlen. repeat case_match; lia.
Qed.

Lemma string_fits e : ele_ok e -> data e = lpEncodeString e (zlen e) -> zlen e + 5 < 2 ^ 32.
Proof.
  intros Hok Hd. destruct (data_len e Hok) as [_ Hl]. rewrite Hd, zlen_encode_string in Hl.
  pose proof (zlen_backlen_bytes (str_hdr (zlen e) + zlen e)). unfold str_hdr in *.
  pose_zlen. repeat case_match; lia.
Qed.

(** What a reader sees at an entry. *)
Definition got (ib : bool) (p : Z) (e : list Z) : lpres :=
  match string2ll e (zlen e) with
  | Some (Some v) => got_int ib v
  | _ => LpPtr (p + str_hdr (zlen e)) (zlen e)
  end.

Lemma entry_at a e c ib : ele_ok e ->
  lpCurrentEncodedSize (a ++ entry e ++ c) (zlen a) = Some (zlen (data e)) /\
  lpGet (a ++ entry e ++ c) (zlen a) ib = Some (got ib (zlen a) e) /\
  exists b, mget (a ++ entry e ++ c) (zlen a) = Some b /\ b <> LP_EOF.
Proof.
  intros Hok. unfold entry, got. rewrite <- app_assoc.
  set (bl := lpEncodeBacklen (zlen (data e))).
  assert (Hfst : forall b0 bs', data e = b0 :: bs' -> b0 <> 255 ->
    exists b, mget (a ++ data e ++ bl ++ c) (zlen a) = Some b /\ b <> LP_EOF).
  { intros b0 bs' -> Hb. exists b0. split; [by apply mget_split|done]. }
  destruct (data_cases e) as [(v & Hr & Hv & _ & Hd)|[Hr Hd]]; rewrite Hr.
  - destruct (decode_integer a (bl ++ c) ib v Hv) as (H1 & H2 & b0 & bs' & H3 & H4).
    rewrite <- Hd in *. split; [done|]. split; [done|]. by eapply Hfst.
  - pose proof (string_fits e Hok Hd) as Hf.
    destruct (decode_string a (bl ++ c) ib e Hf) as (H1 & H2 & b0 & bs' & H3 & H4).
    rewrite <- Hd in *. split; [done|]. split; [done|]. by eapply Hfst.
Qed.

Lemma skip_entry a e c : ele_ok e -> lpSkip (a ++ entry e ++ c) (zlen a) = Some (zlen a + zlen (entry e)).
Proof.
  intros Hok. destruct (entry_at a e c false Hok) as [H _]. unfold lpSkip. rewrite H.
  cbn [mbind option_bind]. unfold entry. by rewrite zlen_app.
Qed.

Lemma prev_entry a e c p : ele_ok e -> 6 <= zlen a -> p = zlen a + zlen (entry e) ->
  lpPrev (a ++ entry e ++ c) p = Some (Some (zlen a)).
Proof.
  intros Hok Ha ->. destruct (data_len e Hok) as [H1 H2].
  pose proof (zlen_backlen_bytes (zlen (data e))).
  unfold lpPrev, LP_HDR_SIZE, entry. rewrite zlen_app. zbool. rewrite <- app_assoc, app_assoc.
  replace (zlen a + (zlen (data e) + zlen (lpEncodeBacklen (zlen (data e)))) - 1)
    with (zlen (a ++ data e) + zlen (lpEncodeBacklen (zlen (data e))) - 1) by zlia.
  rewrite decode_backlen by (unfold LP_MAX_ENTRY_BACKLEN; lia). cbn [mbind option_bind].
  do 2 f_equal. zlia.
Qed.

(** ** The header *)

Section Header.
Variables (t0 t1 t2 t3 n0 n1 : Z) (rest : list Z).
Let lp := t0 :: t1 :: t2 :: t3 :: n0 :: n1 :: rest.

Lemma set_total v : lpSetTotalBytes lp v = Some (le_bytes 4 v ++ n0 :: n1 :: rest).
Proof.
  unfold lpSetTotalBytes, lp. rewrite le_bytes_4.
  set (v0 := Z.land v 255). set (v1 := Z.land (Z.shiftr v 8) 255).
  set (v2 := Z.land (Z.shiftr v 16) 255). set (v3 := Z.land (Z.shiftr v 24) 255).
  rewrite (mset_split [] t0 v0 _ 0 eq_refl : mset (t0 :: _) 0 v0 = _). cbn [mbind option_bind app].
  rewrite (mset_split [v0] t1 v1 _ 1 eq_refl : mset (v0 :: t1 :: _) 1 v1 = _). cbn [mbind option_bind app].
  rewrite (mset_split [v0; v1] t2 v2 _ 2 eq_refl : mset (v0 :: v1 :: t2 :: _) 2 v2 = _).
  cbn [mbind option_bind app].
  by rewrite (mset_split [v0; v1; v2] t3 v3 _ 3 eq_refl : mset (v0 :: v1 :: v2 :: t3 :: _) 3 v3 = _).
Qed.

Lemma set_num v : lpSetNumElements lp v = Some ([t0; t1; t2; t3] ++ le_bytes 2 v ++ rest).
Proof.
  unfold lpSetNumElements, lp. rewrite le_bytes_2.
  set (v0 := Z.land v 255). set (v1 := Z.land (Z.shiftr v 8) 255).
  rewrite (mset_split [t0; t1; t2; t3] n0 v0 _ 4 eq_refl : mset (t0 :: t1 :: t2 :: t3 :: n0 :: _) 4 v0 = _).
  cbn [mbind option_bind app].
  by rewrite (mset_split [t0; t1; t2; t3; v0] n1 v1 _ 5 eq_refl :
    mset (t0 :: t1 :: t2 :: t3 :: v0 :: n1 :: _) 5 v1 = _).
Qed.
End Header.

Lemma get_total v rest : 0 <= v < 2 ^ 32 -> lpGetTotalBytes (le_bytes 4 v ++ rest) = Some v.
Proof.
  intros Hv. pose proof (le_bytes_ok 4 v) as Hb. pose proof (le_val_small 4 v Hv) as Hval.
  rewrite le_bytes_4 in *. revert Hb Hval.
  generalize (Z.land v 255) (Z.land (Z.shiftr v 8) 255) (Z.land (Z.shiftr v 16) 255)
    (Z.land (Z.shiftr v 24) 255). intros b0 b1 b2 b3 Hb Hval.
  unfold lpGetTotalBytes. cbn [app]. bufget. rewrite Z.shiftl_0_r.
  change (Z.lor (Z.lor (Z.lor b0 (Z.shiftl b1 8)) (Z.shiftl b2 16)) (Z.shiftl b3 24))
    with (lor_bytes 8 [b1; b2; b3] b0).
  rewrite lor_bytes_le by (inversion Hb; done). by rewrite Hval.
Qed.

Lemma get_num t v rest : zlen t = 4 -> 0 <= v < 2 ^ 16 ->
  lpGetNumElements (t ++ le_bytes 2 v ++ rest) = Some v.
Proof.
  intros Ht Hv. destruct t as [|t0 [|t1 [|t2 [|t3 [|]]]]]; try (exfalso; zlia).
  pose proof (le_bytes_ok 2 v) as Hb. pose proof (le_val_small 2 v Hv) as Hval.
  rewrite le_bytes_2 in *. revert Hb Hval.
  generalize (Z.land v 255) (Z.land (Z.shiftr v 8) 255). intros b0 b1 Hb Hval.
  unfold lpGetNumElements. cbn [app]. bufget. rewrite Z.shiftl_0_r.
  change (Z.lor b0 (Z.shiftl b1 8)) with (lor_bytes 8 [b1] b0).
  rewrite lor_bytes_le by (inversion Hb; done). by rewrite Hval.
Qed.

(** ** A represented listpack, cut at an element *)

Lemma repr_header lp es : lp_repr lp es ->
  lpGetTotalBytes lp = Some (zlen lp) /\ zlen lp = lp_total es /\
  exists num, num_ok num es /\ lpGetNumElements lp = Some num.
Proof.
  intros (Ht & num & Hn & ->). unfold lp_total, UINT32_MAX in *. pose_zlen.
  assert (Hz : zlen (le_bytes 4 (7 + zlen (body es)) ++ le_bytes 2 num ++ body es ++ [LP_EOF])
               = 7 + zlen (body es)) by zlia.
  rewrite Hz, get_total by lia. repeat split. exists num. split; [done|].
  apply get_num; [zlia|]. unfold num_ok, LP_HDR_NUMELE_UNKNOWN in Hn. pose_zlen. lia.
Qed.

(** The listpack around position [i]. *)
Lemma repr_cut lp es (i : nat) : lp_repr lp es -> (i <= length es)%nat ->
  exists hdr, zlen hdr = 6 /\ lp = (hdr ++ body (take i es)) ++ body (drop i es) ++ [LP_EOF] /\
    off es i = zlen (hdr ++ body (take i es)).
Proof.
  intros (Ht & num & Hn & ->) Hi.
  exists (le_bytes 4 (lp_total es) ++ le_bytes 2 num). autorewrite with zlen. split; [done|]. split.
  - rewrite <- !app_assoc. do 2 f_equal. rewrite app_assoc, <- body_app, take_drop. done.
  - unfold off. lia.
Qed.

Lemma body_ele_ok es e : 7 + zlen (body es) <= UINT32_MAX -> e ∈ es -> ele_ok e.
Proof.
  intros Ht (l1 & l2 & ->)%list_elem_of_split. rewrite body_app, body_cons in Ht.
  unfold ele_ok. autorewrite with zlen in Ht. pose_zlen. lia.
Qed.

Lemma repr_elem lp es i e : lp_repr lp es -> es !! i = Some e ->
  ele_ok e /\ exists hdr, zlen hdr = 6 /\ off es i = zlen (hdr ++ body (take i es)) /\
    lp = (hdr ++ body (take i es)) ++ entry e ++ body (drop (S i) es) ++ [LP_EOF] /\
    off es (S i) = zlen (hdr ++ body (take i es)) + zlen (entry e).
Proof.
  intros Hr Hi. assert (Hlt := lookup_lt_Some _ _ _ Hi).
  split; [eapply body_ele_ok; [apply Hr|by eapply list_elem_of_lookup_2]|].
  destruct (repr_cut lp es i Hr) as (hdr & Hh & Hlp & Hoff); [lia|].
  exists hdr. split; [done|]. split; [done|]. split.
  - rewrite Hlp at 1. by rewrite (drop_S _ _ _ Hi), body_cons, <- !app_assoc.
  - unfold off. rewrite (take_S_r _ _ _ Hi), body_app, body_cons. autorewrite with zlen.
    cbn [body fmap list_fmap concat]. autorewrite with zlen. lia.
Qed.

Lemma off_end es : off es (length es) = lp_total es - 1.
Proof. unfold off, lp_total. rewrite firstn_all. lia. Qed.

(** The byte at an element's offset tells the terminator apart. *)
Lemma repr_byte lp es (i : nat) : lp_repr lp es -> (i <= length es)%nat ->
  exists b, mget lp (off es i) = Some b /\ (b =? LP_EOF) = bool_decide (i = length es).
Proof.
  intros Hr Hi. destruct (decide (i = length es)) as [->|Hne].
  - destruct (repr_cut lp es (length es) Hr ltac:(lia)) as (hdr & _ & -> & ->).
    rewrite drop_all. cbn [body fmap list_fmap concat app]. exists LP_EOF.
    rewrite mget_split by done. by rewrite bool_decide_true.
  - destruct (lookup_lt_is_Some_2 es i ltac:(lia)) as [e He].
    destruct (repr_elem lp es i e Hr He) as (Hok & hdr & _ & -> & -> & _).
    destruct (entry_at (hdr ++ body (take i es)) e (body (drop (S i) es) ++ [LP_EOF]) false Hok)
      as (_ & _ & b & -> & Hb).
    exists b. split; [done|]. rewrite bool_decide_false by done. by apply Z.eqb_neq.
Qed.

(** NULL past the end, the offset otherwise. *)
Definition elem_ptr (es : list (list Z)) (i : nat) : option Z :=
  if bool_decide (i = length es) then None else Some (off es i).

Lemma first_spec lp es : lp_repr lp es -> lpFirst lp = Some (elem_ptr es 0).
Proof.
  intros Hr. destruct (repr_byte lp es 0 Hr ltac:(lia)) as (b & Hb & He).
  unfold lpFirst, elem_ptr, LP_HDR_SIZE. change (off es 0) with 6 in *. rewrite Hb. cbn.
  rewrite He. by case_bool_decide.
Qed.

Lemma next_spec lp es i : lp_repr lp es -> (i < length es)%nat ->
  lpNext lp (off es i) = Some (elem_ptr es (S i)).
Proof.
  intros Hr Hi. destruct (lookup_lt_is_Some_2 es i Hi) as [e He].
  destruct (repr_byte lp es (S i) Hr Hi) as (b & Hb & Heof).
  destruct (repr_elem lp es i e Hr He) as (Hok & hdr & _ & Hoff & Hlp & HoffS).
  unfold lpNext. rewrite Hlp at 1. rewrite Hoff, skip_entry by done. cbn [mbind option_bind].
  rewrite <- HoffS, Hb. cbn [mbind option_bind]. rewrite Heof. unfold elem_ptr.
  by case_bool_decide.
Qed.

Lemma prev_spec lp es i : lp_repr lp es -> (i < length es)%nat ->
  lpPrev lp (off es (S i)) = Some (Some (off es i)).
Proof.
  intros Hr Hi. destruct (lookup_lt_is_Some_2 es i Hi) as [e He].
  destruct (repr_elem lp es i e Hr He) as (Hok & hdr & Hh & Hoff & Hlp & HoffS).
  rewrite Hlp, HoffS, Hoff. apply prev_entry; [done|zlia|done].
Qed.

Lemma prev_first lp es : lpPrev lp (off es 0) = Some None.
Proof. done. Qed.

Lemma last_spec lp es : lp_repr lp es ->
  lpLast lp = Some (match length es with O => None | S n => Some (off es n) end).
Proof.
  intros Hr. destruct (repr_header lp es Hr) as (Ht & Hl & _). unfold lpLast. rewrite Ht. cbn.
  rewrite Hl, <- off_end. destruct (length es) as [|n] eqn:E; [done|]. apply prev_spec; [done|lia].
Qed.

Lemma len_le_total es : zlen es <= zlen (body es).
Proof.
  induction es as [|e es IH]; [done|]. rewrite body_cons. autorewrite with zlen.
  assert (1 <= zlen (entry e)).
  { unfold entry. pose proof (zlen_backlen_bytes (zlen (data e))). zlia. }
  lia.
Qed.

(** ** Seeking and counting *)

Lemma seek_forward_spec lp es (fuel i k : nat) :
  lp_repr lp es -> (i + k < length es)%nat -> (k <= fuel)%nat ->
  lpSeek_forward fuel lp (elem_ptr es i) (Z.of_nat k) = Some (Some (off es (i + k))).
Proof.
  intros Hr. revert i k. induction fuel as [|fuel IH]; intros i k Hi Hf;
    cbn [lpSeek_forward]; unfold elem_ptr; rewrite bool_decide_false by lia.
  - zbool. by replace (i + k)%nat with i by lia.
  - destruct k as [|k]; [cbn; by replace (i + 0)%nat with i by lia|]. zbool.
    rewrite (next_spec lp es i) by (done || lia). cbn [mbind option_bind].
    replace (Z.of_nat (S k) - 1) with (Z.of_nat k) by lia. rewrite IH by lia.
    do 3 f_equal. lia.
Qed.

Lemma seek_forward_past lp es (fuel i : nat) k :
  lp_repr lp es -> (i <= length es)%nat -> Z.of_nat (length es - i) <= k -> (length es - i <= fuel)%nat ->
  lpSeek_forward fuel lp (elem_ptr es i) k = Some None.
Proof.
  intros Hr. revert i k. induction fuel as [|fuel IH]; intros i k Hi Hk Hf;
    cbn [lpSeek_forward]; unfold elem_ptr; case_bool_decide; try done; [lia|].
  zbool. rewrite (next_spec lp es i) by (done || lia). cbn [mbind option_bind]. apply IH; lia.
Qed.

Lemma seek_backward_spec lp es (fuel i k : nat) :
  lp_repr lp es -> (i < length es)%nat -> (k <= i)%nat -> (k <= fuel)%nat ->
  lpSeek_backward fuel lp (Some (off es i)) (-1 - Z.of_nat k) = Some (Some (off es (i - k))).
Proof.
  intros Hr. revert i k. induction fuel as [|fuel IH]; intros i k Hi Hk Hf; cbn [lpSeek_backward].
  - zbool. by replace (i - k)%nat with i by lia.
  - destruct k as [|k]; [cbn; by replace (i - 0)%nat with i by lia|]. zbool.
    destruct i as [|i]; [lia|].
    rewrite (prev_spec lp es i) by (done || lia). cbn [mbind option_bind].
    replace (-1 - Z.of_nat (S k) + 1) with (-1 - Z.of_nat k) by lia. rewrite IH by lia.
    do 3 f_equal. 
Qed.

Lemma seek_backward_past lp es (fuel i : nat) k :
  lp_repr lp es -> (i < length es)%nat -> k < -1 - Z.of_nat i -> (i < fuel)%nat ->
  lpSeek_backward fuel lp (Some (off es i)) k = Some None.
Proof.
  intros Hr. revert i k. induction fuel as [|fuel IH]; intros i k Hi Hk Hf; [lia|].
  cbn [lpSeek_backward]. zbool. destruct i as [|i].
  - rewrite (prev_first lp es). cbn. by destruct fuel.
  - rewrite (prev_spec lp es i) by (done || lia). cbn [mbind option_bind]. apply IH; lia.
Qed.

Lemma length_loop_spec lp es (fuel i : nat) count :
  lp_repr lp es -> (i <= length es)%nat -> (length es - i <= fuel)%nat -> 0 <= count ->
  count + Z.of_nat (length es - i) < 2 ^ 32 ->
  lpLength_loop fuel lp (elem_ptr es i) count = Some (count + Z.of_nat (length es - i)).
Proof.
  intros Hr. revert i count. induction fuel as [|fuel IH]; intros i count Hi Hf Hc Hb;
    cbn [lpLength_loop]; unfold elem_ptr; case_bool_decide; try (f_equal; lia).
  rewrite (next_spec lp es i) by (done || lia). cbn [mbind option_bind].
  rewrite uwrap_small, IH by lia. f_equal. lia.
Qed.

Lemma seek_spec lp es index :
  lp_repr lp es -> lpSeek lp index = Some (off es <$> index_of es index).
Proof.
  intros Hr. destruct (repr_header lp es Hr) as (_ & Hl & num & Hn & Hnum).
  pose proof (len_le_total es) as Hle. unfold lp_total in Hl.
  assert (Hfuel : (length es <= length lp)%nat) by (unfold zlen in *; lia).
  unfold lpSeek. rewrite Hnum. cbn [mbind option_bind].
  rewrite (first_spec lp es Hr), (last_spec lp es Hr). cbn [mbind option_bind].
  assert (Hfwd : forall i, 0 <= i -> lpSeek_forward (length lp) lp (elem_ptr es 0) i =
    Some (if i <? zlen es then Some (off es (Z.to_nat i)) else None)).
  { intros i Hi. destruct (i <? zlen es) eqn:E; unfold zlen in *.
    - replace i with (Z.of_nat (Z.to_nat i)) at 1 by lia. rewrite seek_forward_spec by (done || lia). done.
    - apply seek_forward_past; [done|lia|lia|lia]. }
  assert (Hbwd : forall i, i < 0 ->
    lpSeek_backward (length lp) lp (match length es with O => None | S n => Some (off es n) end) i =
    Some (if 0 <=? zlen es + i then Some (off es (Z.to_nat (zlen es + i))) else None)).
  { intros i Hi. unfold zlen in *. destruct (length es) as [|n] eqn:E.
    - replace (0 <=? Z.of_nat 0 + i) with false by (symmetry; apply Z.leb_gt; lia). by destruct (length lp).
    - destruct (0 <=? Z.of_nat (S n) + i) eqn:E2.
      + apply Z.leb_le in E2. replace i with (-1 - Z.of_nat (Z.to_nat (-1 - i))) at 1 by lia.
        rewrite seek_backward_spec by (done || lia).
        by replace (n - Z.to_nat (-1 - i))%nat with (Z.to_nat (Z.of_nat (S n) + i)) by lia.
      + apply Z.leb_gt in E2. apply seek_backward_past; [done|lia|lia|lia]. }
  unfold index_of. pose_zlen. destruct Hn as [->|[-> Hlt]].
  - cbn [negb LP_HDR_NUMELE_UNKNOWN Z.eqb Pos.eqb]. destruct (index <? 0) eqn:E0.
    + rewrite Hbwd by lia. destruct (0 <=? zlen es + index) eqn:E1; cbn [andb]; [|done]. zbool. done.
    + rewrite Hfwd by lia. zbool. destruct (index <? zlen es); done.
  - rewrite (proj2 (Z.eqb_neq (zlen es) LP_HDR_NUMELE_UNKNOWN)) by lia. cbn [negb].
    set (i := if index <? 0 then zlen es + index else index).
    destruct (i <? 0) eqn:E1; [by zbool|]. zbool.
    destruct (i >=? zlen es) eqn:E2; [by zbool|]. zbool.
    destruct (i >? zlen es / 2).
    + rewrite Hbwd by lia. replace (zlen es + (i - zlen es)) with i by lia. by zbool.
    + rewrite Hfwd by lia. by zbool.
Qed.

Lemma lpLength_spec lp es :
  lp_repr lp es -> exists lp', lpLength lp = Some (zlen es, lp') /\ lp_repr lp' es.
Proof.
  intros Hr. destruct (repr_header lp es Hr) as (_ & Hl & num & Hn & Hnum).
  pose proof (len_le_total es) as Hle. unfold lp_total in Hl. unfold lpLength. rewrite Hnum.
  cbn [mbind option_bind]. destruct Hn as [->|[-> Hlt]].
  2:{ rewrite (proj2 (Z.eqb_neq (zlen es) LP_HDR_NUMELE_UNKNOWN)) by lia. cbn [negb]. eauto. }
  cbn [negb LP_HDR_NUMELE_UNKNOWN Z.eqb Pos.eqb]. rewrite (first_spec lp es Hr). cbn [mbind option_bind].
  assert (Ht : lp_total es <= UINT32_MAX) by apply Hr. unfold lp_total, UINT32_MAX in Ht.
  rewrite (length_loop_spec lp es (length lp) 0 0) by (done || unfold zlen in *; lia).
  cbn [mbind option_bind]. replace (0 + Z.of_nat (length es - 0)) with (zlen es) by (unfold zlen; lia).
  destruct (zlen es <? LP_HDR_NUMELE_UNKNOWN) eqn:E; [|by eauto].
  destruct Hr as (Ht' & num & _ & ->). rewrite le_bytes_4, le_bytes_2. cbn [app].
  rewrite set_num. cbn [mbind option_bind]. eexists; split; [done|]. split; [done|].
  exists (zlen es). split; [right; split; [done|unfold LP_HDR_NUMELE_UNKNOWN in *; lia]|].
  by rewrite le_bytes_4.
Qed.

(** ** Insertion, replacement and deletion *)

(** Grow if needed, move the tail [P], shrink if needed: the gap between [A] and
    [P] goes from the bytes [R] to [n] bytes. *)
Lemma gap_spec (junk : nat -> Z) (A R P : list Z) n : 0 <= n ->
  let new := zlen A + n + zlen P in
  let old := zlen A + zlen R + zlen P in
  exists B lp2, zlen B = n /\
    mmove (if new >? old then zrealloc junk (A ++ R ++ P) new else A ++ R ++ P)
      (zlen A + n) (zlen A + zlen R) (zlen P) = Some lp2 /\
    (if new <? old then zrealloc junk lp2 new else lp2) = A ++ B ++ P.
Proof.
  intros Hn new old. pose_zlen.
  set (m := if new >? old then _ else _).
  assert (Hm : exists j, m = A ++ R ++ P ++ j /\ zlen j = Z.max 0 (new - old)).
  { subst m. destruct (new >? old) eqn:E.
    - destruct (zrealloc_grow junk (A ++ R ++ P) new) as (j & -> & Hj); [subst new old; zlia|].
      exists j. rewrite <- !app_assoc. split; [done|]. subst new old. zlia.
    - exists []. rewrite app_nil_r. split; [done|]. rewrite zlen_nil. lia. }
  clearbody m. destruct Hm as (j & -> & Hj).
  unfold mmove. rewrite (app_assoc A R). erewrite mread_split by (rewrite ?zlen_app; lia).
  cbn [mbind option_bind]. rewrite <- app_assoc.
  destruct (zlen_cut (R ++ P ++ j) n) as (B & W & HW & HB); [subst new old; zlia|].
  assert (HWl : zlen W = zlen R + zlen P + zlen j - n).
  { apply (f_equal zlen) in HW. autorewrite with zlen in HW. lia. }
  destruct (zlen_cut W (zlen P)) as (Y & Z0 & -> & HY); [lia|]. rewrite HW.
  replace (A ++ B ++ Y ++ Z0) with ((A ++ B) ++ Y ++ Z0) by (by rewrite <- app_assoc).
  erewrite mwrite_split by (rewrite ?zlen_app; lia).
  exists B. eexists. split; [done|]. split; [done|]. rewrite zlen_app in HWl.
  destruct (new <? old) eqn:E.
  - replace new with (zlen ((A ++ B) ++ P)) by (subst new; autorewrite with zlen; lia).
    rewrite (app_assoc (A ++ B)), zrealloc_shrink. by rewrite <- app_assoc.
  - assert (Z0 = []) as -> by (destruct Z0; [done|]; subst new old; zlia).
    by rewrite app_nil_r, <- app_assoc.
Qed.

Lemma encode_get_type e : exists t ie,
  lpEncodeGetType e (zlen e) = Some (t, ie, zlen (data e)) /\
  (match t with LP_ENCODING_INT => ie | LP_ENCODING_STRING => lpEncodeString e (zlen e) end) = data e.
Proof.
  unfold lpEncodeGetType. rewrite lpStringToInt64_eq.
  destruct (data_cases e) as [(v & -> & _ & _ & ->)|[-> ->]]; cbn [mbind option_bind].
  - by exists LP_ENCODING_INT, (lpEncodeInteger v).
  - exists LP_ENCODING_STRING, []. split; [|done]. rewrite zlen_encode_string. unfold str_hdr.
    destruct (zlen e <? 64); [done|]. by destruct (zlen e <? 4096).
Qed.

(** Storing the entry in a gap of its size. *)
Lemma store_entry A B P e t ie :
  zlen B = zlen (entry e) ->
  (match t with LP_ENCODING_INT => ie | LP_ENCODING_STRING => lpEncodeString e (zlen e) end) = data e ->
  (lp ← (match t with
         | LP_ENCODING_INT => mwrite (A ++ B ++ P) (zlen A) ie
         | LP_ENCODING_STRING => mwrite (A ++ B ++ P) (zlen A) (lpEncodeString e (zlen e))
         end);
   mwrite lp (zlen A + zlen (data e)) (lpEncodeBacklen (zlen (data e)))) = Some (A ++ entry e ++ P).
Proof.
  intros HB Ht. unfold entry in *. rewrite zlen_app in HB.
  destruct (zlen_cut B (zlen (data e))) as (B1 & B2 & -> & HB1); [pose_zlen; lia|].
  rewrite zlen_app in HB. rewrite <- app_assoc.
  assert (Hw : mwrite (A ++ B1 ++ B2 ++ P) (zlen A) (data e) = Some (A ++ data e ++ B2 ++ P))
    by (apply mwrite_split; lia).
  destruct t; rewrite Ht, Hw; cbn [mbind option_bind]; rewrite app_assoc;
    (erewrite mwrite_split by (rewrite ?zlen_app; lia)); by rewrite <- !app_assoc.
Qed.

(** The header update at the end of [lpInsert], whatever follows it. *)
Lemma finish_header {B} (t : list Z) num es es' rest (upd : Z -> Z) v (K : list Z -> option B) :
  zlen t = 4 -> num_ok num es ->
  (num <> LP_HDR_NUMELE_UNKNOWN -> num_ok (upd num) es') ->
  lp_total es' <= UINT32_MAX -> v = lp_total es' -> rest = body es' ++ [LP_EOF] ->
  exists lp',
    (lp ← (num_elements ← lpGetNumElements (t ++ le_bytes 2 num ++ rest);
           if negb (num_elements =? LP_HDR_NUMELE_UNKNOWN)
           then lpSetNumElements (t ++ le_bytes 2 num ++ rest) (upd num_elements)
           else Some (t ++ le_bytes 2 num ++ rest));
     lp ← lpSetTotalBytes lp v; K lp) = K lp' /\ lp_repr lp' es'.
Proof.
  intros Ht Hn Hupd Htot -> ->. rewrite get_num; [|done|].
  2:{ unfold num_ok, LP_HDR_NUMELE_UNKNOWN in Hn. pose_zlen. lia. }
  cbn [mbind option_bind]. destruct t as [|t0 [|t1 [|t2 [|t3 [|]]]]]; try (exfalso; zlia).
  rewrite le_bytes_2. cbn [app]. destruct (num =? LP_HDR_NUMELE_UNKNOWN) eqn:E; cbn [negb mbind option_bind].
  - rewrite set_total. cbn [mbind option_bind]. eexists; split; [done|]. split; [done|]. exists num.
    split; [left; lia|]. by rewrite le_bytes_2.
  - rewrite set_num, le_bytes_2. cbn [app mbind option_bind]. rewrite set_total. cbn [mbind option_bind].
    eexists; split; [done|]. split; [done|]. exists (upd num). split; [apply Hupd; lia|].
    by rewrite le_bytes_2.
Qed.

(** A replacement leaves the count alone. *)
Lemma finish_total {B} (t : list Z) num es' rest v (K : list Z -> option B) :
  zlen t = 4 -> num_ok num es' ->
  lp_total es' <= UINT32_MAX -> v = lp_total es' -> rest = body es' ++ [LP_EOF] ->
  exists lp',
    (lp ← lpSetTotalBytes (t ++ le_bytes 2 num ++ rest) v; K lp) = K lp' /\ lp_repr lp' es'.
Proof.
  intros Ht Hn Htot -> ->. destruct t as [|t0 [|t1 [|t2 [|t3 [|]]]]]; try (exfalso; zlia).
  rewrite le_bytes_2. cbn [app]. rewrite set_total. cbn [mbind option_bind].
  eexists; split; [done|]. split; [done|]. exists num. by rewrite le_bytes_2.
Qed.

Lemma body_total a b : lp_total (a ++ b) = 7 + zlen (body a) + zlen (body b).
Proof. unfold lp_total. rewrite body_app, zlen_app. lia. Qed.

(** The parts of a represented listpack around the bytes [R] of some elements. *)
Lemma repr_parts lp es (i j : nat) : lp_repr lp es -> (i <= j <= length es)%nat ->
  exists t num A, zlen t = 4 /\ num_ok num es /\
    A = t ++ le_bytes 2 num ++ body (take i es) /\
    lp = A ++ body (take (j - i) (drop i es)) ++ body (drop j es) ++ [LP_EOF] /\
    off es i = zlen A.
Proof.
  intros (Ht & num & Hn & ->) Hij. exists (le_bytes 4 (lp_total es)), num, (le_bytes 4 (lp_total es) ++ le_bytes 2 num ++ body (take i es)).
  split; [zlia|]. split; [done|]. split; [done|]. split.
  - rewrite <- !app_assoc. do 2 f_equal. rewrite !app_assoc, <- !body_app. do 2 f_equal.
    rewrite <- app_assoc. replace (drop j es) with (drop (j - i) (drop i es)).
    + by rewrite !take_drop.
    + rewrite drop_drop. f_equal. lia.
  - unfold off. zlia.
Qed.

Lemma total_parts es (i j : nat) m : (i <= j <= length es)%nat ->
  lp_total (take i es ++ m ++ drop j es) + zlen (body (take (j - i) (drop i es))) = lp_total es + zlen (body m).
Proof.
  intros Hij. unfold lp_total. rewrite !body_app.
  assert (Hes : es = take i es ++ take (j - i) (drop i es) ++ drop j es).
  { replace (drop j es) with (drop (j - i) (drop i es)); [by rewrite !take_drop|].
    rewrite drop_drop. f_equal. lia. }
  apply (f_equal (fun l => zlen (body l))) in Hes. rewrite !body_app in Hes.
  autorewrite with zlen in *. lia.
Qed.

(** The common part of every modification that stores the element [e]: the
    bytes [R] at [A] become the entry of [e]. *)
Lemma store_in_gap junk A R P e t ie :
  (match t with LP_ENCODING_INT => ie | LP_ENCODING_STRING => lpEncodeString e (zlen e) end) = data e ->
  let new := zlen A + zlen (entry e) + zlen P in
  let old := zlen A + zlen R + zlen P in
  exists lp2,
    mmove (if new >? old then zrealloc junk (A ++ R ++ P) new else A ++ R ++ P)
      (zlen A + zlen (entry e)) (zlen A + zlen R) (zlen P) = Some lp2 /\
    (lp3 ← (match t with
            | LP_ENCODING_INT => mwrite (if new <? old then zrealloc junk lp2 new else lp2) (zlen A) ie
            | LP_ENCODING_STRING =>
                mwrite (if new <? old then zrealloc junk lp2 new else lp2) (zlen A) (lpEncodeString e (zlen e))
            end);
     mwrite lp3 (zlen A + zlen (data e)) (lpEncodeBacklen (zlen (data e)))) = Some (A ++ entry e ++ P).
Proof.
  intros Hd new old. destruct (gap_spec junk A R P (zlen (entry e)) (zlen_nonneg _))
    as (B & lp2 & HB & Hmv & Hlp). fold new old in Hmv, Hlp.
  exists lp2. split; [done|]. rewrite Hlp. by apply store_entry.
Qed.

Lemma zlen_entry_bound e : zlen e < 2 ^ 32 -> 1 <= zlen (entry e) < 2 ^ 33.
Proof.
  intros He. unfold entry. rewrite zlen_app. pose proof (zlen_backlen_bytes (zlen (data e))).
  set (x := zlen (lpEncodeBacklen _)) in *. clearbody x.
  destruct (data_cases e) as [(v & _ & _ & _ & ->)|[_ ->]].
  - pose proof (zlen_encode_integer v). lia.
  - rewrite zlen_encode_string. unfold str_hdr. pose_zlen. repeat case_match; lia.
Qed.

Lemma zlen_entry e : zlen (data e) + zlen (lpEncodeBacklen (zlen (data e))) = zlen (entry e).
Proof. unfold entry. by rewrite zlen_app. Qed.

Lemma num_add num es es' :
  num_ok num es -> zlen es' = zlen es + 1 -> num <> LP_HDR_NUMELE_UNKNOWN -> num_ok (num + 1) es'.
Proof. unfold num_ok, LP_HDR_NUMELE_UNKNOWN. lia. Qed.

(** What [lpInsert] computes when it stores an element over the bytes [R]: the
    three modes differ in [R] and in the count. *)
Lemma insert_before junk lp es i e :
  lp_repr lp es -> (i <= length es)%nat -> zlen e < 2 ^ 32 ->
  let es' := take i es ++ [e] ++ drop i es in
  if lp_total es' >? UINT32_MAX then
    lpInsert junk lp (Some e) (zlen e) (off es i) LP_BEFORE = Some None
  else exists lp', lpInsert junk lp (Some e) (zlen e) (off es i) LP_BEFORE = Some (Some (lp', Some (off es i)))
    /\ lp_repr lp' es'.
Proof.
  intros Hr Hi Hze es'. destruct (repr_header lp es Hr) as (Ht & Hl & _).
  pose proof (total_parts es i i [e] ltac:(lia)) as Htp. fold es' in Htp.
  rewrite Nat.sub_diag, take_0, body_nil, body_one, zlen_nil in Htp.
  pose proof (zlen_entry_bound e Hze) as Hsz. pose proof (zlen_entry e) as Hde.
  assert (Htot : lp_total es <= UINT32_MAX) by apply Hr.
  destruct (repr_parts lp es i i Hr ltac:(lia)) as (t & num & A & Ht4 & Hn & HA & Hlp & ->).
  rewrite Nat.sub_diag, take_0, body_nil in Hlp. cbn [app] in Hlp.
  set (P := body (drop i es) ++ [LP_EOF]) in Hlp. destruct (encode_get_type e) as (ty & ie & Hty & Hd).
  assert (HlA : lp_total es = zlen A + zlen P) by (rewrite <- Hl, Hlp; zlia).
  unfold lpInsert. cbn [is_replace negb mbind option_bind]. rewrite Hty. cbn [mbind option_bind].
  rewrite Ht. cbn [mbind option_bind]. rewrite Hl, Z.sub_0_r, <- Z.add_assoc, Hde.
  unfold UINT32_MAX in *. pose_zlen. rewrite uwrap_small by lia.
  replace (lp_total es + zlen (entry e)) with (lp_total es') by lia.
  destruct (lp_total es' >? 2 ^ 32 - 1) eqn:E; [done|].
  destruct (store_in_gap junk A [] P e ty ie Hd) as (lp2 & Hmv & Hst).
  rewrite zlen_nil, Z.add_0_r in Hmv, Hst. replace (zlen A + zlen (entry e) + zlen P) with (lp_total es') in Hmv, Hst by lia.
  rewrite <- HlA in Hmv, Hst. cbn [app] in Hlp, Hmv. rewrite <- Hlp in Hmv.
  rewrite <- Z.add_assoc, Hde. replace (lp_total es - zlen A) with (zlen P) by lia.
  cbn zeta. rewrite Hmv. cbn [mbind option_bind].
  cbn zeta in Hst. rewrite Hst. cbn [mbind option_bind orb].
  rewrite HA, <- !app_assoc.
  apply (finish_header t num es es' _ (fun n => n + 1) _ (fun lp3 => Some (Some (lp3, Some (zlen _))))); auto.
  - intros. eapply num_add; eauto. unfold es'. rewrite <- (take_drop i es) at 3. zlia.
  - unfold UINT32_MAX. lia.
  - unfold es', P. by rewrite !body_app, body_one, <- !app_assoc.
Qed.

Lemma insert_after junk lp es i e0 e :
  lp_repr lp es -> es !! i = Some e0 ->
  lpInsert junk lp (Some e) (zlen e) (off es i) LP_AFTER
  = lpInsert junk lp (Some e) (zlen e) (off es (S i)) LP_BEFORE.
Proof.
  intros Hr Hi. destruct (repr_elem lp es i e0 Hr Hi) as (Hok & hdr & _ & Hoff & Hlp & HoffS).
  assert (Hs : lpSkip lp (off es i) = Some (off es (S i))).
  { rewrite Hlp, Hoff, HoffS. by apply skip_entry. }
  unfold lpInsert. rewrite Hs. done.
Qed.

(** The number of bytes a replacement or a deletion gives up. *)
Lemma replaced_spec lp es i e0 :
  lp_repr lp es -> es !! i = Some e0 ->
  lpCurrentEncodedSize lp (off es i) = Some (zlen (data e0)) /\
  u32 (zlen (data e0) + zlen (lpEncodeBacklen (zlen (data e0)))) = zlen (entry e0) /\
  take 1 (drop i es) = [e0].
Proof.
  intros Hr Hi. destruct (repr_elem lp es i e0 Hr Hi) as (Hok & hdr & _ & Hoff & Hlp & _).
  split; [rewrite Hlp, Hoff; apply (entry_at _ _ _ false Hok)|]. split.
  - destruct (data_len e0 Hok). pose_zlen. rewrite uwrap_small by lia. apply zlen_entry.
  - by rewrite (drop_S _ _ _ Hi).
Qed.

Lemma num_same num es es' : num_ok num es -> zlen es' = zlen es -> num_ok num es'.
Proof. unfold num_ok. lia. Qed.

Lemma num_sub num es es' :
  num_ok num es -> zlen es = zlen es' + 1 -> num <> LP_HDR_NUMELE_UNKNOWN -> num_ok (u32 (num - 1)) es'.
Proof.
  unfold num_ok, LP_HDR_NUMELE_UNKNOWN. intros. pose_zlen. rewrite uwrap_small; lia.
Qed.

Lemma insert_replace junk lp es i e0 e :
  lp_repr lp es -> es !! i = Some e0 -> zlen e < 2 ^ 32 ->
  let es' := take i es ++ [e] ++ drop (S i) es in
  if lp_total es' >? UINT32_MAX then
    lpInsert junk lp (Some e) (zlen e) (off es i) LP_REPLACE = Some None
  else exists lp', lpInsert junk lp (Some e) (zlen e) (off es i) LP_REPLACE = Some (Some (lp', Some (off es i)))
    /\ lp_repr lp' es'.
Proof.
  intros Hr Hi Hze es'. pose proof (lookup_lt_Some _ _ _ Hi) as Hlt.
  destruct (repr_header lp es Hr) as (Ht & Hl & _).
  destruct (replaced_spec lp es i e0 Hr Hi) as (Hcur & Hrep & Htk).
  pose proof (total_parts es i (S i) [e] ltac:(lia)) as Htp. fold es' in Htp.
  replace (S i - i)%nat with 1%nat in Htp by lia. rewrite Htk, !body_one in Htp.
  pose proof (zlen_entry_bound e Hze) as Hsz. pose proof (zlen_entry e) as Hde.
  assert (Htot : lp_total es <= UINT32_MAX) by apply Hr.
  destruct (repr_parts lp es i (S i) Hr ltac:(lia)) as (t & num & A & Ht4 & Hn & HA & Hlp & Hoff).
  replace (S i - i)%nat with 1%nat in Hlp by lia. rewrite Htk, body_one in Hlp.
  rewrite Hoff in *. set (P := body (drop (S i) es) ++ [LP_EOF]) in Hlp.
  destruct (encode_get_type e) as (ty & ie & Hty & Hd).
  assert (HlA : lp_total es = zlen A + zlen (entry e0) + zlen P) by (rewrite <- Hl, Hlp; zlia).
  unfold lpInsert. cbn [is_replace negb mbind option_bind]. rewrite Hty. cbn [mbind option_bind].
  rewrite Ht. cbn [mbind option_bind]. rewrite Hcur. cbn [mbind option_bind]. rewrite Hrep, Hl, <- Z.add_assoc, Hde.
  unfold UINT32_MAX in *. pose_zlen. rewrite uwrap_small by lia.
  replace (lp_total es + zlen (entry e) - zlen (entry e0)) with (lp_total es') by lia.
  destruct (lp_total es' >? 2 ^ 32 - 1) eqn:E; [done|].
  destruct (store_in_gap junk A (entry e0) P e ty ie Hd) as (lp2 & Hmv & Hst).
  replace (zlen A + zlen (entry e) + zlen P) with (lp_total es') in Hmv, Hst by lia.
  rewrite <- HlA in Hmv, Hst. rewrite <- Hlp in Hmv.
  cbn zeta. replace (zlen A + zlen (entry e0) + (zlen (entry e) - zlen (entry e0)))
    with (zlen A + zlen (entry e)) by lia.
  replace (lp_total es - zlen A - zlen (entry e0)) with (zlen P) by lia.
  rewrite Hmv. cbn [mbind option_bind]. rewrite <- ?Z.add_assoc, ?Hde. cbn zeta in Hst. rewrite Hst. cbn [mbind option_bind orb].
  rewrite HA, <- !app_assoc.
  apply (finish_total t num es' _ _ (fun lp3 => Some (Some (lp3, Some (zlen _))))); auto.
  - eapply num_same; eauto. unfold es'. rewrite <- (take_drop_middle es i e0 Hi) at 3. zlia.
  - unfold UINT32_MAX. lia.
  - unfold es', P. by rewrite !body_app, body_one, <- !app_assoc.
Qed.

(** A deletion returns the element that took the place, NULL at the end. *)
Lemma delete_elem junk lp es i e0 :
  lp_repr lp es -> es !! i = Some e0 ->
  let es' := take i es ++ drop (S i) es in
  exists lp', lpDelete junk lp (off es i) = Some (Some (lp', elem_ptr es' i)) /\ lp_repr lp' es'.
Proof.
  intros Hr Hi es'. pose proof (lookup_lt_Some _ _ _ Hi) as Hlt.
  destruct (repr_header lp es Hr) as (Ht & Hl & _).
  destruct (replaced_spec lp es i e0 Hr Hi) as (Hcur & Hrep & Htk).
  pose proof (total_parts es i (S i) [] ltac:(lia)) as Htp. cbn [app] in Htp. fold es' in Htp.
  replace (S i - i)%nat with 1%nat in Htp by lia. rewrite Htk, body_one, body_nil, zlen_nil in Htp.
  assert (Htot : lp_total es <= UINT32_MAX) by apply Hr.
  destruct (repr_parts lp es i (S i) Hr ltac:(lia)) as (t & num & A & Ht4 & Hn & HA & Hlp & Hoff).
  replace (S i - i)%nat with 1%nat in Hlp by lia. rewrite Htk, body_one in Hlp.
  assert (Hlen : zlen es = zlen es' + 1).
  { unfold es'. rewrite <- (take_drop_middle es i e0 Hi) at 1. zlia. }
  set (P := body (drop (S i) es) ++ [LP_EOF]) in Hlp.
  assert (HlA : lp_total es = zlen A + zlen (entry e0) + zlen P) by (rewrite <- Hl, Hlp; zlia).
  assert (HeqA : (if (lp_total es' >? lp_total es) then zrealloc junk lp (lp_total es') else lp) = lp).
  { pose_zlen. by rewrite gtb_false by lia. }
  assert (Hoff' : off es' i = zlen A).
  { rewrite <- Hoff. unfold off, es'. rewrite take_app_le by (rewrite length_take; lia).
    by rewrite take_take, Nat.min_id. }
  unfold lpDelete, lpInsert. cbn [is_replace negb mbind option_bind]. rewrite Ht.
  cbn [mbind option_bind]. rewrite Hcur. cbn [mbind option_bind]. rewrite Hrep, Hl.
  change (zlen (@nil Z)) with 0. cbn zeta.
  unfold UINT32_MAX in *. pose_zlen.
  assert (Hpos : 0 <= lp_total es') by (unfold lp_total; pose_zlen; lia).
  assert (Hnew : u64 (lp_total es + 0 + 0 - zlen (entry e0)) = lp_total es') by (rewrite uwrap_small; lia).
  rewrite Hnew, gtb_false by lia.
  destruct (gap_spec junk A (entry e0) P 0 ltac:(lia)) as (B & lp2 & HB & Hmv & Hlp2).
  assert (B = []) as -> by (destruct B; [done|zlia]). rewrite Z.add_0_r in Hmv, Hlp2.
  replace (zlen A + zlen P) with (lp_total es') in Hmv, Hlp2 by lia. rewrite <- HlA in Hmv, Hlp2.
  rewrite <- Hlp in Hmv. rewrite Hoff in *. cbn zeta.
  replace (zlen A + zlen (entry e0) + (0 + 0 - zlen (entry e0))) with (zlen A) by lia.
  replace (lp_total es - zlen A - zlen (entry e0)) with (zlen P) by lia.
  rewrite Hmv. cbn [mbind option_bind]. rewrite Hlp2. cbn [app].
  assert (Htot' : lp_total es' <= UINT32_MAX) by (unfold UINT32_MAX; lia).
  assert (Hshape : A ++ P = t ++ le_bytes 2 num ++ body es' ++ [LP_EOF]).
  { rewrite HA. unfold P, es'. by rewrite !body_app, <- !app_assoc. }
  destruct (finish_header t num es es' _ (fun n => u32 (n - 1)) _
    (fun lp3 => Some (Some (lp3, elem_ptr es' i))) Ht4 Hn
    ltac:(intros; eapply num_sub; eauto) Htot' eq_refl eq_refl) as (lp' & Hfin & Hr').
  destruct (mget (A ++ P) (zlen A)) as [b|] eqn:Eb; [|exfalso].
  - cbn [mbind option_bind orb]. assert (Hptr : (if b =? LP_EOF then None else Some (zlen A)) = elem_ptr es' i).
    { unfold elem_ptr. rewrite Hoff'. unfold P in Eb.
      destruct (decide (S i = length es)) as [Hend|Hend].
      - rewrite Hend, drop_all, body_nil in Eb. cbn [app] in Eb. rewrite mget_split in Eb by done.
        injection Eb as <-. rewrite bool_decide_true by (unfold zlen in Hlen; lia). done.
      - destruct (lookup_lt_is_Some_2 es (S i) ltac:(lia)) as [e1 He1].
        destruct (repr_elem lp es (S i) e1 Hr He1) as (Hok1 & _).
        rewrite (drop_S _ _ _ He1), body_cons, <- app_assoc in Eb.
        destruct (entry_at A e1 (body (drop (S (S i)) es) ++ [LP_EOF]) false Hok1) as (_ & _ & b' & Hb' & Hne).
        rewrite Hb' in Eb. injection Eb as <-. rewrite bool_decide_false by (unfold zlen in Hlen; lia).
        by rewrite (proj2 (Z.eqb_neq _ _) Hne). }
    rewrite Hptr, Hshape. exists lp'. by rewrite Hfin.
  - unfold P in Eb. destruct (mget_is_Some (A ++ body (drop (S i) es) ++ [LP_EOF]) (zlen A)) as [x Hx]; [zlia|].
    by rewrite Hx in Eb.
Qed.

(** ** The contract *)

(** The sequence after an insertion relative to element [i], and where the new
    element is. *)
Definition lp_insert_spec (w : lpwhere) (es : list (list Z)) (i : nat) (e : list Z) : list (list Z) :=
  match w with
  | LP_BEFORE => take i es ++ [e] ++ drop i es
  | LP_AFTER => take (S i) es ++ [e] ++ drop (S i) es
  | LP_REPLACE => take i es ++ [e] ++ drop (S i) es
  end.

Definition lp_insert_pos (w : lpwhere) (i : nat) : nat := match w with LP_AFTER => S i | _ => i end.

(** The bytes that an answer of [lpGet] denotes. *)
Definition lpres_bytes (lp : list Z) (r : lpres) : option (list Z) :=
  match r with
  | LpInt v => Some (dec v)
  | LpPtr o n => mread lp o n
  | LpBuf s => Some s
  end.

Lemma string_cut s : exists h, lpEncodeString s (zlen s) = h ++ s /\ zlen h = str_hdr (zlen s).
Proof.
  exists (take (Z.to_nat (str_hdr (zlen s))) (lpEncodeString s (zlen s))). split.
  - pose proof (take_drop (Z.to_nat (str_hdr (zlen s))) (lpEncodeString s (zlen s))) as H.
    by rewrite drop_hdr in H.
  - pose proof (zlen_encode_string s). unfold zlen in *. rewrite length_take.
    unfold str_hdr in *. repeat case_match; lia.
Qed.

Lemma get_spec lp es i e ib : lp_repr lp es -> es !! i = Some e ->
  exists r, lpGet lp (off es i) ib = Some r /\ lpres_bytes lp r = Some e.
Proof.
  intros Hr Hi. destruct (repr_elem lp es i e Hr Hi) as (Hok & hdr & _ & Hoff & Hlp & _).
  exists (got ib (off es i) e).
  destruct (entry_at (hdr ++ body (take i es)) e (body (drop (S i) es) ++ [LP_EOF]) ib Hok) as (_ & Hg & _).
  split; [rewrite Hlp, Hoff; exact Hg|].
  unfold got. destruct (data_cases e) as [(v & Hv & _ & He & _)|[Hn Hd]].
  - rewrite Hv. unfold got_int. destruct ib; cbn; by rewrite He.
  - rewrite Hn. cbn. destruct (string_cut e) as (h & Hs & Hh).
    rewrite Hlp, Hoff. unfold entry. rewrite Hd, Hs, <- Hh, <- !app_assoc.
    pose proof (mread_split (hdr ++ body (take i es) ++ h) e (lpEncodeBacklen (zlen (h ++ e)) ++
      body (drop (S i) es) ++ [LP_EOF]) _ _ eq_refl eq_refl) as Hm.
    rewrite <- Hm. f_equal; [by rewrite <- !app_assoc|zlia].
Qed.

Lemma new_spec junk : exists lp, lpNew junk = Some lp /\ lp_repr lp [].
Proof.
  exists (le_bytes 4 7 ++ le_bytes 2 0 ++ [LP_EOF]). split.
  - unfold lpNew. destruct (zrealloc_grow junk [] (LP_HDR_SIZE + 1)) as (j & -> & Hj); [done|].
    unfold LP_HDR_SIZE in *. cbn [app]. rewrite zlen_nil in Hj.
    destruct j as [|? [|? [|? [|? [|? [|? [|? [|]]]]]]]]; try (exfalso; zlia).
    rewrite set_total, le_bytes_4. cbn [mbind option_bind app]. rewrite set_num, le_bytes_2.
    cbn [mbind option_bind app]. reflexivity.
  - split; [done|]. exists 0. split; [by right|done].
Qed.

(** [lpNew] gives the empty sequence and [lpAppend] adds its element at the end; it
    answers NULL, and only then, when the result would not fit 32 bits. *)
Theorem lpAppend_refines (junk : nat -> Z) (lp : list Z) (es : list (list Z)) (e : list Z)
    (Hr : lp_repr lp es) (He : zlen e < 2 ^ 32) :
  (exists lp0, lpNew junk = Some lp0 /\ lp_repr lp0 []) /\
  if lp_total (es ++ [e]) >? UINT32_MAX then lpAppend junk lp e (zlen e) = Some None
  else exists lp', lpAppend junk lp e (zlen e) = Some (Some (lp', Some (off es (length es))))
    /\ lp_repr lp' (es ++ [e]).
Proof.
  split; [apply new_spec|]. destruct (repr_header lp es Hr) as (Ht & Hl & _).
  unfold lpAppend. rewrite Ht. cbn [mbind option_bind]. rewrite Hl, <- off_end.
  pose proof (insert_before junk lp es (length es) e Hr ltac:(lia) He) as H. cbn zeta in H.
  by rewrite firstn_all, drop_all, app_nil_r in H.
Qed.

(** [C31] [lpInsert] before, after or over an element gives exactly the listpack of the
    changed sequence, with [*newp] at the new element, whatever encodings the old
    and the new element have; it answers NULL exactly when the size would not fit
    the 32 bits of the header. *)
Theorem lpInsert_refines (junk : nat -> Z) (lp : list Z) (es : list (list Z)) (i : nat) (e : list Z)
    (w : lpwhere) (Hr : lp_repr lp es) (Hi : (i < length es)%nat) (He : zlen e < 2 ^ 32) :
  let es' := lp_insert_spec w es i e in
  if lp_total es' >? UINT32_MAX then lpInsert junk lp (Some e) (zlen e) (off es i) w = Some None
  else exists lp', lpInsert junk lp (Some e) (zlen e) (off es i) w
      = Some (Some (lp', Some (off es' (lp_insert_pos w i)))) /\
    lp_repr lp' es' /\ es' !! lp_insert_pos w i = Some e.
Proof.
  destruct (lookup_lt_is_Some_2 es i Hi) as [e0 Hi0].
  assert (Hpos : forall j r, (j <= length es)%nat -> off (take j es ++ [e] ++ r) j = off es j /\
    (take j es ++ [e] ++ r) !! j = Some e).
  { intros j r Hj. assert (Hjl : length (take j es) = j) by (rewrite length_take; lia). split.
    - unfold off. by rewrite take_app_le, take_take, Nat.min_id by lia.
    - rewrite lookup_app_r by lia. by rewrite Hjl, Nat.sub_diag. }
  destruct w; cbn [lp_insert_spec lp_insert_pos].
  - destruct (Hpos i (drop i es) ltac:(lia)) as [-> ->].
    pose proof (insert_before junk lp es i e Hr ltac:(lia) He) as H. cbn zeta in *.
    destruct (_ >? _); [done|]. destruct H as (lp' & ? & ?). eauto.
  - destruct (Hpos (S i) (drop (S i) es) ltac:(lia)) as [-> ->].
    rewrite (insert_after junk lp es i e0 e Hr Hi0).
    pose proof (insert_before junk lp es (S i) e Hr ltac:(lia) He) as H. cbn zeta in *.
    destruct (_ >? _); [done|]. destruct H as (lp' & ? & ?). eauto.
  - destruct (Hpos i (drop (S i) es) ltac:(lia)) as [-> ->].
    pose proof (insert_replace junk lp es i e0 e Hr Hi0 He) as H. cbn zeta in *.
    destruct (_ >? _); [done|]. destruct H as (lp' & ? & ?). eauto.
Qed.

(** [lpDelete] gives the listpack without the element; [*newp] is the element that
    followed, NULL when it was the last. *)
Theorem lpDelete_refines (junk : nat -> Z) (lp : list Z) (es : list (list Z)) (i : nat)
    (Hr : lp_repr lp es) (Hi : (i < length es)%nat) :
  let es' := take i es ++ drop (S i) es in
  exists lp', lpDelete junk lp (off es i) = Some (Some (lp', elem_ptr es' i)) /\ lp_repr lp' es'.
Proof. destruct (lookup_lt_is_Some_2 es i Hi) as [e0 Hi0]. by eapply delete_elem. Qed.

(** [lpSeek] finds the element at an index from either end, NULL out of range,
    and [lpGet] there gives back the bytes that were stored, with or without the
    integer buffer. *)
Theorem lpSeek_get (lp : list Z) (es : list (list Z)) (index : Z) (ib : bool) (Hr : lp_repr lp es) :
  match index_of es index with
  | None => lpSeek lp index = Some None
  | Some i => exists p e r, lpSeek lp index = Some (Some p) /\ es !! i = Some e /\
      lpGet lp p ib = Some r /\ lpres_bytes lp r = Some e
  end.
Proof.
  rewrite (seek_spec lp es index Hr). destruct (index_of es index) as [i|] eqn:E; [|done]. cbn.
  assert (Hi : (i < length es)%nat).
  { revert E. unfold index_of, zlen. pose_zlen. repeat case_match; intros; simplify_eq; lia. }
  destruct (lookup_lt_is_Some_2 es i Hi) as [e He].
  destruct (get_spec lp es i e ib Hr He) as (r & ? & ?). eauto 10.
Qed.

(** The iterators visit exactly the elements, forwards and backwards, and end with
    NULL; [lpLength] and [lpBytes] answer the number of elements and bytes even
    when the header does not count them. *)
Theorem lp_iteration (lp : list Z) (es : list (list Z)) (Hr : lp_repr lp es) :
  lpFirst lp = Some (elem_ptr es 0) /\
  (forall i, (i < length es)%nat -> lpNext lp (off es i) = Some (elem_ptr es (S i))) /\
  (forall i, (i < length es)%nat ->
     lpPrev lp (off es i) = Some (match i with O => None | S j => Some (off es j) end)) /\
  lpLast lp = Some (match length es with O => None | S n => Some (off es n) end) /\
  (exists lp', lpLength lp = Some (zlen es, lp') /\ lp_repr lp' es) /\
  lpBytes lp = Some (zlen lp).
Proof.
  split; [by apply first_spec|]. split; [by intros; apply next_spec|]. split.
  { intros [|i] Hi; [done|]. apply prev_spec; [done|lia]. }
  split; [by apply last_spec|]. split; [by apply lpLength_spec|].
  apply (repr_header lp es Hr).
Qed.

(** ** A concrete listpack *)

Definition ex_es : list (list Z) := [bytes_of "ab"; bytes_of "-129"; bytes_of "007"].
Definition ex_lp : list Z :=
  [19; 0; 0; 0; 3; 0; 130; 97; 98; 3; 223; 127; 2; 131; 48; 48; 55; 4; 255].
Definition ex_junk (k : nat) : Z := 7.

Lemma ex_repr : lp_repr ex_lp ex_es.
Proof. split; [by vm_compute|]. exists 3. split; [by right|by vm_compute]. Defined.

Lemma lpAppend_witness :
  (lp_total (ex_es ++ [bytes_of "5"]) >? UINT32_MAX) = false /\
  exists lp', lpAppend ex_junk ex_lp (bytes_of "5") 1 = Some (Some (lp', Some 18))
    /\ lp_repr lp' (ex_es ++ [bytes_of "5"]).
Proof.
  split; [by vm_compute|].
  exact (proj2 (lpAppend_refines ex_junk ex_lp ex_es (bytes_of "5") ex_repr eq_refl)).
Defined.

Lemma lpInsert_witness :
  exists lp', lpInsert ex_junk ex_lp (Some (bytes_of "-4096")) 5 10 LP_REPLACE = Some (Some (lp', Some 10)) /\
    lp_repr lp' [bytes_of "ab"; bytes_of "-4096"; bytes_of "007"] /\
    [bytes_of "ab"; bytes_of "-4096"; bytes_of "007"] !! 1%nat = Some (bytes_of "-4096").
Proof. exact (lpInsert_refines ex_junk ex_lp ex_es 1 (bytes_of "-4096") LP_REPLACE ex_repr ltac:(cbn; lia) eq_refl). Defined.

Lemma lpDelete_witness :
  exists lp', lpDelete ex_junk ex_lp 13 = Some (Some (lp', None)) /\
    lp_repr lp' [bytes_of "ab"; bytes_of "-129"].
Proof. exact (lpDelete_refines ex_junk ex_lp ex_es 2 ex_repr ltac:(cbn; lia)). Defined.

Lemma lpSeek_witness :
  exists p e r, lpSeek ex_lp (-2) = Some (Some p) /\ ex_es !! 1%nat = Some e /\
    lpGet ex_lp p true = Some r /\ lpres_bytes ex_lp r = Some e.
Proof. exact (lpSeek_get ex_lp ex_es (-2) true ex_repr). Defined.

Lemma lp_iteration_witness :
  lpFirst ex_lp = Some (elem_ptr ex_es 0) /\ lpBytes ex_lp = Some (zlen ex_lp).
Proof.
  destruct (lp_iteration ex_lp ex_es ex_repr) as (H1 & _ & _ & _ & _ & H2). by split.
Defined.
