(* ===== verification/Ziplist.v ===== *)
(** * Ziplist: strings and integers in one allocation (ziplist.c)

    A ziplist is its byte buffer and a pointer into it is an offset, so that the
    pointers the source recomputes after [zrealloc] keep their value here.  Every
    entry starts with the length of the one before it, in one byte or in five:
    storing an entry may make the ones that follow grow ([__ziplistCascadeUpdate]).
    The machine is little endian, so the [intrev] and [memrev] conversions of the
    source do nothing.  Where the source subtracts sizes, a negative result would
    be a copy of almost [2^64] bytes; here it is [None], like any other access
    outside the buffer. *)
From Stdlib Require Import ZArith Lia String.
From stdpp Require Import base numbers list option.
From S2P Require Import Prelude UtilNum.

(** ** Constants *)

Definition ZIP_END : Z := 255.
Definition ZIP_BIG_PREVLEN : Z := 254.

Definition ZIP_STR_MASK : Z := 0xc0.
Definition ZIP_STR_06B : Z := Z.shiftl 0 6.
Definition ZIP_STR_14B : Z := Z.shiftl 1 6.
Definition ZIP_STR_32B : Z := Z.shiftl 2 6.
Definition ZIP_INT_16B : Z := Z.lor 0xc0 (Z.shiftl 0 4).
Definition ZIP_INT_32B : Z := Z.lor 0xc0 (Z.shiftl 1 4).
Definition ZIP_INT_64B : Z := Z.lor 0xc0 (Z.shiftl 2 4).
Definition ZIP_INT_24B : Z := Z.lor 0xc0 (Z.shiftl 3 4).
Definition ZIP_INT_8B : Z := 0xfe.
Definition ZIP_INT_IMM_MASK : Z := 0x0f.
Definition ZIP_INT_IMM_MIN : Z := 0xf1.
Definition ZIP_INT_IMM_MAX : Z := 0xfd.
Definition INT24_MAX : Z := 0x7fffff.
Definition INT24_MIN : Z := - INT24_MAX - 1.

Definition ZIP_IS_STR (enc : Z) : bool := Z.land enc ZIP_STR_MASK <? ZIP_STR_MASK.

Definition ZIPLIST_HEADER_SIZE : Z := 4 * 2 + 2.
Definition ZIPLIST_END_SIZE : Z := 1.
Definition UINT16_MAX : Z := 65535.

(** ** The header *)

(** [n] bytes at [p] as an unsigned number, and the store of one. *)
Definition load_le (n : nat) (zl : list Z) (p : Z) : option Z :=
  bs ← mread zl p (Z.of_nat n); Some (le_val bs).
Definition store_le (n : nat) (zl : list Z) (p v : Z) : option (list Z) := mwrite zl p (le_bytes n v).

Definition ZIPLIST_BYTES (zl : list Z) : option Z := load_le 4 zl 0.
Definition set_ZIPLIST_BYTES (zl : list Z) (v : Z) : option (list Z) := store_le 4 zl 0 v.
Definition ZIPLIST_TAIL_OFFSET (zl : list Z) : option Z := load_le 4 zl 4.
Definition set_ZIPLIST_TAIL_OFFSET (zl : list Z) (v : Z) : option (list Z) := store_le 4 zl 4 v.
Definition ZIPLIST_LENGTH (zl : list Z) : option Z := load_le 2 zl 8.
Definition set_ZIPLIST_LENGTH (zl : list Z) (v : Z) : option (list Z) := store_le 2 zl 8 v.

Definition ZIPLIST_ENTRY_HEAD : Z := ZIPLIST_HEADER_SIZE.
Definition ZIPLIST_ENTRY_TAIL (zl : list Z) : option Z := ZIPLIST_TAIL_OFFSET zl.
Definition ZIPLIST_ENTRY_END (zl : list Z) : option Z := n ← ZIPLIST_BYTES zl; Some (n - 1).

Definition ZIPLIST_INCR_LENGTH (zl : list Z) (incr : Z) : option (list Z) :=
  n ← ZIPLIST_LENGTH zl;
  if n <? UINT16_MAX then set_ZIPLIST_LENGTH zl (u16 (n + incr)) else Some zl.

(** [*p == ZIP_END] *)
Definition at_end (zl : list Z) (p : Z) : option bool := b ← mget zl p; Some (b =? ZIP_END).

(** ** Encoding *)

Record zlentry := {
  prevrawlensize : Z; prevrawlen : Z; lensize : Z; len : Z; headersize : Z; encoding : Z; ep : Z
}.

Definition ZIP_ENTRY_ENCODING (zl : list Z) (ptr : Z) : option Z :=
  b ← mget zl ptr;
  Some (if b <? ZIP_STR_MASK then Z.land b ZIP_STR_MASK else b).

(** The panic is [None]. *)
Definition zipIntSize (encoding : Z) : option Z :=
  if encoding =? ZIP_INT_8B then Some 1
  else if encoding =? ZIP_INT_16B then Some 2
  else if encoding =? ZIP_INT_24B then Some 3
  else if encoding =? ZIP_INT_32B then Some 4
  else if encoding =? ZIP_INT_64B then Some 8
  else if (encoding >=? ZIP_INT_IMM_MIN) && (encoding <=? ZIP_INT_IMM_MAX) then Some 0
  else None.

(** The bytes [zipStoreEntryEncoding] puts in [buf]; with a NULL pointer the
    source returns their number. *)
Definition entry_encoding (encoding rawlen : Z) : list Z :=
  if ZIP_IS_STR encoding then
    if rawlen <=? 0x3f then [u8 (Z.lor ZIP_STR_06B rawlen)]
    else if rawlen <=? 0x3fff then
      [u8 (Z.lor ZIP_STR_14B (Z.land (Z.shiftr rawlen 8) 0x3f)); Z.land rawlen 0xff]
    else
      [ZIP_STR_32B; Z.land (Z.shiftr rawlen 24) 0xff; Z.land (Z.shiftr rawlen 16) 0xff;
       Z.land (Z.shiftr rawlen 8) 0xff; Z.land rawlen 0xff]
  else [encoding].

Definition zipStoreEntryEncoding (zl : list Z) (p encoding rawlen : Z) : option (list Z * Z) :=
  let buf := entry_encoding encoding rawlen in
  zl ← mwrite zl p buf; Some (zl, zlen buf).

(** Result: (encoding, lensize, len). *)
Definition ZIP_DECODE_LENGTH (zl : list Z) (ptr : Z) : option (Z * Z * Z) :=
  encoding ← ZIP_ENTRY_ENCODING zl ptr;
  if encoding <? ZIP_STR_MASK then
    if encoding =? ZIP_STR_06B then
      b0 ← mget zl ptr; Some (encoding, 1, Z.land b0 0x3f)
    else if encoding =? ZIP_STR_14B then
      b0 ← mget zl ptr; b1 ← mget zl (ptr + 1);
      Some (encoding, 2, Z.lor (Z.shiftl (Z.land b0 0x3f) 8) b1)
    else if encoding =? ZIP_STR_32B then
      b1 ← mget zl (ptr + 1); b2 ← mget zl (ptr + 2); b3 ← mget zl (ptr + 3); b4 ← mget zl (ptr + 4);
      Some (encoding, 5, u32 (Z.lor (Z.lor (Z.lor (Z.shiftl b1 24) (Z.shiftl b2 16)) (Z.shiftl b3 8)) b4))
    else None
  else n ← zipIntSize encoding; Some (encoding, 1, n).

(** With a NULL pointer these return the number of the bytes. *)
Definition prev_length_large (len : Z) : list Z := ZIP_BIG_PREVLEN :: le_bytes 4 len.
Definition prev_length (len : Z) : list Z := if len <? ZIP_BIG_PREVLEN then [len] else prev_length_large len.

Definition zipStorePrevEntryLengthLarge (zl : list Z) (p len : Z) : option (list Z) :=
  mwrite zl p (prev_length_large len).
Definition zipStorePrevEntryLength (zl : list Z) (p len : Z) : option (list Z * Z) :=
  let buf := prev_length len in
  zl ← mwrite zl p buf; Some (zl, zlen buf).

Definition ZIP_DECODE_PREVLENSIZE (zl : list Z) (ptr : Z) : option Z :=
  b ← mget zl ptr; Some (if b <? ZIP_BIG_PREVLEN then 1 else 5).

(** Result: (prevlensize, prevlen). *)
Definition ZIP_DECODE_PREVLEN (zl : list Z) (ptr : Z) : option (Z * Z) :=
  prevlensize ← ZIP_DECODE_PREVLENSIZE zl ptr;
  prevlen ← (if prevlensize =? 1 then mget zl ptr else load_le 4 zl (ptr + 1));
  Some (prevlensize, prevlen).

Definition zipPrevLenByteDiff (zl : list Z) (p len : Z) : option Z :=
  prevlensize ← ZIP_DECODE_PREVLENSIZE zl p;
  Some (i32 (zlen (prev_length len) - prevlensize)).

Definition zipRawEntryLength (zl : list Z) (p : Z) : option Z :=
  prevlensize ← ZIP_DECODE_PREVLENSIZE zl p;
  d ← ZIP_DECODE_LENGTH zl (p + prevlensize);
  let '(_, lensize, len) := d in
  Some (u32 (prevlensize + lensize + len)).

(** The smallest of the encodings that can hold [value]. *)
Definition int_encoding (value : Z) : Z :=
  if (value >=? 0) && (value <=? 12) then u8 (ZIP_INT_IMM_MIN + value)
  else if (value >=? - 2 ^ 7) && (value <=? 2 ^ 7 - 1) then ZIP_INT_8B
  else if (value >=? - 2 ^ 15) && (value <=? 2 ^ 15 - 1) then ZIP_INT_16B
  else if (value >=? INT24_MIN) && (value <=? INT24_MAX) then ZIP_INT_24B
  else if (value >=? - 2 ^ 31) && (value <=? 2 ^ 31 - 1) then ZIP_INT_32B
  else ZIP_INT_64B.

(** [Some (v, encoding)] when it returns 1. *)
Definition zipTryEncoding (entry : list Z) (entrylen : Z) : option (option (Z * Z)) :=
  if (entrylen >=? 32) || (entrylen =? 0) then Some None
  else
    r ← string2ll entry entrylen;
    Some (match r with
          | Some value => Some (value, int_encoding value)
          | None => None
          end).

Definition zipSaveInteger (zl : list Z) (p value encoding : Z) : option (list Z) :=
  if encoding =? ZIP_INT_8B then mset zl p (u8 value)
  else if encoding =? ZIP_INT_16B then store_le 2 zl p value
  else if encoding =? ZIP_INT_24B then mwrite zl p (drop 1 (le_bytes 4 (Z.shiftl value 8)))
  else if encoding =? ZIP_INT_32B then store_le 4 zl p value
  else if encoding =? ZIP_INT_64B then store_le 8 zl p value
  else if (encoding >=? ZIP_INT_IMM_MIN) && (encoding <=? ZIP_INT_IMM_MAX) then Some zl
  else None.

Definition zipLoadInteger (zl : list Z) (p encoding : Z) : option Z :=
  if encoding =? ZIP_INT_8B then b ← mget zl p; Some (i8 b)
  else if encoding =? ZIP_INT_16B then v ← load_le 2 zl p; Some (i16 v)
  else if encoding =? ZIP_INT_32B then v ← load_le 4 zl p; Some (i32 v)
  else if encoding =? ZIP_INT_24B then
    bs ← mread zl p 3; Some (Z.shiftr (i32 (le_val (0 :: bs))) 8)
  else if encoding =? ZIP_INT_64B then v ← load_le 8 zl p; Some (i64 v)
  else if (encoding >=? ZIP_INT_IMM_MIN) && (encoding <=? ZIP_INT_IMM_MAX) then
    Some (Z.land encoding ZIP_INT_IMM_MASK - 1)
  else None.

Definition zipEntry (zl : list Z) (p : Z) : option zlentry :=
  pl ← ZIP_DECODE_PREVLEN zl p;
  d ← ZIP_DECODE_LENGTH zl (p + fst pl);
  let '(encoding, lensize, len) := d in
  Some {| prevrawlensize := fst pl; prevrawlen := snd pl; lensize := lensize; len := len;
          headersize := u32 (fst pl + lensize); encoding := encoding; ep := p |}.

(** ** Allocation *)

Section Junk.
(** What the bytes that [zmalloc] and [zrealloc] add hold. *)
Variable junk : nat -> Z.

Definition ziplistNew : option (list Z) :=
  let bytes := ZIPLIST_HEADER_SIZE + 1 in
  let zl := zrealloc junk [] bytes in
  zl ← set_ZIPLIST_BYTES zl bytes;
  zl ← set_ZIPLIST_TAIL_OFFSET zl ZIPLIST_HEADER_SIZE;
  zl ← set_ZIPLIST_LENGTH zl 0;
  mset zl (bytes - 1) ZIP_END.

(** [len] is an [unsigned int]. *)
Definition ziplistResize (zl : list Z) (len : Z) : option (list Z) :=
  let len := u32 len in
  let zl := zrealloc junk zl len in
  zl ← set_ZIPLIST_BYTES zl len;
  mset zl (len - 1) ZIP_END.

(** ** Updating the lengths that follow *)

Fixpoint cascade_loop (fuel : nat) (zl : list Z) (p curlen : Z) : option (list Z) :=
  match fuel with
  | O => None
  | S fuel' =>
      e ← at_end zl p;
      if (e : bool) then Some zl
      else
        cur ← zipEntry zl p;
        let rawlen := u32 (headersize cur + len cur) in
        let rawlensize := zlen (prev_length rawlen) in
        e ← at_end zl (p + rawlen);
        if (e : bool) then Some zl
        else
          next ← zipEntry zl (p + rawlen);
          if prevrawlen next =? rawlen then Some zl
          else if prevrawlensize next <? rawlensize then
            let extra := rawlensize - prevrawlensize next in
            zl ← ziplistResize zl (curlen + extra);
            let np := p + rawlen in
            tail ← ZIPLIST_TAIL_OFFSET zl;
            zl ← (if negb (tail =? np) then set_ZIPLIST_TAIL_OFFSET zl (u32 (tail + extra)) else Some zl);
            zl ← mmove zl (np + rawlensize) (np + prevrawlensize next)
                   (curlen - np - prevrawlensize next - 1);
            r ← zipStorePrevEntryLength zl np rawlen;
            cascade_loop fuel' (fst r) (p + rawlen) (curlen + extra)
          else if prevrawlensize next >? rawlensize then
            zipStorePrevEntryLengthLarge zl (p + rawlen) rawlen
          else r ← zipStorePrevEntryLength zl (p + rawlen) rawlen; Some (fst r)
  end.

(** Every turn goes one entry further: the bytes of the list are enough turns. *)
Definition __ziplistCascadeUpdate (zl : list Z) (p : Z) : option (list Z) :=
  curlen ← ZIPLIST_BYTES zl;
  cascade_loop (length zl) zl p curlen.

(** ** Deletion *)

(** [for (i = 0; p[0] != ZIP_END && i < num; i++)]; result: (p, deleted). *)
Fixpoint delete_skip (fuel : nat) (zl : list Z) (p num i : Z) : option (Z * Z) :=
  match fuel with
  | O => None
  | S fuel' =>
      e ← at_end zl p;
      if negb e && (i <? num) then
        n ← zipRawEntryLength zl p; delete_skip fuel' zl (p + n) num (u32 (i + 1))
      else Some (p, i)
  end.

Definition __ziplistDelete (zl : list Z) (p num : Z) : option (list Z) :=
  first ← zipEntry zl p;
  r ← delete_skip (length zl) zl p num 0;
  let '(p, deleted) := r in
  let totlen := u32 (p - ep first) in
  if totlen >? 0 then
    e ← at_end zl p;
    r ← (if negb e then
           nextdiff ← zipPrevLenByteDiff zl p (prevrawlen first);
           let p := p - nextdiff in
           r ← zipStorePrevEntryLength zl p (prevrawlen first);
           let zl := fst r in
           tailoff ← ZIPLIST_TAIL_OFFSET zl;
           zl ← set_ZIPLIST_TAIL_OFFSET zl (u32 (tailoff - totlen));
           tail ← zipEntry zl p;
           e ← at_end zl (p + u32 (headersize tail + len tail));
           zl ← (if negb e then
                   tailoff ← ZIPLIST_TAIL_OFFSET zl;
                   set_ZIPLIST_TAIL_OFFSET zl (u32 (tailoff + nextdiff))
                 else Some zl);
           bytes ← ZIPLIST_BYTES zl;
           zl ← mmove zl (ep first) p (bytes - p - 1);
           Some (zl, nextdiff)
         else
           zl ← set_ZIPLIST_TAIL_OFFSET zl (u32 (ep first - prevrawlen first));
           Some (zl, 0));
    let '(zl, nextdiff) := r in
    let offset := ep first in
    bytes ← ZIPLIST_BYTES zl;
    zl ← ziplistResize zl (bytes - totlen + nextdiff);
    zl ← ZIPLIST_INCR_LENGTH zl (- deleted);
    if negb (nextdiff =? 0) then __ziplistCascadeUpdate zl offset else Some zl
  else Some zl.

(** ** Insertion *)

Definition __ziplistInsert (zl : list Z) (p : Z) (s : list Z) (slen : Z) : option (list Z) :=
  curlen ← ZIPLIST_BYTES zl;
  e ← at_end zl p;
  prevlen ← (if negb e then r ← ZIP_DECODE_PREVLEN zl p; Some (snd r)
             else
               ptail ← ZIPLIST_ENTRY_TAIL zl;
               et ← at_end zl ptail;
               if negb et then zipRawEntryLength zl ptail else Some 0);
  try_ ← zipTryEncoding s slen;
  let '(value, encoding) := default (123456789, 0) try_ in
  reqlen ← (match try_ with Some _ => zipIntSize encoding | None => Some slen end);
  let reqlen := reqlen + zlen (prev_length prevlen) in
  let reqlen := reqlen + zlen (entry_encoding encoding slen) in
  nextdiff ← (if negb e then zipPrevLenByteDiff zl p (u32 reqlen) else Some 0);
  let '(nextdiff, forcelarge) :=
    if (nextdiff =? -4) && (reqlen <? 4) then (0, true) else (nextdiff, false) in
  let offset := p in
  zl ← ziplistResize zl (curlen + reqlen + nextdiff);
  e ← at_end zl p;
  zl ← (if negb e then
          zl ← mmove zl (p + reqlen) (p - nextdiff) (curlen - offset - 1 + nextdiff);
          zl ← (if (forcelarge : bool) then zipStorePrevEntryLengthLarge zl (p + reqlen) (u32 reqlen)
                else r ← zipStorePrevEntryLength zl (p + reqlen) (u32 reqlen); Some (fst r));
          tailoff ← ZIPLIST_TAIL_OFFSET zl;
          zl ← set_ZIPLIST_TAIL_OFFSET zl (u32 (tailoff + reqlen));
          tail ← zipEntry zl (p + reqlen);
          e ← at_end zl (p + reqlen + headersize tail + len tail);
          if negb e then
            tailoff ← ZIPLIST_TAIL_OFFSET zl;
            set_ZIPLIST_TAIL_OFFSET zl (u32 (tailoff + nextdiff))
          else Some zl
        else set_ZIPLIST_TAIL_OFFSET zl (u32 p));
  zl ← (if negb (nextdiff =? 0) then __ziplistCascadeUpdate zl (p + reqlen) else Some zl);
  r ← zipStorePrevEntryLength zl p prevlen;
  let '(zl, n) := r in
  let p := p + n in
  r ← zipStoreEntryEncoding zl p encoding slen;
  let '(zl, n) := r in
  let p := p + n in
  zl ← (if ZIP_IS_STR encoding then mwrite zl p (take (Z.to_nat slen) s)
        else zipSaveInteger zl p value encoding);
  ZIPLIST_INCR_LENGTH zl 1.

(** ** Merging *)

(** The pointers to the two lists hold an address and the block there; [None]
    is NULL.  Result: [None] for NULL, otherwise the merged list and whether it
    is left in [*first] ([*second] is then freed and NULL) or in [*second]. *)
Definition ziplistMerge (first second : option (Z * list Z)) : option (option (list Z * bool)) :=
  match first, second with
  | Some (faddr, first), Some (saddr, second) =>
      if faddr =? saddr then Some None
      else
        first_bytes ← ZIPLIST_BYTES first;
        first_len ← ZIPLIST_LENGTH first;
        second_bytes ← ZIPLIST_BYTES second;
        second_len ← ZIPLIST_LENGTH second;
        let '(target, target_bytes, source, source_bytes, append) :=
          if first_len >=? second_len then (first, first_bytes, second, second_bytes, true)
          else (second, second_bytes, first, first_bytes, false) in
        let zlbytes := first_bytes + second_bytes - ZIPLIST_HEADER_SIZE - ZIPLIST_END_SIZE in
        let zllength := first_len + second_len in
        let zllength := if zllength <? UINT16_MAX then zllength else UINT16_MAX in
        first_offset ← ZIPLIST_TAIL_OFFSET first;
        second_offset ← ZIPLIST_TAIL_OFFSET second;
        let target := zrealloc junk target zlbytes in
        target ← (if (append : bool) then
                    bs ← mread source ZIPLIST_HEADER_SIZE (source_bytes - ZIPLIST_HEADER_SIZE);
                    mwrite target (target_bytes - ZIPLIST_END_SIZE) bs
                  else
                    target ← mmove target (source_bytes - ZIPLIST_END_SIZE) ZIPLIST_HEADER_SIZE
                               (target_bytes - ZIPLIST_HEADER_SIZE);
                    bs ← mread source 0 (source_bytes - ZIPLIST_END_SIZE);
                    mwrite target 0 bs);
        target ← set_ZIPLIST_BYTES target (u32 zlbytes);
        target ← set_ZIPLIST_LENGTH target (u16 zllength);
        target ← set_ZIPLIST_TAIL_OFFSET target
                   (u32 ((first_bytes - ZIPLIST_END_SIZE) + (second_offset - ZIPLIST_HEADER_SIZE)));
        target ← __ziplistCascadeUpdate target first_offset;
        Some (Some (target, append))
  | _, _ => Some None
  end.

Definition ZIPLIST_HEAD : Z := 0.
Definition ZIPLIST_TAIL : Z := 1.

Definition ziplistPush (zl : list Z) (s : list Z) (slen where_ : Z) : option (list Z) :=
  p ← (if where_ =? ZIPLIST_HEAD then Some ZIPLIST_ENTRY_HEAD else ZIPLIST_ENTRY_END zl);
  __ziplistInsert zl p s slen.

(** ** Walking *)

(** [while (prevlen > 0 && index--)] *)
Fixpoint zindex_backward (fuel : nat) (zl : list Z) (p prevlen index : Z) : option (Z * Z) :=
  match fuel with
  | O => None
  | S fuel' =>
      if prevlen >? 0 then
        if index =? 0 then Some (p, index - 1)
        else
          let p := p - prevlen in
          r ← ZIP_DECODE_PREVLEN zl p;
          zindex_backward fuel' zl p (snd r) (index - 1)
      else Some (p, index)
  end.

(** [while (p[0] != ZIP_END && index--)] *)
Fixpoint zindex_forward (fuel : nat) (zl : list Z) (p index : Z) : option (Z * Z) :=
  match fuel with
  | O => None
  | S fuel' =>
      e ← at_end zl p;
      if negb e then
        if index =? 0 then Some (p, index - 1)
        else n ← zipRawEntryLength zl p; zindex_forward fuel' zl (p + n) (index - 1)
      else Some (p, index)
  end.

(** [Some None] is the NULL pointer. *)
Definition ziplistIndex (zl : list Z) (index : Z) : option (option Z) :=
  r ← (if index <? 0 then
         let index := i32 (i32 (- index) - 1) in
         p ← ZIPLIST_ENTRY_TAIL zl;
         e ← at_end zl p;
         if negb e then
           r ← ZIP_DECODE_PREVLEN zl p; zindex_backward (length zl) zl p (snd r) index
         else Some (p, index)
       else zindex_forward (length zl) zl ZIPLIST_ENTRY_HEAD index);
  let '(p, index) := r in
  e ← at_end zl p;
  Some (if e || (index >? 0) then None else Some p).

Definition ziplistNext (zl : list Z) (p : Z) : option (option Z) :=
  e ← at_end zl p;
  if (e : bool) then Some None
  else
    n ← zipRawEntryLength zl p;
    let p := p + n in
    e ← at_end zl p;
    Some (if (e : bool) then None else Some p).

(** A previous length of zero breaks the assertion. *)
Definition ziplistPrev (zl : list Z) (p : Z) : option (option Z) :=
  e ← at_end zl p;
  if (e : bool) then
    p ← ZIPLIST_ENTRY_TAIL zl;
    e ← at_end zl p;
    Some (if (e : bool) then None else Some p)
  else if p =? ZIPLIST_ENTRY_HEAD then Some None
  else
    r ← ZIP_DECODE_PREVLEN zl p;
    if snd r >? 0 then Some (Some (p - snd r)) else None.

(** ** Reading *)

(** The string at an offset, or the integer [*sval]. *)
Inductive zval := ZStr (sstr slen : Z) | ZInt (sval : Z).

(** [p] is [None] for NULL; the answer 0 is [Some None]. *)
Definition ziplistGet (zl : list Z) (p : option Z) : option (option zval) :=
  match p with
  | None => Some None
  | Some p =>
      e ← at_end zl p;
      if (e : bool) then Some None
      else
        entry ← zipEntry zl p;
        if ZIP_IS_STR (encoding entry) then Some (Some (ZStr (p + headersize entry) (len entry)))
        else v ← zipLoadInteger zl (p + headersize entry) (encoding entry); Some (Some (ZInt v))
  end.

Definition ziplistInsert (zl : list Z) (p : Z) (s : list Z) (slen : Z) : option (list Z) :=
  __ziplistInsert zl p s slen.

(** Result: the list and [*p]. *)
Definition ziplistDelete (zl : list Z) (p : Z) : option (list Z * Z) :=
  let offset := p in
  zl ← __ziplistDelete zl p 1;
  Some (zl, offset).

Definition ziplistDeleteRange (zl : list Z) (index num : Z) : option (list Z) :=
  p ← ziplistIndex zl index;
  match p with
  | None => Some zl
  | Some p => __ziplistDelete zl p num
  end.

(** [memcmp(zl + p, s, n) == 0] *)
Definition memeq (zl : list Z) (p : Z) (s : list Z) (n : Z) : option bool :=
  a ← mread zl p n; b ← mread s 0 n; Some (bool_decide (a = b)).

Definition ziplistCompare (zl : list Z) (p : Z) (sstr : list Z) (slen : Z) : option bool :=
  e ← at_end zl p;
  if (e : bool) then Some false
  else
    entry ← zipEntry zl p;
    if ZIP_IS_STR (encoding entry) then
      if len entry =? slen then memeq zl (p + headersize entry) sstr slen else Some false
    else
      t ← zipTryEncoding sstr slen;
      match t with
      | Some (sval, _) => zval ← zipLoadInteger zl (p + headersize entry) (encoding entry); Some (zval =? sval)
      | None => Some false
      end.

Definition UCHAR_MAX : Z := 255.

Fixpoint find_loop (fuel : nat) (zl : list Z) (p : Z) (vstr : list Z) (vlen skip : Z)
    (skipcnt vencoding vll : Z) : option (option Z) :=
  match fuel with
  | O => None
  | S fuel' =>
      e ← at_end zl p;
      if (e : bool) then Some None
      else
        prevlensize ← ZIP_DECODE_PREVLENSIZE zl p;
        d ← ZIP_DECODE_LENGTH zl (p + prevlensize);
        let '(encoding, lensize, len) := d in
        let q := p + prevlensize + lensize in
        if skipcnt =? 0 then
          if ZIP_IS_STR encoding then
            eq ← (if len =? vlen then memeq zl q vstr vlen else Some false);
            if (eq : bool) then Some (Some p)
            else find_loop fuel' zl (q + len) vstr vlen skip (i32 skip) vencoding vll
          else
            r ← (if vencoding =? 0 then
                   t ← zipTryEncoding vstr vlen;
                   Some (match t with Some (v, enc) => (enc, v) | None => (UCHAR_MAX, vll) end)
                 else Some (vencoding, vll));
            let '(vencoding, vll) := r in
            if vencoding =? 0 then None
            else
              eq ← (if negb (vencoding =? UCHAR_MAX) then
                      ll ← zipLoadInteger zl q encoding; Some (ll =? vll)
                    else Some false);
              if (eq : bool) then Some (Some p)
              else find_loop fuel' zl (q + len) vstr vlen skip (i32 skip) vencoding vll
        else find_loop fuel' zl (q + len) vstr vlen skip (i32 (skipcnt - 1)) vencoding vll
  end.

Definition ziplistFind (zl : list Z) (p : Z) (vstr : list Z) (vlen skip : Z) : option (option Z) :=
  find_loop (length zl) zl p vstr vlen skip 0 0 0.

Fixpoint len_loop (fuel : nat) (zl : list Z) (p n : Z) : option Z :=
  match fuel with
  | O => None
  | S fuel' =>
      e ← at_end zl p;
      if (e : bool) then Some n
      else k ← zipRawEntryLength zl p; len_loop fuel' zl (p + k) (u32 (n + 1))
  end.

(** Result: the length and the list, whose header may be updated. *)
Definition ziplistLen (zl : list Z) : option (Z * list Z) :=
  n ← ZIPLIST_LENGTH zl;
  if n <? UINT16_MAX then Some (n, zl)
  else
    len ← len_loop (length zl) zl ZIPLIST_HEADER_SIZE 0;
    zl ← (if len <? UINT16_MAX then set_ZIPLIST_LENGTH zl len else Some zl);
    Some (len, zl).

Definition ziplistBlobLen (zl : list Z) : option Z := ZIPLIST_BYTES zl.
End Junk.
