(* ===== verification/ZiplistShape.v ===== *)
(** * The bytes of a ziplist (ziplist.c)

    The entries of a ziplist, each with a flag that says whether the length of
    the one before it takes five bytes, and what the macros of the source read
    and write at them. *)
From Stdlib Require Import ZArith Lia String.
From stdpp Require Import base numbers list option.
From S2P Require Import Prelude UtilNum Ziplist.

(** ** One entry *)

(** The integer a string is stored as. *)
Definition zint (e : list Z) : option Z :=
  match zipTryEncoding e (zlen e) with Some (Some (v, _)) => Some v | _ => None end.

Definition int_bytes (v : Z) : list Z :=
  let enc := int_encoding v in
  if enc =? ZIP_INT_8B then [u8 v]
  else if enc =? ZIP_INT_16B then le_bytes 2 v
  else if enc =? ZIP_INT_24B then drop 1 (le_bytes 4 (Z.shiftl v 8))
  else if enc =? ZIP_INT_32B then le_bytes 4 v
  else if enc =? ZIP_INT_64B then le_bytes 8 v
  else [].

(** What the entry of [e] holds after its first field. *)
Definition zhead (e : list Z) : list Z :=
  match zint e with
  | Some v => [int_encoding v]
  | None => entry_encoding 0 (zlen e)
  end.
Definition zload (e : list Z) : list Z :=
  match zint e with
  | Some v => int_bytes v
  | None => e
  end.

Abbreviation zelem := (bool * list Z)%type.

(** The first field, its size and the size of the whole entry. *)
Definition psize (b : bool) : Z := if b then 5 else 1.
Definition zprev (b : bool) (prev : Z) : list Z := if b then prev_length_large prev else [prev].
Definition rlen (x : zelem) : Z := psize (fst x) + zlen (zhead (snd x)) + zlen (zload (snd x)).
Definition zent (prev : Z) (x : zelem) : list Z := zprev (fst x) prev ++ zhead (snd x) ++ zload (snd x).

Lemma zlen_zprev b prev : zlen (zprev b prev) = psize b.
Proof. by destruct b. Qed.

Lemma zlen_zent prev x : zlen (zent prev x) = rlen x.
Proof. unfold zent, rlen. rewrite !zlen_app, zlen_zprev. lia. Qed.
#[export] Hint Rewrite zlen_zprev zlen_zent : zlen.

Lemma zlen_dec v : in_s 64 v -> 1 <= zlen (dec v) <= 20.
Proof.
  intros Hv. unfold in_s in Hv. cbn in Hv.
  assert (H : forall w, 1 <= w <= 2 ^ 63 -> 1 <= zlen (udec w) <= 19).
  { intros w Hw. destruct (udec_len w ltac:(lia)) as [[H1 _] H2]. split; [done|].
    destruct (decide (zlen (udec w) <= 19)) as [|Hn]; [done|exfalso].
    assert (10 ^ 19 <= 10 ^ (zlen (udec w) - 1)) by (apply Z.pow_le_mono_r; lia). lia. }
  unfold dec. destruct (v <? 0) eqn:E.
  - rewrite zlen_cons. specialize (H (- v)). lia.
  - destruct (decide (v = 0)) as [->|]; [by cbn|]. specialize (H v). lia.
Qed.

(** [zipTryEncoding] recognises the canonical integers. *)
Lemma try_spec e : zipTryEncoding e (zlen e) = Some ((fun v => (v, int_encoding v)) <$> zint e).
Proof.
  unfold zint, zipTryEncoding. destruct ((zlen e >=? 32) || (zlen e =? 0)); [done|].
  destruct (string2ll_total e) as (r & -> & _). cbn [mbind option_bind]. by destruct r.
Qed.

Lemma zint_spec e v : zint e = Some v <-> in_s 64 v /\ e = dec v.
Proof.
  unfold zint, zipTryEncoding. destruct (string2ll_total e) as (r & Hr & Hv).
  destruct ((zlen e >=? 32) || (zlen e =? 0)) eqn:E.
  - split; [done|]. intros [Hs ->]. pose proof (zlen_dec v Hs). lia.
  - rewrite Hr. cbn [mbind option_bind]. rewrite <- Hv. by destruct r.
Qed.

Lemma zint_dec v : in_s 64 v -> zint (dec v) = Some v.
Proof. intros. by apply zint_spec. Qed.

(** ** Integers *)

Lemma int_encoding_cases v : in_s 64 v ->
  (0 <= v <= 12 /\ int_encoding v = 241 + v) \/ (in_s 8 v /\ int_encoding v = ZIP_INT_8B) \/
  (in_s 16 v /\ int_encoding v = ZIP_INT_16B) \/ (in_s 24 v /\ int_encoding v = ZIP_INT_24B) \/
  (in_s 32 v /\ int_encoding v = ZIP_INT_32B) \/ int_encoding v = ZIP_INT_64B.
Proof.
  intros Hv. unfold in_s, int_encoding, INT24_MIN, INT24_MAX, ZIP_INT_IMM_MIN. cbn [Z.sub].
  destruct ((v >=? 0) && (v <=? 12)) eqn:E1; [left; rewrite uwrap_small by lia; lia|right].
  destruct ((v >=? _) && (v <=? _)) eqn:E2 in |- *; [left; split; [lia|done]|right].
  destruct ((v >=? _) && (v <=? _)) eqn:E3 in |- *; [left; split; [lia|done]|right].
  destruct ((v >=? _) && (v <=? _)) eqn:E4 in |- *; [left; split; [lia|done]|right].
  destruct ((v >=? _) && (v <=? _)) eqn:E5 in |- *; [left; split; [lia|done]|by right].
Qed.

(** What a reader finds out from the first byte of an integer. *)
Lemma int_encoding_spec v : in_s 64 v ->
  192 <= int_encoding v < 256 /\ ZIP_IS_STR (int_encoding v) = false /\
  zipIntSize (int_encoding v) = Some (zlen (int_bytes v)).
Proof.
  intros Hv. unfold int_bytes. destruct (int_encoding_cases v Hv) as [[H ->]|[[H ->]|[[H ->]|[[H ->]|[[H ->]| ->]]]]];
    try (split; [by cbn|]; split; [reflexivity|]; vm_compute zipIntSize; reflexivity).
  - assert (Hk : exists k, (k < 13)%nat /\ v = Z.of_nat k) by (exists (Z.to_nat v); lia).
    destruct Hk as (k & Hk & ->).
    do 13 (destruct k as [|k]; [split; [by cbn|]; split; reflexivity|]). lia.
Qed.

Lemma load_le_at n (a bs c : list Z) p : p = zlen a -> zlen bs = Z.of_nat n ->
  load_le n (a ++ bs ++ c) p = Some (le_val bs).
Proof. intros -> H. unfold load_le. by erewrite mread_split by (done || lia). Qed.

Lemma load_le_bytes n (a c : list Z) p v : p = zlen a ->
  load_le n (a ++ le_bytes n v ++ c) p = Some (v mod 2 ^ (8 * Z.of_nat n)).
Proof. intros ->. rewrite load_le_at by (done || zlia). by rewrite le_val_le_bytes. Qed.

Lemma store_le_at n (a bs c : list Z) p v : p = zlen a -> zlen bs = Z.of_nat n ->
  store_le n (a ++ bs ++ c) p v = Some (a ++ le_bytes n v ++ c).
Proof. intros -> H. apply mwrite_split; zlia. Qed.

Lemma swrap_mod_back w v : 0 < w -> in_s w v -> swrap w (v mod 2 ^ w) = v.
Proof. intros Hw Hv. change (v mod 2 ^ w) with (uwrap w v). rewrite swrap_uwrap by done. by apply swrap_small. Qed.

Lemma load_integer a v c p : in_s 64 v -> p = zlen a ->
  zipLoadInteger (a ++ int_bytes v ++ c) p (int_encoding v) = Some v.
Proof.
  intros Hv ->. unfold int_bytes.
  destruct (int_encoding_cases v Hv) as [[H ->]|[[H ->]|[[H ->]|[[H ->]|[[H ->]| ->]]]]].
  - assert (Hk : exists k, (k < 13)%nat /\ v = Z.of_nat k) by (exists (Z.to_nat v); lia).
    destruct Hk as (k & Hk & ->). do 13 (destruct k as [|k]; [reflexivity|]). lia.
  - change (zipLoadInteger (a ++ u8 v :: c) (zlen a) ZIP_INT_8B = Some v).
    unfold zipLoadInteger. change (ZIP_INT_8B =? ZIP_INT_8B) with true. cbn [app].
    rewrite mget_split by done. cbn [mbind option_bind].
    f_equal. by apply (swrap_mod_back 8).
  - change (zipLoadInteger (a ++ le_bytes 2 v ++ c) (zlen a) ZIP_INT_16B = Some v).
    unfold zipLoadInteger. cbn -[load_le app swrap le_bytes]. rewrite load_le_bytes by done.
    cbn [mbind option_bind]. f_equal. by apply (swrap_mod_back 16).
  - change (zipLoadInteger (a ++ drop 1 (le_bytes 4 (Z.shiftl v 8)) ++ c) (zlen a) ZIP_INT_24B = Some v).
    unfold zipLoadInteger. cbn -[mread app swrap le_bytes drop le_val Z.shiftr].
    erewrite mread_split by (done || zlia). cbn [mbind option_bind]. f_equal.
    assert (Hb : 0 :: drop 1 (le_bytes 4 (Z.shiftl v 8)) = le_bytes 4 (Z.shiftl v 8)).
    { cbn [le_bytes drop]. f_equal. rewrite land_255, Z.shiftl_mul_pow2 by lia. by rewrite Z.mod_mul. }
    rewrite Hb, le_val_le_bytes. unfold in_s in H. cbn in H.
    rewrite (swrap_mod_back 32), Z.shiftr_shiftl_l by (try lia; unfold in_s; rewrite Z.shiftl_mul_pow2 by lia; lia).
    by rewrite Z.shiftl_0_r.
  - change (zipLoadInteger (a ++ le_bytes 4 v ++ c) (zlen a) ZIP_INT_32B = Some v).
    unfold zipLoadInteger. cbn -[load_le app swrap le_bytes]. rewrite load_le_bytes by done.
    cbn [mbind option_bind]. f_equal. by apply (swrap_mod_back 32).
  - change (zipLoadInteger (a ++ le_bytes 8 v ++ c) (zlen a) ZIP_INT_64B = Some v).
    unfold zipLoadInteger. cbn -[load_le app swrap le_bytes]. rewrite load_le_bytes by done.
    cbn [mbind option_bind]. f_equal. by apply (swrap_mod_back 64).
Qed.

(** [zipSaveInteger] writes these bytes over a gap of their size. *)
Lemma save_integer a v g c p : in_s 64 v -> p = zlen a -> zlen g = zlen (int_bytes v) ->
  zipSaveInteger (a ++ g ++ c) p v (int_encoding v) = Some (a ++ int_bytes v ++ c).
Proof.
  intros Hv ->. unfold int_bytes.
  destruct (int_encoding_cases v Hv) as [[H ->]|[[H ->]|[[H ->]|[[H ->]|[[H ->]| ->]]]]]; intros Hg.
  - assert (Hk : exists k, (k < 13)%nat /\ v = Z.of_nat k) by (exists (Z.to_nat v); lia).
    destruct Hk as (k & Hk & ->).
    do 13 (destruct k as [|k]; [assert (g = []) as -> by (destruct g; [done|cbn -[zlen] in Hg; zlia]); reflexivity|]). lia.
  - destruct g as [|x [|]]; try (exfalso; cbn -[zlen] in Hg; zlia). by apply mset_split.
  - by apply (mwrite_split a g c (le_bytes 2 v)).
  - by apply (mwrite_split a g c (drop 1 (le_bytes 4 (Z.shiftl v 8)))).
  - by apply (mwrite_split a g c (le_bytes 4 v)).
  - by apply (mwrite_split a g c (le_bytes 8 v)).
Qed.

Lemma zlen_int_bytes v : in_s 64 v -> 0 <= zlen (int_bytes v) <= 8.
Proof.
  intros Hv. split; [apply zlen_nonneg|]. unfold int_bytes.
  repeat case_match; autorewrite with zlen; cbn; lia.
Qed.

(** ** Strings *)

Definition str_enc (n : Z) : Z :=
  if n <=? 0x3f then ZIP_STR_06B else if n <=? 0x3fff then ZIP_STR_14B else ZIP_STR_32B.

Lemma zlen_entry_encoding n : 1 <= zlen (entry_encoding 0 n) <= 5.
Proof. unfold entry_encoding. cbn [ZIP_IS_STR]. change (ZIP_IS_STR 0) with true. cbn iota. repeat case_match; zlia. Qed.

Lemma byte_06 n : 0 <= n <= 63 ->
  u8 (Z.lor ZIP_STR_06B n) = n /\ (n <? ZIP_STR_MASK) = true /\ Z.land n ZIP_STR_MASK = ZIP_STR_06B /\ Z.land n 63 = n.
Proof.
  intros Hn. split; [cbn; apply uwrap_small; lia|]. split; [unfold ZIP_STR_MASK; lia|].
  pose proof (all_below_spec 64 (fun n => (Z.land n ZIP_STR_MASK =? ZIP_STR_06B) && (Z.land n 63 =? n)) n eq_refl). lia.
Qed.

Lemma byte_14 h : 0 <= h <= 63 -> exists b, u8 (Z.lor ZIP_STR_14B h) = b /\
  (b <? ZIP_STR_MASK) = true /\ Z.land b ZIP_STR_MASK = ZIP_STR_14B /\ Z.land b 63 = h.
Proof.
  intros Hh. eexists. split; [done|].
  pose proof (all_below_spec 64 (fun h => let b := u8 (Z.lor ZIP_STR_14B h) in
    (b <? ZIP_STR_MASK) && (Z.land b ZIP_STR_MASK =? ZIP_STR_14B) && (Z.land b 63 =? h)) h eq_refl ltac:(lia)) as H.
  cbn beta zeta in H. generalize dependent (u8 (Z.lor ZIP_STR_14B h)). lia.
Qed.

Lemma be_value n : 0 <= n < 2 ^ 32 ->
  Z.lor (Z.lor (Z.lor (Z.shiftl (Z.land (Z.shiftr n 24) 255) 24) (Z.shiftl (Z.land (Z.shiftr n 16) 255) 16))
    (Z.shiftl (Z.land (Z.shiftr n 8) 255) 8)) (Z.land n 255) = n.
Proof.
  intros Hn. pose proof (le_bytes_ok 4 n) as Hb. pose proof (le_val_small 4 n Hn) as Hv.
  rewrite le_bytes_4 in Hb, Hv. revert Hb Hv.
  generalize (Z.land n 255) (Z.land (Z.shiftr n 8) 255) (Z.land (Z.shiftr n 16) 255) (Z.land (Z.shiftr n 24) 255).
  intros b0 b1 b2 b3 Hb Hv. inversion Hb; subst. rewrite <- lor_bytes_le by done. cbn [lor_bytes Z.add Pos.add Pos.succ].
  rewrite (Z.lor_comm _ b0), (Z.lor_comm _ (Z.shiftl b1 8)), (Z.lor_comm (Z.shiftl b3 24)).
  by rewrite !Z.lor_assoc.
Qed.

(** Unfold the decoding of a length at a first byte that is in sight. *)
Ltac at_byte := unfold ZIP_DECODE_LENGTH, ZIP_ENTRY_ENCODING; rewrite !mget_split by done; cbn [mbind option_bind].

Lemma decode_string_head a n c p : 0 <= n < 2 ^ 32 -> p = zlen a ->
  ZIP_DECODE_LENGTH (a ++ entry_encoding 0 n ++ c) p = Some (str_enc n, zlen (entry_encoding 0 n), n).
Proof.
  intros Hn ->. unfold entry_encoding, str_enc. change (ZIP_IS_STR 0) with true. cbn iota.
  destruct (n <=? 0x3f) eqn:E1; [|destruct (n <=? 0x3fff) eqn:E2]; cbn [app].
  - destruct (byte_06 n ltac:(lia)) as (-> & Hlt & Hm & Hv). at_byte. rewrite Hlt, Hm. cbn [Z.ltb Z.compare].
    change (ZIP_STR_06B <? ZIP_STR_MASK) with true. change (ZIP_STR_06B =? ZIP_STR_06B) with true. cbn iota.
    by rewrite Hv.
  - destruct (byte_14 (Z.land (Z.shiftr n 8) 63)) as (b & -> & Hlt & Hm & Hv).
    { rewrite (land_ones_mod _ 6 ltac:(lia) : Z.land _ 63 = _). pose proof (Z.mod_pos_bound (Z.shiftr n 8) (2 ^ 6) ltac:(lia)). lia. }
    at_byte. rewrite Hlt, Hm. change (ZIP_STR_14B <? ZIP_STR_MASK) with true.
    change (ZIP_STR_14B =? ZIP_STR_06B) with false. change (ZIP_STR_14B =? ZIP_STR_14B) with true. cbn iota.
    rewrite mget_at1 by done. cbn [mbind option_bind]. rewrite Hv. do 2 f_equal.
    rewrite (land_ones_mod _ 6 ltac:(lia) : Z.land _ 63 = _), land_255, shiftr_8.
    rewrite (Z.mod_small (n / 256)) by (split; [apply Z.div_pos; lia|apply Z.div_lt_upper_bound; lia]).
    rewrite Z.lor_comm, lor_shiftl by (try apply Z.mod_pos_bound; lia). pose proof (Z.div_mod n 256 ltac:(lia)). lia.
  - at_byte. change (ZIP_STR_32B <? ZIP_STR_MASK) with true. cbn iota.
    change (Z.land ZIP_STR_32B ZIP_STR_MASK) with ZIP_STR_32B.
    change (ZIP_STR_32B <? ZIP_STR_MASK) with true. change (ZIP_STR_32B =? ZIP_STR_06B) with false.
    change (ZIP_STR_32B =? ZIP_STR_14B) with false. change (ZIP_STR_32B =? ZIP_STR_32B) with true. cbn iota.
    rewrite !mget_app_r by lia. replace (zlen a + 1 - zlen a) with 1 by lia. replace (zlen a + 2 - zlen a) with 2 by lia.
    replace (zlen a + 3 - zlen a) with 3 by lia. replace (zlen a + 4 - zlen a) with 4 by lia.
    unfold mget. cbn [Z.leb Z.compare]. change (Z.to_nat 1) with 1%nat. change (Z.to_nat 2) with 2%nat.
    change (Z.to_nat 3) with 3%nat. change (Z.to_nat 4) with 4%nat. cbn [lookup list_lookup mbind option_bind].
    by rewrite be_value, uwrap_small.
Qed.

(** ** Reading an entry *)

Definition zenc (e : list Z) : Z :=
  match zint e with Some v => int_encoding v | None => str_enc (zlen e) end.

Definition zprev_ok (b : bool) (prev : Z) : Prop := 0 <= prev < 2 ^ 32 /\ (b = false -> prev < 254).
Definition elem_ok (x : zelem) : Prop := rlen x < 2 ^ 32.

Lemma zint_in e v : zint e = Some v -> in_s 64 v.
Proof. by intros [? _]%zint_spec. Qed.

Lemma zlen_zhead e : 1 <= zlen (zhead e) <= 5.
Proof. unfold zhead. destruct (zint e); [zlia|]. apply zlen_entry_encoding. Qed.

Lemma rlen_pos x : 2 <= rlen x.
Proof. unfold rlen, psize. pose proof (zlen_zhead (snd x)). pose_zlen. destruct (fst x); lia. Qed.

Lemma rlen_bound x : rlen x <= zlen (snd x) + 18.
Proof.
  unfold rlen, psize, zload. pose proof (zlen_zhead (snd x)). pose_zlen.
  destruct (zint (snd x)) as [v|] eqn:E; [pose proof (zlen_int_bytes v (zint_in _ _ E))|]; destruct (fst x); lia.
Qed.

Lemma zenc_str e : ZIP_IS_STR (zenc e) = match zint e with Some _ => false | None => true end.
Proof.
  unfold zenc. destruct (zint e) as [v|] eqn:E.
  - apply int_encoding_spec. by eapply zint_in.
  - unfold str_enc. by repeat case_match.
Qed.

Lemma decode_head a e c p : zlen e < 2 ^ 32 -> p = zlen a ->
  ZIP_DECODE_LENGTH (a ++ zhead e ++ c) p = Some (zenc e, zlen (zhead e), zlen (zload e)).
Proof.
  intros He ->. unfold zhead, zenc, zload. destruct (zint e) as [v|] eqn:E.
  - destruct (int_encoding_spec v (zint_in _ _ E)) as (Hr & _ & Hs). cbn [app].
    at_byte. rewrite !(proj2 (Z.ltb_ge (int_encoding v) ZIP_STR_MASK)) by (unfold ZIP_STR_MASK; lia).
    by rewrite Hs.
  - apply decode_string_head; [pose_zlen; lia|done].
Qed.

Section AtEntry.
Variables (a c : list Z) (prev : Z) (x : zelem).
Hypotheses (Hprev : zprev_ok (fst x) prev) (Hx : elem_ok x).
Let m := a ++ zent prev x ++ c.

Lemma at_prevlensize : ZIP_DECODE_PREVLENSIZE m (zlen a) = Some (psize (fst x)).
Proof.
  clear Hx. unfold m, zent, ZIP_DECODE_PREVLENSIZE. destruct Hprev as [Hp Hs]. destruct (fst x); cbn [zprev prev_length_large app].
  - by rewrite mget_split.
  - rewrite mget_split by done. cbn. specialize (Hs eq_refl). unfold ZIP_BIG_PREVLEN. by zbool.
Qed.

Lemma at_prevlen : ZIP_DECODE_PREVLEN m (zlen a) = Some (psize (fst x), prev).
Proof.
  clear Hx. unfold ZIP_DECODE_PREVLEN. rewrite at_prevlensize. cbn [mbind option_bind].
  unfold m, zent. destruct Hprev as [Hp _]. destruct (fst x); cbn [psize zprev prev_length_large].
  - change (5 =? 1) with false. cbn iota.
    replace (a ++ (prev_length_large prev ++ zhead (snd x) ++ zload (snd x)) ++ c)
      with ((a ++ [ZIP_BIG_PREVLEN]) ++ le_bytes 4 prev ++ zhead (snd x) ++ zload (snd x) ++ c)
      by (unfold prev_length_large; cbn [app]; by rewrite <- !app_assoc).
    rewrite load_le_bytes by zlia. cbn [mbind option_bind]. do 2 f_equal. by apply Z.mod_small.
  - cbn [app Z.eqb Pos.eqb]. by rewrite mget_split.
Qed.

Lemma at_head : ZIP_DECODE_LENGTH m (zlen a + psize (fst x))
  = Some (zenc (snd x), zlen (zhead (snd x)), zlen (zload (snd x))).
Proof.
  clear Hprev. unfold m, zent. rewrite <- !app_assoc, app_assoc. apply decode_head; [|zlia].
  unfold elem_ok, rlen, zload in Hx. pose proof (zlen_zhead (snd x)). unfold psize in Hx.
  destruct (zint (snd x)) as [v|] eqn:E; [|destruct (fst x); lia].
  destruct (proj1 (zint_spec _ _) E) as [Hv ->]. pose proof (zlen_dec v Hv). lia.
Qed.

Lemma at_raw : zipRawEntryLength m (zlen a) = Some (rlen x).
Proof.
  unfold zipRawEntryLength. rewrite at_prevlensize. cbn [mbind option_bind]. rewrite at_head. cbn [mbind option_bind].
  f_equal. apply uwrap_small. unfold elem_ok in Hx. pose proof (rlen_pos x). fold (rlen x). lia.
Qed.

Lemma at_entry : zipEntry m (zlen a) = Some {|
  prevrawlensize := psize (fst x); prevrawlen := prev; lensize := zlen (zhead (snd x));
  len := zlen (zload (snd x)); headersize := psize (fst x) + zlen (zhead (snd x));
  encoding := zenc (snd x); ep := zlen a |}.
Proof.
  unfold zipEntry. rewrite at_prevlen. cbn [mbind option_bind fst snd]. rewrite at_head. cbn [mbind option_bind].
  do 2 f_equal. apply uwrap_small. pose proof (zlen_zhead (snd x)). unfold psize. destruct (fst x); lia.
Qed.

Lemma at_not_end : at_end m (zlen a) = Some false.
Proof.
  clear Hx. unfold m, zent, at_end. destruct Hprev as [Hp Hs]. destruct (fst x); cbn [zprev prev_length_large app];
    rewrite mget_split by done; cbn [mbind option_bind]; [done|].
  specialize (Hs eq_refl). unfold ZIP_END. by zbool.
Qed.

Lemma at_load p : p = zlen a + psize (fst x) + zlen (zhead (snd x)) ->
  match zint (snd x) with
  | Some v => zipLoadInteger m p (zenc (snd x)) = Some v
  | None => mread m p (zlen (snd x)) = Some (snd x)
  end.
Proof.
  clear Hprev Hx. intros ->. unfold m, zent, zenc, zload. destruct (zint (snd x)) as [v|] eqn:E.
  - rewrite <- !app_assoc, 2!app_assoc. apply load_integer; [by eapply zint_in|zlia].
  - rewrite <- !app_assoc, 2!app_assoc. apply mread_split; zlia.
Qed.
End AtEntry.
