(* ===== verification/ZiplistCascade.v ===== *)
(** * Updating the lengths of the entries that follow (ziplist.c)

    A ziplist as a header and a body, the body of a sequence of entries, and
    what [__ziplistCascadeUpdate] does to it: [zcascade]. *)
From Stdlib Require Import ZArith Lia String.
From stdpp Require Import base numbers list option.
From S2P Require Import Prelude UtilNum Ziplist ZiplistShape.

(** ** Bodies *)

Fixpoint zbody (prev : Z) (es : list zelem) : list Z :=
  match es with
  | [] => []
  | x :: es => zent prev x ++ zbody (rlen x) es
  end.

Fixpoint zsize (es : list zelem) : Z :=
  match es with
  | [] => 0
  | x :: es => rlen x + zsize es
  end.

(** The size of the last entry; [prev] when there is none. *)
Fixpoint last_size (prev : Z) (es : list zelem) : Z :=
  match es with
  | [] => prev
  | x :: es => last_size (rlen x) es
  end.

(** The first field of every entry can hold the size of the one before. *)
Fixpoint zflags (prev : Z) (es : list zelem) : Prop :=
  match es with
  | [] => True
  | x :: es => zprev_ok (fst x) prev /\ elem_ok x /\ zflags (rlen x) es
  end.

Lemma zlen_zbody prev es : zlen (zbody prev es) = zsize es.
Proof. revert prev. induction es as [|x es IH]; intros prev; [done|]. cbn [zbody zsize]. rewrite zlen_app, zlen_zent, IH. lia. Qed.
#[export] Hint Rewrite zlen_zbody : zlen.

Lemma zsize_nonneg es : 0 <= zsize es.
Proof. induction es as [|x es IH]; cbn [zsize]; [lia|]. pose proof (rlen_pos x). lia. Qed.

Lemma zsize_len es : 2 * zlen es <= zsize es.
Proof. induction es as [|x es IH]; cbn [zsize]; [done|]. rewrite zlen_cons. pose proof (rlen_pos x). lia. Qed.

Lemma zsize_app a b : zsize (a ++ b) = zsize a + zsize b.
Proof. induction a as [|x a IH]; cbn [zsize app]; [lia|]. rewrite IH. lia. Qed.

Lemma zbody_app prev a b : zbody prev (a ++ b) = zbody prev a ++ zbody (last_size prev a) b.
Proof. revert prev. induction a as [|x a IH]; intros prev; [done|]. cbn [zbody app last_size]. by rewrite IH, app_assoc. Qed.

Lemma last_size_app prev a b : last_size prev (a ++ b) = last_size (last_size prev a) b.
Proof. revert prev. induction a as [|x a IH]; intros prev; [done|]. apply IH. Qed.

Lemma zflags_app prev a b : zflags prev (a ++ b) <-> zflags prev a /\ zflags (last_size prev a) b.
Proof. revert prev. induction a as [|x a IH]; intros prev; cbn [app zflags last_size]; [tauto|]. rewrite IH. tauto. Qed.

(** The last entry is part of the body. *)
Lemma last_size_cons prev x es : last_size prev (x :: es) <= zsize (x :: es) /\ 2 <= last_size prev (x :: es).
Proof.
  revert prev x. induction es as [|y es IH]; intros prev x; cbn [last_size zsize].
  - pose proof (rlen_pos x). lia.
  - destruct (IH (rlen x) y) as [H1 H2]. cbn [last_size zsize] in H1, H2. pose proof (rlen_pos x). lia.
Qed.

Lemma last_size_range es : 0 <= last_size 0 es <= zsize es.
Proof. destruct es as [|x es]; [done|]. destruct (last_size_cons 0 x es). lia. Qed.

(** ** Header and body *)

Definition zhdr (total tail n : Z) : list Z := le_bytes 4 total ++ le_bytes 4 tail ++ le_bytes 2 n.
Definition zraw (tail n : Z) (X : list Z) : list Z := zhdr (11 + zlen X) tail n ++ X ++ [ZIP_END].

Lemma zlen_zhdr total tail n : zlen (zhdr total tail n) = 10.
Proof. unfold zhdr. by autorewrite with zlen. Qed.
#[export] Hint Rewrite zlen_zhdr : zlen.

Lemma zlen_zraw t n X : zlen (zraw t n X) = 11 + zlen X.
Proof. unfold zraw. zlia. Qed.
#[export] Hint Rewrite zlen_zraw : zlen.

Lemma raw_bytes t n X : 11 + zlen X < 2 ^ 32 -> ZIPLIST_BYTES (zraw t n X) = Some (11 + zlen X).
Proof.
  intros H. unfold ZIPLIST_BYTES, zraw, zhdr. rewrite <- !app_assoc. rewrite (load_le_bytes 4 [] _ 0 _ eq_refl : load_le 4 (le_bytes 4 _ ++ _) 0 = _).
  f_equal. pose_zlen. apply Z.mod_small. lia.
Qed.

Lemma raw_tail t n X : 0 <= t < 2 ^ 32 -> ZIPLIST_TAIL_OFFSET (zraw t n X) = Some t.
Proof.
  intros H. unfold ZIPLIST_TAIL_OFFSET, zraw, zhdr. rewrite <- !app_assoc. rewrite load_le_bytes by zlia.
  f_equal. by apply Z.mod_small.
Qed.

Lemma raw_length t n X : 0 <= n < 2 ^ 16 -> ZIPLIST_LENGTH (zraw t n X) = Some n.
Proof.
  intros H. unfold ZIPLIST_LENGTH, zraw, zhdr. rewrite <- !app_assoc, app_assoc. rewrite load_le_bytes by zlia.
  f_equal. by apply Z.mod_small.
Qed.

Lemma raw_set_tail t n X v : set_ZIPLIST_TAIL_OFFSET (zraw t n X) v = Some (zraw v n X).
Proof.
  unfold set_ZIPLIST_TAIL_OFFSET, zraw, zhdr. rewrite <- !app_assoc. rewrite store_le_at by zlia.
  by rewrite <- ?app_assoc.
Qed.

Lemma raw_set_length t n X v : set_ZIPLIST_LENGTH (zraw t n X) v = Some (zraw t v X).
Proof.
  unfold set_ZIPLIST_LENGTH, zraw, zhdr. rewrite <- !app_assoc, app_assoc. rewrite store_le_at by zlia.
  by rewrite <- ?app_assoc.
Qed.

(** The buffer around a part of the body. *)
Lemma raw_cut t n a b c :
  zraw t n (a ++ b ++ c) = (zhdr (11 + zlen (a ++ b ++ c)) t n ++ a) ++ b ++ (c ++ [ZIP_END]).
Proof. unfold zraw. by rewrite <- !app_assoc. Qed.

Lemma raw_write t n a b c bs p : p = 10 + zlen a -> zlen bs = zlen b ->
  mwrite (zraw t n (a ++ b ++ c)) p bs = Some (zraw t n (a ++ bs ++ c)).
Proof.
  intros -> Hl. rewrite raw_cut, mwrite_split by zlia. rewrite raw_cut. do 3 f_equal. f_equal. f_equal. zlia.
Qed.

Lemma raw_read t n a b c p k : p = 10 + zlen a -> k = zlen b ->
  mread (zraw t n (a ++ b ++ c)) p k = Some b.
Proof. intros -> ->. rewrite raw_cut. apply mread_split; zlia. Qed.

Lemma raw_end t n X p : p = 10 + zlen X -> at_end (zraw t n X) p = Some true.
Proof. intros ->. unfold at_end, zraw. rewrite app_assoc, mget_split by zlia. done. Qed.

Section RawEntry.
Variables (t n : Z) (a c : list Z) (prev : Z) (x : zelem) (p : Z).
Hypotheses (Hp : p = 10 + zlen a) (Hprev : zprev_ok (fst x) prev) (Hx : elem_ok x).
Let m := zraw t n (a ++ zent prev x ++ c).
Let h := zhdr (11 + zlen (a ++ zent prev x ++ c)) t n ++ a.

Lemma raw_place : m = h ++ zent prev x ++ (c ++ [ZIP_END]) /\ p = zlen h.
Proof. clear Hprev Hx. split; [apply raw_cut|]. unfold h. zlia. Qed.

Lemma raw_prevlensize : ZIP_DECODE_PREVLENSIZE m p = Some (psize (fst x)).
Proof. clear Hx. destruct raw_place as [-> ->]. by apply at_prevlensize. Qed.
Lemma raw_prevlen : ZIP_DECODE_PREVLEN m p = Some (psize (fst x), prev).
Proof. clear Hx. destruct raw_place as [-> ->]. by apply at_prevlen. Qed.
Lemma raw_head : ZIP_DECODE_LENGTH m (p + psize (fst x))
  = Some (zenc (snd x), zlen (zhead (snd x)), zlen (zload (snd x))).
Proof. clear Hprev. destruct raw_place as [-> ->]. by apply at_head. Qed.
Lemma raw_rawlen : zipRawEntryLength m p = Some (rlen x).
Proof. destruct raw_place as [-> ->]. by apply at_raw. Qed.
Lemma raw_entry : zipEntry m p = Some {|
  prevrawlensize := psize (fst x); prevrawlen := prev; lensize := zlen (zhead (snd x));
  len := zlen (zload (snd x)); headersize := psize (fst x) + zlen (zhead (snd x));
  encoding := zenc (snd x); ep := p |}.
Proof. destruct raw_place as [-> ->]. by apply at_entry. Qed.
Lemma raw_not_end : at_end m p = Some false.
Proof. clear Hx. destruct raw_place as [-> ->]. by apply at_not_end. Qed.
Lemma raw_load q : q = p + psize (fst x) + zlen (zhead (snd x)) ->
  match zint (snd x) with
  | Some v => zipLoadInteger m q (zenc (snd x)) = Some v
  | None => mread m q (zlen (snd x)) = Some (snd x)
  end.
Proof. clear Hprev Hx. destruct raw_place as [-> ->]. by apply at_load. Qed.
Lemma raw_rlen : u32 (psize (fst x) + zlen (zhead (snd x)) + zlen (zload (snd x))) = rlen x.
Proof. clear Hp Hprev. apply uwrap_small. pose proof (rlen_pos x). unfold elem_ok in Hx. fold (rlen x). lia. Qed.
End RawEntry.

(** ** Growing, cutting and moving *)

Section Moves.
Variable junk : nat -> Z.

Lemma resize_raw t n X Y W v : 0 <= v -> v = 11 + zlen Y -> v < 2 ^ 32 ->
  zrealloc junk (zraw t n X) v = zhdr (11 + zlen X) t n ++ Y ++ [W] ->
  ziplistResize junk (zraw t n X) v = Some (zraw t n Y).
Proof.
  intros Hv0 Hv Hm Hz. unfold ziplistResize. rewrite uwrap_small, Hz by lia.
  unfold set_ZIPLIST_BYTES, zhdr. rewrite <- !app_assoc. rewrite (store_le_at 4 [] _ _ 0 v eq_refl (zlen_le_bytes 4 _) : store_le 4 (le_bytes 4 _ ++ _) 0 v = _).
  cbn [mbind option_bind app]. unfold zraw, zhdr. rewrite !app_assoc.
  rewrite mset_split by zlia. by rewrite Hv, <- !app_assoc.
Qed.

Lemma resize_grow t n X v : 11 + zlen X <= v -> v < 2 ^ 32 ->
  exists Y, zlen Y = v - 11 - zlen X /\ ziplistResize junk (zraw t n X) v = Some (zraw t n (X ++ Y)) /\
    at_end (zraw t n (X ++ Y)) (10 + zlen X) = Some true.
Proof.
  intros Hle Hv. destruct (zrealloc_grow junk (zraw t n X) v) as (j & Hj & Hl); [zlia|].
  autorewrite with zlen in Hl. pose_zlen. assert (Hne : exists Y W, [ZIP_END] ++ j = Y ++ [W]).
  { destruct j as [|w j _] using rev_ind; [by exists [], ZIP_END|]. exists (ZIP_END :: j), w. done. }
  destruct Hne as (Y & W & HY). exists Y.
  assert (HlY : zlen Y = v - 11 - zlen X) by (apply (f_equal zlen) in HY; autorewrite with zlen in HY; lia).
  split; [done|]. split.
  { eapply resize_raw; [lia|zlia|done|]. rewrite Hj. unfold zraw. rewrite <- !app_assoc. by rewrite HY. }
  destruct Y as [|y Y]; [rewrite app_nil_r; by apply raw_end|]. injection HY as <- _.
  unfold at_end, zraw. rewrite <- app_assoc, app_assoc. cbn [app]. by rewrite mget_split by zlia.
Qed.

Lemma resize_cut t n X Y : 11 + zlen X < 2 ^ 32 ->
  ziplistResize junk (zraw t n (X ++ Y)) (11 + zlen X) = Some (zraw t n X).
Proof.
  intros Hv. pose_zlen. destruct (zlen_cut (Y ++ [ZIP_END]) 1) as (w & c & Hw & Hl); [zlia|].
  destruct w as [|w [|]]; try (exfalso; zlia).
  eapply (resize_raw t n (X ++ Y) X w); [lia|done|done|].
  unfold zraw. rewrite <- (app_assoc X), Hw. rewrite (app_assoc X [w]), (app_assoc (zhdr _ _ _)).
  replace (11 + zlen X) with (zlen (zhdr (11 + zlen (X ++ Y)) t n ++ X ++ [w])) by zlia.
  apply zrealloc_shrink.
Qed.

(** [memmove] of [R], and of [g] bytes before it, so that [R] comes to lie [k]
    bytes after [A]. *)
Lemma raw_move t n A F R Y k g dst src cnt :
  0 <= g <= k -> g <= 10 + zlen A + zlen F -> k <= zlen F + zlen Y ->
  dst = 10 + zlen A + k - g -> src = 10 + zlen A + zlen F - g -> cnt = g + zlen R ->
  exists K Y', zlen K = k /\ zlen Y' = zlen F + zlen Y - k /\
    mmove (zraw t n (A ++ F ++ R ++ Y)) dst src cnt = Some (zraw t n (A ++ K ++ R ++ Y')).
Proof.
  intros Hg HgA Hk -> -> ->. set (m := zraw _ _ _). pose_zlen.
  set (h := zhdr (11 + zlen (A ++ F ++ R ++ Y)) t n).
  destruct (zlen_cut (h ++ A ++ F) (10 + zlen A + zlen F - g)) as (P & G & HP & HlP); [subst h; zlia|].
  assert (HlG : zlen G = g) by (apply (f_equal zlen) in HP; subst h; autorewrite with zlen in HP; lia).
  assert (Hm : m = P ++ (G ++ R) ++ (Y ++ [ZIP_END])).
  { unfold m, zraw. fold h. rewrite <- (app_assoc G), (app_assoc P), <- HP. by rewrite <- !app_assoc. }
  unfold mmove. rewrite Hm, mread_split by zlia. cbn [mbind option_bind]. rewrite <- Hm.
  destruct (zlen_cut (F ++ R ++ Y) (k - g)) as (K1 & V & HV & HK1); [zlia|].
  destruct (zlen_cut V (g + zlen R)) as (W & Y' & -> & HW).
  { apply (f_equal zlen) in HV. autorewrite with zlen in HV. lia. }
  assert (HY' : zlen Y' = zlen F + zlen Y - k).
  { apply (f_equal zlen) in HV. autorewrite with zlen in HV. lia. }
  exists (K1 ++ G), Y'. split; [zlia|]. split; [done|].
  unfold m. rewrite HV. rewrite (app_assoc A K1), raw_write by zlia. by rewrite <- !app_assoc.
Qed.

(** ** The cascade *)

(** The entries as [__ziplistCascadeUpdate] leaves them, where the one before is
    now [prev] bytes long: fields of one byte that cannot hold the length grow,
    and the first field that can stops the update. *)
Fixpoint zcascade (prev : Z) (es : list zelem) : list zelem :=
  match es with
  | [] => []
  | (b, e) :: r =>
      if negb b && (254 <=? prev) then (true, e) :: zcascade (rlen (true, e)) r else (b, e) :: r
  end.

Lemma rlen_true e : rlen (true, e) = rlen (false, e) + 4.
Proof. unfold rlen. cbn [fst snd psize]. lia. Qed.

Lemma zcascade_snd prev es : snd <$> zcascade prev es = snd <$> es.
Proof.
  revert prev. induction es as [|[b e] es IH]; intros prev; [done|]. cbn [zcascade].
  destruct (negb b && _); [|done]. cbn. by rewrite IH.
Qed.

Lemma zcascade_size prev es : zsize es <= zsize (zcascade prev es).
Proof.
  revert prev. induction es as [|[b e] es IH]; intros prev; [done|]. cbn [zcascade].
  destruct (negb b && (254 <=? prev)) eqn:E; [|done]. destruct b; [done|]. cbn [zsize].
  rewrite rlen_true. specialize (IH (rlen (false, e) + 4)). lia.
Qed.

Lemma zcascade_len prev es : length (zcascade prev es) = length es.
Proof. rewrite <- (length_fmap snd), zcascade_snd. by rewrite length_fmap. Qed.

(** A consistent sequence is left alone. *)
Lemma zcascade_id prev es : zflags prev es -> zcascade prev es = es.
Proof.
  destruct es as [|[b e] es]; [done|]. intros [[_ Hb] _]. cbn [zcascade fst] in *.
  destruct b; [done|]. specialize (Hb eq_refl). by zbool.
Qed.

(** Afterwards the sequence is consistent again. *)
Lemma zcascade_flags s prev es : zflags s es -> 0 <= prev < 2 ^ 32 -> zsize (zcascade prev es) < 2 ^ 32 ->
  zflags prev (zcascade prev es).
Proof.
  revert s prev. induction es as [|[b e] es IH]; intros s prev Hf Hp Hs; [done|].
  cbn [zcascade] in *. destruct Hf as ([Hs0 Hb] & Hok & Hf). cbn [fst] in *.
  destruct (negb b && (254 <=? prev)) eqn:E.
  - destruct b; [done|]. cbn [zsize] in Hs. pose proof (zsize_nonneg (zcascade (rlen (true, e)) es)).
    pose proof (rlen_pos (true, e)). cbn [zflags fst]. split; [done|]. split; [unfold elem_ok; lia|].
    apply (IH (rlen (false, e))); [done|lia|lia].
  - split; [|by split]. split; [done|]. cbn [fst]. intros ->. lia.
Qed.

(** The offset of the last entry of a body that ends with [es]. *)
Definition tail_at (X : list Z) (prev : Z) (es : list zelem) : Z := 10 + zlen X - last_size prev es.

Lemma prev_length_zprev prev : prev_length prev = zprev (254 <=? prev) prev.
Proof. unfold prev_length, ZIP_BIG_PREVLEN. destruct (254 <=? prev) eqn:E; by zbool. Qed.

Lemma last_size_grow p q x es : last_size p (x :: es) = last_size q (x :: es).
Proof. done. Qed.

(** One field grows: the buffer, the offset of the tail and the entries that
    follow. *)
Lemma cascade_grow {B} t n A s e r prev (K : list Z -> option B) :
  254 <= prev < 2 ^ 32 -> zflags s ((false, e) :: r) ->
  let X := A ++ zent s (false, e) ++ zbody (rlen (false, e)) r in
  let X1 := A ++ zent prev (true, e) ++ zbody (rlen (false, e)) r in
  11 + zlen X1 < 2 ^ 32 -> t = tail_at X (rlen (false, e)) r ->
  (zl ← ziplistResize junk (zraw t n X) (11 + zlen X + (5 - 1));
   tail ← ZIPLIST_TAIL_OFFSET zl;
   zl ← (if negb (tail =? 10 + zlen A) then set_ZIPLIST_TAIL_OFFSET zl (u32 (tail + (5 - 1))) else Some zl);
   zl ← mmove zl (10 + zlen A + 5) (10 + zlen A + 1) (11 + zlen X - (10 + zlen A) - 1 - 1);
   r ← zipStorePrevEntryLength zl (10 + zlen A) prev; K (fst r))
  = K (zraw (tail_at X1 (rlen (true, e)) r) n X1).
Proof.
  intros Hprev Hf X X1 Hb ->. unfold X, X1 in *. clear X X1. unfold zent in *. cbn [fst snd zprev] in *.
  set (R := zhead e ++ zload e) in *. assert (HR : zlen R = rlen (false, e) - 1).
  { unfold R, rlen. cbn [fst snd psize]. zlia. }
  rewrite <- app_assoc. set (Q := R ++ zbody (rlen (false, e)) r).
  assert (HQ : zlen Q = rlen (false, e) - 1 + zsize r) by (unfold Q; zlia).
  assert (HX1 : A ++ (prev_length_large prev ++ R) ++ zbody (rlen (false, e)) r = A ++ prev_length_large prev ++ Q).
  { unfold Q. by rewrite <- !app_assoc. }
  rewrite HX1 in *. clear HX1. pose proof (zsize_nonneg r). pose proof (rlen_pos (false, e)).
  assert (Hp5 : zlen (prev_length_large prev) = 5) by (unfold prev_length_large; zlia).
  assert (Hlen : zlen (A ++ prev_length_large prev ++ Q) = zlen (A ++ [s] ++ Q) + 4) by zlia.
  assert (Htail : (tail_at (A ++ [s] ++ Q) (rlen (false, e)) r =? 10 + zlen A) = bool_decide (r = []) /\
    0 <= tail_at (A ++ [s] ++ Q) (rlen (false, e)) r <= 10 + zlen (A ++ [s] ++ Q)).
  { unfold tail_at. destruct r as [|y r]; [cbn [last_size zsize] in *; split; [apply Z.eqb_eq|]; zlia|].
    destruct (last_size_cons (rlen (false, e)) y r). split; [apply Z.eqb_neq; zlia|zlia]. }
  destruct Htail as [Htl Htr].
  destruct (resize_grow (tail_at (A ++ [s] ++ Q) (rlen (false, e)) r) n (A ++ [s] ++ Q)
    (11 + zlen (A ++ [s] ++ Q) + (5 - 1))) as (Y & HY & -> & _); [lia|lia|].
  cbn [mbind option_bind]. rewrite raw_tail by lia. cbn [mbind option_bind]. rewrite Htl.
  set (t' := tail_at (A ++ prev_length_large prev ++ Q) (rlen (true, e)) r).
  assert (Hset : (if negb (bool_decide (r = []))
    then set_ZIPLIST_TAIL_OFFSET (zraw (tail_at (A ++ [s] ++ Q) (rlen (false, e)) r) n ((A ++ [s] ++ Q) ++ Y))
      (u32 (tail_at (A ++ [s] ++ Q) (rlen (false, e)) r + (5 - 1)))
    else Some (zraw (tail_at (A ++ [s] ++ Q) (rlen (false, e)) r) n ((A ++ [s] ++ Q) ++ Y)))
    = Some (zraw t' n ((A ++ [s] ++ Q) ++ Y))).
  { unfold t', tail_at in *. rewrite Hlen. destruct r as [|y r].
    - cbn [bool_decide negb last_size]. rewrite bool_decide_true by done. cbn [negb]. do 2 f_equal.
      rewrite rlen_true. lia.
    - rewrite bool_decide_false by done. cbn [negb]. rewrite raw_set_tail. do 2 f_equal.
      rewrite (last_size_grow (rlen (true, e)) (rlen (false, e)) y r). rewrite uwrap_small by lia. lia. }
  rewrite Hset. cbn [mbind option_bind]. rewrite <- !app_assoc.
  destruct (raw_move t' n A [s] Q Y 5 0 (10 + zlen A + 5) (10 + zlen A + 1)
    (11 + zlen (A ++ [s] ++ Q) - (10 + zlen A) - 1 - 1)) as (G & Y' & HG & HY' & ->); [zlia..|].
  cbn [mbind option_bind]. assert (Y' = []) as -> by (destruct Y'; [done|zlia]). rewrite app_nil_r.
  unfold zipStorePrevEntryLength, prev_length, ZIP_BIG_PREVLEN. zbool.
  rewrite raw_write by zlia. done.
Qed.

(** A field that is large enough takes the new length. *)
Lemma prev_store t n A s b e r prev : 0 <= prev < 2 ^ 32 -> negb b && (254 <=? prev) = false ->
  let zl := zraw t n (A ++ zent s (b, e) ++ zbody (rlen (b, e)) r) in
  (if psize b <? psize (254 <=? prev) then None
   else if psize b >? psize (254 <=? prev) then zipStorePrevEntryLengthLarge zl (10 + zlen A) prev
   else r ← zipStorePrevEntryLength zl (10 + zlen A) prev; Some (fst r))
  = Some (zraw t n (A ++ zent prev (b, e) ++ zbody (rlen (b, e)) r)).
Proof.
  intros Hprev E zl. unfold zl, zent. cbn [fst snd]. rewrite <- !app_assoc.
  assert (Hw : forall bs, zlen bs = psize b -> bs = zprev b prev ->
    mwrite (zraw t n (A ++ zprev b s ++ zhead e ++ zload e ++ zbody (rlen (b, e)) r)) (10 + zlen A) bs
    = Some (zraw t n (A ++ zprev b prev ++ zhead e ++ zload e ++ zbody (rlen (b, e)) r))).
  { intros bs Hl ->. apply raw_write; zlia. }
  unfold zipStorePrevEntryLengthLarge, zipStorePrevEntryLength. rewrite prev_length_zprev.
  destruct b, (254 <=? prev) eqn:E2; try done; cbn [psize Z.ltb Z.gtb Z.compare Pos.compare Pos.compare_cont];
    by rewrite Hw.
Qed.

(** The loop, from an entry [x] that has its final size: what follows was
    consistent with the size [s] that [x] had before. *)
Lemma cascade_loop_spec rest (fuel : nat) n a prev0 x s t curlen :
  zprev_ok (fst x) prev0 -> elem_ok x -> zflags s rest -> (length rest < fuel)%nat ->
  let X := a ++ zent prev0 x ++ zbody s rest in
  let rest' := zcascade (rlen x) rest in
  let X' := a ++ zent prev0 x ++ zbody (rlen x) rest' in
  11 + zlen X' < 2 ^ 32 -> t = tail_at X (rlen x) rest -> curlen = 11 + zlen X ->
  cascade_loop junk fuel (zraw t n X) (10 + zlen a) curlen = Some (zraw (tail_at X' (rlen x) rest') n X').
Proof.
  revert fuel a prev0 x s t curlen. induction rest as [|[b e] r IH]; intros fuel a prev0 x s t curlen Hx Hok Hf Hfuel;
    intros X rest' X' Hb Ht ->; (destruct fuel as [|fuel]; [cbn in Hfuel; lia|]); cbn [cascade_loop];
    pose proof (raw_not_end t n a (zbody s _) prev0 x _ eq_refl Hx : at_end (zraw t n X) _ = _) as E1;
    pose proof (raw_entry t n a (zbody s _) prev0 x _ eq_refl Hx Hok : zipEntry (zraw t n X) _ = _) as E2;
    rewrite E1; cbn [mbind option_bind]; rewrite E2; cbn [mbind option_bind headersize len];
    rewrite raw_rlen by done.
  - rewrite raw_end by (unfold X; cbn [zbody]; zlia). cbn [mbind option_bind]. by rewrite Ht.
  - destruct Hf as (Hp & Hoke & Hf). cbn [fst] in Hp. pose proof (rlen_pos x) as Hrx.
    set (A := a ++ zent prev0 x).
    assert (HX : X = A ++ zent s (b, e) ++ zbody (rlen (b, e)) r) by (unfold X, A; by rewrite <- app_assoc).
    replace (10 + zlen a + rlen x) with (10 + zlen A) by (unfold A; zlia).
    clearbody X. subst X. clear E1 E2. rewrite raw_not_end by done. cbn [mbind option_bind].
    rewrite raw_entry by done. cbn [mbind option_bind prevrawlen prevrawlensize fst snd].
    unfold rest' in X', Hb |- *. cbn [zcascade] in X', Hb |- *.
    assert (HX' : forall rest, a ++ zent prev0 x ++ zbody (rlen x) rest = A ++ zbody (rlen x) rest)
      by (intros; unfold A; by rewrite <- app_assoc).
    unfold X' in *. clear X' rest'. rewrite HX' in *. clear HX'. rewrite prev_length_zprev, zlen_zprev.
    assert (Hrx2 : 0 <= rlen x < 2 ^ 32) by (unfold elem_ok in Hok; lia).
    destruct (negb b && (254 <=? rlen x)) eqn:E; cbn [zbody] in Hb |- *.
    + destruct b; [done|]. cbn [negb andb] in E. rewrite E. destruct Hp as [Hps Hp]. specialize (Hp eq_refl).
      zbool. cbn [psize Z.ltb Z.compare Pos.compare Pos.compare_cont].
      pose proof (zcascade_size (rlen (true, e)) r) as Hsz.
      rewrite (cascade_grow t n A s e r (rlen x) (fun zl => cascade_loop junk fuel zl (10 + zlen A) _));
        [|lia|split; [by split|done]|autorewrite with zlen in *; lia|done].
      rewrite (IH fuel A (rlen x) (true, e) (rlen (false, e))); [done|by split|..].
      * unfold elem_ok. autorewrite with zlen in Hb. pose proof (zsize_nonneg (zcascade (rlen (true, e)) r)).
        pose_zlen. lia.
      * done.
      * cbn [length] in Hfuel. lia.
      * done.
      * done.
      * autorewrite with zlen. rewrite rlen_true. lia.
    + destruct (s =? rlen x) eqn:Es.
      { assert (s = rlen x) as -> by lia. by rewrite Ht. }
      pose proof (prev_store t n A s b e r (rlen x) Hrx2 E) as Hst. cbn zeta in Hst.
      destruct (psize b <? psize (254 <=? rlen x)); [done|]. rewrite Hst, Ht.
      do 2 f_equal. unfold tail_at. cbn [last_size]. zlia.
Qed.

Lemma cascade_spec n a prev0 x s rest t :
  zprev_ok (fst x) prev0 -> elem_ok x -> zflags s rest ->
  let X := a ++ zent prev0 x ++ zbody s rest in
  let rest' := zcascade (rlen x) rest in
  let X' := a ++ zent prev0 x ++ zbody (rlen x) rest' in
  11 + zlen X' < 2 ^ 32 -> t = tail_at X (rlen x) rest ->
  __ziplistCascadeUpdate junk (zraw t n X) (10 + zlen a) = Some (zraw (tail_at X' (rlen x) rest') n X').
Proof.
  intros Hx Hok Hf X rest' X' Hb Ht. pose proof (zcascade_size (rlen x) rest) as Hsz.
  assert (HX : zlen X = zlen a + rlen x + zsize rest) by (unfold X; zlia).
  assert (HX' : zlen X' = zlen a + rlen x + zsize rest') by (unfold X'; zlia).
  unfold __ziplistCascadeUpdate. rewrite raw_bytes by (unfold rest' in *; lia). cbn [mbind option_bind].
  apply cascade_loop_spec; auto. pose proof (zsize_len rest). pose proof (zlen_zraw t n X). pose proof (rlen_pos x).
  pose_zlen. unfold zlen in *. lia.
Qed.

(** The call is skipped when the entry keeps its size. *)
Lemma cascade_step n a prev0 x s rest t d :
  zprev_ok (fst x) prev0 -> elem_ok x -> zflags s rest -> (d = 0 -> s = rlen x) ->
  let X := a ++ zent prev0 x ++ zbody s rest in
  let rest' := zcascade (rlen x) rest in
  let X' := a ++ zent prev0 x ++ zbody (rlen x) rest' in
  11 + zlen X' < 2 ^ 32 -> t = tail_at X (rlen x) rest ->
  (if negb (d =? 0) then __ziplistCascadeUpdate junk (zraw t n X) (10 + zlen a) else Some (zraw t n X))
  = Some (zraw (tail_at X' (rlen x) rest') n X').
Proof.
  intros Hx Hok Hf Hd X rest' X' Hb Ht. destruct (d =? 0) eqn:E; cbn [negb]; [|by apply cascade_spec].
  assert (s = rlen x) as -> by (apply Hd; lia). unfold X', rest'. by rewrite zcascade_id, Ht.
Qed.
End Moves.
