(* ===== verification/ZiplistInsert.v ===== *)
(** * Inserting into a ziplist (ziplist.c)

    The representation of a sequence of entries, and [__ziplistInsert]. *)
From Stdlib Require Import ZArith Lia String.
From stdpp Require Import base numbers list option.
From S2P Require Import Prelude UtilNum Ziplist ZiplistShape ZiplistCascade.

(** ** The representation *)

(** The number in the header: exact, or the mark that the list must be walked. *)
Definition znum (n k : Z) : Prop := n = UINT16_MAX \/ (n = k /\ k < UINT16_MAX).

Definition zrep (zl : list Z) (es : list zelem) : Prop :=
  11 + zsize es < 2 ^ 32 /\ zflags 0 es /\
  exists n, znum n (zlen es) /\ zl = zraw (tail_at (zbody 0 es) 0 es) n (zbody 0 es).

Lemma znum_range n k : 0 <= k -> znum n k -> 0 <= n < 2 ^ 16.
Proof. unfold znum, UINT16_MAX. lia. Qed.

Lemma raw_incr t n X k d : 0 <= k -> 0 <= k + d -> d <= 1 -> znum n k ->
  exists n', ZIPLIST_INCR_LENGTH (zraw t n X) d = Some (zraw t n' X) /\ znum n' (k + d).
Proof.
  intros Hk Hkd Hd Hn. unfold ZIPLIST_INCR_LENGTH. rewrite raw_length by (by apply (znum_range n k)).
  cbn [mbind option_bind]. destruct (n <? UINT16_MAX) eqn:E.
  - rewrite raw_set_length. eexists. split; [done|]. unfold znum, UINT16_MAX in *.
    destruct Hn as [->|[-> Hlt]]; [lia|]. rewrite uwrap_small by lia. lia.
  - exists n. split; [done|]. left. unfold znum, UINT16_MAX in *. lia.
Qed.

(** What the header says about the tail. *)
Lemma tail_range X prev es : 0 <= prev -> last_size prev es <= zlen X -> 0 <= last_size prev es ->
  0 <= tail_at X prev es <= 10 + zlen X.
Proof. unfold tail_at. lia. Qed.

(** ** The entry of a new string *)

Definition znew (prev : Z) (s : list Z) : zelem := (254 <=? prev, s).

Lemma znew_ok prev s : 0 <= prev < 2 ^ 32 -> zprev_ok (fst (znew prev s)) prev.
Proof. intros. unfold znew, zprev_ok. cbn [fst]. split; [done|]. lia. Qed.

(** The choice between an integer and a string. *)
Lemma encode_spec s : exists value enc,
  default (123456789, 0) ((fun v => (v, int_encoding v)) <$> zint s) = (value, enc) /\
  (match (fun v => (v, int_encoding v)) <$> zint s with
   | Some _ => zipIntSize enc | None => Some (zlen s) end) = Some (zlen (zload s)) /\
  entry_encoding enc (zlen s) = zhead s /\
  forall t n a g c p, p = 10 + zlen a -> zlen g = zlen (zload s) ->
    (if ZIP_IS_STR enc then mwrite (zraw t n (a ++ g ++ c)) p (take (Z.to_nat (zlen s)) s)
     else zipSaveInteger (zraw t n (a ++ g ++ c)) p value enc) = Some (zraw t n (a ++ zload s ++ c)).
Proof.
  unfold zhead, zload. destruct (zint s) as [v|] eqn:E; cbn [fmap option_fmap option_map default].
  - assert (Hv : in_s 64 v) by (by eapply zint_in). destruct (int_encoding_spec v Hv) as (Hr & Hs & Hz).
    exists v, (int_encoding v). split; [done|]. split; [done|].
    split; [unfold entry_encoding; by rewrite Hs|].
    intros t n a g c p -> Hg. rewrite Hs, !raw_cut, save_integer by (done || zlia).
    do 3 f_equal. f_equal. zlia.
  - exists 123456789, 0. split; [done|]. split; [done|]. split; [done|].
    intros t n a g c p -> Hg. change (ZIP_IS_STR 0) with true. cbn iota.
    replace (take (Z.to_nat (zlen s)) s) with s by (unfold zlen; by rewrite Nat2Z.id, firstn_all).
    by apply raw_write.
Qed.

(** Storing the entry in a gap of its size. *)
Lemma write_entry {B} t n L G R prev s p value enc (K : list Z -> option B) :
  zlen G = rlen (znew prev s) -> p = 10 + zlen L ->
  entry_encoding enc (zlen s) = zhead s ->
  (forall t n a g c p, p = 10 + zlen a -> zlen g = zlen (zload s) ->
    (if ZIP_IS_STR enc then mwrite (zraw t n (a ++ g ++ c)) p (take (Z.to_nat (zlen s)) s)
     else zipSaveInteger (zraw t n (a ++ g ++ c)) p value enc) = Some (zraw t n (a ++ zload s ++ c))) ->
  (r ← zipStorePrevEntryLength (zraw t n (L ++ G ++ R)) p prev;
   let '(zl, n) := r in
   let p := p + n in
   r ← zipStoreEntryEncoding zl p enc (zlen s);
   let '(zl, n) := r in
   let p := p + n in
   zl ← (if ZIP_IS_STR enc then mwrite zl p (take (Z.to_nat (zlen s)) s)
         else zipSaveInteger zl p value enc);
   K zl) = K (zraw t n (L ++ zent prev (znew prev s) ++ R)).
Proof.
  intros HG -> Henc Hload. unfold rlen in HG. cbn [fst snd znew] in HG.
  pose proof (zlen_zhead s). pose_zlen.
  destruct (zlen_cut G (psize (254 <=? prev))) as (G1 & G2 & -> & HG1).
  { unfold psize in *. destruct (254 <=? prev); lia. }
  rewrite zlen_app in HG. destruct (zlen_cut G2 (zlen (zhead s))) as (G3 & G4 & -> & HG3); [lia|].
  rewrite zlen_app in HG. unfold zipStorePrevEntryLength. rewrite prev_length_zprev.
  rewrite <- !app_assoc. rewrite raw_write by zlia. cbn [mbind option_bind].
  unfold zipStoreEntryEncoding. rewrite Henc, (app_assoc L), raw_write by zlia. cbn [mbind option_bind].
  rewrite (app_assoc _ (zhead s)), Hload by zlia. cbn [mbind option_bind].
  unfold zent, znew. cbn [fst snd]. by rewrite <- !app_assoc.
Qed.

(** The offset of the tail moves with an entry that changes its size by [d],
    unless it is the tail. *)
Lemma tail_fix n A m x s r T T2 d p :
  let X := A ++ zent m x ++ zbody s r in
  p = 10 + zlen A + rlen x -> zflags s r -> 0 <= T < 2 ^ 32 -> 0 <= T2 < 2 ^ 32 ->
  (r = [] -> T = T2) -> (r <> [] -> T + d = T2) ->
  (e ← at_end (zraw T n X) p;
   if negb e then
     tailoff ← ZIPLIST_TAIL_OFFSET (zraw T n X); set_ZIPLIST_TAIL_OFFSET (zraw T n X) (u32 (tailoff + d))
   else Some (zraw T n X)) = Some (zraw T2 n X).
Proof.
  intros X -> Hf HT HT2 H0 H1. destruct r as [|y r].
  - rewrite raw_end by (unfold X; cbn [zbody]; zlia). cbn [mbind option_bind negb]. by rewrite H0.
  - assert (HX : X = (A ++ zent m x) ++ zent s y ++ zbody (rlen y) r) by (unfold X; by rewrite <- app_assoc).
    destruct Hf as (Hy & Hoky & _). rewrite HX at 1.
    rewrite raw_not_end by (done || zlia). cbn [mbind option_bind negb].
    rewrite raw_tail by done. cbn [mbind option_bind]. rewrite raw_set_tail, H1 by done. do 2 f_equal.
    by apply uwrap_small.
Qed.

(** The last entry lies inside the body. *)
Lemma tail_in A m x s r : let X := A ++ zent m x ++ zbody s r in
  10 + zlen A <= tail_at X (rlen x) r <= 10 + zlen X.
Proof.
  intros X. assert (HX : zlen X = zlen A + rlen x + zsize r) by (unfold X; zlia). unfold tail_at. rewrite HX.
  pose proof (rlen_pos x). pose_zlen. destruct r as [|y r]; [cbn [last_size zsize]; lia|].
  destruct (last_size_cons (rlen x) y r). lia.
Qed.

(** ** Making room before an entry *)

(** The first field of the entry that follows the new one of size [n]: a field
    of five bytes is kept when giving up four would shrink the list. *)
Definition next_flag (b : bool) (n : Z) : bool := (254 <=? n) || (b && (n <? 4)).

Lemma next_flag_ok b n : 0 <= n < 2 ^ 32 -> zprev_ok (next_flag b n) n.
Proof. intros. split; [done|]. unfold next_flag. intros. lia. Qed.

Lemma next_diff b n : 2 <= n ->
  let d := psize (254 <=? n) - psize b in
  (if (d =? -4) && (n <? 4) then (0, true) else (d, false))
  = (psize (next_flag b n) - psize b, b && (n <? 4)) /\
  (b && (n <? 4) = false -> next_flag b n = (254 <=? n)) /\
  0 <= n + (psize (next_flag b n) - psize b).
Proof.
  intros Hn. unfold next_flag. destruct b, (254 <=? n) eqn:E1, (n <? 4) eqn:E2; cbn; (try done); repeat split; lia.
Qed.

Section Insert.
Variable junk : nat -> Z.

(** The move: [K] is the gap for the new entry and [G] the place of the first
    field of the one that follows. *)
Lemma insert_move t n L b prev tl Y q (m : Z) :
  let d := psize q - psize b in
  2 <= m -> 0 <= m + d -> zlen Y = m + d ->
  exists K G, zlen K = m /\ zlen G = psize q /\
    mmove (zraw t n ((L ++ zprev b prev ++ tl) ++ Y)) (10 + zlen L + m) (10 + zlen L - d)
      (psize b + zlen tl + d) = Some (zraw t n (L ++ K ++ G ++ tl)).
Proof.
  intros d Hm Hd HY. rewrite <- !app_assoc. assert (Hb : 1 <= psize b <= 5) by (by destruct b).
  assert (Hq : 1 <= psize q <= 5) by (by destruct q).
  destruct (zlen_cut (zprev b prev) (Z.max 0 (- d))) as (F & G2 & HF & HlF); [rewrite zlen_zprev; lia|].
  assert (HlG2 : zlen G2 = psize b - Z.max 0 (- d)).
  { apply (f_equal zlen) in HF. autorewrite with zlen in HF. lia. }
  rewrite HF, <- app_assoc, (app_assoc G2 tl Y). pose_zlen.
  destruct (raw_move t n L F (G2 ++ tl) Y (m + Z.max 0 d) (Z.max 0 d) (10 + zlen L + m) (10 + zlen L - d)
    (psize b + zlen tl + d)) as (K' & Y' & HK & HY' & Hmv); [lia|lia|lia|lia|lia|zlia|].
  rewrite <- app_assoc in Hmv. rewrite <- app_assoc, Hmv.
  destruct (zlen_cut K' m) as (K & G1 & -> & HlK); [lia|]. rewrite zlen_app in HK.
  assert (Y' = []) as -> by (destruct Y'; [done|zlia]).
  exists K, (G1 ++ G2). split; [done|]. split; [zlia|]. by rewrite app_nil_r, <- !app_assoc.
Qed.

(** The entry after the new one: its first field and the offset of the tail. *)
Lemma insert_next n L b e r prev m T Y (p : Z) (force : bool) :
  let q := next_flag b m in
  let d := psize q - psize b in
  let X := L ++ zent prev (b, e) ++ zbody (rlen (b, e)) r in
  2 <= m < 2 ^ 32 -> 0 <= m + d -> (force = false -> q = (254 <=? m)) -> (force = true -> q = true) ->
  zlen Y = m + d -> p = 10 + zlen L ->
  elem_ok (q, e) -> zflags (rlen (b, e)) r -> 11 + zlen X + m < 2 ^ 32 -> 11 + zlen X + m + d < 2 ^ 32 ->
  T = tail_at X (rlen (b, e)) r ->
  exists G, zlen G = m /\
  (zl ← mmove (zraw T n (X ++ Y)) (p + m) (p - d) (11 + zlen X - p - 1 + d);
   zl ← (if force then zipStorePrevEntryLengthLarge zl (p + m) m
         else r ← zipStorePrevEntryLength zl (p + m) m; Some (fst r));
   tailoff ← ZIPLIST_TAIL_OFFSET zl;
   zl ← set_ZIPLIST_TAIL_OFFSET zl (u32 (tailoff + m));
   tail ← zipEntry zl (p + m);
   e ← at_end zl (p + m + headersize tail + len tail);
   if negb e then
     tailoff ← ZIPLIST_TAIL_OFFSET zl;
     set_ZIPLIST_TAIL_OFFSET zl (u32 (tailoff + d))
   else Some zl)
  = Some (zraw (tail_at (L ++ G ++ zent m (q, e) ++ zbody (rlen (b, e)) r) (rlen (q, e)) r) n
      (L ++ G ++ zent m (q, e) ++ zbody (rlen (b, e)) r)).
Proof.
  intros q d X Hm Hmd Hf0 Hf1 HY -> Hok Hflags Hb0 Hb ->.
  set (tl := zhead e ++ zload e ++ zbody (rlen (b, e)) r).
  assert (HX : X = L ++ zprev b prev ++ tl) by (unfold X, tl, zent; cbn [fst snd]; by rewrite <- !app_assoc).
  assert (Hlen : zlen X = zlen L + rlen (b, e) + zsize r) by (unfold X; zlia).
  assert (Hrl : rlen (q, e) = rlen (b, e) + d) by (unfold rlen, d; cbn [fst snd]; lia).
  assert (Htl : zlen tl = rlen (b, e) - psize b + zsize r) by (unfold tl, rlen; cbn [fst snd]; zlia).
  pose proof (rlen_pos (b, e)) as Hp2. pose proof (zsize_nonneg r) as Hr0. pose_zlen.
  assert (Hpb : 1 <= psize b <= 5) by (by destruct b).
  set (T := tail_at X (rlen (b, e)) r).
  assert (HT : r = [] /\ T = 10 + zlen L \/ r <> [] /\ 0 <= T <= 10 + zlen X /\
      forall z, last_size z r = last_size (rlen (b, e)) r).
  { unfold T, tail_at. destruct r as [|y r']; [left; cbn [last_size zsize] in *; split; [done|lia]|right].
    destruct (last_size_cons (rlen (b, e)) y r'). split; [done|]. split; [lia|done]. }
  destruct (insert_move T n L b prev tl Y q m) as (K & G & HK & HG & Hmv); [lia|lia|done|].
  exists K. split; [done|]. rewrite HX at 1.
  replace (11 + zlen X - (10 + zlen L) - 1 + d) with (psize b + zlen tl + d) by lia.
  fold d in Hmv. rewrite Hmv. cbn [mbind option_bind]. clear Hmv.
  rewrite (app_assoc L K), (app_assoc L K).
  assert (Hw : (if force then zipStorePrevEntryLengthLarge (zraw T n ((L ++ K) ++ G ++ tl)) (10 + zlen L + m) m
         else r ← zipStorePrevEntryLength (zraw T n ((L ++ K) ++ G ++ tl)) (10 + zlen L + m) m; Some (fst r))
     = Some (zraw T n ((L ++ K) ++ zent m (q, e) ++ zbody (rlen (b, e)) r))).
  { replace (zent m (q, e) ++ zbody (rlen (b, e)) r) with (zprev q m ++ tl)
      by (unfold zent, tl; cbn [fst snd]; by rewrite <- !app_assoc).
    destruct force.
    - rewrite (Hf1 eq_refl) in *. apply raw_write; [zlia|]. change (prev_length_large m) with (zprev true m). zlia.
    - unfold zipStorePrevEntryLength. rewrite prev_length_zprev, <- Hf0 by done. rewrite raw_write by zlia. done. }
  rewrite Hw. cbn [mbind option_bind]. clear Hw.
  assert (HTr : 0 <= T <= 10 + zlen X) by (destruct HT as [[_ ->]|(_ & ? & _)]; lia).
  rewrite raw_tail by lia. cbn [mbind option_bind]. rewrite raw_set_tail. cbn [mbind option_bind].
  replace (10 + zlen L + m) with (10 + zlen (L ++ K)) by zlia.
  rewrite raw_entry by (done || by apply next_flag_ok; lia). cbn [mbind option_bind headersize len fst snd].
  assert (HX2 : zlen ((L ++ K) ++ zent m (q, e) ++ zbody (rlen (b, e)) r) = zlen L + m + rlen (q, e) + zsize r) by zlia.
  pose proof (rlen_pos (q, e)). rewrite uwrap_small by lia.
  pose proof (tail_in (L ++ K) m (q, e) (rlen (b, e)) r) as Hin. cbn zeta in Hin.
  pose proof (zlen_nonneg (L ++ K)). apply (tail_fix n (L ++ K) m (q, e) (rlen (b, e)) r); [|done|lia|lia|..].
  - unfold rlen. cbn [fst snd]. lia.
  - intros Hr. destruct HT as [[_ HT]|[? _]]; [|done]. unfold tail_at. rewrite Hr in HX2 |- *. rewrite HX2. cbn [last_size zsize]. lia.
  - intros Hr. destruct HT as [[? _]|(_ & _ & Hlast)]; [done|]. unfold T, tail_at. rewrite (Hlast (rlen (q, e))). lia.
Qed.

(** ** [__ziplistInsert] *)

(** The entries after [s] is stored between [l] and [r]. *)
Definition zins (l : list zelem) (s : list Z) (r : list zelem) : list zelem :=
  let x := znew (last_size 0 l) s in
  l ++ x :: match r with
            | [] => []
            | (b, e) :: r => let y := (next_flag b (rlen x), e) in y :: zcascade (rlen y) r
            end.

(** The size of the new entry, as the source adds it up. *)
Lemma reqlen_eq prev s enc : entry_encoding enc (zlen s) = zhead s ->
  zlen (zload s) + zlen (prev_length prev) + zlen (entry_encoding enc (zlen s)) = rlen (znew prev s).
Proof. intros ->. unfold rlen, znew. cbn [fst snd]. rewrite prev_length_zprev, zlen_zprev. lia. Qed.

Lemma diff_spec t n A c prev x m : zprev_ok (fst x) prev ->
  zipPrevLenByteDiff (zraw t n (A ++ zent prev x ++ c)) (10 + zlen A) m = Some (psize (254 <=? m) - psize (fst x)).
Proof.
  intros Hp. unfold zipPrevLenByteDiff. rewrite raw_prevlensize by done. cbn [mbind option_bind].
  rewrite prev_length_zprev, zlen_zprev. f_equal. apply swrap_small; [done|].
  unfold in_s, psize. destruct (254 <=? m), (fst x); cbn; lia.
Qed.

(** The last step: the count, and the list as represented. *)
Lemma insert_count n X es k : znum n k -> 0 <= k -> zlen es = k + 1 -> zbody 0 es = X ->
  11 + zsize es < 2 ^ 32 -> zflags 0 es ->
  exists zl', ZIPLIST_INCR_LENGTH (zraw (tail_at X 0 es) n X) 1 = Some zl' /\ zrep zl' es.
Proof.
  intros Hn Hk Hl <- Hb Hf. destruct (raw_incr (tail_at (zbody 0 es) 0 es) n (zbody 0 es) k 1) as (n' & Hi & Hn'); [lia..|done|].
  eexists. split; [done|]. split; [done|]. split; [done|]. exists n'. by rewrite Hl.
Qed.

(** Where the last entry is. *)
Lemma last_entry l y : let X := zbody 0 (l ++ [y]) in
  X = zbody 0 l ++ zent (last_size 0 l) y ++ [] /\ tail_at X 0 (l ++ [y]) = 10 + zsize l.
Proof.
  intros X. unfold X, tail_at. rewrite zbody_app, last_size_app, zlen_app. cbn [zbody last_size].
  rewrite app_nil_r. split; [done|]. rewrite zlen_zbody, zlen_zent. lia.
Qed.

Lemma tail_rawlen n l : zflags 0 l -> 11 + zsize l < 2 ^ 32 ->
  let zl := zraw (tail_at (zbody 0 l) 0 l) n (zbody 0 l) in
  (ptail ← ZIPLIST_ENTRY_TAIL zl; et ← at_end zl ptail;
   if negb et then zipRawEntryLength zl ptail else Some 0) = Some (last_size 0 l).
Proof.
  intros Hf Hb zl. unfold zl, ZIPLIST_ENTRY_TAIL. rewrite raw_tail.
  2:{ pose proof (last_size_range l). unfold tail_at. rewrite zlen_zbody. lia. }
  cbn [mbind option_bind]. destruct l as [|y l _] using rev_ind; [reflexivity|].
  destruct (last_entry l y) as [HX HT]. apply zflags_app in Hf as [_ (Hp & Hok & _)].
  rewrite HT, HX, <- (zlen_zbody 0 l). rewrite raw_not_end by done. cbn [mbind option_bind negb].
  rewrite raw_rawlen by done. by rewrite last_size_app.
Qed.

Lemma insert_at_tail zl l s : zrep zl l -> 11 + zsize (zins l s []) < 2 ^ 32 ->
  exists zl', __ziplistInsert junk zl (10 + zsize l) s (zlen s) = Some zl' /\ zrep zl' (zins l s []).
Proof.
  intros (Hb & Hf & n & Hn & ->) Hb'. set (L := zbody 0 l). set (T := tail_at L 0 l).
  pose proof (last_size_range l) as Hlr. assert (HL : zlen L = zsize l) by (unfold L; zlia). rewrite <- HL.
  set (prev := last_size 0 l) in *. set (x := znew prev s).
  unfold zins in Hb' |- *. fold prev x in Hb' |- *. rewrite zsize_app in Hb'. cbn [zsize] in Hb'. rewrite <- HL in *.
  pose proof (rlen_pos x) as Hx. pose_zlen.
  unfold __ziplistInsert. rewrite raw_bytes by lia. cbn [mbind option_bind]. rewrite raw_end by done. cbn [mbind option_bind negb].
  pose proof (tail_rawlen n l Hf ltac:(lia)) as Htl. cbn zeta in Htl. fold L T prev in Htl.
  rewrite Htl. cbn [mbind option_bind]. rewrite try_spec. cbn [mbind option_bind].
  destruct (encode_spec s) as (value & enc & -> & Hsz & Henc & Hload). rewrite Hsz. cbn [mbind option_bind].
  rewrite (reqlen_eq prev s enc Henc). fold x. cbn [Z.eqb andb]. rewrite (Z.add_0_r (11 + zlen L + rlen x)).
  destruct (resize_grow junk T n L (11 + zlen L + rlen x)) as (Y & HY & -> & He); [lia|lia|].
  cbn [mbind option_bind]. rewrite He. cbn [mbind option_bind negb]. rewrite raw_set_tail. cbn [mbind option_bind].
  rewrite uwrap_small by lia. rewrite <- (app_nil_r (L ++ Y)), <- app_assoc.
  rewrite (write_entry _ n L Y [] prev s _ value enc (fun zl => ZIPLIST_INCR_LENGTH zl 1)); [|unfold x in *; lia|done..].
  fold x. rewrite app_nil_r.
  assert (HX : zbody 0 (l ++ [x]) = L ++ zent prev x) by (rewrite zbody_app; cbn [zbody]; by rewrite app_nil_r).
  replace (10 + zlen L) with (tail_at (L ++ zent prev x) 0 (l ++ [x])).
  2:{ destruct (last_entry l x) as [_ HT]. rewrite <- HX, HT. lia. }
  apply (insert_count n _ _ (zlen l)); [done|lia|zlia|done| |].
  - rewrite zsize_app. cbn [zsize]. lia.
  - apply zflags_app. split; [done|]. fold prev. split; [apply znew_ok; lia|]. split; [unfold elem_ok; lia|done].
Qed.

Lemma zl_insert_before zl l b e r s : zrep zl (l ++ (b, e) :: r) ->
  11 + zsize (l ++ (b, e) :: r) + rlen (znew (last_size 0 l) s) < 2 ^ 32 ->
  11 + zsize (zins l s ((b, e) :: r)) < 2 ^ 32 ->
  exists zl', __ziplistInsert junk zl (10 + zsize l) s (zlen s) = Some zl' /\ zrep zl' (zins l s ((b, e) :: r)).
Proof.
  intros (_ & Hf & n & Hn & ->) Hb Hb'. rewrite zbody_app. cbn [zbody].
  set (L := zbody 0 l). pose proof (last_size_range l) as Hlr.
  assert (HL : zlen L = zsize l) by (unfold L; zlia). rewrite <- HL.
  set (prev := last_size 0 l) in *. set (x := znew prev s) in *.
  set (X := L ++ zent prev (b, e) ++ zbody (rlen (b, e)) r).
  apply zflags_app in Hf as [Hfl (Hp & Hok & Hfr)]. fold prev in Hp.
  set (y := (next_flag b (rlen x), e)).
  assert (Hzins : zins l s ((b, e) :: r) = l ++ x :: y :: zcascade (rlen y) r) by done.
  rewrite Hzins in *. rewrite !zsize_app in *. cbn [zsize] in *. rewrite <- HL in *.
  pose proof (rlen_pos x) as Hx. pose proof (zcascade_size (rlen y) r) as Hcs. pose proof (zsize_nonneg r) as Hr0.
  pose proof (rlen_pos (b, e)). pose proof (rlen_pos y).
  assert (HlX : zlen X = zlen L + rlen (b, e) + zsize r) by (unfold X; zlia).
  set (T := tail_at X 0 (l ++ (b, e) :: r)).
  assert (HT : T = tail_at X (rlen (b, e)) r) by (unfold T, tail_at; by rewrite last_size_app).
  pose_zlen. set (d := psize (next_flag b (rlen x)) - psize b).
  assert (Hd : rlen y = rlen (b, e) + d) by (unfold y, d, rlen; cbn [fst snd]; lia).
  destruct (next_diff b (rlen x) Hx) as (Hnd & Hff & Hnn). fold d in Hnd, Hnn.
  unfold __ziplistInsert. rewrite raw_bytes by lia. cbn [mbind option_bind].
  rewrite (raw_not_end T n L (zbody (rlen (b, e)) r) prev (b, e) _ eq_refl Hp : at_end (zraw T n X) _ = _). cbn [mbind option_bind negb].
  rewrite (raw_prevlen T n L (zbody (rlen (b, e)) r) prev (b, e) _ eq_refl Hp : ZIP_DECODE_PREVLEN (zraw T n X) _ = _).
  cbn [mbind option_bind snd]. rewrite try_spec. cbn [mbind option_bind].
  destruct (encode_spec s) as (value & enc & -> & Hsz & Henc & Hload). rewrite Hsz. cbn [mbind option_bind].
  rewrite (reqlen_eq prev s enc Henc). fold x. rewrite (uwrap_small 32 (rlen x)) by lia.
  rewrite (diff_spec T n L (zbody (rlen (b, e)) r) prev (b, e) (rlen x) Hp : zipPrevLenByteDiff (zraw T n X) _ _ = _).
  cbn [mbind option_bind fst]. rewrite Hnd.
  destruct (resize_grow junk T n X (11 + zlen X + rlen x + d)) as (Y & HY & -> & _); [lia|lia|].
  cbn [mbind option_bind]. assert (He : at_end (zraw T n (X ++ Y)) (10 + zlen L) = Some false).
  { unfold X. rewrite <- !app_assoc. by apply raw_not_end. }
  rewrite He. cbn [mbind option_bind negb]. clear He.
  assert (Hoky : elem_ok y) by (unfold elem_ok; lia).
  destruct (insert_next n L b e r prev (rlen x) T Y (10 + zlen L) (b && (rlen x <? 4))) as (G & HG & Hnx);
    [lia|done|done| |lia|done|done|done|fold X; lia|fold X d; lia|done|].
  { unfold next_flag. intros ->. by rewrite orb_true_r. }
  fold X d in Hnx. rewrite Hnx. cbn [mbind option_bind]. fold y. clear Hnx.
  replace (10 + zlen L + rlen x) with (10 + zlen (L ++ G)) by zlia. rewrite (app_assoc L G).
  rewrite (cascade_step junk n (L ++ G) (rlen x) y (rlen (b, e)) r _ d);
    [|apply next_flag_ok; lia|done|done|lia|zlia|done].
  cbn [mbind option_bind]. rewrite <- (app_assoc L G).
  rewrite (write_entry _ n L G _ prev s _ value enc (fun zl => ZIPLIST_INCR_LENGTH zl 1)); [|done..].
  fold x. set (es := l ++ x :: y :: zcascade (rlen y) r).
  assert (HX' : zbody 0 es = L ++ zent prev x ++ zent (rlen x) y ++ zbody (rlen y) (zcascade (rlen y) r)).
  { unfold es. rewrite zbody_app. done. }
  replace (tail_at _ _ _) with (tail_at (zbody 0 es) 0 es).
  2:{ unfold tail_at. rewrite HX'. unfold es. rewrite last_size_app. cbn [last_size]. zlia. }
  rewrite <- HX'. apply (insert_count n _ _ (zlen (l ++ (b, e) :: r))); [done|zlia| |done| |].
  - unfold es, zlen. rewrite !length_app. cbn [length]. rewrite zcascade_len. lia.
  - unfold es. rewrite zsize_app. cbn [zsize]. lia.
  - unfold es. apply zflags_app. split; [done|]. fold prev. split; [apply znew_ok; lia|].
    split; [unfold elem_ok; lia|]. split; [apply next_flag_ok; lia|]. split; [done|].
    apply (zcascade_flags (rlen (b, e))); [done|lia|]. unfold es in *. lia.
Qed.
End Insert.
