(* ===== verification/ZiplistDelete.v ===== *)
(** * Deleting from a ziplist (ziplist.c)

    [__ziplistDelete]: the entries that go, the first field of the one that
    follows and the lengths after it. *)
From Stdlib Require Import ZArith Lia String.
From stdpp Require Import base numbers list option.
From S2P Require Import Prelude UtilNum Ziplist ZiplistShape ZiplistCascade ZiplistInsert.

(** The entries after those between [l] and [r] are deleted. *)
Definition zdel (l r : list zelem) : list zelem :=
  match r with
  | [] => l
  | (b, e) :: r => let y := (254 <=? last_size 0 l, e) in l ++ y :: zcascade (rlen y) r
  end.

(** ** The entries that are skipped *)

Lemma delete_skip_spec T n A r d (fuel : nat) prev i num :
  zflags prev (d ++ r) -> (length d < fuel)%nat -> 0 <= i -> i + zlen d < 2 ^ 32 ->
  i + zlen d <= num -> (r = [] \/ num = i + zlen d) ->
  delete_skip fuel (zraw T n (A ++ zbody prev (d ++ r))) (10 + zlen A) num i
  = Some (10 + zlen A + zsize d, i + zlen d).
Proof.
  revert A fuel prev i. induction d as [|x d IH]; intros A fuel prev i Hf Hfu Hi Hb Hn Hr;
    (destruct fuel as [|fuel]; [cbn in Hfu; lia|]); cbn [delete_skip app].
  - rewrite zlen_nil in *. cbn [zsize]. assert (He : exists eb, at_end (zraw T n (A ++ zbody prev r)) (10 + zlen A) = Some eb /\ (negb eb && (i <? num)) = false).
    { destruct r as [|y r].
      - exists true. split; [|done]. apply raw_end. cbn [zbody]. zlia.
      - exists false. destruct Hf as (Hp & _). split; [by apply raw_not_end|]. destruct Hr as [?|Hr]; [done|]. cbn [negb andb]. zlia. }
    destruct He as (eb & -> & He). cbn [mbind option_bind]. rewrite He. rewrite ?zlen_nil, !Z.add_0_r. done.
  - destruct Hf as (Hp & Hok & Hf). cbn [zbody]. rewrite zlen_cons in *. pose_zlen.
    rewrite raw_not_end by done. cbn [mbind option_bind negb andb].
    rewrite (proj2 (Z.ltb_lt i num)) by lia. rewrite raw_rawlen by done. cbn [mbind option_bind].
    rewrite uwrap_small by lia. rewrite (app_assoc A).
    replace (10 + zlen A + rlen x) with (10 + zlen (A ++ zent prev x)) by zlia.
    rewrite IH; [|done|cbn [length] in Hfu; lia|lia|lia|lia|by rewrite <- Z.add_assoc].
    cbn [zsize]. do 2 f_equal; zlia.
Qed.

Section Delete.
Variable junk : nat -> Z.

(** What is common to both cases: the entries [y0 :: d] are found. *)
Section Parts.
Variables (l : list zelem) (y0 : zelem) (d r : list zelem) (n T num : Z).
Hypotheses (Hf : zflags 0 (l ++ (y0 :: d) ++ r)) (Hb : 11 + zsize (l ++ (y0 :: d) ++ r) < 2 ^ 32)
  (Hnum : zlen (y0 :: d) <= num) (Hr : r = [] \/ num = zlen (y0 :: d)).
Let prev := last_size 0 l.
Let D := zbody prev (y0 :: d).
Let X := zbody 0 (l ++ (y0 :: d) ++ r).
Let zl := zraw T n X.

Lemma delete_body : X = zbody 0 l ++ D ++ zbody (last_size prev (y0 :: d)) r.
Proof. clear. unfold X, D, prev. by rewrite !zbody_app. Qed.

Lemma delete_first : zipEntry zl (10 + zsize l) = Some {|
  prevrawlensize := psize (fst y0); prevrawlen := prev; lensize := zlen (zhead (snd y0));
  len := zlen (zload (snd y0)); headersize := psize (fst y0) + zlen (zhead (snd y0));
  encoding := zenc (snd y0); ep := 10 + zsize l |}.
Proof.
  clear Hb Hnum Hr. apply zflags_app in Hf as [_ (Hp & Hok & _)]. unfold zl. rewrite delete_body. unfold D. cbn [zbody].
  rewrite <- app_assoc. rewrite raw_entry by (done || zlia). done.
Qed.

Lemma delete_found :
  delete_skip (length zl) zl (10 + zsize l) num 0 = Some (10 + zsize l + zsize (y0 :: d), zlen (y0 :: d)).
Proof.
  unfold zl, X. rewrite zbody_app. rewrite <- (zlen_zbody 0 l).
  assert (Hl : zlen (y0 :: d) <= zsize (y0 :: d)).
  { pose proof (zsize_len (y0 :: d)). pose_zlen. lia. }
  rewrite !zsize_app in Hb. pose proof (zsize_nonneg l). pose proof (zsize_nonneg r).
  apply (delete_skip_spec T n (zbody 0 l) r (y0 :: d) _ _ 0).
  - by apply zflags_app in Hf as [_ ?].
  - apply Nat2Z.inj_lt. change (zlen (y0 :: d) < zlen (zraw T n (zbody 0 l ++ zbody (last_size 0 l) ((y0 :: d) ++ r)))).
    autorewrite with zlen. rewrite zsize_app. autorewrite with zlen in Hl. lia.
  - done.
  - lia.
  - lia.
  - done.
Qed.
End Parts.

(** Everything to the end goes. *)
Lemma delete_to_end zl l y0 d num : zrep zl (l ++ y0 :: d) -> zlen (y0 :: d) <= num ->
  exists zl', __ziplistDelete junk zl (10 + zsize l) num = Some zl' /\ zrep zl' l.
Proof.
  intros (Hb & Hf & n & Hn & ->) Hnum. rewrite <- (app_nil_r (y0 :: d)) in Hb, Hf |- *.
  set (T := tail_at _ _ _). set (prev := last_size 0 l).
  unfold __ziplistDelete. rewrite (delete_first l y0 d [] n T) by done. cbn [mbind option_bind].
  rewrite (delete_found l y0 d [] n T num) by (done || by left). cbn [mbind option_bind ep prevrawlen].
  rewrite !zsize_app in Hb. pose proof (zsize_nonneg l). pose proof (last_size_range l).
  assert (2 <= zsize (y0 :: d)) by (cbn [zsize]; pose proof (rlen_pos y0); pose proof (zsize_nonneg d); lia).
  replace (10 + zsize l + zsize (y0 :: d) - (10 + zsize l)) with (zsize (y0 :: d)) by lia.
  change (zsize []) with 0 in Hb. rewrite uwrap_small by lia. rewrite (gtb_true _ 0) by lia.
  rewrite raw_end by (rewrite zlen_zbody, !zsize_app; cbn [zsize]; lia). cbn [mbind option_bind negb].
  rewrite raw_set_tail. cbn [mbind option_bind]. rewrite uwrap_small by lia.
  rewrite app_nil_r, zbody_app. fold prev. rewrite raw_bytes by (rewrite zlen_app, !zlen_zbody; lia). cbn [mbind option_bind].
  replace (11 + zlen (zbody 0 l ++ zbody prev (y0 :: d)) - zsize (y0 :: d) + 0) with (11 + zlen (zbody 0 l)) by zlia.
  rewrite resize_cut by (rewrite zlen_zbody; lia). cbn [mbind option_bind].
  destruct (raw_incr (10 + zsize l - prev) n (zbody 0 l) (zlen (l ++ y0 :: d)) (- zlen (y0 :: d))) as (n' & -> & Hn');
    [zlia|zlia|zlia|done|].
  cbn [mbind option_bind]. eexists. split; [done|]. split; [lia|]. split; [by apply zflags_app in Hf as [? _]|].
  exists n'. split; [by replace (zlen l) with (zlen (l ++ y0 :: d) + - zlen (y0 :: d)) by zlia|].
  unfold tail_at. by rewrite zlen_zbody.
Qed.

(** The first field of the entry that follows is written over the end of the
    deleted ones, or over its own end. *)
Lemma field_write T n L D b e prev s V : 
  let q := 254 <=? prev in let d := psize q - psize b in d <= zlen D ->
  exists D1, zlen D1 = zlen D - d /\
  zipStorePrevEntryLength (zraw T n (L ++ D ++ zent s (b, e) ++ V)) (10 + zlen (L ++ D) - d) prev
  = Some (zraw T n (L ++ D1 ++ zent prev (q, e) ++ V), psize q).
Proof.
  intros q d Hd. pose_zlen.
  destruct (zlen_cut (D ++ zprev b s) (zlen D - d)) as (D1 & W & HW & HD1).
  { rewrite zlen_app, zlen_zprev. unfold d. split; [lia|]. destruct q, b; cbn; lia. }
  assert (HlW : zlen W = psize q).
  { apply (f_equal zlen) in HW. autorewrite with zlen in HW. unfold d in *. lia. }
  exists D1. split; [done|]. unfold zipStorePrevEntryLength, zent. cbn [fst snd]. rewrite prev_length_zprev. fold q.
  rewrite <- (app_assoc (zprev b s)), (app_assoc D), HW, <- !app_assoc, (app_assoc L D1).
  rewrite raw_write by zlia. cbn [mbind option_bind]. rewrite zlen_zprev. by rewrite <- !app_assoc.
Qed.

(** The entry that follows: its field, the tail and the move. *)
Lemma delete_next n L D b e r prev s T p m :
  let q := 254 <=? prev in
  let d := psize q - psize b in
  let V := zbody (rlen (b, e)) r in
  let X := L ++ D ++ zent s (b, e) ++ V in
  let X1 := L ++ zent prev (q, e) ++ V in
  zprev_ok b s -> 0 <= prev < 2 ^ 32 -> elem_ok (q, e) -> zflags (rlen (b, e)) r -> d <= zlen D ->
  11 + zlen X < 2 ^ 32 -> 11 + zlen X1 < 2 ^ 32 -> T = tail_at X (rlen (b, e)) r ->
  p = 10 + zlen (L ++ D) -> m = zlen D ->
  exists Y, zlen Y = zlen D - d /\
  (nextdiff ← zipPrevLenByteDiff (zraw T n X) p prev;
   r ← zipStorePrevEntryLength (zraw T n X) (p - nextdiff) prev;
   tailoff ← ZIPLIST_TAIL_OFFSET (fst r);
   zl ← set_ZIPLIST_TAIL_OFFSET (fst r) (u32 (tailoff - m));
   tail ← zipEntry zl (p - nextdiff);
   e ← at_end zl (p - nextdiff + u32 (headersize tail + len tail));
   zl ← (if negb e then
           tailoff ← ZIPLIST_TAIL_OFFSET zl;
           set_ZIPLIST_TAIL_OFFSET zl (u32 (tailoff + nextdiff))
         else Some zl);
   bytes ← ZIPLIST_BYTES zl;
   zl ← mmove zl (10 + zlen L) (p - nextdiff) (bytes - (p - nextdiff) - 1);
   Some (zl, nextdiff))
  = Some (zraw (tail_at X1 (rlen (q, e)) r) n (X1 ++ Y), d).
Proof.
  intros q d V X X1 Hs Hprev Hok Hf Hd Hb Hb1 HT -> ->.
  assert (HlX : zlen X = zlen L + zlen D + rlen (b, e) + zsize r) by (unfold X, V; zlia).
  assert (HlX1 : zlen X1 = zlen L + rlen (q, e) + zsize r) by (unfold X1, V; zlia).
  assert (Hrl : rlen (q, e) = rlen (b, e) + d) by (unfold rlen, d; cbn [fst snd]; lia).
  pose proof (tail_in (L ++ D) s (b, e) (rlen (b, e)) r) as Hin. cbn zeta in Hin. rewrite <- app_assoc in Hin.
  fold V X in Hin. rewrite <- HT, zlen_app in Hin. pose_zlen.
  destruct (field_write T n L D b e prev s V Hd) as (D1 & HD1 & Hw). fold q d in HD1, Hw.
  assert (Hdiff : zipPrevLenByteDiff (zraw T n X) (10 + zlen (L ++ D)) prev = Some d).
  { unfold X. rewrite app_assoc. by apply (diff_spec T n (L ++ D) V s (b, e) prev). }
  rewrite Hdiff. cbn [mbind option_bind]. unfold X at 1. rewrite Hw. cbn [mbind option_bind fst].
  rewrite raw_tail by lia. cbn [mbind option_bind]. rewrite raw_set_tail. cbn [mbind option_bind].
  rewrite uwrap_small by lia. rewrite (app_assoc L D1).
  replace (10 + zlen (L ++ D) - d) with (10 + zlen (L ++ D1)) by zlia.
  rewrite raw_entry by (done || by apply (znew_ok prev e)). cbn [mbind option_bind headersize len fst snd].
  rewrite (raw_rlen (q, e) Hok : u32 (psize q + zlen (zhead e) + zlen (zload e)) = _).
  pose proof (tail_in L prev (q, e) (rlen (b, e)) r) as Hin1. cbn zeta in Hin1. fold V X1 in Hin1. pose_zlen.
  assert (Hlast : r <> [] -> forall z, last_size z r = last_size (rlen (b, e)) r) by (by destruct r).
  pose proof (tail_fix n (L ++ D1) prev (q, e) (rlen (b, e)) r (T - zlen D) (tail_at X1 (rlen (q, e)) r) d _ eq_refl Hf
    ltac:(lia) ltac:(lia)) as Htf.
  assert (Ht0 : r = [] -> T - zlen D = tail_at X1 (rlen (q, e)) r).
  { rewrite HT. unfold tail_at. rewrite HlX, HlX1. intros ->. cbn [last_size zsize]. lia. }
  assert (Ht1 : r <> [] -> T - zlen D + d = tail_at X1 (rlen (q, e)) r).
  { intros Hr. rewrite HT. unfold tail_at. rewrite (Hlast Hr (rlen (q, e))). lia. }
  specialize (Htf Ht0 Ht1). fold V in Htf.
  destruct (at_end _ _) as [eb|]; [|discriminate Htf]. cbn [mbind option_bind] in Htf |- *.
  rewrite Htf. cbn [mbind option_bind].
  assert (HlXd : zlen ((L ++ D1) ++ zent prev (q, e) ++ V) = zlen X) by (unfold V; zlia).
  rewrite raw_bytes by lia. cbn [mbind option_bind]. rewrite HlXd.
  destruct (raw_move (tail_at X1 (rlen (q, e)) r) n L D1 (zent prev (q, e) ++ V) [] 0 0 (10 + zlen L)
    (10 + zlen (L ++ D1)) (11 + zlen X - (10 + zlen (L ++ D1)) - 1)) as (K & Y & HK & HY & Hmv); [zlia..|].
  rewrite app_nil_r in Hmv. rewrite <- (app_assoc L D1), Hmv. cbn [mbind option_bind].
  assert (K = []) as -> by (destruct K; [done|zlia]). exists Y. split; [zlia|].
  unfold X1. cbn [app]. by rewrite <- !app_assoc.
Qed.

(** The entry at [r] stays. *)
Lemma delete_before zl l y0 d b e r : zrep zl (l ++ (y0 :: d) ++ (b, e) :: r) ->
  11 + zsize (zdel l ((b, e) :: r)) < 2 ^ 32 ->
  exists zl', __ziplistDelete junk zl (10 + zsize l) (zlen (y0 :: d)) = Some zl' /\ zrep zl' (zdel l ((b, e) :: r)).
Proof.
  intros (Hb & Hf & n & Hn & ->) Hb'. set (T := tail_at _ _ _).
  set (prev := last_size 0 l). set (y := (254 <=? prev, e)). set (dd := psize (254 <=? prev) - psize b).
  assert (Hzd : zdel l ((b, e) :: r) = l ++ y :: zcascade (rlen y) r) by done. rewrite Hzd in *.
  unfold __ziplistDelete. rewrite (delete_first l y0 d _ n T) by done. cbn [mbind option_bind].
  rewrite (delete_found l y0 d _ n T) by (done || by right). cbn [mbind option_bind ep prevrawlen].
  assert (HTs : T = tail_at (zbody 0 (l ++ (y0 :: d) ++ (b, e) :: r)) (rlen (b, e)) r).
  { unfold T, tail_at. by rewrite !last_size_app. }
  rewrite delete_body in HTs |- *. fold prev in HTs |- *. clearbody T. set (L := zbody 0 l) in *. set (D := zbody prev (y0 :: d)) in *.
  assert (HL : zlen L = zsize l) by apply zlen_zbody. assert (HD : zlen D = zsize (y0 :: d)) by apply zlen_zbody.
  clearbody D. set (s := last_size prev (y0 :: d)) in *. cbn [zbody] in *.
  pose proof Hf as [Hfl [Hfd (Hs & Hok & Hfr)]%zflags_app]%zflags_app. fold prev in Hfd, Hs. fold s in Hs.
  assert (Hd2 : dd <= zlen D /\ 2 <= zlen D).
  { rewrite HD. cbn [zsize]. pose proof (zsize_nonneg d). destruct Hfd as ([_ Hy0] & _).
    unfold dd, rlen in *. pose proof (zlen_zhead (snd y0)). pose proof (zlen_nonneg (zload (snd y0))).
    revert Hy0. destruct (fst y0), (254 <=? prev) eqn:E, b; cbn [psize]; intros Hy0; try lia; specialize (Hy0 eq_refl); lia. }
  rewrite !zsize_app in Hb. rewrite zsize_app in Hb'. cbn [zsize] in Hb, Hb'. pose proof (last_size_range l) as Hlr. fold prev in Hlr.
  pose proof (zcascade_size (rlen y) r) as Hcs. pose proof (zsize_nonneg r).
  assert (Hrl : rlen y = rlen (b, e) + dd) by (unfold y, dd, rlen; cbn [fst snd]; lia).
  pose proof (rlen_pos y). pose proof (rlen_pos (b, e)). change (zsize (y0 :: d)) with (rlen y0 + zsize d) in *.
  assert (Hoky : elem_ok y) by (unfold elem_ok; lia).
  rewrite <- HD, <- HL. replace (10 + zlen L + zlen D - (10 + zlen L)) with (zlen D) by lia.
  rewrite uwrap_small by lia. rewrite (gtb_true _ 0) by lia.
  replace (10 + zlen L + zlen D) with (10 + zlen (L ++ D)) by zlia.
  rewrite (app_assoc L D), raw_not_end by done. cbn [mbind option_bind negb]. rewrite <- (app_assoc L D).
  destruct (delete_next n L D b e r prev s T (10 + zlen (L ++ D)) (zlen D)) as (Y & HY & Hnx);
    [done|lia|done|done|apply Hd2|zlia|rewrite !zlen_app, zlen_zent, zlen_zbody; fold y; lia|done|done|done|].
  rewrite Hnx. cbn [mbind option_bind]. clear Hnx. fold y dd in HY |- *.
  set (X1 := L ++ zent prev y ++ zbody (rlen (b, e)) r).
  assert (HlX1 : zlen X1 = zlen L + rlen y + zsize r) by (unfold X1; rewrite !zlen_app, zlen_zent, zlen_zbody; lia).
  pose_zlen. rewrite raw_bytes by (rewrite zlen_app; lia). cbn [mbind option_bind].
  replace (11 + zlen (X1 ++ Y) - zlen D + dd) with (11 + zlen X1) by (rewrite zlen_app; lia).
  rewrite resize_cut by lia. cbn [mbind option_bind].
  destruct (raw_incr (tail_at X1 (rlen y) r) n X1 (zlen (l ++ (y0 :: d) ++ (b, e) :: r)) (- zlen (y0 :: d)) (zlen_nonneg _) ltac:(zlia) ltac:(zlia) Hn)
    as (n' & -> & Hn'). cbn [mbind option_bind]. unfold X1.
  assert (Hpy : zprev_ok (fst y) prev) by (apply (znew_ok prev e); lia).
  rewrite (cascade_step junk n' L prev y (rlen (b, e)) r _ dd); [|done|done|done|lia| |done].
  2:{ rewrite !zlen_app, zlen_zent, zlen_zbody. lia. }
  eexists. split; [done|].
  assert (Hbody : zbody 0 (l ++ y :: zcascade (rlen y) r) = L ++ zent prev y ++ zbody (rlen y) (zcascade (rlen y) r))
    by (by rewrite zbody_app).
  split; [rewrite zsize_app; cbn [zsize]; lia|]. split.
  - apply zflags_app. split; [done|]. split; [done|]. split; [done|].
    apply (zcascade_flags (rlen (b, e))); [done|lia|]. pose proof (zsize_nonneg l). lia.
  - exists n'. split.
    + replace (zlen _) with (zlen (l ++ (y0 :: d) ++ (b, e) :: r) + - zlen (y0 :: d)); [done|].
      unfold zlen. rewrite !length_app. cbn [length]. rewrite zcascade_len. lia.
    + rewrite Hbody. f_equal. unfold tail_at. by rewrite last_size_app.
Qed.
End Delete.
