(* ===== verification/ZiplistWalk.v ===== *)
(** * Walking over a ziplist (ziplist.c)

    What the readers of [Ziplist] see of a represented list: positions, the loops
    that go forwards and backwards, values and comparisons. *)
From Stdlib Require Import ZArith Lia String.
From stdpp Require Import base numbers list option.
From S2P Require Import Prelude UtilNum Ziplist ZiplistShape ZiplistCascade ZiplistInsert.

(** ** Positions *)

(** The offset of entry [i]; of the terminator past the last one. *)
Definition pos (es : list zelem) (i : nat) : Z := 10 + zsize (take i es).

Lemma pos_S es i x : es !! i = Some x -> pos es (S i) = pos es i + rlen x.
Proof. intros H. unfold pos. rewrite (take_S_r _ _ _ H), zsize_app. cbn [zsize]. lia. Qed.

Lemma pos_range es i : 10 <= pos es i <= 10 + zsize es.
Proof.
  unfold pos. pose proof (zsize_nonneg (take i es)). pose proof (zsize_nonneg (drop i es)).
  rewrite <- (take_drop i es) at 3. rewrite zsize_app. lia.
Qed.

(** The buffer around entry [i]. *)
Record place (zl : list Z) (es : list zelem) (i : nat) (x : zelem) (T n : Z) (A c : list Z) : Prop := {
  pl_zl : zl = zraw T n (A ++ zent (last_size 0 (take i es)) x ++ c);
  pl_pos : pos es i = 10 + zlen A;
  pl_prev : zprev_ok (fst x) (last_size 0 (take i es));
  pl_ok : elem_ok x
}.

Lemma zrep_place zl es i x : zrep zl es -> es !! i = Some x -> exists T n A c, place zl es i x T n A c.
Proof.
  intros (Hb & Hf & n & _ & ->) Hi.
  assert (Hes : es = take i es ++ x :: drop (S i) es) by (by rewrite take_drop_middle).
  exists (tail_at (zbody 0 es) 0 es), n, (zbody 0 (take i es)), (zbody (rlen x) (drop (S i) es)).
  rewrite Hes in Hf. apply zflags_app in Hf as [_ (Hp & Hok & _)]. split; [|by unfold pos; rewrite zlen_zbody|done|done].
  f_equal. rewrite Hes at 1. by rewrite zbody_app.
Qed.

Section AtPlace.
Context {zl : list Z} {es : list zelem} {i : nat} {x : zelem}.
Hypotheses (Hr : zrep zl es) (Hi : es !! i = Some x).

Lemma zrep_not_end : at_end zl (pos es i) = Some false.
Proof. destruct (zrep_place zl es i x Hr Hi) as (T & n & A & c & [-> -> Hp Hok]). by apply raw_not_end. Qed.
Lemma zrep_prevlen : ZIP_DECODE_PREVLEN zl (pos es i) = Some (psize (fst x), last_size 0 (take i es)).
Proof. destruct (zrep_place zl es i x Hr Hi) as (T & n & A & c & [-> -> Hp Hok]). by apply raw_prevlen. Qed.
Lemma zrep_prevlensize : ZIP_DECODE_PREVLENSIZE zl (pos es i) = Some (psize (fst x)).
Proof. destruct (zrep_place zl es i x Hr Hi) as (T & n & A & c & [-> -> Hp Hok]). by apply raw_prevlensize. Qed.
Lemma zrep_head : ZIP_DECODE_LENGTH zl (pos es i + psize (fst x))
  = Some (zenc (snd x), zlen (zhead (snd x)), zlen (zload (snd x))).
Proof. destruct (zrep_place zl es i x Hr Hi) as (T & n & A & c & [-> -> Hp Hok]). by apply raw_head. Qed.
Lemma zrep_rawlen : zipRawEntryLength zl (pos es i) = Some (rlen x).
Proof. destruct (zrep_place zl es i x Hr Hi) as (T & n & A & c & [-> -> Hp Hok]). by apply raw_rawlen. Qed.
Lemma zrep_entry : zipEntry zl (pos es i) = Some {|
  prevrawlensize := psize (fst x); prevrawlen := last_size 0 (take i es); lensize := zlen (zhead (snd x));
  len := zlen (zload (snd x)); headersize := psize (fst x) + zlen (zhead (snd x));
  encoding := zenc (snd x); ep := pos es i |}.
Proof. destruct (zrep_place zl es i x Hr Hi) as (T & n & A & c & [-> -> Hp Hok]). by apply raw_entry. Qed.
Lemma zrep_load q : q = pos es i + psize (fst x) + zlen (zhead (snd x)) ->
  match zint (snd x) with
  | Some v => zipLoadInteger zl q (zenc (snd x)) = Some v
  | None => mread zl q (zlen (snd x)) = Some (snd x)
  end.
Proof. destruct (zrep_place zl es i x Hr Hi) as (T & n & A & c & [-> -> Hp Hok]). by apply raw_load. Qed.
End AtPlace.

Lemma zrep_end zl es : zrep zl es -> at_end zl (pos es (length es)) = Some true.
Proof.
  intros (_ & _ & n & _ & ->). unfold pos. rewrite firstn_all. apply raw_end. by rewrite zlen_zbody.
Qed.

(** Whether a position is the end. *)
Lemma zrep_at zl es i : zrep zl es -> (i <= length es)%nat ->
  at_end zl (pos es i) = Some (bool_decide (i = length es)).
Proof.
  intros Hr Hi. destruct (decide (i = length es)) as [->|Hne].
  - rewrite bool_decide_true by done. by apply zrep_end.
  - rewrite bool_decide_false by done. destruct (lookup_lt_is_Some_2 es i ltac:(lia)) as [x Hx].
    by eapply zrep_not_end.
Qed.

Lemma zrep_zlen zl es : zrep zl es -> zlen zl = 11 + zsize es /\ zlen zl < 2 ^ 32.
Proof. intros (Hb & _ & n & _ & ->). rewrite zlen_zraw, zlen_zbody. lia. Qed.

Lemma zrep_bytes zl es : zrep zl es -> ZIPLIST_BYTES zl = Some (zlen zl).
Proof. intros (Hb & _ & n & _ & ->). rewrite zlen_zraw. apply raw_bytes. rewrite zlen_zbody. lia. Qed.

(** There is more than one byte for every entry: fuel for the loops. *)
Lemma zrep_fuel zl es : zrep zl es -> (length es < length zl)%nat.
Proof.
  intros Hr. destruct (zrep_zlen zl es Hr) as [Hl _]. pose proof (zsize_len es). unfold zlen in *. lia.
Qed.

Lemma pos_last es : pos es (length es - 1) = tail_at (zbody 0 es) 0 es.
Proof.
  unfold tail_at, pos. rewrite zlen_zbody. destruct es as [|y es _] using rev_ind; [done|].
  rewrite length_app. cbn [length]. rewrite Nat.add_sub, take_app_length.
  rewrite last_size_app, zsize_app. cbn [last_size zsize]. lia.
Qed.

Lemma zrep_tail zl es : zrep zl es -> ZIPLIST_TAIL_OFFSET zl = Some (pos es (length es - 1)).
Proof.
  intros (Hb & _ & n & _ & ->). rewrite pos_last. apply raw_tail.
  pose proof (last_size_range es). unfold tail_at. rewrite zlen_zbody. lia.
Qed.

Lemma zrep_length zl es : zrep zl es -> exists n, ZIPLIST_LENGTH zl = Some n /\ znum n (zlen es) /\
  set_ZIPLIST_LENGTH zl (zlen es) = Some (zraw (tail_at (zbody 0 es) 0 es) (zlen es) (zbody 0 es)).
Proof.
  intros (_ & _ & n & Hn & ->). exists n. split; [apply raw_length; eapply znum_range; [|done]; apply zlen_nonneg|].
  split; [done|]. apply raw_set_length.
Qed.

(** ** Going to an index *)

Lemma last_size_pred es i x : es !! i = Some x -> last_size 0 (take (S i) es) = rlen x.
Proof. intros H. by rewrite (take_S_r _ _ _ H), last_size_app. Qed.

Lemma index_forward_spec zl es (fuel j : nat) k :
  zrep zl es -> (j <= length es)%nat -> (length es - j < fuel)%nat -> 0 <= k ->
  exists q k', zindex_forward fuel zl (pos es j) k = Some (q, k') /\
    if Z.of_nat j + k <? zlen es then q = pos es (j + Z.to_nat k) /\ k' <= 0 else q = pos es (length es).
Proof.
  intros Hr. revert j k. induction fuel as [|fuel IH]; intros j k Hj Hf Hk; [lia|]. cbn [zindex_forward].
  rewrite (zrep_at zl es j Hr Hj). cbn [mbind option_bind]. case_bool_decide as Hd; cbn [negb].
  - subst j. eexists _, _. split; [done|]. rewrite (proj2 (Z.ltb_ge _ _)) by (unfold zlen; lia). done.
  - destruct (k =? 0) eqn:E.
    + assert (k = 0) as -> by lia. eexists _, _. split; [done|]. rewrite (proj2 (Z.ltb_lt _ _)) by (unfold zlen; lia).
      rewrite Nat.add_0_r. split; [done|lia].
    + destruct (lookup_lt_is_Some_2 es j ltac:(lia)) as [x Hx]. rewrite (zrep_rawlen Hr Hx). cbn [mbind option_bind].
      rewrite <- (pos_S es j x Hx). destruct (IH (S j) (k - 1)) as (q & k' & -> & Hq); [lia..|].
      eexists _, _. split; [done|]. replace (Z.of_nat (S j) + (k - 1)) with (Z.of_nat j + k) in Hq by lia.
      by replace (S j + Z.to_nat (k - 1))%nat with (j + Z.to_nat k)%nat in Hq by lia.
Qed.

Lemma index_backward_spec zl es (fuel j : nat) k :
  zrep zl es -> (j < length es)%nat -> (j < fuel)%nat -> 0 <= k ->
  exists q k', zindex_backward fuel zl (pos es j) (last_size 0 (take j es)) k = Some (q, k') /\
    if k <=? Z.of_nat j then q = pos es (j - Z.to_nat k) /\ k' <= 0 else q = pos es 0 /\ 0 < k'.
Proof.
  intros Hr. revert j k. induction fuel as [|fuel IH]; intros j k Hj Hf Hk; [lia|]. cbn [zindex_backward].
  destruct j as [|j].
  - rewrite take_0. cbn [last_size Z.gtb Z.compare]. eexists _, _. split; [done|].
    destruct (Z.leb_spec k (Z.of_nat 0)); [|split; [done|lia]]. split; [f_equal; lia|lia].
  - destruct (lookup_lt_is_Some_2 es j ltac:(lia)) as [y Hy]. rewrite (last_size_pred es j y Hy).
    pose proof (rlen_pos y). rewrite gtb_true by lia. destruct (k =? 0) eqn:E.
    + assert (k = 0) as -> by lia. eexists _, _. split; [done|].
      rewrite (proj2 (Z.leb_le 0 (Z.of_nat (S j)))) by lia. split; [f_equal; lia|lia].
    + rewrite (pos_S es j y Hy). replace (pos es j + rlen y - rlen y) with (pos es j) by lia.
      rewrite (zrep_prevlen Hr Hy). cbn [mbind option_bind snd].
      destruct (IH j (k - 1)) as (q & k' & -> & Hq); [lia..|]. eexists _, _. split; [done|].
      clear IH. revert Hq. destruct (Z.leb_spec (k - 1) (Z.of_nat j)), (Z.leb_spec k (Z.of_nat (S j))); try lia; intros Hq.
      by replace (S j - Z.to_nat k)%nat with (j - Z.to_nat (k - 1))%nat by lia.
Qed.

Lemma zl_index_spec zl es index : zrep zl es -> in_s 32 index ->
  ziplistIndex zl index = Some (pos es <$> index_of es index).
Proof.
  intros Hr Hs. unfold in_s in Hs. change (2 ^ (32 - 1)) with 2147483648 in Hs. pose proof (zrep_fuel zl es Hr) as Hfu.
  pose proof (zlen_nonneg es) as Hl0. unfold ziplistIndex, index_of.
  destruct (index <? 0) eqn:E0.
  - assert (Hix : i32 (i32 (- index) - 1) = - index - 1).
    { destruct (decide (index = -2147483648)) as [->|]; [reflexivity|]. 
      rewrite (swrap_small 32 (- index)), swrap_small by (unfold in_s; change (2 ^ (32 - 1)) with 2147483648; lia). done. }
    rewrite Hix. unfold ZIPLIST_ENTRY_TAIL. rewrite (zrep_tail zl es Hr). cbn [mbind option_bind].
    destruct es as [|x0 es0] eqn:Ees.
    +  pose proof (zrep_end zl [] Hr) as He. cbn [length] in He. cbn [length Nat.sub]. rewrite He. cbn [mbind option_bind negb].
      rewrite He. cbn [mbind option_bind orb]. change (zlen (@nil zelem)) with 0. by zbool.
    + rewrite <- Ees in *. assert (Hne : (0 < length es)%nat) by (rewrite Ees; cbn; lia). clear Ees x0 es0.
      rewrite (zrep_at zl es _ Hr) by lia. rewrite bool_decide_false by lia. cbn [mbind option_bind negb].
      destruct (lookup_lt_is_Some_2 es (length es - 1) ltac:(lia)) as [y Hy].
      rewrite (zrep_prevlen Hr Hy). cbn [mbind option_bind snd].
      destruct (index_backward_spec zl es (length zl) (length es - 1) (- index - 1) Hr) as (q & k' & -> & Hq); [lia..|].
      cbn [mbind option_bind]. destruct (- index - 1 <=? Z.of_nat (length es - 1)) eqn:E1.
      * apply Z.leb_le in E1. destruct Hq as [-> Hk]. rewrite (zrep_at zl es _ Hr) by lia. rewrite bool_decide_false by lia.
        cbn [mbind option_bind orb]. rewrite gtb_false by lia. unfold zlen in *. zbool. cbn [fmap option_fmap option_map].
        replace (length es - 1 - Z.to_nat (- index - 1))%nat with (Z.to_nat (Z.of_nat (length es) + index)) by lia. done.
      * apply Z.leb_gt in E1. destruct Hq as [-> Hk]. rewrite (zrep_at zl es _ Hr) by lia. cbn [mbind option_bind].
        rewrite gtb_true, orb_true_r by lia. unfold zlen in *. by zbool.
  - change ZIPLIST_ENTRY_HEAD with (pos es 0).
    destruct (index_forward_spec zl es (length zl) 0 index Hr) as (q & k' & -> & Hq); [lia..|].
    cbn [mbind option_bind]. replace (Z.of_nat 0 + index) with index in Hq by lia.
    replace (0 <=? index) with true by (symmetry; lia). cbn [andb].
    destruct (index <? zlen es) eqn:E1.
    + destruct Hq as [-> Hk]. cbn [Nat.add]. rewrite (zrep_at zl es _ Hr) by (unfold zlen in *; lia).
      rewrite bool_decide_false by (unfold zlen in *; lia). cbn [mbind option_bind orb]. rewrite gtb_false by lia. done.
    + subst q. rewrite (zrep_end zl es Hr). done.
Qed.

(** ** Values *)

(** What [ziplistGet] answers at an entry, and the bytes an answer stands for. *)
Definition zval_at (p : Z) (x : zelem) : zval :=
  match zint (snd x) with
  | Some v => ZInt v
  | None => ZStr (p + (psize (fst x) + zlen (zhead (snd x)))) (zlen (snd x))
  end.

Definition zval_bytes (zl : list Z) (v : zval) : option (list Z) :=
  match v with
  | ZStr off n => mread zl off n
  | ZInt v => Some (dec v)
  end.

Lemma zlen_zload e : zlen (zload e) = match zint e with Some v => zlen (int_bytes v) | None => zlen e end.
Proof. unfold zload. by destruct (zint e). Qed.

Lemma zl_get_spec zl es i x : zrep zl es -> es !! i = Some x ->
  ziplistGet zl (Some (pos es i)) = Some (Some (zval_at (pos es i) x)) /\
  zval_bytes zl (zval_at (pos es i) x) = Some (snd x).
Proof.
  intros Hr Hi. unfold ziplistGet, zval_at. rewrite (zrep_not_end Hr Hi). cbn [mbind option_bind].
  rewrite (zrep_entry Hr Hi). cbn [mbind option_bind encoding headersize len]. rewrite zenc_str, zlen_zload.
  pose proof (zrep_load Hr Hi _ eq_refl) as Hl. rewrite <- Z.add_assoc in Hl. destruct (zint (snd x)) as [v|] eqn:E.
  - rewrite Hl. split; [done|]. cbn [zval_bytes]. by destruct (proj1 (zint_spec _ _) E) as [_ ->].
  - split; [done|]. exact Hl.
Qed.

Lemma memeq_spec zl p e s : mread zl p (zlen e) = Some e ->
  (if zlen e =? zlen s then memeq zl p s (zlen s) else Some false) = Some (bool_decide (e = s)).
Proof.
  intros Hm. destruct (zlen e =? zlen s) eqn:E.
  - unfold memeq. assert (zlen e = zlen s) as He by lia. rewrite <- He, Hm. cbn [mbind option_bind].
    pose proof (mread_split [] s [] 0 (zlen s) eq_refl eq_refl) as Hs. rewrite app_nil_r in Hs. cbn [app] in Hs.
    rewrite He, Hs. cbn [mbind option_bind]. done.
  - rewrite bool_decide_false; [done|]. intros ->. lia.
Qed.

(** Comparing an integer entry with a string that may be one. *)
Lemma int_eq_spec e s v : zint e = Some v ->
  match zint s with Some w => v =? w | None => false end = bool_decide (e = s).
Proof.
  intros He. destruct (proj1 (zint_spec _ _) He) as [Hv ->]. destruct (zint s) as [w|] eqn:E.
  - destruct (proj1 (zint_spec _ _) E) as [Hw ->]. destruct (v =? w) eqn:Ev.
    + assert (v = w) as -> by lia. by rewrite bool_decide_true.
    + rewrite bool_decide_false; [done|]. intros Heq. rewrite Heq, E in He. injection He as ->. lia.
  - rewrite bool_decide_false; [done|]. intros Heq. by rewrite Heq, E in He.
Qed.

Lemma zl_compare_spec zl es i x s : zrep zl es -> es !! i = Some x ->
  ziplistCompare zl (pos es i) s (zlen s) = Some (bool_decide (snd x = s)).
Proof.
  intros Hr Hi. unfold ziplistCompare. rewrite (zrep_not_end Hr Hi). cbn [mbind option_bind].
  rewrite (zrep_entry Hr Hi). cbn [mbind option_bind encoding headersize len]. rewrite zenc_str, zlen_zload.
  pose proof (zrep_load Hr Hi _ eq_refl) as Hl. rewrite <- Z.add_assoc in Hl. destruct (zint (snd x)) as [v|] eqn:E.
  - rewrite try_spec. cbn [mbind option_bind]. rewrite <- (int_eq_spec _ _ _ E).
    destruct (zint s) as [w|]; cbn [fmap option_fmap option_map]; [|done]. by rewrite Hl.
  - by apply memeq_spec.
Qed.

(** ** Finding *)

(** The first entry equal to [v], where [skip] entries are passed over after
    every entry that is looked at. *)
Fixpoint zfind (v : list Z) (skip cnt : nat) (es : list (list Z)) : option nat :=
  match es with
  | [] => None
  | e :: es =>
      match cnt with
      | O => if bool_decide (e = v) then Some O else S <$> zfind v skip skip es
      | S cnt => S <$> zfind v skip cnt es
      end
  end.

Lemma zfind_lt v skip cnt es k : zfind v skip cnt es = Some k -> (k < length es)%nat.
Proof.
  revert cnt k. induction es as [|e es IH]; intros cnt k; [done|]. cbn [zfind length].
  destruct cnt as [|cnt]; [case_bool_decide; [intros [= <-]; lia|]|]; intros (j & Hj & ->)%fmap_Some; apply IH in Hj; lia.
Qed.

(** What is known of the string that is looked for. *)
Definition venc_ok (v : list Z) (venc vll : Z) : Prop :=
  venc = 0 \/ (match zint v with Some w => venc = int_encoding w /\ vll = w | None => venc = UCHAR_MAX end).

Lemma int_encoding_range v : in_s 64 v -> int_encoding v <> 0 /\ int_encoding v <> UCHAR_MAX.
Proof.
  intros Hv. unfold UCHAR_MAX.
  destruct (int_encoding_cases v Hv) as [[H ->]|[[H ->]|[[H ->]|[[H ->]|[[H ->]| ->]]]]]; by split; try lia.
Qed.

Lemma find_int zl q enc v w venc vll : venc_ok v venc vll -> zipLoadInteger zl q enc = Some w ->
  exists venc' vll', venc_ok v venc' vll' /\ venc' <> 0 /\
  (r ← (if venc =? 0 then
          t ← zipTryEncoding v (zlen v);
          Some (match t with Some (v, enc) => (enc, v) | None => (UCHAR_MAX, vll) end)
        else Some (venc, vll)); Some r) = Some (venc', vll') /\
  (if negb (venc' =? UCHAR_MAX) then ll ← zipLoadInteger zl q enc; Some (ll =? vll') else Some false)
  = Some (match zint v with Some w' => w =? w' | None => false end).
Proof.
  intros Hv Hl. assert (Hne : forall u, zint v = Some u -> int_encoding u <> 0 /\ int_encoding u <> UCHAR_MAX).
  { intros u Hu. apply int_encoding_range. by eapply zint_in. }
  destruct (venc =? 0) eqn:E0.
  - rewrite try_spec. cbn [mbind option_bind]. unfold venc_ok. destruct (zint v) as [u|] eqn:Eu; cbn [fmap option_fmap option_map].
    + destruct (Hne u eq_refl) as [H1 H2]. exists (int_encoding u), u. split; [by right|]. split; [done|]. split; [done|].
      rewrite (proj2 (Z.eqb_neq _ _) H2). by rewrite Hl.
    + exists UCHAR_MAX, vll. split; [by right|]. done.
  - destruct Hv as [->|Hv]; [done|]. exists venc, vll. split; [by right|]. split; [lia|]. split; [done|].
    destruct (zint v) as [u|] eqn:Eu.
    + destruct Hv as [-> ->]. destruct (Hne u eq_refl) as [H1 H2]. rewrite (proj2 (Z.eqb_neq _ _) H2). by rewrite Hl.
    + by rewrite Hv.
Qed.

Lemma find_loop_spec zl es v (skip : nat) (fuel i cnt : nat) venc vll :
  zrep zl es -> Z.of_nat skip < 2 ^ 31 -> (cnt <= skip)%nat -> (i <= length es)%nat -> (length es - i < fuel)%nat ->
  venc_ok v venc vll ->
  find_loop fuel zl (pos es i) v (zlen v) (Z.of_nat skip) (Z.of_nat cnt) venc vll
  = Some ((fun k => pos es (i + k)) <$> zfind v skip cnt (drop i (snd <$> es))).
Proof.
  intros Hr Hskip. revert i cnt venc vll. induction fuel as [|fuel IH]; intros i cnt venc vll Hcnt Hi Hf Hv; [lia|].
  cbn [find_loop]. rewrite (zrep_at zl es i Hr Hi). cbn [mbind option_bind]. case_bool_decide as Hd.
  { subst i. rewrite drop_ge by (by rewrite length_fmap). done. }
  destruct (lookup_lt_is_Some_2 es i ltac:(lia)) as [x Hx].
  rewrite (zrep_prevlensize Hr Hx). cbn [mbind option_bind]. rewrite (zrep_head Hr Hx). cbn [mbind option_bind].
  assert (Hdr : drop i (snd <$> es) = snd x :: drop (S i) (snd <$> es)).
  { rewrite (drop_S _ (snd x) i); [done|]. by rewrite list_lookup_fmap, Hx. }
  rewrite Hdr. set (q := pos es i + psize (fst x) + zlen (zhead (snd x))).
  assert (Hnext : q + zlen (zload (snd x)) = pos es (S i)) by (rewrite (pos_S es i x Hx); unfold q, rlen; lia).
  rewrite Hnext. assert (Hsk : i32 (Z.of_nat skip) = Z.of_nat skip).
  { apply swrap_small; [done|]. unfold in_s. change (2 ^ (32 - 1)) with (2 ^ 31). lia. }
  assert (Hgo : forall cnt venc vll, (cnt <= skip)%nat -> venc_ok v venc vll ->
    find_loop fuel zl (pos es (S i)) v (zlen v) (Z.of_nat skip) (Z.of_nat cnt) venc vll
    = Some ((fun k => pos es (i + k)) <$> (S <$> zfind v skip cnt (drop (S i) (snd <$> es))))).
  { intros cnt' venc' vll' Hc' Hv'. rewrite IH by (done || lia). f_equal. rewrite <- option_fmap_compose.
    apply option_fmap_ext. intros k. cbn. f_equal. lia. }
  pose proof (zrep_load Hr Hx q eq_refl) as Hl. destruct cnt as [|cnt]; cbn [zfind].
  - cbn [Z.of_nat Z.eqb]. rewrite zenc_str, zlen_zload, Hsk. destruct (zint (snd x)) as [w|] eqn:Ex.
    + destruct (find_int zl q _ v w venc vll Hv Hl) as (venc' & vll' & Hv' & Hne & Hr' & He).
      destruct (if venc =? 0 then _ else _) as [[a b]|]; [|done]. cbn [mbind option_bind] in Hr' |- *. injection Hr' as -> ->.
      rewrite (proj2 (Z.eqb_neq _ _) Hne), He. cbn [mbind option_bind]. rewrite (int_eq_spec _ _ _ Ex).
      case_bool_decide; [|by apply Hgo]. cbn. by rewrite Nat.add_0_r.
    + rewrite memeq_spec by done. cbn [mbind option_bind].
      case_bool_decide; [|by apply Hgo]. cbn. by rewrite Nat.add_0_r.
  - rewrite (proj2 (Z.eqb_neq _ _)) by lia.
    rewrite swrap_small by (try lia; unfold in_s; change (2 ^ (32 - 1)) with (2 ^ 31); lia).
    replace (Z.of_nat (S cnt) - 1) with (Z.of_nat cnt) by lia. apply Hgo; [lia|done].
Qed.

(** ** Counting *)

Lemma len_loop_spec zl es (fuel i : nat) n : zrep zl es -> (i <= length es)%nat -> (length es - i < fuel)%nat ->
  0 <= n -> n + Z.of_nat (length es - i) < 2 ^ 32 ->
  len_loop fuel zl (pos es i) n = Some (n + Z.of_nat (length es - i)).
Proof.
  intros Hr. revert i n. induction fuel as [|fuel IH]; intros i n Hi Hf Hn Hb; [lia|]. cbn [len_loop].
  rewrite (zrep_at zl es i Hr Hi). cbn [mbind option_bind]. case_bool_decide as Hd; [f_equal; lia|].
  destruct (lookup_lt_is_Some_2 es i ltac:(lia)) as [x Hx]. rewrite (zrep_rawlen Hr Hx). cbn [mbind option_bind].
  rewrite <- (pos_S es i x Hx), uwrap_small, IH by lia. f_equal. lia.
Qed.

Lemma len_spec zl es : zrep zl es -> exists zl', ziplistLen zl = Some (zlen es, zl') /\ zrep zl' es.
Proof.
  intros Hr. pose proof (zrep_fuel zl es Hr) as Hfu. destruct (zrep_zlen zl es Hr) as [Hl1 Hl2].
  pose proof (zsize_len es) as Hz. pose proof (zlen_nonneg es) as Hnn.
  destruct (zrep_length zl es Hr) as (n & Hn & Hnum & Hset). unfold ziplistLen. rewrite Hn. cbn [mbind option_bind].
  destruct (n <? UINT16_MAX) eqn:E.
  - destruct Hnum as [->|[-> _]]; [done|]. eauto.
  - change ZIPLIST_HEADER_SIZE with (pos es 0).
    rewrite (len_loop_spec zl es (length zl) 0 0) by (done || unfold zlen in *; lia). cbn [mbind option_bind].
    replace (0 + Z.of_nat (length es - 0)) with (zlen es) by (unfold zlen; lia).
    destruct (zlen es <? UINT16_MAX) eqn:E2; cbn [mbind option_bind]; [|by eauto].
    rewrite Hset. cbn [mbind option_bind]. eexists. split; [done|].
    destruct Hr as (Hb & Hf & _). split; [done|]. split; [done|]. exists (zlen es). split; [right; lia|done].
Qed.
