(* ===== verification/ZiplistSpec.v ===== *)
(** * Ziplists as sequences of strings (ziplist.c)

    What clients rely on: [zl_at zl es i p] says that the block [zl] holds the
    strings [es] and that [p] points to the one with index [i], or to the end.
    How the lengths of entries are stored is hidden; [zroom] bounds the bytes
    that [es] can take, whatever was inserted and deleted before. *)
From Stdlib Require Import ZArith Lia String.
From stdpp Require Import base numbers list option.
From S2P Require Import Prelude UtilNum Ziplist ZiplistShape ZiplistCascade ZiplistInsert ZiplistDelete ZiplistWalk.

Fixpoint zroom (es : list (list Z)) : Z :=
  match es with
  | [] => 11
  | e :: es => 18 + zlen e + zroom es
  end.

Definition zl_repr (zl : list Z) (es : list (list Z)) : Prop :=
  zroom es < 2 ^ 32 /\ exists xs, zrep zl xs /\ snd <$> xs = es.

Definition zl_at (zl : list Z) (es : list (list Z)) (i : nat) (p : Z) : Prop :=
  zroom es < 2 ^ 32 /\ (i <= length es)%nat /\ exists xs, zrep zl xs /\ snd <$> xs = es /\ p = pos xs i.

Lemma zroom_app a b : zroom (a ++ b) = zroom a + zroom b - 11.
Proof. induction a as [|e a IH]; cbn [app zroom]; [lia|]. rewrite IH. lia. Qed.

Lemma zroom_size xs : 11 + zsize xs <= zroom (snd <$> xs).
Proof.
  induction xs as [|x xs IH]; cbn [zsize fmap list_fmap zroom]; [lia|]. pose proof (rlen_bound x). lia.
Qed.

Lemma zroom_min es : 11 <= zroom es.
Proof. induction es as [|e es IH]; cbn [zroom]; pose_zlen; lia. Qed.

Lemma zroom_length es : 11 + 18 * zlen es <= zroom es.
Proof. induction es as [|e es IH]; cbn [zroom]; [done|]. unfold zlen in *. cbn [length]. lia. Qed.

Lemma zl_repr_fuel zl es : zl_repr zl es -> (length es < length zl)%nat.
Proof. intros (_ & xs & Hr & <-). rewrite length_fmap. by apply zrep_fuel. Qed.

Lemma zl_at_repr zl es i p : zl_at zl es i p -> zl_repr zl es.
Proof. intros (Hz & _ & xs & Hr & Hs & _). split; [done|]. by exists xs. Qed.

Section Spec.
Variable junk : nat -> Z.

(** ** Creating *)

Lemma ziplistNew_repr : exists zl, ziplistNew junk = Some zl /\ zl_repr zl [].
Proof.
  exists (zraw 10 0 []). split; [vm_compute; reflexivity|]. split; [done|]. exists []. split; [|done].
  split; [done|]. split; [done|]. exists 0. split; [by right|done].
Qed.

(** ** Inserting *)

Lemma zins_snd l s r : snd <$> zins l s r = (snd <$> l) ++ s :: (snd <$> r).
Proof.
  unfold zins. rewrite fmap_app, fmap_cons. cbn [snd znew]. destruct r as [|[b e] r]; [done|].
  rewrite fmap_cons, zcascade_snd. done.
Qed.

Lemma insert_split zl xs i s : zrep zl xs -> (i <= length xs)%nat ->
  zroom (take i (snd <$> xs) ++ s :: drop i (snd <$> xs)) < 2 ^ 32 ->
  exists zl', __ziplistInsert junk zl (pos xs i) s (zlen s) = Some zl' /\ zrep zl' (zins (take i xs) s (drop i xs)).
Proof.
  intros Hr Hi Hroom. rewrite <- fmap_take, <- fmap_drop, <- zins_snd in Hroom.
  pose proof (zroom_size (zins (take i xs) s (drop i xs))) as Hz.
  unfold pos. destruct (drop i xs) as [|[b e] r] eqn:Ed.
  - assert (xs = take i xs) as Hx by (rewrite <- (take_drop i xs) at 1; by rewrite Ed, app_nil_r).
    apply insert_at_tail; [by rewrite <- Hx|lia].
  - apply zl_insert_before; [by rewrite <- Ed, take_drop| |lia].
    rewrite zins_snd in Hroom. pose proof (zroom_size (take i xs ++ (b, e) :: r)) as Hz2.
    rewrite fmap_app, zroom_app in Hz2. rewrite zroom_app in Hroom. cbn [zroom] in Hroom.
    pose proof (rlen_bound (znew (last_size 0 (take i xs)) s)) as Hb. cbn [snd znew] in Hb. lia.
Qed.

Lemma ziplistInsert_at zl es i p s : zl_at zl es i p -> zroom (take i es ++ s :: drop i es) < 2 ^ 32 ->
  exists zl', __ziplistInsert junk zl p s (zlen s) = Some zl' /\ zl_at zl' (take i es ++ s :: drop i es) i p.
Proof.
  intros (_ & Hi & xs & Hr & <- & ->) Hroom. rewrite length_fmap in Hi.
  destruct (insert_split zl xs i s Hr Hi Hroom) as (zl' & Hins & Hr'). exists zl'. split; [done|].
  split; [done|]. split; [rewrite length_app, length_take, length_fmap; lia|].
  exists (zins (take i xs) s (drop i xs)). split; [done|]. split; [by rewrite zins_snd, fmap_take, fmap_drop|].
  unfold pos, zins. rewrite take_app_le by (rewrite length_take; lia). by rewrite take_take, Nat.min_id.
Qed.

(** [C27] [ziplistInsert] stores the string before the entry that [p] points to, or at
    the end, and leaves [p] at the new entry.  It reads and writes only inside
    the block, whatever the sizes of the entries: the fields of the entries that
    follow grow or shrink with it and the header keeps the offset of the last
    entry and the number of entries. *)
Theorem ziplistInsert_refines zl es i p s
  (Hat : zl_at zl es i p) (Hroom : zroom (take i es ++ s :: drop i es) < 2 ^ 32) :
  exists zl', ziplistInsert junk zl p s (zlen s) = Some zl' /\
    zl_at zl' (take i es ++ s :: drop i es) i p.
Proof.
  by apply ziplistInsert_at.
Qed.

(** ** Deleting *)

Lemma zdel_snd l r : snd <$> zdel l r = (snd <$> l) ++ (snd <$> r).
Proof.
  unfold zdel. destruct r as [|[b e] r]; [by rewrite app_nil_r|]. rewrite fmap_app, fmap_cons, zcascade_snd. done.
Qed.

Lemma delete_range zl xs i (n : nat) num : zrep zl xs -> (i < length xs)%nat -> (0 < n)%nat -> zroom (snd <$> xs) < 2 ^ 32 ->
  (Z.of_nat n = num \/ (length xs - i <= n)%nat /\ Z.of_nat (length xs - i) <= num) ->
  exists zl', __ziplistDelete junk zl (pos xs i) num = Some zl' /\ zrep zl' (zdel (take i xs) (drop (i + n) xs)).
Proof.
  intros Hr Hi Hn Hroom Hnum. unfold pos. destruct (lookup_lt_is_Some_2 xs i Hi) as [y0 Hy].
  destruct (drop (i + n) xs) as [|[b e] r] eqn:Ed.
  - apply (delete_to_end junk zl (take i xs) y0 (drop (S i) xs)).
    + by rewrite take_drop_middle.
    + apply (f_equal length) in Ed. rewrite length_drop in Ed. cbn in Ed. unfold zlen. cbn [length]. rewrite length_drop. lia.
  - assert (Hlen : (i + n < length xs)%nat).
    { apply (f_equal length) in Ed. rewrite length_drop in Ed. cbn in Ed. lia. }
    set (d := take (n - 1) (drop (S i) xs)).
    assert (Hxs : xs = take i xs ++ (y0 :: d) ++ (b, e) :: r).
    { rewrite <- (take_drop_middle xs i y0 Hy) at 1. f_equal. cbn [app]. f_equal. unfold d.
      rewrite <- (take_drop (n - 1) (drop (S i) xs)) at 1. f_equal. rewrite drop_drop, <- Ed. f_equal. lia. }
    replace num with (zlen (y0 :: d)).
    2:{ unfold zlen, d. cbn [length]. rewrite length_take, length_drop. lia. }
    apply delete_before; [by rewrite <- Hxs|]. pose proof (zroom_size (zdel (take i xs) ((b, e) :: r))) as Hz.
    rewrite zdel_snd in Hz. rewrite Hxs, !fmap_app, zroom_app in Hroom. rewrite zroom_app in Hroom, Hz.
    pose proof (zroom_min (snd <$> y0 :: d)). lia.
Qed.

Lemma ziplistDelete_at zl es i p : zl_at zl es i p -> (i < length es)%nat ->
  exists zl', ziplistDelete junk zl p = Some (zl', p) /\ zl_at zl' (take i es ++ drop (S i) es) i p.
Proof.
  intros (Hroom & _ & xs & Hr & <- & ->) Hi. rewrite length_fmap in Hi.
  destruct (delete_range zl xs i 1 1 Hr Hi ltac:(lia) Hroom ltac:(lia)) as (zl' & Hdel & Hr').
  unfold ziplistDelete. rewrite Hdel. cbn [mbind option_bind]. exists zl'. split; [done|].
  rewrite Nat.add_1_r in Hr'. rewrite <- fmap_take, <- fmap_drop, <- zdel_snd.
  pose proof (zdel_snd (take i xs) (drop (S i) xs)) as Hsnd. split; [|split].
  - rewrite Hsnd. rewrite <- (take_drop_middle (snd <$> xs) i (snd (default (false, []) (xs !! i)))) in Hroom.
    + rewrite zroom_app in Hroom |- *. cbn [zroom] in Hroom. rewrite fmap_take, fmap_drop. pose_zlen. lia.
    + destruct (lookup_lt_is_Some_2 xs i Hi) as [y Hy]. by rewrite list_lookup_fmap, Hy.
  - rewrite Hsnd, length_app, !length_fmap, length_take. lia.
  - exists (zdel (take i xs) (drop (S i) xs)). split; [done|]. split; [done|].
    unfold pos, zdel. destruct (drop (S i) xs) as [|[b e] r].
    + by rewrite take_take, Nat.min_id.
    + rewrite take_app_le by (rewrite length_take; lia). by rewrite take_take, Nat.min_id.
Qed.

(** [C28] [ziplistDelete] removes the entry that [p] points to and leaves [p] at
    the one that followed it, or at the end. *)
Theorem ziplistDelete_refines zl es i p (Hat : zl_at zl es i p) (Hi : (i < length es)%nat) :
  exists zl', ziplistDelete junk zl p = Some (zl', p) /\ zl_at zl' (take i es ++ drop (S i) es) i p.
Proof. by apply ziplistDelete_at. Qed.

Lemma zroom_cut es i j : (i <= j)%nat -> zroom (take i es ++ drop j es) <= zroom es.
Proof.
  intros Hij. rewrite <- (take_drop i es) at 3. rewrite !zroom_app.
  rewrite <- (take_drop (j - i) (drop i es)), drop_drop, zroom_app.
  replace (i + (j - i))%nat with j by lia. pose proof (zroom_min (take (j - i) (drop i es))). lia.
Qed.

Lemma delete_none zl xs i : zrep zl xs -> (i < length xs)%nat -> __ziplistDelete junk zl (pos xs i) 0 = Some zl.
Proof.
  intros Hr Hi. destruct (lookup_lt_is_Some_2 xs i Hi) as [x Hx]. unfold __ziplistDelete.
  rewrite (zrep_entry Hr Hx). cbn [mbind option_bind]. pose proof (zrep_fuel zl xs Hr).
  destruct (length zl) as [|k]; [lia|]. cbn [delete_skip]. rewrite (zrep_not_end Hr Hx).
  cbn [mbind option_bind negb andb Z.ltb Z.compare ep]. by rewrite Z.sub_diag.
Qed.

(** [ziplistDeleteRange] removes at most [num] entries from an index on, counted
    from the end when it is negative, and nothing when there is no such index. *)
Theorem ziplistDeleteRange_refines zl es index num
  (Hr : zl_repr zl es) (Hs : in_s 32 index) (Hn : 0 <= num) :
  exists zl', ziplistDeleteRange junk zl index num = Some zl' /\
    zl_repr zl' (match index_of es index with
                 | Some i => take i es ++ drop (i + Z.to_nat num) es
                 | None => es
                 end).
Proof.
  destruct Hr as (Hroom & xs & Hr & <-). unfold ziplistDeleteRange. rewrite (zl_index_spec zl xs index Hr Hs).
  cbn [mbind option_bind]. replace (index_of (snd <$> xs) index) with (index_of xs index)
    by (unfold index_of, zlen; by rewrite length_fmap).
  destruct (index_of xs index) as [i|] eqn:Ei; cbn [fmap option_fmap option_map].
  2:{ exists zl. split; [done|]. split; [done|]. by exists xs. }
  apply index_of_lt in Ei as Hi.
  set (k := Z.to_nat num).
  assert (Hn' : num = 0 \/ exists n, (0 < n)%nat /\ drop (i + n) xs = drop (i + k) xs /\
    (Z.of_nat n = num \/ (length xs - i <= n)%nat /\ Z.of_nat (length xs - i) <= num)).
  { destruct (decide (num = 0)); [by left|right]. destruct (decide (i + k <= length xs)%nat).
    - exists k. split; [lia|]. split; [done|]. left. lia.
    - exists (length xs - i)%nat. split; [lia|]. split; [by rewrite !drop_ge by lia|]. right. lia. }
  destruct Hn' as [->|(n & Hn0 & Hdrop & Hnum)].
  - exists zl. rewrite (delete_none zl xs i Hr Hi). split; [done|]. unfold k. cbn [Z.to_nat].
    rewrite Nat.add_0_r, take_drop. split; [done|]. by exists xs.
  - destruct (delete_range zl xs i n num Hr Hi Hn0 Hroom Hnum) as (zl' & -> & Hr'). exists zl'. split; [done|].
    split; [pose proof (zroom_cut (snd <$> xs) i (i + k)); lia|].
    eexists. split; [done|]. by rewrite zdel_snd, Hdrop, fmap_take, fmap_drop.
Qed.

(** ** Pushing *)

Lemma zl_repr_at zl es : zl_repr zl es -> zl_at zl es 0 ZIPLIST_HEADER_SIZE.
Proof. intros (Hroom & xs & Hr & Hs). split; [done|]. split; [lia|]. by exists xs. Qed.

Lemma zl_push_spec zl es s where_ : zl_repr zl es -> zroom (s :: es) < 2 ^ 32 ->
  exists zl', ziplistPush junk zl s (zlen s) where_ = Some zl' /\
    zl_repr zl' (if where_ =? ZIPLIST_HEAD then s :: es else es ++ [s]).
Proof.
  intros Hr Hroom. cbn [zroom] in Hroom. unfold ziplistPush. destruct (where_ =? ZIPLIST_HEAD); cbn [mbind option_bind].
  - destruct (ziplistInsert_at zl es 0 ZIPLIST_ENTRY_HEAD s (zl_repr_at zl es Hr)) as (zl' & Hi & Ha).
    { rewrite take_0, drop_0. cbn [app zroom]. lia. }
    exists zl'. split; [done|]. by apply zl_at_repr in Ha.
  - destruct Hr as (Hz & xs & Hr & <-). unfold ZIPLIST_ENTRY_END. rewrite (zrep_bytes zl xs Hr). cbn [mbind option_bind].
    destruct (zrep_zlen zl xs Hr) as [Hl _]. replace (zlen zl - 1) with (pos xs (length xs)).
    2:{ unfold pos. rewrite firstn_all. lia. }
    destruct (ziplistInsert_at zl (snd <$> xs) (length xs) (pos xs (length xs)) s) as (zl' & Hi & Ha).
    + split; [done|]. split; [by rewrite length_fmap|]. by exists xs.
    + rewrite firstn_all2, drop_ge, zroom_app by (by rewrite length_fmap). cbn [zroom]. lia.
    + exists zl'. split; [done|]. apply zl_at_repr in Ha. by rewrite firstn_all2, drop_ge in Ha by (by rewrite length_fmap).
Qed.
End Spec.

(** ** Walking *)

Section Reading.
Variable zl : list Z.
Implicit Types es : list (list Z).

(** The pointer to entry [i]; NULL past the last one. *)
Definition zl_ptr (es : list (list Z)) (i : nat) (r : option Z) : Prop :=
  match r with
  | None => i = length es
  | Some p => (i < length es)%nat /\ zl_at zl es i p
  end.

Lemma ziplistIndex_at es index : zl_repr zl es -> in_s 32 index ->
  exists r, ziplistIndex zl index = Some r /\ zl_ptr es (default (length es) (index_of es index)) r.
Proof.
  intros (Hroom & xs & Hr & <-) Hs. rewrite (zl_index_spec zl xs index Hr Hs). eexists. split; [done|].
  replace (index_of (snd <$> xs) index) with (index_of xs index) by (unfold index_of, zlen; by rewrite length_fmap).
  destruct (index_of xs index) as [i|] eqn:Ei; [|reflexivity]. cbn [fmap option_fmap option_map default zl_ptr id].
  apply index_of_lt in Ei as Hi.
  rewrite length_fmap. split; [done|]. split; [done|]. split; [rewrite length_fmap; lia|]. by exists xs.
Qed.

Lemma ziplistNext_at es i p : zl_at zl es i p -> (i < length es)%nat ->
  exists r, ziplistNext zl p = Some r /\ zl_ptr es (S i) r.
Proof.
  intros (Hroom & _ & xs & Hr & <- & ->) Hi. rewrite length_fmap in Hi.
  destruct (lookup_lt_is_Some_2 xs i Hi) as [x Hx]. unfold ziplistNext. rewrite (zrep_not_end Hr Hx).
  cbn [mbind option_bind]. rewrite (zrep_rawlen Hr Hx). cbn [mbind option_bind]. rewrite <- (pos_S xs i x Hx).
  rewrite (zrep_at zl xs (S i) Hr Hi). cbn [mbind option_bind]. eexists. split; [done|].
  case_bool_decide as Hd; cbn [zl_ptr]; rewrite length_fmap; [done|]. split; [lia|].
  split; [done|]. split; [by rewrite length_fmap|]. by exists xs.
Qed.

Lemma ziplistPrev_at es i p : zl_at zl es i p -> exists r, ziplistPrev zl p = Some r /\
  match i with O => r = None | S i => zl_ptr es i r end.
Proof.
  intros (Hroom & Hi & xs & Hr & <- & ->). rewrite length_fmap in Hi. unfold ziplistPrev.
  rewrite (zrep_at zl xs i Hr Hi). cbn [mbind option_bind].
  assert (Hptr : forall j, (j < length xs)%nat -> (j < length (snd <$> xs))%nat /\ zl_at zl (snd <$> xs) j (pos xs j)).
  { intros j Hj. rewrite length_fmap. split; [done|]. split; [done|]. split; [rewrite length_fmap; lia|]. by exists xs. }
  case_bool_decide as Hd.
  - subst i. unfold ZIPLIST_ENTRY_TAIL. rewrite (zrep_tail zl xs Hr). cbn [mbind option_bind].
    rewrite (zrep_at zl xs _ Hr) by lia. cbn [mbind option_bind]. eexists. split; [done|].
    destruct (length xs) as [|k] eqn:E; [done|]. rewrite bool_decide_false by lia. cbn [zl_ptr].
    replace (S k - 1)%nat with k by lia. apply Hptr. lia.
  - destruct i as [|i].
    + rewrite (proj2 (Z.eqb_eq _ _)) by done. eauto.
    + destruct (lookup_lt_is_Some_2 xs i ltac:(lia)) as [y Hy]. destruct (lookup_lt_is_Some_2 xs (S i) ltac:(lia)) as [x Hx].
      pose proof (rlen_pos y). pose proof (pos_range xs i).
      rewrite (zrep_prevlen Hr Hx), (last_size_pred xs i y Hy), (pos_S xs i y Hy).
      rewrite (proj2 (Z.eqb_neq _ _)) by (unfold ZIPLIST_ENTRY_HEAD, ZIPLIST_HEADER_SIZE; lia). cbn [mbind option_bind snd].
      rewrite gtb_true by lia. replace (pos xs i + rlen y - rlen y) with (pos xs i) by lia.
      eexists. split; [done|]. apply Hptr. lia.
Qed.

Lemma ziplistGet_val es i p e : zl_at zl es i p -> es !! i = Some e ->
  exists v, ziplistGet zl (Some p) = Some (Some v) /\ zval_bytes zl v = Some e /\
    match v with ZStr _ n => n = zlen e | ZInt w => in_s 64 w end.
Proof.
  intros (Hroom & _ & xs & Hr & <- & ->) He. rewrite list_lookup_fmap in He.
  destruct (xs !! i) as [x|] eqn:Hx; [|done]. injection He as <-.
  destruct (zl_get_spec zl xs i x Hr Hx) as [Hg Hv]. eexists. split; [exact Hg|]. split; [exact Hv|].
  unfold zval_at. destruct (zint (snd x)) as [w|] eqn:E; [|done]. by apply zint_spec in E as [? _].
Qed.

Lemma ziplistGet_at es i p e : zl_at zl es i p -> es !! i = Some e ->
  exists v, ziplistGet zl (Some p) = Some (Some v) /\ zval_bytes zl v = Some e.
Proof. intros Ha He. destruct (ziplistGet_val es i p e Ha He) as (v & Hg & Hv & _). eauto. Qed.

Lemma ziplistCompare_at es i p e s : zl_at zl es i p -> es !! i = Some e ->
  ziplistCompare zl p s (zlen s) = Some (bool_decide (e = s)).
Proof.
  intros (Hroom & _ & xs & Hr & <- & ->) He. rewrite list_lookup_fmap in He.
  destruct (xs !! i) as [x|] eqn:Hx; [|done]. injection He as <-. by apply zl_compare_spec.
Qed.

Lemma ziplistFind_at es i p s (skip : nat) : zl_at zl es i p -> Z.of_nat skip < 2 ^ 31 ->
  exists r, ziplistFind zl p s (zlen s) (Z.of_nat skip) = Some r /\
    match zfind s skip 0 (drop i es) with
    | Some k => exists q, r = Some q /\ zl_at zl es (i + k) q
    | None => r = None
    end.
Proof.
  intros (Hroom & Hi & xs & Hr & <- & ->) Hs. rewrite length_fmap in Hi. unfold ziplistFind.
  pose proof (zrep_fuel zl xs Hr). change 0 with (Z.of_nat 0) at 1.
  rewrite (find_loop_spec zl xs s skip (length zl) i 0 0 0 Hr Hs) by (lia || by left). eexists. split; [done|].
  destruct (zfind s skip 0 (drop i (snd <$> xs))) as [k|] eqn:E; [|done]. eexists. split; [done|].
  apply zfind_lt in E. rewrite length_drop, length_fmap in E.
  split; [done|]. split; [rewrite length_fmap; lia|]. by exists xs.
Qed.

Lemma ziplistLen_at es : zl_repr zl es -> exists zl', ziplistLen zl = Some (zlen es, zl') /\ zl_repr zl' es.
Proof.
  intros (Hroom & xs & Hr & <-). destruct (len_spec zl xs Hr) as (zl' & Hl & Hr'). exists zl'.
  split; [rewrite Hl; unfold zlen; by rewrite length_fmap|]. split; [done|]. by exists xs.
Qed.
End Reading.

(** At an entry, [ziplistGet] gives its string, as a place in the block or as
    an integer, [ziplistCompare] compares it, and [ziplistNext] and [ziplistPrev]
    go to its neighbours, or answer NULL when there are none. *)
Theorem ziplist_cursor zl es i p e (Hat : zl_at zl es i p) (He : es !! i = Some e) :
  (exists v, ziplistGet zl (Some p) = Some (Some v) /\ zval_bytes zl v = Some e) /\
  (forall s, ziplistCompare zl p s (zlen s) = Some (bool_decide (e = s))) /\
  (exists r, ziplistNext zl p = Some r /\ zl_ptr zl es (S i) r) /\
  (exists r, ziplistPrev zl p = Some r /\ match i with O => r = None | S j => zl_ptr zl es j r end).
Proof.
  apply lookup_lt_Some in He as Hi. split; [by eapply ziplistGet_at|].
  split; [intros s; by eapply ziplistCompare_at|]. split; [by apply ziplistNext_at|by apply ziplistPrev_at].
Qed.

(** [C30] [ziplistFind] answers the first entry, from [p] on and passing over [skip]
    entries after each one, that is equal to the string, and NULL if there is
    none: comparing integers as numbers finds what comparing the strings would. *)
Theorem ziplistFind_first zl es i p s (skip : nat)
  (Hat : zl_at zl es i p) (Hs : Z.of_nat skip < 2 ^ 31) :
  exists r, ziplistFind zl p s (zlen s) (Z.of_nat skip) = Some r /\
    match zfind s skip 0 (drop i es) with
    | Some k => exists q, r = Some q /\ zl_at zl es (i + k) q
    | None => r = None
    end.
Proof. by apply ziplistFind_at. Qed.
