(* ===== verification/ZiplistMerge.v ===== *)
(** * Merging ziplists (ziplist.c)

    [ziplistMerge] joins two lists in the block of the longer one, and repairs the
    lengths behind the seam with [__ziplistCascadeUpdate]. *)
From Stdlib Require Import ZArith Lia String.
From stdpp Require Import base numbers list option.
From S2P Require Import Prelude UtilNum Ziplist ZiplistShape ZiplistCascade ZiplistInsert ZiplistWalk ZiplistSpec.

Section Merge.
Variable junk : nat -> Z.

Definition zmerge (l r : list zelem) : list zelem := l ++ zcascade (last_size 0 l) r.

Lemma zmerge_snd l r : snd <$> zmerge l r = (snd <$> l) ++ (snd <$> r).
Proof. unfold zmerge. by rewrite fmap_app, zcascade_snd. Qed.

(** The bytes of both lists, in the block of the first or of the second. *)
Lemma merge_bytes (append : bool) t1 n1 X1 t2 n2 X2 total :
  total = 11 + zlen X1 + zlen X2 ->
  let first := zraw t1 n1 X1 in
  let second := zraw t2 n2 X2 in
  let '(target, target_bytes, source, source_bytes) :=
    if append then (first, 11 + zlen X1, second, 11 + zlen X2) else (second, 11 + zlen X2, first, 11 + zlen X1) in
  exists h, zlen h = 10 /\
  (let target := zrealloc junk target total in
   if append then
     bs ← mread source ZIPLIST_HEADER_SIZE (source_bytes - ZIPLIST_HEADER_SIZE);
     mwrite target (target_bytes - ZIPLIST_END_SIZE) bs
   else
     target ← mmove target (source_bytes - ZIPLIST_END_SIZE) ZIPLIST_HEADER_SIZE
                (target_bytes - ZIPLIST_HEADER_SIZE);
     bs ← mread source 0 (source_bytes - ZIPLIST_END_SIZE);
     mwrite target 0 bs) = Some (h ++ (X1 ++ X2) ++ [ZIP_END]).
Proof.
  intros Ht first second. set (h1 := zhdr (11 + zlen X1) t1 n1). set (h2 := zhdr (11 + zlen X2) t2 n2).
  assert (Hf : first = h1 ++ X1 ++ [ZIP_END]) by done. assert (Hs : second = h2 ++ X2 ++ [ZIP_END]) by done.
  assert (Hh1 : zlen h1 = 10) by apply zlen_zhdr. assert (Hh2 : zlen h2 = 10) by apply zlen_zhdr.
  unfold ZIPLIST_HEADER_SIZE, ZIPLIST_END_SIZE. change (4 * 2 + 2) with 10. pose_zlen.
  destruct append; exists h1; (split; [done|]).
  - destruct (zrealloc_grow junk first total) as (j & -> & Hj); [rewrite Hf; zlia|].
    rewrite Hs. rewrite <- (app_nil_r (h2 ++ X2 ++ [ZIP_END])), <- app_assoc.
    rewrite mread_split by (rewrite ?zlen_app; change (zlen [ZIP_END]) with 1; lia). cbn [mbind option_bind].
    rewrite Hf, <- !app_assoc, (app_assoc h1). rewrite <- (app_nil_r ([ZIP_END] ++ j)).
    rewrite mwrite_split; [by rewrite app_nil_r, <- !app_assoc|zlia|].
    rewrite Hf in Hj. autorewrite with zlen in *. lia.
  - destruct (zrealloc_grow junk second total) as (j & -> & Hj); [rewrite Hs; zlia|].
    rewrite Hs in Hj |- *. autorewrite with zlen in Hj. unfold mmove. rewrite <- !app_assoc, (app_assoc X2).
    rewrite mread_split by (rewrite ?zlen_app; change (zlen [ZIP_END]) with 1; lia). cbn [mbind option_bind].
    set (V := X2 ++ [ZIP_END]). assert (HV : zlen V = zlen X2 + 1) by (unfold V; zlia).
    destruct (zlen_cut (h2 ++ V ++ j) (10 + zlen X1)) as (P & Q & HPQ & HP); [rewrite !zlen_app; lia|].
    assert (HQ : zlen Q = zlen V).
    { apply (f_equal zlen) in HPQ. rewrite !zlen_app in HPQ. lia. }
    rewrite HPQ. rewrite <- (app_nil_r Q). rewrite mwrite_split by lia. cbn [mbind option_bind]. rewrite app_nil_r.
    rewrite Hf, (app_assoc h1). rewrite (mread_split [] (h1 ++ X1) [ZIP_END] 0 _ eq_refl) by (rewrite zlen_app; lia).
    cbn [mbind option_bind]. assert (HlP : zlen (h1 ++ X1) = zlen P) by (rewrite zlen_app; lia).
    rewrite (mwrite_split [] P V (h1 ++ X1) 0 eq_refl HlP : mwrite (P ++ V) 0 _ = _).
    cbn [app]. unfold V. by rewrite <- !app_assoc.
Qed.

(** The header of the result. *)
Lemma merge_header {B} h X T n (K : list Z -> option B) : zlen h = 10 -> 11 + zlen X < 2 ^ 32 ->
  (target ← set_ZIPLIST_BYTES (h ++ X ++ [ZIP_END]) (u32 (11 + zlen X));
   target ← set_ZIPLIST_LENGTH target n;
   target ← set_ZIPLIST_TAIL_OFFSET target T; K target) = K (zraw T n X).
Proof.
  intros Hh Hb. pose_zlen. rewrite uwrap_small by lia. destruct (zlen_cut h 4) as (a & b & -> & Ha); [lia|]. rewrite zlen_app in Hh.
  unfold set_ZIPLIST_BYTES. rewrite <- app_assoc. rewrite (store_le_at 4 [] a _ 0 _ eq_refl Ha : store_le 4 (a ++ _) 0 _ = _).
  cbn [mbind option_bind app]. destruct (zlen_cut b 4) as (c & d & -> & Hc); [lia|]. rewrite zlen_app in Hh.
  replace (zraw T n X) with (le_bytes 4 (11 + zlen X) ++ le_bytes 4 T ++ le_bytes 2 n ++ X ++ [ZIP_END])
    by (unfold zraw, zhdr; by rewrite <- !app_assoc).
  unfold set_ZIPLIST_LENGTH. rewrite <- app_assoc, app_assoc. rewrite store_le_at by zlia. cbn [mbind option_bind].
  unfold set_ZIPLIST_TAIL_OFFSET. rewrite <- app_assoc. by rewrite store_le_at by zlia.
Qed.

(** The seam: the cascade starts at the last entry of the first list. *)
Lemma merge_seam n l r : r <> [] -> zflags 0 l -> zflags 0 r -> 11 + zsize (zmerge l r) < 2 ^ 32 ->
  let X := zbody 0 l ++ zbody 0 r in
  __ziplistCascadeUpdate junk (zraw (tail_at X 0 r) n X) (pos l (length l - 1))
  = Some (zraw (tail_at (zbody 0 (zmerge l r)) 0 (zmerge l r)) n (zbody 0 (zmerge l r))).
Proof.
  intros Hne Hl Hr Hb X. destruct l as [|y l _] using rev_ind.
  - unfold zmerge in *. cbn [app last_size zbody length Nat.sub] in *. rewrite (zcascade_id 0 r Hr) in *.
    destruct r as [|x r]; [done|]. destruct Hr as (Hx & Hok & Hr). cbn [zbody] in X.
    rewrite (cascade_spec junk n [] 0 x (rlen x) r); [|done..| |done].
    + cbn [app]. by rewrite (zcascade_id (rlen x) r Hr).
    + rewrite (zcascade_id (rlen x) r Hr). cbn [zsize] in Hb. zlia.
  - apply zflags_app in Hl as [Hl (Hy & Hok & _)].
    assert (HX : X = zbody 0 l ++ zent (last_size 0 l) y ++ zbody 0 r).
    { unfold X. rewrite zbody_app. cbn [zbody]. by rewrite app_nil_r, <- app_assoc. }
    assert (Hpos : pos (l ++ [y]) (length (l ++ [y]) - 1) = 10 + zlen (zbody 0 l)).
    { unfold pos. rewrite length_app. cbn [length]. rewrite Nat.add_sub, take_app_length, zlen_zbody. lia. }
    assert (Hz : zbody 0 (zmerge (l ++ [y]) r)
      = zbody 0 l ++ zent (last_size 0 l) y ++ zbody (rlen y) (zcascade (rlen y) r)).
    { unfold zmerge. rewrite !last_size_app, <- app_assoc, zbody_app. done. }
    rewrite Hpos, HX, (cascade_spec junk n (zbody 0 l) (last_size 0 l) y 0 r); [|done..| |].
    + rewrite Hz. f_equal. f_equal. unfold tail_at, zmerge. by rewrite !last_size_app.
    + rewrite <- Hz. rewrite zlen_zbody. done.
    + unfold tail_at. by destruct r.
Qed.

Lemma zmerge_flags l r : zflags 0 l -> zflags 0 r -> 11 + zsize (zmerge l r) < 2 ^ 32 -> zflags 0 (zmerge l r).
Proof.
  intros Hl Hr Hb. unfold zmerge in *. rewrite zsize_app in Hb. pose proof (zsize_nonneg l). pose proof (last_size_range l).
  pose proof (zsize_nonneg (zcascade (last_size 0 l) r)).
  apply zflags_app. split; [done|]. apply (zcascade_flags 0); [done|lia|lia].
Qed.

Lemma merge_num n1 n2 k1 k2 : 0 <= k1 -> 0 <= k2 -> znum n1 k1 -> znum n2 k2 ->
  znum (u16 (if n1 + n2 <? UINT16_MAX then n1 + n2 else UINT16_MAX)) (k1 + k2).
Proof.
  intros Hk1 Hk2 H1 H2. unfold znum, UINT16_MAX in *. destruct (n1 + n2 <? 65535) eqn:E.
  - rewrite uwrap_small by lia. lia.
  - left. by apply uwrap_small.
Qed.

Lemma merge_spec a1 zl1 l a2 zl2 r : a1 <> a2 -> zrep zl1 l -> zrep zl2 r -> r <> [] ->
  11 + zsize (l ++ r) < 2 ^ 32 -> 11 + zsize (zmerge l r) < 2 ^ 32 ->
  exists zl' append, ziplistMerge junk (Some (a1, zl1)) (Some (a2, zl2)) = Some (Some (zl', append)) /\
    zrep zl' (zmerge l r).
Proof.
  intros Ha Hr1 Hr2 Hne Hb0 Hb. unfold ziplistMerge. rewrite (proj2 (Z.eqb_neq _ _) Ha).
  rewrite (zrep_bytes _ _ Hr1), (zrep_bytes _ _ Hr2), (zrep_tail _ _ Hr1), (zrep_tail _ _ Hr2). cbn [mbind option_bind].
  destruct (zrep_length _ _ Hr1) as (n1 & -> & Hn1 & _). destruct (zrep_length _ _ Hr2) as (n2 & -> & Hn2 & _).
  cbn [mbind option_bind]. destruct Hr1 as (Hb1 & Hf1 & m1 & _ & ->). destruct Hr2 as (Hb2 & Hf2 & m2 & _ & ->).
  set (X1 := zbody 0 l). set (X2 := zbody 0 r). set (t1 := tail_at X1 0 l). set (t2 := tail_at X2 0 r).
  assert (HlX : zlen (X1 ++ X2) = zsize l + zsize r) by (unfold X1, X2; zlia). rewrite zsize_app in Hb0.
  assert (Hfin : forall h (append : bool), zlen h = 10 -> exists zl' ap,
    (target ← set_ZIPLIST_BYTES (h ++ (X1 ++ X2) ++ [ZIP_END]) (u32 (11 + zlen (X1 ++ X2)));
     target ← set_ZIPLIST_LENGTH target (u16 (if n1 + n2 <? UINT16_MAX then n1 + n2 else UINT16_MAX));
     target ← set_ZIPLIST_TAIL_OFFSET target
       (u32 (11 + zlen X1 - ZIPLIST_END_SIZE + (pos r (length r - 1) - ZIPLIST_HEADER_SIZE)));
     target ← __ziplistCascadeUpdate junk target (pos l (length l - 1));
     Some (Some (target, append))) = Some (Some (zl', ap)) /\ zrep zl' (zmerge l r)).
  { intros h append Hh. rewrite (merge_header h (X1 ++ X2)) by (done || lia).
    replace (u32 _) with (tail_at (X1 ++ X2) 0 r).
    2:{ rewrite pos_last. fold X2. unfold tail_at, ZIPLIST_END_SIZE, ZIPLIST_HEADER_SIZE. pose proof (last_size_range r).
        rewrite zlen_app in HlX |- *. assert (zlen X2 = zsize r) by (unfold X2; zlia). pose_zlen.
        rewrite uwrap_small; lia. }
    rewrite (merge_seam _ l r Hne Hf1 Hf2 Hb). cbn [mbind option_bind]. eexists _, _. split; [done|].
    split; [done|]. split; [by apply zmerge_flags|]. eexists. split; [|done].
    replace (zlen (zmerge l r)) with (zlen l + zlen r); [apply merge_num; auto using zlen_nonneg|].
    unfold zlen, zmerge. rewrite length_app, zcascade_len. lia. }
  rewrite !zlen_zraw. set (total := 11 + zlen X1 + (11 + zlen X2) - ZIPLIST_HEADER_SIZE - ZIPLIST_END_SIZE).
  assert (Htot : total = 11 + zlen X1 + zlen X2).
  { unfold total, ZIPLIST_HEADER_SIZE, ZIPLIST_END_SIZE. lia. }
  rewrite zlen_app in Hfin. rewrite Z.add_assoc, <- Htot in Hfin.
  destruct (n1 >=? n2);
    [destruct (merge_bytes true t1 m1 X1 t2 m2 X2 total Htot) as (h & Hh & Hm)
    |destruct (merge_bytes false t1 m1 X1 t2 m2 X2 total Htot) as (h & Hh & Hm)];
    cbn iota zeta in Hm |- *; rewrite Hm; cbn [mbind option_bind]; by apply Hfin.
Qed.
End Merge.

(** [C29] [ziplistMerge] of two different lists, the second of which holds
    something, gives one list of the strings of both in order, whichever block it
    is built in; the lengths behind the seam are right again. *)
Theorem ziplistMerge_joins junk a1 zl1 es1 a2 zl2 es2
  (Ha : a1 <> a2) (H1 : zl_repr zl1 es1) (H2 : zl_repr zl2 es2) (Hne : es2 <> [])
  (Hroom : zroom (es1 ++ es2) < 2 ^ 32) :
  exists zl' append, ziplistMerge junk (Some (a1, zl1)) (Some (a2, zl2)) = Some (Some (zl', append)) /\
    zl_repr zl' (es1 ++ es2).
Proof.
  destruct H1 as (_ & l & Hl & <-). destruct H2 as (_ & r & Hr & <-).
  pose proof (zroom_size (l ++ r)) as Hz. pose proof (zroom_size (zmerge l r)) as Hzm.
  rewrite fmap_app in Hz. rewrite zmerge_snd in Hzm.
  destruct (merge_spec junk a1 zl1 l a2 zl2 r) as (zl' & append & Hm & Hr'); [done|done|done|by intros ->|lia|lia|].
  exists zl', append. split; [done|]. split; [done|]. exists (zmerge l r). by rewrite zmerge_snd.
Qed.

(** ** The theorems at concrete inputs *)

Definition ex_zl : list Z :=
  [24; 0; 0; 0; 21; 0; 0; 0; 3; 0; 0; 5; 104; 101; 108; 108; 111; 7; 192; 0; 4; 4; 246; 255].
Definition ex_xs : list zelem := [(false, bytes_of "hello"); (false, bytes_of "1024"); (false, bytes_of "5")].
Definition ex_zl_es : list (list Z) := snd <$> ex_xs.
Definition ex_fill (_ : nat) : Z := 77.

Lemma ex_zrep : zrep ex_zl ex_xs.
Proof.
  split; [by vm_compute|]. split; [|exists 3; split; [by right|by vm_compute]].
  repeat split; intros; by vm_compute.
Qed.

Lemma ex_at (i : nat) p : (i <= 3)%nat -> p = pos ex_xs i -> zl_at ex_zl ex_zl_es i p.
Proof. intros Hi ->. split; [by vm_compute|]. split; [done|]. exists ex_xs. split; [apply ex_zrep|done]. Qed.

Lemma ex_zl_repr : zl_repr ex_zl ex_zl_es.
Proof. split; [by vm_compute|]. exists ex_xs. split; [apply ex_zrep|done]. Qed.

(** A string of 254 bytes makes the field of the next entry grow. *)
Lemma ziplistInsert_witness :
  exists zl', ziplistInsert ex_fill ex_zl 17 (replicate 254 65) 254 = Some zl' /\
    zl_at zl' [bytes_of "hello"; replicate 254 65; bytes_of "1024"; bytes_of "5"] 1 17.
Proof.
  exact (ziplistInsert_refines ex_fill ex_zl ex_zl_es 1 17 (replicate 254 65)
    (ex_at 1 17 ltac:(lia) eq_refl) ltac:(by vm_compute)).
Defined.

Lemma ziplistDelete_witness :
  exists zl', ziplistDelete ex_fill ex_zl 17 = Some (zl', 17) /\ zl_at zl' [bytes_of "hello"; bytes_of "5"] 1 17.
Proof. exact (ziplistDelete_refines ex_fill ex_zl ex_zl_es 1 17 (ex_at 1 17 ltac:(lia) eq_refl) ltac:(vm_compute; lia)). Defined.

Lemma ziplistMerge_witness :
  exists zl' append, ziplistMerge ex_fill (Some (0, ex_zl)) (Some (1, ex_zl)) = Some (Some (zl', append)) /\
    zl_repr zl' (ex_zl_es ++ ex_zl_es).
Proof. exact (ziplistMerge_joins ex_fill 0 ex_zl ex_zl_es 1 ex_zl ex_zl_es ltac:(lia) ex_zl_repr ex_zl_repr ltac:(discriminate) ltac:(by vm_compute)). Defined.

(** Looking at every second string only, 5 is found at the third. *)
Lemma ziplistFind_witness :
  exists r, ziplistFind ex_zl 10 (bytes_of "5") 1 1 = Some r /\
    exists q, r = Some q /\ zl_at ex_zl ex_zl_es 2 q.
Proof. exact (ziplistFind_first ex_zl ex_zl_es 0 10 (bytes_of "5") 1 (ex_at 0 10 ltac:(lia) eq_refl) ltac:(lia)). Defined.

(** Merging with an empty second list leaves the offset of the tail at the end
    mark: the last entry is not found from the end any more. *)
Lemma merge_empty_tail :
  exists empty merged, ziplistNew ex_fill = Some empty /\
    ziplistMerge ex_fill (Some (0, ex_zl)) (Some (1, empty)) = Some (Some (merged, true)) /\
    ziplistLen merged = Some (3, merged) /\
    ziplistIndex ex_zl (-1) = Some (Some 21) /\ ziplistIndex merged (-1) = Some None.
Proof. do 2 eexists. split; [vm_compute; reflexivity|]. split; [vm_compute; reflexivity|]. repeat split. Qed.
