(* ===== verification/Checksum.v ===== *)
(** * Checksums and byte order (crc16.c, crc64.c, endianconv.c) and the hash
    slot of a key (cluster.c)

    The tables are the tables of the source.  The reference definitions divide
    bit by bit, and the theorems show that the table driven code computes them. *)
From Stdlib Require Import ZArith Lia String.
From stdpp Require Import base numbers list option.
From S2P Require Import Prelude.

(** ** endianconv.c

    A pointer is the buffer and the offset; every swap is the two assignments
    of the source. *)

Definition swap_bytes (m : list Z) (i j : Z) : option (list Z) :=
  t ← mget m i;
  xj ← mget m j;
  m ← mset m i xj;
  mset m j t.

Definition memrev16 (m : list Z) (p : Z) : option (list Z) := swap_bytes m p (p + 1).

Definition memrev32 (m : list Z) (p : Z) : option (list Z) :=
  m ← swap_bytes m p (p + 3);
  swap_bytes m (p + 1) (p + 2).

Definition memrev64 (m : list Z) (p : Z) : option (list Z) :=
  m ← swap_bytes m p (p + 7);
  m ← swap_bytes m (p + 1) (p + 6);
  m ← swap_bytes m (p + 2) (p + 5);
  swap_bytes m (p + 3) (p + 4).

(** The argument lives in memory, least significant byte first. *)
Definition intrev16 (v : Z) : option Z := m ← memrev16 (le_bytes 2 v) 0; Some (le_val m).
Definition intrev32 (v : Z) : option Z := m ← memrev32 (le_bytes 4 v) 0; Some (le_val m).
Definition intrev64 (v : Z) : option Z := m ← memrev64 (le_bytes 8 v) 0; Some (le_val m).

(** ** crc16.c *)

Definition crc16tab : list Z :=
  [0x0000; 0x1021; 0x2042; 0x3063; 0x4084; 0x50a5; 0x60c6; 0x70e7;
   0x8108; 0x9129; 0xa14a; 0xb16b; 0xc18c; 0xd1ad; 0xe1ce; 0xf1ef;
   0x1231; 0x0210; 0x3273; 0x2252; 0x52b5; 0x4294; 0x72f7; 0x62d6;
   0x9339; 0x8318; 0xb37b; 0xa35a; 0xd3bd; 0xc39c; 0xf3ff; 0xe3de;
   0x2462; 0x3443; 0x0420; 0x1401; 0x64e6; 0x74c7; 0x44a4; 0x5485;
   0xa56a; 0xb54b; 0x8528; 0x9509; 0xe5ee; 0xf5cf; 0xc5ac; 0xd58d;
   0x3653; 0x2672; 0x1611; 0x0630; 0x76d7; 0x66f6; 0x5695; 0x46b4;
   0xb75b; 0xa77a; 0x9719; 0x8738; 0xf7df; 0xe7fe; 0xd79d; 0xc7bc;
   0x48c4; 0x58e5; 0x6886; 0x78a7; 0x0840; 0x1861; 0x2802; 0x3823;
   0xc9cc; 0xd9ed; 0xe98e; 0xf9af; 0x8948; 0x9969; 0xa90a; 0xb92b;
   0x5af5; 0x4ad4; 0x7ab7; 0x6a96; 0x1a71; 0x0a50; 0x3a33; 0x2a12;
   0xdbfd; 0xcbdc; 0xfbbf; 0xeb9e; 0x9b79; 0x8b58; 0xbb3b; 0xab1a;
   0x6ca6; 0x7c87; 0x4ce4; 0x5cc5; 0x2c22; 0x3c03; 0x0c60; 0x1c41;
   0xedae; 0xfd8f; 0xcdec; 0xddcd; 0xad2a; 0xbd0b; 0x8d68; 0x9d49;
   0x7e97; 0x6eb6; 0x5ed5; 0x4ef4; 0x3e13; 0x2e32; 0x1e51; 0x0e70;
   0xff9f; 0xefbe; 0xdfdd; 0xcffc; 0xbf1b; 0xaf3a; 0x9f59; 0x8f78;
   0x9188; 0x81a9; 0xb1ca; 0xa1eb; 0xd10c; 0xc12d; 0xf14e; 0xe16f;
   0x1080; 0x00a1; 0x30c2; 0x20e3; 0x5004; 0x4025; 0x7046; 0x6067;
   0x83b9; 0x9398; 0xa3fb; 0xb3da; 0xc33d; 0xd31c; 0xe37f; 0xf35e;
   0x02b1; 0x1290; 0x22f3; 0x32d2; 0x4235; 0x5214; 0x6277; 0x7256;
   0xb5ea; 0xa5cb; 0x95a8; 0x8589; 0xf56e; 0xe54f; 0xd52c; 0xc50d;
   0x34e2; 0x24c3; 0x14a0; 0x0481; 0x7466; 0x6447; 0x5424; 0x4405;
   0xa7db; 0xb7fa; 0x8799; 0x97b8; 0xe75f; 0xf77e; 0xc71d; 0xd73c;
   0x26d3; 0x36f2; 0x0691; 0x16b0; 0x6657; 0x7676; 0x4615; 0x5634;
   0xd94c; 0xc96d; 0xf90e; 0xe92f; 0x99c8; 0x89e9; 0xb98a; 0xa9ab;
   0x5844; 0x4865; 0x7806; 0x6827; 0x18c0; 0x08e1; 0x3882; 0x28a3;
   0xcb7d; 0xdb5c; 0xeb3f; 0xfb1e; 0x8bf9; 0x9bd8; 0xabbb; 0xbb9a;
   0x4a75; 0x5a54; 0x6a37; 0x7a16; 0x0af1; 0x1ad0; 0x2ab3; 0x3a92;
   0xfd2e; 0xed0f; 0xdd6c; 0xcd4d; 0xbdaa; 0xad8b; 0x9de8; 0x8dc9;
   0x7c26; 0x6c07; 0x5c64; 0x4c45; 0x3ca2; 0x2c83; 0x1ce0; 0x0cc1;
   0xef1f; 0xff3e; 0xcf5d; 0xdf7c; 0xaf9b; 0xbfba; 0x8fd9; 0x9ff8;
   0x6e17; 0x7e36; 0x4e55; 0x5e74; 0x2e93; 0x3eb2; 0x0ed1; 0x1ef0].

(** The loop over [*buf++]; a [char] is signed. *)
Fixpoint crc16_loop (n : nat) (buf : list Z) (off crc : Z) : option Z :=
  match n with
  | O => Some crc
  | S n =>
      b ← mget buf off;
      t ← mget crc16tab (Z.land (Z.lxor (Z.shiftr crc 8) (i8 b)) 255);
      crc16_loop n buf (off + 1) (u16 (Z.lxor (Z.shiftl crc 8) t))
  end.

Definition crc16 (buf : list Z) (off len : Z) : option Z := crc16_loop (Z.to_nat len) buf off 0.

(** ** crc64.c *)

Definition crc64_tab : list Z :=
  [0x0000000000000000; 0x7ad870c830358979; 0xf5b0e190606b12f2; 0x8f689158505e9b8b;
   0xc038e5739841b68f; 0xbae095bba8743ff6; 0x358804e3f82aa47d; 0x4f50742bc81f2d04;
   0xab28ecb46814fe75; 0xd1f09c7c5821770c; 0x5e980d24087fec87; 0x24407dec384a65fe;
   0x6b1009c7f05548fa; 0x11c8790fc060c183; 0x9ea0e857903e5a08; 0xe478989fa00bd371;
   0x7d08ff3b88be6f81; 0x07d08ff3b88be6f8; 0x88b81eabe8d57d73; 0xf2606e63d8e0f40a;
   0xbd301a4810ffd90e; 0xc7e86a8020ca5077; 0x4880fbd87094cbfc; 0x32588b1040a14285;
   0xd620138fe0aa91f4; 0xacf86347d09f188d; 0x2390f21f80c18306; 0x594882d7b0f40a7f;
   0x1618f6fc78eb277b; 0x6cc0863448deae02; 0xe3a8176c18803589; 0x997067a428b5bcf0;
   0xfa11fe77117cdf02; 0x80c98ebf2149567b; 0x0fa11fe77117cdf0; 0x75796f2f41224489;
   0x3a291b04893d698d; 0x40f16bccb908e0f4; 0xcf99fa94e9567b7f; 0xb5418a5cd963f206;
   0x513912c379682177; 0x2be1620b495da80e; 0xa489f35319033385; 0xde51839b2936bafc;
   0x9101f7b0e12997f8; 0xebd98778d11c1e81; 0x64b116208142850a; 0x1e6966e8b1770c73;
   0x8719014c99c2b083; 0xfdc17184a9f739fa; 0x72a9e0dcf9a9a271; 0x08719014c99c2b08;
   0x4721e43f0183060c; 0x3df994f731b68f75; 0xb29105af61e814fe; 0xc849756751dd9d87;
   0x2c31edf8f1d64ef6; 0x56e99d30c1e3c78f; 0xd9810c6891bd5c04; 0xa3597ca0a188d57d;
   0xec09088b6997f879; 0x96d1784359a27100; 0x19b9e91b09fcea8b; 0x636199d339c963f2;
   0xdf7adabd7a6e2d6f; 0xa5a2aa754a5ba416; 0x2aca3b2d1a053f9d; 0x50124be52a30b6e4;
   0x1f423fcee22f9be0; 0x659a4f06d21a1299; 0xeaf2de5e82448912; 0x902aae96b271006b;
   0x74523609127ad31a; 0x0e8a46c1224f5a63; 0x81e2d7997211c1e8; 0xfb3aa75142244891;
   0xb46ad37a8a3b6595; 0xceb2a3b2ba0eecec; 0x41da32eaea507767; 0x3b024222da65fe1e;
   0xa2722586f2d042ee; 0xd8aa554ec2e5cb97; 0x57c2c41692bb501c; 0x2d1ab4dea28ed965;
   0x624ac0f56a91f461; 0x1892b03d5aa47d18; 0x97fa21650afae693; 0xed2251ad3acf6fea;
   0x095ac9329ac4bc9b; 0x7382b9faaaf135e2; 0xfcea28a2faafae69; 0x8632586aca9a2710;
   0xc9622c4102850a14; 0xb3ba5c8932b0836d; 0x3cd2cdd162ee18e6; 0x460abd1952db919f;
   0x256b24ca6b12f26d; 0x5fb354025b277b14; 0xd0dbc55a0b79e09f; 0xaa03b5923b4c69e6;
   0xe553c1b9f35344e2; 0x9f8bb171c366cd9b; 0x10e3202993385610; 0x6a3b50e1a30ddf69;
   0x8e43c87e03060c18; 0xf49bb8b633338561; 0x7bf329ee636d1eea; 0x012b592653589793;
   0x4e7b2d0d9b47ba97; 0x34a35dc5ab7233ee; 0xbbcbcc9dfb2ca865; 0xc113bc55cb19211c;
   0x5863dbf1e3ac9dec; 0x22bbab39d3991495; 0xadd33a6183c78f1e; 0xd70b4aa9b3f20667;
   0x985b3e827bed2b63; 0xe2834e4a4bd8a21a; 0x6debdf121b863991; 0x1733afda2bb3b0e8;
   0xf34b37458bb86399; 0x8993478dbb8deae0; 0x06fbd6d5ebd3716b; 0x7c23a61ddbe6f812;
   0x3373d23613f9d516; 0x49aba2fe23cc5c6f; 0xc6c333a67392c7e4; 0xbc1b436e43a74e9d;
   0x95ac9329ac4bc9b5; 0xef74e3e19c7e40cc; 0x601c72b9cc20db47; 0x1ac40271fc15523e;
   0x5594765a340a7f3a; 0x2f4c0692043ff643; 0xa02497ca54616dc8; 0xdafce7026454e4b1;
   0x3e847f9dc45f37c0; 0x445c0f55f46abeb9; 0xcb349e0da4342532; 0xb1eceec59401ac4b;
   0xfebc9aee5c1e814f; 0x8464ea266c2b0836; 0x0b0c7b7e3c7593bd; 0x71d40bb60c401ac4;
   0xe8a46c1224f5a634; 0x927c1cda14c02f4d; 0x1d148d82449eb4c6; 0x67ccfd4a74ab3dbf;
   0x289c8961bcb410bb; 0x5244f9a98c8199c2; 0xdd2c68f1dcdf0249; 0xa7f41839ecea8b30;
   0x438c80a64ce15841; 0x3954f06e7cd4d138; 0xb63c61362c8a4ab3; 0xcce411fe1cbfc3ca;
   0x83b465d5d4a0eece; 0xf96c151de49567b7; 0x76048445b4cbfc3c; 0x0cdcf48d84fe7545;
   0x6fbd6d5ebd3716b7; 0x15651d968d029fce; 0x9a0d8ccedd5c0445; 0xe0d5fc06ed698d3c;
   0xaf85882d2576a038; 0xd55df8e515432941; 0x5a3569bd451db2ca; 0x20ed197575283bb3;
   0xc49581ead523e8c2; 0xbe4df122e51661bb; 0x3125607ab548fa30; 0x4bfd10b2857d7349;
   0x04ad64994d625e4d; 0x7e7514517d57d734; 0xf11d85092d094cbf; 0x8bc5f5c11d3cc5c6;
   0x12b5926535897936; 0x686de2ad05bcf04f; 0xe70573f555e26bc4; 0x9ddd033d65d7e2bd;
   0xd28d7716adc8cfb9; 0xa85507de9dfd46c0; 0x273d9686cda3dd4b; 0x5de5e64efd965432;
   0xb99d7ed15d9d8743; 0xc3450e196da80e3a; 0x4c2d9f413df695b1; 0x36f5ef890dc31cc8;
   0x79a59ba2c5dc31cc; 0x037deb6af5e9b8b5; 0x8c157a32a5b7233e; 0xf6cd0afa9582aa47;
   0x4ad64994d625e4da; 0x300e395ce6106da3; 0xbf66a804b64ef628; 0xc5bed8cc867b7f51;
   0x8aeeace74e645255; 0xf036dc2f7e51db2c; 0x7f5e4d772e0f40a7; 0x05863dbf1e3ac9de;
   0xe1fea520be311aaf; 0x9b26d5e88e0493d6; 0x144e44b0de5a085d; 0x6e963478ee6f8124;
   0x21c640532670ac20; 0x5b1e309b16452559; 0xd476a1c3461bbed2; 0xaeaed10b762e37ab;
   0x37deb6af5e9b8b5b; 0x4d06c6676eae0222; 0xc26e573f3ef099a9; 0xb8b627f70ec510d0;
   0xf7e653dcc6da3dd4; 0x8d3e2314f6efb4ad; 0x0256b24ca6b12f26; 0x788ec2849684a65f;
   0x9cf65a1b368f752e; 0xe62e2ad306bafc57; 0x6946bb8b56e467dc; 0x139ecb4366d1eea5;
   0x5ccebf68aecec3a1; 0x2616cfa09efb4ad8; 0xa97e5ef8cea5d153; 0xd3a62e30fe90582a;
   0xb0c7b7e3c7593bd8; 0xca1fc72bf76cb2a1; 0x45775673a732292a; 0x3faf26bb9707a053;
   0x70ff52905f188d57; 0x0a2722586f2d042e; 0x854fb3003f739fa5; 0xff97c3c80f4616dc;
   0x1bef5b57af4dc5ad; 0x61372b9f9f784cd4; 0xee5fbac7cf26d75f; 0x9487ca0fff135e26;
   0xdbd7be24370c7322; 0xa10fceec0739fa5b; 0x2e675fb4576761d0; 0x54bf2f7c6752e8a9;
   0xcdcf48d84fe75459; 0xb71738107fd2dd20; 0x387fa9482f8c46ab; 0x42a7d9801fb9cfd2;
   0x0df7adabd7a6e2d6; 0x772fdd63e7936baf; 0xf8474c3bb7cdf024; 0x829f3cf387f8795d;
   0x66e7a46c27f3aa2c; 0x1c3fd4a417c62355; 0x935745fc4798b8de; 0xe98f353477ad31a7;
   0xa6df411fbfb21ca3; 0xdc0731d78f8795da; 0x536fa08fdfd90e51; 0x29b7d047efec8728].

Fixpoint crc64_loop (n : nat) (crc : Z) (s : list Z) (j : Z) : option Z :=
  match n with
  | O => Some crc
  | S n =>
      byte ← mget s j;
      t ← mget crc64_tab (Z.lxor (u8 crc) byte);
      crc64_loop n (Z.lxor t (Z.shiftr crc 8)) s (j + 1)
  end.

Definition crc64 (crc : Z) (s : list Z) (l : Z) : option Z := crc64_loop (Z.to_nat l) crc s 0.

Example crc_check :
  (crc16 (bytes_of "123456789") 0 9, crc64 0 (bytes_of "123456789") 9)
  = (Some 0x31c3, Some 0xe9c6d914c4b8d9ca).
Proof. vm_compute. reflexivity. Qed.

(** ** keyHashSlot *)

(** [for (i = from; i < keylen; i++) if (key[i] == c) break;] *)
Fixpoint find_brace (n : nat) (key : list Z) (c keylen i : Z) : option Z :=
  if i <? keylen then
    match n with
    | O => None
    | S n => x ← mget key i; if x =? c then Some i else find_brace n key c keylen (i + 1)
    end
  else Some i.

Definition keyHashSlot (key : list Z) (keylen : Z) : option Z :=
  let fuel := length key in
  s ← find_brace fuel key 123 keylen 0;
  if s =? keylen then h ← crc16 key 0 keylen; Some (Z.land h 0x3FFF)
  else
    e ← find_brace fuel key 125 keylen (s + 1);
    if (e =? keylen) || (e =? s + 1) then h ← crc16 key 0 keylen; Some (Z.land h 0x3FFF)
    else h ← crc16 key (s + 1) (e - s - 1); Some (Z.land h 0x3FFF).

(** * Reference definitions *)

(** One bit of the division, most significant bit first. *)
Definition crc16_bit (crc : Z) : Z :=
  let s := u16 (Z.shiftl crc 1) in
  if Z.testbit crc 15 then Z.lxor s 0x1021 else s.

Definition crc16_byte (crc b : Z) : Z := Nat.iter 8 crc16_bit (Z.lxor crc (Z.shiftl b 8)).
Definition crc16_ref (bs : list Z) : Z := fold_left crc16_byte bs 0.

(** Least significant bit first, with the polynomial 0xad93d23594c935a9 reversed. *)
Definition crc64_bit (crc : Z) : Z :=
  let s := Z.shiftr crc 1 in
  if Z.testbit crc 0 then Z.lxor s 0x95ac9329ac4bc9b5 else s.

Definition crc64_byte (crc b : Z) : Z := Nat.iter 8 crc64_bit (Z.lxor crc b).
Definition crc64_ref (crc : Z) (bs : list Z) : Z := fold_left crc64_byte bs crc.

(** * Proofs *)

Lemma swap_bytes_split (a b c : list Z) x y i j :
  i = zlen a -> j = zlen a + 1 + zlen b ->
  swap_bytes (a ++ x :: b ++ y :: c) i j = Some (a ++ y :: b ++ x :: c).
Proof.
  intros -> ->. unfold swap_bytes. rewrite (mget_split a x _ (zlen a) eq_refl). cbn [mbind option_bind].
  assert (E : forall z, a ++ z :: b ++ y :: c = (a ++ z :: b) ++ y :: c) by (intros; by rewrite <- app_assoc).
  rewrite E, mget_split by zlia. cbn [mbind option_bind]. rewrite <- E, (mset_split a x y _ (zlen a) eq_refl).
  cbn [mbind option_bind]. rewrite E, mset_split by zlia. by rewrite <- app_assoc.
Qed.

(** Swap across the bytes [b], behind the bytes [a]. *)
Ltac swap_at a b :=
  let H := fresh in pose proof (swap_bytes_split a b) as H; cbn [app] in H; rewrite H by zlia; clear H;
  cbn [mbind option_bind app].

Section Memrev.
Variables (a c : list Z) (x0 x1 x2 x3 x4 x5 x6 x7 : Z).

Lemma memrev16_rev : memrev16 (a ++ [x0; x1] ++ c) (zlen a) = Some (a ++ [x1; x0] ++ c).
Proof. unfold memrev16. cbn [app]. by swap_at a (@nil Z). Qed.

Lemma memrev32_rev :
  memrev32 (a ++ [x0; x1; x2; x3] ++ c) (zlen a) = Some (a ++ [x3; x2; x1; x0] ++ c).
Proof.
  unfold memrev32. cbn [app]. swap_at a [x1; x2].
  change (a ++ x3 :: ?l) with (a ++ [x3] ++ l). rewrite app_assoc.
  swap_at (a ++ [x3]) (@nil Z). by rewrite <- app_assoc.
Qed.

Lemma memrev64_rev :
  memrev64 (a ++ [x0; x1; x2; x3; x4; x5; x6; x7] ++ c) (zlen a)
  = Some (a ++ [x7; x6; x5; x4; x3; x2; x1; x0] ++ c).
Proof.
  unfold memrev64. cbn [app].
  swap_at a [x1; x2; x3; x4; x5; x6].
  change (a ++ x7 :: ?l) with (a ++ [x7] ++ l). rewrite app_assoc.
  swap_at (a ++ [x7]) [x2; x3; x4; x5].
  change ((a ++ [x7]) ++ x6 :: ?l) with ((a ++ [x7]) ++ [x6] ++ l). rewrite app_assoc.
  swap_at ((a ++ [x7]) ++ [x6]) [x3; x4].
  change (((a ++ [x7]) ++ [x6]) ++ x5 :: ?l) with (((a ++ [x7]) ++ [x6]) ++ [x5] ++ l). rewrite app_assoc.
  swap_at (((a ++ [x7]) ++ [x6]) ++ [x5]) (@nil Z).
  by rewrite <- !app_assoc.
Qed.
End Memrev.

(** [memrev16], [memrev32] and [memrev64] reverse exactly the bytes they are given
    a pointer to and touch nothing else. *)
Theorem memrev_reverses (a x c : list Z) :
  (zlen x = 2 -> memrev16 (a ++ x ++ c) (zlen a) = Some (a ++ rev x ++ c)) /\
  (zlen x = 4 -> memrev32 (a ++ x ++ c) (zlen a) = Some (a ++ rev x ++ c)) /\
  (zlen x = 8 -> memrev64 (a ++ x ++ c) (zlen a) = Some (a ++ rev x ++ c)).
Proof.
  split; [|split]; intros Hx.
  - destruct x as [|? [|? [|]]]; try (exfalso; zlia). apply memrev16_rev.
  - destruct x as [|? [|? [|? [|? [|]]]]]; try (exfalso; zlia). apply memrev32_rev.
  - destruct x as [|? [|? [|? [|? [|? [|? [|? [|? [|]]]]]]]]]; try (exfalso; zlia). apply memrev64_rev.
Qed.

(** ** The table driven CRCs divide bit by bit *)

Lemma crc16_bit_lxor x y : crc16_bit (Z.lxor x y) = Z.lxor (crc16_bit x) (crc16_bit y).
Proof.
  unfold crc16_bit. rewrite Z.shiftl_lxor, uwrap_lxor, Z.lxor_spec by lia.
  generalize (u16 (Z.shiftl x 1)) (u16 (Z.shiftl y 1)). intros u v.
  destruct (Z.testbit x 15), (Z.testbit y 15); cbn [xorb]; lxor_ac.
Qed.

Lemma crc64_bit_lxor x y : crc64_bit (Z.lxor x y) = Z.lxor (crc64_bit x) (crc64_bit y).
Proof.
  unfold crc64_bit. rewrite Z.shiftr_lxor, Z.lxor_spec.
  generalize (Z.shiftr x 1) (Z.shiftr y 1). intros u v.
  destruct (Z.testbit x 0), (Z.testbit y 0); cbn [xorb]; lxor_ac.
Qed.

Lemma iter_lxor (f : Z -> Z) (Hf : forall x y, f (Z.lxor x y) = Z.lxor (f x) (f y)) n x y :
  Nat.iter n f (Z.lxor x y) = Z.lxor (Nat.iter n f x) (Nat.iter n f y).
Proof. induction n as [|n IH]; [done|]. change (Nat.iter (S n) f ?v) with (f (Nat.iter n f v)).
  by rewrite IH, Hf. Qed.

(** The tables hold the remainders of the single bytes. *)
Lemma crc16tab_spec b : 0 <= b < 256 -> mget crc16tab b = Some (Nat.iter 8 crc16_bit (Z.shiftl b 8)).
Proof.
  intros Hb. pose proof (all_below_spec 256 (fun b => bool_decide (mget crc16tab b =
    Some (Nat.iter 8 crc16_bit (Z.shiftl b 8)))) b eq_refl Hb) as H. by apply bool_decide_eq_true in H.
Qed.

Lemma crc16_low b : 0 <= b < 256 -> Nat.iter 8 crc16_bit b = Z.shiftl b 8.
Proof.
  intros Hb. pose proof (all_below_spec 256 (fun b => Nat.iter 8 crc16_bit b =? Z.shiftl b 8) b eq_refl Hb) as H.
  cbn beta in H. lia.
Qed.

Lemma crc64_tab_spec b : 0 <= b < 256 -> mget crc64_tab b = Some (Nat.iter 8 crc64_bit b).
Proof.
  intros Hb. pose proof (all_below_spec 256 (fun b => bool_decide (mget crc64_tab b =
    Some (Nat.iter 8 crc64_bit b))) b eq_refl Hb) as H. by apply bool_decide_eq_true in H.
Qed.

Lemma crc64_bit_even h j k : j = k + 1 -> 0 <= k -> crc64_bit (Z.shiftl h j) = Z.shiftl h k.
Proof.
  intros -> Hk. unfold crc64_bit. rewrite Z.shiftl_spec_low by lia.
  rewrite Z.shiftr_shiftl_l by lia. f_equal. lia.
Qed.

Lemma crc64_high h : Nat.iter 8 crc64_bit (Z.shiftl h 8) = h.
Proof.
  cbn [Nat.iter nat_rect].
  rewrite (crc64_bit_even h 8 7), (crc64_bit_even h 7 6), (crc64_bit_even h 6 5), (crc64_bit_even h 5 4),
    (crc64_bit_even h 4 3), (crc64_bit_even h 3 2), (crc64_bit_even h 2 1), (crc64_bit_even h 1 0) by lia.
  apply Z.shiftl_0_r.
Qed.

Lemma i8_byte b : byte_ok b -> Z.land (i8 b) 255 = b.
Proof.
  intros Hb. pose proof (all_below_spec 256 (fun b => Z.land (i8 b) 255 =? b) b eq_refl Hb) as H.
  cbn beta in H. lia.
Qed.

Lemma crc16_step crc b : 0 <= crc < 2 ^ 16 -> byte_ok b ->
  exists t, mget crc16tab (Z.land (Z.lxor (Z.shiftr crc 8) (i8 b)) 255) = Some t /\
    u16 (Z.lxor (Z.shiftl crc 8) t) = crc16_byte crc b.
Proof.
  intros Hc Hb. pose proof (shiftr_range 16 8 crc ltac:(lia) Hc) as Hh. change (16 - 8) with 8 in Hh.
  assert (Hlo : 0 <= crc mod 256 < 256) by (apply Z.mod_pos_bound; lia).
  rewrite land_lxor_l, i8_byte by done. rewrite land_255, Z.mod_small by lia.
  set (h := Z.lxor (Z.shiftr crc 8) b). assert (Hx : 0 <= h < 2 ^ 8) by (apply lxor_range; [lia|exact Hh|exact Hb]).
  rewrite crc16tab_spec by done. eexists; split; [done|]. unfold crc16_byte.
  rewrite (lxor_split 8 crc) at 2 by lia. change (2 ^ 8) with 256.
  replace (Z.lxor (Z.lxor (crc mod 256) (Z.shiftl (Z.shiftr crc 8) 8)) (Z.shiftl b 8))
    with (Z.lxor (crc mod 256) (Z.shiftl h 8))
    by (unfold h; rewrite Z.shiftl_lxor; by rewrite Z.lxor_assoc).
  rewrite (iter_lxor _ crc16_bit_lxor), (crc16_low (crc mod 256)) by done.
  rewrite uwrap_lxor by lia. f_equal.
  - rewrite !Z.shiftl_mul_pow2 by lia. unfold uwrap. change (2 ^ 16) with (256 * 2 ^ 8).
    by rewrite Zmult_mod_distr_r.
  - apply uwrap_small. clear -Hx. clearbody h.
    pose proof (all_below_spec 256 (fun h => let t := Nat.iter 8 crc16_bit (Z.shiftl h 8) in
      (0 <=? t) && (t <? 2 ^ 16)) h eq_refl Hx) as H. cbn beta zeta in H. lia.
Qed.

Lemma crc16_bit_range x : 0 <= crc16_bit x < 2 ^ 16.
Proof. unfold crc16_bit. case_match; [apply lxor_range; [lia| |lia]|]; apply uwrap_range; lia. Qed.

Lemma crc16_byte_range crc b : 0 <= crc16_byte crc b < 2 ^ 16.
Proof. unfold crc16_byte. cbn [Nat.iter nat_rect]. apply crc16_bit_range. Qed.

Lemma crc16_loop_spec a bs c crc : bytes_ok bs -> 0 <= crc < 2 ^ 16 ->
  crc16_loop (length bs) (a ++ bs ++ c) (zlen a) crc = Some (fold_left crc16_byte bs crc).
Proof.
  intros Hbs. revert a crc. induction Hbs as [|b bs Hb Hbs IH]; intros a crc Hc; [done|].
  cbn [length crc16_loop app]. rewrite mget_split by done. cbn [mbind option_bind fold_left].
  destruct (crc16_step crc b Hc Hb) as (t & -> & Ht). cbn [mbind option_bind]. rewrite Ht.
  specialize (IH (a ++ [b]) (crc16_byte crc b) (crc16_byte_range _ _)).
  rewrite <- app_assoc in IH. cbn [app] in IH. rewrite <- IH. f_equal. zlia.
Qed.

Lemma crc16_spec a bs c : bytes_ok bs ->
  crc16 (a ++ bs ++ c) (zlen a) (zlen bs) = Some (crc16_ref bs).
Proof.
  intros. unfold crc16. replace (Z.to_nat (zlen bs)) with (length bs) by (unfold zlen; lia).
  by apply crc16_loop_spec.
Qed.

Lemma crc64_step crc b : 0 <= crc < 2 ^ 64 -> byte_ok b ->
  exists t, mget crc64_tab (Z.lxor (u8 crc) b) = Some t /\ Z.lxor t (Z.shiftr crc 8) = crc64_byte crc b.
Proof.
  intros Hc Hb. assert (Hx : 0 <= Z.lxor (u8 crc) b < 256).
  { apply (lxor_range 8); [lia|apply uwrap_range; lia|exact Hb]. }
  rewrite crc64_tab_spec by done. eexists; split; [done|]. unfold crc64_byte.
  rewrite (lxor_split 8 crc) at 3 by lia. change (crc mod 2 ^ 8) with (u8 crc).
  replace (Z.lxor (Z.lxor (u8 crc) (Z.shiftl (Z.shiftr crc 8) 8)) b)
    with (Z.lxor (Z.lxor (u8 crc) b) (Z.shiftl (Z.shiftr crc 8) 8)) by lxor_ac.
  rewrite (iter_lxor _ crc64_bit_lxor 8 (Z.lxor (u8 crc) b)), crc64_high. done.
Qed.

Lemma crc64_bit_range x : 0 <= x < 2 ^ 64 -> 0 <= crc64_bit x < 2 ^ 64.
Proof.
  intros Hx. pose proof (shiftr_range 64 1 x ltac:(lia) Hx).
  unfold crc64_bit. case_match; [apply lxor_range; lia|lia].
Qed.

Lemma crc64_byte_range crc b : 0 <= crc < 2 ^ 64 -> byte_ok b -> 0 <= crc64_byte crc b < 2 ^ 64.
Proof.
  intros Hc Hb. unfold crc64_byte, byte_ok in *. assert (H : 0 <= Z.lxor crc b < 2 ^ 64) by (apply lxor_range; lia).
  revert H. generalize (Z.lxor crc b). cbn [Nat.iter nat_rect]. intros. by repeat apply crc64_bit_range.
Qed.

Lemma crc64_ref_range bs crc : bytes_ok bs -> 0 <= crc < 2 ^ 64 -> 0 <= crc64_ref crc bs < 2 ^ 64.
Proof.
  intros Hbs. revert crc. induction Hbs as [|b bs Hb Hbs IH]; intros crc Hc; [done|].
  apply IH. by apply crc64_byte_range.
Qed.

Lemma crc64_loop_spec a bs c crc : bytes_ok bs -> 0 <= crc < 2 ^ 64 ->
  crc64_loop (length bs) crc (a ++ bs ++ c) (zlen a) = Some (crc64_ref crc bs).
Proof.
  intros Hbs. revert a crc. induction Hbs as [|b bs Hb Hbs IH]; intros a crc Hc; [done|].
  cbn [length crc64_loop app]. rewrite mget_split by done. cbn [mbind option_bind].
  destruct (crc64_step crc b Hc Hb) as (t & -> & Ht). cbn [mbind option_bind]. rewrite Ht.
  specialize (IH (a ++ [b]) (crc64_byte crc b) (crc64_byte_range _ _ Hc Hb)).
  rewrite <- app_assoc in IH. cbn [app] in IH. rewrite zlen_app in IH.
  change (zlen [b]) with 1 in IH. by rewrite IH.
Qed.

Lemma crc64_spec crc bs c : bytes_ok bs -> 0 <= crc < 2 ^ 64 ->
  crc64 crc (bs ++ c) (zlen bs) = Some (crc64_ref crc bs).
Proof. intros. unfold crc64, zlen. rewrite Nat2Z.id. by apply (crc64_loop_spec []). Qed.

(** The step loses nothing: its top bit is the bit that was shifted out. *)
Lemma crc64_bit_inj x y : 0 <= x < 2 ^ 64 -> 0 <= y < 2 ^ 64 -> crc64_bit x = crc64_bit y -> x = y.
Proof.
  assert (Htop : forall z, 0 <= z < 2 ^ 64 -> Z.testbit (crc64_bit z) 63 = Z.testbit z 0).
  { intros z Hz. unfold crc64_bit. assert (Z.testbit (Z.shiftr z 1) 63 = false).
    { rewrite Z.shiftr_spec by lia. rewrite <- (uwrap_small 64 z) by done. by apply Z.mod_pow2_bits_high. }
    destruct (Z.testbit z 0); [rewrite Z.lxor_spec|]; rewrite H; reflexivity. }
  intros Hx Hy E. pose proof (Htop x Hx) as H1. pose proof (Htop y Hy) as H2. rewrite E, H2 in H1.
  unfold crc64_bit in E. rewrite <- H1 in E.
  assert (Hs : Z.shiftr x 1 = Z.shiftr y 1).
  { destruct (Z.testbit y 0); [|done]. revert E. generalize (Z.shiftr x 1) (Z.shiftr y 1). intros u v E.
    apply (f_equal (fun z => Z.lxor z 0x95ac9329ac4bc9b5)) in E. rewrite !Z.lxor_assoc, Z.lxor_nilpotent in E.
    by rewrite !Z.lxor_0_r in E. }
  rewrite (lxor_split 1 x), (lxor_split 1 y), Hs by lia. f_equal.
  rewrite !Z.bit0_odd in H1. change (2 ^ 1) with 2. by rewrite !Zmod_odd, H1.
Qed.

Lemma crc64_byte_inj crc crc' b b' : 0 <= crc < 2 ^ 64 -> 0 <= crc' < 2 ^ 64 -> byte_ok b -> byte_ok b' ->
  crc64_byte crc b = crc64_byte crc' b' -> Z.lxor crc b = Z.lxor crc' b'.
Proof.
  unfold crc64_byte, byte_ok. intros Hc Hc' Hb Hb'.
  assert (H : 0 <= Z.lxor crc b < 2 ^ 64) by (apply lxor_range; lia).
  assert (H' : 0 <= Z.lxor crc' b' < 2 ^ 64) by (apply lxor_range; lia).
  revert H H'. generalize (Z.lxor crc b) (Z.lxor crc' b'). cbn [Nat.iter nat_rect]. intros x y Hx Hy E.
  repeat (apply crc64_bit_inj in E; [|by repeat apply crc64_bit_range|by repeat apply crc64_bit_range]).
  done.
Qed.

Lemma lxor_cancel_l x y z : Z.lxor x y = Z.lxor x z -> y = z.
Proof.
  intros E. apply (f_equal (Z.lxor x)) in E. rewrite <- !Z.lxor_assoc, Z.lxor_nilpotent in E. exact E.
Qed.

Lemma crc64_ref_inj bs x y : bytes_ok bs -> 0 <= x < 2 ^ 64 -> 0 <= y < 2 ^ 64 ->
  crc64_ref x bs = crc64_ref y bs -> x = y.
Proof.
  intros Hbs. revert x y. induction Hbs as [|b bs Hb Hbs IH]; intros x y Hx Hy E; [done|].
  apply IH in E; [|by apply crc64_byte_range|by apply crc64_byte_range].
  apply crc64_byte_inj in E; [|done..]. rewrite !(Z.lxor_comm _ b) in E. by apply lxor_cancel_l in E.
Qed.

(** The table driven [crc16], with its signed characters, is the bit by bit
    division by x^16 + x^12 + x^5 + 1, on any part of a buffer and reading no byte
    outside it. *)
Theorem crc16_divides (a bs c : list Z) (Hbs : bytes_ok bs) :
  crc16 (a ++ bs ++ c) (zlen a) (zlen bs) = Some (crc16_ref bs).
Proof. by apply crc16_spec. Qed.

(** [C39] The table driven [crc64] is the reflected bit by bit division by
    0xad93d23594c935a9, continuing from any earlier checksum. *)
Theorem crc64_divides (crc : Z) (bs c : list Z) (Hbs : bytes_ok bs) (Hcrc : 0 <= crc < 2 ^ 64) :
  crc64 crc (bs ++ c) (zlen bs) = Some (crc64_ref crc bs).
Proof. by apply crc64_spec. Qed.

(** Two blocks that differ in exactly one byte have different [crc64] checksums,
    wherever the byte is and whatever follows it. *)
Theorem crc64_detects_byte (crc : Z) (a b : list Z) (x y : Z) (Ha : bytes_ok a) (Hb : bytes_ok b)
    (Hx : byte_ok x) (Hy : byte_ok y) (Hxy : x <> y) (Hcrc : 0 <= crc < 2 ^ 64) :
  crc64 crc (a ++ [x] ++ b) (zlen a + 1 + zlen b) <> crc64 crc (a ++ [y] ++ b) (zlen a + 1 + zlen b).
Proof.
  assert (H : forall z, byte_ok z -> crc64 crc (a ++ [z] ++ b) (zlen a + 1 + zlen b)
    = Some (crc64_ref (crc64_byte (crc64_ref crc a) z) b)).
  { intros z Hz. pose proof (crc64_spec crc (a ++ [z] ++ b) []) as Hs. rewrite app_nil_r in Hs.
    replace (zlen a + 1 + zlen b) with (zlen (a ++ [z] ++ b)) by zlia. rewrite Hs; [|by rewrite !Forall_app, Forall_singleton|done].
    unfold crc64_ref. by rewrite !fold_left_app. }
  rewrite !H by done. intros [= E]. pose proof (crc64_ref_range a crc Ha Hcrc) as Hr.
  apply crc64_ref_inj in E; [|done|by apply crc64_byte_range..].
  apply crc64_byte_inj in E; [|done..]. by apply lxor_cancel_l in E.
Qed.

(** ** Hash slots *)

(** The bytes before the first [c], and those after it. *)
Fixpoint cut (c : Z) (l : list Z) : list Z * option (list Z) :=
  match l with
  | [] => ([], None)
  | x :: l => if x =? c then ([], Some l) else let '(p, r) := cut c l in (x :: p, r)
  end.

(** The part of the key that decides the slot: what is between the first brace
    and the next closing one, the whole key when that is missing or empty. *)
Definition hash_tag (key : list Z) : list Z :=
  match cut 123 key with
  | (_, Some r) => match cut 125 r with (t, Some _) => if bool_decide (t = []) then key else t | _ => key end
  | _ => key
  end.

Lemma cut_spec c l :
  match cut c l with
  | (p, Some r) => l = p ++ c :: r
  | (p, None) => p = l
  end.
Proof.
  induction l as [|x l IH]; cbn [cut]; [done|]. destruct (x =? c) eqn:E.
  - apply Z.eqb_eq in E. by subst.
  - destruct (cut c l) as [p [r|]]; by subst.
Qed.

Lemma cut_first c p r : c ∉ p -> cut c (p ++ c :: r) = (p, Some r).
Proof.
  induction p as [|x p IH]; intros Hp; cbn [cut app].
  - by rewrite Z.eqb_refl.
  - apply not_elem_of_cons in Hp as [Hx Hp]. rewrite (proj2 (Z.eqb_neq x c)) by done. by rewrite IH.
Qed.

Lemma find_brace_spec (n : nat) a l c rest : (length l <= n)%nat ->
  find_brace n (a ++ l ++ rest) c (zlen a + zlen l) (zlen a)
  = Some (zlen a + zlen (fst (cut c l))).
Proof.
  revert a l. induction n as [|n IH]; intros a [|x l] Hn; cbn [find_brace length] in *; try lia.
  1,2: rewrite zlen_nil, Z.add_0_r, Z.ltb_irrefl; cbn [cut fst]; by rewrite zlen_nil, Z.add_0_r.
  rewrite zlen_cons. pose_zlen. zbool. cbn [app]. rewrite mget_split by done. cbn [mbind option_bind cut].
    destruct (x =? c) eqn:E; cbn [fst]; [by rewrite zlen_nil, Z.add_0_r|].
    specialize (IH (a ++ [x]) l ltac:(lia)). rewrite <- app_assoc in IH. cbn [app] in IH.
    rewrite zlen_app in IH. change (zlen [x]) with 1 in IH.
    replace (zlen a + (1 + zlen l)) with (zlen a + 1 + zlen l) by lia. rewrite IH.
    destruct (cut c l) as [p r]. cbn [fst]. rewrite zlen_cons. f_equal. lia.
Qed.

Lemma keyHashSlot_spec key rest : bytes_ok key ->
  keyHashSlot (key ++ rest) (zlen key) = Some (Z.land (crc16_ref (hash_tag key)) 0x3FFF).
Proof.
  intros Hb. unfold keyHashSlot, hash_tag.
  pose proof (crc16_spec [] key rest Hb) as Hall. cbn [app] in Hall. change (zlen (@nil Z)) with 0 in Hall.
  pose proof (find_brace_spec (length (key ++ rest)) [] key 123 rest) as Hs.
  cbn [app] in Hs. change (zlen (@nil Z)) with 0 in Hs. rewrite !Z.add_0_l in Hs.
  rewrite Hs by (rewrite length_app; lia). cbn [mbind option_bind].
  pose proof (cut_spec 123 key) as Hc. destruct (cut 123 key) as [p [r|]]; cbn [fst];
    [|subst p; by rewrite Z.eqb_refl, Hall].
  assert (Hk : zlen key = zlen p + 1 + zlen r) by (rewrite Hc; zlia). pose_zlen.
  rewrite (proj2 (Z.eqb_neq _ _)) by lia.
  assert (Hkey : key ++ rest = (p ++ [123]) ++ r ++ rest) by (rewrite Hc, <- !app_assoc; done).
  assert (Hp1 : zlen p + 1 = zlen (p ++ [123])) by zlia.
  pose proof (find_brace_spec (length (key ++ rest)) (p ++ [123]) r 125 rest) as Hs2.
  rewrite <- Hkey in Hs2. rewrite Hp1, Hk, Hp1, Hs2 by (rewrite Hkey, !length_app; lia).
  cbn [mbind option_bind]. pose proof (cut_spec 125 r) as Hc2.
  rewrite Hk, Hp1 in Hall. destruct (cut 125 r) as [t [q|]]; cbn [fst];
    [|subst t; by rewrite Z.eqb_refl; cbn [orb]; rewrite Hall].
  rewrite <- Hp1. assert (Hr : zlen r = zlen t + 1 + zlen q) by (rewrite Hc2; zlia). pose_zlen.
  rewrite (proj2 (Z.eqb_neq (zlen p + 1 + zlen t) _)) by lia. cbn [orb].
  case_bool_decide as Ht.
  - subst t. rewrite zlen_nil, Z.add_0_r, Z.eqb_refl, Hp1. by rewrite Hall.
  - assert (zlen t <> 0) by (destruct t; [done|zlia]). rewrite (proj2 (Z.eqb_neq _ _)) by lia.
    rewrite Hkey, Hc2, <- (app_assoc t). cbn [app]. rewrite Hp1.
    replace (zlen (p ++ [123]) + zlen t - zlen p - 1) with (zlen t) by zlia.
    rewrite crc16_spec; [done|]. rewrite Hc, Hc2 in Hb.
    apply Forall_app in Hb as [_ Hb]. inversion Hb as [|? ? _ Hb']. by apply Forall_app in Hb' as [? _].
Qed.

(** [keyHashSlot] reads only the key and answers one of the 16384 slots, the CRC of
    the key's hash tag; keys with the same non-empty {tag} share a slot. *)
Theorem keyHashSlot_hashes_tag (key rest : list Z) (Hkey : bytes_ok key) :
  (exists slot, keyHashSlot (key ++ rest) (zlen key) = Some slot /\
    slot = Z.land (crc16_ref (hash_tag key)) 0x3FFF /\ 0 <= slot < 16384) /\
  (forall a t b, key = a ++ [123] ++ t ++ [125] ++ b -> 123 ∉ a -> 125 ∉ t -> t <> [] -> hash_tag key = t).
Proof.
  split.
  - exists (Z.land (crc16_ref (hash_tag key)) 0x3FFF). split; [by apply keyHashSlot_spec|]. split; [done|].
    change 0x3FFF with (Z.ones 14). rewrite Z.land_ones by lia. by apply Z.mod_pos_bound.
  - intros a t b -> Ha Ht Hne. unfold hash_tag. cbn [app]. rewrite cut_first by done.
    rewrite cut_first by done. by rewrite bool_decide_false.
Qed.

(** ** Integers *)

Lemma intrev16_spec v : intrev16 v = Some (le_val (rev (le_bytes 2 v))).
Proof. unfold intrev16. rewrite le_bytes_2. by rewrite (memrev16_rev [] [] _ _ : memrev16 [_; _] 0 = _). Qed.
Lemma intrev32_spec v : intrev32 v = Some (le_val (rev (le_bytes 4 v))).
Proof. unfold intrev32. rewrite le_bytes_4. by rewrite (memrev32_rev [] [] _ _ _ _ : memrev32 [_; _; _; _] 0 = _). Qed.
Lemma intrev64_spec v : intrev64 v = Some (le_val (rev (le_bytes 8 v))).
Proof.
  unfold intrev64. rewrite le_bytes_8.
  by rewrite (memrev64_rev [] [] _ _ _ _ _ _ _ _ : memrev64 [_; _; _; _; _; _; _; _] 0 = _).
Qed.

Lemma rev_twice n v : 0 <= v < 2 ^ (8 * Z.of_nat n) ->
  le_val (rev (le_bytes n (le_val (rev (le_bytes n v))))) = v.
Proof.
  intros Hv. replace n with (length (rev (le_bytes n v))) at 1.
  - rewrite le_bytes_le_val by apply Forall_rev, le_bytes_ok. rewrite rev_involutive. by apply le_val_small.
  - pose proof (zlen_le_bytes n v). unfold zlen in *. rewrite length_rev. lia.
Qed.

(** [intrev16], [intrev32] and [intrev64] undo themselves. *)
Theorem intrev_involutive (v : Z) (Hv : 0 <= v < 2 ^ 64) :
  (v < 2 ^ 16 -> (x ← intrev16 v; intrev16 x) = Some v) /\
  (v < 2 ^ 32 -> (x ← intrev32 v; intrev32 x) = Some v) /\
  (x ← intrev64 v; intrev64 x) = Some v.
Proof.
  rewrite intrev16_spec, intrev32_spec, intrev64_spec. cbn [mbind option_bind].
  rewrite intrev16_spec, intrev32_spec, intrev64_spec.
  split; [|split]; intros; f_equal; apply rev_twice; lia.
Qed.

(** ** The theorems at concrete inputs *)

Lemma memrev_witness :
  memrev64 ([9] ++ [1; 2; 3; 4; 5; 6; 7; 8] ++ [9]) 1 = Some [9; 8; 7; 6; 5; 4; 3; 2; 1; 9].
Proof. exact (proj2 (proj2 (memrev_reverses [9] [1; 2; 3; 4; 5; 6; 7; 8] [9])) eq_refl). Defined.

Lemma bytes_ok_123 : bytes_ok [1; 2; 3].
Proof. repeat constructor; by vm_compute. Defined.

Lemma crc16_witness : crc16 ([7] ++ [1; 2; 3] ++ [0]) 1 3 = Some 0x6131.
Proof. exact (crc16_divides [7] [1; 2; 3] [0] bytes_ok_123). Defined.

Lemma crc64_witness : crc64 5 ([1; 2; 3] ++ [0]) 3 = Some (crc64_ref 5 [1; 2; 3]).
Proof. exact (crc64_divides 5 [1; 2; 3] [0] bytes_ok_123 ltac:(lia)). Defined.

Lemma crc64_detects_witness :
  crc64 0 ([1; 2; 3] ++ [4] ++ [1; 2; 3]) 7 <> crc64 0 ([1; 2; 3] ++ [5] ++ [1; 2; 3]) 7.
Proof.
  exact (crc64_detects_byte 0 [1; 2; 3] [1; 2; 3] 4 5 bytes_ok_123 bytes_ok_123
    ltac:(by vm_compute) ltac:(by vm_compute) ltac:(lia) ltac:(lia)).
Defined.

Lemma keyHashSlot_witness :
  exists slot, keyHashSlot (bytes_of "a{user}b" ++ [0]) 8 = Some slot /\
    slot = Z.land (crc16_ref (hash_tag (bytes_of "a{user}b"))) 0x3FFF /\ 0 <= slot < 16384.
Proof.
  exact (proj1 (keyHashSlot_hashes_tag (bytes_of "a{user}b") [0] ltac:(repeat constructor; by vm_compute))).
Defined.

Lemma intrev_witness : (x ← intrev64 258; intrev64 x) = Some 258.
Proof. exact (proj2 (proj2 (intrev_involutive 258 ltac:(lia)))). Defined.
