(* ===== verification/Siphash.v ===== *)
(** * SipHash 1-2 (siphash.c)

    The two entry points as the source writes them, on the portable byte reader;
    the case insensitive one is proved to be the plain one on the lower case
    string. *)
From Stdlib Require Import ZArith Lia String.
From stdpp Require Import base numbers list option.
From S2P Require Import Prelude.

Definition siptlw (c : Z) : Z := if (c >=? 65) && (c <=? 90) then c + (97 - 65) else c.

Definition ROTL (x b : Z) : Z := u64 (Z.lor (Z.shiftl x b) (Z.shiftr x (64 - b))).

Definition U8TO64_LE (m : list Z) (p : Z) : option Z :=
  b0 ← mget m p; b1 ← mget m (p + 1); b2 ← mget m (p + 2); b3 ← mget m (p + 3);
  b4 ← mget m (p + 4); b5 ← mget m (p + 5); b6 ← mget m (p + 6); b7 ← mget m (p + 7);
  Some (Z.lor (Z.lor (Z.lor (Z.lor (Z.lor (Z.lor (Z.lor b0 (Z.shiftl b1 8)) (Z.shiftl b2 16))
    (Z.shiftl b3 24)) (Z.shiftl b4 32)) (Z.shiftl b5 40)) (Z.shiftl b6 48)) (Z.shiftl b7 56)).

Definition U8TO64_LE_NOCASE (m : list Z) (p : Z) : option Z :=
  b0 ← mget m p; b1 ← mget m (p + 1); b2 ← mget m (p + 2); b3 ← mget m (p + 3);
  b4 ← mget m (p + 4); b5 ← mget m (p + 5); b6 ← mget m (p + 6); b7 ← mget m (p + 7);
  Some (Z.lor (Z.lor (Z.lor (Z.lor (Z.lor (Z.lor (Z.lor (siptlw b0) (Z.shiftl (siptlw b1) 8))
    (Z.shiftl (siptlw b2) 16)) (Z.shiftl (siptlw b3) 24)) (Z.shiftl (siptlw b4) 32))
    (Z.shiftl (siptlw b5) 40)) (Z.shiftl (siptlw b6) 48)) (Z.shiftl (siptlw b7) 56)).

(** The four words of the state. *)
Record sipstate := { v0 : Z; v1 : Z; v2 : Z; v3 : Z }.

Definition SIPROUND (s : sipstate) : sipstate :=
  let '{| v0 := v0; v1 := v1; v2 := v2; v3 := v3 |} := s in
  let v0 := u64 (v0 + v1) in
  let v1 := ROTL v1 13 in
  let v1 := Z.lxor v1 v0 in
  let v0 := ROTL v0 32 in
  let v2 := u64 (v2 + v3) in
  let v3 := ROTL v3 16 in
  let v3 := Z.lxor v3 v2 in
  let v0 := u64 (v0 + v3) in
  let v3 := ROTL v3 21 in
  let v3 := Z.lxor v3 v0 in
  let v2 := u64 (v2 + v1) in
  let v1 := ROTL v1 17 in
  let v1 := Z.lxor v1 v2 in
  let v2 := ROTL v2 32 in
  {| v0 := v0; v1 := v1; v2 := v2; v3 := v3 |}.

(** [v3 ^= m; SIPROUND; v0 ^= m]. *)
Definition absorb (s : sipstate) (m : Z) : sipstate :=
  let s := {| v0 := v0 s; v1 := v1 s; v2 := v2 s; v3 := Z.lxor (v3 s) m |} in
  let s := SIPROUND s in
  {| v0 := Z.lxor (v0 s) m; v1 := v1 s; v2 := v2 s; v3 := v3 s |}.

(** [v2 ^= 0xff], two rounds, and the exclusive or of the words. *)
Definition finish (s : sipstate) : Z :=
  let s := {| v0 := v0 s; v1 := v1 s; v2 := Z.lxor (v2 s) 0xff; v3 := v3 s |} in
  let s := SIPROUND s in
  let s := SIPROUND s in
  Z.lxor (Z.lxor (Z.lxor (v0 s) (v1 s)) (v2 s)) (v3 s).

Definition init (k0 k1 : Z) : sipstate :=
  {| v0 := Z.lxor 0x736f6d6570736575 k0; v1 := Z.lxor 0x646f72616e646f6d k1;
     v2 := Z.lxor 0x6c7967656e657261 k0; v3 := Z.lxor 0x7465646279746573 k1 |}.

(** [for (; in != end; in += 8)], [n] times. *)
Fixpoint sip_loop (n : nat) (m : list Z) (p : Z) (s : sipstate) : option sipstate :=
  match n with
  | O => Some s
  | S n => w ← U8TO64_LE m p; sip_loop n m (p + 8) (absorb s w)
  end.

Fixpoint sip_loop_nocase (n : nat) (m : list Z) (p : Z) (s : sipstate) : option sipstate :=
  match n with
  | O => Some s
  | S n => w ← U8TO64_LE_NOCASE m p; sip_loop_nocase n m (p + 8) (absorb s w)
  end.

(** [b |= ((uint64_t)in[i]) << sh]. *)
Definition or_byte (m : list Z) (p i sh b : Z) : option Z :=
  x ← mget m (p + i); Some (Z.lor b (Z.shiftl x sh)).

Definition or_byte_nocase (m : list Z) (p i sh b : Z) : option Z :=
  x ← mget m (p + i); Some (Z.lor b (Z.shiftl (siptlw x) sh)).

(** [switch (left)]: the cases fall through. *)
Definition sip_left (left_ : Z) (m : list Z) (p b : Z) : option Z :=
  b ← (if left_ >=? 7 then or_byte m p 6 48 b else Some b);
  b ← (if left_ >=? 6 then or_byte m p 5 40 b else Some b);
  b ← (if left_ >=? 5 then or_byte m p 4 32 b else Some b);
  b ← (if left_ >=? 4 then or_byte m p 3 24 b else Some b);
  b ← (if left_ >=? 3 then or_byte m p 2 16 b else Some b);
  b ← (if left_ >=? 2 then or_byte m p 1 8 b else Some b);
  (if left_ >=? 1 then or_byte m p 0 0 b else Some b).

Definition sip_left_nocase (left_ : Z) (m : list Z) (p b : Z) : option Z :=
  b ← (if left_ >=? 7 then or_byte_nocase m p 6 48 b else Some b);
  b ← (if left_ >=? 6 then or_byte_nocase m p 5 40 b else Some b);
  b ← (if left_ >=? 5 then or_byte_nocase m p 4 32 b else Some b);
  b ← (if left_ >=? 4 then or_byte_nocase m p 3 24 b else Some b);
  b ← (if left_ >=? 3 then or_byte_nocase m p 2 16 b else Some b);
  b ← (if left_ >=? 2 then or_byte_nocase m p 1 8 b else Some b);
  (if left_ >=? 1 then or_byte_nocase m p 0 0 b else Some b).

Definition siphash (inp : list Z) (inlen : Z) (k : list Z) : option Z :=
  k0 ← U8TO64_LE k 0;
  k1 ← U8TO64_LE k 8;
  let end_ := inlen - inlen mod 8 in
  let left_ := Z.land inlen 7 in
  let b := u64 (Z.shiftl inlen 56) in
  s ← sip_loop (Z.to_nat (end_ / 8)) inp 0 (init k0 k1);
  b ← sip_left left_ inp end_ b;
  Some (finish (absorb s b)).

Definition siphash_nocase (inp : list Z) (inlen : Z) (k : list Z) : option Z :=
  k0 ← U8TO64_LE k 0;
  k1 ← U8TO64_LE k 8;
  let end_ := inlen - inlen mod 8 in
  let left_ := Z.land inlen 7 in
  let b := u64 (Z.shiftl inlen 56) in
  s ← sip_loop_nocase (Z.to_nat (end_ / 8)) inp 0 (init k0 k1);
  b ← sip_left_nocase left_ inp end_ b;
  Some (finish (absorb s b)).

(** ** Proofs *)

Section Nocase.
Variable m : list Z.
Let lower := siptlw <$> m.

Lemma mget_lower p : mget lower p = siptlw <$> mget m p.
Proof. unfold mget, lower. case_match; [apply list_lookup_fmap|done]. Qed.

Lemma read_nocase p : U8TO64_LE_NOCASE m p = U8TO64_LE lower p.
Proof.
  unfold U8TO64_LE_NOCASE, U8TO64_LE. rewrite !mget_lower.
  repeat (match goal with |- context [mget m ?q] => destruct (mget m q); cbn [mbind option_bind fmap option_fmap option_map]; [|done] end).
  done.
Qed.

Lemma loop_nocase n p s : sip_loop_nocase n m p s = sip_loop n lower p s.
Proof.
  revert p s. induction n as [|n IH]; intros p s; [done|]. cbn [sip_loop_nocase sip_loop].
  rewrite read_nocase. destruct (U8TO64_LE lower p); [apply IH|done].
Qed.

Lemma or_byte_lower p i sh b : or_byte_nocase m p i sh b = or_byte lower p i sh b.
Proof. unfold or_byte_nocase, or_byte. rewrite mget_lower. by destruct (mget m (p + i)). Qed.

Lemma left_nocase l p b : sip_left_nocase l m p b = sip_left l lower p b.
Proof.
  assert (E : forall (t : bool) p i sh b,
    (if t then or_byte_nocase m p i sh b else Some b) = (if t then or_byte lower p i sh b else Some b)).
  { intros [] ????; [apply or_byte_lower|done]. }
  unfold sip_left_nocase, sip_left.
  do 6 (rewrite E; match goal with |- mbind _ ?o = _ => destruct o; cbn [mbind option_bind]; [|done] end).
  apply E.
Qed.
End Nocase.

(** What is read, and how large the answer is. *)
Lemma read_total s p : 0 <= p -> p + 8 <= zlen s ->
  exists w, forall c, U8TO64_LE (s ++ c) p = Some w.
Proof.
  intros Hp Hl. unfold U8TO64_LE.
  assert (H : forall i, 0 <= i < 8 -> exists x, forall c, mget (s ++ c) (p + i) = Some x).
  { intros i Hi. destruct (mget_is_Some s (p + i) ltac:(lia)) as [x Hx]. exists x. intros.
    rewrite mget_app_l by lia. done. }
  destruct (mget_is_Some s p ltac:(lia)) as [x0 H0].
  destruct (H 1 ltac:(lia)) as [x1 H1]. destruct (H 2 ltac:(lia)) as [x2 H2].
  destruct (H 3 ltac:(lia)) as [x3 H3]. destruct (H 4 ltac:(lia)) as [x4 H4].
  destruct (H 5 ltac:(lia)) as [x5 H5]. destruct (H 6 ltac:(lia)) as [x6 H6].
  destruct (H 7 ltac:(lia)) as [x7 H7]. eexists. intros c'.
  rewrite (mget_app_l s c' p) by lia. rewrite H0, H1, H2, H3, H4, H5, H6, H7. reflexivity.
Qed.

Lemma loop_total s (n : nat) p st : 0 <= p -> p + 8 * Z.of_nat n <= zlen s ->
  exists st', forall c, sip_loop n (s ++ c) p st = Some st'.
Proof.
  revert p st. induction n as [|n IH]; intros p st Hp Hl; [by eexists|]. cbn [sip_loop].
  destruct (read_total s p Hp ltac:(lia)) as [w Hw].
  destruct (IH (p + 8) (absorb st w) ltac:(lia) ltac:(lia)) as [st' H]. exists st'. intros c.
  rewrite Hw. apply H.
Qed.

Lemma or_byte_total (t : bool) s p i sh b : 0 <= p + i -> (t = true -> p + i < zlen s) ->
  exists b', forall c, (if t then or_byte (s ++ c) p i sh b else Some b) = Some b'.
Proof.
  intros Hp Hl. destruct t; [|by eexists]. specialize (Hl eq_refl). unfold or_byte.
  destruct (mget_is_Some s (p + i) ltac:(lia)) as [x Hx]. eexists. intros c.
  rewrite mget_app_l by lia. rewrite Hx. reflexivity.
Qed.

Lemma left_total s l p b : 0 <= p -> p + l = zlen s -> l <= 7 ->
  exists b', forall c, sip_left l (s ++ c) p b = Some b'.
Proof.
  intros Hp Hl H7. unfold sip_left.
  assert (H : forall k i sh b, k = i + 1 -> 0 <= i -> exists b', forall c,
    (if l >=? k then or_byte (s ++ c) p i sh b else Some b) = Some b').
  { intros k i sh b0 -> Hi. apply or_byte_total; [lia|]. intros. lia. }
  destruct (H 7 6 48 b eq_refl ltac:(lia)) as [b6 H6]. destruct (H 6 5 40 b6 eq_refl ltac:(lia)) as [b5 H5].
  destruct (H 5 4 32 b5 eq_refl ltac:(lia)) as [b4 H4]. destruct (H 4 3 24 b4 eq_refl ltac:(lia)) as [b3 H3].
  destruct (H 3 2 16 b3 eq_refl ltac:(lia)) as [b2 H2]. destruct (H 2 1 8 b2 eq_refl ltac:(lia)) as [b1 H1].
  destruct (H 1 0 0 b1 eq_refl ltac:(lia)) as [b0 H0]. exists b0. intros c.
  rewrite H6. cbn [mbind option_bind]. rewrite H5. cbn [mbind option_bind]. rewrite H4. cbn [mbind option_bind].
  rewrite H3. cbn [mbind option_bind]. rewrite H2. cbn [mbind option_bind]. rewrite H1. apply H0.
Qed.

Definition state_ok (s : sipstate) : Prop :=
  in_u 64 (v0 s) /\ in_u 64 (v1 s) /\ in_u 64 (v2 s) /\ in_u 64 (v3 s).

Lemma SIPROUND_ok s : state_ok (SIPROUND s).
Proof.
  destruct s as [a b c d]. unfold SIPROUND, state_ok, ROTL, in_u. cbn [v0 v1 v2 v3].
  repeat split; first [by apply uwrap_range|apply (lxor_range 64); [done|by apply uwrap_range..]].
Qed.

Lemma finish_range s : in_u 64 (finish s).
Proof.
  unfold finish. set (r := SIPROUND (SIPROUND _)). destruct (SIPROUND_ok (SIPROUND _) : state_ok r) as (?&?&?&?).
  unfold in_u in *. repeat (apply lxor_range; [lia| |done]). done.
Qed.

(** [siphash] reads the [inlen] bytes of the string and the 16 bytes of the
    key and nothing behind them, and answers a 64-bit number for every string. *)
Theorem siphash_total (s k : list Z) (Hk : zlen k = 16) :
  exists h, 0 <= h < 2 ^ 64 /\ forall c ck, siphash (s ++ c) (zlen s) (k ++ ck) = Some h.
Proof.
  destruct (read_total k 0 ltac:(lia) ltac:(lia)) as [k0 Hk0].
  destruct (read_total k 8 ltac:(lia) ltac:(lia)) as [k1 Hk1].
  pose proof (Z.mod_pos_bound (zlen s) 8 ltac:(lia)). pose proof (Z.div_mod (zlen s) 8 ltac:(lia)). pose_zlen.
  assert (Hd : (zlen s - zlen s mod 8) / 8 = zlen s / 8).
  { replace (zlen s - zlen s mod 8) with (zlen s / 8 * 8) by lia. by rewrite Z.div_mul by lia. }
  destruct (loop_total s (Z.to_nat (zlen s / 8)) 0 (init k0 k1)) as [st Hst]; [lia|lia|].
  assert (Hland : Z.land (zlen s) 7 = zlen s mod 8) by apply (Z.land_ones _ 3 ltac:(lia)).
  destruct (left_total s (zlen s mod 8) (zlen s - zlen s mod 8) (u64 (Z.shiftl (zlen s) 56))) as [b Hb]; [lia..|].
  eexists. split; [apply finish_range|]. intros c ck. unfold siphash. rewrite Hk0. cbn [mbind option_bind].
  rewrite Hk1. cbn [mbind option_bind]. rewrite Hd, Hst. cbn [mbind option_bind]. rewrite Hland, Hb. reflexivity.
Qed.

(** Hashing without regard to case is hashing the string in lower case, with
    [siptlw] for the letters A to Z only. *)
Theorem siphash_nocase_lower (inp : list Z) (inlen : Z) (k : list Z) :
  siphash_nocase inp inlen k = siphash (siptlw <$> inp) inlen k.
Proof.
  unfold siphash_nocase, siphash. destruct (U8TO64_LE k 0) as [k0|]; [|done]. destruct (U8TO64_LE k 8) as [k1|]; [|done].
  cbn [mbind option_bind]. rewrite loop_nocase.
  destruct (sip_loop _ _ 0 _); [|done]. cbn [mbind option_bind]. by rewrite left_nocase.
Qed.

Lemma siphash_witness :
  exists h, 0 <= h < 2 ^ 64 /\ forall c ck,
    siphash (bytes_of "hello world" ++ c) 11 (bytes_of "1234567812345678" ++ ck) = Some h.
Proof. exact (siphash_total (bytes_of "hello world") (bytes_of "1234567812345678") eq_refl). Defined.

(** The checks of the source's own test program. *)
Example siphash_nocase_ex :
  siphash_nocase (bytes_of "HELLO world") 11 (bytes_of "1234567812345678")
  = siphash (bytes_of "hello world") 11 (bytes_of "1234567812345678").
Proof. vm_compute. reflexivity. Qed.
