(* ===== verification/Lzf.v ===== *)
(** * LZF compression (lzf_c.c, lzf_d.c)

    The buffers are lists of bytes and the pointers [ip], [op] and [ref] are
    offsets in them.  The compressor's hash table is not initialised
    ([INIT_HTAB] is 0), so it is a map over arbitrary memory; a slot is an [unsigned
    int].  The build is the
    one of lzfP.h on a 64-bit x86: [VERY_FAST], offsets in the slots. *)
From Stdlib Require Import ZArith Lia String.
From stdpp Require Import base numbers list option gmap.
From S2P Require Import Prelude.

Definition HLOG : Z := 16.
Definition MAX_LIT : Z := 32.
Definition MAX_OFF : Z := 8192.
Definition MAX_REF : Z := 264.

Definition FRST (m : list Z) (p : Z) : option Z :=
  b0 ← mget m p; b1 ← mget m (p + 1); Some (Z.lor (Z.shiftl b0 8) b1).
Definition NEXT (v : Z) (m : list Z) (p : Z) : option Z :=
  b2 ← mget m (p + 2); Some (u32 (Z.lor (Z.shiftl v 8) b2)).
Definition IDX (h : Z) : Z := Z.land (u32 (Z.shiftr h (3 * 8 - HLOG) - h * 5)) (Z.shiftl 1 HLOG - 1).

(** [*(u16 * )p]. *)
Definition read16 (m : list Z) (p : Z) : option Z :=
  b0 ← mget m p; b1 ← mget m (p + 1); Some (Z.lor b0 (Z.shiftl b1 8)).

Section Compress.
Variables (junk : Z -> Z) (inp : list Z) (in_end out_end : Z).

Record cstate := {
  ip : Z; op : Z; lit : Z; hval : Z;
  htab : gmap Z Z;
  out : list Z
}.

Inductive flow := Continue (s : cstate) | Break (s : cstate) | Return0 (out : list Z).

(** The sixteen unrolled comparisons; [true]: left by a [break]. *)
Fixpoint unrolled (k : nat) (ip ref len : Z) : option (Z * bool) :=
  match k with
  | O => Some (len, false)
  | S k =>
      let len := len + 1 in
      a ← mget inp (ref + len); b ← mget inp (ip + len);
      if negb (a =? b) then Some (len, true) else unrolled k ip ref len
  end.

(** [do len++; while (len < maxlen && ref[len] == ip[len]);] *)
Fixpoint extend (fuel : nat) (ip ref maxlen len : Z) : option Z :=
  let len := len + 1 in
  if len <? maxlen then
    match fuel with
    | O => None
    | S fuel =>
        a ← mget inp (ref + len); b ← mget inp (ip + len);
        if a =? b then extend fuel ip ref maxlen len else Some len
    end
  else Some len.

Definition match_len (ip ref : Z) : option Z :=
  let len := 2 in
  let maxlen := u32 (in_end - ip - len) in
  let maxlen := if maxlen >? MAX_REF then MAX_REF else maxlen in
  r ← (if maxlen >? 16 then unrolled 16 ip ref len else Some (len, false));
  let '(len, done) := r in
  if done : bool then Some len else extend (Z.to_nat MAX_REF) ip ref maxlen len.

(** [op [- lit - 1] = lit - 1; op -= !lit;] *)
Definition stop_run (out : list Z) (op lit : Z) : option (list Z * Z) :=
  out ← mset out (op - lit - 1) (u8 (lit - 1));
  Some (out, op - (if lit =? 0 then 1 else 0)).

(** The bytes of the back reference to [len + 2] octets. *)
Definition put_ref (out : list Z) (op off len : Z) : option (list Z * Z) :=
  r ← (if len <? 7 then
         out ← mset out op (u8 (Z.shiftr off 8 + Z.shiftl len 5)); Some (out, op + 1)
       else
         out ← mset out op (u8 (Z.shiftr off 8 + Z.shiftl 7 5));
         out ← mset out (op + 1) (u8 (len - 7)); Some (out, op + 2));
  let '(out, op) := r in
  out ← mset out op (u8 off);
  Some (out, op + 1).

(** The body of the branch where a match was found at [ref]. *)
Definition do_match (s : cstate) (hv : Z) (ht : gmap Z Z) (ref off : Z) : option flow :=
  if (op s + 3 + 1 >=? out_end) && (op s - (if lit s =? 0 then 1 else 0) + 3 + 1 >=? out_end)
  then Some (Return0 (out s))
  else
    ro ← stop_run (out s) (op s) (lit s);
    let '(out, op) := ro in
    len ← match_len (ip s) ref;
    let len := len - 2 in
    let ip := ip s + 1 in
    ro ← put_ref out op off len;
    let '(out, op) := ro in
    let op := op + 1 in
    let ip := ip + (len + 1) in
    if ip >=? in_end - 2 then
      Some (Break {| ip := ip; op := op; lit := 0; hval := hv; htab := ht; out := out |})
    else
      let ip := ip - 1 in
      let ip := ip - 1 in
      hv ← FRST inp ip;
      hv ← NEXT hv inp ip;
      let ht := <[IDX hv := u32 ip]> ht in
      let ip := ip + 1 in
      hv ← NEXT hv inp ip;
      let ht := <[IDX hv := u32 ip]> ht in
      let ip := ip + 1 in
      Some (Continue {| ip := ip; op := op; lit := 0; hval := hv; htab := ht; out := out |}).

(** [lit++; *op++ = *ip++;] and the end of a full run. *)
Definition put_lit (s : cstate) (hv : Z) (ht : gmap Z Z) : option cstate :=
  c ← mget inp (ip s);
  out ← mset (out s) (op s) c;
  let lit := lit s + 1 in
  let op := op s + 1 in
  let ip := ip s + 1 in
  if lit =? MAX_LIT then
    out ← mset out (op - lit - 1) (u8 (lit - 1));
    Some {| ip := ip; op := op + 1; lit := 0; hval := hv; htab := ht; out := out |}
  else Some {| ip := ip; op := op; lit := lit; hval := hv; htab := ht; out := out |}.

(** One iteration of [while (ip < in_end - 2)]. *)
Definition lzf_step (s : cstate) : option flow :=
  hv ← NEXT (hval s) inp (ip s);
  let slot := IDX hv in
  let ref := u32 (default (junk slot) (htab s !! slot)) in
  let ht := <[slot := u32 (ip s)]> (htab s) in
  let off := u64 (ip s - ref - 1) in
  found ← (if (off <? MAX_OFF) && (ref >? 0) then
             r2 ← mget inp (ref + 2); i2 ← mget inp (ip s + 2);
             if r2 =? i2 then
               r ← read16 inp ref; i ← read16 inp (ip s); Some (r =? i)
             else Some false
           else Some false);
  if found : bool then do_match s hv ht ref off
  else if op s >=? out_end then Some (Return0 (out s))
  else s ← put_lit s hv ht; Some (Continue s).

Fixpoint lzf_loop (fuel : nat) (s : cstate) : option (cstate + list Z) :=
  if ip s <? in_end - 2 then
    match fuel with
    | O => None
    | S fuel =>
        r ← lzf_step s;
        match r with
        | Continue s => lzf_loop fuel s
        | Break s => Some (inl s)
        | Return0 o => Some (inr o)
        end
    end
  else Some (inl s).

(** [while (ip < in_end)] of the tail. *)
Fixpoint lzf_tail (fuel : nat) (s : cstate) : option cstate :=
  if ip s <? in_end then
    match fuel with
    | O => None
    | S fuel => s ← put_lit s (hval s) (htab s); lzf_tail fuel s
    end
  else Some s.
End Compress.

(** The result is the returned length and the output buffer. *)
Definition lzf_compress (junk : Z -> Z) (in_data : list Z) (in_len : Z) (out_data : list Z) (out_len : Z)
    : option (Z * list Z) :=
  if (in_len =? 0) || (out_len =? 0) then Some (0, out_data)
  else
    hv ← FRST in_data 0;
    r ← lzf_loop junk in_data in_len out_len (Z.to_nat in_len)
          {| ip := 0; op := 1; lit := 0; hval := hv; htab := ∅; out := out_data |};
    match r with
    | inr o => Some (0, o)
    | inl s =>
        if op s + 3 >? out_len then Some (0, out s)
        else
          s ← lzf_tail in_data in_len (Z.to_nat in_len) s;
          ro ← stop_run (out s) (op s) (lit s);
          let '(out, op) := ro in
          Some (u32 op, out)
    end.

(** ** Decompression *)

Inductive errno := E2BIG | EINVAL.

(** The value of [errno] when 0 is returned because of an error. *)
Inductive dres := DOk (len : Z) (out : list Z) | DErr (e : errno) (out : list Z).

(** [*op++ = *ip++], [n] times. *)
Fixpoint copy_lit (n : nat) (inp : list Z) (ip : Z) (out : list Z) (op : Z) : option (list Z) :=
  match n with
  | O => Some out
  | S n => c ← mget inp ip; out ← mset out op c; copy_lit n inp (ip + 1) out (op + 1)
  end.

(** [*op++ = *ref++], [n] times, inside the output. *)
Fixpoint copy_ref (n : nat) (out : list Z) (op ref : Z) : option (list Z) :=
  match n with
  | O => Some out
  | S n => c ← mget out ref; out ← mset out op c; copy_ref n out (op + 1) (ref + 1)
  end.

(** The body of [do ... while (ip < in_end)]: an error, or the new [ip], output
    and [op]. *)
Definition lzf_dstep (inp : list Z) (in_end out_end ip : Z) (out : list Z) (op : Z)
    : option (dres + Z * list Z * Z) :=
  ctrl ← mget inp ip;
  let ip := ip + 1 in
  if ctrl <? 32 then
    let ctrl := ctrl + 1 in
    if op + ctrl >? out_end then Some (inl (DErr E2BIG out))
    else if ip + ctrl >? in_end then Some (inl (DErr EINVAL out))
    else
      out ← copy_lit (Z.to_nat ctrl) inp ip out op;
      Some (inr (ip + ctrl, out, op + ctrl))
  else
    let len := Z.shiftr ctrl 5 in
    let ref := op - Z.shiftl (Z.land ctrl 31) 8 - 1 in
    if ip >=? in_end then Some (inl (DErr EINVAL out))
    else
      r ← (if len =? 7 then b ← mget inp ip; Some (len + b, ip + 1, ip + 1 >=? in_end)
           else Some (len, ip, false));
      let '(len, ip, bad) := r in
      if bad : bool then Some (inl (DErr EINVAL out))
      else
        b ← mget inp ip;
        let ref := ref - b in
        let ip := ip + 1 in
        if op + len + 2 >? out_end then Some (inl (DErr E2BIG out))
        else if ref <? 0 then Some (inl (DErr EINVAL out))
        else
          out ← (if (len >=? 10) && (op >=? ref + (len + 2)) then
                   bs ← mread out ref (len + 2); mwrite out op bs
                 else copy_ref (Z.to_nat (len + 2)) out op ref);
          Some (inr (ip, out, op + (len + 2))).

Fixpoint lzf_dloop (fuel : nat) (inp : list Z) (in_end out_end ip : Z) (out : list Z) (op : Z)
    : option dres :=
  match fuel with
  | O => None
  | S fuel =>
      r ← lzf_dstep inp in_end out_end ip out op;
      match r with
      | inl e => Some e
      | inr (ip, out, op) =>
          if ip <? in_end then lzf_dloop fuel inp in_end out_end ip out op else Some (DOk op out)
      end
  end.

Definition lzf_decompress (in_data : list Z) (in_len : Z) (out_data : list Z) (out_len : Z)
    : option dres :=
  lzf_dloop (Z.to_nat in_len) in_data in_len out_len 0 out_data 0.

Example lzf_ex :
  let s := bytes_of "abcabcabcabcabcabcabcabcabcabcabcabcabc" in
  (r ← lzf_compress (fun i => i) s (zlen s) (replicate 38 0) 38;
   let '(n, o) := r in
   d ← lzf_decompress o n (replicate 39 0) 39;
   Some (n, match d with DOk n o => bool_decide (n = 39 /\ o = s) | _ => false end))
  = Some (11, true).
Proof. vm_compute. reflexivity. Qed.
