(* ===== verification/LzfProof.v ===== *)
(** * LZF: safety of the decompressor and the round trip

    The compressed format is a list of tokens; [expand] is what it means.  The
    compressor is proved to write the tokens of its input, the decompressor to
    expand them, and the decompressor to be safe on every input whatsoever. *)
From Stdlib Require Import ZArith Lia String.
From stdpp Require Import base numbers list option gmap.
From S2P Require Import Prelude Lzf.

(** ** The decompressor never leaves its buffers *)

Lemma copy_lit_total n inp ip out op :
  0 <= ip -> ip + Z.of_nat n <= zlen inp -> 0 <= op -> op + Z.of_nat n <= zlen out ->
  exists out', copy_lit n inp ip out op = Some out' /\ zlen out' = zlen out.
Proof.
  revert ip out op. induction n as [|n IH]; intros ip out op Hi Hi2 Ho Ho2; [by exists out|].
  cbn [copy_lit]. destruct (mget_is_Some inp ip) as [c Hc]; [lia|]. rewrite Hc. cbn [mbind option_bind].
  destruct (mset_ok out op c) as (o1 & H1 & Hl); [lia|]. rewrite H1. cbn [mbind option_bind].
  destruct (IH (ip + 1) o1 (op + 1)) as (o2 & H2 & ?); [lia..|]. exists o2. split; [done|lia].
Qed.

Lemma copy_ref_total n out op ref :
  0 <= ref <= op -> op + Z.of_nat n <= zlen out -> ref < op ->
  exists out', copy_ref n out op ref = Some out' /\ zlen out' = zlen out.
Proof.
  revert out op ref. induction n as [|n IH]; intros out op ref Hr Ho Hlt; [by exists out|].
  cbn [copy_ref]. destruct (mget_is_Some out ref) as [c Hc]; [lia|]. rewrite Hc. cbn [mbind option_bind].
  destruct (mset_ok out op c) as (o1 & H1 & Hl); [lia|]. rewrite H1. cbn [mbind option_bind].
  destruct (IH o1 (op + 1) (ref + 1)) as (o2 & H2 & ?); [lia..|]. exists o2. split; [done|lia].
Qed.

Lemma copy_any_total len out op ref :
  0 <= len -> 0 <= ref < op -> op + len + 2 <= zlen out ->
  exists out', (if (len >=? 10) && (op >=? ref + (len + 2)) then
     bs ← mread out ref (len + 2); mwrite out op bs
   else copy_ref (Z.to_nat (len + 2)) out op ref) = Some out' /\ zlen out' = zlen out.
Proof.
  intros Hlen Hr Ho. destruct ((len >=? 10) && (op >=? ref + (len + 2))) eqn:E.
  - destruct (mread_is_Some out ref (len + 2)) as (bs & -> & Hbs); [lia..|]. cbn [mbind option_bind].
    apply mwrite_ok; lia.
  - apply copy_ref_total; lia.
Qed.

(** A result whose length and buffer are those of the output area. *)
Definition dres_ok (out_len : Z) (r : dres) : Prop :=
  match r with
  | DOk n out => 0 <= n <= out_len /\ zlen out = out_len
  | DErr _ out => zlen out = out_len
  end.

Lemma ctrl_parts c : byte_ok c -> 0 <= Z.land c 31 < 32 /\ 0 <= Z.shiftr c 5 <= 7.
Proof.
  intros Hc. pose proof (all_below_spec 256 (fun c => (0 <=? Z.land c 31) && (Z.land c 31 <? 32) &&
    (0 <=? Z.shiftr c 5) && (Z.shiftr c 5 <=? 7)) c eq_refl Hc) as H. cbn beta in H. lia.
Qed.

(** Each iteration ends in an error or consumes input and stays in bounds. *)
Definition dstep_ok (in_len out_len ip0 : Z) (r : dres + Z * list Z * Z) : Prop :=
  match r with
  | inl e => dres_ok out_len e
  | inr (ip1, out1, op1) => ip0 < ip1 /\ 0 <= op1 <= out_len /\ zlen out1 = out_len
  end.

Lemma dstep_safe inp ip0 out0 op0 :
  bytes_ok inp -> 0 <= ip0 < zlen inp -> 0 <= op0 <= zlen out0 ->
  exists r, lzf_dstep inp (zlen inp) (zlen out0) ip0 out0 op0 = Some r /\ dstep_ok (zlen inp) (zlen out0) ip0 r.
Proof.
  intros Hb Hip Hop. unfold lzf_dstep. destruct (mget_is_Some inp ip0 ltac:(lia)) as [c Hc].
  assert (Hcb : byte_ok c) by (eapply Forall_mget; eauto).
  rewrite Hc. cbn [mbind option_bind]. cbn zeta.
  destruct (ctrl_parts c Hcb) as [Hc31 Hc5]. unfold byte_ok in Hcb.
  destruct (c <? 32) eqn:E32.
  - destruct (op0 + (c + 1) >? zlen out0) eqn:E1; [by eexists|].
    destruct (ip0 + 1 + (c + 1) >? zlen inp) eqn:E2; [by eexists|].
    destruct (copy_lit_total (Z.to_nat (c + 1)) inp (ip0 + 1) out0 op0) as (o' & -> & Hl); [lia..|].
    cbn [mbind option_bind]. eexists; split; [done|]. cbn. lia.
  - rewrite Z.shiftl_mul_pow2 by lia. destruct (ip0 + 1 >=? zlen inp) eqn:E1; [by eexists|].
    assert (Hlen : exists len ip' (bad : bool),
      (if Z.shiftr c 5 =? 7 then b ← mget inp (ip0 + 1); Some (Z.shiftr c 5 + b, ip0 + 1 + 1, ip0 + 1 + 1 >=? zlen inp)
       else Some (Z.shiftr c 5, ip0 + 1, false)) = Some (len, ip', bad) /\
      0 <= len /\ ip0 < ip' /\ (bad = false -> ip' < zlen inp)).
    { destruct (Z.shiftr c 5 =? 7); [|repeat eexists; lia].
      destruct (mget_is_Some inp (ip0 + 1) ltac:(lia)) as [b Hbb]. rewrite Hbb. cbn [mbind option_bind].
      assert (byte_ok b) by (eapply Forall_mget; eauto). unfold byte_ok in *. repeat eexists; lia. }
    destruct Hlen as (len & ip' & bad & -> & Hlen & Hip' & Hbad). cbn [mbind option_bind].
    destruct bad; [by eexists|]. specialize (Hbad eq_refl).
    destruct (mget_is_Some inp ip' ltac:(lia)) as [b Hbb]. rewrite Hbb. cbn [mbind option_bind].
    assert (byte_ok b) by (eapply Forall_mget; eauto). unfold byte_ok in *.
    destruct (op0 + len + 2 >? zlen out0) eqn:E2; [by eexists|].
    destruct (op0 - Z.land c 31 * 2 ^ 8 - 1 - b <? 0) eqn:E3; [by eexists|].
    destruct (copy_any_total len out0 op0 (op0 - Z.land c 31 * 2 ^ 8 - 1 - b)) as (o' & -> & Hl); [lia..|].
    cbn [mbind option_bind]. eexists; split; [done|]. cbn. lia.
Qed.

Lemma dloop_safe fuel inp ip0 out0 op0 :
  bytes_ok inp -> 0 <= ip0 < zlen inp -> 0 <= op0 <= zlen out0 -> zlen inp - ip0 <= Z.of_nat fuel ->
  exists r, lzf_dloop fuel inp (zlen inp) (zlen out0) ip0 out0 op0 = Some r /\ dres_ok (zlen out0) r.
Proof.
  intros Hb. revert ip0 out0 op0. induction fuel as [|fuel IH]; intros ip0 out0 op0 Hip Hop Hf; [lia|].
  cbn [lzf_dloop]. destruct (dstep_safe inp ip0 out0 op0 Hb Hip Hop) as ([e|[[ip1 out1] op1]] & -> & Hok);
    cbn [mbind option_bind dstep_ok] in *; [by eexists|].
  destruct (ip1 <? zlen inp) eqn:E; [|eexists; split; [done|]; cbn; lia].
  destruct Hok as (? & ? & Hl). rewrite <- Hl. apply IH; lia.
Qed.

(** [C22] On every non-empty input, well formed or not, [lzf_decompress] ends, reads
    and writes only inside its two buffers, and reports at most [out_len]
    bytes. *)
Theorem lzf_decompress_safe (inp out : list Z) (Hb : bytes_ok inp) (Hne : 0 < zlen inp) :
  exists r, lzf_decompress inp (zlen inp) out (zlen out) = Some r /\ dres_ok (zlen out) r.
Proof. unfold lzf_decompress. pose_zlen. apply dloop_safe; [done|lia..]. Qed.

(** ** Tokens *)

(** A literal run, or a copy of [len] octets from [off + 1] octets back. *)
Inductive tok := TLit (l : list Z) | TRef (off len : Z).

Definition tok_bytes (t : tok) : list Z :=
  match t with
  | TLit l => (zlen l - 1) :: l
  | TRef off len =>
      if len - 2 <? 7 then [off / 256 + 32 * (len - 2); off mod 256]
      else [off / 256 + 224; len - 9; off mod 256]
  end.

Definition tok_ok (t : tok) : Prop :=
  match t with
  | TLit l => 1 <= zlen l <= 32
  | TRef off len => 0 <= off < 8192 /\ 3 <= len <= 264
  end.

Fixpoint copy_back (n : nat) (off : Z) (w : list Z) : option (list Z) :=
  match n with
  | O => Some w
  | S n => x ← mget w (zlen w - off - 1); copy_back n off (w ++ [x])
  end.

Definition tok_apply (w : list Z) (t : tok) : option (list Z) :=
  match t with
  | TLit l => Some (w ++ l)
  | TRef off len => copy_back (Z.to_nat len) off w
  end.

Fixpoint expand (ts : list tok) (w : list Z) : option (list Z) :=
  match ts with
  | [] => Some w
  | t :: ts => w ← tok_apply w t; expand ts w
  end.

Definition stream (ts : list tok) : list Z := concat (tok_bytes <$> ts).

Lemma expand_app ts us w : expand (ts ++ us) w = (w ← expand ts w; expand us w).
Proof.
  revert w. induction ts as [|t ts IH]; intros w; [done|]. cbn [app expand].
  destruct (tok_apply w t); [apply IH|done].
Qed.

Lemma stream_app ts us : stream (ts ++ us) = stream ts ++ stream us.
Proof. unfold stream. by rewrite fmap_app, concat_app. Qed.
Lemma stream_one t : stream [t] = tok_bytes t.
Proof. apply app_nil_r. Qed.

(** ** Decompressing a token *)

Lemma copy_lit_spec l a c w r1 r2 : length r1 = length l ->
  copy_lit (length l) (a ++ l ++ c) (zlen a) (w ++ r1 ++ r2) (zlen w) = Some (w ++ l ++ r2).
Proof.
  revert a w r1. induction l as [|x l IH]; intros a w [|y r1] Hl; try done.
  cbn [length copy_lit app]. rewrite mget_split by done. cbn [mbind option_bind].
  rewrite mset_split by done. cbn [mbind option_bind].
  specialize (IH (a ++ [x]) (w ++ [x]) r1 ltac:(cbn in Hl; lia)). rewrite <- !app_assoc in IH. cbn [app] in IH.
  rewrite !zlen_app in IH. exact IH.
Qed.

Lemma copy_back_len n off w w' : copy_back n off w = Some w' -> zlen w' = zlen w + Z.of_nat n.
Proof.
  revert w. induction n as [|n IH]; intros w H; cbn [copy_back] in H; [injection H as <-; lia|].
  destruct (mget w _); [|done]. cbn [mbind option_bind] in H. apply IH in H. rewrite H. zlia.
Qed.

Lemma copy_ref_spec n off w w' r1 r2 : copy_back n off w = Some w' -> length r1 = n -> 0 <= off ->
  copy_ref n (w ++ r1 ++ r2) (zlen w) (zlen w - off - 1) = Some (w' ++ r2).
Proof.
  revert w r1. induction n as [|n IH]; intros w r1 H Hl Hoff; cbn [copy_back] in H.
  - destruct r1; [|done]. by injection H as <-.
  - destruct r1 as [|y r1]; [done|]. destruct (mget w (zlen w - off - 1)) as [x|] eqn:Ex; [|done].
    cbn [mbind option_bind] in H. cbn [copy_ref]. rewrite mget_app_l by lia. rewrite Ex.
    cbn [mbind option_bind app]. rewrite mset_split by done. cbn [mbind option_bind].
    specialize (IH (w ++ [x]) r1 H ltac:(cbn in Hl; lia) Hoff). rewrite <- app_assoc, zlen_app in IH.
    change (zlen [x]) with 1 in IH. rewrite <- IH. cbn [app]. f_equal. lia.
Qed.

(** When the areas are disjoint the octets are those of one block copy. *)
Lemma copy_back_block (n : nat) off w (k : nat) :
  0 <= zlen w - off - 1 -> Z.of_nat (n + k) <= off + 1 ->
  let src := drop (Z.to_nat (zlen w - off - 1)) w in
  copy_back n off (w ++ take k src) = Some (w ++ take (k + n) src).
Proof.
  revert k. induction n as [|n IH]; intros k Hs Hn src; cbn [copy_back]; [by rewrite Nat.add_0_r|].
  assert (Hsrc : length src = Z.to_nat (off + 1)) by (unfold src, zlen in *; rewrite length_drop; lia).
  destruct (lookup_lt_is_Some_2 src k ltac:(lia)) as [x Hx].
  assert (Hg : mget (w ++ take k src) (zlen (w ++ take k src) - off - 1) = Some x).
  { rewrite zlen_app, zlen_take by (unfold zlen; lia). apply mget_Some. split; [lia|].
    rewrite lookup_app_l by (unfold zlen in *; lia). unfold src in Hx. rewrite lookup_drop in Hx.
    rewrite <- Hx. f_equal. unfold zlen in *. lia. }
  rewrite Hg. cbn [mbind option_bind]. rewrite <- app_assoc. rewrite <- take_S_r by done.
  rewrite IH by lia. do 3 f_equal. lia.
Qed.

Lemma copy_any_spec len off w w' r1 r2 :
  copy_back (Z.to_nat (len + 2)) off w = Some w' -> zlen r1 = len + 2 -> 0 <= off -> 0 <= zlen w - off - 1 ->
  (if (len >=? 10) && (zlen w >=? zlen w - off - 1 + (len + 2)) then
     bs ← mread (w ++ r1 ++ r2) (zlen w - off - 1) (len + 2); mwrite (w ++ r1 ++ r2) (zlen w) bs
   else copy_ref (Z.to_nat (len + 2)) (w ++ r1 ++ r2) (zlen w) (zlen w - off - 1)) = Some (w' ++ r2).
Proof.
  intros H Hr Hoff Hs. pose_zlen. destruct ((len >=? 10) && _) eqn:E.
  2:{ apply copy_ref_spec; [done|unfold zlen in *; lia|done]. }
  pose proof (copy_back_block (Z.to_nat (len + 2)) off w 0 Hs ltac:(lia)) as Hb. cbn zeta in Hb.
  rewrite take_0, app_nil_r, H in Hb. injection Hb as ->.
  set (src := drop (Z.to_nat (zlen w - off - 1)) w). cbn [Nat.add].
  assert (Hsrc : zlen src = off + 1) by (unfold src; rewrite zlen_drop; lia).
  assert (Hm : mread (w ++ r1 ++ r2) (zlen w - off - 1) (len + 2) = Some (take (Z.to_nat (len + 2)) src)).
  { rewrite <- (take_drop (Z.to_nat (zlen w - off - 1)) w) at 1. fold src.
    rewrite <- (take_drop (Z.to_nat (len + 2)) src) at 1. rewrite <- !app_assoc.
    apply mread_split; [rewrite zlen_take; lia|rewrite zlen_take; lia]. }
  rewrite Hm. cbn [mbind option_bind]. rewrite mwrite_split by (rewrite ?zlen_take; lia).
  by rewrite <- app_assoc.
Qed.

Lemma ctrl_ref q n : 0 <= q < 32 -> 0 <= n < 8 ->
  Z.land (q + 32 * n) 31 = q /\ Z.shiftr (q + 32 * n) 5 = n.
Proof.
  intros Hq Hn. split.
  - change 31 with (Z.ones 5). rewrite Z.land_ones by lia. change (2 ^ 5) with 32.
    rewrite Z.mul_comm, Z.mod_add by lia. by apply Z.mod_small.
  - rewrite Z.shiftr_div_pow2 by lia. change (2 ^ 5) with 32. rewrite Z.mul_comm, Z.div_add by lia.
    by rewrite Z.div_small.
Qed.

Lemma off_parts off : 0 <= off < 8192 -> 0 <= off / 256 < 32 /\ 0 <= off mod 256 < 256 /\
  off = 256 * (off / 256) + off mod 256.
Proof.
  intros. pose proof (Z.div_mod off 256 ltac:(lia)). pose proof (Z.mod_pos_bound off 256 ltac:(lia)). lia.
Qed.

(** The result of expanding a token grows by at least one byte and, for a
    reference, its source lies inside what is there. *)
Lemma tok_apply_len w t w' : tok_ok t -> tok_apply w t = Some w' ->
  match t with TLit l => w' = w ++ l | TRef off len => zlen w' = zlen w + len /\ 0 <= zlen w - off - 1 end.
Proof.
  destruct t as [l|off len]; cbn; [by intros _ [= <-]|]. intros [Ho Hl] H.
  pose proof (copy_back_len _ _ _ _ H). split; [lia|].
  replace (Z.to_nat len) with (S (Z.to_nat (len - 1))) in H by lia. cbn [copy_back] in H.
  destruct (mget w _) as [x|] eqn:E; [|done]. by apply mget_range in E as [? _].
Qed.

Lemma dstep_tok a t c w w' rest :
  tok_ok t -> tok_apply w t = Some w' -> zlen w' <= zlen (w ++ rest) ->
  let inp := a ++ tok_bytes t ++ c in
  exists rest', zlen (w' ++ rest') = zlen (w ++ rest) /\
    forall in_end, zlen a + zlen (tok_bytes t) <= in_end ->
    lzf_dstep inp in_end (zlen (w ++ rest)) (zlen a) (w ++ rest) (zlen w)
    = Some (inr (zlen a + zlen (tok_bytes t), w' ++ rest', zlen w')).
Proof.
  intros Hok Ha Hl inp. pose proof (tok_apply_len _ _ _ Hok Ha) as Hw. pose_zlen.
  rewrite zlen_app in Hl. assert (Hgrow : exists k r1 r2, rest = r1 ++ r2 /\ zlen r1 = k /\ zlen w' = zlen w + k).
  { exists (zlen w' - zlen w). destruct (zlen_cut rest (zlen w' - zlen w)) as (r1 & r2 & -> & ?).
    - destruct t; [subst w'; zlia|]. destruct Hok. lia.
    - exists r1, r2. split; [done|]. lia. }
  destruct Hgrow as (k & r1 & r2 & -> & Hr1 & Hk). exists r2. split; [zlia|]. intros in_end Hend.
  pose proof (zlen_nonneg r2).
  assert (Htot : zlen w + k <= zlen (w ++ r1 ++ r2)) by (rewrite !zlen_app; lia).
  unfold lzf_dstep. destruct t as [l|off len]; cbn [tok_ok tok_bytes tok_apply] in *.
  - unfold inp. cbn [app]. rewrite (mget_split a _ _ (zlen a) eq_refl). cbn [mbind option_bind]. subst w'.
    rewrite zlen_app in Hk. rewrite zlen_cons in *. zbool. cbn zeta.
    change (a ++ zlen l - 1 :: l ++ c) with (a ++ [zlen l - 1] ++ l ++ c). rewrite app_assoc.
    pose proof (copy_lit_spec l (a ++ [zlen l - 1]) c w r1 r2 ltac:(unfold zlen in *; lia)) as Hc.
    rewrite zlen_app in Hc. change (zlen [zlen l - 1]) with 1 in Hc.
    replace (Z.to_nat (zlen l - 1 + 1)) with (length l) by (unfold zlen; lia). rewrite Hc.
    cbn [mbind option_bind]. rewrite <- app_assoc.
    replace (zlen a + 1 + (zlen l - 1 + 1)) with (zlen a + (1 + zlen l)) by lia.
    by replace (zlen w + (zlen l - 1 + 1)) with (zlen (w ++ l)) by zlia.
  - destruct Hok as [Ho Hlen]. destruct Hw as [Hw Hs]. destruct (off_parts off Ho) as (Hq & Hm & Hoff).
    assert (Hcopy := copy_any_spec (len - 2) off w w' r1 r2).
    replace (len - 2 + 2) with len in Hcopy by lia. specialize (Hcopy Ha ltac:(lia) ltac:(lia) Hs).
    unfold inp. destruct (len - 2 <? 7) eqn:E7; cbn [app] in *.
    + destruct (ctrl_ref (off / 256) (len - 2) Hq ltac:(lia)) as [Hc1 Hc2].
      change (zlen [_; _]) with 2 in *. rewrite (mget_split a _ _ (zlen a) eq_refl). cbn [mbind option_bind].
      rewrite Hc1, Hc2. zbool. cbn zeta. cbn [mbind option_bind].
      rewrite (mget_at1 a) by done. cbn [mbind option_bind]. rewrite Z.shiftl_mul_pow2 by lia. change (2 ^ 8) with 256.
      replace (zlen w - off / 256 * 256 - 1 - off mod 256) with (zlen w - off - 1) by lia.
      rewrite (proj2 (Z.ltb_ge (zlen w - off - 1) 0)) by lia.
      replace (len - 2 + 2) with len by lia. rewrite gtb_false by lia. rewrite Hcopy.
      cbn [mbind option_bind]. replace (zlen a + 1 + 1) with (zlen a + 2) by lia.
      by replace (zlen w + len) with (zlen w') by lia.
    + destruct (ctrl_ref (off / 256) 7 Hq ltac:(lia)) as [Hc1 Hc2]. change (32 * 7) with 224 in Hc1, Hc2.
      change (zlen [_; _; _]) with 3 in *. rewrite (mget_split a _ _ (zlen a) eq_refl). cbn [mbind option_bind].
      rewrite Hc1, Hc2. zbool. cbn zeta. rewrite (mget_at1 a) by done. cbn [mbind option_bind].
      zbool. rewrite (mget_at2 a) by lia. cbn [mbind option_bind].
      rewrite Z.shiftl_mul_pow2 by lia. change (2 ^ 8) with 256.
      replace (zlen w - off / 256 * 256 - 1 - off mod 256) with (zlen w - off - 1) by lia.
      rewrite (proj2 (Z.ltb_ge (zlen w - off - 1) 0)) by lia.
      replace (7 + (len - 9)) with (len - 2) by lia.
      replace (len - 2 + 2) with len by lia. rewrite Hcopy.
      cbn [mbind option_bind]. replace (zlen a + 1 + 1 + 1) with (zlen a + 3) by lia.
      by replace (zlen w + len) with (zlen w') by lia.
Qed.

Lemma tok_bytes_len t : tok_ok t -> 1 <= zlen (tok_bytes t).
Proof. destruct t; cbn [tok_ok tok_bytes]; intros; repeat case_match; zlia. Qed.

Lemma expand_len ts w w' : Forall tok_ok ts -> expand ts w = Some w' -> zlen w <= zlen w'.
Proof.
  intros Hok. revert w. induction Hok as [|t ts Ht Hts IH]; intros w H; cbn [expand] in H; [by injection H as ->|].
  destruct (tok_apply w t) as [w1|] eqn:E; [|done]. apply IH in H. apply (tok_apply_len _ _ _ Ht) in E.
  destruct t; [subst w1; revert H; zlia|]. destruct Ht. lia.
Qed.

Lemma dloop_tokens ts : Forall tok_ok ts -> ts <> [] -> forall fuel a c w w' rest,
  expand ts w = Some w' -> zlen w' <= zlen (w ++ rest) -> (length ts <= fuel)%nat ->
  exists rest', zlen (w' ++ rest') = zlen (w ++ rest) /\
    lzf_dloop fuel (a ++ stream ts ++ c) (zlen a + zlen (stream ts)) (zlen (w ++ rest)) (zlen a) (w ++ rest) (zlen w)
    = Some (DOk (zlen w') (w' ++ rest')).
Proof.
  induction 1 as [|t ts Ht Hts IH]; [done|]. intros _ fuel a c w w' rest Hex Hl Hf.
  destruct fuel as [|fuel]; [cbn in Hf; lia|]. cbn [expand] in Hex.
  destruct (tok_apply w t) as [w1|] eqn:E; [|done]. cbn [mbind option_bind] in Hex.
  pose proof (expand_len ts w1 w' Hts Hex) as Hle.
  change (t :: ts) with ([t] ++ ts). rewrite stream_app, stream_one, <- app_assoc, (zlen_app (tok_bytes t)).
  destruct (dstep_tok a t (stream ts ++ c) w w1 rest Ht E ltac:(lia)) as (rest1 & Hr1 & Hstep).
  cbn [lzf_dloop]. rewrite Hstep by (pose_zlen; lia). cbn [mbind option_bind].
  destruct (decide (ts = [])) as [->|Hne].
  - cbn [expand] in Hex. injection Hex as ->. change (zlen (stream [])) with 0. rewrite Z.add_0_r, Z.ltb_irrefl.
    exists rest1. by split.
  - assert (Hpos : 0 < zlen (stream ts)).
    { destruct Hts as [|t1 ts1 Ht1 _]; [done|]. change (t1 :: ts1) with ([t1] ++ ts1).
      rewrite stream_app, stream_one, zlen_app. pose proof (tok_bytes_len t1 Ht1). pose_zlen. lia. }
    rewrite (proj2 (Z.ltb_lt _ _)) by lia.
    destruct (IH Hne fuel (a ++ tok_bytes t) c w1 w' rest1 Hex) as (rest' & Hr' & Hloop);
      [lia|cbn in Hf; lia|]. exists rest'. split; [lia|].
    rewrite <- app_assoc, zlen_app in Hloop. rewrite Z.add_assoc, <- Hr1. exact Hloop.
Qed.

Lemma stream_count ts : Forall tok_ok ts -> (length ts <= length (stream ts))%nat.
Proof.
  induction 1 as [|t ts Ht _ IH]; [done|]. change (t :: ts) with ([t] ++ ts).
  rewrite stream_app, stream_one, !length_app. pose proof (tok_bytes_len t Ht). unfold zlen in *. cbn [length]. lia.
Qed.

(** ** The compressor: comparing *)

Section CompressProof.
Variables (junk : Z -> Z) (inp : list Z) (in_end out_len cap : Z).
Hypothesis Hin : in_end = zlen inp.
Hypothesis Hin32 : in_end < 2 ^ 32.
(** The buffer may be larger than [out_len]. *)
Hypothesis Hcap : out_len <= cap.

(** The first [n] octets at [ref] and at [p] agree. *)
Definition same (ref p n : Z) : Prop := forall k, 0 <= k < n -> mget inp (ref + k) = mget inp (p + k).

Lemma same_S ref p n : same ref p n -> mget inp (ref + n) = mget inp (p + n) -> same ref p (n + 1).
Proof. intros H Hn k Hk. destruct (decide (k = n)) as [->|]; [done|]. apply H. lia. Qed.

Lemma unrolled_spec k p ref len : 0 <= ref < p -> p + len + Z.of_nat k < in_end -> 0 <= len ->
  same ref p (len + 1) ->
  exists len' (b : bool), unrolled inp k p ref len = Some (len', b) /\ len <= len' <= len + Z.of_nat k /\
    same ref p (if b then len' else len' + 1) /\ (b = false -> len' = len + Z.of_nat k) /\ (b = true -> len < len').
Proof.
  revert len. induction k as [|k IH]; intros len Hr Hp Hlen Hs.
  - exists len, false. split; [done|]. split; [lia|]. split; [done|]. split; [lia|done].
  - cbn [unrolled]. destruct (mget_is_Some inp (ref + (len + 1)) ltac:(lia)) as [a Ha].
    destruct (mget_is_Some inp (p + (len + 1)) ltac:(lia)) as [b Hb]. rewrite Ha, Hb. cbn [mbind option_bind].
    destruct (a =? b) eqn:E; cbn [negb].
    + apply Z.eqb_eq in E. subst b. destruct (IH (len + 1)) as (len' & b & H1 & H2 & H3 & H4 & H5); [lia..| |].
      { apply same_S; [done|congruence]. }
      exists len', b. rewrite H1. split; [done|]. split; [lia|]. split; [done|]. split; [intros Hb0; specialize (H4 Hb0); lia|lia].
    + exists (len + 1), true. split; [done|]. split; [lia|]. split; [done|]. split; [done|lia].
Qed.

Lemma extend_spec fuel p ref maxlen len : 0 <= ref < p -> p + maxlen <= in_end -> 0 <= len ->
  same ref p (len + 1) -> maxlen - len <= Z.of_nat fuel + 1 ->
  exists len', extend inp fuel p ref maxlen len = Some len' /\ len < len' /\ same ref p len' /\
    (len' <= maxlen \/ len' = len + 1).
Proof.
  revert len. induction fuel as [|fuel IH]; intros len Hr Hp Hlen Hs Hf; cbn [extend];
    destruct (len + 1 <? maxlen) eqn:E; try (exists (len + 1); repeat split; [lia|done|lia]); [lia|].
  destruct (mget_is_Some inp (ref + (len + 1)) ltac:(lia)) as [a Ha].
  destruct (mget_is_Some inp (p + (len + 1)) ltac:(lia)) as [b Hb]. rewrite Ha, Hb. cbn [mbind option_bind].
  destruct (a =? b) eqn:E2.
  - apply Z.eqb_eq in E2. subst b. destruct (IH (len + 1)) as (len' & H1 & H2 & H3 & H4); [lia..| |lia|].
    { apply same_S; [done|congruence]. }
    exists len'. repeat split; [done|lia|done|lia].
  - exists (len + 1). repeat split; [lia|done|lia].
Qed.

Lemma match_len_spec p ref : 0 <= ref < p -> p < in_end - 2 -> same ref p 3 ->
  exists len, match_len inp in_end p ref = Some len /\ 3 <= len <= 264 /\ p + len <= in_end /\ same ref p len.
Proof.
  intros Hr Hp Hs. unfold match_len, MAX_REF. cbn zeta. rewrite uwrap_small by lia.
  set (maxlen := if in_end - p - 2 >? 264 then 264 else in_end - p - 2).
  assert (Hm : maxlen = Z.min 264 (in_end - p - 2)) by (unfold maxlen; destruct (_ >? _) eqn:E; lia).
  clearbody maxlen. destruct (maxlen >? 16) eqn:E.
  - destruct (unrolled_spec 16 p ref 2 Hr ltac:(lia) ltac:(lia) Hs) as (len & b & -> & H1 & H2 & H3 & H4).
    cbn [mbind option_bind]. destruct b; [exists len; repeat split; lia || done|].
    destruct (extend_spec (Z.to_nat 264) p ref maxlen len Hr ltac:(lia) ltac:(lia) H2 ltac:(lia))
      as (len' & -> & ? & ? & ?). specialize (H3 eq_refl).
    exists len'. split; [done|]. split; [lia|]. split; [lia|done].
  - cbn [mbind option_bind].
    destruct (extend_spec (Z.to_nat 264) p ref maxlen 2 Hr ltac:(lia) ltac:(lia) Hs ltac:(lia))
      as (len' & -> & ? & ? & ?). exists len'. split; [done|]. split; [lia|]. split; [lia|done].
Qed.

(** A matching reference expands to the input. *)
Lemma copy_back_same (n : nat) off p : 0 <= off -> 0 <= p - off - 1 -> p + Z.of_nat n <= in_end ->
  same (p - off - 1) p (Z.of_nat n) ->
  copy_back n off (take (Z.to_nat p) inp) = Some (take (Z.to_nat p + n) inp).
Proof.
  revert p. induction n as [|n IH]; intros p Hoff Hr Hp Hs; cbn [copy_back]; [by rewrite Nat.add_0_r|].
  rewrite zlen_take by lia. rewrite Z2Nat.id by lia.
  destruct (mget_is_Some inp p ltac:(lia)) as [x Hx].
  assert (Hg : mget (take (Z.to_nat p) inp) (p - off - 1) = Some x).
  { pose proof (Hs 0 ltac:(lia)) as H0. rewrite !Z.add_0_r, Hx in H0. apply mget_Some in H0 as [? H0].
    apply mget_Some. split; [lia|]. rewrite lookup_take_lt by lia. done. }
  rewrite Hg. cbn [mbind option_bind]. apply mget_Some in Hx as [_ Hx].
  rewrite <- take_S_r by done. replace (S (Z.to_nat p)) with (Z.to_nat (p + 1)) by lia.
  rewrite IH by (try lia; intros k Hk; specialize (Hs (k + 1) ltac:(lia));
    replace (p + 1 - off - 1 + k) with (p - off - 1 + (k + 1)) by lia;
    replace (p + 1 + k) with (p + (k + 1)) by lia; done).
  do 2 f_equal. lia.
Qed.

(** ** The compressor: the tokens written so far

    The tokens [ts] are in the output and stand for the input up to the start
    of the pending literal run; the run itself follows after one byte that is
    kept for its length.  When the run is empty that byte may be the one past
    the end. *)
Record cinv (ts : list tok) (s : cstate) : Prop := {
  ci_ip : 0 <= ip s <= in_end;
  ci_len : zlen (out s) = cap;
  ci_toks : Forall tok_ok ts;
  ci_run : exists w run rest,
    expand ts [] = Some w /\ take (Z.to_nat (ip s)) inp = w ++ run /\ zlen run = lit s /\ lit s < 32 /\
    out s = stream ts ++ rest /\ op s = zlen (stream ts) + 1 + lit s /\
    (run = [] \/ exists h r, rest = h :: run ++ r)
}.

(** Ending the run gives the tokens of all the input up to [ip]. *)
Definition written (ts : list tok) (o : list Z) (n : Z) (p : Z) : Prop :=
  Forall tok_ok ts /\ zlen o = cap /\ n = zlen (stream ts) /\
  (exists rest, o = stream ts ++ rest) /\ expand ts [] = Some (take (Z.to_nat p) inp).

Lemma mset_hole (a : list Z) h c x i : i = zlen a -> mset (a ++ h :: c) i x = Some (a ++ x :: c).
Proof. apply mset_split. Qed.

Lemma stop_run_spec ts s : cinv ts s -> zlen (stream ts) < out_len ->
  exists ts' o' n', stop_run (out s) (op s) (lit s) = Some (o', n') /\ written ts' o' n' (ip s) /\
    n' <= op s /\ n' <= zlen (stream ts) + 1 + lit s - (if lit s =? 0 then 1 else 0).
Proof.
  intros [Hip Hlen Hok (w & run & rest & Hex & Htk & Hrun & Hlit & Ho & Hop & Hcase)] Hlt.
  unfold stop_run. replace (op s - lit s - 1) with (zlen (stream ts)) by lia.
  assert (Hrest : zlen rest = cap - zlen (stream ts)) by (rewrite <- Hlen, Ho; zlia).
  destruct Hcase as [->|(h & r & ->)].
  - destruct rest as [|h r]; [exfalso; zlia|]. rewrite Ho, mset_split by done. cbn [mbind option_bind].
    rewrite zlen_nil in Hrun. rewrite <- Hrun. cbn [Z.eqb]. rewrite app_nil_r in Htk.
    eexists ts, _, _. split; [done|]. split; [|lia]. split; [done|].
    split; [rewrite <- Hlen, Ho; zlia|]. split; [lia|]. split; [by eexists|congruence].
  - rewrite Ho, mset_split by done. cbn [mbind option_bind]. destruct (lit s =? 0) eqn:E0.
    + apply Z.eqb_eq in E0. assert (run = []) as -> by (destruct run; [done|zlia]).
      rewrite app_nil_r in Htk. eexists ts, _, _. split; [done|]. split; [|lia]. split; [done|].
      split; [rewrite <- Hlen, Ho; zlia|]. split; [lia|]. split; [by eexists|congruence].
    + apply Z.eqb_neq in E0. pose_zlen.
      exists (ts ++ [TLit run]). eexists _, _. split; [done|]. split; [|lia].
      split; [apply Forall_app; split; [done|]; constructor; [cbn; lia|constructor]|].
      split; [rewrite <- Hlen, Ho; zlia|]. rewrite stream_app, stream_one. cbn [tok_bytes].
      split; [zlia|]. rewrite uwrap_small by lia. rewrite <- Hrun.
      split; [exists r; by rewrite <- app_assoc|]. rewrite expand_app, Hex. cbn. by rewrite Htk.
Qed.

Lemma take_next p x : mget inp p = Some x ->
  take (Z.to_nat (p + 1)) inp = take (Z.to_nat p) inp ++ [x].
Proof. intros [Hp Hx]%mget_Some. replace (Z.to_nat (p + 1)) with (S (Z.to_nat p)) by lia. by apply take_S_r. Qed.

Lemma put_lit_spec ts s hv ht : cinv ts s -> ip s < in_end -> op s < out_len ->
  exists ts' s', put_lit inp s hv ht = Some s' /\ cinv ts' s' /\ ip s' = ip s + 1 /\
    ((op s' = op s + 1 /\ lit s' = lit s + 1 /\ zlen (stream ts') = zlen (stream ts)) \/
     (op s' = op s + 2 /\ lit s' = 0 /\ lit s = 31)).
Proof.
  intros [Hip Hlen Hok (w & run & rest & Hex & Htk & Hrun & Hlit & Ho & Hop & Hcase)] Hlt Hroom.
  unfold put_lit. destruct (mget_is_Some inp (ip s) ltac:(lia)) as [c Hc]. rewrite Hc. cbn [mbind option_bind].
  assert (Hrest : zlen rest = cap - zlen (stream ts)) by (rewrite <- Hlen, Ho; zlia). pose_zlen.
  assert (Hr : exists h x r, rest = h :: run ++ x :: r).
  { destruct Hcase as [->|(h & r & ->)].
    - rewrite zlen_nil in Hrun. destruct rest as [|h [|x r]]; [exfalso; zlia..|]. by exists h, x, r.
    - destruct r as [|x r]; [exfalso; zlia|]. by exists h, x, r. }
  destruct Hr as (h & x & r & ->).
  assert (Hset : mset (out s) (op s) c = Some (stream ts ++ h :: (run ++ [c]) ++ r)).
  { rewrite Ho. change (stream ts ++ h :: ?l) with (stream ts ++ [h] ++ l). rewrite !app_assoc.
    rewrite mset_split by zlia. by rewrite <- !app_assoc. }
  rewrite Hset. cbn [mbind option_bind]. cbn zeta. unfold MAX_LIT.
  pose proof (take_next _ _ Hc) as Htk'. rewrite Htk, <- app_assoc in Htk'.
  assert (Hl' : zlen (stream ts ++ h :: (run ++ [c]) ++ r) = cap) by (rewrite <- Hlen, Ho; zlia).
  destruct (lit s + 1 =? 32) eqn:E.
  - apply Z.eqb_eq in E. rewrite mset_split by lia. cbn [mbind option_bind].
    exists (ts ++ [TLit (run ++ [c])]). eexists. split; [done|]. split; [|cbn; lia].
    split; cbn [ip op lit out]; [lia|revert Hl'; zlia| |].
    + apply Forall_app; split; [done|]. constructor; [cbn; zlia|constructor].
    + exists (w ++ run ++ [c]), [], r. rewrite expand_app, Hex. split; [done|]. split; [by rewrite app_nil_r|].
      split; [done|]. split; [lia|]. rewrite stream_app, stream_one. cbn [tok_bytes].
      rewrite uwrap_small by lia. replace (zlen (run ++ [c]) - 1) with (lit s) by zlia.
      replace (lit s + 1 - 1) with (lit s) by lia.
      split; [symmetry; by rewrite <- app_assoc|]. split; [zlia|by left].
  - eexists ts, _. split; [done|]. split; [|cbn; lia].
    split; cbn [ip op lit out]; [lia|done|done|].
    exists w, (run ++ [c]), (h :: (run ++ [c]) ++ r). split; [done|]. split; [done|]. split; [zlia|]. split; [lia|].
    split; [done|]. split; [lia|]. right. by exists h, r.
Qed.

Lemma put_ref_spec E rest off len : 0 <= off < 8192 -> 3 <= len <= 264 -> 3 <= zlen rest ->
  exists rest', put_ref (E ++ rest) (zlen E) off (len - 2)
    = Some (E ++ tok_bytes (TRef off len) ++ rest', zlen E + zlen (tok_bytes (TRef off len))) /\
    zlen (tok_bytes (TRef off len)) + zlen rest' = zlen rest.
Proof.
  intros Ho Hl Hr. destruct rest as [|x0 [|x1 [|x2 rest]]]; try (exfalso; zlia). clear Hr.
  destruct (off_parts off Ho) as (Hq & Hm & Hoff).
  unfold put_ref. cbn [tok_bytes]. rewrite (Z.shiftr_div_pow2 off 8), !Z.shiftl_mul_pow2 by lia.
  change (2 ^ 8) with 256. change (2 ^ 5) with 32. change (u8 off) with (off mod 256).
  destruct (len - 2 <? 7) eqn:E7.
  - rewrite mset_split by done. cbn [mbind option_bind]. rewrite uwrap_small by lia.
    change (E ++ ?a :: x1 :: ?l) with (E ++ [a] ++ x1 :: l). rewrite app_assoc, mset_split by zlia.
    cbn [mbind option_bind]. rewrite <- app_assoc. cbn [app].
    exists (x2 :: rest). split; [|zlia]. change (zlen [_; _]) with 2.
    replace (off / 256 + (len - 2) * 32) with (off / 256 + 32 * (len - 2)) by lia.
    by replace (zlen E + 1 + 1) with (zlen E + 2) by lia.
  - rewrite mset_split by done. cbn [mbind option_bind]. rewrite (uwrap_small 8 (off / 256 + 7 * 32)) by lia.
    change (E ++ ?a :: x1 :: ?l) with (E ++ [a] ++ x1 :: l). rewrite app_assoc, mset_split by zlia.
    cbn [mbind option_bind]. rewrite (uwrap_small 8 (len - 2 - 7)) by lia.
    change ((E ++ [?a]) ++ ?b :: x2 :: ?l) with ((E ++ [a]) ++ [b] ++ x2 :: l).
    rewrite app_assoc, mset_split by zlia.
    cbn [mbind option_bind]. rewrite <- !app_assoc. cbn [app].
    exists rest. split; [|zlia]. change (zlen [_; _; _]) with 3.
    replace (len - 2 - 7) with (len - 9) by lia.
    by replace (zlen E + 2 + 1) with (zlen E + 3) by lia.
Qed.

Definition flow_ok (p : Z) (f : flow) : Prop :=
  match f with
  | Continue s' => exists ts', cinv ts' s' /\ p < ip s'
  | Break s' => exists ts', cinv ts' s' /\ in_end - 2 <= ip s'
  | Return0 o => zlen o = cap
  end.

Lemma do_match_spec ts s hv ht ref off : cinv ts s -> ip s < in_end - 2 ->
  0 <= ref -> ref < ip s -> off = ip s - ref - 1 -> off < 8192 -> same ref (ip s) 3 ->
  exists f, do_match inp in_end out_len s hv ht ref off = Some f /\ flow_ok (ip s) f.
Proof.
  intros Hinv Hlt Href Hrlt Hoff Ho Hs. unfold do_match. pose proof Hinv as [Hip Hlen Hok Hrun].
  destruct ((op s + 3 + 1 >=? out_len) && _) eqn:E; [by exists (Return0 (out s))|].
  assert (Hroom : op s - (if lit s =? 0 then 1 else 0) + 4 < out_len) by (destruct (lit s =? 0); lia).
  clear E. destruct Hrun as (w & run & rest & _ & _ & Hlit & _ & _ & Hop & _). pose_zlen.
  destruct (stop_run_spec ts s Hinv) as (ts' & o' & n' & -> & Hw & Hn1 & Hn2); [destruct (lit s =? 0) eqn:?; lia|].
  cbn [mbind option_bind]. destruct Hw as (Hok' & Hlen' & Hn' & (rest' & ->) & Hex).
  destruct (match_len_spec (ip s) ref ltac:(lia) Hlt Hs) as (len & -> & Hl1 & Hl2 & Hl3).
  cbn [mbind option_bind]. cbn zeta. rewrite Hn'.
  destruct (put_ref_spec (stream ts') rest' off len ltac:(lia) Hl1) as (rest'' & -> & Hr'').
  { revert Hlen'. destruct (lit s =? 0); zlia. }
  cbn [mbind option_bind]. replace (ip s + 1 + (len - 2 + 1)) with (ip s + len) by lia.
  assert (Hinv' : forall hv ht, cinv (ts' ++ [TRef off len]) {| ip := ip s + len;
    op := zlen (stream ts') + zlen (tok_bytes (TRef off len)) + 1; lit := 0; hval := hv; htab := ht;
    out := stream ts' ++ tok_bytes (TRef off len) ++ rest'' |}).
  { intros hv' ht'. split; cbn [ip op lit out]; [lia|revert Hlen'; zlia| |].
    - apply Forall_app. split; [done|]. constructor; [cbn; lia|constructor].
    - exists (take (Z.to_nat (ip s + len)) inp), [], rest''. rewrite expand_app, Hex. cbn [mbind option_bind expand tok_apply].
      rewrite (copy_back_same (Z.to_nat len) off (ip s)); [|lia|lia|lia|].
      + split; [cbn [mbind option_bind]; do 2 f_equal; lia|]. split; [by rewrite app_nil_r|]. split; [done|].
        split; [lia|]. rewrite stream_app, stream_one, <- app_assoc. split; [done|]. split; [zlia|by left].
      + rewrite Z2Nat.id by lia. by replace (ip s - off - 1) with ref by lia. }
  destruct (ip s + len >=? in_end - 2) eqn:E.
  - eexists; split; [done|]. cbn. eexists. split; [apply Hinv'|]. cbn. lia.
  - unfold FRST, NEXT.
    assert (Hread : forall i, 0 <= i < in_end -> exists x, mget inp i = Some x)
      by (intros; apply mget_is_Some; lia).
    destruct (Hread (ip s + len - 1 - 1) ltac:(lia)) as [b0 ->].
    destruct (Hread (ip s + len - 1 - 1 + 1) ltac:(lia)) as [b1 ->].
    destruct (Hread (ip s + len - 1 - 1 + 2) ltac:(lia)) as [b2 ->].
    destruct (Hread (ip s + len - 1 - 1 + 1 + 2) ltac:(lia)) as [b3 ->]. cbn [mbind option_bind].
    eexists; split; [done|]. cbn [flow_ok]. eexists. 
    replace (ip s + len - 1 - 1 + 1 + 1) with (ip s + len) by lia. split; [apply Hinv'|]. cbn. lia.
Qed.

Hypothesis Hbytes : bytes_ok inp.

Lemma read16_eq p q x y : read16 inp p = Some x -> read16 inp q = Some y -> x = y ->
  mget inp p = mget inp q /\ mget inp (p + 1) = mget inp (q + 1).
Proof.
  unfold read16. intros Hp Hq <-.
  destruct (mget inp p) as [a0|] eqn:A0; [|done]. destruct (mget inp (p + 1)) as [a1|] eqn:A1; [|done].
  destruct (mget inp q) as [b0|] eqn:B0; [|done]. destruct (mget inp (q + 1)) as [b1|] eqn:B1; [|done].
  apply (Forall_mget _ _ _ _ Hbytes) in A0, B0. unfold byte_ok in *. cbn [mbind option_bind] in *.
  rewrite lor_shiftl in Hp, Hq by lia. change (2 ^ 8) with 256 in *.
  injection Hp as Hp. injection Hq as Hq. split; f_equal; lia.
Qed.

Lemma step_spec ts s : cinv ts s -> ip s < in_end - 2 ->
  exists f, lzf_step junk inp in_end out_len s = Some f /\ flow_ok (ip s) f.
Proof.
  intros Hinv Hlt. pose proof Hinv as [Hip _ _ _]. unfold lzf_step, NEXT.
  assert (Hread : forall i, 0 <= i < in_end -> exists x, mget inp i = Some x)
    by (intros; apply mget_is_Some; lia).
  destruct (Hread (ip s + 2) ltac:(lia)) as [i2 Hi2]. rewrite Hi2. cbn [mbind option_bind].
  set (hv := u32 (Z.lor _ _)). set (ref := u32 (default _ _)). set (ht := <[_ := _]> _). cbn zeta.
  assert (Hlit : exists f, (if op s >=? out_len then Some (Return0 (out s))
    else s ← put_lit inp s hv ht; Some (Continue s)) = Some f /\ flow_ok (ip s) f).
  { destruct (op s >=? out_len) eqn:E; [eexists; split; [done|]; by destruct Hinv|].
    destruct (put_lit_spec ts s hv ht Hinv ltac:(lia) ltac:(lia)) as (ts' & s' & -> & H & Hs & _).
    eexists; split; [done|]. exists ts'. split; [done|lia]. }
  destruct ((u64 (ip s - ref - 1) <? MAX_OFF) && (ref >? 0)) eqn:E; [|done].
  unfold MAX_OFF in E. assert (Href : 0 <= ref < 2 ^ 32) by (apply uwrap_range; lia).
  assert (Hr : ref < ip s).
  { destruct (decide (ref < ip s)); [done|]. exfalso.
    assert (H : u64 (ip s - ref - 1) = ip s - ref - 1 + 2 ^ 64).
    { unfold uwrap. rewrite <- (Z.mod_add _ 1) by lia. apply Z.mod_small. lia. }
    rewrite H in E. lia. }
  assert (Hoff : u64 (ip s - ref - 1) = ip s - ref - 1) by (apply uwrap_small; lia). rewrite Hoff in *.
  destruct (Hread (ref + 2) ltac:(lia)) as [r2 Hr2]. rewrite Hr2. cbn [mbind option_bind].
  destruct (r2 =? i2) eqn:E2; [|done].
  assert (Hread16 : forall i, 0 <= i < in_end - 1 -> exists x, read16 inp i = Some x).
  { intros i Hi. unfold read16. destruct (Hread i ltac:(lia)) as [a ->].
    destruct (Hread (i + 1) ltac:(lia)) as [b ->]. by eexists. }
  destruct (Hread16 ref ltac:(lia)) as [rw Hrw]. destruct (Hread16 (ip s) ltac:(lia)) as [iw Hiw].
  rewrite Hrw, Hiw. cbn [mbind option_bind]. destruct (rw =? iw) eqn:Ew; [|done].
  apply Z.eqb_eq in E2, Ew. destruct (read16_eq _ _ _ _ Hrw Hiw Ew) as [H0 H1].
  apply (do_match_spec ts s hv ht ref); [done|lia..|].
  intros k Hk. assert (k = 0 \/ k = 1 \/ k = 2) as [->|[->| ->]] by lia; [by rewrite !Z.add_0_r|done|congruence].
Qed.

Lemma loop_spec fuel ts s : cinv ts s -> in_end - ip s <= Z.of_nat fuel ->
  exists r, lzf_loop junk inp in_end out_len fuel s = Some r /\
    match r with
    | inl s' => exists ts', cinv ts' s' /\ in_end - 2 <= ip s'
    | inr o => zlen o = cap
    end.
Proof.
  revert ts s. induction fuel as [|fuel IH]; intros ts s Hinv Hf; pose proof Hinv as [Hip _ _ _];
    cbn [lzf_loop]; destruct (ip s <? in_end - 2) eqn:E; try (by eexists; split; [done|]; exists ts; split; [done|lia]); [lia|].
  destruct (step_spec ts s Hinv ltac:(lia)) as (f & -> & Hok). cbn [mbind option_bind].
  destruct f as [s'|s'|o]; cbn [flow_ok] in Hok.
  - destruct Hok as (ts' & Hinv' & Hgt). apply (IH ts'); [done|lia].
  - by eexists.
  - by eexists.
Qed.

(** At most two octets are left for the tail, and three bytes of room. *)
Lemma tail_spec fuel ts s : cinv ts s -> in_end - 2 <= ip s -> op s + 3 <= out_len -> (2 <= fuel)%nat ->
  exists ts' s', lzf_tail inp in_end fuel s = Some s' /\ cinv ts' s' /\ ip s' = in_end /\
    zlen (stream ts') < out_len /\ op s' <= out_len.
Proof.
  intros Hinv Hip Hroom Hf. destruct fuel as [|[|fuel]]; try lia.
  assert (Hst : forall ts s, cinv ts s -> op s <= out_len -> zlen (stream ts) < out_len).
  { intros ts0 s0 [_ _ _ (w & run & rest & _ & _ & Hl & _ & _ & Ho & _)] H. pose_zlen. lia. }
  assert (Hlit0 : forall ts s, cinv ts s -> 0 <= lit s).
  { intros ts0 s0 [_ _ _ (w & run & rest & _ & _ & Hl & _)]. pose_zlen. lia. }
  pose proof Hinv as [Hip' _ _ _]. cbn [lzf_tail]. destruct (ip s <? in_end) eqn:E.
  2:{ exists ts, s. split; [done|]. split; [done|]. split; [lia|]. split; [apply (Hst ts s); [done|lia]|lia]. }
  destruct (put_lit_spec ts s (hval s) (htab s) Hinv ltac:(lia) ltac:(lia)) as (t1 & s1 & -> & Hi1 & Hp1 & Hc1).
  cbn [mbind option_bind]. destruct (ip s1 <? in_end) eqn:E1.
  2:{ exists t1, s1. destruct fuel; cbn [lzf_tail]; (split; [done|]; split; [done|]; split; [lia|];
      split; [apply (Hst t1 s1); [done|lia]|lia]). }
  destruct (put_lit_spec t1 s1 (hval s1) (htab s1) Hi1 ltac:(lia) ltac:(lia)) as (t2 & s2 & -> & Hi2 & Hp2 & Hc2).
  cbn [mbind option_bind]. pose proof (Hlit0 _ _ Hinv). exists t2, s2. split.
  - destruct fuel; cbn [lzf_tail]; by rewrite (proj2 (Z.ltb_ge _ _)) by lia.
  - split; [done|]. split; [lia|]. split; [apply (Hst t2 s2); [done|lia]|lia].
Qed.
End CompressProof.

Lemma compress_spec junk inp out out_len : bytes_ok inp -> 2 <= zlen inp < 2 ^ 32 -> out_len <= zlen out -> 0 <= out_len < 2 ^ 32 ->
  exists n o, lzf_compress junk inp (zlen inp) out out_len = Some (n, o) /\ zlen o = zlen out /\
    (n = 0 \/ n <= out_len /\ exists ts, written inp (zlen out) ts o n (zlen inp)).
Proof.
  intros Hb Hin Hout Hout32. unfold lzf_compress. pose_zlen. rewrite (proj2 (Z.eqb_neq (zlen inp) 0)) by lia.
  cbn [orb]. destruct (out_len =? 0) eqn:E0; [by eexists _, _; split; [done|]; auto|].
  unfold FRST. destruct (mget_is_Some inp 0 ltac:(lia)) as [b0 ->].
  destruct (mget_is_Some inp (0 + 1) ltac:(lia)) as [b1 ->]. cbn [mbind option_bind].
  set (s0 := {| ip := 0; op := 1; lit := 0; hval := _; htab := _; out := out |}).
  assert (Hinv : cinv inp (zlen inp) (zlen out) [] s0).
  { split; cbn; [lia|done|constructor|]. exists [], [], out. repeat split; try done. by left. }
  destruct (loop_spec junk inp (zlen inp) out_len (zlen out) eq_refl ltac:(lia) Hout Hb (Z.to_nat (zlen inp)) [] s0 Hinv)
    as (r & -> & Hr); [cbn; lia|]. cbn [mbind option_bind].
  destruct r as [s|o]; [|by eexists _, _; split; [done|]; auto].
  destruct Hr as (ts & Hinv1 & Hip). destruct (op s + 3 >? out_len) eqn:E.
  { eexists _, _. split; [done|]. split; [by destruct Hinv1|by left]. }
  destruct (tail_spec inp (zlen inp) out_len (zlen out) eq_refl Hout (Z.to_nat (zlen inp)) ts s Hinv1 Hip ltac:(lia) ltac:(lia))
    as (ts2 & s2 & -> & Hinv2 & Hip2 & Hst & Hop2). cbn [mbind option_bind].
  destruct (stop_run_spec inp (zlen inp) out_len (zlen out) Hout ts2 s2 Hinv2 Hst) as (ts3 & o & n & -> & Hw & Hn2 & _).
  cbn [mbind option_bind]. rewrite Hip2 in Hw. pose proof Hw as (Hok & Hl & Hn & (rest & Ho) & _).
  exists n, o. rewrite uwrap_small by (pose proof (zlen_nonneg (stream ts3)); lia).
  split; [done|]. split; [done|]. right. split; [lia|]. by exists ts3.
Qed.

(** The tokens are written as octets. *)
Lemma copy_back_prefix n off w w' : copy_back n off w = Some w' -> exists r, w' = w ++ r.
Proof.
  revert w. induction n as [|n IH]; intros w H; cbn [copy_back] in H; [injection H as <-; exists []; by rewrite app_nil_r|].
  destruct (mget w _) as [x|]; [|done]. destruct (IH _ H) as [r ->]. exists (x :: r). by rewrite <- app_assoc.
Qed.

Lemma tok_apply_prefix w t w' : tok_apply w t = Some w' -> exists r, w' = w ++ r.
Proof. destruct t as [l|off len]; cbn; [intros [= <-]; by exists l|by apply copy_back_prefix]. Qed.

Lemma expand_prefix ts w w' : expand ts w = Some w' -> exists r, w' = w ++ r.
Proof.
  revert w. induction ts as [|t ts IH]; intros w H; cbn [expand] in H; [injection H as <-; exists []; by rewrite app_nil_r|].
  destruct (tok_apply w t) as [w1|] eqn:E; [|done]. destruct (IH _ H) as [r ->]. destruct (tok_apply_prefix _ _ _ E) as [r1 ->].
  exists (r1 ++ r). by rewrite <- app_assoc.
Qed.

Lemma tok_bytes_ok t w w' : tok_ok t -> tok_apply w t = Some w' -> bytes_ok w' -> bytes_ok (tok_bytes t).
Proof.
  destruct t as [l|off len]; cbn [tok_ok tok_bytes]; intros Hok Ha Hb.
  - injection Ha as <-. apply Forall_app in Hb as [_ Hb]. constructor; [unfold byte_ok; lia|done].
  - destruct (off_parts off (proj1 Hok)) as (Hq & Hm & _). destruct (len - 2 <? 7) eqn:E; repeat constructor; unfold byte_ok; lia.
Qed.

Lemma stream_bytes ts w w' : Forall tok_ok ts -> expand ts w = Some w' -> bytes_ok w' -> bytes_ok (stream ts).
Proof.
  intros Hok. revert w. induction Hok as [|t ts Ht Hts IH]; intros w H Hb; [constructor|]. cbn [expand] in H.
  destruct (tok_apply w t) as [w1|] eqn:E; [|done]. cbn [mbind option_bind] in H. apply Forall_app. split; [|by eapply IH].
  eapply tok_bytes_ok; [done|exact E|]. destruct (expand_prefix _ _ _ H) as [r ->]. by apply Forall_app in Hb as [Hb _].
Qed.

(** What was compressed, followed by anything, is decompressed. *)
Lemma lzf_codec junk inp out out_len : bytes_ok inp -> 2 <= zlen inp < 2 ^ 32 -> 0 <= out_len <= zlen out -> out_len < 2 ^ 32 ->
  exists n o, lzf_compress junk inp (zlen inp) out out_len = Some (n, o) /\ 0 <= n <= out_len /\ zlen o = zlen out /\
    (n <> 0 -> bytes_ok (take (Z.to_nat n) o) /\ forall rest buf, zlen inp <= zlen buf ->
      exists rest', lzf_decompress (take (Z.to_nat n) o ++ rest) n buf (zlen buf) = Some (DOk (zlen inp) (inp ++ rest')) /\
        zlen inp + zlen rest' = zlen buf).
Proof.
  intros Hb Hin Hout Hout32. destruct (compress_spec junk inp out out_len Hb Hin (proj2 Hout)) as (n & o & -> & Hl & Hcase); [lia|].
  pose_zlen. exists n, o. split; [done|]. destruct Hcase as [->|(Hno & ts & Hok & _ & -> & (rest & Ho) & Hex)].
  { split; [lia|]. by split. }
  split; [pose_zlen; lia|]. split; [done|]. intros Hne. rewrite Ho, take_zlen_app. rewrite take_ge in Hex by (unfold zlen; lia).
  split; [by eapply stream_bytes|]. intros rest2 buf Hbuf.
  assert (Hts : ts <> []) by (intros ->; done).
  destruct (dloop_tokens ts Hok Hts (Z.to_nat (zlen (stream ts))) [] rest2 [] inp buf Hex) as (rest' & Hlen & Hd).
  - exact Hbuf.
  - pose proof (stream_count ts Hok). unfold zlen. lia.
  - exists rest'. split; [exact Hd|]. revert Hlen. zlia.
Qed.

(** [C21] On every input but those of one byte [lzf_compress] never leaves its
    buffers, whatever the uninitialised hash table holds, and either answers 0 or
    a number of bytes, at most [out_len], that [lzf_decompress] turns back into
    exactly the input, into any buffer with room for it.  On one byte it reads past
    the input ([lzf_compress_one_byte]). *)
Theorem lzf_roundtrip (junk : Z -> Z) (inp out buf : list Z) (out_len : Z) (Hb : bytes_ok inp)
    (Hin : zlen inp < 2 ^ 32) (Hone : zlen inp <> 1) (Hout : 0 <= out_len <= zlen out) (Hout32 : out_len < 2 ^ 32) (Hbuf : zlen inp <= zlen buf) :
  exists n o, lzf_compress junk inp (zlen inp) out out_len = Some (n, o) /\ 0 <= n <= out_len /\
    zlen o = zlen out /\
    (n <> 0 -> exists rest, lzf_decompress o n buf (zlen buf) = Some (DOk (zlen inp) (inp ++ rest))).
Proof.
  destruct (Z.eq_dec (zlen inp) 0) as [Hz|Hz].
  { exists 0, out. unfold lzf_compress. rewrite (proj2 (Z.eqb_eq _ 0) Hz). split; [done|]. split; [lia|]. by split. }
  destruct (lzf_codec junk inp out out_len Hb ltac:(pose proof (zlen_nonneg inp); lia) Hout Hout32) as (n & o & E & Hn & Hl & Hd). exists n, o. do 3 (split; [done|]).
  intros Hne. destruct (Hd Hne) as [_ Hdec]. destruct (Hdec (drop (Z.to_nat n) o) buf Hbuf) as (rest & Ed & _). rewrite take_drop in Ed. by exists rest.
Qed.

Lemma lzf_witness :
  exists n o, lzf_compress (fun i => i) (bytes_of "aaaaaaaaaaaaaaaab") 17 (replicate 31 0) 30 = Some (n, o) /\ 0 <= n <= 30 /\
    zlen o = 31 /\
    (n <> 0 -> exists rest, lzf_decompress o n (replicate 20 7) 20 = Some (DOk 17 (bytes_of "aaaaaaaaaaaaaaaab" ++ rest))).
Proof.
  exact (lzf_roundtrip (fun i => i) (bytes_of "aaaaaaaaaaaaaaaab") (replicate 31 0) (replicate 20 7) 30
    ltac:(repeat constructor; by vm_compute) ltac:(by vm_compute) ltac:(by vm_compute) ltac:(by vm_compute) ltac:(by vm_compute) ltac:(by vm_compute)).
Defined.

Lemma lzf_decompress_witness :
  exists r, lzf_decompress [224; 255] 2 [0; 0; 0] 3 = Some r /\ dres_ok 3 r.
Proof. exact (lzf_decompress_safe [224; 255] [0; 0; 0] ltac:(repeat constructor; by vm_compute) ltac:(by vm_compute)). Defined.

(** A one byte input: the hash of the first two bytes is read before the length
    is looked at. *)
Theorem lzf_compress_one_byte (junk : Z -> Z) (c : Z) (out : list Z) (out_len : Z) (Hout : out_len <> 0) :
  lzf_compress junk [c] 1 out out_len = None.
Proof. unfold lzf_compress. by rewrite (proj2 (Z.eqb_neq out_len 0)). Qed.
