(* ===== verification/Rio.v ===== *)
(** * Streams (rio.c, rio.h)

    A stream over a string in memory or over a file, with the checksum of what
    went through it.  The file is that of the C library: what is written waits in
    a buffer until it is flushed, and the device has room for so many bytes; what
    could not be written stays in the buffer. *)
From Stdlib Require Import ZArith Lia.
From stdpp Require Import base numbers list option.
From S2P Require Import Prelude Checksum.

(** ** Files of the C library *)

Record FILE := {
  f_data : list Z;      (** the contents of the file *)
  f_pending : list Z;   (** written and not flushed *)
  f_room : Z;           (** the bytes the device still takes *)
  f_pos : Z             (** where reading goes on *)
}.

Definition file_new (room : Z) : FILE := {| f_data := []; f_pending := []; f_room := room; f_pos := 0 |}.
Definition file_read (data : list Z) : FILE := {| f_data := data; f_pending := []; f_room := 0; f_pos := 0 |}.

(** [false] is [EOF]. *)
Definition fflush (fp : FILE) : FILE * bool :=
  let n := Z.to_nat (f_room fp) in
  ({| f_data := f_data fp ++ take n (f_pending fp); f_pending := drop n (f_pending fp);
      f_room := f_room fp - zlen (take n (f_pending fp)); f_pos := f_pos fp |},
   bool_decide (zlen (f_pending fp) <= f_room fp)).

(** [fwrite(buf,len,1,fp)]. *)
Definition fwrite (bufsiz : Z) (fp : FILE) (buf : list Z) : FILE * Z :=
  let fp := {| f_data := f_data fp; f_pending := f_pending fp ++ buf; f_room := f_room fp; f_pos := f_pos fp |} in
  if zlen (f_pending fp) <=? bufsiz then (fp, 1)
  else let '(fp, ok) := fflush fp in (fp, if ok then 1 else 0).

(** [fread(buf,len,1,fp)]: [None] is 0. *)
Definition fread (fp : FILE) (len : Z) : FILE * option (list Z) :=
  let got := take (Z.to_nat len) (drop (Z.to_nat (f_pos fp)) (f_data fp)) in
  ({| f_data := f_data fp; f_pending := f_pending fp; f_room := f_room fp; f_pos := f_pos fp + zlen got |},
   if zlen got =? len then Some got else None).

(** ** The streams *)

Inductive backend :=
| IoBuffer (ptr : list Z) (pos : Z)
| IoFile (fp : FILE) (buffered autosync : Z).

(** [update_cksum]: [rioGenericUpdateChecksum], or [rdbLoadProgressCallback] with
    [server.rdb_checksum]. *)
Inductive cksum_fn := Generic | LoadProgress (rdb_checksum : bool).

Record rio := {
  io : backend;
  update_cksum : option cksum_fn;
  cksum : Z;
  processed_bytes : Z;
  max_processing_chunk : Z
}.

Definition rioInitWithBuffer (s : list Z) : rio :=
  {| io := IoBuffer s 0; update_cksum := None; cksum := 0; processed_bytes := 0; max_processing_chunk := 0 |}.
Definition rioInitWithFile (fp : FILE) : rio :=
  {| io := IoFile fp 0 0; update_cksum := None; cksum := 0; processed_bytes := 0; max_processing_chunk := 0 |}.

Definition rioSetAutoSync (r : rio) (bytes : Z) : rio :=
  match io r with
  | IoFile fp buffered _ => {| io := IoFile fp buffered bytes; update_cksum := update_cksum r; cksum := cksum r;
                               processed_bytes := processed_bytes r; max_processing_chunk := max_processing_chunk r |}
  | IoBuffer _ _ => r
  end.

Definition with_io (r : rio) (b : backend) : rio :=
  {| io := b; update_cksum := update_cksum r; cksum := cksum r; processed_bytes := processed_bytes r; max_processing_chunk := max_processing_chunk r |}.
Definition with_cksum (r : rio) (c : Z) : rio :=
  {| io := io r; update_cksum := update_cksum r; cksum := c; processed_bytes := processed_bytes r; max_processing_chunk := max_processing_chunk r |}.
(** [r->processed_bytes += n]. *)
Definition add_processed (r : rio) (n : Z) : rio :=
  {| io := io r; update_cksum := update_cksum r; cksum := cksum r; processed_bytes := u64 (processed_bytes r + n); max_processing_chunk := max_processing_chunk r |}.

Definition rioGenericUpdateChecksum (r : rio) (buf : list Z) : option rio :=
  c ← crc64 (cksum r) buf (zlen buf); Some (with_cksum r c).

(** The clients that [rdbLoadProgressCallback] serves are left out. *)
Definition rdbLoadProgressCallback (rdb_checksum : bool) (r : rio) (buf : list Z) : option rio :=
  if rdb_checksum then rioGenericUpdateChecksum r buf else Some r.

(** [if (r->update_cksum) r->update_cksum(r,buf,len)]. *)
Definition call_update_cksum (r : rio) (buf : list Z) : option rio :=
  match update_cksum r with
  | None => Some r
  | Some Generic => rioGenericUpdateChecksum r buf
  | Some (LoadProgress b) => rdbLoadProgressCallback b r buf
  end.

Section Rio.
Context (bufsiz : Z).
Implicit Types (r : rio) (buf bs : list Z).

Definition rioBufferWrite r (ptr : list Z) (pos : Z) buf : rio * bool :=
  (with_io r (IoBuffer (ptr ++ buf) (pos + zlen buf)), true).

Definition rioBufferRead r (ptr : list Z) (pos : Z) (len : Z) : rio * option (list Z) :=
  if u64 (zlen ptr - pos) <? len then (r, None)
  else (with_io r (IoBuffer ptr (pos + len)), mread ptr pos len).

(** [redis_fsync] answers nothing here that the source looks at. *)
Definition rioFileWrite r (fp : FILE) (buffered autosync : Z) buf : rio * bool :=
  let '(fp, retval) := fwrite bufsiz fp buf in
  let buffered := buffered + zlen buf in
  if negb (autosync =? 0) && (buffered >=? autosync)
  then (with_io r (IoFile (fst (fflush fp)) 0 autosync), negb (retval =? 0))
  else (with_io r (IoFile fp buffered autosync), negb (retval =? 0)).

Definition rioFileRead r (fp : FILE) (buffered autosync : Z) (len : Z) : rio * option (list Z) :=
  let '(fp, got) := fread fp len in (with_io r (IoFile fp buffered autosync), got).

Definition io_write r buf : rio * bool :=
  match io r with
  | IoBuffer ptr pos => rioBufferWrite r ptr pos buf
  | IoFile fp buffered autosync => rioFileWrite r fp buffered autosync buf
  end.

Definition io_read r (len : Z) : rio * option (list Z) :=
  match io r with
  | IoBuffer ptr pos => rioBufferRead r ptr pos len
  | IoFile fp buffered autosync => rioFileRead r fp buffered autosync len
  end.

Definition chunk r (len : Z) : Z :=
  if negb (max_processing_chunk r =? 0) && (max_processing_chunk r <? len) then max_processing_chunk r else len.

(** [while (len)] *)
Fixpoint rioWrite_loop (fuel : nat) r buf : option (rio * bool) :=
  match buf with
  | [] => Some (r, true)
  | _ =>
      match fuel with
      | O => None
      | S fuel =>
          let n := chunk r (zlen buf) in
          r ← call_update_cksum r (take (Z.to_nat n) buf);
          let '(r, ok) := io_write r (take (Z.to_nat n) buf) in
          if negb ok then Some (r, false)
          else rioWrite_loop fuel (add_processed r n) (drop (Z.to_nat n) buf)
      end
  end.

Definition rioWrite r buf : option (rio * bool) := rioWrite_loop (length buf) r buf.

(** [None] inside: 0. *)
Fixpoint rioRead_loop (fuel : nat) r (len : Z) : option (rio * option (list Z)) :=
  if len =? 0 then Some (r, Some [])
  else
    match fuel with
    | O => None
    | S fuel =>
        let n := chunk r len in
        match io_read r n with
        | (r, None) => Some (r, None)
        | (r, Some got) =>
            r ← call_update_cksum r got;
            t ← rioRead_loop fuel (add_processed r n) (len - n);
            Some (fst t, option_map (app got) (snd t))
        end
    end.

Definition rioRead r (len : Z) : option (rio * option (list Z)) := rioRead_loop (Z.to_nat len) r len.

(** ** What goes through a stream *)

(** What has been written, and what is left to read. *)
Definition written r : list Z := match io r with IoBuffer ptr _ => ptr | IoFile fp _ _ => f_data fp ++ f_pending fp end.
Definition input r : list Z := match io r with IoBuffer ptr pos => drop (Z.to_nat pos) ptr | IoFile fp _ _ => drop (Z.to_nat (f_pos fp)) (f_data fp) end.

Definition sums r : bool := match update_cksum r with None => false | Some Generic => true | Some (LoadProgress b) => b end.
Definition sum_of r bs : Z := if sums r then crc64_ref (cksum r) bs else cksum r.
(** What a file can hold. *)
Definition capacity r : Z := match io r with IoBuffer _ _ => 0 | IoFile fp _ _ => zlen (f_data fp) + f_room fp end.
Definition in_memory r : bool := match io r with IoBuffer _ _ => true | IoFile _ _ _ => false end.

Record rio_ok r : Prop := { ro_cksum : 0 <= cksum r < 2 ^ 64; ro_chunk : 0 <= max_processing_chunk r }.

(** The read position is inside. *)
Definition pos_ok r : Prop :=
  match io r with
  | IoBuffer ptr pos => 0 <= pos <= zlen ptr /\ zlen ptr < 2 ^ 63
  | IoFile fp _ _ => 0 <= f_pos fp <= zlen (f_data fp)
  end.

(** The stream is of the same kind, with the checksum of [bs] added. *)
Record summed r bs r' : Prop := {
  sm_sum : cksum r' = sum_of r bs;
  sm_fn : update_cksum r' = update_cksum r;
  sm_chunk : max_processing_chunk r' = max_processing_chunk r;
  sm_memory : in_memory r' = in_memory r
}.

Lemma sum_of_app r bs bs' r' : summed r bs r' -> sum_of r' bs' = sum_of r (bs ++ bs').
Proof.
  intros [Es Ef _ _]. unfold sum_of, sums in *. rewrite Ef, Es. destruct (update_cksum r) as [[|[]]|]; try done; unfold crc64_ref; by rewrite fold_left_app.
Qed.

Lemma summed_refl r : summed r [] r.
Proof. split; try done. unfold sum_of. by destruct (sums r). Qed.

Lemma summed_trans r bs r' bs' r'' : summed r bs r' -> summed r' bs' r'' -> summed r (bs ++ bs') r''.
Proof.
  intros S1 S2. pose proof (sum_of_app r bs bs' r' S1) as Es. destruct S1, S2. split; congruence.
Qed.

Lemma generic_sum r buf : bytes_ok buf -> 0 <= cksum r < 2 ^ 64 -> rioGenericUpdateChecksum r buf = Some (with_cksum r (crc64_ref (cksum r) buf)).
Proof. intros Hb Hc. unfold rioGenericUpdateChecksum. pose proof (crc64_spec (cksum r) buf [] Hb Hc) as E. rewrite app_nil_r in E. by rewrite E. Qed.

Lemma call_sum r buf : bytes_ok buf -> 0 <= cksum r < 2 ^ 64 ->
  exists r', call_update_cksum r buf = Some r' /\ summed r buf r' /\ io r' = io r /\ 0 <= cksum r' < 2 ^ 64.
Proof.
  intros Hb Hc. unfold call_update_cksum, rdbLoadProgressCallback. pose proof (crc64_ref_range buf (cksum r) Hb Hc).
  rewrite generic_sum by done.
  destruct (update_cksum r) as [[|[]]|] eqn:E; eexists; (split; [reflexivity|]);
    (split; [split; cbn; unfold sum_of, sums; try rewrite E; done|done]).
Qed.

Lemma fflush_data fp : f_data (fst (fflush fp)) ++ f_pending (fst (fflush fp)) = f_data fp ++ f_pending fp.
Proof. cbn. by rewrite <- app_assoc, take_drop. Qed.

Lemma fflush_room fp : zlen (f_data (fst (fflush fp))) + f_room (fst (fflush fp)) = zlen (f_data fp) + f_room fp.
Proof. cbn. rewrite zlen_app. lia. Qed.

Lemma fflush_fails fp : snd (fflush fp) = false -> zlen (f_data fp) + f_room fp < zlen (f_data fp ++ f_pending fp).
Proof. cbn. intros E%bool_decide_eq_false. rewrite zlen_app. lia. Qed.

Lemma io_write_spec r buf : exists ok b, io_write r buf = (with_io r b, ok) /\
  written (with_io r b) = written r ++ buf /\ in_memory (with_io r b) = in_memory r /\ (in_memory r = true -> ok = true) /\
  capacity (with_io r b) = capacity r /\ (ok = false -> capacity r < zlen (written r ++ buf)).
Proof.
  unfold io_write, written, in_memory, capacity. destruct (io r) as [ptr pos|fp buffered autosync]; [by eexists _, _|].
  unfold rioFileWrite, fwrite. set (fp1 := {| f_data := f_data fp; f_pending := _ |}).
  assert (Hd : forall fp2, f_data fp2 ++ f_pending fp2 = f_data fp1 ++ f_pending fp1 ->
    f_data (fst (fflush fp2)) ++ f_pending (fst (fflush fp2)) = (f_data fp ++ f_pending fp) ++ buf).
  { intros fp2 E2. rewrite fflush_data, E2. cbn. by rewrite app_assoc. }
  assert (Hc : zlen (f_data fp1) + f_room fp1 = zlen (f_data fp) + f_room fp) by done.
  pose proof (fflush_data fp1) as Ef. pose proof (fflush_room fp1) as Er. pose proof (fflush_fails fp1) as Ex. 
  assert (Ew : f_data fp1 ++ f_pending fp1 = (f_data fp ++ f_pending fp) ++ buf) by apply app_assoc.
  destruct (zlen (f_pending fp1) <=? bufsiz); [|destruct (fflush fp1) as [fp2 ok] eqn:E2; cbn [fst snd] in *];
    (destruct (_ && _); eexists _, _; (split; [reflexivity|]); cbn [with_io io]).
  - split_and!; [by apply Hd|done|done|exact Er|done].
  - done.
  - pose proof (fflush_room fp2). split_and!; [by apply Hd|done|done|lia|]. destruct ok; [done|]. intros _. rewrite <- Ew, <- Hc. by apply Ex.
  - split_and!; [by rewrite Ef|done|done|lia|]. destruct ok; [done|]. intros _. rewrite <- Ew, <- Hc. by apply Ex.
Qed.

(** Everything was written, or the medium is a file. *)
Record wrote r bs r' : Prop := { wr_out : written r' = written r ++ bs; wr_sum : summed r bs r'; wr_ok : rio_ok r'; wr_cap : capacity r' = capacity r }.

Lemma wrote_refl r : rio_ok r -> wrote r [] r.
Proof. intros Hok. split; [by rewrite app_nil_r|apply summed_refl|done|done]. Qed.

Lemma wrote_trans r bs r' bs' r'' : wrote r bs r' -> wrote r' bs' r'' -> wrote r (bs ++ bs') r''.
Proof. intros [O1 S1 K1 C1] [O2 S2 K2 C2]. split; [by rewrite O2, O1, app_assoc|by eapply summed_trans|done|congruence]. Qed.

(** The file could not take [n] more octets. *)
Record broke n r r' : Prop := {
  br_ok : rio_ok r';
  br_file : in_memory r = false;
  br_memory : in_memory r' = false;
  br_room : capacity r < zlen (written r) + n
}.

Lemma broke_mono n n' r r' : n <= n' -> broke n r r' -> broke n' r r'.
Proof. intros Hn [B1 B2 B3 B4]. split; [done..|lia]. Qed.

Lemma wrote_broke r bs n r' r'' : wrote r bs r' -> broke n r' r'' -> broke (zlen bs + n) r r''.
Proof.
  intros [Wo [_ _ _ Wm] _ Wc] [B1 B2 B3 B4]. split; [done|congruence|done|]. rewrite Wo, Wc, zlen_app in B4. lia.
Qed.

Lemma chunk_range r len : 0 <= max_processing_chunk r -> 0 < len -> 0 < chunk r len <= len.
Proof. intros H1 H2. unfold chunk. destruct (max_processing_chunk r =? 0) eqn:E1, (max_processing_chunk r <? len) eqn:E2; cbn; lia. Qed.

Lemma rioWrite_loop_spec (fuel : nat) r buf : bytes_ok buf -> rio_ok r -> (length buf <= fuel)%nat ->
  exists r' ok, rioWrite_loop fuel r buf = Some (r', ok) /\ if ok : bool then wrote r buf r' else broke (zlen buf) r r'.
Proof.
  revert r buf. induction fuel as [|fuel IH]; intros r buf Hb Hok Hf; (destruct buf as [|x buf]; [by eexists r, true; split; [|apply wrote_refl]|]); [cbn in Hf; lia|].
  cbn [rioWrite_loop]. set (bs := x :: buf) in *. assert (Hl : 0 < zlen bs) by (unfold zlen, bs; cbn; lia).
  destruct (chunk_range r (zlen bs) (ro_chunk r Hok) Hl) as [Hn0 Hn1]. set (n := chunk r (zlen bs)) in *.
  destruct (call_sum r (take (Z.to_nat n) bs)) as (r1 & -> & S1 & I1 & C1); [by apply Forall_take|apply Hok|]. cbn [mbind option_bind].
  destruct (io_write_spec r1 (take (Z.to_nat n) bs)) as (ok & b & -> & W1 & M1 & K1 & Cp1 & Cf1).
  assert (Hok1 : rio_ok (with_io r1 b)) by (split; cbn; [done|rewrite (sm_chunk _ _ _ S1); apply Hok]).
  destruct ok; cbn [negb].
  - set (r2 := add_processed (with_io r1 b) n).
    destruct (IH r2 (drop (Z.to_nat n) bs)) as (r3 & ok & -> & H3).
    { by apply Forall_drop. } { destruct Hok1. by split. } { rewrite length_drop. unfold zlen in *. lia. }
    assert (H2 : wrote r (take (Z.to_nat n) bs) r2).
    { split; [|destruct S1; split; [done..|transitivity (in_memory r1); [exact M1|done]]|by destruct Hok1; split|].
      - transitivity (written (with_io r1 b)); [done|]. rewrite W1. unfold written. by rewrite I1.
      - transitivity (capacity (with_io r1 b)); [done|]. rewrite Cp1. unfold capacity. by rewrite I1. }
    exists r3, ok. split; [done|]. destruct ok.
    + rewrite <- (take_drop (Z.to_nat n) bs). by eapply wrote_trans.
    + rewrite <- (take_drop (Z.to_nat n) bs) at 1. rewrite zlen_app. by eapply wrote_broke.
  - exists (with_io r1 b), false. split; [done|]. assert (Hm : in_memory r1 = false) by (destruct (in_memory r1); [by rewrite K1 in *|done]).
    split; [done|by rewrite <- (sm_memory _ _ _ S1)|by rewrite M1|].
    specialize (Cf1 eq_refl). unfold capacity, written in *. rewrite I1 in Cf1. pose proof (zlen_nonneg (drop (Z.to_nat n) bs)).
    rewrite <- (take_drop (Z.to_nat n) bs) at 1. rewrite zlen_app in *. lia.
Qed.

Lemma rioWrite_spec r buf : bytes_ok buf -> rio_ok r ->
  exists r' ok, rioWrite r buf = Some (r', ok) /\ if ok : bool then wrote r buf r' else broke (zlen buf) r r'.
Proof. intros Hb Hok. by apply rioWrite_loop_spec. Qed.

(** ** Reading *)

Record took r bs r' : Prop := { tk_in : input r = bs ++ input r'; tk_sum : summed r bs r'; tk_ok : rio_ok r'; tk_pos : pos_ok r' }.

Lemma took_refl r : rio_ok r -> pos_ok r -> took r [] r.
Proof. intros Hok Hp. split; [done|apply summed_refl|done|done]. Qed.

Lemma took_trans r bs r' bs' r'' : took r bs r' -> took r' bs' r'' -> took r (bs ++ bs') r''.
Proof. intros [O1 S1 K1 P1] [O2 S2 K2 P2]. split; [by rewrite O1, O2, app_assoc|by eapply summed_trans|done|done]. Qed.

Lemma drop_shift {A} (a b l : list A) (i : nat) : drop i l = a ++ b -> drop (i + length a) l = b.
Proof. intros E. by rewrite <- drop_drop, E, drop_app_length. Qed.

Lemma io_read_spec r bs rest : pos_ok r -> input r = bs ++ rest -> exists b, io_read r (zlen bs) = (with_io r b, Some bs) /\
  input (with_io r b) = rest /\ pos_ok (with_io r b) /\ in_memory (with_io r b) = in_memory r.
Proof.
  unfold io_read, input, pos_ok, in_memory. destruct (io r) as [ptr pos|fp buffered autosync]; intros Hp Hi.
  - assert (Hl : zlen ptr - pos = zlen bs + zlen rest).
    { apply (f_equal zlen) in Hi. rewrite zlen_drop, zlen_app in Hi by lia. lia. }
    pose proof (zlen_nonneg bs). pose proof (zlen_nonneg rest). unfold rioBufferRead.
    rewrite uwrap_small, (proj2 (Z.ltb_ge _ _)) by lia. exists (IoBuffer ptr (pos + zlen bs)). 
    cbn [with_io io]. split; [|split; [|split; [lia|done]]].
    + f_equal. unfold mread. rewrite Hi, take_zlen_app, !(proj2 (Z.leb_le _ _)) by lia. done.
    + replace (Z.to_nat (pos + zlen bs)) with (Z.to_nat pos + length bs)%nat by (unfold zlen; lia). by eapply drop_shift.
  - assert (Hl : zlen (f_data fp) - f_pos fp = zlen bs + zlen rest).
    { apply (f_equal zlen) in Hi. rewrite zlen_drop, zlen_app in Hi by lia. lia. }
    pose proof (zlen_nonneg bs). pose proof (zlen_nonneg rest). unfold rioFileRead, fread. rewrite Hi, take_zlen_app, Z.eqb_refl.
    eexists. split; [reflexivity|]. cbn [with_io io f_data f_pos]. split; [|split; [lia|done]].
    replace (Z.to_nat (f_pos fp + zlen bs)) with (Z.to_nat (f_pos fp) + length bs)%nat by (unfold zlen; lia). by eapply drop_shift.
Qed.

Lemma rioRead_loop_spec (fuel : nat) r bs rest : bytes_ok bs -> rio_ok r -> pos_ok r -> (length bs <= fuel)%nat -> input r = bs ++ rest ->
  exists r', rioRead_loop fuel r (zlen bs) = Some (r', Some bs) /\ took r bs r' /\ input r' = rest.
Proof.
  revert r bs. induction fuel as [|fuel IH]; intros r bs Hb Hok Hp Hf Hi;
    (destruct (decide (zlen bs = 0)) as [E0|E0];
      [assert (bs = []) as -> by (apply nil_length_inv; unfold zlen in E0; lia); exists r; split; [done|split; [by apply took_refl|done]]|]).
  { unfold zlen in E0. lia. }
  cbn [rioRead_loop]. rewrite (proj2 (Z.eqb_neq _ _) E0). pose proof (zlen_nonneg bs).
  destruct (chunk_range r (zlen bs) (ro_chunk r Hok) ltac:(lia)) as [Hn0 Hn1]. set (n := chunk r (zlen bs)) in *.
  set (b1 := take (Z.to_nat n) bs). set (b2 := drop (Z.to_nat n) bs). assert (E : bs = b1 ++ b2) by (symmetry; apply take_drop).
  assert (Hz1 : zlen b1 = n) by (unfold b1; rewrite zlen_take; lia). assert (Hz2 : zlen b2 = zlen bs - n) by (unfold b2; rewrite zlen_drop; lia).
  rewrite E, <- app_assoc in Hi. destruct (io_read_spec r b1 (b2 ++ rest) Hp Hi) as (b & Er & I1 & P1 & M1). rewrite Hz1 in Er. rewrite Er.
  destruct (call_sum (with_io r b) b1) as (r1 & -> & S1 & Io1 & C1); [by apply Forall_take|apply Hok|]. cbn [mbind option_bind].
  set (r2 := add_processed r1 n). assert (I2 : input r2 = b2 ++ rest) by (unfold input; cbn; rewrite Io1; exact I1).
  assert (S2 : summed r b1 r2) by (destruct S1; split; [done..|transitivity (in_memory (with_io r b)); [done|exact M1]]).
  assert (Hok2 : rio_ok r2) by (split; cbn; [done|rewrite (sm_chunk _ _ _ S1); apply Hok]).
  assert (P2 : pos_ok r2) by (unfold pos_ok; cbn; rewrite Io1; exact P1).
  destruct (IH r2 b2) as (r3 & E3 & T3 & I3); [by apply Forall_drop|done|done|unfold b2; rewrite length_drop; unfold zlen in *; lia|done|].
  rewrite <- Hz2, E3. cbn [mbind option_bind fst snd option_map]. exists r3. rewrite E. split; [done|]. split; [|done].
  eapply took_trans; [|exact T3]. split; [by rewrite Hi, I2|done|done|done].
Qed.

Lemma rioRead_spec r bs rest : bytes_ok bs -> rio_ok r -> pos_ok r -> input r = bs ++ rest ->
  exists r', rioRead r (zlen bs) = Some (r', Some bs) /\ took r bs r' /\ input r' = rest.
Proof. intros. eapply rioRead_loop_spec; try done. unfold zlen. lia. Qed.
End Rio.
