(* ===== verification/Dict.v ===== *)
(** * The incrementally rehashed hash table (dict.c)

    A chain of [dictEntry] is the list of its keys and values, a table the list
    of its chains; [[]] is the NULL table.  Keys are identified by their content,
    which is what the [keyCompare] callbacks of the source compare, and the hash
    function is a parameter.  An entry pointer is the table, the bucket and the
    position in the chain. *)
From Stdlib Require Import ZArith Lia.
From stdpp Require Import base numbers list option gmap.
From S2P Require Import Prelude.

Definition DICT_HT_INITIAL_SIZE : Z := 4.
Definition dict_force_resize_ratio : Z := 5.
Definition LONG_MAX : Z := 2 ^ 63 - 1.

(** [while(1) { if (i >= size) return i; i *= 2; }] *)
Fixpoint next_power_loop (fuel : nat) (size i : Z) : option Z :=
  if i >=? size then Some i
  else match fuel with O => None | S fuel => next_power_loop fuel size (u64 (i * 2)) end.

Definition _dictNextPower (size : Z) : option Z :=
  if size >=? LONG_MAX then Some (u64 (LONG_MAX + 1)) else next_power_loop 64 size DICT_HT_INITIAL_SIZE.

(** [while ((s >>= 1) > 0) ...] on [unsigned long]. *)
Fixpoint rev_loop (fuel : nat) (s mask v : Z) : option Z :=
  let s := Z.shiftr s 1 in
  if s >? 0 then
    match fuel with
    | O => None
    | S fuel =>
        let mask := Z.lxor mask (u64 (Z.shiftl mask s)) in
        let v := Z.lor (Z.land (Z.shiftr v s) mask)
                       (Z.land (u64 (Z.shiftl v s)) (u64 (Z.lnot mask))) in
        rev_loop fuel s mask v
    end
  else Some v.

Definition rev (v : Z) : option Z := rev_loop 64 (8 * 8) (u64 (Z.lnot 0)) v.

Section Dict.
Context {K V : Type} `{EqDecision K}.
(** [type->hashFunction]; the memory a fresh entry's value holds. *)
Context (dictHashKey : K -> Z) (uninit : V).

Abbreviation dictEntry := (K * V)%type.
Abbreviation chain := (list (K * V)).

Record dictht := {
  table : list chain;
  size : Z;
  sizemask : Z;
  used : Z
}.

Record dict := {
  ht0 : dictht;
  ht1 : dictht;
  rehashidx : Z;
  iterators : Z
}.

Definition dictIsRehashing (d : dict) : bool := negb (rehashidx d =? -1).
Definition dictSize (d : dict) : Z := used (ht0 d) + used (ht1 d).

Definition _dictReset : dictht := {| table := []; size := 0; sizemask := 0; used := 0 |}.

Definition _dictInit : dict :=
  {| ht0 := _dictReset; ht1 := _dictReset; rehashidx := -1; iterators := 0 |}.

(** The result is [false] for [DICT_ERR]. *)
Definition dictExpand (d : dict) (sz : Z) : option (dict * bool) :=
  if dictIsRehashing d || (used (ht0 d) >? sz) then Some (d, false)
  else
    realsize ← _dictNextPower sz;
    if realsize =? size (ht0 d) then Some (d, false)
    else
      let n := {| table := replicate (Z.to_nat realsize) []; size := realsize;
                  sizemask := realsize - 1; used := 0 |} in
      if bool_decide (table (ht0 d) = []) then
        Some ({| ht0 := n; ht1 := ht1 d; rehashidx := rehashidx d; iterators := iterators d |}, true)
      else
        Some ({| ht0 := ht0 d; ht1 := n; rehashidx := 0; iterators := iterators d |}, true).

Definition dictResize (dict_can_resize : bool) (d : dict) : option (dict * bool) :=
  if negb dict_can_resize || dictIsRehashing d then Some (d, false)
  else
    let minimal := i32 (used (ht0 d)) in
    let minimal := if minimal <? DICT_HT_INITIAL_SIZE then DICT_HT_INITIAL_SIZE else minimal in
    dictExpand d minimal.

(** ** Rehashing *)

(** Put an entry in front of the chain of bucket [i]. *)
Definition push (ht : dictht) (i : Z) (de : dictEntry) : option dictht :=
  c ← mget (table ht) i;
  t ← mset (table ht) i (de :: c);
  Some {| table := t; size := size ht; sizemask := sizemask ht; used := used ht + 1 |}.

(** [while(de)]: move the chain [c] to the new table, counting. *)
Fixpoint move_chain (c : chain) (u0 : Z) (h1 : dictht) : option (Z * dictht) :=
  match c with
  | [] => Some (u0, h1)
  | de :: c =>
      let h := Z.land (dictHashKey (fst de)) (sizemask h1) in
      h1 ← push h1 h de;
      move_chain c (u0 - 1) h1
  end.

(** [while(table[rehashidx] == NULL) ...]: the new [rehashidx] and
    [empty_visits]; [true] when the visits are used up. *)
Fixpoint skip_empty (fuel : nat) (t : list chain) (idx visits : Z) : option (Z * Z * bool) :=
  c ← mget t idx;
  match c with
  | _ :: _ => Some (idx, visits, false)
  | [] =>
      match fuel with
      | O => None
      | S fuel =>
          if visits - 1 =? 0 then Some (idx + 1, visits - 1, true)
          else skip_empty fuel t (idx + 1) (visits - 1)
      end
  end.

(** [while(n-- && d->ht[0].used != 0)]; [true]: left by [return 1]. *)
Fixpoint rehash_loop (n : nat) (d : dict) (visits : Z) : option (dict * bool) :=
  match n with
  | O => Some (d, false)
  | S n =>
      if used (ht0 d) =? 0 then Some (d, false)
      else
        r ← skip_empty (length (table (ht0 d))) (table (ht0 d)) (rehashidx d) visits;
        let '(idx, visits, stop) := r in
        if stop : bool then
          Some ({| ht0 := ht0 d; ht1 := ht1 d; rehashidx := idx; iterators := iterators d |}, true)
        else
          c ← mget (table (ht0 d)) idx;
          m ← move_chain c (used (ht0 d)) (ht1 d);
          let '(u0, h1) := m in
          t ← mset (table (ht0 d)) idx [];
          rehash_loop n
            {| ht0 := {| table := t; size := size (ht0 d); sizemask := sizemask (ht0 d); used := u0 |};
               ht1 := h1; rehashidx := idx + 1; iterators := iterators d |} visits
  end.

Definition dictRehash (d : dict) (n : nat) : option (dict * bool) :=
  let empty_visits := Z.of_nat n * 10 in
  if negb (dictIsRehashing d) then Some (d, false)
  else
    r ← rehash_loop n d empty_visits;
    let '(d, stop) := r in
    if stop : bool then Some (d, true)
    else if used (ht0 d) =? 0 then
      Some ({| ht0 := ht1 d; ht1 := _dictReset; rehashidx := -1; iterators := iterators d |}, false)
    else Some (d, true).

Definition _dictRehashStep (d : dict) : option dict :=
  if iterators d =? 0 then r ← dictRehash d 1; Some (fst r) else Some d.

Definition rehash_step_if (d : dict) : option dict :=
  if dictIsRehashing d then _dictRehashStep d else Some d.

(** ** Lookup and insertion *)

(** An entry pointer: the table, the bucket and the place in the chain. *)
Record loc := { l_table : bool; l_idx : Z; l_pos : nat }.

Fixpoint chain_find (c : chain) (key : K) (pos : nat) : option (nat * dictEntry) :=
  match c with
  | [] => None
  | he :: c => if decide (key = fst he) then Some (pos, he) else chain_find c key (S pos)
  end.

Definition ht_of (d : dict) (t : bool) : dictht := if t then ht1 d else ht0 d.

(** [idx = h & sizemask; he = table[idx]; while(he) ...] *)
Definition table_find (d : dict) (t : bool) (h : Z) (key : K) : option (Z * option (nat * dictEntry)) :=
  let idx := Z.land h (sizemask (ht_of d t)) in
  c ← mget (table (ht_of d t)) idx;
  Some (idx, chain_find c key 0).

Definition dictFind (d : dict) (key : K) : option (dict * option dictEntry) :=
  if used (ht0 d) + used (ht1 d) =? 0 then Some (d, None)
  else
    d ← rehash_step_if d;
    let h := dictHashKey key in
    r ← table_find d false h key;
    match snd r return option (dict * option dictEntry) with
    | Some (_, he) => Some (d, Some he)
    | None =>
        if negb (dictIsRehashing d) then Some (d, None)
        else
          r ← table_find d true h key;
          Some (d, option_map snd (snd r))
    end.

Definition dictFetchValue (d : dict) (key : K) : option (dict * option V) :=
  r ← dictFind d key; Some (fst r, option_map snd (snd r)).

Definition _dictExpandIfNeeded (dict_can_resize : bool) (d : dict) : option (dict * bool) :=
  if dictIsRehashing d then Some (d, true)
  else if size (ht0 d) =? 0 then dictExpand d DICT_HT_INITIAL_SIZE
  else if (used (ht0 d) >=? size (ht0 d)) &&
          (dict_can_resize || (used (ht0 d) / size (ht0 d) >? dict_force_resize_ratio))
  then dictExpand d (u64 (used (ht0 d) * 2))
  else Some (d, true).

(** [inl]: -1 and [*existing]; [inr]: the index. *)
Definition _dictKeyIndex (dict_can_resize : bool) (d : dict) (key : K) (hash : Z)
    : option (dict * (option loc + Z)) :=
  r ← _dictExpandIfNeeded dict_can_resize d;
  let '(d, ok) := r in
  if negb ok then Some (d, inl None)
  else
    r ← table_find d false hash key;
    match r with
    | (idx, Some (pos, _)) => Some (d, inl (Some {| l_table := false; l_idx := idx; l_pos := pos |}))
    | (idx, None) =>
        if negb (dictIsRehashing d) then Some (d, inr idx)
        else
          r ← table_find d true hash key;
          match r with
          | (idx, Some (pos, _)) => Some (d, inl (Some {| l_table := true; l_idx := idx; l_pos := pos |}))
          | (idx, None) => Some (d, inr idx)
          end
    end.

Definition with_ht (d : dict) (t : bool) (ht : dictht) : dict :=
  if t then {| ht0 := ht0 d; ht1 := ht; rehashidx := rehashidx d; iterators := iterators d |}
  else {| ht0 := ht; ht1 := ht1 d; rehashidx := rehashidx d; iterators := iterators d |}.

(** [inl existing]: NULL; [inr entry]: the new entry, its value not yet set. *)
Definition dictAddRaw (dict_can_resize : bool) (d : dict) (key : K)
    : option (dict * (option loc + loc)) :=
  d ← rehash_step_if d;
  r ← _dictKeyIndex dict_can_resize d key (dictHashKey key);
  let '(d, i) := r in
  match i with
  | inl existing => Some (d, inl existing)
  | inr index =>
      let t := dictIsRehashing d in
      ht ← push (ht_of d t) index (key, uninit);
      Some (with_ht d t ht, inr {| l_table := t; l_idx := index; l_pos := 0 |})
  end.

Definition dictSetVal (d : dict) (e : loc) (val : V) : option dict :=
  let ht := ht_of d (l_table e) in
  c ← mget (table ht) (l_idx e);
  he ← c !! l_pos e;
  t ← mset (table ht) (l_idx e) (<[l_pos e := (fst he, val)]> c);
  Some (with_ht d (l_table e)
    {| table := t; size := size ht; sizemask := sizemask ht; used := used ht |}).

Definition dictAdd (dict_can_resize : bool) (d : dict) (key : K) (val : V) : option (dict * bool) :=
  r ← dictAddRaw dict_can_resize d key;
  match r with
  | (d, inl _) => Some (d, false)
  | (d, inr entry) => d ← dictSetVal d entry val; Some (d, true)
  end.

(** [true] when the key was added. *)
Definition dictReplace (dict_can_resize : bool) (d : dict) (key : K) (val : V) : option (dict * bool) :=
  r ← dictAddRaw dict_can_resize d key;
  match r with
  | (d, inr entry) => d ← dictSetVal d entry val; Some (d, true)
  | (d, inl (Some existing)) => d ← dictSetVal d existing val; Some (d, false)
  | (d, inl None) => None (** [*existing] of a NULL pointer *)
  end.

(** ** Deletion *)

(** Unlink the first entry with the key. *)
Fixpoint chain_unlink (c : chain) (key : K) : option (dictEntry * chain) :=
  match c with
  | [] => None
  | he :: c =>
      if decide (key = fst he) then Some (he, c)
      else r ← chain_unlink c key; Some (fst r, he :: snd r)
  end.

(** The unlinking in one table; [None] inside: not there. *)
Definition table_unlink (ht : dictht) (h : Z) (key : K) : option (option (dictEntry * dictht)) :=
  let idx := Z.land h (sizemask ht) in
  c ← mget (table ht) idx;
  match chain_unlink c key with
  | None => Some None
  | Some (he, c) =>
      t ← mset (table ht) idx c;
      Some (Some (he, {| table := t; size := size ht; sizemask := sizemask ht; used := used ht - 1 |}))
  end.

Definition dictGenericDelete (d : dict) (key : K) : option (dict * option dictEntry) :=
  if (used (ht0 d) =? 0) && (used (ht1 d) =? 0) then Some (d, None)
  else
    d ← rehash_step_if d;
    let h := dictHashKey key in
    r ← table_unlink (ht0 d) h key;
    match r with
    | Some (he, ht) => Some (with_ht d false ht, Some he)
    | None =>
        if negb (dictIsRehashing d) then Some (d, None)
        else
          r ← table_unlink (ht1 d) h key;
          match r with
          | Some (he, ht) => Some (with_ht d true ht, Some he)
          | None => Some (d, None)
          end
    end.

Definition dictDelete (d : dict) (key : K) : option (dict * bool) :=
  r ← dictGenericDelete d key; Some (fst r, bool_decide (is_Some (snd r))).

Definition dictUnlink (d : dict) (key : K) : option (dict * option dictEntry) := dictGenericDelete d key.

Definition dictEmpty (d : dict) : dict :=
  {| ht0 := _dictReset; ht1 := _dictReset; rehashidx := -1; iterators := 0 |}.

(** ** Scanning

    What [dictScan] hands to its callbacks, in order. *)
Inductive scan_event := EvBucket (t : bool) (idx : Z) | EvEntry (de : dictEntry).

(** [bucketfn(&t->table[v & m])] and [fn] on the chain. *)
Definition emit (bucketfn : bool) (d : dict) (t : bool) (v : Z) : option (list scan_event) :=
  let idx := Z.land v (sizemask (ht_of d t)) in
  c ← mget (table (ht_of d t)) idx;
  Some ((if bucketfn then [EvBucket t idx] else []) ++ (EvEntry <$> c)).

(** [v |= ~m; v = rev(v); v++; v = rev(v);] *)
Definition scan_next (v m : Z) : option Z :=
  let v := Z.lor v (u64 (Z.lnot m)) in
  v ← rev v;
  let v := u64 (v + 1) in
  rev v.

(** [do { ... } while (v & (m0 ^ m1));] *)
Fixpoint scan_expansions (fuel : nat) (bucketfn : bool) (d : dict) (t : bool) (m0 m1 v : Z)
    : option (list scan_event * Z) :=
  match fuel with
  | O => None
  | S fuel =>
      e ← emit bucketfn d t v;
      v ← scan_next v m1;
      if Z.land v (Z.lxor m0 m1) =? 0 then Some (e, v)
      else r ← scan_expansions fuel bucketfn d t m0 m1 v; Some (e ++ fst r, snd r)
  end.

Definition dictScan (bucketfn : bool) (d : dict) (v : Z) : option (list scan_event * Z) :=
  if dictSize d =? 0 then Some ([], 0)
  else if negb (dictIsRehashing d) then
    e ← emit bucketfn d false v;
    v ← scan_next v (sizemask (ht0 d));
    Some (e, v)
  else
    let t0 := size (ht0 d) >? size (ht1 d) in
    let t1 := negb t0 in
    let m0 := sizemask (ht_of d t0) in
    let m1 := sizemask (ht_of d t1) in
    e ← emit bucketfn d t0 v;
    r ← scan_expansions (length (table (ht_of d t1))) bucketfn d t1 m0 m1 v;
    Some (e ++ fst r, snd r).
End Dict.

Arguments dictht : clear implicits.
Arguments dict : clear implicits.
Arguments scan_event : clear implicits.

Example dict_ex :
  let hash (k : Z) := u64 (k * 7) in
  let add (d : option (dict Z Z)) k := r ← d; r ← dictAdd hash 0 true r k (k * 100); Some (fst r) in
  (d ← fold_left add [1; 2; 3; 4; 5; 6; 7; 8; 9] (Some _dictInit);
   f ← dictFind hash d 6;
   r ← dictDelete hash (fst f) 3;
   g ← dictFind hash (fst r) 3;
   Some (snd f, snd r, snd g, dictSize (fst g), rehashidx (fst g))) = Some (Some (6, 600), true, None, 8, 3).
Proof. vm_compute. reflexivity. Qed.
