(* ===== verification/DictRefine.v ===== *)
(** * The hash table refines a finite map

    [dict_repr d m] relates a dictionary, in the middle of an incremental rehash
    or not, to the finite map it stands for; every operation is proved against
    it, the rehashing steps hidden in the operations included. *)
From Stdlib Require Import ZArith Lia.
From stdpp Require Import base numbers list option gmap fin_maps sorting.
From S2P Require Import Prelude Dict.

(** ** Chains and tables *)

Section Refine.
Context {K V : Type} `{Countable K}.
Context (hash : K -> Z) (uninit : V).
Hypothesis hash_range : forall k, 0 <= hash k < 2 ^ 64.

Abbreviation chain := (list (K * V)).
Implicit Types (c : chain) (t : list chain) (ht : dictht K V) (d : dict K V).

(** Changing one bucket changes one segment of the entries. *)
Lemma concat_bucket t i c : t !! i = Some c ->
  exists A B, concat t = A ++ c ++ B /\ forall c', concat (<[i := c']> t) = A ++ c' ++ B.
Proof.
  intros Hi. exists (concat (take i t)), (concat (drop (S i) t)). split.
  - rewrite <- (take_drop_middle t i c Hi) at 1. by rewrite concat_app.
  - intros c'. rewrite insert_take_drop by (by eapply lookup_lt_Some). by rewrite concat_app.
Qed.

(** The invariant of one table of buckets. *)
Record ht_real ht : Prop := {
  hr_size : exists k, 2 <= k <= 63 /\ size ht = 2 ^ k;
  hr_mask : sizemask ht = size ht - 1;
  hr_len : zlen (table ht) = size ht;
  hr_used : used ht = zlen (concat (table ht));
  hr_place : forall i c e, table ht !! i = Some c -> e ∈ c ->
    Z.land (hash (fst e)) (sizemask ht) = Z.of_nat i
}.

Lemma land_mask ht x : ht_real ht -> 0 <= Z.land x (sizemask ht) < zlen (table ht).
Proof.
  intros [(k & Hk & Hs) Hm Hl _ _]. rewrite Hl, Hm, Hs.
  replace (2 ^ k - 1) with (Z.ones k) by (rewrite Z.ones_equiv; lia).
  rewrite Z.land_ones by lia. apply Z.mod_pos_bound. lia.
Qed.

Lemma bucket_of ht x : ht_real ht ->
  exists c, mget (table ht) (Z.land x (sizemask ht)) = Some c /\
    table ht !! Z.to_nat (Z.land x (sizemask ht)) = Some c.
Proof.
  intros Hr. pose proof (land_mask ht x Hr). destruct (mget_is_Some (table ht) (Z.land x (sizemask ht))) as [c Hc]; [done|].
  exists c. split; [done|]. by apply mget_Some in Hc as [_ ?].
Qed.

Lemma entry_bucket ht e : ht_real ht -> e ∈ concat (table ht) ->
  exists c, mget (table ht) (Z.land (hash (fst e)) (sizemask ht)) = Some c /\ e ∈ c.
Proof.
  intros Hr (c & Hc & He)%elem_of_concat. apply list_elem_of_lookup in Hc as [i Hi].
  exists c. split; [|done]. rewrite (hr_place ht Hr i c e Hi He). apply mget_Some. split; [lia|by rewrite Nat2Z.id].
Qed.

(** Replacing bucket [i] by entries that belong there. *)
Lemma set_bucket ht i c c' : ht_real ht -> mget (table ht) i = Some c ->
  (forall e, e ∈ c' -> Z.land (hash (fst e)) (sizemask ht) = i) ->
  exists t', mset (table ht) i c' = Some t' /\ t' = <[Z.to_nat i := c']> (table ht) /\
    ht_real {| table := t'; size := size ht; sizemask := sizemask ht;
               used := used ht - zlen c + zlen c' |}.
Proof.
  intros Hr Hg Hplace. pose proof (mget_range _ _ _ Hg) as Hi. rewrite mset_is_Some by done.
  eexists; split; [done|]. split; [done|]. destruct Hr as [Hs Hm Hl Hu Hp]. apply mget_Some in Hg as [_ Hg].
  destruct (concat_bucket _ _ _ Hg) as (A & B & HA & HB).
  split; cbn [table size sizemask used]; [done|done|by rewrite zlen_insert| |].
  - rewrite HB, Hu, HA. zlia.
  - intros j b e Hj He. destruct (decide (j = Z.to_nat i)) as [->|Hne].
    + rewrite list_lookup_insert_eq in Hj by (unfold zlen in *; lia). injection Hj as <-.
      rewrite Hplace by done. lia.
    + rewrite list_lookup_insert_ne in Hj by done. by eapply Hp.
Qed.

Lemma push_spec ht e : ht_real ht ->
  exists ht', push ht (Z.land (hash (fst e)) (sizemask ht)) e = Some ht' /\ ht_real ht' /\
    concat (table ht') ≡ₚ e :: concat (table ht) /\
    size ht' = size ht /\ sizemask ht' = sizemask ht /\ used ht' = used ht + 1.
Proof.
  intros Hr. destruct (bucket_of ht (hash (fst e)) Hr) as (c & Hc & Hl). unfold push. rewrite Hc.
  cbn [mbind option_bind].
  destruct (set_bucket ht _ c (e :: c) Hr Hc) as (t' & Ht & -> & Hr').
  { intros e' [->|He]%elem_of_cons; [done|].
    rewrite (hr_place ht Hr _ c e' Hl He). pose proof (land_mask ht (hash (fst e)) Hr). lia. }
  rewrite Ht. cbn [mbind option_bind]. eexists; split; [done|].
  replace (used ht - zlen c + zlen (e :: c)) with (used ht + 1) in Hr' by zlia.
  split; [done|]. split; [|done]. cbn [table].
  destruct (concat_bucket _ _ _ Hl) as (A & B & -> & ->). cbn [app]. by rewrite <- Permutation_middle.
Qed.

Lemma move_chain_spec c u0 ht : ht_real ht ->
  exists ht', move_chain hash c u0 ht = Some (u0 - zlen c, ht') /\ ht_real ht' /\
    concat (table ht') ≡ₚ c ++ concat (table ht) /\ size ht' = size ht.
Proof.
  revert u0 ht. induction c as [|e c IH]; intros u0 ht Hr; cbn [move_chain].
  - exists ht. rewrite zlen_nil, Z.sub_0_r. done.
  - destruct (push_spec ht e Hr) as (h1 & -> & Hr1 & Hp1 & Hs1 & _). cbn [mbind option_bind].
    destruct (IH (u0 - 1) h1 Hr1) as (h2 & -> & Hr2 & Hp2 & Hs2). exists h2.
    split; [do 2 f_equal; zlia|]. split; [done|]. split; [|congruence].
    rewrite Hp2, Hp1. cbn [app]. by rewrite <- Permutation_middle.
Qed.

(** ** The invariant of the dictionary *)

Definition entries d : list (K * V) := concat (table (ht0 d)) ++ concat (table (ht1 d)).

Record rehashing d : Prop := {
  rh_idx : 0 <= rehashidx d;
  rh_0 : ht_real (ht0 d);
  rh_1 : ht_real (ht1 d);
  rh_done : forall i c, table (ht0 d) !! i = Some c -> Z.of_nat i < rehashidx d -> c = []
}.

Record stable d : Prop := {
  st_idx : rehashidx d = -1;
  st_0 : ht_real (ht0 d) \/ ht0 d = _dictReset;
  st_1 : ht1 d = _dictReset
}.

Definition dict_ok d : Prop := (stable d \/ rehashing d) /\ NoDup (entries d).*1.

Definition dict_repr d (m : gmap K V) : Prop := dict_ok d /\ m = list_to_map (entries d).

Lemma is_rehashing d : stable d \/ rehashing d ->
  (dictIsRehashing d = false /\ stable d) \/ (dictIsRehashing d = true /\ rehashing d).
Proof.
  unfold dictIsRehashing. intros [Hs|Hr]; [left|right]; (split; [|done]).
  - by rewrite (st_idx d Hs).
  - pose proof (rh_idx d Hr). rewrite (proj2 (Z.eqb_neq _ _)) by lia. done.
Qed.

(** ** Rehashing *)

Lemma concat_nonempty (t : list chain) : concat t <> [] ->
  exists i c, t !! i = Some c /\ c <> [].
Proof.
  induction t as [|c t IH]; [done|]. cbn. intros Hne. destruct c as [|e c].
  - destruct (IH Hne) as (i & c & ? & ?). by exists (S i), c.
  - by exists 0%nat, (e :: c).
Qed.

Lemma skip_empty_spec (fuel : nat) t idx visits (j : nat) c :
  0 <= idx <= Z.of_nat j -> t !! j = Some c -> c <> [] -> Z.of_nat j - idx <= Z.of_nat fuel ->
  exists idx' visits' stop, skip_empty fuel t idx visits = Some (idx', visits', stop) /\
    idx <= idx' <= Z.of_nat j /\ (forall i b, t !! i = Some b -> idx <= Z.of_nat i < idx' -> b = []) /\
    if stop then idx < idx' else exists b, mget t idx' = Some b /\ b <> [].
Proof.
  intros Hidx Hj Hc. revert idx visits Hidx. induction fuel as [|fuel IH]; intros idx visits Hidx Hf; cbn [skip_empty].
  - assert (idx = Z.of_nat j) as -> by lia.
    assert (Hg : mget t (Z.of_nat j) = Some c) by (apply mget_Some; split; [lia|by rewrite Nat2Z.id]).
    rewrite Hg. cbn [mbind option_bind]. destruct c as [|e c]; [done|].
    eexists _, _, false. split; [done|]. split; [lia|]. split; [intros; lia|]. by eexists.
  - destruct (mget_is_Some t idx) as [b Hb].
    { apply lookup_lt_Some in Hj. unfold zlen. lia. }
    rewrite Hb. cbn [mbind option_bind]. destruct b as [|e b].
    2:{ eexists _, _, false. split; [done|]. split; [lia|]. split; [intros; lia|]. by eexists. }
    assert (Hne : idx <> Z.of_nat j).
    { intros ->. apply mget_Some in Hb as [_ Hb]. rewrite Nat2Z.id, Hj in Hb. by injection Hb as ->. }
    assert (Hempty : forall i b, t !! i = Some b -> idx <= Z.of_nat i < idx + 1 -> b = []).
    { intros i b Hi Hr. assert (i = Z.to_nat idx) as -> by lia. apply mget_Some in Hb as [_ Hb]. congruence. }
    destruct (visits - 1 =? 0).
    + eexists _, _, true. split; [done|]. split; [lia|]. split; [done|lia].
    + destruct (IH (idx + 1) (visits - 1)) as (idx' & v' & stop & -> & H1 & H2 & H3); [lia..|].
      eexists _, _, _. split; [done|]. split; [lia|]. split.
      * intros i b Hi Hr. destruct (decide (Z.of_nat i < idx + 1)); [by eapply Hempty; eauto; lia|].
        eapply H2; eauto; lia.
      * destruct stop; [lia|done].
Qed.

(** What a rehashing step keeps; it moves [rehashidx] forward. *)
Definition kept d d' : Prop := entries d' ≡ₚ entries d /\ iterators d' = iterators d.

Lemma kept_refl d : kept d d.
Proof. done. Qed.
Lemma kept_trans d1 d2 d3 : kept d1 d2 -> kept d2 d3 -> kept d1 d3.
Proof. intros [H1 I1] [H2 I2]. split; [by rewrite H2|congruence]. Qed.

Lemma rehash_bucket d idx c : rehashing d -> rehashidx d <= idx ->
  (forall i b, table (ht0 d) !! i = Some b -> rehashidx d <= Z.of_nat i < idx -> b = []) ->
  mget (table (ht0 d)) idx = Some c ->
  exists h1 t, move_chain hash c (used (ht0 d)) (ht1 d) = Some (used (ht0 d) - zlen c, h1) /\
    mset (table (ht0 d)) idx [] = Some t /\
    let d' := {| ht0 := {| table := t; size := size (ht0 d); sizemask := sizemask (ht0 d);
                           used := used (ht0 d) - zlen c |};
                 ht1 := h1; rehashidx := idx + 1; iterators := iterators d |} in
    rehashing d' /\ kept d d'.
Proof.
  intros [Hidx H0 H1 Hd] Hle Hskip Hc. pose proof (mget_range _ _ _ Hc).
  destruct (move_chain_spec c (used (ht0 d)) (ht1 d) H1) as (h1 & -> & Hr1 & Hp1 & _).
  destruct (set_bucket (ht0 d) idx c [] H0 Hc) as (t & Ht & Heq & Hr0); [by intros e ?%elem_of_nil|].
  exists h1, t. split; [done|]. split; [done|]. rewrite zlen_nil, Z.add_0_r in Hr0.
  apply mget_Some in Hc as [_ Hc]. split.
  - split; cbn [rehashidx ht0 ht1 table]; [lia|done|done|]. intros i b Hi Hlt. rewrite Heq in Hi.
    destruct (decide (i = Z.to_nat idx)) as [->|Hne].
    + rewrite list_lookup_insert_eq in Hi by (unfold zlen in *; lia). by injection Hi.
    + rewrite list_lookup_insert_ne in Hi by done.
      destruct (decide (Z.of_nat i < rehashidx d)); [by eapply Hd|]. eapply Hskip; [done|lia].
  - split; [|done]. unfold entries. cbn [ht0 ht1 table]. rewrite Hp1, Heq.
    destruct (concat_bucket _ _ _ Hc) as (A & B & -> & ->). cbn [app]. rewrite <- !app_assoc.
    apply Permutation_app_head. rewrite !app_assoc. apply Permutation_app_tail. apply Permutation_app_comm.
Qed.

Lemma rehash_loop_spec n d visits : rehashing d ->
  exists d' stop, rehash_loop hash n d visits = Some (d', stop) /\ rehashing d' /\ kept d d' /\
    rehashidx d <= rehashidx d' /\ size (ht0 d') = size (ht0 d) /\ (stop = true -> used (ht0 d') <> 0) /\
    (n <> O -> used (ht0 d) <> 0 -> rehashidx d < rehashidx d').
Proof.
  revert d visits. induction n as [|n IH]; intros d visits Hr; cbn [rehash_loop].
  { exists d, false. split; [done|]. split; [done|]. split; [done|]. split; [lia|]. by repeat split. }
  destruct (used (ht0 d) =? 0) eqn:E.
  { exists d, false. split; [done|]. split; [done|]. split; [done|]. split; [lia|]. split; [done|]. split; [done|intros; lia]. }
  pose proof Hr as [Hidx H0 H1 Hd].
  destruct (concat_nonempty (table (ht0 d))) as (j & c & Hj & Hc).
  { intros Hnil. pose proof (hr_used _ H0) as Hu. rewrite Hnil, zlen_nil in Hu. lia. }
  assert (Hjd : rehashidx d <= Z.of_nat j).
  { destruct (decide (Z.of_nat j < rehashidx d)); [|lia]. by rewrite (Hd j c Hj) in Hc. }
  pose proof (lookup_lt_Some _ _ _ Hj).
  destruct (skip_empty_spec (length (table (ht0 d))) (table (ht0 d)) (rehashidx d) visits j c)
    as (idx & v' & stop & -> & Hi1 & Hi2 & Hi3); [lia|done|done|lia|]. cbn [mbind option_bind].
  destruct stop.
  - eexists _, true. split; [done|]. split; [|split; [done|cbn; split; [lia|]; split; [done|]; split; [lia|lia]]].
    split; cbn [rehashidx ht0 ht1]; [lia|done|done|]. intros i b Hi Hlt.
    destruct (decide (Z.of_nat i < rehashidx d)); [by eapply Hd|]. eapply Hi2; [done|lia].
  - destruct Hi3 as (b & Hb & Hbne). rewrite Hb. cbn [mbind option_bind].
    destruct (rehash_bucket d idx b Hr ltac:(lia) Hi2 Hb) as (h1 & t & -> & Hset & Hr' & Hk').
    cbn [mbind option_bind]. rewrite Hset. cbn [mbind option_bind]. set (d1 := {| ht0 := _; |}) in *.
    destruct (IH d1 v' Hr') as (d' & stop & -> & Hr2 & Hk2 & Hmono & Hsz & Hst & _).
    exists d', stop. split; [done|]. split; [done|]. split; [by eapply kept_trans|].
    cbn [d1 rehashidx] in Hmono. split; [lia|]. split; [by rewrite Hsz|]. split; [done|lia].
Qed.

Lemma stable_swap d : rehashing d -> used (ht0 d) = 0 ->
  let d' := {| ht0 := ht1 d; ht1 := _dictReset; rehashidx := -1; iterators := iterators d |} in
  stable d' /\ kept d d'.
Proof.
  intros [_ H0 H1 _] Hu. split; [split; cbn; auto|]. split; [|done].
  unfold entries. cbn [ht0 ht1 table _dictReset concat]. rewrite app_nil_r.
  rewrite (hr_used _ H0) in Hu. assert (concat (table (ht0 d)) = []) as ->.
  { destruct (concat (table (ht0 d))); [done|]. exfalso. zlia. }
  done.
Qed.

Lemma rehash_loop_empty n d visits : used (ht0 d) = 0 -> rehash_loop hash n d visits = Some (d, false).
Proof. intros Hu. destruct n; [done|]. cbn [rehash_loop]. by rewrite Hu. Qed.

Lemma rehashing_flag d : rehashing d -> dictIsRehashing d = true.
Proof. intros Hr. unfold dictIsRehashing. pose proof (rh_idx d Hr). by rewrite (proj2 (Z.eqb_neq _ _)) by lia. Qed.

Lemma rehashidx_bound d : rehashing d -> used (ht0 d) <> 0 -> rehashidx d < size (ht0 d).
Proof.
  intros [Hi H0 _ Hd] Hu. destruct (concat_nonempty (table (ht0 d))) as (j & c & Hj & Hc).
  { intros Hnil. rewrite (hr_used _ H0), Hnil in Hu. done. }
  destruct (decide (Z.of_nat j < rehashidx d)) as [Hlt|]; [by rewrite (Hd j c Hj Hlt) in Hc|].
  apply lookup_lt_Some in Hj. rewrite <- (hr_len _ H0). unfold zlen. lia.
Qed.

Lemma dictRehash_spec d (n : nat) : stable d \/ rehashing d ->
  exists d' b, dictRehash hash d n = Some (d', b) /\ (stable d' \/ rehashing d') /\ kept d d' /\
    b = dictIsRehashing d' /\
    (b = true -> size (ht0 d') = size (ht0 d) /\ rehashidx d' < size (ht0 d') /\ (n <> O -> rehashidx d < rehashidx d')).
Proof.
  intros Hok. unfold dictRehash. destruct (is_rehashing d Hok) as [[E Hs]|[E Hr]]; rewrite E; cbn [negb].
  { exists d, false. split; [done|]. split; [by left|]. split; [done|]. by split. }
  destruct (decide (used (ht0 d) = 0)) as [Hz|Hz].
  { rewrite rehash_loop_empty by done. cbn [mbind option_bind]. rewrite Hz. cbn [Z.eqb].
    destruct (stable_swap d Hr Hz) as [Hs Hk]. eexists _, false.
    split; [done|]. split; [by left|]. by split. }
  destruct (rehash_loop_spec n d (Z.of_nat n * 10) Hr) as (d1 & stop & -> & Hr1 & Hk1 & Hm & Hsz & Hst & Hlt).
  cbn [mbind option_bind]. pose proof (rehashing_flag d1 Hr1) as E1.
  destruct (used (ht0 d1) =? 0) eqn:Eu.
  1: destruct stop; [specialize (Hst eq_refl); lia|].
  2:{ assert (Hidx : rehashidx d1 < size (ht0 d1)) by (apply rehashidx_bound; [done|lia]).
      exists d1, true. split; [by destruct stop|]. split; [by right|]. split; [done|]. split; [done|]. auto. }
  destruct (stable_swap d1 Hr1 ltac:(lia)) as [Hs Hk]. eexists _, false. split; [done|].
  split; [by left|]. split; [by eapply kept_trans|]. done.
Qed.

Lemma kept_repr d d' m : stable d' \/ rehashing d' -> kept d d' -> dict_repr d m -> dict_repr d' m.
Proof.
  intros Hok [Hp _] [[_ Hnd] ->]. assert (Hnd' : NoDup (entries d').*1) by (by rewrite Hp).
  split; [by split|]. by apply list_to_map_proper.
Qed.

Lemma rehash_step_spec d m : dict_repr d m ->
  exists d', rehash_step_if hash d = Some d' /\ dict_repr d' m /\ kept d d'.
Proof.
  intros Hr. unfold rehash_step_if, _dictRehashStep. destruct (dictIsRehashing d); [|by exists d].
  destruct (iterators d =? 0); [|by exists d].
  destruct (dictRehash_spec d 1) as (d' & b & -> & Hok & Hk & _); [apply Hr|]. cbn.
  exists d'. split; [done|]. split; [by eapply kept_repr|done].
Qed.

(** ** Growing *)

Lemma next_power_spec (fuel : nat) sz k : 2 <= k <= 62 -> 62 - k <= Z.of_nat fuel -> sz <= 2 ^ 62 ->
  exists k', 2 <= k' <= 62 /\ next_power_loop fuel sz (2 ^ k) = Some (2 ^ k') /\ sz <= 2 ^ k' /\
    (2 ^ k' = 2 ^ k \/ 2 ^ k' < 2 * sz).
Proof.
  revert k. induction fuel as [|fuel IH]; intros k Hk Hf Hs; cbn [next_power_loop].
  - assert (k = 62) as -> by lia. rewrite geb_true by lia. exists 62. split; [lia|]. auto.
  - destruct (2 ^ k >=? sz) eqn:E; [exists k; split; [lia|]; split; [done|]; split; [lia|by left]|].
    assert (Hlt : k < 62) by (destruct (decide (k = 62)) as [->|]; lia).
    assert (Hp : 2 ^ k * 2 = 2 ^ (k + 1)) by (rewrite Z.pow_add_r by lia; lia).
    assert (2 ^ (k + 1) <= 2 ^ 62) by (apply Z.pow_le_mono_r; lia).
    pose proof (Z.pow_pos_nonneg 2 k ltac:(lia) ltac:(lia)).
    rewrite uwrap_small, Hp by lia.
    destruct (IH (k + 1)) as (k' & Hk' & -> & Hs' & Hmin); [lia|lia|done|].
    exists k'. split; [done|]. split; [done|]. split; [done|]. right. lia.
Qed.

Lemma dictNextPower_spec sz : sz <= 2 ^ 62 ->
  exists k, 2 <= k <= 62 /\ _dictNextPower sz = Some (2 ^ k) /\ sz <= 2 ^ k /\ (2 ^ k = 4 \/ 2 ^ k < 2 * sz).
Proof.
  intros Hs. unfold _dictNextPower, LONG_MAX. rewrite geb_false by lia. change DICT_HT_INITIAL_SIZE with (2 ^ 2).
  apply next_power_spec; lia.
Qed.

Lemma fresh_table k : 2 <= k <= 62 ->
  ht_real {| table := replicate (Z.to_nat (2 ^ k)) []; size := 2 ^ k; sizemask := 2 ^ k - 1; used := 0 |} /\
  concat (replicate (Z.to_nat (2 ^ k)) ([] : chain)) = [].
Proof.
  intros Hk. assert (Hc : forall n, concat (replicate n ([] : chain)) = []) by (induction n; done).
  pose proof (Z.pow_pos_nonneg 2 k ltac:(lia) ltac:(lia)).
  split; [|apply Hc]. split; cbn [table size sizemask used]; [exists k; split; [lia|done]|done|zlia|by rewrite Hc|].
  intros i c e [-> _]%lookup_replicate He. by apply elem_of_nil in He.
Qed.

Lemma real_nonempty ht : ht_real ht -> table ht <> [] /\ 0 < size ht.
Proof.
  intros [(k & Hk & Hs) _ Hl _ _]. pose proof (Z.pow_pos_nonneg 2 k ltac:(lia) ltac:(lia)).
  split; [|lia]. intros Hnil. rewrite Hnil, zlen_nil in Hl. lia.
Qed.

(** [dictExpand] keeps the map; it answers an error for a rehash in progress,
    a size too small, or no change. *)
Lemma dictExpand_spec d m sz : dict_repr d m -> sz <= 2 ^ 62 ->
  exists d' b, dictExpand d sz = Some (d', b) /\ dict_repr d' m /\ kept d d' /\
    (b = false -> d' = d) /\
    (dictIsRehashing d = false -> used (ht0 d) <= sz -> size (ht0 d) < sz -> b = true) /\
    (b = true -> ht_real (ht0 d')).
Proof.
  intros Hr Hsz. unfold dictExpand. destruct (dictIsRehashing d || (used (ht0 d) >? sz)) eqn:E.
  { exists d, false. split; [done|]. split; [done|]. split; [done|]. split; [done|]. split; [|done].
    intros Hf ? _. rewrite Hf in E. cbn [orb] in E. lia. }
  apply orb_false_iff in E as [Er Eu].
  destruct (is_rehashing d) as [[_ Hs]|[E _]]; [apply Hr| |congruence].
  destruct (dictNextPower_spec sz Hsz) as (k & Hk & -> & Hle & _). cbn [mbind option_bind].
  destruct (2 ^ k =? size (ht0 d)) eqn:Es.
  { exists d, false. split; [done|]. split; [done|]. split; [done|]. split; [done|]. split; [lia|done]. }
  destruct (fresh_table k Hk) as [Hf Hfc]. destruct Hs as [Hi H0 H1].
  case_bool_decide as Ht.
  - destruct H0 as [H0|H0]; [by apply real_nonempty in H0 as [? _]|].
    eexists _, true. split; [done|].
    assert (Hk' : kept d {| ht0 := {| table := replicate (Z.to_nat (2 ^ k)) []; size := 2 ^ k; sizemask := 2 ^ k - 1; used := 0 |};
        ht1 := ht1 d; rehashidx := rehashidx d; iterators := iterators d |}).
    { split; [|done]. unfold entries. cbn [ht0 ht1 table]. by rewrite Hfc, H0. }
    split; [|split; [done|]; split; [done|]; split; [done|by intros _]].
    eapply kept_repr; [left; split; cbn; auto|exact Hk'|done].
  - destruct H0 as [H0|H0]; [|by rewrite H0 in Ht].
    eexists _, true. split; [done|].
    assert (Hk' : kept d {| ht0 := ht0 d; ht1 := {| table := replicate (Z.to_nat (2 ^ k)) []; size := 2 ^ k; sizemask := 2 ^ k - 1; used := 0 |};
        rehashidx := 0; iterators := iterators d |}).
    { split; [|done]. unfold entries. cbn [ht0 ht1 table]. by rewrite Hfc, H1. }
    split; [|split; [done|]; split; [done|]; split; [done|by intros _]].
    eapply kept_repr; [right; split; cbn; [lia|done|done|intros; lia]|exact Hk'|done].
Qed.

(** ** Searching *)

Lemma chain_find_spec c key pos :
  match chain_find c key pos with
  | Some (p, he) => (pos <= p)%nat /\ c !! (p - pos)%nat = Some he /\ fst he = key
  | None => key ∉ c.*1
  end.
Proof.
  revert pos. induction c as [|e c IH]; intros pos; cbn [chain_find]; [by apply not_elem_of_nil|].
  destruct (decide (key = fst e)) as [->|Hne].
  - split; [lia|]. by rewrite Nat.sub_diag.
  - specialize (IH (S pos)). destruct (chain_find c key (S pos)) as [[p he]|].
    + destruct IH as (Hle & Hl & Hk). split; [lia|]. split; [|done].
      by replace (p - pos)%nat with (S (p - S pos)) by lia.
    + rewrite fmap_cons. by apply not_elem_of_cons.
Qed.

Lemma key_bucket ht key v c : ht_real ht -> mget (table ht) (Z.land (hash key) (sizemask ht)) = Some c ->
  (key, v) ∈ concat (table ht) -> (key, v) ∈ c.
Proof.
  intros Hr Hc He. destruct (entry_bucket ht (key, v) Hr He) as (c' & Hc' & Hin). cbn [fst] in Hc'.
  rewrite Hc in Hc'. by injection Hc' as ->.
Qed.

Lemma bucket_key ht i c e : mget (table ht) i = Some c -> e ∈ c -> e ∈ concat (table ht).
Proof.
  intros [_ Hc]%mget_Some He. apply elem_of_concat. exists c. split; [|done]. by apply list_elem_of_lookup_2 in Hc.
Qed.

Lemma table_find_spec d (b : bool) key : ht_real (ht_of d b) ->
  let idx := Z.land (hash key) (sizemask (ht_of d b)) in
  exists c, mget (table (ht_of d b)) idx = Some c /\
    table_find d b (hash key) key = Some (idx, chain_find c key 0) /\
    match chain_find c key 0 with
    | Some (p, he) => c !! p = Some he /\ fst he = key /\ he ∈ concat (table (ht_of d b))
    | None => key ∉ (concat (table (ht_of d b))).*1
    end.
Proof.
  intros Hr idx. destruct (bucket_of _ (hash key) Hr) as (c & Hc & _). exists c. split; [done|].
  unfold table_find. fold idx in Hc |- *. rewrite Hc. cbn [mbind option_bind]. split; [done|].
  pose proof (chain_find_spec c key 0) as Hf. destruct (chain_find c key 0) as [[p he]|].
  - destruct Hf as (_ & Hl & Hk). rewrite Nat.sub_0_r in Hl. split; [done|]. split; [done|].
    eapply bucket_key; [done|]. by apply list_elem_of_lookup_2 in Hl.
  - intros ([k v] & -> & He)%list_elem_of_fmap. apply Hf. apply list_elem_of_fmap. exists (k, v). cbn.
    split; [done|]. by eapply key_bucket.
Qed.

Lemma repr_lookup d m e : dict_repr d m -> e ∈ entries d -> m !! fst e = Some (snd e).
Proof. intros [[_ Hnd] ->] He. apply elem_of_list_to_map_1; [done|]. by destruct e. Qed.

Lemma repr_lookup_none d m key : dict_repr d m -> key ∉ (entries d).*1 -> m !! key = None.
Proof. intros [_ ->]. apply not_elem_of_list_to_map_1. Qed.

Lemma repr_used d m : dict_repr d m -> dictSize d = Z.of_nat (base.size m) /\
  0 <= used (ht0 d) /\ 0 <= used (ht1 d).
Proof.
  intros [[Hok Hnd] ->]. assert (Hu : forall ht, ht_real ht \/ ht = _dictReset -> used ht = zlen (concat (table ht))).
  { intros ht [Hr| ->]; [by apply hr_used|done]. }
  assert (H0 : used (ht0 d) = zlen (concat (table (ht0 d)))) by (apply Hu; destruct Hok as [[]|[]]; auto).
  assert (H1 : used (ht1 d) = zlen (concat (table (ht1 d)))) by (apply Hu; destruct Hok as [[]|[]]; auto).
  unfold dictSize. rewrite H0, H1. pose_zlen. split; [|lia].
  rewrite <- zlen_app. fold (entries d). rewrite <- length_map_to_list, map_to_list_to_map by done. done.
Qed.

Lemma repr_real d m : dict_repr d m -> dictSize d <> 0 ->
  ht_real (ht0 d) /\ (dictIsRehashing d = true -> ht_real (ht1 d)) /\
  (dictIsRehashing d = false -> concat (table (ht1 d)) = []).
Proof.
  intros [[Hok _] _] Hs. destruct (is_rehashing d Hok) as [[E [_ H0 H1]]|[E [_ H0 H1 _]]].
  - destruct H0 as [H0|H0]; [|unfold dictSize in Hs; by rewrite H0, H1 in Hs]. split; [done|].
    split; [congruence|by rewrite H1].
  - split; [done|]. split; [done|congruence].
Qed.

Lemma kept_size d d' : kept d d' -> forall m, dict_repr d m -> dict_repr d' m -> dictSize d' = dictSize d.
Proof. intros _ m H1 H2. destruct (repr_used _ _ H1) as [-> _]. by destruct (repr_used _ _ H2) as [-> _]. Qed.

Lemma dict_find_spec d m key : dict_repr d m ->
  exists d', dictFind hash d key = Some (d', (fun v => (key, v)) <$> m !! key) /\ dict_repr d' m /\ kept d d'.
Proof.
  intros Hr. unfold dictFind. destruct (repr_used d m Hr) as (Hsz & _ & _). unfold dictSize in Hsz.
  destruct (used (ht0 d) + used (ht1 d) =? 0) eqn:E.
  { exists d. assert (m = ∅) as -> by (apply map_size_empty_inv; lia). by rewrite lookup_empty. }
  destruct (rehash_step_spec d m Hr) as (d1 & -> & Hr1 & Hk1). cbn [mbind option_bind].
  exists d1. pose proof (kept_size d d1 Hk1 m Hr Hr1) as Hsz1. unfold dictSize in Hsz1.
  destruct (repr_real d1 m Hr1) as (R0 & R1 & Rn); [unfold dictSize; lia|].
  destruct (table_find_spec d1 false key R0) as (c & _ & -> & Hf). cbn [mbind option_bind snd].
  assert (Hfound : forall he, fst he = key -> he ∈ entries d1 -> Some he = (fun v => (key, v)) <$> m !! key).
  { intros he <- He. rewrite (repr_lookup d1 m he Hr1 He). by destruct he. }
  destruct (chain_find c key 0) as [[p he]|].
  { split; [|done]. destruct Hf as (_ & Hk & He). do 2 f_equal. apply Hfound; [done|]. apply elem_of_app. by left. }
  destruct (dictIsRehashing d1) eqn:Er; cbn [negb].
  - destruct (table_find_spec d1 true key (R1 eq_refl)) as (c1 & _ & -> & Hf1). cbn [mbind option_bind snd].
    split; [|done]. do 2 f_equal. destruct (chain_find c1 key 0) as [[p he]|]; cbn.
    + destruct Hf1 as (_ & Hk & He). apply Hfound; [done|]. apply elem_of_app. by right.
    + rewrite (repr_lookup_none d1 m key Hr1); [done|]. unfold entries. rewrite fmap_app, elem_of_app. tauto.
  - split; [|done]. rewrite (repr_lookup_none d1 m key Hr1); [done|].
    unfold entries. by rewrite (Rn eq_refl), app_nil_r.
Qed.

(** ** Changing one bucket *)

Lemma reset_not_real : ~ ht_real _dictReset.
Proof. intros Hr. by apply real_nonempty in Hr as [? _]. Qed.

Lemma bucket_update d (b : bool) i c c' u : stable d \/ rehashing d -> ht_real (ht_of d b) ->
  mget (table (ht_of d b)) i = Some c ->
  (forall e, e ∈ c' -> Z.land (hash (fst e)) (sizemask (ht_of d b)) = i) ->
  (c = [] -> c' = [] \/ b = dictIsRehashing d) -> u = used (ht_of d b) - zlen c + zlen c' ->
  exists t', mset (table (ht_of d b)) i c' = Some t' /\
    let d' := with_ht d b {| table := t'; size := size (ht_of d b); sizemask := sizemask (ht_of d b); used := u |} in
    (stable d' \/ rehashing d') /\ dictIsRehashing d' = dictIsRehashing d /\
    table (ht_of d' b) = t' /\ ht_real (ht_of d' b) /\
    exists A B, entries d = A ++ c ++ B /\ entries d' = A ++ c' ++ B.
Proof.
  intros Hok Hr Hc Hplace Hemp ->.
  destruct (set_bucket _ i c c' Hr Hc Hplace) as (t' & Ht & Heq & Hr').
  exists t'. split; [done|]. cbn zeta. pose proof (mget_range _ _ _ Hc) as Hrange.
  apply mget_Some in Hc as [_ Hc]. destruct (concat_bucket _ _ _ Hc) as (A & B & HA & HB).
  destruct b; cbn [ht_of with_ht] in *.
  - destruct Hok as [[_ _ H1]|[Hi H0 H1 Hd]]; [rewrite H1 in Hr; by apply reset_not_real in Hr|].
    split; [right; by split|]. split; [done|]. split; [done|]. split; [done|].
    exists (concat (table (ht0 d)) ++ A), B. unfold entries. cbn [ht0 ht1 table].
    by rewrite HA, Heq, HB, <- !app_assoc.
  - split; [|split; [done|]; split; [done|]; split; [done|]].
    + destruct Hok as [[Hi H0 H1]|[Hi H0 H1 Hd]]; [left; split; cbn; auto|right].
      split; cbn [rehashidx ht0 ht1 table]; [done|done|done|]. intros j b0 Hj Hlt. rewrite Heq in Hj.
      destruct (decide (j = Z.to_nat i)) as [->|Hne]; [|rewrite list_lookup_insert_ne in Hj by done; by eapply Hd].
      rewrite list_lookup_insert_eq in Hj by (unfold zlen in *; lia). injection Hj as <-.
      destruct (Hemp (Hd _ _ Hc Hlt)) as [->|Hb]; [done|].
      rewrite (rehashing_flag d) in Hb by (by split). done.
    + exists A, (B ++ concat (table (ht1 d))). unfold entries. cbn [ht0 ht1 table].
      by rewrite HA, Heq, HB, <- !app_assoc.
Qed.

(** What an entry pointer points to. *)
Definition loc_at d (e : loc) (he : K * V) : Prop :=
  ht_real (ht_of d (l_table e)) /\
  exists c, mget (table (ht_of d (l_table e))) (l_idx e) = Some c /\ c !! l_pos e = Some he.

Lemma repr_insert d' m A B key v : (stable d' \/ rehashing d') ->
  entries d' = A ++ (key, v) :: B -> NoDup (A ++ B).*1 -> key ∉ (A ++ B).*1 -> m = list_to_map (A ++ B) ->
  dict_repr d' (<[key := v]> m).
Proof.
  intros Hok He Hnd Hni ->. assert (Hp : entries d' ≡ₚ (key, v) :: A ++ B) by (rewrite He; symmetry; apply Permutation_middle).
  assert (Hnd' : NoDup (entries d').*1) by (rewrite Hp; cbn; by constructor).
  split; [by split|]. rewrite (list_to_map_proper (M := gmap K) _ _ Hnd' Hp). done.
Qed.

Lemma dictSetVal_spec d m e key v0 v : dict_repr d m -> loc_at d e (key, v0) ->
  exists d', dictSetVal d e v = Some d' /\ dict_repr d' (<[key := v]> m).
Proof.
  intros [[Hok Hnd] Hm] (Hr & c & Hc & Hl). unfold dictSetVal. rewrite Hc. cbn [mbind option_bind]. rewrite Hl.
  cbn [mbind option_bind fst]. set (c' := <[l_pos e := (key, v)]> c).
  assert (Hplace : forall x, x ∈ c' -> Z.land (hash (fst x)) (sizemask (ht_of d (l_table e))) = l_idx e).
  { pose proof Hc as [Hi Hct]%mget_Some. intros x Hx.
    assert (Hin : forall y, y ∈ c -> Z.land (hash (fst y)) (sizemask (ht_of d (l_table e))) = l_idx e).
    { intros y Hy. rewrite (hr_place _ Hr _ c y Hct Hy). lia. }
    apply list_elem_of_lookup in Hx as [j Hj]. unfold c' in Hj. destruct (decide (j = l_pos e)) as [->|Hne].
    - rewrite list_lookup_insert_eq in Hj by (by eapply lookup_lt_Some). injection Hj as <-.
      apply (Hin (key, v0)). by eapply list_elem_of_lookup_2.
    - rewrite list_lookup_insert_ne in Hj by done. apply Hin. by eapply list_elem_of_lookup_2. }
  destruct (bucket_update d (l_table e) (l_idx e) c c' (used (ht_of d (l_table e))) Hok Hr Hc Hplace)
    as (t' & Ht & Hok' & _ & _ & _ & A & B & HA & HB).
  { intros ->. by rewrite lookup_nil in Hl. }
  { unfold c'. rewrite zlen_insert. lia. }
  rewrite Ht. cbn [mbind option_bind]. eexists; split; [done|].
  assert (Hcm : c = take (l_pos e) c ++ (key, v0) :: drop (S (l_pos e)) c) by (symmetry; by apply take_drop_middle).
  assert (Hcm' : c' = take (l_pos e) c ++ (key, v) :: drop (S (l_pos e)) c)
    by (apply insert_take_drop; by eapply lookup_lt_Some).
  set (X := A ++ take (l_pos e) c). set (Y := drop (S (l_pos e)) c ++ B).
  assert (HX : entries d = X ++ (key, v0) :: Y) by (unfold X, Y; rewrite HA, Hcm at 1; by rewrite <- !app_assoc).
  assert (HY : entries (with_ht d (l_table e) {| table := t'; size := size (ht_of d (l_table e));
    sizemask := sizemask (ht_of d (l_table e)); used := used (ht_of d (l_table e)) |}) = X ++ (key, v) :: Y)
    by (unfold X, Y; rewrite HB, Hcm'; by rewrite <- !app_assoc).
  assert (Hp : entries d ≡ₚ (key, v0) :: X ++ Y) by (rewrite HX; symmetry; apply Permutation_middle).
  assert (Hnd2 := Hnd). rewrite Hp in Hnd2. cbn in Hnd2. apply NoDup_cons in Hnd2 as [Hni Hnd2].
  replace (<[key:=v]> m) with (<[key:=v]> (list_to_map (X ++ Y) : gmap K V)).
  - eapply repr_insert; [exact Hok'|exact HY|done|done|done].
  - subst m. rewrite (list_to_map_proper (M := gmap K) _ _ Hnd Hp). cbn. by rewrite insert_insert_eq.
Qed.

(** ** Adding *)

Lemma expand_if_needed_spec can d m : dict_repr d m -> Z.of_nat (base.size m) < 2 ^ 60 ->
  exists d', _dictExpandIfNeeded can d = Some (d', true) /\ dict_repr d' m /\ kept d d' /\ ht_real (ht0 d').
Proof.
  intros Hr Hsz. unfold _dictExpandIfNeeded. destruct (repr_used d m Hr) as (Hs & H0 & H1). unfold dictSize in Hs.
  destruct (is_rehashing d) as [[E [Hi Ht0 Ht1]]|[E Hrh]]; [apply Hr| |]; rewrite E.
  2:{ exists d. split; [done|]. split; [done|]. split; [done|]. apply Hrh. }
  destruct (size (ht0 d) =? 0) eqn:Es.
  - assert (ht0 d = _dictReset) as Hz.
    { destruct Ht0 as [Hx|]; [|done]. apply real_nonempty in Hx as [_ ?]. lia. }
    destruct (dictExpand_spec d m DICT_HT_INITIAL_SIZE Hr ltac:(done)) as (d' & b & -> & Hr' & Hk & _ & Hb & Hreal).
    assert (b = true) as -> by (apply Hb; [done|by rewrite Hz|by rewrite Hz]).
    exists d'. split; [done|]. split; [done|]. split; [done|]. by apply Hreal.
  - destruct Ht0 as [Hx|Hz]; [|by rewrite Hz in Es]. pose proof (real_nonempty _ Hx) as [_ Hpos].
    destruct ((used (ht0 d) >=? size (ht0 d)) && _) eqn:Ec; [|by exists d].
    apply andb_true_iff in Ec as [Ec _]. apply Z.geb_le in Ec. rewrite uwrap_small by lia.
    destruct (dictExpand_spec d m (used (ht0 d) * 2) Hr ltac:(lia)) as (d' & b & -> & Hr' & Hk & _ & Hb & Hreal).
    assert (b = true) as -> by (apply Hb; [done|lia|lia]).
    exists d'. split; [done|]. split; [done|]. split; [done|]. by apply Hreal.
Qed.

Lemma key_index_spec can d m key : dict_repr d m -> Z.of_nat (base.size m) < 2 ^ 60 ->
  exists d' r, _dictKeyIndex can d key (hash key) = Some (d', r) /\ dict_repr d' m /\
    match m !! key with
    | Some v => exists e, r = inl (Some e) /\ loc_at d' e (key, v)
    | None => (key ∉ (entries d').*1) /\ ht_real (ht_of d' (dictIsRehashing d')) /\
        r = inr (Z.land (hash key) (sizemask (ht_of d' (dictIsRehashing d'))))
    end.
Proof.
  intros Hr Hsz. unfold _dictKeyIndex. destruct (expand_if_needed_spec can d m Hr Hsz) as (d1 & -> & Hr1 & _ & R0).
  cbn [mbind option_bind negb]. exists d1.
  destruct (table_find_spec d1 false key R0) as (c & Hc & -> & Hf). cbn [mbind option_bind].
  assert (Hfound : forall (b : bool) c p he, ht_real (ht_of d1 b) ->
    mget (table (ht_of d1 b)) (Z.land (hash key) (sizemask (ht_of d1 b))) = Some c ->
    c !! p = Some he -> fst he = key -> he ∈ concat (table (ht_of d1 b)) ->
    exists v, m !! key = Some v /\
      loc_at d1 {| l_table := b; l_idx := Z.land (hash key) (sizemask (ht_of d1 b)); l_pos := p |} (key, v)).
  { intros b c0 p he Hrl Hc0 Hp Hk Hin. exists (snd he). split.
    - rewrite <- Hk. eapply repr_lookup; [done|]. apply elem_of_app. destruct b; [by right|by left].
    - split; [done|]. cbn [l_table l_idx l_pos]. exists c0. split; [done|]. rewrite Hp. subst key. by destruct he. }
  destruct (chain_find c key 0) as [[p he]|].
  { destruct Hf as (Hp & Hk & Hin). destruct (Hfound false c p he R0 Hc Hp Hk Hin) as (v & -> & Hl).
    eexists; split; [done|]. split; [done|]. by eexists. }
  destruct (is_rehashing d1) as [[Er Hst]|[Er Hrh]]; [apply Hr1| |]; rewrite Er; cbn [negb].
  - eexists; split; [done|]. split; [done|]. assert (Hni : key ∉ (entries d1).*1).
    { unfold entries. rewrite (st_1 _ Hst). cbn [table _dictReset concat]. by rewrite app_nil_r. }
    rewrite (repr_lookup_none d1 m key Hr1 Hni). split; [done|]. by split.
  - pose proof (rh_1 _ Hrh) as R1.
    destruct (table_find_spec d1 true key R1) as (c1 & Hc1 & -> & Hf1). cbn [mbind option_bind].
    destruct (chain_find c1 key 0) as [[p he]|].
    + destruct Hf1 as (Hp & Hk & Hin). destruct (Hfound true c1 p he R1 Hc1 Hp Hk Hin) as (v & -> & Hl).
      eexists; split; [done|]. split; [done|]. by eexists.
    + eexists; split; [done|]. split; [done|]. assert (Hni : key ∉ (entries d1).*1).
      { unfold entries. rewrite fmap_app, elem_of_app. tauto. }
      rewrite (repr_lookup_none d1 m key Hr1 Hni). split; [done|]. by split.
Qed.

Lemma dictAddRaw_spec can d m key : dict_repr d m -> Z.of_nat (base.size m) < 2 ^ 60 ->
  exists d' r, dictAddRaw hash uninit can d key = Some (d', r) /\
    match m !! key with
    | Some v => exists e, r = inl (Some e) /\ dict_repr d' m /\ loc_at d' e (key, v)
    | None => exists e, r = inr e /\ dict_repr d' (<[key := uninit]> m) /\ loc_at d' e (key, uninit)
    end.
Proof.
  intros Hr Hsz. unfold dictAddRaw. destruct (rehash_step_spec d m Hr) as (d1 & -> & Hr1 & _). cbn [mbind option_bind].
  destruct (key_index_spec can d1 m key Hr1 Hsz) as (d2 & r & -> & Hr2 & Hcase). cbn [mbind option_bind].
  destruct (m !! key) as [v|] eqn:Em.
  { destruct Hcase as (e & -> & Hl). eexists _, _. split; [done|]. by exists e. }
  destruct Hcase as (Hni & Hreal & ->). set (b := dictIsRehashing d2) in *.
  set (i := Z.land (hash key) (sizemask (ht_of d2 b))).
  destruct (bucket_of (ht_of d2 b) (hash key) Hreal) as (c & Hc & Hct). fold i in Hc, Hct.
  pose proof Hr2 as [[Hok Hnd] Hm].
  destruct (bucket_update d2 b i c ((key, uninit) :: c) (used (ht_of d2 b) + 1) Hok Hreal Hc)
    as (t' & Ht & Hok' & _ & Htab & Hreal' & A & B & HA & HB).
  { intros e [->|He]%elem_of_cons; [done|]. rewrite (hr_place _ Hreal _ c e Hct He).
    pose proof (land_mask _ (hash key) Hreal). unfold i. lia. }
  { intros. by right. }
  { zlia. }
  unfold push. rewrite Hc. cbn [mbind option_bind]. rewrite Ht. cbn [mbind option_bind].
  eexists _, _. split; [done|]. eexists. split; [done|]. split.
  - rewrite Hm. apply (repr_insert _ _ A (c ++ B)); [exact Hok'|exact HB| | |]; by rewrite <- HA.
  - split; cbn [l_table l_idx l_pos]; [exact Hreal'|]. exists ((key, uninit) :: c). split; [|done].
    rewrite Htab. pose proof (mget_range _ _ _ Hc). rewrite mset_is_Some in Ht by done. injection Ht as <-.
    apply mget_Some. split; [lia|]. apply list_lookup_insert_eq. unfold zlen in *. lia.
Qed.

Lemma dict_add_spec can d m key v : dict_repr d m -> Z.of_nat (base.size m) < 2 ^ 60 ->
  exists d', dictAdd hash uninit can d key v = Some (d', bool_decide (m !! key = None)) /\
    dict_repr d' (if decide (m !! key = None) then <[key := v]> m else m).
Proof.
  intros Hr Hsz. unfold dictAdd. destruct (dictAddRaw_spec can d m key Hr Hsz) as (d1 & r & -> & Hcase).
  cbn [mbind option_bind]. destruct (m !! key) as [v0|] eqn:Em.
  - destruct Hcase as (e & -> & Hr1 & _). exists d1. by rewrite bool_decide_false, decide_False.
  - destruct Hcase as (e & -> & Hr1 & Hl).
    destruct (dictSetVal_spec d1 _ e key uninit v Hr1 Hl) as (d2 & -> & Hr2). cbn [mbind option_bind].
    exists d2. rewrite bool_decide_true, decide_True by done. split; [done|]. by rewrite insert_insert_eq in Hr2.
Qed.

Lemma replace_spec can d m key v : dict_repr d m -> Z.of_nat (base.size m) < 2 ^ 60 ->
  exists d', dictReplace hash uninit can d key v = Some (d', bool_decide (m !! key = None)) /\
    dict_repr d' (<[key := v]> m).
Proof.
  intros Hr Hsz. unfold dictReplace. destruct (dictAddRaw_spec can d m key Hr Hsz) as (d1 & r & -> & Hcase).
  cbn [mbind option_bind]. destruct (m !! key) as [v0|] eqn:Em.
  - destruct Hcase as (e & -> & Hr1 & Hl).
    destruct (dictSetVal_spec d1 _ e key v0 v Hr1 Hl) as (d2 & -> & Hr2). cbn [mbind option_bind].
    exists d2. by rewrite bool_decide_false.
  - destruct Hcase as (e & -> & Hr1 & Hl).
    destruct (dictSetVal_spec d1 _ e key uninit v Hr1 Hl) as (d2 & -> & Hr2). cbn [mbind option_bind].
    exists d2. rewrite bool_decide_true by done. split; [done|]. by rewrite insert_insert_eq in Hr2.
Qed.

(** ** Deleting *)

Lemma chain_unlink_spec c key :
  match chain_unlink c key with
  | Some (he, c') => fst he = key /\ exists c1 c2, c = c1 ++ he :: c2 /\ c' = c1 ++ c2
  | None => key ∉ c.*1
  end.
Proof.
  induction c as [|e c IH]; cbn [chain_unlink]; [by apply not_elem_of_nil|].
  destruct (decide (key = fst e)) as [->|Hne].
  - split; [done|]. by exists [], c.
  - destruct (chain_unlink c key) as [[he c']|]; cbn [mbind option_bind fst snd].
    + destruct IH as (Hk & c1 & c2 & -> & ->). split; [done|]. by exists (e :: c1), c2.
    + rewrite fmap_cons. by apply not_elem_of_cons.
Qed.

Lemma table_unlink_spec d m (b : bool) key : dict_repr d m -> ht_real (ht_of d b) ->
  exists r, table_unlink (ht_of d b) (hash key) key = Some r /\
    match r with
    | Some (he, ht) => m !! key = Some (snd he) /\ fst he = key /\ dict_repr (with_ht d b ht) (delete key m)
    | None => key ∉ (concat (table (ht_of d b))).*1
    end.
Proof.
  intros [[Hok Hnd] Hm] Hr. unfold table_unlink. set (i := Z.land (hash key) (sizemask (ht_of d b))).
  destruct (bucket_of _ (hash key) Hr) as (c & Hc & Hct). fold i in Hc, Hct. rewrite Hc. cbn [mbind option_bind].
  pose proof (chain_unlink_spec c key) as Hu. destruct (chain_unlink c key) as [[he c']|].
  2:{ eexists; split; [done|]. intros ([k v] & Hk & He)%list_elem_of_fmap. cbn in Hk. subst k.
      apply Hu. apply list_elem_of_fmap. exists (key, v). split; [done|]. by eapply key_bucket. }
  destruct Hu as (Hk & c1 & c2 & Hc1 & Hc2).
  destruct (bucket_update d b i c c' (used (ht_of d b) - 1) Hok Hr Hc) as (t' & -> & Hok' & _ & _ & _ & A & B & HA & HB).
  { intros e He. assert (Hin : e ∈ c) by (subst c c'; apply elem_of_app in He; apply elem_of_app; rewrite elem_of_cons; tauto).
    rewrite (hr_place _ Hr _ c e Hct Hin). pose proof (land_mask _ (hash key) Hr). unfold i. lia. }
  { intros ->. by destruct c1. }
  { subst c c'. zlia. }
  cbn [mbind option_bind]. eexists; split; [done|].
  assert (Hp : entries d ≡ₚ he :: A ++ (c1 ++ c2) ++ B).
  { rewrite HA, Hc1, <- !app_assoc. cbn [app].
    rewrite (app_assoc A c1 (he :: c2 ++ B)), (app_assoc A c1 (c2 ++ B)). symmetry. apply Permutation_middle. }
  assert (Hnd2 := Hnd). rewrite Hp in Hnd2. cbn in Hnd2. apply NoDup_cons in Hnd2 as [Hni Hnd2].
  rewrite Hk in Hni. split; [|split; [done|]].
  - rewrite Hm. rewrite <- Hk. apply elem_of_list_to_map_1; [done|]. rewrite <- surjective_pairing, Hp. by constructor.
  - rewrite Hc2 in HB. split; [split; [exact Hok'|by rewrite HB]|]. rewrite HB, Hm.
    rewrite (list_to_map_proper (M := gmap K) _ _ Hnd Hp). destruct he as [k v]. cbn in Hk |- *. subst k.
    rewrite delete_insert_eq. apply delete_id. by apply not_elem_of_list_to_map_1.
Qed.

Lemma delete_spec d m key : dict_repr d m ->
  exists d', dictGenericDelete hash d key = Some (d', (fun v => (key, v)) <$> m !! key) /\
    dict_repr d' (delete key m).
Proof.
  intros Hr. unfold dictGenericDelete. destruct (repr_used d m Hr) as (Hsz & Hu0 & Hu1). unfold dictSize in Hsz.
  destruct ((used (ht0 d) =? 0) && (used (ht1 d) =? 0)) eqn:E.
  { exists d. assert (m = ∅) as -> by (apply map_size_empty_inv; lia). by rewrite lookup_empty, delete_empty. }
  destruct (rehash_step_spec d m Hr) as (d1 & -> & Hr1 & Hk1). cbn [mbind option_bind].
  pose proof (kept_size d d1 Hk1 m Hr Hr1) as Hsz1. unfold dictSize in Hsz1.
  destruct (repr_real d1 m Hr1) as (R0 & R1 & Rn); [unfold dictSize; lia|].
  assert (Hnone : key ∉ (entries d1).*1 ->
    (fun v => (key, v)) <$> m !! key = None /\ dict_repr d1 (delete key m)).
  { intros Hni. pose proof (repr_lookup_none d1 m key Hr1 Hni) as Hn. rewrite Hn. split; [done|]. by rewrite delete_id. }
  destruct (table_unlink_spec d1 m false key Hr1 R0) as (r & Hunl & Hcase). cbn [ht_of] in Hunl. rewrite Hunl.
  cbn [mbind option_bind]. destruct r as [[he ht]|].
  { destruct Hcase as (-> & Hk & Hr'). eexists; split; [|done]. subst key. by destruct he. }
  destruct (dictIsRehashing d1) eqn:Er; cbn [negb].
  - destruct (table_unlink_spec d1 m true key Hr1 (R1 eq_refl)) as (r1 & Hunl1 & Hcase1). cbn [ht_of] in Hunl1.
    rewrite Hunl1. cbn [mbind option_bind]. destruct r1 as [[he ht]|].
    + destruct Hcase1 as (-> & Hk & Hr'). eexists; split; [|done]. subst key. by destruct he.
    + exists d1. destruct Hnone as [-> ?]; [|done]. unfold entries. rewrite fmap_app, elem_of_app. tauto.
  - exists d1. destruct Hnone as [-> ?]; [|done]. unfold entries. by rewrite (Rn eq_refl), app_nil_r.
Qed.

(** ** The contract *)

(** [C17] [dictAdd] inserts a key that is not there and answers an error, leaving
    the map alone, for one that is; [dictReplace] always stores the value and
    says whether the key is new.  Both do so in the middle of a rehash, start
    one when the table is full, and never touch a bucket out of range. *)
Theorem dictAdd_refines (dict_can_resize : bool) (d : dict K V) (m : gmap K V) (key : K) (val : V)
    (Hr : dict_repr d m) (Hsz : Z.of_nat (base.size m) < 2 ^ 60) :
  (exists d', dictAdd hash uninit dict_can_resize d key val = Some (d', bool_decide (m !! key = None)) /\
     dict_repr d' (if decide (m !! key = None) then <[key := val]> m else m)) /\
  (exists d', dictReplace hash uninit dict_can_resize d key val = Some (d', bool_decide (m !! key = None)) /\
     dict_repr d' (<[key := val]> m)).
Proof. split; [by apply dict_add_spec|by apply replace_spec]. Qed.

(** [dictFind] and [dictFetchValue] answer what the map holds under the key;
    the rehashing step they may perform does not change the map. *)
Theorem dictFind_refines (d : dict K V) (m : gmap K V) (key : K) (Hr : dict_repr d m) :
  exists d', dictFind hash d key = Some (d', (fun v => (key, v)) <$> m !! key) /\
    dictFetchValue hash d key = Some (d', m !! key) /\ dict_repr d' m.
Proof.
  destruct (dict_find_spec d m key Hr) as (d' & Hf & Hr' & _). exists d'. split; [done|]. split; [|done].
  unfold dictFetchValue. rewrite Hf. cbn. by destruct (m !! key).
Qed.

(** [C18] [dictDelete] and [dictUnlink] remove exactly the entry of the key, from
    whichever table holds it, and report whether there was one. *)
Theorem dictDelete_refines (d : dict K V) (m : gmap K V) (key : K) (Hr : dict_repr d m) :
  exists d', dictUnlink hash d key = Some (d', (fun v => (key, v)) <$> m !! key) /\
    dictDelete hash d key = Some (d', bool_decide (is_Some (m !! key))) /\ dict_repr d' (delete key m).
Proof.
  destruct (delete_spec d m key Hr) as (d' & Hd & Hr'). exists d'. unfold dictUnlink, dictDelete. rewrite Hd.
  cbn [mbind option_bind fst snd]. split; [done|]. split; [|done]. do 2 f_equal.
  apply bool_decide_ext. by destruct (m !! key); cbn; rewrite is_Some_alt.
Qed.

(** Calls of [dictRehash d 1] until it answers 0. *)
Fixpoint rehash_all (fuel : nat) d : option (dict K V) :=
  match fuel with
  | O => None
  | S fuel =>
      r ← dictRehash hash d 1;
      let '(d, more) := r in
      if more : bool then rehash_all fuel d else Some d
  end.

Lemma rehash_all_spec (fuel : nat) d m : dict_repr d m -> (1 <= fuel)%nat -> size (ht0 d) - rehashidx d <= Z.of_nat fuel ->
  exists d', rehash_all fuel d = Some d' /\ dict_repr d' m /\ dictIsRehashing d' = false.
Proof.
  revert d. induction fuel as [|fuel IH]; intros d Hr Hf Hm; [lia|]. cbn [rehash_all].
  destruct (dictRehash_spec d 1) as (d1 & b & -> & Hok & Hk & -> & Hprog); [apply Hr|]. cbn [mbind option_bind].
  pose proof (kept_repr d d1 m Hok Hk Hr) as Hr1. destruct (dictIsRehashing d1) eqn:E; [|by exists d1].
  destruct (Hprog eq_refl) as (Hs & Hlt & Hgt). specialize (Hgt ltac:(done)). apply IH; [done|lia|lia].
Qed.

(** [C20] A call of [dictRehash] keeps the map and answers whether a rehash is
    still in progress, for every number of steps; calls of one step end the
    rehash after at most as many calls as the old table has buckets: the call
    that moves the last chain finds the old table empty and is the one that ends
    it. *)
Theorem dictRehash_terminates (d : dict K V) (m : gmap K V) (n : nat) (Hr : dict_repr d m) :
  (exists d', dictRehash hash d n = Some (d', dictIsRehashing d') /\ dict_repr d' m) /\
  (dictIsRehashing d = true -> exists d', rehash_all (Z.to_nat (size (ht0 d))) d = Some d' /\ dict_repr d' m /\ dictIsRehashing d' = false).
Proof.
  split.
  - destruct (dictRehash_spec d n) as (d1 & b & -> & Hok & Hk & -> & _); [apply Hr|].
    exists d1. split; [done|]. by eapply kept_repr.
  - intros Hre. destruct (is_rehashing d) as [[Hn _]|[_ [Hi H0 _ _]]]; [apply Hr|congruence|]. destruct (hr_size _ H0) as (k & Hk & Hs). pose proof (Z.pow_pos_nonneg 2 k).
    apply rehash_all_spec; [done|lia|lia].
Qed.

(** [dictExpand] and [dictResize] keep the map; [dictExpand] answers an
    error and changes nothing during a rehash or when the elements would not
    fit, and grows whenever it is asked for more buckets than there are. *)
Theorem dictExpand_refines (dict_can_resize : bool) (d : dict K V) (m : gmap K V) (sz : Z) (Hr : dict_repr d m) (Hsz : sz <= 2 ^ 62) :
  (exists d' b, dictExpand d sz = Some (d', b) /\ dict_repr d' m /\ (b = false -> d' = d) /\
     (dictIsRehashing d = true \/ sz < used (ht0 d) -> b = false) /\
     (dictIsRehashing d = false -> used (ht0 d) <= sz -> size (ht0 d) < sz -> b = true)) /\
  (exists d' b, dictResize dict_can_resize d = Some (d', b) /\ dict_repr d' m /\ (dict_can_resize = false -> d' = d)).
Proof.
  split.
  - destruct (dictExpand_spec d m sz Hr Hsz) as (d1 & b & He & Hr1 & _ & Hb & Hg & _). exists d1, b.
    split; [done|]. split; [done|]. split; [done|]. split; [|done]. intros Hc.
    assert (Hcond : dictIsRehashing d || (used (ht0 d) >? sz) = true).
    { destruct Hc as [->|Hc]; [done|]. rewrite gtb_true by lia. apply orb_true_r. }
    unfold dictExpand in He. rewrite Hcond in He. by injection He.
  - unfold dictResize. destruct (negb dict_can_resize || dictIsRehashing d) eqn:E; [by exists d, false|].
    set (mn := if _ <? _ then _ else _). assert (Hmn : mn <= 2 ^ 62).
    { unfold mn, DICT_HT_INITIAL_SIZE. pose proof (swrap_range 32 (used (ht0 d)) ltac:(lia)) as Hw.
      unfold in_s in Hw. destruct (_ <? _); lia. }
    destruct (dictExpand_spec d m mn Hr Hmn) as (d1 & b & He & Hr1 & _). exists d1, b.
    split; [done|]. split; [done|]. intros ->. done.
Qed.

Lemma init_repr : dict_repr _dictInit (∅ : gmap K V).
Proof. split; [|done]. split; [left; split; auto|constructor]. Qed.

Lemma empty_repr d : dict_repr (dictEmpty d) (∅ : gmap K V).
Proof. split; [|done]. split; [left; split; auto|constructor]. Qed.
End Refine.

(** ** A table in the middle of a rehash *)

Definition ex_hash (k : Z) : Z := u64 (k * 7).

Fixpoint ex_adds (n : nat) (d : dict Z Z) (k : Z) : option (dict Z Z) :=
  match n with
  | O => Some d
  | S n => r ← dictAdd ex_hash 0 true d k (k * 100); ex_adds n (fst r) (k + 1)
  end.

Definition ex_dict : dict Z Z := default _dictInit (ex_adds 5 _dictInit 1).
Definition ex_map : gmap Z Z := {[1 := 100; 2 := 200; 3 := 300; 4 := 400; 5 := 500]}.

Lemma ex_dict_repr : dict_repr ex_hash ex_dict ex_map.
Proof.
  assert (Hall : forall n d (m : gmap Z Z) k, dict_repr ex_hash d m -> Z.of_nat (base.size m) + Z.of_nat n < 2 ^ 60 ->
    exists d', ex_adds n d k = Some d' /\ dict_repr ex_hash d'
      (fold_left (fun m i => if decide (m !! i = None) then <[i := i * 100]> m else m) (seqZ k (Z.of_nat n)) m)).
  { induction n as [|n IH]; intros d m k Hr Hs; [by exists d|]. cbn [ex_adds].
    destruct (dict_add_spec ex_hash 0 true d m k (k * 100) Hr ltac:(lia)) as (d1 & -> & Hr1). cbn [mbind option_bind fst].
    rewrite seqZ_cons by lia. cbn [fold_left]. replace (Z.pred (Z.of_nat (S n))) with (Z.of_nat n) by lia.
    apply IH; [done|]. destruct (decide (m !! k = None)) as [Hk|]; [|lia]. rewrite map_size_insert, Hk. lia. }
  destruct (Hall 5%nat _dictInit ∅ 1 (init_repr ex_hash) ltac:(done)) as (d' & Hd & Hr).
  unfold ex_dict. rewrite Hd. exact Hr.
Defined.

Lemma dictAdd_witness :
  exists d', dictReplace ex_hash 0 true ex_dict 3 7 = Some (d', false) /\ dict_repr ex_hash d' (<[3 := 7]> ex_map).
Proof. exact (proj2 (dictAdd_refines ex_hash 0 true ex_dict ex_map 3 7 ex_dict_repr ltac:(by vm_compute))). Defined.

Lemma dictFind_witness :
  exists d', dictFind ex_hash ex_dict 4 = Some (d', Some (4, 400)) /\
    dictFetchValue ex_hash ex_dict 4 = Some (d', Some 400) /\ dict_repr ex_hash d' ex_map.
Proof. exact (dictFind_refines ex_hash ex_dict ex_map 4 ex_dict_repr). Defined.

Lemma dictDelete_witness :
  exists d', dictUnlink ex_hash ex_dict 9 = Some (d', None) /\
    dictDelete ex_hash ex_dict 9 = Some (d', false) /\ dict_repr ex_hash d' (delete 9 ex_map).
Proof. exact (dictDelete_refines ex_hash ex_dict ex_map 9 ex_dict_repr). Defined.

Lemma dictRehash_witness :
  dictIsRehashing ex_dict = true /\
  exists d', rehash_all ex_hash 4 ex_dict = Some d' /\ dict_repr ex_hash d' ex_map /\ dictIsRehashing d' = false.
Proof. split; [by vm_compute|]. exact (proj2 (dictRehash_terminates ex_hash ex_dict ex_map 1 ex_dict_repr) ltac:(by vm_compute)). Defined.

Lemma dictExpand_witness :
  exists d' b, dictResize true ex_dict = Some (d', b) /\ dict_repr ex_hash d' ex_map /\ (true = false -> d' = ex_dict).
Proof. exact (proj2 (dictExpand_refines ex_hash true ex_dict ex_map 8 ex_dict_repr ltac:(lia))). Defined.
