(* ===== verification/DictScan.v ===== *)
(** * SCAN: the reversed cursor visits every element

    [rev] reverses the 64 bits of the cursor.  In the order of the reversed
    cursors one call covers exactly an interval of hash values, whatever the
    size of the tables at that moment, which is why an element that stays in
    the dictionary is returned although the tables grow, shrink and rehash
    between the calls. *)
From Stdlib Require Import ZArith Lia.
From stdpp Require Import base numbers list option gmap.
From S2P Require Import Prelude Dict DictRefine.

(** ** Bit reversal *)

Definition swap_halves (s mask v : Z) : Z :=
  Z.lor (Z.land (Z.shiftr v s) mask) (Z.land (u64 (Z.shiftl v s)) (u64 (Z.lnot mask))).

Definition swap_ok (s mask : Z) : bool :=
  all_below 64 (fun i =>
    (0 <=? Z.lxor i s) && (Z.lxor i s <? 64) &&
    (if Z.testbit mask i then i + s =? Z.lxor i s else i - s =? Z.lxor i s)).

Lemma u64_bit x i : 0 <= i -> Z.testbit (u64 x) i = (i <? 64) && Z.testbit x i.
Proof.
  intros Hi. destruct (i <? 64) eqn:E; cbn [andb].
  - apply Z.mod_pow2_bits_low. lia.
  - apply Z.mod_pow2_bits_high. lia.
Qed.

Lemma high_bits v i : 0 <= v < 2 ^ 64 -> 64 <= i -> Z.testbit v i = false.
Proof. intros Hv Hi. rewrite <- (uwrap_small 64 v) by done. apply Z.mod_pow2_bits_high. lia. Qed.

Lemma swap_bits s mask v i : swap_ok s mask = true -> 0 <= v < 2 ^ 64 -> 0 <= s -> 0 <= i < 64 ->
  Z.testbit (swap_halves s mask v) i = Z.testbit v (Z.lxor i s) /\ 0 <= Z.lxor i s < 64.
Proof.
  intros Hok Hv Hs Hi. unfold swap_ok in Hok. pose proof (all_below_spec 64 _ i Hok Hi) as H. cbn beta in H.
  apply andb_true_iff in H as [H Hm]. split; [|lia].
  unfold swap_halves. rewrite Z.lor_spec, !Z.land_spec, !u64_bit, Z.lnot_spec, Z.shiftr_spec, Z.shiftl_spec by lia.
  rewrite (proj2 (Z.ltb_lt i 64)) by lia. cbn [andb].
  destruct (Z.testbit mask i); cbn [negb].
  - rewrite andb_true_r, andb_false_r, orb_false_r. f_equal. lia.
  - rewrite andb_false_r, andb_true_r. cbn [orb]. f_equal. lia.
Qed.

Lemma swap_range s mask v : 0 <= v < 2 ^ 64 -> 0 <= s -> 0 <= swap_halves s mask v < 2 ^ 64.
Proof.
  intros Hv Hs. assert (E : u64 (swap_halves s mask v) = swap_halves s mask v).
  { apply Z.bits_inj'. intros i Hi. rewrite u64_bit by done. destruct (i <? 64) eqn:E; [done|]. cbn [andb].
    unfold swap_halves. rewrite Z.lor_spec, !Z.land_spec, !u64_bit, Z.shiftr_spec by lia.
    rewrite E, (high_bits v (i + s)) by lia. done. }
  rewrite <- E. apply uwrap_range. lia.
Qed.

Definition brev (v : Z) : Z :=
  swap_halves 1 0x5555555555555555 (swap_halves 2 0x3333333333333333 (swap_halves 4 0x0f0f0f0f0f0f0f0f
    (swap_halves 8 0x00ff00ff00ff00ff (swap_halves 16 0x0000ffff0000ffff (swap_halves 32 0x00000000ffffffff v))))).

Lemma rev_brev v : rev v = Some (brev v).
Proof. reflexivity. Qed.

Lemma brev_range v : 0 <= v < 2 ^ 64 -> 0 <= brev v < 2 ^ 64.
Proof. intros Hv. unfold brev. repeat (apply swap_range; [|lia]). done. Qed.

Lemma brev_bit v i : 0 <= v < 2 ^ 64 -> 0 <= i < 64 -> Z.testbit (brev v) i = Z.testbit v (63 - i).
Proof.
  intros Hv Hi. unfold brev.
  assert (R : forall s m v, 0 <= v < 2 ^ 64 -> 0 <= s -> 0 <= swap_halves s m v < 2 ^ 64) by (intros; by apply swap_range).
  destruct (swap_bits 1 0x5555555555555555 (swap_halves 2 0x3333333333333333 (swap_halves 4 0x0f0f0f0f0f0f0f0f
    (swap_halves 8 0x00ff00ff00ff00ff (swap_halves 16 0x0000ffff0000ffff (swap_halves 32 0x00000000ffffffff v))))) i)
    as [-> H1]; [reflexivity|repeat (apply R; [|lia]); done|lia|done|].
  destruct (swap_bits 2 0x3333333333333333 (swap_halves 4 0x0f0f0f0f0f0f0f0f
    (swap_halves 8 0x00ff00ff00ff00ff (swap_halves 16 0x0000ffff0000ffff (swap_halves 32 0x00000000ffffffff v)))) (Z.lxor i 1))
    as [-> H2]; [reflexivity|repeat (apply R; [|lia]); done|lia|done|].
  destruct (swap_bits 4 0x0f0f0f0f0f0f0f0f (swap_halves 8 0x00ff00ff00ff00ff (swap_halves 16 0x0000ffff0000ffff
    (swap_halves 32 0x00000000ffffffff v))) (Z.lxor (Z.lxor i 1) 2))
    as [-> H3]; [reflexivity|repeat (apply R; [|lia]); done|lia|done|].
  destruct (swap_bits 8 0x00ff00ff00ff00ff (swap_halves 16 0x0000ffff0000ffff
    (swap_halves 32 0x00000000ffffffff v)) (Z.lxor (Z.lxor (Z.lxor i 1) 2) 4))
    as [-> H4]; [reflexivity|repeat (apply R; [|lia]); done|lia|done|].
  destruct (swap_bits 16 0x0000ffff0000ffff (swap_halves 32 0x00000000ffffffff v)
    (Z.lxor (Z.lxor (Z.lxor (Z.lxor i 1) 2) 4) 8)) as [-> H5]; [reflexivity|repeat (apply R; [|lia]); done|lia|done|].
  destruct (swap_bits 32 0x00000000ffffffff v (Z.lxor (Z.lxor (Z.lxor (Z.lxor (Z.lxor i 1) 2) 4) 8) 16))
    as [-> H6]; [reflexivity|done|lia|done|].
  f_equal. pose proof (all_below_spec 64 (fun i => Z.lxor (Z.lxor (Z.lxor (Z.lxor (Z.lxor (Z.lxor i 1) 2) 4) 8) 16) 32 =? 63 - i)
    i eq_refl Hi) as H. cbn beta in H. lia.
Qed.

Lemma bits_eq_64 x y : 0 <= x < 2 ^ 64 -> 0 <= y < 2 ^ 64 ->
  (forall i, 0 <= i < 64 -> Z.testbit x i = Z.testbit y i) -> x = y.
Proof.
  intros Hx Hy H. apply Z.bits_inj'. intros i Hi. destruct (decide (i < 64)); [apply H; lia|].
  by rewrite !high_bits by lia.
Qed.

Lemma brev_involutive v : 0 <= v < 2 ^ 64 -> brev (brev v) = v.
Proof.
  intros Hv. pose proof (brev_range v Hv). apply bits_eq_64; [by apply brev_range|done|].
  intros i Hi. rewrite !brev_bit by lia. f_equal. lia.
Qed.

Lemma brev_0 : brev 0 = 0.
Proof. reflexivity. Qed.

#[global] Opaque brev.

(** ** The cursor after one bucket *)

(** The end of the interval of size [2 ^ k] that holds [x]. *)
Definition block_end (k x : Z) : Z := (x / 2 ^ k + 1) * 2 ^ k.

Lemma block_bounds k x : 0 <= k -> block_end k x - 2 ^ k <= x < block_end k x.
Proof.
  intros Hk. unfold block_end. pose proof (Z.pow_pos_nonneg 2 k ltac:(lia) Hk).
  pose proof (Z.div_mod x (2 ^ k) ltac:(lia)). pose proof (Z.mod_pos_bound x (2 ^ k) ltac:(lia)). lia.
Qed.

Lemma block_start k x : 0 <= k -> 0 <= x -> 2 ^ k <= block_end k x.
Proof.
  intros Hk Hx. unfold block_end. pose proof (Z.pow_pos_nonneg 2 k ltac:(lia) Hk).
  pose proof (Z.div_pos x (2 ^ k) Hx ltac:(lia)). nia.
Qed.

Lemma lor_ones x k : 0 <= k -> Z.lor x (Z.ones k) + 1 = block_end k x.
Proof.
  intros Hk. unfold block_end. assert (E : Z.lor x (Z.ones k) = Z.lor (Z.ones k) (Z.shiftl (Z.shiftr x k) k)).
  { apply Z.bits_inj'. intros i Hi. rewrite !Z.lor_spec, Z.shiftl_spec by done. destruct (decide (i < k)).
    - rewrite Z.ones_spec_low by lia. by rewrite orb_true_r.
    - rewrite Z.ones_spec_high, Z.shiftr_spec by lia. rewrite orb_false_r. cbn [orb]. f_equal. lia. }
  rewrite E, lor_shiftl by (rewrite ?Z.ones_equiv; lia). rewrite Z.ones_equiv, Z.shiftr_div_pow2 by done. lia.
Qed.

Lemma scan_next_spec v a : 0 <= v < 2 ^ 64 -> 0 <= a <= 64 ->
  exists v', scan_next v (2 ^ a - 1) = Some v' /\ 0 <= v' < 2 ^ 64 /\
    brev v' = u64 (block_end (64 - a) (brev v)).
Proof.
  intros Hv Ha. unfold scan_next. rewrite rev_brev. cbn [mbind option_bind]. rewrite rev_brev.
  set (w := Z.lor v (u64 (Z.lnot (2 ^ a - 1)))).
  assert (Hlow : forall i, 0 <= i -> Z.testbit (2 ^ a - 1) i = (i <? a)).
  { intros i Hi. replace (2 ^ a - 1) with (Z.ones a) by (rewrite Z.ones_equiv; lia).
    destruct (i <? a) eqn:E; [apply Z.ones_spec_low; lia|apply Z.ones_spec_high; lia]. }
  assert (Hw : 0 <= w < 2 ^ 64).
  { assert (E : u64 w = w).
    { apply Z.bits_inj'. intros i Hi. unfold w. rewrite u64_bit, Z.lor_spec, u64_bit by lia.
      destruct (i <? 64) eqn:E; [done|]. rewrite (high_bits v) by lia. done. }
    rewrite <- E. apply uwrap_range. lia. }
  assert (E : brev w = Z.lor (brev v) (Z.ones (64 - a))).
  { pose proof (brev_range v Hv) as Hbv. apply Z.bits_inj'. intros i Hi. rewrite Z.lor_spec.
    destruct (decide (i < 64)).
    - rewrite !brev_bit by lia. unfold w. rewrite Z.lor_spec, u64_bit, Z.lnot_spec, Hlow by lia.
      rewrite (proj2 (Z.ltb_lt (63 - i) 64)) by lia. cbn [andb]. f_equal.
      destruct (63 - i <? a) eqn:Ea; cbn [negb]; [rewrite Z.ones_spec_high by lia|rewrite Z.ones_spec_low by lia]; done.
    - rewrite (high_bits (brev w)), (high_bits (brev v)), Z.ones_spec_high by (done || lia || by apply brev_range). done. }
  rewrite E, lor_ones by lia. pose proof (uwrap_range 64 (block_end (64 - a) (brev v)) ltac:(lia)) as Hr.
  eexists; split; [done|]. split; [by apply brev_range|]. by apply brev_involutive.
Qed.

(** The bucket of a hash value is decided by the block of its reversal. *)
Lemma same_bucket h v a : 0 <= h < 2 ^ 64 -> 0 <= v < 2 ^ 64 -> 0 <= a <= 64 ->
  brev h / 2 ^ (64 - a) = brev v / 2 ^ (64 - a) -> Z.land h (2 ^ a - 1) = Z.land v (2 ^ a - 1).
Proof.
  intros Hh Hv Ha E. replace (2 ^ a - 1) with (Z.ones a) by (rewrite Z.ones_equiv; lia).
  apply Z.bits_inj'. intros i Hi. rewrite !Z.land_spec. destruct (decide (i < a)).
  - f_equal. rewrite <- (brev_involutive h), <- (brev_involutive v) by done.
    pose proof (brev_range h Hh). pose proof (brev_range v Hv). rewrite !(brev_bit (brev _)) by lia.
    rewrite <- !Z.shiftr_div_pow2 in E by lia. apply (f_equal (fun z => Z.testbit z (63 - i - (64 - a)))) in E.
    rewrite !Z.shiftr_spec in E by lia. by replace (63 - i - (64 - a) + (64 - a)) with (63 - i) in E by lia.
  - rewrite Z.ones_spec_high by lia. by rewrite !andb_false_r.
Qed.

(** ** One call *)

Section Scan.
Context {K V : Type} `{Countable K}.
Context (hash : K -> Z) (bucketfn : bool).
Hypothesis hash_range : forall k, 0 <= hash k < 2 ^ 64.

Implicit Types (d : dict K V) (e : K * V) (evs : list (scan_event K V)).

(** [evs] holds every entry of table [b] whose reversed hash is in the interval,
    and only entries of [d]. *)
Definition covers d (b : bool) (lo hi : Z) evs : Prop :=
  forall e, e ∈ concat (table (ht_of d b)) -> lo <= brev (hash (fst e)) < hi -> EvEntry e ∈ evs.

Definition sound d evs : Prop := forall e, EvEntry e ∈ evs -> e ∈ entries d.

Lemma table_entries d (b : bool) e : e ∈ concat (table (ht_of d b)) -> e ∈ entries d.
Proof. intros He. apply elem_of_app. destruct b; [by right|by left]. Qed.

Lemma sound_app d evs evs' : sound d evs -> sound d evs' -> sound d (evs ++ evs').
Proof. intros H1 H2 e He. apply elem_of_app in He as [?|?]; [by apply H1|by apply H2]. Qed.

Lemma block_div k x y : 0 <= k -> block_end k x - 2 ^ k <= y < block_end k x -> y / 2 ^ k = x / 2 ^ k.
Proof.
  intros Hk Hy. pose proof (Z.pow_pos_nonneg 2 k ltac:(lia) Hk). unfold block_end in Hy.
  symmetry. apply (Z.div_unique _ _ _ (y - x / 2 ^ k * 2 ^ k)); lia.
Qed.

Lemma emit_spec d (b : bool) v a : ht_real hash (ht_of d b) -> sizemask (ht_of d b) = 2 ^ a - 1 -> 0 <= a <= 64 ->
  0 <= v < 2 ^ 64 ->
  exists evs, emit bucketfn d b v = Some evs /\ sound d evs /\
    covers d b (block_end (64 - a) (brev v) - 2 ^ (64 - a)) (block_end (64 - a) (brev v)) evs.
Proof.
  intros Hr Hm Ha Hv. unfold emit. destruct (bucket_of hash _ v Hr) as (c & Hc & _). rewrite Hc.
  cbn [mbind option_bind]. eexists; split; [done|]. split.
  - intros e He. apply elem_of_app in He as [He|He].
    + destruct bucketfn; [|by apply elem_of_nil in He]. by apply list_elem_of_singleton in He.
    + apply list_elem_of_fmap in He as (e' & [= <-] & He). eapply table_entries. by eapply bucket_key.
  - intros e He Hb. apply elem_of_app. right. apply list_elem_of_fmap. exists e. split; [done|].
    destruct (entry_bucket hash _ e Hr He) as (c' & Hc' & Hin).
    apply block_div in Hb; [|lia]. rewrite Hm in Hc, Hc'.
    rewrite (same_bucket _ v a) in Hc' by (auto || lia). rewrite Hc in Hc'. by injection Hc' as ->.
Qed.

Lemma real_mask (ht : dictht K V) : ht_real hash ht ->
  exists a, 2 <= a <= 63 /\ size ht = 2 ^ a /\ sizemask ht = 2 ^ a - 1 /\ zlen (table ht) = 2 ^ a.
Proof. intros [(a & Ha & Hs) Hm Hl _ _]. exists a. rewrite Hm, Hl, Hs. done. Qed.

(** The bits between the two masks are clear exactly at the end of a block of
    the smaller table. *)
Lemma mask_bits v a b : 0 <= a <= b -> b <= 64 -> 0 <= v < 2 ^ 64 -> (brev v) mod 2 ^ (64 - b) = 0 ->
  (Z.land v (Z.lxor (2 ^ a - 1) (2 ^ b - 1)) =? 0) = ((brev v) mod 2 ^ (64 - a) =? 0).
Proof.
  intros Hab Hb Hv Hlow. pose proof (brev_range v Hv) as Hr.
  assert (Hmask : forall i, 0 <= i -> Z.testbit (Z.lxor (2 ^ a - 1) (2 ^ b - 1)) i = (a <=? i) && (i <? b)).
  { intros i Hi. replace (2 ^ a - 1) with (Z.ones a) by (rewrite Z.ones_equiv; lia).
    replace (2 ^ b - 1) with (Z.ones b) by (rewrite Z.ones_equiv; lia). rewrite Z.lxor_spec.
    destruct (decide (i < a)); [|destruct (decide (i < b))];
      rewrite ?(Z.ones_spec_low a), ?(Z.ones_spec_low b), ?(Z.ones_spec_high a), ?(Z.ones_spec_high b) by lia; zbool; done. }
  assert (Hl : forall i, 0 <= i < 64 - b -> Z.testbit (brev v) i = false).
  { intros i Hi. rewrite <- (Z.mod_pow2_bits_low _ (64 - b)) by lia. by rewrite Hlow, Z.bits_0. }
  apply eq_true_iff_eq. rewrite !Z.eqb_eq. split; intros E.
  - apply Z.bits_inj'. intros i Hi. rewrite Z.bits_0. destruct (decide (i < 64 - a)).
    2:{ by apply Z.mod_pow2_bits_high; lia. }
    rewrite Z.mod_pow2_bits_low by lia. destruct (decide (i < 64 - b)); [apply Hl; lia|].
    rewrite brev_bit by lia. apply (f_equal (fun z => Z.testbit z (63 - i))) in E.
    rewrite Z.land_spec, Hmask, Z.bits_0 in E by lia.
    rewrite (proj2 (Z.leb_le a (63 - i))), (proj2 (Z.ltb_lt (63 - i) b)) in E by lia. by rewrite andb_true_r in E.
  - apply Z.bits_inj'. intros i Hi. rewrite Z.land_spec, Hmask, Z.bits_0 by done.
    destruct ((a <=? i) && (i <? b)) eqn:Ei; [|by rewrite andb_false_r]. rewrite andb_true_r.
    rewrite <- (brev_involutive v) by done. rewrite brev_bit by lia.
    rewrite <- (Z.mod_pow2_bits_low _ (64 - a)) by lia. by rewrite E, Z.bits_0.
Qed.

Lemma block_end_mul k x m : 0 <= k -> x < m * 2 ^ k -> block_end k x <= m * 2 ^ k.
Proof.
  intros Hk Hx. pose proof (Z.pow_pos_nonneg 2 k ltac:(lia) Hk). unfold block_end.
  assert (x / 2 ^ k < m) by (apply Z.div_lt_upper_bound; lia). nia.
Qed.

Lemma block_nest j k x : 0 <= j <= k -> block_end j x <= block_end k x.
Proof.
  intros Hj. pose proof (block_bounds k x ltac:(lia)). unfold block_end at 2.
  replace (2 ^ k) with (2 ^ (k - j) * 2 ^ j) at 2 by (rewrite <- Z.pow_add_r by lia; f_equal; lia).
  rewrite Z.mul_assoc. apply block_end_mul; [lia|]. rewrite <- Z.mul_assoc, <- Z.pow_add_r by lia.
  replace (k - j + j) with k by lia. unfold block_end in H0. lia.
Qed.

Lemma block_end_limit k x : 0 <= k <= 64 -> x < 2 ^ 64 -> block_end k x <= 2 ^ 64.
Proof.
  intros Hk Hx. replace (2 ^ 64) with (2 ^ (64 - k) * 2 ^ k) in * by (rewrite <- Z.pow_add_r by lia; f_equal; lia).
  by apply block_end_mul; [lia|].
Qed.

Lemma block_end_same k x y : 0 <= k -> block_end k x - 2 ^ k <= y < block_end k x -> block_end k y = block_end k x.
Proof. intros Hk Hy. unfold block_end at 1. by rewrite (block_div k x y Hk Hy). Qed.

Lemma block_end_mod k x j : 0 <= j <= k -> (block_end k x) mod 2 ^ j = 0.
Proof.
  intros Hj. unfold block_end. replace (2 ^ k) with (2 ^ (k - j) * 2 ^ j) at 2
    by (rewrite <- Z.pow_add_r by lia; f_equal; lia).
  rewrite Z.mul_assoc. apply Z.mod_mul. pose proof (Z.pow_pos_nonneg 2 j). lia.
Qed.

Lemma u64_mod x j : 0 <= j <= 64 -> (u64 x) mod 2 ^ j = x mod 2 ^ j.
Proof.
  intros Hj. unfold uwrap. apply Z.bits_inj'. intros i Hi.
  destruct (decide (i < j)); [|by rewrite !Z.mod_pow2_bits_high by lia].
  by rewrite !Z.mod_pow2_bits_low by lia.
Qed.

Lemma expansions_spec (fuel : nat) d (t : bool) a b v :
  ht_real hash (ht_of d t) -> sizemask (ht_of d t) = 2 ^ b - 1 -> 0 <= a <= b -> b <= 64 -> 0 <= v < 2 ^ 64 ->
  let x := brev v in
  block_end (64 - a) x - block_end (64 - b) x + 2 ^ (64 - b) <= Z.of_nat fuel * 2 ^ (64 - b) ->
  exists evs v', scan_expansions fuel bucketfn d t (2 ^ a - 1) (2 ^ b - 1) v = Some (evs, v') /\
    0 <= v' < 2 ^ 64 /\ brev v' = u64 (block_end (64 - a) x) /\ sound d evs /\ covers d t x (block_end (64 - a) x) evs.
Proof.
  intros Hr Hm Hab Hb. revert v. induction fuel as [|fuel IH]; intros v Hv x Hf.
  { pose proof (block_nest (64 - b) (64 - a) x ltac:(lia)). pose proof (Z.pow_pos_nonneg 2 (64 - b)). lia. }
  pose proof (brev_range v Hv) as Hx. fold x in Hx. cbn [scan_expansions].
  destruct (emit_spec d t v b Hr Hm ltac:(lia) Hv) as (evs & -> & Hsnd & Hcov). rewrite bind_Some; cbv beta.
  destruct (scan_next_spec v b Hv ltac:(lia)) as (v1 & -> & Hv1 & Hbv1). rewrite bind_Some; cbv beta.
  fold x in Hcov, Hbv1. pose proof (block_bounds (64 - b) x ltac:(lia)) as Bb. pose proof (block_bounds (64 - a) x ltac:(lia)) as Ba.
  pose proof (block_nest (64 - b) (64 - a) x ltac:(lia)) as Hn.
  pose proof (block_end_limit (64 - a) x ltac:(lia) ltac:(lia)) as Hlim.
  pose proof (Z.pow_pos_nonneg 2 (64 - b) ltac:(lia) ltac:(lia)).
  rewrite (mask_bits v1 a b) by (try done; try lia; rewrite Hbv1, u64_mod by lia; apply block_end_mod; lia).
  rewrite Hbv1, u64_mod by lia.
  destruct (decide (block_end (64 - b) x = block_end (64 - a) x)) as [He|Hne].
  - rewrite He, block_end_mod by lia. cbn [Z.eqb]. exists evs, v1. split; [done|]. split; [done|].
    split; [by rewrite Hbv1, He|]. split; [done|]. intros e Hin Hi. apply Hcov; [done|]. lia.
  - set (y := block_end (64 - b) x) in *. assert (Hy : brev v1 = y) by (rewrite Hbv1; apply uwrap_small; lia).
    assert (Hend : block_end (64 - a) y = block_end (64 - a) x) by (apply block_end_same; lia).
    assert (Hmod : y mod 2 ^ (64 - a) <> 0).
    { intros Hz. pose proof (block_bounds (64 - a) y ltac:(lia)). pose proof (Z.pow_pos_nonneg 2 (64 - a)).
      pose proof (Z.div_mod y (2 ^ (64 - a)) ltac:(lia)). unfold block_end in Hend at 1. lia. }
    rewrite (proj2 (Z.eqb_neq _ _)) by done.
    assert (Hstep : block_end (64 - b) y = y + 2 ^ (64 - b)).
    { unfold y, block_end. rewrite Z.div_mul by lia. lia. }
    destruct (IH v1 Hv1) as (evs' & v' & -> & Hv' & Hbv' & Hsnd' & Hcov'); [rewrite Hy, Hend, Hstep; lia|].
    rewrite Hy, Hend in *. rewrite bind_Some; cbn [fst snd]. exists (evs ++ evs'), v'.
    split; [done|]. split; [done|]. split; [done|]. split; [by apply sound_app|].
    intros e Hin Hi. apply elem_of_app. destruct (decide (brev (hash (fst e)) < y)); [left; apply Hcov|right; apply Hcov']; (done || lia).
Qed.

Lemma covers_weaken d b lo hi lo' hi' evs : covers d b lo hi evs -> lo <= lo' -> hi' <= hi -> covers d b lo' hi' evs.
Proof. intros Hc ? ? e He Hi. apply Hc; [done|lia]. Qed.

(** One call covers, in both tables, the rest of one block. *)
Lemma dictScan_block d m v : dict_repr hash d m -> dictSize d <> 0 -> 0 <= v < 2 ^ 64 ->
  exists evs v' k, dictScan bucketfn d v = Some (evs, v') /\ 0 <= k <= 62 /\ 0 <= v' < 2 ^ 64 /\
    brev v' = u64 (block_end k (brev v)) /\ sound d evs /\
    forall e, e ∈ entries d -> brev v <= brev (hash (fst e)) < block_end k (brev v) -> EvEntry e ∈ evs.
Proof.
  intros Hr Hsz Hv. unfold dictScan. rewrite (proj2 (Z.eqb_neq _ _)) by done.
  destruct (repr_real hash d m Hr Hsz) as (R0 & R1 & Rn). destruct (dictIsRehashing d) eqn:Er; cbn [negb].
  - specialize (R1 eq_refl). set (t0 := size (ht0 d) >? size (ht1 d)).
    assert (Hreal : forall t : bool, ht_real hash (ht_of d t)) by (intros []; done).
    destruct (real_mask _ (Hreal t0)) as (a & Ha & Hsa & Hma & _).
    destruct (real_mask _ (Hreal (negb t0))) as (b & Hb & Hsb & Hmb & Hlb).
    assert (Hab : a <= b).
    { apply (Z.pow_le_mono_r_iff 2); [lia|lia|]. rewrite <- Hsa, <- Hsb. unfold t0.
      destruct (size (ht0 d) >? size (ht1 d)) eqn:E; cbn [negb ht_of]; lia. }
    destruct (emit_spec d t0 v a (Hreal _) Hma ltac:(lia) Hv) as (evs & -> & Hsnd & Hcov). rewrite bind_Some; cbv beta.
    rewrite Hma, Hmb. pose proof (brev_range v Hv) as Hx.
    destruct (expansions_spec (length (table (ht_of d (negb t0)))) d (negb t0) a b v (Hreal _) Hmb ltac:(lia) ltac:(lia) Hv)
      as (evs' & v' & -> & Hv' & Hbv & Hsnd' & Hcov').
    { pose proof (block_start (64 - b) (brev v) ltac:(lia) ltac:(lia)).
      assert (Hlen : Z.of_nat (length (table (ht_of d (negb t0)))) = 2 ^ b) by exact Hlb. rewrite Hlen, <- Z.pow_add_r by lia.
      pose proof (block_end_limit (64 - a) (brev v) ltac:(lia) ltac:(lia)). replace (b + (64 - b)) with 64 by lia. lia. }
    rewrite bind_Some; cbn [fst snd]. exists (evs ++ evs'), v', (64 - a). split; [done|]. split; [lia|]. split; [done|].
    split; [done|]. split; [by apply sound_app|]. intros e He Hi. apply elem_of_app.
    assert (Hin : e ∈ concat (table (ht_of d t0)) \/ e ∈ concat (table (ht_of d (negb t0)))).
    { apply elem_of_app in He. destruct t0; cbn [negb ht_of]; tauto. }
    pose proof (block_bounds (64 - a) (brev v) ltac:(lia)).
    destruct Hin as [Hin|Hin]; [left; apply Hcov|right; apply Hcov']; (done || lia).
  - destruct (real_mask _ R0) as (a & Ha & Hsa & Hma & _).
    destruct (emit_spec d false v a R0 Hma ltac:(lia) Hv) as (evs & -> & Hsnd & Hcov). rewrite bind_Some; cbv beta.
    rewrite Hma. destruct (scan_next_spec v a Hv ltac:(lia)) as (v' & -> & Hv' & Hbv). rewrite bind_Some; cbv beta.
    exists evs, v', (64 - a). split; [done|]. split; [lia|]. split; [done|]. split; [done|]. split; [done|].
    intros e He Hi. pose proof (block_bounds (64 - a) (brev v) ltac:(lia)). apply Hcov; [|lia].
    unfold entries in He. by rewrite (Rn eq_refl), app_nil_r in He.
Qed.

(** The step of the iteration: nothing at or after the cursor is lost. *)
Lemma dictScan_step d m v : dict_repr hash d m -> 0 <= v < 2 ^ 64 ->
  exists evs v', dictScan bucketfn d v = Some (evs, v') /\ 0 <= v' < 2 ^ 64 /\ sound d evs /\
    (v' = 0 \/ brev v < brev v') /\
    forall e, e ∈ entries d -> brev v <= brev (hash (fst e)) ->
      EvEntry e ∈ evs \/ (v' <> 0 /\ brev v' <= brev (hash (fst e))).
Proof.
  intros Hr Hv. destruct (decide (dictSize d = 0)) as [Hz|Hz].
  { exists [], 0. unfold dictScan. rewrite Hz. cbn [Z.eqb]. split; [done|]. split; [lia|].
    split; [by intros e ?%elem_of_nil|]. split; [by left|]. intros e He.
    pose proof (repr_lookup hash d m e Hr He) as Hl. destruct (repr_used hash d m Hr) as [Hs _].
    assert (m = ∅) as -> by (apply map_size_empty_inv; lia). by rewrite lookup_empty in Hl. }
  destruct (dictScan_block d m v Hr Hz Hv) as (evs & v' & k & -> & Hk & Hv' & Hbv & Hsnd & Hcov).
  exists evs, v'. split; [done|]. split; [done|]. split; [done|]. pose proof (brev_range v Hv) as Hx.
  pose proof (block_bounds k (brev v) ltac:(lia)). pose proof (block_end_limit k (brev v) ltac:(lia) ltac:(lia)).
  destruct (decide (block_end k (brev v) = 2 ^ 64)) as [He|Hne].
  - assert (Hb0 : brev v' = 0) by (rewrite Hbv, He; reflexivity).
    assert (v' = 0) as -> by (rewrite <- (brev_involutive v'), Hb0 by done; apply brev_0).
    split; [by left|]. intros e Hin Hle. left. apply Hcov; [done|]. pose proof (brev_range _ (hash_range (fst e))). lia.
  - assert (Hb : brev v' = block_end k (brev v)) by (rewrite Hbv; apply uwrap_small; lia).
    split; [right; lia|]. intros e Hin Hle. destruct (decide (brev (hash (fst e)) < brev v')) as [Hlt|Hge].
    + left. apply Hcov; [done|]. lia.
    + right. split; [intros ->; rewrite brev_0 in Hb; lia|lia].
Qed.

(** An iteration: the states of the dictionary at its calls, the cursor of each
    call being the answer of the one before, until 0 comes back. *)
Inductive scans : Z -> list (dict K V) -> list (scan_event K V) -> Prop :=
  | scans_last d v evs : dictScan bucketfn d v = Some (evs, 0) -> scans v [d] evs
  | scans_more d v v' evs ds evs' :
      dictScan bucketfn d v = Some (evs, v') -> v' <> 0 -> scans v' ds evs' -> scans v (d :: ds) (evs ++ evs').

Lemma scans_from v ds evs key : scans v ds evs -> 0 <= v < 2 ^ 64 -> brev v <= brev (hash key) ->
  Forall (fun d => exists m, dict_repr hash d m /\ is_Some (m !! key)) ds ->
  exists val, EvEntry (key, val) ∈ evs.
Proof.
  intros Hs. induction Hs as [d v evs Hd|d v v' evs ds evs' Hd Hne Hs IH]; intros Hv Hle Hall;
    inversion Hall as [|? ? (m & Hr & [val Hval]) Hall']; subst.
  all: assert (Hin : (key, val) ∈ entries d) by (destruct Hr as [_ ->]; by apply elem_of_list_to_map_2 in Hval).
  all: destruct (dictScan_step d m v Hr Hv) as (evs1 & v1 & Hd1 & Hv1 & _ & _ & Hcov).
  all: rewrite Hd in Hd1; injection Hd1 as <- <-.
  - destruct (Hcov _ Hin Hle) as [?|[? _]]; [by exists val|done].
  - destruct (Hcov _ Hin Hle) as [?|[_ Hle']]; [exists val; apply elem_of_app; by left|].
    destruct (IH Hv1 Hle' Hall') as [val' ?]. exists val'. apply elem_of_app. by right.
Qed.

Lemma scans_end d m v : dict_repr hash d m -> 0 <= v < 2 ^ 64 ->
  exists n evs, scans v (replicate n d) evs /\ sound d evs.
Proof.
  intros Hr. remember (2 ^ 64 - brev v) as k eqn:Hk. revert v Hk.
  induction (Z.lt_wf 0 k) as [k _ IH]. intros v -> Hv.
  destruct (dictScan_step d m v Hr Hv) as (evs & v' & Hd & Hv' & Hsnd & [->|Hlt] & _).
  - exists 1%nat, evs. split; [by constructor|done].
  - destruct (decide (v' = 0)) as [->|Hne]; [exists 1%nat, evs; split; [by constructor|done]|].
    pose proof (brev_range v Hv). pose proof (brev_range v' Hv').
    destruct (IH (2 ^ 64 - brev v') ltac:(lia) v' eq_refl Hv') as (n & evs' & Hs & Hsnd').
    exists (S n), (evs ++ evs'). split; [by eapply scans_more|]. by apply sound_app.
Qed.

(** [C16] A full iteration of [dictScan], from cursor 0 until 0 comes back,
    returns every key that is in the dictionary at each of its calls, however
    the dictionary changes between them: insertions, deletions, growing and
    shrinking, and any amount of rehashing. *)
Theorem dictScan_complete (ds : list (dict K V)) (evs : list (scan_event K V)) (key : K)
    (Hs : scans 0 ds evs)
    (Hall : Forall (fun d => exists m, dict_repr hash d m /\ is_Some (m !! key)) ds) :
  exists val, EvEntry (key, val) ∈ evs.
Proof.
  eapply scans_from; [exact Hs|lia| |exact Hall]. rewrite brev_0.
  pose proof (brev_range _ (hash_range key)). lia.
Qed.

(** Every call of [dictScan] answers, reports only entries of the
    dictionary, and moves the cursor forward in the reversed order or ends the
    iteration; so an iteration over a dictionary that does not change ends, and
    then it has reported exactly the entries. *)
Theorem dictScan_terminates (d : dict K V) (m : gmap K V) (v : Z) (Hr : dict_repr hash d m) (Hv : 0 <= v < 2 ^ 64) :
  (exists evs v', dictScan bucketfn d v = Some (evs, v') /\ 0 <= v' < 2 ^ 64 /\ (v' = 0 \/ brev v < brev v')) /\
  (exists n evs, scans 0 (replicate n d) evs /\
     forall key, (exists val, EvEntry (key, val) ∈ evs) <-> is_Some (m !! key)).
Proof.
  split.
  - destruct (dictScan_step d m v Hr Hv) as (evs & v' & ? & ? & _ & ? & _). by exists evs, v'.
  - destruct (scans_end d m 0 Hr ltac:(lia)) as (n & evs & Hs & Hsnd). exists n, evs. split; [done|].
    intros key. split.
    + intros (val & He). apply Hsnd in He. exists val. by apply (repr_lookup hash d m (key, val)).
    + intros Hin. eapply scans_from; [exact Hs|lia| |].
      * rewrite brev_0. pose proof (brev_range _ (hash_range key)). lia.
      * apply Forall_replicate. by exists m.
Qed.
End Scan.

(** ** The theorems at a concrete input *)

Lemma ex_hash_range k : 0 <= ex_hash k < 2 ^ 64.
Proof. apply uwrap_range. lia. Qed.

(** The table of [DictRefine], in the middle of its rehash, for the first two
    calls; then the rehash has ended. *)
Definition ex_done : dict Z Z := default _dictInit (rehash_all ex_hash 9 ex_dict).

Lemma ex_done_repr : dict_repr ex_hash ex_done ex_map.
Proof.
  destruct (rehash_all_spec ex_hash 9 ex_dict ex_map ex_dict_repr ltac:(lia) ltac:(by vm_compute)) as (d' & Hd & Hr & _).
  unfold ex_done. rewrite Hd. exact Hr.
Defined.

Fixpoint ex_scan (ds : list (dict Z Z)) (v : Z) : option (list (scan_event Z Z)) :=
  match ds with
  | [] => None
  | [d] => r ← dictScan false d v; if snd r =? 0 then Some (fst r) else None
  | d :: ds => r ← dictScan false d v; if snd r =? 0 then None else e ← ex_scan ds (snd r); Some (fst r ++ e)
  end.

Lemma ex_scan_scans ds v evs : ex_scan ds v = Some evs -> scans false v ds evs.
Proof.
  revert v evs. induction ds as [|d ds IH]; intros v evs H; [done|]. cbn [ex_scan] in H.
  destruct (dictScan false d v) as [[e v']|] eqn:E; [|by destruct ds]. destruct ds as [|d' ds].
  - rewrite bind_Some in H. cbn [fst snd] in H. destruct (v' =? 0) eqn:E0; [|done]. injection H as <-.
    apply Z.eqb_eq in E0. subst v'. by constructor.
  - rewrite bind_Some in H. cbn [fst snd] in H. destruct (v' =? 0) eqn:E0; [done|].
    destruct (ex_scan (d' :: ds) v') as [e'|] eqn:E1; [|done]. rewrite bind_Some in H. injection H as <-.
    eapply scans_more; [exact E|lia|]. by apply IH.
Qed.

Definition ex_states : list (dict Z Z) := [ex_dict; ex_dict; ex_done; ex_done; ex_done; ex_done].
Definition ex_events : list (scan_event Z Z) := default [] (ex_scan ex_states 0).

Lemma dictScan_witness : exists val, EvEntry (3, val) ∈ ex_events.
Proof.
  apply (dictScan_complete ex_hash false ex_hash_range ex_states ex_events 3).
  - apply ex_scan_scans. by vm_compute.
  - repeat apply Forall_cons_2; [..|apply Forall_nil_2]; exists ex_map;
      (split; [first [exact ex_dict_repr|exact ex_done_repr]|exists 300; by vm_compute]).
Defined.

Lemma dictScan_terminates_witness :
  exists n evs, scans false 0 (replicate n ex_dict) evs /\
    forall key, (exists val, EvEntry (key, val) ∈ evs) <-> is_Some (ex_map !! key).
Proof. exact (proj2 (dictScan_terminates ex_hash false ex_hash_range ex_dict ex_map 0 ex_dict_repr ltac:(lia))). Defined.
