(* ===== verification/Adlist.v ===== *)
(** * Doubly linked lists (adlist.c)

    Nodes live in a heap, a finite map from addresses; pointers are addresses or
    NULL ([None]), and a read or write through NULL or a freed node gives
    [None].  The same heap holds any number of lists, so that the aliasing of
    [listJoin] is the one of the source.  The [dup], [free] and [match] callbacks
    are arguments. *)
From Stdlib Require Import ZArith Lia.
From stdpp Require Import base numbers list option gmap infinite.
From S2P Require Import Prelude.

Abbreviation addr := positive.

Section Adlist.
Context {V : Type} `{EqDecision V}.

Record listNode := { prev : option addr; next : option addr; value : V }.

Record adlist := { head : option addr; tail : option addr; len : Z }.

Abbreviation heap := (gmap addr listNode).
Implicit Types (h : heap) (l : adlist).

(** The node a pointer points to. *)
Definition deref h (p : option addr) : option listNode := p ← p; h !! p.

(** [zmalloc]; it does not fail. *)
Definition alloc h : addr := fresh (dom h).

Definition set_prev h (p : option addr) (q : option addr) : option heap :=
  a ← p; n ← h !! a; Some (<[a := {| prev := q; next := next n; value := value n |}]> h).
Definition set_next h (p : option addr) (q : option addr) : option heap :=
  a ← p; n ← h !! a; Some (<[a := {| prev := prev n; next := q; value := value n |}]> h).

Definition listCreate : adlist := {| head := None; tail := None; len := 0 |}.

(** [while(len--)]: free the nodes. *)
Fixpoint empty_loop (n : nat) h (current : option addr) : option heap :=
  match n with
  | O => Some h
  | S n =>
      a ← current; nd ← h !! a;
      empty_loop n (delete a h) (next nd)
  end.

Definition listEmpty h l : option (heap * adlist) :=
  h ← empty_loop (Z.to_nat (len l)) h (head l);
  Some (h, {| head := None; tail := None; len := 0 |}).

Definition listAddNodeHead h l (v : V) : option (heap * adlist) :=
  let node := alloc h in
  if len l =? 0 then
    let h := <[node := {| prev := None; next := None; value := v |}]> h in
    Some (h, {| head := Some node; tail := Some node; len := u64 (len l + 1) |})
  else
    let h := <[node := {| prev := None; next := head l; value := v |}]> h in
    h ← set_prev h (head l) (Some node);
    Some (h, {| head := Some node; tail := tail l; len := u64 (len l + 1) |}).

Definition listAddNodeTail h l (v : V) : option (heap * adlist) :=
  let node := alloc h in
  if len l =? 0 then
    let h := <[node := {| prev := None; next := None; value := v |}]> h in
    Some (h, {| head := Some node; tail := Some node; len := u64 (len l + 1) |})
  else
    let h := <[node := {| prev := tail l; next := None; value := v |}]> h in
    h ← set_next h (tail l) (Some node);
    Some (h, {| head := head l; tail := Some node; len := u64 (len l + 1) |}).

Definition listInsertNode h l (old_node : addr) (v : V) (after : bool) : option (heap * adlist) :=
  let node := alloc h in
  old ← h !! old_node;
  let nprev := if after then Some old_node else prev old in
  let nnext := if after then next old else Some old_node in
  let hd := if negb after && bool_decide (head l = Some old_node) then Some node else head l in
  let tl := if after && bool_decide (tail l = Some old_node) then Some node else tail l in
  let h := <[node := {| prev := nprev; next := nnext; value := v |}]> h in
  h ← (match nprev with Some _ => set_next h nprev (Some node) | None => Some h end);
  h ← (match nnext with Some _ => set_prev h nnext (Some node) | None => Some h end);
  Some (h, {| head := hd; tail := tl; len := u64 (len l + 1) |}).

Definition listDelNode h l (node : addr) : option (heap * adlist) :=
  nd ← h !! node;
  h ← (match prev nd with Some _ => set_next h (prev nd) (next nd) | None => Some h end);
  let hd := match prev nd with Some _ => head l | None => next nd end in
  h ← (match next nd with Some _ => set_prev h (next nd) (prev nd) | None => Some h end);
  let tl := match next nd with Some _ => tail l | None => prev nd end in
  Some (delete node h, {| head := hd; tail := tl; len := u64 (len l - 1) |}).

(** ** Iterators *)

Record listIter := { it_next : option addr; from_head : bool }.

Definition listGetIterator l (from_head : bool) : listIter :=
  {| it_next := if from_head then head l else tail l; from_head := from_head |}.
Definition listRewind l : listIter := listGetIterator l true.
Definition listRewindTail l : listIter := listGetIterator l false.

Definition listNext h (it : listIter) : option (option addr * listIter) :=
  match it_next it with
  | None => Some (None, it)
  | Some a =>
      nd ← h !! a;
      Some (Some a, {| it_next := if from_head it then next nd else prev nd; from_head := from_head it |})
  end.

(** [match] is the method of the list, [None] when it is not set; pointer
    equality is equality of the values then. *)
Fixpoint search_loop (fuel : nat) (match_ : option (V -> V -> bool)) h (it : listIter) (key : V)
    : option (option addr) :=
  match fuel with
  | O => None
  | S fuel =>
      r ← listNext h it;
      match r with
      | (None, _) => Some None
      | (Some a, it) =>
          nd ← h !! a;
          let hit := match match_ with
                     | Some f => f (value nd) key
                     | None => bool_decide (key = value nd)
                     end in
          if hit : bool then Some (Some a) else search_loop fuel match_ h it key
      end
  end.

Definition listSearchKey (match_ : option (V -> V -> bool)) h l (key : V) : option (option addr) :=
  search_loop (S (Z.to_nat (len l))) match_ h (listRewind l) key.

(** [while(index-- && n) n = forward ? n->next : n->prev;] *)
Fixpoint index_loop (k : nat) h (forward : bool) (n : option addr) : option (option addr) :=
  match k with
  | O => Some n
  | S k =>
      match n with
      | None => Some None
      | Some a => nd ← h !! a; index_loop k h forward (if forward then next nd else prev nd)
      end
  end.

Definition listIndex h l (index : Z) : option (option addr) :=
  if index <? 0 then index_loop (Z.to_nat (- index - 1)) h false (tail l)
  else index_loop (Z.to_nat index) h true (head l).

(** The copy, in the same heap; [None] inside: NULL, the copy released. *)
Fixpoint dup_loop (fuel : nat) (dup : option (V -> option V)) h (it : listIter) (copy : adlist)
    : option (heap * option adlist) :=
  match fuel with
  | O => None
  | S fuel =>
      r ← listNext h it;
      match r with
      | (None, _) => Some (h, Some copy)
      | (Some a, it) =>
          nd ← h !! a;
          let v := match dup with Some f => f (value nd) | None => Some (value nd) end in
          match v with
          | None => r ← listEmpty h copy; Some (fst r, None)
          | Some v => r ← listAddNodeTail h copy v; dup_loop fuel dup (fst r) it (snd r)
          end
      end
  end.

Definition listDup (dup : option (V -> option V)) h (orig : adlist) : option (heap * option adlist) :=
  dup_loop (S (Z.to_nat (len orig))) dup h (listRewind orig) listCreate.

Definition listRotate h l : option (heap * adlist) :=
  if len l <=? 1 then Some (h, l)
  else
    t ← tail l;
    tn ← h !! t;
    let tl := prev tn in
    h ← set_next h tl None;
    h ← set_prev h (head l) (Some t);
    h ← set_prev h (Some t) None;
    h ← set_next h (Some t) (head l);
    Some (h, {| head := Some t; tail := tl; len := len l |}).

(** The results: [l] and the emptied [o]. *)
Definition listJoin h l (o : adlist) : option (heap * adlist * adlist) :=
  h ← (match head o with Some _ => set_prev h (head o) (tail l) | None => Some h end);
  h ← (match tail l with Some _ => set_next h (tail l) (head o) | None => Some h end);
  let hd := match tail l with Some _ => head l | None => head o end in
  let tl := match tail o with Some _ => tail o | None => tail l end in
  Some (h, {| head := hd; tail := tl; len := u64 (len l + len o) |},
        {| head := None; tail := None; len := 0 |}).
End Adlist.

Arguments listNode : clear implicits.
