(* ===== verification/AdlistRefine.v ===== *)
(** * The linked lists represent sequences

    [dll h l ps]: in the heap [h] the list [l] consists of the nodes [ps], pairs
    of an address and a value, linked in both directions.  Every operation is
    proved against it, together with the part of the heap it leaves alone. *)
From Stdlib Require Import ZArith Lia.
From stdpp Require Import base numbers list option gmap infinite.
From S2P Require Import Prelude Adlist.

Section Refine.
Context {V : Type} `{EqDecision V}.
Abbreviation heap := (gmap addr (listNode V)).
Abbreviation nodes := (list (addr * V)).
Implicit Types (h : heap) (ps A B : nodes) (pv nx : option addr) (a b : addr).

Definition hdp ps nx : option addr := match ps with [] => nx | (a, _) :: _ => Some a end.

Fixpoint lastp pv ps : option addr := match ps with [] => pv | (a, _) :: ps => lastp (Some a) ps end.

(** A segment of nodes between [pv] and [nx]. *)
Fixpoint seg h pv ps nx : Prop :=
  match ps with
  | [] => True
  | (a, v) :: ps => h !! a = Some {| prev := pv; next := hdp ps nx; value := v |} /\ seg h (Some a) ps nx
  end.

Record dll h (l : adlist) ps : Prop := {
  dll_seg : seg h None ps None;
  dll_nodup : NoDup ps.*1;
  dll_head : head l = hdp ps None;
  dll_tail : tail l = lastp None ps;
  dll_len : len l = zlen ps
}.

Definition frame h h' ps : Prop := forall b, b ∉ ps.*1 -> h' !! b = h !! b.

Lemma hdp_app A B nx : hdp (A ++ B) nx = hdp A (hdp B nx).
Proof. by destruct A as [|[]]. Qed.

Lemma lastp_app A B pv : lastp pv (A ++ B) = lastp (lastp pv A) B.
Proof. revert pv. induction A as [|[a v] A IH]; intros pv; [done|]. apply IH. Qed.

Lemma lastp_some A pv a : is_Some (lastp (Some a) A).
Proof. revert a. induction A as [|[b v] A IH]; intros a; [by eexists|]. apply IH. Qed.

Lemma seg_app h A B pv nx : seg h pv (A ++ B) nx <-> seg h pv A (hdp B nx) /\ seg h (lastp pv A) B nx.
Proof.
  revert pv. induction A as [|[a v] A IH]; intros pv; cbn [app seg lastp]; [tauto|].
  rewrite IH, hdp_app. tauto.
Qed.

Lemma seg_frame h h' ps pv nx : (forall b, b ∈ ps.*1 -> h' !! b = h !! b) -> seg h pv ps nx -> seg h' pv ps nx.
Proof.
  revert pv. induction ps as [|[a v] ps IH]; intros pv Hf; [done|]. cbn [seg]. intros [Ha Hs]. split.
  - rewrite Hf; [done|]. by constructor.
  - apply IH; [|done]. intros b Hb. apply Hf. by constructor.
Qed.

Lemma frame_trans h1 h2 h3 A B C : frame h1 h2 A -> frame h2 h3 B ->
  (forall b, b ∉ C.*1 -> (b ∉ A.*1) /\ (b ∉ B.*1)) -> frame h1 h3 C.
Proof. intros H1 H2 Hc b Hb. destruct (Hc b Hb). rewrite H2, H1; done. Qed.

Lemma seg_disjoint h h' A B pv nx : frame h h' A -> (forall b, b ∈ B.*1 -> b ∉ A.*1) -> seg h pv B nx -> seg h' pv B nx.
Proof. intros Hf Hd. apply seg_frame. intros b Hb. apply Hf. by apply Hd. Qed.

(** Redirecting the last [next] and the first [prev] of a segment. *)
Lemma set_next_last h pv A nx q : seg h pv A nx -> NoDup A.*1 -> A <> [] ->
  exists h', set_next h (lastp pv A) q = Some h' /\ seg h' pv A q /\ frame h h' A.
Proof.
  intros Hs Hnd Hne. destruct (exists_last Hne) as (A' & [a v] & ->). rewrite lastp_app. cbn [lastp].
  apply seg_app in Hs as [Hs1 [Ha _]]. cbn [hdp] in *. unfold set_next. cbn [mbind option_bind]. rewrite Ha.
  cbn [mbind option_bind prev value]. eexists; split; [done|].
  rewrite fmap_app in Hnd. apply NoDup_app in Hnd as (_ & Hd & _). split.
  - apply seg_app. split; cbn [hdp seg].
    + apply (seg_frame h); [|done]. intros b Hb. rewrite lookup_insert_ne; [done|].
      intros <-. apply (Hd a Hb). by constructor.
    + split; [by rewrite lookup_insert_eq|done].
  - intros b Hb. rewrite lookup_insert_ne; [done|]. intros <-. apply Hb. rewrite fmap_app, elem_of_app. right. by constructor.
Qed.

Lemma set_prev_head h pv A nx q : seg h pv A nx -> NoDup A.*1 -> A <> [] ->
  exists h', set_prev h (hdp A nx) q = Some h' /\ seg h' q A nx /\ frame h h' A.
Proof.
  destruct A as [|[a v] A]; [done|]. intros [Ha Hs] Hnd _. cbn [hdp]. unfold set_prev. cbn [mbind option_bind].
  rewrite Ha. cbn [mbind option_bind next value]. eexists; split; [done|].
  rewrite fmap_cons in Hnd. apply NoDup_cons in Hnd as [Hni _]. cbn [fst] in Hni. split.
  - cbn [seg]. split; [by rewrite lookup_insert_eq|]. apply (seg_frame h); [|done].
    intros b Hb. rewrite lookup_insert_ne; [done|]. by intros <-.
  - intros b Hb. rewrite lookup_insert_ne; [done|]. intros <-. apply Hb. by constructor.
Qed.

(** The same where the segment may be empty, as the code tests it. *)
Lemma link_next h A nx q : seg h None A nx -> NoDup A.*1 ->
  exists h', (match lastp None A with Some _ => set_next h (lastp None A) q | None => Some h end) = Some h' /\
    seg h' None A q /\ frame h h' A.
Proof.
  intros Hs Hnd. destruct A as [|[a v] A]; [by exists h|].
  destruct (set_next_last h None ((a, v) :: A) nx q Hs Hnd) as (h' & Hset & H'); [done|].
  exists h'. cbn [lastp] in *. destruct (lastp_some A None a) as [x Hx]. rewrite Hx in *. done.
Qed.

Lemma link_prev h A pv q : seg h pv A None -> NoDup A.*1 ->
  exists h', (match hdp A None with Some _ => set_prev h (hdp A None) q | None => Some h end) = Some h' /\
    seg h' q A None /\ frame h h' A.
Proof.
  intros Hs Hnd. destruct A as [|[a v] A]; [by exists h|]. by apply (set_prev_head h pv ((a, v) :: A)).
Qed.

Lemma nodup_parts A B : NoDup (A ++ B).*1 ->
  NoDup A.*1 /\ NoDup B.*1 /\ (forall b, b ∈ A.*1 -> b ∉ B.*1) /\ (forall b, b ∈ B.*1 -> b ∉ A.*1).
Proof. rewrite fmap_app. intros (H1 & H2 & H3)%NoDup_app. repeat split; auto. intros b Hb Ha. by apply (H2 b Ha). Qed.

(** ** Insertion *)

Lemma alloc_fresh h : h !! alloc h = None.
Proof. apply not_elem_of_dom. apply is_fresh. Qed.

Lemma seg_dom h pv ps nx b : seg h pv ps nx -> b ∈ ps.*1 -> is_Some (h !! b).
Proof.
  revert pv. induction ps as [|[a v] ps IH]; intros pv; [by intros _ ?%elem_of_nil|].
  intros [Ha Hs] [->|Hb]%elem_of_cons; [by eexists|]. by eapply IH.
Qed.

(** Linking a fresh node between two segments. *)
Lemma insert_seg h A B v : seg h None (A ++ B) None -> NoDup (A ++ B).*1 ->
  let node := alloc h in
  let h1 := <[node := {| prev := lastp None A; next := hdp B None; value := v |}]> h in
  exists h2 h3,
    (match lastp None A with Some _ => set_next h1 (lastp None A) (Some node) | None => Some h1 end) = Some h2 /\
    (match hdp B None with Some _ => set_prev h2 (hdp B None) (Some node) | None => Some h2 end) = Some h3 /\
    seg h3 None (A ++ (node, v) :: B) None /\ NoDup (A ++ (node, v) :: B).*1 /\
    frame h h3 (A ++ (node, v) :: B).
Proof.
  intros Hs Hnd node h1. assert (Hni : node ∉ (A ++ B).*1).
  { intros Hin. destruct (seg_dom _ _ _ _ _ Hs Hin) as [x Hx]. pose proof (alloc_fresh h) as Hnone. fold node in Hnone. congruence. }
  destruct (nodup_parts A B Hnd) as (HA & HB & HAB & HBA). rewrite fmap_app, not_elem_of_app in Hni. destruct Hni as [HniA HniB].
  assert (F1 : frame h h1 [(node, v)]).
  { intros b Hb. unfold h1. rewrite lookup_insert_ne; [done|]. intros <-. apply Hb. by constructor. }
  apply seg_app in Hs as [HsA HsB].
  assert (D1 : forall C b, node ∉ C.*1 -> b ∈ (C : nodes).*1 -> b ∉ [(node, v)].*1).
  { intros C b HC Hb. cbn. intros ->%list_elem_of_singleton. done. }
  apply (seg_disjoint h h1 [(node, v)]) in HsA; [|exact F1|intros b Hb; exact (D1 _ b HniA Hb)]. apply (seg_disjoint h h1 [(node, v)]) 
    in HsB; [|exact F1|intros b Hb; exact (D1 _ b HniB Hb)].
  destruct (link_next h1 A _ (Some node) HsA HA) as (h2 & Hh2 & HsA2 & F2).
  apply (seg_disjoint h1 h2 A) in HsB; [|exact F2|done].
  destruct (link_prev h2 B _ (Some node) HsB HB) as (h3 & Hh3 & HsB3 & F3).
  exists h2, h3. split; [done|]. split; [done|].
  assert (Hin : forall b, b ∉ (A ++ (node, v) :: B).*1 -> b <> node /\ (b ∉ A.*1) /\ (b ∉ B.*1)).
  { intros b. rewrite fmap_app, not_elem_of_app. cbn. rewrite not_elem_of_cons. tauto. }
  split; [|split].
  - apply seg_app. cbn [hdp seg]. split; [by apply (seg_disjoint h2 h3 B)|]. split; [|done].
    rewrite F3, F2 by done. unfold h1. by rewrite lookup_insert_eq.
  - rewrite fmap_app, fmap_cons. cbn [fst]. apply NoDup_app. split; [done|]. split.
    + intros b Hb [->|?]%elem_of_cons; [done|]. by apply (HAB b).
    + by constructor.
  - intros b Hb. destruct (Hin b Hb) as (Hn & H1 & H2). rewrite F3, F2 by done. unfold h1. by rewrite lookup_insert_ne.
Qed.

Lemma lastp_none A : lastp None A = None -> A = [].
Proof. destruct A as [|[a v] A]; [done|]. cbn. intros E. destruct (lastp_some A None a) as [x Hx]. congruence. Qed.

Lemma add_head_spec h l ps v : dll h l ps -> zlen ps < 2 ^ 64 - 1 ->
  exists h' l', listAddNodeHead h l v = Some (h', l') /\ dll h' l' ((alloc h, v) :: ps) /\
    frame h h' ((alloc h, v) :: ps).
Proof.
  intros [Hs Hnd Hh Ht Hl] Hlen. pose_zlen. destruct (insert_seg h [] ps v Hs Hnd) as (h2 & h3 & E2 & E3 & Hs' & Hnd' & Hf).
  cbn [lastp app] in *. injection E2 as <-. unfold listAddNodeHead. rewrite Hh.
  assert (Hlen' : u64 (len l + 1) = zlen ((alloc h, v) :: ps)) by (rewrite Hl, zlen_cons, uwrap_small; lia).
  destruct ps as [|[a w] ps].
  - rewrite Hl. cbn [hdp] in *. injection E3 as <-. eexists _, _. split; [done|]. split; [|done].
    split; [done|done|done|done|by rewrite <- Hl].
  - rewrite Hl, zlen_cons. pose_zlen. rewrite (proj2 (Z.eqb_neq _ _)) by lia. cbn [hdp] in E3 |- *. rewrite E3.
    cbn [mbind option_bind]. eexists _, _. split; [done|]. split; [|done].
    split; [done|done|done|by rewrite Ht|cbn [len]; by rewrite <- zlen_cons with (x := (a, w)), <- Hl].
Qed.

Lemma add_tail_spec h l ps v : dll h l ps -> zlen ps < 2 ^ 64 - 1 ->
  exists h' l', listAddNodeTail h l v = Some (h', l') /\ dll h' l' (ps ++ [(alloc h, v)]) /\
    frame h h' (ps ++ [(alloc h, v)]).
Proof.
  intros [Hs Hnd Hh Ht Hl] Hlen. pose_zlen.
  destruct (insert_seg h ps [] v) as (h2 & h3 & E2 & E3 & Hs' & Hnd' & Hf); [by rewrite app_nil_r..|].
  cbn [hdp] in *. injection E3 as <-. unfold listAddNodeTail. rewrite Ht.
  assert (Hlen' : u64 (len l + 1) = zlen (ps ++ [(alloc h, v)])) by (rewrite Hl, uwrap_small by lia; zlia).
  destruct (len l =? 0) eqn:E.
  - assert (ps = []) as -> by (destruct ps; [done|exfalso; zlia]). cbn [lastp] in E2. injection E2 as <-.
    eexists _, _. split; [done|]. split; [|done]. by split.
  - assert (Hne : ps <> []) by (intros ->; rewrite Hl in E; done).
    destruct (lastp None ps) as [t|] eqn:El; [|by apply lastp_none in El]. rewrite E2. cbn [mbind option_bind].
    eexists _, _. split; [done|]. split; [|done].
    split; [done|done|by rewrite Hh, hdp_app; destruct ps as [|[]]|by rewrite lastp_app|done].
Qed.

(** A node of the list, with what is before and after it. *)
Lemma seg_node h A B a v : seg h None (A ++ (a, v) :: B) None ->
  h !! a = Some {| prev := lastp None A; next := hdp B None; value := v |}.
Proof. intros (_ & Ha & _)%seg_app. done. Qed.

Lemma insert_spec h l A B o vo v (after : bool) : dll h l (A ++ (o, vo) :: B) -> zlen (A ++ (o, vo) :: B) < 2 ^ 64 - 1 ->
  let ps' := if after then A ++ (o, vo) :: (alloc h, v) :: B else A ++ (alloc h, v) :: (o, vo) :: B in
  exists h' l', listInsertNode h l o v after = Some (h', l') /\ dll h' l' ps' /\ frame h h' ps'.
Proof.
  intros [Hs Hnd Hh Ht Hl] Hlen ps'. pose_zlen. unfold listInsertNode. rewrite (seg_node h A B o vo Hs).
  cbn [mbind option_bind prev next]. pose proof (nodup_parts _ _ Hnd) as (_ & HB & HAB & _).
  rewrite fmap_cons in HB. apply NoDup_cons in HB as [HoB _]. cbn [fst] in HoB.
  assert (HoA : o ∉ A.*1) by (intros Hi; apply (HAB o Hi); by constructor).
  assert (Hlen' : u64 (len l + 1) = zlen ps').
  { rewrite Hl, uwrap_small by (pose_zlen; lia). unfold ps'. destruct after; zlia. }
  destruct after; cbn [andb negb].
  - destruct (insert_seg h (A ++ [(o, vo)]) B v) as (h2 & h3 & E2 & E3 & Hs' & Hnd' & Hf); [by rewrite <- app_assoc..|].
    rewrite lastp_app in E2. cbn [lastp] in E2. rewrite E2. cbn [mbind option_bind]. rewrite E3.
    cbn [mbind option_bind]. rewrite <- app_assoc in Hs', Hnd', Hf. cbn [app] in Hs', Hnd', Hf.
    eexists _, _. split; [done|]. split; [|done]. split; [done|done|cbn [head]; rewrite Hh; unfold ps'; by rewrite !hdp_app| |done].
    cbn [tail]. rewrite Ht. unfold ps'. rewrite !lastp_app. cbn [lastp]. case_bool_decide as Hd.
    + assert (B = []) as ->; [|done]. destruct B as [|[b w] B]; [done|]. exfalso. apply HoB.
      assert (Hin : forall C p, lastp (Some p) C = Some o -> o <> p -> o ∈ C.*1).
      { clear. induction C as [|[c w] C IH]; intros p; cbn [lastp]; [by intros [= ->]|]. intros Hc _.
        destruct (decide (o = c)) as [->|Hne]; [by constructor|]. constructor. by eapply IH. }
      cbn [lastp] in Hd. destruct (decide (o = b)) as [->|Hne]; [by constructor|]. constructor. by eapply Hin.
    + assert (HB : B <> []) by (intros ->; cbn [lastp] in Hd; done). by destruct B as [|[]].
  - destruct (insert_seg h A ((o, vo) :: B) v Hs Hnd) as (h2 & h3 & E2 & E3 & Hs' & Hnd' & Hf). cbn [hdp] in E2, E3.
    rewrite E2. cbn [mbind option_bind]. rewrite E3. cbn [mbind option_bind].
    eexists _, _. split; [done|]. split; [|done]. split; [done|done| |cbn [tail]; rewrite Ht; unfold ps'; by rewrite !lastp_app|done].
    cbn [head]. rewrite Hh. unfold ps'. rewrite !hdp_app. cbn [hdp]. destruct A as [|[a w] A]; cbn [hdp].
    + by rewrite bool_decide_true.
    + rewrite bool_decide_false; [done|]. intros [= ->]. apply HoA. by constructor.
Qed.

Lemma del_spec h l A B o vo : dll h l (A ++ (o, vo) :: B) -> len l < 2 ^ 64 ->
  exists h' l', listDelNode h l o = Some (h', l') /\ dll h' l' (A ++ B) /\ frame h h' (A ++ (o, vo) :: B) /\ h' !! o = None.
Proof.
  intros [Hs Hnd Hh Ht Hl] Hlen. unfold listDelNode. rewrite (seg_node h A B o vo Hs).
  cbn [mbind option_bind prev next]. destruct (nodup_parts _ _ Hnd) as (HA & HB & HAB & HBA).
  rewrite fmap_cons in HB, HAB, HBA. apply NoDup_cons in HB as [HoB HB]. cbn [fst] in *.
  apply seg_app in Hs as [HsA [_ HsB]].
  destruct (link_next h A _ (hdp B None) HsA HA) as (h1 & E1 & HsA1 & F1). rewrite E1. cbn [mbind option_bind].
  assert (HBA' : forall b, b ∈ B.*1 -> b ∉ A.*1) by (intros b Hb; apply HBA; by constructor).
  assert (HAB' : forall b, b ∈ A.*1 -> b ∉ B.*1) by (intros b Hb Hb'; by apply (HBA' b)).
  apply (seg_disjoint h h1 A) in HsB; [|done|done].
  destruct (link_prev h1 B _ (lastp None A) HsB HB) as (h2 & E2 & HsB2 & F2). rewrite E2. cbn [mbind option_bind].
  apply (seg_disjoint h1 h2 B) in HsA1; [|done|done].
  assert (HoA : o ∉ A.*1) by (intros Hi; apply (HAB o Hi); by constructor).
  eexists _, _. split; [done|]. split; [split; cbn [head tail len]|split].
  - assert (Hd : forall C, o ∉ (C : nodes).*1 -> forall b, b ∈ C.*1 -> delete o h2 !! b = h2 !! b).
    { intros C HC b Hb. apply lookup_delete_ne. by intros ->. }
    apply seg_app. split; [by apply (seg_frame h2); [apply Hd|]|by apply (seg_frame h2); [apply Hd|]].
  - rewrite fmap_app. by apply NoDup_app.
  - rewrite hdp_app, Hh, hdp_app. cbn [hdp]. destruct (lastp None A) eqn:E; [|by apply lastp_none in E as ->].
    by destruct A as [|[]].
  - rewrite lastp_app, Ht, lastp_app. cbn [lastp]. by destruct B as [|[b w] B].
  - rewrite Hl in *. autorewrite with zlen in *. pose_zlen. rewrite uwrap_small; lia.
  - intros b Hb. rewrite fmap_app, not_elem_of_app, fmap_cons, not_elem_of_cons in Hb. cbn [fst] in Hb.
    destruct Hb as (? & ? & ?). rewrite lookup_delete_ne by done. by rewrite F2, F1.
  - apply lookup_delete_eq.
Qed.

(** ** Rotation and concatenation *)

Lemma rotate_spec h l A t vt : dll h l (A ++ [(t, vt)]) -> A <> [] ->
  exists h' l', listRotate h l = Some (h', l') /\ dll h' l' ((t, vt) :: A) /\ frame h h' ((t, vt) :: A).
Proof.
  intros [Hs Hnd Hh Ht Hl] Hne. unfold listRotate. rewrite Hl. autorewrite with zlen. pose_zlen.
  assert (0 < zlen A) by (destruct A; [done|zlia]). rewrite (proj2 (Z.leb_gt _ _)) by lia.
  rewrite Ht, lastp_app. cbn [lastp mbind option_bind]. rewrite (seg_node h A [] t vt Hs). cbn [mbind option_bind prev].
  destruct (nodup_parts _ _ Hnd) as (HA & _ & HAt & HtA). apply seg_app in Hs as [HsA [Hat _]]. cbn [hdp] in *.
  assert (HtA' : t ∉ A.*1) by (apply HtA; by constructor).
  destruct (set_next_last h None A _ None HsA HA Hne) as (h1 & E1 & HsA1 & F1).
  destruct (set_prev_head h1 None A None (Some t) HsA1 HA Hne) as (h2 & E2 & HsA2 & F2).
  assert (Hhd : hdp (A ++ [(t, vt)]) None = hdp A None) by (by destruct A as [|[]]).
  rewrite E1. cbn [mbind option_bind]. rewrite Hh, Hhd, E2. cbn [mbind option_bind].
  assert (Ht2 : h2 !! t = Some {| prev := lastp None A; next := None; value := vt |}) by (rewrite F2, F1; done).
  unfold set_prev at 1. cbn [mbind option_bind]. rewrite Ht2. cbn [mbind option_bind next value].
  unfold set_next at 1. cbn [mbind option_bind]. rewrite lookup_insert_eq. cbn [mbind option_bind prev value].
  rewrite insert_insert_eq. eexists _, _. split; [done|]. split; [split; cbn [head tail len]|].
  - cbn [seg]. rewrite lookup_insert_eq. split; [done|]. apply (seg_frame h2); [|done].
    intros b Hb. apply lookup_insert_ne. by intros <-.
  - rewrite fmap_cons. by constructor.
  - done.
  - destruct (exists_last Hne) as (A' & [x vx] & ->). cbn [lastp]. by rewrite !lastp_app.
  - zlia.
  - intros b Hb. rewrite fmap_cons, not_elem_of_cons in Hb. cbn [fst] in Hb. destruct Hb.
    rewrite lookup_insert_ne by done. by rewrite F2, F1.
Qed.

Lemma join_spec h l o A B : dll h l A -> dll h o B -> (forall b, b ∈ A.*1 -> b ∉ B.*1) -> zlen A + zlen B < 2 ^ 64 ->
  exists h' l', listJoin h l o = Some (h', l', listCreate) /\ dll h' l' (A ++ B) /\ frame h h' (A ++ B).
Proof.
  intros [HsA HndA HhA HtA HlA] [HsB HndB HhB HtB HlB] Hd Hlen. unfold listJoin. rewrite HhB, HtA.
  assert (Hd' : forall b, b ∈ B.*1 -> b ∉ A.*1) by (intros b Hb Hb'; by apply (Hd b)).
  destruct (link_prev h B _ (lastp None A) HsB HndB) as (h1 & E1 & HsB1 & F1). rewrite E1. cbn [mbind option_bind].
  apply (seg_disjoint h h1 B) in HsA; [|done|done].
  destruct (link_next h1 A _ (hdp B None) HsA HndA) as (h2 & E2 & HsA2 & F2). rewrite E2. cbn [mbind option_bind].
  apply (seg_disjoint h1 h2 A) in HsB1; [|done|done].
  eexists _, _. split; [done|]. split; [split; cbn [head tail len]|].
  - by apply seg_app.
  - rewrite fmap_app. by apply NoDup_app.
  - rewrite hdp_app, HhA. destruct (lastp None A) eqn:E; [|by apply lastp_none in E as ->]. by destruct A as [|[]].
  - rewrite lastp_app, HtB. destruct B as [|[b w] B]; cbn [lastp]; [done|]. by destruct (lastp_some B None b) as [x ->].
  - rewrite HlA, HlB. autorewrite with zlen. pose_zlen. apply uwrap_small. lia.
  - intros b Hb. rewrite fmap_app, not_elem_of_app in Hb. destruct Hb. by rewrite F2, F1.
Qed.

(** ** Iteration *)

Lemma listNext_head h A B a v nx : seg h None (A ++ (a, v) :: B) nx ->
  listNext h {| it_next := Some a; from_head := true |} = Some (Some a, {| it_next := hdp B nx; from_head := true |}) /\
  exists p, h !! a = Some {| prev := p; next := hdp B nx; value := v |}.
Proof.
  intros (_ & Ha & _)%seg_app. unfold listNext. cbn [it_next from_head]. rewrite Ha. split; [done|by eexists].
Qed.

(** The first node that the predicate of the search accepts. *)

Fixpoint first_hit (f : V -> bool) ps : option addr :=
  match ps with [] => None | (a, v) :: ps => if f v then Some a else first_hit f ps end.

Lemma list_search_spec match_ h key A B fuel : seg h None (A ++ B) None -> (length B < fuel)%nat ->
  search_loop fuel match_ h {| it_next := hdp B None; from_head := true |} key =
    Some (first_hit (fun v => match match_ with Some f => f v key | None => bool_decide (key = v) end) B).
Proof.
  revert A B. induction fuel as [|fuel IH]; intros A B Hs Hf; [lia|]. destruct B as [|[a v] B]; [done|].
  destruct (listNext_head h A B a v None Hs) as [En (p & Ha)]. cbn [search_loop hdp first_hit]. rewrite En.
  rewrite bind_Some, Ha, bind_Some. cbn [value]. destruct (match match_ with Some f => f v key | None => bool_decide (key = v) end); [done|].
  apply (IH (A ++ [(a, v)])); [by rewrite <- app_assoc|]. cbn in Hf. lia.
Qed.

Lemma index_forward h A B k : seg h None (A ++ B) None ->
  index_loop k h true (hdp B None) = Some (hdp (drop k B) None).
Proof.
  revert A B. induction k as [|k IH]; intros A B Hs; [done|]. destruct B as [|[a v] B]; [done|].
  destruct (listNext_head h A B a v None Hs) as [_ (p & Ha)]. cbn [index_loop hdp drop]. rewrite Ha, bind_Some.
  apply (IH (A ++ [(a, v)])). by rewrite <- app_assoc.
Qed.

Lemma index_backward h A B k : seg h None (A ++ B) None ->
  index_loop k h false (lastp None A) = Some (lastp None (take (length A - k) A)).
Proof.
  revert A B. induction k as [|k IH]; intros A B Hs; [by rewrite Nat.sub_0_r, firstn_all|].
  destruct (decide (A = [])) as [->|Hne]; [done|]. destruct (exists_last Hne) as (A' & [a v] & ->).
  rewrite <- app_assoc in Hs. rewrite lastp_app. cbn [lastp index_loop]. rewrite (seg_node h A' B a v Hs), bind_Some.
  cbn [prev]. rewrite (IH A' _ Hs). rewrite length_app. cbn [length].
  replace (length A' + 1 - S k)%nat with (length A' - k)%nat by lia. by rewrite take_app_le by lia.
Qed.

Lemma hdp_drop ps k : hdp (drop k ps) None = fst <$> ps !! k.
Proof. revert k. induction ps as [|[a v] ps IH]; intros [|k]; [done|done|done|apply IH]. Qed.

Lemma lastp_take ps k : (k <= length ps)%nat -> lastp None (take k ps) = match k with O => None | S k => fst <$> ps !! k end.
Proof.
  intros Hk. destruct k as [|k]; [done|]. destruct (lookup_lt_is_Some_2 ps k) as [[a v] Hp]; [lia|].
  by rewrite (take_S_r _ _ _ Hp), lastp_app, Hp.
Qed.

Lemma index_spec h l ps i : dll h l ps -> - 2 ^ 63 <= i < 2 ^ 63 ->
  listIndex h l i = Some (fst <$> (mget ps (if i <? 0 then zlen ps + i else i))).
Proof.
  intros [Hs Hnd Hh Ht Hl] Hi. unfold listIndex. destruct (i <? 0) eqn:E.
  - rewrite Ht, (index_backward h ps [] _) by (by rewrite app_nil_r).
    rewrite lastp_take by lia. unfold mget, zlen. destruct (length ps - Z.to_nat (- i - 1))%nat eqn:Ek.
    + destruct (0 <=? Z.of_nat (length ps) + i) eqn:El; [|done]. lia.
    + rewrite (Zle_imp_le_bool 0) by lia. do 3 f_equal. lia.
  - rewrite Hh, (index_forward h [] ps) by done. rewrite hdp_drop. unfold mget. by rewrite (Zle_imp_le_bool 0) by lia.
Qed.

(** ** Release *)

Lemma empty_loop_spec h pv ps : seg h pv ps None -> NoDup ps.*1 ->
  exists h', empty_loop (length ps) h (hdp ps None) = Some h' /\ frame h h' ps /\ forall b, b ∈ ps.*1 -> h' !! b = None.
Proof.
  revert h pv. induction ps as [|[a v] ps IH]; intros h pv Hs Hnd.
  { exists h. split; [done|]. split; [done|]. by intros b ?%elem_of_nil. }
  destruct Hs as [Ha Hs]. rewrite fmap_cons in Hnd. apply NoDup_cons in Hnd as [Hni Hnd]. cbn [fst] in Hni.
  cbn [length empty_loop hdp]. rewrite bind_Some, Ha, bind_Some. cbn [next].
  destruct (IH (delete a h) (Some a)) as (h' & E & F & D); [|done|].
  { apply (seg_frame h); [|done]. intros b Hb. apply lookup_delete_ne. by intros <-. }
  exists h'. split; [done|]. split.
  - intros b Hb. rewrite fmap_cons, not_elem_of_cons in Hb. cbn [fst] in Hb. destruct Hb. rewrite F by done. by apply lookup_delete_ne.
  - intros b [->|Hb]%elem_of_cons; [|by apply D]. rewrite F by done. apply lookup_delete_eq.
Qed.

Lemma empty_spec h l ps : dll h l ps ->
  exists h', listEmpty h l = Some (h', listCreate) /\ frame h h' ps /\ forall b, b ∈ ps.*1 -> h' !! b = None.
Proof.
  intros [Hs Hnd Hh Ht Hl]. unfold listEmpty. destruct (empty_loop_spec h None ps Hs Hnd) as (h' & E & F & D).
  rewrite Hl, Hh. unfold zlen. rewrite Nat2Z.id, E. by exists h'.
Qed.

(** ** Copies *)

Definition dup_val (dup : option (V -> option V)) (v : V) : option V :=
  match dup with Some f => f v | None => Some v end.

(** What the loop keeps: the copy so far is made of nodes that were free, and
    the rest of the heap has not changed. *)
Record copying h0 h (copy : adlist) C : Prop := {
  cp_dll : dll h copy C;
  cp_frame : frame h0 h C;
  cp_fresh : forall b, b ∈ C.*1 -> h0 !! b = None
}.

Lemma copying_step h0 h copy C v : copying h0 h copy C -> zlen C < 2 ^ 64 - 1 ->
  exists h' copy' a, listAddNodeTail h copy v = Some (h', copy') /\ copying h0 h' copy' (C ++ [(a, v)]).
Proof.
  intros [Hd Hf Hfr] Hlen. destruct (add_tail_spec h copy C v Hd Hlen) as (h' & copy' & E & Hd' & Hf').
  assert (Hn : alloc h ∉ C.*1).
  { intros Hin. destruct (seg_dom _ _ _ _ _ (dll_seg _ _ _ Hd) Hin) as [x Hx]. by rewrite alloc_fresh in Hx. }
  exists h', copy', (alloc h). split; [done|]. split; [done| |].
  - intros b Hb. rewrite Hf' by done. apply Hf. rewrite fmap_app, not_elem_of_app in Hb. tauto.
  - intros b. rewrite fmap_app, elem_of_app. intros [Hb|Hb]; [by apply Hfr|]. apply list_elem_of_singleton in Hb as ->.
    cbn [fst]. rewrite <- Hf by done. apply alloc_fresh.
Qed.

Lemma copying_seg h0 h copy C ps : copying h0 h copy C -> seg h0 None ps None -> seg h None ps None.
Proof.
  intros [_ Hf Hfr] Hs. apply (seg_frame h0); [|done]. intros b Hb. apply Hf. intros Hc.
  destruct (seg_dom _ _ _ _ _ Hs Hb) as [x Hx]. by rewrite (Hfr b Hc) in Hx.
Qed.

Lemma copying_release h0 h copy C : copying h0 h copy C -> listEmpty h copy = Some (h0, listCreate).
Proof.
  intros [Hd Hf Hfr]. destruct (empty_spec h copy C Hd) as (h' & E & F & D). rewrite E. do 2 f_equal.
  apply map_eq. intros b. destruct (decide (b ∈ C.*1)) as [Hb|Hb]; [by rewrite D, Hfr|]. by rewrite F, Hf.
Qed.

Lemma dup_loop_spec dup h0 A B h copy C fuel :
  seg h0 None (A ++ B) None -> copying h0 h copy C -> zlen C + zlen B < 2 ^ 64 -> (length B < fuel)%nat ->
  match mapM (dup_val dup) B.*2 with
  | Some vs => exists h' copy' C', dup_loop fuel dup h {| it_next := hdp B None; from_head := true |} copy = Some (h', Some copy') /\
                 copying h0 h' copy' (C ++ C') /\ C'.*2 = vs
  | None => dup_loop fuel dup h {| it_next := hdp B None; from_head := true |} copy = Some (h0, None)
  end.
Proof.
  intros Hs. revert A B h copy C Hs. induction fuel as [|fuel IH]; intros A B h copy C Hs Hc Hlen Hf; [lia|].
  destruct B as [|[a v] B].
  { cbn. exists h, copy, []. by rewrite app_nil_r. }
  pose proof (copying_seg _ _ _ _ _ Hc Hs) as Hs'. destruct (listNext_head h A B a v None Hs') as [En (p & Ha)].
  cbn [dup_loop hdp]. rewrite En, bind_Some, Ha, bind_Some. cbn [value]. rewrite fmap_cons. cbn [snd mapM].
  change (match dup with Some f => f v | None => Some v end) with (dup_val dup v).
  destruct (dup_val dup v) as [w|]; cbn [mbind option_bind].
  - rewrite zlen_cons in Hlen. pose_zlen. destruct (copying_step h0 h copy C w Hc) as (h1 & copy1 & b & E & Hc1); [lia|].
    rewrite E, bind_Some. cbn [fst snd].
    specialize (IH (A ++ [(a, v)]) B h1 copy1 (C ++ [(b, w)])). rewrite <- app_assoc in IH.
    specialize (IH Hs Hc1 ltac:(zlia) ltac:(cbn in Hf; lia)).
    destruct (mapM (dup_val dup) B.*2) as [vs|]; cbn [mbind option_bind]; [|done].
    destruct IH as (h' & copy' & C' & E' & Hc' & Hv). exists h', copy', ((b, w) :: C'). split; [done|].
    rewrite <- app_assoc in Hc'. split; [done|]. by rewrite fmap_cons, Hv.
  - by rewrite (copying_release h0 h copy C Hc).
Qed.
End Refine.

(** ** What the operations promise *)

(** The editing operations of a linked list do to the sequence of its nodes
    what they say, keep both directions of links, the head, the tail and the
    length right, and leave every node outside the list untouched: a new node
    goes to the head, to the tail or next to a given node, and deleting a node
    takes out that node alone and frees it. *)
Theorem adlist_edits {V} (h : gmap addr (listNode V)) l ps v :
  dll h l ps -> zlen ps < 2 ^ 64 - 1 ->
  (exists h' l', listAddNodeHead h l v = Some (h', l') /\ dll h' l' ((alloc h, v) :: ps) /\
     frame h h' ((alloc h, v) :: ps)) /\
  (exists h' l', listAddNodeTail h l v = Some (h', l') /\ dll h' l' (ps ++ [(alloc h, v)]) /\
     frame h h' (ps ++ [(alloc h, v)])) /\
  (forall A o vo B, ps = A ++ (o, vo) :: B ->
     (forall after : bool,
        let ps' := if after then A ++ (o, vo) :: (alloc h, v) :: B else A ++ (alloc h, v) :: (o, vo) :: B in
        exists h' l', listInsertNode h l o v after = Some (h', l') /\ dll h' l' ps' /\ frame h h' ps') /\
     (exists h' l', listDelNode h l o = Some (h', l') /\ dll h' l' (A ++ B) /\ frame h h' ps /\ h' !! o = None)).
Proof.
  intros Hd Hl. split; [by apply add_head_spec|]. split; [by apply add_tail_spec|].
  intros A o vo B ->. split; [intros after; by apply insert_spec|].
  apply del_spec; [done|]. rewrite (dll_len _ _ _ Hd). lia.
Qed.

(** A list of two nodes, and a list of one, in one heap. *)
Definition ex_heap : gmap addr (listNode Z) :=
  list_to_map [(1%positive, {| prev := None; next := Some 2%positive; value := 10 |});
               (2%positive, {| prev := Some 1%positive; next := None; value := 20 |});
               (3%positive, {| prev := None; next := None; value := 30 |})].
Definition ex_l : adlist := {| head := Some 1%positive; tail := Some 2%positive; len := 2 |}.
Definition ex_o : adlist := {| head := Some 3%positive; tail := Some 3%positive; len := 1 |}.

Lemma ex_l_dll : dll ex_heap ex_l [(1%positive, 10); (2%positive, 20)].
Proof. split; [done|vm_compute; repeat constructor; set_solver|done..]. Qed.

Lemma ex_o_dll : dll ex_heap ex_o [(3%positive, 30)].
Proof. split; [done|vm_compute; repeat constructor; set_solver|done..]. Qed.

Lemma adlist_edits_witness : exists h' l', listDelNode ex_heap ex_l 2%positive = Some (h', l') /\
  dll h' l' [(1%positive, 10)] /\ h' !! 2%positive = None.
Proof.
  destruct (adlist_edits ex_heap ex_l [(1%positive, 10); (2%positive, 20)] 5) as (_ & _ & Hed).
  - exact ex_l_dll.
  - reflexivity.
  - destruct (Hed [(1%positive, 10)] 2%positive 20 [] eq_refl) as (_ & h' & l' & E & Hd & _ & Hn).
    exists h', l'. by split_and!.
Defined.

(** [listRotate] moves the last node to the front, and [listJoin] appends
    the nodes of the second list to the first one and leaves the second empty;
    both relink the nodes they are given and touch no other. *)
Theorem adlist_moves {V} (h : gmap addr (listNode V)) l o A t vt B :
  dll h l (A ++ [(t, vt)]) -> dll h o B -> (forall b, b ∈ (A ++ [(t, vt)]).*1 -> b ∉ B.*1) ->
  zlen (A ++ [(t, vt)]) + zlen B < 2 ^ 64 ->
  (exists h' l', listRotate h l = Some (h', l') /\ dll h' l' ((t, vt) :: A) /\ frame h h' ((t, vt) :: A)) /\
  (exists h' l', listJoin h l o = Some (h', l', listCreate) /\ dll h' l' ((A ++ [(t, vt)]) ++ B) /\
     frame h h' ((A ++ [(t, vt)]) ++ B)).
Proof.
  intros Hl Ho Hd Hlen. split; [|by apply join_spec]. destruct (decide (A = [])) as [->|Hne].
  - exists h, l. unfold listRotate. rewrite (dll_len _ _ _ Hl). done.
  - by apply rotate_spec.
Qed.

Lemma adlist_moves_witness : exists h' l', listJoin ex_heap ex_l ex_o = Some (h', l', listCreate) /\
  dll h' l' [(1%positive, 10); (2%positive, 20); (3%positive, 30)].
Proof.
  destruct (adlist_moves ex_heap ex_l ex_o [(1%positive, 10)] 2%positive 20 [(3%positive, 30)]) as (_ & h' & l' & E & Hd & _).
  - exact ex_l_dll.
  - exact ex_o_dll.
  - vm_compute. set_solver.
  - reflexivity.
  - exists h', l'. by split.
Defined.

(** Looking a list up gives the node of its sequence: [listIndex] counts
    from the head, or from the tail for a negative index, and gives NULL out of
    range; [listSearchKey] gives the first node that matches, or NULL. *)
Theorem adlist_lookup {V} `{EqDecision V} (h : gmap addr (listNode V)) l ps i match_ (key : V) :
  dll h l ps -> - 2 ^ 63 <= i < 2 ^ 63 ->
  listIndex h l i = Some (fst <$> (mget ps (if i <? 0 then zlen ps + i else i))) /\
  listSearchKey match_ h l key =
    Some (first_hit (fun v => match match_ with Some f => f v key | None => bool_decide (key = v) end) ps).
Proof.
  intros Hd Hi. split; [by apply index_spec|]. destruct Hd as [Hs Hnd Hh Ht Hl].
  unfold listSearchKey, listRewind, listGetIterator. rewrite Hh. apply (list_search_spec _ h key [] ps); [done|].
  rewrite Hl. unfold zlen. lia.
Qed.

Lemma adlist_lookup_witness : listIndex ex_heap ex_l (-1) = Some (Some 2%positive) /\
  listSearchKey None ex_heap ex_l 20 = Some (Some 2%positive).
Proof.
  destruct (adlist_lookup ex_heap ex_l [(1%positive, 10); (2%positive, 20)] (-1) None 20) as [E1 E2].
  - exact ex_l_dll.
  - lia.
  - by rewrite E1, E2.
Defined.

(** [listDup] gives a second list with the same values, or with what the
    list's [dup] method makes of them, made of nodes that were free before; every
    node that existed is unchanged.  When the method fails on a value, the result
    is NULL and the heap is the one before the call: nothing leaks. *)
Theorem listDup_copies {V} (h : gmap addr (listNode V)) l ps dup : dll h l ps -> zlen ps < 2 ^ 64 ->
  match mapM (dup_val dup) ps.*2 with
  | Some vs => exists h' copy ps', listDup dup h l = Some (h', Some copy) /\ dll h' copy ps' /\ ps'.*2 = vs /\
                 (forall b, b ∈ ps'.*1 -> h !! b = None) /\ frame h h' ps'
  | None => listDup dup h l = Some (h, None)
  end.
Proof.
  intros [Hs Hnd Hh Ht Hl] Hlen.
  assert (Hc : copying h h listCreate []) by (split; [split; [done|constructor|done..]|done|by intros b ?%elem_of_nil]).
  pose proof (dup_loop_spec dup h [] ps h listCreate [] (S (Z.to_nat (len l))) Hs Hc Hlen) as Hloop.
  unfold listDup, listRewind, listGetIterator. rewrite Hh.
  specialize (Hloop ltac:(rewrite Hl; unfold zlen; lia)). destruct (mapM (dup_val dup) ps.*2) as [vs|]; [|done].
  destruct Hloop as (h' & copy & C' & E & [Hd Hf Hfr] & Hv). exists h', copy, C'. by split_and!.
Qed.

Lemma listDup_witness : exists h' copy ps', listDup (Some (fun x => Some (x + 1))) ex_heap ex_l = Some (h', Some copy) /\
  dll h' copy ps' /\ ps'.*2 = [11; 21] /\ listDup (Some (fun x => if x =? 20 then None else Some x)) ex_heap ex_l = Some (ex_heap, None).
Proof.
  destruct (listDup_copies ex_heap ex_l [(1%positive, 10); (2%positive, 20)] (Some (fun x => Some (x + 1)))) as (h' & c & ps' & E & Hd & Hv & _).
  - exact ex_l_dll.
  - reflexivity.
  - exists h', c, ps'. split_and!; [done..|].
    exact (listDup_copies ex_heap ex_l [(1%positive, 10); (2%positive, 20)] (Some (fun x => if x =? 20 then None else Some x)) ex_l_dll eq_refl).
Defined.
