(* ===== verification/Sds.v ===== *)
(** * Dynamic strings (sds.c)

    An sds string is the list of its bytes; the NUL the library keeps behind
    them is written out where the code reads it.  A [char *] into a string is
    the rest of the memory from there on, so that reading past its end gives
    [None].  Allocation does not fail.  [isspace] and [isprint] are the ones of
    the C locale. *)
From Stdlib Require Import ZArith Lia String.
From stdpp Require Import base numbers list option.
From S2P Require Import Prelude UtilNum.

(** ** Numbers *)

Definition SDS_LLSTR_SIZE : Z := 21.

(** [do { *p++ = '0'+(v%10); v /= 10; } while(v);] *)
Fixpoint ll2str_loop (fuel : nat) (s : list Z) (p v : Z) : option (list Z * Z) :=
  match fuel with
  | O => None
  | S fuel =>
      s ← mset s p (48 + v mod 10);
      let v := v / 10 in
      if negb (v =? 0) then ll2str_loop fuel s (p + 1) v else Some (s, p + 1)
  end.

(** [while(s < p)]: swap the ends. *)
Fixpoint reverse_loop (fuel : nat) (b : list Z) (s p : Z) : option (list Z) :=
  if s <? p then
    match fuel with
    | O => None
    | S fuel =>
        aux ← mget b s; y ← mget b p;
        b ← mset b s y; b ← mset b p aux;
        reverse_loop fuel b (s + 1) (p - 1)
    end
  else Some b.

(** Results: the length and the buffer. *)
Definition sdsll2str (s : list Z) (value : Z) : option (Z * list Z) :=
  let v := if value <? 0 then u64 (- value) else u64 value in
  r ← ll2str_loop 20 s 0 v;
  let '(s, p) := (r : list Z * Z) in
  r ← (if value <? 0 then s ← mset s p 45; Some (s, p + 1) else Some (s, p));
  let '(s, p) := (r : list Z * Z) in
  let l := p in
  s ← mset s p 0;
  s ← reverse_loop (length s) s 0 (p - 1);
  Some (l, s).

Definition sdsull2str (s : list Z) (v : Z) : option (Z * list Z) :=
  r ← ll2str_loop 20 s 0 v;
  let '(s, p) := (r : list Z * Z) in
  let l := p in
  s ← mset s p 0;
  s ← reverse_loop (length s) s 0 (p - 1);
  Some (l, s).

(** The bytes of the uninitialised [buf] are an argument. *)
Definition sdsfromlonglong (buf : list Z) (value : Z) : option (list Z) :=
  r ← sdsll2str buf value;
  mread (snd r) 0 (fst r).

(** ** Parts of a string *)

(** [strchr(cset, c)] finds the NUL that ends [cset] too. *)
Definition in_cset (cset : list Z) (c : Z) : bool := (c =? 0) || existsb (Z.eqb c) cset.

Fixpoint trim_left (fuel : nat) (s cset : list Z) (sp end_ : Z) : option Z :=
  match fuel with
  | O => None
  | S fuel =>
      if sp <=? end_ then
        c ← mget s sp;
        if in_cset cset c then trim_left fuel s cset (sp + 1) end_ else Some sp
      else Some sp
  end.

Fixpoint trim_right (fuel : nat) (s cset : list Z) (sp ep : Z) : option Z :=
  match fuel with
  | O => None
  | S fuel =>
      if ep >? sp then
        c ← mget s ep;
        if in_cset cset c then trim_right fuel s cset sp (ep - 1) else Some ep
      else Some ep
  end.

Definition sdstrim (s cset : list Z) : option (list Z) :=
  let end_ := zlen s - 1 in
  sp ← trim_left (S (length s)) s cset 0 end_;
  ep ← trim_right (S (length s)) s cset sp end_;
  let len := if sp >? ep then 0 else ep - sp + 1 in
  if negb (sp =? 0) then mread s sp len else mread s 0 len.

Definition sdsrange (s : list Z) (start end_ : Z) : option (list Z) :=
  let len := zlen s in
  if len =? 0 then Some s
  else
    let start := if start <? 0 then let x := len + start in if x <? 0 then 0 else x else start in
    let end_ := if end_ <? 0 then let x := len + end_ in if x <? 0 then 0 else x else end_ in
    let newlen := if start >? end_ then 0 else end_ - start + 1 in
    let '(start, newlen) :=
      if negb (newlen =? 0) then
        if start >=? len then (start, 0)
        else if end_ >=? len then
          let end_ := len - 1 in (start, if start >? end_ then 0 else end_ - start + 1)
        else (start, newlen)
      else (0, newlen) in
    if negb (start =? 0) && negb (newlen =? 0) then mread s start newlen else mread s 0 newlen.

(** ** Comparison *)

(** The sign of [memcmp] on equally many bytes. *)
Fixpoint memcmp (a b : list Z) : Z :=
  match a, b with
  | x :: a, y :: b => if x <? y then -1 else if x >? y then 1 else memcmp a b
  | _, _ => 0
  end.

Definition sdscmp (s1 s2 : list Z) : Z :=
  let l1 := zlen s1 in
  let l2 := zlen s2 in
  let minlen := if l1 <? l2 then l1 else l2 in
  let cmp := memcmp (take (Z.to_nat minlen) s1) (take (Z.to_nat minlen) s2) in
  if cmp =? 0 then (if l1 >? l2 then 1 else if l1 <? l2 then -1 else 0) else cmp.

(** ** Splitting and joining *)

(** The loop over [j] and the final token. *)
Fixpoint splitlen_loop (fuel : nat) (s : list Z) (len : Z) (sep : list Z) (seplen start j : Z)
    (tokens : list (list Z)) : option (list (list Z)) :=
  if j <? len - (seplen - 1) then
    match fuel with
    | O => None
    | S fuel =>
        c ← mget s j; c0 ← mget sep 0;
        hit ← (if (seplen =? 1) && (c =? c0) then Some true
               else m ← mread s j seplen; p ← mread sep 0 seplen; Some (memcmp m p =? 0));
        if hit : bool then
          t ← mread s start (j - start);
          splitlen_loop fuel s len sep seplen (j + seplen) (j + seplen - 1 + 1) (tokens ++ [t])
        else splitlen_loop fuel s len sep seplen start (j + 1) tokens
    end
  else
    t ← mread s start (len - start);
    Some (tokens ++ [t]).

(** [Some None] is NULL. *)
Definition sdssplitlen (s : list Z) (len : Z) (sep : list Z) (seplen : Z) : option (option (list (list Z))) :=
  if (seplen <? 1) || (len <? 0) then Some None
  else if len =? 0 then Some (Some [])
  else
    ts ← splitlen_loop (Z.to_nat len) s len sep seplen 0 0 [];
    Some (Some ts).

Fixpoint joinsds_loop (argv : list (list Z)) (j argc : Z) (sep join : list Z) : list Z :=
  match argv with
  | [] => join
  | a :: argv =>
      let join := join ++ a in
      let join := if negb (j =? argc - 1) then join ++ sep else join in
      joinsds_loop argv (j + 1) argc sep join
  end.

Definition sdsjoinsds (argv : list (list Z)) (argc : Z) (sep : list Z) : list Z :=
  joinsds_loop argv 0 argc sep [].

(** ** Quoted representation *)

Definition isprint (c : Z) : bool := (32 <=? c) && (c <=? 126).
Definition isspace (c : Z) : bool := ((9 <=? c) && (c <=? 13)) || (c =? 32).

(** A digit of [%x]. *)
Definition hex_digit (d : Z) : Z := if d <? 10 then 48 + d else 87 + d.

(** The escape of one byte. *)
Definition repr_char (c : Z) : list Z :=
  if (c =? 92) || (c =? 34) then [92; c]
  else if c =? 10 then [92; 110]
  else if c =? 13 then [92; 114]
  else if c =? 9 then [92; 116]
  else if c =? 7 then [92; 97]
  else if c =? 8 then [92; 98]
  else if isprint c then [c]
  else [92; 120; hex_digit (c / 16); hex_digit (c mod 16)].

Fixpoint repr_loop (s : list Z) (p : list Z) : list Z :=
  match p with
  | [] => s
  | c :: p => repr_loop (s ++ repr_char c) p
  end.

Definition sdscatrepr (s p : list Z) : list Z := repr_loop (s ++ [34]) p ++ [34].

Definition is_hex_digit (c : Z) : bool :=
  ((48 <=? c) && (c <=? 57)) || ((97 <=? c) && (c <=? 102)) || ((65 <=? c) && (c <=? 70)).

Definition hex_digit_to_int (c : Z) : Z :=
  if (48 <=? c) && (c <=? 57) then c - 48
  else if (97 <=? c) && (c <=? 102) then c - 97 + 10
  else if (65 <=? c) && (c <=? 70) then c - 65 + 10
  else 0.

(** ** Splitting a line into arguments *)

(** [a && b] where [b] is evaluated only when [a] holds. *)
Definition andthen (a b : option bool) : option bool := x ← a; if x : bool then b else Some false.

Definition chr_is (p : list Z) (k : nat) (c : Z) : option bool := x ← p !! k; Some (x =? c).

(** [while( *p && isspace( *p)) p++;] *)
Fixpoint skip_blanks (p : list Z) : option (list Z) :=
  match p with
  | [] => None
  | c :: p' => if negb (c =? 0) && isspace c then skip_blanks p' else Some p
  end.

Record quoting := { inq : bool; insq : bool; done : bool }.

(** The result of a pass of the token loop before its last line: the pointer,
    what was appended to [current], and the flags; [Some None] is [goto err]. *)
Definition pass := (list Z * list Z * quoting)%type.

(** A closing quote must be followed by a space or nothing at all. *)
Definition closing (p : list Z) (q : quoting) : option (option pass) :=
  c ← p !! 1%nat;
  if negb (c =? 0) && negb (isspace c) then Some None
  else Some (Some (p, [], {| inq := inq q; insq := insq q; done := true |})).

Definition escape_char (c : Z) : Z :=
  if c =? 110 then 10 else if c =? 114 then 13 else if c =? 116 then 9
  else if c =? 98 then 8 else if c =? 97 then 7 else c.

Definition inq_pass (p : list Z) (q : quoting) : option (option pass) :=
  hex ← andthen (chr_is p 0 92) (andthen (chr_is p 1 120)
          (andthen (x ← p !! 2%nat; Some (is_hex_digit x)) (x ← p !! 3%nat; Some (is_hex_digit x))));
  if hex : bool then
    a ← p !! 2%nat; b ← p !! 3%nat;
    let byte := u8 (hex_digit_to_int a * 16 + hex_digit_to_int b) in
    Some (Some (drop 3 p, [byte], q))
  else
    esc ← andthen (chr_is p 0 92) (x ← p !! 1%nat; Some (negb (x =? 0)));
    if esc : bool then
      let p := drop 1 p in
      x ← p !! 0%nat; Some (Some (p, [escape_char x], q))
    else
      c ← p !! 0%nat;
      if c =? 34 then closing p q
      else if c =? 0 then Some None
      else Some (Some (p, [c], q)).

Definition insq_pass (p : list Z) (q : quoting) : option (option pass) :=
  esc ← andthen (chr_is p 0 92) (chr_is p 1 39);
  if esc : bool then Some (Some (drop 1 p, [39], q))
  else
    c ← p !! 0%nat;
    if c =? 39 then closing p q
    else if c =? 0 then Some None
    else Some (Some (p, [c], q)).

Definition plain_pass (p : list Z) (q : quoting) : option (option pass) :=
  c ← p !! 0%nat;
  if (c =? 32) || (c =? 10) || (c =? 13) || (c =? 9) || (c =? 0) then
    Some (Some (p, [], {| inq := inq q; insq := insq q; done := true |}))
  else if c =? 34 then Some (Some (p, [], {| inq := true; insq := insq q; done := done q |}))
  else if c =? 39 then Some (Some (p, [], {| inq := inq q; insq := true; done := done q |}))
  else Some (Some (p, [c], q)).

Definition token_pass (p : list Z) (q : quoting) : option (option pass) :=
  if inq q then inq_pass p q else if insq q then insq_pass p q else plain_pass p q.

(** [while(!done)]: the pointer behind the token and the token. *)
Fixpoint token_loop (fuel : nat) (p current : list Z) (q : quoting) : option (option (list Z * list Z)) :=
  match fuel with
  | O => None
  | S fuel =>
      r ← token_pass p q;
      match r with
      | None => Some None
      | Some (p, add, q) =>
          let current := current ++ add in
          c ← p !! 0%nat;
          let p := if negb (c =? 0) then drop 1 p else p in
          if done q then Some (Some (p, current)) else token_loop fuel p current q
      end
  end.

(** [while(1)]; [Some None] is NULL, after [err:]. *)
Fixpoint splitargs_loop (fuel : nat) (p : list Z) (vector : list (list Z)) : option (option (list (list Z))) :=
  match fuel with
  | O => None
  | S fuel =>
      p ← skip_blanks p;
      c ← p !! 0%nat;
      if negb (c =? 0) then
        r ← token_loop (S (length p)) p [] {| inq := false; insq := false; done := false |};
        match r with
        | None => Some None
        | Some (p, current) => splitargs_loop fuel p (vector ++ [current])
        end
      else Some (Some vector)
  end.

(** [line] is the memory from the pointer on, with its NUL. *)
Definition sdssplitargs (line : list Z) : option (option (list (list Z))) :=
  splitargs_loop (S (length line)) line [].

Example splitargs_ex :
  sdssplitargs (bytes_of "set  key 'a b' x\y" ++ [0]) =
    Some (Some [bytes_of "set"; bytes_of "key"; bytes_of "a b"; bytes_of "x\y"]) /\
  sdssplitargs (bytes_of "set 'a'b" ++ [0]) = Some None /\
  sdssplitargs ([34; 92; 120; 70; 70; 34] ++ [0]) = Some (Some [[255]]) /\
  sdssplitargs (bytes_of "  " ++ [0]) = Some (Some []).
Proof. vm_compute. auto. Qed.

Example splitlen_ex :
  sdssplitlen (bytes_of "foo_-_bar") 9 (bytes_of "_-_") 3 = Some (Some [bytes_of "foo"; bytes_of "bar"]) /\
  sdscatrepr [] [0; 65; 10; 34] = [34; 92; 120; 48; 48; 65; 92; 110; 92; 34; 34] /\
  sdstrim (bytes_of "AA...AA.a.aa.aHelloWorld     :::") (bytes_of "Aa. :") = Some (bytes_of "HelloWorld") /\
  sdsrange (bytes_of "Hello World") 1 (-1) = Some (bytes_of "ello World") /\
  sdsfromlonglong (replicate 21 7) LLONG_MIN = Some (bytes_of "-9223372036854775808").
Proof. vm_compute. auto. Qed.
