(* ===== verification/SdsRefine.v ===== *)
(** * What the operations of sds.c promise *)
From Stdlib Require Import ZArith Lia String.
From stdpp Require Import base numbers list option.
From S2P Require Import Prelude UtilNum Sds.

(** ** Numbers *)

Lemma reverse_loop_spec fuel A m C : (length m <= fuel)%nat ->
  reverse_loop fuel (A ++ m ++ C) (zlen A) (zlen A + zlen m - 1) = Some (A ++ rev m ++ C).
Proof.
  revert A m C. induction fuel as [|fuel IH]; intros A m C Hf.
  { destruct m; [|cbn in Hf; lia]. cbn [reverse_loop]. rewrite zlen_nil. by zbool. }
  destruct m as [|x m]; [cbn [reverse_loop]; rewrite zlen_nil; by zbool|].
  destruct (decide (m = [])) as [->|Hne].
  { cbn [reverse_loop]. change (zlen [x]) with 1. by zbool. }
  destruct (exists_last Hne) as (m' & y & ->). cbn [reverse_loop]. autorewrite with zlen. pose_zlen. zbool.
  assert (HA : zlen A + (1 + (zlen m' + (1 + 0))) - 1 = zlen (A ++ x :: m')) by zlia. rewrite HA.
  replace (A ++ (x :: m' ++ [y]) ++ C) with (A ++ x :: m' ++ y :: C) by (cbn; by rewrite <- !app_assoc).
  rewrite (mget_split A x _ (zlen A) eq_refl). rewrite bind_Some.
  rewrite (app_assoc A (x :: m') (y :: C) : A ++ x :: m' ++ y :: C = _).
  rewrite (mget_split (A ++ x :: m') _ _ _ eq_refl), bind_Some.
  rewrite <- (app_assoc A). cbn [app]. rewrite mset_split by done. rewrite bind_Some.
  rewrite (app_assoc A (y :: m') (y :: C) : A ++ y :: m' ++ y :: C = _).
  rewrite mset_split by zlia. rewrite bind_Some.
  replace ((A ++ y :: m') ++ x :: C) with ((A ++ [y]) ++ m' ++ (x :: C)) by (by rewrite <- !app_assoc).
  specialize (IH (A ++ [y]) m' (x :: C)). autorewrite with zlen in *.
  replace (zlen A + (1 + zlen m') - 1) with (zlen A + (1 + 0) + zlen m' - 1) by lia.
  change (zlen A + 1) with (zlen A + (1 + 0)). rewrite IH.
  - f_equal. cbn [rev]. rewrite rev_unit, <- !app_assoc. done.
  - rewrite length_cons, length_app in Hf. cbn in Hf. lia.
Qed.

Lemma udec_len_le v d : 0 <= v < 10 ^ d -> 1 <= d <= 20 -> 1 <= zlen (udec v) <= d.
Proof.
  intros Hv Hd. pose proof (Z.pow_le_mono_r 10 d 20 ltac:(lia) ltac:(lia)). split; [apply udec_pos; lia|].
  destruct (decide (v = 0)) as [->|]; [change (zlen (udec 0)) with 1; lia|].
  destruct (udec_len v) as [H1 H2]; [lia|]. destruct (decide (d + 1 <= zlen (udec v))); [|lia].
  pose proof (Z.pow_le_mono_r 10 d (zlen (udec v) - 1)). lia.
Qed.

Lemma udec_len_20 v : 0 <= v < 2 ^ 64 -> 1 <= zlen (udec v) <= 20.
Proof. intros. apply udec_len_le; lia. Qed.

Lemma ll2str_loop_spec fuel A B v : 0 <= v < 10 ^ 20 -> zlen (udec v) <= Z.of_nat fuel -> zlen (udec v) <= zlen B ->
  ll2str_loop fuel (A ++ B) (zlen A) v =
    Some (A ++ rev (udec v) ++ drop (length (udec v)) B, zlen A + zlen (udec v)).
Proof.
  revert A B v. induction fuel as [|fuel IH]; intros A B v Hv Hf HB; pose proof (udec_pos v Hv); [lia|].
  destruct B as [|b B]; [zlia|]. cbn [ll2str_loop]. rewrite mset_split by done. rewrite bind_Some.
  destruct (decide (v < 10)) as [Hs|Hs].
  - rewrite udec_small by lia. rewrite Z.div_small, Z.mod_small by lia. cbn [Z.eqb negb]. done.
  - rewrite (proj2 (Z.eqb_neq _ _)) by (pose proof (Z.div_le_lower_bound v 10 1); lia). cbn [negb].
    rewrite (udec_step v) in * by lia. autorewrite with zlen in *.
    specialize (IH (A ++ [48 + v mod 10]) B (v / 10)). autorewrite with zlen in *. rewrite <- app_assoc in IH. cbn [app] in IH.
    change (zlen A + 1) with (zlen A + (1 + 0)). rewrite IH; [| |lia|lia].
    + rewrite rev_unit, length_app. cbn [length]. rewrite Nat.add_1_r. cbn [drop]. rewrite <- !app_assoc. do 2 f_equal. lia.
    + pose proof (Z.div_pos v 10). pose proof (Z.div_le_upper_bound v 10 (10 ^ 20 - 1)). lia.
Qed.

Lemma ll2str_digits s v : 0 <= v < 2 ^ 64 -> 21 <= zlen s ->
  ll2str_loop 20 s 0 v = Some (rev (udec v) ++ drop (length (udec v)) s, zlen (udec v)).
Proof. intros Hv Hs. pose proof (udec_len_20 v Hv). apply (ll2str_loop_spec 20 [] s v); lia. Qed.

(** What is left to do after the digit loop. *)
Lemma ll2str_end v pre C : 0 <= v < 10 ^ 20 -> zlen pre <= 1 -> C <> [] ->
  (s ← mset (rev (udec v) ++ pre ++ C) (zlen (udec v) + zlen pre) 0;
   s ← reverse_loop (length s) s 0 (zlen (udec v) + zlen pre - 1);
   Some (zlen (udec v) + zlen pre, s)) =
  Some (zlen (pre ++ udec v), (pre ++ udec v) ++ [0] ++ drop 1 C).
Proof.
  intros Hv Hp HC. destruct C as [|c C]; [done|]. rewrite app_assoc, mset_split by zlia. rewrite bind_Some.
  pose proof (reverse_loop_spec (length ((rev (udec v) ++ pre) ++ 0 :: C)) [] (rev (udec v) ++ pre) (0 :: C)
    ltac:(rewrite !length_app; lia)) as Hr. rewrite zlen_app, zlen_rev in Hr. cbn [app] in Hr.
  change (zlen [] + (zlen (udec v) + zlen pre)) with (zlen (udec v) + zlen pre) in Hr. change (zlen []) with 0 in Hr.
  rewrite Hr.
  rewrite bind_Some, rev_app_distr, rev_involutive.
  assert (rev pre = pre) as -> by (destruct pre as [|x [|y pre]]; [done|done|zlia]).
  do 2 f_equal. zlia.
Qed.

Lemma sdsull2str_spec s v : 0 <= v < 2 ^ 64 -> SDS_LLSTR_SIZE <= zlen s ->
  sdsull2str s v = Some (zlen (udec v), udec v ++ [0] ++ drop (S (length (udec v))) s).
Proof.
  unfold SDS_LLSTR_SIZE. intros Hv Hs. pose proof (udec_len_20 v Hv). unfold sdsull2str.
  rewrite ll2str_digits by lia. rewrite bind_Some.
  cbn [app]. pose proof (ll2str_end v [] (drop (length (udec v)) s)) as He. cbn [app] in He. change (zlen []) with 0 in He. rewrite !Z.add_0_r in He.
  rewrite He, drop_drop; [by rewrite Nat.add_1_r|lia|lia|]. intros E. apply (f_equal zlen) in E.
  rewrite zlen_drop in E by (unfold zlen in *; lia). unfold zlen in *. cbn in E. lia.
Qed.

Lemma sdsll2str_spec s v : in_s 64 v -> SDS_LLSTR_SIZE <= zlen s ->
  sdsll2str s v = Some (zlen (dec v), dec v ++ [0] ++ drop (S (length (dec v))) s).
Proof.
  unfold in_s, SDS_LLSTR_SIZE. intros Hv Hs. cbn in Hv. unfold sdsll2str, dec. destruct (v <? 0) eqn:E.
  - rewrite uwrap_small by lia. pose proof (udec_len_le (- v) 19 ltac:(lia) ltac:(lia)) as Hl.
    rewrite ll2str_digits by lia. rewrite bind_Some.
    assert (Hd : exists c C, drop (length (udec (- v))) s = c :: C /\ C <> [] /\ drop 1 C = drop (S (S (length (udec (- v))))) s).
    { pose proof (length_drop s (length (udec (- v)))) as El. unfold zlen in *.
      destruct (drop (length (udec (- v))) s) as [|c [|c' C]] eqn:Ed; cbn [length] in El; [lia..|].
      exists c, (c' :: C). split; [done|]. split; [done|]. cbn [drop].
      replace (S (S (length (udec (- v))))) with (length (udec (- v)) + 2)%nat by lia. rewrite <- drop_drop, Ed. done. }
    destruct Hd as (c & C & -> & HC & HdC). cbn [app]. rewrite mset_split by zlia. rewrite bind_Some. rewrite bind_Some.
    pose proof (ll2str_end (- v) [45] C ltac:(lia) ltac:(by vm_compute) HC) as He. cbn [app] in He.
    change (zlen [45]) with 1 in He. rewrite He. cbn [length]. by rewrite HdC.
  - rewrite uwrap_small by lia. exact (sdsull2str_spec s v ltac:(lia) Hs).
Qed.

(** ** Parts *)

Lemma mread_0 {A} (a b : list A) n : n = zlen a -> mread (a ++ b) 0 n = Some a.
Proof. intros ->. exact (mread_split [] a b 0 (zlen a) eq_refl eq_refl). Qed.

Lemma mread_end {A} (a b : list A) off n : off = zlen a -> n = zlen b -> mread (a ++ b) off n = Some b.
Proof. intros. pose proof (mread_split a b [] off n) as E. rewrite app_nil_r in E. by apply E. Qed.

Lemma trim_left_spec fuel a s cset : (length s < fuel)%nat ->
  exists l r, s = l ++ r /\ Forall (fun c => in_cset cset c = true) l /\
    (match r with c :: _ => in_cset cset c = false | [] => True end) /\
    trim_left fuel (a ++ s) cset (zlen a) (zlen (a ++ s) - 1) = Some (zlen (a ++ l)).
Proof.
  revert a s. induction fuel as [|fuel IH]; intros a s Hf; [lia|]. cbn [trim_left].
  destruct s as [|c s].
  { exists [], []. rewrite !app_nil_r. pose_zlen. zbool. done. }
  autorewrite with zlen. pose_zlen. zbool. rewrite mget_split by done. rewrite bind_Some.
  destruct (in_cset cset c) eqn:E.
  - cbn in Hf. destruct (IH (a ++ [c]) s) as (l & r & -> & Hl & Hr & Ht); [lia|].
    exists (c :: l), r. split; [done|]. split; [by constructor|]. split; [done|].
    rewrite <- app_assoc in Ht. cbn [app] in Ht. autorewrite with zlen in *. 
    rewrite Z.add_0_r in Ht. rewrite Ht. f_equal. lia.
  - exists [], (c :: s). rewrite app_nil_r. by split_and!.
Qed.

Lemma trim_right_spec fuel a s c b cset : (length s < fuel)%nat -> in_cset cset c = false ->
  exists l r, s = l ++ r /\ Forall (fun c => in_cset cset c = true) r /\
    (match rev l with c :: _ => in_cset cset c = false | [] => True end) /\
    trim_right fuel (a ++ c :: s ++ b) cset (zlen a) (zlen a + zlen s) = Some (zlen a + zlen l).
Proof.
  intros Hf Hc. revert s b Hf. induction fuel as [|fuel IH]; intros s b Hf; [lia|]. cbn [trim_right].
  destruct (decide (s = [])) as [->|Hne].
  { exists [], []. rewrite (zlen_nil (A := Z)), Z.add_0_r, gtb_false by lia. done. }
  destruct (exists_last Hne) as (s' & x & ->). autorewrite with zlen. pose_zlen. zbool.
  replace (a ++ c :: (s' ++ [x]) ++ b) with ((a ++ c :: s') ++ x :: b) by (rewrite <- !app_assoc; done).
  rewrite mget_split by zlia. rewrite bind_Some. destruct (in_cset cset x) eqn:E.
  - rewrite length_app in Hf. cbn in Hf. destruct (IH s' (x :: b)) as (l & r & -> & Hr & Hl & Ht); [lia|].
    exists l, (r ++ [x]). split; [by rewrite app_assoc|]. split; [apply Forall_app; by split; [|constructor]|]. split; [done|].
    replace (zlen a + (zlen (l ++ r) + (1 + 0)) - 1) with (zlen a + zlen (l ++ r)) by lia.
    rewrite <- Ht. f_equal. rewrite <- !app_assoc. cbn [app]. by rewrite <- !app_assoc.
  - exists (s' ++ [x]), []. rewrite app_nil_r. split; [done|]. split; [done|]. rewrite rev_unit. split; [done|]. f_equal. zlia.
Qed.

(** [sdstrim] cuts the longest runs of characters of the set at both ends. *)
Lemma sdstrim_spec s cset : exists l m r, s = l ++ m ++ r /\ sdstrim s cset = Some m /\
  Forall (fun c => in_cset cset c = true) l /\ Forall (fun c => in_cset cset c = true) r /\
  (forall c m', m = c :: m' \/ m = m' ++ [c] -> in_cset cset c = false).
Proof.
  unfold sdstrim. destruct (trim_left_spec (S (length s)) [] s cset) as (l & t & -> & Hl & Ht & El); [lia|].
  cbn [app] in El. change (zlen []) with 0 in El. rewrite El, bind_Some. destruct t as [|c t].
  - exists l, [], []. rewrite !app_nil_r in *. split; [done|].
    assert (trim_right (S (length l)) l cset (zlen l) (zlen l - 1) = Some (zlen l - 1)) as -> by (cbn [trim_right]; by zbool).
    rewrite bind_Some. pose_zlen. zbool. split; [|split; [done|split; [done|intros c m' [|]; [done|by destruct m']]]].
    destruct (negb (zlen l =? 0)); [|by apply (mread_0 [])]. pose proof (mread_end l [] (zlen l) 0) as Hm. rewrite app_nil_r in Hm. by apply Hm.
  - destruct (trim_right_spec (S (length (l ++ c :: t))) l t c [] cset) as (m & r & -> & Hr & Hm & Er); [|done|].
    { rewrite length_app. cbn. lia. }
    rewrite app_nil_r in Er. autorewrite with zlen in *.
    replace (zlen l + (1 + (zlen m + zlen r)) - 1) with (zlen l + (zlen m + zlen r)) by lia.
    rewrite Er, bind_Some. pose_zlen. zbool. exists l, (c :: m), r. split; [done|]. split.
    + change (l ++ c :: m ++ r) with (l ++ (c :: m) ++ r). destruct (zlen l =? 0) eqn:E; cbn [negb].
      * assert (l = []) as -> by (destruct l; [done|zlia]). cbn [app]. apply (mread_0 (c :: m)). zlia.
      * apply mread_split; zlia.
    + split; [done|]. split; [done|]. intros x m' [[= <- _]|Hx]; [done|].
      destruct (decide (m = [])) as [->|Hne]; [by destruct m' as [|? [|]]; injection Hx as <-|].
      destruct (exists_last Hne) as (m1 & y & ->). rewrite rev_unit in Hm.
      change (c :: m1 ++ [y]) with ((c :: m1) ++ [y]) in Hx. by apply app_inj_tail in Hx as [_ <-].
Qed.

(** An index of [sdsrange], counted from the end when it is negative. *)
Definition clamp (len i : Z) : Z := if i <? 0 then Z.max 0 (len + i) else i.

Lemma sdsrange_spec s start end_ :
  sdsrange s start end_ =
    Some (let lo := clamp (zlen s) start in let hi := Z.min (clamp (zlen s) end_) (zlen s - 1) in
          take (Z.to_nat (hi - lo + 1)) (drop (Z.to_nat lo) s)).
Proof.
  unfold sdsrange. cbn zeta. destruct (zlen s =? 0) eqn:E.
  { assert (s = []) as -> by (destruct s; [done|zlia]). by rewrite drop_nil, take_nil. }
  pose_zlen. set (x := zlen s + start). set (y := zlen s + end_).
  replace (if start <? 0 then if x <? 0 then 0 else x else start) with (clamp (zlen s) start)
    by (unfold clamp; fold x; destruct (start <? 0), (x <? 0) eqn:?; lia).
  replace (if end_ <? 0 then if y <? 0 then 0 else y else end_) with (clamp (zlen s) end_)
    by (unfold clamp; fold y; destruct (end_ <? 0), (y <? 0) eqn:?; lia).
  assert (Hlo : 0 <= clamp (zlen s) start) by (unfold clamp; destruct (start <? 0) eqn:?; lia).
  assert (Hhi : 0 <= clamp (zlen s) end_) by (unfold clamp; destruct (end_ <? 0) eqn:?; lia).
  generalize dependent (clamp (zlen s) start). generalize dependent (clamp (zlen s) end_). clear x y.
  intros hi Hhi lo Hlo.
  assert (Hempty : Z.min hi (zlen s - 1) < lo -> mread s 0 0 = Some (take (Z.to_nat (Z.min hi (zlen s - 1) - lo + 1)) (drop (Z.to_nat lo) s))).
  { intros Hlt. replace (Z.to_nat (Z.min hi (zlen s - 1) - lo + 1)) with 0%nat by lia. by apply (mread_0 [] s). }
  assert (Hread : forall n, n = Z.min hi (zlen s - 1) - lo + 1 -> 0 < n -> 
    mread s lo n = Some (take (Z.to_nat (Z.min hi (zlen s - 1) - lo + 1)) (drop (Z.to_nat lo) s))).
  { intros n -> Hn. unfold mread. by zbool. }
  destruct (lo >? hi) eqn:E1; [cbn [Z.eqb negb]; cbn [andb]; apply Hempty; lia|].
  rewrite (proj2 (Z.eqb_neq _ _)) by lia. cbn [negb]. destruct (lo >=? zlen s) eqn:E2.
  { cbn [Z.eqb negb]. rewrite andb_false_r. apply Hempty. lia. }
  destruct (hi >=? zlen s) eqn:E3.
  - rewrite gtb_false by lia. rewrite (proj2 (Z.eqb_neq (zlen s - 1 - lo + 1) 0)) by lia. cbn [negb]. rewrite andb_true_r.
    destruct (lo =? 0) eqn:E0; cbn [negb]; [assert (lo = 0) as -> by lia|]; apply Hread; lia.
  - rewrite (proj2 (Z.eqb_neq (hi - lo + 1) 0)) by lia. cbn [negb]. rewrite andb_true_r.
    destruct (lo =? 0) eqn:E0; cbn [negb]; [assert (lo = 0) as -> by lia|]; apply Hread; lia.
Qed.

(** What the callers use it for: dropping a prefix. *)
Lemma sdsrange_drop s a : 0 <= a -> sdsrange s a (-1) = Some (drop (Z.to_nat a) s).
Proof.
  intros Ha. rewrite sdsrange_spec. f_equal. cbn zeta. unfold clamp. zbool. pose_zlen.
  apply take_ge. rewrite length_drop. unfold zlen in *. lia.
Qed.

(** ** Order *)

Lemma memcmp_spec a b : length a = length b ->
  (memcmp a b = 0 <-> a = b) /\ memcmp b a = - memcmp a b.
Proof.
  revert b. induction a as [|x a IH]; intros [|y b] Hl; try done. cbn [memcmp]. injection Hl as Hl.
  destruct (IH b Hl) as [H1 H2]. destruct (Z.lt_total x y) as [Hxy|[->|Hxy]]; zbool.
  - split; [|done]. split; [done|]. intros [= -> _]. lia.
  - split; [|done]. rewrite H1. split; [by intros ->|by intros [= ->]].
  - split; [|done]. split; [done|]. intros [= -> _]. lia.
Qed.

(** Dictionary order: a proper prefix comes first. *)
Fixpoint lexcmp (a b : list Z) : Z :=
  match a, b with
  | [], [] => 0
  | [], _ :: _ => -1
  | _ :: _, [] => 1
  | x :: a, y :: b => if x <? y then -1 else if x >? y then 1 else lexcmp a b
  end.

Lemma sdscmp_lex s1 s2 : sdscmp s1 s2 = lexcmp s1 s2.
Proof.
  unfold sdscmp. replace (Z.to_nat (if zlen s1 <? zlen s2 then zlen s1 else zlen s2)) with (length s1 `min` length s2)%nat
    by (unfold zlen; destruct (_ <? _) eqn:?; lia).
  revert s2. induction s1 as [|x s1 IH]; intros [|y s2]; cbn [length Nat.min take memcmp lexcmp Z.eqb].
  - done.
  - autorewrite with zlen. pose_zlen. by zbool.
  - autorewrite with zlen. pose_zlen. by zbool.
  - destruct (Z.lt_total x y) as [Hxy|[->|Hxy]]; zbool; [done| |done]. rewrite <- IH. autorewrite with zlen.
    destruct (memcmp _ _ =? 0); [|done]. destruct (Z.lt_total (zlen s1) (zlen s2)) as [?|[?|?]]; by zbool.
Qed.

(** Dictionary order is a total order. *)
Lemma lexcmp_refl a : lexcmp a a = 0.
Proof. induction a as [|x a IH]; cbn [lexcmp]; [done|]. by zbool. Qed.

Lemma lexcmp_eq a b : lexcmp a b = 0 <-> a = b.
Proof.
  split; [|intros ->; apply lexcmp_refl]. revert b. induction a as [|x a IH]; intros [|y b]; cbn [lexcmp]; try done.
  destruct (Z.lt_total x y) as [?|[->|?]]; zbool; [done| |done]. intros E. by rewrite (IH _ E).
Qed.

Lemma lexcmp_anti a b : lexcmp b a = - lexcmp a b.
Proof.
  revert b. induction a as [|x a IH]; intros [|y b]; cbn [lexcmp]; try done.
  destruct (Z.lt_total x y) as [?|[->|?]]; zbool; [done|apply IH|done].
Qed.

Lemma lexcmp_trans a b c : lexcmp a b < 0 -> lexcmp b c < 0 -> lexcmp a c < 0.
Proof.
  revert b c. induction a as [|x a IH]; intros [|y b] [|z c]; cbn [lexcmp]; try lia.
  destruct (Z.lt_total x y) as [?|[->|?]], (Z.lt_total y z) as [?|[->|?]]; zbool; try lia. apply IH.
Qed.

Lemma memcmp_sgn a b : Z.sgn (memcmp a b) = memcmp a b.
Proof.
  revert b. induction a as [|x a IH]; intros [|y b]; cbn [memcmp]; try done. by destruct (x <? y), (x >? y).
Qed.

(** ** Splitting and joining *)

Fixpoint join (sep : list Z) (ts : list (list Z)) : list Z :=
  match ts with
  | [] => []
  | t :: ts => t ++ match ts with [] => [] | _ => sep ++ join sep ts end
  end.

Lemma joinsds_loop_spec argv j sep acc : joinsds_loop argv j (j + zlen argv) sep acc = acc ++ join sep argv.
Proof.
  revert j acc. induction argv as [|a argv IH]; intros j acc; cbn [joinsds_loop join]; [by rewrite app_nil_r|].
  autorewrite with zlen. pose_zlen. rewrite Z.add_assoc, IH. destruct argv as [|b argv].
  - rewrite zlen_nil. zbool. by rewrite !app_nil_r.
  - autorewrite with zlen in *. pose_zlen. zbool. by rewrite <- !app_assoc.
Qed.

Definition occurs (sep t : list Z) : Prop := exists a b, t = a ++ sep ++ b.

Lemma split_hit pre rest sep : sep <> [] -> zlen sep <= zlen rest ->
  (c ← mget (pre ++ rest) (zlen pre); c0 ← mget sep 0;
   if (zlen sep =? 1) && (c =? c0) then Some true
   else m ← mread (pre ++ rest) (zlen pre) (zlen sep); p ← mread sep 0 (zlen sep); Some (memcmp m p =? 0)) =
  Some (bool_decide (take (length sep) rest = sep)).
Proof.
  intros Hs Hl. destruct sep as [|y sep]; [done|]. destruct rest as [|x rest]; [zlia|].
  rewrite (mget_split pre x rest (zlen pre) eq_refl), bind_Some. rewrite (mget_split [] y sep 0 eq_refl : mget (y :: sep) 0 = Some y), bind_Some.
  set (m := take (length (y :: sep)) (x :: rest)). assert (Hm : length m = length (y :: sep)).
  { unfold m. rewrite length_take. unfold zlen in Hl. lia. }
  assert (mread (pre ++ x :: rest) (zlen pre) (zlen (y :: sep)) = Some m) as ->.
  { rewrite <- (take_drop (length (y :: sep)) (x :: rest)). fold m. apply mread_split; [done|]. unfold zlen. lia. }
  assert (mread (y :: sep) 0 (zlen (y :: sep)) = Some (y :: sep)) as ->.
  { rewrite <- (app_nil_r (y :: sep)) at 1. by apply mread_0. }
  rewrite !bind_Some.
  destruct (memcmp_spec m (y :: sep) Hm) as [Hc _].
  assert (Hd : (memcmp m (y :: sep) =? 0) = bool_decide (m = y :: sep)).
  { case_bool_decide as Hb; [apply Z.eqb_eq; tauto|apply Z.eqb_neq; tauto]. }
  rewrite Hd. destruct ((zlen (y :: sep) =? 1) && (x =? y)) eqn:E; [|done]. f_equal. symmetry. apply bool_decide_eq_true.
  autorewrite with zlen in E. assert (sep = []) as -> by (destruct sep; [done|zlia]). unfold m. cbn. f_equal. lia.
Qed.

Lemma splitlen_loop_spec fuel P cur rest sep tokens : sep <> [] -> (length rest <= fuel)%nat ->
  (forall a b, cur ++ rest = a ++ sep ++ b -> (length cur <= length a)%nat) ->
  exists ts, splitlen_loop fuel (P ++ cur ++ rest) (zlen (P ++ cur ++ rest)) sep (zlen sep) (zlen P) (zlen P + zlen cur) tokens =
      Some (tokens ++ ts) /\ ts <> [] /\ join sep ts = cur ++ rest /\ Forall (fun t => ~ occurs sep t) ts.
Proof.
  intros Hs. assert (Hsl : (1 <= length sep)%nat) by (destruct sep; [done|cbn; lia]).
  revert P cur rest tokens. induction fuel as [|fuel IH]; intros P cur rest tokens Hf Hno.
  all: cbn [splitlen_loop].
  all: assert (Hc : (zlen P + zlen cur <? zlen (P ++ cur ++ rest) - (zlen sep - 1)) = bool_decide (length sep <= length rest)%nat)
    by (unfold zlen in *; rewrite !length_app; case_bool_decide; [apply Z.ltb_lt|apply Z.ltb_ge]; lia); rewrite Hc; case_bool_decide as Hb.
  1: lia.
  1, 3: exists [cur ++ rest]; rewrite (mread_end P) by zlia; split; [done|]; split; [done|]; cbn [join]; rewrite app_nil_r; split; [done|];
    constructor; [|done]; intros (a & b & E); specialize (Hno _ _ E); apply (f_equal length) in E; rewrite !length_app in E; lia.
  pose proof (split_hit (P ++ cur) rest sep Hs) as Hhit. rewrite zlen_app, <- app_assoc in Hhit.
  destruct (mget (P ++ cur ++ rest) (zlen P + zlen cur)) as [c|]; cbn [mbind option_bind] in *; [|unfold zlen in *; specialize (Hhit ltac:(lia)); done].
  destruct (mget sep 0) as [c0|]; cbn [mbind option_bind] in *; [|unfold zlen in *; specialize (Hhit ltac:(lia)); done].
  rewrite Hhit by (unfold zlen; lia). cbn [mbind option_bind]. clear Hhit. case_bool_decide as Hh.
  - rewrite <- (take_drop (length sep) rest) in Hno |- *. rewrite Hh in *. set (rest' := drop (length sep) rest) in *.
    rewrite (mread_split P cur) by lia. cbn [mbind option_bind].
    destruct (IH (P ++ cur ++ sep) [] rest' (tokens ++ [cur])) as (ts & E & Hne & Hj & Hall).
    + unfold rest'. rewrite length_drop. lia.
    + cbn. lia.
    + exists (cur :: ts). rewrite <- !app_assoc in E. cbn [app] in E. autorewrite with zlen in E |- *.
      replace (zlen P + zlen cur + zlen sep - 1 + 1) with (zlen P + (zlen cur + zlen sep) + 0) by lia.
      replace (zlen P + zlen cur + zlen sep) with (zlen P + (zlen cur + zlen sep)) by lia. rewrite E.
      split; [done|]. split; [done|]. split.
      * cbn [join]. destruct ts; [done|]. by rewrite Hj.
      * constructor; [|done]. intros (a & b & ->). specialize (Hno a (b ++ sep ++ rest')). rewrite <- !app_assoc in Hno.
        specialize (Hno eq_refl). rewrite !length_app in Hno. lia.
  - destruct rest as [|x rest]; [cbn in *; lia|].
    destruct (IH P (cur ++ [x]) rest tokens) as (ts & E & Hne & Hj & Hall).
    + cbn in Hf. lia.
    + intros a b E. rewrite <- app_assoc in E. specialize (Hno a b E). rewrite length_app. cbn.
      destruct (decide (length cur = length a)) as [Hl|]; [|lia]. exfalso. apply Hh.
      apply app_inj_1 in E as [_ E]; [|done]. cbn [app] in E. rewrite E. apply take_app_length.
    + exists ts. rewrite <- app_assoc in E, Hj. cbn [app] in E, Hj. autorewrite with zlen in E |- *.
      replace (zlen P + zlen cur + 1) with (zlen P + (zlen cur + (1 + 0))) by lia. by split_and!.
Qed.

(** ** Arguments of a line *)

(** Memory that ends with a NUL. *)
Definition cstr (p : list Z) : Prop := exists l, p = l ++ [0].

Lemma cstr_cons c p : cstr (c :: p) -> p <> [] -> cstr p.
Proof. intros [[|x l] E] Hp; cbn in E; injection E as; subst; [done|]. by eexists. Qed.

Lemma cstr_tl c p : cstr (c :: p) -> c <> 0 -> cstr p /\ p <> [].
Proof.
  intros [[|x l] E] Hc; cbn in E; injection E as; subst; [done|]. split; [by eexists|by destruct l].
Qed.

Lemma cstr_ne p : cstr p -> exists c t, p = c :: t.
Proof. intros [[|c l] ->]; cbn; eauto. Qed.

(** What a pass that does not stop with an error does. *)
Definition pass_ok (p : list Z) (r : option pass) : Prop :=
  match r with
  | None => True
  | Some (p', _, q') => exists c t, p' = c :: t /\ cstr p' /\ (length p' <= length p)%nat /\ (c = 0 -> done q' = true)
  end.

Lemma closing_ok c t q : cstr (c :: t) -> c <> 0 -> exists r, closing (c :: t) q = Some r /\ pass_ok (c :: t) r.
Proof.
  intros Hp Hc. destruct (cstr_tl _ _ Hp Hc) as [_ Ht]. destruct t as [|x t]; [done|].
  unfold closing. cbn [lookup list_lookup mbind option_bind]. destruct (_ && _); eexists; split; try done.
  exists c, (x :: t). by split_and!.
Qed.

Lemma inq_pass_ok p q : cstr p -> exists r, inq_pass p q = Some r /\ pass_ok p r.
Proof.
  intros Hp. destruct (cstr_ne p Hp) as (c & t & ->). unfold inq_pass, andthen, chr_is. cbn [lookup list_lookup mbind option_bind].
  assert (Hrest : exists r, (if c =? 34 then closing (c :: t) q else if c =? 0 then Some None else Some (Some (c :: t, [c], q))) = Some r /\ pass_ok (c :: t) r).
  { destruct (c =? 34) eqn:E1; [apply closing_ok; [done|lia]|]. destruct (c =? 0) eqn:E2; eexists; split; try done.
    exists c, t. split_and!; [done..|lia]. }
  destruct (c =? 92) eqn:E; [|exact Hrest]. destruct (cstr_tl _ _ Hp ltac:(lia)) as [Ht Hne].
  destruct t as [|x t]; [done|]. cbn [lookup list_lookup mbind option_bind].
  assert (Hesc : exists r, (if negb (x =? 0) then Some (Some (drop 1 (c :: x :: t), [escape_char x], q))
     else if c =? 34 then closing (c :: x :: t) q else if c =? 0 then Some None else Some (Some (c :: x :: t, [c], q))) = Some r /\ pass_ok (c :: x :: t) r).
  { destruct (x =? 0) eqn:E0; [exact Hrest|]. eexists; split; [done|]. exists x, t. split_and!; [done..|cbn; lia|lia]. }
  destruct (x =? 120) eqn:E1; [|exact Hesc]. destruct (cstr_tl _ _ Ht ltac:(lia)) as [Ht1 Hne1].
  destruct t as [|a t]; [done|]. cbn [lookup list_lookup mbind option_bind].
  destruct (is_hex_digit a) eqn:Ea; [|exact Hesc].
  assert (Ha : a <> 0) by (intros ->; done). destruct (cstr_tl _ _ Ht1 Ha) as [Ht2 Hne2]. destruct t as [|b t]; [done|].
  cbn [lookup list_lookup mbind option_bind]. destruct (is_hex_digit b) eqn:Eb; [|exact Hesc].
  eexists; split; [done|]. exists b, t. split_and!; [done..|cbn; lia|intros ->; done].
Qed.

Lemma token_pass_ok p q : cstr p -> exists r, token_pass p q = Some r /\ pass_ok p r.
Proof.
  intros Hp. unfold token_pass. destruct (inq q); [by apply inq_pass_ok|].
  destruct (cstr_ne p Hp) as (c & t & ->). destruct (insq q).
  - unfold insq_pass, andthen, chr_is. cbn [lookup list_lookup mbind option_bind].
    assert (Hrest : exists r, (if c =? 39 then closing (c :: t) q else if c =? 0 then Some None else Some (Some (c :: t, [c], q))) = Some r /\ pass_ok (c :: t) r).
    { destruct (c =? 39) eqn:E1; [apply closing_ok; [done|lia]|]. destruct (c =? 0) eqn:E2; eexists; split; try done.
      exists c, t. split_and!; [done..|lia]. }
    destruct (c =? 92) eqn:E; [|exact Hrest]. destruct (cstr_tl _ _ Hp ltac:(lia)) as [Ht Hne].
    destruct t as [|x t]; [done|]. cbn [lookup list_lookup mbind option_bind].
    destruct (x =? 39) eqn:E1; [|exact Hrest]. eexists; split; [done|]. exists x, t. split_and!; [done..|cbn; lia|lia].
  - unfold plain_pass. cbn [lookup list_lookup mbind option_bind].
    destruct ((c =? 32) || (c =? 10) || (c =? 13) || (c =? 9) || (c =? 0)) eqn:E.
    { eexists; split; [done|]. exists c, t. by split_and!. }
    assert (c <> 0) by (intros ->; done).
    destruct (c =? 34); [|destruct (c =? 39)]; eexists; split; try done; exists c, t; by split_and!.
Qed.

Lemma token_loop_ok fuel p cur q : cstr p -> (length p < fuel)%nat -> exists r, token_loop fuel p cur q = Some r /\
  match r with None => True | Some (p', _) => cstr p' /\ (length p' <= length p)%nat end.
Proof.
  revert p cur q. induction fuel as [|fuel IH]; intros p cur q Hp Hf; [lia|]. cbn [token_loop].
  destruct (token_pass_ok p q Hp) as (r & -> & Hr). rewrite bind_Some.
  destruct r as [[[p' add] q']|]; [|by exists None].
  destruct Hr as (c & t & -> & Hp' & Hl & Hd). cbn [lookup list_lookup mbind option_bind].
  set (p2 := if negb (c =? 0) then drop 1 (c :: t) else c :: t).
  assert (Hp2 : cstr p2 /\ (length p2 <= length (c :: t))%nat).
  { unfold p2. destruct (c =? 0) eqn:E; [done|]. cbn [negb drop length]. rewrite drop_0. split; [by destruct (cstr_tl c t Hp' ltac:(lia))|lia]. }
  destruct Hp2. destruct (done q') eqn:Ed.
  - eexists; split; [done|]. cbn. split; [done|lia].
  - assert (Hc : (c =? 0) = false) by (apply Z.eqb_neq; intros E; specialize (Hd E); congruence). unfold p2 in *. clear p2. rewrite Hc in *. cbn [negb drop] in *. rewrite ?drop_0 in *.
    destruct (IH t (cur ++ add) q') as (r & -> & Hr); [done|cbn in Hl; lia|]. exists r. split; [done|].
    destruct r as [[p2 ?]|]; [|done]. destruct Hr. cbn in Hl. split; [done|lia].
Qed.

Lemma skip_blanks_ok p : cstr p -> exists c t, skip_blanks p = Some (c :: t) /\ cstr (c :: t) /\
  (length (c :: t) <= length p)%nat /\ (c = 0 \/ isspace c = false).
Proof.
  induction p as [|c p IH]; intros Hp; [by destruct (cstr_ne _ Hp) as (? & ? & ?)|]. cbn [skip_blanks].
  destruct (negb (c =? 0) && isspace c) eqn:E.
  - apply andb_true_iff in E as [E _]. apply negb_true_iff, Z.eqb_neq in E.
    destruct (cstr_tl _ _ Hp E) as [Hp' _]. destruct (IH Hp') as (c' & t & -> & H1 & H2 & H3).
    exists c', t. split_and!; [done..|cbn in *; lia|done].
  - exists c, p. split_and!; [done..|]. destruct (c =? 0) eqn:E0; [left; lia|by right].
Qed.

(** A token takes at least one character. *)
Lemma token_progress fuel c t : cstr (c :: t) -> c <> 0 -> isspace c = false -> (length (c :: t) < fuel)%nat ->
  exists r, token_loop fuel (c :: t) [] {| inq := false; insq := false; done := false |} = Some r /\
    match r with None => True | Some (p', _) => cstr p' /\ (length p' <= length t)%nat end.
Proof.
  intros Hp Hc Hs Hf. destruct fuel as [|fuel]; [lia|]. cbn [token_loop]. unfold token_pass, plain_pass.
  cbn [inq insq done lookup list_lookup mbind option_bind].
  assert (((c =? 32) || (c =? 10) || (c =? 13) || (c =? 9) || (c =? 0)) = false) as -> by (unfold isspace in Hs; lia).
  destruct (cstr_tl _ _ Hp Hc) as [Ht _].
  assert (Hgo : forall add q, exists r, token_loop fuel t add q = Some r /\
     match r with None => True | Some (p', _) => cstr p' /\ (length p' <= length t)%nat end).
  { intros add q. apply token_loop_ok; [done|cbn in Hf; lia]. }
  apply Z.eqb_neq in Hc. destruct (c =? 34); [|destruct (c =? 39)];
    cbn [mbind option_bind lookup list_lookup done]; rewrite Hc; apply Hgo.
Qed.

Lemma splitargs_loop_ok fuel p vec : cstr p -> (length p < fuel)%nat -> is_Some (splitargs_loop fuel p vec).
Proof.
  revert p vec. induction fuel as [|fuel IH]; intros p vec Hp Hf; [lia|]. cbn [splitargs_loop].
  destruct (skip_blanks_ok p Hp) as (c & t & -> & Hct & Hl & Hc). rewrite bind_Some. cbn [lookup list_lookup mbind option_bind].
  destruct (c =? 0) eqn:E; cbn [negb]; [by eexists|]. destruct Hc as [?|Hc]; [lia|].
  destruct (token_progress (S (length (c :: t))) c t Hct ltac:(lia) Hc ltac:(lia)) as (r & -> & Hr).
  cbn [mbind option_bind]. destruct r as [[p' cur]|]; [|by eexists]. destruct Hr. apply IH; [done|cbn in Hl; lia].
Qed.

(** ** Quoting and reading back *)

Definition hex_ok (c : Z) : bool :=
  let a := hex_digit (c / 16) in let b := hex_digit (c mod 16) in
  is_hex_digit a && is_hex_digit b && (u8 (hex_digit_to_int a * 16 + hex_digit_to_int b) =? c) && negb (b =? 0).

Lemma hex_ok_all c : byte_ok c -> hex_ok c = true.
Proof. intros Hc. apply (all_below_spec 256); [by vm_compute|exact Hc]. Qed.

Lemma repr_pass c rest q : byte_ok c -> inq q = true ->
  exists x, x <> 0 /\ token_pass (repr_char c ++ rest) q = Some (Some (x :: rest, [c], q)).
Proof.
  intros Hc Hq. unfold token_pass. rewrite Hq. unfold repr_char.
  destruct ((c =? 92) || (c =? 34)) eqn:E1; [exists c|destruct (c =? 10) eqn:E2; [exists 110|destruct (c =? 13) eqn:E3; [exists 114|
    destruct (c =? 9) eqn:E4; [exists 116|destruct (c =? 7) eqn:E5; [exists 97|destruct (c =? 8) eqn:E6; [exists 98|
    destruct (isprint c) eqn:E7; [exists c|exists (hex_digit (c mod 16))]]]]]]].
  - split; [lia|]. apply orb_true_iff in E1 as [->%Z.eqb_eq| ->%Z.eqb_eq]; done.
  - split; [done|]. apply Z.eqb_eq in E2 as ->. done.
  - split; [done|]. apply Z.eqb_eq in E3 as ->. done.
  - split; [done|]. apply Z.eqb_eq in E4 as ->. done.
  - split; [done|]. apply Z.eqb_eq in E5 as ->. done.
  - split; [done|]. apply Z.eqb_eq in E6 as ->. done.
  - unfold isprint in E7. split; [lia|]. unfold inq_pass, andthen, chr_is. cbn [app lookup list_lookup mbind option_bind].
    rewrite (proj2 (Z.eqb_neq c 92)), (proj2 (Z.eqb_neq c 34)), (proj2 (Z.eqb_neq c 0)) by lia. done.
  - pose proof (hex_ok_all c Hc) as H. unfold hex_ok in H. cbn zeta in H.
    set (a := hex_digit (c / 16)) in *. set (b := hex_digit (c mod 16)) in *. clearbody a b.
    apply andb_true_iff in H as [[[Ha Hb]%andb_true_iff Hv%Z.eqb_eq]%andb_true_iff Hn].
    split; [intros ->; done|]. unfold inq_pass, andthen, chr_is. cbn [app lookup list_lookup mbind option_bind Z.eqb Pos.eqb].
    rewrite Ha, Hb, Hv. done.
Qed.

Lemma repr_loop_app s p : repr_loop s p = s ++ repr_loop [] p.
Proof.
  revert s. induction p as [|c p IH]; intros s; cbn [repr_loop]; [by rewrite app_nil_r|].
  rewrite IH, (IH ([] ++ _)). by rewrite app_nil_l, app_assoc.
Qed.

Lemma sdscatrepr_body p : sdscatrepr [] p = 34 :: repr_loop [] p ++ [34].
Proof. unfold sdscatrepr. rewrite repr_loop_app. done. Qed.

Lemma repr_token fuel cur p x rest : bytes_ok p -> (length (repr_loop [] p) + 1 <= fuel)%nat -> x = 0 \/ isspace x = true ->
  token_loop fuel (repr_loop [] p ++ 34 :: x :: rest) cur {| inq := true; insq := false; done := false |} =
    Some (Some (x :: rest, cur ++ p)).
Proof.
  intros Hp Hf Hx. revert fuel cur Hf. induction Hp as [|c p Hc Hp IH]; intros fuel cur Hf.
  - destruct fuel as [|fuel]; [cbn in Hf; lia|]. cbn [token_loop repr_loop app]. unfold token_pass, inq_pass, andthen, chr_is, closing.
    cbn [inq lookup list_lookup mbind option_bind Z.eqb Pos.eqb].
    assert (negb (x =? 0) && negb (isspace x) = false) as -> by (destruct Hx as [->| ->]; [done|apply andb_false_r]). done.
  - cbn [repr_loop] in *. rewrite repr_loop_app in *. cbn [app] in *.
    assert (Hr : (1 <= length (repr_char c))%nat) by (unfold repr_char; repeat case_match; cbn; lia).
    rewrite length_app in Hf. destruct fuel as [|fuel]; [lia|]. cbn [token_loop].
    destruct (repr_pass c (repr_loop [] p ++ 34 :: x :: rest) {| inq := true; insq := false; done := false |} Hc eq_refl) as (y & Hy & E).
    rewrite <- app_assoc, E. cbn [mbind option_bind lookup list_lookup done].
    rewrite (proj2 (Z.eqb_neq y 0) Hy). cbn [negb drop]. rewrite drop_0, IH by lia. by rewrite <- app_assoc.
Qed.

(** An argument that needs no quotes. *)
Definition plain_char (c : Z) : bool :=
  negb ((c =? 32) || (c =? 10) || (c =? 13) || (c =? 9) || (c =? 0) || (c =? 34) || (c =? 39)).
Definition word (a : list Z) : Prop :=
  Forall (fun c => plain_char c = true) a /\ match a with c :: _ => isspace c = false | [] => False end.

(** The ways to write an argument: as it is, or quoted. *)
Definition renders (t a : list Z) : Prop := (t = a /\ word a) \/ (t = sdscatrepr [] a /\ bytes_ok a).

Definition init_q : quoting := {| inq := false; insq := false; done := false |}.

Lemma word_token fuel cur a x rest : Forall (fun c => plain_char c = true) a -> (length a < fuel)%nat -> x = 0 \/ x = 32 ->
  token_loop fuel (a ++ x :: rest) cur init_q = Some (Some (if x =? 0 then x :: rest else rest, cur ++ a)).
Proof.
  intros Ha Hf Hx. revert fuel cur Hf. induction Ha as [|c a Hc Ha IH]; intros fuel cur Hf; (destruct fuel as [|fuel]; [lia|]).
  - cbn [token_loop app]. by destruct Hx as [->| ->].
  - cbn [token_loop app]. unfold plain_char in Hc. apply negb_true_iff in Hc.
    apply orb_false_iff in Hc as [Hc H39]. apply orb_false_iff in Hc as [Hc H34].
    unfold token_pass, plain_pass. cbn [inq insq init_q lookup list_lookup mbind option_bind]. rewrite Hc, H34, H39.
    rewrite bind_Some. cbn [lookup list_lookup mbind option_bind done init_q]. assert ((c =? 0) = false) as -> by (apply orb_false_iff in Hc; tauto).
    cbn [negb drop]. rewrite drop_0, IH by (cbn in Hf; lia). by rewrite <- app_assoc.
Qed.

Lemma render_token t a x rest : renders t a -> x = 0 \/ x = 32 ->
  exists c t', t = c :: t' /\ c <> 0 /\ isspace c = false /\
    exists p', token_loop (S (length (t ++ x :: rest))) (t ++ x :: rest) [] init_q = Some (Some (p', a)) /\
      skip_blanks p' = skip_blanks (x :: rest).
Proof.
  intros [[-> [Hw Hh]]|[-> Hb]] Hx.
  - destruct a as [|c a]; [done|]. exists c, a. split; [done|]. split; [intros ->; by inversion Hw|]. split; [done|].
    rewrite word_token by (done || (rewrite length_app; lia)). eexists; split; [done|]. by destruct Hx as [->| ->].
  - rewrite sdscatrepr_body. exists 34, (repr_loop [] a ++ [34]). split; [done|]. split; [done|]. split; [done|].
    exists (x :: rest). split; [|done]. cbn [token_loop app]. unfold token_pass. cbn [inq insq init_q plain_pass lookup list_lookup mbind option_bind].
    rewrite <- app_assoc. cbn [app].
    cbn [Z.eqb Pos.eqb orb mbind option_bind lookup list_lookup done negb drop]. rewrite drop_0.
    rewrite repr_token; [done|done| |destruct Hx as [->| ->]; [by left|by right]].
    rewrite length_cons, !length_app. cbn. lia.
Qed.

Lemma splitargs_renders fuel ts args vec : Forall2 renders ts args -> (length ts < fuel)%nat ->
  splitargs_loop fuel (join [32] ts ++ [0]) vec = Some (Some (vec ++ args)).
Proof.
  intros Hr. revert fuel vec. induction Hr as [|t a ts args Ht Hr IH]; intros fuel vec Hf; (destruct fuel as [|fuel]; [cbn in Hf; lia|]).
  { cbn. by rewrite app_nil_r. }
  assert (Hx : exists x rest, join [32] (t :: ts) ++ [0] = t ++ x :: rest /\ (x = 0 \/ x = 32) /\
    skip_blanks (x :: rest) = skip_blanks (join [32] ts ++ [0])).
  { cbn [join]. destruct ts as [|t2 ts].
    - exists 0, []. rewrite app_nil_r. by split_and!; [|left|].
    - exists 32, (join [32] (t2 :: ts) ++ [0]). rewrite <- app_assoc. by split_and!; [|right|]. }
  destruct Hx as (x & rest & -> & Hx & Hskip).
  destruct (render_token t a x rest Ht Hx) as (c & t' & -> & Hc & Hs & p' & Hp' & Hp'').
  cbn [splitargs_loop]. cbn [app skip_blanks]. rewrite Hs, andb_false_r. cbn [mbind option_bind lookup list_lookup].
  rewrite (proj2 (Z.eqb_neq c 0) Hc). cbn [negb]. fold init_q. cbn [app] in Hp'. rewrite Hp'. cbn [mbind option_bind].
  cbn in Hf. specialize (IH fuel (vec ++ [a]) ltac:(lia)). rewrite <- app_assoc in IH. cbn [app] in IH. rewrite <- IH.
  destruct fuel; [lia|]. cbn [splitargs_loop]. by rewrite Hp'', Hskip.
Qed.

Lemma join_length sep ts : Forall (fun t => t <> []) ts -> (length ts <= length (join sep ts))%nat.
Proof.
  induction 1 as [|t ts Ht _ IH]; [done|]. cbn [join length]. rewrite length_app. destruct t; [done|]. cbn.
  destruct ts; [cbn; lia|]. rewrite length_app. lia.
Qed.

Lemma sdssplitargs_renders ts args : Forall2 renders ts args -> sdssplitargs (join [32] ts ++ [0]) = Some (Some args).
Proof.
  intros H. unfold sdssplitargs. rewrite (splitargs_renders _ ts args []); [done|done|].
  rewrite length_app. cbn. assert (Hne : Forall (fun t => t <> []) ts); [|pose proof (join_length [32] ts Hne); lia].
  clear -H. induction H as [|t a ts args Ht _ IH]; [done|]. constructor; [|done].
  destruct Ht as [[-> [_ Ha]]|[-> _]]; [by destruct a|by rewrite sdscatrepr_body].
Qed.

(** ** The properties *)

(** [C38] [sdssplitargs] never reads past the NUL of its line and always returns;
    and it reads back what [sdscatrepr] writes: a line of arguments separated by
    spaces, each quoted by [sdscatrepr] or written as it is when it has no
    special character, splits into exactly those arguments, whatever bytes they
    hold. *)
Theorem sdssplitargs_roundtrip :
  (forall l, is_Some (sdssplitargs (l ++ [0]))) /\
  (forall ts args, Forall2 renders ts args -> sdssplitargs (join [32] ts ++ [0]) = Some (Some args)).
Proof.
  split; [|apply sdssplitargs_renders]. intros l. apply splitargs_loop_ok; [by exists l|lia].
Qed.

(** Splitting by a separator and joining again gives the string back, and no
    token contains the separator: [sdssplitlen] cuts at every occurrence, from the
    left, and reads only the string and the separator. *)
Theorem sdssplitlen_join s sep (Hs : s <> []) (Hsep : sep <> []) :
  exists ts, sdssplitlen s (zlen s) sep (zlen sep) = Some (Some ts) /\
    sdsjoinsds ts (zlen ts) sep = s /\ Forall (fun t => ~ occurs sep t) ts.
Proof.
  unfold sdssplitlen. destruct s as [|x s]; [done|]. destruct sep as [|y sep]; [done|].
  autorewrite with zlen. pose_zlen. zbool.
  destruct (splitlen_loop_spec (Z.to_nat (zlen (x :: s))) [] [] (x :: s) (y :: sep) []) as (ts & E & Hne & Hj & Hall).
  - done.
  - unfold zlen. lia.
  - intros. cbn. lia.
  - cbn [app] in E. change (zlen [] + zlen []) with 0 in E. change (zlen []) with 0 in E. autorewrite with zlen in E.
    rewrite E. exists ts. split; [done|]. split; [|done]. unfold sdsjoinsds.
    rewrite <- (Z.add_0_l (zlen ts)), joinsds_loop_spec. done.
Qed.

Lemma sdssplitlen_witness : exists ts, sdssplitlen (bytes_of "a,,b,") 5 (bytes_of ",") 1 = Some (Some ts) /\
  sdsjoinsds ts (zlen ts) (bytes_of ",") = bytes_of "a,,b,".
Proof.
  destruct (sdssplitlen_join (bytes_of "a,,b,") (bytes_of ",")) as (ts & E & Hj & _); [done|done|].
  by exists ts.
Defined.

(** The integer printers of sds.c write the canonical decimal notation, NUL
    terminated, and [SDS_LLSTR_SIZE] bytes are enough for every value. *)
Theorem sdsll2str_correct (s : list Z) (v w : Z)
    (Hv : in_s 64 v) (Hw : 0 <= w < 2 ^ 64) (Hs : SDS_LLSTR_SIZE <= zlen s) :
  sdsll2str s v = Some (zlen (dec v), dec v ++ [0] ++ drop (S (length (dec v))) s) /\
  sdsull2str s w = Some (zlen (udec w), udec w ++ [0] ++ drop (S (length (udec w))) s) /\
  sdsfromlonglong s v = Some (dec v).
Proof.
  pose proof (sdsll2str_spec s v Hv Hs) as E. split; [done|]. split; [by apply sdsull2str_spec|].
  unfold sdsfromlonglong. rewrite E, bind_Some. cbn [fst snd]. by apply mread_0.
Qed.

Lemma sdsll2str_witness : sdsfromlonglong (replicate 21 7) LLONG_MIN = Some (bytes_of "-9223372036854775808").
Proof.
  destruct (sdsll2str_correct (replicate 21 7) LLONG_MIN 0) as (_ & _ & E).
  - by vm_compute.
  - lia.
  - by vm_compute.
  - rewrite E. by vm_compute.
Defined.

(** The parts and the order of strings: [sdsrange] is the inclusive slice
    with its indexes clamped, [sdstrim] cuts the longest runs of characters of
    the set at both ends and nothing else, and [sdscmp] is dictionary order.
    None of them reads outside its strings. *)
Theorem sds_slices s s2 cset start end_ :
  sdsrange s start end_ =
    Some (let lo := clamp (zlen s) start in let hi := Z.min (clamp (zlen s) end_) (zlen s - 1) in
          take (Z.to_nat (hi - lo + 1)) (drop (Z.to_nat lo) s)) /\
  (exists l m r, s = l ++ m ++ r /\ sdstrim s cset = Some m /\
    Forall (fun c => in_cset cset c = true) l /\ Forall (fun c => in_cset cset c = true) r /\
    (forall c m', m = c :: m' \/ m = m' ++ [c] -> in_cset cset c = false)) /\
  sdscmp s s2 = lexcmp s s2.
Proof. split; [apply sdsrange_spec|]. split; [apply sdstrim_spec|apply sdscmp_lex]. Qed.

(** The example of the comment of [sdstrim]: the output has no space. *)
Lemma sdstrim_example :
  sdstrim (bytes_of "AA...AA.a.aa.aHelloWorld     :::") (bytes_of "Aa. :") = Some (bytes_of "HelloWorld") /\
  bytes_of "HelloWorld" <> bytes_of "Hello World".
Proof. by vm_compute. Qed.
