(* ===== verification/Object.v ===== *)
(** * String objects (object.c)

    Objects live in a heap, with their reference counts.  A string object is an
    integer or a string; [OEmbstr] and [ORaw] differ in where the string is kept.
    Of an object of another type only the type is kept: the assertions on types
    give [None] on it.
    The shared integers are objects at fixed addresses.  The free space at the
    end of a string and the access time of an object are not modelled. *)
From Stdlib Require Import ZArith Lia String.
From stdpp Require Import base numbers list option gmap infinite.
From S2P Require Import Prelude UtilNum Sds SdsRefine.

Definition OBJ_SHARED_INTEGERS : Z := 10000.
Definition OBJ_SHARED_REFCOUNT : Z := 2 ^ 31 - 1.
Definition OBJ_ENCODING_EMBSTR_SIZE_LIMIT : Z := 44.

Abbreviation oaddr := positive.

(** [o->type], [o->encoding] and [o->ptr]; [OOther] is an object that is not a
    string. *)
Inductive strenc := OInt (v : Z) | OEmbstr (s : list Z) | ORaw (s : list Z) | OOther (type : Z).

Record robj := { refcount : Z; enc : strenc }.

Section Object.
(** The shared integers, and whether the configuration lets values of the
    keyspace be shared. *)
Context (shared_integers : Z -> oaddr) (values_shared : bool).

Abbreviation heap := (gmap oaddr robj).
Implicit Types (h : heap) (o : oaddr).

Definition createObject h (e : strenc) : oaddr * heap :=
  let o := fresh (dom h) in (o, <[o := {| refcount := 1; enc := e |}]> h).

Definition createRawStringObject h (s : list Z) : oaddr * heap := createObject h (ORaw s).

(** [sh->len] has 8 bits. *)
Definition createEmbeddedStringObject h (s : list Z) : oaddr * heap := createObject h (OEmbstr (take (Z.to_nat (u8 (zlen s))) s)).

Definition createStringObject h (s : list Z) : oaddr * heap :=
  if zlen s <=? OBJ_ENCODING_EMBSTR_SIZE_LIMIT then createEmbeddedStringObject h s else createRawStringObject h s.

Definition incrRefCount h o : option heap :=
  ob ← h !! o;
  Some (if refcount ob =? OBJ_SHARED_REFCOUNT then h else <[o := {| refcount := i32 (refcount ob + 1); enc := enc ob |}]> h).

(** [freeStringObject] and [zfree] take the object away; [None] is the panic. *)
Definition decrRefCount h o : option heap :=
  ob ← h !! o;
  if refcount ob =? 1 then Some (delete o h)
  else if refcount ob <=? 0 then None
  else Some (if refcount ob =? OBJ_SHARED_REFCOUNT then h else <[o := {| refcount := refcount ob - 1; enc := enc ob |}]> h).

Definition makeObjectShared h o : option heap :=
  ob ← h !! o;
  if refcount ob =? 1 then Some (<[o := {| refcount := OBJ_SHARED_REFCOUNT; enc := enc ob |}]> h) else None.

(** The loop of [createSharedObjects] that fills [shared.integers]. *)
Fixpoint shared_integers_loop (n : nat) (j : Z) h (integers : list oaddr) : option (heap * list oaddr) :=
  match n with
  | O => Some (h, integers)
  | S n =>
      let '(o, h) := createObject h (OInt j) in
      h ← makeObjectShared h o;
      shared_integers_loop n (j + 1) h (integers ++ [o])
  end.

Definition createSharedIntegers h : option (heap * list oaddr) :=
  shared_integers_loop (Z.to_nat OBJ_SHARED_INTEGERS) 0 h [].

(** A [long] is 64 bits wide: every [long long] is one. *)
Definition createStringObjectFromLongLongWithOptions h (value : Z) (valueobj : bool) : option (oaddr * heap) :=
  let valueobj := if values_shared then false else valueobj in
  if (0 <=? value) && (value <? OBJ_SHARED_INTEGERS) && negb valueobj then
    h ← incrRefCount h (shared_integers value);
    Some (shared_integers value, h)
  else Some (createObject h (OInt value)).

Definition createStringObjectFromLongLong h (value : Z) := createStringObjectFromLongLongWithOptions h value false.
Definition createStringObjectFromLongLongForValue h (value : Z) := createStringObjectFromLongLongWithOptions h value true.

Definition dupStringObject h o : option (oaddr * heap) :=
  ob ← h !! o;
  match enc ob with
  | ORaw s => Some (createRawStringObject h s)
  | OEmbstr s => Some (createEmbeddedStringObject h s)
  | OInt v => Some (createObject h (OInt v))
  | OOther _ => None
  end.

(** ** Numbers *)

Definition isSdsRepresentableAsLongLong (s : list Z) : option (option Z) := string2ll s (zlen s).

Definition isObjectRepresentableAsLongLong h o : option (option Z) :=
  ob ← h !! o;
  match enc ob with
  | OInt v => Some (Some v)
  | OEmbstr s | ORaw s => isSdsRepresentableAsLongLong s
  | OOther _ => None
  end.

(** The outer [None] is an error of the model, the inner one [C_ERR]. *)
Definition getLongLongFromObject h (oo : option oaddr) : option (option Z) :=
  match oo with
  | None => Some (Some 0)
  | Some o =>
      ob ← h !! o;
      match enc ob with
      | OInt v => Some (Some v)
      | OEmbstr s | ORaw s => string2ll s (zlen s)
      | OOther _ => None
      end
  end.

(** ** Encoding *)

Definition tryObjectEncoding h o : option (oaddr * heap) :=
  ob ← h !! o;
  match enc ob with
  | OOther _ => None
  | OInt _ => Some (o, h)
  | OEmbstr s | ORaw s =>
      if 1 <? refcount ob then Some (o, h)
      else
        let len := zlen s in
        n ← (if len <=? 20 then string2l s len else Some None);
        match n with
        | Some value =>
            if values_shared && (0 <=? value) && (value <? OBJ_SHARED_INTEGERS) then
              h ← decrRefCount h o;
              h ← incrRefCount h (shared_integers value);
              Some (shared_integers value, h)
            else Some (o, <[o := {| refcount := refcount ob; enc := OInt value |}]> h)
        | None =>
            if len <=? OBJ_ENCODING_EMBSTR_SIZE_LIMIT then
              match enc ob with
              | OEmbstr _ => Some (o, h)
              | _ =>
                  let '(emb, h) := createEmbeddedStringObject h s in
                  h ← decrRefCount h o;
                  Some (emb, h)
              end
            else Some (o, h)
        end
  end.

(** [buf] is what the buffer on the stack holds. *)
Definition getDecodedObject (buf : list Z) h o : option (oaddr * heap) :=
  ob ← h !! o;
  match enc ob with
  | OInt v => r ← ll2string buf 32 v; s ← c_string (snd r); Some (createStringObject h s)
  | OEmbstr _ | ORaw _ => h' ← incrRefCount h o; Some (o, h')
  | OOther _ => None
  end.

(** ** Comparison *)

(** The string of an object and its length, written on the stack for an integer. *)
Definition object_string (buf : list Z) (ob : robj) : option (list Z * Z) :=
  match enc ob with
  | OEmbstr s | ORaw s => Some (s, zlen s)
  | OInt v => r ← ll2string buf 128 v; let '(n, buf) := (r : Z * list Z) in Some (buf, n)
  | OOther _ => None
  end.

(** With [REDIS_COMPARE_BINARY]. *)
Definition compareStringObjects (bufa bufb : list Z) h (a b : oaddr) : option Z :=
  if decide (a = b) then Some 0
  else
    oa ← h !! a; ob ← h !! b;
    sa ← object_string bufa oa; sb ← object_string bufb ob;
    let minlen := if snd sa <? snd sb then snd sa else snd sb in
    xa ← mread (fst sa) 0 minlen; xb ← mread (fst sb) 0 minlen;
    let cmp := memcmp xa xb in
    Some (if cmp =? 0 then i32 (u64 (snd sa - snd sb)) else cmp).

Definition equalStringObjects (bufa bufb : list Z) h (a b : oaddr) : option bool :=
  oa ← h !! a; ob ← h !! b;
  match enc oa, enc ob with
  | OInt x, OInt y => Some (x =? y)
  | _, _ => c ← compareStringObjects bufa bufb h a b; Some (c =? 0)
  end.

Definition stringObjectLen h o : option Z :=
  ob ← h !! o;
  match enc ob with
  | OEmbstr s | ORaw s => Some (zlen s)
  | OInt v => sdigits10 v
  | OOther _ => None
  end.
End Object.

(** * What the operations promise *)

(** The string an object stands for. *)
Definition str_of (e : strenc) : list Z := match e with OInt v => dec v | OEmbstr s | ORaw s => s | OOther _ => [] end.

Definition value (h : gmap oaddr robj) (o : oaddr) : option (list Z) := ob ← h !! o; Some (str_of (enc ob)).

Definition strenc_ok (e : strenc) : Prop :=
  match e with OInt v => in_s 64 v | OEmbstr s => zlen s <= 44 | ORaw s => zlen s < 2 ^ 31 | OOther _ => False end.

Lemma dec_len_le v : in_s 64 v -> 1 <= zlen (dec v) <= 20.
Proof.
  intros Hv. unfold in_s in Hv. cbn in Hv. unfold dec. destruct (v <? 0) eqn:E.
  - rewrite zlen_cons. pose proof (udec_len_le (- v) 19 ltac:(lia) ltac:(lia)). lia.
  - apply udec_len_20. lia.
Qed.

Lemma dec_nonzero v : in_s 64 v -> Forall (fun c => c <> 0) (dec v).
Proof.
  intros Hv. unfold in_s in Hv. cbn in Hv. unfold dec.
  assert (Hd : forall w, 0 <= w < 10 ^ 20 -> Forall (fun c => c <> 0) (udec w)).
  { intros w Hw. eapply Forall_impl; [exact (udec_digits w Hw)|]. intros c Hc. cbn in Hc. lia. }
  destruct (v <? 0) eqn:E; [constructor; [done|]|]; apply Hd; lia.
Qed.

(** [ll2string] into a buffer that is large enough. *)
Lemma ll2string_fits buf n v : in_s 64 v -> 21 <= n <= zlen buf ->
  exists rest, ll2string buf n v = Some (zlen (dec v), dec v ++ 0 :: rest) /\ zlen (dec v ++ 0 :: rest) = zlen buf /\ c_string (dec v ++ 0 :: rest) = Some (dec v).
Proof.
  intros Hv Hn. pose proof (dec_len_le v Hv). rewrite ll2string_spec by (done || lia). rewrite geb_false by lia. eexists. split; [done|].
  split; [|by apply c_string_app, dec_nonzero]. autorewrite with zlen. unfold zlen in *. rewrite length_drop. lia.
Qed.

Section Promises.
Context (shared_integers : Z -> oaddr) (values_shared : bool).

Abbreviation heap := (gmap oaddr robj).
Implicit Types (h : heap) (o a : oaddr).

Definition shared_ok h : Prop := forall v, 0 <= v < OBJ_SHARED_INTEGERS ->
  h !! shared_integers v = Some {| refcount := OBJ_SHARED_REFCOUNT; enc := OInt v |}.

Lemma value_Some h o ob : h !! o = Some ob -> value h o = Some (str_of (enc ob)).
Proof. intros Ho. unfold value. by rewrite Ho. Qed.

Lemma create_value h e : let '(o, h') := createObject h e in
  h !! o = None /\ h' !! o = Some {| refcount := 1; enc := e |} /\ (forall a, a <> o -> h' !! a = h !! a).
Proof.
  unfold createObject. split_and!; [by apply not_elem_of_dom, is_fresh|apply lookup_insert_eq|]. intros a Ha. by apply lookup_insert_ne.
Qed.

Lemma embstr_value h s : zlen s <= 255 -> createEmbeddedStringObject h s = createObject h (OEmbstr s).
Proof.
  intros Hs. unfold createEmbeddedStringObject. rewrite uwrap_small by (pose_zlen; lia). rewrite take_ge; [done|]. unfold zlen. lia.
Qed.

Lemma string_value h s : exists e, createStringObject h s = createObject h e /\ str_of e = s /\ (forall v, e <> OInt v) /\ (zlen s < 2 ^ 31 -> strenc_ok e).
Proof.
  unfold createStringObject, OBJ_ENCODING_EMBSTR_SIZE_LIMIT. destruct (zlen s <=? 44) eqn:E.
  - exists (OEmbstr s). rewrite embstr_value by lia. split_and!; [done|done|done|]. intros _. cbn. lia.
  - exists (ORaw s). split_and!; done.
Qed.

(** Numbers have one notation. *)
Lemma string2ll_cases s : (exists v, in_s 64 v /\ s = dec v /\ string2ll s (zlen s) = Some (Some v)) \/
  (string2ll s (zlen s) = Some None /\ forall v, in_s 64 v -> s <> dec v).
Proof.
  destruct (string2ll_total s) as ([v|] & -> & Hr).
  - left. exists v. destruct (proj1 (Hr v) eq_refl) as [? ?]. done.
  - right. split; [done|]. intros v Hv E. discriminate (proj2 (Hr v) (conj Hv E)).
Qed.

Lemma dec_inj v w : in_s 64 v -> in_s 64 w -> dec v = dec w -> v = w.
Proof.
  intros Hv Hw E. destruct (string2ll_total (dec v)) as (r & _ & Hr).
  assert (r = Some v) as -> by (by apply Hr). assert (Some v = Some w) as [= ->]; [|done]. by apply Hr.
Qed.

Lemma shared_insert h o ob e : shared_ok h -> h !! o = Some ob -> refcount ob <> OBJ_SHARED_REFCOUNT -> shared_ok (<[o := e]> h) /\ shared_ok (delete o h).
Proof.
  intros Hs Ho Hr. assert (Hne : forall v, 0 <= v < OBJ_SHARED_INTEGERS -> o <> shared_integers v).
  { intros v Hv ->. rewrite Hs in Ho by done. injection Ho as <-. by apply Hr. }
  split; intros v Hv; [rewrite lookup_insert_ne by by apply Hne|rewrite lookup_delete_ne by by apply Hne]; by apply Hs.
Qed.

Lemma shared_create h e : shared_ok h -> shared_ok (createObject h e).2.
Proof.
  intros Hs v Hv. unfold createObject. cbn [snd]. rewrite lookup_insert_ne; [by apply Hs|].
  intros E. assert (Hn : h !! fresh (dom h) = None) by apply not_elem_of_dom, is_fresh. rewrite E, Hs in Hn; done.
Qed.

(** The object [r] in the heap [h'] stands for the same string as [o] in [h]; no
    other object changes, and [o] is gone when [r] takes its place. *)
Record same_value h o ob r h' ob' : Prop := {
  sv_shared : shared_ok h';
  sv_new : h' !! r = Some ob';
  sv_value : str_of (enc ob') = str_of (enc ob);
  sv_ok : strenc_ok (enc ob');
  sv_gone : r <> o -> refcount ob = 1 -> h' !! o = None;
  sv_others a : a <> o -> is_Some (h !! a) -> h' !! a = h !! a
}.

Lemma same_value_refl h o ob : shared_ok h -> h !! o = Some ob -> strenc_ok (enc ob) -> same_value h o ob o h ob.
Proof. by split. Qed.

(** An object that only its owner uses is replaced by another one. *)
Lemma decr_last h o ob : h !! o = Some ob -> refcount ob = 1 -> decrRefCount h o = Some (delete o h).
Proof. intros Ho Hr. unfold decrRefCount. rewrite Ho. cbn [mbind option_bind]. by rewrite Hr. Qed.

Lemma incr_shared h v : shared_ok h -> 0 <= v < OBJ_SHARED_INTEGERS -> incrRefCount h (shared_integers v) = Some h.
Proof. intros Hs Hv. unfold incrRefCount. rewrite (Hs v Hv). done. Qed.

Lemma encoding_spec h o ob : shared_ok h -> h !! o = Some ob -> 1 <= refcount ob < OBJ_SHARED_REFCOUNT -> strenc_ok (enc ob) ->
  exists r h' ob', tryObjectEncoding shared_integers values_shared h o = Some (r, h') /\ same_value h o ob r h' ob' /\
    (refcount ob = 1 -> forall v, in_s 64 v -> str_of (enc ob) = dec v -> enc ob' = OInt v).
Proof.
  intros Hs Ho Hr Hok. unfold tryObjectEncoding. rewrite Ho. cbn [mbind option_bind].
  assert (Hmain : forall s, str_of (enc ob) = s -> refcount ob = 1 ->
    (forall v, enc ob <> OInt v) -> exists r h' ob',
    (n ← (if zlen s <=? 20 then string2ll s (zlen s) else Some None);
     match n with
     | Some v => if values_shared && (0 <=? v) && (v <? OBJ_SHARED_INTEGERS) then
           h ← decrRefCount h o; h ← incrRefCount h (shared_integers v); Some (shared_integers v, h)
         else Some (o, <[o := {| refcount := refcount ob; enc := OInt v |}]> h)
     | None => if zlen s <=? OBJ_ENCODING_EMBSTR_SIZE_LIMIT then
           match enc ob with
           | OEmbstr _ => Some (o, h)
           | _ => let '(emb, h) := createEmbeddedStringObject h s in h ← decrRefCount h o; Some (emb, h)
           end
         else Some (o, h)
     end) = Some (r, h') /\ same_value h o ob r h' ob' /\
    (refcount ob = 1 -> forall v, in_s 64 v -> str_of (enc ob) = dec v -> enc ob' = OInt v)).
  { intros s Hst Hr1 Hni. destruct (shared_insert h o ob {| refcount := refcount ob; enc := OInt 0 |} Hs Ho) as [_ Hsd]; [unfold OBJ_SHARED_REFCOUNT; lia|].
    assert (Hn : (exists v, in_s 64 v /\ s = dec v /\ (if zlen s <=? 20 then string2ll s (zlen s) else Some None) = Some (Some v)) \/
      ((if zlen s <=? 20 then string2ll s (zlen s) else Some None) = Some None /\ forall v, in_s 64 v -> s <> dec v)).
    { destruct (string2ll_cases s) as [(v & Hv & -> & Hd)|[Hd Hno]].
      - left. exists v. pose proof (dec_len_le v Hv). rewrite (proj2 (Z.leb_le _ _)) by lia. done.
      - right. split; [by destruct (_ <=? 20)|done]. }
    destruct Hn as [(v & Hv & Hsv & ->)|[-> Hno]]; cbn [mbind option_bind].
    - destruct (values_shared && (0 <=? v) && (v <? OBJ_SHARED_INTEGERS)) eqn:Esh.
      + apply andb_true_iff in Esh as [[_ E1]%andb_true_iff E2]. assert (Hvr : 0 <= v < OBJ_SHARED_INTEGERS) by lia.
        rewrite (decr_last h o ob Ho Hr1). cbn [mbind option_bind]. rewrite (incr_shared _ v Hsd Hvr). cbn [mbind option_bind].
        do 3 eexists. split; [done|]. split.
        * split; [done|by apply Hsd|cbn; congruence|exact Hv|intros _ _; apply lookup_delete_eq|intros a Ha _; by apply lookup_delete_ne].
        * intros _ w Hw E. cbn. f_equal. apply dec_inj; congruence.
      + do 3 eexists. split; [done|]. split.
        * split; [|apply lookup_insert_eq|cbn; congruence|exact Hv|done|intros a Ha _; by apply lookup_insert_ne].
          eapply shared_insert; [done|exact Ho|unfold OBJ_SHARED_REFCOUNT; lia].
        * intros _ w Hw E. cbn. f_equal. apply dec_inj; congruence.
    - assert (Hvac : forall e, refcount ob = 1 -> forall v, in_s 64 v -> str_of (enc ob) = dec v -> e = OInt v).
      { intros e _ v Hv E. exfalso. apply (Hno v Hv). congruence. }
      unfold OBJ_ENCODING_EMBSTR_SIZE_LIMIT. destruct (zlen s <=? 44) eqn:El.
      + destruct (enc ob) as [v|s0|s0|ty] eqn:Eenc; [by destruct (Hni v)| | |done].
        * exists o, h, ob. split; [done|]. split; [apply same_value_refl; [done..|rewrite Eenc; done]|apply Hvac].
        * rewrite embstr_value by lia. pose proof (create_value h (OEmbstr s)) as Hc. pose proof (shared_create h (OEmbstr s) Hs) as Hs1.
          destruct (createObject h (OEmbstr s)) as [e h1]. cbn [snd] in Hs1. destruct Hc as (Hc0 & Hc1 & Hc2).
          assert (Hne : o <> e) by congruence. assert (Ho1 : h1 !! o = Some ob) by (by rewrite Hc2).
          rewrite (decr_last h1 o ob Ho1 Hr1). cbn [mbind option_bind]. do 3 eexists. split; [done|]. split; [|apply Hvac].
          destruct (shared_insert h1 o ob ob Hs1 Ho1) as [_ Hs2]; [unfold OBJ_SHARED_REFCOUNT; lia|].
          split; [done|by rewrite lookup_delete_ne|rewrite Eenc; cbn in *; congruence|cbn; lia|intros _ _; apply lookup_delete_eq|].
          intros a Ha [x Hx]. rewrite lookup_delete_ne, Hc2 by congruence. done.
      + exists o, h, ob. split; [done|]. split; [by apply same_value_refl|apply Hvac]. }
  destruct (enc ob) as [v|s|s|ty] eqn:Eenc; [| | |done].
  - exists o, h, ob. split; [done|]. split; [by apply same_value_refl; rewrite ?Eenc|]. intros _ w Hw E. rewrite Eenc. cbn in E, Hok. f_equal. by apply dec_inj.
  - destruct (Z.ltb_spec 1 (refcount ob)).
    + exists o, h, ob. split; [done|]. split; [by apply same_value_refl; rewrite ?Eenc|lia].
    + rewrite string2l_eq. apply (Hmain s); [done|lia|done].
  - destruct (Z.ltb_spec 1 (refcount ob)).
    + exists o, h, ob. split; [done|]. split; [by apply same_value_refl; rewrite ?Eenc|lia].
    + rewrite string2l_eq. apply (Hmain s); [done|lia|done].
Qed.

(** ** Decoding and comparison *)

Lemma decoded_spec buf h o ob : h !! o = Some ob -> strenc_ok (enc ob) -> 32 <= zlen buf -> 1 <= refcount ob < OBJ_SHARED_REFCOUNT ->
  exists r h' ob', getDecodedObject buf h o = Some (r, h') /\ h' !! r = Some ob' /\ str_of (enc ob') = str_of (enc ob) /\
    (forall v, enc ob' <> OInt v) /\ (forall a, a <> o -> is_Some (h !! a) -> h' !! a = h !! a).
Proof.
  intros Ho Hok Hb Hr. unfold getDecodedObject. rewrite Ho. cbn [mbind option_bind].
  assert (Hinc : (forall v, enc ob <> OInt v) -> exists r h' ob', (h' ← incrRefCount h o; Some (o, h')) = Some (r, h') /\ h' !! r = Some ob' /\
    str_of (enc ob') = str_of (enc ob) /\ (forall v, enc ob' <> OInt v) /\ (forall a, a <> o -> is_Some (h !! a) -> h' !! a = h !! a)).
  { intros Hni. unfold incrRefCount. rewrite Ho. cbn [mbind option_bind]. rewrite (proj2 (Z.eqb_neq _ _)) by lia.
    do 3 eexists. split_and!; [done|apply lookup_insert_eq|done|done|]. intros a Ha _. by apply lookup_insert_ne. }
  destruct (enc ob) as [v|s|s|ty] eqn:E; [|by apply Hinc..|done].
  destruct (ll2string_fits buf 32 v Hok) as (rest & -> & _ & Hc); [lia|]. cbn [mbind option_bind snd]. rewrite Hc. cbn [mbind option_bind].
  destruct (string_value h (dec v)) as (e & -> & He & Hne & _). pose proof (create_value h e) as Hcr. destruct (createObject h e) as [r h'].
  destruct Hcr as (H0 & H1 & H2). exists r, h', {| refcount := 1; enc := e |}. split_and!; [done|done|done|done|].
  intros a _ [x Hx]. apply H2. congruence.
Qed.

Lemma object_string_spec buf ob : strenc_ok (enc ob) -> 128 <= zlen buf ->
  exists m n rest, object_string buf ob = Some (m, n) /\ m = str_of (enc ob) ++ rest /\ n = zlen (str_of (enc ob)) /\ n < 2 ^ 31.
Proof.
  intros Hok Hb. unfold object_string. destruct (enc ob) as [v|s|s|ty]; cbn [str_of]; [| | |done].
  - destruct (ll2string_fits buf 128 v Hok) as (rest & -> & _ & _); [lia|]. cbn [mbind option_bind]. pose proof (dec_len_le v Hok).
    do 3 eexists. split_and!; [done|done|done|lia].
  - cbn in Hok. exists s, (zlen s), []. rewrite app_nil_r. split_and!; [done..|lia].
  - exists s, (zlen s), []. by rewrite app_nil_r.
Qed.

Lemma mread_prefix (s rest : list Z) n : 0 <= n <= zlen s -> mread (s ++ rest) 0 n = Some (take (Z.to_nat n) s).
Proof.
  intros Hn. rewrite <- (take_drop (Z.to_nat n) s) at 1. rewrite <- app_assoc. apply (mread_split [] _ _); [done|].
  rewrite zlen_take; lia.
Qed.

Lemma int_of_diff d : - 2 ^ 31 < d < 2 ^ 31 -> i32 (u64 d) = d.
Proof.
  intros Hd. unfold swrap, uwrap. rewrite (Z.mod_eq d (2 ^ 64)) by lia.
  replace (d - 2 ^ 64 * (d / 2 ^ 64) + 2 ^ (32 - 1)) with (d + 2 ^ 31 + (- (2 ^ 32 * (d / 2 ^ 64))) * 2 ^ 32) by lia.
  rewrite Z.mod_add, Z.mod_small by lia. lia.
Qed.

Lemma compare_spec bufa bufb h a b oa ob : h !! a = Some oa -> h !! b = Some ob -> strenc_ok (enc oa) -> strenc_ok (enc ob) ->
  128 <= zlen bufa -> 128 <= zlen bufb ->
  exists c, compareStringObjects bufa bufb h a b = Some c /\ Z.sgn c = sdscmp (str_of (enc oa)) (str_of (enc ob)).
Proof.
  intros Ha Hb Hoka Hokb Hba Hbb. unfold compareStringObjects. destruct (decide (a = b)) as [->|Hne].
  { exists 0. split; [done|]. rewrite sdscmp_lex. assert (oa = ob) as -> by congruence. by rewrite lexcmp_refl. }
  rewrite Ha, Hb. cbn [mbind option_bind].
  destruct (object_string_spec bufa oa Hoka Hba) as (ma & na & ra & -> & -> & -> & Hna).
  destruct (object_string_spec bufb ob Hokb Hbb) as (mb & nb & rb & -> & -> & -> & Hnb). cbn [mbind option_bind fst snd].
  set (sa := str_of (enc oa)) in *. set (sb := str_of (enc ob)) in *. set (ml := if zlen sa <? zlen sb then zlen sa else zlen sb).
  assert (Hml : ml = Z.min (zlen sa) (zlen sb)) by (unfold ml; destruct (_ <? _) eqn:?; lia).
  pose proof (zlen_nonneg sa). pose proof (zlen_nonneg sb).
  rewrite !mread_prefix by lia. cbn [mbind option_bind]. eexists. split; [done|]. unfold sdscmp. cbn zeta.
  fold ml. destruct (memcmp (take (Z.to_nat ml) sa) (take (Z.to_nat ml) sb) =? 0) eqn:E.
  - rewrite int_of_diff by lia. destruct (Z.lt_total (zlen sa) (zlen sb)) as [?|[?|?]]; zbool; lia.
  - apply memcmp_sgn.
Qed.

Lemma equal_spec bufa bufb h a b oa ob : h !! a = Some oa -> h !! b = Some ob -> strenc_ok (enc oa) -> strenc_ok (enc ob) ->
  128 <= zlen bufa -> 128 <= zlen bufb ->
  equalStringObjects bufa bufb h a b = Some (bool_decide (str_of (enc oa) = str_of (enc ob))).
Proof.
  intros Ha Hb Hoka Hokb Hba Hbb. unfold equalStringObjects. rewrite Ha, Hb. cbn [mbind option_bind].
  destruct (compare_spec bufa bufb h a b oa ob) as (c & Hc & Hsgn); [done..|].
  assert (Hcmp : (c ← compareStringObjects bufa bufb h a b; Some (c =? 0)) = Some (bool_decide (str_of (enc oa) = str_of (enc ob)))).
  { rewrite Hc. cbn [mbind option_bind]. f_equal. apply eq_true_iff_eq. rewrite bool_decide_eq_true, Z.eqb_eq.
    rewrite sdscmp_lex in Hsgn. rewrite <- lexcmp_eq, <- Hsgn. lia. }
  destruct (enc oa) as [v|?|?|?]; [|exact Hcmp..]. destruct (enc ob) as [w|?|?|?]; [|exact Hcmp..].
  f_equal. apply eq_true_iff_eq. rewrite bool_decide_eq_true, Z.eqb_eq. cbn. split; [by intros ->|by apply dec_inj].
Qed.
End Promises.

(** ** The shared integers *)

Lemma shared_loop_spec n j h tbl : zlen tbl = j ->
  (forall v, 0 <= v < j -> exists o, mget tbl v = Some o /\ h !! o = Some {| refcount := OBJ_SHARED_REFCOUNT; enc := OInt v |}) ->
  exists h' tbl', shared_integers_loop n j h tbl = Some (h', tbl') /\
    (forall v, 0 <= v < j + Z.of_nat n -> exists o, mget tbl' v = Some o /\ h' !! o = Some {| refcount := OBJ_SHARED_REFCOUNT; enc := OInt v |}) /\
    (forall a, is_Some (h !! a) -> h' !! a = h !! a).
Proof.
  revert j h tbl. induction n as [|n IH]; intros j h tbl Hl Hs.
  { exists h, tbl. split_and!; [done| |done]. intros v Hv. apply Hs. lia. }
  cbn [shared_integers_loop]. pose proof (create_value h (OInt j)) as Hc. destruct (createObject h (OInt j)) as [o h1].
  destruct Hc as (H0 & H1 & H2). unfold makeObjectShared. rewrite H1. cbn [mbind option_bind refcount enc Z.eqb Pos.eqb].
  set (h2 := <[o := _]> h1). assert (Hold : forall a, is_Some (h !! a) -> h2 !! a = h !! a).
  { intros a [x Hx]. assert (a <> o) by congruence. unfold h2. rewrite lookup_insert_ne by done. by apply H2. }
  destruct (IH (j + 1) h2 (tbl ++ [o])) as (h' & tbl' & E & Ht & Hf); [zlia| |].
  - intros v Hv. destruct (decide (v = j)) as [->|Hne].
    + exists o. split; [by apply mget_split|]. apply lookup_insert_eq.
    + destruct (Hs v) as (ov & Hg & Ho); [lia|]. exists ov. rewrite mget_app_l by lia. split; [done|]. rewrite Hold; eauto.
  - exists h', tbl'. split_and!; [done| |].
    + intros v Hv. apply Ht. lia.
    + intros a Ha. rewrite Hf, Hold by (by rewrite ?Hold). done.
Qed.

(** Address of a shared integer in the table. *)
Definition integer_at (tbl : list oaddr) (v : Z) : oaddr := default 1%positive (mget tbl v).

Lemma shared_created h : exists h' tbl, createSharedIntegers h = Some (h', tbl) /\ shared_ok (integer_at tbl) h' /\
  forall a, is_Some (h !! a) -> h' !! a = h !! a.
Proof.
  destruct (shared_loop_spec (Z.to_nat OBJ_SHARED_INTEGERS) 0 h []) as (h' & tbl & E & Ht & Hf); [done|lia|].
  exists h', tbl. split_and!; [done| |done]. intros v Hv. unfold OBJ_SHARED_INTEGERS in *. destruct (Ht v) as (o & Hg & Ho); [lia|].
  unfold integer_at. by rewrite Hg.
Qed.

(** * Properties *)

(** [tryObjectEncoding] keeps the string an object stands for, frees what
    it replaces and leaves the rest of the heap alone; an object with one owner
    becomes an integer exactly when its string is the decimal notation of a
    64 bit number, and its string is otherwise embedded when it fits. *)
Theorem tryObjectEncoding_keeps si vs h o ob : shared_ok si h -> h !! o = Some ob ->
  1 <= refcount ob < OBJ_SHARED_REFCOUNT -> strenc_ok (enc ob) ->
  exists r h' ob', tryObjectEncoding si vs h o = Some (r, h') /\
    (shared_ok si h' /\ h' !! r = Some ob' /\ str_of (enc ob') = str_of (enc ob)) /\
    (r <> o -> refcount ob = 1 -> h' !! o = None) /\
    (forall a, a <> o -> is_Some (h !! a) -> h' !! a = h !! a) /\
    (refcount ob = 1 -> forall v, in_s 64 v -> enc ob' = OInt v <-> str_of (enc ob) = dec v).
Proof.
  intros Hs Ho Hr Hok. destruct (encoding_spec si vs h o ob Hs Ho Hr Hok) as (r & h' & ob' & E & [V1 V2 V3 V4 V5 V6] & Hc).
  exists r, h', ob'. split_and!; [done..|]. intros H1 v Hv. split; [intros Ee|by apply Hc]. rewrite <- V3, Ee. done.
Qed.

(** The shortcuts on string objects agree with the string an object stands
    for: its length, its number, whether two objects are equal, how they
    compare, and the decoded object. *)
Theorem object_observers bufa bufb h a b oa ob : h !! a = Some oa -> h !! b = Some ob ->
  strenc_ok (enc oa) -> strenc_ok (enc ob) -> 128 <= zlen bufa -> 128 <= zlen bufb ->
  stringObjectLen h a = Some (zlen (str_of (enc oa))) /\
  (exists n, getLongLongFromObject h (Some a) = Some n /\ forall v, n = Some v <-> in_s 64 v /\ str_of (enc oa) = dec v) /\
  equalStringObjects bufa bufb h a b = Some (bool_decide (str_of (enc oa) = str_of (enc ob))) /\
  (exists c, compareStringObjects bufa bufb h a b = Some c /\ Z.sgn c = sdscmp (str_of (enc oa)) (str_of (enc ob))) /\
  (1 <= refcount oa < OBJ_SHARED_REFCOUNT -> exists r h' od, getDecodedObject bufa h a = Some (r, h') /\ h' !! r = Some od /\
     str_of (enc od) = str_of (enc oa) /\ (forall v, enc od <> OInt v)).
Proof.
  intros Ha Hb Hoka Hokb Hba Hbb. split_and!.
  - unfold stringObjectLen. rewrite Ha. cbn [mbind option_bind]. destruct (enc oa); [by apply sdigits10_dec|done..].
  - unfold getLongLongFromObject. rewrite Ha. cbn [mbind option_bind]. destruct (enc oa) as [w|s|s|ty]; [|apply string2ll_total..|done].
    exists (Some w). split; [done|]. intros v. cbn in *. split; [by intros [= ->]|]. intros [Hv E]. f_equal. by apply dec_inj.
  - by apply equal_spec.
  - by apply compare_spec.
  - intros Hr. destruct (decoded_spec bufa h a oa Ha Hoka) as (r & h' & od & E & Hr' & Hs & Hn & _); [lia|done|]. by exists r, h', od.
Qed.

Definition obj (e : strenc) : robj := {| refcount := 1; enc := e |}.

Lemma tryObjectEncoding_witness :
  exists h tbl r h', createSharedIntegers {[1%positive := obj (ORaw (bytes_of "12"))]} = Some (h, tbl) /\
    tryObjectEncoding (integer_at tbl) true h 1 = Some (r, h') /\ (h' !! r = Some (obj (OInt 12)) \/ exists n, h' !! r = Some {| refcount := n; enc := OInt 12 |}).
Proof.
  destruct (shared_created {[1%positive := obj (ORaw (bytes_of "12"))]}) as (h & tbl & E & Hs & Hf).
  assert (Ho : h !! 1%positive = Some (obj (ORaw (bytes_of "12")))) by (by rewrite Hf).
  destruct (tryObjectEncoding_keeps (integer_at tbl) true h 1 _ Hs Ho) as (r & h' & [n e] & Et & (_ & Hr & _) & _ & _ & He);
    [unfold OBJ_SHARED_REFCOUNT; cbn; lia|by vm_compute|].
  exists h, tbl, r, h'. split_and!; [exact E|exact Et|]. clear E Et Hs Hf. right. exists n. rewrite Hr.
  assert (e = OInt 12) as ->; [|reflexivity]. apply (He eq_refl 12); by vm_compute.
Defined.

Lemma object_observers_witness :
  let h := {[1%positive := obj (OInt 12); 2%positive := obj (ORaw (bytes_of "12"))]} in
  let buf := replicate 128 0 in
  equalStringObjects buf buf h 1 2 = Some true /\ stringObjectLen h 1 = Some 2.
Proof.
  intros h buf. destruct (object_observers buf buf h 1 2 (obj (OInt 12)) (obj (ORaw (bytes_of "12")))) as (Hl & _ & He & _);
    [by vm_compute|by vm_compute|by vm_compute..|]. split; [exact He|exact Hl].
Defined.
