(* ===== verification/Resp.v ===== *)
(** * The query buffer of a client (networking.c, and the encoder of aof.c)

    From the bytes a socket delivers to the commands that are executed:
    [readQueryFromClient], [processInputBuffer] and the parsers of the two
    request formats.  The command executor and the settings of the server are
    the interface [Server].  A client that was freed is [None]; using it, reading
    outside the query buffer or a failing assertion is [None] too. *)
From Stdlib Require Import ZArith Lia String.
From stdpp Require Import base numbers list option.
From S2P Require Import Prelude UtilNum Sds.

Definition PROTO_IOBUF_LEN : Z := 1024 * 16.
Definition PROTO_INLINE_MAX_SIZE : Z := 1024 * 64.
Definition PROTO_MBULK_BIG_ARG : Z := 1024 * 32.

Definition CLIENT_SLAVE : Z := 1.
Definition CLIENT_MASTER : Z := 2.
Definition CLIENT_MULTI : Z := 8.
Definition CLIENT_BLOCKED : Z := 16.
Definition CLIENT_CLOSE_AFTER_REPLY : Z := 64.
Definition CLIENT_ASKING : Z := 512.
Definition CLIENT_CLOSE_ASAP : Z := 1024.
Definition CLIENT_REPLY_SKIP_NEXT : Z := 8388608.
Definition CLIENT_REPLY_SKIP : Z := 16777216.

(** [flags & m] as a condition. *)
Definition has (flags m : Z) : bool := negb (Z.land flags m =? 0).

Inductive request := REQ_UNKNOWN | REQ_INLINE | REQ_MULTIBULK.
#[global] Instance request_eq_dec : EqDecision request.
Proof. solve_decision. Defined.

(** The protocol errors, as [addReplyError] reports them. *)
Inductive proto_error :=
| TooBigInline | UnbalancedQuotes | TooBigMbulkCount | InvalidMultibulk
| TooBigBulkCount | ExpectedDollar (got : Z) | InvalidBulk.

(** [argc] is the length of [argv].  [asking]: the current command is ASKING;
    [module_blocked]: [btype] is [BLOCKED_MODULE]. *)
Record client := {
  querybuf : list Z;
  qb_pos : Z;
  pending_querybuf : list Z;
  reqtype : request;
  multibulklen : Z;
  bulklen : Z;
  argv : list (list Z);
  flags : Z;
  asking : bool;
  module_blocked : bool;
  read_reploff : Z;
  reploff : Z;
  repl_ack_time : Z;
  errors : list proto_error
}.

Definition set_buf (c : client) (q : list Z) (p : Z) : client :=
  {| querybuf := q; qb_pos := p; pending_querybuf := pending_querybuf c; reqtype := reqtype c;
     multibulklen := multibulklen c; bulklen := bulklen c; argv := argv c; flags := flags c; asking := asking c;
     module_blocked := module_blocked c; read_reploff := read_reploff c; reploff := reploff c;
     repl_ack_time := repl_ack_time c; errors := errors c |}.
Definition set_parse (c : client) (t : request) (m b : Z) (a : list (list Z)) : client :=
  {| querybuf := querybuf c; qb_pos := qb_pos c; pending_querybuf := pending_querybuf c; reqtype := t;
     multibulklen := m; bulklen := b; argv := a; flags := flags c; asking := asking c;
     module_blocked := module_blocked c; read_reploff := read_reploff c; reploff := reploff c;
     repl_ack_time := repl_ack_time c; errors := errors c |}.
Definition set_flags (c : client) (f : Z) (k : bool) (e : list proto_error) : client :=
  {| querybuf := querybuf c; qb_pos := qb_pos c; pending_querybuf := pending_querybuf c; reqtype := reqtype c;
     multibulklen := multibulklen c; bulklen := bulklen c; argv := argv c; flags := f; asking := k;
     module_blocked := module_blocked c; read_reploff := read_reploff c; reploff := reploff c;
     repl_ack_time := repl_ack_time c; errors := e |}.
Definition set_repl (c : client) (q : list Z) (r o t : Z) : client :=
  {| querybuf := querybuf c; qb_pos := qb_pos c; pending_querybuf := q; reqtype := reqtype c;
     multibulklen := multibulklen c; bulklen := bulklen c; argv := argv c; flags := flags c; asking := asking c;
     module_blocked := module_blocked c; read_reploff := r; reploff := o;
     repl_ack_time := t; errors := errors c |}.

(** What a new client starts with. *)
Definition createClient (fl : Z) : client :=
  {| querybuf := []; qb_pos := 0; pending_querybuf := []; reqtype := REQ_UNKNOWN; multibulklen := 0; bulklen := -1;
     argv := []; flags := fl; asking := false; module_blocked := false; read_reploff := 0; reploff := 0;
     repl_ack_time := 0; errors := [] |}.

(** What the server does with a command: the new server state, the client or
    [None] when it was freed, and whether the result is [C_OK].  The rest is read
    from the settings; [feedSlaves] is [replicationFeedSlavesFromMasterStream]. *)
Class Server (S : Type) := {
  processCommand : S -> client -> S * option client * bool;
  clientsArePaused : S -> bool;
  lua_timedout : S -> bool;
  unixtime : S -> Z;
  proto_max_bulk_len : S -> Z;
  client_max_querybuf_len : S -> Z;
  feedSlaves : S -> list Z -> S
}.

(** ** Helpers *)

(** [strchr] on the memory from the pointer on: [Some None] is NULL. *)
Fixpoint strchr (p : list Z) (c : Z) : option (option Z) :=
  match p with
  | [] => None
  | x :: p =>
      if x =? c then Some (Some 0)
      else if x =? 0 then Some None
      else r ← strchr p c; Some (option_map (Z.add 1) r)
  end.

(** [addReplyError] and [setProtocolError], without the log. *)
Definition protocol_error (c : client) (e : proto_error) : client :=
  set_flags c (Z.lor (flags c) CLIENT_CLOSE_AFTER_REPLY) (asking c) (errors c ++ [e]).

(** The bytes not parsed yet, with the NUL behind the string. *)
Definition rest_mem (c : client) : list Z := drop (Z.to_nat (qb_pos c)) (querybuf c ++ [0]).

(** [sdslen(c->querybuf)-c->qb_pos], a [size_t]. *)
Definition rest_len (c : client) : Z := u64 (zlen (querybuf c) - qb_pos c).

(** ** The inline format *)

(** Results: [C_OK] or [C_ERR], and the client. *)
Definition processInlineBuffer (now : Z) (c : client) : option (bool * client) :=
  nl ← strchr (rest_mem c) 10;
  match nl with
  | None =>
      Some (false, if rest_len c >? PROTO_INLINE_MAX_SIZE then protocol_error c TooBigInline else c)
  | Some newline =>
      cr ← (if newline =? 0 then Some false
            else x ← mget (querybuf c) (qb_pos c + newline - 1); Some (x =? 13));
      let '(newline, linefeed_chars) := if cr : bool then (newline - 1, 2) else (newline, 1) in
      let querylen := newline in
      aux ← mread (querybuf c) (qb_pos c) querylen;
      args ← sdssplitargs (aux ++ [0]);
      match args with
      | None => Some (false, protocol_error c UnbalancedQuotes)
      | Some args =>
          let c := if (querylen =? 0) && has (flags c) CLIENT_SLAVE
                   then set_repl c (pending_querybuf c) (read_reploff c) (reploff c) now else c in
          let c := set_buf c (querybuf c) (qb_pos c + (querylen + linefeed_chars)) in
          (* only arguments that are not empty *)
          Some (true, set_parse c (reqtype c) (multibulklen c) (bulklen c) (filter (fun a => zlen a <> 0) args))
      end
  end.

(** ** The multi bulk format *)

(** How a part of the function ends: it goes on, leaves the loop, or returns. *)
Inductive flow := Next | Break | Return (ok : bool).

(** The part under [if (c->multibulklen == 0)]. *)
Definition read_header (c : client) : option (flow * client) :=
  if negb (zlen (argv c) =? 0) then None
  else
    nl ← strchr (rest_mem c) 13;
    match nl with
    | None =>
        Some (Return false, if rest_len c >? PROTO_INLINE_MAX_SIZE then protocol_error c TooBigMbulkCount else c)
    | Some newline =>
        if newline >? i64 (rest_len c - 2) then Some (Return false, c)
        else
          x ← mget (querybuf c ++ [0]) (qb_pos c);
          if negb (x =? 42) then None
          else
            s ← mread (querybuf c) (qb_pos c + 1) (newline - 1);
            ll ← string2ll s (newline - 1);
            match ll with
            | None => Some (Return false, protocol_error c InvalidMultibulk)
            | Some ll =>
                if ll >? 1024 * 1024 then Some (Return false, protocol_error c InvalidMultibulk)
                else
                  let c := set_buf c (querybuf c) (qb_pos c + newline + 2) in
                  if ll <=? 0 then Some (Return true, c)
                  else Some (Next, set_parse c (reqtype c) ll (bulklen c) [])
            end
    end.

(** The part under [if (c->bulklen == -1)]. *)
Definition read_bulklen (max_bulk : Z) (c : client) : option (flow * client) :=
  nl ← strchr (rest_mem c) 13;
  match nl with
  | None =>
      Some (if rest_len c >? PROTO_INLINE_MAX_SIZE then (Return false, protocol_error c TooBigBulkCount) else (Break, c))
  | Some newline =>
      if newline >? i64 (rest_len c - 2) then Some (Break, c)
      else
        x ← mget (querybuf c ++ [0]) (qb_pos c);
        if negb (x =? 36) then Some (Return false, protocol_error c (ExpectedDollar x))
        else
          s ← mread (querybuf c) (qb_pos c + 1) (newline - 1);
          ll ← string2ll s (newline - 1);
          match ll with
          | None => Some (Return false, protocol_error c InvalidBulk)
          | Some ll =>
              if (ll <? 0) || (ll >? max_bulk) then Some (Return false, protocol_error c InvalidBulk)
              else
                let c := set_buf c (querybuf c) (qb_pos c + newline + 2) in
                c ← (if (ll >=? PROTO_MBULK_BIG_ARG) && (rest_len c <=? u64 (ll + 2)) then
                       q ← sdsrange (querybuf c) (qb_pos c) (-1);
                       Some (set_buf c q 0)
                     else Some c);
                Some (Next, set_parse c (reqtype c) (multibulklen c) ll (argv c))
          end
  end.

(** The bulk argument.  In the first case the object takes over the query buffer,
    cut by two bytes, and the client gets a new one. *)
Definition read_bulk (c : client) : option (flow * client) :=
  if rest_len c <? u64 (bulklen c + 2) then Some (Break, c)
  else
    c ← (if (qb_pos c =? 0) && (bulklen c >=? PROTO_MBULK_BIG_ARG) && (zlen (querybuf c) =? u64 (bulklen c + 2)) then
           a ← mread (querybuf c) 0 (zlen (querybuf c) - 2);
           Some (set_buf (set_parse c (reqtype c) (multibulklen c) (bulklen c) (argv c ++ [a])) [] (qb_pos c))
         else
           a ← mread (querybuf c) (qb_pos c) (bulklen c);
           Some (set_buf (set_parse c (reqtype c) (multibulklen c) (bulklen c) (argv c ++ [a]))
                   (querybuf c) (qb_pos c + (bulklen c + 2))));
    Some (Next, set_parse c (reqtype c) (multibulklen c - 1) (-1) (argv c)).

(** [while(c->multibulklen)]; [fuel] is the number of arguments to read. *)
Fixpoint mbulk_loop (fuel : nat) (max_bulk : Z) (c : client) : option (flow * client) :=
  if multibulklen c =? 0 then Some (Break, c)
  else
    match fuel with
    | O => None
    | S fuel =>
        r ← (if bulklen c =? -1 then read_bulklen max_bulk c else Some (Next, c));
        let '(f, c) := (r : flow * client) in
        match f with
        | Next =>
            r ← read_bulk c;
            let '(f, c) := (r : flow * client) in
            match f with
            | Next => mbulk_loop fuel max_bulk c
            | _ => Some (f, c)
            end
        | _ => Some (f, c)
        end
    end.

Definition processMultibulkBuffer (max_bulk : Z) (c : client) : option (bool * client) :=
  r ← (if multibulklen c =? 0 then read_header c else Some (Next, c));
  let '(f, c) := (r : flow * client) in
  match f with
  | Return ok => Some (ok, c)
  | _ =>
      if negb (multibulklen c >? 0) then None
      else
        r ← mbulk_loop (Z.to_nat (multibulklen c)) max_bulk c;
        let '(f, c) := (r : flow * client) in
        match f with
        | Return ok => Some (ok, c)
        | _ => Some (multibulklen c =? 0, c)
        end
  end.

(** ** The loop over the buffer *)

Definition freeClientArgv (c : client) : client :=
  set_flags (set_parse c (reqtype c) (multibulklen c) (bulklen c) []) (flags c) false (errors c).

Definition resetClient (c : client) : client :=
  let prev_asking := asking c in
  let c := freeClientArgv c in
  let c := set_parse c REQ_UNKNOWN 0 (-1) (argv c) in
  let f := flags c in
  let f := if negb (has f CLIENT_MULTI) && negb prev_asking then Z.ldiff f CLIENT_ASKING else f in
  let f := Z.ldiff f CLIENT_REPLY_SKIP in
  let f := if has f CLIENT_REPLY_SKIP_NEXT then Z.ldiff (Z.lor f CLIENT_REPLY_SKIP) CLIENT_REPLY_SKIP_NEXT else f in
  set_flags c f (asking c) (errors c).

Section Loop.
Context {S : Type} `{Server S}.

(** After a command that returned [C_OK]. *)
Definition command_done (c : client) : client :=
  let c := if has (flags c) CLIENT_MASTER && negb (has (flags c) CLIENT_MULTI)
           then set_repl c (pending_querybuf c) (read_reploff c)
                  (i64 (read_reploff c - zlen (querybuf c) + qb_pos c)) (repl_ack_time c)
           else c in
  if negb (has (flags c) CLIENT_BLOCKED) || negb (module_blocked c) then resetClient c else c.

(** The [while] loop; the client is [None] when a command freed it. *)
Fixpoint input_loop (fuel : nat) (s : S) (c : client) : option (S * option client) :=
  if qb_pos c <? zlen (querybuf c) then
    match fuel with
    | O => None
    | Datatypes.S fuel =>
        if negb (has (flags c) CLIENT_SLAVE) && clientsArePaused s then Some (s, Some c)
        else if has (flags c) CLIENT_BLOCKED then Some (s, Some c)
        else if lua_timedout s && has (flags c) CLIENT_MASTER then Some (s, Some c)
        else if has (flags c) (Z.lor CLIENT_CLOSE_AFTER_REPLY CLIENT_CLOSE_ASAP) then Some (s, Some c)
        else
          c ← (match reqtype c with
               | REQ_UNKNOWN =>
                   x ← mget (querybuf c ++ [0]) (qb_pos c);
                   Some (set_parse c (if x =? 42 then REQ_MULTIBULK else REQ_INLINE) (multibulklen c) (bulklen c) (argv c))
               | _ => Some c
               end);
          r ← (match reqtype c with
               | REQ_INLINE => processInlineBuffer (unixtime s) c
               | REQ_MULTIBULK => processMultibulkBuffer (proto_max_bulk_len s) c
               | REQ_UNKNOWN => None
               end);
          let '(ok, c) := (r : bool * client) in
          if negb ok then Some (s, Some c)
          else if zlen (argv c) =? 0 then input_loop fuel s (resetClient c)
          else
            match processCommand s c with
            | (s, Some c, ok) => input_loop fuel s (if ok then command_done c else c)
            | (s, None, ok) => if ok then None else Some (s, None)
            end
    end
  else Some (s, Some c).

(** A pass of the loop consumes a byte at least. *)
Definition processInputBuffer (s : S) (c : client) : option (S * client) :=
  r ← input_loop (Datatypes.S (Z.to_nat (zlen (querybuf c) - qb_pos c))) s c;
  match r with
  | (_, None) => None
  | (s, Some c) =>
      if negb (qb_pos c =? 0) then
        q ← sdsrange (querybuf c) (qb_pos c) (-1);
        Some (s, set_buf c q 0)
      else Some (s, c)
  end.

Definition processInputBufferAndReplicate (s : S) (c : client) : option (S * client) :=
  if negb (has (flags c) CLIENT_MASTER) then processInputBuffer s c
  else
    let prev_offset := u64 (reploff c) in
    r ← processInputBuffer s c;
    let '(s, c) := (r : S * client) in
    let applied := u64 (reploff c - prev_offset) in
    if negb (applied =? 0) then
      stream ← mread (pending_querybuf c) 0 applied;
      let s := feedSlaves s stream in
      q ← sdsrange (pending_querybuf c) applied (-1);
      Some (s, set_repl c q (read_reploff c) (reploff c) (repl_ack_time c))
    else Some (s, c).

(** What [read(2)] gives. *)
Inductive read_result := RAgain | RError | REof | RBytes (bs : list Z).

(** How many bytes are asked for. *)
Definition read_len (c : client) : Z :=
  let readlen := PROTO_IOBUF_LEN in
  if bool_decide (reqtype c = REQ_MULTIBULK) && negb (multibulklen c =? 0) && negb (bulklen c =? -1) &&
     (bulklen c >=? PROTO_MBULK_BIG_ARG) then
    let remaining := i64 (u64 (bulklen c + 2) - zlen (querybuf c)) in
    if (remaining >? 0) && (remaining <? readlen) then remaining else readlen
  else readlen.

(** The client is [None] when the connection is closed. *)
Definition readQueryFromClient (s : S) (c : client) (rd : read_result) : option (S * option client) :=
  match rd with
  | RAgain => Some (s, Some c)
  | RError | REof => Some (s, None)
  | RBytes bs =>
      let nread := zlen bs in
      let c := if has (flags c) CLIENT_MASTER
               then set_repl c (pending_querybuf c ++ bs) (i64 (read_reploff c + nread)) (reploff c) (repl_ack_time c)
               else c in
      let c := set_buf c (querybuf c ++ bs) (qb_pos c) in
      if zlen (querybuf c) >? client_max_querybuf_len s then Some (s, None)
      else
        r ← processInputBufferAndReplicate s c;
        Some (fst r, Some (snd r))
  end.
End Loop.

(** ** The encoder *)

(** [buf] of 32 bytes: a character, a number, CRLF; the bytes it had are an
    argument. *)
Definition cat_header (buf : list Z) (ch n : Z) : option (list Z) :=
  buf ← mset buf 0 ch;
  tail ← mread buf 1 31;
  r ← ll2string tail 31 n;
  buf ← mwrite buf 1 (snd r);
  let len := 1 + fst r in
  buf ← mset buf len 13;
  buf ← mset buf (len + 1) 10;
  mread buf 0 (len + 2).

Fixpoint cat_args (buf : list Z) (dst : list Z) (argv : list (list Z)) : option (list Z) :=
  match argv with
  | [] => Some dst
  | o :: argv =>
      h ← cat_header buf 36 (zlen o);
      let dst := dst ++ h in
      let dst := dst ++ o in
      let dst := dst ++ [13; 10] in
      cat_args buf dst argv
  end.

Definition catAppendOnlyGenericCommand (buf : list Z) (dst : list Z) (argv : list (list Z)) : option (list Z) :=
  h ← cat_header buf 42 (zlen argv);
  cat_args buf (dst ++ h) argv.
