(* ===== verification/RespSafe.v ===== *)
(** * The query buffer never goes wrong

    For every sequence of bytes a client may send: no byte outside the query
    buffer is read, no assertion of the parsers fails, every pass of the loop
    makes progress, and what is left for the next read is well formed. *)
From Stdlib Require Import ZArith Lia String.
From stdpp Require Import base numbers list option.
From S2P Require Import Prelude UtilNum Sds SdsRefine Resp.

(** ** The buffer *)

Definition unparsed (c : client) : list Z := drop (Z.to_nat (qb_pos c)) (querybuf c).

Record buf_ok (c : client) : Prop := {
  buf_pos : 0 <= qb_pos c <= zlen (querybuf c);
  buf_len : zlen (querybuf c) < 2 ^ 62
}.

Lemma buf_split c : buf_ok c -> exists P, querybuf c = P ++ unparsed c /\ qb_pos c = zlen P.
Proof.
  intros [H _]. exists (take (Z.to_nat (qb_pos c)) (querybuf c)). unfold unparsed. rewrite take_drop. split; [done|].
  rewrite zlen_take; lia.
Qed.

Lemma zlen_unparsed c : buf_ok c -> zlen (unparsed c) = zlen (querybuf c) - qb_pos c.
Proof. intros [H _]. unfold unparsed. rewrite zlen_drop; lia. Qed.

Lemma rest_mem_eq c : buf_ok c -> rest_mem c = unparsed c ++ [0].
Proof. intros [H _]. unfold rest_mem, unparsed. rewrite drop_app_le; [done|]. unfold zlen in H. lia. Qed.

Lemma rest_len_eq c : buf_ok c -> rest_len c = zlen (unparsed c).
Proof. intros H. rewrite zlen_unparsed by done. destruct H. unfold rest_len. apply uwrap_small. lia. Qed.

(** Moving the position forward. *)
Lemma advance c k : buf_ok c -> 0 <= k <= zlen (unparsed c) ->
  buf_ok (set_buf c (querybuf c) (qb_pos c + k)) /\
  unparsed (set_buf c (querybuf c) (qb_pos c + k)) = drop (Z.to_nat k) (unparsed c).
Proof.
  intros H Hk. rewrite zlen_unparsed in Hk by done. destruct H as [H1 H2]. split; [split; cbn; lia|].
  unfold unparsed. cbn. rewrite drop_drop. f_equal. lia.
Qed.

Lemma zlen_drop_le {A} n (l : list A) : zlen (drop n l) <= zlen l.
Proof. unfold zlen. rewrite length_drop. lia. Qed.

(** Reading inside the part not parsed yet. *)
Lemma read_unparsed c off n : buf_ok c -> mread (querybuf c) (qb_pos c + off) n = mread (unparsed c) off n \/ off < 0.
Proof.
  intros H. destruct (decide (off < 0)); [by right|left]. pose proof (zlen_unparsed c H) as Hl. destruct H as [H1 H2].
  unfold mread. rewrite Hl. assert ((0 <=? qb_pos c + off) = (0 <=? off)) as -> by lia.
  assert ((qb_pos c + off + n <=? zlen (querybuf c)) = (off + n <=? zlen (querybuf c) - qb_pos c)) as -> by lia.
  destruct (_ && _); [|done]. unfold unparsed. rewrite drop_drop. do 3 f_equal. lia.
Qed.

Lemma get_unparsed c off : buf_ok c -> 0 <= off -> mget (querybuf c) (qb_pos c + off) = mget (unparsed c) off.
Proof.
  intros [H1 H2] Ho. unfold mget, unparsed. rewrite !(Zle_imp_le_bool 0) by lia. rewrite lookup_drop. f_equal. lia.
Qed.

Lemma get_first c : buf_ok c -> mget (querybuf c ++ [0]) (qb_pos c) = mget (unparsed c ++ [0]) 0.
Proof.
  intros H. destruct (buf_split c H) as (P & HP & Hq). rewrite HP at 1. rewrite Hq, <- app_assoc.
  rewrite mget_app_r by lia. by rewrite Z.sub_diag.
Qed.

(** ** [strchr] *)

Lemma mget_succ {A} (x : A) l i : 0 <= i -> mget (x :: l) (1 + i) = mget l i.
Proof.
  intros. pose proof (mget_app_r [x] l (1 + i)) as E. change (zlen [x]) with 1 in E. cbn [app] in E. rewrite E by lia. f_equal. lia.
Qed.

Lemma strchr_spec l c : c <> 0 -> exists r, strchr (l ++ [0]) c = Some r /\
  match r with Some i => 0 <= i < zlen l /\ mget l i = Some c | None => True end.
Proof.
  intros Hc. induction l as [|x l (r & E & Hr)]; cbn [app strchr].
  - rewrite (proj2 (Z.eqb_neq 0 c)) by lia. by exists None.
  - pose_zlen. destruct (x =? c) eqn:Ex.
    { exists (Some 0). split; [done|]. autorewrite with zlen. split; [lia|]. apply Z.eqb_eq in Ex as ->. done. }
    destruct (x =? 0); [by exists None|]. rewrite E, bind_Some. eexists; split; [done|].
    destruct r as [i|]; [|done]. cbn. destruct Hr as [Hi Hg]. autorewrite with zlen. split; [lia|].
    by rewrite mget_succ by lia.
Qed.

(** ** The invariant of the parser *)

Definition MAX_ARGS : Z := 1024 * 1024.

Record parse_ok (max_bulk : Z) (c : client) : Prop := {
  po_mbl : 0 <= multibulklen c <= MAX_ARGS;
  po_argc : zlen (argv c) + multibulklen c <= MAX_ARGS;
  po_bulk : bulklen c = -1 \/ 0 <= bulklen c <= max_bulk;
  po_idle : multibulklen c = 0 -> argv c = [] /\ bulklen c = -1;
  po_type : reqtype c <> REQ_MULTIBULK -> multibulklen c = 0;
  po_star : reqtype c = REQ_MULTIBULK -> multibulklen c = 0 -> mget (unparsed c) 0 = Some 42
}.

(** What the parsers leave alone, and that they only consume. *)
Record consumed (c c' : client) : Prop := {
  co_buf : buf_ok c';
  co_suffix : exists k, unparsed c' = drop k (unparsed c);
  co_type : reqtype c' = reqtype c;
  co_module : module_blocked c' = module_blocked c;
  co_master : has (flags c') CLIENT_MASTER = has (flags c) CLIENT_MASTER
}.

Lemma has_lor f m k : Z.land m k = 0 -> has (Z.lor f m) k = has f k.
Proof. intros E. unfold has. by rewrite Z.land_lor_distr_l, E, Z.lor_0_r. Qed.

Lemma has_ldiff f m k : Z.land m k = 0 -> has (Z.ldiff f m) k = has f k.
Proof.
  intros E. unfold has. do 2 f_equal. apply Z.bits_inj'. intros n Hn. rewrite !Z.land_spec, Z.ldiff_spec.
  apply (f_equal (fun z => Z.testbit z n)) in E. rewrite Z.land_spec, Z.bits_0 in E.
  by destruct (Z.testbit f n), (Z.testbit m n), (Z.testbit k n).
Qed.

Lemma consumed_refl c : buf_ok c -> consumed c c.
Proof. intros H. split; [done|by exists 0%nat|done..]. Qed.

Lemma consumed_trans c1 c2 c3 : consumed c1 c2 -> consumed c2 c3 -> consumed c1 c3.
Proof.
  intros [_ [k Hk] H1 H2 H6] [H3 [k' Hk'] H4 H5 H7]. split; [done| |congruence..].
  exists (k + k')%nat. by rewrite Hk', Hk, drop_drop.
Qed.

Lemma consumed_len c c' : consumed c c' -> zlen (unparsed c') <= zlen (unparsed c).
Proof. intros [_ [k ->] _ _ _]. unfold zlen. rewrite length_drop. lia. Qed.

Lemma advance_consumed c k : buf_ok c -> 0 <= k <= zlen (unparsed c) -> consumed c (set_buf c (querybuf c) (qb_pos c + k)).
Proof. intros H Hk. destruct (advance c k H Hk). split; [done|by eexists|done..]. Qed.

Lemma error_consumed c e : buf_ok c -> consumed c (protocol_error c e).
Proof. intros [H1 H2]. split; [by split|by exists 0%nat|done|done|]. by apply has_lor. Qed.

Lemma parse_consumed c m b a : buf_ok c -> consumed c (set_parse c (reqtype c) m b a).
Proof. intros [H1 H2]. split; [by split|by exists 0%nat|done..]. Qed.

Definition closing_client (c : client) : Prop := has (flags c) (Z.lor CLIENT_CLOSE_AFTER_REPLY CLIENT_CLOSE_ASAP) = true.

Lemma protocol_error_closing c e : closing_client (protocol_error c e).
Proof.
  unfold closing_client, has. cbn. apply negb_true_iff, Z.eqb_neq. intros E.
  apply (f_equal (fun z => Z.testbit z 6)) in E. rewrite Z.land_spec, Z.lor_spec, Z.bits_0 in E.
  cbn in E. by rewrite orb_true_r in E.
Qed.

(** A number line: the character in front of it has been checked. *)
Lemma number_line c nl : buf_ok c -> 1 <= nl <= zlen (unparsed c) - 2 ->
  exists s r, mread (querybuf c) (qb_pos c + 1) (nl - 1) = Some s /\ zlen s = nl - 1 /\ string2ll s (nl - 1) = Some r.
Proof.
  intros H Hnl. destruct (read_unparsed c 1 (nl - 1) H) as [E|]; [|lia].
  destruct (mread_is_Some (unparsed c) 1 (nl - 1)) as (s & Es & Hl); [lia..|].
  destruct (string2ll_total s) as (r & Er & _). exists s, r. rewrite E, <- Hl at 1. rewrite Hl in *. done.
Qed.

Lemma i64_small x : - 2 ^ 63 <= x < 2 ^ 63 -> i64 x = x.
Proof. intros. by apply swrap_small. Qed.

Lemma read_header_safe c : buf_ok c -> argv c = [] -> mget (unparsed c) 0 = Some 42 ->
  exists f c', read_header c = Some (f, c') /\ consumed c c' /\
    match f with
    | Return false => c' = c \/ closing_client c'
    | Return true => argv c' = [] /\ multibulklen c' = multibulklen c /\ zlen (unparsed c') < zlen (unparsed c)
    | Next => 0 < multibulklen c' <= MAX_ARGS /\ argv c' = [] /\ bulklen c' = bulklen c /\ zlen (unparsed c') < zlen (unparsed c)
    | Break => False
    end.
Proof.
  intros H Ha Hg. unfold read_header. rewrite Ha. cbn [zlen length Z.of_nat Z.eqb negb].
  rewrite rest_mem_eq, rest_len_eq by done. destruct (strchr_spec (unparsed c) 13) as ([nl|] & -> & Hnl); [done| |].
  2:{ rewrite bind_Some. eexists _, _. split; [done|]. destruct (_ >? _).
      - split; [by apply error_consumed|right; apply protocol_error_closing].
      - split; [by apply consumed_refl|by left]. }
  destruct Hnl as [Hnl Hg']. rewrite bind_Some.
  assert (Hlen : zlen (unparsed c) < 2 ^ 62) by (rewrite zlen_unparsed by done; destruct H; lia).
  rewrite i64_small by lia. destruct (nl >? zlen (unparsed c) - 2) eqn:E.
  { eexists _, _. split; [done|]. split; [by apply consumed_refl|by left]. }
  rewrite get_first by done. rewrite mget_app_l, Hg, bind_Some by lia. cbn [Z.eqb Pos.eqb negb].
  assert (nl <> 0) by (intros ->; congruence).
  destruct (number_line c nl H) as (s & r & -> & Hs & Hr); [lia|]. rewrite bind_Some, Hr, bind_Some.
  assert (Herr : exists f c', Some (Return false, protocol_error c InvalidMultibulk) = Some (f, c') /\ consumed c c' /\
    match f with
    | Return false => c' = c \/ closing_client c'
    | Return true => argv c' = [] /\ multibulklen c' = multibulklen c /\ zlen (unparsed c') < zlen (unparsed c)
    | Next => 0 < multibulklen c' <= MAX_ARGS /\ argv c' = [] /\ bulklen c' = bulklen c /\ zlen (unparsed c') < zlen (unparsed c)
    | Break => False
    end).
  { eexists _, _. split; [done|]. split; [by apply error_consumed|right; apply protocol_error_closing]. }
  destruct r as [ll|]; [|exact Herr]. destruct (ll >? 1024 * 1024) eqn:El; [exact Herr|].
  destruct (advance c (nl + 2) H ltac:(lia)) as [Hb Hu]. rewrite Z.add_assoc in Hb, Hu.
  assert (Hsh : zlen (drop (Z.to_nat (nl + 2)) (unparsed c)) < zlen (unparsed c)) by (rewrite zlen_drop by lia; lia).
  destruct (ll <=? 0) eqn:El0.
  - eexists _, _. split; [done|]. split; [split; [done|by eexists|done..]|]. by rewrite Hu.
  - eexists _, _. split; [done|]. split.
    + split; [by destruct Hb; split|exists (Z.to_nat (nl + 2)); by rewrite <- Hu|done..].
    + cbn [multibulklen argv bulklen set_parse]. change (unparsed (set_parse ?c _ _ _ _)) with (unparsed c). unfold MAX_ARGS.
      rewrite Hu. by split_and!; [lia..|done|done|].
Qed.

(** The state kept while a bulk length is read. *)
Definition keeps (c c' : client) : Prop :=
  argv c' = argv c /\ multibulklen c' = multibulklen c.

Lemma read_bulklen_safe max_bulk c : buf_ok c -> bulklen c = -1 ->
  exists f c', read_bulklen max_bulk c = Some (f, c') /\ consumed c c' /\
    match f with
    | Return ok => ok = false /\ closing_client c'
    | Next => keeps c c' /\ 0 <= bulklen c' <= max_bulk
    | Break => c' = c
    end.
Proof.
  intros H Hb. unfold read_bulklen. rewrite rest_mem_eq, rest_len_eq by done.
  assert (Herr : forall e, exists f c', Some (Return false, protocol_error c e) = Some (f, c') /\ consumed c c' /\
    match f with
    | Return ok => ok = false /\ closing_client c'
    | Next => keeps c c' /\ 0 <= bulklen c' <= max_bulk
    | Break => c' = c
    end).
  { intros e. eexists _, _. split; [done|]. split; [by apply error_consumed|split; [done|apply protocol_error_closing]]. }
  destruct (strchr_spec (unparsed c) 13) as ([nl|] & -> & Hnl); [done| |].
  2:{ rewrite bind_Some. destruct (_ >? _); [apply Herr|].
      eexists _, _. split; [done|]. split; [by apply consumed_refl|done]. }
  destruct Hnl as [Hnl Hg']. rewrite bind_Some.
  assert (Hlen : zlen (unparsed c) < 2 ^ 62) by (rewrite zlen_unparsed by done; destruct H; lia).
  rewrite i64_small by lia. destruct (nl >? zlen (unparsed c) - 2) eqn:E.
  { eexists _, _. split; [done|]. split; [by apply consumed_refl|done]. }
  rewrite get_first, mget_app_l by (done || lia).
  destruct (mget_is_Some (unparsed c) 0) as (x & Hx); [lia|]. rewrite Hx, bind_Some.
  destruct (x =? 36) eqn:Ex; cbn [negb]; [|apply Herr]. apply Z.eqb_eq in Ex as ->.
  assert (nl <> 0) by (intros ->; congruence).
  destruct (number_line c nl H) as (s & r & -> & Hs & Hr); [lia|]. rewrite bind_Some, Hr, bind_Some.
  destruct r as [ll|]; [|apply Herr]. destruct ((ll <? 0) || (ll >? max_bulk)) eqn:El; [apply Herr|].
  destruct (advance c (nl + 2) H ltac:(lia)) as [Hb' Hu]. rewrite Z.add_assoc in Hb', Hu.
  set (c1 := set_buf c (querybuf c) (qb_pos c + nl + 2)) in *.
  assert (Hco : consumed c c1) by (split; [done|by eexists|done..]).
  match goal with |- context [(if ?b then _ else Some c1) ≫= _] => destruct b end.
  - rewrite sdsrange_drop by (destruct Hb'; lia). rewrite !bind_Some. eexists _, _. split; [done|]. split.
    + apply (consumed_trans _ c1); [done|]. destruct Hb'. split; [|by exists 0%nat|done..]. split; cbn.
      * pose_zlen. lia.
      * pose proof (zlen_drop_le (Z.to_nat (qb_pos c1)) (querybuf c1)). cbn in *. lia.
    + split; [done|]. cbn. lia.
  - rewrite bind_Some. eexists _, _. split; [done|]. split.
    + apply (consumed_trans _ c1); [done|]. by apply parse_consumed.
    + split; [done|]. cbn. lia.
Qed.

Lemma read_bulk_safe max_bulk c : buf_ok c -> max_bulk < 2 ^ 62 -> 0 <= bulklen c <= max_bulk -> 0 < multibulklen c ->
  exists f c', read_bulk c = Some (f, c') /\ consumed c c' /\
    match f with
    | Return _ => False
    | Next => multibulklen c' = multibulklen c - 1 /\ bulklen c' = -1 /\ zlen (argv c') = zlen (argv c) + 1 /\
              zlen (unparsed c') < zlen (unparsed c)
    | Break => c' = c
    end.
Proof.
  intros H Hm Hb Hk. unfold read_bulk. rewrite rest_len_eq, uwrap_small by (done || lia).
  destruct (zlen (unparsed c) <? bulklen c + 2) eqn:E.
  { eexists _, _. split; [done|]. split; [by apply consumed_refl|done]. }
  pose proof (zlen_unparsed c H) as Hl.
  destruct ((qb_pos c =? 0) && (bulklen c >=? PROTO_MBULK_BIG_ARG) && (zlen (querybuf c) =? bulklen c + 2)) eqn:Eb.
  - destruct (mread_is_Some (querybuf c) 0 (zlen (querybuf c) - 2)) as (a & Ea & Ha); [lia..|]. rewrite Ea, !bind_Some.
    eexists _, _. split; [done|]. split.
    + split; [split; cbn; [change (zlen []) with 0; lia|by vm_compute]| |done..]. exists (length (unparsed c)).
      rewrite drop_all. unfold unparsed. cbn. by rewrite drop_nil.
    + cbn [multibulklen bulklen argv set_parse set_buf]. unfold unparsed at 1. cbn [querybuf qb_pos set_parse set_buf].
      rewrite drop_nil. change (zlen []) with 0. split_and!; zlia.
  - destruct (read_unparsed c 0 (bulklen c) H) as [Er|]; [|lia]. rewrite Z.add_0_r in Er. rewrite Er.
    destruct (mread_is_Some (unparsed c) 0 (bulklen c)) as (a & -> & Ha); [lia..|]. rewrite !bind_Some.
    destruct (advance c (bulklen c + 2) H ltac:(lia)) as [[H1 H2] Hu].
    eexists _, _. split; [done|]. split.
    + split; [by split|by exists (Z.to_nat (bulklen c + 2))|done..].
    + cbn [multibulklen bulklen argv set_parse set_buf].
      match goal with |- context [unparsed ?x] => change (unparsed x) with (unparsed (set_buf c (querybuf c) (qb_pos c + (bulklen c + 2)))) end.
      rewrite Hu, zlen_drop by lia. split_and!; zlia.
Qed.

Record loop_inv (max_bulk : Z) (c : client) : Prop := {
  li_buf : buf_ok c;
  li_mbl : 0 <= multibulklen c <= MAX_ARGS;
  li_argc : zlen (argv c) + multibulklen c <= MAX_ARGS;
  li_bulk : bulklen c = -1 \/ (0 <= bulklen c <= max_bulk /\ 0 < multibulklen c)
}.

Lemma mbulk_loop_safe M max_bulk fuel c : loop_inv M c -> max_bulk <= M < 2 ^ 62 -> (Z.to_nat (multibulklen c) <= fuel)%nat ->
  exists f c', mbulk_loop fuel max_bulk c = Some (f, c') /\ consumed c c' /\
    match f with
    | Return ok => ok = false /\ closing_client c'
    | Next => False
    | Break => loop_inv M c' /\ multibulklen c' <= multibulklen c /\
               (multibulklen c' < multibulklen c -> zlen (unparsed c') < zlen (unparsed c))
    end.
Proof.
  revert c. induction fuel as [|fuel IH]; intros c [Hb Hm Ha Hk] Hmax Hf.
  all: cbn [mbulk_loop]; destruct (multibulklen c =? 0) eqn:E0;
    [eexists _, _; split; [done|]; split; [by apply consumed_refl|]; split; [done|lia]|].
  { lia. }
  assert (H1 : exists f c', (if bulklen c =? -1 then read_bulklen max_bulk c else Some (Next, c)) = Some (f, c') /\ consumed c c' /\
    match f with
    | Return ok => ok = false /\ closing_client c'
    | Next => keeps c c' /\ 0 <= bulklen c' <= M
    | Break => c' = c
    end).
  { destruct (bulklen c =? -1) eqn:Eb.
    { destruct (read_bulklen_safe max_bulk c Hb ltac:(lia)) as (f & c' & E & Hco & Hc). exists f, c'. split; [done|]. split; [done|].
      destruct f; [|done..]. destruct Hc. split; [done|lia]. }
    eexists _, _. split; [done|]. split; [by apply consumed_refl|]. split; [done|lia]. }
  destruct H1 as (f & c1 & -> & Hco & Hc1). rewrite bind_Some. destruct f.
  2: subst c1; eexists _, _; split; [done|]; split; [done|]; split; [by split|lia].
  2: eexists _, _; by split.
  destruct Hc1 as [[Hargv Hmb] Hbl]. pose proof (co_buf _ _ Hco) as Hb1.
  destruct (read_bulk_safe M c1 Hb1 ltac:(lia) Hbl ltac:(lia)) as (f & c2 & -> & Hco2 & Hc2). rewrite bind_Some.
  pose proof (consumed_len _ _ Hco). pose proof (consumed_len _ _ Hco2). pose proof (consumed_trans _ _ _ Hco Hco2) as Hco12.
  destruct f; [|subst c2; eexists _, _; split; [done|]; split; [done|]|done].
  - destruct Hc2 as (Hm2 & Hb2 & Ha2 & Hl2). destruct (IH c2) as (f & c3 & -> & Hco3 & Hc3); [|done|lia|].
    + split; [by destruct Hco2|lia|rewrite Ha2, Hargv; lia|by left].
    + eexists _, _. split; [done|]. split; [by apply (consumed_trans _ c2)|]. pose proof (consumed_len _ _ Hco3).
      destruct f; [done| |done]. destruct Hc3 as (Hc3 & Hm3 & Hs3). split; [done|]. lia.
  - split; [|lia]. split; [done|lia|rewrite Hargv; lia|right; lia].
Qed.

Lemma processMultibulk_safe M max_bulk c : buf_ok c -> parse_ok M c -> max_bulk <= M < 2 ^ 62 -> reqtype c = REQ_MULTIBULK ->
  exists ok c', processMultibulkBuffer max_bulk c = Some (ok, c') /\ consumed c c' /\
    if ok then multibulklen c' = 0 /\ zlen (unparsed c') < zlen (unparsed c)
    else closing_client c' \/ parse_ok M c'.
Proof.
  intros Hb Hp Hmax Ht. unfold processMultibulkBuffer.
  assert (H1 : exists f c1, (if multibulklen c =? 0 then read_header c else Some (Next, c)) = Some (f, c1) /\ consumed c c1 /\
    match f with
    | Return false => c1 = c \/ closing_client c1
    | Return true => argv c1 = [] /\ multibulklen c1 = 0 /\ zlen (unparsed c1) < zlen (unparsed c)
    | Next => loop_inv M c1 /\ 0 < multibulklen c1
    | Break => False
    end).
  { destruct (multibulklen c =? 0) eqn:E0.
    - apply Z.eqb_eq in E0. destruct (po_idle _ _ Hp E0) as [Ha Hbl].
      destruct (read_header_safe c Hb Ha (po_star _ _ Hp Ht E0)) as (f & c1 & -> & Hco & Hc1). exists f, c1. split; [done|]. split; [done|].
      destruct f as [| |[]]; try done.
      + destruct Hc1 as (Hm1 & Ha1 & Hb1 & Hl1). split; [|lia]. split; [by destruct Hco|lia|rewrite Ha1; change (zlen []) with 0; lia|].
        left. congruence.
      + by rewrite <- E0.
    - eexists _, _. split; [done|]. split; [by apply consumed_refl|]. destruct Hp. split; [|lia]. split; [done|done|done|].
      destruct po_bulk0; [by left|right; lia]. }
  destruct H1 as (f & c1 & -> & Hco & Hc1). rewrite bind_Some. destruct f as [| |ok]; [|done|].
  2:{ eexists _, _. split; [done|]. split; [done|]. destruct ok; [tauto|]. destruct Hc1 as [->|]; auto. }
  destruct Hc1 as [Hli Hpos]. rewrite gtb_true by lia. cbn [negb].
  destruct (mbulk_loop_safe M max_bulk (Z.to_nat (multibulklen c1)) c1 Hli Hmax) as (f & c2 & -> & Hco2 & Hc2); [lia|]. rewrite bind_Some.
  pose proof (consumed_len _ _ Hco). pose proof (consumed_trans _ _ _ Hco Hco2) as Hco12. destruct f as [| |ok]; [done| |].
  - eexists _, _. split; [done|]. split; [done|]. destruct Hc2 as ([Hb2 Hm2 Ha2 Hk2] & Hle & Hlt). destruct (multibulklen c2 =? 0) eqn:E2; [lia|].
    right. assert (reqtype c2 = REQ_MULTIBULK) by (rewrite (co_type _ _ Hco12); done).
    split; [done|done|intuition lia|lia|congruence|lia].
  - destruct Hc2 as [-> Hc2]. eexists _, _. split; [done|]. split; [done|]. by left.
Qed.

Lemma processInline_safe now c : buf_ok c ->
  exists ok c', processInlineBuffer now c = Some (ok, c') /\ consumed c c' /\
    if ok then multibulklen c' = multibulklen c /\ zlen (unparsed c') < zlen (unparsed c)
    else closing_client c' \/ c' = c.
Proof.
  intros H. unfold processInlineBuffer. rewrite rest_mem_eq, rest_len_eq by done.
  destruct (strchr_spec (unparsed c) 10) as ([nl|] & -> & Hnl); [done| |].
  2:{ rewrite bind_Some. eexists _, _. split; [done|]. destruct (_ >? _).
      - split; [by apply error_consumed|left; apply protocol_error_closing].
      - split; [by apply consumed_refl|by right]. }
  destruct Hnl as [Hnl Hg]. rewrite bind_Some.
  assert (Hcr : exists cr : bool, (if nl =? 0 then Some false else x ← mget (querybuf c) (qb_pos c + nl - 1); Some (x =? 13)) = Some cr /\
     (cr = true -> 0 < nl)).
  { destruct (nl =? 0) eqn:E; [by exists false|]. rewrite <- Z.add_sub_assoc, get_unparsed by (done || lia).
    destruct (mget_is_Some (unparsed c) (nl - 1)) as (x & ->); [lia|]. rewrite bind_Some. eexists; split; [done|lia]. }
  destruct Hcr as (cr & -> & Hcr). rewrite bind_Some.
  destruct (if cr then (nl - 1, 2) else (nl, 1)) as [ql lf] eqn:Eq.
  assert (Hq : 0 <= ql /\ 0 < ql + lf <= zlen (unparsed c)).
  { destruct cr; injection Eq as <- <-; [specialize (Hcr eq_refl)|]; lia. }
  destruct (read_unparsed c 0 ql H) as [Er|]; [|lia]. rewrite Z.add_0_r in Er. rewrite Er.
  destruct (mread_is_Some (unparsed c) 0 ql) as (aux & -> & _); [destruct cr; injection Eq as <- <-; lia..|]. rewrite bind_Some.
  destruct (splitargs_loop_ok (S (length (aux ++ [0]))) (aux ++ [0]) []) as [r Er']; [by exists aux|lia|].
  unfold sdssplitargs. rewrite Er', bind_Some. destruct r as [args|].
  - eexists _, _. split; [done|]. destruct (advance c (ql + lf) H ltac:(lia)) as [[H1 H2] Hu].
    destruct ((ql =? 0) && has (flags c) CLIENT_SLAVE).
    all: split; [split; [by split|by exists (Z.to_nat (ql + lf))|done..]|split; [done|]];
      match goal with |- zlen (unparsed ?x) < _ => change (unparsed x) with (unparsed (set_buf c (querybuf c) (qb_pos c + (ql + lf)))) end;
      rewrite Hu, zlen_drop by lia; lia.
  - eexists _, _. split; [done|]. split; [by apply error_consumed|left; apply protocol_error_closing].
Qed.

(** ** The loop *)

Definition BULK_MAX : Z := 2 ^ 62 - 1.

(** What the parsers rely on: commands leave the parse state of the client
    alone, and a result other than [C_OK] comes with a client to be closed. *)
Class ServerLaws (S : Type) `{Server S} := {
  law_keep s c s' c' ok : processCommand s c = (s', Some c', ok) ->
    querybuf c' = querybuf c /\ qb_pos c' = qb_pos c /\ reqtype c' = reqtype c /\
    multibulklen c' = multibulklen c /\ bulklen c' = bulklen c /\
    has (flags c') CLIENT_MASTER = has (flags c) CLIENT_MASTER;
  law_err s c s' c' : processCommand s c = (s', Some c', false) -> closing_client c';
  law_bulk s : proto_max_bulk_len s <= BULK_MAX;
  law_query s : client_max_querybuf_len s < 2 ^ 62
}.

Definition halted (c : client) : Prop := closing_client c \/ has (flags c) CLIENT_BLOCKED = true.

(** The invariant of the query buffer between two calls. *)
Record client_ok (c : client) : Prop := {
  ck_buf : buf_ok c;
  ck_parse : halted c \/ parse_ok BULK_MAX c
}.

Lemma reset_parse_ok c : buf_ok c -> parse_ok BULK_MAX (resetClient c) /\ consumed (set_parse c REQ_UNKNOWN 0 (-1) []) (resetClient c).
Proof.
  intros [H1 H2]. split; [split; cbn; try done; by left|].
  split; [by split|by exists 0%nat|done|done|]. unfold resetClient. cbn [flags set_flags set_parse freeClientArgv asking argv].
  match goal with |- has (if ?b then _ else _) _ = _ => destruct b end; rewrite ?has_ldiff, ?has_lor, ?has_ldiff by done;
    match goal with |- has (if ?b then _ else _) _ = _ => destruct b end; by rewrite ?has_ldiff by done.
Qed.

Section Safe.
Context {S : Type} `{ServerLaws S}.

(** Commands that do not free the client that runs them. *)
Definition keeps_client : Prop := forall s c s' ok, processCommand s c <> (s', None, ok).

Definition same_class (c c' : client) : Prop := has (flags c') CLIENT_MASTER = has (flags c) CLIENT_MASTER.

Lemma command_done_safe c : buf_ok c -> client_ok (command_done c) /\ unparsed (command_done c) = unparsed c /\
  same_class c (command_done c).
Proof.
  intros Hb. unfold command_done.
  match goal with |- context [if ?b then set_repl c ?q ?r ?o ?t else c] =>
    set (c1 := if b then set_repl c q r o t else c) end.
  assert (H1 : buf_ok c1 /\ unparsed c1 = unparsed c /\ flags c1 = flags c).
  { unfold c1. destruct (_ && _); [|done]. split; [|done]. destruct Hb. by split. }
  clearbody c1. destruct H1 as (Hb1 & Hu1 & Hf1). destruct (negb _ || negb _) eqn:E.
  - destruct (reset_parse_ok c1 Hb1) as [Hp Hco]. pose proof (co_buf _ _ Hco) as Hb2.
    split; [split; [done|by right]|]. split; [by rewrite <- Hu1|]. unfold same_class. rewrite <- Hf1. apply (co_master _ _ Hco).
  - apply orb_false_iff in E as [E _]. apply negb_false_iff in E. split; [split; [done|left; by right]|].
    split; [done|]. unfold same_class. by rewrite Hf1.
Qed.

Lemma input_loop_safe fuel s c : keeps_client -> client_ok c -> zlen (unparsed c) < Z.of_nat fuel ->
  exists s' c', input_loop fuel s c = Some (s', Some c') /\ client_ok c' /\ same_class c c'.
Proof.
  intros Halive. revert s c. induction fuel as [|fuel IH]; intros s c [Hb Hp] Hf; [pose_zlen; lia|]. cbn [input_loop].
  destruct (qb_pos c <? zlen (querybuf c)) eqn:Epos; [|exists s, c; split; [done|by split]].
  assert (Hstop : exists s' c', Some (s, Some c) = Some (s', Some c') /\ client_ok c' /\ same_class c c') by (exists s, c; split; [done|by split]).
  destruct (negb (has (flags c) CLIENT_SLAVE) && clientsArePaused s); [exact Hstop|].
  destruct (has (flags c) CLIENT_BLOCKED) eqn:Ebl; [exact Hstop|].
  destruct (lua_timedout s && has (flags c) CLIENT_MASTER); [exact Hstop|].
  destruct (has (flags c) (Z.lor CLIENT_CLOSE_AFTER_REPLY CLIENT_CLOSE_ASAP)) eqn:Ecl; [exact Hstop|]. clear Hstop.
  destruct Hp as [[Hc|Hc]|Hp]; [unfold closing_client in Hc; congruence|congruence|].
  assert (Hty : exists c1, (match reqtype c with
               | REQ_UNKNOWN =>
                   x ← mget (querybuf c ++ [0]) (qb_pos c);
                   Some (set_parse c (if x =? 42 then REQ_MULTIBULK else REQ_INLINE) (multibulklen c) (bulklen c) (argv c))
               | _ => Some c
               end) = Some c1 /\ buf_ok c1 /\ unparsed c1 = unparsed c /\ flags c1 = flags c /\ parse_ok BULK_MAX c1 /\ reqtype c1 <> REQ_UNKNOWN).
  { destruct (reqtype c) eqn:Et; [|exists c; split_and!; congruence || done..].
    pose proof (zlen_unparsed c Hb) as Hl. destruct (mget_is_Some (unparsed c) 0) as (x & Hx); [lia|].
    rewrite get_first, mget_app_l, Hx, bind_Some by (done || lia). eexists; split; [done|].
    destruct Hb, Hp. assert (multibulklen c = 0) by (apply po_type0; congruence). split; [by split|]. split; [done|]. split; [done|].
    split; [|by destruct (x =? 42)]. split; cbn; try done. intros Hmb _. destruct (x =? 42) eqn:Ex; [|done].
    apply Z.eqb_eq in Ex as ->. done. }
  destruct Hty as (c1 & -> & Hb1 & Hu1 & Hf1 & Hp1 & Ht1). rewrite bind_Some.
  assert (Hpr : exists ok c2, (match reqtype c1 with
               | REQ_INLINE => processInlineBuffer (unixtime s) c1
               | REQ_MULTIBULK => processMultibulkBuffer (proto_max_bulk_len s) c1
               | REQ_UNKNOWN => None
               end) = Some (ok, c2) /\ consumed c1 c2 /\
    if ok then zlen (unparsed c2) < zlen (unparsed c1) else client_ok c2).
  { destruct (reqtype c1) eqn:Et; [done| |].
    - destruct (processInline_safe (unixtime s) c1 Hb1) as (ok & c2 & -> & Hco & Hc2). exists ok, c2. split; [done|]. split; [done|].
      destruct ok; [tauto|]. split; [apply (co_buf _ _ Hco)|]. destruct Hc2 as [| ->]; [left; by left|by right].
    - destruct (processMultibulk_safe BULK_MAX (proto_max_bulk_len s) c1 Hb1 Hp1) as (ok & c2 & -> & Hco & Hc2);
        [pose proof (law_bulk s); unfold BULK_MAX in *; lia|done|]. exists ok, c2. split; [done|]. split; [done|].
      destruct ok; [tauto|]. split; [apply (co_buf _ _ Hco)|]. destruct Hc2; [left; by left|by right]. }
  destruct Hpr as (ok & c2 & -> & Hco & Hc2). rewrite bind_Some.
  assert (Hcl2 : same_class c c2) by (unfold same_class; rewrite <- Hf1; apply (co_master _ _ Hco)).
  destruct ok; cbn [negb]; [|by exists s, c2]. rewrite Hu1 in Hc2. pose proof (co_buf _ _ Hco) as Hb2.
  destruct (zlen (argv c2) =? 0).
  - destruct (reset_parse_ok c2 Hb2) as [Hp3 Hco3]. destruct (IH s (resetClient c2)) as (s' & c' & -> & Hok & Hcl).
    + split; [apply (co_buf _ _ Hco3)|by right].
    + change (unparsed (resetClient c2)) with (unparsed c2). lia.
    + exists s', c'. split; [done|]. split; [done|]. unfold same_class in *. rewrite Hcl, <- Hcl2. apply (co_master _ _ Hco3).
  - destruct (processCommand s c2) as [[s' [c3|]] ok] eqn:Ec; [|by apply Halive in Ec].
    destruct (law_keep _ _ _ _ _ Ec) as (K1 & K2 & K3 & K4 & K5 & K6).
    assert (Hb3 : buf_ok c3) by (destruct Hb2; split; by rewrite K1, ?K2).
    assert (Hu3 : unparsed c3 = unparsed c2) by (unfold unparsed; by rewrite K1, K2).
    assert (Hcl3 : same_class c c3) by (unfold same_class in *; congruence).
    destruct ok.
    + destruct (command_done_safe c3 Hb3) as (Hok & Hu & Hcl). destruct (IH s' (command_done c3) Hok) as (s2 & c4 & -> & Hok4 & Hcl4).
      { rewrite Hu, Hu3. lia. }
      exists s2, c4. split; [done|]. split; [done|]. unfold same_class in *. congruence.
    + destruct (IH s' c3) as (s2 & c4 & -> & Hok4 & Hcl4).
      { split; [done|]. left. left. by apply (law_err _ _ _ _ Ec). }
      { rewrite Hu3. lia. }
      exists s2, c4. split; [done|]. split; [done|]. unfold same_class in *. congruence.
Qed.

Lemma trim_ok c : client_ok c -> exists c', (if negb (qb_pos c =? 0) then q ← sdsrange (querybuf c) (qb_pos c) (-1); Some (set_buf c q 0)
                            else Some c) = Some c' /\
  client_ok c' /\ qb_pos c' = 0 /\ querybuf c' = unparsed c /\ flags c' = flags c.
Proof.
  intros [[H1 H2] Hp]. destruct (qb_pos c =? 0) eqn:E; cbn [negb].
  - apply Z.eqb_eq in E. exists c. split; [done|]. split; [by split|]. split; [done|]. split; [|done].
    unfold unparsed. by rewrite E.
  - rewrite sdsrange_drop, bind_Some by lia. eexists; split; [done|]. split; [|done].
    pose proof (zlen_drop_le (Z.to_nat (qb_pos c)) (querybuf c)). split; [split; cbn; [pose_zlen; lia|lia]|].
    destruct Hp as [Hp|Hp]; [by left|right]. destruct Hp. by split.
Qed.

Lemma processInputBuffer_safe s c : keeps_client -> client_ok c ->
  exists s' c', processInputBuffer s c = Some (s', c') /\ client_ok c' /\ qb_pos c' = 0 /\ same_class c c'.
Proof.
  intros Halive Hc. unfold processInputBuffer. pose proof (ck_buf c Hc) as Hb.
  destruct (input_loop_safe (Datatypes.S (Z.to_nat (zlen (querybuf c) - qb_pos c))) s c Halive Hc) as (s' & c' & -> & Hok & Hcl).
  { rewrite zlen_unparsed by done. destruct Hb. lia. }
  rewrite bind_Some. destruct (trim_ok c' Hok) as (c2 & E & Hok2 & Hp2 & _ & Hf2). exists s', c2.
  split; [|split; [done|split; [done|unfold same_class in *; congruence]]].
  destruct (negb (qb_pos c' =? 0)); [|by injection E as ->]. destruct (sdsrange (querybuf c') (qb_pos c') (-1)); [|done]. by injection E as <-.
Qed.
End Safe.

(** ** A connection *)

(** The reads of a connection until it is closed; [None] inside: closed. *)
Fixpoint serve {S : Type} `{Server S} (s : S) (c : client) (rds : list read_result) : option (S * option client) :=
  match rds with
  | [] => Some (s, Some c)
  | rd :: rds =>
      r ← readQueryFromClient s c rd;
      match r with
      | (s, None) => Some (s, None)
      | (s, Some c) => serve s c rds
      end
  end.

Lemma append_ok c bs : client_ok c -> zlen (querybuf c ++ bs) < 2 ^ 62 -> client_ok (set_buf c (querybuf c ++ bs) (qb_pos c)).
Proof.
  intros [[H1 H2] Hp] Hl. split; [split; cbn; [zlia|done]|]. destruct Hp as [Hp|Hp]; [by left|right].
  destruct Hp. split; cbn [multibulklen argv bulklen reqtype set_buf]; try done. intros Ht Hm. specialize (po_star0 Ht Hm). unfold unparsed in *. cbn [querybuf qb_pos set_buf].
  rewrite drop_app_le by (unfold zlen in *; lia). rewrite mget_app_l; [done|]. apply mget_range in po_star0; lia.
Qed.

Lemma read_safe {S : Type} `{ServerLaws S} (s : S) c rd : keeps_client (S := S) -> client_ok c -> has (flags c) CLIENT_MASTER = false ->
  exists s' oc, readQueryFromClient s c rd = Some (s', oc) /\
    match oc with Some c' => client_ok c' /\ has (flags c') CLIENT_MASTER = false | None => True end.
Proof.
  intros Halive Hc Hm. destruct rd as [| | |bs]; [by exists s, (Some c)|by exists s, None|by exists s, None|].
  unfold readQueryFromClient. rewrite Hm. cbn zeta. destruct (_ >? _) eqn:E; [by exists s, None|].
  cbn [querybuf set_buf] in E. unfold processInputBufferAndReplicate. cbn [flags set_buf]. rewrite Hm. cbn [negb].
  destruct (processInputBuffer_safe s (set_buf c (querybuf c ++ bs) (qb_pos c)) Halive) as (s' & c' & -> & Hok & _ & Hcl).
  { apply append_ok; [done|]. pose proof (law_query s). lia. }
  rewrite bind_Some. exists s', (Some c'). split; [done|]. split; [done|]. unfold same_class in Hcl. by rewrite Hcl.
Qed.

(** [C2] Whatever bytes a client sends and however they are cut into reads, the
    processing of its query buffer is defined: no byte outside the buffer is
    read, the assertions of [processMultibulkBuffer] hold, the loops end, and the
    client that is left satisfies the invariant of the parser (its counters in
    range, no arguments pending between commands).  This is for clients other than
    our master, and as long as no command frees the client that runs it
    ([keeps_client]): after one that does, the loop reads the freed client
    ([freed_client_is_read]). *)
Theorem query_buffer_safe {S : Type} `{ServerLaws S} (s : S) fl rds
    (Halive : keeps_client (S := S)) (Hfl : has fl CLIENT_MASTER = false) :
  exists s' oc, serve s (createClient fl) rds = Some (s', oc) /\
    match oc with Some c' => client_ok c' | None => True end.
Proof.
  assert (Hgo : forall c, client_ok c -> has (flags c) CLIENT_MASTER = false ->
    exists s' oc, serve s c rds = Some (s', oc) /\ match oc with Some c' => client_ok c' | None => True end).
  { revert s. induction rds as [|rd rds IH]; intros s c Hc Hm; [by exists s, (Some c)|]. cbn [serve].
    destruct (read_safe s c rd Halive Hc Hm) as (s' & oc & -> & Hoc). rewrite bind_Some.
    destruct oc as [c'|]; [|by exists s', None]. destruct Hoc. by apply IH. }
  apply Hgo; [|done]. split; [by split|right]. by split; try done; left.
Qed.

(** A server that logs the commands and knows QUIT. *)
Definition log : Type := list (list (list Z)).
#[global] Instance LogServer : Server log := {
  processCommand s c :=
    if bool_decide (argv c = [bytes_of "quit"])
    then (s, Some (set_flags c (Z.lor (flags c) CLIENT_CLOSE_AFTER_REPLY) (asking c) (errors c)), false)
    else (s ++ [argv c], Some c, true);
  clientsArePaused _ := false;
  lua_timedout _ := false;
  unixtime _ := 0;
  proto_max_bulk_len _ := 512 * 1024 * 1024;
  client_max_querybuf_len _ := 1024 * 1024 * 1024;
  feedSlaves s _ := s
}.

#[global] Instance LogServerLaws : ServerLaws log.
Proof.
  split; [| |by intros..].
  - intros s c s' c' ok. cbn. case_bool_decide; intros [= <- <- <-]; split_and!; try done. by apply has_lor.
  - intros s c s' c'. cbn. case_bool_decide; intros [= <- <-]. unfold closing_client, has. cbn.
    apply negb_true_iff, Z.eqb_neq. intros E. apply (f_equal (fun z => Z.testbit z 6)) in E.
    rewrite Z.land_spec, Z.lor_spec, Z.bits_0 in E. cbn in E. by rewrite orb_true_r in E.
Qed.

Lemma log_keeps_client : keeps_client (S := log).
Proof. intros s c s' ok. cbn. by case_bool_decide. Qed.

Definition crlf : list Z := [13; 10].

Lemma query_buffer_witness : exists s' oc,
  serve [] (createClient 0) [RBytes (bytes_of "SET a b" ++ [10] ++ bytes_of "*1"); RBytes (crlf ++ bytes_of "$x")] = Some (s', oc) /\
  match oc with Some c' => client_ok c' | None => True end.
Proof. apply (query_buffer_safe [] 0); [exact log_keeps_client|reflexivity]. Defined.

(** A server whose next command frees the client, as the eviction of memory may
    do with a slave: [processCommand] returns [C_ERR] with no current client, and
    the loop breaks; but the position of the freed client is read after it. *)
Definition freeing_server : Server unit := {|
  processCommand s c := (s, None, false);
  clientsArePaused _ := false;
  lua_timedout _ := false;
  unixtime _ := 0;
  proto_max_bulk_len _ := 512 * 1024 * 1024;
  client_max_querybuf_len _ := 1024 * 1024 * 1024;
  feedSlaves s _ := s
|}.

Example freed_client_is_read :
  let c := set_buf (createClient CLIENT_SLAVE) (bytes_of "PING" ++ crlf) 0 in
  input_loop (H := freeing_server) 7 tt c = Some (tt, None) /\
  processInputBuffer (H := freeing_server) tt c = None.
Proof. by vm_compute. Qed.
