(* ===== verification/RespDecode.v ===== *)
(** * Commands survive the wire

    What [catAppendOnlyGenericCommand] writes is what [processInputBuffer]
    executes, whatever the reads that deliver it. *)
From Stdlib Require Import ZArith Lia String.
From stdpp Require Import base numbers list option.
From S2P Require Import Prelude UtilNum Sds SdsRefine Resp RespSafe.

(** ** The format *)

Abbreviation bytes := (list Z).

Definition enc_line (ch n : Z) : bytes := ch :: udec n ++ crlf.
Definition enc_bulk (a : bytes) : bytes := enc_line 36 (zlen a) ++ a ++ crlf.
Definition enc_bulks (args : list bytes) : bytes := concat (enc_bulk <$> args).
Definition enc (args : list bytes) : bytes := enc_line 42 (zlen args) ++ enc_bulks args.

Lemma dec_udec n : 0 <= n -> dec n = udec n.
Proof. intros. unfold dec. by rewrite (proj2 (Z.ltb_ge n 0)) by lia. Qed.

Lemma cat_header_spec buf ch n : zlen buf = 32 -> 0 <= n < 2 ^ 63 -> cat_header buf ch n = Some (enc_line ch n).
Proof.
  intros Hb Hn. unfold cat_header. destruct buf as [|b0 buf]; [done|]. rewrite zlen_cons in Hb.
  rewrite (mset_split [] b0 ch buf 0 eq_refl : mset (b0 :: buf) 0 ch = Some (ch :: buf)), bind_Some.
  pose proof (mread_end [ch] buf 1 31 eq_refl ltac:(lia)) as Hr. cbn [app] in Hr. rewrite Hr, bind_Some.
  pose proof (udec_len_20 n ltac:(lia)) as Hl.
  rewrite ll2string_spec by (unfold in_s; change (63) with (64 - 1) in Hn; lia).
  rewrite dec_udec, geb_false, bind_Some by lia. cbn [fst snd].
  set (rest := drop (S (length (udec n))) buf). assert (Hrest : zlen rest = 30 - zlen (udec n)).
  { unfold rest. rewrite zlen_drop by (unfold zlen in *; lia). unfold zlen in *. lia. }
  pose proof (mwrite_end (ch :: buf) [ch] buf (udec n ++ [0] ++ rest) 1 eq_refl eq_refl ltac:(zlia)) as Hw.
  rewrite Hw, bind_Some. destruct rest as [|r0 rest']; [zlia|].
  rewrite (app_assoc [ch] (udec n)). change ([0] ++ r0 :: rest') with (0 :: r0 :: rest').
  rewrite mset_split by zlia. rewrite bind_Some.
  pose proof (mset_split (([ch] ++ udec n) ++ [13]) r0 10 rest' (1 + zlen (udec n) + 1) ltac:(zlia)) as Hs.
  rewrite <- (app_assoc _ [13]) in Hs. cbn [app] in Hs |- *. rewrite Hs, bind_Some.
  unfold enc_line, crlf. pose proof (mread_0 (ch :: udec n ++ [13; 10]) rest' (1 + zlen (udec n) + 2) ltac:(zlia)) as Hm.
  rewrite <- Hm. f_equal. rewrite <- !app_assoc. cbn [app]. by rewrite <- !app_assoc.
Qed.

Lemma cat_args_spec buf dst args : zlen buf = 32 -> Forall (fun a => zlen a < 2 ^ 63) args ->
  cat_args buf dst args = Some (dst ++ enc_bulks args).
Proof.
  intros Hb Ha. revert dst. induction Ha as [|a args Ha _ IH]; intros dst; cbn [cat_args].
  { by rewrite app_nil_r. }
  pose_zlen. rewrite cat_header_spec, bind_Some, IH by lia. f_equal. unfold enc_bulks. rewrite fmap_cons. cbn [concat].
  unfold enc_bulk at 2. by rewrite <- !app_assoc.
Qed.

Lemma cat_spec buf dst args : zlen buf = 32 -> zlen args < 2 ^ 63 -> Forall (fun a => zlen a < 2 ^ 63) args ->
  catAppendOnlyGenericCommand buf dst args = Some (dst ++ enc args).
Proof.
  intros Hb Hl Ha. pose_zlen. unfold catAppendOnlyGenericCommand. rewrite cat_header_spec, bind_Some by lia.
  rewrite cat_args_spec by done. unfold enc. by rewrite <- app_assoc.
Qed.

(** ** Lines that are complete, or not *)

Lemma app_cases {A} (U V L Y : list A) : U ++ V = L ++ Y ->
  (exists U', U = L ++ U' /\ U' ++ V = Y) \/ (exists t, t <> [] /\ L = U ++ t /\ V = t ++ Y).
Proof.
  revert L. induction U as [|u U IH]; intros [|l L]; cbn; intros E.
  - left. by exists [].
  - right. by exists (l :: L).
  - left. exists (u :: U). done.
  - injection E as -> E. destruct (IH L E) as [(U' & -> & HV)|(t & Ht & -> & HV)]; [left; by exists U'|right; by exists t].
Qed.

Lemma udec_no c n : 0 <= n < 2 ^ 63 -> c ∈ udec n -> 48 <= c <= 57.
Proof. intros Hn Hc. pose proof (udec_digits n ltac:(lia)) as H.
  apply list_elem_of_lookup_1 in Hc as [i Hi]. exact (Forall_lookup_1 _ _ _ _ H Hi). Qed.

Lemma strchr_find a b c : c <> 0 -> (forall x, x ∈ a -> x <> c /\ x <> 0) -> strchr (a ++ c :: b) c = Some (Some (zlen a)).
Proof.
  intros Hc. induction a as [|x a IH]; intros Ha; cbn [app strchr]; [by rewrite Z.eqb_refl|].
  destruct (Ha x) as [H1 H2]; [by constructor|]. rewrite (proj2 (Z.eqb_neq x c)), (proj2 (Z.eqb_neq x 0)) by done.
  rewrite IH, bind_Some by (intros y Hy; apply Ha; by constructor). cbn. by rewrite zlen_cons.
Qed.

(** The carriage return of a complete line. *)
Lemma line_complete ch n U : 0 <= n < 2 ^ 63 -> ch = 36 \/ ch = 42 ->
  strchr ((enc_line ch n ++ U) ++ [0]) 13 = Some (Some (1 + zlen (udec n))).
Proof.
  intros Hn Hch. unfold enc_line, crlf. replace (((ch :: udec n ++ [13; 10]) ++ U) ++ [0]) with ((ch :: udec n) ++ 13 :: (10 :: U ++ [0])).
  - rewrite strchr_find; [by rewrite zlen_cons|done|]. intros x [->|Hx]%elem_of_cons; [lia|]. apply udec_no in Hx; lia.
  - cbn. rewrite <- !app_assoc. done.
Qed.

(** A line that is not complete: there is no carriage return, or it is the last
    byte. *)
Lemma line_partial ch n U t : 0 <= n < 2 ^ 63 -> ch = 36 \/ ch = 42 -> enc_line ch n = U ++ t -> t <> [] ->
  exists r, strchr (U ++ [0]) 13 = Some r /\ zlen U <= 22 /\ match r with Some i => i > zlen U - 2 | None => True end.
Proof.
  intros Hn Hch E Ht. destruct (strchr_spec U 13) as (r & Hr & Hi); [done|]. exists r. split; [done|].
  pose proof (udec_len_20 n ltac:(lia)) as Hl. assert (Hlen : zlen U + zlen t = zlen (udec n) + 3).
  { rewrite <- zlen_app, <- E. unfold enc_line, crlf. zlia. }
  assert (0 < zlen t) by (destruct t; [done|zlia]). split; [lia|]. destruct r as [i|]; [|done]. destruct Hi as [Hi Hg].
  assert (Hg2 : mget (enc_line ch n) i = Some 13) by (rewrite E; by rewrite mget_app_l by lia).
  unfold enc_line in Hg2. destruct (decide (i < 1 + zlen (udec n))); [|lia].
  change (ch :: udec n ++ crlf) with ((ch :: udec n) ++ crlf) in Hg2. rewrite mget_app_l in Hg2 by zlia.
  apply mget_Some in Hg2 as [_ Hg2]. apply list_elem_of_lookup_2 in Hg2. apply elem_of_cons in Hg2 as [?|Hg2]; [lia|].
  apply udec_no in Hg2; lia.
Qed.

Lemma string2ll_udec n : 0 <= n < 2 ^ 63 -> string2ll (udec n) (zlen (udec n)) = Some (Some n).
Proof.
  intros Hn. destruct (string2ll_total (udec n)) as (r & -> & Hr). f_equal. apply Hr. rewrite dec_udec by lia.
  split; [|done]. unfold in_s. change (64 - 1) with 63. lia.
Qed.

(** ** What the parser has seen of a command *)

Inductive phase :=
| Idle
| InArgs (dn td : list bytes)
| InBody (dn : list bytes) (a : bytes) (td : list bytes).

(** The bytes that are still to come. *)
Definition ph_bytes (ph : phase) : bytes :=
  match ph with
  | Idle => []
  | InArgs _ td => enc_bulks td
  | InBody _ a td => a ++ crlf ++ enc_bulks td
  end.

Definition ph_cmd (ph : phase) : option (list bytes) :=
  match ph with
  | Idle => None
  | InArgs dn td => Some (dn ++ td)
  | InBody dn a td => Some (dn ++ a :: td)
  end.

Definition at_phase (c : client) (ph : phase) : Prop :=
  match ph with
  | Idle => multibulklen c = 0 /\ bulklen c = -1 /\ argv c = []
  | InArgs dn td => multibulklen c = zlen td /\ bulklen c = -1 /\ argv c = dn
  | InBody dn a td => multibulklen c = 1 + zlen td /\ bulklen c = zlen a /\ argv c = dn
  end.

(** What a parser step keeps. *)
Record stepped (c c' : client) : Prop := {
  sp_buf : buf_ok c';
  sp_len : zlen (unparsed c') <= zlen (unparsed c);
  sp_flags : flags c' = flags c;
  sp_type : reqtype c' = reqtype c
}.

Lemma stepped_refl c : buf_ok c -> stepped c c.
Proof. by split. Qed.

Lemma stepped_trans c1 c2 c3 : stepped c1 c2 -> stepped c2 c3 -> stepped c1 c3.
Proof. intros [] []. split; [done|lia|congruence..]. Qed.

Definition max_arg : Z := 2 ^ 61.

Definition cmd_ok (max_bulk : Z) (args : list bytes) : Prop :=
  args <> [] /\ zlen args <= 1024 * 1024 /\ Forall (fun a => zlen a <= max_bulk) args.

(** The beginning of both parsers of lines. *)
Lemma line_step c ch n fut Y : buf_ok c -> 0 <= n < 2 ^ 63 -> ch = 36 \/ ch = 42 ->
  unparsed c ++ fut = enc_line ch n ++ Y ->
  (fut <> [] /\ exists r, strchr (rest_mem c) 13 = Some r /\ zlen (unparsed c) <= 22 /\
     match r with Some i => i > zlen (unparsed c) - 2 | None => True end) \/
  (exists U', unparsed c = enc_line ch n ++ U' /\ U' ++ fut = Y /\ strchr (rest_mem c) 13 = Some (Some (1 + zlen (udec n))) /\
     mget (querybuf c ++ [0]) (qb_pos c) = Some ch /\ mread (querybuf c) (qb_pos c + 1) (1 + zlen (udec n) - 1) = Some (udec n) /\
     let c' := set_buf c (querybuf c) (qb_pos c + (1 + zlen (udec n)) + 2) in buf_ok c' /\ unparsed c' = U').
Proof.
  intros Hb Hn Hch E. rewrite rest_mem_eq by done. destruct (app_cases _ _ _ _ E) as [(U' & EU & EV)|(t & Ht & EL & EV)].
  - right. exists U'. split; [done|]. split; [done|]. split; [rewrite EU; by apply line_complete|].
    split; [rewrite get_first, EU by done; done|]. split.
    + destruct (read_unparsed c 1 (1 + zlen (udec n) - 1) Hb) as [->|]; [|lia]. rewrite EU. unfold enc_line.
      replace ((ch :: udec n ++ crlf) ++ U') with ([ch] ++ udec n ++ (crlf ++ U')) by (cbn; by rewrite <- app_assoc).
      apply mread_split; [done|lia].
    + assert (Hk : 0 <= (1 + zlen (udec n)) + 2 <= zlen (unparsed c)) by (rewrite EU; unfold enc_line, crlf; zlia).
      destruct (advance c _ Hb Hk) as [H1 H2]. rewrite Z.add_assoc in H1, H2. split; [done|]. rewrite H2, EU.
      assert (Hz : 1 + zlen (udec n) + 2 = zlen (enc_line ch n)) by (unfold enc_line, crlf; zlia).
      rewrite Hz. apply drop_zlen_app.
  - left. split; [by subst fut; destruct t|]. by apply (line_partial ch n _ t).
Qed.

(** ** The parser follows the stream *)

(** The goal is about the unparsed bytes of an updated client: they are [t]. *)
Ltac unparsed_is t H :=
  match goal with |- context [unparsed (set_parse ?a ?b ?m ?n ?o)] =>
    replace (unparsed (set_parse a b m n o)) with t by (symmetry; exact H) end.

Section Decode.
Context (max_bulk : Z) (Hmax : 0 <= max_bulk < 2 ^ 62).

Lemma header_step c args fut Y : buf_ok c -> argv c = [] -> cmd_ok max_bulk args -> bulklen c = -1 ->
  unparsed c ++ fut = enc args ++ Y ->
  (fut <> [] /\ read_header c = Some (Return false, c)) \/
  (exists c', read_header c = Some (Next, c') /\ stepped c c' /\ at_phase c' (InArgs [] args) /\
     unparsed c' ++ fut = enc_bulks args ++ Y).
Proof.
  intros Hb Ha (Hne & Hargc & Hargs) Hbl E. unfold enc in E. rewrite <- app_assoc in E. pose_zlen.
  assert (Hpos : 0 < zlen args) by (destruct args; [done|zlia]).
  assert (Hlen : 0 <= zlen (unparsed c) < 2 ^ 62) by (split; [apply zlen_nonneg|rewrite zlen_unparsed by done; destruct Hb; lia]).
  unfold read_header. rewrite Ha. change (zlen [] =? 0) with true. cbn [negb]. rewrite rest_len_eq by done.
  destruct (line_step c 42 (zlen args) fut _ Hb ltac:(lia) ltac:(by right) E)
    as [(Hfut & r & -> & Hl & Hr)|(U' & EU & EV & -> & Hg & Hs & Hb' & Hu')]; [left|right].
  - split; [done|]. rewrite bind_Some. destruct r as [i|].
    + rewrite i64_small by lia. by rewrite gtb_true by lia.
    + by rewrite gtb_false by (unfold PROTO_INLINE_MAX_SIZE; lia).
  - rewrite bind_Some, i64_small by lia. pose proof (udec_pos (zlen args) ltac:(lia)).
    assert (HU : zlen (unparsed c) = zlen (udec (zlen args)) + 3 + zlen U') by (rewrite EU; unfold enc_line, crlf; zlia).
    pose proof (zlen_nonneg U'). rewrite gtb_false, Hg, bind_Some by lia. cbn [Z.eqb Pos.eqb negb]. rewrite Hs, bind_Some.
    replace (1 + zlen (udec (zlen args)) - 1) with (zlen (udec (zlen args))) by lia. rewrite string2ll_udec, bind_Some by lia.
    rewrite (gtb_false (zlen args)), (proj2 (Z.leb_gt (zlen args) 0)) by lia. eexists; split; [done|]. split; [|split].
    + destruct Hb'. split; [by split| |done|done]. change (unparsed (set_parse ?x _ _ _ _)) with (unparsed x). rewrite Hu'. lia.
    + by split_and!.
    + change (unparsed (set_parse ?x _ _ _ _)) with (unparsed x). by rewrite Hu'.
Qed.

Lemma bulklen_step mb c dn a td fut Y : buf_ok c -> at_phase c (InArgs dn (a :: td)) -> zlen a <= max_bulk <= mb ->
  unparsed c ++ fut = enc_bulks (a :: td) ++ Y ->
  (fut <> [] /\ read_bulklen mb c = Some (Break, c)) \/
  (exists c', read_bulklen mb c = Some (Next, c') /\ stepped c c' /\ at_phase c' (InBody dn a td) /\
     unparsed c' ++ fut = ph_bytes (InBody dn a td) ++ Y).
Proof.
  intros Hb (Hm & Hbl & Ha) Hla E. unfold enc_bulks in E. rewrite fmap_cons in E. cbn [concat] in E.
  unfold enc_bulk at 1 in E. rewrite <- !app_assoc in E. pose_zlen.
  assert (Hlen : 0 <= zlen (unparsed c) < 2 ^ 62) by (split; [apply zlen_nonneg|rewrite zlen_unparsed by done; destruct Hb; lia]).
  unfold read_bulklen. rewrite rest_len_eq by done.
  destruct (line_step c 36 (zlen a) fut _ Hb ltac:(lia) ltac:(by left) E)
    as [(Hfut & r & -> & Hl & Hr)|(U' & EU & EV & -> & Hg & Hs & Hb' & Hu')]; [left|right].
  - split; [done|]. rewrite bind_Some. destruct r as [i|].
    + rewrite i64_small by lia. by rewrite gtb_true by lia.
    + by rewrite gtb_false by (unfold PROTO_INLINE_MAX_SIZE; lia).
  - rewrite bind_Some, i64_small by lia. pose proof (udec_pos (zlen a) ltac:(lia)).
    assert (HU : zlen (unparsed c) = zlen (udec (zlen a)) + 3 + zlen U') by (rewrite EU; unfold enc_line, crlf; zlia).
    pose proof (zlen_nonneg U'). rewrite gtb_false, Hg, bind_Some by lia. cbn [Z.eqb Pos.eqb negb]. rewrite Hs, bind_Some.
    replace (1 + zlen (udec (zlen a)) - 1) with (zlen (udec (zlen a))) by lia. rewrite string2ll_udec, bind_Some by lia.
    rewrite (proj2 (Z.ltb_ge (zlen a) 0)), (gtb_false (zlen a)) by lia. cbn [orb].
    set (c1 := set_buf c (querybuf c) (qb_pos c + (1 + zlen (udec (zlen a))) + 2)) in *.
    match goal with |- context [(if ?b then _ else Some c1) ≫= _] => destruct b end.
    + rewrite sdsrange_drop by (destruct Hb'; lia). rewrite !bind_Some. eexists; split; [done|].
      split; [|split].
      * destruct Hb'. split; [| |done|done]; [|unparsed_is U' Hu'; lia]. split; [split; [done|apply zlen_nonneg]|]. by apply (Z.le_lt_trans _ (zlen (querybuf c1)) _ (zlen_drop_le _ _)).
      * split_and!; cbn; [|done|done]. by rewrite Hm, zlen_cons.
      * unparsed_is U' Hu'. rewrite EV. cbn [ph_bytes]. by rewrite <- !app_assoc.
    + rewrite bind_Some. eexists; split; [done|]. change (unparsed (set_parse c1 _ _ _ _)) with (unparsed c1). split; [|split].
      * destruct Hb'. split; [by split| |done|done]. change (unparsed (set_parse c1 _ _ _ _)) with (unparsed c1). rewrite Hu'. lia.
      * split_and!; cbn; [|done|done]. by rewrite Hm, zlen_cons.
      * rewrite Hu', EV. cbn [ph_bytes]. by rewrite <- !app_assoc.
Qed.

Lemma bulk_step c dn a td fut Y : buf_ok c -> at_phase c (InBody dn a td) -> zlen a <= max_bulk ->
  unparsed c ++ fut = ph_bytes (InBody dn a td) ++ Y ->
  (fut <> [] /\ read_bulk c = Some (Break, c)) \/
  (exists c', read_bulk c = Some (Next, c') /\ stepped c c' /\ at_phase c' (InArgs (dn ++ [a]) td) /\
     unparsed c' ++ fut = enc_bulks td ++ Y).
Proof.
  intros Hb (Hm & Hbl & Ha) Hla E. cbn [ph_bytes] in E. rewrite <- !app_assoc in E. pose_zlen.
  unfold read_bulk. rewrite rest_len_eq, Hbl, uwrap_small by (done || lia).
  assert (Hc : zlen crlf = 2) by done. rewrite (app_assoc a) in E.
  destruct (app_cases _ _ _ _ E) as [(U' & EU & EV)|(t & Ht & EL & EV)]; [right|left].
  - assert (HU : zlen (unparsed c) = zlen a + 2 + zlen U') by (rewrite EU; zlia). pose proof (zlen_nonneg U').
    rewrite (proj2 (Z.ltb_ge _ _)) by lia. pose proof (zlen_unparsed c Hb) as Hzl.
    destruct ((qb_pos c =? 0) && (zlen a >=? PROTO_MBULK_BIG_ARG) && (zlen (querybuf c) =? zlen a + 2)) eqn:Eb.
    + apply andb_true_iff in Eb as [[E0 _]%andb_true_iff E1]. assert (U' = []) as -> by (destruct U'; [done|zlia]).
      assert (Hq : querybuf c = a ++ crlf).
      { rewrite app_nil_r in EU. rewrite <- EU. unfold unparsed. by replace (Z.to_nat (qb_pos c)) with 0%nat by lia. }
      assert (Hread : mread (querybuf c) 0 (zlen (querybuf c) - 2) = Some a) by (rewrite Hq; apply mread_0; zlia).
      rewrite Hread, !bind_Some. eexists; split; [done|].
      assert (Hun : unparsed (set_parse (set_buf (set_parse c (reqtype c) (multibulklen c) (zlen a) (argv c ++ [a])) [] (qb_pos c))
          (reqtype c) (multibulklen c - 1) (-1) (argv c ++ [a])) = []) by (unfold unparsed; cbn; by rewrite drop_nil).
      split; [split; [split; cbn; [change (zlen []) with 0; lia|by vm_compute]|..]|split].
      * cbn [reqtype multibulklen bulklen argv set_parse set_buf]. rewrite Hun. change (zlen []) with 0. lia.
      * done.
      * done.
      * split_and!; cbn; [lia|done|by rewrite Ha].
      * cbn [reqtype multibulklen bulklen argv set_parse set_buf]. by rewrite Hun, EV.
    + destruct (read_unparsed c 0 (zlen a) Hb) as [Er|]; [|lia]. rewrite Z.add_0_r in Er. rewrite Er, EU, <- app_assoc, mread_0, !bind_Some by done.
      destruct (advance c (zlen a + 2) Hb ltac:(lia)) as [[Hp1 Hp2] Hu].
      assert (Hu2 : unparsed (set_buf c (querybuf c) (qb_pos c + (zlen a + 2))) = U').
      { rewrite Hu, EU. assert (zlen a + 2 = zlen (a ++ crlf)) as -> by zlia. apply drop_zlen_app. }
      eexists; split; [done|]. split; [split; [by split| |done|done]|split].
      * match goal with |- zlen (unparsed ?x) <= _ => change (unparsed x) with (unparsed (set_buf c (querybuf c) (qb_pos c + (zlen a + 2)))) end.
        rewrite Hu2. lia.
      * split_and!; cbn; [lia|done|by rewrite Ha].
      * match goal with |- unparsed ?x ++ _ = _ => change (unparsed x) with (unparsed (set_buf c (querybuf c) (qb_pos c + (zlen a + 2)))) end.
        by rewrite Hu2.
  - split; [by subst fut; destruct t|]. assert (zlen (unparsed c) + zlen t = zlen a + 2) by (rewrite <- zlen_app, <- EL; zlia).
    assert (0 < zlen t) by (destruct t; [done|zlia]). by rewrite (proj2 (Z.ltb_lt _ _)) by lia.
Qed.

Lemma mbulk_decode mb fuel c ph cmd fut Y : max_bulk <= mb -> buf_ok c -> at_phase c ph -> ph_cmd ph = Some cmd ->
  Forall (fun a => zlen a <= max_bulk) cmd -> unparsed c ++ fut = ph_bytes ph ++ Y ->
  (Z.to_nat (multibulklen c) <= fuel)%nat ->
  exists c', mbulk_loop fuel mb c = Some (Break, c') /\ stepped c c' /\
    ((multibulklen c' = 0 /\ argv c' = cmd /\ unparsed c' ++ fut = Y) \/
     (fut <> [] /\ 0 < multibulklen c' /\ exists ph', ph_cmd ph' = Some cmd /\ at_phase c' ph' /\ unparsed c' ++ fut = ph_bytes ph' ++ Y)).
Proof.
  intros Hmb. revert c ph. induction fuel as [|fuel IH]; intros c ph Hb Hph Hcmd Hall E Hf.
  all: assert (Hcase : (exists dn, ph = InArgs dn [] /\ multibulklen c = 0 /\ argv c = cmd) \/
    (0 < multibulklen c /\ exists dn a td, cmd = dn ++ a :: td /\ (ph = InArgs dn (a :: td) \/ ph = InBody dn a td))).
  1, 3: destruct ph as [|dn [|a td]|dn a td]; cbn in Hcmd, Hph; [done|left|right|right]; injection Hcmd as <-; destruct Hph as (Hm & Hbl & Ha);
    [exists dn; rewrite app_nil_r; by split_and!|split; [zlia|exists dn, a, td; auto]..].
  all: destruct Hcase as [(dn & -> & Hm & Ha)|(Hm & dn & a & td & -> & Hcase)].
  1, 3: exists c; cbn [mbulk_loop]; rewrite Hm; split; [done|]; split; [by apply stepped_refl|]; left; by split_and!.
  { lia. }
  cbn [mbulk_loop]. rewrite (proj2 (Z.eqb_neq _ _)) by lia.
  assert (Hla : zlen a <= max_bulk) by (apply Forall_app in Hall as [_ Hall]; by inversion Hall).
  assert (H1 : (fut <> [] /\ (if bulklen c =? -1 then read_bulklen mb c else Some (Next, c)) = Some (Break, c)) \/
    (exists c1, (if bulklen c =? -1 then read_bulklen mb c else Some (Next, c)) = Some (Next, c1) /\ stepped c c1 /\
       at_phase c1 (InBody dn a td) /\ unparsed c1 ++ fut = ph_bytes (InBody dn a td) ++ Y)).
  { destruct Hcase as [-> | ->].
    - destruct Hph as (Hm' & Hbl & Ha). rewrite Hbl. cbn [Z.eqb Pos.eqb]. apply (bulklen_step mb c dn a td fut Y Hb); [done|lia|done].
    - right. destruct Hph as (Hm' & Hbl & Ha). rewrite Hbl. pose_zlen. rewrite (proj2 (Z.eqb_neq _ _)) by lia.
      exists c. split; [done|]. split; [by apply stepped_refl|]. by split_and!. }
  destruct H1 as [(Hfut & ->)|(c1 & -> & Hst1 & Hph1 & E1)].
  { rewrite bind_Some. exists c. split; [done|]. split; [by apply stepped_refl|]. right. split; [done|]. split; [done|].
    exists ph. split; [done|]. by split. }
  rewrite bind_Some. destruct (bulk_step c1 dn a td fut Y (sp_buf _ _ Hst1) Hph1 Hla E1) as [(Hfut & ->)|(c2 & -> & Hst2 & Hph2 & E2)].
  { rewrite bind_Some. exists c1. split; [done|]. split; [done|]. right. split; [done|].
    split; [destruct Hph1 as [-> _]; pose_zlen; lia|]. exists (InBody dn a td). by split_and!. }
  rewrite bind_Some. destruct (IH c2 (InArgs (dn ++ [a]) td)) as (c3 & -> & Hst3 & Hres);
    [apply (sp_buf _ _ Hst2)|done|cbn; by rewrite <- app_assoc|done|done| |].
  { destruct Hph2 as [-> _]. assert (multibulklen c = 1 + zlen td); [|lia].
    destruct Hcase as [-> | ->]; destruct Hph as [-> _]; [by rewrite zlen_cons|done]. }
  exists c3. split; [done|]. split; [|done]. eauto using stepped_trans.
Qed.

(** The command that is being read, and what follows it on the wire. *)
Definition stream_of (ph : phase) (cmd : list bytes) : bytes :=
  match ph with Idle => enc cmd | _ => ph_bytes ph end.

Record at_cmd (c : client) (ph : phase) (cmd : list bytes) (fut Y : bytes) : Prop := {
  ac_buf : buf_ok c;
  ac_phase : at_phase c ph;
  ac_cmd : match ph_cmd ph with Some x => x = cmd /\ 0 < multibulklen c | None => True end;
  ac_stream : unparsed c ++ fut = stream_of ph cmd ++ Y
}.

Lemma stream_pos c ph cmd fut Y : at_cmd c ph cmd fut Y -> 0 < zlen (stream_of ph cmd).
Proof.
  intros [_ Hph Hc _]. destruct ph as [|dn td|dn a td]; cbn [stream_of ph_bytes].
  - unfold enc, enc_line. cbn. zlia.
  - destruct td as [|a td]; [|unfold enc_bulks, enc_bulk, enc_line; cbn; zlia].
    destruct Hph as [Hm _], Hc as [_ Hc]. rewrite Hm in Hc. by change (zlen []) with 0 in Hc.
  - unfold crlf. zlia.
Qed.

Lemma multibulk_decode mb c ph cmd fut Y : max_bulk <= mb -> cmd_ok max_bulk cmd -> at_cmd c ph cmd fut Y ->
  exists ok c', processMultibulkBuffer mb c = Some (ok, c') /\ stepped c c' /\
    if ok then argv c' = cmd /\ unparsed c' ++ fut = Y
    else fut <> [] /\ exists ph', at_cmd c' ph' cmd fut Y.
Proof.
  intros Hmb Hcmd [Hb Hph Hc E]. unfold processMultibulkBuffer. pose proof Hcmd as (Hne & Hargc & Hall).
  assert (Hpos : 0 < zlen cmd) by (destruct cmd; [done|zlia]).
  assert (Hloop : forall c1 ph1, stepped c c1 -> at_phase c1 ph1 -> ph_cmd ph1 = Some cmd -> 0 < multibulklen c1 ->
    unparsed c1 ++ fut = ph_bytes ph1 ++ Y ->
    exists ok c', (if negb (multibulklen c1 >? 0) then None
      else r ← mbulk_loop (Z.to_nat (multibulklen c1)) mb c1;
           let '(f, c) := (r : flow * client) in
           match f with Return ok => Some (ok, c) | _ => Some (multibulklen c =? 0, c) end) = Some (ok, c') /\ stepped c c' /\
    if ok : bool then argv c' = cmd /\ unparsed c' ++ fut = Y else fut <> [] /\ exists ph', at_cmd c' ph' cmd fut Y).
  { intros c1 ph1 Hst Hph1 Hc1 Hm1 E1. rewrite gtb_true by lia. cbn [negb].
    destruct (mbulk_decode mb (Z.to_nat (multibulklen c1)) c1 ph1 cmd fut Y Hmb (sp_buf _ _ Hst) Hph1 Hc1 Hall E1) as (c' & -> & Hst' & Hres); [lia|].
    rewrite bind_Some. exists (multibulklen c' =? 0), c'. split; [done|]. split; [by apply (stepped_trans _ c1)|].
    destruct Hres as [(Hm & Ha & Eu)|(Hfut & Hm & ph' & Hc' & Hph' & E')]; [by rewrite Hm|].
    rewrite (proj2 (Z.eqb_neq _ _)) by lia. split; [done|]. exists ph'. split; [apply (sp_buf _ _ Hst')|done|by rewrite Hc'|].
    destruct ph'; [done|exact E'|exact E']. }
  destruct (ph_cmd ph) as [x|] eqn:Ex.
  - destruct Hc as [-> Hm]. rewrite (proj2 (Z.eqb_neq _ _)) by lia. rewrite bind_Some.
    apply (Hloop c ph); [by apply stepped_refl|done|done|done|]. by destruct ph.
  - destruct ph; [|done..]. destruct Hph as (Hm & Hbl & Ha). rewrite Hm. cbn [Z.eqb]. cbn [stream_of] in E.
    destruct (header_step c cmd fut Y Hb Ha Hcmd Hbl E) as [(Hfut & ->)|(c1 & -> & Hst & Hph1 & E1)].
    + rewrite bind_Some. exists false, c. split; [done|]. split; [by apply stepped_refl|]. split; [done|]. exists Idle. by split.
    + rewrite bind_Some. apply (Hloop c1 (InArgs [] cmd)); [done|done|done| |done]. destruct Hph1 as [-> _]. done.
Qed.
End Decode.

(** ** Executing what was read *)

(** Commands whose effect on the server depends on their arguments alone, and
    that leave the client running. *)
Definition running (c : client) : Prop :=
  has (flags c) (Z.lor CLIENT_BLOCKED (Z.lor CLIENT_CLOSE_AFTER_REPLY CLIENT_CLOSE_ASAP)) = false.

Class Executes (S : Type) `{Server S} (max_bulk : Z) := {
  exec : S -> list (list Z) -> S;
  good : list (list Z) -> Prop;
  ex_command s c : good (argv c) -> running c -> exists c',
    processCommand s c = (exec s (argv c), Some c', true) /\ running c' /\
    querybuf c' = querybuf c /\ qb_pos c' = qb_pos c /\ has (flags c') CLIENT_MASTER = has (flags c) CLIENT_MASTER;
  ex_paused s : clientsArePaused s = false;
  ex_lua s : lua_timedout s = false;
  ex_bulk s : max_bulk <= proto_max_bulk_len s
}.

Lemma has_or f a b : has f (Z.lor a b) = has f a || has f b.
Proof.
  unfold has. rewrite Z.land_lor_distr_r. destruct (Z.land f a =? 0) eqn:Ea, (Z.land f b =? 0) eqn:Eb; cbn [negb orb];
    rewrite ?Z.eqb_eq, ?Z.eqb_neq in *.
  - by rewrite Ea, Eb.
  - apply negb_true_iff, Z.eqb_neq. rewrite Z.lor_eq_0_iff. tauto.
  - apply negb_true_iff, Z.eqb_neq. rewrite Z.lor_eq_0_iff. tauto.
  - apply negb_true_iff, Z.eqb_neq. rewrite Z.lor_eq_0_iff. tauto.
Qed.

Lemma running_split c : running c -> has (flags c) CLIENT_BLOCKED = false /\
  has (flags c) (Z.lor CLIENT_CLOSE_AFTER_REPLY CLIENT_CLOSE_ASAP) = false.
Proof. unfold running. rewrite (has_or _ CLIENT_BLOCKED). apply orb_false_iff. Qed.

Lemma reset_flags c m : Z.land CLIENT_ASKING m = 0 -> Z.land CLIENT_REPLY_SKIP m = 0 -> Z.land CLIENT_REPLY_SKIP_NEXT m = 0 ->
  has (flags (resetClient c)) m = has (flags c) m.
Proof.
  intros H1 H2 H3. unfold resetClient. cbn [flags set_flags set_parse freeClientArgv asking argv].
  match goal with |- has (if ?b then _ else _) _ = _ => destruct b end; rewrite ?has_ldiff, ?has_lor, ?has_ldiff by done;
    match goal with |- has (if ?b then _ else _) _ = _ => destruct b end; by rewrite ?has_ldiff by done.
Qed.

Section Execution.
Context {S : Type} {max_bulk : Z} `{Executes S max_bulk} (Hmax : 0 <= max_bulk < 2 ^ 62).

Definition wire (cmds : list (list bytes)) : bytes := concat (enc <$> cmds).

(** What is left to execute, [fut] being the bytes still to arrive. *)
Record ready (c : client) (cmds : list (list bytes)) (fut : bytes) : Prop := {
  rd_running : running c;
  rd_master : has (flags c) CLIENT_MASTER = false;
  rd_state : match cmds with
             | [] => buf_ok c /\ at_phase c Idle /\ reqtype c = REQ_UNKNOWN /\ unparsed c = [] /\ fut = []
             | cmd :: rest => exists ph, at_cmd c ph cmd fut (wire rest) /\
                 match reqtype c with REQ_MULTIBULK => True | REQ_UNKNOWN => ph = Idle | REQ_INLINE => False end
             end
}.

Lemma ready_buf c cmds fut : ready c cmds fut -> buf_ok c.
Proof. intros [_ _ Hs]. destruct cmds; [tauto|]. destruct Hs as (ph & [] & _). done. Qed.

(** After a command, and a reset: ready for the next. *)
Lemma ready_next c cmds fut : buf_ok c -> running c -> has (flags c) CLIENT_MASTER = false -> unparsed c ++ fut = wire cmds ->
  ready (resetClient c) cmds fut.
Proof.
  intros [H1 H2] Hr Hm E. split; [unfold running; by rewrite reset_flags|by rewrite reset_flags|].
  destruct cmds as [|cmd rest].
  - apply app_nil in E as [E1 E2]. split; [by split|]. by split_and!.
  - exists Idle. split; [|done]. split; [by split|done|done|exact E].
Qed.

Lemma ready_type c cmd rest fut : ready c (cmd :: rest) fut -> qb_pos c < zlen (querybuf c) ->
  exists c1, (match reqtype c with
     | REQ_UNKNOWN => x ← mget (querybuf c ++ [0]) (qb_pos c);
         Some (set_parse c (if x =? 42 then REQ_MULTIBULK else REQ_INLINE) (multibulklen c) (bulklen c) (argv c))
     | _ => Some c
     end) = Some c1 /\ reqtype c1 = REQ_MULTIBULK /\ flags c1 = flags c /\ unparsed c1 = unparsed c /\
     exists ph, at_cmd c1 ph cmd fut (wire rest).
Proof.
  intros [Hr Hm (ph & Hat & Ht)] Hpos. destruct (reqtype c) eqn:Et; [|done|].
  - subst ph. destruct Hat as [Hb Hph Hc E]. pose proof (zlen_unparsed c Hb) as Hl.
    destruct (unparsed c) as [|x U] eqn:EU; [rewrite zlen_nil in Hl; lia|]. cbn [stream_of] in E. unfold enc, enc_line in E.
    cbn [app] in E. injection E as -> E. rewrite get_first, EU by done.
    change (mget ((42 :: U) ++ [0]) 0) with (Some 42). rewrite bind_Some. cbn [Z.eqb Pos.eqb]. eexists; split; [done|]. split; [done|]. split; [done|]. split; [exact EU|].
    exists Idle. destruct Hb. split; [by split|done|done|]. change (unparsed (set_parse c _ _ _ _)) with (unparsed c).
    rewrite EU. cbn. by rewrite E.
  - exists c. split; [done|]. split; [done|]. split; [done|]. split; [done|]. by exists ph.
Qed.

Lemma input_loop_decode fuel s c cmds fut : ready c cmds fut -> Forall (cmd_ok max_bulk) cmds -> Forall (good (S := S)) cmds ->
  zlen (unparsed c) < Z.of_nat fuel ->
  exists now rest c', input_loop fuel s c = Some (foldl exec s now, Some c') /\ cmds = now ++ rest /\ ready c' rest fut /\
    zlen (unparsed c') <= zlen (unparsed c) /\ (fut = [] -> rest = []).
Proof.
  revert s c cmds. induction fuel as [|fuel IH]; intros s c cmds Hrd Hok Hgood Hf; [pose_zlen; lia|].
  cbn [input_loop]. pose proof (ready_buf _ _ _ Hrd) as Hb. pose proof (zlen_unparsed c Hb) as Hl.
  destruct (qb_pos c <? zlen (querybuf c)) eqn:Epos.
  2:{ exists [], cmds, c. split; [done|]. split; [done|]. split; [done|]. split; [lia|]. intros ->.
      destruct cmds as [|cmd rest]; [done|]. destruct Hrd as [_ _ (ph & Hat & _)]. pose proof (stream_pos _ _ _ _ _ Hat).
      destruct Hat as [_ _ _ E]. apply (f_equal zlen) in E. rewrite app_nil_r, zlen_app in E. pose_zlen. lia. }
  destruct (running_split c (rd_running _ _ _ Hrd)) as [Hbl Hcl].
  rewrite ex_paused, ex_lua, Hbl, Hcl, andb_false_r. cbn [andb].
  destruct cmds as [|cmd rest].
  { destruct Hrd as [_ _ (_ & _ & _ & Hu & _)]. rewrite Hu in Hl. rewrite zlen_nil in Hl. lia. }
  destruct (ready_type c cmd rest fut Hrd ltac:(lia)) as (c1 & -> & Ht1 & Hf1 & Hu1 & ph & Hat). rewrite bind_Some, Ht1.
  inversion Hok as [|? ? Hok1 Hok2]; subst. inversion Hgood as [|? ? Hg1 Hg2]; subst.
  destruct (multibulk_decode max_bulk Hmax (proto_max_bulk_len s) c1 ph cmd fut (wire rest) (ex_bulk s) Hok1 Hat) as (ok & c2 & -> & Hst & Hres).
  rewrite bind_Some. assert (Hrun2 : running c2) by (unfold running; rewrite (sp_flags _ _ Hst), Hf1; apply (rd_running _ _ _ Hrd)).
  assert (Hm2 : has (flags c2) CLIENT_MASTER = false) by (rewrite (sp_flags _ _ Hst), Hf1; apply (rd_master _ _ _ Hrd)).
  pose proof (sp_len _ _ Hst) as Hlen. rewrite Hu1 in Hlen. pose proof (sp_buf _ _ Hst) as Hb2. destruct ok; cbn [negb].
  2:{ destruct Hres as [Hfut (ph' & Hat')]. exists [], (cmd :: rest), c2. split; [done|]. split; [done|]. split.
      - split; [done|done|]. exists ph'. split; [done|]. by rewrite (sp_type _ _ Hst), Ht1.
      - split; [done|]. by intros ->. }
  destruct Hres as [Ha2 Eu2]. assert (Hpos : 0 < zlen cmd) by (destruct Hok1 as [? _]; destruct cmd; [done|zlia]).
  rewrite Ha2, (proj2 (Z.eqb_neq _ _)) by lia.
  destruct (ex_command s c2) as (c3 & Ec & Hrun3 & Hq3 & Hp3 & Hm3); [by rewrite Ha2|done|]. rewrite Ec, Ha2.
  assert (Hu3 : unparsed c3 = unparsed c2) by (unfold unparsed; by rewrite Hq3, Hp3).
  assert (Hb3 : buf_ok c3) by (destruct Hb2; split; by rewrite ?Hq3, ?Hp3).
  unfold command_done. rewrite Hm3, Hm2. cbn [andb]. destruct (running_split c3 Hrun3) as [-> _]. cbn [negb orb].
  destruct (IH (exec s cmd) (resetClient c3) rest) as (now & rest' & c' & -> & -> & Hrd' & Hlen' & Hfin); [|done|done| |].
  - apply ready_next; [done|done|by rewrite Hm3|by rewrite Hu3].
  - change (unparsed (resetClient c3)) with (unparsed c3). rewrite Hu3. pose proof (stream_pos _ _ _ _ _ Hat) as Hsp.
    destruct Hat as [_ _ _ E]. rewrite <- Eu2, app_assoc in E. apply app_inv_tail in E. rewrite Hu1 in E.
    apply (f_equal zlen) in E. rewrite zlen_app in E. lia.
  - exists (cmd :: now), rest', c'. split; [done|]. split; [done|]. split; [done|]. split; [|done].
    change (unparsed (resetClient c3)) with (unparsed c3) in Hlen'. rewrite Hu3 in Hlen'. lia.
Qed.

Context (limit : Z) (Hlimit : limit < 2 ^ 62) (Hquery : forall s : S, limit <= client_max_querybuf_len s).

Lemma ready_append c cmds bs fut : ready c cmds (bs ++ fut) -> zlen (querybuf c) + zlen bs <= limit ->
  ready (set_buf c (querybuf c ++ bs) (qb_pos c)) cmds fut /\
  unparsed (set_buf c (querybuf c ++ bs) (qb_pos c)) = unparsed c ++ bs.
Proof.
  intros Hrd Hl. pose proof (ready_buf _ _ _ Hrd) as Hb.
  assert (Hu : unparsed (set_buf c (querybuf c ++ bs) (qb_pos c)) = unparsed c ++ bs).
  { unfold unparsed. cbn. destruct Hb as [Hp _]. rewrite drop_app_le; [done|]. unfold zlen in Hp. lia. }
  assert (Hb' : buf_ok (set_buf c (querybuf c ++ bs) (qb_pos c))) by (destruct Hb; split; cbn; zlia).
  split; [|done]. destruct Hrd as [Hr Hm Hs]. split; [done|done|]. destruct cmds as [|cmd rest].
  - destruct Hs as (_ & Hph & Ht & Eu & [-> ->]%app_nil). split; [done|]. split; [done|]. split; [done|]. by rewrite Hu, Eu.
  - destruct Hs as (ph & [_ Hph Hc E] & Ht). exists ph. split; [|done]. split; [done|by destruct ph|by destruct (ph_cmd ph)|].
    by rewrite Hu, <- app_assoc.
Qed.

Lemma ready_trim c cmds fut : ready c cmds fut -> ready (set_buf c (unparsed c) 0) cmds fut.
Proof.
  intros Hrd. pose proof (ready_buf _ _ _ Hrd) as Hb.
  assert (Hb' : buf_ok (set_buf c (unparsed c) 0)).
  { pose proof (zlen_unparsed c Hb). destruct Hb. pose proof (zlen_nonneg (unparsed c)). split; cbn; lia. }
  destruct Hrd as [Hr Hm Hs]. split; [done|done|]. destruct cmds as [|cmd rest].
  - destruct Hs as (_ & Hph & Ht & Eu & ->). by split_and!.
  - destruct Hs as (ph & [_ Hph Hc E] & Ht). exists ph. split; [|done]. split; [done|by destruct ph|by destruct (ph_cmd ph)|done].
Qed.

Lemma buffer_decode s c cmds fut : ready c cmds fut -> Forall (cmd_ok max_bulk) cmds -> Forall (good (S := S)) cmds ->
  exists now rest c', processInputBuffer s c = Some (foldl exec s now, c') /\ cmds = now ++ rest /\ ready c' rest fut /\
    qb_pos c' = 0 /\ zlen (querybuf c') <= zlen (unparsed c) /\ (fut = [] -> rest = []).
Proof.
  intros Hrd Hok Hgood. unfold processInputBuffer. pose proof (ready_buf _ _ _ Hrd) as Hb.
  destruct (input_loop_decode (Datatypes.S (Z.to_nat (zlen (querybuf c) - qb_pos c))) s c cmds fut Hrd Hok Hgood)
    as (now & rest & c' & -> & -> & Hrd' & Hlen & Hfin).
  { rewrite zlen_unparsed by done. destruct Hb. lia. }
  rewrite bind_Some. pose proof (ready_buf _ _ _ Hrd') as Hb'. exists now, rest. destruct (qb_pos c' =? 0) eqn:E; cbn [negb].
  - exists c'. split; [done|]. split; [done|]. split; [done|]. split; [lia|]. split; [|done].
    rewrite zlen_unparsed in Hlen by done. lia.
  - rewrite sdsrange_drop, bind_Some by (destruct Hb'; lia). eexists. split; [done|]. split; [done|]. split; [by apply ready_trim|].
    by split_and!.
Qed.

Lemma serve_decode s c cmds chunks : ready c cmds (concat chunks) -> qb_pos c = 0 ->
  zlen (querybuf c) + zlen (concat chunks) <= limit ->
  Forall (cmd_ok max_bulk) cmds -> Forall (good (S := S)) cmds -> (chunks = [] -> cmds = []) ->
  exists c', serve s c (RBytes <$> chunks) = Some (foldl exec s cmds, Some c') /\ ready c' [] [].
Proof.
  revert s c cmds. induction chunks as [|bs chunks IH]; intros s c cmds Hrd Hpos Hl Hok Hgood Hnil.
  { rewrite (Hnil eq_refl) in *. by exists c. }
  cbn [concat] in Hrd, Hl. rewrite zlen_app in Hl. rewrite fmap_cons. cbn [serve]. unfold readQueryFromClient.
  rewrite (rd_master _ _ _ Hrd). cbn zeta. pose proof (zlen_nonneg (concat chunks)).
  rewrite gtb_false by (cbn [querybuf set_buf]; rewrite zlen_app; pose proof (Hquery s); lia).
  destruct (ready_append c cmds bs (concat chunks) Hrd ltac:(lia)) as [Hrd1 Hu1].
  unfold processInputBufferAndReplicate. rewrite (rd_master _ _ _ Hrd1). cbn [negb].
  destruct (buffer_decode s _ cmds (concat chunks) Hrd1 Hok Hgood) as (now & rest & c' & -> & -> & Hrd' & Hpos' & Hlen & Hfin).
  rewrite !bind_Some. cbn [fst snd]. rewrite Hu1, zlen_app in Hlen. rewrite zlen_unparsed, Hpos in Hlen by (by eapply ready_buf).
  rewrite foldl_app. apply Forall_app in Hok as [_ Hok]. apply Forall_app in Hgood as [_ Hgood].
  apply IH; [done|done|lia|done|done|]. intros ->. by apply Hfin.
Qed.
End Execution.

(** Writing commands one after the other. *)
Definition cat_all (buf : list Z) (cmds : list (list (list Z))) : option (list Z) :=
  foldl (fun dst cmd => dst ← dst; catAppendOnlyGenericCommand buf dst cmd) (Some []) cmds.

Lemma cat_all_spec max_bulk buf cmds : max_bulk < 2 ^ 62 -> zlen buf = 32 -> Forall (cmd_ok max_bulk) cmds ->
  cat_all buf cmds = Some (wire cmds).
Proof.
  intros Hmax Hb Hok. unfold cat_all. change (Some []) with (Some ([] : list Z)).
  enough (H : forall dst, foldl (fun dst cmd => dst ← dst; catAppendOnlyGenericCommand buf dst cmd) (Some dst) cmds = Some (dst ++ wire cmds))
    by apply H.
  induction Hok as [|cmd cmds (Hne & Hl & Ha) _ IH]; intros dst; cbn [foldl]; [by rewrite app_nil_r|].
  rewrite bind_Some, cat_spec.
  - rewrite IH. unfold wire. rewrite fmap_cons. cbn [concat]. by rewrite <- app_assoc.
  - done.
  - lia.
  - eapply Forall_impl; [|exact Ha]. cbn. lia.
Qed.

(** [C1] What one server writes, another executes.  The wire format that
    [catAppendOnlyGenericCommand] produces (for the append only file and the
    replication stream) is decoded by [readQueryFromClient] into the same
    commands, in the same order, each executed once, however the bytes are cut
    into reads: commands split in the middle of a length, of an argument or of a
    line end are completed by the next read.  At the end nothing is left over. *)
Theorem wire_roundtrip {S : Type} {max_bulk : Z} `{Executes S max_bulk} (s : S) (cmds : list (list (list Z)))
    (buf : list Z) (chunks : list (list Z)) (fl limit : Z)
    (Hmax : 0 <= max_bulk < 2 ^ 62) (Hlimit : limit < 2 ^ 62) (Hquery : forall s : S, limit <= client_max_querybuf_len s)
    (Hbuf : zlen buf = 32) (Hrun : running (createClient fl)) (Hmaster : has fl CLIENT_MASTER = false)
    (Hok : Forall (cmd_ok max_bulk) cmds) (Hgood : Forall (good (S := S)) cmds)
    (Hchunks : cat_all buf cmds = Some (concat chunks)) (Hlen : zlen (concat chunks) <= limit) :
  exists c', serve s (createClient fl) (RBytes <$> chunks) = Some (foldl exec s cmds, Some c') /\
    running c' /\ unparsed c' = [] /\ argv c' = [] /\ multibulklen c' = 0.
Proof.
  rewrite (cat_all_spec max_bulk) in Hchunks by (done || lia). injection Hchunks as Hw.
  assert (Hb : buf_ok (createClient fl)) by by split.
  destruct (serve_decode Hmax limit Hlimit Hquery s (createClient fl) cmds chunks) as (c' & E & [Hr _ (_ & Hph & _ & Hu & _)]).
  - split; [done|done|]. destruct cmds as [|cmd rest]; [by rewrite <- Hw|].
    exists Idle. split; [|done]. by split.
  - done.
  - exact Hlen.
  - done.
  - done.
  - intros ->. destruct cmds as [|cmd rest]; [done|]. by cbn in Hw.
  - exists c'. destruct Hph as (Hm & _ & Ha). by split_and!.
Qed.

#[global] Program Instance LogExecutes : Executes log (512 * 1024 * 1024) := {
  exec s cmd := s ++ [cmd];
  good cmd := cmd <> [bytes_of "quit"]
}.
Next Obligation.
  intros s c Hc Hr. exists c. cbn. by rewrite bool_decide_false by done.
Qed.
Next Obligation. done. Qed.
Next Obligation. done. Qed.
Next Obligation. done. Qed.

Lemma wire_roundtrip_witness : exists c',
  serve [] (createClient 0)
    (RBytes <$> [bytes_of "*2"; [13]; [10] ++ bytes_of "$3" ++ crlf ++ bytes_of "GE"; bytes_of "T" ++ crlf ++ bytes_of "$1" ++ crlf ++ [0; 13]; [10]]) =
    Some ([[bytes_of "GET"; [0]]], Some c') /\ unparsed c' = [].
Proof.
  destruct (wire_roundtrip (S := log) [] [[bytes_of "GET"; [0]]] (replicate 32 7)
    [bytes_of "*2"; [13]; [10] ++ bytes_of "$3" ++ crlf ++ bytes_of "GE"; bytes_of "T" ++ crlf ++ bytes_of "$1" ++ crlf ++ [0; 13]; [10]]
    0 1000) as (c' & E & _ & Hu & _).
  - lia.
  - lia.
  - intros. by vm_compute.
  - reflexivity.
  - reflexivity.
  - reflexivity.
  - constructor; [|constructor]. split; [done|]. split; [by vm_compute|]. repeat constructor; by vm_compute.
  - by repeat constructor.
  - reflexivity.
  - by vm_compute.
  - exists c'. cbn [foldl] in E. split; [exact E|exact Hu].
Defined.
