(* ===== verification/Zskiplist.v ===== *)
(** * Skip lists of sorted sets (t_zset.c)

    Nodes live in a heap; a node has as many levels as its list of forward
    pointers and spans.  Scores are doubles that are not NaN: a type with
    decidable equality and a strict order, whose laws are [ScoreLaws] ([-0] and
    [+0] are one score).  [random()] is the list of the values it returns, the
    memory of a new node is an argument, and the dictionary of the sorted set is
    a state with its deletion operation. *)
From Stdlib Require Import ZArith Lia String.
From stdpp Require Import base numbers list option gmap infinite.
From S2P Require Import Prelude Sds.

(** Comparison of scores. *)
Class Score (D : Type) := {
  score_eq_dec :: EqDecision D;
  slt : D -> D -> bool;
  score0 : D
}.

Definition sle {D} `{Score D} (a b : D) : bool := slt a b || bool_decide (a = b).

Definition ZSKIPLIST_MAXLEVEL : Z := 64.

Abbreviation addr := positive.
Abbreviation sds := (list Z).

(** ** Bounds of ranges of elements *)

(** A bound is a string, or one of the two shared strings that are told by
    their address; those have a content too. *)
Inductive lexbound := LexMin | LexMax | LexStr (s : sds).

Definition lexcontent (b : lexbound) : sds :=
  match b with
  | LexMin => bytes_of "minstring"%string
  | LexMax => bytes_of "maxstring"%string
  | LexStr s => s
  end.

Record zlexrangespec := { lmin : lexbound; lmax : lexbound; lminex : bool; lmaxex : bool }.

(** [zslParseLexRangeItem]: the bound and whether it is excluded; [None] is
    [C_ERR].  The byte after the string is 0. *)
Definition zslParseLexRangeItem (item : sds) : option (lexbound * bool) :=
  let c0 := nth 0 (item ++ [0]) 0 in
  let c1 := nth 1 (item ++ [0]) 0 in
  if c0 =? 43 (* + *) then if negb (c1 =? 0) then None else Some (LexMax, false)
  else if c0 =? 45 (* - *) then if negb (c1 =? 0) then None else Some (LexMin, false)
  else if c0 =? 40 (* open *) then Some (LexStr (drop 1 item), true)
  else if c0 =? 91 (* bracket *) then Some (LexStr (drop 1 item), false)
  else None.

(** An object with an integer encoding is [inl]. *)
Definition zslParseLexRange (min max : Z + sds) : option zlexrangespec :=
  match min, max with
  | inr min, inr max =>
      lo ← zslParseLexRangeItem min;
      hi ← zslParseLexRangeItem max;
      Some {| lmin := fst lo; lmax := fst hi; lminex := snd lo; lmaxex := snd hi |}
  | _, _ => None
  end.

(** [a == b] compares addresses: strings other than the shared ones are compared
    by content in both cases. *)
Definition sdscmplex (a b : lexbound) : Z :=
  match a, b with
  | LexMin, LexMin | LexMax, LexMax => 0
  | LexMin, _ | _, LexMax => -1
  | LexMax, _ | _, LexMin => 1
  | LexStr a, LexStr b => sdscmp a b
  end.

Definition zslLexValueGteMin (value : sds) (spec : zlexrangespec) : bool :=
  if lminex spec then 0 <? sdscmplex (LexStr value) (lmin spec) else 0 <=? sdscmplex (LexStr value) (lmin spec).

Definition zslLexValueLteMax (value : sds) (spec : zlexrangespec) : bool :=
  if lmaxex spec then sdscmplex (LexStr value) (lmax spec) <? 0 else sdscmplex (LexStr value) (lmax spec) <=? 0.

Section Zskiplist.
Context {D : Type} `{Score D} {dict : Type} (dictDelete : dict -> sds -> dict).

Record zskiplistNode := {
  ele : option sds;
  score : D;
  backward : option addr;
  level : list (option addr * Z)
}.

Record zskiplist := {
  zsl_header : addr;
  zsl_tail : option addr;
  zsl_length : Z;
  zsl_level : Z
}.

Abbreviation heap := (gmap addr zskiplistNode).
Implicit Types (h : heap) (zsl : zskiplist) (x : addr).

(** [x->level[i]] and its update. *)
Definition lev h x (i : nat) : option (option addr * Z) := nd ← h !! x; level nd !! i.

Definition set_lev h x (i : nat) (l : option addr * Z) : option heap :=
  nd ← h !! x; _ ← level nd !! i;
  Some (<[x := {| ele := ele nd; score := score nd; backward := backward nd; level := <[i := l]> (level nd) |}]> h).

Definition set_backward h x (b : option addr) : option heap :=
  nd ← h !! x;
  Some (<[x := {| ele := ele nd; score := score nd; backward := b; level := level nd |}]> h).

(** [zslCreateNode]: the levels hold what was in memory. *)
Definition zslCreateNode (junk : nat -> option addr * Z) h (lv : nat) (s : D) (e : option sds) (b : option addr)
    : addr * heap :=
  let x := fresh (dom h) in
  (x, <[x := {| ele := e; score := s; backward := b; level := junk <$> seq 0 lv |}]> h).

Definition zslCreate (h : heap) : heap * zskiplist :=
  let '(x, h) := zslCreateNode (fun _ => (None, 0)) h (Z.to_nat ZSKIPLIST_MAXLEVEL) score0 None None in
  (h, {| zsl_header := x; zsl_tail := None; zsl_length := 0; zsl_level := 1 |}).

(** [rnd] are the values of [random()]; [ZSKIPLIST_P * 0xFFFF] is 16383.75. *)
Fixpoint random_level_loop (rnd : list Z) (lv : Z) : option Z :=
  match rnd with
  | [] => None
  | r :: rnd => if Z.land r 65535 <=? 16383 then random_level_loop rnd (lv + 1) else Some lv
  end.

Definition zslRandomLevel (rnd : list Z) : option Z :=
  lv ← random_level_loop rnd 1;
  Some (if lv <? ZSKIPLIST_MAXLEVEL then lv else ZSKIPLIST_MAXLEVEL).

(** ** Walking down the levels *)

(** [while (x->level[i].forward && cond)]: [cond] gets the next node and the
    rank it has, [w] is the width of the rank. *)
Fixpoint zsl_walk (fuel : nat) (w : Z) (cond : zskiplistNode -> Z -> bool) h x (i : nat) (rank : Z) : option (addr * Z) :=
  match fuel with
  | O => None
  | S fuel =>
      l ← lev h x i;
      match fst l with
      | None => Some (x, rank)
      | Some f =>
          nd ← h !! f;
          if cond nd (uwrap w (rank + snd l)) then zsl_walk fuel w cond h f i (uwrap w (rank + snd l))
          else Some (x, rank)
      end
  end.

(** [for (i = zsl->level-1; i >= 0; i--)]: [update] and [rank], level 0 first. *)
Fixpoint zsl_search (i : nat) (fuel : nat) (w : Z) (cond : zskiplistNode -> Z -> bool) h x (rank : Z)
    (acc : list (addr * Z)) : option (list (addr * Z)) :=
  match i with
  | O => Some acc
  | S i =>
      r ← zsl_walk fuel w cond h x i rank;
      zsl_search i fuel w cond h (fst r) (snd r) (r :: acc)
  end.

Definition zsl_fuel zsl : nat := S (Z.to_nat (zsl_length zsl)).

Definition zsl_find (w : Z) (cond : zskiplistNode -> Z -> bool) h zsl : option (list (addr * Z)) :=
  zsl_search (Z.to_nat (zsl_level zsl)) (zsl_fuel zsl) w cond h (zsl_header zsl) 0 [].

(** The order of the list; [ele] of a node in the list is not NULL. *)
Definition node_cmp (e : option sds) (key : sds) : Z := match e with Some e => sdscmp e key | None => 0 end.

Definition before_key (s : D) (key : sds) (nd : zskiplistNode) (_ : Z) : bool :=
  slt (score nd) s || (bool_decide (score nd = s) && (node_cmp (ele nd) key <? 0)).

Definition upto_key (s : D) (key : sds) (nd : zskiplistNode) (_ : Z) : bool :=
  slt (score nd) s || (bool_decide (score nd = s) && (node_cmp (ele nd) key <=? 0)).

(** ** Insertion *)

(** The loop over the new levels: [rank[i] = 0], the header is updated. *)
Fixpoint insert_grow (n : nat) (i : nat) h (header : addr) (len : Z) : option heap :=
  match n with
  | O => Some h
  | S n =>
      l ← lev h header i;
      h ← set_lev h header i (fst l, len);
      insert_grow n (S i) h header len
  end.

(** [for (i = 0; i < level; i++)], from [i] on. *)
Fixpoint insert_link (n : nat) (i : nat) (upd : list (addr * Z)) (rank0 : Z) h x : option heap :=
  match n with
  | O => Some h
  | S n =>
      u ← upd !! i;
      l ← lev h (fst u) i;
      h ← set_lev h x i (fst l, u64 (snd l - u32 (rank0 - snd u)));
      h ← set_lev h (fst u) i (Some x, u32 (u32 (rank0 - snd u) + 1));
      insert_link n (S i) upd rank0 h x
  end.

(** [for (i = level; i < zsl->level; i++) update[i]->level[i].span++;] *)
Fixpoint insert_untouched (n : nat) (i : nat) (upd : list (addr * Z)) h : option heap :=
  match n with
  | O => Some h
  | S n =>
      u ← upd !! i;
      l ← lev h (fst u) i;
      h ← set_lev h (fst u) i (fst l, u64 (snd l + 1));
      insert_untouched n (S i) upd h
  end.

Definition zslInsert (rnd : list Z) (junk : nat -> option addr * Z) h zsl (s : D) (key : sds)
    : option (heap * zskiplist * addr) :=
  upd ← zsl_find 32 (before_key s key) h zsl;
  lv ← zslRandomLevel rnd;
  let old := zsl_level zsl in
  r ← (if lv >? old then
         h ← insert_grow (Z.to_nat (lv - old)) (Z.to_nat old) h (zsl_header zsl) (zsl_length zsl);
         Some (h, upd ++ replicate (Z.to_nat (lv - old)) (zsl_header zsl, 0), lv)
       else Some (h, upd, old));
  let '(h, upd, zlev) := (r : heap * list (addr * Z) * Z) in
  u0 ← upd !! 0%nat;
  let '(x, h) := zslCreateNode junk h (Z.to_nat lv) s (Some key) None in
  h ← insert_link (Z.to_nat lv) 0 upd (snd u0) h x;
  h ← insert_untouched (Z.to_nat (zlev - lv)) (Z.to_nat lv) upd h;
  h ← set_backward h x (if decide (fst u0 = zsl_header zsl) then None else Some (fst u0));
  l ← lev h x 0;
  r ← (match fst l with
       | Some f => h ← set_backward h f (Some x); Some (h, zsl_tail zsl)
       | None => Some (h, Some x)
       end);
  let '(h, tl) := (r : heap * option addr) in
  Some (h, {| zsl_header := zsl_header zsl; zsl_tail := tl; zsl_length := u64 (zsl_length zsl + 1); zsl_level := zlev |}, x).

(** ** Deletion *)

Fixpoint delete_unlink (n : nat) (i : nat) (upd : list (addr * Z)) h x : option heap :=
  match n with
  | O => Some h
  | S n =>
      u ← upd !! i;
      l ← lev h (fst u) i;
      h ← (if decide (fst l = Some x) then
             lx ← lev h x i;
             set_lev h (fst u) i (fst lx, u64 (snd l + u64 (snd lx - 1)))
           else set_lev h (fst u) i (fst l, u64 (snd l - 1)));
      delete_unlink n (S i) upd h x
  end.

(** [while(zsl->level > 1 && header->level[zsl->level-1].forward == NULL)] *)
Fixpoint shrink_level (n : nat) h (header : addr) : option Z :=
  match n with
  | O => Some 0
  | S n =>
      if (1 <? Z.of_nat (S n)) then
        l ← lev h header n;
        match fst l with
        | None => shrink_level n h header
        | Some _ => Some (Z.of_nat (S n))
        end
      else Some (Z.of_nat (S n))
  end.

Definition zslDeleteNode h zsl x (upd : list (addr * Z)) : option (heap * zskiplist) :=
  h ← delete_unlink (Z.to_nat (zsl_level zsl)) 0 upd h x;
  l ← lev h x 0;
  nd ← h !! x;
  r ← (match fst l with
       | Some f => h ← set_backward h f (backward nd); Some (h, zsl_tail zsl)
       | None => Some (h, backward nd)
       end);
  let '(h, tl) := (r : heap * option addr) in
  lv ← shrink_level (Z.to_nat (zsl_level zsl)) h (zsl_header zsl);
  Some (h, {| zsl_header := zsl_header zsl; zsl_tail := tl; zsl_length := u64 (zsl_length zsl - 1); zsl_level := lv |}).

(** [zslFreeNode] *)
Definition zslFreeNode h x : heap := delete x h.

(** The node after the last [update], if it is the element. *)
Definition zsl_candidate h (upd : list (addr * Z)) : option (option addr) :=
  u0 ← upd !! 0%nat; l ← lev h (fst u0) 0; Some (fst l).

(** [node == NULL]: the node is freed; the result is the answer. *)
Definition zslDelete h zsl (s : D) (key : sds) : option (heap * zskiplist * bool) :=
  upd ← zsl_find 64 (before_key s key) h zsl;
  c ← zsl_candidate h upd;
  match c with
  | None => Some (h, zsl, false)
  | Some x =>
      nd ← h !! x;
      if bool_decide (s = score nd) && (node_cmp (ele nd) key =? 0) then
        r ← zslDeleteNode h zsl x upd;
        Some (zslFreeNode (fst r) x, snd r, true)
      else Some (h, zsl, false)
  end.

Definition zslUpdateScore (rnd : list Z) (junk : nat -> option addr * Z) h zsl (curscore : D) (key : sds) (newscore : D)
    : option (heap * zskiplist * addr) :=
  upd ← zsl_find 64 (before_key curscore key) h zsl;
  c ← zsl_candidate h upd;
  x ← c;
  nd ← h !! x;
  if negb (bool_decide (curscore = score nd) && (node_cmp (ele nd) key =? 0)) then None
  else
    okb ← (match backward nd with
           | None => Some true
           | Some b => bn ← h !! b; Some (slt (score bn) newscore)
           end);
    l ← lev h x 0;
    okf ← (if okb : bool then
             match fst l with
             | None => Some true
             | Some f => fn ← h !! f; Some (slt newscore (score fn))
             end
           else Some false);
    if okf : bool then
      Some (<[x := {| ele := ele nd; score := newscore; backward := backward nd; level := level nd |}]> h, zsl, x)
    else
      r ← zslDeleteNode h zsl x upd;
      e ← ele nd;
      r ← zslInsert rnd junk (fst r) (snd r) newscore e;
      let '(h, zsl, n) := (r : heap * zskiplist * addr) in
      Some (zslFreeNode h x, zsl, n).

(** ** Ranks *)

Fixpoint getrank_loop (i : nat) (fuel : nat) h x (rank : Z) (s : D) (key : sds) : option Z :=
  match i with
  | O => Some 0
  | S i =>
      r ← zsl_walk fuel 64 (upto_key s key) h x i rank;
      nd ← h !! fst r;
      if match ele nd with Some e => sdscmp e key =? 0 | None => false end then Some (snd r)
      else getrank_loop i fuel h (fst r) (snd r) s key
  end.

Definition zslGetRank h zsl (s : D) (key : sds) : option Z :=
  getrank_loop (Z.to_nat (zsl_level zsl)) (zsl_fuel zsl) h (zsl_header zsl) 0 s key.

Fixpoint byrank_loop (i : nat) (fuel : nat) h x (traversed : Z) (rank : Z) : option (option addr) :=
  match i with
  | O => Some None
  | S i =>
      r ← zsl_walk fuel 64 (fun _ q => q <=? rank) h x i traversed;
      if snd r =? rank then Some (Some (fst r))
      else byrank_loop i fuel h (fst r) (snd r) rank
  end.

Definition zslGetElementByRank h zsl (rank : Z) : option (option addr) :=
  byrank_loop (Z.to_nat (zsl_level zsl)) (zsl_fuel zsl) h (zsl_header zsl) 0 rank.

(** ** Ranges of scores *)

Record zrangespec := { rmin : D; rmax : D; minex : bool; maxex : bool }.

Definition zslValueGteMin (v : D) (spec : zrangespec) : bool := if minex spec then slt (rmin spec) v else sle (rmin spec) v.
Definition zslValueLteMax (v : D) (spec : zrangespec) : bool := if maxex spec then slt v (rmax spec) else sle v (rmax spec).

Definition zslIsInRange h zsl (range : zrangespec) : option bool :=
  if slt (rmax range) (rmin range) || (bool_decide (rmin range = rmax range) && (minex range || maxex range)) then Some false
  else
    match zsl_tail zsl with
    | None => Some false
    | Some t =>
        tn ← h !! t;
        if negb (zslValueGteMin (score tn) range) then Some false
        else
          l ← lev h (zsl_header zsl) 0;
          match fst l with
          | None => Some false
          | Some f => fn ← h !! f; Some (zslValueLteMax (score fn) range)
          end
    end.

Definition zslFirstInRange h zsl (range : zrangespec) : option (option addr) :=
  b ← zslIsInRange h zsl range;
  if negb b then Some None
  else
    upd ← zsl_find 64 (fun nd _ => negb (zslValueGteMin (score nd) range)) h zsl;
    c ← zsl_candidate h upd;
    x ← c;
    nd ← h !! x;
    if negb (zslValueLteMax (score nd) range) then Some None else Some (Some x).

Definition zslLastInRange h zsl (range : zrangespec) : option (option addr) :=
  b ← zslIsInRange h zsl range;
  if negb b then Some None
  else
    upd ← zsl_find 64 (fun nd _ => zslValueLteMax (score nd) range) h zsl;
    u0 ← upd !! 0%nat;
    nd ← h !! fst u0;
    if negb (zslValueGteMin (score nd) range) then Some None else Some (Some (fst u0)).

(** ** Deleting ranges *)

(** The loops that delete while [stop] does not hold of the node and its rank. *)
Fixpoint delete_while (fuel : nat) (inside : zskiplistNode -> Z -> bool) h zsl (d : dict) (upd : list (addr * Z))
    (xo : option addr) (traversed removed : Z) : option (heap * zskiplist * dict * Z) :=
  match xo with
  | None => Some (h, zsl, d, removed)
  | Some x =>
      nd ← h !! x;
      if inside nd traversed then
        match fuel with
        | O => None
        | S fuel =>
            l ← lev h x 0;
            r ← zslDeleteNode h zsl x upd;
            e ← ele nd;
            delete_while fuel inside (zslFreeNode (fst r) x) (snd r) (dictDelete d e) upd (fst l) (u64 (traversed + 1)) (u64 (removed + 1))
        end
      else Some (h, zsl, d, removed)
  end.

Definition zslDeleteRangeByScore h zsl (range : zrangespec) (d : dict) : option (heap * zskiplist * dict * Z) :=
  upd ← zsl_find 64 (fun nd _ => if minex range then sle (score nd) (rmin range) else slt (score nd) (rmin range)) h zsl;
  c ← zsl_candidate h upd;
  delete_while (zsl_fuel zsl) (fun nd _ => if maxex range then slt (score nd) (rmax range) else sle (score nd) (rmax range))
    h zsl d upd c 0 0.

Definition zslDeleteRangeByRank h zsl (start end_ : Z) (d : dict) : option (heap * zskiplist * dict * Z) :=
  upd ← zsl_find 64 (fun _ q => q <? start) h zsl;
  u0 ← upd !! 0%nat;
  c ← zsl_candidate h upd;
  delete_while (zsl_fuel zsl) (fun _ t => t <=? end_) h zsl d upd c (u64 (snd u0 + 1)) 0.
(** [zslFree]: the header, then every node, each read before it is freed. *)
Fixpoint free_loop (fuel : nat) h (xo : option addr) : option heap :=
  match xo with
  | None => Some h
  | Some x =>
      match fuel with
      | O => None
      | S fuel => l ← lev h x 0; free_loop fuel (zslFreeNode h x) (fst l)
      end
  end.

Definition zslFree h zsl : option heap :=
  l ← lev h (zsl_header zsl) 0;
  free_loop (zsl_fuel zsl) (zslFreeNode h (zsl_header zsl)) (fst l).

(** ** Ranges of elements *)

Definition zslIsInLexRange h zsl (range : zlexrangespec) : option bool :=
  if (1 <? sdscmplex (lmin range) (lmax range))
     || ((sdscmp (lexcontent (lmin range)) (lexcontent (lmax range)) =? 0) && (lminex range || lmaxex range)) then Some false
  else
    match zsl_tail zsl with
    | None => Some false
    | Some t =>
        tn ← h !! t; te ← ele tn;
        if negb (zslLexValueGteMin te range) then Some false
        else
          l ← lev h (zsl_header zsl) 0;
          match fst l with
          | None => Some false
          | Some f => fn ← h !! f; fe ← ele fn; Some (zslLexValueLteMax fe range)
          end
    end.

(** The test of a node by its element. *)
Definition on_ele (f : sds -> bool) (nd : zskiplistNode) : bool := match ele nd with Some e => f e | None => false end.

Definition zslFirstInLexRange h zsl (range : zlexrangespec) : option (option addr) :=
  b ← zslIsInLexRange h zsl range;
  if negb b then Some None
  else
    upd ← zsl_find 64 (fun nd _ => on_ele (fun e => negb (zslLexValueGteMin e range)) nd) h zsl;
    c ← zsl_candidate h upd;
    x ← c;
    nd ← h !! x; e ← ele nd;
    if negb (zslLexValueLteMax e range) then Some None else Some (Some x).

Definition zslLastInLexRange h zsl (range : zlexrangespec) : option (option addr) :=
  b ← zslIsInLexRange h zsl range;
  if negb b then Some None
  else
    upd ← zsl_find 64 (fun nd _ => on_ele (fun e => zslLexValueLteMax e range) nd) h zsl;
    u0 ← upd !! 0%nat;
    nd ← h !! fst u0; e ← ele nd;
    if negb (zslLexValueGteMin e range) then Some None else Some (Some (fst u0)).

Definition zslDeleteRangeByLex h zsl (range : zlexrangespec) (d : dict) : option (heap * zskiplist * dict * Z) :=
  upd ← zsl_find 64 (fun nd _ => on_ele (fun e => negb (zslLexValueGteMin e range)) nd) h zsl;
  c ← zsl_candidate h upd;
  delete_while (zsl_fuel zsl) (fun nd _ => on_ele (fun e => zslLexValueLteMax e range) nd) h zsl d upd c 0 0.
End Zskiplist.

Arguments zskiplistNode : clear implicits.
Arguments zrangespec : clear implicits.

(** The laws of the comparison of numbers. *)
Class ScoreLaws (D : Type) `{Score D} := {
  slt_irrefl a : slt a a = false;
  slt_trans a b c : slt a b = true -> slt b c = true -> slt a c = true;
  slt_total a b : slt a b = true \/ a = b \/ slt b a = true
}.

#[global] Instance ZScore : Score Z := {| slt := Z.ltb; score0 := 0 |}.

#[global] Instance ZScoreLaws : ScoreLaws Z.
Proof.
  split; cbn.
  - apply Z.ltb_irrefl.
  - intros a b c ?%Z.ltb_lt ?%Z.ltb_lt. apply Z.ltb_lt. lia.
  - intros a b. destruct (Z.lt_total a b) as [?|[?|?]]; [left; by apply Z.ltb_lt|auto|right; right; by apply Z.ltb_lt].
Qed.
