(* ===== verification/ZskiplistShape.v ===== *)
(** * The heap of a skip list

    Two views of the heap: [lev], the level entries of the nodes, and [attr], the
    other fields.  [rep h zl ns]: the nodes [ns], the header first, are linked on
    the [zl] levels in use: entry [i] of a node names the next node of more than
    [i] levels and the distance to it.  The lemmas say what a search finds and
    what linking or unlinking one node does to the entries before it. *)
From Stdlib Require Import ZArith Lia String.
From stdpp Require Import base numbers list option gmap infinite.
From S2P Require Import Prelude Sds Zskiplist.

Section Shape.
Context {D : Type} `{Score D}.

Record snode := { na : addr; ns : D; ne : option sds; nh : nat }.

Abbreviation heap := (gmap addr (zskiplistNode D)).
Implicit Types (h : heap) (x a : addr) (M P R B C : list snode) (y n : snode) (i j k zl : nat).

(** ** Reading and writing the heap *)

Definition attr h x : option (option sds * D * option addr * nat) :=
  (fun nd => (ele nd, score nd, backward nd, length (level nd))) <$> h !! x.

Lemma lev_Some h x i l : lev h x i = Some l <-> exists nd, h !! x = Some nd /\ level nd !! i = Some l.
Proof. unfold lev. split; [intros (nd & ? & ?)%option.bind_Some; eauto|]. intros (nd & -> & Hl). exact Hl. Qed.

Lemma attr_Some h x q : attr h x = Some q <-> exists nd, h !! x = Some nd /\ q = (ele nd, score nd, backward nd, length (level nd)).
Proof. unfold attr. rewrite fmap_Some. done. Qed.

Lemma lev_is_Some h x i e s b k : attr h x = Some (e, s, b, k) -> (i < k)%nat -> exists l, lev h x i = Some l.
Proof.
  intros (nd & Hx & [= -> -> -> ->])%attr_Some Hi. unfold lev. rewrite Hx. cbn [mbind option_bind]. by apply lookup_lt_is_Some.
Qed.

(** One entry changes. *)
Lemma set_lev_ok h x i l l0 : lev h x i = Some l0 ->
  exists h', set_lev h x i l = Some h' /\ (forall a, attr h' a = attr h a) /\
    lev h' x i = Some l /\ (forall a k, (a, k) <> (x, i) -> lev h' a k = lev h a k).
Proof.
  intros (nd & Hx & Hl)%lev_Some. unfold set_lev. rewrite Hx. cbn [mbind option_bind]. rewrite Hl. cbn [mbind option_bind].
  eexists; split; [done|]. split_and!.
  - intros a. unfold attr. destruct (decide (a = x)) as [->|Ha].
    + rewrite lookup_insert_eq, Hx. cbn. by rewrite length_insert.
    + by rewrite lookup_insert_ne.
  - apply lev_Some. eexists. rewrite lookup_insert_eq. split; [done|]. cbn [level].
    apply list_lookup_insert_eq. by apply lookup_lt_Some in Hl.
  - intros a k Hk. unfold lev. destruct (decide (a = x)) as [->|Ha].
    + rewrite lookup_insert_eq, Hx. cbn. rewrite list_lookup_insert_ne; [done|]. congruence.
    + by rewrite lookup_insert_ne.
Qed.

Lemma set_backward_ok h x b e s b0 k : attr h x = Some (e, s, b0, k) ->
  exists h', set_backward h x b = Some h' /\ (forall a i, lev h' a i = lev h a i) /\
    attr h' x = Some (e, s, b, k) /\ (forall a, a <> x -> attr h' a = attr h a).
Proof.
  intros (nd & Hx & [= -> -> -> ->])%attr_Some. unfold set_backward. rewrite Hx. cbn [mbind option_bind].
  eexists; split; [done|]. split_and!.
  - intros a i. unfold lev. destruct (decide (a = x)) as [->|Ha]; [|by rewrite lookup_insert_ne].
    by rewrite lookup_insert_eq, Hx.
  - unfold attr. by rewrite lookup_insert_eq.
  - intros a Ha. unfold attr. by rewrite lookup_insert_ne.
Qed.

Lemma create_ok junk h k (s : D) e b x h' : zslCreateNode junk h k s e b = (x, h') ->
  attr h x = None /\ attr h' x = Some (e, s, b, k) /\ (forall i, (i < k)%nat -> exists l, lev h' x i = Some l) /\
  (forall a, a <> x -> attr h' a = attr h a) /\ (forall a i, a <> x -> lev h' a i = lev h a i).
Proof.
  unfold zslCreateNode. intros [= <- <-]. assert (Hn : h !! fresh (dom h) = None) by apply not_elem_of_dom, is_fresh.
  assert (Ha : attr (<[fresh (dom h) := {| ele := e; score := s; backward := b; level := junk <$> seq 0 k |}]> h) (fresh (dom h))
    = Some (e, s, b, k)).
  { unfold attr. rewrite lookup_insert_eq. cbn. by rewrite length_fmap, length_seq. }
  split_and!.
  - unfold attr. by rewrite Hn.
  - done.
  - intros i Hi. by eapply lev_is_Some.
  - intros a Hne. unfold attr. by rewrite lookup_insert_ne.
  - intros a i Hne. unfold lev. by rewrite lookup_insert_ne.
Qed.

Lemma free_attr h x a : a <> x -> attr (zslFreeNode h x) a = attr h a.
Proof. intros. unfold attr, zslFreeNode. by rewrite lookup_delete_ne. Qed.

Lemma free_lev h x a i : a <> x -> lev (zslFreeNode h x) a i = lev h a i.
Proof. intros. unfold lev, zslFreeNode. by rewrite lookup_delete_ne. Qed.

(** ** The shape *)

(** The first node of more than [i] levels and the distance to it; the distance
    to the end when there is none. *)
Fixpoint fwd i R : option addr * Z :=
  match R with
  | [] => (None, 0)
  | n :: R => if decide (i < nh n)%nat then (Some (na n), 1) else (fst (fwd i R), 1 + snd (fwd i R))
  end.

Definition low i R : Prop := Forall (fun n => (nh n <= i)%nat) R.

(** The backward pointer of the node after [P], which starts with the header. *)
Definition bk P : option addr := match P with [] | [_] => None | _ => na <$> last P end.

Definition rep h zl M : Prop := forall P y R, M = P ++ y :: R ->
  attr h (na y) = Some (ne y, ns y, bk P, nh y) /\
  (forall i, (i < nh y)%nat -> (i < zl)%nat -> lev h (na y) i = Some (fwd i R)).

Lemma fwd_low i R : low i R -> fwd i R = (None, zlen R).
Proof.
  induction 1 as [|n R Hn _ IH]; [done|]. cbn [fwd]. rewrite decide_False, IH by lia. by rewrite zlen_cons.
Qed.

Lemma fwd_low_app i R C : low i R -> fwd i (R ++ C) = (fst (fwd i C), zlen R + snd (fwd i C)).
Proof.
  induction 1 as [|n R Hn _ IH]; cbn [app fwd].
  - rewrite zlen_nil. by destruct (fwd i C).
  - rewrite decide_False, IH by lia. rewrite zlen_cons. cbn [fst snd]. f_equal. lia.
Qed.

Lemma fwd_hit i R n C : low i R -> (i < nh n)%nat -> fwd i (R ++ n :: C) = (Some (na n), zlen R + 1).
Proof. intros. rewrite fwd_low_app by done. cbn [fwd]. by rewrite decide_True. Qed.

(** What comes after a node of more than [i] levels does not matter before it. *)
Lemma fwd_stop i R n C C' : (i < nh n)%nat -> fwd i (R ++ n :: C) = fwd i (R ++ n :: C').
Proof.
  intros Hn. induction R as [|m R IH]; cbn [app fwd]; [by rewrite !decide_True|]. by rewrite IH.
Qed.

Lemma fwd_bounds i R : 0 <= snd (fwd i R) <= zlen R.
Proof.
  induction R as [|n R IH]; cbn [fwd]; [by change (zlen (@nil snode)) with 0|]. rewrite zlen_cons.
  destruct (decide _); cbn [snd]; pose_zlen; lia.
Qed.

Lemma fwd_in i R a : fst (fwd i R) = Some a -> a ∈ na <$> R.
Proof.
  induction R as [|n R IH]; cbn [fwd]; [done|]. rewrite fmap_cons. destruct (decide _); cbn [fst].
  - intros [= ->]. by left.
  - intros E. right. by apply IH.
Qed.

(** A list from its first node of more than [i] levels. *)
Lemma low_split i R : low i R \/ exists R1 n R2, R = R1 ++ n :: R2 /\ low i R1 /\ (i < nh n)%nat.
Proof.
  induction R as [|m R IH]; [left; constructor|]. destruct (decide (i < nh m)%nat) as [Hm|Hm].
  - right. exists [], m, R. split_and!; [done|constructor|done].
  - destruct IH as [IH|(R1 & n & R2 & -> & Hl & Hn)]; [left; constructor; [lia|done]|].
    right. exists (m :: R1), n, R2. split_and!; [done|constructor; [lia|done]|done].
Qed.

(** ... and from its last one. *)
Lemma last_split i y R : (i < nh y)%nat -> exists P n T, y :: R = P ++ n :: T /\ low i T /\ (i < nh n)%nat.
Proof.
  intros Hy. induction R as [|m R IH] using rev_ind; [exists [], y, []; split_and!; [done|constructor|done]|].
  destruct (decide (i < nh m)%nat) as [Hm|Hm].
  - exists (y :: R), m, []. split_and!; [done|constructor|done].
  - destruct IH as (P & n & T & E & HT & Hn). exists P, n, (T ++ [m]). rewrite app_comm_cons, E, <- app_assoc.
    split_and!; [done| |done]. apply Forall_app. split; [done|]. constructor; [lia|constructor].
Qed.

(** Two positions of one list. *)
Lemma cut_cases P y R P' y' R' : P ++ y :: R = P' ++ y' :: R' ->
  (P = P' /\ y = y' /\ R = R') \/ (exists U, R = U ++ y' :: R' /\ P' = P ++ y :: U) \/
  (exists U, R' = U ++ y :: R /\ P = P' ++ y' :: U).
Proof.
  revert P'. induction P as [|p P IH]; intros [|p' P']; cbn [app]; intros [= -> E].
  - auto.
  - right; left. exists P'. by rewrite E.
  - right; right. exists P. by rewrite E.
  - destruct (IH _ E) as [(-> & -> & ->)|[(U & -> & ->)|(U & -> & ->)]]; [auto|right; left|right; right]; by exists U.
Qed.

(** A position before, at or after a node. *)
Lemma app_cut_cases B n C P y R : B ++ n :: C = P ++ y :: R ->
  (exists T, B = P ++ y :: T /\ R = T ++ n :: C) \/ (B = P /\ n = y /\ C = R) \/
  (exists T, C = T ++ y :: R /\ P = B ++ n :: T).
Proof. intros [(-> & -> & ->)|[(U & -> & ->)|(U & -> & ->)]]%cut_cases; eauto 7. Qed.

(** ** The node a search stops at *)

(** Of the node [c] with rank [r] and the nodes after it, the last one of more
    than [i] levels and its rank. *)
Fixpoint pred_at i c (r pos : Z) R : addr * Z :=
  match R with
  | [] => (c, r)
  | n :: R => if decide (i < nh n)%nat then pred_at i (na n) (pos + 1) (pos + 1) R else pred_at i c r (pos + 1) R
  end.

Lemma pred_low i c r pos T : low i T -> pred_at i c r pos T = (c, r).
Proof. intros HT. revert pos. induction HT as [|n T Hn _ IH]; intros pos; [done|]. cbn [pred_at]. by rewrite decide_False by lia. Qed.

Lemma pred_app i c r pos R n T : (i < nh n)%nat ->
  pred_at i c r pos (R ++ n :: T) = pred_at i (na n) (pos + zlen R + 1) (pos + zlen R + 1) T.
Proof.
  intros Hn. revert c r pos. induction R as [|m R IH]; intros c r pos; cbn [app pred_at].
  - rewrite decide_True, zlen_nil by done. do 2 f_equal; lia.
  - rewrite zlen_cons. destruct (decide _); rewrite IH; do 2 f_equal; lia.
Qed.

(** From the header or from a node on the way. *)
Lemma pred_from i hd B P y R : hd :: B = P ++ y :: R -> (i < nh y)%nat ->
  pred_at i (na hd) 0 0 B = pred_at i (na y) (zlen P) (zlen P) R.
Proof.
  destruct P as [|p P]; cbn [app]; intros [= -> ->] Hy; [done|].
  rewrite pred_app by done. rewrite zlen_cons. f_equal; lia.
Qed.

Lemma pred_split i hd B : (i < nh hd)%nat -> exists P n T,
  hd :: B = P ++ n :: T /\ low i T /\ (i < nh n)%nat /\ pred_at i (na hd) 0 0 B = (na n, zlen P).
Proof.
  intros Hh. destruct (last_split i hd B Hh) as (P & n & T & E & HT & Hn). exists P, n, T. split_and!; [done..|].
  by rewrite (pred_from _ _ _ _ _ _ E Hn), pred_low.
Qed.

Definition updates hd B (k : nat) : list (addr * Z) := (fun i => pred_at i (na hd) 0 0 B) <$> seq 0 k.

Lemma updates_lookup hd B k i : (i < k)%nat -> updates hd B k !! i = Some (pred_at i (na hd) 0 0 B).
Proof. intros. unfold updates. by rewrite list_lookup_fmap, lookup_seq_lt. Qed.

Lemma updates_S hd B k : updates hd B (S k) = updates hd B k ++ [pred_at k (na hd) 0 0 B].
Proof. unfold updates. by rewrite seq_S, fmap_app. Qed.

Lemma rep_node h zl M P y R : rep h zl M -> M = P ++ y :: R ->
  exists nd, h !! na y = Some nd /\ ele nd = ne y /\ score nd = ns y /\ backward nd = bk P.
Proof. intros Hr E. destruct (Hr _ _ _ E) as [(nd & Hx & [= -> -> -> _])%attr_Some _]. by exists nd. Qed.

Lemma rep_lev h zl M P y R i : rep h zl M -> M = P ++ y :: R -> (i < nh y)%nat -> (i < zl)%nat ->
  lev h (na y) i = Some (fwd i R).
Proof. intros Hr E. by apply (Hr _ _ _ E). Qed.

(** ** Searching

    The condition of the walk holds of the nodes of [B] and of no node of [C]. *)
Section Search.
Context (h : heap) (zl : nat) (hd : snode) (B C : list snode) (w : Z) (cond : zskiplistNode D -> Z -> bool).
Hypothesis Hrep : rep h zl (hd :: B ++ C).
Hypothesis Hw : zlen (hd :: B ++ C) < 2 ^ w.
Hypothesis Hcond : forall P n R nd, B ++ C = P ++ n :: R -> h !! na n = Some nd -> ele nd = ne n -> score nd = ns n ->
  cond nd (zlen P + 1) = bool_decide (zlen P < zlen B).

Lemma walk_ok B' : forall P y i fuel, hd :: B = P ++ y :: B' -> (i < nh y)%nat -> (i < zl)%nat -> (length B' < fuel)%nat ->
  zsl_walk fuel w cond h (na y) i (zlen P) = Some (pred_at i (na y) (zlen P) (zlen P) B').
Proof.
  induction B' as [B' IH] using (induction_ltof1 _ length). intros P y i [|fuel] E Hy Hi Hf; [lia|]. cbn [zsl_walk].
  assert (EM : hd :: B ++ C = P ++ y :: (B' ++ C)) by (rewrite app_comm_cons, E, <- app_assoc; done).
  rewrite (rep_lev _ _ _ _ _ _ _ Hrep EM Hy Hi). cbn [mbind option_bind].
  assert (Hstep : forall Q n R nd, B ++ C = Q ++ n :: R -> h !! na n = Some nd ->
    cond nd (uwrap w (zlen Q + 1)) = bool_decide (zlen Q < zlen B)).
  { intros Q n R nd EQ Hn. rewrite uwrap_small.
    - destruct (rep_node _ _ _ (hd :: Q) n R Hrep) as (nd' & Hn' & ? & ? & _); [by rewrite EQ|]. simplify_eq. by eapply Hcond.
    - rewrite EQ in Hw. revert Hw. zlia. }
  assert (EP : zlen P + zlen B' = zlen B) by (apply (f_equal zlen) in E; zlia).
  destruct (low_split i B') as [Hl|(R1 & n & R2 & -> & Hl & Hn)].
  - rewrite pred_low by done. destruct (low_split i C) as [Hc|(C1 & n & C2 & EC & Hl' & Hn)].
    + rewrite fwd_low by (by apply Forall_app). done.
    + rewrite EC, app_assoc, fwd_hit by (done || by apply Forall_app). cbn [fst snd].
      assert (EQ : B ++ C = (B ++ C1) ++ n :: C2) by (by rewrite EC, <- app_assoc).
      destruct (rep_node _ _ _ (hd :: B ++ C1) n C2 Hrep) as (nd & Hnd & _ & _ & _); [by rewrite EQ|].
      rewrite Hnd. cbn [mbind option_bind]. specialize (Hstep _ _ _ _ EQ Hnd).
      replace (zlen P + (zlen (B' ++ C1) + 1)) with (zlen (B ++ C1) + 1) by zlia.
      rewrite Hstep, bool_decide_eq_false_2 by zlia. done.
  - rewrite <- app_assoc. cbn [app]. rewrite fwd_hit by done. cbn [fst snd].
    assert (HQ : exists Q, P ++ y :: R1 = hd :: Q) by (destruct P; cbn [app] in *; injection E as -> _; eauto).
    destruct HQ as [Q HQ]. assert (EB : B = Q ++ n :: R2).
    { rewrite app_comm_cons, app_assoc, HQ in E. cbn [app] in E. by injection E. }
    assert (EQ : B ++ C = Q ++ n :: (R2 ++ C)) by (rewrite EB, <- app_assoc; done).
    assert (EL : zlen Q = zlen P + zlen R1) by (apply (f_equal zlen) in HQ; zlia).
    destruct (rep_node _ _ _ (hd :: Q) n (R2 ++ C) Hrep) as (nd & Hnd & _ & _ & _); [by rewrite EQ|].
    rewrite Hnd. cbn [mbind option_bind]. specialize (Hstep _ _ _ _ EQ Hnd).
    rewrite Z.add_assoc, <- EL, Hstep, bool_decide_eq_true_2 by (rewrite EB; zlia).
    rewrite pred_app, <- EL by done.
    rewrite uwrap_small by (rewrite EQ in Hw; revert Hw; zlia).
    replace (zlen Q + 1) with (zlen (hd :: Q)) by zlia. rewrite length_app in Hf. cbn in Hf.
    apply IH; [|by rewrite EB|done..|lia]. unfold ltof. rewrite length_app. cbn. lia.
Qed.

(** One level: the walk ends at the last node of more than [k] levels. *)
Lemma level_ok k P y B' fuel : hd :: B = P ++ y :: B' -> (k < nh y)%nat -> (k < zl)%nat -> (length B < fuel)%nat ->
  exists P1 n T, hd :: B = P1 ++ n :: T /\ low k T /\ (k < nh n)%nat /\ pred_at k (na hd) 0 0 B = (na n, zlen P1) /\
    zsl_walk fuel w cond h (na y) k (zlen P) = Some (na n, zlen P1).
Proof.
  intros E Hy Hk Hf.
  assert (HB : (length B' <= length B)%nat) by (apply (f_equal length) in E; rewrite length_app in E; cbn in E; lia).
  destruct (last_split k y B') as (P1 & n & T & E1 & HT & Hn); [lia|].
  assert (E2 : hd :: B = (P ++ P1) ++ n :: T) by (by rewrite E, E1, <- app_assoc).
  assert (Hp : pred_at k (na hd) 0 0 B = (na n, zlen (P ++ P1))).
  { rewrite (pred_from k hd B _ _ _ E2 Hn). by apply pred_low. }
  exists (P ++ P1), n, T. split_and!; try done. rewrite (walk_ok B' _ _ _ _ E) by lia. by rewrite <- (pred_from k hd B _ _ _ E), Hp by lia.
Qed.

Lemma search_ok k : forall P y B' fuel acc, hd :: B = P ++ y :: B' -> (k <= nh y)%nat -> (k <= zl)%nat -> (length B < fuel)%nat ->
  zsl_search k fuel w cond h (na y) (zlen P) acc = Some (updates hd B k ++ acc).
Proof.
  induction k as [|k IH]; intros P y B' fuel acc E Hy Hk Hf; [done|]. cbn [zsl_search].
  destruct (level_ok k P y B' fuel E) as (P1 & n & T & E1 & HT & Hn & Hp & ->); [lia..|]. cbn [mbind option_bind fst snd].
  rewrite updates_S, <- app_assoc, Hp. cbn [app]. apply (IH _ _ _ _ _ E1); lia.
Qed.

Lemma find_ok zsl : zl = Z.to_nat (zsl_level zsl) -> (zl <= nh hd)%nat -> zsl_header zsl = na hd ->
  zsl_length zsl = zlen (B ++ C) -> zsl_find w cond h zsl = Some (updates hd B zl).
Proof.
  intros Hz Hhd Hh Hl. unfold zsl_find. rewrite Hh, <- Hz, <- (app_nil_r (updates hd B zl)).
  apply (search_ok zl [] hd B); [done|done|lia|]. unfold zsl_fuel. rewrite Hl. unfold zlen. rewrite length_app. lia.
Qed.
End Search.

(** ** Changing the entries before a position

    [mid h zl B f]: the entries of the nodes [B] at level [i] are as if the nodes
    [f i] came after [B]. *)
Definition mid h zl B (f : nat -> list snode) : Prop := forall P y R, B = P ++ y :: R ->
  forall i, (i < nh y)%nat -> (i < zl)%nat -> lev h (na y) i = Some (fwd i (R ++ f i)).

(** The heap outside the first [zl] entries of the nodes [B] and of [x]. *)
Definition same_but zl B (x : option addr) h h' : Prop :=
  (forall a, attr h' a = attr h a) /\
  (forall a i, a ∉ na <$> B \/ (zl <= i)%nat -> x <> Some a -> lev h' a i = lev h a i).

Lemma same_but_trans zl B (x : option addr) h1 h2 h3 : same_but zl B x h1 h2 -> same_but zl B x h2 h3 -> same_but zl B x h1 h3.
Proof.
  intros [Ha Hl] [Ha' Hl']. split; [intros a; by rewrite Ha'|]. intros a i H1 H2. by rewrite Hl', Hl.
Qed.

Lemma mid_ext h zl B f g : (forall i, (i < zl)%nat -> f i = g i) -> mid h zl B f -> mid h zl B g.
Proof. intros Hfg Hm P y R E i Hy Hi. rewrite <- Hfg by done. by eapply Hm. Qed.

Lemma mid_frame h h' zl B f : (forall a i, a ∈ na <$> B -> lev h' a i = lev h a i) -> mid h zl B f -> mid h' zl B f.
Proof.
  intros Hf Hm P y R E i Hy Hi. rewrite Hf; [by eapply Hm|]. rewrite E, fmap_app. apply elem_of_app. right. by left.
Qed.

(** Setting the entry of the last node of more than [j] levels does it for
    level [j]. *)
Lemma mid_step h zl B f j P y T C l : NoDup (na <$> B) -> mid h zl B f -> (j < zl)%nat ->
  B = P ++ y :: T -> low j T -> (j < nh y)%nat -> l = fwd j (T ++ C) ->
  exists h', set_lev h (na y) j l = Some h' /\ mid h' zl B (fun i => if decide (i = j) then C else f i) /\
    (forall x : option addr, same_but zl B x h h').
Proof.
  intros Hnd Hm Hj E HT Hy ->. pose proof (Hm _ _ _ E j Hy Hj) as Hl.
  destruct (set_lev_ok _ _ _ (fwd j (T ++ C)) _ Hl) as (h' & Hs & Ha & Hx & Ho).
  exists h'. split; [done|]. split.
  2:{ intros x. split; [done|]. intros a i Hin _. apply Ho. intros [= -> ->]. destruct Hin as [Hin|Hin]; [|lia]. apply Hin.
      rewrite E, fmap_app. apply elem_of_app. right. by left. }
  intros P' y' R' E' i Hy' Hi. destruct (decide (i = j)) as [->|Hij]; [|rewrite Ho; [by eapply Hm|congruence]].
  rewrite E in E'. destruct (cut_cases _ _ _ _ _ _ E') as [(-> & -> & ->)|[(U & -> & ->)|(U & -> & ->)]].
  - exact Hx.
  - apply Forall_app in HT as [_ HT]. inversion HT. lia.
  - rewrite Ho.
    + rewrite (Hm P' y' (U ++ y :: T)), <- !app_assoc by (by rewrite ?E, <- ?app_assoc). cbn [app]. f_equal. by apply fwd_stop.
    + intros [= Hna]. rewrite E, fmap_app, fmap_app in Hnd. cbn in Hnd. rewrite Hna in Hnd.
      apply NoDup_app in Hnd as (_ & Hd & _). apply (Hd (na y)); [apply elem_of_app; right; by left|by left].
Qed.

(** *** Linking *)

Section Link.
Context (hd : snode) (B C : list snode) (N : snode) (zl : nat) (upd : list (addr * Z)).
Hypothesis Hnd : NoDup (na <$> hd :: B ++ N :: C).
Hypothesis Hhd : (zl <= nh hd)%nat.
Hypothesis HN : (nh N <= zl)%nat.
Hypothesis Hlen : zlen (B ++ C) < 2 ^ 32 - 1.
Hypothesis Hupd : forall i, (i < zl)%nat -> upd !! i = Some (pred_at i (na hd) 0 0 B).

Lemma nodup_before : NoDup (na <$> hd :: B).
Proof. rewrite app_comm_cons, fmap_app in Hnd. by apply NoDup_app in Hnd as (? & _ & _). Qed.

Lemma node_not_before : na N ∉ na <$> hd :: B.
Proof.
  rewrite app_comm_cons, fmap_app in Hnd. apply NoDup_app in Hnd as (_ & Hd & _). intros Hin. apply (Hd _ Hin). by left.
Qed.

Lemma node_not_after : na N ∉ na <$> C.
Proof.
  rewrite app_comm_cons, fmap_app in Hnd. apply NoDup_app in Hnd as (_ & _ & Hd). rewrite fmap_cons in Hd. by apply NoDup_cons in Hd as [? _].
Qed.

(** The node a search left at level [j]. *)
Lemma upd_at j : (j < zl)%nat -> exists P y T, hd :: B = P ++ y :: T /\ low j T /\ (j < nh y)%nat /\
  upd !! j = Some (na y, zlen P) /\ zlen P + zlen T = zlen B.
Proof.
  intros Hj. destruct (pred_split j hd B) as (P & y & T & E & HT & Hy & Hp); [lia|]. exists P, y, T. split_and!; [done..| |].
  - by rewrite Hupd, Hp.
  - apply (f_equal zlen) in E. revert E. zlia.
Qed.

Lemma link_ok k : forall j h, (j + k = nh N)%nat -> mid h zl (hd :: B) (fun i => if decide (i < j)%nat then N :: C else C) ->
  (forall i, (i < nh N)%nat -> exists l, lev h (na N) i = Some l) ->
  (forall i, (i < j)%nat -> lev h (na N) i = Some (fwd i C)) ->
  exists h', insert_link k j upd (zlen B) h (na N) = Some h' /\ same_but zl (hd :: B) (Some (na N)) h h' /\
    mid h' zl (hd :: B) (fun i => if decide (i < nh N)%nat then N :: C else C) /\
    (forall i, (i < nh N)%nat -> lev h' (na N) i = Some (fwd i C)).
Proof.
  induction k as [|k IH]; intros j h Hjk Hm Hlv Hdone; cbn [insert_link].
  { exists h. assert (j = nh N) as <- by lia. split_and!; [done|done|done|done]. }
  destruct (upd_at j) as (P & y & T & E & HT & Hy & Hu & Hz); [lia|]. rewrite Hu. cbn [mbind option_bind fst snd].
  pose proof (Hm _ _ _ E j Hy ltac:(lia)) as Hl. cbv beta in Hl. rewrite decide_False in Hl by lia.
  rewrite Hl. cbn [mbind option_bind]. rewrite fwd_low_app by done. cbn [fst snd].
  pose proof (fwd_bounds j C) as Hfb. rewrite zlen_app in Hlen.
  assert (Hu32 : u32 (zlen B - zlen P) = zlen T) by (rewrite uwrap_small by (pose_zlen; lia); lia).
  rewrite Hu32. replace (zlen T + (fwd j C).2 - zlen T) with ((fwd j C).2) by lia.
  assert (u64 (fwd j C).2 = (fwd j C).2) as -> by (apply uwrap_small; pose_zlen; lia).
  rewrite <- surjective_pairing. destruct (Hlv j ltac:(lia)) as [l0 Hl0].
  destruct (set_lev_ok _ _ _ (fwd j C) _ Hl0) as (h1 & -> & Ha1 & Hx1 & Ho1). cbn [mbind option_bind].
  assert (Hm1 : mid h1 zl (hd :: B) (fun i => if decide (i < j)%nat then N :: C else C)).
  { apply (mid_frame h); [|done]. intros a i Hin. apply Ho1. intros [= -> ->]. by apply node_not_before. }
  destruct (mid_step h1 zl _ _ j P y T (N :: C) (Some (na N), u32 (zlen T + 1)) nodup_before Hm1) as (h2 & Hs2 & Hm2 & Hsame2);
    [lia|done..| |].
  { rewrite fwd_hit by (done || lia). f_equal. apply uwrap_small. pose_zlen. lia. }
  rewrite Hs2. cbn [mbind option_bind].
  assert (Hf2 : forall i, lev h2 (na N) i = lev h1 (na N) i).
  { intros i. apply (Hsame2 None); [left; apply node_not_before|done]. }
  destruct (IH (S j) h2) as (h' & -> & Hsame & Hm' & Hx'); [lia| | | |].
  - eapply mid_ext; [|exact Hm2]. intros i Hi. cbv beta. repeat destruct (decide _); done || lia.
  - intros i Hi. rewrite Hf2. destruct (decide (i = j)) as [->|]; [by eexists|]. rewrite Ho1 by congruence. by apply Hlv.
  - intros i Hi. rewrite Hf2. destruct (decide (i = j)) as [->|]; [done|]. rewrite Ho1 by congruence. apply Hdone. lia.
  - exists h'. split; [done|]. split; [|done]. eapply same_but_trans; [|exact Hsame]. eapply same_but_trans; [|apply Hsame2].
    split; [done|]. intros a i _ Hne. apply Ho1. congruence.
Qed.

Lemma untouched_ok k : forall j h, (j + k = zl)%nat -> (nh N <= j)%nat ->
  mid h zl (hd :: B) (fun i => if decide (i < j)%nat then N :: C else C) ->
  exists h', insert_untouched k j upd h = Some h' /\ same_but zl (hd :: B) None h h' /\ mid h' zl (hd :: B) (fun _ => N :: C).
Proof.
  induction k as [|k IH]; intros j h Hjk HNj Hm; cbn [insert_untouched].
  { exists h. split_and!; [done|done|]. eapply mid_ext; [|exact Hm]. intros i Hi. cbv beta. by rewrite decide_True by lia. }
  destruct (upd_at j) as (P & y & T & E & HT & Hy & Hu & Hz); [lia|]. rewrite Hu. cbn [mbind option_bind fst snd].
  pose proof (Hm _ _ _ E j Hy ltac:(lia)) as Hl. cbv beta in Hl. rewrite decide_False in Hl by lia.
  rewrite Hl. cbn [mbind option_bind]. rewrite fwd_low_app by done. cbn [fst snd].
  pose proof (fwd_bounds j C) as Hfb. rewrite zlen_app in Hlen.
  destruct (mid_step h zl _ _ j P y T (N :: C) ((fwd j C).1, u64 (zlen T + (fwd j C).2 + 1)) nodup_before Hm) as (h2 & Hs2 & Hm2 & Hsame2);
    [lia|done..| |].
  { rewrite fwd_low_app by done. cbn [fwd]. rewrite decide_False by lia. cbn [fst snd]. f_equal.
    rewrite uwrap_small by (pose_zlen; lia). lia. }
  rewrite Hs2. cbn [mbind option_bind].
  destruct (IH (S j) h2) as (h' & -> & Hsame & Hm'); [lia..| |].
  - eapply mid_ext; [|exact Hm2]. intros i Hi. cbv beta. repeat destruct (decide _); done || lia.
  - exists h'. split; [done|]. split; [|done]. eapply same_but_trans; [apply Hsame2|exact Hsame].
Qed.

(** *** Unlinking *)

Lemma unlink_ok k : forall j h, (j + k = zl)%nat -> mid h zl (hd :: B) (fun i => if decide (i < j)%nat then C else N :: C) ->
  (forall i, (i < nh N)%nat -> lev h (na N) i = Some (fwd i C)) ->
  exists h', delete_unlink k j upd h (na N) = Some h' /\ same_but zl (hd :: B) None h h' /\ mid h' zl (hd :: B) (fun _ => C).
Proof.
  induction k as [|k IH]; intros j h Hjk Hm Hlv; cbn [delete_unlink].
  { exists h. split_and!; [done|done|]. eapply mid_ext; [|exact Hm]. intros i Hi. cbv beta. by rewrite decide_True by lia. }
  destruct (upd_at j) as (P & y & T & E & HT & Hy & Hu & Hz); [lia|]. rewrite Hu. cbn [mbind option_bind fst snd].
  pose proof (Hm _ _ _ E j Hy ltac:(lia)) as Hl. cbv beta in Hl. rewrite decide_False in Hl by lia.
  rewrite Hl. cbn [mbind option_bind].
  pose proof (fwd_bounds j C) as Hfb. rewrite zlen_app in Hlen.
  assert (Hset : exists h2, (if decide ((fwd j (T ++ N :: C)).1 = Some (na N))
      then lx ← lev h (na N) j; set_lev h (na y) j (lx.1, u64 ((fwd j (T ++ N :: C)).2 + u64 (lx.2 - 1)))
      else set_lev h (na y) j ((fwd j (T ++ N :: C)).1, u64 ((fwd j (T ++ N :: C)).2 - 1))) = Some h2 /\
      mid h2 zl (hd :: B) (fun i => if decide (i = j) then C else if decide (i < j)%nat then C else N :: C) /\
      forall x : option addr, same_but zl (hd :: B) x h h2).
  { destruct (decide (j < nh N)%nat) as [HN'|HN'].
    - rewrite fwd_hit by done. cbn [fst snd]. rewrite decide_True, Hlv by done. cbn [mbind option_bind].
      destruct (mid_step h zl _ _ j P y T C ((fwd j C).1, u64 (zlen T + 1 + u64 ((fwd j C).2 - 1))) nodup_before Hm)
        as (h2 & Hs2 & Hm2 & Hsame2); [lia|done..| |by exists h2].
      rewrite fwd_low_app by done. f_equal. unfold uwrap. rewrite Zplus_mod_idemp_r.
      rewrite Z.mod_small by (pose_zlen; lia). lia.
    - rewrite fwd_low_app by done. cbn [fwd]. rewrite (decide_False (P := (j < nh N)%nat)) by done. cbn [fst snd].
      rewrite decide_False by (intros Hc%fwd_in; by apply node_not_after).
      destruct (mid_step h zl _ _ j P y T C ((fwd j C).1, u64 (zlen T + (1 + (fwd j C).2) - 1)) nodup_before Hm)
        as (h2 & Hs2 & Hm2 & Hsame2); [lia|done..| |by exists h2].
      rewrite fwd_low_app by done. f_equal. rewrite uwrap_small by (pose_zlen; lia). lia. }
  destruct Hset as (h2 & -> & Hm2 & Hsame2). cbn [mbind option_bind].
  destruct (IH (S j) h2) as (h' & -> & Hsame & Hm'); [lia..| | |].
  - eapply mid_ext; [|exact Hm2]. intros i Hi. cbv beta. repeat destruct (decide _); done || lia.
  - intros i Hi. destruct (Hsame2 None) as [_ Hs]. rewrite Hs; [by apply Hlv|left; apply node_not_before|done].
  - exists h'. split; [done|]. split; [|done]. eapply same_but_trans; [apply Hsame2|exact Hsame].
Qed.
End Link.
End Shape.
