(* ===== verification/ZskiplistRefine.v ===== *)
(** * Skip lists represent sorted sequences

    [wf h zsl hd L]: the skip list consists of the header [hd] and the nodes [L].
    Inserting and unlinking a node keep it, whatever the levels [random()]
    chooses. *)
From Stdlib Require Import ZArith Lia String.
From stdpp Require Import base numbers list option gmap infinite.
From S2P Require Import Prelude Sds SdsRefine Zskiplist ZskiplistShape.

Section Refine.
Context {D : Type} `{Score D}.

Abbreviation heap := (gmap addr (zskiplistNode D)).
Abbreviation snode := (@snode D).
Implicit Types (h : heap) (zsl : zskiplist) (x a : addr) (L A B C T : list snode) (y n hd N c : snode) (i j k zl : nat).

(** ** The nodes after a prefix *)

(** [part h zl A X]: the nodes [X], which come after the nodes [A]. *)
Definition part h zl A (X : list snode) : Prop := forall T y R, X = T ++ y :: R ->
  attr h (na y) = Some (ne y, ns y, bk (A ++ T), nh y) /\
  (forall i, (i < nh y)%nat -> (i < zl)%nat -> lev h (na y) i = Some (fwd i R)).

Definition attrs h A : Prop := forall P y T, A = P ++ y :: T -> attr h (na y) = Some (ne y, ns y, bk P, nh y).

Lemma rep_part h zl L : rep h zl L <-> part h zl [] L.
Proof. done. Qed.

Lemma part_app h zl A B C : part h zl A (B ++ C) <->
  (forall T y R, B = T ++ y :: R -> attr h (na y) = Some (ne y, ns y, bk (A ++ T), nh y)) /\
  mid h zl B (fun _ => C) /\ part h zl (A ++ B) C.
Proof.
  split.
  - intros Hp. split_and!.
    + intros T y R ->. apply (Hp T y (R ++ C)). by rewrite <- app_assoc.
    + intros P y R -> i Hy Hi. apply (Hp P y (R ++ C)); [by rewrite <- app_assoc|done..].
    + intros T y R ->. rewrite <- app_assoc. apply (Hp (B ++ T)); by rewrite <- app_assoc.
  - intros (Ha & Hm & Hc) T y R E. destruct B as [|b B].
    { cbn [app] in E. rewrite app_nil_r in Hc. by apply Hc. }
    destruct C as [|c C].
    { rewrite app_nil_r in E. split; [by eapply Ha|]. intros i Hy Hi. rewrite (Hm _ _ _ E i Hy Hi). by rewrite app_nil_r. }
    destruct (app_cut_cases _ _ _ _ _ _ E) as [(U & EB & ->)|[(<- & -> & ->)|(U & -> & ->)]].
    + split; [by eapply Ha|]. intros i Hy Hi. by apply (Hm T y U EB).
    + destruct (Hc [] y R eq_refl) as [H1 H2]. rewrite app_nil_r in H1. done.
    + destruct (Hc (c :: U) y R eq_refl) as [H1 H2]. rewrite <- app_assoc in H1. done.
Qed.

Lemma rep_app h zl A C : rep h zl (A ++ C) <-> attrs h A /\ mid h zl A (fun _ => C) /\ part h zl A C.
Proof. rewrite rep_part, part_app. done. Qed.

Lemma part_cons h zl A n C : part h zl A (n :: C) <->
  attr h (na n) = Some (ne n, ns n, bk A, nh n) /\
  (forall i, (i < nh n)%nat -> (i < zl)%nat -> lev h (na n) i = Some (fwd i C)) /\ part h zl (A ++ [n]) C.
Proof.
  split.
  - intros Hp. destruct (Hp [] n C eq_refl) as [H1 H2]. rewrite app_nil_r in H1. split_and!; [done..|].
    intros T y R ->. rewrite <- app_assoc. by apply (Hp (n :: T)).
  - intros (Ha & Hl & Hc) [|t T] y R; cbn [app]; intros [= -> ->]; [by rewrite app_nil_r|].
    destruct (Hc T y R eq_refl) as [H1 H2]. rewrite <- app_assoc in H1. done.
Qed.

Lemma attrs_snoc h A N : attrs h A -> attr h (na N) = Some (ne N, ns N, bk A, nh N) -> attrs h (A ++ [N]).
Proof.
  intros Ha HN P y T E. destruct (app_cut_cases _ _ _ _ _ _ E) as [(U & EA & _)|[(<- & <- & _)|(U & EA & _)]].
  - by eapply Ha.
  - done.
  - by destruct U.
Qed.

Lemma mid_snoc h zl A N C : mid h zl A (fun _ => N :: C) ->
  (forall i, (i < nh N)%nat -> (i < zl)%nat -> lev h (na N) i = Some (fwd i C)) -> mid h zl (A ++ [N]) (fun _ => C).
Proof.
  intros Hm HN P y T E i Hy Hi. destruct (app_cut_cases _ _ _ _ _ _ E) as [(U & EA & ->)|[(<- & <- & <-)|(U & EA & _)]].
  - rewrite <- app_assoc. by eapply Hm.
  - by apply HN.
  - by destruct U.
Qed.

Lemma bk_last A n T : A <> [] -> bk (A ++ n :: T) = na <$> last (n :: T).
Proof. destruct A as [|a [|b A]]; [done|done|]. intros _. cbn [app bk]. by rewrite !app_comm_cons, last_app_cons. Qed.

Lemma part_frame h h' zl A C : (forall a, a ∈ na <$> C -> attr h' a = attr h a /\ forall i, lev h' a i = lev h a i) ->
  part h zl A C -> part h' zl A C.
Proof.
  intros Hf Hp T y R E. destruct (Hf (na y)) as [Ha Hl]; [rewrite E, fmap_app; apply elem_of_app; right; by left|].
  rewrite Ha. destruct (Hp T y R E) as [H1 H2]. split; [done|]. intros i Hy Hi. rewrite Hl. by apply H2.
Qed.

(** The first node of [C] gets another predecessor. *)
Lemma part_back h h' zl A A' c C : A <> [] -> A' <> [] -> na c ∉ na <$> C -> part h zl A (c :: C) ->
  (forall a i, lev h' a i = lev h a i) -> (forall a, a <> na c -> attr h' a = attr h a) ->
  attr h' (na c) = Some (ne c, ns c, bk A', nh c) -> part h' zl A' (c :: C).
Proof.
  intros HA HA' Hnd (H1 & H2 & H3)%part_cons Hl Ha Hc. apply part_cons. split_and!; [done| |].
  - intros i Hy Hi. rewrite Hl. by apply H2.
  - intros T y R E. destruct (H3 T y R E) as [H4 H5]. rewrite Ha.
    + rewrite <- app_assoc in *. cbn [app] in *. rewrite (bk_last A), <- (bk_last A') in H4 by done.
      split; [done|]. intros i Hy Hi. rewrite Hl. by apply H5.
    + intros Hc'. apply Hnd. rewrite <- Hc', E, fmap_app. apply elem_of_app. right. by left.
Qed.

(** Fewer levels in use. *)
Lemma part_le h zl zl' A C : (zl' <= zl)%nat -> part h zl A C -> part h zl' A C.
Proof. intros Hle Hp T y R E. destruct (Hp T y R E) as [H1 H2]. split; [done|]. intros i Hy Hi. apply H2; [done|lia]. Qed.

(** ** Well-formed skip lists *)

Record wf h zsl hd L : Prop := {
  wf_header : zsl_header zsl = na hd;
  wf_top : nh hd = 64%nat;
  wf_hele : ne hd = None;
  wf_level : 1 <= zsl_level zsl <= 64;
  wf_rep : rep h (Z.to_nat (zsl_level zsl)) (hd :: L);
  wf_high i : (Z.to_nat (zsl_level zsl) <= i < 64)%nat -> exists s, lev h (na hd) i = Some (None, s);
  wf_heights : Forall (fun n => (1 <= nh n <= Z.to_nat (zsl_level zsl))%nat) L;
  wf_nodup : NoDup (na <$> hd :: L);
  wf_tail : zsl_tail zsl = na <$> last L;
  wf_len : zsl_length zsl = zlen L;
  wf_small : zlen L < 2 ^ 32
}.

Lemma wf_frame h h' zsl hd L : (forall a, a ∈ na <$> hd :: L -> attr h' a = attr h a /\ forall i, lev h' a i = lev h a i) ->
  wf h zsl hd L -> wf h' zsl hd L.
Proof.
  intros Hf []. split; try done.
  - apply rep_part, (part_frame h); done.
  - intros i Hi. destruct (wf_high0 i Hi) as [s Hs]. exists s. rewrite <- Hs. apply Hf. by left.
Qed.

Lemma wf_free h zsl hd L x : x ∉ na <$> hd :: L -> wf h zsl hd L -> wf (zslFreeNode h x) zsl hd L.
Proof.
  intros Hx. apply wf_frame. intros a Ha. assert (a <> x) by congruence. split; [by apply free_attr|].
  intros i. by apply free_lev.
Qed.

(** Every node has a level 0. *)
Lemma low0_nil h zsl hd B C P n T : wf h zsl hd (B ++ C) -> hd :: B = P ++ n :: T -> low 0 T -> T = [].
Proof.
  intros Hwf E HT. destruct T as [|t T]; [done|]. inversion HT. pose proof (wf_heights _ _ _ _ Hwf) as Hh.
  apply Forall_app in Hh as [Hh _]. destruct P as [|p P]; cbn [app] in E; injection E as -> ->.
  - inversion Hh. lia.
  - apply Forall_app in Hh as [_ Hh]. inversion Hh as [|? ? ? Hh']. inversion Hh'. lia.
Qed.

(** Rank 0 is the whole prefix. *)
Lemma pred0 h zsl hd B C : wf h zsl hd (B ++ C) -> exists P n, hd :: B = P ++ [n] /\
  pred_at 0 (na hd) 0 0 B = (na n, zlen B) /\ (0 < nh n)%nat.
Proof.
  intros Hwf. destruct (pred_split 0 hd B) as (P & n & T & E & HT & Hn & Hp); [rewrite (wf_top _ _ _ _ Hwf); lia|].
  pose proof (low0_nil _ _ _ _ _ _ _ _ Hwf E HT) as ->.
  exists P, n. split_and!; [done| |done]. rewrite Hp. apply (f_equal zlen) in E. f_equal. revert E. zlia.
Qed.

Lemma bk_cur h zsl hd B C P n : wf h zsl hd (B ++ C) -> hd :: B = P ++ [n] ->
  bk (hd :: B) = if decide (na n = zsl_header zsl) then None else Some (na n).
Proof.
  intros Hwf E. rewrite (wf_header _ _ _ _ Hwf). destruct P as [|p P]; cbn [app] in E; injection E as -> ->.
  - by rewrite decide_True.
  - rewrite decide_False.
    + change (p :: P ++ [n]) with ([p] ++ P ++ [n]). destruct P as [|q P]; [done|]. cbn [app bk].
      by rewrite !app_comm_cons, last_snoc.
    + intros Hc. pose proof (wf_nodup _ _ _ _ Hwf) as Hnd. rewrite fmap_cons in Hnd. apply NoDup_cons in Hnd as [Hnd _].
      apply Hnd. rewrite <- Hc, <- app_assoc, fmap_app. apply elem_of_app. right. by left.
Qed.

(** ** Unlinking a node *)

Lemma shrink_ok h hdr L k : (forall i, (i < k)%nat -> exists l, lev h hdr i = Some l /\ fst l = fst (fwd i L)) ->
  (1 <= k)%nat -> Forall (fun n => (1 <= nh n <= k)%nat) L ->
  exists lv, shrink_level k h hdr = Some (Z.of_nat lv) /\ (1 <= lv <= k)%nat /\ Forall (fun n => (1 <= nh n <= lv)%nat) L.
Proof.
  induction k as [|k IH]; intros Hl Hk Hf; [lia|]. cbn [shrink_level]. destruct (Z.ltb_spec 1 (Z.of_nat (S k))) as [E1|E1].
  - destruct (Hl k) as (l & -> & Hfst); [lia|]. cbn [mbind option_bind]. rewrite Hfst.
    destruct (low_split k L) as [Hlow|(R1 & n & R2 & -> & Hlow & Hn)].
    + rewrite fwd_low by done. cbn [fst]. destruct IH as (lv & -> & Hlv & Hf'); [|lia| |].
      * intros i Hi. apply Hl. lia.
      * apply Forall_forall. intros n Hn. unfold low in Hlow. rewrite Forall_forall in Hlow, Hf. specialize (Hlow n Hn).
        specialize (Hf n Hn). cbv beta in *. lia.
      * exists lv. split_and!; [done|lia..|done].
    + rewrite fwd_hit by done. cbn [fst]. exists (S k). split_and!; [done|lia..|done].
  - exists 1%nat. assert (k = 0)%nat as -> by lia. split_and!; [done|lia..|done].
Qed.

Lemma NoDup_mid (A C : list snode) N : NoDup (na <$> (A ++ N :: C)) ->
  NoDup (na <$> (A ++ C)) /\ (na N ∉ na <$> (A ++ C)) /\ na N ∉ na <$> C.
Proof.
  rewrite !fmap_app, fmap_cons, <- Permutation_middle. intros Hnd. apply NoDup_cons in Hnd as [H1 H2]. split_and!; [done|done|].
  intros Hc. apply H1, elem_of_app. by right.
Qed.

Lemma NoDup_put (A C : list snode) N : NoDup (na <$> (A ++ C)) -> na N ∉ na <$> (A ++ C) -> NoDup (na <$> (A ++ N :: C)).
Proof. rewrite !fmap_app, fmap_cons, <- Permutation_middle. by constructor. Qed.

Lemma not_in_after (A C : list snode) c : NoDup (na <$> (A ++ c :: C)) -> forall n, n ∈ A -> na n <> na c.
Proof.
  rewrite fmap_app, fmap_cons. intros Hnd n Hn E. apply NoDup_app in Hnd as (_ & Hd & _). apply (Hd (na n)); [by apply list_elem_of_fmap_2|].
  rewrite E. by left.
Qed.

Lemma last_app_ne {X} (l l' : list X) : l' <> [] -> last (l ++ l') = last l'.
Proof. destruct l' as [|x l']; [done|]. intros _. apply last_app_cons. Qed.

(** Rebuilding the list from a prefix whose entries are set and the rest. *)
Lemma rebuild h h' zl A A' C (b : option addr) : A <> [] -> A' <> [] -> NoDup (na <$> (A' ++ C)) ->
  attrs h A' -> mid h zl A' (fun _ => C) -> part h zl A C -> b = bk A' ->
  match C with [] => h' = h | c :: _ => set_backward h (na c) b = Some h' end ->
  rep h' zl (A' ++ C) /\ (forall a i, lev h' a i = lev h a i) /\ (forall a, a ∉ na <$> C -> attr h' a = attr h a).
Proof.
  intros HA HA' Hnd Hat Hm Hp -> Hs. destruct C as [|c C].
  { subst h'. split_and!; [|done|done]. apply rep_app. split_and!; [done|done|]. intros T y R E. by destruct T. }
  pose proof Hp as Hp'. apply part_cons in Hp' as (Hc & _).
  destruct (set_backward_ok h (na c) (bk A') _ _ _ _ Hc) as (h2 & Hs2 & Hl2 & Hc2 & Ha2).
  rewrite Hs2 in Hs. injection Hs as ->.
  split_and!; [|done|intros a Hin; apply Ha2; intros ->; apply Hin; by left].
  apply rep_app. split_and!.
  - intros P y T E. rewrite Ha2; [by eapply Hat|]. apply (not_in_after _ _ _ Hnd). rewrite E. apply elem_of_app. right. by left.
  - apply (mid_frame h); [|done]. intros a i _. apply Hl2.
  - apply (part_back h _ _ A); try done. by apply NoDup_mid in Hnd as (_ & _ & ?).
Qed.

(** The backward link of the next node, or the tail. *)
Lemma back_ok h zl A C b (tl t : option addr) : part h zl A C -> Forall (fun n => (1 <= nh n)%nat) C -> exists h',
  (match fst (fwd 0 C) with Some f => h ← set_backward h f b; Some (h, tl) | None => Some (h, t) end) =
    Some (h', match C with [] => t | _ => tl end) /\
  match C with [] => h' = h | c :: _ => set_backward h (na c) b = Some h' end.
Proof.
  intros Hp Hht. destruct C as [|c C]; [by exists h|]. cbn [fwd]. inversion Hht. rewrite decide_True by lia. cbn [fst].
  apply part_cons in Hp as (Hc & _). destruct (set_backward_ok h (na c) b _ _ _ _ Hc) as (h' & Hs & _). exists h'. by rewrite Hs.
Qed.

Lemma heights_pos zl C : Forall (fun n => (1 <= nh n <= zl)%nat) C -> Forall (fun n => (1 <= nh n)%nat) C.
Proof. intros HC. apply (Forall_impl _ _ _ HC). lia. Qed.

Lemma tail_link hd B C N :
  (match C with [] => Some (na N) | _ => na <$> last (B ++ C) end = na <$> last (B ++ N :: C)) /\
  (match C with [] => bk (hd :: B) | _ => na <$> last (B ++ N :: C) end = na <$> last (B ++ C)).
Proof.
  destruct C as [|c C]; [|by rewrite !last_app_cons].
  rewrite last_snoc, app_nil_r. split; [done|]. destruct B as [|b B]; [done|]. cbn [bk].
  destruct B using rev_ind; [done|]. by rewrite !app_comm_cons, !last_snoc.
Qed.

Lemma zslDeleteNode_ok h zsl hd B N C upd : wf h zsl hd (B ++ N :: C) ->
  (forall i, (i < Z.to_nat (zsl_level zsl))%nat -> upd !! i = Some (pred_at i (na hd) 0 0 B)) ->
  exists h' zsl', zslDeleteNode h zsl (na N) upd = Some (h', zsl') /\ wf h' zsl' hd (B ++ C) /\
    zsl_level zsl' <= zsl_level zsl /\ (exists nd nd', h !! na N = Some nd /\ h' !! na N = Some nd' /\ ele nd' = ele nd).
Proof.
  intros Hwf Hupd. destruct Hwf as [Hh Htop Hhe Hlv Hrep Hhigh Hht Hnd Htl Hln Hsm]. set (zl := Z.to_nat (zsl_level zsl)) in *.
  pose proof Hnd as Hnd'. rewrite app_comm_cons in Hnd'. apply NoDup_mid in Hnd' as (Hnd1 & HN1 & HN2).
  pose proof Hrep as Hrep'. rewrite app_comm_cons in Hrep'.
  apply rep_app in Hrep' as (Hat & Hmid & [HNa [HNl HC]]%part_cons).
  assert (HNB : na N ∉ na <$> hd :: B) by (intros Hc; apply HN1; rewrite fmap_app; apply elem_of_app; by left).
  apply Forall_app in Hht as [HhtB HhtNC]. inversion HhtNC as [|? ? HhN HhtC]; subst.
  destruct (unlink_ok hd B C N zl upd ltac:(done) ltac:(lia) ltac:(lia) ltac:(revert Hsm; zlia) Hupd zl 0 h)
    as (h1 & Hun & [Ha1 Hl1] & Hm1); [lia| | |].
  { eapply mid_ext; [|exact Hmid]. intros i Hi. cbv beta. by rewrite decide_False by lia. }
  { intros i Hi. apply HNl; [done|lia]. }
  unfold zslDeleteNode. fold zl. rewrite Hun. cbn [mbind option_bind].
  assert (Hframe : forall a i, a ∉ na <$> hd :: B -> lev h1 a i = lev h a i).
  { intros a i Ha. apply Hl1; [by left|done]. }
  rewrite Hframe, HNl by (done || lia). cbn [mbind option_bind].
  pose proof HNa as (nd0 & Hnd0 & [= Hele0 _ _ _])%attr_Some.
  pose proof HNa as Hnd1a. rewrite <- Ha1 in Hnd1a. apply attr_Some in Hnd1a as (nd & Hndx & [= Hele _ Hbk _]).
  rewrite Hndx. cbn [mbind option_bind]. change (bk (hd :: B) = backward nd) in Hbk. rewrite <- Hbk.
  assert (HC1 : part h1 zl ((hd :: B) ++ [N]) C).
  { apply (part_frame h); [|done]. intros a Ha. split; [done|]. intros i. apply Hframe. intros Hc.
    rewrite fmap_app in Hnd1. apply NoDup_app in Hnd1 as (_ & Hd & _). by apply (Hd a). }
  assert (Hat1 : attrs h1 (hd :: B)) by (intros P y T E; rewrite Ha1; by eapply Hat).
  destruct (back_ok h1 zl _ C (bk (hd :: B)) (zsl_tail zsl) (bk (hd :: B)) HC1 (heights_pos _ _ HhtC)) as (h2 & Hr & Hs2).
  rewrite Htl, (proj2 (tail_link hd B C N)) in Hr. rewrite Htl, Hr. cbn [mbind option_bind].
  destruct (rebuild h1 h2 zl ((hd :: B) ++ [N]) (hd :: B) C (bk (hd :: B))) as (Hrep2 & Hl2 & Ha2); [done..|].
  destruct (shrink_ok h2 (zsl_header zsl) (B ++ C) zl) as (lv & Hsh & Hlv2 & Hht2); [|lia|by apply Forall_app|].
  { intros i Hi. exists (fwd i (B ++ C)). split; [|done]. rewrite Hh. by apply (rep_lev _ _ _ [] hd (B ++ C) i Hrep2); [|lia|]. }
  rewrite Hsh. cbn [mbind option_bind]. do 2 eexists. split; [done|]. split_and!; cbn [zsl_level]; [|lia|].
  2:{ exists nd0. assert (HN2' : attr h2 (na N) = attr h (na N)) by (by rewrite Ha2, Ha1). rewrite HNa in HN2'.
      apply attr_Some in HN2' as (nd2 & ? & [= Hele2 _ _ _]). exists nd2. split_and!; [done..|congruence]. }
  split; cbn [zsl_header zsl_level zsl_tail zsl_length]; rewrite ?Nat2Z.id; try done; [lia| | | |].
  - apply rep_part, (part_le _ zl); [lia|]. exact Hrep2.
  - intros i Hi. destruct (decide (i < zl)%nat) as [Hiz|Hiz].
    + rewrite (rep_lev _ _ _ [] hd (B ++ C) i Hrep2) by (done || lia). rewrite fwd_low; [by eexists|].
      apply (Forall_impl _ _ _ Hht2). lia.
    + rewrite Hl2, Hl1 by (done || right; lia). apply Hhigh. lia.
  - rewrite Hln. rewrite uwrap_small; revert Hsm; zlia.
  - revert Hsm. zlia.
Qed.

(** ** Inserting a node *)

Lemma grow_ok (n : nat) : forall i h x len, (forall j, (i <= j < i + n)%nat -> exists s, lev h x j = Some (None, s)) ->
  exists h', insert_grow n i h x len = Some h' /\ (forall a, attr h' a = attr h a) /\
    (forall j, (i <= j < i + n)%nat -> lev h' x j = Some (None, len)) /\
    (forall a j, a <> x \/ ~ (i <= j < i + n)%nat -> lev h' a j = lev h a j).
Proof.
  induction n as [|n IH]; intros i h x len Hl; cbn [insert_grow].
  { exists h. split_and!; [done|done|lia|done]. }
  destruct (Hl i) as [s Hs]; [lia|]. rewrite Hs. cbn [mbind option_bind fst].
  destruct (set_lev_ok _ _ _ (None, len) _ Hs) as (h1 & -> & Ha1 & Hx1 & Ho1). cbn [mbind option_bind].
  destruct (IH (S i) h1 x len) as (h' & -> & Ha & Hd & Ho).
  { intros j Hj. rewrite Ho1 by (intros [=]; lia). apply Hl. lia. }
  exists h'. split_and!; [done| | |].
  - intros a. by rewrite Ha.
  - intros j Hj. destruct (decide (j = i)) as [->|]; [|apply Hd; lia]. rewrite Ho; [done|]. right. lia.
  - intros a j Hj. rewrite Ho by (destruct Hj; [by left|right; lia]). apply Ho1. intros [= -> ->]. destruct Hj; [done|lia].
Qed.

(** The levels a new node adds are in use, and empty. *)
Lemma wf_grow h zsl hd L lv : wf h zsl hd L -> zsl_level zsl <= lv <= 64 ->
  exists h', insert_grow (Z.to_nat (lv - zsl_level zsl)) (Z.to_nat (zsl_level zsl)) h (zsl_header zsl) (zsl_length zsl) = Some h' /\
    (forall a, attr h' a = attr h a) /\
    wf h' {| zsl_header := zsl_header zsl; zsl_tail := zsl_tail zsl; zsl_length := zsl_length zsl; zsl_level := lv |} hd L.
Proof.
  intros [Hh Htop Hhe Hlv Hrep Hhigh Hht Hnd Htl Hln Hsm] Hle. rewrite Hh. set (zl := Z.to_nat (zsl_level zsl)) in *.
  destruct (grow_ok (Z.to_nat (lv - zsl_level zsl)) zl h (na hd) (zsl_length zsl)) as (h' & -> & Ha & Hd & Ho).
  { intros j Hj. apply Hhigh. lia. }
  exists h'. split_and!; [done..|]. split; cbn [zsl_header zsl_level zsl_tail zsl_length]; try done; [lia| | |].
  - intros P y R E. destruct (Hrep P y R E) as [H1 H2]. rewrite Ha. split; [done|]. intros i Hy Hi.
    destruct P as [|p P]; cbn [app] in E; injection E as -> ->.
    + destruct (decide (i < zl)%nat); [rewrite Ho by (right; lia); by apply H2|]. rewrite Hd by lia.
      rewrite fwd_low, Hln; [done|]. apply (Forall_impl _ _ _ Hht). cbv beta. lia.
    + apply Forall_app in Hht as [_ Hht]. inversion Hht; subst. rewrite Ho by (right; lia). apply H2; lia.
  - intros i Hi. rewrite Ho by (right; lia). apply Hhigh. lia.
  - apply (Forall_impl _ _ _ Hht). cbv beta. lia.
Qed.

Lemma updates_grow hd L B C zl lv : Forall (fun n => (1 <= nh n <= zl)%nat) L -> L = B ++ C -> (zl <= lv)%nat ->
  updates hd B lv = updates hd B zl ++ replicate (lv - zl) (na hd, 0).
Proof.
  intros Hht -> Hle. apply Forall_app in Hht as [Hht _]. unfold updates. replace lv with (zl + (lv - zl))%nat at 1 by lia.
  rewrite seq_app, fmap_app. f_equal. cbn [Nat.add]. apply list_eq. intros i. rewrite list_lookup_fmap.
  destruct (decide (i < lv - zl)%nat).
  - rewrite lookup_seq_lt, lookup_replicate_2 by done. cbn. f_equal. apply pred_low.
    apply (Forall_impl _ _ _ Hht). cbv beta. lia.
  - rewrite lookup_seq_ge by lia. symmetry. apply lookup_ge_None. rewrite length_replicate. lia.
Qed.

(** What follows the search in [zslInsert]. *)
Definition link_node junk h zsl (upd : list (addr * Z)) (zlev lv : Z) (s : D) (key : sds) : option (heap * zskiplist * addr) :=
  u0 ← upd !! 0%nat;
  let '(x, h) := zslCreateNode junk h (Z.to_nat lv) s (Some key) None in
  h ← insert_link (Z.to_nat lv) 0 upd (snd u0) h x;
  h ← insert_untouched (Z.to_nat (zlev - lv)) (Z.to_nat lv) upd h;
  h ← set_backward h x (if decide (fst u0 = zsl_header zsl) then None else Some (fst u0));
  l ← lev h x 0;
  r ← (match fst l with
       | Some f => h ← set_backward h f (Some x); Some (h, zsl_tail zsl)
       | None => Some (h, Some x)
       end);
  let '(h, tl) := (r : heap * option addr) in
  Some (h, {| zsl_header := zsl_header zsl; zsl_tail := tl; zsl_length := u64 (zsl_length zsl + 1); zsl_level := zlev |}, x).

Lemma link_node_ok junk h zsl hd B C upd lv s key : wf h zsl hd (B ++ C) -> 1 <= lv <= zsl_level zsl -> zlen (B ++ C) < 2 ^ 32 - 1 ->
  upd = updates hd B (Z.to_nat (zsl_level zsl)) ->
  exists h' zsl' N, link_node junk h zsl upd (zsl_level zsl) lv s key = Some (h', zsl', na N) /\
    ns N = s /\ ne N = Some key /\ attr h (na N) = None /\ wf h' zsl' hd (B ++ N :: C).
Proof.
  intros Hwf Hlvb Hsm1 ->. destruct (pred0 _ _ _ _ _ Hwf) as (P0 & n0 & E0 & Hp0 & Hn0).
  pose proof (bk_cur _ _ _ _ _ _ _ Hwf E0) as Hbk.
  destruct Hwf as [Hh Htop Hhe Hlv Hrep Hhigh Hht Hnd Htl Hln Hsm]. set (zl := Z.to_nat (zsl_level zsl)) in *.
  unfold link_node. rewrite updates_lookup, Hp0 by lia. cbn [mbind option_bind fst snd].
  destruct (zslCreateNode junk h (Z.to_nat lv) s (Some key) None) as [x h1] eqn:Ec.
  apply create_ok in Ec as (Hx0 & Hx1 & Hxl & Ha1 & Hl1).
  assert (HN : exists N, na N = x /\ ns N = s /\ ne N = Some key /\ nh N = Z.to_nat lv)
    by (by exists {| na := x; ns := s; ne := Some key; nh := Z.to_nat lv |}).
  destruct HN as (N & <- & HNs & HNe & HNh). rewrite <- HNh, <- ?HNs, <- ?HNe in *.
  assert (HxL : na N ∉ na <$> hd :: B ++ C).
  { intros Hin. apply list_elem_of_fmap in Hin as (y & Ey & Hy). apply list_elem_of_split in Hy as (P & R & E).
    destruct (Hrep P y R E) as [Hay _]. by rewrite <- Ey, Hx0 in Hay. }
  assert (HndN : NoDup (na <$> hd :: B ++ N :: C)).
  { by apply (NoDup_put (hd :: B)). }
  assert (Hrep1 : rep h1 zl ((hd :: B) ++ C)).
  { apply rep_part, (part_frame h); [|exact Hrep]. intros a Ha. assert (a <> na N) by (intros ->; by apply HxL). split; [by apply Ha1|].
    intros i. by apply Hl1. }
  apply rep_app in Hrep1 as (Hat1 & Hm1 & HC1).
  destruct (link_ok hd B C N zl (updates hd B zl) HndN ltac:(lia) ltac:(lia) Hsm1
    ltac:(intros; by apply updates_lookup) (nh N) 0 h1) as (h2 & -> & [Ha2 Hl2] & Hm2 & HN2);
    [done| |done|lia|].
  { eapply mid_ext; [|exact Hm1]. intros i Hi. cbv beta. by rewrite decide_False by lia. }
  cbn [mbind option_bind].
  destruct (untouched_ok hd B C N zl (updates hd B zl) HndN ltac:(lia) ltac:(lia)
    Hsm1 ltac:(intros; by apply updates_lookup) (Z.to_nat (zsl_level zsl - lv)) (nh N) h2) as (h3 & -> & [Ha3 Hl3] & Hm3);
    [lia|done|done|].
  cbn [mbind option_bind]. rewrite <- Hbk.
  assert (HNa3 : attr h3 (na N) = Some (ne N, ns N, None, nh N)) by (by rewrite Ha3, Ha2).
  destruct (set_backward_ok h3 (na N) (bk (hd :: B)) _ _ _ _ HNa3) as (h4 & -> & Hl4 & HN4 & Ha4).
  cbn [mbind option_bind].
  assert (HNl : forall i, (i < nh N)%nat -> lev h4 (na N) i = Some (fwd i C)).
  { intros i Hi. rewrite Hl4, Hl3 by (done || left; intros Hin; apply HxL; rewrite app_comm_cons, fmap_app; apply elem_of_app; by left).
    by apply HN2. }
  rewrite HNl by lia. cbn [mbind option_bind].
  assert (HNB : na N ∉ na <$> hd :: B) by (intros Hin; apply HxL; rewrite app_comm_cons, fmap_app; apply elem_of_app; by left).
  assert (HA : attrs h4 ((hd :: B) ++ [N])).
  { apply attrs_snoc; [|done]. intros P y T E. rewrite Ha4, Ha3, Ha2; [by eapply Hat1|]. intros Hc. apply HNB.
    rewrite <- Hc, E, fmap_app. apply elem_of_app. right. by left. }
  assert (HM : mid h4 zl ((hd :: B) ++ [N]) (fun _ => C)).
  { apply mid_snoc; [|intros i Hi _; by apply HNl]. by apply (mid_frame h3). }
  pose proof HndN as HndN'. rewrite app_comm_cons in HndN'.
  assert (HC4 : part h4 zl (hd :: B) C).
  { apply (part_frame h1); [|done]. intros a Ha. assert (a <> na N).
    { intros ->. apply NoDup_mid in HndN' as (_ & _ & Hn). by apply Hn. }
    split; [by rewrite Ha4, Ha3, Ha2|]. intros i.
    assert (a ∉ na <$> hd :: B).
    { intros Hc. rewrite app_comm_cons, fmap_app in Hnd. apply NoDup_app in Hnd as (_ & Hd & _). by apply (Hd a). }
    rewrite Hl4, Hl3, Hl2 by (congruence || by left). done. }
  assert (HhtC : Forall (fun n => (1 <= nh n <= zl)%nat) C) by (by apply Forall_app in Hht as [_ ?]).
  destruct (back_ok h4 zl _ C (Some (na N)) (zsl_tail zsl) (Some (na N)) HC4 (heights_pos _ _ HhtC)) as (h5 & Hr & Hs5).
  rewrite Htl, (proj1 (tail_link hd B C N)) in Hr. rewrite Htl, Hr. cbn [mbind option_bind].
  destruct (rebuild h4 h5 zl (hd :: B) ((hd :: B) ++ [N]) C (Some (na N))) as (Hrep5 & Hl5 & Ha5); try done.
  { by rewrite <- app_assoc. }
  { destruct B; [done|]. cbn [app bk]. by rewrite !app_comm_cons, last_snoc. }
  rewrite <- app_assoc in Hrep5. cbn [app] in Hrep5.
  do 3 eexists. split_and!; [done..|]. split; cbn [zsl_header zsl_level zsl_tail zsl_length]; try done.
  - intros i Hi. rewrite Hl5, Hl4, Hl3, Hl2, Hl1 by (done || (right; lia) || (intros [= E]; apply HNB; rewrite E; by left) ||
      (intros E; apply HNB; rewrite <- E; by left)). by apply Hhigh.
  - apply Forall_app in Hht as [H1 H2]. apply Forall_app. split; [done|]. constructor; [lia|done].
  - rewrite Hln, uwrap_small; revert Hsm1; zlia.
  - revert Hsm1. zlia.
Qed.
End Refine.
