(* ===== verification/ZskiplistSorted.v ===== *)
(** * The operations of skip lists on sorted sequences

    [slist h zsl l]: the skip list holds the elements [l] with their scores, in
    the order of [klt].  Every operation of the list is proved against it, for
    any number of levels. *)
From Stdlib Require Import ZArith Lia String Sorting.Sorted.
From stdpp Require Import base numbers list option gmap infinite.
From S2P Require Import Prelude Sds SdsRefine Zskiplist ZskiplistShape ZskiplistRefine.

(** ** Lists cut by a test *)

Section Cut.
Context {A : Type} (f : A -> bool).
Implicit Types (l : list A).

(** [f] holds of a beginning of the list. *)
Definition downward l : Prop := StronglySorted (fun p q => f q = true -> f p = true) l.

Definition yes l : list A := filter (fun p => f p = true) l.
Definition no l : list A := filter (fun p => f p = false) l.

Lemma yes_In l p : p ∈ yes l <-> p ∈ l /\ f p = true.
Proof. unfold yes. rewrite list_elem_of_filter. tauto. Qed.

Lemma no_In l p : p ∈ no l <-> p ∈ l /\ f p = false.
Proof. unfold no. rewrite list_elem_of_filter. tauto. Qed.

Lemma no_all l : Forall (fun p => f p = false) l -> yes l = [] /\ no l = l.
Proof.
  induction 1 as [|p l Hp _ [IH1 IH2]]; [done|]. unfold yes, no in *.
  rewrite filter_cons_False, filter_cons_True by congruence. by rewrite IH1, IH2.
Qed.

Lemma cut_yes_no l : downward l -> l = yes l ++ no l.
Proof.
  induction 1 as [|p l _ IH Hp]; [done|]. destruct (f p) eqn:E; unfold yes, no in *.
  - rewrite filter_cons_True, filter_cons_False by congruence. cbn [app]. by f_equal.
  - assert (Hall : Forall (fun q => f q = false) l).
    { apply (Forall_impl _ _ _ Hp). intros q Hq. destruct (f q); [|done]. discriminate (Hq eq_refl). }
    destruct (no_all l Hall) as [H1 H2]. unfold yes, no in *.
    rewrite filter_cons_False, filter_cons_True by congruence. by rewrite H1, H2.
Qed.

Lemma yes_app l1 l2 : yes (l1 ++ l2) = yes l1 ++ yes l2.
Proof. apply filter_app. Qed.

Lemma yes_none l : (forall p, p ∈ l -> f p = false) -> yes l = [].
Proof. intros Hf. by apply no_all, Forall_forall. Qed.

Lemma no_app l1 l2 : no (l1 ++ l2) = no l1 ++ no l2.
Proof. apply filter_app. Qed.

Lemma no_same l : (forall p, p ∈ l -> f p = false) -> no l = l.
Proof. intros Hf. by apply no_all, Forall_forall. Qed.

Lemma yes_same l : (forall p, p ∈ l -> f p = true) -> yes l = l /\ no l = [].
Proof.
  unfold yes, no. induction l as [|p l IH]; intros Hf; [done|]. destruct IH as [IH1 IH2]; [intros q Hq; apply Hf; by right|].
  rewrite filter_cons_True, filter_cons_False by (rewrite Hf; [done|by left]). by rewrite IH1, IH2.
Qed.
End Cut.

Lemma SSorted_app {A} (R : A -> A -> Prop) l1 l2 : StronglySorted R (l1 ++ l2) <->
  StronglySorted R l1 /\ StronglySorted R l2 /\ (forall p q, p ∈ l1 -> q ∈ l2 -> R p q).
Proof.
  induction l1 as [|p l1 IH]; cbn [app].
  - split; [|tauto]. intros Hl. split_and!; [constructor|done|]. by intros ? ? ?%elem_of_nil.
  - split.
    + intros Hl. inversion Hl as [|? ? Hs Hf]; subst. apply IH in Hs as (H1 & H2 & H3). apply Forall_app in Hf as [Hf1 Hf2].
      split_and!; [by constructor|done|]. intros a b [->|Ha]%elem_of_cons Hb; [|by apply H3].
      rewrite Forall_forall in Hf2. by apply Hf2.
    + intros (H1 & H2 & H3). inversion H1 as [|? ? Hs Hf]; subst. constructor.
      * apply IH. split_and!; [done|done|]. intros a b Ha Hb. apply H3; [by right|done].
      * apply Forall_app. split; [done|]. apply Forall_forall. intros b Hb. apply H3; [by left|done].
Qed.

Lemma SSorted_impl {A} (R R' : A -> A -> Prop) l : (forall p q, p ∈ l -> q ∈ l -> R p q -> R' p q) -> StronglySorted R l -> StronglySorted R' l.
Proof.
  intros Hi Hl. induction Hl as [|p l Hs IH Hf]; constructor.
  - apply IH. intros a b Ha Hb. apply Hi; by right.
  - rewrite Forall_forall in *. intros q Hq. apply Hi; [by left|by right|by apply Hf].
Qed.

Section Sorted.
Context {D : Type} `{ScoreLaws D}.

Abbreviation heap := (gmap addr (zskiplistNode D)).
Abbreviation snode := (@snode D).
Implicit Types (h : heap) (zsl : zskiplist) (x a : addr) (L B C T : list snode) (y n hd N c : snode) (i j k zl : nat).
Implicit Types (p q : D * sds) (l : list (D * sds)).

(** ** The order of the elements *)

Definition klt p q : bool := slt p.1 q.1 || (bool_decide (p.1 = q.1) && (lexcmp p.2 q.2 <? 0)).

Lemma klt_spec p q : klt p q = true <-> slt p.1 q.1 = true \/ (p.1 = q.1 /\ lexcmp p.2 q.2 < 0).
Proof. unfold klt. rewrite orb_true_iff, andb_true_iff, bool_decide_eq_true, Z.ltb_lt. done. Qed.

Lemma klt_irrefl p : klt p p = false.
Proof.
  destruct (klt p p) eqn:E; [|done]. apply klt_spec in E as [E|[_ E]]; [by rewrite slt_irrefl in E|].
  rewrite lexcmp_refl in E. lia.
Qed.

Lemma klt_trans p q r : klt p q = true -> klt q r = true -> klt p r = true.
Proof.
  rewrite !klt_spec. intros [H1|[E1 H1]] [H2|[E2 H2]].
  - left. by eapply slt_trans.
  - left. by rewrite <- E2.
  - left. by rewrite E1.
  - right. split; [congruence|]. by eapply lexcmp_trans.
Qed.

Lemma klt_total p q : klt p q = true \/ p = q \/ klt q p = true.
Proof.
  rewrite !klt_spec. destruct (slt_total p.1 q.1) as [?|[E|?]]; [tauto| |tauto].
  pose proof (lexcmp_anti p.2 q.2). destruct (Z.lt_total (lexcmp p.2 q.2) 0) as [?|[E2|?]]; [tauto| |].
  - apply lexcmp_eq in E2. right. left. destruct p, q. cbn in *. congruence.
  - right. right. right. split; [done|lia].
Qed.

Definition sorted l : Prop := StronglySorted (fun p q => klt p q = true) l.

Lemma sorted_nodup l : sorted l -> NoDup l.
Proof.
  induction 1 as [|p l _ IH Hp]; constructor; [|done]. intros Hin. rewrite Forall_forall in Hp. specialize (Hp p Hin).
  cbv beta in Hp. by rewrite klt_irrefl in Hp.
Qed.

(** The test of an order bound cuts a sorted list. *)
Lemma klt_downward p l : sorted l -> downward (fun q => klt q p) l.
Proof. apply SSorted_impl. intros a b _ _ Hab Hb. by eapply klt_trans. Qed.

Lemma kle_downward p l : sorted l -> downward (fun q => negb (klt p q)) l.
Proof.
  apply SSorted_impl. intros a b _ _ Hab Hb. apply negb_true_iff in Hb. apply negb_true_iff.
  destruct (klt p a) eqn:E; [|done]. by rewrite (klt_trans _ _ _ E Hab) in Hb.
Qed.

Lemma score_le p q : klt p q = true -> slt q.1 p.1 = false.
Proof.
  rewrite klt_spec. intros [Hs|[-> _]]; [|apply slt_irrefl]. destruct (slt q.1 p.1) eqn:E; [|done].
  by rewrite <- (slt_irrefl p.1), (slt_trans _ _ _ Hs E).
Qed.

(** ** Representation *)

Definition kv n : D * option sds := (ns n, ne n).

Definition vals L l : Prop := kv <$> L = (fun p => (p.1, Some p.2)) <$> l.

Definition slist h zsl l : Prop := exists hd L, wf h zsl hd L /\ vals L l /\ sorted l.

(** The node at [x] holds the element [p]. *)
Definition holds h x p : Prop := exists nd, h !! x = Some nd /\ ele nd = Some p.2 /\ score nd = p.1.

Lemma vals_app_inv L l1 l2 : vals L (l1 ++ l2) -> exists B C, L = B ++ C /\ vals B l1 /\ vals C l2.
Proof. unfold vals. rewrite fmap_app. intros (B & C & -> & -> & ->)%fmap_app_inv. eauto. Qed.

Lemma vals_cons_inv L p l : vals L (p :: l) -> exists n C, L = n :: C /\ ns n = p.1 /\ ne n = Some p.2 /\ vals C l.
Proof. unfold vals. destruct L as [|n C]; cbn; [done|]. intros [= ? ? ?]. by exists n, C. Qed.

Lemma vals_cons n p L l : ns n = p.1 -> ne n = Some p.2 -> vals L l -> vals (n :: L) (p :: l).
Proof. unfold vals. cbn. intros. unfold kv at 1. congruence. Qed.

Lemma vals_app B C l1 l2 : vals B l1 -> vals C l2 -> vals (B ++ C) (l1 ++ l2).
Proof. unfold vals. rewrite !fmap_app. by intros -> ->. Qed.

Lemma vals_len L l : vals L l -> zlen L = zlen l.
Proof. intros E%(f_equal length). rewrite !length_fmap in E. unfold zlen. lia. Qed.

Lemma vals_in L l n : vals L l -> n ∈ L -> exists p, p ∈ l /\ ns n = p.1 /\ ne n = Some p.2.
Proof.
  intros Hv Hn. assert (Hk : kv n ∈ kv <$> L) by by apply list_elem_of_fmap_2. rewrite Hv in Hk.
  apply list_elem_of_fmap in Hk as (p & [= ? ?] & Hp). by exists p.
Qed.

(** ** Searching by a test of the elements *)

Definition tests (f : D * sds -> bool) (cond : zskiplistNode D -> Z -> bool) : Prop :=
  forall nd (r : Z) p, score nd = p.1 -> ele nd = Some p.2 -> cond nd r = f p.

Lemma before_tests p : tests (fun q => klt q p) (before_key p.1 p.2).
Proof. intros nd q r Hs He. unfold before_key, klt, node_cmp. by rewrite Hs, He, sdscmp_lex. Qed.

Lemma upto_tests p : tests (fun q => negb (klt p q)) (upto_key p.1 p.2).
Proof.
  intros nd q r Hs He. unfold upto_key, node_cmp. rewrite Hs, He, sdscmp_lex. apply eq_true_iff_eq.
  rewrite negb_true_iff, <- not_true_iff_false, klt_spec, orb_true_iff, andb_true_iff, bool_decide_eq_true, Z.leb_le.
  pose proof (lexcmp_anti p.2 r.2) as Hanti. split.
  - intros [Hlt|[E Hle]] [Hlt'|[E' Hlt']].
    + pose proof (slt_trans _ _ _ Hlt Hlt') as Hx. by rewrite slt_irrefl in Hx.
    + rewrite E', slt_irrefl in Hlt. done.
    + rewrite E, slt_irrefl in Hlt'. done.
    + lia.
  - intros Hn. destruct (slt_total r.1 p.1) as [?|[?|?]]; [tauto| |tauto].
    right. split; [done|]. assert (~ lexcmp p.2 r.2 < 0) by naive_solver. lia.
Qed.

Lemma cut_position B C P n (R : list snode) (f : snode -> bool) : (forall m, m ∈ B -> f m = true) -> (forall m, m ∈ C -> f m = false) ->
  B ++ C = P ++ n :: R -> f n = bool_decide (zlen P < zlen B).
Proof.
  intros HB HC E. destruct (decide (zlen P < zlen B)) as [Hlt|Hge].
  - rewrite bool_decide_eq_true_2 by done. apply HB. apply (list_elem_of_lookup_2 _ (length P)).
    rewrite <- (lookup_app_l B C) by (unfold zlen in *; lia). rewrite E. by rewrite lookup_app_r, Nat.sub_diag by done.
  - rewrite bool_decide_eq_false_2 by done. apply HC. apply (list_elem_of_lookup_2 _ (length P - length B)).
    rewrite <- (lookup_app_r B C) by (unfold zlen in *; lia). rewrite E. by rewrite lookup_app_r, Nat.sub_diag by done.
Qed.

Definition snode_test (f : D * sds -> bool) n : bool := match ne n with Some e => f (ns n, e) | None => false end.

Lemma snode_tests f b B l : vals B (filter (fun p => f p = b) l) -> forall m, m ∈ B -> snode_test f m = b.
Proof.
  intros HB m Hm. destruct (vals_in _ _ _ HB Hm) as ([s e] & Hp & Hs & He). apply list_elem_of_filter in Hp as [Hp _].
  unfold snode_test. rewrite He, Hs. exact Hp.
Qed.

Lemma cut_by h L l f cond : vals L l -> downward f l -> tests f cond ->
  exists B C, L = B ++ C /\ vals B (yes f l) /\ vals C (no f l) /\
    forall P n R nd, B ++ C = P ++ n :: R -> h !! na n = Some nd -> ele nd = ne n -> score nd = ns n ->
      cond nd (zlen P + 1) = bool_decide (zlen P < zlen B).
Proof.
  intros Hv Hf Ht. pose proof Hv as Hv'. rewrite (cut_yes_no f l Hf) in Hv'.
  apply vals_app_inv in Hv' as (B & C & -> & HB & HC). exists B, C. split_and!; [done..|].
  intros P n R nd E _ He Hs. assert (Hin : n ∈ B ++ C) by (rewrite E; apply elem_of_app; right; by left).
  rewrite <- (cut_position B C P n R (snode_test f)) by (done || by apply (snode_tests f true B l) || by apply (snode_tests f false C l)).
  destruct (vals_in (B ++ C) l n) as (p & _ & Hps & Hpe); [done|done|].
  unfold snode_test. rewrite Hpe, Hps. rewrite (Ht _ _ (p.1, p.2)); cbn; congruence.
Qed.

Lemma find_by h zsl hd L l w f cond : wf h zsl hd L -> vals L l -> downward f l -> tests f cond -> zlen L + 1 < 2 ^ w ->
  exists B C, L = B ++ C /\ vals B (yes f l) /\ vals C (no f l) /\
    zsl_find w cond h zsl = Some (updates hd B (Z.to_nat (zsl_level zsl))).
Proof.
  intros Hwf Hv Hf Ht Hw. destruct (cut_by h L l f cond Hv Hf Ht) as (B & C & -> & HB & HC & Hcond).
  exists B, C. split_and!; [done..|]. apply (find_ok h (Z.to_nat (zsl_level zsl)) hd B C w cond); try done; try apply Hwf.
  - by rewrite zlen_cons, Z.add_comm.
  - rewrite (wf_top _ _ _ _ Hwf). pose proof (wf_level _ _ _ _ Hwf). lia.
Qed.

(** ** Insertion *)

Lemma random_level_ge rnd lv r : random_level_loop rnd lv = Some r -> lv <= r.
Proof.
  revert lv. induction rnd as [|v rnd IH]; intros lv; cbn [random_level_loop]; [done|].
  destruct (_ <=? _); [intros ?%IH; lia|intros [= ->]; lia].
Qed.

Lemma random_level_range rnd lv : zslRandomLevel rnd = Some lv -> 1 <= lv <= 64.
Proof.
  unfold zslRandomLevel. intros (r & Hr%random_level_ge & [= <-])%option.bind_Some.
  unfold ZSKIPLIST_MAXLEVEL. destruct (r <? 64) eqn:E; lia.
Qed.

(** The loop ends at the first value above the threshold. *)
Lemma random_level_total rnd : Exists (fun r => 16383 < Z.land r 65535) rnd -> exists lv, zslRandomLevel rnd = Some lv.
Proof.
  intros Hr. unfold zslRandomLevel. assert (Hx : forall lv0, exists r, random_level_loop rnd lv0 = Some r).
  { induction Hr as [v rnd Hv|v rnd _ IH]; intros lv0; cbn [random_level_loop].
    - rewrite (proj2 (Z.leb_gt _ _)) by done. eauto.
    - destruct (_ <=? _); eauto. }
  destruct (Hx 1) as [r ->]. eexists. done.
Qed.

Lemma holds_node h zsl hd L N p : wf h zsl hd L -> N ∈ hd :: L -> ns N = p.1 -> ne N = Some p.2 -> holds h (na N) p.
Proof.
  intros Hwf (P & R & E)%list_elem_of_split Hs He.
  destruct (rep_node _ _ _ P N R (wf_rep _ _ _ _ Hwf) E) as (nd & Hnd & H1 & H2 & _). exists nd. by rewrite H1, H2.
Qed.

Lemma zsl_insert_spec rnd junk h zsl hd L l s key : wf h zsl hd L -> vals L l -> sorted l ->
  zlen l < 2 ^ 32 - 1 -> Exists (fun r => 16383 < Z.land r 65535) rnd ->
  exists h' zsl' N B C, zslInsert rnd junk h zsl s key = Some (h', zsl', na N) /\ L = B ++ C /\ wf h' zsl' hd (B ++ N :: C) /\
    ns N = s /\ ne N = Some key /\ (forall a, attr h a <> None -> a <> na N) /\ vals B (yes (fun q => klt q (s, key)) l) /\ vals C (no (fun q => klt q (s, key)) l).
Proof.
  intros Hwf Hv Hs Hlen Hrnd. pose proof (vals_len _ _ Hv) as HL.
  destruct (find_by h zsl hd L l 32 _ _ Hwf Hv (klt_downward (s, key) l Hs) (before_tests (s, key))) as (B & C & -> & HB & HC & Hfind);
    [lia|].
  destruct (random_level_total rnd Hrnd) as [lv Hlv]. pose proof (random_level_range _ _ Hlv) as Hlvr.
  unfold zslInsert. cbn [fst snd] in Hfind. rewrite Hfind. cbn [mbind option_bind]. rewrite Hlv. cbn [mbind option_bind].
  pose proof (wf_level _ _ _ _ Hwf) as Hzl.
  destruct (lv >? zsl_level zsl) eqn:Egt.
  - destruct (wf_grow h zsl hd (B ++ C) lv Hwf) as (h1 & Hg & Hga & Hwf1); [lia|]. rewrite Hg. cbn [mbind option_bind].
    destruct (link_node_ok junk h1 _ hd B C (updates hd B (Z.to_nat lv)) lv s key Hwf1) as (h' & zsl' & N & Hi & HNs & HNe & HNf & Hwf');
      [cbn; lia|lia|done|].
    exists h', zsl', N, B, C. split_and!; try done.
    2:{ intros a Ha ->. apply Ha. destruct (attr h (na N)) as [q|] eqn:Eq; [|done]. by rewrite Hga, Eq in HNf. }
    rewrite <- Hi. unfold link_node. cbn [zsl_header zsl_tail zsl_length zsl_level].
    rewrite (updates_grow hd (B ++ C) B C (Z.to_nat (zsl_level zsl)) (Z.to_nat lv)); [|apply Hwf|done|lia].
    rewrite (wf_header _ _ _ _ Hwf). replace (Z.to_nat (lv - zsl_level zsl)) with (Z.to_nat lv - Z.to_nat (zsl_level zsl))%nat by lia.
    done.
  - destruct (link_node_ok junk h zsl hd B C (updates hd B (Z.to_nat (zsl_level zsl))) lv s key Hwf)
      as (h' & zsl' & N & Hi & HNs & HNe & HNf & Hwf'); [lia|lia|done|].
    exists h', zsl', N, B, C. split_and!; try done. by intros a Ha ->.
Qed.

Lemma sorted_put l p : sorted l -> p ∉ l -> sorted (yes (fun q => klt q p) l ++ p :: no (fun q => klt q p) l).
Proof.
  intros Hs Hp. pose proof (cut_yes_no _ l (klt_downward p l Hs)) as E. pose proof Hs as Hs'. unfold sorted in Hs'. rewrite E in Hs'.
  apply SSorted_app in Hs' as (H1 & H2 & H3).
  assert (Hgt : forall q, q ∈ no (fun q => klt q p) l -> klt p q = true).
  { intros q [Hq Hf]%no_In. destruct (klt_total p q) as [?|[<-|?]]; [done|done|congruence]. }
  apply SSorted_app. split_and!; [done| |].
  - constructor; [done|]. apply Forall_forall. exact Hgt.
  - intros a b Ha. apply yes_In in Ha as [_ Ha]. intros [->|Hb]%elem_of_cons; [done|]. eapply klt_trans; [exact Ha|by apply Hgt].
Qed.

(** ** Deletion *)

Lemma candidate_ok h zsl hd B C : wf h zsl hd (B ++ C) ->
  zsl_candidate h (updates hd B (Z.to_nat (zsl_level zsl))) = Some (na <$> head C).
Proof.
  intros Hwf. destruct (pred0 _ _ _ _ _ Hwf) as (P & n & E & Hp & Hn). pose proof (wf_level _ _ _ _ Hwf).
  unfold zsl_candidate. rewrite updates_lookup, Hp by lia. cbn [mbind option_bind fst].
  rewrite (rep_lev _ _ _ P n C 0 (wf_rep _ _ _ _ Hwf)); [|by rewrite app_comm_cons, E, <- app_assoc|done|lia].
  cbn [mbind option_bind]. destruct C as [|c C]; [done|]. cbn [fwd]. rewrite decide_True; [done|].
  pose proof (wf_heights _ _ _ _ Hwf) as Hht. apply Forall_app in Hht as [_ Hht]. inversion Hht. lia.
Qed.

Lemma updates_valid h zsl hd B C i : wf h zsl hd (B ++ C) -> (i < Z.to_nat (zsl_level zsl))%nat ->
  updates hd B (Z.to_nat (zsl_level zsl)) !! i = Some (pred_at i (na hd) 0 0 B).
Proof. intros _ Hi. by apply updates_lookup. Qed.

(** The first element not before [p] is [p] itself, when it is there. *)
Lemma first_no p l : sorted l -> p ∈ l -> exists l2, no (fun q => klt q p) l = p :: l2 /\ l = yes (fun q => klt q p) l ++ p :: l2.
Proof.
  intros Hs Hp. pose proof (cut_yes_no _ l (klt_downward p l Hs)) as E.
  destruct (no (fun q => klt q p) l) as [|q l2] eqn:Eno.
  - exfalso. assert (Hpn : p ∈ no (fun q => klt q p) l) by (apply no_In; split; [done|apply klt_irrefl]).
    rewrite Eno in Hpn. by apply elem_of_nil in Hpn.
  - assert (Hpn : p ∈ q :: l2) by (rewrite <- Eno; apply no_In; split; [done|apply klt_irrefl]).
    destruct (klt_total q p) as [Hq|[->|Hq]].
    + assert (Hqn : q ∈ no (fun q => klt q p) l) by (rewrite Eno; by left). apply no_In in Hqn as [_ Hqn]. congruence.
    + eauto.
    + exfalso. apply elem_of_cons in Hpn as [->|Hpn]; [by rewrite klt_irrefl in Hq|].
      unfold sorted in Hs. rewrite E in Hs. apply SSorted_app in Hs as (_ & Hs & _). inversion Hs as [|? ? _ Hf]; subst.
      rewrite Forall_forall in Hf. specialize (Hf p Hpn). cbv beta in Hf.
      pose proof (klt_trans _ _ _ Hq Hf) as Hx. by rewrite klt_irrefl in Hx.
Qed.

(** Unlinking and freeing the node after [B]. *)
Lemma drop_node h zsl hd B N C upd : wf h zsl hd (B ++ N :: C) ->
  (forall i, (i < Z.to_nat (zsl_level zsl))%nat -> upd !! i = Some (pred_at i (na hd) 0 0 B)) ->
  exists h' zsl', zslDeleteNode h zsl (na N) upd = Some (h', zsl') /\ wf h' zsl' hd (B ++ C) /\
    wf (zslFreeNode h' (na N)) zsl' hd (B ++ C) /\ zsl_level zsl' <= zsl_level zsl /\ (na N ∉ na <$> hd :: B ++ C) /\
    exists nd', h' !! na N = Some nd' /\ ele nd' = ne N.
Proof.
  intros Hwf Hupd. destruct (zslDeleteNode_ok h zsl hd B N C upd Hwf Hupd) as (h' & zsl' & Hd & Hwf' & Hle & nd & nd' & Hnd & Hnd' & He).
  assert (Hx : na N ∉ na <$> hd :: B ++ C).
  { pose proof (wf_nodup _ _ _ _ Hwf) as Hn. rewrite app_comm_cons in Hn. by apply NoDup_mid in Hn as (_ & ? & _). }
  exists h', zsl'. split_and!; [done|done|by apply wf_free|done|done|]. exists nd'. split; [done|]. rewrite He.
  destruct (rep_node _ _ _ (hd :: B) N C (wf_rep _ _ _ _ Hwf) eq_refl) as (nd2 & Hnd2 & He2 & _). congruence.
Qed.

Lemma filter_ne_app p l1 l2 : NoDup (l1 ++ p :: l2) -> filter (fun q => q <> p) (l1 ++ p :: l2) = l1 ++ l2.
Proof.
  intros Hn. apply NoDup_app in Hn as (_ & Hd & Hn). apply NoDup_cons in Hn as [Hp _].
  rewrite filter_app, filter_cons_False by tauto.
  assert (Hf : forall l, p ∉ l -> filter (fun q => q <> p) l = l).
  { intros l. induction l as [|q l IH]; [done|]. intros [? ?]%not_elem_of_cons. rewrite filter_cons_True by done. by rewrite IH. }
  rewrite !Hf; [done|done|]. intros Hc. apply (Hd p Hc). by left.
Qed.

Lemma sorted_del p l1 l2 : sorted (l1 ++ p :: l2) -> sorted (l1 ++ l2).
Proof.
  unfold sorted. rewrite !SSorted_app. intros (H1 & H2 & H3). inversion H2; subst. split_and!; [done..|].
  intros a b Ha Hb. apply H3; [done|by right].
Qed.

(** The node of an element that is in the list, where a search for it ends. *)
Lemma locate h zsl hd L l p w : wf h zsl hd L -> vals L l -> sorted l -> p ∈ l -> 32 <= w ->
  exists B N C l1 l2, L = B ++ N :: C /\ l = l1 ++ p :: l2 /\ vals B l1 /\ vals C l2 /\ ns N = p.1 /\ ne N = Some p.2 /\
    zsl_find (w + 1) (before_key p.1 p.2) h zsl = Some (updates hd B (Z.to_nat (zsl_level zsl))).
Proof.
  intros Hwf Hv Hs Hp Hw. assert (H2 : 2 ^ 32 <= 2 ^ w) by (apply Z.pow_le_mono_r; lia).
  destruct (find_by h zsl hd L l (w + 1) _ _ Hwf Hv (klt_downward p l Hs) (before_tests p)) as (B & C & -> & HB & HC & Hfind).
  { pose proof (wf_small _ _ _ _ Hwf). rewrite Z.pow_add_r by lia. lia. }
  destruct (first_no p l Hs Hp) as (l2 & Hno & El). rewrite Hno in HC.
  destruct (vals_cons_inv _ _ _ HC) as (N & C' & -> & HNs & HNe & HC'). exists B, N, C', (yes (fun q => klt q p) l), l2. split_and!; done.
Qed.

Lemma zsl_delete_spec h zsl hd L l p : wf h zsl hd L -> vals L l -> sorted l ->
  exists h' zsl' L', zslDelete h zsl p.1 p.2 = Some (h', zsl', bool_decide (p ∈ l)) /\ wf h' zsl' hd L' /\
    vals L' (filter (fun q => q <> p) l).
Proof.
  intros Hwf Hv Hs. unfold zslDelete. destruct (decide (p ∈ l)) as [Hp|Hp].
  - rewrite bool_decide_eq_true_2 by done.
    destruct (locate h zsl hd L l p 63 Hwf Hv Hs Hp) as (B & N & C & l1 & l2 & -> & -> & HB & HC & HNs & HNe & Hfind); [lia|].
    change (63 + 1) with 64 in Hfind. rewrite Hfind. cbn [mbind option_bind]. rewrite (candidate_ok _ _ _ _ _ Hwf). cbn [mbind option_bind head fmap option_fmap option_map].
    destruct (rep_node _ _ _ (hd :: B) N C (wf_rep _ _ _ _ Hwf) eq_refl) as (nd & Hnd & He & Hsc & _).
    rewrite Hnd. cbn [mbind option_bind]. rewrite Hsc, He, HNs, HNe. unfold node_cmp.
    rewrite bool_decide_eq_true_2, sdscmp_lex, lexcmp_refl by done. cbn [andb Z.eqb].
    destruct (drop_node h zsl hd B N C (updates hd B (Z.to_nat (zsl_level zsl))) Hwf) as (h' & zsl' & Hd & _ & Hwf' & _);
      [intros i; by eapply updates_valid|].
    rewrite Hd. cbn [mbind option_bind fst snd]. do 3 eexists. split_and!; [done..|].
    rewrite filter_ne_app by by apply sorted_nodup. by apply vals_app.
  - rewrite bool_decide_eq_false_2 by done.
    assert (Hflt : filter (fun q => q <> p) l = l).
    { clear -Hp. induction l as [|q l IH]; [done|]. apply not_elem_of_cons in Hp as [? ?]. rewrite filter_cons_True by done. by rewrite IH. }
    rewrite Hflt.
    destruct (find_by h zsl hd L l 64 _ _ Hwf Hv (klt_downward p l Hs) (before_tests p)) as (B & C & -> & HB & HC & Hfind);
      [pose proof (wf_small _ _ _ _ Hwf); lia|].
    rewrite Hfind. cbn [mbind option_bind]. rewrite (candidate_ok _ _ _ _ _ Hwf). cbn [mbind option_bind].
    destruct C as [|n C]; cbn [head fmap option_fmap option_map]; [by exists h, zsl, (B ++ [])|].
    destruct (rep_node _ _ _ (hd :: B) n C (wf_rep _ _ _ _ Hwf) eq_refl) as (nd & Hnd & He & Hsc & _).
    rewrite Hnd. cbn [mbind option_bind]. rewrite Hsc, He.
    destruct (vals_in _ _ n HC ltac:(by left)) as (q & Hq & Hqs & Hqe). apply no_In in Hq as [Hq _]. rewrite Hqs, Hqe. unfold node_cmp.
    rewrite sdscmp_lex. destruct (bool_decide (p.1 = q.1) && (lexcmp q.2 p.2 =? 0)) eqn:E; [|by exists h, zsl, (B ++ n :: C)].
    apply andb_true_iff in E as [E1%bool_decide_eq_true E2%Z.eqb_eq]. apply lexcmp_eq in E2. exfalso. apply Hp.
    destruct p, q; cbn in *. congruence.
Qed.

(** ** Changing a score *)

Definition with_score N (s : D) : snode := {| na := na N; ns := s; ne := ne N; nh := nh N |}.

Lemma fwd_with_score i T N s C : fwd i (T ++ with_score N s :: C) = fwd i (T ++ N :: C).
Proof. induction T as [|t T IH]; cbn [app fwd with_score na nh]; [done|]. by rewrite IH. Qed.

Lemma bk_with_score A N s T : bk (A ++ with_score N s :: T) = bk (A ++ N :: T).
Proof.
  destruct A as [|a A]; cbn [app bk].
  - destruct T as [|t T]; [done|]. cbn [bk]. by rewrite !last_cons_cons.
  - destruct (A ++ with_score N s :: T) eqn:E1, (A ++ N :: T) eqn:E2; [by destruct A..|].
    rewrite <- E1, <- E2, !app_comm_cons, !last_app_cons. destruct T as [|t T]; [done|]. by rewrite !last_cons_cons.
Qed.

Lemma na_with_score A N s C : na <$> A ++ with_score N s :: C = na <$> A ++ N :: C.
Proof. by rewrite !fmap_app, !fmap_cons. Qed.

Lemma wf_score h zsl hd B N C s nd : wf h zsl hd (B ++ N :: C) -> h !! na N = Some nd ->
  wf (<[na N := {| ele := ele nd; score := s; backward := backward nd; level := level nd |}]> h) zsl hd (B ++ with_score N s :: C).
Proof.
  intros [Hh Htop Hhe Hlv Hrep Hhigh Hht Hnd Htl Hln Hsm] Hx. set (h' := <[_ := _]> h).
  assert (Hl : forall a i, lev h' a i = lev h a i).
  { intros a i. unfold lev, h'. destruct (decide (a = na N)) as [->|]; [by rewrite lookup_insert_eq, Hx|by rewrite lookup_insert_ne]. }
  assert (Ha : forall a, a <> na N -> attr h' a = attr h a) by (intros a Hne; unfold attr, h'; by rewrite lookup_insert_ne).
  split; try done.
  - rewrite app_comm_cons in *. intros P y R E. destruct (app_cut_cases _ _ _ _ _ _ E) as [(U & EB & ->)|[(<- & <- & <-)|(U & -> & ->)]].
    + destruct (Hrep P y (U ++ N :: C)) as [H1 H2]; [by rewrite EB, <- app_assoc|].
      rewrite Ha by (apply (not_in_after _ _ _ Hnd); rewrite EB; apply elem_of_app; right; by left). split; [done|].
      intros i Hy Hi. rewrite Hl, fwd_with_score. by apply H2.
    + destruct (Hrep (hd :: B) N C eq_refl) as [H1 H2]. split; [|intros i; rewrite Hl; apply H2].
      apply attr_Some in H1 as (nd' & Hnd' & Hq). rewrite Hx in Hnd'. injection Hnd' as <-.
      unfold attr, h', with_score. cbn [na ns ne nh]. rewrite lookup_insert_eq. cbn [fmap option_fmap option_map ele score backward level].
      congruence.
    + destruct (Hrep ((hd :: B) ++ N :: U) y R) as [H1 H2]; [by rewrite <- app_assoc|]. rewrite bk_with_score, Ha.
      * split; [done|]. intros i. rewrite Hl. apply H2.
      * apply NoDup_mid in Hnd as (_ & _ & Hn). intros Hc. apply Hn. rewrite <- Hc, fmap_app. apply elem_of_app. right. by left.
  - intros i Hi. rewrite Hl. by apply Hhigh.
  - apply Forall_app in Hht as [H1 H2]. inversion H2; subst. apply Forall_app. split; [done|]. by constructor.
  - rewrite app_comm_cons, na_with_score. exact Hnd.
  - rewrite Htl, !last_app_cons. destruct C; [done|]. by rewrite !last_cons_cons.
  - rewrite Hln. zlia.
  - revert Hsm. zlia.
Qed.

End Sorted.
