(* ===== verification/ZskiplistQuery.v ===== *)
(** * Score updates, ranks and ranges of skip lists

    The rest of the operations of [t_zset.c], against the sorted sequence of
    [ZskiplistSorted]. *)
From Stdlib Require Import ZArith Lia String Sorting.Sorted.
From stdpp Require Import base numbers list option gmap infinite.
From S2P Require Import Prelude Sds SdsRefine Zskiplist ZskiplistShape ZskiplistRefine ZskiplistSorted.

Section Query.
Context {D : Type} `{ScoreLaws D}.

Abbreviation heap := (gmap addr (zskiplistNode D)).
Abbreviation snode := (@snode D).
Implicit Types (h : heap) (zsl : zskiplist) (x a : addr) (L B C T : list snode) (y n hd N c : snode) (i j k zl : nat).
Implicit Types (p q : D * sds) (l : list (D * sds)).

(** ** Changing a score *)

Lemma sorted_rescored l1 l2 s (e : sds) : sorted (l1 ++ l2) ->
  (forall q, last l1 = Some q -> slt q.1 s = true) -> (forall q, head l2 = Some q -> slt s q.1 = true) ->
  sorted (l1 ++ (s, e) :: l2).
Proof.
  unfold sorted. rewrite !SSorted_app. intros (H1 & H2 & H3) Hlast Hhead.
  assert (Hb : forall q, q ∈ l1 -> klt q (s, e) = true).
  { intros q Hq. apply klt_spec. left. cbn [fst]. destruct l1 as [|q0 l1'] using rev_ind; [by apply elem_of_nil in Hq|]. clear IHl1'.
    specialize (Hlast q0). rewrite last_snoc in Hlast. specialize (Hlast eq_refl).
    apply elem_of_app in Hq as [Hq| ->%list_elem_of_singleton]; [|done].
    apply SSorted_app in H1 as (_ & _ & H1). specialize (H1 q q0 Hq ltac:(by left)). apply klt_spec in H1 as [H1|[-> _]]; [|done].
    by eapply slt_trans. }
  assert (Ha : forall q, q ∈ l2 -> klt (s, e) q = true).
  { intros q Hq. apply klt_spec. left. cbn [fst]. destruct l2 as [|q0 l2']; [by apply elem_of_nil in Hq|].
    specialize (Hhead q0 eq_refl). apply elem_of_cons in Hq as [->|Hq]; [done|]. inversion H2 as [|? ? _ Hf]; subst.
    rewrite Forall_forall in Hf. specialize (Hf q Hq). apply klt_spec in Hf as [Hf|[<- _]]; [|done]. by eapply slt_trans. }
  split_and!; [done| |].
  - constructor; [done|]. by apply Forall_forall.
  - intros q r Hq [->|Hr]%elem_of_cons; [by apply Hb|by apply H3].
Qed.

Lemma vals_last B l : vals B l -> match last B with Some n => exists q, last l = Some q /\ ns n = q.1 /\ ne n = Some q.2 | None => l = [] end.
Proof.
  intros Hv. apply (f_equal last) in Hv. rewrite !fmap_last in Hv. destruct (last B) as [n|] eqn:En; cbn in Hv.
  - destruct (last l) as [q|]; [|done]. cbn in Hv. injection Hv as ? ?. by exists q.
  - destruct (last l) as [q|] eqn:E; [done|]. by apply last_None in E.
Qed.

(** The two tests that let the node stay where it is. *)
Lemma prev_ok h zsl hd B C l (new : D) : wf h zsl hd (B ++ C) -> vals B l ->
  match bk (hd :: B) with None => Some true | Some b => bn ← h !! b; Some (slt (score bn) new) end =
  Some (match last l with Some q => slt q.1 new | None => true end).
Proof.
  intros Hwf HB. rewrite <- (app_nil_r B) at 1. pose proof (proj2 (tail_link hd B [] hd)) as Hb. cbn match in Hb.
  rewrite app_nil_r in *. rewrite Hb. pose proof (vals_last B l HB) as Hl. destruct (last B) as [n|] eqn:En; cbn [fmap option_fmap option_map].
  - destruct Hl as (q & -> & Hq & _). apply last_Some in En as [B' ->].
    destruct (rep_node _ _ _ (hd :: B') n C (wf_rep _ _ _ _ Hwf)) as (nd & -> & _ & Hs & _); [cbn; by rewrite <- app_assoc|].
    cbn. by rewrite Hs, Hq.
  - by rewrite Hl.
Qed.

Lemma next_ok h zsl hd B N C l (new : D) : wf h zsl hd (B ++ N :: C) -> vals C l ->
  lev h (na N) 0 = Some (fwd 0 C) /\
  match fst (fwd 0 C) with None => Some true | Some f => fn ← h !! f; Some (slt new (score fn)) end =
  Some (match head l with Some q => slt new q.1 | None => true end).
Proof.
  intros Hwf HC. pose proof (wf_heights _ _ _ _ Hwf) as Hht. apply Forall_app in Hht as [_ Hht]. inversion Hht as [|? ? HN HhtC]; subst.
  pose proof (wf_level _ _ _ _ Hwf). split.
  - apply (rep_lev _ _ _ (hd :: B) N C 0 (wf_rep _ _ _ _ Hwf)); [done|lia..].
  - destruct C as [|c C], l as [|q l]; [done|done|done|]. unfold vals in HC. cbn in HC. injection HC as Hs _ _.
    cbn [fwd head]. inversion HhtC. rewrite decide_True by lia. cbn [fst].
    destruct (rep_node _ _ _ (hd :: B ++ [N]) c C (wf_rep _ _ _ _ Hwf)) as (nd & -> & _ & Hs' & _); [cbn; by rewrite <- app_assoc|].
    cbn. by rewrite Hs', Hs.
Qed.

Lemma update_spec rnd junk h zsl hd L l cur key new : wf h zsl hd L -> vals L l -> sorted l -> (cur, key) ∈ l ->
  (forall s, (s, key) ∈ l -> s = cur) -> Exists (fun r => 16383 < Z.land r 65535) rnd ->
  exists h' zsl' N L' l', zslUpdateScore rnd junk h zsl cur key new = Some (h', zsl', na N) /\ wf h' zsl' hd L' /\ N ∈ L' /\
    ns N = new /\ ne N = Some key /\ vals L' l' /\ sorted l' /\ l' ≡ₚ (new, key) :: filter (fun q => q <> (cur, key)) l.
Proof.
  intros Hwf Hv Hs Hp Huniq Hrnd. unfold zslUpdateScore.
  destruct (locate h zsl hd L l (cur, key) 63 Hwf Hv Hs Hp) as (B & N & C & l1 & l2 & -> & -> & HB & HC & HNs & HNe & Hfind); [lia|].
  cbn [fst snd] in *. change (63 + 1) with 64 in Hfind. rewrite Hfind. cbn [mbind option_bind].
  rewrite (candidate_ok _ _ _ _ _ Hwf). cbn [mbind option_bind head fmap option_fmap option_map].
  destruct (rep_node _ _ _ (hd :: B) N C (wf_rep _ _ _ _ Hwf) eq_refl) as (nd & Hnd & He & Hsc & Hbk).
  rewrite Hnd. cbn [mbind option_bind]. rewrite Hsc, He, HNs, HNe. unfold node_cmp.
  rewrite bool_decide_eq_true_2, sdscmp_lex, lexcmp_refl by done. cbn [andb Z.eqb negb].
  pose proof (sorted_nodup _ Hs) as Hn. rewrite (filter_ne_app (cur, key) l1 l2 Hn).
  assert (Hnew : forall s, (s, key) ∉ l1 ++ l2).
  { intros s Hc. assert (s = cur) as ->.
    { apply Huniq. apply elem_of_app in Hc as [?|?]; apply elem_of_app; [by left|right; by right]. }
    rewrite <- Permutation_middle in Hn. apply NoDup_cons in Hn as [Hn _]. done. }
  rewrite Hbk, (prev_ok h zsl hd B (N :: C) l1 new Hwf HB). cbn [mbind option_bind].
  destruct (next_ok h zsl hd B N C l2 new Hwf HC) as [Hl0 Hnx]. rewrite Hl0. cbn [mbind option_bind]. rewrite Hnx.
  set (bp := match last l1 with Some q => slt q.1 new | None => true end).
  set (bn := match head l2 with Some q => slt new q.1 | None => true end).
  assert (Hok : (if bp then Some bn else Some false) = Some (bp && bn)) by by destruct bp. rewrite Hok. cbn [mbind option_bind].
  destruct (bp && bn) eqn:Eok.
  - apply andb_true_iff in Eok as [Ep En]. exists (<[na N := {| ele := ele nd; score := new; backward := backward nd; level := level nd |}]> h).
    exists zsl, (with_score N new), (B ++ with_score N new :: C), (l1 ++ (new, key) :: l2). split_and!.
    + by rewrite He, HNe, Hbk.
    + by apply wf_score.
    + apply elem_of_app. right. by left.
    + done.
    + done.
    + by apply vals_app, vals_cons.
    + apply sorted_rescored; [by eapply sorted_del|intros q Hq; unfold bp in Ep; by rewrite Hq in Ep|intros q Hq; unfold bn in En; by rewrite Hq in En].
    + by rewrite Permutation_middle.
  - destruct (drop_node h zsl hd B N C (updates hd B (Z.to_nat (zsl_level zsl))) Hwf) as (h1 & zsl1 & -> & Hwf1 & _ & _ & Hx & nd1 & Hnd1 & He1);
      [intros i; by eapply updates_valid|].
    cbn [mbind option_bind fst snd].
    pose proof (sorted_del _ _ _ Hs) as Hs1. pose proof (vals_app _ _ _ _ HB HC) as Hv1.
    destruct (zsl_insert_spec rnd junk h1 zsl1 hd (B ++ C) (l1 ++ l2) new key Hwf1 Hv1 Hs1)
      as (h2 & zsl2 & N' & B' & C' & Hi & EL & Hwf2 & HN's & HN'e & Hfr & HB' & HC'); [|done|].
    { rewrite <- (vals_len _ _ Hv1). pose proof (wf_small _ _ _ _ Hwf) as Hsm. revert Hsm. zlia. }
    rewrite Hi. cbn [mbind option_bind]. exists (zslFreeNode h2 (na N)), zsl2, N', (B' ++ N' :: C').
    exists (yes (fun q => klt q (new, key)) (l1 ++ l2) ++ (new, key) :: no (fun q => klt q (new, key)) (l1 ++ l2)).
    split_and!; [done| | |exact HN's|exact HN'e|exact (vals_app _ _ _ _ HB' (vals_cons N' (new, key) _ _ HN's HN'e HC'))| |].
    + apply wf_free; [|exact Hwf2]. rewrite app_comm_cons, fmap_app, (fmap_cons na N'), <- Permutation_middle. apply not_elem_of_cons. split.
      * apply Hfr. unfold attr. by rewrite Hnd1.
      * rewrite <- fmap_app. cbn [app]. by rewrite <- EL.
    + apply elem_of_app. right. by left.
    + by apply sorted_put.
    + rewrite <- Permutation_middle. f_equiv. by rewrite <- (cut_yes_no _ _ (klt_downward (new, key) _ Hs1)).
Qed.

(** ** Ranks *)

Section Ranks.
Context (h : heap) (zsl : zskiplist) (hd : snode) (B C : list snode).
Hypothesis Hwf : wf h zsl hd (B ++ C).

Lemma rank_small : zlen (hd :: B ++ C) < 2 ^ 64.
Proof. pose proof (wf_small _ _ _ _ Hwf). rewrite zlen_cons. lia. Qed.

Lemma whole P n T : hd :: B = P ++ n :: T -> zlen P = zlen B -> T = [].
Proof. intros E Hl. destruct T as [|t T]; [done|]. apply (f_equal zlen) in E. revert E. zlia. Qed.

Lemma whole_len P n : hd :: B = P ++ [n] -> zlen P = zlen B.
Proof. intros E. apply (f_equal zlen) in E. revert E. zlia. Qed.

Lemma cursor_node P n T : hd :: B = P ++ n :: T -> exists nd, h !! na n = Some nd /\ ele nd = ne n /\ score nd = ns n.
Proof.
  intros E. destruct (rep_node _ _ _ P n (T ++ C) (wf_rep _ _ _ _ Hwf)) as (nd & H1 & H2 & H3 & _); [|by exists nd].
  by rewrite app_comm_cons, E, <- app_assoc.
Qed.

(** The search for the rank of [key], which at most the last node of [B] holds. *)
Lemma getrank_ok s key k (b : bool) : (forall P n R nd, B ++ C = P ++ n :: R -> h !! na n = Some nd -> ele nd = ne n -> score nd = ns n ->
    upto_key s key nd (zlen P + 1) = bool_decide (zlen P < zlen B)) ->
  (forall P n T, hd :: B = P ++ n :: T -> ne n = Some key -> T = []) ->
  (forall P n, hd :: B = P ++ [n] -> ne n = Some key <-> b = true) ->
  forall P y B' fuel, hd :: B = P ++ y :: B' -> (1 <= k <= nh y)%nat -> (k <= Z.to_nat (zsl_level zsl))%nat -> (length B < fuel)%nat ->
  getrank_loop k fuel h (na y) (zlen P) s key = Some (if b then zlen B else 0).
Proof.
  intros Hcond Huniq Hb. induction k as [|k IH]; intros P y B' fuel E Hy Hk Hf; [lia|]. cbn [getrank_loop].
  destruct (level_ok h _ hd B C 64 _ (wf_rep _ _ _ _ Hwf) rank_small Hcond k P y B' fuel E) as (P1 & n & T & E1 & HT & Hn & _ & ->); [lia..|].
  cbn [mbind option_bind fst snd]. destruct (cursor_node _ _ _ E1) as (nd & -> & He & _). cbn [mbind option_bind]. rewrite He.
  destruct (decide (ne n = Some key)) as [Hk1|Hk1].
  - rewrite Hk1, sdscmp_lex, lexcmp_refl. cbn [Z.eqb]. pose proof (Huniq _ _ _ E1 Hk1) as ->.
    rewrite (proj1 (Hb _ _ E1) Hk1). by rewrite (whole_len _ _ E1).
  - replace (match ne n with Some e => sdscmp e key =? 0 | None => false end) with false.
    2:{ destruct (ne n) as [e|]; [|done]. symmetry. apply Z.eqb_neq. rewrite sdscmp_lex, lexcmp_eq. congruence. }
    destruct (decide (k = 0)%nat) as [->|Hk0]; [|apply (IH _ _ _ _ E1); lia].
    pose proof (low0_nil _ _ _ _ _ _ _ _ Hwf E1 HT) as ->. destruct b; [|done]. by rewrite (proj2 (Hb _ _ E1) eq_refl) in Hk1.
Qed.

(** The search for a rank: [B] are the nodes up to it. *)
Lemma byrank_ok rank k : zlen B = Z.min rank (zlen (B ++ C)) ->
  forall P y B' fuel, hd :: B = P ++ y :: B' -> (1 <= k <= nh y)%nat -> (k <= Z.to_nat (zsl_level zsl))%nat -> (length B < fuel)%nat ->
  byrank_loop k fuel h (na y) (zlen P) rank = Some (if rank <=? zlen (B ++ C) then na <$> last (hd :: B) else None).
Proof.
  intros Hr. induction k as [|k IH]; intros P y B' fuel E Hy Hk Hf; [lia|]. cbn [byrank_loop].
  destruct (level_ok h _ hd B C 64 (fun _ (r : Z) => r <=? rank) (wf_rep _ _ _ _ Hwf) rank_small) with (k := k) (P := P) (y := y) (B' := B') (fuel := fuel)
    as (P1 & n & T & E1 & HT & Hn & _ & ->); [|done|lia..|].
  { intros Q m R nd E1 _ _ _. apply (f_equal zlen) in E1. apply eq_true_iff_eq. rewrite bool_decide_eq_true, Z.leb_le.
    revert E1 Hr. zlia. }
  cbn [mbind option_bind fst snd]. pose proof (f_equal zlen E1) as HP. destruct (zlen P1 =? rank) eqn:Eq.
  - apply Z.eqb_eq in Eq. assert (zlen B = rank) by (revert HP Hr; zlia). rewrite (proj2 (Z.leb_le _ _)) by (revert Hr; zlia).
    pose proof (whole _ _ _ E1 ltac:(lia)) as ->. by rewrite E1, last_snoc.
  - destruct (decide (k = 0)%nat) as [->|Hk0]; [|apply (IH _ _ _ _ E1); lia].
    pose proof (low0_nil _ _ _ _ _ _ _ _ Hwf E1 HT) as ->. apply Z.eqb_neq in Eq.
    rewrite (proj2 (Z.leb_gt _ _)) by (pose proof (whole_len _ _ E1); revert Hr; zlia). done.
Qed.
End Ranks.

Lemma fuel_ok h zsl hd B C : wf h zsl hd (B ++ C) -> (length B < zsl_fuel zsl)%nat.
Proof. intros Hwf. unfold zsl_fuel. rewrite (wf_len _ _ _ _ Hwf). unfold zlen. rewrite length_app. lia. Qed.

Lemma yes_upto l1 p l2 : sorted (l1 ++ p :: l2) -> yes (fun q => negb (klt p q)) (l1 ++ p :: l2) = l1 ++ [p].
Proof.
  intros (_ & H2 & H3)%SSorted_app. unfold yes. rewrite filter_app, filter_cons_True by (by rewrite klt_irrefl). inversion H2 as [|? ? _ Hf]; subst.
  f_equal; [|f_equal].
  - assert (Hx : forall q, q ∈ l1 -> negb (klt p q) = true).
    { intros q Hq. specialize (H3 q p Hq ltac:(by left)). destruct (klt p q) eqn:E; [|done]. pose proof (klt_trans _ _ _ H3 E) as Hx.
      by rewrite klt_irrefl in Hx. }
    clear -Hx. induction l1 as [|q l IH]; [done|]. rewrite filter_cons_True by (apply Hx; by left). f_equal. apply IH.
    intros r Hr. apply Hx. by right.
  - clear -Hf. induction Hf as [|q l Hq _ IH]; [done|]. rewrite filter_cons_False; [done|]. by rewrite Hq.
Qed.

Lemma header_no_key h zsl hd L l P n T key : wf h zsl hd L -> vals L l -> hd :: L = P ++ n :: T -> ne n = Some key ->
  exists l1 q l2, l = l1 ++ q :: l2 /\ q.2 = key /\ vals T l2.
Proof.
  intros Hwf Hv E Hk. destruct P as [|p P]; cbn [app] in E; injection E as -> ->.
  { by rewrite (wf_hele _ _ _ _ Hwf) in Hk. }
  unfold vals in Hv. rewrite fmap_app in Hv. symmetry in Hv. apply fmap_app_inv in Hv as (l1 & l2 & Hl1 & Hl2 & ->).
  destruct l2 as [|q l2]; [done|]. cbn in Hl2. injection Hl2 as _ Hq Hl2. exists l1, q, l2. split_and!; [done| |by symmetry].
  rewrite Hk in Hq. by injection Hq.
Qed.

Lemma getrank_search h zsl hd B C s key b : wf h zsl hd (B ++ C) ->
  (forall P n R nd, B ++ C = P ++ n :: R -> h !! na n = Some nd -> ele nd = ne n -> score nd = ns n ->
    upto_key s key nd (zlen P + 1) = bool_decide (zlen P < zlen B)) ->
  (forall P n T, hd :: B = P ++ n :: T -> ne n = Some key -> T = []) ->
  (forall P n, hd :: B = P ++ [n] -> ne n = Some key <-> b = true) ->
  zslGetRank h zsl s key = Some (if b then zlen B else 0).
Proof.
  intros Hwf Hcond Hu Hb. unfold zslGetRank. rewrite (wf_header _ _ _ _ Hwf). pose proof (wf_level _ _ _ _ Hwf).
  apply (getrank_ok h zsl hd B C Hwf s key _ b Hcond Hu Hb [] hd B); [done| |done|by eapply fuel_ok].
  rewrite (wf_top _ _ _ _ Hwf). lia.
Qed.

Lemma key_last l1 p l2 la q lt : NoDup (l1 ++ p :: l2).*2 -> l1 ++ [p] = la ++ q :: lt -> q.2 = p.2 -> lt = [].
Proof.
  intros Hnd E Hq. destruct lt as [|r lt] using rev_ind; [done|]. clear IHlt. exfalso.
  rewrite app_comm_cons, app_assoc in E. apply app_inj_tail in E as [-> <-].
  rewrite <- app_assoc, fmap_app in Hnd. apply NoDup_app in Hnd as (_ & _ & Hnd). cbn [app] in Hnd. rewrite fmap_cons in Hnd.
  apply NoDup_cons in Hnd as [Hn _]. apply Hn. rewrite Hq, fmap_app. apply elem_of_app. right. by left.
Qed.

Lemma rank_spec h zsl hd L l p i : wf h zsl hd L -> vals L l -> sorted l -> NoDup l.*2 -> l !! i = Some p ->
  zslGetRank h zsl p.1 p.2 = Some (Z.of_nat i + 1).
Proof.
  intros Hwf Hv Hs Hnd Hi.
  destruct (cut_by h L l _ _ Hv (kle_downward p l Hs) (upto_tests p)) as (B & C & -> & HB & HC & Hcond).
  apply list_elem_of_split_length in Hi as (l1 & l2 & -> & ->). rewrite yes_upto in HB by done.
  assert (HB' : exists B0 N, B = B0 ++ [N] /\ ne N = Some p.2).
  { pose proof HB as HB'. apply vals_app_inv in HB' as (B0 & B1 & -> & _ & HB1).
    destruct (vals_cons_inv _ _ _ HB1) as (N & C' & -> & _ & HN & HC'). destruct C'; [|done]. by exists B0, N. }
  destruct HB' as (B0 & N & -> & HN).
  rewrite (getrank_search h zsl hd (B0 ++ [N]) C p.1 p.2 true Hwf Hcond).
  - rewrite (vals_len _ _ HB). autorewrite with zlen. unfold zlen. done.
  - intros P n T E Hk. destruct P as [|m P]; cbn [app] in E; injection E as -> E.
    { by rewrite (wf_hele _ _ _ _ Hwf) in Hk. }
    rewrite E in HB. unfold vals in HB. rewrite fmap_app in HB. symmetry in HB. apply fmap_app_inv in HB as (la & lb & Hla & Hlb & El).
    destruct lb as [|q lb]; [done|]. cbn in Hlb. injection Hlb as _ Hq Hlb. rewrite Hk in Hq. injection Hq as Hq.
    rewrite (key_last l1 p l2 la q lb Hnd El (eq_sym Hq)) in Hlb. by destruct T.
  - intros P n E. rewrite app_comm_cons in E. apply app_inj_tail in E as [_ <-]. done.
Qed.

Lemma rank_absent h zsl hd L l s key : wf h zsl hd L -> vals L l -> sorted l -> key ∉ l.*2 ->
  zslGetRank h zsl s key = Some 0.
Proof.
  intros Hwf Hv Hs Hk.
  destruct (cut_by h L l _ _ Hv (kle_downward (s, key) l Hs) (upto_tests (s, key))) as (B & C & -> & HB & HC & Hcond).
  assert (Hno : forall P n T, hd :: B = P ++ n :: T -> ne n <> Some key).
  { intros P n T E Hn. apply Hk. destruct (header_no_key h zsl hd (B ++ C) l P n (T ++ C) key Hwf Hv) as (l1 & q & l2 & -> & <- & _);
      [by rewrite app_comm_cons, E, <- app_assoc|done|]. rewrite fmap_app. apply elem_of_app. right. by left. }
  apply (getrank_search h zsl hd B C s key false Hwf Hcond).
  - intros P n T E Hn. by destruct (Hno P n T E).
  - intros P n E. split; [|done]. intros Hn. by destruct (Hno P n [] E).
Qed.

Lemma byrank_spec h zsl hd L l rank : wf h zsl hd L -> vals L l -> 1 <= rank ->
  exists xo, zslGetElementByRank h zsl rank = Some xo /\
    match xo with Some x => exists p, l !! Z.to_nat (rank - 1) = Some p /\ holds h x p | None => zlen l < rank end.
Proof.
  intros Hwf Hv Hr. rewrite <- (take_drop (Z.to_nat rank) L) in Hwf. set (B := take (Z.to_nat rank) L) in *. set (C := drop (Z.to_nat rank) L) in *.
  unfold zslGetElementByRank. rewrite (wf_header _ _ _ _ Hwf). pose proof (wf_level _ _ _ _ Hwf) as Hzl.
  change 0 with (zlen (@nil snode)).
  rewrite (byrank_ok h zsl hd B C Hwf rank (Z.to_nat (zsl_level zsl))) with (B' := B);
    [|unfold B, C; rewrite take_drop; unfold zlen; rewrite length_take; lia|done| |done|by eapply fuel_ok].
  2:{ rewrite (wf_top _ _ _ _ Hwf). lia. }
  eexists. split; [done|]. pose proof (vals_len _ _ Hv) as HL. unfold B, C at 1. rewrite take_drop, HL.
  destruct (rank <=? zlen l) eqn:E; [|lia]. fold B.
  destruct (lookup_lt_is_Some_2 L (Z.to_nat (rank - 1))) as [n Hn]; [unfold zlen in *; lia|].
  assert (HB : B = take (Z.to_nat (rank - 1)) L ++ [n]).
  { unfold B. replace (Z.to_nat rank) with (S (Z.to_nat (rank - 1))) by lia. by apply take_S_r. }
  rewrite HB, app_comm_cons, last_snoc. cbn [fmap option_fmap option_map].
  assert (Hkv : (kv <$> L) !! Z.to_nat (rank - 1) = Some (kv n)) by (by rewrite list_lookup_fmap, Hn).
  rewrite Hv, list_lookup_fmap in Hkv. destruct (l !! Z.to_nat (rank - 1)) as [p|]; [|done]. cbn in Hkv. injection Hkv as Hs He.
  exists p. split; [done|]. eapply holds_node; [exact Hwf| |done..]. rewrite HB. right. rewrite <- app_assoc. apply elem_of_app. right. by left.
Qed.

(** ** The first and the last element of a range *)

Section Range.
Context (lo hi : D * sds -> bool) (l : list (D * sds)).
Hypothesis Hlo : downward (fun p => negb (lo p)) l.
Hypothesis Hhi : downward hi l.

Definition inside_range p : bool := lo p && hi p.

Lemma first_cut p : head (no (fun p => negb (lo p)) l) = Some p ->
  if hi p then head (yes inside_range l) = Some p else yes inside_range l = [].
Proof.
  intros Hp. rewrite (cut_yes_no _ l Hlo), yes_app, (yes_none _ (yes _ l)).
  2:{ intros q [_ Hq]%yes_In. unfold inside_range. by rewrite (proj1 (negb_true_iff _) Hq). }
  pose proof Hhi as Hd. rewrite (cut_yes_no _ l Hlo) in Hd. apply SSorted_app in Hd as (_ & Hd & _).
  assert (Hin : forall q, q ∈ no (fun p => negb (lo p)) l -> lo q = true) by (intros q [_ Hq]%no_In; by apply negb_false_iff).
  destruct (no (fun p => negb (lo p)) l) as [|q l2]; [done|]. injection Hp as ->. cbn [app].
  destruct (hi p) eqn:Eh.
  - unfold yes. rewrite filter_cons_True; [done|]. unfold inside_range. by rewrite Hin, Eh by by left.
  - apply yes_none. intros q Hq. unfold inside_range. inversion Hd as [|? ? _ Hf]; subst. rewrite Forall_forall in Hf.
    apply elem_of_cons in Hq as [->|Hq]; [by rewrite Eh, andb_false_r|]. specialize (Hf q Hq). cbv beta in Hf.
    destruct (hi q); [|by rewrite andb_false_r]. rewrite Hf in Eh; done.
Qed.

Lemma last_cut p : last (yes hi l) = Some p ->
  if lo p then last (yes inside_range l) = Some p else yes inside_range l = [].
Proof.
  intros Hp. rewrite (cut_yes_no _ l Hhi), yes_app, (yes_none _ (no _ l)), app_nil_r.
  2:{ intros q [_ Hq]%no_In. unfold inside_range. by rewrite Hq, andb_false_r. }
  pose proof Hlo as Hd. rewrite (cut_yes_no _ l Hhi) in Hd. apply SSorted_app in Hd as (Hd & _ & _).
  assert (Hin : forall q, q ∈ yes hi l -> hi q = true) by (by intros q [_ Hq]%yes_In).
  destruct (yes hi l) as [|q l2] using rev_ind; [done|]. clear IHl2. rewrite last_snoc in Hp. injection Hp as ->.
  destruct (lo p) eqn:El.
  - assert (E1 : yes inside_range [p] = [p]).
    { unfold yes. rewrite filter_cons_True; [done|]. unfold inside_range. rewrite El, Hin; [done|]. apply elem_of_app. right. by left. }
    by rewrite yes_app, E1, last_snoc.
  - apply yes_none. intros q Hq. unfold inside_range. apply SSorted_app in Hd as (_ & _ & Hd).
    apply elem_of_app in Hq as [Hq| ->%list_elem_of_singleton]; [|by rewrite El].
    specialize (Hd q p Hq ltac:(by left)). cbv beta in Hd. rewrite El in Hd. by rewrite (proj1 (negb_true_iff _) (Hd eq_refl)).
Qed.

(** The quick tests of the ends of the list. *)
Lemma last_out p : last l = Some p -> lo p = false -> yes inside_range l = [].
Proof.
  intros [l' E]%last_Some Hp. pose proof Hlo as Hd. rewrite E in Hd. rewrite E. apply SSorted_app in Hd as (_ & _ & Hd). apply yes_none.
  intros q Hq. unfold inside_range. apply elem_of_app in Hq as [Hq| ->%list_elem_of_singleton]; [|by rewrite Hp].
  specialize (Hd q p Hq ltac:(by left)). cbv beta in Hd. rewrite Hp in Hd. by rewrite (proj1 (negb_true_iff _) (Hd eq_refl)).
Qed.

Lemma head_out p : head l = Some p -> hi p = false -> yes inside_range l = [].
Proof.
  clear Hlo. pose proof Hhi as Hd. destruct l as [|q l']; [done|]. intros [= ->] Hp. apply yes_none. inversion Hd as [|? ? _ Hf]; subst.
  rewrite Forall_forall in Hf. intros q Hq. unfold inside_range. apply elem_of_cons in Hq as [->|Hq]; [by rewrite Hp, andb_false_r|].
  specialize (Hf q Hq). cbv beta in Hf. destruct (hi q); [|by rewrite andb_false_r]. by rewrite Hf in Hp.
Qed.

(** [in_range_test b]: what the two [IsInRange] functions promise. *)
Definition in_range_test (b : bool) : Prop :=
  if b then (exists p, p ∈ l /\ lo p = true) /\ (exists p, p ∈ l /\ hi p = true) else yes inside_range l = [].

(** The result of a search for an end of the range. *)
Definition range_end h (end_ : list (D * sds) -> option (D * sds)) (xo : option addr) : Prop :=
  match xo with
  | Some x => exists p, end_ (yes inside_range l) = Some p /\ holds h x p
  | None => yes inside_range l = []
  end.

Lemma first_generic h zsl hd L cond : wf h zsl hd L -> vals L l -> tests (fun p => negb (lo p)) cond ->
  (exists p, p ∈ l /\ lo p = true) ->
  exists upd x p, zsl_find 64 cond h zsl = Some upd /\ zsl_candidate h upd = Some (Some x) /\ holds h x p /\
    range_end h head (if hi p then Some x else None).
Proof.
  intros Hwf Hv Ht (q & Hq & Hlq). pose proof (wf_small _ _ _ _ Hwf).
  destruct (find_by h zsl hd L l 64 _ cond Hwf Hv Hlo Ht) as (B & C & -> & HB & HC & Hf); [lia|].
  pose proof first_cut as Hcut. destruct (no (fun p => negb (lo p)) l) as [|p l2] eqn:Eno.
  { exfalso. apply (not_elem_of_nil q). rewrite <- Eno. apply no_In. split; [done|]. by rewrite Hlq. }
  destruct (vals_cons_inv _ _ _ HC) as (n & C' & -> & Hs & He & _).
  assert (Hh : holds h (na n) p) by (eapply holds_node; [done| |done..]; right; apply elem_of_app; right; by left).
  exists (updates hd B (Z.to_nat (zsl_level zsl))), (na n), p. split_and!; [done|by rewrite (candidate_ok _ _ _ _ _ Hwf)|done|].
  specialize (Hcut p eq_refl). unfold range_end. destruct (hi p); [by exists p|done].
Qed.

Lemma last_generic h zsl hd L cond : wf h zsl hd L -> vals L l -> tests hi cond ->
  (exists p, p ∈ l /\ hi p = true) ->
  exists upd x r p, zsl_find 64 cond h zsl = Some upd /\ upd !! 0%nat = Some (x, r) /\ holds h x p /\
    range_end h last (if lo p then Some x else None).
Proof.
  intros Hwf Hv Ht (q & Hq & Hhq). pose proof (wf_small _ _ _ _ Hwf). pose proof (wf_level _ _ _ _ Hwf).
  destruct (find_by h zsl hd L l 64 _ cond Hwf Hv Hhi Ht) as (B & C & -> & HB & HC & Hf); [lia|].
  destruct (pred0 _ _ _ _ _ Hwf) as (P & n & E & Hp & _).
  pose proof last_cut as Hcut. pose proof (vals_last B _ HB) as Hl. destruct (last B) as [m|] eqn:Em.
  2:{ exfalso. apply (not_elem_of_nil q). rewrite <- Hl. by apply yes_In. }
  destruct Hl as (p & Hlp & Hs & He). apply last_Some in Em as [B' ->]. rewrite app_comm_cons in E. apply app_inj_tail in E as [_ <-].
  assert (Hh : holds h (na m) p).
  { eapply holds_node; [done| |done..]. right. rewrite <- app_assoc. apply elem_of_app. right. by left. }
  do 2 eexists. exists (zlen (B' ++ [m])), p. split_and!; [done|rewrite updates_lookup, Hp by lia; done|done|].
  specialize (Hcut p Hlp). unfold range_end. destruct (lo p); [by exists p|done].
Qed.
End Range.

Lemma ends_ok h zsl hd L l : wf h zsl hd L -> vals L l ->
  match zsl_tail zsl with Some t => exists p, last l = Some p /\ holds h t p | None => l = [] end /\
  exists fo, lev h (zsl_header zsl) 0 = Some fo /\
  match fst fo with Some f => exists p, head l = Some p /\ holds h f p | None => l = [] end.
Proof.
  intros Hwf Hv. split.
  - rewrite (wf_tail _ _ _ _ Hwf). pose proof (vals_last L l Hv) as Hl. destruct (last L) as [n|] eqn:En; cbn [fmap option_fmap option_map]; [|done].
    destruct Hl as (p & Hl & Hs & He). exists p. split; [done|]. eapply holds_node; [done| |done..]. right. by apply last_Some_elem_of.
  - exists (fwd 0 L). pose proof (wf_level _ _ _ _ Hwf). rewrite (wf_header _ _ _ _ Hwf). split.
    + apply (rep_lev _ _ _ [] hd L 0 (wf_rep _ _ _ _ Hwf)); [done|rewrite (wf_top _ _ _ _ Hwf); lia|lia].
    + pose proof (wf_heights _ _ _ _ Hwf) as Hht. destruct L as [|n L]; [by destruct l|]. inversion Hht. cbn [fwd]. rewrite decide_True by lia.
      cbn [fst]. destruct l as [|p l]; [done|]. unfold vals in Hv. cbn in Hv. injection Hv as Hs He _. exists p. split; [done|].
      eapply holds_node; [done| |done..]. right. by left.
Qed.

(** *** Ranges of scores *)

Lemma klt_score p q : klt p q = true -> slt p.1 q.1 = true \/ p.1 = q.1.
Proof. rewrite klt_spec. tauto. Qed.

Lemma sle_spec (s t : D) : sle s t = true <-> slt s t = true \/ s = t.
Proof. unfold sle. by rewrite orb_true_iff, bool_decide_eq_true. Qed.

Lemma gte_mono (s t : D) range : slt s t = true \/ s = t -> zslValueGteMin s range = true -> zslValueGteMin t range = true.
Proof.
  intros [Hst| ->] Hg; [|done]. unfold zslValueGteMin in *. destruct (minex range); [by eapply slt_trans|].
  apply sle_spec. apply sle_spec in Hg as [Hg| ->]; left; [by eapply slt_trans|done].
Qed.

Lemma lte_mono (s t : D) range : slt s t = true \/ s = t -> zslValueLteMax t range = true -> zslValueLteMax s range = true.
Proof.
  intros [Hst| ->] Hg; [|done]. unfold zslValueLteMax in *. destruct (maxex range); [by eapply slt_trans|].
  apply sle_spec. apply sle_spec in Hg as [Hg| <-]; left; [by eapply slt_trans|done].
Qed.

Definition score_lo (range : zrangespec D) p : bool := zslValueGteMin p.1 range.
Definition score_hi (range : zrangespec D) p : bool := zslValueLteMax p.1 range.

Lemma score_lo_down range l : sorted l -> downward (fun p => negb (score_lo range p)) l.
Proof.
  apply SSorted_impl. intros p q _ _ Hpq%klt_score. rewrite !negb_true_iff. intros Hq. destruct (score_lo range p) eqn:E; [|done].
  by rewrite <- Hq, <- (gte_mono _ _ _ Hpq E).
Qed.

Lemma score_hi_down range l : sorted l -> downward (score_hi range) l.
Proof. apply SSorted_impl. intros p q _ _ Hpq%klt_score. by apply lte_mono. Qed.

Lemma is_in_range_ok h zsl hd L l range : wf h zsl hd L -> vals L l -> sorted l ->
  exists b, zslIsInRange h zsl range = Some b /\ in_range_test (score_lo range) (score_hi range) l b.
Proof.
  intros Hwf Hv Hs. destruct (ends_ok h zsl hd L l Hwf Hv) as (Ht & fo & Hl0 & Hf). unfold zslIsInRange.
  destruct (slt (rmax range) (rmin range) || _) eqn:E.
  { exists false. split; [done|]. cbn. apply yes_none. intros p _. unfold inside_range, score_lo, score_hi.
    apply not_true_iff_false. intros [H1 H2]%andb_true_iff. unfold zslValueGteMin, zslValueLteMax in *.
    assert (Hle : slt (rmin range) (rmax range) = true \/ (rmin range = rmax range /\ minex range = false /\ maxex range = false)).
    { destruct (minex range), (maxex range); rewrite ?sle_spec in *.
      - left. by eapply slt_trans.
      - destruct H2 as [?| <-]; left; [by eapply slt_trans|done].
      - destruct H1 as [?| ->]; left; [by eapply slt_trans|done].
      - destruct H1 as [?|E1], H2 as [?|E2]; [left; by eapply slt_trans|left; by rewrite <- E2|left; by rewrite E1|right; split_and!; congruence]. }
    apply orb_true_iff in E as [E|[E1%bool_decide_eq_true E2]%andb_true_iff].
    - destruct Hle as [Hle|[Hle _]]; [|by rewrite Hle, slt_irrefl in E]. pose proof (slt_trans _ _ _ E Hle) as Hx. by rewrite slt_irrefl in Hx.
    - destruct Hle as [Hle|(_ & Hm & Hx)]; [by rewrite E1, slt_irrefl in Hle|]. by rewrite Hm, Hx in E2. }
  destruct (zsl_tail zsl) as [t|]; [|exists false; split; [done|]; cbn; by rewrite Ht].
  destruct Ht as (p & Hp & nd & Hnd & _ & Hsc). rewrite Hnd. cbn [mbind option_bind]. rewrite Hsc.
  pose proof (score_lo_down range l Hs) as Hlo. pose proof (score_hi_down range l Hs) as Hhi.
  destruct (zslValueGteMin p.1 range) eqn:Eg; cbn [negb]; [|exists false; split; [done|]; by apply (last_out _ _ _ Hlo p)].
  rewrite Hl0. cbn [mbind option_bind]. destruct (fst fo) as [f|]; [|exists false; split; [done|]; cbn; by rewrite Hf].
  destruct Hf as (q & Hq & nd' & Hnd' & _ & Hsc'). rewrite Hnd'. cbn [mbind option_bind]. rewrite Hsc'. eexists. split; [done|].
  destruct (zslValueLteMax q.1 range) eqn:El; [|by apply (head_out _ _ _ Hhi q)]. cbn. split.
  - exists p. split; [|done]. by apply last_Some_elem_of.
  - exists q. split; [|done]. destruct l; [done|]. injection Hq as ->. by left.
Qed.

Lemma first_in_range_ok h zsl hd L l range : wf h zsl hd L -> vals L l -> sorted l ->
  exists xo, zslFirstInRange h zsl range = Some xo /\ range_end (score_lo range) (score_hi range) l h head xo.
Proof.
  intros Hwf Hv Hs. destruct (is_in_range_ok h zsl hd L l range Hwf Hv Hs) as (b & Hb & Ht). unfold zslFirstInRange. rewrite Hb.
  cbn [mbind option_bind]. destruct b; [|by exists None]. cbn [negb]. destruct Ht as [Ht _].
  destruct (first_generic _ _ l (score_lo_down range l Hs) (score_hi_down range l Hs) h zsl hd L
    (fun nd _ => negb (zslValueGteMin (score nd) range)) Hwf Hv) as (upd & x & p & -> & Hc & (nd & Hnd & He & Hsc) & Hr); [|done|].
  { intros nd r p Hsc _. unfold score_lo. by rewrite Hsc. }
  cbn [mbind option_bind]. rewrite Hc. cbn [mbind option_bind]. rewrite Hnd. cbn [mbind option_bind]. rewrite Hsc.
  eexists. split; [|exact Hr]. unfold score_hi. by destruct (zslValueLteMax p.1 range).
Qed.

Lemma last_in_range_ok h zsl hd L l range : wf h zsl hd L -> vals L l -> sorted l ->
  exists xo, zslLastInRange h zsl range = Some xo /\ range_end (score_lo range) (score_hi range) l h last xo.
Proof.
  intros Hwf Hv Hs. destruct (is_in_range_ok h zsl hd L l range Hwf Hv Hs) as (b & Hb & Ht). unfold zslLastInRange. rewrite Hb.
  cbn [mbind option_bind]. destruct b; [|by exists None]. cbn [negb]. destruct Ht as [_ Ht].
  destruct (last_generic _ _ l (score_lo_down range l Hs) (score_hi_down range l Hs) h zsl hd L
    (fun nd _ => zslValueLteMax (score nd) range) Hwf Hv) as (upd & x & r & p & -> & Hc & (nd & Hnd & He & Hsc) & Hr); [|done|].
  { intros nd r p Hsc _. unfold score_hi. by rewrite Hsc. }
  cbn [mbind option_bind]. rewrite Hc. cbn [mbind option_bind fst]. rewrite Hnd. cbn [mbind option_bind]. rewrite Hsc.
  eexists. split; [|exact Hr]. unfold score_lo. by destruct (zslValueGteMin p.1 range).
Qed.
End Query.
