(* ===== verification/ZskiplistSpec.v ===== *)
(** * Skip lists implement sorted sets of scores

    Ranges of elements, the deletion of ranges, and the properties of the
    operations of the skip list of [t_zset.c], stated with [slist]. *)
From Stdlib Require Import ZArith Lia String Sorting.Sorted.
From stdpp Require Import base numbers list option gmap infinite.
From S2P Require Import Prelude Sds SdsRefine Zskiplist ZskiplistShape ZskiplistRefine ZskiplistSorted ZskiplistQuery.

Section Spec.
Context {D : Type} `{ScoreLaws D}.

Abbreviation heap := (gmap addr (zskiplistNode D)).
Abbreviation snode := (@snode D).
Implicit Types (h : heap) (zsl : zskiplist) (x a : addr) (L B C T : list snode) (y n hd N c : snode) (i j k zl : nat).
Implicit Types (p q : D * sds) (l : list (D * sds)).

(** ** Ranges of elements *)

(** The order of elements and bounds. *)
Lemma lex_gte_mono (e e' : sds) range : lexcmp e e' <= 0 -> zslLexValueGteMin e range = true -> zslLexValueGteMin e' range = true.
Proof.
  intros Hle. unfold zslLexValueGteMin. destruct (lmin range) as [| |m]; cbn [sdscmplex]; [done|done|]. rewrite !sdscmp_lex.
  pose proof (lexcmp_anti e e'). pose proof (lexcmp_anti e m). pose proof (lexcmp_anti e' m).
  assert (lexcmp e' m < 0 -> lexcmp e m < 0).
  { intros Hlt. destruct (decide (lexcmp e e' = 0)) as [->%lexcmp_eq|]; [done|]. apply (lexcmp_trans e e' m); lia. }
  assert (lexcmp e' m = 0 -> lexcmp e m <= 0) by (intros ->%lexcmp_eq; lia).
  destruct (lminex range); rewrite ?Z.ltb_lt, ?Z.leb_le; lia.
Qed.

Lemma lex_lte_mono (e e' : sds) range : lexcmp e e' <= 0 -> zslLexValueLteMax e' range = true -> zslLexValueLteMax e range = true.
Proof.
  intros Hle. unfold zslLexValueLteMax. destruct (lmax range) as [| |m]; cbn [sdscmplex]; [done|done|]. rewrite !sdscmp_lex.
  assert (lexcmp e' m < 0 -> lexcmp e m < 0).
  { intros Hlt. destruct (decide (lexcmp e e' = 0)) as [->%lexcmp_eq|]; [done|]. apply (lexcmp_trans e e' m); lia. }
  assert (lexcmp e' m = 0 -> lexcmp e m <= 0) by (intros ->%lexcmp_eq; lia).
  destruct (lmaxex range); rewrite ?Z.ltb_lt, ?Z.leb_le; lia.
Qed.

Definition lex_lo (range : zlexrangespec) p : bool := zslLexValueGteMin p.2 range.
Definition lex_hi (range : zlexrangespec) p : bool := zslLexValueLteMax p.2 range.

(** The ranges make sense when all the scores are the same. *)
Definition one_score l : Prop := forall p q, p ∈ l -> q ∈ l -> p.1 = q.1.

Lemma klt_one_score l p q : one_score l -> p ∈ l -> q ∈ l -> klt p q = true -> lexcmp p.2 q.2 <= 0.
Proof.
  intros Ho Hp Hq [Hs|[_ Hl]]%klt_spec; [|lia]. by rewrite (Ho p q), slt_irrefl in Hs.
Qed.

Lemma lex_lo_down range l : sorted l -> one_score l -> downward (fun p => negb (lex_lo range p)) l.
Proof.
  intros Hs Ho. revert Hs. apply SSorted_impl. intros p q Hp Hq Hpq%(klt_one_score l); [|done..]. unfold lex_lo.
  rewrite !negb_true_iff. intros Hn. destruct (zslLexValueGteMin p.2 range) eqn:E; [|done]. by rewrite (lex_gte_mono _ _ _ Hpq E) in Hn.
Qed.

Lemma lex_hi_down range l : sorted l -> one_score l -> downward (lex_hi range) l.
Proof.
  intros Hs Ho. revert Hs. apply SSorted_impl. intros p q Hp Hq Hpq%(klt_one_score l); [|done..]. by apply lex_lte_mono.
Qed.

(** The test for an empty range compares the contents of the bounds: it is right
    when a bound does not have the content of a different shared string. *)
Definition bounds_distinct (range : zlexrangespec) : Prop := lexcontent (lmin range) = lexcontent (lmax range) -> lmin range = lmax range.

Lemma lex_empty range (e : sds) : bounds_distinct range ->
  (1 <? sdscmplex (lmin range) (lmax range))
    || ((sdscmp (lexcontent (lmin range)) (lexcontent (lmax range)) =? 0) && (lminex range || lmaxex range)) = true ->
  zslLexValueGteMin e range && zslLexValueLteMax e range = false.
Proof.
  intros Hb E. apply not_true_iff_false. intros [H1 H2]%andb_true_iff. unfold zslLexValueGteMin, zslLexValueLteMax in *.
  apply orb_true_iff in E as [E|[E1%Z.eqb_eq E2]%andb_true_iff].
  - destruct (lmin range) as [| |m1], (lmax range) as [| |m2]; cbn [sdscmplex] in *; try discriminate.
    rewrite sdscmp_lex in *. apply Z.ltb_lt in E. pose proof (lexcmp_anti e m1). pose proof (lexcmp_anti m1 m2).
    assert (lexcmp m1 e <= 0 /\ lexcmp e m2 <= 0) as [Hm1 Hm2].
    { destruct (lminex range), (lmaxex range); rewrite ?sdscmp_lex, ?Z.ltb_lt, ?Z.leb_le in *; lia. }
    destruct (decide (lexcmp m1 e = 0)) as [->%lexcmp_eq|]; [lia|]. destruct (decide (lexcmp e m2 = 0)) as [->%lexcmp_eq|]; [lia|].
    pose proof (lexcmp_trans m1 e m2). lia.
  - rewrite sdscmp_lex, lexcmp_eq in E1. rewrite (Hb E1) in *.
    destruct (lmax range) as [| |m]; cbn [sdscmplex] in *.
    + by destruct (lmaxex range).
    + by destruct (lminex range).
    + rewrite sdscmp_lex in *. destruct (lminex range), (lmaxex range); rewrite ?Z.ltb_lt, ?Z.leb_le in *; try discriminate; lia.
Qed.

Lemma is_in_lex_ok h zsl hd L l range : wf h zsl hd L -> vals L l -> sorted l -> one_score l -> bounds_distinct range ->
  exists b, zslIsInLexRange h zsl range = Some b /\ in_range_test (lex_lo range) (lex_hi range) l b.
Proof.
  intros Hwf Hv Hs Ho Hb. destruct (ends_ok h zsl hd L l Hwf Hv) as (Ht & fo & Hl0 & Hf). unfold zslIsInLexRange.
  destruct ((1 <? sdscmplex (lmin range) (lmax range)) || _) eqn:E.
  { exists false. split; [done|]. cbn. apply yes_none. intros p _. by apply lex_empty. }
  destruct (zsl_tail zsl) as [t|]; [|exists false; split; [done|]; cbn; by rewrite Ht].
  destruct Ht as (p & Hp & nd & Hnd & He & _). rewrite Hnd. cbn [mbind option_bind]. rewrite He. cbn [mbind option_bind].
  pose proof (lex_lo_down range l Hs Ho) as Hlo. pose proof (lex_hi_down range l Hs Ho) as Hhi.
  destruct (zslLexValueGteMin p.2 range) eqn:Eg; cbn [negb]; [|exists false; split; [done|]; by apply (last_out _ _ _ Hlo p)].
  rewrite Hl0. cbn [mbind option_bind]. destruct (fst fo) as [f|]; [|exists false; split; [done|]; cbn; by rewrite Hf].
  destruct Hf as (q & Hq & nd' & Hnd' & He' & _). rewrite Hnd'. cbn [mbind option_bind]. rewrite He'. eexists. split; [done|].
  destruct (zslLexValueLteMax q.2 range) eqn:El; [|by apply (head_out _ _ _ Hhi q)]. cbn. split.
  - exists p. split; [|done]. by apply last_Some_elem_of.
  - exists q. split; [|done]. destruct l; [done|]. injection Hq as ->. by left.
Qed.

Lemma on_ele_tests (f : sds -> bool) : tests (fun p => f p.2) (fun (nd : zskiplistNode D) _ => on_ele f nd).
Proof. intros nd r p _ He. unfold on_ele. by rewrite He. Qed.

Lemma first_in_lex_ok h zsl hd L l range : wf h zsl hd L -> vals L l -> sorted l -> one_score l -> bounds_distinct range ->
  exists xo, zslFirstInLexRange h zsl range = Some xo /\ range_end (lex_lo range) (lex_hi range) l h head xo.
Proof.
  intros Hwf Hv Hs Ho Hb. destruct (is_in_lex_ok h zsl hd L l range Hwf Hv Hs Ho Hb) as (b & Hb' & Ht). unfold zslFirstInLexRange. rewrite Hb'.
  cbn [mbind option_bind]. destruct b; [|by exists None]. cbn [negb]. destruct Ht as [Ht _].
  destruct (first_generic _ _ l (lex_lo_down range l Hs Ho) (lex_hi_down range l Hs Ho) h zsl hd L _ Hwf Hv
    (on_ele_tests (fun e => negb (zslLexValueGteMin e range))) Ht) as (upd & x & p & -> & Hc & (nd & Hnd & He & Hsc) & Hr).
  cbn [mbind option_bind]. rewrite Hc. cbn [mbind option_bind]. rewrite Hnd. cbn [mbind option_bind]. rewrite He.
  eexists. split; [|exact Hr]. unfold lex_hi. cbn [mbind option_bind]. by destruct (zslLexValueLteMax p.2 range).
Qed.

Lemma last_in_lex_ok h zsl hd L l range : wf h zsl hd L -> vals L l -> sorted l -> one_score l -> bounds_distinct range ->
  exists xo, zslLastInLexRange h zsl range = Some xo /\ range_end (lex_lo range) (lex_hi range) l h last xo.
Proof.
  intros Hwf Hv Hs Ho Hb. destruct (is_in_lex_ok h zsl hd L l range Hwf Hv Hs Ho Hb) as (b & Hb' & Ht). unfold zslLastInLexRange. rewrite Hb'.
  cbn [mbind option_bind]. destruct b; [|by exists None]. cbn [negb]. destruct Ht as [_ Ht].
  destruct (last_generic _ _ l (lex_lo_down range l Hs Ho) (lex_hi_down range l Hs Ho) h zsl hd L _ Hwf Hv
    (on_ele_tests (fun e => zslLexValueLteMax e range)) Ht) as (upd & x & r & p & -> & Hc & (nd & Hnd & He & Hsc) & Hr).
  cbn [mbind option_bind]. rewrite Hc. cbn [mbind option_bind fst]. rewrite Hnd. cbn [mbind option_bind]. rewrite He.
  eexists. split; [|exact Hr]. unfold lex_lo. cbn [mbind option_bind]. by destruct (zslLexValueGteMin p.2 range).
Qed.

(** ** Deleting ranges *)

Section Delete.
Context {dict : Type} (dictDelete : dict -> sds -> dict).

Lemma delete_while_ok hd B C2 upd (inside : zskiplistNode D -> Z -> bool) C1 : forall l1 h zsl (d : dict) (t r : Z) fuel,
  wf h zsl hd (B ++ C1 ++ C2) -> (forall i, (i < Z.to_nat (zsl_level zsl))%nat -> upd !! i = Some (pred_at i (na hd) 0 0 B)) ->
  vals C1 l1 -> (length C1 <= fuel)%nat ->
  (forall P n R nd, C1 = P ++ n :: R -> ele nd = ne n -> score nd = ns n -> inside nd (t + zlen P) = true) ->
  (forall n R nd, C2 = n :: R -> ele nd = ne n -> score nd = ns n -> inside nd (t + zlen C1) = false) ->
  0 <= t -> t + zlen C1 < 2 ^ 64 -> 0 <= r -> r + zlen C1 < 2 ^ 64 ->
  exists h' zsl', delete_while dictDelete fuel inside h zsl d upd (na <$> head (C1 ++ C2)) t r =
    Some (h', zsl', foldl dictDelete d l1.*2, r + zlen C1) /\ wf h' zsl' hd (B ++ C2).
Proof.
  induction C1 as [|N C1 IH]; intros l1 h zsl d t r fuel Hwf Hupd Hv Hf Hin Hout Ht Htb Hr Hrb.
  - destruct l1; [|done]. cbn [app] in *. destruct C2 as [|n C2]; cbn [head fmap option_fmap option_map].
    + destruct fuel; cbn [delete_while]; rewrite zlen_nil, Z.add_0_r; by exists h, zsl.
    + destruct (rep_node _ _ _ (hd :: B) n C2 (wf_rep _ _ _ _ Hwf) eq_refl) as (nd & Hnd & He & Hsc & _).
      assert (Hx : inside nd t = false) by (rewrite <- (Z.add_0_r t); by apply (Hout n C2)).
      destruct fuel; cbn [delete_while]; rewrite Hnd; cbn [mbind option_bind]; rewrite Hx, zlen_nil, Z.add_0_r; by exists h, zsl.
  - destruct l1 as [|p l1]; [done|]. destruct (vals_cons_inv _ _ _ Hv) as (? & ? & [= <- <-] & HNs & HNe & Hv').
    destruct fuel as [|fuel]; cbn [length] in Hf; [lia|]. cbn [app] in *.
    destruct (rep_node _ _ _ (hd :: B) N (C1 ++ C2) (wf_rep _ _ _ _ Hwf) eq_refl) as (nd & Hnd & He & Hsc & _).
    cbn [head fmap option_fmap option_map delete_while]. rewrite Hnd. cbn [mbind option_bind].
    assert (Hx : inside nd t = true) by (rewrite <- (Z.add_0_r t); by apply (Hin [] N C1)). rewrite Hx.
    pose proof (wf_heights _ _ _ _ Hwf) as Hht. apply Forall_app in Hht as [_ Hht]. inversion Hht as [|? ? HN HhtC]; subst.
    rewrite (rep_lev _ _ _ (hd :: B) N (C1 ++ C2) 0 (wf_rep _ _ _ _ Hwf) eq_refl) by lia. cbn [mbind option_bind].
    destruct (drop_node h zsl hd B N (C1 ++ C2) upd Hwf Hupd) as (h1 & zsl1 & -> & _ & Hwf1 & Hle & _). cbn [mbind option_bind fst snd].
    rewrite He, HNe. cbn [mbind option_bind].
    replace (fwd 0 (C1 ++ C2)).1 with (na <$> head (C1 ++ C2)).
    2:{ destruct (C1 ++ C2) as [|c C]; [done|]. inversion HhtC. cbn [fwd head]. by rewrite decide_True by lia. }
    rewrite zlen_cons in *. pose proof (zlen_nonneg C1). rewrite !uwrap_small by lia.
    destruct (IH l1 (zslFreeNode h1 (na N)) zsl1 (dictDelete d p.2) (t + 1) (r + 1) fuel) as (h' & zsl' & -> & Hwf'); try done; try lia.
    + intros i Hi. apply Hupd. lia.
    + intros P n R nd' -> He' Hs'. specialize (Hin (N :: P) n R nd' eq_refl He' Hs'). rewrite zlen_cons in Hin. by rewrite <- Z.add_assoc.
    + intros n R nd' E He' Hs'. specialize (Hout n R nd' E He' Hs'). by rewrite <- Z.add_assoc.
    + exists h', zsl'. split; [|done]. do 2 f_equal. lia.
Qed.

(** After a search for the first element inside. *)
Lemma delete_range_ok h zsl hd L l lo hi cond inside (d : dict) : wf h zsl hd L -> vals L l ->
  downward (fun p => negb (lo p)) l -> downward hi l -> tests (fun p => negb (lo p)) cond -> tests hi inside ->
  exists h' zsl' L', (upd ← zsl_find 64 cond h zsl; c ← zsl_candidate h upd;
      delete_while dictDelete (zsl_fuel zsl) inside h zsl d upd c 0 0) =
    Some (h', zsl', foldl dictDelete d (yes (inside_range lo hi) l).*2, zlen (yes (inside_range lo hi) l)) /\
    wf h' zsl' hd L' /\ vals L' (no (inside_range lo hi) l).
Proof.
  intros Hwf Hv Hlo Hhi Ht1 Ht2. pose proof (wf_small _ _ _ _ Hwf) as Hsm.
  destruct (find_by h zsl hd L l 64 _ cond Hwf Hv Hlo Ht1) as (B & C & -> & HB & HC & ->); [lia|]. cbn [mbind option_bind].
  rewrite (candidate_ok _ _ _ _ _ Hwf). cbn [mbind option_bind].
  pose proof (cut_yes_no _ l Hlo) as El. set (lB := yes (fun p => negb (lo p)) l) in *. set (lC := no (fun p => negb (lo p)) l) in *.
  assert (HhiC : downward hi lC) by (pose proof Hhi as Hh; rewrite El in Hh; by apply SSorted_app in Hh as (_ & ? & _)).
  pose proof (cut_yes_no hi lC HhiC) as EC. pose proof HC as HC'. rewrite EC in HC'.
  apply vals_app_inv in HC' as (C1 & C2 & -> & HC1 & HC2).
  assert (HinC : forall q, q ∈ lC -> lo q = true) by (intros q [_ Hq]%no_In; by apply negb_false_iff).
  assert (HinB : forall q, q ∈ lB -> lo q = false) by (intros q [_ Hq]%yes_In; by apply negb_true_iff).
  assert (Hparts : yes (inside_range lo hi) l = yes hi lC /\ no (inside_range lo hi) l = lB ++ no hi lC).
  { rewrite El at 1 2. rewrite EC at 1 3. rewrite !yes_app, !no_app. unfold inside_range.
    rewrite (yes_none _ lB), (no_same _ lB) by (intros q Hq; by rewrite HinB).
    destruct (yes_same (fun p => lo p && hi p) (yes hi lC)) as [-> ->]; [intros q [Hq Hh]%yes_In; by rewrite HinC, Hh|].
    rewrite (yes_none _ (no hi lC)), (no_same _ (no hi lC)), app_nil_r by (intros q [_ Hq]%no_In; by rewrite Hq, andb_false_r). done. }
  destruct Hparts as [-> ->].
  destruct (delete_while_ok hd B C2 (updates hd B (Z.to_nat (zsl_level zsl))) inside C1 (yes hi lC) h zsl d 0 0 (zsl_fuel zsl))
    as (h' & zsl' & Hd & Hwf'); try done; try lia; try (revert Hsm; zlia).
  - intros i Hi. by apply updates_lookup.
  - unfold zsl_fuel. rewrite (wf_len _ _ _ _ Hwf). unfold zlen. rewrite !length_app. lia.
  - intros P n R nd -> He Hs. destruct (vals_in _ _ n HC1) as (q & Hq & Hqs & Hqe); [apply elem_of_app; right; by left|].
    rewrite (Ht2 nd _ q) by congruence. by apply yes_In in Hq as [_ ?].
  - intros n R nd -> He Hs. destruct (vals_in _ _ n HC2) as (q & Hq & Hqs & Hqe); [by left|].
    rewrite (Ht2 nd _ q) by congruence. by apply no_In in Hq as [_ ?].
  - exists h', zsl', (B ++ C2). rewrite Hd, Z.add_0_l, (vals_len _ _ HC1). split_and!; [done|done|by apply vals_app].
Qed.

Lemma score_min_tests range : tests (fun p => negb (score_lo range p))
  (fun (nd : zskiplistNode D) _ => if minex range then sle (score nd) (rmin range) else slt (score nd) (rmin range)).
Proof.
  intros nd _ p Hs _. rewrite Hs. unfold score_lo, zslValueGteMin. destruct (minex range); apply eq_true_iff_eq;
    rewrite negb_true_iff, <- not_true_iff_false, ?sle_spec.
  - destruct (slt_total p.1 (rmin range)) as [Hx|[Hx|Hx]].
    + split; [|tauto]. intros _ Hc. pose proof (slt_trans _ _ _ Hx Hc) as Hz. by rewrite slt_irrefl in Hz.
    + rewrite Hx, slt_irrefl. split; [done|by right].
    + split; [|done]. intros [Hc|Hc]; [pose proof (slt_trans _ _ _ Hx Hc) as Hz; by rewrite slt_irrefl in Hz|].
      by rewrite Hc, slt_irrefl in Hx.
  - destruct (slt_total p.1 (rmin range)) as [Hx|[Hx|Hx]].
    + split; [|done]. intros _ [Hc|Hc]; [pose proof (slt_trans _ _ _ Hx Hc) as Hz; by rewrite slt_irrefl in Hz|].
      by rewrite Hc, slt_irrefl in Hx.
    + rewrite Hx, slt_irrefl. split; [done|]. intros Hc. destruct Hc. by right.
    + split; [|tauto]. intros Hc. pose proof (slt_trans _ _ _ Hx Hc) as Hz. by rewrite slt_irrefl in Hz.
Qed.

Lemma score_max_tests range : tests (score_hi range)
  (fun (nd : zskiplistNode D) _ => if maxex range then slt (score nd) (rmax range) else sle (score nd) (rmax range)).
Proof. intros nd _ p Hs _. by rewrite Hs. Qed.

(** By rank, 1-based. *)
Lemma delete_rank_ok h zsl hd L l (start stop : Z) (d : dict) : wf h zsl hd L -> vals L l -> 1 <= start <= stop -> stop < 2 ^ 32 ->
  let l1 := take (Z.to_nat (stop - start + 1)) (drop (Z.to_nat (start - 1)) l) in
  exists h' zsl' L', zslDeleteRangeByRank dictDelete h zsl start stop d = Some (h', zsl', foldl dictDelete d l1.*2, zlen l1) /\
    wf h' zsl' hd L' /\ vals L' (take (Z.to_nat (start - 1)) l ++ drop (Z.to_nat stop) l).
Proof.
  intros Hwf Hv Hst Hsp l1. pose proof (wf_small _ _ _ _ Hwf) as Hsm. pose proof (wf_level _ _ _ _ Hwf) as Hzl.
  pose proof Hv as Hv'. rewrite <- (take_drop (Z.to_nat (start - 1)) l) in Hv'.
  apply vals_app_inv in Hv' as (B & C & -> & HB & HC). pose proof HC as HC'.
  rewrite <- (take_drop (Z.to_nat (stop - start + 1)) (drop _ l)) in HC'. fold l1 in HC'.
  apply vals_app_inv in HC' as (C1 & C2 & -> & HC1 & HC2).
  pose proof (vals_len _ _ Hv) as HL. pose proof (vals_len _ _ HB) as HLB. pose proof (vals_len _ _ HC1) as HL1.
  assert (HlB : zlen B = Z.min (start - 1) (zlen l)) by (rewrite HLB; unfold zlen; rewrite length_take; lia).
  assert (Hl1 : zlen C1 = Z.min (stop - start + 1) (zlen l - zlen B)).
  { rewrite HL1. unfold l1. unfold zlen at 1. rewrite length_take, length_drop. unfold zlen in *. lia. }
  unfold zslDeleteRangeByRank.
  rewrite (find_ok h (Z.to_nat (zsl_level zsl)) hd B (C1 ++ C2) 64); try done; try apply Hwf.
  2:{ rewrite zlen_cons. lia. }
  2:{ intros P n R nd E _ _ _. apply (f_equal zlen) in E. apply eq_true_iff_eq. rewrite bool_decide_eq_true, Z.ltb_lt.
      revert E HlB. rewrite <- HL. zlia. }
  2:{ rewrite (wf_top _ _ _ _ Hwf). lia. }
  destruct (pred0 _ _ _ _ _ Hwf) as (P0 & n0 & _ & Hp0 & _).
  cbn [mbind option_bind]. rewrite updates_lookup, Hp0 by lia. cbn [mbind option_bind fst snd].
  rewrite (candidate_ok _ _ _ _ _ Hwf). cbn [mbind option_bind]. rewrite uwrap_small by (rewrite HlB; pose_zlen; lia).
  destruct (delete_while_ok hd B C2 (updates hd B (Z.to_nat (zsl_level zsl))) (fun _ (t : Z) => t <=? stop) C1 l1 h zsl d (zlen B + 1) 0 (zsl_fuel zsl))
    as (h' & zsl' & Hd & Hwf'); try done; try (revert Hsm HlB Hl1; zlia).
  - intros i Hi. by apply updates_lookup.
  - unfold zsl_fuel. rewrite (wf_len _ _ _ _ Hwf). unfold zlen. rewrite !length_app. lia.
  - intros P n R nd -> _ _. apply Z.leb_le. revert HlB Hl1. zlia.
  - intros n R nd -> _ _. apply Z.leb_gt. revert HlB Hl1 HL. zlia.
  - exists h', zsl', (B ++ C2). rewrite Hd, HL1. split_and!; [done|done|]. apply vals_app; [done|].
    rewrite drop_drop in HC2. replace (Z.to_nat stop) with (Z.to_nat (start - 1) + Z.to_nat (stop - start + 1))%nat by lia. done.
Qed.
End Delete.

Lemma sorted_filter (P : D * sds -> Prop) `{forall p, Decision (P p)} l : sorted l -> sorted (filter P l).
Proof.
  unfold sorted. induction 1 as [|p l Hs IH Hf]; [constructor|]. destruct (decide (P p)).
  - rewrite filter_cons_True by done. constructor; [done|]. apply Forall_forall. intros q [_ Hq]%list_elem_of_filter.
    rewrite Forall_forall in Hf. by apply Hf.
  - by rewrite filter_cons_False.
Qed.

Lemma sorted_skip (i j : nat) l : sorted l -> (i <= j)%nat -> sorted (take i l ++ drop j l).
Proof.
  intros Hs Hij. unfold sorted in *. rewrite <- (take_drop i l) in Hs. apply SSorted_app in Hs as (H1 & H2 & H3).
  replace j with (i + (j - i))%nat by lia. rewrite <- drop_drop. rewrite <- (take_drop (j - i) (drop i l)) in H2, H3.
  apply SSorted_app in H2 as (_ & H2 & _). apply SSorted_app. split_and!; [done|done|].
  intros p q Hp Hq. apply H3; [done|]. apply elem_of_app. by right.
Qed.

(** ** Creation and release *)

Lemma create_spec h h' zsl : zslCreate h = (h', zsl) -> exists hd, wf h' zsl hd [].
Proof.
  unfold zslCreate, zslCreateNode. intros [= <- <-]. set (x := fresh (dom h)).
  set (nd := {| ele := None; score := score0; backward := None; level := _ |}).
  exists {| na := x; ns := score0; ne := None; nh := 64 |}.
  assert (Hl : forall i, (i < 64)%nat -> lev (<[x := nd]> h) x i = Some (None, 0)).
  { intros i Hi. unfold lev. rewrite lookup_insert_eq. cbn [mbind option_bind]. unfold nd. cbn [level].
    do 64 (destruct i as [|i]; [done|]). lia. }
  split; cbn [zsl_header zsl_tail zsl_length zsl_level na nh ne]; try done.
  - intros P y R E. destruct P as [|? [|]]; [|done..]. injection E as <- <-. cbn [na nh ne ns]. split.
    + unfold attr. rewrite lookup_insert_eq. done.
    + intros i Hi _. by apply Hl.
  - intros i Hi. exists 0. apply Hl. lia.
  - constructor; [apply not_elem_of_nil|constructor].
Qed.

Lemma free_loop_ok h zl A C : forall fuel, part h zl A C -> Forall (fun n => (1 <= nh n)%nat) C -> (1 <= zl)%nat -> NoDup (na <$> C) ->
  (length C <= fuel)%nat -> exists h', free_loop fuel h (na <$> head C) = Some h' /\
    forall a, h' !! a = if decide (a ∈ na <$> C) then None else h !! a.
Proof.
  revert h A. induction C as [|n C IH]; intros h A fuel Hp Hht Hz Hnd Hf.
  { exists h. split; [by destruct fuel|]. done. }
  destruct fuel as [|fuel]; cbn [length] in Hf; [lia|]. cbn [head fmap option_fmap option_map free_loop].
  apply part_cons in Hp as (_ & Hl & Hp). inversion Hht as [|? ? Hn HhtC]; subst. rewrite Hl by lia. cbn [mbind option_bind].
  rewrite fmap_cons in *. apply NoDup_cons in Hnd as [Hnn Hnd].
  replace (fwd 0 C).1 with (na <$> head C).
  2:{ destruct C as [|c C]; [done|]. inversion HhtC. cbn [fwd head]. by rewrite decide_True by lia. }
  destruct (IH (zslFreeNode h (na n)) (A ++ [n]) fuel) as (h' & -> & Hh'); [|done..|lia|].
  { apply (part_frame h); [|done]. intros a Ha. assert (a <> na n) by (intros ->; done). split; [by apply free_attr|].
    intros i. by apply free_lev. }
  exists h'. split; [done|]. intros a. rewrite Hh'. destruct (decide (a ∈ na <$> C)) as [Hin|Hin].
  - rewrite decide_True; [done|]. by right.
  - destruct (decide (a = na n)) as [->|Hne].
    + rewrite decide_True by by left. apply lookup_delete_eq.
    + rewrite decide_False; [by apply lookup_delete_ne|]. by apply not_elem_of_cons.
Qed.

Lemma free_spec h zsl hd L : wf h zsl hd L -> exists h', zslFree h zsl = Some h' /\
  forall a, h' !! a = if decide (a ∈ na <$> hd :: L) then None else h !! a.
Proof.
  intros [Hh Htop Hhe Hlv Hrep Hhigh Hht Hnd Htl Hln Hsm]. unfold zslFree. rewrite Hh.
  pose proof (proj1 (part_cons _ _ [] _ _) Hrep) as (_ & Hl & Hp). rewrite Hl by lia. cbn [mbind option_bind].
  rewrite fmap_cons in Hnd. apply NoDup_cons in Hnd as [Hn Hnd].
  replace (fwd 0 L).1 with (na <$> head L).
  2:{ destruct L as [|c C]; [done|]. inversion Hht. cbn [fwd head]. by rewrite decide_True by lia. }
  destruct (free_loop_ok (zslFreeNode h (na hd)) (Z.to_nat (zsl_level zsl)) ([] ++ [hd]) L (zsl_fuel zsl)) as (h' & -> & Hh').
  - apply (part_frame h); [|done]. intros a Ha. assert (a <> na hd) by (intros ->; done). split; [by apply free_attr|].
    intros i. by apply free_lev.
  - by apply heights_pos in Hht.
  - lia.
  - done.
  - unfold zsl_fuel. rewrite Hln. unfold zlen. lia.
  - exists h'. split; [done|]. intros a. rewrite Hh', fmap_cons. destruct (decide (a ∈ na <$> L)) as [Hin|Hin].
    + rewrite decide_True; [done|]. by right.
    + destruct (decide (a = na hd)) as [->|Hne].
      * rewrite decide_True by by left. apply lookup_delete_eq.
      * rewrite decide_False; [by apply lookup_delete_ne|]. by apply not_elem_of_cons.
Qed.

(** ** The operations on the sequence of the elements *)

(** [C32] [zslInsert] adds one element: afterwards the list holds the old elements
    and the new one, in order, and the node returned holds the new one.  This
    is for any level [random()] chooses and whatever the memory of the new node
    contained. *)
Theorem zslInsert_refines rnd junk h zsl l s (key : sds) : slist h zsl l -> (s, key) ∉ l -> zlen l < 2 ^ 32 - 1 ->
  Exists (fun r => 16383 < Z.land r 65535) rnd ->
  exists h' zsl' x l', zslInsert rnd junk h zsl s key = Some (h', zsl', x) /\
    slist h' zsl' l' /\ l' ≡ₚ (s, key) :: l /\ holds h' x (s, key).
Proof.
  intros (hd & L & Hwf & Hv & Hs) Hp Hlen Hrnd.
  destruct (zsl_insert_spec rnd junk h zsl hd L l s key Hwf Hv Hs Hlen Hrnd) as (h' & zsl' & N & B & C & Hi & -> & Hwf' & HNs & HNe & _ & HB & HC).
  exists h', zsl', (na N), (yes (fun q => klt q (s, key)) l ++ (s, key) :: no (fun q => klt q (s, key)) l). split_and!.
  - exact Hi.
  - exists hd, (B ++ N :: C). split_and!; [done|by apply vals_app, vals_cons|by apply sorted_put].
  - rewrite <- Permutation_middle. f_equiv. by rewrite <- (cut_yes_no _ _ (klt_downward (s, key) _ Hs)).
  - eapply holds_node; [exact Hwf'| |done..]. right. apply elem_of_app. right. by left.
Qed.

(** [C33] [zslDelete] removes exactly the element with the score and the string
    given, and returns whether it was there. *)
Theorem zslDelete_refines h zsl l s (key : sds) : slist h zsl l ->
  exists h' zsl', zslDelete h zsl s key = Some (h', zsl', bool_decide ((s, key) ∈ l)) /\
    slist h' zsl' (filter (fun q => q <> (s, key)) l).
Proof.
  intros (hd & L & Hwf & Hv & Hs). destruct (zsl_delete_spec h zsl hd L l (s, key) Hwf Hv Hs) as (h' & zsl' & L' & Hd & Hwf' & Hv').
  exists h', zsl'. split; [exact Hd|]. exists hd, L'. split_and!; [done|done|]. by apply sorted_filter.
Qed.

(** [zslUpdateScore] replaces the score of an element, whether the node can
    stay where it is or has to be unlinked and inserted again: the rest of the
    elements is kept and the order holds. *)
Theorem zslUpdateScore_refines rnd junk h zsl l cur (key : sds) new : slist h zsl l -> (cur, key) ∈ l ->
  (forall s, (s, key) ∈ l -> s = cur) -> Exists (fun r => 16383 < Z.land r 65535) rnd ->
  exists h' zsl' x l', zslUpdateScore rnd junk h zsl cur key new = Some (h', zsl', x) /\
    slist h' zsl' l' /\ l' ≡ₚ (new, key) :: filter (fun q => q <> (cur, key)) l /\ holds h' x (new, key).
Proof.
  intros (hd & L & Hwf & Hv & Hs) Hp Hu Hrnd.
  destruct (update_spec rnd junk h zsl hd L l cur key new Hwf Hv Hs Hp Hu Hrnd)
    as (h' & zsl' & N & L' & l' & Hi & Hwf' & HN & HNs & HNe & Hv' & Hs' & Hperm).
  exists h', zsl', (na N), l'. split_and!; [done|by exists hd, L'|done|]. eapply holds_node; [exact Hwf'| |done..]. by right.
Qed.

(** The spans count: the rank of an element is its position, from 1, and 0
    when the element is not in the list; the element with a rank is the one at
    that position, and there is none past the end. *)
Theorem zsl_ranks h zsl l : slist h zsl l -> NoDup l.*2 ->
  (forall i s key, l !! i = Some (s, key) -> zslGetRank h zsl s key = Some (Z.of_nat i + 1)) /\
  (forall s key, key ∉ l.*2 -> zslGetRank h zsl s key = Some 0) /\
  (forall rank, 1 <= rank -> exists xo, zslGetElementByRank h zsl rank = Some xo /\
     match xo with Some x => exists p, l !! Z.to_nat (rank - 1) = Some p /\ holds h x p | None => zlen l < rank end).
Proof.
  intros (hd & L & Hwf & Hv & Hs) Hnd. split_and!.
  - intros i s key Hi. exact (rank_spec h zsl hd L l (s, key) i Hwf Hv Hs Hnd Hi).
  - intros s key. by apply (rank_absent h zsl hd L l).
  - intros rank. by apply (byrank_spec h zsl hd L l).
Qed.

(** The searches for the first and the last element of a range of scores
    find the first and the last element of the list that lies in the range, and
    NULL when there is none.  The same holds for ranges of strings, when all the
    elements have one score and no bound has the content of the shared string
    that stands for another bound. *)
Theorem zsl_range_ends h zsl l : slist h zsl l ->
  (forall range : zrangespec D,
     (exists xo, zslFirstInRange h zsl range = Some xo /\ range_end (score_lo range) (score_hi range) l h head xo) /\
     (exists xo, zslLastInRange h zsl range = Some xo /\ range_end (score_lo range) (score_hi range) l h last xo)) /\
  (forall range : zlexrangespec, one_score l -> bounds_distinct range ->
     (exists xo, zslFirstInLexRange h zsl range = Some xo /\ range_end (lex_lo range) (lex_hi range) l h head xo) /\
     (exists xo, zslLastInLexRange h zsl range = Some xo /\ range_end (lex_lo range) (lex_hi range) l h last xo)).
Proof.
  intros (hd & L & Hwf & Hv & Hs). split.
  - intros range. split; [by eapply first_in_range_ok|by eapply last_in_range_ok].
  - intros range Ho Hb. split; [by eapply first_in_lex_ok|by eapply last_in_lex_ok].
Qed.

Section DeleteRanges.
Context {dict : Type} (dictDelete : dict -> sds -> dict).

(** [C34] Deleting a range of scores, of strings or of ranks removes exactly the
    elements of the range from the list, deletes their strings from the
    dictionary in the order of the list, and returns their number. *)
Theorem zsl_delete_ranges h zsl l (d : dict) : slist h zsl l ->
  (forall range : zrangespec D, let f := inside_range (score_lo range) (score_hi range) in
     exists h' zsl', zslDeleteRangeByScore dictDelete h zsl range d = Some (h', zsl', foldl dictDelete d (yes f l).*2, zlen (yes f l)) /\
       slist h' zsl' (no f l)) /\
  (forall range : zlexrangespec, one_score l -> let f := inside_range (lex_lo range) (lex_hi range) in
     exists h' zsl', zslDeleteRangeByLex dictDelete h zsl range d = Some (h', zsl', foldl dictDelete d (yes f l).*2, zlen (yes f l)) /\
       slist h' zsl' (no f l)) /\
  (forall start stop, 1 <= start <= stop -> stop < 2 ^ 32 ->
     let l1 := take (Z.to_nat (stop - start + 1)) (drop (Z.to_nat (start - 1)) l) in
     exists h' zsl', zslDeleteRangeByRank dictDelete h zsl start stop d = Some (h', zsl', foldl dictDelete d l1.*2, zlen l1) /\
       slist h' zsl' (take (Z.to_nat (start - 1)) l ++ drop (Z.to_nat stop) l)).
Proof.
  intros (hd & L & Hwf & Hv & Hs). split_and!.
  - intros range f.
    destruct (delete_range_ok dictDelete h zsl hd L l _ _ _ _ d Hwf Hv (score_lo_down range l Hs) (score_hi_down range l Hs)
      (score_min_tests range) (score_max_tests range)) as (h' & zsl' & L' & Hd & Hwf' & Hv').
    exists h', zsl'. split; [exact Hd|]. exists hd, L'. split_and!; [done|done|by apply sorted_filter].
  - intros range Ho f.
    destruct (delete_range_ok dictDelete h zsl hd L l _ _ _ _ d Hwf Hv (lex_lo_down range l Hs Ho) (lex_hi_down range l Hs Ho)
      (on_ele_tests (fun e => negb (zslLexValueGteMin e range))) (on_ele_tests (fun e => zslLexValueLteMax e range))) as (h' & zsl' & L' & Hd & Hwf' & Hv').
    exists h', zsl'. split; [exact Hd|]. exists hd, L'. split_and!; [done|done|by apply sorted_filter].
  - intros start stop Hst Hsp l1.
    destruct (delete_rank_ok dictDelete h zsl hd L l start stop d Hwf Hv Hst Hsp) as (h' & zsl' & L' & Hd & Hwf' & Hv').
    exists h', zsl'. split; [exact Hd|]. exists hd, L'. split_and!; [done|done|]. apply sorted_skip; [done|lia].
Qed.
End DeleteRanges.
End Spec.

(** ** Witnesses *)

Definition wit_rnd : list Z := [5; 65535].
Definition wit_junk (i : nat) : option addr * Z := (Some 99%positive, 7).
Definition wit_a : list Z := bytes_of "a"%string.
Definition wit_b : list Z := bytes_of "b"%string.

Lemma wit_ends : Exists (fun r => 16383 < Z.land r 65535) wit_rnd.
Proof. right. left. reflexivity. Qed.

Lemma wit_empty : exists h zsl, slist (D := Z) h zsl [].
Proof.
  destruct (zslCreate (∅ : gmap addr (zskiplistNode Z))) as [h zsl] eqn:E. destruct (create_spec _ _ _ E) as [hd Hwf].
  exists h, zsl, hd, []. split_and!; [done|done|constructor].
Qed.

(** A list of two elements, on two levels. *)
Lemma wit_two : exists h zsl, slist (D := Z) h zsl [(3, wit_a); (5, wit_b)].
Proof.
  destruct wit_empty as (h & zsl & hd & L & Hwf & Hv & Hs).
  destruct (zsl_insert_spec wit_rnd wit_junk h zsl hd L [] 3 wit_a Hwf Hv Hs eq_refl wit_ends) as (h1 & z1 & N1 & B1 & C1 & _ & _ & Hwf1 & Hs1 & He1 & _ & HB1 & HC1).
  pose proof (vals_app _ _ _ _ HB1 (vals_cons N1 (3, wit_a) _ _ Hs1 He1 HC1)) as Hv1.
  pose proof (sorted_put [] (3, wit_a) Hs (not_elem_of_nil _)) as Hs1'.
  destruct (zsl_insert_spec wit_rnd wit_junk h1 z1 hd _ _ 5 wit_b Hwf1 Hv1 Hs1' eq_refl wit_ends) as (h2 & z2 & N2 & B2 & C2 & _ & _ & Hwf2 & Hs2 & He2 & _ & HB2 & HC2).
  exists h2, z2, hd, (B2 ++ N2 :: C2). split_and!; [done|exact (vals_app _ _ _ _ HB2 (vals_cons N2 (5, wit_b) _ _ Hs2 He2 HC2))|].
  apply (sorted_put _ (5, wit_b) Hs1'). intros Hc%list_elem_of_singleton. done.
Qed.

Lemma zslInsert_refines_witness : exists h zsl h' zsl' x l',
  zslInsert wit_rnd wit_junk h zsl 4 wit_a = Some (h', zsl', x) /\
  slist (D := Z) h' zsl' l' /\ l' ≡ₚ [(4, wit_a); (3, wit_a); (5, wit_b)] /\ holds h' x (4, wit_a).
Proof.
  destruct wit_two as (h & zsl & Hl). exists h, zsl.
  apply (zslInsert_refines wit_rnd wit_junk h zsl _ 4 wit_a Hl); [|reflexivity|exact wit_ends].
  intros [[=]|[[=]|[]%elem_of_nil]%elem_of_cons]%elem_of_cons.
Defined.

Lemma zslDelete_refines_witness : exists h zsl h' zsl',
  zslDelete h zsl 3 wit_a = Some (h', zsl', true) /\ slist (D := Z) h' zsl' [(5, wit_b)].
Proof.
  destruct wit_two as (h & zsl & Hl). exists h, zsl. exact (zslDelete_refines h zsl _ 3 wit_a Hl).
Defined.

Lemma zslUpdateScore_refines_witness : exists h zsl h' zsl' x l',
  zslUpdateScore wit_rnd wit_junk h zsl 3 wit_a 9 = Some (h', zsl', x) /\
  slist (D := Z) h' zsl' l' /\ l' ≡ₚ [(9, wit_a); (5, wit_b)] /\ holds h' x (9, wit_a).
Proof.
  destruct wit_two as (h & zsl & Hl). exists h, zsl.
  apply (zslUpdateScore_refines wit_rnd wit_junk h zsl _ 3 wit_a 9 Hl); [left| |exact wit_ends].
  intros s [[= ->]|[[=]|[]%elem_of_nil]%elem_of_cons]%elem_of_cons. reflexivity.
Defined.

Lemma zsl_ranks_witness : exists h zsl, slist (D := Z) h zsl [(3, wit_a); (5, wit_b)] /\
  zslGetRank h zsl 5 wit_b = Some 2.
Proof.
  destruct wit_two as (h & zsl & Hl). exists h, zsl. split; [exact Hl|].
  assert (Hnd : NoDup [(3, wit_a); (5, wit_b)].*2).
  { constructor; [intros [[=]|[]%elem_of_nil]%elem_of_cons|constructor; [apply not_elem_of_nil|constructor]]. }
  apply (proj1 (zsl_ranks h zsl _ Hl Hnd) 1%nat). reflexivity.
Defined.

Lemma zsl_range_ends_witness : exists h zsl xo,
  zslFirstInRange h zsl {| rmin := 3; rmax := 9; minex := true; maxex := false |} = Some (Some xo) /\ holds (D := Z) h xo (5, wit_b).
Proof.
  destruct wit_two as (h & zsl & Hl). exists h, zsl.
  destruct (proj1 (proj1 (zsl_range_ends h zsl _ Hl) {| rmin := 3; rmax := 9; minex := true; maxex := false |})) as ([x|] & Hx & Hr).
  - exists x. split; [exact Hx|]. destruct Hr as (p & Hp & Hh). injection Hp as <-. exact Hh.
  - discriminate Hr.
Defined.

Lemma zsl_delete_ranges_witness : exists h zsl h' zsl',
  zslDeleteRangeByRank (fun d e => e :: d) h zsl 2 7 [] = Some (h', zsl', [wit_b], 1) /\ slist (D := Z) h' zsl' [(3, wit_a)].
Proof.
  destruct wit_two as (h & zsl & Hl). exists h, zsl.
  apply (proj2 (proj2 (zsl_delete_ranges (fun d e => e :: d) h zsl _ [] Hl)) 2 7); [lia|reflexivity].
Defined.

(** The content of a bound may be that of the shared string: the range of the
    strings below [minstring] is taken for an empty one. *)
Lemma lex_bound_clash : exists range : zlexrangespec,
  zslParseLexRange (inr (bytes_of "-"%string)) (inr (bytes_of "(minstring"%string)) = Some range /\
  zslLexValueGteMin wit_a range = true /\ zslLexValueLteMax wit_a range = true /\
  forall h zsl, zslFirstInLexRange (D := Z) h zsl range = Some None.
Proof. eexists. split; [vm_compute; reflexivity|]. split_and!; done. Qed.

(** The operations evaluated on a small list. *)
Example zsl_ex :
  let '(h, z) := zslCreate (∅ : gmap addr (zskiplistNode Z)) in
  let ins r s e x := (x ← x; let '(h, z, _) := (x : gmap addr (zskiplistNode Z) * zskiplist * addr) in
                      zslInsert r (fun _ => (Some 77%positive, 99)) h z s (bytes_of e)) in
  (x ← ins [1; 20000] 5 "e"%string (ins [20000] 3 "b"%string (ins [1; 2; 65535] 3 "a"%string (Some (h, z, 1%positive))));
   let '(h, z, _) := (x : gmap addr (zskiplistNode Z) * zskiplist * addr) in
   r ← zslGetRank h z 5 (bytes_of "e"%string);
   e ← zslGetElementByRank h z 2;
   e ← e; nd ← h !! e;
   d ← zslDelete h z 3 (bytes_of "a"%string);
   let '(h, z, b) := (d : gmap addr (zskiplistNode Z) * zskiplist * bool) in
   f ← zslFirstInRange h z {| rmin := 3; rmax := 9; minex := true; maxex := false |};
   f ← f; fn ← h !! f;
   Some (r, ele nd, b, zsl_level z, zsl_length z, ele fn)) =
  Some (3, Some (bytes_of "b"%string), true, 2, 2, Some (bytes_of "e"%string)).
Proof. vm_compute. reflexivity. Qed.
