(* ===== verification/Reply.v ===== *)
(** * Replies (networking.c)

    The functions commands answer with, over the interface [Output] to the
    output buffers of the client: [emit] is [addReplyString], which all of them
    end in.  The shared messages are their content. *)
From Stdlib Require Import ZArith Lia String.
From stdpp Require Import base numbers list option gmap.
From S2P Require Import Prelude UtilNum Sds SdsRefine Object.

(** What the reply functions use of a client: its output buffers, and whether it
    is a replica. *)
Class Output (T : Type) := {
  emit : T -> list Z -> option T;
  is_slave : T -> bool
}.

Definition OBJ_SHARED_BULKHDR_LEN : Z := 32.

(** ** Shared messages *)

Definition sh_crlf : list Z := [13; 10].
Definition sh_ok : list Z := bytes_of "+OK" ++ sh_crlf.
Definition sh_emptybulk : list Z := bytes_of "$0" ++ sh_crlf ++ sh_crlf.
Definition sh_czero : list Z := bytes_of ":0" ++ sh_crlf.
Definition sh_cone : list Z := bytes_of ":1" ++ sh_crlf.
Definition sh_cnegone : list Z := bytes_of ":-1" ++ sh_crlf.
Definition sh_nullbulk : list Z := bytes_of "$-1" ++ sh_crlf.
Definition sh_nullmultibulk : list Z := bytes_of "*-1" ++ sh_crlf.
Definition sh_emptymultibulk : list Z := bytes_of "*0" ++ sh_crlf.
Definition sh_wrongtypeerr : list Z :=
  bytes_of "-WRONGTYPE Operation against a key holding the wrong kind of value" ++ sh_crlf.
Definition sh_nokeyerr : list Z := bytes_of "-ERR no such key" ++ sh_crlf.
Definition sh_syntaxerr : list Z := bytes_of "-ERR syntax error" ++ sh_crlf.
Definition sh_colon : list Z := bytes_of ":".

(** [shared.mbulkhdr] and [shared.bulkhdr], filled by [sdscatprintf] with ["*%d\r\n"]
    and ["$%d\r\n"]. *)
Definition sh_mbulkhdr (j : Z) : option (list Z) :=
  if (0 <=? j) && (j <? OBJ_SHARED_BULKHDR_LEN) then Some (bytes_of "*" ++ dec j ++ sh_crlf) else None.
Definition sh_bulkhdr (j : Z) : option (list Z) :=
  if (0 <=? j) && (j <? OBJ_SHARED_BULKHDR_LEN) then Some (bytes_of "$" ++ dec j ++ sh_crlf) else None.

Section Reply.
Context {T : Type} `{Output T}.
(** What the character arrays on the stack hold. *)
Context (stack : list Z).

Abbreviation heap := (gmap oaddr robj).
Implicit Types (t : T) (h : heap) (o : oaddr) (s : list Z).

Definition addReplyString t s : option T := emit t s.

Definition addReply h t o : option T :=
  ob ← h !! o;
  match enc ob with
  | OEmbstr s | ORaw s => emit t s
  | OInt v => r ← ll2string stack 32 v; s ← mread (snd r) 0 (fst r); emit t s
  | OOther _ => None
  end.

(** [addReply] of a shared message. *)
Definition addReplyShared t s : option T := emit t s.

Definition addReplySds t s : option T := emit t s.

(** The panic: an error for a replica. *)
Definition addReplyErrorLength t s : option T :=
  t ← (match s with
       | c :: _ => if negb (c =? 45) then addReplyString t (bytes_of "-ERR ") else Some t
       | [] => addReplyString t (bytes_of "-ERR ")
       end);
  t ← addReplyString t s;
  t ← addReplyString t sh_crlf;
  if is_slave t then None else Some t.

Definition addReplyError t s : option T := addReplyErrorLength t s.

(** [s] is what [sdscatvprintf] made of the format. *)
Definition addReplyErrorFormat t s : option T :=
  addReplyErrorLength t ((fun c : Z => if (c =? 13) || (c =? 10) then 32 else c) <$> s).

Definition addReplyStatusLength t s : option T :=
  t ← addReplyString t (bytes_of "+");
  t ← addReplyString t s;
  addReplyString t sh_crlf.

Definition addReplyStatus t s : option T := addReplyStatusLength t s.

(** Prefixes: 42 is [*], 36 is [$], 58 is [:]. *)
Definition addReplyLongLongWithPrefix t (ll prefix : Z) : option T :=
  if (prefix =? 42) && (ll <? OBJ_SHARED_BULKHDR_LEN) && (ll >=? 0) then
    s ← sh_mbulkhdr ll; addReplyShared t s
  else if (prefix =? 36) && (ll <? OBJ_SHARED_BULKHDR_LEN) && (ll >=? 0) then
    s ← sh_bulkhdr ll; addReplyShared t s
  else
    buf ← mset stack 0 prefix;
    r ← ll2string (drop 1 buf) 127 ll;
    let '(len, digits) := (r : Z * list Z) in
    let buf := take 1 buf ++ digits in
    buf ← mset buf (len + 1) 13;
    buf ← mset buf (len + 2) 10;
    s ← mread buf 0 (len + 3);
    addReplyString t s.

Definition addReplyLongLong t (ll : Z) : option T :=
  if ll =? 0 then addReplyShared t sh_czero
  else if ll =? 1 then addReplyShared t sh_cone
  else addReplyLongLongWithPrefix t ll 58.

Definition addReplyMultiBulkLen t (length : Z) : option T :=
  if length <? OBJ_SHARED_BULKHDR_LEN then s ← sh_mbulkhdr length; addReplyShared t s
  else addReplyLongLongWithPrefix t length 42.

(** [while((n = n/10) != 0) len++;] *)
Fixpoint bulk_digits (fuel : nat) (n len : Z) : option Z :=
  let n := Z.quot n 10 in
  if n =? 0 then Some len
  else match fuel with O => None | S fuel => bulk_digits fuel n (len + 1) end.

Definition addReplyBulkLen h t o : option T :=
  ob ← h !! o;
  len ← (match enc ob with
         | OEmbstr s | ORaw s => Some (zlen s)
         | OInt n =>
             let '(n, len) := if n <? 0 then (i64 (- n), 2) else (n, 1) in
             bulk_digits 20 n len
         | OOther _ => None
         end);
  if len <? OBJ_SHARED_BULKHDR_LEN then s ← sh_bulkhdr len; addReplyShared t s
  else addReplyLongLongWithPrefix t (i64 len) 36.

Definition addReplyBulk h t o : option T :=
  t ← addReplyBulkLen h t o;
  t ← addReply h t o;
  addReplyShared t sh_crlf.

Definition addReplyBulkCBuffer t s : option T :=
  t ← addReplyLongLongWithPrefix t (i64 (zlen s)) 36;
  t ← addReplyString t s;
  addReplyShared t sh_crlf.

Definition addReplyBulkSds t s : option T :=
  t ← addReplyLongLongWithPrefix t (i64 (zlen s)) 36;
  t ← addReplySds t s;
  addReplyShared t sh_crlf.

(** [None] is the NULL pointer. *)
Definition addReplyBulkCString t (s : option (list Z)) : option T :=
  match s with
  | None => addReplyShared t sh_nullbulk
  | Some s => addReplyBulkCBuffer t s
  end.

Definition addReplyBulkLongLong t (ll : Z) : option T :=
  r ← ll2string stack 64 ll;
  s ← mread (snd r) 0 (fst r);
  addReplyBulkCBuffer t s.

Definition checkType h t o (type : Z) : option (T * bool) :=
  ob ← h !! o;
  let ty := match enc ob with OOther ty => ty | _ => 0 end in
  if negb (ty =? type) then t ← addReplyShared t sh_wrongtypeerr; Some (t, true)
  else Some (t, false).
End Reply.

(** * The reply format *)

Definition r_bulk (s : list Z) : list Z := bytes_of "$" ++ dec (zlen s) ++ sh_crlf ++ s ++ sh_crlf.
Definition r_int (v : Z) : list Z := bytes_of ":" ++ dec v ++ sh_crlf.
Definition r_mbulk (n : Z) : list Z := bytes_of "*" ++ dec n ++ sh_crlf.
Definition r_err (s : list Z) : list Z := bytes_of "-ERR " ++ s ++ sh_crlf.

(** What an implementation of [Output] promises: [told t old] says that [old] is
    what the client has been told so far; a client that does not accept replies
    ignores them. *)
Class OutputLaws (T : Type) `{Output T} := {
  told : T -> list Z -> Prop;
  accepts : T -> bool;
  emit_spec t old s : told t old -> zlen old + zlen s < 2 ^ 44 ->
    exists t', emit t s = Some t' /\ told t' (if accepts t then old ++ s else old) /\
      accepts t' = accepts t /\ is_slave t' = is_slave t
}.

(** The simplest client: what it was told. *)
#[global] Instance PlainOutput : Output (list Z) := {| emit t s := Some (t ++ s); is_slave _ := false |}.
#[global] Program Instance PlainOutputLaws : OutputLaws (list Z) := {| told t old := t = old; accepts _ := true |}.
Next Obligation. intros t old s -> _. by eexists. Qed.

Definition say (acc : bool) (old s : list Z) : list Z := if acc then old ++ s else old.

Lemma say_say acc old a b : say acc (say acc old a) b = say acc old (a ++ b).
Proof. destruct acc; [symmetry; apply app_assoc|done]. Qed.

Lemma say_nil acc old : say acc old [] = old.
Proof. destruct acc; [apply app_nil_r|done]. Qed.

Lemma zlen_say acc old s : zlen old <= zlen (say acc old s) <= zlen old + zlen s.
Proof. destruct acc; cbn [say]; autorewrite with zlen; pose proof (zlen_nonneg s); lia. Qed.

Section Formats.
Context {T : Type} `{OutputLaws T} (stack : list Z) (Hstack : zlen stack = 128).
Implicit Types (t : T) (old s : list Z) (acc : bool).

(** [t] accepts replies as [acc] says and has been told [old]. *)
Definition sink acc t old : Prop := told t old /\ accepts t = acc /\ is_slave t = false.

(** [f] writes [s] and nothing else. *)
Definition writes (f : T -> option T) s : Prop :=
  forall acc t old, sink acc t old -> zlen old + zlen s < 2 ^ 44 -> exists t', f t = Some t' /\ sink acc t' (say acc old s).

Lemma writes_emit s : writes (fun t => emit t s) s.
Proof.
  intros acc t old (Ht & Ha & Hs) Hl. destruct (emit_spec t old s Ht Hl) as (t' & E & Ht' & Ha' & Hs').
  exists t'. split; [done|]. split_and!; [|congruence..]. by rewrite Ha in Ht'.
Qed.

Lemma writes_bind f g a b : writes f a -> writes g b -> writes (fun t => t ← f t; g t) (a ++ b).
Proof.
  intros Hf Hg acc t old Ht Hl. rewrite zlen_app in Hl. pose proof (zlen_nonneg a). pose proof (zlen_nonneg b). pose proof (zlen_say acc old a).
  destruct (Hf acc t old Ht) as (t1 & E1 & Ht1); [lia|]. destruct (Hg acc t1 _ Ht1) as (t2 & E2 & Ht2); [lia|].
  exists t2. rewrite E1. cbn [mbind option_bind]. split; [done|]. by rewrite <- say_say.
Qed.

Lemma writes_ext f g s : (forall t, f t = g t) -> writes f s -> writes g s.
Proof. intros E Hf acc t old Ht Hl. rewrite <- E. by apply Hf. Qed.

Lemma writes_string s : writes (fun t => addReplyString t s) s.
Proof. apply writes_emit. Qed.

Lemma writes_shared s : writes (fun t => addReplyShared t s) s.
Proof. apply writes_emit. Qed.

Lemma writes_reply h o ob : h !! o = Some ob -> strenc_ok (enc ob) -> writes (fun t => addReply stack h t o) (str_of (enc ob)).
Proof.
  intros Ho Hok. unfold addReply. rewrite Ho. cbn [mbind option_bind]. destruct (enc ob) as [v|s|s|ty]; [|apply writes_emit..|done].
  destruct (ll2string_fits stack 32 v Hok) as (rest & -> & _ & _); [lia|]. cbn [mbind option_bind fst snd str_of].
  rewrite mread_prefix, take_ge by (pose_zlen; unfold zlen in *; lia). cbn [mbind option_bind]. apply writes_emit.
Qed.

Lemma writes_error s : (forall c l, s = c :: l -> c <> 45) -> writes (fun t => addReplyError t s) (r_err s).
Proof.
  intros Hs acc t old Ht Hl. unfold addReplyError, addReplyErrorLength.
  assert (Hw : writes (fun t => t ← addReplyString t (bytes_of "-ERR "); t ← addReplyString t s; addReplyString t sh_crlf) (r_err s)).
  { unfold r_err. apply writes_bind; [apply writes_emit|]. apply writes_bind; apply writes_emit. }
  destruct (Hw acc t old Ht Hl) as (t' & E & Ht'). exists t'. split; [|done].
  assert (Hhd : (match s with c :: _ => if negb (c =? 45) then addReplyString t (bytes_of "-ERR ") else Some t | [] => addReplyString t (bytes_of "-ERR ") end)
    = addReplyString t (bytes_of "-ERR ")).
  { destruct s as [|c l]; [done|]. rewrite (proj2 (Z.eqb_neq c 45)) by (by apply (Hs c l)). done. }
  rewrite Hhd. destruct (addReplyString t (bytes_of "-ERR ")) as [t1|]; [|done]. cbn [mbind option_bind] in *.
  destruct (addReplyString t1 s) as [t2|]; [|done]. cbn [mbind option_bind] in *. rewrite E. cbn [mbind option_bind].
  destruct Ht' as (_ & _ & ->). done.
Qed.

Lemma writes_prefix ll p : in_s 64 ll -> writes (fun t => addReplyLongLongWithPrefix stack t ll p) (p :: dec ll ++ sh_crlf).
Proof.
  intros Hll. unfold addReplyLongLongWithPrefix, sh_mbulkhdr, sh_bulkhdr.
  destruct ((p =? 42) && (ll <? OBJ_SHARED_BULKHDR_LEN) && (ll >=? 0)) eqn:E1.
  { apply andb_true_iff in E1 as [[E1 E2]%andb_true_iff E3]. assert (p = 42) as -> by lia.
    rewrite E2, (proj2 (Z.leb_le 0 ll)) by lia. cbn [andb mbind option_bind]. apply writes_emit. }
  destruct ((p =? 36) && (ll <? OBJ_SHARED_BULKHDR_LEN) && (ll >=? 0)) eqn:E2.
  { apply andb_true_iff in E2 as [[E0 E2]%andb_true_iff E3]. assert (p = 36) as -> by lia.
    rewrite E2, (proj2 (Z.leb_le 0 ll)) by lia. cbn [andb mbind option_bind]. apply writes_emit. }
  clear E1 E2. pose proof (dec_len_le ll Hll) as Hd.
  destruct stack as [|x0 st] eqn:Est; [done|]. rewrite zlen_cons in Hstack.
  pose proof (mset_split [] x0 p st 0 eq_refl) as Em. cbn [app] in Em. rewrite Em. cbn [mbind option_bind skipn firstn].
  change (drop 0 st) with st. change (take 0 st) with (@nil Z).
  rewrite ll2string_spec by (done || lia). rewrite geb_false by lia. cbn [mbind option_bind app].
  destruct (zlen_cut (drop (S (length (dec ll))) st) 1) as (a & rest & -> & Ha).
  { unfold zlen in *. rewrite length_drop. lia. }
  destruct a as [|y1 [|? ?]]; [done| |exfalso; rewrite !zlen_cons in Ha; pose_zlen; lia].
  cbn [app]. change (p :: dec ll ++ 0 :: y1 :: rest) with ((p :: dec ll) ++ 0 :: y1 :: rest).
  rewrite (mset_split (p :: dec ll) 0 13 (y1 :: rest)) by zlia. cbn [mbind option_bind].
  replace ((p :: dec ll) ++ 13 :: y1 :: rest) with (((p :: dec ll) ++ [13]) ++ y1 :: rest) by by rewrite <- app_assoc.
  rewrite (mset_split ((p :: dec ll) ++ [13]) y1 10 rest) by zlia. cbn [mbind option_bind].
  replace (((p :: dec ll) ++ [13]) ++ 10 :: rest) with ((p :: dec ll ++ sh_crlf) ++ rest) by (unfold sh_crlf; cbn; by rewrite <- !app_assoc).
  rewrite mread_prefix by (unfold sh_crlf; zlia). rewrite take_ge by (cbn [length]; rewrite length_app; unfold zlen; cbn; lia).
  cbn [mbind option_bind]. apply writes_emit.
Qed.

Lemma writes_longlong ll : in_s 64 ll -> writes (fun t => addReplyLongLong stack t ll) (r_int ll).
Proof.
  intros Hll. unfold addReplyLongLong. destruct (decide (ll = 0)) as [->|Hn0]; [apply writes_emit|].
  destruct (decide (ll = 1)) as [->|Hn1]; [apply writes_emit|]. rewrite !(proj2 (Z.eqb_neq _ _)) by done. by apply writes_prefix.
Qed.

Lemma writes_mbulk n : 0 <= n < 2 ^ 63 -> writes (fun t => addReplyMultiBulkLen stack t n) (r_mbulk n).
Proof.
  intros Hn. unfold addReplyMultiBulkLen, sh_mbulkhdr, OBJ_SHARED_BULKHDR_LEN. destruct (n <? 32) eqn:E.
  - rewrite (proj2 (Z.leb_le 0 n)) by lia. cbn [andb mbind option_bind]. apply writes_emit.
  - apply writes_prefix. unfold in_s. lia.
Qed.

Lemma writes_cbuffer s : zlen s < 2 ^ 63 -> writes (fun t => addReplyBulkCBuffer stack t s) (r_bulk s).
Proof.
  intros Hs. pose proof (zlen_nonneg s). unfold addReplyBulkCBuffer, r_bulk. rewrite (swrap_small 64) by (unfold in_s; lia).
  rewrite (app_assoc (dec (zlen s))), (app_assoc (bytes_of "$")). apply writes_bind; [apply writes_prefix; unfold in_s; lia|].
  apply writes_bind; apply writes_emit.
Qed.

Lemma writes_cstring (s : option (list Z)) : (forall b, s = Some b -> zlen b < 2 ^ 63) ->
  writes (fun t => addReplyBulkCString stack t s) (match s with Some b => r_bulk b | None => sh_nullbulk end).
Proof. intros Hs. destruct s as [b|]; [by apply writes_cbuffer, Hs|apply writes_emit]. Qed.

Lemma writes_bulk_number ll : in_s 64 ll -> writes (fun t => addReplyBulkLongLong stack t ll) (r_bulk (dec ll)).
Proof.
  intros Hll. unfold addReplyBulkLongLong. destruct (ll2string_fits stack 64 ll Hll) as (rest & -> & _ & _); [lia|].
  pose proof (dec_len_le ll Hll). cbn [mbind option_bind fst snd].
  rewrite mread_prefix, take_ge by (pose_zlen; unfold zlen in *; lia). cbn [mbind option_bind]. apply writes_cbuffer. lia.
Qed.

(** The length loop of [addReplyBulkLen]. *)
Lemma quot10_udec n : 10 <= n < 10 ^ 20 -> zlen (udec n) = zlen (udec (Z.quot n 10)) + 1.
Proof.
  intros Hn. rewrite Z.quot_div_nonneg by lia. destruct (udec_len n) as [[A1 A2] A3]; [lia|].
  assert (1 <= n / 10) by (apply Z.div_le_lower_bound; lia). assert (n / 10 <= n) by (apply Z.div_le_upper_bound; lia).
  destruct (udec_len (n / 10)) as [[B1 B2] B3]; [lia|].
  assert (Hq : n / 10 * 10 <= n < n / 10 * 10 + 10) by (pose proof (Z.div_mod n 10 ltac:(lia)); pose proof (Z.mod_pos_bound n 10 ltac:(lia)); lia).
  set (a := zlen (udec n)) in *. set (b := zlen (udec (n / 10))) in *.
  destruct (Z.lt_total a (b + 1)) as [Hlt|[?|Hgt]]; [|done|].
  - exfalso. assert (10 ^ a <= 10 ^ b) by (apply Z.pow_le_mono_r; lia).
    assert (10 ^ b = 10 * 10 ^ (b - 1)) by (rewrite <- Z.pow_succ_r by lia; f_equal; lia). lia.
  - exfalso. assert (10 ^ (b + 1) <= 10 ^ (a - 1)) by (apply Z.pow_le_mono_r; lia).
    assert (10 ^ (b + 1) = 10 * 10 ^ b) by (rewrite <- Z.pow_succ_r by lia; f_equal; lia). lia.
Qed.

Lemma bulk_digits_spec fuel n len : 0 <= n < 10 ^ 20 -> n < 10 ^ (Z.of_nat fuel + 1) ->
  bulk_digits fuel n len = Some (len + zlen (udec n) - 1).
Proof.
  revert n len. induction fuel as [|fuel IH]; intros n len Hn Hf; cbn [bulk_digits].
  - assert (n < 10) by (change (10 ^ (Z.of_nat 0 + 1)) with 10 in Hf; lia). rewrite Z.quot_small by lia. cbn [Z.eqb].
    pose proof (udec_len_le n 1 ltac:(lia) ltac:(lia)). f_equal. lia.
  - destruct (decide (n < 10)).
    + rewrite Z.quot_small by lia. cbn [Z.eqb]. pose proof (udec_len_le n 1 ltac:(lia) ltac:(lia)). f_equal. lia.
    + rewrite (quot10_udec n) by lia. rewrite Z.quot_div_nonneg by lia.
      assert (1 <= n / 10) by (apply Z.div_le_lower_bound; lia). assert (n / 10 <= n) by (apply Z.div_le_upper_bound; lia).
      rewrite (proj2 (Z.eqb_neq _ _)) by lia. rewrite IH; [f_equal; lia|lia|].
      apply Z.div_lt_upper_bound; [lia|]. rewrite <- Z.pow_succ_r by lia.
      replace (Z.succ (Z.of_nat fuel + 1)) with (Z.of_nat (S fuel) + 1) by lia. done.
Qed.

Lemma bulk_length v : in_s 64 v ->
  (let '(n, len) := if v <? 0 then (i64 (- v), 2) else (v, 1) in bulk_digits 20 n len) = Some (zlen (dec v)).
Proof.
  intros Hv. unfold in_s in Hv. cbn in Hv. unfold dec. destruct (decide (v = - 2 ^ 63)) as [->|Hm]; [by vm_compute|].
  assert (10 ^ 20 < 10 ^ (Z.of_nat 20 + 1)) by (by vm_compute). destruct (v <? 0) eqn:E.
  - rewrite swrap_small by (unfold in_s; lia). rewrite bulk_digits_spec by lia. rewrite zlen_cons. f_equal. lia.
  - rewrite bulk_digits_spec by lia. f_equal. lia.
Qed.

Lemma writes_bulklen h o ob : h !! o = Some ob -> strenc_ok (enc ob) ->
  writes (fun t => addReplyBulkLen stack h t o) (bytes_of "$" ++ dec (zlen (str_of (enc ob))) ++ sh_crlf).
Proof.
  intros Ho Hok. unfold addReplyBulkLen. rewrite Ho. cbn [mbind option_bind].
  assert (Hw : forall len, 0 <= len < 2 ^ 63 -> writes (fun t => if len <? OBJ_SHARED_BULKHDR_LEN then s ← sh_bulkhdr len; addReplyShared t s
     else addReplyLongLongWithPrefix stack t (i64 len) 36) (bytes_of "$" ++ dec len ++ sh_crlf)).
  { intros len Hlen. unfold sh_bulkhdr. destruct (len <? OBJ_SHARED_BULKHDR_LEN) eqn:E.
    - rewrite (proj2 (Z.leb_le 0 len)) by lia. cbn [andb mbind option_bind]. apply writes_emit.
    - rewrite swrap_small by (unfold in_s; lia). apply writes_prefix. unfold in_s. lia. }
  destruct (enc ob) as [v|s|s|ty]; [| | |done]; cbn [str_of strenc_ok] in *.
  - rewrite (bulk_length v Hok). cbn [mbind option_bind]. pose proof (dec_len_le v Hok). apply Hw. lia.
  - cbn [mbind option_bind]. pose proof (zlen_nonneg s). apply Hw. lia.
  - cbn [mbind option_bind]. pose proof (zlen_nonneg s). apply Hw. lia.
Qed.

Lemma writes_bulk h o ob : h !! o = Some ob -> strenc_ok (enc ob) -> writes (fun t => addReplyBulk stack h t o) (r_bulk (str_of (enc ob))).
Proof.
  intros Ho Hok. unfold addReplyBulk, r_bulk. rewrite (app_assoc (dec _)), (app_assoc (bytes_of "$")).
  apply writes_bind; [by apply writes_bulklen|]. apply writes_bind; [by apply writes_reply|apply writes_emit].
Qed.
End Formats.

(** * Property *)

(** The reply functions write the formats of the protocol and nothing else,
    for every buffer that satisfies the laws: numbers, array headers, errors,
    bulk strings of memory, of string objects in any encoding, and of numbers. *)
Theorem reply_formats {T : Type} `{OutputLaws T} (stack : list Z) (n : Z) (s : list Z) (h : gmap oaddr robj) (o : oaddr) (ob : robj) :
  zlen stack = 128 -> in_s 64 n -> zlen s < 2 ^ 63 -> h !! o = Some ob -> strenc_ok (enc ob) ->
  writes (T := T) (fun t => addReplyLongLong stack t n) (r_int n) /\
  (0 <= n -> writes (T := T) (fun t => addReplyMultiBulkLen stack t n) (r_mbulk n)) /\
  ((forall c l, s = c :: l -> c <> 45) -> writes (T := T) (fun t => addReplyError t s) (r_err s)) /\
  writes (T := T) (fun t => addReplyBulkCBuffer stack t s) (r_bulk s) /\
  writes (T := T) (fun t => addReplyBulkCString stack t (Some s)) (r_bulk s) /\
  writes (T := T) (fun t => addReplyBulkLongLong stack t n) (r_bulk (dec n)) /\
  writes (T := T) (fun t => addReplyBulk stack h t o) (r_bulk (str_of (enc ob))).
Proof.
  intros Hst Hn Hs Ho Hok. split_and!; [by apply writes_longlong|intros ?; apply writes_mbulk; [done|unfold in_s in Hn; cbn in Hn; lia]|by apply writes_error
    |by apply writes_cbuffer| |by apply writes_bulk_number|by apply writes_bulk].
  apply (writes_cstring stack Hst (Some s)). by intros b [= <-].
Qed.

Lemma reply_formats_witness : exists t, addReplyBulk (replicate 128 0) {[1%positive := {| refcount := 1; enc := OInt (-12) |}]} (bytes_of "+OK") 1 = Some t /\
  t = bytes_of "+OK$3" ++ sh_crlf ++ bytes_of "-12" ++ sh_crlf.
Proof.
  destruct (reply_formats (T := list Z) (replicate 128 0) 0 [] {[1%positive := {| refcount := 1; enc := OInt (-12) |}]} 1 {| refcount := 1; enc := OInt (-12) |})
    as (_ & _ & _ & _ & _ & _ & Hw); [by vm_compute..|].
  destruct (Hw true (bytes_of "+OK") (bytes_of "+OK")) as (t & E & Ht & _); [by split_and!|by vm_compute|]. exists t. split; [exact E|]. rewrite Ht. by vm_compute.
Defined.
