(* ===== verification/Keyspace.v ===== *)
(** * The dictionaries of a database (dict.c, server.c)

    [KeyDict] is what db.c uses of a dictionary with strings as keys, entry
    pointers included ([kd_delete] answers the value whose destructor is called); [KeyDictLaws] says that it behaves as a finite map.  The
    hash tables of [Dict], with [dictSdsHash], implement it, and so does a finite
    map. *)
From Stdlib Require Import ZArith Lia.
From stdpp Require Import base numbers list option gmap.
From S2P Require Import Prelude Siphash Dict DictRefine.

Abbreviation key := (list Z).

(** ** More of dict.c *)

(** [dictFind], answering the entry pointer. *)
Definition dictFindEntry {K V} `{EqDecision K} (hash : K -> Z) (d : dict K V) (k : K) : option (dict K V * option loc) :=
  if used (ht0 d) + used (ht1 d) =? 0 then Some (d, None)
  else
    d ← rehash_step_if hash d;
    let h := hash k in
    r ← table_find d false h k;
    match r return option (dict K V * option loc) with
    | (idx, Some (pos, _)) => Some (d, Some {| l_table := false; l_idx := idx; l_pos := pos |})
    | (_, None) =>
        if negb (dictIsRehashing d) then Some (d, None)
        else
          r ← table_find d true h k;
          match r return option (dict K V * option loc) with
          | (idx, Some (pos, _)) => Some (d, Some {| l_table := true; l_idx := idx; l_pos := pos |})
          | (_, None) => Some (d, None)
          end
    end.

(** [he->v.val]. *)
Definition dictGetVal {K V} (d : dict K V) (e : loc) : option V :=
  c ← mget (table (ht_of d (l_table e))) (l_idx e);
  he ← c !! l_pos e;
  Some (snd he).

(** [entry ? entry : existing]; reading an [existing] that was not set is
    [None]. *)
Definition dictAddOrFind {K V} `{EqDecision K} (hash : K -> Z) (uninit : V) (dict_can_resize : bool) (d : dict K V) (k : K)
    : option (dict K V * loc) :=
  r ← dictAddRaw hash uninit dict_can_resize d k;
  match r with
  | (d, inr entry) => Some (d, entry)
  | (d, inl (Some existing)) => Some (d, existing)
  | (_, inl None) => None
  end.

(** [siphash] with [dict_hash_function_seed]; it answers an [uint64_t]. *)
Definition dictSdsHash (seed : list Z) (k : key) : Z := u64 (default 0 (siphash k (zlen k) seed)).

(** ** The interface *)

Class KeyDict (D V : Type) := {
  kd_entry : Type;
  kd_find : D -> key -> option (D * option kd_entry);
  kd_val : D -> kd_entry -> option V;
  kd_setval : D -> kd_entry -> V -> option D;
  kd_add : D -> key -> V -> option (D * bool);
  kd_addorfind : D -> key -> option (D * kd_entry);
  kd_delete : D -> key -> option (D * option V);
  kd_size : D -> Z
}.

Class KeyDictLaws (D V : Type) `{KeyDict D V} := {
  kd_repr : D -> gmap key V -> Prop;
  kd_at : D -> kd_entry -> key -> Prop;
  kd_find_spec d m k : kd_repr d m -> exists d' r, kd_find d k = Some (d', r) /\ kd_repr d' m /\
    match m !! k with
    | Some _ => exists e, r = Some e /\ kd_at d' e k
    | None => r = None
    end;
  kd_val_spec d m e k : kd_repr d m -> kd_at d e k -> kd_val d e = m !! k /\ is_Some (m !! k);
  kd_setval_spec d m e k v : kd_repr d m -> kd_at d e k -> exists d', kd_setval d e v = Some d' /\ kd_repr d' (<[k := v]> m);
  kd_add_spec d m k v : kd_repr d m -> Z.of_nat (base.size m) < 2 ^ 60 ->
    exists d', kd_add d k v = Some (d', bool_decide (m !! k = None)) /\
      kd_repr d' (if decide (m !! k = None) then <[k := v]> m else m);
  kd_addorfind_spec d m k : kd_repr d m -> Z.of_nat (base.size m) < 2 ^ 60 ->
    exists d' e v, kd_addorfind d k = Some (d', e) /\ kd_repr d' (<[k := v]> m) /\ kd_at d' e k;
  kd_delete_spec d m k : kd_repr d m ->
    exists d', kd_delete d k = Some (d', m !! k) /\ kd_repr d' (delete k m);
  kd_size_spec d m : kd_repr d m -> kd_size d = Z.of_nat (base.size m)
}.

(** ** A finite map *)

#[global] Instance MapKeyDict (V : Type) (uninit : V) : KeyDict (gmap key V) V := {|
  kd_entry := key;
  kd_find d k := Some (d, match d !! k with Some _ => Some k | None => None end);
  kd_val d k := d !! k;
  kd_setval d k v := Some (<[k := v]> d);
  kd_add d k v := Some (if decide (d !! k = None) then (<[k := v]> d, true) else (d, false));
  kd_addorfind d k := Some (if decide (d !! k = None) then (<[k := uninit]> d, k) else (d, k));
  kd_delete d k := Some (delete k d, d !! k);
  kd_size d := Z.of_nat (base.size d)
|}.

#[global] Program Instance MapKeyDictLaws (V : Type) (uninit : V) : @KeyDictLaws _ _ (MapKeyDict V uninit) := {|
  kd_repr d m := d = m;
  kd_at d e k := e = k /\ is_Some (d !! k)
|}.
Next Obligation. intros V u d m k ->. do 2 eexists. split; [done|]. split; [done|]. cbn. destruct (m !! k) eqn:E; [|done]. exists k. split_and!; [done|done|]. by eexists. Qed.
Next Obligation. intros V u d m e k -> [-> ?]. done. Qed.
Next Obligation. intros V u d m e k v -> [-> ?]. by eexists. Qed.
Next Obligation. intros V u d m k v -> _. eexists. cbn. split; [|done]. destruct (decide _); [by rewrite bool_decide_true|by rewrite bool_decide_false]. Qed.
Next Obligation.
  intros V u d m k -> _. cbn. destruct (decide (m !! k = None)) as [Hn|Hn].
  - do 3 eexists. split; [done|]. split; [done|]. split; [done|]. rewrite lookup_insert_eq. by eexists.
  - apply not_eq_None_Some in Hn as [v Hv]. exists m, k, v. split; [done|]. split; [by rewrite insert_id|]. split; [done|by eexists].
Qed.
Next Obligation. intros V u d m k ->. by eexists. Qed.
Next Obligation. intros V u d m ->. done. Qed.

(** ** The hash tables *)

Section HashTables.
Context {V : Type} (uninit : V) (seed : list Z) (dict_can_resize : bool).

Abbreviation hash := (dictSdsHash seed).
Implicit Types (d : dict key V) (m : gmap key V) (k : key).

Lemma find_entry_spec d m k : dict_repr hash d m ->
  exists d' r, dictFindEntry hash d k = Some (d', r) /\ dict_repr hash d' m /\
    match m !! k with
    | Some v => exists e, r = Some e /\ loc_at hash d' e (k, v)
    | None => r = None
    end.
Proof.
  intros Hr. unfold dictFindEntry. destruct (repr_used _ d m Hr) as (Hsz & _ & _). unfold dictSize in Hsz.
  destruct (used (ht0 d) + used (ht1 d) =? 0) eqn:E.
  { exists d, None. assert (m = ∅) as -> by (apply map_size_empty_inv; lia). by rewrite lookup_empty. }
  destruct (rehash_step_spec _ d m Hr) as (d1 & -> & Hr1 & Hk1). cbn [mbind option_bind].
  pose proof (kept_size _ d d1 Hk1 m Hr Hr1) as Hsz1. unfold dictSize in Hsz1.
  destruct (repr_real _ d1 m Hr1) as (R0 & R1 & Rn); [unfold dictSize; lia|].
  assert (Hfound : forall (b : bool) c pos he, ht_real hash (ht_of d1 b) ->
    mget (table (ht_of d1 b)) (Z.land (hash k) (sizemask (ht_of d1 b))) = Some c -> c !! pos = Some he -> fst he = k ->
    he ∈ entries d1 -> exists v, m !! k = Some v /\ loc_at hash d1 {| l_table := b; l_idx := Z.land (hash k) (sizemask (ht_of d1 b)); l_pos := pos |} (k, v)).
  { intros b c pos he Hre Hc Hp <- He. exists (snd he). split; [by apply (repr_lookup _ d1 m he Hr1)|]. split; [done|]. exists c. split; [done|]. by destruct he. }
  destruct (table_find_spec _ d1 false k R0) as (c & Hc & -> & Hf). cbn [mbind option_bind].
  destruct (chain_find c k 0) as [[p he]|].
  { destruct Hf as (Hp & Hk & He). do 2 eexists. split; [done|]. split; [done|].
    destruct (Hfound false c p he R0 Hc Hp Hk) as (v & -> & Hl); [apply elem_of_app; by left|]. by eexists. }
  destruct (dictIsRehashing d1) eqn:Er; cbn [negb].
  - destruct (table_find_spec _ d1 true k (R1 eq_refl)) as (c1 & Hc1 & -> & Hf1). cbn [mbind option_bind].
    destruct (chain_find c1 k 0) as [[p he]|].
    + destruct Hf1 as (Hp & Hk & He). do 2 eexists. split; [done|]. split; [done|].
      destruct (Hfound true c1 p he (R1 eq_refl) Hc1 Hp Hk) as (v & -> & Hl); [apply elem_of_app; by right|]. by eexists.
    + do 2 eexists. split; [done|]. split; [done|]. rewrite (repr_lookup_none _ d1 m k Hr1); [done|]. unfold entries. rewrite fmap_app, elem_of_app. tauto.
  - do 2 eexists. split; [done|]. split; [done|]. rewrite (repr_lookup_none _ d1 m k Hr1); [done|]. unfold entries. by rewrite (Rn eq_refl), app_nil_r.
Qed.

#[global] Instance HashKeyDict : KeyDict (dict key V) V := {|
  kd_entry := loc;
  kd_find d k := dictFindEntry hash d k;
  kd_val d e := dictGetVal d e;
  kd_setval d e v := dictSetVal d e v;
  kd_add d k v := dictAdd hash uninit dict_can_resize d k v;
  kd_addorfind d k := dictAddOrFind hash uninit dict_can_resize d k;
  kd_delete d k := match dictGenericDelete hash d k with Some (d, he) => Some (d, option_map snd he) | None => None end;
  kd_size d := dictSize d
|}.

#[global] Program Instance HashKeyDictLaws : KeyDictLaws (dict key V) V := {|
  kd_repr d m := dict_repr hash d m;
  kd_at d e k := exists v, loc_at hash d e (k, v)
|}.
Next Obligation.
  intros d m k Hr. destruct (find_entry_spec d m k Hr) as (d' & r & E & Hr' & Hm). exists d', r. split; [done|]. split; [done|].
  destruct (m !! k) as [v|]; [|done]. destruct Hm as (e & -> & Hl). eauto.
Qed.
Next Obligation.
  intros d m e k Hr (v & Hre & c & Hc & Hp). cbn. unfold dictGetVal. rewrite Hc. cbn [mbind option_bind]. rewrite Hp. cbn [mbind option_bind snd].
  assert (Hin : (k, v) ∈ entries d).
  { apply mget_Some in Hc as [_ Hc]. unfold entries. apply elem_of_app. destruct (l_table e); [right|left];
      (apply elem_of_concat; exists c; split; [by eapply list_elem_of_lookup_2|by eapply list_elem_of_lookup_2]). }
  pose proof (repr_lookup _ d m (k, v) Hr Hin) as Hl. cbn in Hl. by rewrite Hl.
Qed.
Next Obligation. intros d m e k v Hr (v0 & Hl). by eapply dictSetVal_spec. Qed.
Next Obligation. intros d m k v Hr Hs. cbn. by apply (dict_add_spec hash uninit). Qed.
Next Obligation.
  intros d m k Hr Hs. cbn. unfold dictAddOrFind. destruct (dictAddRaw_spec hash uninit dict_can_resize d m k Hr Hs) as (d1 & r & -> & Hm).
  cbn [mbind option_bind]. destruct (m !! k) as [v|] eqn:E.
  - destruct Hm as (e & -> & Hr' & Hl). exists d1, e, v. split; [done|]. split; [by rewrite insert_id|eauto].
  - destruct Hm as (e & -> & Hr' & Hl). exists d1, e, uninit. split; [done|]. split; [done|eauto].
Qed.
Next Obligation.
  intros d m k Hr. cbn. destruct (delete_spec hash d m k Hr) as (d' & -> & Hr'). exists d'. split; [|done].
  cbn. by destruct (m !! k).
Qed.
Next Obligation. intros d m Hr. cbn. by destruct (repr_used _ d m Hr). Qed.
End HashTables.
