(* ===== verification/DictIter.v ===== *)
(** * Iterating over a hash table (dict.c)

    A safe iterator stops the incremental rehashing, so that lookups during the
    iteration leave every entry in its place: the iteration gives each key exactly
    once.  [DictIter] adds iteration and growing to the interface [KeyDict]; the
    hash tables and finite maps implement it.  The fingerprint with which an
    iterator that is not safe detects its misuse is left out. *)
From Stdlib Require Import ZArith Lia.
From stdpp Require Import base numbers list option gmap.
From S2P Require Import Prelude Siphash Dict DictRefine Keyspace.

Record dictIterator := {
  it_index : Z;
  it_table : bool;
  it_safe : bool;
  it_entry : option loc;
  it_nextEntry : option loc
}.

Definition dictGetIterator : dictIterator :=
  {| it_index := -1; it_table := false; it_safe := false; it_entry := None; it_nextEntry := None |}.
Definition dictGetSafeIterator : dictIterator :=
  {| it_index := -1; it_table := false; it_safe := true; it_entry := None; it_nextEntry := None |}.

Section Iterate.
Context {K V : Type}.
Implicit Types (d : dict K V) (it : dictIterator).

Definition with_iterators d (n : Z) : dict K V := {| ht0 := ht0 d; ht1 := ht1 d; rehashidx := rehashidx d; iterators := n |}.

(** [ht->table[i]], and the entry after [e] in its chain. *)
Definition bucket_head d (t : bool) (i : Z) : option (option loc) :=
  c ← mget (table (ht_of d t)) i;
  Some (match c with [] => None | _ => Some {| l_table := t; l_idx := i; l_pos := 0 |} end).
Definition entry_next d (e : loc) : option (option loc) :=
  c ← mget (table (ht_of d (l_table e))) (l_idx e);
  Some (if decide (S (l_pos e) < length c)%nat then Some {| l_table := l_table e; l_idx := l_idx e; l_pos := S (l_pos e) |} else None).

(** The first half of the loop: the next entry or bucket, [None] at the [break]. *)
Definition next_step d it : option (dict K V * dictIterator * bool) :=
  match it_entry it with
  | None =>
      let d := if (it_index it =? -1) && negb (it_table it) && it_safe it then with_iterators d (u64 (iterators d + 1)) else d in
      let index := it_index it + 1 in
      let at_ t i e := {| it_index := i; it_table := t; it_safe := it_safe it; it_entry := e; it_nextEntry := it_nextEntry it |} in
      if index >=? size (ht_of d (it_table it)) then
        if dictIsRehashing d && negb (it_table it) then e ← bucket_head d true 0; Some (d, at_ true 0 e, true)
        else Some (d, at_ (it_table it) index None, false)
      else e ← bucket_head d (it_table it) index; Some (d, at_ (it_table it) index e, true)
  | Some _ =>
      Some (d, {| it_index := it_index it; it_table := it_table it; it_safe := it_safe it; it_entry := it_nextEntry it; it_nextEntry := it_nextEntry it |}, true)
  end.

(** [while (1)] *)
Fixpoint next_loop (fuel : nat) d it : option (dict K V * dictIterator * option loc) :=
  match fuel with
  | O => None
  | S fuel =>
      r ← next_step d it;
      let '(d, it, more) := r in
      if negb more then Some (d, it, None)
      else
        match it_entry it with
        | Some e =>
            n ← entry_next d e;
            Some (d, {| it_index := it_index it; it_table := it_table it; it_safe := it_safe it; it_entry := Some e; it_nextEntry := n |}, Some e)
        | None => next_loop fuel d it
        end
  end.

Definition dictNext d it : option (dict K V * dictIterator * option loc) :=
  next_loop (length (table (ht0 d)) + length (table (ht1 d)) + 3) d it.

Definition dictReleaseIterator d it : dict K V :=
  if negb ((it_index it =? -1) && negb (it_table it)) && it_safe it then with_iterators d (u64 (iterators d - 1)) else d.

Definition dictGetKey d (e : loc) : option K :=
  c ← mget (table (ht_of d (l_table e))) (l_idx e);
  he ← c !! l_pos e;
  Some (fst he).

(** ** What is left to be visited *)

(** From bucket [i] of table [t] on. *)
Definition rest_of d (t : bool) (i : Z) : list (K * V) :=
  concat (drop (Z.to_nat i) (table (ht_of d t))) ++ (if dictIsRehashing d && negb t then concat (table (ht1 d)) else []).

Definition iter_at d it (l : list (K * V)) : Prop :=
  match it_entry it with
  | None => -1 <= it_index it /\ l = rest_of d (it_table it) (it_index it + 1)
  | Some e => exists c, e = {| l_table := it_table it; l_idx := it_index it; l_pos := l_pos e |} /\
      mget (table (ht_of d (it_table it))) (it_index it) = Some c /\
      it_nextEntry it = (if decide (S (l_pos e) < length c)%nat then Some {| l_table := it_table it; l_idx := it_index it; l_pos := S (l_pos e) |} else None) /\
      l = drop (S (l_pos e)) c ++ rest_of d (it_table it) (it_index it + 1)
  end.

(** The iterator has counted itself. *)
Definition started d it : Prop := it_index it <> -1 /\ iterators d <> 0.
(** The shape of a dictionary, which an iteration keeps. *)
Record shaped d : Prop := {
  sh_0 : size (ht0 d) = zlen (table (ht0 d));
  sh_1 : size (ht1 d) = zlen (table (ht1 d));
  sh_rehash : dictIsRehashing d = true -> 0 < zlen (table (ht1 d))
}.

Definition same_tables d d' : Prop := ht0 d' = ht0 d /\ ht1 d' = ht1 d /\ rehashidx d' = rehashidx d.

Lemma shaped_size d t : shaped d -> size (ht_of d t) = zlen (table (ht_of d t)).
Proof. intros [H0 H1 _]. by destruct t. Qed.

Lemma same_rest d d' t i : same_tables d d' -> rest_of d' t i = rest_of d t i.
Proof. intros (E0 & E1 & Ei). unfold rest_of, dictIsRehashing, ht_of. rewrite E0, E1, Ei. by destruct t. Qed.

Lemma same_ht d d' t : same_tables d d' -> ht_of d' t = ht_of d t.
Proof. intros (E0 & E1 & _). by destruct t. Qed.

Lemma same_shaped d d' : same_tables d d' -> shaped d -> shaped d'.
Proof. intros (E0 & E1 & Ei) [H0 H1 H2]. split; unfold dictIsRehashing in *; by rewrite ?E0, ?E1, ?Ei. Qed.

Lemma same_next d d' e : same_tables d d' -> entry_next d' e = entry_next d e.
Proof. intros Hs. unfold entry_next. by rewrite (same_ht d d' (l_table e) Hs). Qed.

Lemma drop_bucket (t : list (list (K * V))) i c : mget t i = Some c -> concat (drop (Z.to_nat i) t) = c ++ concat (drop (Z.to_nat (i + 1)) t).
Proof.
  intros [Hi Hc]%mget_Some. rewrite (drop_S t c (Z.to_nat i) Hc). cbn [concat]. by replace (Z.to_nat (i + 1)) with (S (Z.to_nat i)) by lia.
Qed.

Lemma rest_bucket d t i c : mget (table (ht_of d t)) i = Some c -> rest_of d t i = c ++ rest_of d t (i + 1).
Proof. intros Hc. unfold rest_of. by rewrite (drop_bucket _ _ _ Hc), <- app_assoc. Qed.

(** The entry at the head of bucket [i]. *)
Lemma head_spec d (t : bool) i c : mget (table (ht_of d t)) i = Some c ->
  exists e, bucket_head d t i = Some e /\
    match e with
    | None => c = []
    | Some e => e = {| l_table := t; l_idx := i; l_pos := 0 |} /\ exists he c', c = he :: c'
    end.
Proof. intros Hc. unfold bucket_head. rewrite Hc. cbn [mbind option_bind]. destruct c as [|he c']; eexists; (split; [reflexivity|]); [done|]. split; [done|eauto]. Qed.

(** How many buckets are still to be looked at. *)
Definition todo d it : nat :=
  (length (drop (Z.to_nat (it_index it + 1)) (table (ht_of d (it_table it)))) +
   (if dictIsRehashing d && negb (it_table it) then S (length (table (ht1 d))) else 0))%nat.

(** What [next_step] does at the end of a chain. *)
Definition stepped d it l (r : dict K V * dictIterator * bool) : Prop :=
  let '(d', it', more) := r in
  same_tables d d' /\ it_safe it' = it_safe it /\ 0 <= it_index it' /\
  (iterators d' = if (it_index it =? -1) && negb (it_table it) && it_safe it then u64 (iterators d + 1) else iterators d) /\
  if more : bool then
    (todo d it' < todo d it)%nat /\
    match it_entry it' with
    | None => l = rest_of d (it_table it') (it_index it' + 1)
    | Some e => exists c he, e = {| l_table := it_table it'; l_idx := it_index it'; l_pos := 0 |} /\
        mget (table (ht_of d (it_table it'))) (it_index it') = Some (he :: c) /\ l = he :: c ++ rest_of d (it_table it') (it_index it' + 1)
    end
  else l = [] /\ it_entry it' = None /\ rest_of d (it_table it') (it_index it' + 1) = [].

Lemma next_step_spec d it : shaped d -> it_entry it = None -> -1 <= it_index it ->
  exists r, next_step d it = Some r /\ stepped d it (rest_of d (it_table it) (it_index it + 1)) r.
Proof.
  intros Hsh He Hi. unfold next_step. rewrite He.
  set (d1 := if (it_index it =? -1) && negb (it_table it) && it_safe it then with_iterators d (u64 (iterators d + 1)) else d).
  assert (Hsame : same_tables d d1) by (unfold d1; by destruct (_ && _ && _)).
  assert (Hits : iterators d1 = if (it_index it =? -1) && negb (it_table it) && it_safe it then u64 (iterators d + 1) else iterators d) by (unfold d1; by destruct (_ && _ && _)).
  pose proof (shaped_size d (it_table it) Hsh) as Hsz. rewrite (same_ht d d1 _ Hsame), Hsz.
  assert (Hre : dictIsRehashing d1 = dictIsRehashing d) by (unfold dictIsRehashing; by destruct Hsame as (_ & _ & ->)). rewrite Hre.
  assert (Hbucket : forall (t : bool) i, 0 <= i < zlen (table (ht_of d t)) -> (forall e, todo d {| it_index := i; it_table := t; it_safe := it_safe it; it_entry := e; it_nextEntry := it_nextEntry it |} < todo d it)%nat ->
    exists r, (e ← bucket_head d1 t i; Some (d1, {| it_index := i; it_table := t; it_safe := it_safe it; it_entry := e; it_nextEntry := it_nextEntry it |}, true)) = Some r /\
      stepped d it (rest_of d t i) r).
  { intros t i Hti Htd. destruct (mget_is_Some _ _ Hti) as [c Hc]. assert (Hc1 : mget (table (ht_of d1 t)) i = Some c) by (by rewrite (same_ht d d1 t Hsame)).
    destruct (head_spec d1 t i c Hc1) as (e & -> & Hh). cbn [mbind option_bind]. eexists. split; [reflexivity|].
    split; [done|]. split; [done|]. split; [cbn; lia|]. split; [done|]. split; [apply Htd|]. cbn. rewrite (rest_bucket d t i c Hc).
    destruct e as [e|]; [|by subst c]. destruct Hh as (-> & he & c' & ->). by exists c', he. }
  destruct (_ >=? _) eqn:Eend.
  - destruct (dictIsRehashing d && negb (it_table it)) eqn:Er.
    + assert (Hlast : rest_of d (it_table it) (it_index it + 1) = rest_of d true 0).
      { unfold rest_of. rewrite Er, andb_false_r, app_nil_r. rewrite drop_ge by (unfold zlen in *; lia). done. }
      rewrite Hlast. apply andb_true_iff in Er as [Er Et]. apply Hbucket; [split; [lia|by apply Hsh]|].
      intros e. unfold todo. cbn [it_table it_index]. rewrite Er, Et. cbn [negb andb]. rewrite length_drop. cbn [ht_of]. lia.
    + eexists. split; [reflexivity|]. split; [done|]. split; [done|]. split; [cbn; lia|]. split; [done|]. cbn [it_entry it_table it_index].
      assert (Hnil : forall i, it_index it + 1 <= i -> rest_of d (it_table it) i = []) by (intros i Hle; unfold rest_of; rewrite Er, app_nil_r, drop_ge by (unfold zlen in *; lia); done).
      split; [|split; [done|]]; apply Hnil; lia.
  - apply Hbucket; [unfold zlen in *; lia|]. intros e. unfold todo. cbn [it_table it_index]. rewrite !length_drop. unfold zlen in *. lia.
Qed.

(** The pointer after the entry at [pos]. *)
Lemma entry_next_spec d (t : bool) i pos c : mget (table (ht_of d t)) i = Some c ->
  entry_next d {| l_table := t; l_idx := i; l_pos := pos |} = Some (if decide (S pos < length c)%nat then Some {| l_table := t; l_idx := i; l_pos := S pos |} else None).
Proof. intros Hc. unfold entry_next. cbn [l_table l_idx l_pos]. by rewrite Hc. Qed.

(** The answer of [dictNext], when [l] is what is left. *)
Definition answers d it l (x : dict K V * dictIterator * option loc) : Prop :=
  let '(d', it', r) := x in
  same_tables d d' /\ it_safe it' = it_safe it /\ it_index it' <> -1 /\
  (iterators d' = if (it_index it =? -1) && negb (it_table it) && it_safe it then u64 (iterators d + 1) else iterators d) /\
  match l with
  | [] => r = None /\ iter_at d' it' []
  | he :: l' => exists e c, r = Some e /\ mget (table (ht_of d (l_table e))) (l_idx e) = Some c /\ c !! l_pos e = Some he /\ iter_at d' it' l'
  end.

Lemma next_loop_none (fuel : nat) d it : shaped d -> it_entry it = None -> -1 <= it_index it -> (todo d it < fuel)%nat ->
  exists x, next_loop fuel d it = Some x /\ answers d it (rest_of d (it_table it) (it_index it + 1)) x.
Proof.
  revert d it. induction fuel as [|fuel IH]; intros d it Hsh He Hi Hf; [lia|]. cbn [next_loop].
  destruct (next_step_spec d it Hsh He Hi) as ([[d1 it1] more] & -> & Hsame & Hs1 & Hi1 & Hit & Hst). cbn [mbind option_bind].
  destruct more; cbn [negb].
  - destruct Hst as [Htd Hst]. destruct (it_entry it1) as [e|] eqn:E1.
    + destruct Hst as (c & he & -> & Hc & Hl). assert (Hc1 : mget (table (ht_of d1 (it_table it1))) (it_index it1) = Some (he :: c)) by (by rewrite (same_ht d d1 _ Hsame)).
      rewrite (entry_next_spec d1 _ _ _ _ Hc1). cbn [mbind option_bind]. eexists. split; [reflexivity|]. split; [done|]. split; [exact Hs1|]. split; [cbn; lia|]. split; [done|].
      rewrite Hl. eexists _, _. split; [reflexivity|]. split; [exact Hc|]. split; [done|]. cbn [it_entry it_table it_index it_nextEntry l_pos].
      exists (he :: c). split; [done|]. split; [exact Hc1|]. split; [done|]. cbn [drop]. by rewrite (same_rest d d1 _ _ Hsame).
    + rewrite Hst. assert (Htd1 : todo d1 it1 = todo d it1).
      { unfold todo, dictIsRehashing. rewrite (same_ht d d1 _ Hsame). by destruct Hsame as (_ & -> & ->). }
      destruct (IH d1 it1) as ([[d2 it2] r] & -> & Hsame2 & Hs2 & Hne & Hit2 & Hl2); [by eapply same_shaped|done|lia|lia|].
      eexists. split; [reflexivity|]. pose proof (fun t => same_ht d d1 t Hsame) as Hht. destruct Hsame as (A0 & A1 & A2), Hsame2 as (B0 & B1 & B2). split; [split_and!; congruence|]. split; [congruence|]. split; [done|].
      rewrite (proj2 (Z.eqb_neq (it_index it1) (-1))) in Hit2 by lia. cbn [andb] in Hit2. split; [congruence|].
      rewrite (same_rest d d1) in Hl2 by done. destruct (rest_of d (it_table it1) (it_index it1 + 1)) as [|he l']; [exact Hl2|].
      destruct Hl2 as (e & c & -> & Hc & Hp & Hat). exists e, c. rewrite Hht in Hc. done.
  - destruct Hst as (Hl & He1 & Hnil). eexists. split; [reflexivity|]. split; [done|]. split; [exact Hs1|]. split; [lia|]. split; [done|]. rewrite Hl. split; [done|].
    unfold iter_at. rewrite He1. split; [lia|]. by rewrite (same_rest d d1).
Qed.

Lemma todo_bound d it : (todo d it <= length (table (ht0 d)) + length (table (ht1 d)) + 1)%nat.
Proof. unfold todo. rewrite length_drop. destruct (it_table it), (dictIsRehashing d); cbn [negb andb ht_of]; lia. Qed.

(** [dictNext] gives the next of the entries that are left. *)
Lemma dictNext_spec d it l : shaped d -> iter_at d it l -> 
  (it_entry it <> None -> it_index it <> -1) -> exists x, dictNext d it = Some x /\ answers d it l x.
Proof.
  unfold iter_at at 1. intros Hsh Hat Hne. unfold dictNext. pose proof (todo_bound d it) as Htd. destruct (it_entry it) as [e|] eqn:He.
  - destruct Hat as (c & Ee & Hc & Hn & ->). specialize (Hne ltac:(done)). replace (length (table (ht0 d)) + length (table (ht1 d)) + 3)%nat with (S (length (table (ht0 d)) + length (table (ht1 d)) + 2)) by lia.
    cbn [next_loop]. unfold next_step. rewrite He. cbn [mbind option_bind negb it_entry it_index it_table it_safe it_nextEntry]. rewrite Hn. destruct (decide _) as [Hlt|Hge].
    + rewrite (entry_next_spec d _ _ _ _ Hc). cbn [mbind option_bind]. eexists. split; [reflexivity|]. split; [done|]. split; [done|]. split; [done|].
      split; [by rewrite (proj2 (Z.eqb_neq _ _) Hne)|]. destruct (lookup_lt_is_Some_2 c (S (l_pos e)) Hlt) as [he Hhe]. rewrite (drop_S c he _ Hhe).
      cbn [app]. eexists _, _. split; [reflexivity|]. split; [exact Hc|]. split; [exact Hhe|]. cbn [it_entry it_table it_index it_nextEntry l_pos]. exists c. done.
    + rewrite drop_ge by lia. cbn [app]. apply mget_range in Hc as Hr.
      destruct (next_loop_none (length (table (ht0 d)) + length (table (ht1 d)) + 2) d {| it_index := it_index it; it_table := it_table it; it_safe := it_safe it; it_entry := None; it_nextEntry := None |}) as (x & -> & Hx);
        [done|done|cbn; lia|unfold todo in *; cbn; lia|]. exists x. done.
  - destruct Hat as [Hi ->]. apply next_loop_none; [done..|lia].
Qed.
End Iterate.

(** ** Iterations over tables that represent a map *)

Section Tables.
Context {K V : Type} `{Countable K} (hash : K -> Z).
Implicit Types (d : dict K V) (m : gmap K V) (k : K).

Lemma same_repr d d' m : same_tables d d' -> dict_repr hash d m -> dict_repr hash d' m.
Proof.
  intros (E0 & E1 & Ei) [[Hok Hnd] Hm]. assert (Ee : entries d' = entries d) by (unfold entries; by rewrite E0, E1). split; [|by rewrite Ee].
  split; [|by rewrite Ee]. destruct Hok as [[]|[]]; [left|right]; split; by rewrite ?E0, ?E1, ?Ei.
Qed.

Lemma repr_shaped d m : dict_repr hash d m -> shaped d.
Proof.
  intros [[Hok _] _]. assert (Hz : forall ht : dictht K V, ht_real hash ht \/ ht = _dictReset -> size ht = zlen (table ht)) by (intros ht [[_ _ Hl _ _]| ->]; done).
  destruct (is_rehashing hash d Hok) as [[Er [_ H0 H1]]|[Er [_ H0 H1 _]]]; (split; [apply Hz; auto|apply Hz; auto|]).
  - congruence.
  - intros _. destruct H1 as [(k & Hk & Hs) _ Hl _ _]. rewrite Hl, Hs. apply Z.pow_pos_nonneg; lia.
Qed.

Lemma repr_entries d m : dict_repr hash d m -> rest_of d false 0 = entries d /\ entries d ≡ₚ map_to_list m.
Proof.
  intros [[Hok Hnd] ->]. split; [|by rewrite map_to_list_to_map]. unfold rest_of, entries. cbn [Z.to_nat drop ht_of negb]. rewrite andb_true_r.
  destruct (is_rehashing hash d Hok) as [[-> [_ _ ->]]|[-> _]]; done.
Qed.

(** An entry of the tables is where a bucket has it. *)
Lemma entry_loc d m e c k v : dict_repr hash d m -> mget (table (ht_of d (l_table e))) (l_idx e) = Some c -> c !! l_pos e = Some (k, v) ->
  (k, v) ∈ entries d -> loc_at hash d e (k, v).
Proof.
  intros Hr Hc Hp Hk. split; [|by exists c]. assert (Hs : dictSize d <> 0).
  { destruct (repr_used hash d m Hr) as [-> _]. intros E. assert (m = ∅) as -> by (apply map_size_empty_inv; lia).
    pose proof (repr_lookup hash d ∅ (k, v) Hr Hk) as Hkv. by rewrite lookup_empty in Hkv. }
  destruct (repr_real hash d m Hr Hs) as (R0 & R1 & Rn). destruct (l_table e) eqn:Et; cbn [ht_of]; [|done]. apply R1.
  destruct (dictIsRehashing d) eqn:Er; [done|]. specialize (Rn eq_refl). cbn [ht_of] in Hc. apply mget_Some in Hc as [_ Hc].
  assert (Hx : (k, v) ∈ concat (table (ht1 d))) by (apply elem_of_concat; exists c; split; by eapply list_elem_of_lookup_2). rewrite Rn in Hx. by apply not_elem_of_nil in Hx.
Qed.

Lemma find_entry_busy d k d' r : iterators d <> 0 -> dictFindEntry hash d k = Some (d', r) -> d' = d.
Proof.
  intros Hi. unfold dictFindEntry, rehash_step_if, _dictRehashStep. rewrite (proj2 (Z.eqb_neq _ _) Hi). destruct (_ =? 0); [by intros [= <-]|].
  assert (E : (if dictIsRehashing d then Some d else Some d) = Some d) by (by destruct (dictIsRehashing d)). rewrite E. cbn [mbind option_bind].
  destruct (table_find d false _ k) as [[idx [[p he]|]]|]; cbn [mbind option_bind]; [by intros [= <-]| |done]. destruct (negb _); [by intros [= <-]|].
  destruct (table_find d true _ k) as [[idx' [[p he]|]]|]; cbn [mbind option_bind]; by intros [= <-].
Qed.

(** [while((de = dictNext(di)) != NULL)], with the keys and the values. *)
Fixpoint visit (fuel : nat) d it : option (dict K V * dictIterator * list (K * V)) :=
  match fuel with
  | O => None
  | S fuel =>
      r ← dictNext d it;
      let '(d, it, e) := r in
      match e with
      | None => Some (d, it, [])
      | Some e => k ← dictGetKey d e; v ← dictGetVal d e; t ← visit fuel d it; Some (fst t, (k, v) :: snd t)
      end
  end.

Lemma visit_spec (fuel : nat) d it l : shaped d -> iter_at d it l -> (it_entry it <> None -> it_index it <> -1) -> (length l < fuel)%nat ->
  exists d' it', visit fuel d it = Some (d', it', l) /\ same_tables d d' /\ it_index it' <> -1 /\ it_safe it' = it_safe it /\
    iterators d' = if (it_index it =? -1) && negb (it_table it) && it_safe it then u64 (iterators d + 1) else iterators d.
Proof.
  revert d it l. induction fuel as [|fuel IH]; intros d it l Hsh Hat Hne Hf; [lia|]. cbn [visit].
  destruct (dictNext_spec d it l Hsh Hat Hne) as ([[d1 it1] r] & -> & Hsame & Hs1 & Hi & Hit & Hl). cbn [mbind option_bind].
  destruct l as [|[k v] l].
  - destruct Hl as [-> _]. by exists d1, it1.
  - destruct Hl as (e & c & -> & Hc & Hp & Hat1). unfold dictGetKey, dictGetVal. rewrite (same_ht d d1 _ Hsame), Hc. cbn [mbind option_bind]. rewrite Hp. cbn [mbind option_bind fst snd].
    destruct (IH d1 it1 l) as (d2 & it2 & -> & Hsame2 & Hi2 & Hs2 & Hit2); [by eapply same_shaped|done|done|cbn in Hf; lia|]. cbn [fst snd].
    exists d2, it2. split; [done|]. split; [destruct Hsame as (A0 & A1 & A2), Hsame2 as (B0 & B1 & B2); split_and!; congruence|]. split; [done|]. split; [congruence|].
    rewrite Hit2, (proj2 (Z.eqb_neq _ _) Hi). exact Hit.
Qed.

(** [C19] A safe iterator over a hash table that may be rehashing gives every key
    with its value, once, and then NULL; when it is released the table is the one
    it was, to the last pointer: nothing was rehashed under it, and rehashing goes
    on as before. *)
Theorem safe_iteration d m (Hr : dict_repr hash d m) (Hq : iterators d = 0) :
  exists d' it' l, visit (S (length (entries d))) d dictGetSafeIterator = Some (d', it', l) /\ l ≡ₚ map_to_list m /\
    (forall k d1 r, dictFindEntry hash d' k = Some (d1, r) -> d1 = d') /\ dictReleaseIterator d' it' = d.
Proof.
  destruct (repr_entries d m Hr) as [E1 E2].
  destruct (visit_spec (S (length (entries d))) d dictGetSafeIterator (entries d)) as (d' & it' & -> & (A0 & A1 & A2) & Hi & Hs & Hit); [by eapply repr_shaped|by split_and!|done|lia|].
  rewrite Hq in Hit. change (iterators d' = 1) in Hit. exists d', it', (entries d). split; [done|]. split; [done|]. split.
  - intros k d1 r. apply find_entry_busy. lia.
  - unfold dictReleaseIterator. rewrite (proj2 (Z.eqb_neq _ _) Hi), Hs. cbn [andb negb]. unfold with_iterators. rewrite Hit, A0, A1, A2. cbn. destruct d. cbn in *. by subst.
Qed.
End Tables.

Lemma safe_iteration_witness : rehashidx ex_dict <> -1 /\ exists d' it' l, visit (S (length (entries ex_dict))) ex_dict dictGetSafeIterator = Some (d', it', l) /\
  l ≡ₚ map_to_list ex_map /\ dictReleaseIterator d' it' = ex_dict.
Proof.
  split; [by vm_compute|]. destruct (safe_iteration ex_hash ex_dict ex_map ex_dict_repr eq_refl) as (d' & it' & l & E1 & E2 & _ & E3). exists d', it', l. split; [exact E1|]. split; [exact E2|exact E3].
Defined.

(** ** The interface *)

Class DictIter (D V : Type) `{KeyDict D V} := {
  kd_iter : Type;
  kd_start : D -> kd_iter;
  kd_next : D -> kd_iter -> option (D * kd_iter * option (kd_entry (D := D)));
  kd_release : D -> kd_iter -> D;
  kd_key : D -> kd_entry (D := D) -> option key;
  kd_expand : D -> Z -> option D
}.

(** [kd_left b d it ks]: the keys [ks] are left, in this order; [b] when the
    iteration has begun.  [kd_quiet]: no iterator is running. *)
Class DictIterLaws (D V : Type) `{KeyDictLaws D V} `{!DictIter D V} := {
  kd_quiet : D -> Prop;
  kd_left : bool -> D -> kd_iter -> list key -> Prop;
  kd_start_spec d m : kd_repr d m -> kd_quiet d -> exists ks, ks ≡ₚ (map_to_list m).*1 /\ kd_left false d (kd_start d) ks;
  kd_next_spec b d m it ks : kd_repr d m -> kd_left b d it ks ->
    exists d' it' r, kd_next d it = Some (d', it', r) /\ kd_repr d' m /\
    match ks with
    | [] => r = None /\ kd_left true d' it' []
    | k :: ks' => exists e, r = Some e /\ kd_at d' e k /\ kd_left true d' it' ks'
    end;
  kd_find_left d m it ks k d' r : kd_repr d m -> kd_left true d it ks -> kd_find d k = Some (d', r) -> kd_left true d' it ks;
  kd_key_spec d m e k : kd_repr d m -> kd_at d e k -> kd_key d e = Some k;
  kd_release_spec b d m it ks : kd_repr d m -> kd_left b d it ks -> kd_repr (kd_release d it) m /\ kd_quiet (kd_release d it);
  kd_expand_spec d m n : kd_repr d m -> n <= 2 ^ 62 -> exists d', kd_expand d n = Some d' /\ kd_repr d' m
}.

(** ** A finite map *)

#[global] Instance MapDictIter (V : Type) (uninit : V) : @DictIter (gmap key V) V (MapKeyDict V uninit) := {|
  kd_iter := list key;
  kd_start := fun d : gmap key V => (map_to_list d).*1;
  kd_next := fun (d : gmap key V) (it : list key) => Some (d, tail it, head it : option (@kd_entry _ _ (MapKeyDict V uninit)));
  kd_release := fun d _ => d;
  kd_key := fun _ e => Some e;
  kd_expand := fun d _ => Some d
|}.

#[global] Program Instance MapDictIterLaws (V : Type) (uninit : V) : @DictIterLaws _ _ _ (MapKeyDictLaws V uninit) (MapDictIter V uninit) := {|
  kd_quiet d := True;
  kd_left b d it ks := it = ks /\ Forall (fun k => is_Some (d !! k)) ks
|}.
Next Obligation.
  intros V u d m Hr _. cbn in Hr. subst d. exists (map_to_list m).*1. split; [done|]. split; [done|]. apply Forall_forall. intros k ([k' v] & -> & Hk)%list_elem_of_fmap.
  apply elem_of_map_to_list in Hk. by exists v.
Qed.
Next Obligation.
  intros V u b d m it ks Hr [-> Hk]. cbn in Hr. subst d. exists m, (tail ks), (head ks). split; [done|]. split; [done|]. destruct ks as [|k ks]; [done|].
  apply Forall_cons_1 in Hk as [Hk Hks]. exists k. done.
Qed.
Next Obligation. intros V u d m it ks k d' r Hr [-> Hk] [= <- <-]. done. Qed.
Next Obligation. intros V u d m e k Hr [-> _]. done. Qed.
Next Obligation. intros V u b d m it ks Hr _. done. Qed.
Next Obligation. intros V u d m n Hr _. by exists d. Qed.

(** ** The hash tables *)

Section HashTables.
Context {V : Type} (uninit : V) (seed : list Z) (dict_can_resize : bool).
Abbreviation hash := (dictSdsHash seed).
Implicit Types (d : dict key V) (m : gmap key V) (k : key).

#[global] Instance HashDictIter : @DictIter (dict key V) V (HashKeyDict uninit seed dict_can_resize) := {|
  kd_iter := dictIterator;
  kd_start := fun _ => dictGetSafeIterator;
  kd_next := (fun d it => dictNext d it) : dict key V -> dictIterator -> option (dict key V * dictIterator * option (@kd_entry _ _ (HashKeyDict uninit seed dict_can_resize)));
  kd_release := fun d it => dictReleaseIterator d it;
  kd_key := fun d e => dictGetKey d e;
  kd_expand := fun d n => r ← dictExpand d n; Some (fst r)
|}.

#[global] Program Instance HashDictIterLaws : @DictIterLaws _ _ _ (HashKeyDictLaws uninit seed dict_can_resize) HashDictIter := {|
  kd_quiet d := iterators d = 0;
  kd_left b d it ks := it_safe it = true /\ exists l, iter_at d it l /\ ks = l.*1 /\ Forall (fun e => e ∈ entries d) l /\
    if b : bool then it_index it <> -1 /\ iterators d = 1 else it = dictGetSafeIterator /\ iterators d = 0
|}.
Next Obligation.
  intros d m Hr Hq. destruct (repr_entries hash d m Hr) as [E1 E2]. exists (entries d).*1. split; [by rewrite E2|]. split; [done|]. exists (entries d). split_and!; [|done|by apply Forall_forall|done|done].
  split; [done|]. symmetry. exact E1.
Qed.
Next Obligation.
  intros b d m it ks Hr (Hsafe & l & Hat & -> & Hin & Hb). cbn.
  destruct (dictNext_spec d it l (repr_shaped hash d m Hr) Hat) as ([[d1 it1] r] & -> & Hsame & Hs1 & Hi & Hit & Hl).
  { destruct b; [by destruct Hb|]. destruct Hb as [-> _]. done. }
  assert (Hits : iterators d1 = 1).
  { rewrite Hit, Hsafe, andb_true_r. destruct b; [rewrite (proj2 (Z.eqb_neq _ _)) by tauto; cbn; tauto|]. destruct Hb as [-> ->]. done. }
  assert (Ee : entries d1 = entries d) by (unfold entries; by destruct Hsame as (-> & -> & _)).
  pose proof (same_repr hash d d1 m Hsame Hr) as Hr1. exists d1, it1, r. split; [done|]. split; [done|].
  destruct l as [|[k v] l]; cbn [fmap list_fmap fst].
  - destruct Hl as [-> Hat1]. split; [done|]. split; [congruence|]. exists []. done.
  - destruct Hl as (e & c & -> & Hc & Hp & Hat1). apply Forall_cons_1 in Hin as [Hk Hin]. exists e. split; [done|]. split.
    + exists v. destruct (entry_loc hash d m e c k v Hr Hc Hp Hk) as [Hre _]. split; [by rewrite (same_ht d d1) by done|]. exists c. by rewrite (same_ht d d1) by done.
    + split; [congruence|]. exists l. rewrite Ee. done.
Qed.
Next Obligation. intros d m it ks k d' r Hr (Hsafe & l & Hat & -> & Hin & Hi & Hb) Hf. apply (find_entry_busy hash) in Hf as ->; [|lia]. split; [done|]. by exists l. Qed.
Next Obligation. intros d m e k Hr (v & _ & c & Hc & Hp). cbn. unfold dictGetKey. rewrite Hc. cbn [mbind option_bind]. by rewrite Hp. Qed.
Next Obligation.
  intros b d m it ks Hr (Hsafe & l & _ & _ & _ & Hb). cbn. split; [apply (same_repr hash d); [|done]; unfold dictReleaseIterator; by destruct (_ && _)|].
  unfold dictReleaseIterator. destruct b.
  - destruct Hb as [Hi Hq]. rewrite (proj2 (Z.eqb_neq _ _) Hi). cbn [andb negb]. rewrite Hsafe. cbn. by rewrite Hq.
  - by destruct Hb as [-> Hq].
Qed.
Next Obligation. intros d m n Hr Hn. cbn. destruct (dictExpand_spec hash d m n Hr Hn) as (d' & b & -> & Hr' & _). by exists d'. Qed.

End HashTables.
