(* ===== verification/ObjectHeap.v ===== *)
(** * Who owns the objects of the heap

    [own h R]: the heap [h] is the shared integers and the objects referenced
    from the multiset [R], and every reference count is the number of the
    references.  With [R] the values of a database, there is no leak and no
    dangling pointer.  One rule for each operation of [Object]. *)
From Stdlib Require Import ZArith Lia.
From stdpp Require Import base numbers list option gmap gmultiset.
From S2P Require Import Prelude UtilNum Sds SdsRefine Object.

Inductive val := VStr (s : list Z) | VOther (type : Z).

#[global] Instance val_eq_dec : EqDecision val.
Proof. solve_decision. Defined.

Definition val_of (e : strenc) : val := match e with OOther ty => VOther ty | _ => VStr (str_of e) end.

Definition data_ok (e : strenc) : Prop := match e with OOther ty => 1 <= ty <= 6 | _ => strenc_ok e end.

(** [o->ptr] read as a string. *)
Definition sds_of (e : strenc) : option (list Z) := match e with OEmbstr s | ORaw s => Some s | _ => None end.

Lemma sds_of_val e s : sds_of e = Some s -> val_of e = VStr s /\ str_of e = s.
Proof. by destruct e; intros [= ->]. Qed.

Lemma val_of_str e s : val_of e = VStr s -> data_ok e -> strenc_ok e /\ str_of e = s.
Proof. by destruct e; intros [= <-]. Qed.

Lemma data_str e : strenc_ok e -> data_ok e /\ val_of e = VStr (str_of e).
Proof. by destruct e. Qed.

Section Own.
Context (shared_integers : Z -> oaddr) (values_shared : bool).

Abbreviation heap := (gmap oaddr robj).
Abbreviation roots := (gmultiset oaddr).
Implicit Types (h : heap) (o a : oaddr) (R : roots).

Definition val_at h o : option val := (fun ob => val_of (enc ob)) <$> h !! o.

Definition is_shared o : Prop := exists v, 0 <= v < OBJ_SHARED_INTEGERS /\ o = shared_integers v.

Record own h R : Prop := {
  own_shared : shared_ok shared_integers h;
  own_count o ob : h !! o = Some ob -> is_shared o \/
    (refcount ob = Z.of_nat (multiplicity o R) /\ 0 < refcount ob < OBJ_SHARED_REFCOUNT);
  own_dom o : o ∈ R -> is_Some (h !! o);
  own_data o ob : h !! o = Some ob -> data_ok (enc ob)
}.

Lemma own_is_shared h R o ob : own h R -> is_shared o -> h !! o = Some ob -> refcount ob = OBJ_SHARED_REFCOUNT /\ exists v, enc ob = OInt v.
Proof.
  intros Hown (v & Hv & ->) Ho. pose proof (own_shared h R Hown v Hv) as Hs. rewrite Hs in Ho. injection Ho as <-. eauto.
Qed.

(** The objects of [R] have kept their contents. *)
Definition kept h h' R : Prop := forall a, a ∈ R -> enc <$> h' !! a = enc <$> h !! a.

Lemma kept_heap_refl h R : kept h h R.
Proof. done. Qed.

Lemma kept_heap_trans h1 h2 h3 R : kept h1 h2 R -> kept h2 h3 R -> kept h1 h3 R.
Proof. intros H1 H2 a Ha. by rewrite H2, H1. Qed.

Lemma kept_mono h h' R R' : kept h h' R' -> R ⊆ R' -> kept h h' R.
Proof. intros H Hs a Ha. apply H. multiset_solver. Qed.

Lemma kept_val h h' R a : kept h h' R -> a ∈ R -> val_at h' a = val_at h a.
Proof.
  intros H Ha. specialize (H a Ha). unfold val_at. destruct (h' !! a), (h !! a); cbn in *; congruence.
Qed.

Lemma multiplicity_le_size a R : (multiplicity a R <= base.size R)%nat.
Proof.
  assert (Hs : multiplicity a R *: {[+ a +]} ⊆ R).
  { intros x. rewrite multiplicity_scalar_mul, multiplicity_singleton. case_decide as Hx; [rewrite Hx|]; lia. }
  apply gmultiset_subseteq_size in Hs. rewrite gmultiset_size_scalar_mul, gmultiset_size_singleton in Hs. lia.
Qed.

Lemma elem_cons a o R : a ∈ {[+ o +]} ⊎ R <-> a = o \/ a ∈ R.
Proof. by rewrite gmultiset_elem_of_disj_union, gmultiset_elem_of_singleton. Qed.

Lemma roots_swap a o R : {[+ a +]} ⊎ ({[+ o +]} ⊎ R) = {[+ o +]} ⊎ ({[+ a +]} ⊎ R).
Proof. multiset_solver. Qed.

(** An object that is not shared, and its references. *)
Lemma own_fresh h R o : own h R -> h !! o = None -> multiplicity o R = 0%nat.
Proof.
  intros Hown Hn. apply not_elem_of_multiplicity. intros Hin. destruct (own_dom h R Hown o Hin) as [x Hx]. congruence.
Qed.

Lemma shared_other h o v : shared_ok shared_integers h -> 0 <= v < OBJ_SHARED_INTEGERS ->
  (forall ob, h !! o = Some ob -> refcount ob <> OBJ_SHARED_REFCOUNT) -> shared_integers v <> o.
Proof. intros Hs Hv Hno E. specialize (Hs v Hv). rewrite E in Hs. by apply (Hno _ Hs). Qed.

Lemma own_upd h R R' o ob : own h R -> (forall ob, h !! o = Some ob -> refcount ob <> OBJ_SHARED_REFCOUNT) ->
  data_ok (enc ob) ->
  refcount ob = Z.of_nat (multiplicity o R') -> 0 < refcount ob < OBJ_SHARED_REFCOUNT ->
  (forall a, a <> o -> multiplicity a R' = multiplicity a R) -> own (<[o := ob]> h) R'.
Proof.
  intros [Hs Hc Hd Hdat] Hno Hok Hr Hrange Hm. split.
  - intros v Hv. rewrite lookup_insert_ne; [by apply Hs|]. apply not_eq_sym. by apply (shared_other h o v Hs Hv).
  - intros a x Hx. destruct (decide (a = o)) as [->|Hne].
    + rewrite lookup_insert_eq in Hx. injection Hx as <-. by right.
    + rewrite lookup_insert_ne in Hx by done. rewrite Hm by done. by apply Hc.
  - intros a Ha. destruct (decide (a = o)) as [->|Hne]; [rewrite lookup_insert_eq; by eexists|].
    rewrite lookup_insert_ne by done. apply Hd. apply elem_of_multiplicity. rewrite <- Hm by done. by apply elem_of_multiplicity.
  - intros a x Hx. destruct (decide (a = o)) as [->|Hne].
    + rewrite lookup_insert_eq in Hx. by injection Hx as <-.
    + rewrite lookup_insert_ne in Hx by done. by eapply Hdat.
Qed.

Lemma kept_upd h o ob R : (forall x, h !! o = Some x -> o ∈ R -> enc ob = enc x) -> (h !! o = None -> o ∉ R) -> kept h (<[o := ob]> h) R.
Proof.
  intros He Hn a Ha. destruct (decide (a = o)) as [->|Hne]; [|by rewrite lookup_insert_ne].
  rewrite lookup_insert_eq. destruct (h !! o) as [x|] eqn:E; [|by destruct (Hn eq_refl)]. cbn. f_equal. by apply He.
Qed.

Lemma own_create h R e : own h R -> data_ok e -> let '(o, h') := createObject h e in
  own h' ({[+ o +]} ⊎ R) /\ h' !! o = Some {| refcount := 1; enc := e |} /\ h !! o = None /\ kept h h' R /\ o ∉ R.
Proof.
  intros Hown He. pose proof (create_value h e) as Hc. unfold createObject in *. set (o := fresh (dom h)) in *. destruct Hc as (H0 & H1 & H2).
  pose proof (own_fresh h R o Hown H0) as Hm. split_and!; [|done|done| |by apply not_elem_of_multiplicity].
  - eapply own_upd; [exact Hown|intros ob; by rewrite H0|done| |cbn [refcount]; unfold OBJ_SHARED_REFCOUNT; lia|].
    + cbn [refcount]. rewrite multiplicity_disj_union, multiplicity_singleton_eq, Hm. lia.
    + intros a Ha. rewrite multiplicity_disj_union, multiplicity_singleton_ne by done. done.
  - intros a Ha. apply not_elem_of_multiplicity in Hm. rewrite lookup_insert_ne by (intros E; apply Hm; by rewrite E). done.
Qed.

Lemma own_incr h R o ob : own h R -> h !! o = Some ob -> Z.of_nat (base.size R) < OBJ_SHARED_REFCOUNT - 1 ->
  exists h', incrRefCount h o = Some h' /\ own h' ({[+ o +]} ⊎ R) /\ kept h h' ({[+ o +]} ⊎ R).
Proof.
  intros Hown Ho Hsz. unfold incrRefCount. rewrite Ho. cbn [mbind option_bind].
  destruct (own_count h R Hown o ob Ho) as [Hsh|[Hm Hr]].
  - rewrite (proj1 (own_is_shared h R o ob Hown Hsh Ho)), Z.eqb_refl. exists h. split; [done|]. split; [|done]. destruct Hown as [Hs Hc Hd Hdat]. split; [done| | |done].
    + intros a x Hx. destruct (decide (a = o)) as [->|Hne]; [by left|].
      rewrite multiplicity_disj_union, multiplicity_singleton_ne by done. by apply Hc.
    + intros a [->|Ha]%elem_cons; [by eexists|]. by apply Hd.
  - rewrite (proj2 (Z.eqb_neq _ _)) by lia. pose proof (multiplicity_le_size o R). unfold OBJ_SHARED_REFCOUNT in *.
    rewrite swrap_small by (unfold in_s; lia). eexists. split; [done|]. split.
    + eapply own_upd; [exact Hown|intros x Hx; replace x with ob by congruence; unfold OBJ_SHARED_REFCOUNT; lia|cbn [enc]; by eapply own_data|..]; cbn [refcount].
      * rewrite multiplicity_disj_union, multiplicity_singleton_eq. lia.
      * unfold OBJ_SHARED_REFCOUNT. lia.
      * intros a Ha. rewrite multiplicity_disj_union, multiplicity_singleton_ne by done. done.
    + apply kept_upd; [intros x Hx _; cbn; congruence|congruence].
Qed.

Lemma own_decr h R o : own h ({[+ o +]} ⊎ R) -> exists h', decrRefCount h o = Some h' /\ own h' R /\ kept h h' R.
Proof.
  intros Hown. destruct (own_dom _ _ Hown o) as [ob Ho]; [apply elem_cons; by left|]. unfold decrRefCount. rewrite Ho. cbn [mbind option_bind].
  destruct (own_count _ _ Hown o ob Ho) as [Hsh|[Hm Hr]].
  - rewrite (proj1 (own_is_shared _ _ o ob Hown Hsh Ho)). cbn [Z.eqb Z.leb Z.compare OBJ_SHARED_REFCOUNT]. exists h. split; [done|]. split; [|done].
    destruct Hown as [Hs Hc Hd Hdat]. split; [done| | |done].
    + intros a x Hx. destruct (decide (a = o)) as [->|Hne]; [by left|]. specialize (Hc a x Hx).
      by rewrite multiplicity_disj_union, multiplicity_singleton_ne in Hc.
    + intros a Ha. apply Hd, elem_cons. by right.
  - rewrite multiplicity_disj_union, multiplicity_singleton_eq in Hm. destruct (Z.eqb_spec (refcount ob) 1) as [E1|E1].
    + eexists. split; [done|]. assert (Hm0 : multiplicity o R = 0%nat) by lia. assert (Hni : o ∉ R) by (by apply not_elem_of_multiplicity). split.
      * destruct Hown as [Hs Hc Hd Hdat]. split.
        -- intros v Hv. rewrite lookup_delete_ne; [by apply Hs|]. apply not_eq_sym. apply (shared_other h o v Hs Hv). intros x Hx. replace x with ob by congruence. lia.
        -- intros a x [Hne Hx]%lookup_delete_Some. specialize (Hc a x Hx). by rewrite multiplicity_disj_union, multiplicity_singleton_ne in Hc.
        -- intros a Ha. rewrite lookup_delete_ne by (intros ->; done). apply Hd, elem_cons. by right.
        -- intros a x [Hne Hx]%lookup_delete_Some. by eapply Hdat.
      * intros a Ha. by rewrite lookup_delete_ne by (intros ->; done).
    + rewrite (proj2 (Z.leb_gt _ _)) by lia. rewrite (proj2 (Z.eqb_neq _ OBJ_SHARED_REFCOUNT)) by lia. eexists. split; [done|]. split.
      * eapply own_upd; [exact Hown|intros x Hx; replace x with ob by congruence; lia|cbn [enc]; by eapply own_data|cbn [refcount]; lia|cbn [refcount]; lia|].
        intros a Ha. rewrite multiplicity_disj_union, multiplicity_singleton_ne by done. done.
      * apply kept_upd; [intros x Hx _; cbn; congruence|congruence].
Qed.

(** An object with one reference may be changed in place. *)
Lemma own_set h R o ob e : own h R -> h !! o = Some ob -> refcount ob <> OBJ_SHARED_REFCOUNT -> data_ok e ->
  own (<[o := {| refcount := refcount ob; enc := e |}]> h) R.
Proof.
  intros Hown Ho Hns He. destruct (own_count _ _ Hown o ob Ho) as [Hsh|[Hm Hr]]; [by destruct (own_is_shared _ _ o ob Hown Hsh Ho)|].
  eapply own_upd; [exact Hown|intros x Hx; by replace x with ob by congruence|done|done|done|done].
Qed.

Lemma own_single h R o ob : own h ({[+ o +]} ⊎ R) -> h !! o = Some ob -> refcount ob = 1 -> o ∉ R.
Proof.
  intros Hown Ho Hr. destruct (own_count _ _ Hown o ob Ho) as [Hsh|[Hm _]].
  { destruct (own_is_shared _ _ o ob Hown Hsh Ho) as [E _]. unfold OBJ_SHARED_REFCOUNT in E. lia. }
  rewrite multiplicity_disj_union, multiplicity_singleton_eq in Hm. apply not_elem_of_multiplicity. lia.
Qed.

Lemma own_shared_ref h R v : own h R -> 0 <= v < OBJ_SHARED_INTEGERS ->
  incrRefCount h (shared_integers v) = Some h /\ own h ({[+ shared_integers v +]} ⊎ R) /\ val_at h (shared_integers v) = Some (VStr (dec v)).
Proof.
  intros Hown Hv. pose proof (own_shared _ _ Hown v Hv) as Hs. split_and!; [apply (incr_shared shared_integers); [apply Hown|done]| |].
  - destruct Hown as [H1 Hc Hd Hdat]. split; [done| | |done].
    + intros a x Hx. destruct (decide (a = shared_integers v)) as [->|Hne]; [left; by exists v|].
      rewrite multiplicity_disj_union, multiplicity_singleton_ne by done. by apply Hc.
    + intros a [->|Ha]%elem_cons; [by eexists|by apply Hd].
  - unfold val_at. by rewrite Hs.
Qed.

Lemma own_long h R v valueobj : own h R -> in_s 64 v ->
  exists r h', createStringObjectFromLongLongWithOptions shared_integers values_shared h v valueobj = Some (r, h') /\
    own h' ({[+ r +]} ⊎ R) /\ kept h h' R /\ val_at h' r = Some (VStr (dec v)).
Proof.
  intros Hown Hv. unfold createStringObjectFromLongLongWithOptions.
  match goal with |- context [if ?b then _ else Some (createObject _ _)] => destruct b eqn:E end.
  - apply andb_true_iff in E as [[E1 E2]%andb_true_iff _]. destruct (own_shared_ref h R v Hown) as (-> & Ho & Hval); [lia|].
    cbn [mbind option_bind]. exists (shared_integers v), h. done.
  - pose proof (own_create h R (OInt v) Hown Hv) as Hc. destruct (createObject h (OInt v)) as [o h']. destruct Hc as (Ho & Hl & _ & Hk & _).
    exists o, h'. split_and!; [done|done|done|]. unfold val_at. by rewrite Hl.
Qed.

Lemma own_number h R v : own h R -> in_s 64 v ->
  exists r h', createStringObjectFromLongLongForValue shared_integers values_shared h v = Some (r, h') /\
    own h' ({[+ r +]} ⊎ R) /\ kept h h' R /\ val_at h' r = Some (VStr (dec v)).
Proof. apply own_long. Qed.

Lemma own_string h R s : own h R -> zlen s < 2 ^ 31 ->
  exists e, createStringObject h s = createObject h e /\ sds_of e = Some s /\ data_ok e.
Proof.
  intros Hown Hs. destruct (string_value h s) as (e & E & He & Hni & Hok). exists e. split; [done|].
  specialize (Hok Hs). destruct e as [v|s0|s0|ty]; cbn in He; [by destruct (Hni v)|subst s0; done|subst s0; done|done].
Qed.

Lemma own_decoded buf h R o s : own h R -> o ∈ R -> val_at h o = Some (VStr s) -> 32 <= zlen buf ->
  Z.of_nat (base.size R) < OBJ_SHARED_REFCOUNT - 1 ->
  exists r h' ob', getDecodedObject buf h o = Some (r, h') /\ own h' ({[+ r +]} ⊎ R) /\ kept h h' R /\
    h' !! r = Some ob' /\ sds_of (enc ob') = Some s /\ zlen s < 2 ^ 31.
Proof.
  intros Hown Ho Hval Hbuf Hsz. unfold val_at in Hval. destruct (h !! o) as [ob|] eqn:El; [|done]. injection Hval as Hval.
  destruct (val_of_str _ _ Hval (own_data _ _ Hown o ob El)) as [Hok Hstr].
  unfold getDecodedObject. rewrite El. cbn [mbind option_bind].
  assert (Hinc : sds_of (enc ob) = Some s -> zlen s < 2 ^ 31 -> exists r h' ob', (h' ← incrRefCount h o; Some (o, h')) = Some (r, h') /\
    own h' ({[+ r +]} ⊎ R) /\ kept h h' R /\ h' !! r = Some ob' /\ sds_of (enc ob') = Some s /\ zlen s < 2 ^ 31).
  { intros Hsds Hl. destruct (own_incr h R o ob Hown El Hsz) as (h' & -> & Ho' & Hk). cbn [mbind option_bind].
    assert (Hko : enc <$> h' !! o = enc <$> h !! o) by (apply Hk, elem_cons; by left).
    rewrite El in Hko. destruct (h' !! o) as [ob'|] eqn:El'; [|done]. cbn in Hko. injection Hko as Hko.
    exists o, h', ob'. split_and!; [done|done| |done| |done].
    - intros a Ha. apply Hk, elem_cons. by right.
    - by rewrite Hko. }
  destruct (enc ob) as [v|s0|s0|ty] eqn:E; [| | |done].
  - cbn in Hstr. subst s. destruct (ll2string_fits buf 32 v Hok) as (rest & -> & _ & Hc); [lia|]. cbn [mbind option_bind snd]. rewrite Hc. cbn [mbind option_bind].
    pose proof (dec_len_le v Hok). destruct (own_string h R (dec v) Hown) as (e & -> & He & Hd); [lia|].
    pose proof (own_create h R e Hown Hd) as Hcr. destruct (createObject h e) as [r h']. destruct Hcr as (H1 & H2 & _ & H4 & _).
    exists r, h', {| refcount := 1; enc := e |}. split_and!; try done. lia.
  - cbn in Hstr, Hok. subst. apply Hinc; [done|lia].
  - cbn in Hstr, Hok. subst. by apply Hinc.
Qed.

(** The encoding of an argument before it becomes a value. *)
Lemma own_encode h R o s : own h ({[+ o +]} ⊎ R) -> val_at h o = Some (VStr s) ->
  exists r h', tryObjectEncoding shared_integers values_shared h o = Some (r, h') /\
    own h' ({[+ r +]} ⊎ R) /\ kept h h' R /\ val_at h' r = Some (VStr s).
Proof.
  intros Hown Hval. assert (Hval0 := Hval). unfold val_at in Hval. destruct (h !! o) as [ob|] eqn:El; [|done]. injection Hval as Hval.
  destruct (val_of_str _ _ Hval (own_data _ _ Hown o ob El)) as [Hok Hstr].
  unfold tryObjectEncoding. rewrite El. cbn [mbind option_bind].
  assert (Hsame : exists r h', Some (o, h) = Some (r, h') /\ own h' ({[+ r +]} ⊎ R) /\ kept h h' R /\ val_at h' r = Some (VStr s)).
  { exists o, h. split_and!; done. }
  assert (Hmain : forall s0, s0 = s -> refcount ob = 1 -> (forall v, enc ob <> OInt v) -> exists r h',
    (n ← (if zlen s0 <=? 20 then string2l s0 (zlen s0) else Some None);
     match n with
     | Some v => if values_shared && (0 <=? v) && (v <? OBJ_SHARED_INTEGERS) then
           h ← decrRefCount h o; h ← incrRefCount h (shared_integers v); Some (shared_integers v, h)
         else Some (o, <[o := {| refcount := refcount ob; enc := OInt v |}]> h)
     | None => if zlen s0 <=? OBJ_ENCODING_EMBSTR_SIZE_LIMIT then
           match enc ob with
           | OEmbstr _ => Some (o, h)
           | _ => let '(emb, h) := createEmbeddedStringObject h s0 in h ← decrRefCount h o; Some (emb, h)
           end
         else Some (o, h)
     end) = Some (r, h') /\ own h' ({[+ r +]} ⊎ R) /\ kept h h' R /\ val_at h' r = Some (VStr s)).
  { intros s0 -> Hr1 Hni. rewrite string2l_eq.
    assert (Hn : exists n, (if zlen s <=? 20 then string2ll s (zlen s) else Some None) = Some n /\ forall v, n = Some v -> in_s 64 v /\ s = dec v).
    { destruct (zlen s <=? 20); [|by exists None]. destruct (string2ll_total s) as (n & -> & Hn). exists n. split; [done|]. intros v. apply Hn. }
    destruct Hn as (n & -> & Hn). cbn [mbind option_bind]. destruct n as [v|].
    - destruct (Hn v eq_refl) as [Hv ->]. destruct (values_shared && (0 <=? v) && (v <? OBJ_SHARED_INTEGERS)) eqn:Esh.
      + apply andb_true_iff in Esh as [[_ E1]%andb_true_iff E2]. destruct (own_decr h R o Hown) as (h1 & -> & Ho1 & Hk1). cbn [mbind option_bind].
        destruct (own_shared_ref h1 R v Ho1) as (-> & Ho2 & Hval2); [lia|]. cbn [mbind option_bind]. exists (shared_integers v), h1. done.
      + exists o. eexists. split; [done|]. assert (Hns : refcount ob <> OBJ_SHARED_REFCOUNT) by (unfold OBJ_SHARED_REFCOUNT; lia). split_and!.
        * by apply own_set.
        * intros a Ha. rewrite lookup_insert_ne; [done|]. intros ->. by apply (own_single h R a ob Hown El Hr1).
        * unfold val_at. by rewrite lookup_insert_eq.
    - unfold OBJ_ENCODING_EMBSTR_SIZE_LIMIT. destruct (zlen s <=? 44) eqn:El44; [|done].
      assert (Hemb : exists r h', (let '(emb, h) := createEmbeddedStringObject h s in h ← decrRefCount h o; Some (emb, h)) = Some (r, h') /\
        own h' ({[+ r +]} ⊎ R) /\ kept h h' R /\ val_at h' r = Some (VStr s)).
      { rewrite embstr_value by lia. assert (Hd : data_ok (OEmbstr s)) by (cbn; lia).
        pose proof (own_create h _ (OEmbstr s) Hown Hd) as Hc. destruct (createObject h (OEmbstr s)) as [r h1]. destruct Hc as (H1 & H2 & _ & H4 & _).
        rewrite (roots_swap r o) in H1.
        destruct (own_decr h1 _ o H1) as (h2 & -> & Ho2 & Hk2). cbn [mbind option_bind]. exists r, h2. split_and!; [done|done| |].
        - intros a Ha. rewrite Hk2, H4; [done|apply elem_cons; by right|apply elem_cons; by right].
        - rewrite (kept_val h1 h2 _ r Hk2) by (apply elem_cons; by left). unfold val_at. by rewrite H2. }
      destruct (enc ob) as [v|s1|s1|ty]; [by destruct (Hni v)|done|exact Hemb|done]. }
  assert (Hnot : (forall v, enc ob <> OInt v) -> ~ 1 < refcount ob -> refcount ob = 1).
  { intros Hni Hlt. destruct (own_count _ _ Hown o ob El) as [Hsh|[_ Hr]]; [|lia].
    destruct (own_is_shared _ _ o ob Hown Hsh El) as [_ [v Ev]]. by destruct (Hni v). }
  destruct (enc ob) as [v|s1|s1|ty] eqn:E; [done| | |done]; (destruct (Z.ltb_spec 1 (refcount ob)); [done|]); apply Hmain; first [done|by apply Hnot; [|lia]].
Qed.
End Own.

(** ** The heap the server starts with *)

Lemma shared_loop_origin n j h tbl h' tbl' : shared_integers_loop n j h tbl = Some (h', tbl') ->
  length tbl' = (length tbl + n)%nat /\ (forall a, a ∈ tbl -> a ∈ tbl') /\ forall a, is_Some (h' !! a) -> is_Some (h !! a) \/ a ∈ tbl'.
Proof.
  revert j h tbl. induction n as [|n IH]; intros j h tbl Hl; cbn [shared_integers_loop] in Hl.
  { injection Hl as -> ->. split_and!; [lia|done|by left]. }
  pose proof (create_value h (OInt j)) as Hc. destruct (createObject h (OInt j)) as [o h1]. destruct Hc as (H0 & H1 & H2).
  unfold makeObjectShared in Hl. rewrite H1 in Hl. cbn [mbind option_bind refcount enc Z.eqb Pos.eqb] in Hl.
  destruct (IH _ _ _ Hl) as (L1 & L2 & L3). rewrite length_app in L1. cbn [length] in L1. split_and!; [lia| |].
  - intros a Ha. apply L2, elem_of_app. by left.
  - intros a Ha. destruct (decide (a = o)) as [->|Hne]; [right; apply L2, elem_of_app; right; by apply list_elem_of_singleton|].
    destruct (L3 a Ha) as [Hs|Hs]; [|by right]. rewrite lookup_insert_ne, H2 in Hs by done. by left.
Qed.

(** With no other object, nothing is referenced. *)
Lemma own_created : exists h tbl, createSharedIntegers ∅ = Some (h, tbl) /\ own (integer_at tbl) h ∅.
Proof.
  destruct (shared_created ∅) as (h & tbl & E1 & Hs & _). exists h, tbl. split; [done|].
  destruct (shared_loop_origin _ _ _ _ _ _ E1) as (L1 & _ & L3). cbn [length] in L1.
  assert (Hsh : forall o, is_Some (h !! o) -> is_shared (integer_at tbl) o).
  { intros o Ho. destruct (L3 o Ho) as [[x Hx]|Hin]; [done|]. apply list_elem_of_lookup_1 in Hin as [i Hi]. exists (Z.of_nat i).
    pose proof (lookup_lt_Some _ _ _ Hi). split; [unfold OBJ_SHARED_INTEGERS in *; lia|]. unfold integer_at, mget.
    rewrite (proj2 (Z.leb_le _ _)) by lia. rewrite Nat2Z.id. by rewrite Hi. }
  split; [done| | |].
  - intros o ob Ho. left. apply Hsh. by rewrite Ho.
  - intros o Ho. destruct (gmultiset_not_elem_of_empty o Ho).
  - intros o ob Ho. destruct (Hsh o) as (v & Hv & ->); [by rewrite Ho|]. rewrite (Hs v Hv) in Ho. injection Ho as <-. cbn.
    unfold in_s, OBJ_SHARED_INTEGERS in *. lia.
Qed.

(** ** The arguments of a command *)

Section Arguments.
Abbreviation heap := (gmap oaddr robj).

(** [processMultibulkBuffer] makes an object of every argument. *)
Fixpoint make_args (h : heap) (bs : list (list Z)) : list oaddr * heap :=
  match bs with
  | [] => ([], h)
  | b :: bs => let '(o, h) := createStringObject h b in let '(l, h) := make_args h bs in (o :: l, h)
  end.

Lemma own_args si bs h (R : gmultiset oaddr) : own si h R -> Forall (fun b => zlen b < 2 ^ 31) bs ->
  let '(l, h') := make_args h bs in
  own si h' (list_to_set_disj l ⊎ R) /\ kept h h' R /\
  Forall2 (fun o b => exists ob, h' !! o = Some ob /\ sds_of (enc ob) = Some b) l bs.
Proof.
  revert h R. induction bs as [|b bs IH]; intros h R Hown Hb; cbn [make_args].
  { split_and!; [by rewrite list_to_set_disj_nil, gmultiset_disj_union_left_id|done|constructor]. }
  apply Forall_cons_1 in Hb as [Hb Hbs]. destruct (own_string si h R b Hown Hb) as (e & -> & He & Hd).
  pose proof (own_create si h R e Hown Hd) as Hc. destruct (createObject h e) as [o h1]. destruct Hc as (C1 & C2 & _ & C4 & _).
  pose proof (IH h1 _ C1 Hbs) as Hrec. destruct (make_args h1 bs) as [l h2]. destruct Hrec as (R1 & R2 & R3). split_and!.
  - rewrite list_to_set_disj_cons. assert (Em : forall (X Y Z : gmultiset oaddr), X ⊎ Y ⊎ Z = Y ⊎ (X ⊎ Z)) by (intros; multiset_solver). by rewrite Em.
  - eapply kept_heap_trans; [exact C4|]. eapply kept_mono; [exact R2|apply gmultiset_disj_union_subseteq_r].
  - constructor; [|done]. specialize (R2 o). rewrite C2 in R2. destruct (h2 !! o) as [ob|] eqn:E1.
    + exists ob. split; [done|]. assert (Ee : Some (enc ob) = Some e) by (apply R2, elem_cons; by left). by injection Ee as ->.
    + exfalso. assert (Ee : @None strenc = Some e) by (apply R2, elem_cons; by left). done.
Qed.
End Arguments.
