(* ===== verification/Db.v ===== *)
(** * The keyspace (db.c)

    The operations of db.c on one database, in a monad of computations on its
    state that may fail: [None] is an assertion, a panic or a pointer to freed
    memory.  A key argument is the string of the key object; what the source
    tells to other parts of the server (watched keys, notifications, replicas and
    append only file) is a log of events.  The configuration and the clock are
    constant during a command; lazy freeing is off. *)
From Stdlib Require Import ZArith Lia String.
From stdpp Require Import base numbers list option gmap.
From S2P Require Import Prelude UtilNum Sds SdsRefine Object ObjectHeap Reply Keyspace.

Definition NOTIFY_GENERIC : Z := Z.shiftl 1 2.
Definition NOTIFY_STRING : Z := Z.shiftl 1 3.
Definition NOTIFY_EXPIRED : Z := Z.shiftl 1 8.

Inductive event :=
| EvModified (k : key)                               (** [touchWatchedKey] *)
| EvNotify (type : Z) (name : string) (k : key)      (** [notifyKeyspaceEvent] *)
| EvPropagateDel (k : key)                           (** [propagateExpire] *)
| EvRememberExpire (k : key)                         (** [rememberSlaveKeyWithExpire] *)
| EvReady (k : key)                                  (** [signalKeyAsReady] *)
| EvSlotAdd (k : key)                                (** [slotToKeyAdd] *)
| EvSlotDel (k : key)                                (** [slotToKeyDel] *)
| EvRewriteDel (k : key).                            (** [rewriteClientCommandVector]: the command is propagated as DEL *)

(** What the commands read of [server] and of the client. *)
Record config := {
  values_shared : bool;        (** [maxmemory] and its policy allow shared integers as values *)
  masterhost : bool;           (** this server is a replica *)
  repl_slave_ro : bool;
  loading : bool;
  lua_caller : option Z;       (** in a script, [lua_time_start] *)
  mstime : Z;
  readonly_client : bool;      (** the current client is not the master and its command only reads *)
  client_master : bool;        (** [c->flags & CLIENT_MASTER] *)
  cluster_enabled : bool;
  cmd_name : string;           (** [c->cmd->name] *)
  module_type : list Z         (** [mv->type->name] of the values of modules *)
}.

(** The state of the database, of the client and the counters of the server. *)
Record dbst (D E C : Type) := {
  heap : gmap oaddr robj;
  dict : D;
  expires : E;
  out : C;
  argv : list oaddr;
  dirty : Z;
  log : list event;
  stat_keyspace_hits : Z;
  stat_keyspace_misses : Z;
  stat_expiredkeys : Z
}.

Arguments heap {D E C}. Arguments dict {D E C}. Arguments expires {D E C}. Arguments out {D E C}. Arguments argv {D E C}.
Arguments dirty {D E C}. Arguments log {D E C}. Arguments stat_keyspace_hits {D E C}.
Arguments stat_keyspace_misses {D E C}. Arguments stat_expiredkeys {D E C}.

(** ** Computations *)

Definition M (St A : Type) : Type := St -> option (A * St).

Definition ret {St A} (x : A) : M St A := fun s => Some (x, s).
Definition bind {St A B} (m : M St A) (f : A -> M St B) : M St B := fun s => match m s with Some (x, s) => f x s | None => None end.
Definition fail {St A} : M St A := fun _ => None.
Definition lift {St A} (o : option A) : M St A := fun s => match o with Some x => Some (x, s) | None => None end.
Definition gets {St A} (f : St -> A) : M St A := fun s => Some (f s, s).

Declare Scope db_scope.
Delimit Scope db_scope with db.
Notation "x <- m ;; k" := (bind m (fun x => k)) (at level 100, m at next level, k at level 200, right associativity) : db_scope.
Notation "m ;; k" := (bind m (fun _ => k)) (at level 100, k at level 200, right associativity) : db_scope.
Open Scope db_scope.

Section Db.
Context {D E C : Type} `{KeyDict D oaddr} `{KeyDict E Z} `{Output C}.
Context (cfg : config) (shared_integers : Z -> oaddr) (stack : list Z).

Abbreviation st := (dbst D E C).
Abbreviation M := (M st).
Implicit Types (s : st) (k : key) (o : oaddr).

Definition put_heap h : M unit := fun s => Some (tt,
  {| heap := h; dict := dict s; expires := expires s; out := out s; argv := argv s; dirty := dirty s; log := log s;
     stat_keyspace_hits := stat_keyspace_hits s; stat_keyspace_misses := stat_keyspace_misses s; stat_expiredkeys := stat_expiredkeys s |}).
Definition put_dict d : M unit := fun s => Some (tt,
  {| heap := heap s; dict := d; expires := expires s; out := out s; argv := argv s; dirty := dirty s; log := log s;
     stat_keyspace_hits := stat_keyspace_hits s; stat_keyspace_misses := stat_keyspace_misses s; stat_expiredkeys := stat_expiredkeys s |}).
Definition put_expires e : M unit := fun s => Some (tt,
  {| heap := heap s; dict := dict s; expires := e; out := out s; argv := argv s; dirty := dirty s; log := log s;
     stat_keyspace_hits := stat_keyspace_hits s; stat_keyspace_misses := stat_keyspace_misses s; stat_expiredkeys := stat_expiredkeys s |}).
Definition put_out c : M unit := fun s => Some (tt,
  {| heap := heap s; dict := dict s; expires := expires s; out := c; argv := argv s; dirty := dirty s; log := log s;
     stat_keyspace_hits := stat_keyspace_hits s; stat_keyspace_misses := stat_keyspace_misses s; stat_expiredkeys := stat_expiredkeys s |}).
Definition put_argv a : M unit := fun s => Some (tt,
  {| heap := heap s; dict := dict s; expires := expires s; out := out s; argv := a; dirty := dirty s; log := log s;
     stat_keyspace_hits := stat_keyspace_hits s; stat_keyspace_misses := stat_keyspace_misses s; stat_expiredkeys := stat_expiredkeys s |}).
(** [server.dirty += n], a [long long]. *)
Definition add_dirty (n : Z) : M unit := fun s => Some (tt,
  {| heap := heap s; dict := dict s; expires := expires s; out := out s; argv := argv s; dirty := i64 (dirty s + n); log := log s;
     stat_keyspace_hits := stat_keyspace_hits s; stat_keyspace_misses := stat_keyspace_misses s; stat_expiredkeys := stat_expiredkeys s |}).
Definition tell (ev : event) : M unit := fun s => Some (tt,
  {| heap := heap s; dict := dict s; expires := expires s; out := out s; argv := argv s; dirty := dirty s; log := log s ++ [ev];
     stat_keyspace_hits := stat_keyspace_hits s; stat_keyspace_misses := stat_keyspace_misses s; stat_expiredkeys := stat_expiredkeys s |}).
Definition add_stats (hits misses expired : Z) : M unit := fun s => Some (tt,
  {| heap := heap s; dict := dict s; expires := expires s; out := out s; argv := argv s; dirty := dirty s; log := log s;
     stat_keyspace_hits := i64 (stat_keyspace_hits s + hits); stat_keyspace_misses := i64 (stat_keyspace_misses s + misses);
     stat_expiredkeys := i64 (stat_expiredkeys s + expired) |}).

(** An operation of [Object], and one of [Reply]. *)
Definition on_heap {A} (f : gmap oaddr robj -> option (A * gmap oaddr robj)) : M A :=
  h <- gets heap ;; r <- lift (f h) ;; put_heap (snd r) ;; ret (fst r).
Definition on_heap_ (f : gmap oaddr robj -> option (gmap oaddr robj)) : M unit :=
  h <- gets heap ;; h <- lift (f h) ;; put_heap h.
Definition reply (f : C -> option C) : M unit := c <- gets out ;; c <- lift (f c) ;; put_out c.
Definition reply_obj (f : gmap oaddr robj -> C -> option C) : M unit := h <- gets heap ;; reply (f h).

(** [o->ptr] as a string, and the object itself. *)
Definition deref o : M robj := h <- gets heap ;; lift (h !! o).
Definition sds_at o : M (list Z) := ob <- deref o ;; lift (sds_of (enc ob)).

(** [c->argv[i]]; [argc] is the length. *)
Definition arg (i : nat) : M oaddr := a <- gets argv ;; lift (a !! i).
Definition set_arg (i : nat) o : M unit := a <- gets argv ;; if decide (i < length a)%nat then put_argv (<[i := o]> a) else fail.

Definition dict_find k : M (option (kd_entry (D := D))) := d <- gets dict ;; r <- lift (kd_find d k) ;; put_dict (fst r) ;; ret (snd r).

(** ** Expires *)

(** The assertion that the key is in the dictionary. *)
Definition assert_key k : M unit := e <- dict_find k ;; match e with Some _ => ret tt | None => fail end.

Definition removeExpire k : M bool :=
  assert_key k ;;
  e <- gets expires ;; r <- lift (kd_delete e k) ;; put_expires (fst r) ;;
  ret (bool_decide (is_Some (snd r))).

Definition setExpire k (when_ : Z) : M unit :=
  assert_key k ;;
  e <- gets expires ;; r <- lift (kd_addorfind e k) ;;
  e <- lift (kd_setval (fst r) (snd r) when_) ;; put_expires e ;;
  if masterhost cfg && negb (repl_slave_ro cfg) && negb (client_master cfg) then tell (EvRememberExpire k) else ret tt.

Definition getExpire k : M Z :=
  e <- gets expires ;;
  if kd_size e =? 0 then ret (-1)
  else
    r <- lift (kd_find e k) ;; put_expires (fst r) ;;
    match snd r with
    | None => ret (-1)
    | Some de => assert_key k ;; e <- gets expires ;; lift (kd_val e de)
    end.

Definition propagateExpire k : M unit := tell (EvPropagateDel k).

Definition dbSyncDelete k : M bool :=
  e <- gets expires ;;
  (if kd_size e >? 0 then r <- lift (kd_delete e k) ;; put_expires (fst r) else ret tt) ;;
  d <- gets dict ;; r <- lift (kd_delete d k) ;; put_dict (fst r) ;;
  match snd r with
  | Some old =>
      on_heap_ (fun h => decrRefCount h old) ;;
      (if cluster_enabled cfg then tell (EvSlotDel k) else ret tt) ;;
      ret true
  | None => ret false
  end.

Definition dbDelete k : M bool := dbSyncDelete k.

Definition expireIfNeeded k : M bool :=
  when_ <- getExpire k ;;
  if when_ <? 0 then ret false
  else if loading cfg then ret false
  else
    let now := match lua_caller cfg with Some t => t | None => mstime cfg end in
    if masterhost cfg then ret (now >? when_)
    else if now <=? when_ then ret false
    else
      add_stats 0 0 1 ;;
      propagateExpire k ;;
      tell (EvNotify NOTIFY_EXPIRED "expired" k) ;;
      dbSyncDelete k.

(** ** Lookup *)

Definition lookupKey k : M (option oaddr) :=
  de <- dict_find k ;;
  match de with
  | Some de => d <- gets dict ;; v <- lift (kd_val d de) ;; ret (Some v)
  | None => ret None
  end.

Definition lookupKeyRead k : M (option oaddr) :=
  expired <- expireIfNeeded k ;;
  if (expired : bool) && (negb (masterhost cfg) || readonly_client cfg) then ret None
  else
    v <- lookupKey k ;;
    (match v with None => add_stats 0 1 0 | Some _ => add_stats 1 0 0 end) ;;
    ret v.

Definition lookupKeyWrite k : M (option oaddr) := expireIfNeeded k ;; lookupKey k.

Definition lookupKeyReadOrReply k (msg : list Z) : M (option oaddr) :=
  o <- lookupKeyRead k ;;
  match o with None => reply (fun c => addReplyShared c msg) ;; ret None | Some _ => ret o end.

Definition lookupKeyWriteOrReply k (msg : list Z) : M (option oaddr) :=
  o <- lookupKeyWrite k ;;
  match o with None => reply (fun c => addReplyShared c msg) ;; ret None | Some _ => ret o end.

Definition dbExists k : M bool := e <- dict_find k ;; ret (match e with Some _ => true | None => false end).

(** ** Changing values *)

Definition dbAdd k o : M unit :=
  d <- gets dict ;; r <- lift (kd_add d k o) ;; put_dict (fst r) ;;
  if negb (snd r) then fail
  else
    ob <- deref o ;;
    (match enc ob with
     | OOther ty => if (ty =? 1) || (ty =? 3) then tell (EvReady k) else ret tt
     | _ => ret tt
     end) ;;
    if cluster_enabled cfg then tell (EvSlotAdd k) else ret tt.

Definition dbOverwrite k o : M unit :=
  de <- dict_find k ;;
  match de with
  | None => fail
  | Some de =>
      d <- gets dict ;; old <- lift (kd_val d de) ;;
      d <- lift (kd_setval d de o) ;; put_dict d ;;
      on_heap_ (fun h => decrRefCount h old)
  end.

Definition signalModifiedKey k : M unit := tell (EvModified k).

Definition notifyKeyspaceEvent (type : Z) (name : string) k : M unit := tell (EvNotify type name k).

Definition setKey k o : M unit :=
  r <- lookupKeyWrite k ;;
  (match r with None => dbAdd k o | Some _ => dbOverwrite k o end) ;;
  on_heap_ (fun h => incrRefCount h o) ;;
  removeExpire k ;;
  signalModifiedKey k.

Definition dbUnshareStringValue k o : M oaddr :=
  ob <- deref o ;;
  let is_string := match enc ob with OOther _ => false | _ => true end in
  let is_raw := match enc ob with ORaw _ => true | _ => false end in
  if negb is_string then fail
  else if negb (refcount ob =? 1) || negb is_raw then
    decoded <- on_heap (fun h => getDecodedObject stack h o) ;;
    s <- sds_at decoded ;;
    o <- on_heap (fun h => Some (createRawStringObject h s)) ;;
    on_heap_ (fun h => decrRefCount h decoded) ;;
    dbOverwrite k o ;;
    ret o
  else ret o.
End Db.
