(* ===== verification/DbSpec.v ===== *)
(** * What the keyspace operations promise

    The abstract state [astate] is a map from keys to values with the times at
    which keys expire, what the client has been told, and the log.  [repm m s A R]
    relates the state of [Db] to it: the dictionary represents [m], and the
    objects of the heap are exactly the shared integers, the values of [m] and the
    objects referenced from [R], with exact reference counts.  One rule for each
    operation of db.c, for the [wp] of the monad. *)
From Stdlib Require Import ZArith Lia String.
From stdpp Require Import base numbers list option gmap gmultiset.
From S2P Require Import Prelude UtilNum Sds SdsRefine Object ObjectHeap Reply Keyspace Db.

(** ** Weakest preconditions *)

Definition wp {St A} (m : M St A) (s : St) (Q : A -> St -> Prop) : Prop := exists x s', m s = Some (x, s') /\ Q x s'.

Section Wp.
Context {St : Type}.
Implicit Types (s : St).

Lemma wp_ret {A} (x : A) s (Q : A -> St -> Prop) : Q x s -> wp (ret x) s Q.
Proof. by exists x, s. Qed.

Lemma wp_bind {A B} (m : M St A) (f : A -> M St B) s Q : wp m s (fun x s => wp (f x) s Q) -> wp (bind m f) s Q.
Proof. intros (x & s1 & E & y & s2 & E2 & HQ). exists y, s2. unfold bind. by rewrite E. Qed.

Lemma wp_lift {A} (o : option A) x s (Q : A -> St -> Prop) : o = Some x -> Q x s -> wp (lift o) s Q.
Proof. intros -> HQ. by exists x, s. Qed.

Lemma wp_gets {A} (f : St -> A) s (Q : A -> St -> Prop) : Q (f s) s -> wp (gets f) s Q.
Proof. intros HQ. by exists (f s), s. Qed.

Lemma wp_mono {A} (m : M St A) s (Q Q' : A -> St -> Prop) : wp m s Q -> (forall x s', Q x s' -> Q' x s') -> wp m s Q'.
Proof. intros (x & s' & E & HQ) Hm. exists x, s'. auto. Qed.
End Wp.

(** One step of a computation. *)
Ltac wp_gets := apply wp_bind, wp_gets.
Ltac wp_lift E := apply wp_bind; eapply wp_lift; [exact E|].
Tactic Notation "wp_use" uconstr(H) := apply wp_bind; eapply wp_mono; [eapply H|].

(** ** The values of a dictionary *)

Lemma roots_mid (X R : gmultiset oaddr) o : X ⊎ ({[+ o +]} ⊎ R) = {[+ o +]} ⊎ (X ⊎ R).
Proof. multiset_solver. Qed.

Definition vals (m : gmap key oaddr) : gmultiset oaddr := list_to_set_disj (map_to_list m).*2.

Lemma vals_empty : vals ∅ = ∅.
Proof. unfold vals. by rewrite map_to_list_empty. Qed.

Lemma vals_insert m k o : m !! k = None -> vals (<[k := o]> m) = {[+ o +]} ⊎ vals m.
Proof.
  intros Hk. unfold vals. assert (Hp : (map_to_list (<[k := o]> m)).*2 ≡ₚ ((k, o) :: map_to_list m).*2) by (by apply fmap_Permutation, map_to_list_insert).
  by rewrite Hp.
Qed.

Lemma vals_delete m k o : m !! k = Some o -> vals m = {[+ o +]} ⊎ vals (delete k m).
Proof. intros Hk. rewrite <- (vals_insert (delete k m) k o) by apply lookup_delete_eq. by rewrite insert_delete_id. Qed.

Lemma vals_overwrite m k old o : m !! k = Some old -> {[+ old +]} ⊎ vals (<[k := o]> m) = {[+ o +]} ⊎ vals m.
Proof.
  intros Hk. rewrite (vals_delete m k old Hk), <- (insert_delete_eq m k o), vals_insert by apply lookup_delete_eq. apply roots_swap.
Qed.

Lemma elem_of_vals m o : o ∈ vals m <-> exists k, m !! k = Some o.
Proof.
  unfold vals. rewrite elem_of_list_to_set_disj, list_elem_of_fmap. split.
  - intros ([k x] & -> & Hk). exists k. by apply elem_of_map_to_list.
  - intros (k & Hk). exists (k, o). split; [done|]. by apply elem_of_map_to_list.
Qed.

Lemma size_vals m : base.size (vals m) = base.size m.
Proof.
  unfold vals. rewrite <- length_map_to_list. generalize (map_to_list m). intros l. induction l as [|x l IH]; [done|].
  cbn [fmap list_fmap length]. rewrite list_to_set_disj_cons, gmultiset_size_disj_union, gmultiset_size_singleton. cbn. f_equal. done.
Qed.

(** ** The abstract keyspace *)

Record astate := { a_kv : gmap key val; a_ex : gmap key Z; a_out : list Z; a_dirty : Z; a_log : list event }.

Definition a_tell (evs : list event) (A : astate) : astate :=
  {| a_kv := a_kv A; a_ex := a_ex A; a_out := a_out A; a_dirty := a_dirty A; a_log := a_log A ++ evs |}.
Definition a_change (n : Z) (A : astate) : astate :=
  {| a_kv := a_kv A; a_ex := a_ex A; a_out := a_out A; a_dirty := i64 (a_dirty A + n); a_log := a_log A |}.
Definition a_map (kv : gmap key val) (ex : gmap key Z) (A : astate) : astate :=
  {| a_kv := kv; a_ex := ex; a_out := a_out A; a_dirty := a_dirty A; a_log := a_log A |}.
(** [acc]: the client accepts replies. *)
Definition a_say (acc : bool) (s : list Z) (A : astate) : astate :=
  {| a_kv := a_kv A; a_ex := a_ex A; a_out := say acc (a_out A) s; a_dirty := a_dirty A; a_log := a_log A |}.

Ltac cbn_st := cbn [heap dict expires out argv dirty log a_kv a_ex a_out a_dirty a_log a_map a_tell a_say a_change] in *.

Section Spec.
Context (cfg : config).
Implicit Types (A : astate) (k : key) (v : val).

Definition slot_events (ev : event) : list event := if cluster_enabled cfg then [ev] else [].
Definition ready_events k v : list event :=
  match v with VOther ty => if (ty =? 1) || (ty =? 3) then [EvReady k] else [] | VStr _ => [] end.

(** Deletion of a key that is there. *)
Definition a_delete k A : astate :=
  let A := a_map (delete k (a_kv A)) (delete k (a_ex A)) A in
  a_tell (slot_events (EvSlotDel k)) A.

Definition now : Z := match lua_caller cfg with Some t => t | None => mstime cfg end.

(** Does the key count as expired? *)
Definition a_expired k A : bool :=
  match a_ex A !! k with
  | Some w => negb (w <? 0) && negb (loading cfg) && (w <? now)
  | None => false
  end.

(** A master deletes an expired key when it meets it, a replica keeps it. *)
Definition a_expire k A : astate :=
  if a_expired k A && negb (masterhost cfg)
  then a_delete k (a_tell [EvPropagateDel k; EvNotify NOTIFY_EXPIRED "expired" k] A)
  else A.

(** What a command that only reads finds. *)
Definition a_read k A : option val :=
  if a_expired k A && (negb (masterhost cfg) || readonly_client cfg) then None else a_kv A !! k.

(** A new value for a key, its expire kept. *)
Definition a_put k v A : astate :=
  let evs := match a_kv A !! k with None => ready_events k v ++ slot_events (EvSlotAdd k) | Some _ => [] end in
  a_tell evs (a_map (<[k := v]> (a_kv A)) (a_ex A) A).

Definition a_set k v A : astate :=
  let A := a_put k v (a_expire k A) in
  a_tell [EvModified k] (a_map (a_kv A) (delete k (a_ex A)) A).

Definition a_setExpire k (w : Z) A : astate :=
  a_tell (if masterhost cfg && negb (repl_slave_ro cfg) && negb (client_master cfg) then [EvRememberExpire k] else [])
    (a_map (a_kv A) (<[k := w]> (a_ex A)) A).
End Spec.

Section Rules.
Context {D E C : Type} `{KeyDictLaws D oaddr} `{KeyDictLaws E Z} `{OutputLaws C}.
Context (cfg : config) (shared_integers : Z -> oaddr) (stack : list Z) (Hstack : zlen stack = 128) (acc : bool).

Abbreviation st := (dbst D E C).
Abbreviation roots := (gmultiset oaddr).
Implicit Types (s : st) (k : key) (o : oaddr) (A : astate) (R : roots) (m : gmap key oaddr).

Record repm m s A R : Prop := {
  rp_dict : kd_repr (dict s) m;
  rp_exp : kd_repr (expires s) (a_ex A);
  rp_own : own shared_integers (heap s) (vals m ⊎ R);
  rp_kv k : a_kv A !! k = m !! k ≫= val_at (heap s);
  rp_sub k : is_Some (a_ex A !! k) -> is_Some (m !! k);
  rp_out : sink acc (out s) (a_out A);
  rp_dirty : dirty s = a_dirty A;
  rp_log : log s = a_log A
}.

Definition rep s A R : Prop := exists m, repm m s A R.

(** The objects of [R] and the arguments are the same. *)
Definition keeps s s' R : Prop := kept (heap s) (heap s') R /\ argv s' = argv s.

(** Room for [n] more references. *)
Definition small A R (n : Z) : Prop := Z.of_nat (base.size (a_kv A)) + Z.of_nat (base.size R) + n < 2 ^ 31 - 2.

Lemma keeps_refl s R : keeps s s R.
Proof. done. Qed.

Lemma keeps_trans s1 s2 s3 R : keeps s1 s2 R -> keeps s2 s3 R -> keeps s1 s3 R.
Proof. intros [P3 E3] [P4 E4]. split; [by eapply kept_heap_trans|congruence]. Qed.

Lemma keeps_mono s s' R R' : keeps s s' R' -> R ⊆ R' -> keeps s s' R.
Proof. intros [P3 E3] Hs. split; [by eapply kept_mono|done]. Qed.

Lemma rep_val m s A R k o : repm m s A R -> m !! k = Some o -> exists v, val_at (heap s) o = Some v /\ a_kv A !! k = Some v.
Proof.
  intros Hr Hk. destruct (own_dom _ _ _ (rp_own _ _ _ _ Hr) o) as [ob Hob].
  { apply gmultiset_elem_of_disj_union. left. apply elem_of_vals. eauto. }
  rewrite (rp_kv _ _ _ _ Hr k), Hk. cbn. unfold val_at. rewrite Hob. cbn. eauto.
Qed.

Lemma rep_none m s A R k : repm m s A R -> m !! k = None <-> a_kv A !! k = None.
Proof.
  intros Hr. split; intros Hk; [by rewrite (rp_kv _ _ _ _ Hr k), Hk|].
  destruct (m !! k) as [o|] eqn:Eo; [|done]. destruct (rep_val m s A R k o Hr Eo) as (v & _ & Hv). congruence.
Qed.

Lemma rep_size m s A R : repm m s A R -> base.size m = base.size (a_kv A).
Proof.
  intros Hr. rewrite <- !size_dom. assert (Hd : dom m = dom (a_kv A)); [|by rewrite Hd].
  apply set_eq. intros k. rewrite !elem_of_dom, <- !not_eq_None_Some. by rewrite (rep_none m s A R k Hr).
Qed.

Lemma rep_bound m s A R n : repm m s A R -> small A R n -> 0 <= n ->
  Z.of_nat (base.size (vals m ⊎ R)) < OBJ_SHARED_REFCOUNT - 1 - n /\ Z.of_nat (base.size m) < 2 ^ 60.
Proof.
  intros Hr Hs Hn. unfold small in Hs. rewrite gmultiset_size_disj_union, size_vals, (rep_size m s A R Hr). unfold OBJ_SHARED_REFCOUNT. lia.
Qed.

(** Nothing but the dictionaries has changed. *)
Definition same_heap s s' : Prop := heap s' = heap s /\ argv s' = argv s.

Lemma same_heap_keeps s s' R : same_heap s s' -> keeps s s' R.
Proof. intros [Eh Ea]. split; [|done]. rewrite Eh. apply kept_heap_refl. Qed.

Lemma wp_dict_find m s A R k : repm m s A R ->
  wp (dict_find k) s (fun r s' => repm m s' A R /\ same_heap s s' /\ expires s' = expires s /\
    match m !! k with Some _ => exists e, r = Some e /\ kd_at (dict s') e k | None => r = None end).
Proof.
  intros Hr. unfold dict_find. wp_gets. destruct (kd_find_spec (dict s) m k (rp_dict _ _ _ _ Hr)) as (d' & r & Ef & Hd & Hm).
  wp_lift Ef. cbn [fst snd]. eexists _, _. split; [reflexivity|]. split_and!; [|done|done|exact Hm].
  destruct Hr. split; done.
Qed.

Lemma wp_assert_key m s A R k : repm m s A R -> is_Some (m !! k) ->
  wp (assert_key k) s (fun _ s' => repm m s' A R /\ same_heap s s' /\ expires s' = expires s).
Proof.
  intros Hr [o Ho]. unfold assert_key. wp_use wp_dict_find; [exact Hr|]. intros r s1 (Hr1 & Hh & He & Hm). rewrite Ho in Hm.
  destruct Hm as (e & -> & _). by apply wp_ret.
Qed.

Lemma wp_removeExpire m s A R k : repm m s A R -> is_Some (m !! k) ->
  wp (removeExpire k) s (fun r s' => repm m s' (a_map (a_kv A) (delete k (a_ex A)) A) R /\ same_heap s s' /\ r = bool_decide (is_Some (a_ex A !! k))).
Proof.
  intros Hr Hk. unfold removeExpire. wp_use wp_assert_key; [exact Hr|exact Hk|]. intros _ s1 (Hr1 & Hh & He). wp_gets.
  destruct (kd_delete_spec (expires s1) (a_ex A) k (rp_exp _ _ _ _ Hr1)) as (e' & Ed & He'). wp_lift Ed. cbn [fst snd].
  eexists _, _. split; [reflexivity|]. split_and!; [|by destruct Hh|done].
  destruct Hr1. split; cbn_st; try done. intros k' Hk'. apply rp_sub0. destruct (decide (k = k')) as [->|Hne]; [by rewrite lookup_delete_eq in Hk'; destruct Hk'|].
  by rewrite lookup_delete_ne in Hk'.
Qed.

Lemma ex_size m s A R : repm m s A R -> (base.size (a_ex A) <= base.size m)%nat.
Proof.
  intros Hr. rewrite <- !size_dom. apply subseteq_size. intros k. rewrite !elem_of_dom. apply (rp_sub _ _ _ _ Hr).
Qed.

Lemma wp_tell m s A R ev : repm m s A R -> wp (tell ev) s (fun _ s' => repm m s' (a_tell [ev] A) R /\ same_heap s s').
Proof.
  intros Hr. eexists _, _. split; [reflexivity|]. split; [|done]. destruct Hr. split; cbn_st; try done. by rewrite rp_log0.
Qed.

Lemma wp_add_dirty m s A R n : repm m s A R -> wp (add_dirty n) s (fun _ s' => repm m s' (a_change n A) R /\ same_heap s s').
Proof.
  intros Hr. eexists _, _. split; [reflexivity|]. split; [|done]. destruct Hr. split; cbn_st; try done. by rewrite rp_dirty0.
Qed.

Lemma wp_add_stats m s A R a b c : repm m s A R -> wp (add_stats a b c) s (fun _ s' => repm m s' A R /\ same_heap s s').
Proof. intros Hr. eexists _, _. split; [reflexivity|]. split; [|done]. destruct Hr. by split. Qed.

Lemma a_tell_nil A : a_tell [] A = A.
Proof. destruct A. unfold a_tell. cbn. by rewrite app_nil_r. Qed.

Lemma wp_tell_if m s A R (b : bool) ev : repm m s A R ->
  wp (if b then tell ev else ret tt) s (fun _ s' => repm m s' (a_tell (if b then [ev] else []) A) R /\ same_heap s s').
Proof. intros Hr. destruct b; [by apply wp_tell|]. apply wp_ret. by rewrite a_tell_nil. Qed.

Lemma wp_reply m s A R (f : C -> option C) msg : repm m s A R -> writes f msg -> zlen (a_out A) + zlen msg < 2 ^ 44 ->
  wp (reply f) s (fun _ s' => repm m s' (a_say acc msg A) R /\ same_heap s s').
Proof.
  intros Hr Hw Hl. unfold reply. wp_gets. destruct (Hw acc (out s) (a_out A) (rp_out _ _ _ _ Hr) Hl) as (c' & Ec & Hc). wp_lift Ec.
  eexists _, _. split; [reflexivity|]. split; [|done]. destruct Hr. by split.
Qed.

Lemma wp_reply_obj m s A R (f : gmap oaddr robj -> C -> option C) msg : repm m s A R -> writes (f (heap s)) msg -> zlen (a_out A) + zlen msg < 2 ^ 44 ->
  wp (reply_obj f) s (fun _ s' => repm m s' (a_say acc msg A) R /\ same_heap s s').
Proof. intros Hr Hw Hl. unfold reply_obj. wp_gets. by apply wp_reply. Qed.

Lemma wp_setExpire m s A R k w : repm m s A R -> is_Some (m !! k) -> small A R 0 ->
  wp (setExpire cfg k w) s (fun _ s' => repm m s' (a_setExpire cfg k w A) R /\ same_heap s s').
Proof.
  intros Hr Hk Hs. destruct (rep_bound m s A R 0 Hr Hs ltac:(lia)) as [_ Hsz]. pose proof (ex_size m s A R Hr).
  unfold setExpire. wp_use wp_assert_key; [exact Hr|exact Hk|]. intros _ s1 (Hr1 & Hh & He). wp_gets.
  destruct (kd_addorfind_spec (expires s1) (a_ex A) k (rp_exp _ _ _ _ Hr1)) as (e1 & de & w0 & Ea & He1 & Hat); [lia|].
  wp_lift Ea. cbn [fst snd]. destruct (kd_setval_spec e1 _ de k w He1 Hat) as (e2 & E2 & He2). wp_lift E2.
  apply wp_bind. eexists _, _. split; [reflexivity|]. rewrite insert_insert_eq in He2.
  eapply wp_mono; [apply (wp_tell_if m _ (a_map (a_kv A) (<[k := w]> (a_ex A)) A) R)|].
  - destruct Hr1. split; cbn_st; try done. intros k' Hk'. destruct (decide (k = k')) as [->|Hne]; [done|]. apply rp_sub0. by rewrite lookup_insert_ne in Hk'.
  - intros _ s2 [Hr2 Hh2]. split; [exact Hr2|]. destruct Hh, Hh2. cbn in *. split; congruence.
Qed.

Lemma wp_getExpire m s A R k : repm m s A R ->
  wp (getExpire k) s (fun w s' => repm m s' A R /\ same_heap s s' /\ w = default (-1) (a_ex A !! k)).
Proof.
  intros Hr. unfold getExpire. wp_gets. pose proof (kd_size_spec (expires s) (a_ex A) (rp_exp _ _ _ _ Hr)) as Hsz.
  destruct (kd_size (expires s) =? 0) eqn:E0.
  { apply wp_ret. split; [done|]. split; [done|]. assert (a_ex A = ∅) as -> by (apply map_size_empty_inv; lia). by rewrite lookup_empty. }
  destruct (kd_find_spec (expires s) (a_ex A) k (rp_exp _ _ _ _ Hr)) as (e1 & r & Ef & He1 & Hm). wp_lift Ef. cbn [fst snd].
  apply wp_bind. eexists _, _. split; [reflexivity|]. destruct (a_ex A !! k) as [w|] eqn:Ew.
  - destruct Hm as (de & -> & Hat). set (s1 := {| heap := heap s |}).
    assert (Hr1 : repm m s1 A R) by (destruct Hr; by split).
    wp_use (wp_assert_key m s1 A R k Hr1); [apply (rp_sub _ _ _ _ Hr); by rewrite Ew|]. intros _ s2 (Hr2 & Hh2 & He2). wp_gets.
    destruct (kd_val_spec (expires s2) (a_ex A) de k (rp_exp _ _ _ _ Hr2)) as [Ev _]; [by rewrite He2|].
    eapply wp_lift; [rewrite Ev; exact Ew|]. split; [done|]. split; [|done]. by destruct Hh2.
  - subst r. apply wp_ret. split; [by destruct Hr; split|]. done.
Qed.

(** ** Operations that change the heap *)

Lemma kv_kept (h h' : gmap oaddr robj) m R (kv : gmap key val) : kept h h' (vals m ⊎ R) -> (forall k, kv !! k = m !! k ≫= val_at h) ->
  forall k : key, kv !! k = m !! k ≫= val_at h'.
Proof.
  intros Hk Hkv k. rewrite Hkv. destruct (m !! k) as [o|] eqn:Eo; [|done]. cbn. symmetry. eapply kept_val; [exact Hk|].
  apply gmultiset_elem_of_disj_union. left. apply elem_of_vals. eauto.
Qed.

Lemma kept_roots (h h' : gmap oaddr robj) (X R : roots) : kept h h' (X ⊎ R) -> kept h h' R.
Proof. intros Hk. apply (kept_mono h h' R _ Hk). apply gmultiset_disj_union_subseteq_r. Qed.

(** A heap step of an operation of [Object] that keeps the values. *)
Lemma rep_heap m s A R R' h' : repm m s A R -> own shared_integers h' (vals m ⊎ R') -> kept (heap s) h' (vals m) ->
  forall s', put_heap h' s = Some (tt, s') -> repm m s' A R'.
Proof.
  intros Hr Hown Hk s' [= <-]. destruct Hr. split; cbn_st; try done. intros k.
  apply (kv_kept (heap s) h' m ∅); [by rewrite gmultiset_disj_union_right_id|done].
Qed.

Lemma wp_on_heap {T} m s A R (R' : T -> roots) (f : gmap oaddr robj -> option (T * gmap oaddr robj)) (P : T -> gmap oaddr robj -> Prop) :
  repm m s A R ->
  (own shared_integers (heap s) (vals m ⊎ R) -> exists r h', f (heap s) = Some (r, h') /\ own shared_integers h' (vals m ⊎ R' r) /\ kept (heap s) h' (vals m) /\ P r h') ->
  wp (on_heap f) s (fun r s' => repm m s' A (R' r) /\ argv s' = argv s /\ P r (heap s')).
Proof.
  intros Hr Hf. destruct (Hf (rp_own _ _ _ _ Hr)) as (r & h' & Ef & Hown & Hk & HP). unfold on_heap. wp_gets. wp_lift Ef. cbn [fst snd].
  eexists _, _. split; [reflexivity|]. split; [|done]. by eapply rep_heap.
Qed.

Lemma wp_incr m s A R o : repm m s A R -> o ∈ vals m ⊎ R -> small A R 0 ->
  wp (on_heap_ (fun h => incrRefCount h o)) s (fun _ s' => repm m s' A ({[+ o +]} ⊎ R) /\ kept (heap s) (heap s') (vals m ⊎ R) /\ argv s' = argv s).
Proof.
  intros Hr Ho Hs. destruct (rep_bound m s A R 0 Hr Hs ltac:(lia)) as [Hsz _]. unfold on_heap_. wp_gets.
  destruct (own_dom _ _ _ (rp_own _ _ _ _ Hr) o Ho) as [ob Hob].
  destruct (own_incr _ _ _ o ob (rp_own _ _ _ _ Hr) Hob) as (h' & Ei & Hown & Hk); [lia|]. wp_lift Ei.
  eexists _, _. split; [reflexivity|]. assert (Hk' : kept (heap s) h' (vals m ⊎ R)) by by apply (kept_roots _ _ _ _ Hk). split.
  - eapply rep_heap; [exact Hr| |eapply kept_mono; [exact Hk'|apply gmultiset_disj_union_subseteq_l]|reflexivity].
    by rewrite roots_mid.
  - by split.
Qed.

Lemma wp_decr m s A R o : repm m s A ({[+ o +]} ⊎ R) ->
  wp (on_heap_ (fun h => decrRefCount h o)) s (fun _ s' => repm m s' A R /\ kept (heap s) (heap s') (vals m ⊎ R) /\ argv s' = argv s).
Proof.
  intros Hr. unfold on_heap_. wp_gets. pose proof (rp_own _ _ _ _ Hr) as Hown.
  rewrite roots_mid in Hown.
  destruct (own_decr _ _ _ o Hown) as (h' & Ed & Hown' & Hk). wp_lift Ed. eexists _, _. split; [reflexivity|]. split.
  - eapply rep_heap; [exact Hr|exact Hown'|eapply kept_mono; [exact Hk|apply gmultiset_disj_union_subseteq_l]|reflexivity].
  - by split.
Qed.

(** Changing which object a key refers to: the old reference becomes a root. *)
Lemma rep_swap m s A R k old o d' v : repm m s A ({[+ o +]} ⊎ R) -> m !! k = Some old -> val_at (heap s) o = Some v ->
  kd_repr d' (<[k := o]> m) -> forall s', put_dict d' s = Some (tt, s') ->
  repm (<[k := o]> m) s' (a_map (<[k := v]> (a_kv A)) (a_ex A) A) ({[+ old +]} ⊎ R).
Proof.
  intros Hr Hk Hv Hd s' [= <-]. destruct Hr. split; cbn_st; try done.
  - rewrite roots_mid, (assoc_L (⊎)), (vals_overwrite m k old o Hk), <- (assoc_L (⊎)), <- roots_mid. done.
  - intros k'. destruct (decide (k = k')) as [->|Hne]; [rewrite !lookup_insert_eq; cbn; congruence|]. rewrite !lookup_insert_ne by done. by apply rp_kv0.
  - intros k' Hk'. destruct (decide (k = k')) as [->|Hne]; [by rewrite lookup_insert_eq|]. rewrite lookup_insert_ne by done. by apply rp_sub0.
Qed.

Lemma in_root o R : o ∈ {[+ o +]} ⊎ R.
Proof. apply elem_cons. by left. Qed.

Lemma wp_dbOverwrite m s A R k o v : repm m s A ({[+ o +]} ⊎ R) -> is_Some (m !! k) -> val_at (heap s) o = Some v ->
  wp (dbOverwrite k o) s (fun _ s' => repm (<[k := o]> m) s' (a_map (<[k := v]> (a_kv A)) (a_ex A) A) R /\ keeps s s' ({[+ o +]} ⊎ R)).
Proof.
  intros Hr [old Hold] Hv. unfold dbOverwrite. wp_use wp_dict_find; [exact Hr|]. intros r s1 (Hr1 & [Hh Ha] & _ & Hm). rewrite Hold in Hm.
  destruct Hm as (de & -> & Hat). wp_gets. destruct (kd_val_spec (dict s1) m de k (rp_dict _ _ _ _ Hr1) Hat) as [Ev _].
  rewrite Hold in Ev. wp_lift Ev. destruct (kd_setval_spec (dict s1) m de k o (rp_dict _ _ _ _ Hr1) Hat) as (d' & Ed & Hd). wp_lift Ed.
  apply wp_bind. eexists _, _. split; [reflexivity|]. rewrite <- Hh in Hv.
  pose proof (rep_swap m s1 A R k old o d' v Hr1 Hold Hv Hd _ eq_refl) as Hr2.
  pose proof (rp_own _ _ _ _ Hr2) as Hown. cbn [heap] in Hown.
  eapply wp_mono; [by apply (wp_decr _ _ _ _ _ Hr2)|]. intros _ s3 (Hr3 & Hk3 & Ha3). split; [exact Hr3|]. cbn [heap argv] in *.
  split; [|congruence]. rewrite <- Hh. intros a Ha'. apply Hk3. apply gmultiset_elem_of_disj_union.
  apply elem_cons in Ha' as [->|Ha']; [left; apply elem_of_vals; exists k; apply lookup_insert_eq|by right].
Qed.

Lemma wp_dbAdd m s A R k o v : repm m s A ({[+ o +]} ⊎ R) -> m !! k = None -> val_at (heap s) o = Some v -> small A R 0 ->
  wp (dbAdd cfg k o) s (fun _ s' => repm (<[k := o]> m) s' (a_put cfg k v A) R /\ same_heap s s').
Proof.
  intros Hr Hk Hv Hs. unfold dbAdd. wp_gets. assert (Hsz : Z.of_nat (base.size m) < 2 ^ 60).
  { rewrite (rep_size _ _ _ _ Hr). unfold small in Hs. lia. }
  destruct (kd_add_spec (dict s) m k o (rp_dict _ _ _ _ Hr) Hsz) as (d' & Ed & Hd). rewrite bool_decide_true in Ed by done. rewrite decide_True in Hd by done.
  wp_lift Ed. cbn [fst snd negb]. apply wp_bind. eexists _, _. split; [reflexivity|]. set (s1 := {| heap := heap s |}).
  assert (Hkv : a_kv A !! k = None) by by apply (rep_none m s A _ k Hr).
  assert (Hr1 : repm (<[k := o]> m) s1 (a_map (<[k := v]> (a_kv A)) (a_ex A) A) R).
  { destruct Hr. split; cbn_st; try done.
    - rewrite (vals_insert m k o Hk), <- (assoc_L (⊎)), <- roots_mid. done.
    - intros k'. destruct (decide (k = k')) as [->|Hne]; [rewrite !lookup_insert_eq; cbn; congruence|]. rewrite !lookup_insert_ne by done. by apply rp_kv0.
    - intros k' Hk'. destruct (decide (k = k')) as [->|Hne]; [by rewrite lookup_insert_eq|]. rewrite lookup_insert_ne by done. by apply rp_sub0. }
  unfold deref. unfold val_at in Hv. destruct (heap s !! o) as [ob|] eqn:Eob; [|done]. injection Hv as Hv.
  apply wp_bind, wp_bind, wp_gets. eapply wp_lift; [exact Eob|]. apply wp_bind.
  assert (Hev : wp (match enc ob with OOther ty => if (ty =? 1) || (ty =? 3) then tell (EvReady k) else ret tt | _ => ret tt end) s1
    (fun _ s' => repm (<[k := o]> m) s' (a_tell (ready_events k v) (a_map (<[k := v]> (a_kv A)) (a_ex A) A)) R /\ same_heap s1 s')).
  { subst v. destruct (enc ob) as [n|b|b|ty]; cbn [val_of ready_events]; [apply wp_ret; by rewrite a_tell_nil..|]. by apply wp_tell_if. }
  eapply wp_mono; [exact Hev|]. intros _ s2 [Hr2 Hh2]. eapply wp_mono; [by apply (wp_tell_if _ _ _ _ (cluster_enabled cfg) (EvSlotAdd k) Hr2)|].
  intros _ s3 [Hr3 Hh3]. split.
  - unfold a_put. rewrite Hkv. unfold a_tell in Hr3. cbn in Hr3. unfold a_tell, a_map. cbn. by rewrite app_assoc.
  - destruct Hh2, Hh3. subst s1. cbn in *. split; congruence.
Qed.

Lemma wp_dbSyncDelete m s A R k : repm m s A R -> is_Some (m !! k) ->
  wp (dbSyncDelete cfg k) s (fun b s' => repm (delete k m) s' (a_delete cfg k A) R /\ keeps s s' R /\ b = true).
Proof.
  intros Hr [old Hold]. unfold dbSyncDelete. wp_gets. pose proof (kd_size_spec (expires s) (a_ex A) (rp_exp _ _ _ _ Hr)) as Hsz. apply wp_bind.
  assert (He : wp (if kd_size (expires s) >? 0 then r <- lift (kd_delete (expires s) k) ;; put_expires (fst r) else ret tt) s
    (fun _ s' => repm m s' (a_map (a_kv A) (delete k (a_ex A)) A) R /\ same_heap s s')).
  { destruct (kd_size (expires s) >? 0) eqn:E0.
    - destruct (kd_delete_spec (expires s) (a_ex A) k (rp_exp _ _ _ _ Hr)) as (e' & Ed & He'). wp_lift Ed. cbn [fst].
      eexists _, _. split; [reflexivity|]. split; [|done]. destruct Hr. split; cbn_st; try done. intros k' Hk'. apply rp_sub0.
      destruct (decide (k = k')) as [->|Hne]; [rewrite lookup_delete_eq in Hk'; by destruct Hk'|]. by rewrite lookup_delete_ne in Hk'.
    - apply wp_ret. split; [|done]. assert (E1 : a_ex A = ∅) by (apply map_size_empty_inv; lia).
      assert (E2 : a_map (a_kv A) (delete k (a_ex A)) A = A) by (rewrite E1, delete_empty, <- E1; by destruct A). by rewrite E2. }
  eapply wp_mono; [exact He|]. intros _ s1 [Hr1 Hh1]. wp_gets.
  destruct (kd_delete_spec (dict s1) m k (rp_dict _ _ _ _ Hr1)) as (d' & Ed & Hd). wp_lift Ed. cbn [fst snd]. rewrite Hold.
  apply wp_bind. eexists _, _. split; [reflexivity|]. set (s2 := {| heap := heap s1 |}).
  assert (Hr2 : repm (delete k m) s2 (a_map (delete k (a_kv A)) (delete k (a_ex A)) A) ({[+ old +]} ⊎ R)).
  { destruct Hr1. split; cbn_st; try done.
    - rewrite (vals_delete m k old Hold), <- (assoc_L (⊎)) in rp_own0. by rewrite roots_mid.
    - intros k'. destruct (decide (k = k')) as [->|Hne]; [by rewrite !lookup_delete_eq|]. rewrite !lookup_delete_ne by done. by apply rp_kv0.
    - intros k' Hk'. destruct (decide (k = k')) as [->|Hne]; [rewrite lookup_delete_eq in Hk'; by destruct Hk'|].
      rewrite lookup_delete_ne in Hk' by done. rewrite lookup_delete_ne by done. apply rp_sub0. by rewrite lookup_delete_ne. }
  apply wp_bind. eapply wp_mono; [by apply (wp_decr _ _ _ _ _ Hr2)|]. intros _ s3 (Hr3 & Hk3 & Ha3).
  apply wp_bind. eapply wp_mono; [by apply (wp_tell_if _ _ _ _ (cluster_enabled cfg) (EvSlotDel k) Hr3)|]. intros _ s4 [Hr4 Hh4].
  apply wp_ret. split; [exact Hr4|]. split; [|done]. destruct Hh1 as [E1 E2], Hh4 as [E3 E4]. subst s2. cbn [heap argv] in *. split; [|congruence].
  rewrite E3, <- E1. apply (kept_roots _ _ _ _ Hk3).
Qed.

Lemma wp_expireIfNeeded m s A R k : repm m s A R ->
  wp (expireIfNeeded cfg k) s (fun b s' => (exists m', repm m' s' (a_expire cfg k A) R) /\ keeps s s' R /\ b = a_expired cfg k A).
Proof.
  intros Hr. unfold expireIfNeeded. wp_use wp_getExpire; [exact Hr|]. intros w s1 (Hr1 & Hh1 & ->). unfold a_expire, a_expired.
  destruct (a_ex A !! k) as [w|] eqn:Ew; cbn [default from_option id].
  2:{ apply wp_ret. split_and!; [by exists m|by apply same_heap_keeps|done]. }
  destruct (w <? 0) eqn:E0; cbn [negb andb].
  { apply wp_ret. split_and!; [by exists m|by apply same_heap_keeps|done]. }
  destruct (loading cfg) eqn:El; cbn [negb andb].
  { apply wp_ret. split_and!; [by exists m|by apply same_heap_keeps|done]. }
  fold (now cfg). destruct (masterhost cfg) eqn:Em; cbn [negb].
  { rewrite andb_false_r. apply wp_ret. split_and!; [by exists m|by apply same_heap_keeps|]. by rewrite Z.gtb_ltb. }
  rewrite andb_true_r. destruct (now cfg <=? w) eqn:En.
  { rewrite (proj2 (Z.ltb_ge _ _)) by lia. apply wp_ret. split_and!; [by exists m|by apply same_heap_keeps|done]. }
  rewrite (proj2 (Z.ltb_lt _ _)) by lia. apply wp_bind. eapply wp_mono; [by apply (wp_add_stats _ _ _ _ 0 0 1 Hr1)|]. intros _ s2 [Hr2 Hh2].
  apply wp_bind. eapply wp_mono; [by apply (wp_tell _ _ _ _ (EvPropagateDel k) Hr2)|]. intros _ s3 [Hr3 Hh3].
  apply wp_bind. eapply wp_mono; [by apply (wp_tell _ _ _ _ (EvNotify NOTIFY_EXPIRED "expired" k) Hr3)|]. intros _ s4 [Hr4 Hh4].
  eapply wp_mono; [apply (wp_dbSyncDelete _ _ _ _ k Hr4); apply (rp_sub _ _ _ _ Hr); by rewrite Ew|]. intros b s5 (Hr5 & Hk5 & ->).
  split_and!; [|by do 4 (eapply keeps_trans; [by apply same_heap_keeps|])|done]. exists (delete k m).
  unfold a_tell in Hr5. cbn in Hr5. rewrite <- app_assoc in Hr5. exact Hr5.
Qed.

(** ** Lookups *)

Lemma wp_lookupKey m s A R k : repm m s A R -> wp (lookupKey k) s (fun r s' => repm m s' A R /\ same_heap s s' /\ r = m !! k).
Proof.
  intros Hr. unfold lookupKey. wp_use wp_dict_find; [exact Hr|]. intros r s1 (Hr1 & Hh1 & _ & Hm). destruct (m !! k) as [o|] eqn:Eo.
  - destruct Hm as (de & -> & Hat). wp_gets. destruct (kd_val_spec (dict s1) m de k (rp_dict _ _ _ _ Hr1) Hat) as [Ev _]. rewrite Eo in Ev.
    wp_lift Ev. by apply wp_ret.
  - subst r. by apply wp_ret.
Qed.

Lemma wp_lookupKeyWrite s A R k : rep s A R ->
  wp (lookupKeyWrite cfg k) s (fun r s' => exists m', repm m' s' (a_expire cfg k A) R /\ keeps s s' R /\ r = m' !! k).
Proof.
  intros [m Hr]. unfold lookupKeyWrite. apply wp_bind. eapply wp_mono; [by apply (wp_expireIfNeeded m s A R k)|].
  intros b s1 ([m1 Hr1] & Hk1 & _). eapply wp_mono; [by apply (wp_lookupKey _ _ _ _ _ Hr1)|]. intros r s2 (Hr2 & Hh2 & ->).
  exists m1. split_and!; [done| |done]. eapply keeps_trans; [exact Hk1|by apply same_heap_keeps].
Qed.

Lemma wp_lookupKeyRead s A R k : rep s A R ->
  wp (lookupKeyRead cfg k) s (fun r s' => exists m', repm m' s' (a_expire cfg k A) R /\ keeps s s' R /\
    match a_read cfg k A with
    | Some v => exists o, r = Some o /\ m' !! k = Some o /\ val_at (heap s') o = Some v
    | None => r = None
    end).
Proof.
  intros [m Hr]. unfold lookupKeyRead. apply wp_bind. eapply wp_mono; [by apply (wp_expireIfNeeded m s A R k)|].
  intros b s1 ([m1 Hr1] & Hk1 & ->). unfold a_read. destruct (a_expired cfg k A && (negb (masterhost cfg) || readonly_client cfg)) eqn:E0.
  { apply wp_ret. by exists m1. }
  apply wp_bind. eapply wp_mono; [by apply (wp_lookupKey _ _ _ _ _ Hr1)|]. intros r s2 (Hr2 & Hh2 & ->).
  apply wp_bind. assert (Hst : forall a b c, wp (add_stats a b c) s2 (fun _ s' => repm m1 s' (a_expire cfg k A) R /\ same_heap s2 s')) by (intros; by apply wp_add_stats).
  assert (Hkv : a_kv A !! k = a_kv (a_expire cfg k A) !! k).
  { unfold a_expire. destruct (a_expired cfg k A) eqn:E1; [|done]. cbn [andb] in *. apply orb_false_iff in E0 as [-> _]. done. }
  assert (Hk2 : forall s3, same_heap s2 s3 -> keeps s s3 R).
  { intros s3 H23. eapply keeps_trans; [exact Hk1|]. eapply keeps_trans; by apply same_heap_keeps. }
  rewrite Hkv. destruct (m1 !! k) as [o|] eqn:Eo.
  - eapply wp_mono; [apply Hst|]. intros _ s3 [Hr3 Hh3]. apply wp_ret. destruct (rep_val _ _ _ _ k o Hr3 Eo) as (v & Hv & ->).
    exists m1. split_and!; [done|by apply Hk2|]. by exists o.
  - eapply wp_mono; [apply Hst|]. intros _ s3 [Hr3 Hh3]. apply wp_ret. rewrite (proj1 (rep_none _ _ _ _ k Hr3) Eo).
    exists m1. split_and!; [done|by apply Hk2|done].
Qed.

(** ** Sizes *)

Lemma small_mono A R n n' : small A R n -> n' <= n -> small A R n'.
Proof. unfold small. lia. Qed.

Lemma small_expire A R n k : small A R n -> small (a_expire cfg k A) R n.
Proof.
  unfold small, a_expire, a_delete. destruct (a_expired cfg k A && negb (masterhost cfg)); [|done]. cbn_st. rewrite map_size_delete.
  destruct (a_kv A !! k); unfold id; lia.
Qed.

Lemma small_put A R n k v : small A R (n + 1) -> small (a_put cfg k v A) R n.
Proof. unfold small, a_put. cbn_st. rewrite map_size_insert. destruct (a_kv A !! k); unfold id; lia. Qed.

Lemma root_split o R : o ∈ R -> exists R0, R = {[+ o +]} ⊎ R0.
Proof. intros Ho. exists (R ∖ {[+ o +]}). by apply gmultiset_disj_union_difference'. Qed.

(** ** Values *)

Lemma wp_put m s A R k o v : repm m s A ({[+ o +]} ⊎ R) -> val_at (heap s) o = Some v -> small A R 0 ->
  wp (match m !! k with None => dbAdd cfg k o | Some _ => dbOverwrite k o end) s
    (fun _ s' => repm (<[k := o]> m) s' (a_put cfg k v A) R /\ keeps s s' ({[+ o +]} ⊎ R)).
Proof.
  intros Hr Hv Hs. destruct (m !! k) as [old|] eqn:Eo.
  - eapply wp_mono; [apply (wp_dbOverwrite _ _ _ _ k o v Hr); [by eexists|done]|]. intros _ s' [Hr' Hk']. split; [|done].
    destruct (rep_val _ _ _ _ k old Hr Eo) as (v0 & _ & Hv0). unfold a_put. rewrite Hv0. by rewrite a_tell_nil.
  - eapply wp_mono; [by apply (wp_dbAdd _ _ _ _ k o v Hr Eo Hv Hs)|]. intros _ s' [Hr' Hh']. split; [done|by apply same_heap_keeps].
Qed.

Lemma wp_setKey s A R k o v : rep s A R -> o ∈ R -> val_at (heap s) o = Some v -> small A R 1 ->
  wp (setKey cfg k o) s (fun _ s' => rep s' (a_set cfg k v A) R /\ keeps s s' R).
Proof.
  intros Hr Ho Hv Hs. destruct (root_split o R Ho) as [R0 ->]. unfold setKey.
  apply wp_bind. eapply wp_mono; [by apply (wp_lookupKeyWrite s A _ k Hr)|]. intros r s1 (m1 & Hr1 & Hk1 & ->).
  assert (Hv1 : val_at (heap s1) o = Some v) by (by rewrite (kept_val _ _ _ _ (proj1 Hk1) Ho)).
  assert (Hs1 : small (a_expire cfg k A) R0 1).
  { apply small_expire. unfold small in *. rewrite gmultiset_size_disj_union in Hs. lia. }
  apply wp_bind. eapply wp_mono; [by apply (wp_put _ _ _ _ k o v Hr1 Hv1), (small_mono _ _ 1)|]. intros _ s2 [Hr2 Hk2].
  apply wp_bind. eapply wp_mono; [apply (wp_incr _ _ _ _ o Hr2)|].
  { apply gmultiset_elem_of_disj_union. left. apply elem_of_vals. exists k. apply lookup_insert_eq. }
  { by apply small_put. }
  intros _ s3 (Hr3 & Hk3 & Ha3). assert (Hk3' : keeps s2 s3 ({[+ o +]} ⊎ R0)).
  { split; [|done]. intros a Ha. apply Hk3. apply gmultiset_elem_of_disj_union. apply elem_cons in Ha as [->|Ha]; [left|by right].
    apply elem_of_vals. exists k. apply lookup_insert_eq. }
  apply wp_bind. eapply wp_mono; [apply (wp_removeExpire _ _ _ _ k Hr3); rewrite lookup_insert_eq; by eexists|].
  intros _ s4 (Hr4 & Hh4 & _). eapply wp_mono; [by apply (wp_tell _ _ _ _ (EvModified k) Hr4)|]. intros _ s5 [Hr5 Hh5]. split; [by eexists|].
  eapply keeps_trans; [exact Hk1|]. eapply keeps_trans; [exact Hk2|]. eapply keeps_trans; [exact Hk3'|].
  eapply keeps_trans; by apply same_heap_keeps.
Qed.

(** An object with one reference belongs to one key only. *)
Lemma single_key m s A R k o ob : repm m s A R -> m !! k = Some o -> heap s !! o = Some ob -> refcount ob = 1 ->
  (o ∉ R) /\ forall k', k' <> k -> m !! k' <> Some o.
Proof.
  intros Hr Hk Ho H1r. pose proof (rp_own _ _ _ _ Hr) as Hown. rewrite (vals_delete m k o Hk), <- (assoc_L (⊎)) in Hown.
  pose proof (own_single _ _ _ _ _ Hown Ho H1r) as Hn. rewrite gmultiset_elem_of_disj_union in Hn. split; [tauto|].
  intros k' Hne Hk'. apply Hn. left. apply elem_of_vals. exists k'. by rewrite lookup_delete_ne.
Qed.

(** Changing the object of a key in place. *)
Lemma rep_set m s A R k o ob e : repm m s A R -> m !! k = Some o -> heap s !! o = Some ob -> refcount ob = 1 -> data_ok e ->
  forall s', put_heap (<[o := {| refcount := refcount ob; enc := e |}]> (heap s)) s = Some (tt, s') ->
  repm m s' (a_map (<[k := val_of e]> (a_kv A)) (a_ex A) A) R /\ keeps s s' R.
Proof.
  intros Hr Hk Ho H1r He s' [= <-]. destruct (single_key m s A R k o ob Hr Hk Ho H1r) as [HnR Hnk]. split.
  - destruct Hr. split; cbn_st; try done.
    + eapply own_set; [done|done|unfold OBJ_SHARED_REFCOUNT; lia|done].
    + intros k'. destruct (decide (k' = k)) as [->|Hne].
      * rewrite lookup_insert_eq, Hk. cbn. unfold val_at. by rewrite lookup_insert_eq.
      * rewrite lookup_insert_ne, rp_kv0 by done. specialize (Hnk k' Hne). destruct (m !! k') as [o'|]; [|done]. cbn.
        unfold val_at. rewrite lookup_insert_ne; [done|congruence].
  - split; [|done]. intros a Ha. cbn_st. rewrite lookup_insert_ne; [done|]. by intros ->.
Qed.

Lemma wp_sds_at s o ob b (Q : list Z -> st -> Prop) : heap s !! o = Some ob -> sds_of (enc ob) = Some b -> Q b s -> wp (sds_at o) s Q.
Proof.
  intros Ho Hb HQ. unfold sds_at, deref. apply wp_bind, wp_bind, wp_gets. eapply wp_lift; [exact Ho|]. eapply wp_lift; [exact Hb|done].
Qed.

Lemma wp_dbUnshareStringValue m s A R k o b : repm m s A R -> m !! k = Some o -> val_at (heap s) o = Some (VStr b) -> small A R 2 ->
  wp (dbUnshareStringValue stack k o) s (fun o' s' => exists m', repm m' s' A R /\ m' !! k = Some o' /\
    heap s' !! o' = Some {| refcount := 1; enc := ORaw b |} /\ keeps s s' R).
Proof.
  intros Hr Hk Hv Hs. assert (HkvA : a_kv A !! k = Some (VStr b)) by (by rewrite (rp_kv _ _ _ _ Hr k), Hk).
  assert (Hv0 := Hv). unfold val_at in Hv0. destruct (heap s !! o) as [ob|] eqn:Eo; [|done]. injection Hv0 as Hv0.
  assert (Hov : o ∈ vals m ⊎ R) by (apply gmultiset_elem_of_disj_union; left; apply elem_of_vals; eauto).
  unfold dbUnshareStringValue, deref. apply wp_bind, wp_bind, wp_gets. eapply wp_lift; [exact Eo|].
  destruct (match enc ob with OOther _ => false | _ => true end) eqn:Estr; [|by destruct (enc ob)]. cbn [negb].
  destruct (negb (refcount ob =? 1) || negb (match enc ob with ORaw _ => true | _ => false end)) eqn:Ec.
  2:{ apply wp_ret. exists m. split_and!; [done|done| |by apply keeps_refl]. rewrite Eo. destruct ob as [n e]. cbn in *.
      destruct e as [|b0|b0|]; try (by rewrite orb_true_r in Ec). injection Hv0 as ->. do 2 f_equal. rewrite orb_false_r in Ec.
      apply negb_false_iff in Ec. lia. }
  clear Ec Estr. destruct (rep_bound m s A R 2 Hr Hs ltac:(lia)) as [Hsz _].
  apply wp_bind. eapply wp_mono; [apply (wp_on_heap m s A R (fun r => {[+ r +]} ⊎ R) _ (fun r h' => kept (heap s) h' (vals m ⊎ R) /\
    exists ob', h' !! r = Some ob' /\ sds_of (enc ob') = Some b /\ zlen b < 2 ^ 31) Hr)|].
  { intros Hown. destruct (own_decoded shared_integers stack (heap s) _ o b Hown Hov Hv) as (r & h' & ob' & E1 & E2 & E3 & E4); [lia|lia|].
    exists r, h'. split_and!; [done|by rewrite roots_mid| |done|by exists ob'].
    eapply kept_mono; [exact E3|apply gmultiset_disj_union_subseteq_l]. }
  intros d s1 (Hr1 & Ha1 & Hk1 & ob' & Hd1 & Hd2 & Hlen). apply wp_bind. eapply wp_sds_at; [exact Hd1|exact Hd2|].
  apply wp_bind. eapply wp_mono; [apply (wp_on_heap m s1 A ({[+ d +]} ⊎ R) (fun r => {[+ r +]} ⊎ ({[+ d +]} ⊎ R)) _ (fun r h' => kept (heap s1) h' (vals m ⊎ ({[+ d +]} ⊎ R)) /\
    h' !! r = Some {| refcount := 1; enc := ORaw b |} /\ r ∉ vals m ⊎ ({[+ d +]} ⊎ R)) Hr1)|].
  { intros Hown. pose proof (own_create _ _ _ (ORaw b) Hown Hlen) as Hc. unfold createRawStringObject. destruct (createObject (heap s1) (ORaw b)) as [r h'].
    destruct Hc as (C1 & C2 & _ & C4 & C5). exists r, h'. split_and!; [done|by rewrite roots_mid| |done|done|done].
    eapply kept_mono; [exact C4|apply gmultiset_disj_union_subseteq_l]. }
  intros o' s2 (Hr2 & Ha2 & Hk2 & Ho2 & Hfresh). apply wp_bind. rewrite (roots_swap o' d R) in Hr2. eapply wp_mono; [by apply (wp_decr _ _ _ _ _ Hr2)|].
  intros _ s3 (Hr3 & Hk3 & Ha3).
  assert (Ho3 : enc <$> heap s3 !! o' = Some (ORaw b)).
  { rewrite (Hk3 o') by (apply gmultiset_elem_of_disj_union; right; apply in_root). by rewrite Ho2. }
  apply wp_bind. eapply wp_mono; [apply (wp_dbOverwrite _ _ _ _ k o' (VStr b) Hr3); [by eexists|]|].
  { unfold val_at. destruct (heap s3 !! o') as [ox|]; [|done]. cbn in *. injection Ho3 as ->. done. }
  intros _ s4 (Hr4 & Hk4). apply wp_ret. exists (<[k := o']> m).
  assert (EA : a_map (<[k := VStr b]> (a_kv A)) (a_ex A) A = A) by (rewrite insert_id by done; by destruct A). rewrite EA in Hr4.
  split_and!; [done|apply lookup_insert_eq| |].
  - destruct Hk4 as [Hk4 _]. pose proof (Hk4 o' (in_root o' R)) as E4. rewrite Ho3 in E4.
    destruct (heap s4 !! o') as [[n e]|] eqn:Eo4; [|done]. cbn in E4. injection E4 as ->. do 2 f_equal.
    pose proof (rp_own _ _ _ _ Hr4) as Hown. destruct (own_count _ _ _ Hown o' _ Eo4) as [Hsh|[Hm _]].
    { by destruct (own_is_shared _ _ _ _ _ Hown Hsh Eo4) as [_ [v Ev]]. }
    cbn [refcount] in Hm. rewrite Hm. pose proof (vals_overwrite m k o o' Hk) as Eov.
    assert (Ho' : o' <> o) by (intros ->; apply Hfresh, gmultiset_elem_of_disj_union; left; apply elem_of_vals; eauto).
    assert (Hmv : multiplicity o' (vals (<[k := o']> m)) = (multiplicity o' (vals m) + 1)%nat).
    { assert (Em : multiplicity o' ({[+ o +]} ⊎ vals (<[k := o']> m)) = multiplicity o' ({[+ o' +]} ⊎ vals m)) by (by rewrite Eov).
      rewrite !multiplicity_disj_union, multiplicity_singleton_eq, multiplicity_singleton_ne in Em by done. lia. }
    apply not_elem_of_multiplicity in Hfresh. rewrite !multiplicity_disj_union in Hfresh. rewrite multiplicity_disj_union, Hmv. lia.
  - split; [|destruct Hk4; congruence]. intros a Ha.
    rewrite (proj1 Hk4 a), (Hk3 a), (Hk2 a), (Hk1 a); [done|..]; rewrite ?gmultiset_elem_of_disj_union, ?gmultiset_elem_of_singleton; tauto.
Qed.
End Rules.
