(* ===== verification/TString.v ===== *)
(** * The string commands (t_string.c)

    SET and its variants, GET, GETSET, SETRANGE, GETRANGE, MGET, MSET, MSETNX,
    INCR and its variants, APPEND and STRLEN, on the state of [Db].  The
    arguments are the objects of [c->argv].  INCRBYFLOAT is not modelled. *)
From Stdlib Require Import ZArith Lia String.
From stdpp Require Import base numbers list option gmap.
From S2P Require Import Prelude UtilNum Sds SdsRefine Object ObjectHeap Reply Keyspace Db.

Definition OBJ_STRING : Z := 0.
Definition OBJ_SET_NO_FLAGS : Z := 0.
Definition OBJ_SET_NX : Z := Z.shiftl 1 0.
Definition OBJ_SET_XX : Z := Z.shiftl 1 1.
Definition OBJ_SET_EX : Z := Z.shiftl 1 2.
Definition OBJ_SET_PX : Z := Z.shiftl 1 3.

Inductive time_unit := UNIT_SECONDS | UNIT_MILLISECONDS.

Definition flag (flags f : Z) : bool := negb (Z.land flags f =? 0).

(** [(a[0] == l || a[0] == u) && (a[1] == 'x' || a[1] == 'X') && a[2] == '\0'],
    on a string and its terminator. *)
Definition option_is (s : list Z) (l u : Z) : bool :=
  match s ++ [0] with
  | a0 :: a1 :: rest =>
      ((a0 =? l) || (a0 =? u)) && ((a1 =? 120) || (a1 =? 88)) && match rest with a2 :: _ => a2 =? 0 | [] => false end
  | _ => false
  end.

Definition msg_not_integer : list Z := bytes_of "value is not an integer or out of range".
Definition msg_out_of_range : list Z := bytes_of "value is out of range".
Definition msg_too_long : list Z := bytes_of "string exceeds maximum allowed size (512MB)".
Definition msg_offset : list Z := bytes_of "offset is out of range".
Definition msg_mset_args : list Z := bytes_of "wrong number of arguments for MSET".
Definition msg_overflow : list Z := bytes_of "increment or decrement would overflow".
Definition msg_expire (name : string) : list Z := bytes_of "invalid expire time in " ++ bytes_of name.

Definition sdsgrowzero (s : list Z) (len : Z) : list Z :=
  if len <=? zlen s then s else s ++ replicate (Z.to_nat (len - zlen s)) 0.

Section TString.
Context {D E C : Type} `{KeyDict D oaddr} `{KeyDict E Z} `{Output C}.
Context (cfg : config) (shared_integers : Z -> oaddr) (stack : list Z).

Abbreviation st := (dbst D E C).
Abbreviation M := (M st).
Implicit Types (s : st) (k : key) (o : oaddr).

Definition say_shared (msg : list Z) : M unit := reply (fun c => addReplyShared c msg).
Definition say_error (msg : list Z) : M unit := reply (fun c => addReplyError c msg).
Definition say_number (n : Z) : M unit := reply (fun c => addReplyLongLong stack c n).
Definition say_bulk o : M unit := reply_obj (fun h c => addReplyBulk stack h c o).

Definition set_raw o (b : list Z) : M unit :=
  ob <- deref o ;;
  match enc ob with
  | ORaw _ => h <- gets heap ;; put_heap (<[o := {| refcount := refcount ob; enc := ORaw b |}]> h)
  | _ => fail
  end.

(** [checkType] of object.c: [true] when the type is wrong. *)
Definition check_type o (type : Z) : M bool :=
  h <- gets heap ;; c <- gets out ;; r <- lift (checkType h c o type) ;; put_out (fst r) ;; ret (snd r).

(** [None]: the error has been replied. *)
Definition getLongLongFromObjectOrReply (oo : option oaddr) : M (option Z) :=
  h <- gets heap ;; r <- lift (getLongLongFromObject h oo) ;;
  match r with
  | Some v => ret (Some v)
  | None => say_error msg_not_integer ;; ret None
  end.

Definition getLongFromObjectOrReply (oo : option oaddr) : M (option Z) :=
  r <- getLongLongFromObjectOrReply oo ;;
  match r with
  | Some v => if (v <? LLONG_MIN) || (v >? LLONG_MAX) then say_error msg_out_of_range ;; ret None else ret (Some v)
  | None => ret None
  end.

(** [c->argv[i] = tryObjectEncoding(c->argv[i])]. *)
Definition encode_arg (i : nat) : M oaddr :=
  o <- arg i ;;
  o <- on_heap (fun h => tryObjectEncoding shared_integers (values_shared cfg) h o) ;;
  set_arg i o ;; ret o.

Definition key_arg (i : nat) : M key := o <- arg i ;; sds_at o.

(** [size] is a [long long]. *)
Definition checkStringLength (size : Z) : M bool :=
  if size >? 512 * 1024 * 1024 then say_error msg_too_long ;; ret false else ret true.

(** The first part of [setGenericCommand]: [None] when an error was replied. *)
Definition expire_ms (expire : option oaddr) (unit_ : time_unit) : M (option Z) :=
  match expire with
  | None => ret (Some 0)
  | Some e =>
      r <- getLongLongFromObjectOrReply (Some e) ;;
      match r with
      | None => ret None
      | Some ms =>
          if ms <=? 0 then reply (fun c => addReplyErrorFormat c (msg_expire (cmd_name cfg))) ;; ret None
          else ret (Some (match unit_ with UNIT_SECONDS => i64 (ms * 1000) | UNIT_MILLISECONDS => ms end))
      end
  end.

Definition setGenericCommand (flags : Z) k o (expire : option oaddr) (unit_ : time_unit) (ok_reply abort_reply : option (list Z)) : M unit :=
  ms <- expire_ms expire unit_ ;;
  match ms with
  | None => ret tt
  | Some milliseconds =>
      nx <- (if flag flags OBJ_SET_NX then r <- lookupKeyWrite cfg k ;; ret (bool_decide (is_Some r)) else ret false) ;;
      abort <- (if nx : bool then ret true
                else if flag flags OBJ_SET_XX then r <- lookupKeyWrite cfg k ;; ret (bool_decide (r = None)) else ret false) ;;
      if abort : bool then say_shared (default sh_nullbulk abort_reply)
      else
        setKey cfg k o ;;
        add_dirty 1 ;;
        (match expire with Some _ => setExpire cfg k (i64 (mstime cfg + milliseconds)) | None => ret tt end) ;;
        notifyKeyspaceEvent NOTIFY_STRING "set" k ;;
        (match expire with Some _ => notifyKeyspaceEvent NOTIFY_GENERIC "expire" k | None => ret tt end) ;;
        say_shared (default sh_ok ok_reply)
  end.

(** The loop over the options of SET; [None] when a syntax error was replied. *)
Fixpoint set_options (args : list oaddr) (flags : Z) (unit_ : time_unit) (expire : option oaddr) : M (option (Z * time_unit * option oaddr)) :=
  match args with
  | [] => ret (Some (flags, unit_, expire))
  | o :: args =>
      a <- sds_at o ;;
      if option_is a 110 78 && negb (flag flags OBJ_SET_XX) then
        set_options args (Z.lor flags OBJ_SET_NX) unit_ expire
      else if option_is a 120 88 && negb (flag flags OBJ_SET_NX) then
        set_options args (Z.lor flags OBJ_SET_XX) unit_ expire
      else
        match args with
        | next :: args =>
            if option_is a 101 69 && negb (flag flags OBJ_SET_PX) then
              set_options args (Z.lor flags OBJ_SET_EX) UNIT_SECONDS (Some next)
            else if option_is a 112 80 && negb (flag flags OBJ_SET_EX) then
              set_options args (Z.lor flags OBJ_SET_PX) UNIT_MILLISECONDS (Some next)
            else say_shared sh_syntaxerr ;; ret None
        | [] => say_shared sh_syntaxerr ;; ret None
        end
  end.

Definition setCommand : M unit :=
  args <- gets argv ;;
  r <- set_options (drop 3 args) OBJ_SET_NO_FLAGS UNIT_SECONDS None ;;
  match r with
  | None => ret tt
  | Some (flags, unit_, expire) =>
      v <- encode_arg 2 ;; k <- key_arg 1 ;;
      setGenericCommand flags k v expire unit_ None None
  end.

Definition setnxCommand : M unit :=
  v <- encode_arg 2 ;; k <- key_arg 1 ;;
  setGenericCommand OBJ_SET_NX k v None UNIT_SECONDS (Some sh_cone) (Some sh_czero).

Definition setexCommand : M unit :=
  v <- encode_arg 3 ;; k <- key_arg 1 ;; e <- arg 2 ;;
  setGenericCommand OBJ_SET_NO_FLAGS k v (Some e) UNIT_SECONDS None None.

Definition psetexCommand : M unit :=
  v <- encode_arg 3 ;; k <- key_arg 1 ;; e <- arg 2 ;;
  setGenericCommand OBJ_SET_NO_FLAGS k v (Some e) UNIT_MILLISECONDS None None.

(** [false] is [C_ERR]. *)
Definition getGenericCommand : M bool :=
  k <- key_arg 1 ;;
  o <- lookupKeyReadOrReply cfg k sh_nullbulk ;;
  match o with
  | None => ret true
  | Some o =>
      ob <- deref o ;;
      match enc ob with
      | OOther _ => say_shared sh_wrongtypeerr ;; ret false
      | _ => say_bulk o ;; ret true
      end
  end.

Definition getCommand : M unit := getGenericCommand ;; ret tt.

Definition getsetCommand : M unit :=
  ok <- getGenericCommand ;;
  if negb ok then ret tt
  else
    v <- encode_arg 2 ;; k <- key_arg 1 ;;
    setKey cfg k v ;;
    notifyKeyspaceEvent NOTIFY_STRING "set" k ;;
    add_dirty 1.

Definition setrangeCommand : M unit :=
  v <- arg 3 ;; value <- sds_at v ;;
  a <- arg 2 ;; r <- getLongFromObjectOrReply (Some a) ;;
  match r with
  | None => ret tt
  | Some offset =>
      if offset <? 0 then say_error msg_offset
      else
        k <- key_arg 1 ;;
        let total := u64 (offset + zlen value) in
        o <- lookupKeyWrite cfg k ;;
        o <- (match o with
              | None =>
                  if zlen value =? 0 then say_shared sh_czero ;; ret None
                  else
                    ok <- checkStringLength (i64 total) ;;
                    if negb ok then ret None
                    else
                      o <- on_heap (fun h => Some (createRawStringObject h (replicate (Z.to_nat total) 0))) ;;
                      dbAdd cfg k o ;; ret (Some o)
              | Some o =>
                  wrong <- check_type o OBJ_STRING ;;
                  if wrong : bool then ret None
                  else
                    h <- gets heap ;; olen <- lift (stringObjectLen h o) ;;
                    if zlen value =? 0 then say_number (i64 olen) ;; ret None
                    else
                      ok <- checkStringLength (i64 total) ;;
                      if negb ok then ret None
                      else o <- dbUnshareStringValue stack k o ;; ret (Some o)
              end) ;;
        match o with
        | None => ret tt
        | Some o =>
            b <- sds_at o ;;
            b <- lift (mwrite (sdsgrowzero b total) offset value) ;;
            set_raw o b ;;
            signalModifiedKey k ;;
            notifyKeyspaceEvent NOTIFY_STRING "setrange" k ;;
            add_dirty 1 ;;
            say_number (i64 (zlen b))
        end
  end.

Definition getrangeCommand : M unit :=
  a <- arg 2 ;; r <- getLongLongFromObjectOrReply (Some a) ;;
  match r with
  | None => ret tt
  | Some start =>
      a <- arg 3 ;; r <- getLongLongFromObjectOrReply (Some a) ;;
      match r with
      | None => ret tt
      | Some end_ =>
          k <- key_arg 1 ;;
          o <- lookupKeyReadOrReply cfg k sh_emptybulk ;;
          match o with
          | None => ret tt
          | Some o =>
              wrong <- check_type o OBJ_STRING ;;
              if wrong : bool then ret tt
              else
                ob <- deref o ;;
                str <- lift (match enc ob with
                             | OInt v => r ← ll2string stack 32 v; Some (snd r, fst r)
                             | OEmbstr b | ORaw b => Some (b, zlen b)
                             | OOther _ => None
                             end) ;;
                let '(str, strlen) := (str : list Z * Z) in
                if (start <? 0) && (end_ <? 0) && (start >? end_) then say_shared sh_emptybulk
                else
                  let start := if start <? 0 then i64 (u64 (strlen + start)) else start in
                  let end_ := if end_ <? 0 then i64 (u64 (strlen + end_)) else end_ in
                  let start := if start <? 0 then 0 else start in
                  let end_ := if end_ <? 0 then 0 else end_ in
                  let end_ := if u64 end_ >=? strlen then i64 (u64 (strlen - 1)) else end_ in
                  if (start >? end_) || (strlen =? 0) then say_shared sh_emptybulk
                  else
                    b <- lift (mread str start (u64 (end_ - start + 1))) ;;
                    reply (fun c => addReplyBulkCBuffer stack c b)
          end
      end
  end.

Fixpoint mget_loop (args : list oaddr) : M unit :=
  match args with
  | [] => ret tt
  | a :: args =>
      k <- sds_at a ;;
      o <- lookupKeyRead cfg k ;;
      (match o with
       | None => say_shared sh_nullbulk
       | Some o =>
           ob <- deref o ;;
           match enc ob with
           | OOther _ => say_shared sh_nullbulk
           | _ => say_bulk o
           end
       end) ;;
      mget_loop args
  end.

Definition mgetCommand : M unit :=
  args <- gets argv ;;
  reply (fun c => addReplyMultiBulkLen stack c (zlen args - 1)) ;;
  mget_loop (drop 1 args).

(** [for (j = 1; j < c->argc; j += 2)]: the keys that exist. *)
Fixpoint busy_loop (args : list oaddr) (busykeys : Z) : M Z :=
  match args with
  | a :: _ :: args =>
      k <- sds_at a ;;
      r <- lookupKeyWrite cfg k ;;
      busy_loop args (match r with Some _ => busykeys + 1 | None => busykeys end)
  | _ => ret busykeys
  end.

(** [n] pairs from argument [j]. *)
Fixpoint mset_loop (n j : nat) : M unit :=
  match n with
  | O => ret tt
  | S n =>
      v <- encode_arg (j + 1) ;; k <- key_arg j ;;
      setKey cfg k v ;;
      notifyKeyspaceEvent NOTIFY_STRING "set" k ;;
      mset_loop n (j + 2)
  end.

Definition msetGenericCommand (nx : bool) : M unit :=
  args <- gets argv ;;
  let argc := zlen args in
  if argc mod 2 =? 0 then say_error msg_mset_args
  else
    busykeys <- (if nx then busy_loop (drop 1 args) 0 else ret 0) ;;
    if negb (busykeys =? 0) then say_shared sh_czero
    else
      mset_loop (Z.to_nat (argc / 2)) 1 ;;
      add_dirty (Z.quot (argc - 1) 2) ;;
      say_shared (if nx then sh_cone else sh_ok).

Definition msetCommand : M unit := msetGenericCommand false.
Definition msetnxCommand : M unit := msetGenericCommand true.

Definition incrDecrCommand (incr : Z) : M unit :=
  k <- key_arg 1 ;;
  o <- lookupKeyWrite cfg k ;;
  wrong <- (match o with Some o => check_type o OBJ_STRING | None => ret false end) ;;
  if wrong : bool then ret tt
  else
    r <- getLongLongFromObjectOrReply o ;;
    match r with
    | None => ret tt
    | Some oldvalue =>
        if ((incr <? 0) && (oldvalue <? 0) && (incr <? i64 (LLONG_MIN - oldvalue))) ||
           ((incr >? 0) && (oldvalue >? 0) && (incr >? i64 (LLONG_MAX - oldvalue)))
        then say_error msg_overflow
        else
          let value := i64 (oldvalue + incr) in
          in_place <- (match o with
                       | None => ret None
                       | Some o =>
                           ob <- deref o ;;
                           let is_int := match enc ob with OInt _ => true | _ => false end in
                           ret (if (refcount ob =? 1) && is_int && ((value <? 0) || (value >=? OBJ_SHARED_INTEGERS)) &&
                                   (value >=? LLONG_MIN) && (value <=? LLONG_MAX) then Some o else None)
                       end) ;;
          new <- (match in_place with
                  | Some o =>
                      ob <- deref o ;; h <- gets heap ;;
                      put_heap (<[o := {| refcount := refcount ob; enc := OInt value |}]> h) ;; ret o
                  | None =>
                      new <- on_heap (fun h => createStringObjectFromLongLongForValue shared_integers (values_shared cfg) h value) ;;
                      (match o with Some _ => dbOverwrite k new | None => dbAdd cfg k new end) ;; ret new
                  end) ;;
          signalModifiedKey k ;;
          notifyKeyspaceEvent NOTIFY_STRING "incrby" k ;;
          add_dirty 1 ;;
          say_shared sh_colon ;;
          reply_obj (fun h c => addReply stack h c new) ;;
          say_shared sh_crlf
    end.

Definition incrCommand : M unit := incrDecrCommand 1.
Definition decrCommand : M unit := incrDecrCommand (-1).

Definition incrbyCommand : M unit :=
  a <- arg 2 ;; r <- getLongLongFromObjectOrReply (Some a) ;;
  match r with Some incr => incrDecrCommand incr | None => ret tt end.

Definition decrbyCommand : M unit :=
  a <- arg 2 ;; r <- getLongLongFromObjectOrReply (Some a) ;;
  match r with Some incr => incrDecrCommand (i64 (- incr)) | None => ret tt end.

Definition appendCommand : M unit :=
  k <- key_arg 1 ;;
  o <- lookupKeyWrite cfg k ;;
  totlen <- (match o with
             | None =>
                 v <- encode_arg 2 ;;
                 dbAdd cfg k v ;;
                 on_heap_ (fun h => incrRefCount h v) ;;
                 h <- gets heap ;; n <- lift (stringObjectLen h v) ;; ret (Some n)
             | Some o =>
                 wrong <- check_type o OBJ_STRING ;;
                 if wrong : bool then ret None
                 else
                   a <- arg 2 ;; append <- sds_at a ;;
                   h <- gets heap ;; n <- lift (stringObjectLen h o) ;;
                   ok <- checkStringLength (i64 (u64 (n + zlen append))) ;;
                   if negb ok then ret None
                   else
                     o <- dbUnshareStringValue stack k o ;;
                     b <- sds_at o ;;
                     set_raw o (b ++ append) ;;
                     ret (Some (zlen (b ++ append)))
             end) ;;
  match totlen with
  | None => ret tt
  | Some totlen =>
      signalModifiedKey k ;;
      notifyKeyspaceEvent NOTIFY_STRING "append" k ;;
      add_dirty 1 ;;
      say_number (i64 totlen)
  end.

Definition strlenCommand : M unit :=
  k <- key_arg 1 ;;
  o <- lookupKeyReadOrReply cfg k sh_czero ;;
  match o with
  | None => ret tt
  | Some o =>
      wrong <- check_type o OBJ_STRING ;;
      if wrong : bool then ret tt
      else h <- gets heap ;; n <- lift (stringObjectLen h o) ;; say_number (i64 n)
  end.

(** [freeClientArgv], when the command is done. *)
Fixpoint free_args (args : list oaddr) : M unit :=
  match args with
  | [] => ret tt
  | a :: args => on_heap_ (fun h => decrRefCount h a) ;; free_args args
  end.

Definition free_argv : M unit := args <- gets argv ;; free_args args ;; put_argv [].
End TString.
