(* ===== verification/TStringRules.v ===== *)
(** * Rules for the commands: arguments, replies, numbers

    The arguments of a command are owned by the client: [argroots].  The rules
    are the ones of [DbSpec] for what the commands of [TString] do besides calling
    db.c. *)
From Stdlib Require Import ZArith Lia String.
From stdpp Require Import base numbers list option gmap gmultiset.
From S2P Require Import Prelude UtilNum Sds SdsRefine Object ObjectHeap Reply Keyspace Db DbSpec TString.

(** The number a string is the decimal notation of. *)
Definition num_of (b : list Z) : option Z := default None (string2ll b (zlen b)).

Lemma num_of_spec b : string2ll b (zlen b) = Some (num_of b) /\ forall v, num_of b = Some v <-> in_s 64 v /\ b = dec v.
Proof. destruct (string2ll_total b) as (r & E & Hr). unfold num_of. rewrite E. by split. Qed.

Section Args.
Context {D E C : Type} `{KeyDictLaws D oaddr} `{KeyDictLaws E Z} `{OutputLaws C}.
Context (cfg : config) (shared_integers : Z -> oaddr) (stack : list Z) (Hstack : zlen stack = 128) (acc : bool).

Abbreviation st := (dbst D E C).
Abbreviation roots := (gmultiset oaddr).
Abbreviation repm := (repm shared_integers acc).
Abbreviation rep := (rep shared_integers acc).
Implicit Types (s : st) (k : key) (o : oaddr) (A : astate) (R : roots) (m : gmap key oaddr) (b : list Z).

Definition argroots (l : list oaddr) : roots := list_to_set_disj l.

Lemma elem_of_argroots l o : o ∈ argroots l <-> o ∈ l.
Proof. apply elem_of_list_to_set_disj. Qed.

Lemma delete_insert_list {T} (l : list T) i r : delete i (<[i := r]> l) = delete i l.
Proof. revert i. induction l as [|x l IH]; intros [|i]; [done..|]. cbn. f_equal. apply IH. Qed.

Lemma argroots_split l i o : l !! i = Some o -> argroots l = {[+ o +]} ⊎ argroots (delete i l) /\
  forall r, argroots (<[i := r]> l) = {[+ r +]} ⊎ argroots (delete i l).
Proof.
  intros Hi. assert (Hd : forall x, l !! i = Some x -> argroots l = {[+ x +]} ⊎ argroots (delete i l)).
  { intros x Hx. unfold argroots. rewrite <- list_to_set_disj_cons. by rewrite <- (delete_Permutation l i x Hx). }
  split; [by apply Hd|]. intros r. unfold argroots. rewrite <- list_to_set_disj_cons.
  rewrite (delete_Permutation (<[i := r]> l) i r) by (apply list_lookup_insert_eq; by eapply lookup_lt_Some).
  by rewrite delete_insert_list.
Qed.

Lemma size_argroots l : base.size (argroots l) = length l.
Proof.
  unfold argroots. induction l as [|x l IH]; [done|]. rewrite list_to_set_disj_cons, gmultiset_size_disj_union, gmultiset_size_singleton.
  cbn [length]. by rewrite IH.
Qed.

(** Argument [i] is an object with the string [b], not encoded. *)
Definition sds_arg s (i : nat) b : Prop := exists o ob, argv s !! i = Some o /\ heap s !! o = Some ob /\ sds_of (enc ob) = Some b.

Definition keepargs (P : nat -> Prop) s s' : Prop := forall i b, P i -> sds_arg s i b -> sds_arg s' i b.

(** The arguments but [i] are the same objects, with the same contents. *)
Definition keepbut (i : nat) s s' : Prop := forall j o, j <> i -> argv s !! j = Some o ->
  argv s' !! j = Some o /\ enc <$> heap s' !! o = enc <$> heap s !! o.

Lemma keepbut_sds i j s s' b : keepbut i s s' -> j <> i -> sds_arg s j b -> sds_arg s' j b.
Proof.
  intros Hk Hne (o & ob & Hi & Ho & Hb). destruct (Hk j o Hne Hi) as [Hi1 He]. rewrite Ho in He.
  destruct (heap s' !! o) as [ob'|] eqn:E1; [|done]. injection He as He. exists o, ob'. by rewrite He.
Qed.

Lemma enc_val (h h' : gmap oaddr robj) o : enc <$> h' !! o = enc <$> h !! o -> val_at h' o = val_at h o.
Proof. intros Ee. unfold val_at. destruct (h' !! o), (h !! o); cbn in *; congruence. Qed.

Lemma kept_enc (h h' : gmap oaddr robj) R o ob : kept h h' R -> o ∈ R -> h !! o = Some ob -> exists ob', h' !! o = Some ob' /\ enc ob' = enc ob.
Proof. intros Hk Ho E1. specialize (Hk o Ho). rewrite E1 in Hk. destruct (h' !! o) as [ob'|]; [|done]. cbn in Hk. injection Hk as Hk. eauto. Qed.

Lemma keeps_args s s' : keeps s s' (argroots (argv s)) -> keepargs (fun _ => True) s s'.
Proof.
  intros [Hk Ha] i b _ (o & ob & Hi & Ho & Hb). assert (Hin : o ∈ argroots (argv s)).
  { apply elem_of_argroots. by eapply list_elem_of_lookup_2. }
  destruct (kept_enc _ _ _ o ob Hk Hin Ho) as (ob' & Ho' & He). exists o, ob'. by rewrite Ha, He.
Qed.

Lemma same_args s s' : same_heap s s' -> keepargs (fun _ => True) s s'.
Proof. intros [Eh Ea] i b _ Hs. unfold sds_arg in *. by rewrite Eh, Ea. Qed.

Lemma sds_arg_val s i b : sds_arg s i b -> exists o, argv s !! i = Some o /\ val_at (heap s) o = Some (VStr b).
Proof.
  intros (o & ob & Hi & Ho & Hb). exists o. split; [done|]. unfold val_at. rewrite Ho. cbn. f_equal. by apply sds_of_val.
Qed.

Lemma wp_arg s i o (Q : oaddr -> st -> Prop) : argv s !! i = Some o -> Q o s -> wp (arg i) s Q.
Proof. intros Hi HQ. unfold arg. wp_gets. by eapply wp_lift. Qed.

Lemma wp_key_arg s i b (Q : key -> st -> Prop) : sds_arg s i b -> Q b s -> wp (key_arg i) s Q.
Proof.
  intros (o & ob & Hi & Ho & Hb) HQ. unfold key_arg. apply wp_bind. eapply wp_arg; [exact Hi|]. by eapply wp_sds_at.
Qed.

Lemma root_arg s i o : argv s !! i = Some o -> o ∈ argroots (argv s).
Proof. intros Hi. apply elem_of_argroots. by eapply list_elem_of_lookup_2. Qed.

Lemma wp_encode_arg s A i b : rep s A (argroots (argv s)) -> sds_arg s i b ->
  wp (encode_arg cfg shared_integers i) s (fun r s' => rep s' A (argroots (argv s')) /\ keepbut i s s' /\
    argv s' !! i = Some r /\ val_at (heap s') r = Some (VStr b) /\ length (argv s') = length (argv s)).
Proof.
  intros [m Hr] Hb. destruct (sds_arg_val s i b Hb) as (o & Hi & Hv). unfold encode_arg. apply wp_bind. eapply wp_arg; [exact Hi|].
  destruct (argroots_split (argv s) i o Hi) as [Esp Eins]. set (R0 := argroots (delete i (argv s))) in *.
  apply wp_bind. eapply wp_mono; [apply (wp_on_heap _ _ m s A _ (fun r => {[+ r +]} ⊎ R0) _ (fun r h' => kept (heap s) h' (vals m ⊎ R0) /\ val_at h' r = Some (VStr b)) Hr)|].
  { intros Hown. rewrite Esp, roots_mid in Hown. destruct (own_encode shared_integers (values_shared cfg) (heap s) _ o b Hown Hv) as (r & h' & E1 & E2 & E3 & E4).
    exists r, h'. split_and!; [exact E1|by rewrite roots_mid| |exact E3|exact E4]. eapply kept_mono; [exact E3|apply gmultiset_disj_union_subseteq_l]. }
  intros r s1 (Hr1 & Ha1 & Hk1 & Hv1). apply wp_bind. unfold set_arg. wp_gets. rewrite decide_True by (rewrite Ha1; by eapply lookup_lt_Some).
  eexists _, _. split; [reflexivity|]. apply wp_ret. cbn [argv heap]. rewrite Ha1. split_and!.
  - exists m. destruct Hr1. split; cbn_st; try done. by rewrite Eins.
  - intros j o' Hj Hj1. cbn_st. rewrite list_lookup_insert_ne by done. split; [done|]. apply Hk1.
    apply gmultiset_elem_of_disj_union. right. apply elem_of_argroots. apply (list_elem_of_lookup_2 _ (if decide (j < i)%nat then j else (j - 1)%nat)).
    destruct (decide (j < i)%nat); [rewrite list_lookup_delete_lt by lia; done|]. rewrite list_lookup_delete_ge by lia. by replace (S (j - 1)) with j by lia.
  - apply list_lookup_insert_eq. by eapply lookup_lt_Some.
  - done.
  - by rewrite length_insert.
Qed.

(** ** Replies and argument parsing *)

Definition room A (n : Z) : Prop := zlen (a_out A) + n < 2 ^ 44.

Lemma room_say A msg n : room A (zlen msg + n) -> room (a_say acc msg A) n.
Proof. unfold room. cbn_st. pose proof (zlen_say acc (a_out A) msg). lia. Qed.

Lemma a_say_say A a b : a_say acc b (a_say acc a A) = a_say acc (a ++ b) A.
Proof. destruct A. unfold a_say. cbn_st. by rewrite say_say. Qed.

Lemma wp_say_shared m s A R msg : repm m s A R -> room A (zlen msg) -> wp (say_shared msg) s (fun _ s' => repm m s' (a_say acc msg A) R /\ same_heap s s').
Proof. intros Hr Hl. apply wp_reply; [done|apply writes_shared|done]. Qed.

Lemma wp_say_error m s A R msg : repm m s A R -> (forall c l, msg = c :: l -> c <> 45) -> room A (zlen (r_err msg)) ->
  wp (say_error msg) s (fun _ s' => repm m s' (a_say acc (r_err msg) A) R /\ same_heap s s').
Proof. intros Hr Hm Hl. apply wp_reply; [done|by apply writes_error|done]. Qed.

Lemma wp_say_number m s A R n : repm m s A R -> in_s 64 n -> room A (zlen (r_int n)) ->
  wp (say_number stack n) s (fun _ s' => repm m s' (a_say acc (r_int n) A) R /\ same_heap s s').
Proof. intros Hr Hn Hl. apply wp_reply; [done|by apply writes_longlong|done]. Qed.

Lemma rep_object m s A R o v : repm m s A R -> val_at (heap s) o = Some v -> exists ob, heap s !! o = Some ob /\ val_of (enc ob) = v /\ data_ok (enc ob).
Proof.
  intros Hr Hv. unfold val_at in Hv. destruct (heap s !! o) as [ob|] eqn:Eo; [|done]. injection Hv as Hv. exists ob.
  split_and!; [done|done|]. by eapply own_data; [apply (rp_own _ _ _ _ _ _ Hr)|].
Qed.

Lemma rep_string m s A R o b : repm m s A R -> val_at (heap s) o = Some (VStr b) ->
  exists ob, heap s !! o = Some ob /\ strenc_ok (enc ob) /\ str_of (enc ob) = b /\ zlen b < 2 ^ 31.
Proof.
  intros Hr Hv. destruct (rep_object m s A R o _ Hr Hv) as (ob & Ho & Hval & Hd). destruct (val_of_str _ _ Hval Hd) as [Hok Hs].
  exists ob. split_and!; [done..|]. subst b. destruct (enc ob) as [n|x|x|]; cbn in *; [|lia|done|done]. pose proof (dec_len_le n Hok). lia.
Qed.

Lemma string_len m s A R o b : repm m s A R -> val_at (heap s) o = Some (VStr b) -> stringObjectLen (heap s) o = Some (zlen b) /\ zlen b < 2 ^ 31.
Proof.
  intros Hr Hv. destruct (rep_string m s A R o b Hr Hv) as (ob & Hob & Hok & <- & Hlen). split; [|done]. unfold stringObjectLen. rewrite Hob.
  cbn [mbind option_bind]. destruct (enc ob); [by apply sdigits10_dec|done..].
Qed.

Lemma wp_say_bulk m s A R o b : repm m s A R -> val_at (heap s) o = Some (VStr b) -> room A (zlen (r_bulk b)) ->
  wp (say_bulk stack o) s (fun _ s' => repm m s' (a_say acc (r_bulk b) A) R /\ same_heap s s').
Proof.
  intros Hr Hv Hl. destruct (rep_string m s A R o b Hr Hv) as (ob & Ho & Hok & Hs & _). apply wp_reply_obj; [done| |done].
  rewrite <- Hs. by apply writes_bulk.
Qed.

Lemma wp_check_type m s A R o v : repm m s A R -> val_at (heap s) o = Some v -> room A (zlen sh_wrongtypeerr) ->
  wp (check_type o OBJ_STRING) s (fun wrong s' => repm m s' (match v with VStr _ => A | VOther _ => a_say acc sh_wrongtypeerr A end) R /\
    same_heap s s' /\ wrong = match v with VStr _ => false | VOther _ => true end).
Proof.
  intros Hr Hv Hl. destruct (rep_object m s A R o v Hr Hv) as (ob & Ho & <- & Hd). unfold check_type. wp_gets. wp_gets.
  unfold checkType. rewrite Ho. cbn [mbind option_bind]. destruct (enc ob) as [n|x|x|ty]; cbn [val_of negb Z.eqb OBJ_STRING].
  4:{ cbn in Hd. unfold OBJ_STRING. rewrite (proj2 (Z.eqb_neq ty 0)) by lia. cbn [negb].
      destruct (writes_shared sh_wrongtypeerr acc (out s) (a_out A) (rp_out _ _ _ _ _ _ Hr) Hl) as (c' & Ec & Hc). rewrite Ec. cbn [mbind option_bind].
      apply wp_bind. eapply wp_lift; [reflexivity|]. cbn [fst snd]. apply wp_bind. eexists _, _. split; [reflexivity|]. apply wp_ret.
      split_and!; [|done|done]. destruct Hr. by split. }
  all: apply wp_bind; eapply wp_lift; [reflexivity|]; cbn [fst snd]; apply wp_bind; eexists _, _; (split; [reflexivity|]);
    apply wp_ret; split_and!; [|done|done]; destruct Hr; by split.
Qed.

Lemma wp_getLongLong m s A R o b : repm m s A R -> val_at (heap s) o = Some (VStr b) -> room A (zlen (r_err msg_not_integer)) ->
  wp (getLongLongFromObjectOrReply (Some o)) s (fun r s' => repm m s' (match num_of b with Some _ => A | None => a_say acc (r_err msg_not_integer) A end) R /\
    same_heap s s' /\ r = num_of b).
Proof.
  intros Hr Hv Hl. destruct (rep_string m s A R o b Hr Hv) as (ob & Ho & Hok & Hs & _). destruct (num_of_spec b) as [En Hn].
  unfold getLongLongFromObjectOrReply. wp_gets.
  assert (Eg : getLongLongFromObject (heap s) (Some o) = Some (num_of b)).
  { unfold getLongLongFromObject. rewrite Ho. cbn [mbind option_bind]. destruct (enc ob) as [n|x|x|]; cbn in Hs, Hok; [|by rewrite Hs..|done].
    f_equal. symmetry. apply Hn. by subst b. }
  wp_lift Eg. destruct (num_of b) as [v|]; [by apply wp_ret|]. apply wp_bind. eapply wp_mono; [apply (wp_say_error m s A R _ Hr); [|exact Hl]|].
  { intros c l [= <- _]. done. }
  intros _ s' [Hr' Hh']. by apply wp_ret.
Qed.

Lemma wp_getLong m s A R o b : repm m s A R -> val_at (heap s) o = Some (VStr b) -> room A (zlen (r_err msg_not_integer)) ->
  wp (getLongFromObjectOrReply (Some o)) s (fun r s' => repm m s' (match num_of b with Some _ => A | None => a_say acc (r_err msg_not_integer) A end) R /\
    same_heap s s' /\ r = num_of b).
Proof.
  intros Hr Hv Hl. unfold getLongFromObjectOrReply. apply wp_bind. eapply wp_mono; [by apply (wp_getLongLong m s A R o b)|].
  intros r s' (Hr' & Hh' & ->). destruct (num_of_spec b) as [_ Hn]. destruct (num_of b) as [v|]; [|by apply wp_ret].
  destruct (Hn v) as [[Hv' _] _]; [done|]. unfold in_s in Hv'. cbn in Hv'. unfold LLONG_MIN, LLONG_MAX.
  rewrite (proj2 (Z.ltb_ge _ _)), gtb_false by lia. by apply wp_ret.
Qed.

Lemma wp_set_raw m s A R k o b0 b : repm m s A R -> m !! k = Some o -> heap s !! o = Some {| refcount := 1; enc := ORaw b0 |} -> zlen b < 2 ^ 31 ->
  wp (set_raw o b) s (fun _ s' => repm m s' (a_map (<[k := VStr b]> (a_kv A)) (a_ex A) A) R /\ keeps s s' R).
Proof.
  intros Hr Hk Ho Hb. unfold set_raw, deref. apply wp_bind, wp_bind, wp_gets. eapply wp_lift; [exact Ho|]. cbn [enc refcount]. wp_gets.
  eexists _, _. split; [reflexivity|]. by apply (rep_set shared_integers acc m s A R k o {| refcount := 1; enc := ORaw b0 |} (ORaw b) Hr Hk Ho eq_refl Hb).
Qed.

Lemma wp_checkLength m s A R n : repm m s A R -> room A (zlen (r_err msg_too_long)) ->
  wp (checkStringLength n) s (fun ok s' => repm m s' (if n >? 512 * 1024 * 1024 then a_say acc (r_err msg_too_long) A else A) R /\ same_heap s s' /\
    ok = negb (n >? 512 * 1024 * 1024)).
Proof.
  intros Hr Hl. unfold checkStringLength. destruct (n >? 512 * 1024 * 1024); [|by apply wp_ret].
  apply wp_bind. eapply wp_mono; [apply (wp_say_error m s A R _ Hr); [|exact Hl]|]; [by intros c l [= <- _]|]. intros _ s' [Hr' Hh']. by apply wp_ret.
Qed.
End Args.
