(* ===== verification/TStringProof.v ===== *)
(** * The string commands have the effect [TStringSpec] gives them

    One lemma for each command, by the rules of [DbSpec] and [TStringRules]; the
    theorems are in [TStringCorrect]. *)
From Stdlib Require Import ZArith Lia String.
From stdpp Require Import base numbers list option gmap gmultiset.
From S2P Require Import Prelude UtilNum Sds SdsRefine Object ObjectHeap Reply Keyspace Db DbSpec TString TStringRules TStringSpec.

(** ** Reply lengths *)

Lemma zlen_r_bulk b : zlen b < 2 ^ 31 -> zlen (r_bulk b) < 2 ^ 32.
Proof.
  intros Hb. unfold r_bulk. pose proof (zlen_nonneg b). pose proof (dec_len_le (zlen b)) as Hd. autorewrite with zlen.
  assert (in_s 64 (zlen b)) by (unfold in_s; lia). specialize (Hd ltac:(done)).
  change (zlen (bytes_of "$")) with 1. change (zlen sh_crlf) with 2. lia.
Qed.

Lemma zlen_r_int n : in_s 64 n -> zlen (r_int n) < 2 ^ 32.
Proof. intros Hn. unfold r_int. pose proof (dec_len_le n Hn). autorewrite with zlen. change (zlen (bytes_of ":")) with 1. change (zlen sh_crlf) with 2. lia. Qed.

Lemma zlen_r_mbulk n : in_s 64 n -> zlen (r_mbulk n) < 2 ^ 32.
Proof. intros Hn. unfold r_mbulk. pose proof (dec_len_le n Hn). autorewrite with zlen. change (zlen (bytes_of "*")) with 1. change (zlen sh_crlf) with 2. lia. Qed.

(** ** The positions of GETRANGE *)

Lemma wrap_pos len i : 0 <= len < 2 ^ 31 -> in_s 64 i -> (if i <? 0 then i64 (u64 (len + i)) else i) = if i <? 0 then len + i else i.
Proof.
  intros Hlen Hi. destruct (i <? 0) eqn:E; [|done]. rewrite swrap_uwrap, swrap_small by (lia || (unfold in_s in *; lia)). done.
Qed.

Lemma take_drop_len (b : list Z) (i n : nat) : take n (drop i b) = drop i (take (i + n) b).
Proof. apply take_drop_commute. Qed.

(** What the code reads, in the cases it distinguishes. *)
Lemma getrange_read b rest start end_ : zlen b < 2 ^ 31 -> in_s 64 start -> in_s 64 end_ ->
  let len := zlen b in
  if (start <? 0) && (end_ <? 0) && (start >? end_) then range b start end_ = []
  else
    let s1 := if start <? 0 then i64 (u64 (len + start)) else start in
    let e1 := if end_ <? 0 then i64 (u64 (len + end_)) else end_ in
    let s2 := if s1 <? 0 then 0 else s1 in
    let e2 := if e1 <? 0 then 0 else e1 in
    let e3 := if u64 e2 >=? len then i64 (u64 (len - 1)) else e2 in
    if (s2 >? e3) || (len =? 0) then range b start end_ = []
    else mread (b ++ rest) s2 (u64 (e3 - s2 + 1)) = Some (range b start end_).
Proof.
  intros Hlen Hs He len. subst len. pose proof (zlen_nonneg b) as Hnn. unfold range.
  destruct ((start <? 0) && (end_ <? 0) && (start >? end_)) eqn:E0.
  { replace ((start <? 0) && (end_ <? start)) with true; [done|]. symmetry. apply andb_true_iff. rewrite Z.gtb_ltb in E0. apply andb_true_iff in E0 as [[? _]%andb_true_iff ?]. done. }
  replace ((start <? 0) && (end_ <? start)) with false.
  2:{ symmetry. rewrite Z.gtb_ltb in E0. destruct (start <? 0) eqn:E1, (end_ <? start) eqn:E2; try done. cbn in E0. lia. }
  cbn zeta. rewrite !wrap_pos by (done || lia).
  set (s1 := if start <? 0 then _ else start). set (e1 := if end_ <? 0 then _ else end_).
  replace (if s1 <? 0 then 0 else s1) with (Z.max 0 s1) by (destruct (s1 <? 0) eqn:?; lia).
  replace (if e1 <? 0 then 0 else e1) with (Z.max 0 e1) by (destruct (e1 <? 0) eqn:?; lia).
  set (p := Z.max 0 s1). set (q := Z.max 0 e1). unfold in_s in *. cbn in Hs, He.
  assert (Hp : 0 <= p < 2 ^ 63) by (unfold p, s1; destruct (start <? 0) eqn:?; lia).
  assert (Hq : 0 <= q < 2 ^ 63) by (unfold q, e1; destruct (end_ <? 0) eqn:?; lia).
  rewrite (uwrap_small 64 q) by lia.
  destruct (decide (zlen b = 0)) as [E1|E1].
  { rewrite E1, orb_true_r. destruct b; [by rewrite take_nil, drop_nil|rewrite zlen_cons in E1; pose proof (zlen_nonneg b); lia]. }
  rewrite (uwrap_small 64 (zlen b - 1)), (swrap_small 64) by (unfold in_s; lia).
  set (r := if q >=? zlen b then zlen b - 1 else q). rewrite (proj2 (Z.eqb_neq _ _) E1), orb_false_r.
  assert (Htake : take (Z.to_nat (q + 1)) b = take (Z.to_nat (r + 1)) b).
  { unfold r. destruct (q >=? zlen b) eqn:E2; [|done]. rewrite !take_ge by (unfold zlen in *; lia). done. }
  assert (Hr : 0 <= r < zlen b) by (unfold r; destruct (q >=? zlen b) eqn:?; lia). rewrite Htake.
  destruct (p >? r) eqn:Epr.
  - apply drop_ge. rewrite length_take. lia.
  - rewrite uwrap_small by lia. unfold mread. autorewrite with zlen. pose proof (zlen_nonneg rest).
    rewrite (proj2 (Z.leb_le 0 p)), (proj2 (Z.leb_le 0 (r - p + 1))), (proj2 (Z.leb_le (p + _) _)) by lia. cbn [andb]. f_equal.
    rewrite take_drop_len. replace (Z.to_nat p + Z.to_nat (r - p + 1))%nat with (Z.to_nat (r + 1)) by lia.
    rewrite take_app_le by (unfold zlen in *; lia). done.
Qed.

Lemma zlen_range b i j : zlen (range b i j) <= zlen b.
Proof. unfold range. destruct (_ && _); [apply zlen_nonneg|]. unfold zlen. rewrite length_drop, length_take. lia. Qed.

Section Proofs.
Context {D E C : Type} `{KeyDictLaws D oaddr} `{KeyDictLaws E Z} `{OutputLaws C}.
Context (cfg : config) (shared_integers : Z -> oaddr) (stack : list Z) (Hstack : zlen stack = 128) (acc : bool).

Abbreviation st := (dbst D E C).
Abbreviation roots := (gmultiset oaddr).
Abbreviation repm := (repm shared_integers acc).
Abbreviation rep := (rep shared_integers acc).
Implicit Types (s : st) (k : key) (o : oaddr) (A : astate) (R : roots) (m : gmap key oaddr) (b : list Z).

(** Between and during commands: the client owns its arguments. *)
Definition cst s A : Prop := rep s A (argroots (argv s)).

Lemma cst_step s s' A' m : repm m s' A' (argroots (argv s)) -> argv s' = argv s -> cst s' A'.
Proof. intros Hr Ha. exists m. by rewrite Ha. Qed.

Lemma room_mono A n n' : room A n -> n' <= n -> room A n'.
Proof. unfold room. lia. Qed.

Lemma room_expire A n k : room A n -> room (a_expire cfg k A) n.
Proof. unfold room, a_expire, a_delete. destruct (_ && _); done. Qed.

Hint Resolve keeps_refl same_heap_keeps : core.

(** One rule, then the rest. *)
Ltac step H := apply wp_bind; eapply wp_mono; [apply H|].

Lemma wp_lookupKeyReadOrReply s A R k msg : rep s A R -> room A (zlen msg) ->
  wp (lookupKeyReadOrReply cfg k msg) s (fun r s' => exists m', keeps s s' R /\
    match a_read cfg k A with
    | Some v => repm m' s' (a_expire cfg k A) R /\ exists o, r = Some o /\ m' !! k = Some o /\ val_at (heap s') o = Some v
    | None => repm m' s' (a_say acc msg (a_expire cfg k A)) R /\ r = None
    end).
Proof.
  intros Hr Hl. unfold lookupKeyReadOrReply. step (wp_lookupKeyRead cfg shared_integers acc s A R k Hr). intros r s1 (m1 & Hr1 & Hk1 & Hm).
  destruct (a_read cfg k A) as [v|].
  - destruct Hm as (o & -> & Ho). apply wp_ret. exists m1. split; [done|]. split; [done|]. by exists o.
  - subst r. step (wp_say_shared shared_integers acc m1 s1 _ R msg Hr1); [by apply room_expire|]. intros _ s2 [Hr2 Hh2]. apply wp_ret.
    exists m1. split; [|done]. eapply keeps_trans; [exact Hk1|auto].
Qed.

(** ** GET *)

Lemma wp_getGeneric s A k : cst s A -> sds_arg s 1 k -> room A (2 ^ 32) ->
  wp (getGenericCommand cfg stack) s (fun ok s' => cst s' (s_get cfg acc k A) /\ keeps s s' (argroots (argv s)) /\
    ok = match a_read cfg k A with Some (VOther _) => false | _ => true end).
Proof.
  intros Hc Hk Hl. unfold getGenericCommand, s_get. apply wp_bind. eapply wp_key_arg; [exact Hk|].
  step (wp_lookupKeyReadOrReply s A (argroots (argv s)) k sh_nullbulk Hc); [by apply (room_mono _ _ _ Hl)|].
  intros r s1 (m1 & Hk1 & Hm). destruct (a_read cfg k A) as [v|]; cbn [get_reply].
  2:{ destruct Hm as [Hr1 ->]. apply wp_ret. split_and!; [by eapply cst_step; [|apply Hk1]|done|done]. }
  destruct Hm as (Hr1 & o & -> & Ho & Hv). destruct (rep_object shared_integers acc _ _ _ _ _ _ Hr1 Hv) as (ob & Hob & Hval & _).
  unfold deref. apply wp_bind, wp_bind, wp_gets. eapply wp_lift; [exact Hob|]. apply (room_expire _ _ k) in Hl.
  assert (Hbulk : forall b, v = VStr b -> wp (say_bulk stack o ;; ret true) s1 (fun ok s' => cst s' (a_say acc (get_reply (Some v)) (a_expire cfg k A)) /\
    keeps s s' (argroots (argv s)) /\ ok = match v with VOther _ => false | _ => true end)).
  { intros b ->. destruct (rep_string shared_integers acc _ _ _ _ _ _ Hr1 Hv) as (_ & _ & _ & _ & Hlen).
    step (wp_say_bulk shared_integers stack Hstack acc m1 s1 _ _ o b Hr1 Hv); [apply (room_mono _ _ _ Hl); pose proof (zlen_r_bulk b Hlen); lia|].
    intros _ s2 [Hr2 Hh2]. apply wp_ret. assert (Hk2 : keeps s s2 (argroots (argv s))) by (eapply keeps_trans; [exact Hk1|auto]).
    split_and!; [by eapply cst_step; [|apply Hk2]|done|done]. }
  destruct (enc ob) as [n|x|x|ty]; cbn in Hval; [by eapply Hbulk..|]. subst v.
  step (wp_say_shared shared_integers acc m1 s1 _ _ sh_wrongtypeerr Hr1); [by apply (room_mono _ _ _ Hl)|].
  intros _ s2 [Hr2 Hh2]. apply wp_ret. assert (Hk2 : keeps s s2 (argroots (argv s))) by (eapply keeps_trans; [exact Hk1|auto]).
  split_and!; [by eapply cst_step; [|apply Hk2]|done|done].
Qed.

Lemma wp_getCommand s A k : cst s A -> sds_arg s 1 k -> room A (2 ^ 32) ->
  wp (getCommand cfg stack) s (fun _ s' => cst s' (s_get cfg acc k A) /\ argv s' = argv s).
Proof.
  intros Hc Hk Hl. unfold getCommand. step (wp_getGeneric s A k Hc Hk Hl). intros ok s1 (Hc1 & [_ Ha] & _). by apply wp_ret.
Qed.

Lemma wp_strlenCommand s A k : cst s A -> sds_arg s 1 k -> room A (2 ^ 32) ->
  wp (strlenCommand cfg stack) s (fun _ s' => cst s' (s_strlen cfg acc k A) /\ argv s' = argv s).
Proof.
  intros Hc Hk Hl. unfold strlenCommand, s_strlen. apply wp_bind. eapply wp_key_arg; [exact Hk|].
  step (wp_lookupKeyReadOrReply s A (argroots (argv s)) k sh_czero Hc); [by apply (room_mono _ _ _ Hl)|].
  intros r s1 (m1 & [Hk1 Ha1] & Hm). destruct (a_read cfg k A) as [v|].
  2:{ destruct Hm as [Hr1 ->]. apply wp_ret. split; [by eapply cst_step|done]. }
  destruct Hm as (Hr1 & o & -> & Ho & Hv). apply (room_expire _ _ k) in Hl.
  step (wp_check_type shared_integers acc m1 s1 _ _ o v Hr1 Hv); [by apply (room_mono _ _ _ Hl)|]. intros wrong s2 (Hr2 & [Hh2 Ha2] & ->).
  destruct v as [b|ty]; [|apply wp_ret; split; [eapply cst_step; [exact Hr2|congruence]|congruence]].
  rewrite <- Hh2 in Hv. destruct (string_len shared_integers acc _ _ _ _ _ _ Hr2 Hv) as [El Hlen]. wp_gets. wp_lift El.
  pose proof (zlen_nonneg b). assert (Hin : in_s 64 (zlen b)) by (unfold in_s; lia). rewrite swrap_small by done.
  eapply wp_mono; [apply (wp_say_number shared_integers stack Hstack acc m1 s2 _ _ _ Hr2 Hin); apply (room_mono _ _ _ Hl); pose proof (zlen_r_int _ Hin); lia|].
  intros _ s3 [Hr3 [Hh3 Ha3]]. split; [eapply cst_step; [exact Hr3|congruence]|congruence].
Qed.

Lemma wp_getrangeCommand s A k bs be : cst s A -> sds_arg s 1 k -> sds_arg s 2 bs -> sds_arg s 3 be -> room A (2 ^ 32) ->
  wp (getrangeCommand cfg stack) s (fun _ s' => cst s' (s_getrange cfg acc k bs be A) /\ argv s' = argv s).
Proof.
  intros [m Hr] Hk H2a H3a Hl. unfold getrangeCommand, s_getrange.
  destruct (sds_arg_val s 2 bs H2a) as (o2 & Ho2 & Hv2). apply wp_bind. eapply wp_arg; [exact Ho2|].
  step (wp_getLongLong shared_integers acc m s A _ o2 bs Hr Hv2); [by apply (room_mono _ _ _ Hl)|]. intros r s1 (Hr1 & [Hh1 Ha1] & ->).
  destruct (num_of_spec bs) as [_ Hbs]. destruct (num_of bs) as [start|]; [|apply wp_ret; split; [eapply cst_step; [exact Hr1|congruence]|congruence]].
  assert (H3b : sds_arg s1 3 be) by (by apply (same_args s s1); [split|..]).
  destruct (sds_arg_val s1 3 be H3b) as (o3 & Ho3 & Hv3). apply wp_bind. eapply wp_arg; [exact Ho3|].
  step (wp_getLongLong shared_integers acc m s1 A _ o3 be Hr1 Hv3); [by apply (room_mono _ _ _ Hl)|]. intros r s2 (Hr2 & [Hh2 Ha2] & ->).
  destruct (num_of_spec be) as [_ Hbe]. destruct (num_of be) as [end_|]; [|apply wp_ret; split; [eapply cst_step; [exact Hr2|congruence]|congruence]].
  assert (Hk2 : sds_arg s2 1 k) by (apply (same_args s s2); [split; congruence|done|done]). apply wp_bind. eapply wp_key_arg; [exact Hk2|].
  assert (Hc2 : rep s2 A (argroots (argv s))) by by exists m.
  step (wp_lookupKeyReadOrReply s2 A _ k sh_emptybulk Hc2); [by apply (room_mono _ _ _ Hl)|].
  intros r s3 (m3 & [Hk3 Ha3] & Hm). destruct (a_read cfg k A) as [v|].
  2:{ destruct Hm as [Hr3 ->]. apply wp_ret. split; [eapply cst_step; [exact Hr3|congruence]|congruence]. }
  destruct Hm as (Hr3 & o & -> & Ho & Hv). apply (room_expire _ _ k) in Hl.
  step (wp_check_type shared_integers acc m3 s3 _ _ o v Hr3 Hv); [by apply (room_mono _ _ _ Hl)|]. intros wrong s4 (Hr4 & [Hh4 Ha4] & ->).
  destruct v as [b|ty]; [|apply wp_ret; split; [eapply cst_step; [exact Hr4|congruence]|congruence]].
  rewrite <- Hh4 in Hv. destruct (rep_string shared_integers acc _ _ _ _ _ _ Hr4 Hv) as (ob & Hob & Hok & Hstr & Hlen).
  unfold deref. apply wp_bind, wp_bind, wp_gets. eapply wp_lift; [exact Hob|].
  assert (Hmem : exists rest, (match enc ob with OInt v => r ← ll2string stack 32 v; Some (snd r, fst r) | OEmbstr b | ORaw b => Some (b, zlen b) | OOther _ => None end)
    = Some (b ++ rest, zlen b)).
  { destruct (enc ob) as [n|x|x|]; cbn in Hstr, Hok; [|subst; exists []; by rewrite app_nil_r..|done].
    destruct (ll2string_fits stack 32 n Hok) as (rest & -> & _ & _); [lia|]. subst b. by eexists. }
  destruct Hmem as (rest & Em). wp_lift Em. cbn zeta.
  pose proof (getrange_read b rest start end_ Hlen (proj1 (proj1 (Hbs start) eq_refl)) (proj1 (proj1 (Hbe end_) eq_refl))) as Hread. cbn zeta in Hread.
  assert (Hempty : range b start end_ = [] -> wp (say_shared sh_emptybulk) s4 (fun _ s' => cst s' (a_say acc (r_bulk (range b start end_)) (a_expire cfg k A)) /\ argv s' = argv s)).
  { intros ->. eapply wp_mono; [apply (wp_say_shared shared_integers acc m3 s4 _ _ sh_emptybulk Hr4); by apply (room_mono _ _ _ Hl)|].
    intros _ s5 [Hr5 [Hh5 Ha5]]. split; [eapply cst_step; [exact Hr5|congruence]|congruence]. }
  destruct ((start <? 0) && (end_ <? 0) && (start >? end_)); [by apply Hempty|].
  match goal with |- context [if ?c then say_shared _ else _] => destruct c end; [by apply Hempty|].
  wp_lift Hread. pose proof (zlen_range b start end_). eapply wp_mono; [apply (wp_reply shared_integers acc m3 s4 _ _ _ (r_bulk (range b start end_)) Hr4)|].
  - apply writes_cbuffer; [done|lia].
  - apply (room_mono _ _ _ Hl). pose proof (zlen_r_bulk (range b start end_)). lia.
  - intros _ s5 [Hr5 [Hh5 Ha5]]. split; [eapply cst_step; [exact Hr5|congruence]|congruence].
Qed.
End Proofs.
