(* ===== verification/TStringWrites.v ===== *)
(** * The commands that store strings

    The lemmas of [TStringProof] for SET and its variants, GETSET, SETRANGE,
    APPEND, INCR and its variants, and for MGET and MSET, which work on several
    keys. *)
From Stdlib Require Import ZArith Lia String.
From stdpp Require Import base numbers list option gmap gmultiset.
From S2P Require Import Prelude UtilNum Sds SdsRefine Object ObjectHeap Reply Keyspace Db DbSpec TString TStringRules TStringSpec TStringProof.

(** ** The abstract operations *)

Section Abstract.
Context (cfg : config) (acc : bool).
Implicit Types (A : astate) (k : key) (v : val).

Lemma expired_expire k A : a_expired cfg k (a_expire cfg k A) = a_expired cfg k A && masterhost cfg.
Proof.
  unfold a_expire. destruct (a_expired cfg k A) eqn:E1; cbn [andb]; [|done]. destruct (masterhost cfg) eqn:E2; cbn [negb]; [done|].
  unfold a_expired, a_delete. cbn [a_ex a_tell a_map]. by rewrite lookup_delete_eq.
Qed.

Lemma expire_idem k A : a_expire cfg k (a_expire cfg k A) = a_expire cfg k A.
Proof. unfold a_expire at 1. rewrite expired_expire. by destruct (a_expired cfg k A), (masterhost cfg). Qed.

Lemma set_expire k v A : a_set cfg k v (a_expire cfg k A) = a_set cfg k v A.
Proof. unfold a_set. by rewrite expire_idem. Qed.

Lemma out_expire k A : a_out (a_expire cfg k A) = a_out A.
Proof. unfold a_expire, a_delete. by destruct (_ && _). Qed.

Lemma out_set k v A : a_out (a_set cfg k v A) = a_out A.
Proof. unfold a_set, a_put. cbn [a_out a_tell a_map]. apply out_expire. Qed.

Lemma set_there k v A : a_kv (a_set cfg k v A) !! k = Some v.
Proof. unfold a_set, a_put. cbn [a_kv a_tell a_map]. apply lookup_insert_eq. Qed.

Lemma a_tell_tell e1 e2 A : a_tell e2 (a_tell e1 A) = a_tell (e1 ++ e2) A.
Proof. unfold a_tell. cbn. by rewrite app_assoc. Qed.

Lemma room_out A A' n : a_out A' = a_out A -> room A n -> room A' n.
Proof. unfold room. by intros ->. Qed.

Lemma small_set A R n k v : small A R (n + 1) -> small (a_set cfg k v A) R n.
Proof. intros Hs. apply (small_expire cfg _ _ _ k), (small_put cfg _ _ _ k v) in Hs. exact Hs. Qed.
End Abstract.

(** ** Options *)

Lemma flag_lor f g h : flag (Z.lor f g) h = flag f h || flag g h.
Proof.
  unfold flag. rewrite Z.land_lor_distr_l. destruct (Z.eqb_spec (Z.land f h) 0) as [->|Hf]; [done|]. cbn [negb orb].
  destruct (Z.eqb_spec (Z.lor (Z.land f h) (Z.land g h)) 0) as [[? _]%Z.lor_eq_0_iff|]; done.
Qed.

Section Writes.
Context {D E C : Type} `{KeyDictLaws D oaddr} `{KeyDictLaws E Z} `{OutputLaws C}.
Context (cfg : config) (shared_integers : Z -> oaddr) (stack : list Z) (Hstack : zlen stack = 128) (acc : bool).
Context (Hname : zlen (bytes_of (cmd_name cfg)) < 2 ^ 31).

Abbreviation st := (dbst D E C).
Abbreviation roots := (gmultiset oaddr).
Abbreviation repm := (repm shared_integers acc).
Abbreviation rep := (rep shared_integers acc).
Abbreviation cst := (cst shared_integers acc).
Implicit Types (s : st) (k : key) (o : oaddr) (A : astate) (R : roots) (m : gmap key oaddr) (b : list Z).

Ltac step H := apply wp_bind; eapply wp_mono; [apply H|].

(** ** The expire argument *)

Definition expire_of s (oe : option oaddr) (e : option (list Z)) : Prop :=
  match oe, e with
  | None, None => True
  | Some o, Some b => val_at (heap s) o = Some (VStr b)
  | _, _ => False
  end.

Lemma writes_expire_error :
  writes (fun c : C => addReplyErrorFormat c (msg_expire (cmd_name cfg))) (r_err ((fun c : Z => if (c =? 13) || (c =? 10) then 32 else c) <$> msg_expire (cmd_name cfg))).
Proof. apply writes_error. unfold msg_expire. by intros c l [= <- _]. Qed.

Lemma zlen_expire_error : zlen (r_err ((fun c : Z => if (c =? 13) || (c =? 10) then 32 else c) <$> msg_expire (cmd_name cfg))) < 2 ^ 32.
Proof.
  unfold r_err. rewrite !zlen_app. unfold zlen at 2. rewrite length_fmap. fold (zlen (msg_expire (cmd_name cfg))). unfold msg_expire. rewrite zlen_app.
  change (zlen (bytes_of "-ERR ")) with 5. change (zlen sh_crlf) with 2. change (zlen (bytes_of "invalid expire time in ")) with 23. lia.
Qed.

Lemma wp_expire_ms m s A R oe e u : repm m s A R -> expire_of s oe e -> room A (2 ^ 32) ->
  wp (expire_ms cfg oe u) s (fun r s' => repm m s' (match ttl_of cfg e u with inl err => a_say acc err A | inr _ => A end) R /\ same_heap s s' /\
    r = match ttl_of cfg e u with inl _ => None | inr None => Some 0 | inr (Some t) => Some t end).
Proof.
  intros Hr He Hl. unfold expire_ms, ttl_of. destruct oe as [o|], e as [b|]; try done; [|by apply wp_ret].
  step (wp_getLongLong shared_integers acc m s A R o b Hr He); [by apply (room_mono _ _ _ Hl)|]. intros r s1 (Hr1 & Hh1 & ->).
  destruct (num_of b) as [ms|]; [|by apply wp_ret]. destruct (ms <=? 0); [|by apply wp_ret].
  step (wp_reply shared_integers acc m s1 _ _ _ _ Hr1 writes_expire_error); [pose proof zlen_expire_error; unfold room in *; lia|].
  intros _ s2 [Hr2 Hh2]. apply wp_ret. split_and!; [done| |done]. destruct Hh1, Hh2. split; congruence.
Qed.

(** ** SET *)

Lemma wp_there s A R k (f : bool) (g : option oaddr -> bool) (g' : bool -> bool) : rep s A R -> (forall r, g r = g' (bool_decide (is_Some r))) ->
  wp (if f then r <- lookupKeyWrite cfg k ;; ret (g r) else ret false) s (fun r s' => rep s' (if f then a_expire cfg k A else A) R /\ keeps s s' R /\
    r = f && g' (bool_decide (is_Some (a_kv (a_expire cfg k A) !! k)))).
Proof.
  intros Hr Hg. destruct f; [|by apply wp_ret]. step (wp_lookupKeyWrite cfg shared_integers acc s A R k Hr). intros r s1 (m1 & Hr1 & Hk1 & ->).
  apply wp_ret. split_and!; [by exists m1|done|]. cbn [andb]. rewrite Hg. f_equal. apply bool_decide_ext.
  rewrite <- !not_eq_None_Some. by rewrite (rep_none shared_integers acc m1 s1 _ R k Hr1).
Qed.

Lemma wp_store s A k o b (oe : option oaddr) (ms : Z) msg : cst s A -> o ∈ argroots (argv s) -> val_at (heap s) o = Some (VStr b) ->
  small A (argroots (argv s)) 2 -> room A (zlen msg) ->
  wp (setKey cfg k o ;; add_dirty 1 ;;
      (match oe with Some _ => setExpire cfg k (i64 (mstime cfg + ms)) | None => ret tt end) ;;
      notifyKeyspaceEvent NOTIFY_STRING "set" k ;;
      (match oe with Some _ => notifyKeyspaceEvent NOTIFY_GENERIC "expire" k | None => ret tt end) ;;
      say_shared msg) s
    (fun _ s' => cst s' (a_say acc msg (s_store cfg k b (match oe with Some _ => Some ms | None => None end) A))).
Proof.
  intros Hc Ho Hv Hs Hl. apply (room_out _ _ _ (out_set cfg k (VStr b) A)) in Hl.
  step (wp_setKey cfg shared_integers acc s A _ k o (VStr b) Hc Ho Hv); [by apply (small_mono _ _ _ _ Hs)|].
  intros _ s1 [[m1 Hr1] [_ Ha1]]. step (wp_add_dirty shared_integers acc m1 s1 _ _ 1 Hr1). intros _ s2 [Hr2 [_ Ha2]]. unfold s_store.
  destruct oe as [e|].
  - step (wp_setExpire cfg shared_integers acc m1 s2 _ _ k (i64 (mstime cfg + ms)) Hr2).
    + rewrite <- not_eq_None_Some. rewrite (rep_none shared_integers acc m1 s2 _ _ k Hr2). cbn [a_kv a_change]. by rewrite set_there.
    + apply (small_set cfg _ _ 0 k (VStr b)). by apply (small_mono _ _ _ _ Hs).
    + intros _ s3 [Hr3 [_ Ha3]]. step (wp_tell shared_integers acc m1 s3 _ _ (EvNotify NOTIFY_STRING "set" k) Hr3). intros _ s4 [Hr4 [_ Ha4]].
      step (wp_tell shared_integers acc m1 s4 _ _ (EvNotify NOTIFY_GENERIC "expire" k) Hr4). intros _ s5 [Hr5 [_ Ha5]].
      rewrite a_tell_tell in Hr5. eapply wp_mono; [apply (wp_say_shared shared_integers acc m1 s5 _ _ msg Hr5 Hl)|]. intros _ s6 [Hr6 [_ Ha6]].
      replace (argv s) with (argv s5) in * by congruence. eapply cst_step; [exact Hr6|congruence].
  - apply wp_bind, wp_ret. step (wp_tell shared_integers acc m1 s2 _ _ (EvNotify NOTIFY_STRING "set" k) Hr2). intros _ s4 [Hr4 [_ Ha4]].
    apply wp_bind, wp_ret. eapply wp_mono; [apply (wp_say_shared shared_integers acc m1 s4 _ _ msg Hr4 Hl)|]. intros _ s6 [Hr6 [_ Ha6]].
    eapply cst_step; [exact Hr6|congruence].
Qed.

Lemma wp_setGeneric s A k o b flags nx xx oe e u okr abr : cst s A -> o ∈ argroots (argv s) -> val_at (heap s) o = Some (VStr b) ->
  expire_of s oe e -> flag flags OBJ_SET_NX = nx -> flag flags OBJ_SET_XX = xx -> small A (argroots (argv s)) 2 -> room A (2 ^ 32) ->
  zlen (default sh_ok okr) < 2 ^ 32 -> zlen (default sh_nullbulk abr) < 2 ^ 32 ->
  wp (setGenericCommand cfg flags k o oe u okr abr) s
    (fun _ s' => cst s' (s_setgeneric cfg acc nx xx k b e u (default sh_ok okr) (default sh_nullbulk abr) A)).
Proof.
  intros [m Hr] Ho Hv He <- <- Hs Hl Hok Hab. set (R := argroots (argv s)) in *. unfold setGenericCommand, s_setgeneric.
  step (wp_expire_ms m s A R oe e u Hr He Hl). intros r s1 (Hr1 & [Hh1 Ha1] & ->).
  assert (Hoe : forall t, ttl_of cfg e u = inr t -> match oe with Some _ => Some (default 0 t) | None => None end = t).
  { intros t Ht. unfold ttl_of in Ht. destruct oe as [o'|], e as [b'|]; try done; [|by injection Ht as <-].
    destruct (num_of b') as [ms|]; [|done]. destruct (ms <=? 0); [done|]. by injection Ht as <-. }
  destruct (ttl_of cfg e u) as [err|t]; [apply wp_ret; eapply cst_step; [exact Hr1|congruence]|]. specialize (Hoe t eq_refl).
  replace (match t with Some t => Some t | None => Some 0 end) with (Some (default 0 t)) by (by destruct t).
  assert (Hc1 : rep s1 A R) by by exists m.
  step (wp_there s1 A R k (flag flags OBJ_SET_NX) (fun r => bool_decide (is_Some r)) (fun x => x) Hc1); [done|]. intros nx s2 (Hc2 & Hk2 & ->).
  set (A2 := if flag flags OBJ_SET_NX then a_expire cfg k A else A) in *.
  assert (E2 : a_expire cfg k A2 = a_expire cfg k A) by (unfold A2; destruct (flag flags OBJ_SET_NX); [apply expire_idem|done]).
  set (there := bool_decide (is_Some (a_kv (a_expire cfg k A) !! k))).
  assert (Hfin : forall s3 A3, rep s3 A3 R -> keeps s2 s3 R -> (A3 = A \/ A3 = a_expire cfg k A) ->
    wp (setKey cfg k o ;; add_dirty 1 ;; (match oe with Some _ => setExpire cfg k (i64 (mstime cfg + default 0 t)) | None => ret tt end) ;;
      notifyKeyspaceEvent NOTIFY_STRING "set" k ;; (match oe with Some _ => notifyKeyspaceEvent NOTIFY_GENERIC "expire" k | None => ret tt end) ;;
      say_shared (default sh_ok okr)) s3 (fun _ s' => cst s' (a_say acc (default sh_ok okr) (s_store cfg k b t A)))).
  { intros s3 A3 Hc3 Hk3 HA. assert (ER : argroots (argv s3) = R) by (unfold R; destruct Hk3, Hk2; congruence).
    assert (Es : s_store cfg k b t A = s_store cfg k b t A3).
    { destruct HA as [-> | ->]; [done|]. unfold s_store. by rewrite set_expire. }
    rewrite Es. pose proof (wp_store s3 A3 k o b oe (default 0 t) (default sh_ok okr)) as Hw. rewrite Hoe in Hw.
    apply Hw; unfold TStringProof.cst; rewrite ?ER; [done|done| | |].
    - rewrite (kept_val _ _ _ _ (proj1 Hk3) Ho), (kept_val _ _ _ _ (proj1 Hk2) Ho). by rewrite Hh1.
    - destruct HA as [-> | ->]; [done|by apply small_expire].
    - apply (room_mono _ (2 ^ 32)); [|lia]. destruct HA as [-> | ->]; [done|by apply room_expire]. }
  destruct (flag flags OBJ_SET_NX && there) eqn:Enx; cbn [orb].
  { apply wp_bind, wp_ret. destruct Hc2 as [m2 Hr2]. apply andb_true_iff in Enx as [Enx _]. unfold A2 in Hr2. rewrite Enx in Hr2.
    eapply wp_mono; [apply (wp_say_shared shared_integers acc m2 s2 _ _ _ Hr2); apply (room_mono _ (2 ^ 32)); [by apply room_expire|lia]|].
    intros _ s3 [Hr3 [_ Ha3]]. eapply cst_step; [exact Hr3|]. destruct Hk2. congruence. }
  step (wp_there s2 A2 R k (flag flags OBJ_SET_XX) (fun r => bool_decide (r = None)) negb Hc2).
  { intros [x|]; [|done]. by rewrite bool_decide_false, bool_decide_true by done. }
  intros xx s3 (Hc3 & Hk3 & ->). rewrite E2 in *. fold there. destruct (flag flags OBJ_SET_XX && negb there) eqn:Exx.
  - destruct Hc3 as [m3 Hr3]. apply andb_true_iff in Exx as [Exx _]. rewrite Exx in Hr3.
    eapply wp_mono; [apply (wp_say_shared shared_integers acc m3 s3 _ _ _ Hr3); apply (room_mono _ (2 ^ 32)); [by apply room_expire|lia]|].
    intros _ s4 [Hr4 [_ Ha4]]. eapply cst_step; [exact Hr4|]. destruct Hk2, Hk3. congruence.
  - eapply Hfin; [exact Hc3|done|]. unfold A2. destruct (flag flags OBJ_SET_XX); [by right|]. destruct (flag flags OBJ_SET_NX); auto.
Qed.
(** The objects [l] hold the strings [bs], not encoded. *)
Definition args_are s (l : list oaddr) (bs : list (list Z)) : Prop :=
  Forall2 (fun o b => exists ob, heap s !! o = Some ob /\ sds_of (enc ob) = Some b) l bs.

(** The flags, the unit and the expire argument are the options [po]. *)
Definition opts_are s (flags : Z) (u : time_unit) (oe : option oaddr) (po : set_opts) (P : oaddr -> Prop) : Prop :=
  flag flags OBJ_SET_NX = o_nx po /\ flag flags OBJ_SET_XX = o_xx po /\ flag flags OBJ_SET_EX = o_ex po /\ flag flags OBJ_SET_PX = o_px po /\
  u = o_unit po /\ expire_of s oe (o_expire po) /\ forall x, oe = Some x -> P x.

Lemma val_sds s o b : (exists ob, heap s !! o = Some ob /\ sds_of (enc ob) = Some b) -> val_at (heap s) o = Some (VStr b).
Proof. intros (ob & Ho & Hb). unfold val_at. rewrite Ho. cbn. f_equal. by apply sds_of_val. Qed.

Ltac opts := unfold opts_are; rewrite ?flag_lor; cbn [o_nx o_xx o_ex o_px o_unit o_expire]; split_and!; first [done|by rewrite orb_true_r|by rewrite orb_false_r|idtac].

Lemma wp_set_options m s A R (P : oaddr -> Prop) (n : nat) : repm m s A R -> room A (2 ^ 32) ->
  forall args bs flags (po : set_opts) u oe, (length args <= n)%nat -> args_are s args bs -> Forall P args -> opts_are s flags u oe po P ->
  wp (set_options args flags u oe) s (fun r s' => repm m s' (match parse_options bs po with None => a_say acc sh_syntaxerr A | Some _ => A end) R /\
    same_heap s s' /\ match parse_options bs po with None => r = None | Some po' => exists f oe', r = Some (f, o_unit po', oe') /\ opts_are s f (o_unit po') oe' po' P end).
Proof.
  intros Hr Hl. assert (Herr : wp (say_shared sh_syntaxerr ;; ret (@None (Z * time_unit * option oaddr))) s (fun r s' => repm m s' (a_say acc sh_syntaxerr A) R /\ same_heap s s' /\ r = None)).
  { step (wp_say_shared shared_integers acc m s A R sh_syntaxerr Hr); [by apply (room_mono _ _ _ Hl)|]. intros _ s1 [Hr1 Hh1]. by apply wp_ret. }
  induction n as [|n IH]; intros args bs flags po u oe Hn Ha HP Hop.
  all: destruct Ha as [|a b args bs Hab Ha]; [apply wp_ret; split_and!; [done|done|]; exists flags, oe; destruct Hop as (?&?&?&?&->&?&?); by split|]; cbn [length] in Hn; try lia.
  apply Forall_cons_1 in HP as [HPa HP]. cbn [set_options parse_options]. destruct Hab as (ob & Hob & Hsds). apply wp_bind. eapply wp_sds_at; [exact Hob|exact Hsds|].
  pose proof Hop as (E1 & E2 & E3 & E4 & E5 & E6 & E7). rewrite E1, E2, E3, E4.
  destruct (option_is b 110 78 && negb (o_xx po)); [apply IH; [lia|done|done|opts; by rewrite ?E1, ?E2, ?E3, ?E4, ?orb_false_r]|].
  destruct (option_is b 120 88 && negb (o_nx po)); [apply IH; [lia|done|done|opts; by rewrite ?E1, ?E2, ?E3, ?E4, ?orb_false_r]|].
  destruct Ha as [|a' b' args bs Hab Ha]; [exact Herr|]. cbn [length] in Hn. apply Forall_cons_1 in HP as [HPa' HP]. apply val_sds in Hab.
  assert (HP' : forall x, Some a' = Some x -> P x) by (by intros x [= <-]).
  destruct (option_is b 101 69 && negb (o_px po)); [apply IH; [lia|done|done|opts; by rewrite ?E1, ?E2, ?E3, ?E4, ?orb_false_r]|].
  destruct (option_is b 112 80 && negb (o_ex po)); [apply IH; [lia|done|done|opts; by rewrite ?E1, ?E2, ?E3, ?E4, ?orb_false_r]|].
  exact Herr.
Qed.

(** From the arguments to [setGenericCommand]: the value is encoded in place. *)
Lemma wp_set_with s A i k b (P : oaddr -> Prop) (f : oaddr -> M st unit) (Q : unit -> st -> Prop) : cst s A -> i <> 1%nat -> sds_arg s 1 k -> sds_arg s i b ->
  (forall v s', cst s' A -> keepbut i s s' -> v ∈ argroots (argv s') -> val_at (heap s') v = Some (VStr b) -> length (argv s') = length (argv s) ->
     sds_arg s' 1 k -> wp (f v) s' Q) ->
  wp (v <- encode_arg cfg shared_integers i ;; f v) s Q.
Proof.
  intros Hc Hi Hk Hb Hf. step (wp_encode_arg cfg shared_integers acc s A i b Hc Hb). intros v s1 (Hc1 & Hkb & Hv & Hval & Hlen).
  apply Hf; [done|done|by eapply root_arg|done|done|]. by eapply keepbut_sds.
Qed.

Lemma argroots_length s s' A n : length (argv s') = length (argv s) -> small A (argroots (argv s)) n -> small A (argroots (argv s')) n.
Proof. unfold small. rewrite !size_argroots. by intros ->. Qed.

Lemma wp_setCommand s A k b opts : cst s A -> sds_arg s 1 k -> sds_arg s 2 b -> args_are s (drop 3 (argv s)) opts ->
  small A (argroots (argv s)) 2 -> room A (2 ^ 32) -> wp (setCommand cfg shared_integers) s (fun _ s' => cst s' (s_set cfg acc k b opts A)).
Proof.
  intros [m Hr] Hk Hb Hopts Hs Hl. unfold setCommand, s_set. wp_gets.
  step (wp_set_options m s A _ (fun o => exists j, (3 <= j)%nat /\ argv s !! j = Some o) (length (drop 3 (argv s))) Hr Hl (drop 3 (argv s)) opts OBJ_SET_NO_FLAGS no_opts UNIT_SECONDS None);
    [done|done| |by split_and!|].
  { apply Forall_lookup. intros j o Ho. rewrite lookup_drop in Ho. exists (3 + j)%nat. split; [lia|done]. }
  intros r s1 (Hr1 & [Hh1 Ha1] & Hres). destruct (parse_options opts no_opts) as [po|].
  2:{ subst r. apply wp_ret. eapply cst_step; [exact Hr1|done]. }
  destruct Hres as (f & oe & -> & E1 & E2 & _ & _ & _ & E6 & E7).
  assert (Hk1 : forall i c, sds_arg s i c -> sds_arg s1 i c) by (intros i c Hi; by apply (same_args s s1); [split|..]).
  apply (wp_set_with s1 A 2 k b (fun _ => True)); [eapply cst_step; [exact Hr1|done]|done|by apply Hk1|by apply Hk1|].
  intros v s2 Hc2 Hkb Hv Hval Hlen Hk2. apply wp_bind. eapply wp_key_arg; [exact Hk2|].
  apply (wp_setGeneric s2 A k v b f (o_nx po) (o_xx po) oe (o_expire po) (o_unit po) None None); try done.
  - unfold expire_of in *. destruct oe as [e|], (o_expire po) as [eb|]; try done. destruct (E7 e eq_refl) as (j & Hj & He).
    rewrite <- Ha1 in He. destruct (Hkb j e) as [_ Henc]; [lia|done|]. rewrite (enc_val _ _ _ Henc). by rewrite Hh1.
  - eapply argroots_length; [|exact Hs]. by rewrite Hlen, Ha1.
Qed.
Lemma wp_setnxCommand s A k b : cst s A -> sds_arg s 1 k -> sds_arg s 2 b -> small A (argroots (argv s)) 2 -> room A (2 ^ 32) ->
  wp (setnxCommand cfg shared_integers) s (fun _ s' => cst s' (s_setgeneric cfg acc true false k b None UNIT_SECONDS sh_cone sh_czero A)).
Proof.
  intros Hc Hk Hb Hs Hl. unfold setnxCommand. apply (wp_set_with s A 2 k b (fun _ => True)); [done..|].
  intros v s2 Hc2 Hkb Hv Hval Hlen Hk2. apply wp_bind. eapply wp_key_arg; [exact Hk2|].
  apply (wp_setGeneric s2 A k v b _ true false None None UNIT_SECONDS (Some sh_cone) (Some sh_czero)); try done. by eapply argroots_length.
Qed.

(** SETEX and PSETEX. *)
Lemma wp_set_expire s A k b e u : cst s A -> sds_arg s 1 k -> sds_arg s 2 e -> sds_arg s 3 b -> small A (argroots (argv s)) 2 -> room A (2 ^ 32) ->
  wp (v <- encode_arg cfg shared_integers 3 ;; k <- key_arg 1 ;; e <- arg 2 ;; setGenericCommand cfg OBJ_SET_NO_FLAGS k v (Some e) u None None) s
    (fun _ s' => cst s' (s_setgeneric cfg acc false false k b (Some e) u sh_ok sh_nullbulk A)).
Proof.
  intros Hc Hk He Hb Hs Hl. apply (wp_set_with s A 3 k b (fun _ => True)); [done..|].
  intros v s2 Hc2 Hkb Hv Hval Hlen Hk2. apply wp_bind. eapply wp_key_arg; [exact Hk2|].
  destruct (sds_arg_val s2 2 e) as (o & Ho & Hval2); [by eapply keepbut_sds|]. apply wp_bind. eapply wp_arg; [exact Ho|].
  apply (wp_setGeneric s2 A k v b _ false false (Some o) (Some e) u None None); try done. by eapply argroots_length.
Qed.

Lemma wp_getsetCommand s A k b : cst s A -> sds_arg s 1 k -> sds_arg s 2 b -> small A (argroots (argv s)) 2 -> room A (2 ^ 32) ->
  wp (getsetCommand cfg shared_integers stack) s (fun _ s' => cst s' (s_getset cfg acc k b A)).
Proof.
  intros Hc Hk Hb Hs Hl. unfold getsetCommand, s_getset. step (wp_getGeneric cfg shared_integers stack Hstack acc s A k Hc Hk Hl).
  intros ok s1 (Hc1 & Hk1 & ->). unfold s_get in Hc1. set (A1 := a_say acc _ _) in *.
  destruct (a_read cfg k A) as [[b0|ty]|]; cbn [negb]; [|by apply wp_ret|].
  all: assert (Hcode : wp (v <- encode_arg cfg shared_integers 2 ;; k <- key_arg 1 ;; setKey cfg k v ;; notifyKeyspaceEvent NOTIFY_STRING "set" k ;; add_dirty 1) s1
    (fun _ s' => cst s' (a_change 1 (a_tell [EvNotify NOTIFY_STRING "set" k] (a_set cfg k (VStr b) A1))))); [|exact Hcode].
  all: apply (wp_set_with s1 A1 2 k b (fun _ => True)); [done|done|by eapply keeps_args|by eapply keeps_args|].
  all: intros v s2 Hc2 Hkb Hv Hval Hlen Hk2; apply wp_bind; (eapply wp_key_arg; [exact Hk2|]).
  all: assert (Hs2 : small A1 (argroots (argv s2)) 1)
    by (apply (argroots_length s); [rewrite Hlen; destruct Hk1; congruence|]; apply (small_mono _ _ 2); [|lia]; by apply (small_expire cfg _ _ _ k)).
  all: step (wp_setKey cfg shared_integers acc s2 A1 _ k v (VStr b) Hc2 Hv Hval Hs2); intros _ s3 [[m3 Hr3] [_ Ha3]].
  all: step (wp_tell shared_integers acc m3 s3 _ _ (EvNotify NOTIFY_STRING "set" k) Hr3); intros _ s4 [Hr4 [_ Ha4]].
  all: eapply wp_mono; [by apply (wp_add_dirty shared_integers acc m3 s4 _ _ 1 Hr4)|]; intros _ s5 [Hr5 [_ Ha5]].
  all: eapply cst_step; [exact Hr5|congruence].
Qed.
End Writes.
