(* ===== verification/TStringEdit.v ===== *)
(** * The commands that change a string: SETRANGE, APPEND, INCR and its variants

    The lemmas of [TStringProof] for the commands that read a value, change it and
    answer with what it has become; [incrDecrCommand] changes the number in place
    where it may. *)
From Stdlib Require Import ZArith Lia String.
From stdpp Require Import base numbers list option gmap gmultiset.
From S2P Require Import Prelude UtilNum Sds SdsRefine Object ObjectHeap Reply Keyspace Db DbSpec TString TStringRules TStringSpec TStringProof TStringWrites.

Lemma put_map cfg k v v0 A : a_kv A !! k = Some v0 -> a_put cfg k v A = a_map (<[k := v]> (a_kv A)) (a_ex A) A.
Proof. intros Hk. unfold a_put. rewrite Hk. by rewrite a_tell_nil. Qed.

(** The value of a new string may be filled in later. *)
Lemma put_put cfg k b b' A : let A1 := a_put cfg k (VStr b) A in a_map (<[k := VStr b']> (a_kv A1)) (a_ex A1) A1 = a_put cfg k (VStr b') A.
Proof. unfold a_put, a_map, a_tell. cbn [a_kv a_ex a_out a_dirty a_log]. rewrite insert_insert_eq. by destruct (a_kv A !! k). Qed.

Lemma out_put cfg k v A : a_out (a_put cfg k v A) = a_out A.
Proof. done. Qed.

Lemma sdsgrow_splice b off v : zlen v <> 0 -> 0 <= off ->
  mwrite (sdsgrowzero b (off + zlen v)) off v = Some (splice b off v) /\ zlen (splice b off v) = Z.max (zlen b) (off + zlen v).
Proof.
  intros Hv Ho. pose proof (zlen_nonneg v). pose proof (zlen_nonneg b). unfold splice. set (b' := b ++ replicate _ 0).
  assert (Hb' : sdsgrowzero b (off + zlen v) = b').
  { unfold sdsgrowzero, b'. destruct (Z.leb_spec (off + zlen v) (zlen b)); [|done]. replace (Z.to_nat _) with 0%nat by lia. by rewrite app_nil_r. }
  assert (Hl : zlen b' = Z.max (zlen b) (off + zlen v)).
  { unfold b'. rewrite zlen_app. unfold zlen at 2. rewrite length_replicate. lia. }
  rewrite Hb'. split; [unfold mwrite; by rewrite (proj2 (Z.leb_le 0 off)), (proj2 (Z.leb_le (off + _) _)) by lia|]. unfold zlen in *. rewrite !length_app, length_take, length_drop. lia.
Qed.

(** The test of [incrDecrCommand]. *)
Lemma overflow_test incr old : in_s 64 incr -> in_s 64 old ->
  ((incr <? 0) && (old <? 0) && (incr <? i64 (LLONG_MIN - old))) || ((incr >? 0) && (old >? 0) && (incr >? i64 (LLONG_MAX - old)))
    = negb (bool_decide (in_s 64 (old + incr))).
Proof.
  intros Hi Ho. unfold in_s, LLONG_MIN, LLONG_MAX in *. cbn in Hi, Ho. rewrite !Z.gtb_ltb.
  destruct (Z.ltb_spec old 0) as [H1|H1].
  - rewrite (swrap_small 64 (_ - _)) by (unfold in_s; lia). replace (0 <? old) with false by (symmetry; apply Z.ltb_ge; lia). rewrite !andb_false_r, !andb_true_r, orb_false_r.
    destruct (bool_decide_reflect (- 2 ^ (64 - 1) <= old + incr < 2 ^ (64 - 1))); cbn [negb]; [apply andb_false_iff|apply andb_true_iff]; rewrite ?Z.ltb_ge, ?Z.ltb_lt; cbn in *; lia.
  - rewrite andb_false_r. cbn [andb orb]. destruct (Z.ltb_spec 0 old) as [H2|H2].
    + rewrite (swrap_small 64 (_ - old)) by (unfold in_s; lia). rewrite andb_true_r.
      destruct (bool_decide_reflect (- 2 ^ (64 - 1) <= old + incr < 2 ^ (64 - 1))); cbn [negb]; [apply andb_false_iff|apply andb_true_iff]; rewrite ?Z.ltb_ge, ?Z.ltb_lt; cbn in *; lia.
    + rewrite andb_false_r, bool_decide_true; [done|]. cbn. lia.
Qed.

Section Edits.
Context {D E C : Type} `{KeyDictLaws D oaddr} `{KeyDictLaws E Z} `{OutputLaws C}.
Context (cfg : config) (shared_integers : Z -> oaddr) (stack : list Z) (Hstack : zlen stack = 128) (acc : bool).

Abbreviation st := (dbst D E C).
Abbreviation roots := (gmultiset oaddr).
Abbreviation repm := (repm shared_integers acc).
Abbreviation rep := (rep shared_integers acc).
Abbreviation cst := (cst shared_integers acc).
Implicit Types (s : st) (k : key) (o : oaddr) (A : astate) (R : roots) (m : gmap key oaddr) (b : list Z).

Ltac step H := apply wp_bind; eapply wp_mono; [apply H|].

Lemma same_trans s1 s2 s3 : same_heap s1 s2 -> same_heap s2 s3 -> same_heap s1 s3.
Proof. intros [P1 P2] [P3 P4]. split; congruence. Qed.

Lemma wp_changed {T} m s A R k name (f : M st T) Q : repm m s A R ->
  (forall s', repm m s' (a_change 1 (a_tell [EvModified k; EvNotify NOTIFY_STRING name k] A)) R -> same_heap s s' -> wp f s' Q) ->
  wp (signalModifiedKey k ;; notifyKeyspaceEvent NOTIFY_STRING name k ;; add_dirty 1 ;; f) s Q.
Proof.
  intros Hr Hf. step (wp_tell shared_integers acc m s A R (EvModified k) Hr). intros _ s1 [Hr1 Hh1].
  step (wp_tell shared_integers acc m s1 _ R (EvNotify NOTIFY_STRING name k) Hr1). intros _ s2 [Hr2 Hh2]. rewrite a_tell_tell in Hr2.
  step (wp_add_dirty shared_integers acc m s2 _ R 1 Hr2). intros _ s3 [Hr3 Hh3]. apply Hf; [exact Hr3|].
  eapply same_trans; [exact Hh1|]. by eapply same_trans.
Qed.

(** The answer of SETRANGE and APPEND: the new length. *)
Lemma wp_changed_length m s A k name b : repm m s (a_put cfg k (VStr b) A) (argroots (argv s)) -> zlen b < 2 ^ 31 -> room A (2 ^ 32) ->
  wp (signalModifiedKey k ;; notifyKeyspaceEvent NOTIFY_STRING name k ;; add_dirty 1 ;; say_number stack (i64 (zlen b))) s
    (fun _ s' => cst s' (a_say acc (r_int (zlen b)) (s_change cfg name k b A))).
Proof.
  intros Hr Hb Hl. pose proof (zlen_nonneg b). assert (Hin : in_s 64 (zlen b)) by (unfold in_s; lia).
  apply (wp_changed m s _ _ k name _ _ Hr). intros s1 Hr1 [_ Ha1]. rewrite swrap_small by done.
  eapply wp_mono; [apply (wp_say_number shared_integers stack Hstack acc m s1 _ _ (zlen b) Hr1 Hin)|].
  - apply (room_mono _ (2 ^ 32)); [exact Hl|]. pose proof (zlen_r_int _ Hin). lia.
  - intros _ s2 [Hr2 [_ Ha2]]. eapply cst_step; [exact Hr2|congruence].
Qed.

(** ** APPEND *)

Lemma wp_append_new m s A k v : repm m s A (argroots (argv s)) -> m !! k = None -> sds_arg s 2 v -> small A (argroots (argv s)) 2 ->
  wp (v <- encode_arg cfg shared_integers 2 ;; dbAdd cfg k v ;; on_heap_ (fun h => incrRefCount h v) ;;
      h <- gets heap ;; n <- lift (stringObjectLen h v) ;; ret (Some n)) s
    (fun r s' => r = Some (zlen v) /\ zlen v < 2 ^ 31 /\ exists m', repm m' s' (a_put cfg k (VStr v) A) (argroots (argv s'))).
Proof.
  intros Hr Hk Hv Hs. assert (HkA : a_kv A !! k = None) by (by apply (rep_none shared_integers acc m s A _ k Hr)).
  assert (Hc : rep s A (argroots (argv s))) by by exists m.
  step (wp_encode_arg cfg shared_integers acc s A 2 v Hc Hv). intros o s1 ([m1 Hr1] & _ & Ho & Hval & Hlen).
  destruct (root_split o _ (root_arg _ _ _ Ho)) as [R0 ER]. pose proof (argroots_length s s1 A 2 Hlen Hs) as Hs1. rewrite ER in Hr1, Hs1.
  assert (Hs0 : small A R0 2) by (unfold small in *; rewrite gmultiset_size_disj_union in Hs1; lia).
  destruct (rep_string shared_integers acc _ _ _ _ _ _ Hr1 Hval) as (_ & _ & _ & _ & Hb).
  step (wp_dbAdd cfg shared_integers acc m1 s1 A R0 k o (VStr v) Hr1); [by apply (rep_none shared_integers acc m1 s1 A _ k Hr1)|done|by apply (small_mono _ _ _ _ Hs0)|].
  intros _ s2 [Hr2 [Hh2 Ha2]]. assert (Ho2 : o ∈ vals (<[k := o]> m1) ⊎ R0).
  { apply gmultiset_elem_of_disj_union. left. apply elem_of_vals. exists k. apply lookup_insert_eq. }
  step (wp_incr shared_integers acc _ s2 _ R0 o Hr2 Ho2); [apply (small_put cfg); by apply (small_mono _ _ _ _ Hs0)|].
  intros _ s3 (Hr3 & Hk3 & Ha3). rewrite <- Hh2, <- (kept_val _ _ _ _ Hk3 Ho2) in Hval.
  destruct (string_len shared_integers acc _ _ _ _ _ _ Hr3 Hval) as [El _]. wp_gets. wp_lift El. apply wp_ret. split_and!; [done|done|].
  eexists. rewrite Ha3, Ha2, ER. exact Hr3.
Qed.

Lemma wp_appendCommand s A k v : cst s A -> sds_arg s 1 k -> sds_arg s 2 v -> small A (argroots (argv s)) 2 -> room A (2 ^ 32) ->
  wp (appendCommand cfg shared_integers stack) s (fun _ s' => cst s' (s_append cfg acc k v A)).
Proof.
  intros Hc Hk Hv Hs Hl. unfold appendCommand, s_append. apply wp_bind. eapply wp_key_arg; [exact Hk|].
  step (wp_lookupKeyWrite cfg shared_integers acc s A _ k Hc). intros r s1 (m1 & Hr1 & Hk1 & ->). rewrite <- (proj2 Hk1) in Hr1.
  apply (room_expire cfg _ _ k) in Hl. apply (small_expire cfg _ _ _ k) in Hs. rewrite <- (proj2 Hk1) in Hs. set (A1 := a_expire cfg k A) in *.
  assert (Hv1 : sds_arg s1 2 v) by (by eapply keeps_args).
  destruct (m1 !! k) as [o|] eqn:Eo.
  2:{ rewrite (proj1 (rep_none shared_integers acc m1 s1 A1 _ k Hr1) Eo). step (wp_append_new m1 s1 A1 k v); [done..|].
      intros r s2 (-> & Hb & m2 & Hr2). by apply (wp_changed_length m2). }
  destruct (rep_val shared_integers acc m1 s1 A1 _ k o Hr1 Eo) as (w & Hw & ->).
  apply wp_bind. step (wp_check_type shared_integers acc m1 s1 _ _ o w Hr1 Hw); [by apply (room_mono _ _ _ Hl)|]. intros wrong s2 (Hr2 & Hh2 & ->).
  destruct w as [b|ty]; [|apply wp_ret, wp_ret; eapply cst_step; [exact Hr2|apply Hh2]].
  assert (Hv2 : sds_arg s2 2 v) by (by eapply same_args). pose proof Hv2 as (a & ob & Ha & Hob & Hsds). apply wp_bind. eapply wp_arg; [exact Ha|].
  apply wp_bind. eapply wp_sds_at; [exact Hob|exact Hsds|].
  destruct (rep_string shared_integers acc m1 s2 A1 _ a v Hr2) as (_ & _ & _ & _ & Hlv); [by apply val_sds; exists ob|].
  rewrite <- (proj1 Hh2) in Hw. destruct (string_len shared_integers acc _ _ _ _ _ _ Hr2 Hw) as [El Hlb]. wp_gets. wp_lift El.
  pose proof (zlen_nonneg v). pose proof (zlen_nonneg b). rewrite uwrap_small, swrap_small by (unfold in_s; lia).
  step (wp_checkLength shared_integers acc m1 s2 _ _ (zlen b + zlen v) Hr2); [by apply (room_mono _ _ _ Hl)|]. intros ok s3 (Hr3 & Hh3 & ->).
  change (512 * 1024 * 1024) with max_string in *. destruct (zlen b + zlen v >? max_string) eqn:Emax; cbn [negb].
  { apply wp_ret, wp_ret. eapply cst_step; [exact Hr3|]. destruct Hh2, Hh3. congruence. }
  rewrite <- (proj1 Hh3) in Hw. step (wp_dbUnshareStringValue shared_integers stack Hstack acc m1 s3 _ _ k o b Hr3 Eo Hw Hs).
  intros o' s4 (m4 & Hr4 & Hk4 & Ho4 & Hkeep4). apply wp_bind. eapply wp_sds_at; [exact Ho4|reflexivity|].
  assert (Hbv : zlen (b ++ v) < 2 ^ 31) by (rewrite zlen_app; unfold max_string in Emax; lia).
  step (wp_set_raw shared_integers acc m4 s4 _ _ k o' b (b ++ v) Hr4 Hk4 Ho4 Hbv). intros _ s5 [Hr5 Hkeep5]. apply wp_ret.
  assert (Ekv : a_kv A1 !! k = Some (VStr b)) by (rewrite (rp_kv _ _ _ _ _ _ Hr4 k), Hk4; cbn; unfold val_at; by rewrite Ho4).
  rewrite <- (put_map cfg k _ _ A1 Ekv) in Hr5. replace (argv s1) with (argv s5) in Hr5 by (destruct Hh2, Hh3, Hkeep4, Hkeep5; congruence).
  by apply (wp_changed_length m4).
Qed.
(** ** SETRANGE *)

(** The string SETRANGE works on: [b0] is in the object, [b] is the value the
    command starts from, and the length is not above the limit. *)
Definition setrange_ready s A k (off : Z) (v : list Z) o : Prop := exists m A2 b0 b, repm m s A2 (argroots (argv s)) /\ m !! k = Some o /\
  heap s !! o = Some {| refcount := 1; enc := ORaw b0 |} /\ sdsgrowzero b0 (off + zlen v) = sdsgrowzero b (off + zlen v) /\
  (forall b', a_map (<[k := VStr b']> (a_kv A2)) (a_ex A2) A2 = a_put cfg k (VStr b') A) /\
  b = match a_kv A !! k with Some (VStr b) => b | _ => [] end /\ zlen b < 2 ^ 31 /\ off + zlen v <= max_string.

Lemma wp_setrange_new m s A k off v : repm m s A (argroots (argv s)) -> m !! k = None -> small A (argroots (argv s)) 2 ->
  zlen v <> 0 -> 0 <= off -> off + zlen v <= max_string ->
  wp (o <- on_heap (fun h => Some (createRawStringObject h (replicate (Z.to_nat (off + zlen v)) 0))) ;; dbAdd cfg k o ;; ret (Some o)) s
    (fun r s' => exists o, r = Some o /\ setrange_ready s' A k off v o).
Proof.
  intros Hr Hk Hs Hv Ho Hmax. pose proof (zlen_nonneg v). set (z := replicate _ 0).
  assert (Hz : zlen z = off + zlen v) by (unfold z, zlen; rewrite length_replicate; unfold zlen in *; lia). unfold max_string in Hmax.
  step (wp_on_heap shared_integers acc m s A (argroots (argv s)) (fun r => {[+ r +]} ⊎ argroots (argv s)) (fun h => Some (createRawStringObject h z))
    (fun r h' => h' !! r = Some {| refcount := 1; enc := ORaw z |}) Hr).
  { intros Hown. pose proof (own_create shared_integers (heap s) _ (ORaw z) Hown) as Hcr. unfold createRawStringObject.
    destruct (createObject (heap s) (ORaw z)) as [r h']. destruct Hcr as (C1 & C2 & _ & C4 & _); [cbn; lia|]. exists r, h'.
    split_and!; [done|by rewrite roots_mid| |done]. eapply kept_mono; [exact C4|apply gmultiset_disj_union_subseteq_l]. }
  intros o s1 (Hr1 & Ha1 & Ho1). step (wp_dbAdd cfg shared_integers acc m s1 A _ k o (VStr z) Hr1 Hk); [unfold val_at; by rewrite Ho1|by apply (small_mono _ _ _ _ Hs)|].
  intros _ s2 [Hr2 [Hh2 Ha2]]. apply wp_ret. exists o. split; [done|]. exists (<[k := o]> m), (a_put cfg k (VStr z) A), z, [].
  split_and!; [by rewrite Ha2, Ha1|apply lookup_insert_eq|by rewrite Hh2|..|done|done].
  - unfold sdsgrowzero. rewrite Hz, Z.leb_refl. change (zlen []) with 0. rewrite (proj2 (Z.leb_gt _ _)) by lia. cbn [app]. unfold z. f_equal. lia.
  - intros b'. apply put_put.
  - by rewrite (proj1 (rep_none shared_integers acc m s A _ k Hr) Hk).
Qed.

Lemma wp_setrange_write s A k off v o : setrange_ready s A k off v o -> room A (2 ^ 32) -> zlen v <> 0 -> 0 <= off ->
  wp (b <- sds_at o ;; b <- lift (mwrite (sdsgrowzero b (off + zlen v)) off v) ;; set_raw o b ;;
      signalModifiedKey k ;; notifyKeyspaceEvent NOTIFY_STRING "setrange" k ;; add_dirty 1 ;; say_number stack (i64 (zlen b))) s
    (fun _ s' => cst s' (let b := match a_kv A !! k with Some (VStr b) => b | _ => [] end in
       a_say acc (r_int (zlen (splice b off v))) (s_change cfg "setrange" k (splice b off v) A))).
Proof.
  intros (m & A2 & b0 & b & Hr & Hk & Ho & Hg & HA & <- & Hb & Hmax) Hl Hv Hoff. cbn zeta. apply wp_bind. eapply wp_sds_at; [exact Ho|reflexivity|].
  destruct (sdsgrow_splice b off v Hv Hoff) as [Ew Hlen]. rewrite Hg. wp_lift Ew. unfold max_string in Hmax.
  assert (Hsp : zlen (splice b off v) < 2 ^ 31) by (rewrite Hlen; lia).
  step (wp_set_raw shared_integers acc m s A2 _ k o b0 (splice b off v) Hr Hk Ho Hsp). intros _ s1 [Hr1 [_ Ha1]]. rewrite HA, <- Ha1 in Hr1.
  by apply (wp_changed_length m).
Qed.

Lemma wp_setrangeCommand s A k boff v : cst s A -> sds_arg s 1 k -> sds_arg s 2 boff -> sds_arg s 3 v ->
  (forall off, num_of boff = Some off -> off + zlen v < 2 ^ 63) -> small A (argroots (argv s)) 2 -> room A (2 ^ 32) ->
  wp (setrangeCommand cfg stack) s (fun _ s' => cst s' (s_setrange cfg acc k boff v A)).
Proof.
  intros [m Hr] Hk Hboff Hv Hoff Hs Hl. unfold setrangeCommand, s_setrange.
  pose proof Hv as (a & ob & Ha & Hob & Hsds). apply wp_bind. eapply wp_arg; [exact Ha|]. apply wp_bind. eapply wp_sds_at; [exact Hob|exact Hsds|].
  destruct (sds_arg_val s 2 boff Hboff) as (o2 & Ho2 & Hv2). apply wp_bind. eapply wp_arg; [exact Ho2|].
  step (wp_getLong shared_integers acc m s A _ o2 boff Hr Hv2); [by apply (room_mono _ _ _ Hl)|]. intros r s1 (Hr1 & Hh1 & ->).
  destruct (num_of_spec boff) as [_ Hn]. destruct (num_of boff) as [off|]; [|apply wp_ret; eapply cst_step; [exact Hr1|apply Hh1]].
  specialize (Hoff off eq_refl). destruct (off <? 0) eqn:Eneg.
  { eapply wp_mono; [apply (wp_say_error shared_integers acc m s1 _ _ msg_offset Hr1); [by intros c l [= <- _]|by apply (room_mono _ _ _ Hl)]|].
    intros _ s2 [Hr2 Hh2]. eapply cst_step; [exact Hr2|]. destruct Hh1, Hh2. congruence. }
  apply wp_bind. eapply wp_key_arg; [by eapply same_args|]. rewrite <- (proj2 Hh1) in Hs, Hr1. pose proof (zlen_nonneg v).
  rewrite uwrap_small, (swrap_small 64 (off + zlen v)) by (unfold in_s; lia).
  step (wp_lookupKeyWrite cfg shared_integers acc s1 A _ k (ex_intro _ m Hr1)). intros r s2 (m2 & Hr2 & Hk2 & ->). rewrite <- (proj2 Hk2) in Hr2.
  apply (room_expire cfg _ _ k) in Hl. apply (small_expire cfg _ _ _ k) in Hs. rewrite <- (proj2 Hk2) in Hs. clear Hr1 Hr m. cbn zeta. set (A1 := a_expire cfg k A) in *.
  assert (Hend : forall m3 s3 A3, repm m3 s3 A3 (argroots (argv s2)) -> same_heap s2 s3 -> cst s3 A3) by (intros m3 s3 A3 Hr3 [_ Ha3]; by eapply cst_step).
  assert (Hfinish : forall o s3, setrange_ready s3 A1 k off v o -> zlen v <> 0 -> wp (b <- sds_at o ;; b <- lift (mwrite (sdsgrowzero b (off + zlen v)) off v) ;; set_raw o b ;;
      signalModifiedKey k ;; notifyKeyspaceEvent NOTIFY_STRING "setrange" k ;; add_dirty 1 ;; say_number stack (i64 (zlen b))) s3
    (fun _ s' => cst s' (let b := match a_kv A1 !! k with Some (VStr b) => b | _ => [] end in
       a_say acc (r_int (zlen (splice b off v))) (s_change cfg "setrange" k (splice b off v) A1)))) by (intros; apply wp_setrange_write; [done..|lia]).
  destruct (m2 !! k) as [o|] eqn:Eo.
  - destruct (rep_val shared_integers acc m2 s2 A1 _ k o Hr2 Eo) as (w & Hw & Ew). rewrite Ew in *. apply wp_bind.
    step (wp_check_type shared_integers acc m2 s2 _ _ o w Hr2 Hw); [by apply (room_mono _ _ _ Hl)|]. intros wrong s3 (Hr3 & Hh3 & ->).
    destruct w as [b|ty]; [|by apply wp_ret, wp_ret; eapply Hend]. rewrite <- (proj1 Hh3) in Hw.
    destruct (string_len shared_integers acc _ _ _ _ _ _ Hr3 Hw) as [El Hlb]. wp_gets. wp_lift El.
    pose proof (zlen_nonneg b). assert (Hin : in_s 64 (zlen b)) by (unfold in_s; lia).
    destruct (zlen v =? 0) eqn:Ev.
    { rewrite swrap_small by done. step (wp_say_number shared_integers stack Hstack acc m2 s3 _ _ (zlen b) Hr3 Hin).
      - apply (room_mono _ _ _ Hl). pose proof (zlen_r_int _ Hin). lia.
      - intros _ s4 [Hr4 Hh4]. apply wp_ret, wp_ret. eapply Hend; [exact Hr4|]. by eapply same_trans. }
    step (wp_checkLength shared_integers acc m2 s3 _ _ (off + zlen v) Hr3); [by apply (room_mono _ _ _ Hl)|]. intros ok s4 (Hr4 & Hh4 & ->).
    change (512 * 1024 * 1024) with max_string in *. destruct (off + zlen v >? max_string) eqn:Emax; cbn [negb].
    { apply wp_ret, wp_ret. eapply Hend; [exact Hr4|]. by eapply same_trans. }
    rewrite <- (proj1 Hh4) in Hw. step (wp_dbUnshareStringValue shared_integers stack Hstack acc m2 s4 _ _ k o b Hr4 Eo Hw Hs).
    intros o' s5 (m5 & Hr5 & Hk5 & Ho5 & Hkeep5). apply wp_ret. apply (Hfinish o' s5); [|lia]. exists m5, A1, b, b.
    replace (argv s2) with (argv s5) in Hr5 by (destruct Hh3, Hh4, Hkeep5; congruence). split_and!; try done; [|by rewrite Ew|lia].
    intros b'. symmetry. by eapply put_map.
  - pose proof (proj1 (rep_none shared_integers acc m2 s2 A1 _ k Hr2) Eo) as Ew. rewrite Ew in *. apply wp_bind.
    destruct (zlen v =? 0) eqn:Ev.
    { step (wp_say_shared shared_integers acc m2 s2 _ _ sh_czero Hr2); [by apply (room_mono _ _ _ Hl)|]. intros _ s4 [Hr4 Hh4]. apply wp_ret, wp_ret. by eapply Hend. }
    step (wp_checkLength shared_integers acc m2 s2 _ _ (off + zlen v) Hr2); [by apply (room_mono _ _ _ Hl)|]. intros ok s4 (Hr4 & Hh4 & ->).
    change (512 * 1024 * 1024) with max_string in *. destruct (off + zlen v >? max_string) eqn:Emax; cbn [negb].
    { apply wp_ret, wp_ret. by eapply Hend. }
    rewrite <- (proj2 Hh4) in Hr4, Hs. eapply wp_mono; [apply (wp_setrange_new m2 s4 A1 k off v); [done|done|done|lia|lia|lia]|].
    intros r s5 (o & -> & Hready). apply (Hfinish o s5 Hready). lia.
Qed.
End Edits.

(** ** Numbers *)

Section Incr.
Context {D E C : Type} `{KeyDictLaws D oaddr} `{KeyDictLaws E Z} `{OutputLaws C}.
Context (cfg : config) (shared_integers : Z -> oaddr) (stack : list Z) (Hstack : zlen stack = 128) (acc : bool).

Abbreviation st := (dbst D E C).
Abbreviation roots := (gmultiset oaddr).
Abbreviation repm := (repm shared_integers acc).
Abbreviation rep := (rep shared_integers acc).
Abbreviation cst := (cst shared_integers acc).
Implicit Types (s : st) (k : key) (o : oaddr) (A : astate) (R : roots) (m : gmap key oaddr) (b : list Z).

Ltac step H := apply wp_bind; eapply wp_mono; [apply H|].

Lemma wp_say_obj m s A R o b : repm m s A R -> val_at (heap s) o = Some (VStr b) -> room A (zlen b) ->
  wp (reply_obj (fun h (c : C) => addReply stack h c o)) s (fun _ s' => repm m s' (a_say acc b A) R /\ same_heap s s').
Proof.
  intros Hr Hv Hl. destruct (rep_string shared_integers acc m s A R o b Hr Hv) as (ob & Ho & Hok & Hs & _). apply wp_reply_obj; [done| |done].
  rewrite <- Hs. by apply writes_reply.
Qed.

(** The new number in a new object. *)
Lemma wp_number m s A R k v : repm m s A R -> in_s 64 v -> small A R 2 ->
  wp (new <- on_heap (fun h => createStringObjectFromLongLongForValue shared_integers (values_shared cfg) h v) ;;
      (match m !! k with Some _ => dbOverwrite k new | None => dbAdd cfg k new end) ;; ret new) s
    (fun o s' => exists m', repm m' s' (a_put cfg k (VStr (dec v)) A) R /\ val_at (heap s') o = Some (VStr (dec v)) /\ argv s' = argv s).
Proof.
  intros Hr Hv Hs. step (wp_on_heap shared_integers acc m s A R (fun r => {[+ r +]} ⊎ R) (fun h => createStringObjectFromLongLongForValue shared_integers (values_shared cfg) h v)
    (fun r h' => val_at h' r = Some (VStr (dec v))) Hr).
  { intros Hown. destruct (own_number shared_integers (values_shared cfg) (heap s) _ v Hown Hv) as (r & h' & E1 & E2 & E3 & E4).
    exists r, h'. split_and!; [done|by rewrite roots_mid| |done]. eapply kept_mono; [exact E3|apply gmultiset_disj_union_subseteq_l]. }
  intros o s1 (Hr1 & Ha1 & Hv1). pose proof (wp_put cfg shared_integers acc m s1 A R k o (VStr (dec v)) Hr1 Hv1 (small_mono _ _ 2 0 Hs ltac:(lia))) as Hput.
  apply wp_bind. destruct (m !! k); (eapply wp_mono; [exact Hput|]; intros _ s2 [Hr2 [Hk2 Ha2]]; apply wp_ret; exists (<[k := o]> m);
    split_and!; [done| |congruence]; by rewrite (kept_val _ _ _ _ Hk2 (in_root o R))).
Qed.

(** The number replaced in its object. *)
Lemma wp_in_place m s A R k o ob n v : repm m s A R -> m !! k = Some o -> heap s !! o = Some ob -> refcount ob = 1 -> enc ob = OInt n -> in_s 64 v ->
  wp (ob <- deref o ;; h <- gets heap ;; put_heap (<[o := {| refcount := refcount ob; enc := OInt v |}]> h) ;; ret o) s
    (fun o s' => exists m', repm m' s' (a_put cfg k (VStr (dec v)) A) R /\ val_at (heap s') o = Some (VStr (dec v)) /\ argv s' = argv s).
Proof.
  intros Hr Hk Ho H1r He Hv. unfold deref. apply wp_bind, wp_bind, wp_gets. eapply wp_lift; [exact Ho|]. wp_gets.
  destruct (rep_set shared_integers acc m s A R k o ob (OInt v) Hr Hk Ho H1r Hv _ eq_refl) as [Hr1 [_ Ha1]].
  apply wp_bind. eexists _, _. split; [reflexivity|]. apply wp_ret. exists m. split_and!; [|unfold val_at; cbn [heap]; by rewrite lookup_insert_eq|exact Ha1].
  rewrite (put_map cfg k _ (VStr (dec n)) A); [exact Hr1|]. rewrite (rp_kv _ _ _ _ _ _ Hr k), Hk. cbn. unfold val_at. rewrite Ho. cbn. by rewrite He.
Qed.

Lemma wp_incr_reply m s A k o v : repm m s (a_put cfg k (VStr (dec v)) A) (argroots (argv s)) -> val_at (heap s) o = Some (VStr (dec v)) -> in_s 64 v ->
  room A (2 ^ 32) ->
  wp (signalModifiedKey k ;; notifyKeyspaceEvent NOTIFY_STRING "incrby" k ;; add_dirty 1 ;; say_shared sh_colon ;; reply_obj (fun h c => addReply stack h c o) ;; say_shared sh_crlf) s
    (fun _ s' => cst s' (a_say acc (r_int v) (s_change cfg "incrby" k (dec v) A))).
Proof.
  intros Hr Hv Hin Hl. pose proof (zlen_r_int v Hin) as Hlen. unfold r_int in Hlen. rewrite !zlen_app in Hlen. pose proof (zlen_nonneg (dec v)). pose proof (zlen_nonneg sh_crlf).
  apply (wp_changed shared_integers acc m s _ _ k _ _ _ Hr). intros s1 Hr1 Hh1. rewrite <- (proj1 Hh1) in Hv.
  set (B := a_change 1 _) in *. assert (HlB : room B (zlen sh_colon + (zlen (dec v) + zlen sh_crlf))).
  { change (bytes_of ":") with sh_colon in Hlen. apply (room_mono _ (2 ^ 32)); [exact Hl|lia]. }
  step (wp_say_shared shared_integers acc m s1 B _ sh_colon Hr1); [apply (room_mono _ _ _ HlB); lia|]. intros _ s2 [Hr2 Hh2]. apply room_say with (acc := acc) in HlB.
  rewrite <- (proj1 Hh2) in Hv. step (wp_say_obj m s2 _ _ o (dec v) Hr2 Hv); [apply (room_mono _ _ _ HlB); lia|]. intros _ s3 [Hr3 Hh3].
  apply room_say with (acc := acc) in HlB. eapply wp_mono; [by apply (wp_say_shared shared_integers acc m s3 _ _ sh_crlf Hr3)|].
  intros _ s4 [Hr4 Hh4]. rewrite !a_say_say in Hr4. eapply cst_step; [exact Hr4|]. destruct Hh1, Hh2, Hh3, Hh4. congruence.
Qed.

Lemma wp_incrDecrCommand s A k incr : cst s A -> sds_arg s 1 k -> in_s 64 incr -> small A (argroots (argv s)) 2 -> room A (2 ^ 32) ->
  wp (incrDecrCommand cfg shared_integers stack incr) s (fun _ s' => cst s' (s_incrdecr cfg acc k incr A)).
Proof.
  intros Hc Hk Hi Hs Hl. unfold incrDecrCommand, s_incrdecr. apply wp_bind. eapply wp_key_arg; [exact Hk|].
  step (wp_lookupKeyWrite cfg shared_integers acc s A _ k Hc). intros r s1 (m1 & Hr1 & Hk1 & ->). rewrite <- (proj2 Hk1) in Hr1.
  apply (room_expire cfg _ _ k) in Hl. apply (small_expire cfg _ _ _ k) in Hs. rewrite <- (proj2 Hk1) in Hs. set (A1 := a_expire cfg k A) in *.
  (* the rest, once the old number is known *)
  assert (Hadd : forall s2 old, repm m1 s2 A1 (argroots (argv s1)) -> same_heap s1 s2 -> in_s 64 old ->
    wp (if ((incr <? 0) && (old <? 0) && (incr <? i64 (LLONG_MIN - old))) || ((incr >? 0) && (old >? 0) && (incr >? i64 (LLONG_MAX - old)))
        then say_error msg_overflow
        else
          let value := i64 (old + incr) in
          in_place <- (match m1 !! k with
                       | None => ret None
                       | Some o =>
                           ob <- deref o ;;
                           let is_int := match enc ob with OInt _ => true | _ => false end in
                           ret (if (refcount ob =? 1) && is_int && ((value <? 0) || (value >=? OBJ_SHARED_INTEGERS)) &&
                                   (value >=? LLONG_MIN) && (value <=? LLONG_MAX) then Some o else None)
                       end) ;;
          new <- (match in_place with
                  | Some o => ob <- deref o ;; h <- gets heap ;; put_heap (<[o := {| refcount := refcount ob; enc := OInt value |}]> h) ;; ret o
                  | None =>
                      new <- on_heap (fun h => createStringObjectFromLongLongForValue shared_integers (values_shared cfg) h value) ;;
                      (match m1 !! k with Some _ => dbOverwrite k new | None => dbAdd cfg k new end) ;; ret new
                  end) ;;
          signalModifiedKey k ;; notifyKeyspaceEvent NOTIFY_STRING "incrby" k ;; add_dirty 1 ;;
          say_shared sh_colon ;; reply_obj (fun h c => addReply stack h c new) ;; say_shared sh_crlf) s2
      (fun _ s' => cst s' (if bool_decide (in_s 64 (old + incr)) then a_say acc (r_int (old + incr)) (s_change cfg "incrby" k (dec (old + incr)) A1)
         else a_say acc (r_err msg_overflow) A1))).
  { intros s2 old Hr2 Hh2 Hold. rewrite overflow_test by done. destruct (bool_decide_reflect (in_s 64 (old + incr))) as [Hin|Hout]; cbn [negb].
    2:{ eapply wp_mono; [apply (wp_say_error shared_integers acc m1 s2 _ _ msg_overflow Hr2); [by intros c l [= <- _]|by apply (room_mono _ _ _ Hl)]|].
        intros _ s3 [Hr3 Hh3]. eapply cst_step; [exact Hr3|]. destruct Hh2, Hh3. congruence. }
    rewrite (swrap_small 64 (old + incr)) by done. set (v := old + incr) in *. cbn zeta.
    set (test := fun ob => (refcount ob =? 1) && match enc ob with OInt _ => true | _ => false end && ((v <? 0) || (v >=? OBJ_SHARED_INTEGERS)) && (v >=? LLONG_MIN) && (v <=? LLONG_MAX)).
    apply wp_bind. apply wp_mono with (Q := fun r s' => s' = s2 /\ match r with Some o => m1 !! k = Some o /\ exists ob n, heap s2 !! o = Some ob /\ refcount ob = 1 /\ enc ob = OInt n | None => True end).
    { destruct (m1 !! k) as [o|] eqn:Eo; [|by apply wp_ret]. destruct (rep_val shared_integers acc m1 s2 A1 _ k o Hr2 Eo) as (w & Hw & _).
      destruct (rep_object shared_integers acc _ _ _ _ _ _ Hr2 Hw) as (ob & Hob & _ & _). unfold deref. apply wp_bind, wp_bind, wp_gets. eapply wp_lift; [exact Hob|].
      apply wp_ret. split; [done|]. fold (test ob). destruct (test ob) eqn:Et; [|done]. split; [done|]. unfold test in Et.
      rewrite !andb_true_iff in Et. destruct Et as [[[[E1 E2] _] _] _]. destruct (enc ob) as [n| | |] eqn:Ee; try done. exists ob, n. split_and!; [done|lia|done]. }
    intros r s3 [-> Hip]. apply wp_bind. rewrite <- (proj2 Hh2) in Hs, Hr2. apply wp_mono with
      (Q := fun o s' => exists m', repm m' s' (a_put cfg k (VStr (dec v)) A1) (argroots (argv s2)) /\ val_at (heap s') o = Some (VStr (dec v)) /\ argv s' = argv s2).
    - destruct r as [o|]; [destruct Hip as (Eo & ob & n & Hob & H1r & He); by eapply wp_in_place|by apply wp_number].
    - intros o s4 (m4 & Hr4 & Hv4 & Ha4). rewrite <- Ha4 in Hr4. by apply (wp_incr_reply m4). }
  destruct (m1 !! k) as [o|] eqn:Eo.
  - destruct (rep_val shared_integers acc m1 s1 A1 _ k o Hr1 Eo) as (w & Hw & ->).
    step (wp_check_type shared_integers acc m1 s1 _ _ o w Hr1 Hw); [by apply (room_mono _ _ _ Hl)|]. intros wrong s2 (Hr2 & Hh2 & ->).
    destruct w as [b|ty]; [|apply wp_ret; eapply cst_step; [exact Hr2|apply Hh2]]. rewrite <- (proj1 Hh2) in Hw.
    step (wp_getLongLong shared_integers acc m1 s2 A1 _ o b Hr2 Hw); [by apply (room_mono _ _ _ Hl)|]. intros r s3 (Hr3 & Hh3 & ->).
    destruct (num_of_spec b) as [_ Hn]. destruct (num_of b) as [old|].
    + apply Hadd; [done|by eapply same_trans|]. by apply Hn.
    + apply wp_ret. eapply cst_step; [exact Hr3|]. destruct Hh2, Hh3. congruence.
  - rewrite (proj1 (rep_none shared_integers acc m1 s1 A1 _ k Hr1) Eo). apply wp_bind, wp_ret. apply wp_bind. unfold getLongLongFromObjectOrReply.
    wp_gets. eapply wp_bind, wp_lift; [reflexivity|]. apply wp_ret. by apply (Hadd s1 0).
Qed.

(** INCRBY and DECRBY: a negation that overflows wraps. *)
Lemma wp_incrby s A k bincr (sign : Z) (f : Z -> Z) : cst s A -> sds_arg s 1 k -> sds_arg s 2 bincr -> small A (argroots (argv s)) 2 ->
  room A (2 ^ 32) -> (forall v, in_s 64 v -> f v = i64 (sign * v)) ->
  wp (a <- arg 2 ;; r <- getLongLongFromObjectOrReply (Some a) ;;
      match r with Some incr => incrDecrCommand cfg shared_integers stack (f incr) | None => ret tt end) s
    (fun _ s' => cst s' (s_incrby cfg acc sign k bincr A)).
Proof.
  intros [m Hr] Hk Hb Hs Hl Hf. unfold s_incrby. destruct (sds_arg_val s 2 bincr Hb) as (o & Ho & Hv). apply wp_bind. eapply wp_arg; [exact Ho|].
  step (wp_getLongLong shared_integers acc m s A _ o bincr Hr Hv); [by apply (room_mono _ _ _ Hl)|]. intros r s1 (Hr1 & Hh1 & ->).
  destruct (num_of_spec bincr) as [_ Hn]. destruct (num_of bincr) as [incr|]; [|apply wp_ret; eapply cst_step; [exact Hr1|apply Hh1]].
  rewrite Hf by (by apply Hn).
  apply wp_incrDecrCommand; [eapply cst_step; [exact Hr1|apply Hh1]|by eapply same_args|apply swrap_range; lia|by rewrite (proj2 Hh1)|done].
Qed.

Lemma wp_incrbyCommand s A k bincr : cst s A -> sds_arg s 1 k -> sds_arg s 2 bincr -> small A (argroots (argv s)) 2 -> room A (2 ^ 32) ->
  wp (incrbyCommand cfg shared_integers stack) s (fun _ s' => cst s' (s_incrby cfg acc 1 k bincr A)).
Proof. intros. apply (wp_incrby s A k bincr 1 (fun v => v)); [done..|]. intros v Hv. by rewrite Z.mul_1_l, swrap_small. Qed.

Lemma wp_decrbyCommand s A k bincr : cst s A -> sds_arg s 1 k -> sds_arg s 2 bincr -> small A (argroots (argv s)) 2 -> room A (2 ^ 32) ->
  wp (decrbyCommand cfg shared_integers stack) s (fun _ s' => cst s' (s_incrby cfg acc (-1) k bincr A)).
Proof. intros. apply (wp_incrby s A k bincr (-1) (fun v => i64 (- v))); [done..|]. intros v Hv. f_equal; lia. Qed.
End Incr.
