(* ===== verification/TStringMany.v ===== *)
(** * MGET, MSET, MSETNX, and the end of a command

    The lemmas of [TStringProof] for the commands with several keys, by induction
    on their arguments, and for [freeClientArgv]. *)
From Stdlib Require Import ZArith Lia String.
From stdpp Require Import base numbers list option gmap gmultiset.
From S2P Require Import Prelude UtilNum Sds SdsRefine Object ObjectHeap Reply Keyspace Db DbSpec TString TStringRules TStringSpec TStringProof TStringWrites TStringEdit.

(** ** Keys that are not expired stay *)

Section Settled.
Context (cfg : config).
Implicit Types (A : astate) (k : key).

(** Looking [k] up does not delete it. *)
Definition settled k A : Prop := a_expired cfg k A && negb (masterhost cfg) = false.

Lemma settled_expire k A : settled k (a_expire cfg k A).
Proof. unfold settled. rewrite expired_expire. by destruct (a_expired cfg k A), (masterhost cfg). Qed.

Lemma expire_other k k' A : k' <> k -> a_kv (a_expire cfg k' A) !! k = a_kv A !! k /\ a_ex (a_expire cfg k' A) !! k = a_ex A !! k.
Proof.
  intros Hne. unfold a_expire, a_delete. destruct (_ && _); [|done]. cbn [a_kv a_ex a_tell a_map]. by rewrite !lookup_delete_ne.
Qed.

Lemma settled_step k k' A : settled k A -> settled k (a_expire cfg k' A) /\ a_kv (a_expire cfg k' A) !! k = a_kv A !! k.
Proof.
  intros Hs. destruct (decide (k' = k)) as [->|Hne].
  - split; [apply settled_expire|]. unfold a_expire. by rewrite Hs.
  - destruct (expire_other k k' A Hne) as [E1 E2]. split; [|done]. unfold settled, a_expired in *. by rewrite E2.
Qed.

Abbreviation expire_all := (fold_left (fun A (p : key * list Z) => a_expire cfg (fst p) A)).

Lemma settled_all k kvs A : settled k A -> a_kv (expire_all kvs A) !! k = a_kv A !! k.
Proof.
  revert A. induction kvs as [|[k' b] kvs IH]; intros A Hs; [done|]. cbn [fold_left fst]. destruct (settled_step k k' A Hs) as [Hs' <-]. by apply IH.
Qed.
End Settled.

Lemma length_pairs bs : Z.even (zlen bs) = true -> zlen bs = 2 * zlen (pairs bs).
Proof.
  remember (length bs) as n eqn:En. revert bs En. induction n as [n IH] using (well_founded_induction lt_wf). intros bs En Hev.
  destruct bs as [|k [|b bs]]; [done|done|]. cbn [pairs]. rewrite !zlen_cons in *. cbn [length] in En.
  assert (Hev' : Z.even (zlen bs) = true) by (replace (1 + (1 + zlen bs)) with (zlen bs + 2 * 1) in Hev by lia; by rewrite Z.even_add_mul_2 in Hev).
  pose proof (IH (length bs) ltac:(lia) bs eq_refl Hev'). lia.
Qed.

Section Many.
Context {D E C : Type} `{KeyDictLaws D oaddr} `{KeyDictLaws E Z} `{OutputLaws C}.
Context (cfg : config) (shared_integers : Z -> oaddr) (stack : list Z) (Hstack : zlen stack = 128) (acc : bool).

Abbreviation st := (dbst D E C).
Abbreviation roots := (gmultiset oaddr).
Abbreviation repm := (repm shared_integers acc).
Abbreviation rep := (rep shared_integers acc).
Abbreviation cst := (cst shared_integers acc).
Implicit Types (s : st) (k : key) (o : oaddr) (A : astate) (R : roots) (m : gmap key oaddr) (b : list Z) (bs : list (list Z)) (l : list oaddr).

Ltac step H := apply wp_bind; eapply wp_mono; [apply H|].

Lemma args_keeps s s' l bs : keeps s s' (argroots (argv s)) -> Forall (fun o => o ∈ argroots (argv s)) l -> args_are s l bs -> args_are s' l bs.
Proof.
  intros [Hk _] Hin Ha. induction Ha as [|o b l bs (ob & Ho & Hb) _ IH]; [constructor|]. apply Forall_cons_1 in Hin as [Ho' Hin].
  constructor; [|by apply IH]. destruct (kept_enc _ _ _ o ob Hk Ho' Ho) as (ob' & E1 & E2). exists ob'. by rewrite E2.
Qed.

(** ** MGET *)

Lemma wp_mget_loop l ks s A : cst s A -> Forall (fun o => o ∈ argroots (argv s)) l -> args_are s l ks -> room A (2 ^ 32 * (zlen ks + 1)) ->
  wp (mget_loop cfg stack l) s (fun _ s' => cst s' (fold_left (fun A k => a_say acc (mget_reply (a_read cfg k A)) (a_expire cfg k A)) ks A)).
Proof.
  intros Hc Hin Ha. revert s A Hc Hin Ha. revert l. induction ks as [|k ks IH]; intros l s A Hc Hin Ha Hl; inversion Ha as [|o b l0 bs0 Hob Ha0]; subst; [by apply wp_ret|].
  apply Forall_cons_1 in Hin as [_ Hin]. cbn [mget_loop fold_left]. destruct Hob as (ob & Hob & Hsds). apply wp_bind. eapply wp_sds_at; [exact Hob|exact Hsds|].
  step (wp_lookupKeyRead cfg shared_integers acc s A _ k Hc). intros r s1 (m1 & Hr1 & Hk1 & Hm). rewrite zlen_cons in Hl. pose proof (zlen_nonneg ks).
  apply (room_expire cfg _ _ k) in Hl.
  assert (Hrest : forall s2 msg, repm m1 s2 (a_say acc msg (a_expire cfg k A)) (argroots (argv s)) -> same_heap s1 s2 -> zlen msg <= 2 ^ 32 ->
    wp (mget_loop cfg stack l0) s2 (fun _ s' => cst s' (fold_left (fun A k => a_say acc (mget_reply (a_read cfg k A)) (a_expire cfg k A)) ks (a_say acc msg (a_expire cfg k A))))).
  { intros s2 msg Hr2 Hh2 Hmsg. assert (Hk2 : keeps s s2 (argroots (argv s))) by (eapply keeps_trans; [exact Hk1|by apply same_heap_keeps]).
    apply IH; [by eapply cst_step; [|apply Hk2]|by rewrite (proj2 Hk2)|by eapply args_keeps|]. apply room_say. apply (room_mono _ _ _ Hl). lia. }
  apply wp_bind. assert (Hnull : zlen sh_nullbulk <= 2 ^ 32) by (vm_compute; done).
  destruct (a_read cfg k A) as [v|]; cbn [mget_reply].
  2:{ subst r. eapply wp_mono; [apply (wp_say_shared shared_integers acc m1 s1 _ _ sh_nullbulk Hr1); apply (room_mono _ _ _ Hl); lia|]. intros _ s2 [Hr2 Hh2]. by apply Hrest. }
  destruct Hm as (o1 & -> & Ho1 & Hv). destruct (rep_object shared_integers acc _ _ _ _ _ _ Hr1 Hv) as (ob1 & Hob1 & Hval & _).
  unfold deref. apply wp_bind, wp_bind, wp_gets. eapply wp_lift; [exact Hob1|].
  destruct v as [b|ty].
  - destruct (rep_string shared_integers acc _ _ _ _ _ _ Hr1 Hv) as (_ & _ & _ & _ & Hlen). pose proof (zlen_r_bulk b Hlen).
    assert (Hsay : wp (say_bulk stack o1) s1 (fun _ s2 => wp (mget_loop cfg stack l0) s2 (fun _ s' => cst s' (fold_left (fun A k => a_say acc (mget_reply (a_read cfg k A)) (a_expire cfg k A)) ks
       (a_say acc (r_bulk b) (a_expire cfg k A)))))).
    { eapply wp_mono; [apply (wp_say_bulk shared_integers stack Hstack acc m1 s1 _ _ o1 b Hr1 Hv); apply (room_mono _ _ _ Hl); lia|].
      intros _ s2 [Hr2 Hh2]. apply Hrest; [done|done|lia]. }
    by destruct (enc ob1).
  - destruct (enc ob1); cbn in Hval; try done. eapply wp_mono; [apply (wp_say_shared shared_integers acc m1 s1 _ _ sh_nullbulk Hr1); apply (room_mono _ _ _ Hl); lia|].
    intros _ s2 [Hr2 Hh2]. by apply Hrest.
Qed.

(** The arguments after the name of the command. *)
Definition given s bs : Prop := zlen (argv s) = zlen bs + 1 /\ args_are s (drop 1 (argv s)) bs.

Lemma args_in_roots s n : Forall (fun o => o ∈ argroots (argv s)) (drop n (argv s)).
Proof. apply Forall_lookup. intros i o Hi. apply elem_of_argroots. rewrite lookup_drop in Hi. by eapply list_elem_of_lookup_2. Qed.

Lemma small_argc s A n : small A (argroots (argv s)) n -> 0 <= n -> zlen (argv s) < 2 ^ 31.
Proof. unfold small, zlen. rewrite size_argroots. lia. Qed.

Lemma wp_mgetCommand s A ks : cst s A -> given s ks -> small A (argroots (argv s)) 0 -> room A (2 ^ 32 * (zlen ks + 2)) ->
  wp (mgetCommand cfg stack) s (fun _ s' => cst s' (s_mget cfg acc ks A)).
Proof.
  intros [m Hr] [Hz Ha] Hs Hl. unfold mgetCommand, s_mget. wp_gets. pose proof (small_argc s A 0 Hs ltac:(lia)). pose proof (zlen_nonneg ks).
  replace (zlen (argv s) - 1) with (zlen ks) by lia. assert (Hin : in_s 64 (zlen ks)) by (unfold in_s; lia). pose proof (zlen_r_mbulk _ Hin).
  step (wp_reply shared_integers acc m s A _ (fun c => addReplyMultiBulkLen stack c (zlen ks)) (r_mbulk (zlen ks)) Hr); [apply writes_mbulk; [done|lia]|apply (room_mono _ _ _ Hl); lia|].
  intros _ s1 [Hr1 Hh1]. apply wp_mget_loop; [eapply cst_step; [exact Hr1|apply Hh1]| | |].
  - rewrite (proj2 Hh1). apply args_in_roots.
  - eapply args_keeps; [by apply same_heap_keeps|apply args_in_roots|done].
  - apply room_say. apply (room_mono _ _ _ Hl). lia.
Qed.
(** ** MSET and MSETNX *)

Abbreviation expire_all := (fold_left (fun A (p : key * list Z) => a_expire cfg (fst p) A)).
Abbreviation there A := (existsb (fun p : key * list Z => bool_decide (is_Some (a_kv A !! fst p)))).

Lemma expire_all_size kvs A R n : small A R n -> small (expire_all kvs A) R n.
Proof. revert A. induction kvs as [|p kvs IH]; intros A Hs; [done|]. by apply IH, small_expire. Qed.

Lemma expire_all_out kvs A : a_out (expire_all kvs A) = a_out A.
Proof. revert A. induction kvs as [|p kvs IH]; intros A; [done|]. cbn [fold_left]. by rewrite IH, out_expire. Qed.

(** The count of the keys that exist is zero when none does. *)
Lemma wp_busy_loop bs : forall l s A (n : Z), rep s A (argroots (argv s)) -> Forall (fun o => o ∈ argroots (argv s)) l -> args_are s l bs ->
  wp (busy_loop cfg l n) s (fun r s' => rep s' (expire_all (pairs bs) A) (argroots (argv s)) /\ keeps s s' (argroots (argv s)) /\
    n <= r /\ (r =? n) = negb (there (expire_all (pairs bs) A) (pairs bs))).
Proof.
  remember (length bs) as len eqn:Elen. revert bs Elen. induction len as [len IH] using (well_founded_induction lt_wf). intros bs Elen l s A n Hr Hin Ha.
  assert (Hend : wp (ret n) s (fun r s' => rep s' A (argroots (argv s)) /\ keeps s s' (argroots (argv s)) /\ n <= r /\ (r =? n) = true)).
  { apply wp_ret. split_and!; [done|done|lia|apply Z.eqb_refl]. }
  destruct Ha as [|o b l bs Hob Ha]; [exact Hend|]. destruct Ha as [|o' b' l bs Hob' Ha]; [exact Hend|]. clear Hend.
  apply Forall_cons_1 in Hin as [Ho Hin]. apply Forall_cons_1 in Hin as [_ Hin]. cbn [busy_loop pairs fold_left existsb fst].
  destruct Hob as (ob & Hob & Hsds). apply wp_bind. eapply wp_sds_at; [exact Hob|exact Hsds|].
  step (wp_lookupKeyWrite cfg shared_integers acc s A _ b Hr). intros r s1 (m1 & Hr1 & Hk1 & ->).
  set (n1 := match m1 !! b with Some _ => n + 1 | None => n end). rewrite <- (proj2 Hk1) in Hr1.
  eapply wp_mono; [apply (IH (length bs) ltac:(cbn [length] in Elen; lia) bs eq_refl l s1 (a_expire cfg b A) n1)|].
  - by exists m1.
  - by rewrite (proj2 Hk1).
  - by eapply args_keeps.
  - intros r s2 (Hr2 & Hk2 & Hge & Hcount). rewrite (proj2 Hk1) in Hr2, Hk2. split_and!; [done|by eapply keeps_trans|unfold n1 in Hge; destruct (m1 !! b); lia|].
    rewrite (settled_all cfg b _ _ (settled_expire cfg b A)). pose proof (rep_none shared_integers acc m1 s1 _ _ b Hr1) as Hnone. unfold n1 in *.
    destruct (m1 !! b) as [x|] eqn:Ex.
    + rewrite bool_decide_true; [cbn [orb negb]; apply Z.eqb_neq; lia|]. apply not_eq_None_Some. intros E1. by apply Hnone in E1.
    + rewrite bool_decide_false; [cbn [orb]; done|]. rewrite (proj1 Hnone eq_refl). by intros [? ?].
Qed.

Abbreviation set_all := (fold_left (fun A (p : key * list Z) => a_tell [EvNotify NOTIFY_STRING "set" (fst p)] (a_set cfg (fst p) (VStr (snd p)) A))).

Lemma set_all_out kvs A : a_out (set_all kvs A) = a_out A.
Proof. revert A. induction kvs as [|p kvs IH]; intros A; [done|]. cbn [fold_left]. rewrite IH. apply out_set. Qed.

Lemma wp_mset_loop bs : forall (n j : nat) s A, length bs = (2 * n)%nat -> cst s A -> (forall i b, bs !! i = Some b -> sds_arg s (j + i) b) ->
  small A (argroots (argv s)) (Z.of_nat n + 2) ->
  wp (mset_loop cfg shared_integers n j) s (fun _ s' => cst s' (set_all (pairs bs) A)).
Proof.
  intros n. revert bs. induction n as [|n IH]; intros bs j s A Hn Hc Hargs Hs; destruct bs as [|k [|b bs]]; cbn [length] in Hn; try lia; [by apply wp_ret|].
  cbn [mset_loop pairs fold_left fst snd]. pose proof (Hargs 0%nat k eq_refl) as Hk. pose proof (Hargs 1%nat b eq_refl) as Hb. rewrite Nat.add_0_r in Hk.
  step (wp_encode_arg cfg shared_integers acc s A (j + 1) b Hc Hb). intros v s1 (Hc1 & Hkb & Hv & Hval & Hlen).
  apply wp_bind. eapply wp_key_arg; [eapply keepbut_sds; [exact Hkb|lia|exact Hk]|]. apply (argroots_length s s1) in Hs; [|done].
  step (wp_setKey cfg shared_integers acc s1 A _ k v (VStr b) Hc1 (root_arg _ _ _ Hv) Hval); [apply (small_mono _ _ _ _ Hs); lia|].
  intros _ s2 [[m2 Hr2] Hk2]. step (wp_tell shared_integers acc m2 s2 _ _ (EvNotify NOTIFY_STRING "set" k) Hr2). intros _ s3 [Hr3 Hh3].
  apply IH; [lia|eapply cst_step; [exact Hr3|destruct Hk2, Hh3; congruence]| |].
  - intros i c Hi. apply (same_args _ _ Hh3); [done|]. apply (keeps_args _ _ Hk2); [done|]. eapply keepbut_sds; [exact Hkb|lia|].
    replace (j + 2 + i)%nat with (j + S (S i))%nat by lia. by apply Hargs.
  - destruct Hh3 as [_ ->]. destruct Hk2 as [_ ->]. apply (small_set cfg _ _ _ k (VStr b)). apply (small_mono _ _ _ _ Hs). lia.
Qed.

Lemma given_sds s bs i b : given s bs -> bs !! i = Some b -> sds_arg s (1 + i) b.
Proof.
  intros [_ Ha] Hi. destruct (Forall2_lookup_r _ _ _ i b Ha Hi) as (o & Ho & ob & Hob & Hsds). rewrite lookup_drop in Ho. by exists o, ob.
Qed.

Lemma wp_msetGeneric s A bs nx : cst s A -> given s bs -> small A (argroots (argv s)) (zlen bs + 2) -> room A (2 ^ 32) ->
  wp (msetGenericCommand cfg shared_integers nx) s (fun _ s' => cst s' (s_mset cfg acc nx bs A)).
Proof.
  intros [m Hr] [Hz Ha] Hs Hl. unfold msetGenericCommand, s_mset. wp_gets. rewrite Hz. cbn zeta. pose proof (zlen_nonneg bs) as Hnn.
  destruct (Z.even (zlen bs)) eqn:Eev.
  2:{ rewrite (proj2 (Z.eqb_eq _ 0)).
      - eapply wp_mono; [apply (wp_say_error shared_integers acc m s _ _ msg_mset_args Hr); [by intros c l [= <- _]|by apply (room_mono _ _ _ Hl)]|].
        intros _ s1 [Hr1 Hh1]. eapply cst_step; [exact Hr1|apply Hh1].
      - rewrite <- Z.negb_odd, negb_false_iff, Z.odd_spec in Eev. destruct Eev as [q Eq]. rewrite Eq. replace (2 * q + 1 + 1) with ((q + 1) * 2) by lia. apply Z.mod_mul. lia. }
  pose proof (length_pairs bs Eev) as Hp. set (kvs := pairs bs) in *.
  assert (Hmod : (zlen bs + 1) mod 2 = 1) by (rewrite Hp; rewrite Z.add_comm, Z.mul_comm, Z.mod_add by lia; done). rewrite Hmod. cbn [Z.eqb].
  assert (Hdiv : (zlen bs + 1) / 2 = zlen kvs) by (rewrite Hp, Z.add_comm, Z.mul_comm, Z.div_add by lia; change (1 / 2) with 0; lia).
  assert (Hquot : Z.quot (zlen bs + 1 - 1) 2 = zlen kvs) by (replace (zlen bs + 1 - 1) with (zlen kvs * 2) by lia; by apply Z.quot_mul).
  rewrite Hdiv, Hquot. set (A1 := if nx then expire_all kvs A else A).
  apply wp_bind. apply wp_mono with (Q := fun r s' => rep s' A1 (argroots (argv s)) /\ keeps s s' (argroots (argv s)) /\ (r =? 0) = negb (nx && there A1 kvs)).
  { unfold A1. destruct nx; [|apply wp_ret; split_and!; [by exists m|done|done]]. cbn [andb].
    eapply wp_mono; [apply (wp_busy_loop bs _ s A 0); [by exists m|apply args_in_roots|done]|]. intros r s1 (Hr1 & Hk1 & _ & Hb). done. }
  intros r s1 ([m1 Hr1] & Hk1 & ->). rewrite negb_involutive.
  assert (Hs1 : small A1 (argroots (argv s)) (zlen bs + 2)) by (unfold A1; destruct nx; [by apply expire_all_size|done]).
  assert (Hl1 : room A1 (2 ^ 32)) by (eapply room_out; [|exact Hl]; unfold A1; destruct nx; [apply expire_all_out|done]).
  destruct (nx && there A1 kvs).
  { eapply wp_mono; [apply (wp_say_shared shared_integers acc m1 s1 _ _ sh_czero Hr1); by apply (room_mono _ _ _ Hl1)|].
    intros _ s2 [Hr2 Hh2]. eapply cst_step; [exact Hr2|]. destruct Hh2, Hk1. congruence. }
  rewrite <- (proj2 Hk1) in Hr1, Hs1. assert (Hlen : length bs = (2 * Z.to_nat (zlen kvs))%nat) by (unfold zlen in *; lia).
  step (wp_mset_loop bs (Z.to_nat (zlen kvs)) 1 s1 A1 Hlen (ex_intro _ m1 Hr1)).
  - intros i b Hi. apply (keeps_args _ _ Hk1); [done|]. by apply (given_sds s bs).
  - apply (small_mono _ _ _ _ Hs1). lia.
  - intros _ s2 [m2 Hr2]. step (wp_add_dirty shared_integers acc m2 s2 _ _ (zlen kvs) Hr2). intros _ s3 [Hr3 Hh3].
    eapply wp_mono; [apply (wp_say_shared shared_integers acc m2 s3 _ _ (if nx then sh_cone else sh_ok) Hr3)|].
    + apply (room_mono _ (2 ^ 32)); [|by destruct nx]. eapply room_out; [|exact Hl1]. cbn [a_out a_change]. apply set_all_out.
    + intros _ s4 [Hr4 Hh4]. rewrite <- (proj2 Hh3) in Hr4. eapply cst_step; [exact Hr4|apply Hh4].
Qed.

(** ** The end of a command *)

Lemma wp_free_loop l : forall s A, rep s A (argroots l) -> wp (free_args l) s (fun _ s' => rep s' A ∅).
Proof.
  induction l as [|o l IH]; intros s A Hr; [by apply wp_ret|]. destruct Hr as [m Hr]. cbn [free_args].
  step (wp_decr shared_integers acc m s A (argroots l) o Hr). intros _ s1 (Hr1 & _). apply IH. by exists m.
Qed.

Lemma wp_free_argv s A : cst s A -> wp free_argv s (fun _ s' => rep s' A ∅ /\ argv s' = []).
Proof.
  intros Hc. unfold free_argv. wp_gets. step (wp_free_loop (argv s) s A Hc). intros _ s1 [m Hr1]. eexists _, _. split; [reflexivity|].
  split; [|done]. exists m. destruct Hr1. by split.
Qed.
End Many.
