(* ===== verification/TKeys.v ===== *)
(** * The commands on keys (db.c, expire.c)

    DEL, EXISTS, TYPE, RENAME, RENAMENX, EXPIRE and its variants, TTL, PTTL,
    PERSIST and TOUCH, on the state of [Db].  When EXPIRE deletes the key,
    [rewriteClientCommandVector] replaces the arguments that are propagated: the
    log tells, and the arguments are released after the command as without it. *)
From Stdlib Require Import ZArith Lia String.
From stdpp Require Import base numbers list option gmap.
From S2P Require Import Prelude UtilNum Sds SdsRefine Object ObjectHeap Reply Keyspace Db TString.

Definition OBJ_LIST : Z := 1.
Definition OBJ_SET : Z := 2.
Definition OBJ_ZSET : Z := 3.
Definition OBJ_HASH : Z := 4.
Definition OBJ_MODULE : Z := 5.
Definition OBJ_STREAM : Z := 6.

(** The switch of [typeCommand]. *)
Definition type_name (module_type : list Z) (e : strenc) : list Z :=
  match e with
  | OInt _ | OEmbstr _ | ORaw _ => bytes_of "string"
  | OOther ty =>
      if ty =? OBJ_LIST then bytes_of "list"
      else if ty =? OBJ_SET then bytes_of "set"
      else if ty =? OBJ_ZSET then bytes_of "zset"
      else if ty =? OBJ_HASH then bytes_of "hash"
      else if ty =? OBJ_STREAM then bytes_of "stream"
      else if ty =? OBJ_MODULE then module_type
      else bytes_of "unknown"
  end.

Section TKeys.
Context {D E C : Type} `{KeyDict D oaddr} `{KeyDict E Z} `{Output C}.
Context (cfg : config) (stack : list Z).

Abbreviation st := (dbst D E C).
Abbreviation M := (M st).
Implicit Types (s : st) (k : key) (o : oaddr).

(** The loop over the keys; [lazy] is 0. *)
Fixpoint del_loop (args : list oaddr) (numdel : Z) : M Z :=
  match args with
  | [] => ret numdel
  | a :: args =>
      k <- sds_at a ;;
      expireIfNeeded cfg k ;;
      deleted <- dbSyncDelete cfg k ;;
      if deleted : bool then
        signalModifiedKey k ;;
        notifyKeyspaceEvent NOTIFY_GENERIC "del" k ;;
        add_dirty 1 ;;
        del_loop args (i32 (numdel + 1))
      else del_loop args numdel
  end.

Definition delGenericCommand : M unit :=
  args <- gets argv ;;
  numdel <- del_loop (drop 1 args) 0 ;;
  say_number stack numdel.

Definition delCommand : M unit := delGenericCommand.

(** The keys that can be read; [touched] of TOUCH is an [int], [count] of EXISTS a
    [long long]. *)
Fixpoint count_loop (wrap : Z -> Z) (args : list oaddr) (count : Z) : M Z :=
  match args with
  | [] => ret count
  | a :: args =>
      k <- sds_at a ;;
      o <- lookupKeyRead cfg k ;;
      count_loop wrap args (match o with Some _ => wrap (count + 1) | None => count end)
  end.

Definition existsCommand : M unit :=
  args <- gets argv ;;
  count <- count_loop i64 (drop 1 args) 0 ;;
  say_number stack count.

Definition touchCommand : M unit :=
  args <- gets argv ;;
  touched <- count_loop i32 (drop 1 args) 0 ;;
  say_number stack touched.

Definition say_status (msg : list Z) : M unit := reply (fun c => addReplyStatus c msg).

Definition typeCommand : M unit :=
  k <- key_arg 1 ;;
  o <- lookupKeyRead cfg k ;;
  match o with
  | None => say_status (bytes_of "none")
  | Some o => ob <- deref o ;; say_status (type_name (module_type cfg) (enc ob))
  end.

Definition renameGenericCommand (nx : bool) : M unit :=
  k1 <- key_arg 1 ;; k2 <- key_arg 2 ;;
  let samekey := sdscmp k1 k2 =? 0 in
  o <- lookupKeyWriteOrReply cfg k1 sh_nokeyerr ;;
  match o with
  | None => ret tt
  | Some o =>
      if samekey then say_shared (if nx then sh_czero else sh_ok)
      else
        on_heap_ (fun h => incrRefCount h o) ;;
        expire <- getExpire k1 ;;
        old <- lookupKeyWrite cfg k2 ;;
        if nx && bool_decide (is_Some old) then
          on_heap_ (fun h => decrRefCount h o) ;;
          say_shared sh_czero
        else
          (match old with Some _ => dbDelete cfg k2 ;; ret tt | None => ret tt end) ;;
          dbAdd cfg k2 o ;;
          (if negb (expire =? -1) then setExpire cfg k2 expire else ret tt) ;;
          dbDelete cfg k1 ;;
          signalModifiedKey k1 ;;
          signalModifiedKey k2 ;;
          notifyKeyspaceEvent NOTIFY_GENERIC "rename_from" k1 ;;
          notifyKeyspaceEvent NOTIFY_GENERIC "rename_to" k2 ;;
          add_dirty 1 ;;
          say_shared (if nx then sh_cone else sh_ok)
  end.

Definition renameCommand : M unit := renameGenericCommand false.
Definition renamenxCommand : M unit := renameGenericCommand true.

(** ** expire.c *)

Definition expireGenericCommand (basetime : Z) (unit_ : time_unit) : M unit :=
  k <- key_arg 1 ;; param <- arg 2 ;;
  r <- getLongLongFromObjectOrReply (Some param) ;;
  match r with
  | None => ret tt
  | Some when_ =>
      let when_ := match unit_ with UNIT_SECONDS => i64 (when_ * 1000) | UNIT_MILLISECONDS => when_ end in
      let when_ := i64 (when_ + basetime) in
      o <- lookupKeyWrite cfg k ;;
      match o with
      | None => say_shared sh_czero
      | Some _ =>
          if (when_ <=? mstime cfg) && negb (loading cfg) && negb (masterhost cfg) then
            deleted <- dbSyncDelete cfg k ;;
            if negb deleted then fail
            else
              add_dirty 1 ;;
              tell (EvRewriteDel k) ;;
              signalModifiedKey k ;;
              notifyKeyspaceEvent NOTIFY_GENERIC "del" k ;;
              say_shared sh_cone
          else
            setExpire cfg k when_ ;;
            say_shared sh_cone ;;
            signalModifiedKey k ;;
            notifyKeyspaceEvent NOTIFY_GENERIC "expire" k ;;
            add_dirty 1
      end
  end.

Definition expireCommand : M unit := expireGenericCommand (mstime cfg) UNIT_SECONDS.
Definition expireatCommand : M unit := expireGenericCommand 0 UNIT_SECONDS.
Definition pexpireCommand : M unit := expireGenericCommand (mstime cfg) UNIT_MILLISECONDS.
Definition pexpireatCommand : M unit := expireGenericCommand 0 UNIT_MILLISECONDS.

Definition ttlGenericCommand (output_ms : bool) : M unit :=
  k <- key_arg 1 ;;
  o <- lookupKeyRead cfg k ;;
  match o with
  | None => say_number stack (-2)
  | Some _ =>
      expire <- getExpire k ;;
      let ttl := if negb (expire =? -1) then let ttl := i64 (expire - mstime cfg) in if ttl <? 0 then 0 else ttl else -1 in
      if ttl =? -1 then say_number stack (-1)
      else say_number stack (if output_ms then ttl else Z.quot (i64 (ttl + 500)) 1000)
  end.

Definition ttlCommand : M unit := ttlGenericCommand false.
Definition pttlCommand : M unit := ttlGenericCommand true.

Definition persistCommand : M unit :=
  k <- key_arg 1 ;;
  o <- lookupKeyWrite cfg k ;;
  match o with
  | Some _ =>
      removed <- removeExpire k ;;
      if removed : bool then say_shared sh_cone ;; add_dirty 1 else say_shared sh_czero
  | None => say_shared sh_czero
  end.
End TKeys.
