(* ===== verification/TKeysSpec.v ===== *)
(** * What the commands on keys do

    The effect of every command of [TKeys] on the abstract keyspace. *)
From Stdlib Require Import ZArith Lia String.
From stdpp Require Import base numbers list option gmap gmultiset.
From S2P Require Import Prelude UtilNum Sds SdsRefine Object ObjectHeap Reply Keyspace Db DbSpec TString TStringRules TKeys.

Definition r_status (s : list Z) : list Z := bytes_of "+" ++ s ++ sh_crlf.

Section Keys.
Context (cfg : config) (acc : bool).
Implicit Types (A : astate) (k : key) (v : val).

Abbreviation say := (a_say acc).
Abbreviation expire := (a_expire cfg).

Definition has_key k A : bool := bool_decide (is_Some (a_kv A !! k)).

(** The loops over keys: how many there were. *)
Definition s_del1 (r : Z * astate) k : Z * astate :=
  let A := expire k (snd r) in
  if has_key k A then (fst r + 1, a_change 1 (a_tell [EvModified k; EvNotify NOTIFY_GENERIC "del" k] (a_delete cfg k A)))
  else (fst r, A).

Definition s_count1 (r : Z * astate) k : Z * astate :=
  (match a_read cfg k (snd r) with Some _ => fst r + 1 | None => fst r end, expire k (snd r)).

Definition s_del (ks : list key) A : astate := let r := fold_left s_del1 ks (0, A) in say (r_int (fst r)) (snd r).
Definition s_exists (ks : list key) A : astate := let r := fold_left s_count1 ks (0, A) in say (r_int (fst r)) (snd r).

Definition type_of (v : val) : list Z := match v with VStr _ => bytes_of "string" | VOther ty => type_name (module_type cfg) (OOther ty) end.

Definition s_type k A : astate :=
  say (r_status (match a_read cfg k A with None => bytes_of "none" | Some v => type_of v end)) (expire k A).

Definition s_rename (nx : bool) (k1 k2 : key) A : astate :=
  let A := expire k1 A in
  match a_kv A !! k1 with
  | None => say sh_nokeyerr A
  | Some v =>
      if decide (k1 = k2) then say (if nx then sh_czero else sh_ok) A
      else
        let w := default (-1) (a_ex A !! k1) in
        let A := expire k2 A in
        if nx && has_key k2 A then say sh_czero A
        else
          let A := if has_key k2 A then a_delete cfg k2 A else A in
          let A := a_put cfg k2 v A in
          let A := if w =? -1 then A else a_setExpire cfg k2 w A in
          say (if nx then sh_cone else sh_ok)
            (a_change 1 (a_tell [EvModified k1; EvModified k2; EvNotify NOTIFY_GENERIC "rename_from" k1; EvNotify NOTIFY_GENERIC "rename_to" k2] (a_delete cfg k1 A)))
  end.

(** The time EXPIRE and its variants mean. *)
Definition when_of (basetime : Z) (unit_ : time_unit) (n : Z) : Z :=
  i64 (match unit_ with UNIT_SECONDS => i64 (n * 1000) | UNIT_MILLISECONDS => n end + basetime).

Definition s_expire (basetime : Z) (unit_ : time_unit) k (e : list Z) A : astate :=
  match num_of e with
  | None => say (r_err msg_not_integer) A
  | Some n =>
      let when_ := when_of basetime unit_ n in
      let A := expire k A in
      if has_key k A then
        if (when_ <=? mstime cfg) && negb (loading cfg) && negb (masterhost cfg)
        then say sh_cone (a_tell [EvRewriteDel k; EvModified k; EvNotify NOTIFY_GENERIC "del" k] (a_change 1 (a_delete cfg k A)))
        else a_change 1 (a_tell [EvModified k; EvNotify NOTIFY_GENERIC "expire" k] (say sh_cone (a_setExpire cfg k when_ A)))
      else say sh_czero A
  end.

(** The time to live TTL answers for a key with the expire [w], -1 for none. *)
Definition ttl_reply (output_ms : bool) (w : Z) : Z :=
  if w =? -1 then -1
  else
    let t := Z.max 0 (i64 (w - mstime cfg)) in
    if output_ms then t else Z.quot (i64 (t + 500)) 1000.

Definition s_ttl (output_ms : bool) k A : astate :=
  match a_read cfg k A with
  | None => say (r_int (-2)) (expire k A)
  | Some _ => say (r_int (ttl_reply output_ms (default (-1) (a_ex (expire k A) !! k)))) (expire k A)
  end.

Definition s_persist k A : astate :=
  let A := expire k A in
  if has_key k A && bool_decide (is_Some (a_ex A !! k))
  then a_change 1 (say sh_cone (a_map (a_kv A) (delete k (a_ex A)) A))
  else say sh_czero A.
End Keys.
