(* ===== verification/TKeysProof.v ===== *)
(** * The commands on keys have the effect [TKeysSpec] gives them *)
From Stdlib Require Import ZArith Lia String.
From stdpp Require Import base numbers list option gmap gmultiset.
From S2P Require Import Prelude UtilNum Sds SdsRefine Object ObjectHeap Reply Keyspace Db DbSpec TString TStringRules TStringSpec TStringProof TStringWrites TStringEdit TStringMany TKeys TKeysSpec.

Lemma zlen_r_status b : zlen b < 2 ^ 31 -> zlen (r_status b) < 2 ^ 32.
Proof. intros Hb. unfold r_status. autorewrite with zlen. change (zlen (bytes_of "+")) with 1. change (zlen sh_crlf) with 2. lia. Qed.

Section KeysProof.
Context {D E C : Type} `{KeyDictLaws D oaddr} `{KeyDictLaws E Z} `{OutputLaws C}.
Context (cfg : config) (shared_integers : Z -> oaddr) (stack : list Z) (Hstack : zlen stack = 128) (acc : bool).

Abbreviation st := (dbst D E C).
Abbreviation roots := (gmultiset oaddr).
Abbreviation repm := (repm shared_integers acc).
Abbreviation rep := (rep shared_integers acc).
Abbreviation cst := (cst shared_integers acc).
Implicit Types (s : st) (k : key) (o : oaddr) (A : astate) (R : roots) (m : gmap key oaddr) (b : list Z) (ks : list key) (l : list oaddr).

Hint Resolve keeps_refl same_heap_keeps : core.
Ltac step H := apply wp_bind; eapply wp_mono; [apply H|].

Lemma has_key_rep m s A R k : repm m s A R -> has_key k A = bool_decide (is_Some (m !! k)).
Proof.
  intros Hr. unfold has_key. apply bool_decide_ext. rewrite <- !not_eq_None_Some. by rewrite (rep_none shared_integers acc m s A R k Hr).
Qed.

(** Deletion of a key that may be missing. *)
Lemma wp_dbSyncDelete_none m s A R k : repm m s A R -> m !! k = None ->
  wp (dbSyncDelete cfg k) s (fun r s' => repm m s' A R /\ same_heap s s' /\ r = false).
Proof.
  intros Hr Hk. assert (Hex : a_ex A !! k = None).
  { destruct (a_ex A !! k) as [w|] eqn:Ew; [|done]. destruct (rp_sub _ _ _ _ _ _ Hr k) as [o Ho]; [by rewrite Ew|]. congruence. }
  unfold dbSyncDelete. wp_gets. apply wp_bind.
  assert (He : wp (if kd_size (expires s) >? 0 then r <- lift (kd_delete (expires s) k) ;; put_expires (fst r) else ret tt) s (fun _ s' => repm m s' A R /\ same_heap s s')).
  { destruct (kd_size (expires s) >? 0); [|by apply wp_ret].
    destruct (kd_delete_spec (expires s) (a_ex A) k (rp_exp _ _ _ _ _ _ Hr)) as (e' & Ed & He'). wp_lift Ed. cbn [fst].
    eexists _, _. split; [reflexivity|]. split; [|done]. rewrite delete_id in He' by done. destruct Hr. by split. }
  eapply wp_mono; [exact He|]. intros _ s1 [Hr1 Hh1]. wp_gets.
  destruct (kd_delete_spec (dict s1) m k (rp_dict _ _ _ _ _ _ Hr1)) as (d' & Ed & Hd). wp_lift Ed. cbn [fst snd]. rewrite Hk.
  apply wp_bind. eexists _, _. split; [reflexivity|]. apply wp_ret. rewrite delete_id in Hd by done. split_and!; [|by destruct Hh1|done].
  destruct Hr1. by split.
Qed.

Lemma wp_dbDelete_any m s A R k : repm m s A R ->
  wp (dbSyncDelete cfg k) s (fun r s' => rep s' (if has_key k A then a_delete cfg k A else A) R /\ keeps s s' R /\ r = has_key k A).
Proof.
  intros Hr. rewrite (has_key_rep m s A R k Hr). destruct (m !! k) as [o|] eqn:Eo.
  - rewrite bool_decide_true by done. eapply wp_mono; [apply (wp_dbSyncDelete cfg shared_integers acc m s A R k Hr); by eexists|].
    intros r s' (Hr' & Hk' & ->). split_and!; [by eexists|done|done].
  - rewrite bool_decide_false by (by intros [? ?]). eapply wp_mono; [by apply (wp_dbSyncDelete_none m s A R k Hr)|].
    intros r s' (Hr' & Hh' & ->). split_and!; [by eexists|auto|done].
Qed.

Lemma wp_say_status m s A R b : repm m s A R -> room A (zlen (r_status b)) -> wp (say_status b) s (fun _ s' => repm m s' (a_say acc (r_status b) A) R /\ same_heap s s').
Proof.
  intros Hr Hl. apply wp_reply; [done| |done]. unfold addReplyStatus, addReplyStatusLength, r_status.
  apply (writes_bind (fun t => addReplyString t (bytes_of "+"))); [apply writes_string|].
  apply (writes_bind (fun t => addReplyString t b)); apply writes_string.
Qed.

(** ** DEL *)

Lemma out_delete k A : a_out (a_delete cfg k A) = a_out A.
Proof. done. Qed.

Lemma del1_step k n A : fst (s_del1 cfg (n, A) k) = n + (if has_key k (a_expire cfg k A) then 1 else 0).
Proof. unfold s_del1. cbn [fst snd]. destruct (has_key _ _); cbn [fst]; lia. Qed.

Lemma wp_del_loop ks : forall l s A (n : Z), cst s A -> Forall (fun o => o ∈ argroots (argv s)) l -> args_are s l ks -> 0 <= n -> n + zlen ks < 2 ^ 31 ->
  wp (del_loop cfg l n) s (fun r s' => let f := fold_left (s_del1 cfg) ks (n, A) in cst s' (snd f) /\ r = fst f /\ 0 <= r < 2 ^ 31 /\ a_out (snd f) = a_out A).
Proof.
  induction ks as [|k ks IH]; intros l s A n Hc Hin Ha Hn Hlt; inversion Ha as [|o b l0 bs0 Hob Ha0]; subst.
  { apply wp_ret. cbn. change (zlen []) with 0 in Hlt. split_and!; [done|done|lia|lia|done]. }
  rewrite zlen_cons in Hlt. pose proof (zlen_nonneg ks). apply Forall_cons_1 in Hin as [_ Hin]. cbn [del_loop fold_left]. destruct Hob as (ob & Hob & Hsds).
  apply wp_bind. eapply wp_sds_at; [exact Hob|exact Hsds|]. destruct Hc as [m Hr].
  step (wp_expireIfNeeded cfg shared_integers acc m s A _ k Hr). intros _ s1 ([m1 Hr1] & Hk1 & _).
  step (wp_dbDelete_any m1 s1 _ _ k Hr1). intros r s2 ([m2 Hr2] & Hk2 & ->). assert (Hk12 : keeps s s2 (argroots (argv s))) by by eapply keeps_trans.
  assert (Egoal : s_del1 cfg (n, A) k = (if has_key k (a_expire cfg k A) then (n + 1, a_change 1 (a_tell [EvModified k; EvNotify NOTIFY_GENERIC "del" k] (a_delete cfg k (a_expire cfg k A)))) else (n, a_expire cfg k A))) by done.
  rewrite Egoal. clear Egoal. destruct (has_key k (a_expire cfg k A)).
  - step (wp_tell shared_integers acc _ _ _ _ (EvModified k) Hr2). intros _ s3 [Hr3 Hh3].
    step (wp_tell shared_integers acc _ _ _ _ (EvNotify NOTIFY_GENERIC "del" k) Hr3). intros _ s4 [Hr4 Hh4].
    step (wp_add_dirty shared_integers acc _ _ _ _ 1 Hr4). intros _ s5 [Hr5 Hh5].
    assert (Hk5 : keeps s s5 (argroots (argv s))) by (eapply keeps_trans; [exact Hk12|]; do 2 (eapply keeps_trans; [by apply same_heap_keeps|]); auto).
    rewrite a_tell_tell in Hr5. cbn [app] in Hr5. set (A5 := a_change 1 _) in *.
    rewrite swrap_small by (unfold in_s; lia). eapply wp_mono; [apply (IH l0 s5 A5 (n + 1))|].
    + eapply cst_step; [exact Hr5|apply Hk5].
    + by rewrite (proj2 Hk5).
    + by eapply args_keeps.
    + lia.
    + lia.
    + intros r s6 (Hc6 & Hr6 & Hb6 & Ho6). split_and!; [exact Hc6|exact Hr6|lia|lia|].
      rewrite Ho6. apply (out_expire cfg k A).
  - eapply wp_mono; [apply (IH l0 s2 (a_expire cfg k A) n)|].
    + eapply cst_step; [exact Hr2|apply Hk12].
    + by rewrite (proj2 Hk12).
    + by eapply args_keeps.
    + lia.
    + lia.
    + intros r s6 (Hc6 & Hr6 & Hb6 & Ho6). split_and!; [done|done|lia|lia|]. by rewrite Ho6, out_expire.
Qed.

(** A number at the end of a command. *)
Lemma wp_end_number s A n : cst s A -> in_s 64 n -> room A (2 ^ 32) -> wp (say_number stack n) s (fun _ s' => cst s' (a_say acc (r_int n) A)).
Proof.
  intros [m Hr] Hn Hl. pose proof (zlen_r_int n Hn). eapply wp_mono; [apply (wp_say_number shared_integers stack Hstack acc m s A _ n Hr Hn); apply (room_mono _ _ _ Hl); lia|].
  intros _ s' [Hr' [_ Ha']]. by eapply cst_step.
Qed.

Lemma room_same A B n : room A n -> a_out B = a_out A -> room B n.
Proof. unfold room. by intros ? ->. Qed.

Lemma wp_delCommand s A ks : cst s A -> given s ks -> small A (argroots (argv s)) 0 -> room A (2 ^ 32) ->
  wp (delCommand cfg stack) s (fun _ s' => cst s' (s_del cfg acc ks A)).
Proof.
  intros Hc [Hz Ha] Hs Hl. unfold delCommand, delGenericCommand, s_del. wp_gets. pose proof (small_argc s A 0 Hs ltac:(lia)). pose proof (zlen_nonneg ks).
  step (wp_del_loop ks (drop 1 (argv s)) s A 0 Hc (args_in_roots s 1) Ha); [lia|lia|]. intros r s1 (Hc1 & -> & Hb & Ho).
  apply wp_end_number; [done|unfold in_s; lia|]. by eapply room_same.
Qed.

(** ** EXISTS, TOUCH *)

Lemma wp_count_loop (wrap : Z -> Z) ks : (forall n, 0 <= n < 2 ^ 31 -> wrap n = n) ->
  forall l s A (n : Z), cst s A -> Forall (fun o => o ∈ argroots (argv s)) l -> args_are s l ks -> 0 <= n -> n + zlen ks < 2 ^ 31 ->
  wp (count_loop cfg wrap l n) s (fun r s' => let f := fold_left (s_count1 cfg) ks (n, A) in cst s' (snd f) /\ r = fst f /\ 0 <= r < 2 ^ 31 /\ a_out (snd f) = a_out A).
Proof.
  intros Hw. induction ks as [|k ks IH]; intros l s A n Hc Hin Ha Hn Hlt; inversion Ha as [|o b l0 bs0 Hob Ha0]; subst.
  { apply wp_ret. cbn. change (zlen []) with 0 in Hlt. split_and!; [done|done|lia|lia|done]. }
  rewrite zlen_cons in Hlt. pose proof (zlen_nonneg ks). apply Forall_cons_1 in Hin as [_ Hin]. cbn [count_loop fold_left]. destruct Hob as (ob & Hob & Hsds).
  apply wp_bind. eapply wp_sds_at; [exact Hob|exact Hsds|].
  step (wp_lookupKeyRead cfg shared_integers acc s A _ k Hc). intros r s1 (m1 & Hr1 & Hk1 & Hm).
  assert (Er : (match r with Some _ => wrap (n + 1) | None => n end) = fst (s_count1 cfg (n, A) k)).
  { unfold s_count1. cbn [fst snd]. destruct (a_read cfg k A); [destruct Hm as (o1 & -> & _); apply Hw; lia|by subst r]. }
  rewrite Er. assert (Hb : n <= fst (s_count1 cfg (n, A) k) <= n + 1) by (unfold s_count1; cbn [fst snd]; destruct (a_read cfg k A); lia).
  assert (E1 : snd (s_count1 cfg (n, A) k) = a_expire cfg k A) by done. destruct (s_count1 cfg (n, A) k) as [n1 A1]. cbn [fst snd] in *. subst A1.
  eapply wp_mono; [apply (IH l0 s1 (a_expire cfg k A) n1)|].
  - by eapply cst_step; [|apply Hk1].
  - by rewrite (proj2 Hk1).
  - by eapply args_keeps.
  - lia.
  - lia.
  - intros r' s2 (Hc2 & Hr2 & Hb2 & Ho2). split_and!; [exact Hc2|exact Hr2|lia|lia|]. by rewrite Ho2, out_expire.
Qed.

Lemma wp_existsCommand s A ks : cst s A -> given s ks -> small A (argroots (argv s)) 0 -> room A (2 ^ 32) ->
  wp (existsCommand cfg stack) s (fun _ s' => cst s' (s_exists cfg acc ks A)) /\ wp (touchCommand cfg stack) s (fun _ s' => cst s' (s_exists cfg acc ks A)).
Proof.
  intros Hc [Hz Ha] Hs Hl. pose proof (small_argc s A 0 Hs ltac:(lia)). pose proof (zlen_nonneg ks). unfold existsCommand, touchCommand, s_exists.
  split; wp_gets; [step (wp_count_loop i64 ks ltac:(intros; apply swrap_small; unfold in_s; lia) (drop 1 (argv s)) s A 0 Hc (args_in_roots s 1) Ha); [lia|lia|]
    |step (wp_count_loop i32 ks ltac:(intros; apply swrap_small; unfold in_s; lia) (drop 1 (argv s)) s A 0 Hc (args_in_roots s 1) Ha); [lia|lia|]];
    intros r s1 (Hc1 & -> & Hb & Ho); (apply wp_end_number; [done|unfold in_s; lia|by eapply room_same]).
Qed.

(** ** TYPE *)

Lemma type_name_of ob : type_name (module_type cfg) (enc ob) = type_of cfg (val_of (enc ob)).
Proof. by destruct (enc ob). Qed.

Lemma zlen_type_of v : zlen (module_type cfg) < 2 ^ 31 -> zlen (type_of cfg v) < 2 ^ 31.
Proof. intros Hm. unfold type_of, type_name. destruct v; [done|]. repeat (destruct (_ =? _); [done|]). done. Qed.

Lemma wp_typeCommand s A k : zlen (module_type cfg) < 2 ^ 31 -> cst s A -> sds_arg s 1 k -> room A (2 ^ 32) ->
  wp (typeCommand cfg) s (fun _ s' => cst s' (s_type cfg acc k A)).
Proof.
  intros Hmt Hc Hk Hl. unfold typeCommand, s_type. apply wp_bind. eapply wp_key_arg; [exact Hk|].
  step (wp_lookupKeyRead cfg shared_integers acc s A _ k Hc). intros r s1 (m1 & Hr1 & Hk1 & Hm). apply (room_expire cfg _ _ k) in Hl.
  assert (Hend : forall b, zlen b < 2 ^ 31 -> wp (say_status b) s1 (fun _ s' => cst s' (a_say acc (r_status b) (a_expire cfg k A)))).
  { intros b Hb. pose proof (zlen_r_status b Hb). eapply wp_mono; [apply (wp_say_status m1 s1 _ _ b Hr1); apply (room_mono _ _ _ Hl); lia|].
    intros _ s2 [Hr2 [_ Ha2]]. eapply cst_step; [exact Hr2|]. destruct Hk1; congruence. }
  destruct (a_read cfg k A) as [v|].
  - destruct Hm as (o & -> & Ho & Hv). unfold deref. apply wp_bind, wp_bind, wp_gets.
    destruct (rep_object shared_integers acc _ _ _ _ _ _ Hr1 Hv) as (ob & Hob & Hval & _). eapply wp_lift; [exact Hob|].
    rewrite type_name_of, Hval. apply Hend. by apply zlen_type_of.
  - subst r. by apply Hend.
Qed.

(** ** EXPIRE, TTL, PERSIST *)

Lemma wp_ttlGeneric s A k ms : cst s A -> sds_arg s 1 k -> room A (2 ^ 32) ->
  wp (ttlGenericCommand cfg stack ms) s (fun _ s' => cst s' (s_ttl cfg acc ms k A)).
Proof.
  intros Hc Hk Hl. unfold ttlGenericCommand, s_ttl. apply wp_bind. eapply wp_key_arg; [exact Hk|].
  step (wp_lookupKeyRead cfg shared_integers acc s A _ k Hc). intros r s1 (m1 & Hr1 & Hk1 & Hm). apply (room_expire cfg _ _ k) in Hl.
  destruct (a_read cfg k A) as [v|].
  2:{ subst r. apply wp_end_number; [|unfold in_s; lia|done]. by eapply cst_step; [|apply Hk1]. }
  destruct Hm as (o & -> & _). step (wp_getExpire shared_integers acc m1 s1 _ _ k Hr1). intros w s2 (Hr2 & Hh2 & ->).
  set (w := default (-1) _). assert (Hc2 : cst s2 (a_expire cfg k A)) by (eapply cst_step; [exact Hr2|]; destruct Hh2, Hk1; congruence).
  cbv zeta. unfold ttl_reply. pose proof (swrap_range 64 (w - mstime cfg) ltac:(lia)) as Hin. unfold in_s in Hin.
  destruct (Z.eqb_spec w (-1)) as [->|Hne]; cbn [negb].
  { apply wp_end_number; [done|unfold in_s; lia|done]. }
  replace (if i64 (w - mstime cfg) <? 0 then 0 else i64 (w - mstime cfg)) with (Z.max 0 (i64 (w - mstime cfg))) by (destruct (Z.ltb_spec (i64 (w - mstime cfg)) 0); lia).
  rewrite (proj2 (Z.eqb_neq _ (-1))) by lia. apply wp_end_number; [done| |done]. destruct ms; [unfold in_s; lia|].
  pose proof (swrap_range 64 (Z.max 0 (i64 (w - mstime cfg)) + 500) ltac:(lia)) as Hin2. unfold in_s in Hin2 |- *. generalize dependent (i64 (Z.max 0 (i64 (w - mstime cfg)) + 500)). intros x Hx. Z.quot_rem_to_equations. lia.
Qed.

Lemma wp_persistCommand s A k : cst s A -> sds_arg s 1 k -> room A (2 ^ 32) -> wp (persistCommand cfg) s (fun _ s' => cst s' (s_persist cfg acc k A)).
Proof.
  intros Hc Hk Hl. unfold persistCommand, s_persist. apply wp_bind. eapply wp_key_arg; [exact Hk|].
  step (wp_lookupKeyWrite cfg shared_integers acc s A _ k Hc). intros r s1 (m1 & Hr1 & Hk1 & ->). apply (room_expire cfg _ _ k) in Hl.
  rewrite (has_key_rep _ _ _ _ k Hr1).
  assert (Hzero : forall s2 B, repm m1 s2 B (argroots (argv s)) -> argv s2 = argv s -> a_out B = a_out (a_expire cfg k A) -> wp (say_shared sh_czero) s2 (fun _ s' => cst s' (a_say acc sh_czero B))).
  { intros s2 B Hr2 Ha2 Ho. eapply wp_mono; [apply (wp_say_shared shared_integers acc m1 s2 _ _ sh_czero Hr2); eapply room_same; [|exact Ho]; by apply (room_mono _ _ _ Hl)|].
    intros _ s3 [Hr3 [_ Ha3]]. eapply cst_step; [exact Hr3|]. congruence. }
  destruct (m1 !! k) as [o|] eqn:Eo.
  2:{ rewrite bool_decide_false by (by intros [? ?]). by apply Hzero; [|apply Hk1|]. }
  rewrite bool_decide_true by done. step (wp_removeExpire shared_integers acc m1 s1 _ _ k Hr1); [by eexists|]. intros r s2 (Hr2 & Hh2 & ->).
  destruct (bool_decide (is_Some (a_ex (a_expire cfg k A) !! k))) eqn:Ex; cbn [andb].
  - step (wp_say_shared shared_integers acc m1 s2 _ _ sh_cone Hr2); [by apply (room_mono _ _ _ Hl)|]. intros _ s3 [Hr3 Hh3].
    eapply wp_mono; [apply (wp_add_dirty shared_integers acc _ _ _ _ 1 Hr3)|]. intros _ s4 [Hr4 [_ Ha4]]. eapply cst_step; [exact Hr4|]. destruct Hh2, Hh3, Hk1. congruence.
  - apply bool_decide_eq_false in Ex. assert (EA : a_map (a_kv (a_expire cfg k A)) (delete k (a_ex (a_expire cfg k A))) (a_expire cfg k A) = a_expire cfg k A).
    { rewrite delete_id by (by apply eq_None_not_Some). by destruct (a_expire cfg k A). }
    rewrite EA in Hr2. apply Hzero; [done|destruct Hh2, Hk1; congruence|done].
Qed.

Lemma wp_expireGeneric s A k e base u : cst s A -> sds_arg s 1 k -> sds_arg s 2 e -> small A (argroots (argv s)) 0 -> room A (2 ^ 32) ->
  wp (expireGenericCommand cfg base u) s (fun _ s' => cst s' (s_expire cfg acc base u k e A)).
Proof.
  intros [m Hr] Hk He Hs Hl. unfold expireGenericCommand, s_expire. apply wp_bind. eapply wp_key_arg; [exact Hk|].
  destruct (sds_arg_val s 2 e He) as (p & Hp & Hv). apply wp_bind. eapply wp_arg; [exact Hp|].
  step (wp_getLongLong shared_integers acc m s A _ p e Hr Hv); [by apply (room_mono _ _ _ Hl)|]. intros r s1 (Hr1 & Hh1 & ->).
  destruct (num_of e) as [n|]; [|apply wp_ret; eapply cst_step; [exact Hr1|apply Hh1]].
  fold (when_of base u n). assert (Hrep1 : rep s1 A (argroots (argv s))) by by exists m.
  step (wp_lookupKeyWrite cfg shared_integers acc s1 A _ k Hrep1). intros r s2 (m2 & Hr2 & Hk2 & ->). apply (room_expire cfg _ _ k) in Hl.
  cbv zeta. fold (when_of base u n). rewrite (has_key_rep _ _ _ _ k Hr2). destruct (m2 !! k) as [o|] eqn:Eo.
  2:{ rewrite bool_decide_false by (by intros [? ?]). eapply wp_mono; [apply (wp_say_shared shared_integers acc m2 s2 _ _ sh_czero Hr2); by apply (room_mono _ _ _ Hl)|].
      intros _ s3 [Hr3 [_ Ha3]]. eapply cst_step; [exact Hr3|]. destruct Hh1, Hk2. congruence. }
  rewrite bool_decide_true by done. destruct (_ && negb (masterhost cfg)).
  - step (wp_dbSyncDelete cfg shared_integers acc m2 s2 _ _ k Hr2); [by eexists|]. intros r s3 (Hr3 & Hk3 & ->). cbn [negb].
    step (wp_add_dirty shared_integers acc _ _ _ _ 1 Hr3). intros _ s4 [Hr4 Hh4]. step (wp_tell shared_integers acc _ _ _ _ (EvRewriteDel k) Hr4). intros _ s5 [Hr5 Hh5].
    step (wp_tell shared_integers acc _ _ _ _ (EvModified k) Hr5). intros _ s6 [Hr6 Hh6]. step (wp_tell shared_integers acc _ _ _ _ (EvNotify NOTIFY_GENERIC "del" k) Hr6). intros _ s7 [Hr7 Hh7].
    rewrite !a_tell_tell in Hr7. cbn [app] in Hr7. eapply wp_mono; [apply (wp_say_shared shared_integers acc _ s7 _ _ sh_cone Hr7); by apply (room_mono _ _ _ Hl)|].
    intros _ s8 [Hr8 [_ Ha8]]. eapply cst_step; [exact Hr8|]. destruct Hh1, Hk2, Hk3, Hh4, Hh5, Hh6, Hh7. congruence.
  - step (wp_setExpire cfg shared_integers acc m2 s2 _ _ k (when_of base u n) Hr2); [by eexists|by apply small_expire|]. intros _ s3 [Hr3 Hh3].
    step (wp_say_shared shared_integers acc m2 s3 _ _ sh_cone Hr3); [by apply (room_mono _ _ _ Hl)|]. intros _ s4 [Hr4 Hh4].
    step (wp_tell shared_integers acc _ _ _ _ (EvModified k) Hr4). intros _ s5 [Hr5 Hh5]. step (wp_tell shared_integers acc _ _ _ _ (EvNotify NOTIFY_GENERIC "expire" k) Hr5). intros _ s6 [Hr6 Hh6].
    rewrite a_tell_tell in Hr6. cbn [app] in Hr6. eapply wp_mono; [apply (wp_add_dirty shared_integers acc _ _ _ _ 1 Hr6)|].
    intros _ s7 [Hr7 [_ Ha7]]. eapply cst_step; [exact Hr7|]. destruct Hh1, Hk2, Hh3, Hh4, Hh5, Hh6. congruence.
Qed.

(** ** RENAME *)

Lemma sdscmp_same (a b : list Z) : (sdscmp a b =? 0) = bool_decide (a = b).
Proof.
  rewrite sdscmp_lex. pose proof (lexcmp_eq a b). destruct (Z.eqb_spec (lexcmp a b) 0); symmetry; [apply bool_decide_true; tauto|apply bool_decide_false; tauto].
Qed.

Lemma small_delete A R k n : small A R n -> small (a_delete cfg k A) R n.
Proof. unfold small, a_delete. cbn_st. rewrite map_size_delete. destruct (a_kv A !! k); unfold id; lia. Qed.

Lemma wp_renameGeneric s A k1 k2 nx : cst s A -> sds_arg s 1 k1 -> sds_arg s 2 k2 -> small A (argroots (argv s)) 2 -> room A (2 ^ 32) ->
  wp (renameGenericCommand cfg nx) s (fun _ s' => cst s' (s_rename cfg acc nx k1 k2 A)).
Proof.
  intros Hc Hk1 Hk2 Hs Hl. unfold renameGenericCommand, s_rename. apply wp_bind. eapply wp_key_arg; [exact Hk1|]. apply wp_bind. eapply wp_key_arg; [exact Hk2|]. cbv zeta.
  unfold lookupKeyWriteOrReply. apply wp_bind, wp_bind. eapply wp_mono; [apply (wp_lookupKeyWrite cfg shared_integers acc s A _ k1 Hc)|]. intros r s1 (m1 & Hr1 & Hkp1 & ->).
  apply (room_expire cfg _ _ k1) in Hl. apply (small_expire cfg _ _ _ k1) in Hs. set (A1 := a_expire cfg k1 A) in *. set (R := argroots (argv s)) in *.
  destruct (m1 !! k1) as [o|] eqn:Eo.
  2:{ rewrite (proj1 (rep_none shared_integers acc _ _ _ _ k1 Hr1) Eo). step (wp_say_shared shared_integers acc m1 s1 _ _ sh_nokeyerr Hr1); [by apply (room_mono _ _ _ Hl)|].
      intros _ s2 [Hr2 [_ Ha2]]. apply wp_ret, wp_ret. eapply cst_step; [exact Hr2|]. destruct Hkp1. congruence. }
  apply wp_ret. destruct (rep_val shared_integers acc _ _ _ _ k1 o Hr1 Eo) as (v & Hv & ->). rewrite sdscmp_same.
  assert (Hsay : forall s2 m2 B msg, repm m2 s2 B R -> argv s2 = argv s -> a_out B = a_out A1 -> zlen msg <= 2 ^ 32 -> wp (say_shared msg) s2 (fun _ s' => cst s' (a_say acc msg B))).
  { intros s2 m2 B msg Hr2 Ha2 Ho Hm. eapply wp_mono; [apply (wp_say_shared shared_integers acc m2 s2 _ _ msg Hr2); eapply room_same; [|exact Ho]; by apply (room_mono _ _ _ Hl)|].
    intros _ s3 [Hr3 [_ Ha3]]. eapply cst_step; [exact Hr3|]. congruence. }
  destruct (decide (k1 = k2)) as [->|Hne].
  { rewrite bool_decide_true by done. apply (Hsay s1 m1); [done|apply Hkp1|done|by destruct nx]. }
  rewrite bool_decide_false by done.
  step (wp_incr shared_integers acc m1 s1 _ R o Hr1); [apply gmultiset_elem_of_disj_union; left; apply elem_of_vals; eauto|by apply (small_mono _ _ 2)|].
  intros _ s2 (Hr2 & Hkp2 & Ha2). assert (Hv2 : val_at (heap s2) o = Some v).
  { rewrite (kept_val _ _ _ _ Hkp2); [done|]. apply gmultiset_elem_of_disj_union. left. apply elem_of_vals. eauto. }
  step (wp_getExpire shared_integers acc m1 s2 _ _ k1 Hr2). intros w s3 (Hr3 & [Eh3 Ea3] & ->). set (w := default (-1) (a_ex A1 !! k1)).
  assert (Hrep3 : rep s3 A1 ({[+ o +]} ⊎ R)) by by exists m1.
  step (wp_lookupKeyWrite cfg shared_integers acc s3 A1 _ k2 Hrep3). intros r s4 (m4 & Hr4 & [Hkp4 Ea4] & ->). rewrite <- (has_key_rep _ _ _ _ k2 Hr4).
  set (A4 := a_expire cfg k2 A1) in *. assert (Ho4 : a_out A4 = a_out A1) by apply out_expire. apply (small_expire cfg _ _ _ k2) in Hs. fold A4 in Hs.
  assert (Hv4 : val_at (heap s4) o = Some v). { rewrite (kept_val _ _ _ _ Hkp4 (in_root o R)). by rewrite Eh3. }
  assert (Ha4 : argv s4 = argv s) by (destruct Hkp1; congruence).
  destruct (nx && has_key k2 A4) eqn:Enx.
  { step (wp_decr shared_integers acc m4 s4 _ R o Hr4). intros _ s5 (Hr5 & _ & Ha5). apply (Hsay s5 m4); [done|congruence|done|done]. }
  assert (Hkv1 : a_kv A4 !! k1 = Some v).
  { unfold A4. rewrite (proj1 (expire_other cfg k1 k2 A1 ltac:(congruence))). by destruct (rep_val shared_integers acc _ _ _ _ k1 o Hr1 Eo) as (v' & Hv' & ->); rewrite Hv in Hv'. }
  assert (Hk1m : is_Some (m4 !! k1)).
  { destruct (m4 !! k1) eqn:E4; [done|]. rewrite (proj1 (rep_none shared_integers acc _ _ _ _ k1 Hr4) E4) in Hkv1. done. }
  pose proof (has_key_rep _ _ _ _ k2 Hr4) as Hhk. set (A5 := if has_key k2 A4 then a_delete cfg k2 A4 else A4).
  apply wp_bind. apply (wp_mono _ _ (fun _ s5 => exists m5, repm m5 s5 A5 ({[+ o +]} ⊎ R) /\ m5 !! k2 = None /\ is_Some (m5 !! k1) /\ keeps s4 s5 ({[+ o +]} ⊎ R))).
  { destruct (m4 !! k2) as [o2|] eqn:E2; [rewrite bool_decide_true in Hhk by done|rewrite bool_decide_false in Hhk by (by intros [? ?])]; unfold A5; rewrite Hhk.
    - unfold dbDelete. step (wp_dbSyncDelete cfg shared_integers acc m4 s4 _ _ k2 Hr4); [by eexists|]. intros r s5 (Hr5 & Hk5 & _). apply wp_ret. exists (delete k2 m4).
      split_and!; [done|apply lookup_delete_eq|by rewrite lookup_delete_ne|done].
    - apply wp_ret. exists m4. by split_and!. }
  intros _ s5 (m5 & Hr5 & Hm5 & Hk15 & Hkp5).
  assert (Hs5 : small A5 R 2) by (unfold A5; destruct (has_key k2 A4); [by apply small_delete|done]). assert (Ho5 : a_out A5 = a_out A1) by (unfold A5; destruct (has_key k2 A4); done).
  step (wp_dbAdd cfg shared_integers acc m5 s5 _ _ k2 o v Hr5 Hm5); [by rewrite (kept_val _ _ _ _ (proj1 Hkp5) (in_root o R))|by apply (small_mono _ _ 2)|]. intros _ s6 [Hr6 Hh6].
  set (A6 := a_put cfg k2 v A5) in *. assert (Hs6 : small A6 R 0) by (apply small_put; by apply (small_mono _ _ 2)).
  apply wp_bind. set (A7 := if w =? -1 then A6 else a_setExpire cfg k2 w A6).
  apply (wp_mono _ _ (fun _ s7 => repm (<[k2 := o]> m5) s7 A7 R /\ same_heap s6 s7)).
  { unfold A7. destruct (w =? -1); cbn [negb]; [by apply wp_ret|]. apply (wp_setExpire cfg shared_integers acc _ _ _ _ k2 w Hr6); [|done]. rewrite lookup_insert_eq. by eexists. }
  intros _ s7 [Hr7 Hh7]. unfold dbDelete. step (wp_dbSyncDelete cfg shared_integers acc _ s7 _ _ k1 Hr7); [by rewrite lookup_insert_ne|]. intros r s8 (Hr8 & Hk8 & _).
  step (wp_tell shared_integers acc _ _ _ _ (EvModified k1) Hr8). intros _ s9 [Hr9 Hh9]. step (wp_tell shared_integers acc _ _ _ _ (EvModified k2) Hr9). intros _ s10 [Hr10 Hh10].
  step (wp_tell shared_integers acc _ _ _ _ (EvNotify NOTIFY_GENERIC "rename_from" k1) Hr10). intros _ s11 [Hr11 Hh11]. step (wp_tell shared_integers acc _ _ _ _ (EvNotify NOTIFY_GENERIC "rename_to" k2) Hr11). intros _ s12 [Hr12 Hh12].
  rewrite !a_tell_tell in Hr12. cbn [app] in Hr12. step (wp_add_dirty shared_integers acc _ _ _ _ 1 Hr12). intros _ s13 [Hr13 Hh13].
  apply (Hsay s13 _ _ _ Hr13).
  - destruct Hkp5, Hh6, Hh7, Hk8, Hh9, Hh10, Hh11, Hh12, Hh13. congruence.
  - unfold A7. by destruct (w =? -1).
  - by destruct nx.
Qed.
End KeysProof.
