(* ===== verification/TStringCorrect.v ===== *)
(** * The commands refine their specification

    [run] is a command as the table of server.c gives it, [effect] what it does to
    the abstract keyspace.  The refinement holds for any dictionaries and any
    output buffers that satisfy their laws, and says that after the command the
    objects of the heap are the ones of the keyspace, with exact reference
    counts. *)
From Stdlib Require Import ZArith Lia String.
From stdpp Require Import base numbers list option gmap gmultiset.
From S2P Require Import Prelude UtilNum Dict DictRefine Sds SdsRefine Object ObjectHeap Reply Keyspace Db DbSpec TString TStringRules TStringSpec TStringProof TStringWrites TStringEdit TStringMany TKeys TKeysSpec TKeysProof.

Inductive command :=
  Get | Set_ | Setnx | Setex | Psetex | Append | Strlen | Setrange | Getrange | Incr | Decr | Mget | Incrby | Decrby | Getset | Mset | Msetnx
  | Del | Exists | Type_ | Rename | Renamenx | Expire | Expireat | Pexpire | Pexpireat | Ttl | Pttl | Persist | Touch.

(** The column of [redisCommandTable]. *)
Definition arity (c : command) : Z :=
  match c with
  | Get => 2 | Set_ => -3 | Setnx => 3 | Setex => 4 | Psetex => 4 | Append => 3 | Strlen => 2 | Setrange => 4 | Getrange => 4
  | Incr => 2 | Decr => 2 | Mget => -2 | Incrby => 3 | Decrby => 3 | Getset => 3 | Mset => -3 | Msetnx => -3
  | Del => -2 | Exists => -2 | Type_ => 2 | Rename => 3 | Renamenx => 3 | Expire => 3 | Expireat => 3 | Pexpire => 3 | Pexpireat => 3
  | Ttl => 2 | Pttl => 2 | Persist => 2 | Touch => -2
  end.

(** The test of [processCommand], and of a script. *)
Definition arity_ok (c : command) (argc : Z) : bool :=
  negb (((arity c >? 0) && negb (arity c =? argc)) || (argc <? - arity c)).

Section Run.
Context {D E C : Type} `{KeyDict D oaddr} `{KeyDict E Z} `{Output C}.
Context (cfg : config) (shared_integers : Z -> oaddr) (stack : list Z).

(** [c->cmd->proc]. *)
Definition run (c : command) : M (dbst D E C) unit :=
  match c with
  | Get => getCommand cfg stack
  | Set_ => setCommand cfg shared_integers
  | Setnx => setnxCommand cfg shared_integers
  | Setex => setexCommand cfg shared_integers
  | Psetex => psetexCommand cfg shared_integers
  | Append => appendCommand cfg shared_integers stack
  | Strlen => strlenCommand cfg stack
  | Setrange => setrangeCommand cfg stack
  | Getrange => getrangeCommand cfg stack
  | Incr => incrCommand cfg shared_integers stack
  | Decr => decrCommand cfg shared_integers stack
  | Mget => mgetCommand cfg stack
  | Incrby => incrbyCommand cfg shared_integers stack
  | Decrby => decrbyCommand cfg shared_integers stack
  | Getset => getsetCommand cfg shared_integers stack
  | Mset => msetCommand cfg shared_integers
  | Msetnx => msetnxCommand cfg shared_integers
  | Del => delCommand cfg stack
  | Exists => existsCommand cfg stack
  | Type_ => typeCommand cfg
  | Rename => renameCommand cfg
  | Renamenx => renamenxCommand cfg
  | Expire => expireCommand cfg
  | Expireat => expireatCommand cfg
  | Pexpire => pexpireCommand cfg
  | Pexpireat => pexpireatCommand cfg
  | Ttl => ttlCommand cfg stack
  | Pttl => pttlCommand cfg stack
  | Persist => persistCommand cfg
  | Touch => touchCommand cfg stack
  end.
End Run.

(** What a command does with the arguments after its name. *)
Definition effect (cfg : config) (acc : bool) (c : command) (args : list (list Z)) (A : astate) : astate :=
  match c, args with
  | Get, [k] => s_get cfg acc k A
  | Set_, k :: b :: opts => s_set cfg acc k b opts A
  | Setnx, [k; b] => s_setgeneric cfg acc true false k b None UNIT_SECONDS sh_cone sh_czero A
  | Setex, [k; e; b] => s_setgeneric cfg acc false false k b (Some e) UNIT_SECONDS sh_ok sh_nullbulk A
  | Psetex, [k; e; b] => s_setgeneric cfg acc false false k b (Some e) UNIT_MILLISECONDS sh_ok sh_nullbulk A
  | Append, [k; v] => s_append cfg acc k v A
  | Strlen, [k] => s_strlen cfg acc k A
  | Setrange, [k; off; v] => s_setrange cfg acc k off v A
  | Getrange, [k; i; j] => s_getrange cfg acc k i j A
  | Incr, [k] => s_incrdecr cfg acc k 1 A
  | Decr, [k] => s_incrdecr cfg acc k (-1) A
  | Mget, ks => s_mget cfg acc ks A
  | Incrby, [k; n] => s_incrby cfg acc 1 k n A
  | Decrby, [k; n] => s_incrby cfg acc (-1) k n A
  | Getset, [k; b] => s_getset cfg acc k b A
  | Mset, kvs => s_mset cfg acc false kvs A
  | Msetnx, kvs => s_mset cfg acc true kvs A
  | Del, ks => s_del cfg acc ks A
  | Exists, ks | Touch, ks => s_exists cfg acc ks A
  | Type_, [k] => s_type cfg acc k A
  | Rename, [k1; k2] => s_rename cfg acc false k1 k2 A
  | Renamenx, [k1; k2] => s_rename cfg acc true k1 k2 A
  | Expire, [k; e] => s_expire cfg acc (mstime cfg) UNIT_SECONDS k e A
  | Expireat, [k; e] => s_expire cfg acc 0 UNIT_SECONDS k e A
  | Pexpire, [k; e] => s_expire cfg acc (mstime cfg) UNIT_MILLISECONDS k e A
  | Pexpireat, [k; e] => s_expire cfg acc 0 UNIT_MILLISECONDS k e A
  | Ttl, [k] => s_ttl cfg acc false k A
  | Pttl, [k] => s_ttl cfg acc true k A
  | Persist, [k] => s_persist cfg acc k A
  | _, _ => A
  end.

(** The end of the string SETRANGE writes is a [long long]. *)
Definition offset_ok (c : command) (args : list (list Z)) : Prop :=
  match c, args with
  | Setrange, [_; off; v] => forall n, num_of off = Some n -> n + zlen v < 2 ^ 63
  | _, _ => True
  end.

Section Correct.
Context {D E C : Type} `{KeyDictLaws D oaddr} `{KeyDictLaws E Z} `{OutputLaws C}.
Context (cfg : config) (shared_integers : Z -> oaddr) (stack : list Z) (acc : bool).

Abbreviation st := (dbst D E C).
Abbreviation rep := (rep shared_integers acc).
Implicit Types (s : st) (A : astate).

(** The client holds the arguments [name :: args], and there is room for what the
    command may add: references, keys and bytes of replies. *)
Record ready (c : command) s A (name : list Z) (args : list (list Z)) : Prop := {
  rd_rep : rep s A (argroots (argv s));
  rd_args : args_are s (argv s) (name :: args);
  rd_arity : arity_ok c (zlen (name :: args)) = true;
  rd_offset : offset_ok c args;
  rd_small : small A (argroots (argv s)) (zlen args + 2);
  rd_room : room A (2 ^ 32 * (zlen args + 2));
  rd_stack : zlen stack = 128;
  rd_name : zlen (bytes_of (cmd_name cfg)) < 2 ^ 31 /\ zlen (module_type cfg) < 2 ^ 31
}.

Lemma args_given s name args : args_are s (argv s) (name :: args) -> given s args.
Proof.
  intros Ha. inversion Ha as [|o b l bs Hob Ha0 E1 E2]; subst. unfold given. rewrite <- E1. change (drop 1 (o :: l)) with l. split; [|done].
  apply Forall2_length in Ha0. rewrite zlen_cons. unfold zlen. rewrite Ha0. lia.
Qed.

Lemma arity_len c argc : arity_ok c argc = true -> (0 < arity c -> argc = arity c) /\ - arity c <= argc.
Proof. unfold arity_ok. rewrite Z.gtb_ltb. intros Hok. split; [intros Hp|]; destruct (Z.ltb_spec 0 (arity c)), (Z.eqb_spec (arity c) argc), (Z.ltb_spec argc (- arity c)); cbn in Hok; try done; lia. Qed.

Lemma wp_run c s A name args : ready c s A name args -> wp (run cfg shared_integers stack c) s (fun _ s' => cst shared_integers acc s' (effect cfg acc c args A)).
Proof.
  intros [Hc Ha Har Ho Hs Hl Hst [Hn Hmt]]. pose proof (args_given s name args Ha) as Hg. pose proof (zlen_nonneg args).
  assert (Hs2 : small A (argroots (argv s)) 2) by (apply (small_mono _ _ _ _ Hs); lia).
  assert (Hl2 : room A (2 ^ 32)) by (apply (room_mono _ _ _ Hl); lia).
  assert (Hi : forall i b, args !! i = Some b -> sds_arg s (1 + i) b) by (intros i b Hi; by eapply given_sds).
  apply arity_len in Har as [Hpos Hneg]. rewrite zlen_cons in Hpos, Hneg.
  pose proof (fun b => Hi 0%nat b) as G1. pose proof (fun b => Hi 1%nat b) as G2. pose proof (fun b => Hi 2%nat b) as G3. cbn [Nat.add] in G1, G2, G3. clear Hi.
  assert (Hs0 : small A (argroots (argv s)) 0) by (apply (small_mono _ _ _ _ Hs2); lia).
  destruct c; cbn [arity run effect] in *;
    [| | | | | | | | | | |by apply wp_mgetCommand| | | |by apply wp_msetGeneric|by apply wp_msetGeneric|by apply wp_delCommand|by apply (wp_existsCommand cfg shared_integers stack Hst acc s A args)
    | | | | | | | | | | |by apply (wp_existsCommand cfg shared_integers stack Hst acc s A args)].
  all: destruct args as [|a1 [|a2 [|a3 [|a4 args]]]]; rewrite ?zlen_cons in Hpos, Hneg; change (zlen (@nil (list Z))) with 0 in *;
    try (exfalso; pose_zlen; lia); try specialize (G1 _ eq_refl); try specialize (G2 _ eq_refl); try specialize (G3 _ eq_refl).
  - eapply wp_mono; [by apply wp_getCommand|]. by intros _ s' [Hc' _].
  - apply wp_setCommand; try done. apply (Forall2_drop _ _ _ 3 Ha).
  - apply wp_setCommand; try done. apply (Forall2_drop _ _ _ 3 Ha).
  - apply wp_setCommand; try done. apply (Forall2_drop _ _ _ 3 Ha).
  - by apply wp_setnxCommand.
  - by apply (wp_set_expire cfg shared_integers acc Hn s A a1 a3 a2 UNIT_SECONDS).
  - by apply (wp_set_expire cfg shared_integers acc Hn s A a1 a3 a2 UNIT_MILLISECONDS).
  - by apply wp_appendCommand.
  - eapply wp_mono; [by apply wp_strlenCommand|]. by intros _ s' [Hc' _].
  - by apply wp_setrangeCommand.
  - eapply wp_mono; [by apply wp_getrangeCommand|]. by intros _ s' [Hc' _].
  - by apply wp_incrDecrCommand.
  - by apply wp_incrDecrCommand.
  - by apply wp_incrbyCommand.
  - by apply wp_decrbyCommand.
  - by apply wp_getsetCommand.
  - by apply wp_typeCommand.
  - by apply wp_renameGeneric.
  - by apply wp_renameGeneric.
  - by apply wp_expireGeneric.
  - by apply wp_expireGeneric.
  - by apply wp_expireGeneric.
  - by apply wp_expireGeneric.
  - by apply wp_ttlGeneric.
  - by apply wp_ttlGeneric.
  - by apply wp_persistCommand.
Qed.

Lemma run_refines c s A name args : ready c s A name args ->
  exists s', (run cfg shared_integers stack c ;; free_argv) s = Some (tt, s') /\ rep s' (effect cfg acc c args A) ∅ /\ argv s' = [].
Proof.
  intros Hr. destruct (wp_run c s A name args Hr) as ([] & s1 & E1 & Hc1).
  destruct (wp_free_argv shared_integers acc s1 _ Hc1) as ([] & s2 & E2 & Hr2). exists s2. split; [|done].
  unfold bind. by rewrite E1.
Qed.

(** [C3] A command of the table, run on arguments that are objects of the
    client, does what its specification says: on the keys, their times to live,
    the answer, the count of changes [dirty] and the events; it does not fail.
    After the command and the release of its arguments, the objects of the heap are
    the shared integers and the values of the keyspace, with exact reference
    counts.  SETRANGE with an offset so close to 2^63 that the end of the string is
    no [long long] is excluded ([offset_ok]); the statistics of hits, misses and
    expired keys, which the operations of [Db] update, are not part of the
    specification. *)
Theorem string_commands_refine c s A name args : ready c s A name args ->
  exists s', (run cfg shared_integers stack c ;; free_argv) s = Some (tt, s') /\ rep s' (effect cfg acc c args A) ∅ /\ argv s' = [].
Proof. apply run_refines. Qed.
End Correct.

(** ** A server *)

Section Start.
Context {D E C : Type} `{KeyDictLaws D oaddr} `{KeyDictLaws E Z} `{OutputLaws C}.

(** An empty database. *)
Definition start (h : gmap oaddr robj) (d : D) (e : E) (c : C) : dbst D E C :=
  {| heap := h; dict := d; expires := e; out := c; argv := []; dirty := 0; log := [];
     stat_keyspace_hits := 0; stat_keyspace_misses := 0; stat_expiredkeys := 0 |}.

Definition empty_keyspace : astate := {| a_kv := ∅; a_ex := ∅; a_out := []; a_dirty := 0; a_log := [] |}.

(** The arguments of the next command. *)
Definition receive (bs : list (list Z)) (s : dbst D E C) : dbst D E C :=
  let '(l, h) := make_args (heap s) bs in
  {| heap := h; dict := dict s; expires := expires s; out := out s; argv := l; dirty := dirty s; log := log s;
     stat_keyspace_hits := stat_keyspace_hits s; stat_keyspace_misses := stat_keyspace_misses s; stat_expiredkeys := stat_expiredkeys s |}.

Lemma start_rep si h d e (c : C) acc : own si h ∅ -> kd_repr d (∅ : gmap key oaddr) -> kd_repr e (∅ : gmap key Z) -> sink acc c [] ->
  rep si acc (start h d e c) empty_keyspace ∅.
Proof.
  intros Hown Hd He Hc. exists ∅. split; cbn [heap dict expires out dirty log start empty_keyspace a_kv a_ex a_out a_dirty a_log]; try done.
  intros k Hk. rewrite lookup_empty in Hk. by destruct Hk.
Qed.

Lemma receive_ready cfg si stack (s : dbst D E C) acc A cmd name args : rep si acc s A ∅ ->
  Forall (fun b => zlen b < 2 ^ 31) (name :: args) -> arity_ok cmd (zlen (name :: args)) = true -> offset_ok cmd args ->
  Z.of_nat (base.size (a_kv A)) + 2 * zlen args + 3 < 2 ^ 31 - 2 -> room A (2 ^ 32 * (zlen args + 2)) ->
  zlen stack = 128 -> zlen (bytes_of (cmd_name cfg)) < 2 ^ 31 /\ zlen (module_type cfg) < 2 ^ 31 ->
  ready cfg si stack acc cmd (receive (name :: args) s) A name args.
Proof.
  intros [m Hr] Hb Har Ho Hl Hroom Hst Hn. pose proof (own_args si (name :: args) (heap s) _ (rp_own _ _ _ _ _ _ Hr) Hb) as Ha. unfold receive.
  destruct (make_args (heap s) (name :: args)) as [l h']. destruct Ha as (O1 & O2 & O3). pose proof (Forall2_length O3) as Hlen.
  rewrite gmultiset_disj_union_right_id in O1, O2. split; cbn [argv]; try done.
  - exists m. destruct Hr as [P1 P2 P3 P4 P5 P6 P7 P8]. split; cbn [heap dict expires out dirty log]; try done; [by rewrite (comm_L (⊎))|].
    intros k. rewrite P4. destruct (m !! k) as [o|] eqn:Eo; [|done]. cbn [mbind option_bind]. symmetry. eapply kept_val; [exact O2|].
    apply elem_of_vals. by exists k.
  - unfold small. rewrite size_argroots, Hlen. cbn [length]. unfold zlen in *. lia.
Qed.
End Start.

Definition a_config : config :=
  {| values_shared := true; masterhost := false; repl_slave_ro := true; loading := false; lua_caller := None; mstime := 1000000;
     readonly_client := false; client_master := false; cluster_enabled := false; cmd_name := "append"; module_type := [] |}.

(** A server with an empty database, on hash tables. *)
Abbreviation hash_st := (dbst (Dict.dict key oaddr) (Dict.dict key Z) (list Z)).
#[local] Instance key_dict : KeyDict (Dict.dict key oaddr) oaddr := HashKeyDict 1%positive (replicate 16 0) true.
#[local] Instance key_dict_laws : KeyDictLaws (Dict.dict key oaddr) oaddr := HashKeyDictLaws 1%positive (replicate 16 0) true.
#[local] Instance expire_dict : KeyDict (Dict.dict key Z) Z := HashKeyDict 0 (replicate 16 0) true.
#[local] Instance expire_dict_laws : KeyDictLaws (Dict.dict key Z) Z := HashKeyDictLaws 0 (replicate 16 0) true.

Lemma a_server : exists (si : Z -> oaddr) (s : hash_st), rep si true s empty_keyspace ∅.
Proof.
  destruct own_created as (h & tbl & _ & Hown). exists (integer_at tbl), (start h _dictInit _dictInit []).
  apply start_rep; [exact Hown|apply init_repr|apply init_repr|by split_and!].
Qed.

(** APPEND of a new key. *)
Lemma string_commands_refine_witness : exists (si : Z -> oaddr) (s s' : hash_st),
  (run a_config si (replicate 128 0) Append ;; free_argv) s = Some (tt, s') /\ out s' = bytes_of ":2" ++ sh_crlf /\ argv s' = [].
Proof.
  destruct a_server as (si & s & Hs).
  destruct (string_commands_refine a_config si (replicate 128 0) true Append (receive [bytes_of "append"; bytes_of "k"; bytes_of "ab"] s) empty_keyspace
    (bytes_of "append") [bytes_of "k"; bytes_of "ab"]) as (s' & E1 & [m Hrep] & Ha).
  { apply receive_ready; [exact Hs|by repeat constructor|done..]. }
  exists si, (receive [bytes_of "append"; bytes_of "k"; bytes_of "ab"] s), s'. split_and!; [exact E1| |exact Ha].
  destruct (rp_out _ _ _ _ _ _ Hrep) as [Ho _]. exact Ho.
Defined.
