(* ===== verification/TSession.v ===== *)
(** * Sessions (server.c, object.c, db.c, t_string.c)

    A server that executes requests one after the other, with the clock and the
    configuration of each, and sends its replies from time to time.  Its states
    are well typed: every object is of the form its encoding asks for and is
    referenced exactly as often as its count says, nothing is lost, and every time
    to live is that of a key; the next request runs to its end. *)
From Stdlib Require Import ZArith Lia String.
From stdpp Require Import base numbers list option gmap gmultiset.
From S2P Require Import Prelude UtilNum Siphash Dict DictRefine Object ObjectHeap Reply Keyspace Db DbSpec TString TStringRules TStringSpec TStringCorrect.

Section Session.
Context {D E : Type} `{KeyDictLaws D oaddr} `{KeyDictLaws E Z} (stack : list Z) (Hstack : zlen stack = 128).
Abbreviation st := (dbst D E (list Z)).
Implicit Types (s : st) (cmd : command) (args : list (list Z)).

Record request := { rq_config : config; rq_command : command; rq_name : list Z; rq_args : list (list Z) }.

(** The request comes from the client, and there is room for what it may add: one
    that SETRANGE asks for an offset close to 2^63 is left out. *)
Record request_ok s (q : request) : Prop := {
  ro_args : Forall (fun b => zlen b < 2 ^ 31) (rq_name q :: rq_args q);
  ro_arity : arity_ok (rq_command q) (zlen (rq_name q :: rq_args q)) = true;
  ro_offset : offset_ok (rq_command q) (rq_args q);
  ro_keys : kd_size (dict s) + 2 * zlen (rq_args q) + 3 < 2 ^ 31 - 2;
  ro_out : zlen (out s) + 2 ^ 32 * (zlen (rq_args q) + 2) < 2 ^ 44;
  ro_name : zlen (bytes_of (cmd_name (rq_config q))) < 2 ^ 31 /\ zlen (module_type (rq_config q)) < 2 ^ 31
}.

(** The execution of a request. *)
Definition execute (si : Z -> oaddr) (q : request) s : option (unit * st) :=
  (run (rq_config q) si stack (rq_command q) ;; free_argv) (receive (rq_name q :: rq_args q) s).

(** The replies are on their way. *)
Definition flushed s : st :=
  {| heap := heap s; dict := dict s; expires := expires s; out := []; argv := argv s; dirty := dirty s; log := log s;
     stat_keyspace_hits := stat_keyspace_hits s; stat_keyspace_misses := stat_keyspace_misses s; stat_expiredkeys := stat_expiredkeys s |}.

(** The states of a server, from one that has just created its shared objects. *)
Inductive reachable (si : Z -> oaddr) : st -> Prop :=
| reach_start h tbl d e : createSharedIntegers ∅ = Some (h, tbl) -> si = integer_at tbl -> kd_repr d (∅ : gmap key oaddr) -> kd_repr e (∅ : gmap key Z) ->
    reachable si (start h d e [])
| reach_request s s' q : reachable si s -> request_ok s q -> execute si q s = Some (tt, s') -> reachable si s'
| reach_flushed s : reachable si s -> reachable si (flushed s).

Record well_typed (si : Z -> oaddr) s : Prop := {
  wt_object o ob : heap s !! o = Some ob -> data_ok (enc ob);
  wt_shared v : 0 <= v < OBJ_SHARED_INTEGERS -> heap s !! si v = Some {| refcount := OBJ_SHARED_REFCOUNT; enc := OInt v |};
  wt_keys : exists m e, kd_repr (dict s) m /\ kd_repr (expires s) e /\
    (forall k o, m !! k = Some o -> is_Some (heap s !! o)) /\
    (forall o ob, heap s !! o = Some ob -> is_shared si o \/ (refcount ob = Z.of_nat (multiplicity o (vals m)) /\ 0 < refcount ob < OBJ_SHARED_REFCOUNT)) /\
    (forall k, is_Some (e !! k) -> is_Some (m !! k));
  wt_argv : argv s = []
}.

Lemma rep_typed si s A : rep si true s A ∅ -> argv s = [] -> well_typed si s.
Proof.
  intros [m [P1 P2 P3 P4 P5 P6 P7 P8]] Ha. rewrite gmultiset_disj_union_right_id in P3. split.
  - intros o ob. apply (own_data _ _ _ P3).
  - apply P3.
  - exists m, (a_ex A). split_and!; [done|done| |apply (own_count _ _ _ P3)|done]. intros k o Hk. apply (own_dom _ _ _ P3), elem_of_vals. eauto.
  - done.
Qed.

Lemma request_ready si s A q : rep si true s A ∅ -> request_ok s q -> ready (rq_config q) si stack true (rq_command q) (receive (rq_name q :: rq_args q) s) A (rq_name q) (rq_args q).
Proof.
  intros Hr [R1 R2 R3 R4 R5 R6]. apply receive_ready; try done.
  - destruct Hr as [m Hr]. rewrite (kd_size_spec _ _ (rp_dict _ _ _ _ _ _ Hr)), (rep_size _ _ _ _ _ _ Hr) in R4. done.
  - destruct Hr as [m Hr]. destruct (rp_out _ _ _ _ _ _ Hr) as [Ho _]. cbn in Ho. unfold room. by rewrite <- Ho.
Qed.

Lemma reachable_rep si s : reachable si s -> exists A, rep si true s A ∅ /\ argv s = [].
Proof.
  induction 1 as [h tbl d e E1 -> Hd He|s s' q _ [A [Hr Ha]] Hq Ex|s _ [A [Hr Ha]]].
  - exists empty_keyspace. split; [|done]. apply start_rep; [|done|done|by split_and!]. destruct own_created as (h' & tbl' & E2 & Hown). congruence.
  - destruct (run_refines _ _ _ _ _ _ _ _ _ (request_ready si s A q Hr Hq)) as (s1 & E1 & Hr1 & Ha1). unfold execute in Ex. rewrite E1 in Ex. injection Ex as <-. by eexists.
  - exists {| a_kv := a_kv A; a_ex := a_ex A; a_out := []; a_dirty := a_dirty A; a_log := a_log A |}. split; [|done].
    destruct Hr as [m []]. exists m. split; try done.
Qed.

(** [C10] A server executes every request whose SETRANGE offset, if it has one, is
    not so close to 2^63 that the end of the string is no [long long] ([offset_ok],
    part of [request_ok]), and never loses or confuses an object: in every state
    that such requests can lead to, each object has the form of its encoding,
    the shared integers are intact, every other object is the value of as many keys
    as its reference count says, and of one at least, and times to live are those
    of keys; and the next such request is executed to its end, into such a
    state. *)
Theorem sessions_well_typed si s (Hs : reachable si s) : well_typed si s /\ (forall q, request_ok s q -> exists s', execute si q s = Some (tt, s') /\ well_typed si s').
Proof.
  destruct (reachable_rep si s Hs) as (A & Hr & Ha). split; [by eapply rep_typed|]. intros q Hq.
  destruct (run_refines _ _ _ _ _ _ _ _ _ (request_ready si s A q Hr Hq)) as (s' & E1 & Hr' & Ha'). exists s'. split; [exact E1|by eapply rep_typed].
Qed.
End Session.

(** ** A session on hash tables *)

#[local] Instance key_dict : KeyDict (Dict.dict key oaddr) oaddr := HashKeyDict 1%positive (replicate 16 0) true.
#[local] Instance key_dict_laws : KeyDictLaws (Dict.dict key oaddr) oaddr := HashKeyDictLaws 1%positive (replicate 16 0) true.
#[local] Instance expire_dict : KeyDict (Dict.dict key Z) Z := HashKeyDict 0 (replicate 16 0) true.
#[local] Instance expire_dict_laws : KeyDictLaws (Dict.dict key Z) Z := HashKeyDictLaws 0 (replicate 16 0) true.

(** SET k 1. *)
Definition a_request (cmd : command) (name : string) (args : list (list Z)) : request :=
  {| rq_config := a_config; rq_command := cmd; rq_name := bytes_of name; rq_args := args |}.

Lemma a_request_ok (h : gmap oaddr robj) : request_ok (start h _dictInit _dictInit [] : hash_st) (a_request Set_ "set" [bytes_of "k"; bytes_of "1"]).
Proof. split; [by repeat constructor|by vm_compute..|by vm_compute]. Qed.

Lemma sessions_well_typed_witness : exists (si : Z -> oaddr) (s s1 : hash_st), reachable (replicate 128 0) si s /\
  execute (replicate 128 0) si (a_request Set_ "set" [bytes_of "k"; bytes_of "1"]) s = Some (tt, s1) /\ well_typed si s1.
Proof.
  destruct own_created as (h & tbl & E1 & _).
  assert (Hs : reachable (replicate 128 0) (integer_at tbl) (start h _dictInit _dictInit [] : hash_st)) by exact (reach_start _ _ h tbl _ _ E1 eq_refl (init_repr _) (init_repr _)).
  destruct (proj2 (sessions_well_typed (replicate 128 0) eq_refl (integer_at tbl) _ Hs) _ (a_request_ok h)) as (s1 & E2 & W2).
  exists (integer_at tbl), (start h _dictInit _dictInit [] : hash_st), s1. split; [exact Hs|]. split; [exact E2|exact W2].
Defined.
