(* ===== verification/TStringEffects.v ===== *)
(** * What follows from the effects of the string commands

    On the abstract keyspace of [TStringCorrect]: a command leaves the other keys
    alone; on a master, a key that has expired is the same as one that is
    missing; a value set with a time to live is there until then. *)
From Stdlib Require Import ZArith Lia String Morphisms.
From stdpp Require Import base numbers list option gmap.
From S2P Require Import Prelude UtilNum Sds Object ObjectHeap Reply Keyspace Db DbSpec TString TStringRules TStringSpec TStringWrites TStringMany TKeys TKeysSpec TStringCorrect.

Section Effects.
Context (cfg : config) (acc : bool).
Implicit Types (A B : astate) (k x : key) (v : val) (b : list Z).

(** ** The other keys *)

Definition untouched x A B : Prop := a_kv B !! x = a_kv A !! x /\ a_ex B !! x = a_ex A !! x.

#[local] Instance untouched_trans x : PreOrder (untouched x).
Proof. split; [by intros A|]. intros A B B' [E1 E2] [E3 E4]. split; congruence. Qed.

Lemma un_say x msg A : untouched x A (a_say acc msg A). Proof. done. Qed.
Lemma un_tell x evs A : untouched x A (a_tell evs A). Proof. done. Qed.
Lemma un_change x n A : untouched x A (a_change n A). Proof. done. Qed.

Lemma un_expire x k A : k <> x -> untouched x A (a_expire cfg k A).
Proof. intros Hne. unfold untouched, a_expire, a_delete. destruct (_ && _); [|done]. cbn [a_kv a_ex a_tell a_map]. by rewrite !lookup_delete_ne. Qed.

Lemma un_put x k v A : k <> x -> untouched x A (a_put cfg k v A).
Proof. intros Hne. unfold untouched, a_put. cbn [a_kv a_ex a_tell a_map]. by rewrite lookup_insert_ne. Qed.

Lemma un_set x k v A : k <> x -> untouched x A (a_set cfg k v A).
Proof.
  intros Hne. unfold a_set. transitivity (a_put cfg k v (a_expire cfg k A)); [transitivity (a_expire cfg k A); [by apply un_expire|by apply un_put]|].
  unfold untouched. cbn [a_kv a_ex a_tell a_map]. by rewrite lookup_delete_ne.
Qed.

Lemma un_setExpire x k w A : k <> x -> untouched x A (a_setExpire cfg k w A).
Proof. intros Hne. unfold untouched, a_setExpire. cbn [a_kv a_ex a_tell a_map]. by rewrite lookup_insert_ne. Qed.

Lemma un_store x k b ttl A : k <> x -> untouched x A (s_store cfg k b ttl A).
Proof.
  intros Hne. unfold s_store. destruct ttl as [t|].
  - transitivity (a_change 1 (a_set cfg k (VStr b) A)); [by apply un_set|]. by apply (un_setExpire x k).
  - by apply un_set.
Qed.

Lemma un_setgeneric x nx xx k b e u ok abort A : k <> x -> untouched x A (s_setgeneric cfg acc nx xx k b e u ok abort A).
Proof.
  intros Hne. unfold s_setgeneric. destruct (ttl_of cfg e u) as [err|ttl]; [done|]. destruct (_ || _); [by apply un_expire|by apply un_store].
Qed.

Lemma un_change_of x name k b A : k <> x -> untouched x A (s_change cfg name k b A).
Proof. intros Hne. by apply un_put. Qed.

Lemma un_fold {T} x (f : astate -> T -> astate) (l : list T) (P : T -> Prop) A : (forall A t, P t -> untouched x A (f A t)) -> Forall P l ->
  untouched x A (fold_left f l A).
Proof.
  intros Hf Hl. revert A. induction Hl as [|t l Ht _ IH]; intros A; [done|]. cbn [fold_left]. transitivity (f A t); [by apply Hf|apply IH].
Qed.

Lemma pairs_keys x bs : x ∉ bs -> Forall (fun p : key * list Z => fst p <> x) (pairs bs).
Proof.
  remember (length bs) as n eqn:En. revert bs En. induction n as [n IH] using (well_founded_induction lt_wf). intros bs -> Hx.
  destruct bs as [|k [|b bs]]; [constructor..|]. rewrite !not_elem_of_cons in Hx. cbn [pairs]. destruct Hx as (Hk & _ & Hx). constructor; [cbn [fst]; congruence|].
  apply (IH (length bs)); [cbn; lia|done|]. exact Hx.
Qed.

Lemma un_mset x nx bs A : x ∉ bs -> untouched x A (s_mset cfg acc nx bs A).
Proof.
  intros Hx. pose proof (pairs_keys x bs Hx) as Hp. unfold s_mset. destruct (Z.even (zlen bs)); [|done]. cbn zeta.
  set (A1 := if nx then _ else A). assert (H1 : untouched x A A1).
  { unfold A1. destruct nx; [|done]. eapply un_fold; [|exact Hp]. intros B p Hne. by apply un_expire. }
  destruct (_ && _); [exact H1|]. transitivity A1; [exact H1|]. apply (un_fold x _ _ _ A1) with (2 := Hp). intros B p Hne. by apply un_set.
Qed.

Lemma un_mget x ks A : x ∉ ks -> untouched x A (s_mget cfg acc ks A).
Proof.
  intros Hx. unfold s_mget. transitivity (a_say acc (r_mbulk (zlen ks)) A); [done|].
  apply (un_fold x _ ks (fun k => k <> x) (a_say acc (r_mbulk (zlen ks)) A)); [intros B k Hk; by apply (un_expire x k B)|].
  apply Forall_lookup. intros i k Hi ->. apply Hx. by eapply list_elem_of_lookup_2.
Qed.

(** *** The commands on keys *)

Lemma un_delete x k A : k <> x -> untouched x A (a_delete cfg k A).
Proof. intros Hne. unfold untouched, a_delete. cbn [a_kv a_ex a_tell a_map]. by rewrite !lookup_delete_ne. Qed.

(** A loop over keys with a count. *)
Lemma un_fold_count x (f : Z * astate -> key -> Z * astate) ks (r : Z * astate) : (forall r k, k <> x -> untouched x (snd r) (snd (f r k))) -> x ∉ ks ->
  untouched x (snd r) (snd (fold_left f ks r)).
Proof.
  intros Hf. revert r. induction ks as [|k ks IH]; intros r Hx; [done|]. apply not_elem_of_cons in Hx as [Hk Hx]. cbn [fold_left].
  transitivity (snd (f r k)); [by apply Hf; congruence|by apply IH].
Qed.

Lemma un_del x ks A : x ∉ ks -> untouched x A (s_del cfg acc ks A).
Proof.
  intros Hx. unfold s_del. apply (un_fold_count x (s_del1 cfg) ks (0, A)); [|done]. intros [n B] k Hne. unfold s_del1. cbn [fst snd].
  destruct (has_key k (a_expire cfg k B)); cbn [snd]; [|by apply un_expire]. transitivity (a_expire cfg k B); [by apply un_expire|]. by apply (un_delete x k).
Qed.

Lemma un_exists x ks A : x ∉ ks -> untouched x A (s_exists cfg acc ks A).
Proof. intros Hx. unfold s_exists. apply (un_fold_count x (s_count1 cfg) ks (0, A)); [|done]. intros [n B] k Hne. by apply un_expire. Qed.

Lemma un_rename x nx k1 k2 A : k1 <> x -> k2 <> x -> untouched x A (s_rename cfg acc nx k1 k2 A).
Proof.
  intros H1 H2. unfold s_rename. cbn zeta. set (A1 := a_expire cfg k1 A). assert (U1 : untouched x A A1) by by apply un_expire.
  destruct (a_kv A1 !! k1) as [v|]; [|exact U1]. destruct (decide (k1 = k2)); [exact U1|]. set (A2 := a_expire cfg k2 A1). assert (U2 : untouched x A A2) by (transitivity A1; [done|by apply un_expire]).
  destruct (_ && _); [exact U2|]. set (A3 := if has_key k2 A2 then _ else _). assert (U3 : untouched x A A3) by (unfold A3; destruct (has_key k2 A2); [transitivity A2; [done|by apply un_delete]|done]).
  transitivity (a_put cfg k2 v A3); [transitivity A3; [done|by apply un_put]|]. set (A4 := a_put cfg k2 v A3). set (A5 := if default _ _ =? -1 then _ else _).
  transitivity A5; [unfold A5; destruct (_ =? -1); [done|by apply un_setExpire]|]. by apply (un_delete x k1).
Qed.

Lemma un_expire_at x base u k e A : k <> x -> untouched x A (s_expire cfg acc base u k e A).
Proof.
  intros Hne. unfold s_expire. destruct (num_of e) as [n|]; [|done]. cbn zeta. transitivity (a_expire cfg k A); [by apply un_expire|].
  destruct (has_key k _); [|done]. destruct (_ && negb (masterhost cfg)); [by apply (un_delete x k)|by apply (un_setExpire x k)].
Qed.

Lemma un_persist x k A : k <> x -> untouched x A (s_persist cfg acc k A).
Proof.
  intros Hne. unfold s_persist. cbn zeta. transitivity (a_expire cfg k A); [by apply un_expire|]. destruct (_ && _); [|done].
  unfold untouched. cbn [a_kv a_ex a_say a_change a_map]. by rewrite lookup_delete_ne.
Qed.

Ltac un_step :=
  match goal with
  | |- untouched _ _ (a_say _ _ ?B) => refine (_ : untouched _ _ B)
  | |- untouched _ _ (a_tell _ ?B) => refine (_ : untouched _ _ B)
  | |- untouched _ _ (a_change _ ?B) => refine (_ : untouched _ _ B)
  | |- untouched ?x ?A ?A => reflexivity
  | |- untouched _ _ (s_change _ _ _ _ ?B) => transitivity B; [|by apply un_change_of]
  | |- untouched _ _ (a_set _ _ _ ?B) => transitivity B; [|by apply un_set]
  | |- untouched _ _ (a_expire _ _ ?B) => transitivity B; [|by apply un_expire]
  | |- untouched _ _ (s_setgeneric _ _ _ _ _ _ _ _ _ _ _) => by apply un_setgeneric
  | |- untouched _ _ (s_expire _ _ _ _ _ _ _) => by apply un_expire_at
  | |- untouched _ _ (s_persist _ _ _ _) => by apply un_persist
  | |- untouched _ _ (match ?y with _ => _ end) => destruct y
  end.

(** A command leaves the keys that are not among its arguments
    alone: their values and their times to live. *)
Lemma effect_frame c args A x : x ∉ args -> a_kv (effect cfg acc c args A) !! x = a_kv A !! x /\ a_ex (effect cfg acc c args A) !! x = a_ex A !! x.
Proof.
  intros Hx. change (untouched x A (effect cfg acc c args A)).
  destruct c; try (by apply un_mset); try (by apply un_mget); try (by apply un_del); try (by apply un_exists).
  all: destruct args as [|k [|b [|e [|? ?]]]]; try done; rewrite !not_elem_of_cons in Hx; assert (Hne : k <> x) by (by (apply not_eq_sym; apply Hx)).
  all: try (apply un_rename; [done|by (apply not_eq_sym; apply Hx)]); clear Hx.
  all: unfold effect, s_get, s_set, s_append, s_strlen, s_setrange, s_getrange, s_incrby, s_incrdecr, s_getset, s_type, s_ttl; cbn zeta; repeat un_step.
Qed.

(** ** What a client of a master sees *)

(** The value and the time to live of a key that has not expired. *)
Definition seen k A : option val * option Z := if a_expired cfg k A then (None, None) else (a_kv A !! k, a_ex A !! k).

(** The same keys, replies and count of changes. *)
Definition same_view A B : Prop := a_out A = a_out B /\ a_dirty A = a_dirty B /\ forall k, seen k A = seen k B.

#[global] Instance same_view_equiv : Equivalence same_view.
Proof.
  split; [by intros A|by intros A B (E1 & E2 & E3); split_and!|].
  intros A B B' (E1 & E2 & E3) (E4 & E5 & E6). split_and!; [congruence..|]. intros k. by rewrite E3.
Qed.

Lemma seen_untouched x A B : untouched x A B -> seen x B = seen x A.
Proof. intros [E1 E2]. unfold seen, a_expired. by rewrite E1, E2. Qed.

Context (Hmaster : masterhost cfg = false).

Lemma read_seen k A : a_read cfg k A = fst (seen k A).
Proof. unfold a_read, seen. rewrite Hmaster. cbn [negb orb]. rewrite andb_true_r. by destruct (a_expired cfg k A). Qed.

Lemma expire_seen k A : a_kv (a_expire cfg k A) !! k = fst (seen k A) /\ a_ex (a_expire cfg k A) !! k = snd (seen k A) /\ a_expired cfg k (a_expire cfg k A) = false.
Proof.
  rewrite expired_expire, Hmaster, andb_false_r. unfold a_expire, seen. rewrite Hmaster, andb_true_r. destruct (a_expired cfg k A); [|done].
  unfold a_delete. cbn [a_kv a_ex a_tell a_map]. by rewrite !lookup_delete_eq.
Qed.

Lemma seen_expire k x A : seen x (a_expire cfg k A) = seen x A.
Proof.
  destruct (decide (k = x)) as [->|Hne]; [|by apply seen_untouched, un_expire]. destruct (expire_seen x A) as (E1 & E2 & E3).
  unfold seen at 1. rewrite E3, E1, E2. by destruct (seen x A).
Qed.

#[local] Instance say_proper msg : Proper (same_view ==> same_view) (a_say acc msg).
Proof. intros A B (E1 & E2 & E3). split_and!; [cbn; by rewrite E1|done|exact E3]. Qed.

#[local] Instance tell_proper evs : Proper (same_view ==> same_view) (a_tell evs).
Proof. by intros A B (E1 & E2 & E3). Qed.

#[local] Instance change_proper n : Proper (same_view ==> same_view) (a_change n).
Proof. intros A B (E1 & E2 & E3). split_and!; [done|cbn; by rewrite E2|exact E3]. Qed.

Lemma expire_dirty k A : a_dirty (a_expire cfg k A) = a_dirty A.
Proof. unfold a_expire, a_delete. by destruct (_ && _). Qed.

#[local] Instance expire_proper k : Proper (same_view ==> same_view) (a_expire cfg k).
Proof. intros A B (E1 & E2 & E3). split_and!; [by rewrite !out_expire|by rewrite !expire_dirty|]. intros x. by rewrite !seen_expire. Qed.

(** A new value, when the key has just been looked up. *)
Lemma put_view k v A B : same_view A B -> same_view (a_put cfg k v (a_expire cfg k A)) (a_put cfg k v (a_expire cfg k B)).
Proof.
  intros (E1 & E2 & E3). split_and!; [cbn; by rewrite !out_expire|cbn; by rewrite !expire_dirty|]. intros x.
  destruct (decide (k = x)) as [->|Hne].
  - destruct (expire_seen x A) as (_ & X1 & X2), (expire_seen x B) as (_ & Y1 & Y2). unfold seen, a_expired, a_put in *. cbn [a_kv a_ex a_tell a_map].
    rewrite X2, Y2, !lookup_insert_eq, X1, Y1. by rewrite E3.
  - rewrite !(seen_untouched x _ _ (un_put x k v _ Hne)), !seen_expire. done.
Qed.

#[local] Instance set_proper k v : Proper (same_view ==> same_view) (a_set cfg k v).
Proof.
  intros A B (E1 & E2 & E3). split_and!; [by rewrite !out_set|cbn; by rewrite !expire_dirty|]. intros x.
  destruct (decide (k = x)) as [->|Hne]; [|by rewrite !(seen_untouched x _ _ (un_set x k v _ Hne))].
  unfold seen, a_expired, a_set, a_put. cbn [a_kv a_ex a_tell a_map]. by rewrite !lookup_delete_eq, !lookup_insert_eq.
Qed.

#[local] Instance store_proper k b ttl : Proper (same_view ==> same_view) (s_store cfg k b ttl).
Proof.
  intros A B (E1 & E2 & E3). pose proof (out_set cfg k (VStr b)) as Ho.
  assert (Hd : forall C, a_dirty (a_set cfg k (VStr b) C) = a_dirty C) by (intros C; apply expire_dirty).
  split_and!; [unfold s_store; destruct ttl; cbn; by rewrite !out_expire|unfold s_store; destruct ttl; cbn; by rewrite !expire_dirty, E2|]. intros x.
  destruct (decide (k = x)) as [->|Hne]; [|by rewrite !(seen_untouched x _ _ (un_store x k b ttl _ Hne))].
  unfold s_store, seen, a_expired, a_set, a_put, a_setExpire. destruct ttl; cbn [a_kv a_ex a_tell a_map a_change];
    by rewrite !lookup_insert_eq, ?lookup_delete_eq.
Qed.

#[local] Instance setgeneric_proper nx xx k b e u ok abort : Proper (same_view ==> same_view) (s_setgeneric cfg acc nx xx k b e u ok abort).
Proof.
  intros A B HAB. pose proof HAB as (_ & _ & E3). unfold s_setgeneric. destruct (ttl_of cfg e u) as [err|ttl]; [by rewrite HAB|].
  rewrite (proj1 (expire_seen k A)), (proj1 (expire_seen k B)), E3. destruct (_ || _); by rewrite HAB.
Qed.

Lemma fold_view {T} (f : astate -> T -> astate) (l : list T) : (forall t, Proper (same_view ==> same_view) (fun A => f A t)) ->
  Proper (same_view ==> same_view) (fold_left f l).
Proof. intros Hf. induction l as [|t l IH]; intros A B HAB; [done|]. cbn [fold_left]. apply IH. by apply Hf. Qed.

Lemma expire_all_settled kvs p A : p ∈ kvs -> settled cfg (fst p) (fold_left (fun A (p : key * list Z) => a_expire cfg (fst p) A) kvs A).
Proof.
  assert (Hk : forall kvs A, settled cfg (fst p) A -> settled cfg (fst p) (fold_left (fun A (p : key * list Z) => a_expire cfg (fst p) A) kvs A)).
  { clear. intros kvs. induction kvs as [|q kvs IH]; intros A Hs; [done|]. cbn [fold_left]. apply IH. by apply settled_step. }
  revert A. induction kvs as [|q kvs IH]; intros A Hp; [by apply not_elem_of_nil in Hp|]. cbn [fold_left].
  apply elem_of_cons in Hp as [->|Hp]; [apply Hk, settled_expire|by apply IH].
Qed.

#[local] Instance mset_proper nx bs : Proper (same_view ==> same_view) (s_mset cfg acc nx bs).
Proof.
  intros A B HAB. unfold s_mset. destruct (Z.even (zlen bs)); [|by rewrite HAB]. cbn zeta. set (kvs := pairs bs).
  set (A1 := if nx then _ else A). set (B1 := if nx then _ else B).
  assert (H1 : same_view A1 B1).
  { unfold A1, B1. destruct nx; [|done]. apply fold_view; [|done]. intros p A' B' HAB'. by rewrite HAB'. }
  assert (Ht : nx && existsb (fun p => bool_decide (is_Some (a_kv A1 !! (fst p : key)))) kvs = nx && existsb (fun p => bool_decide (is_Some (a_kv B1 !! (fst p : key)))) kvs).
  { destruct nx; [|done]. cbn [andb]. assert (Hl : forall l, (forall p, p ∈ l -> p ∈ kvs) -> existsb (fun p => bool_decide (is_Some (a_kv A1 !! (fst p : key)))) l =
      existsb (fun p => bool_decide (is_Some (a_kv B1 !! (fst p : key)))) l); [|by apply Hl].
    intros l. induction l as [|p l IH]; intros Hl; [done|]. cbn [existsb]. rewrite IH by (intros q Hq; apply Hl; by apply elem_of_cons; right). f_equal.
    assert (Hp : p ∈ kvs) by (apply Hl, elem_of_cons; by left). pose proof (expire_all_settled kvs p A Hp) as SA. pose proof (expire_all_settled kvs p B Hp) as SB.
    fold A1 in SA. fold B1 in SB. unfold settled in SA, SB. rewrite Hmaster, andb_true_r in SA, SB.
    destruct H1 as (_ & _ & E3). specialize (E3 (fst p)). unfold seen in E3. rewrite SA, SB in E3. apply (f_equal fst) in E3. cbn [fst] in E3. by rewrite E3. }
  rewrite Ht. match goal with |- same_view (if ?c then _ else _) (if ?d then _ else _) => change d with c; destruct c end; [by rewrite H1|]. apply say_proper, change_proper. apply fold_view; [|done]. intros p A' B' HAB'. by rewrite HAB'.
Qed.

Lemma change_view name k b A B : same_view A B -> same_view (s_change cfg name k b (a_expire cfg k A)) (s_change cfg name k b (a_expire cfg k B)).
Proof. intros HAB. by apply change_proper, tell_proper, put_view. Qed.

Lemma mget_view ks A B : same_view A B -> same_view (s_mget cfg acc ks A) (s_mget cfg acc ks B).
Proof.
  intros HAB. unfold s_mget. apply fold_view; [|by rewrite HAB]. intros k A' B' HAB'. rewrite !read_seen. pose proof HAB' as (_ & _ & E3).
  rewrite E3. by rewrite HAB'.
Qed.

(** *** The commands on keys *)

#[local] Instance delete_proper k : Proper (same_view ==> same_view) (a_delete cfg k).
Proof.
  intros A B (E1 & E2 & E3). split_and!; [done|done|]. intros x. destruct (decide (k = x)) as [->|Hne]; [|by rewrite !(seen_untouched x _ _ (un_delete x k _ Hne))].
  unfold seen, a_expired, a_delete. cbn [a_kv a_ex a_tell a_map]. by rewrite !lookup_delete_eq.
Qed.

Lemma has_key_seen k A : has_key k (a_expire cfg k A) = bool_decide (is_Some (fst (seen k A))).
Proof. unfold has_key. by rewrite (proj1 (expire_seen k A)). Qed.

(** A new value for a key that has not expired. *)
Lemma put_fresh k v A B : same_view A B -> a_expired cfg k A = false -> a_expired cfg k B = false -> same_view (a_put cfg k v A) (a_put cfg k v B).
Proof.
  intros (E1 & E2 & E3) HA HB. split_and!; [done|done|]. intros x. destruct (decide (k = x)) as [->|Hne]; [|by rewrite !(seen_untouched x _ _ (un_put x k v _ Hne))].
  specialize (E3 x). unfold seen in E3 |- *. rewrite HA, HB in E3. injection E3 as E3 E4. unfold a_expired, a_put in *. cbn [a_kv a_ex a_tell a_map].
  by rewrite HA, HB, !lookup_insert_eq, E4.
Qed.

Lemma setExpire_view k w A B : same_view A B -> a_kv A !! k = a_kv B !! k -> same_view (a_setExpire cfg k w A) (a_setExpire cfg k w B).
Proof.
  intros (E1 & E2 & E3) Hkv. split_and!; [done|done|]. intros x. destruct (decide (k = x)) as [->|Hne]; [|by rewrite !(seen_untouched x _ _ (un_setExpire x k w _ Hne))].
  unfold seen, a_expired, a_setExpire. cbn [a_kv a_ex a_tell a_map]. by rewrite !lookup_insert_eq, Hkv.
Qed.

Lemma count_view (f : Z * astate -> key -> Z * astate) ks n A B :
  (forall n k A B, same_view A B -> fst (f (n, A) k) = fst (f (n, B) k) /\ same_view (snd (f (n, A) k)) (snd (f (n, B) k))) -> same_view A B ->
  fst (fold_left f ks (n, A)) = fst (fold_left f ks (n, B)) /\ same_view (snd (fold_left f ks (n, A))) (snd (fold_left f ks (n, B))).
Proof.
  intros Hf. revert n A B. induction ks as [|k ks IH]; intros n A B HAB; [done|]. cbn [fold_left]. destruct (Hf n k A B HAB) as [E1 E2].
  destruct (f (n, A) k) as [n1 A1], (f (n, B) k) as [n2 B1]. cbn [fst snd] in E1, E2. subst n2. by apply IH.
Qed.

Lemma del_view ks A B : same_view A B -> same_view (s_del cfg acc ks A) (s_del cfg acc ks B).
Proof.
  intros HAB. unfold s_del. destruct (count_view (s_del1 cfg) ks 0 A B) as [E1 E2]; [|done|by rewrite E1; apply say_proper].
  clear A B HAB. intros n k A B HAB. unfold s_del1. cbn [fst snd]. rewrite !has_key_seen. pose proof HAB as (_ & _ & E3). rewrite E3.
  destruct (bool_decide _); cbn [fst snd]; (split; [done|]); by rewrite HAB.
Qed.

Lemma exists_view ks A B : same_view A B -> same_view (s_exists cfg acc ks A) (s_exists cfg acc ks B).
Proof.
  intros HAB. unfold s_exists. destruct (count_view (s_count1 cfg) ks 0 A B) as [E1 E2]; [|done|by rewrite E1; apply say_proper].
  clear A B HAB. intros n k A B HAB. unfold s_count1. cbn [fst snd]. rewrite !read_seen. pose proof HAB as (_ & _ & E3). rewrite E3. split; [done|by rewrite HAB].
Qed.

Lemma rename_view nx k1 k2 A B : same_view A B -> same_view (s_rename cfg acc nx k1 k2 A) (s_rename cfg acc nx k1 k2 B).
Proof.
  intros HAB. unfold s_rename. cbn zeta. destruct (expire_seen k1 A) as (-> & -> & _), (expire_seen k1 B) as (-> & -> & _). pose proof HAB as (_ & _ & E3). rewrite E3.
  destruct (fst (seen k1 B)) as [v|]; [|by rewrite HAB]. destruct (decide (k1 = k2)); [by rewrite HAB|].
  rewrite !has_key_seen, !seen_expire, E3. set (w := default (-1) (snd (seen k1 B))). set (A2 := a_expire cfg k2 (a_expire cfg k1 A)). set (B2 := a_expire cfg k2 (a_expire cfg k1 B)).
  assert (H2 : same_view A2 B2) by (unfold A2, B2; by rewrite HAB). destruct (nx && _); [by rewrite H2|]. cbn [negb].
  set (there := bool_decide _). set (A3 := if there then a_delete cfg k2 A2 else A2). set (B3 := if there then a_delete cfg k2 B2 else B2).
  assert (H3 : same_view A3 B3) by (unfold A3, B3; destruct there; by rewrite H2).
  assert (Hf : forall C C', C = (if there then a_delete cfg k2 (a_expire cfg k2 C') else a_expire cfg k2 C') -> a_expired cfg k2 C = false).
  { intros C C' ->. destruct there; [|by apply expire_seen]. unfold a_expired, a_delete. cbn [a_ex a_tell a_map]. by rewrite lookup_delete_eq. }
  pose proof (put_fresh k2 v A3 B3 H3 (Hf _ _ eq_refl) (Hf _ _ eq_refl)) as H4.
  apply say_proper, change_proper, tell_proper, delete_proper. destruct (w =? -1); [done|]. apply setExpire_view; [done|].
  unfold a_put. cbn [a_kv a_tell a_map]. by rewrite !lookup_insert_eq.
Qed.

Lemma expire_at_view base u k e A B : same_view A B -> same_view (s_expire cfg acc base u k e A) (s_expire cfg acc base u k e B).
Proof.
  intros HAB. unfold s_expire. destruct (num_of e) as [n|]; [|by rewrite HAB]. cbn zeta. rewrite !has_key_seen. pose proof HAB as (_ & _ & E3). rewrite E3.
  destruct (bool_decide _); [|by rewrite HAB]. destruct (_ && negb (masterhost cfg)); [by rewrite HAB|].
  apply change_proper, tell_proper, say_proper, setExpire_view; [by rewrite HAB|]. by rewrite (proj1 (expire_seen k A)), (proj1 (expire_seen k B)), E3.
Qed.

Lemma ttl_view ms k A B : same_view A B -> same_view (s_ttl cfg acc ms k A) (s_ttl cfg acc ms k B).
Proof.
  intros HAB. unfold s_ttl. destruct (expire_seen k A) as (_ & -> & _), (expire_seen k B) as (_ & -> & _). rewrite !read_seen. pose proof HAB as (_ & _ & E3). rewrite E3.
  destruct (fst _); by rewrite HAB.
Qed.

Lemma persist_view k A B : same_view A B -> same_view (s_persist cfg acc k A) (s_persist cfg acc k B).
Proof.
  intros HAB. unfold s_persist. cbn zeta. destruct (expire_seen k A) as (XA & YA & _), (expire_seen k B) as (XB & YB & _). rewrite !has_key_seen, YA, YB. pose proof HAB as (_ & _ & E3). rewrite E3.
  destruct (_ && _); [|by rewrite HAB]. apply change_proper, say_proper. split_and!; [cbn; rewrite !out_expire; apply HAB|cbn; rewrite !expire_dirty; apply HAB|].
  intros x. destruct (decide (k = x)) as [->|Hne].
  - unfold seen at 1 2, a_expired. cbn [a_kv a_ex a_map]. by rewrite !lookup_delete_eq, XA, XB, E3.
  - specialize (E3 x). rewrite <- (seen_expire k x A), <- (seen_expire k x B) in E3. unfold seen, a_expired in *. cbn [a_kv a_ex a_map]. by rewrite !lookup_delete_ne.
Qed.

(** On a master, keys that have expired cannot be told from keys that are
    missing: commands on keyspaces that differ in them only have the same replies
    and leave the same keys. *)
Lemma effect_view c args A B : same_view A B -> same_view (effect cfg acc c args A) (effect cfg acc c args B).
Proof.
  intros HAB. pose proof HAB as (_ & _ & E3). destruct c; try (by apply mset_proper); try (by apply mget_view); try (by apply del_view); try (by apply exists_view).
  all: destruct args as [|k [|b [|e [|? ?]]]]; try done;
    try (by apply rename_view); try (by apply expire_at_view); try (by apply ttl_view); try (by apply persist_view);
    unfold effect, s_get, s_set, s_append, s_strlen, s_setrange, s_getrange, s_incrby, s_incrdecr, s_getset, s_type.
  all: cbn zeta; rewrite ?read_seen, ?(proj1 (expire_seen k A)), ?(proj1 (expire_seen k B)), ?E3.
  all: repeat match goal with |- same_view (match ?y with _ => _ end) _ => destruct y end;
    first [by rewrite HAB|by apply say_proper, change_view].
Qed.
End Effects.

(** ** Time to live *)

(** What [TTL] milliseconds an argument of SETEX or PSETEX means. *)
Definition milliseconds (u : time_unit) (n : Z) : Z := match u with UNIT_SECONDS => 1000 * n | UNIT_MILLISECONDS => n end.

(** SETEX and PSETEX on a master: a GET at a later time answers the value
    until the time to live is over, and nothing afterwards. *)
Lemma effect_setex cfg later acc k e b n (c : command) u A :
  masterhost later = false -> loading later = false -> lua_caller later = None -> 0 <= mstime cfg ->
  (c, u) = (Setex, UNIT_SECONDS) \/ (c, u) = (Psetex, UNIT_MILLISECONDS) ->
  num_of e = Some n -> 0 < n -> mstime cfg + milliseconds u n < 2 ^ 63 ->
  let A1 := effect cfg acc c [k; e; b] A in
  a_out A1 = say acc (a_out A) sh_ok /\
  a_out (effect later acc Get [k] A1) = say acc (a_out A1) (if mstime later <=? mstime cfg + milliseconds u n then r_bulk b else sh_nullbulk).
Proof.
  intros Hm Hld Hlua H0 Hc Hn Hpos Hmax A1. assert (Hms : 0 < milliseconds u n) by (destruct u; cbn; lia).
  assert (EA : A1 = a_say acc sh_ok (s_store cfg k b (Some (milliseconds u n)) A)).
  { unfold A1. assert (Ht : ttl_of cfg (Some e) u = inr (Some (milliseconds u n))).
    { unfold ttl_of. rewrite Hn, (proj2 (Z.leb_gt _ _)) by lia. destruct u; [|done]. cbn [milliseconds] in *. rewrite Z.mul_comm, swrap_small; [done|lia|unfold in_s; lia]. }
    destruct Hc as [[= -> ->]|[= -> ->]]; unfold effect, s_setgeneric; by rewrite Ht. }
  split.
  { rewrite EA. unfold s_store. cbn [a_out a_say a_tell a_setExpire a_map a_change]. by rewrite out_set. }
  cbn [effect]. unfold s_get. cbn [a_out a_say]. rewrite out_expire. f_equal.
  assert (Ekv : a_kv A1 !! k = Some (VStr b)) by (rewrite EA; unfold s_store; cbn [a_kv a_say a_tell a_setExpire a_map a_change]; apply set_there).
  assert (Eex : a_ex A1 !! k = Some (mstime cfg + milliseconds u n)).
  { rewrite EA. unfold s_store. cbn [a_ex a_say a_tell a_setExpire a_map a_change]. rewrite lookup_insert_eq. f_equal. apply swrap_small; [lia|]. unfold in_s. lia. }
  unfold a_read, a_expired, now. rewrite Ekv, Eex, Hm, Hld, Hlua. cbn [negb andb orb]. rewrite andb_true_r, (proj2 (Z.ltb_ge _ 0)) by lia. cbn [negb andb].
  destruct (Z.leb_spec (mstime later) (mstime cfg + milliseconds u n)); [rewrite (proj2 (Z.ltb_ge _ _)) by lia|rewrite (proj2 (Z.ltb_lt _ _)) by lia]; done.
Qed.

(** The multiplication of the seconds by 1000, and the sum with the clock, may
    overflow: the key is then stored with a negative time and never expires. *)
Lemma setex_overflow cfg later acc k b A : mstime cfg = 1700000000000 ->
  let A1 := effect cfg acc Setex [k; bytes_of "9223372036854775"; b] A in
  a_ex A1 !! k = Some (1700000000000 + 9223372036854775000 - 2 ^ 64) /\ a_expired later k A1 = false.
Proof.
  intros Ht A1. assert (Eex : a_ex A1 !! k = Some (1700000000000 + 9223372036854775000 - 2 ^ 64)).
  { unfold A1, effect, s_setgeneric. assert (E1 : ttl_of cfg (Some (bytes_of "9223372036854775")) UNIT_SECONDS = inr (Some 9223372036854775000)) by (by vm_compute).
    rewrite E1. cbn [andb orb]. unfold s_store. cbn [a_ex a_say a_tell a_setExpire a_map a_change]. rewrite lookup_insert_eq, Ht. by vm_compute. }
  split; [done|]. unfold a_expired. rewrite Eex. done.
Qed.

(** DECRBY negates its argument: the least [long long] is its own negation. *)
Lemma decrby_overflow cfg acc k A : masterhost cfg = false -> fst (seen cfg k A) = None ->
  a_kv (effect cfg acc Decrby [k; bytes_of "-9223372036854775808"] A) !! k = Some (VStr (bytes_of "-9223372036854775808")).
Proof.
  intros Hm Hs. unfold effect, s_incrby. assert (E1 : num_of (bytes_of "-9223372036854775808") = Some (- 2 ^ 63)) by (by vm_compute).
  rewrite E1. unfold s_incrdecr. rewrite (proj1 (expire_seen cfg Hm k A)), Hs. cbn zeta.
  assert (Hin : in_s 64 (0 + i64 (-1 * (- 2 ^ 63)))) by (split; [by intros ?|reflexivity]). rewrite (bool_decide_true _ Hin). cbn [a_kv a_say]. unfold s_change, a_put. cbn [a_kv a_change a_tell a_map].
  rewrite lookup_insert_eq. by vm_compute.
Qed.

(** ** The commands *)

Section Commands.
Context {D E C : Type} `{KeyDictLaws D oaddr} `{KeyDictLaws E Z} `{OutputLaws C}.
Context (shared_integers : Z -> oaddr) (stack : list Z) (acc : bool).

Abbreviation st := (dbst D E C).
Abbreviation rep := (rep shared_integers acc).
Implicit Types (s : st) (A B : astate) (cfg : config).

(** [c] on the state [s] ends in a state with an abstract keyspace [Q]. *)
Definition ends cfg (c : command) s (Q : astate -> Prop) : Prop :=
  exists s' A', (run cfg shared_integers stack c ;; free_argv) s = Some (tt, s') /\ rep s' A' ∅ /\ Q A'.

Lemma ready_ends cfg c s A name args (Q : astate -> Prop) : ready cfg shared_integers stack acc c s A name args -> Q (effect cfg acc c args A) -> ends cfg c s Q.
Proof. intros Hr HQ. destruct (run_refines cfg shared_integers stack acc c s A name args Hr) as (s' & E1 & Hr' & _). by exists s', (effect cfg acc c args A). Qed.

(** [C4] On a master, keys that have expired cannot be told from keys that are
    missing: a command run on two keyspaces that differ in them only gives the
    same replies and leaves keyspaces that differ in them only. *)
Theorem expired_is_missing cfg c s1 s2 A B name args : masterhost cfg = false -> same_view cfg A B ->
  ready cfg shared_integers stack acc c s1 A name args -> ready cfg shared_integers stack acc c s2 B name args ->
  ends cfg c s1 (fun A' => ends cfg c s2 (fun B' => a_out A' = a_out B' /\ same_view cfg A' B')).
Proof.
  intros Hm Hv Hr1 Hr2. pose proof (effect_view cfg acc Hm c args A B Hv) as Hv'. eapply ready_ends; [exact Hr1|]. eapply ready_ends; [exact Hr2|].
  split; [apply Hv'|done].
Qed.

(** [C40] A command leaves the keys that are not among its arguments
    alone: their values and their times to live. *)
Theorem string_commands_frame cfg c s A name args (x : key) : ready cfg shared_integers stack acc c s A name args -> x ∉ args ->
  ends cfg c s (fun A' => a_kv A' !! x = a_kv A !! x /\ a_ex A' !! x = a_ex A !! x).
Proof. intros Hr Hx. eapply ready_ends; [exact Hr|]. by apply effect_frame. Qed.

(** SETEX and PSETEX answer OK, and a GET of the key at a later time, on a
    master, answers the value until the time to live is over, and nothing
    afterwards. *)
Theorem setex_get cfg later c u s A name k e b n :
  masterhost later = false -> loading later = false -> lua_caller later = None -> 0 <= mstime cfg ->
  (c, u) = (Setex, UNIT_SECONDS) \/ (c, u) = (Psetex, UNIT_MILLISECONDS) ->
  num_of e = Some n -> 0 < n -> mstime cfg + milliseconds u n < 2 ^ 63 ->
  ready cfg shared_integers stack acc c s A name [k; e; b] ->
  ends cfg c s (fun A' => a_out A' = say acc (a_out A) sh_ok /\ forall s2 name2, ready later shared_integers stack acc Get s2 A' name2 [k] ->
    ends later Get s2 (fun A2 => a_out A2 = say acc (a_out A') (if mstime later <=? mstime cfg + milliseconds u n then r_bulk b else sh_nullbulk))).
Proof.
  intros Hm Hld Hlua H0' Hc Hn Hpos Hmax Hr. eapply ready_ends; [exact Hr|].
  destruct (effect_setex cfg later acc k e b n c u A Hm Hld Hlua H0' Hc Hn Hpos Hmax) as [E1 E2]. split; [exact E1|].
  intros s2 name2 Hr2. by eapply ready_ends.
Qed.
End Commands.

(** ** Witnesses *)

Abbreviation map_st := (dbst (gmap key oaddr) (gmap key Z) (list Z)).
#[export] Instance key_map : KeyDict (gmap key oaddr) oaddr := MapKeyDict oaddr 1%positive.
#[export] Instance key_map_laws : KeyDictLaws (gmap key oaddr) oaddr := MapKeyDictLaws oaddr 1%positive.
#[export] Instance expire_map : KeyDict (gmap key Z) Z := MapKeyDict Z 0.
#[export] Instance expire_map_laws : KeyDictLaws (gmap key Z) Z := MapKeyDictLaws Z 0.

Lemma a_map_server : exists (si : Z -> oaddr) (s : map_st), rep si true s empty_keyspace ∅.
Proof. destruct own_created as (h & tbl & _ & Hown). exists (integer_at tbl), (start h ∅ ∅ []). by apply start_rep. Qed.

(** A clock that has advanced. *)
Definition a_later : config :=
  {| values_shared := true; masterhost := false; repl_slave_ro := true; loading := false; lua_caller := None; mstime := 2000000;
     readonly_client := false; client_master := false; cluster_enabled := false; cmd_name := "get"; module_type := [] |}.

(** A keyspace after SETEX of a key, for a second. *)
Definition short_lived (k : key) : astate := effect a_config true Setex [k; bytes_of "1"; bytes_of "v"] empty_keyspace.

Lemma short_lived_view : same_view a_later (short_lived (bytes_of "k")) (short_lived (bytes_of "j")).
Proof.
  split; [by vm_compute|]. split; [by vm_compute|]. intros k. unfold seen, a_expired.
  assert (Ex : forall j, bool_decide (j ∈ [bytes_of "k"; bytes_of "j"]) = true -> a_ex (short_lived j) = {[j := 1001000]} /\ a_kv (short_lived j) = {[j := VStr (bytes_of "v")]}).
  { intros j Hj. apply bool_decide_eq_true in Hj. rewrite !elem_of_cons, elem_of_nil in Hj. destruct Hj as [-> | [-> | []]]; split; by vm_compute. }
  destruct (Ex (bytes_of "k")) as [-> ->]; [by vm_compute|]. destruct (Ex (bytes_of "j")) as [-> ->]; [by vm_compute|]. clear Ex.
  rewrite !lookup_singleton. repeat case_decide; by vm_compute.
Qed.

Lemma short_lived_server (si : Z -> oaddr) (s : map_st) k : rep si true s empty_keyspace ∅ -> zlen k < 2 ^ 31 -> exists s1 : map_st, rep si true s1 (short_lived k) ∅.
Proof.
  intros Hs Hk. destruct (run_refines a_config si (replicate 128 0) true Setex (receive [bytes_of "setex"; k; bytes_of "1"; bytes_of "v"] s) empty_keyspace
    (bytes_of "setex") [k; bytes_of "1"; bytes_of "v"]) as (s1 & _ & Hr1 & _); [|by exists s1].
  apply receive_ready; [exact Hs|by repeat constructor|done..].
Qed.

Lemma append_ready (si : Z -> oaddr) (s : map_st) k : rep si true s (short_lived k) ∅ -> k = bytes_of "k" \/ k = bytes_of "j" ->
  ready a_later si (replicate 128 0) true Append (receive [bytes_of "append"; bytes_of "k"; bytes_of "ab"] s) (short_lived k) (bytes_of "append") [bytes_of "k"; bytes_of "ab"].
Proof. intros Hs Hk. destruct Hk as [-> | ->]; (apply receive_ready; [exact Hs|by repeat constructor|by vm_compute..]). Qed.

(** APPEND to a key that has expired and to a missing one. *)
Lemma expired_is_missing_witness : exists (si : Z -> oaddr) (s1 s2 : map_st),
  ends si (replicate 128 0) true a_later Append s1 (fun A' => ends si (replicate 128 0) true a_later Append s2 (fun B' => a_out A' = a_out B')).
Proof.
  destruct a_map_server as (si & s & Hs). destruct (short_lived_server si s (bytes_of "k") Hs eq_refl) as [s1 Hs1].
  destruct (short_lived_server si s (bytes_of "j") Hs eq_refl) as [s2 Hs2].
  exists si, (receive [bytes_of "append"; bytes_of "k"; bytes_of "ab"] s1), (receive [bytes_of "append"; bytes_of "k"; bytes_of "ab"] s2).
  destruct (expired_is_missing si (replicate 128 0) true a_later Append _ _ _ _ _ _ eq_refl short_lived_view
    (append_ready si s1 _ Hs1 (or_introl eq_refl)) (append_ready si s2 _ Hs2 (or_intror eq_refl))) as (s3 & A3 & E3 & Hr3 & s4 & A4 & E4 & Hr4 & E5 & _).
  exists s3, A3. split; [exact E3|]. split; [exact Hr3|]. by exists s4, A4.
Defined.

Lemma string_commands_frame_witness : exists (si : Z -> oaddr) (s : map_st),
  ends si (replicate 128 0) true a_config Mset s (fun A' => a_kv A' !! bytes_of "k" = None).
Proof.
  destruct a_map_server as (si & s & Hs). exists si, (receive [bytes_of "mset"; bytes_of "a"; bytes_of "1"] s).
  destruct (string_commands_frame si (replicate 128 0) true a_config Mset (receive [bytes_of "mset"; bytes_of "a"; bytes_of "1"] s) empty_keyspace (bytes_of "mset")
    [bytes_of "a"; bytes_of "1"] (bytes_of "k")) as (s' & A' & E1 & Hr & Hkv & _).
  - apply receive_ready; [exact Hs|by repeat constructor|done..].
  - rewrite !not_elem_of_cons. split_and!; [by vm_compute..|apply not_elem_of_nil].
  - exists s', A'. split_and!; [exact E1|exact Hr|]. rewrite Hkv. by vm_compute.
Defined.

Lemma setex_get_witness : exists (si : Z -> oaddr) (s : map_st),
  ends si (replicate 128 0) true a_config Setex s (fun A' => a_out A' = sh_ok).
Proof.
  destruct a_map_server as (si & s & Hs). exists si, (receive [bytes_of "setex"; bytes_of "k"; bytes_of "10"; bytes_of "v"] s).
  destruct (setex_get si (replicate 128 0) true a_config a_later Setex UNIT_SECONDS (receive [bytes_of "setex"; bytes_of "k"; bytes_of "10"; bytes_of "v"] s) empty_keyspace
    (bytes_of "setex") (bytes_of "k") (bytes_of "10") (bytes_of "v") 10) as (s' & A' & E1 & Hr & Hout & _); [done|done|done|done|by left|by vm_compute|done|done| |].
  - apply receive_ready; [exact Hs|by repeat constructor|done..].
  - exists s', A'. split_and!; [exact E1|exact Hr|]. rewrite Hout. by vm_compute.
Defined.
