(* ===== verification/TKeysEffects.v ===== *)
(** * What follows from the effects of the commands on keys

    RENAME moves a value with its time to live; EXPIRE and its variants start a
    countdown that TTL and PTTL read; DEL counts and removes keys. *)
From Stdlib Require Import ZArith Lia String.
From stdpp Require Import base numbers list option gmap gmultiset.
From S2P Require Import Prelude UtilNum Sds Object ObjectHeap Reply Keyspace Db DbSpec TString TStringRules TStringSpec TStringWrites TStringMany TKeys TKeysSpec TStringCorrect TStringEffects.

Section Effects.
Context (cfg : config) (acc : bool) (Hmaster : masterhost cfg = false).
Implicit Types (A B : astate) (k x : key) (v : val).

(** Only keys that are there have an expire. *)
Definition expires_ok A : Prop := forall k, is_Some (a_ex A !! k) -> is_Some (a_kv A !! k).

Lemma expires_ok_delete k A : expires_ok A -> expires_ok (a_delete cfg k A).
Proof.
  intros Hok x. unfold a_delete. cbn [a_kv a_ex a_tell a_map]. destruct (decide (k = x)) as [->|Hne]; [by rewrite lookup_delete_eq|].
  rewrite !lookup_delete_ne by done. apply Hok.
Qed.

Lemma expires_ok_expire k A : expires_ok A -> expires_ok (a_expire cfg k A).
Proof. intros Hok. unfold a_expire. destruct (_ && _); [|done]. by apply (expires_ok_delete k (a_tell _ A)). Qed.

(** ** RENAME *)

Lemma rename_effect k1 k2 v A : k1 <> k2 -> fst (seen cfg k1 A) = Some v -> (forall w, a_ex A !! k1 = Some w -> 0 <= w) -> expires_ok A ->
  let A' := effect cfg acc Rename [k1; k2] A in
  a_out A' = say acc (a_out A) sh_ok /\ seen cfg k2 A' = seen cfg k1 A /\ seen cfg k1 A' = (None, None) /\
  forall x, x <> k1 -> x <> k2 -> seen cfg x A' = seen cfg x A.
Proof.
  intros Hne Hv Hpos Hok A'. assert (Hlive : a_expired cfg k1 A = false) by (unfold seen in Hv; by destruct (a_expired cfg k1 A)).
  assert (Hseen : seen cfg k1 A = (Some v, a_ex A !! k1)).
  { unfold seen in *. rewrite Hlive in *. cbn [fst] in Hv. by rewrite Hv. }
  assert (Hframe : forall x, x <> k1 -> x <> k2 -> seen cfg x A' = seen cfg x A).
  { intros x H1 H2. apply (seen_untouched cfg). apply un_rename; congruence. }
  unfold A' in *. cbn [effect] in *. unfold s_rename in *. cbn zeta in *. destruct (expire_seen cfg Hmaster k1 A) as (E1 & E2 & _).
  rewrite E1, E2, Hv in *. rewrite Hseen in *. cbn [fst snd] in *. rewrite decide_False in * by done. cbn [andb] in *.
  set (o := a_ex A !! k1) in *. set (A2 := a_expire cfg k2 (a_expire cfg k1 A)) in *. set (A3 := if has_key k2 A2 then a_delete cfg k2 A2 else A2) in *.
  assert (Hex : a_ex A3 !! k2 = None).
  { unfold A3. destruct (has_key k2 A2) eqn:E; [unfold a_delete; cbn [a_ex a_tell a_map]; by rewrite lookup_delete_eq|].
    apply eq_None_not_Some. intros Hs. apply bool_decide_eq_false in E. apply E. by apply (expires_ok_expire k2 _ (expires_ok_expire k1 A Hok)). }
  set (w := default (-1) o) in *. set (A5 := if w =? -1 then a_put cfg k2 v A3 else a_setExpire cfg k2 w (a_put cfg k2 v A3)) in *.
  assert (Hkv5 : a_kv A5 !! k2 = Some v) by (unfold A5; destruct (w =? -1); apply lookup_insert_eq).
  assert (Hex5 : a_ex A5 !! k2 = o).
  { unfold A5. destruct (Z.eqb_spec w (-1)) as [Ew|Ew].
    - unfold a_put. cbn [a_ex a_tell a_map]. rewrite Hex. destruct o as [w'|] eqn:Eo; [|done]. cbn in Ew. specialize (Hpos w' eq_refl). unfold w in Ew. cbn in Ew. lia.
    - unfold a_setExpire. cbn [a_ex a_tell a_map]. rewrite lookup_insert_eq. unfold w in *. destruct o; done. }
  split_and!; [| | |exact Hframe].
  - cbn [a_out a_say a_change a_tell a_delete a_map]. f_equal. assert (E5 : a_out A5 = a_out A3) by (unfold A5; by destruct (w =? -1)). rewrite E5.
    unfold A3. destruct (has_key k2 A2); unfold a_delete; cbn [a_out a_tell a_map]; unfold A2; by rewrite !out_expire.
  - unfold seen, a_expired, a_delete. cbn [a_kv a_ex a_say a_change a_tell a_map]. rewrite !lookup_delete_ne by done. rewrite Hkv5, Hex5.
    unfold a_expired in Hlive. fold o in Hlive. by rewrite Hlive.
  - unfold seen, a_expired, a_delete. cbn [a_kv a_ex a_say a_change a_tell a_map]. by rewrite !lookup_delete_eq.
Qed.

(** ** DEL *)

(** The keys of a list that are there. *)
Definition present (ks : list key) A : gset key := filter (fun k => is_Some (fst (seen cfg k A))) (list_to_set ks).

Lemma seen_delete k x A : seen cfg x (a_delete cfg k A) = if decide (k = x) then (None, None) else seen cfg x A.
Proof.
  destruct (decide (k = x)) as [->|Hne]; [|by apply (seen_untouched cfg), un_delete].
  unfold seen, a_expired, a_delete. cbn [a_kv a_ex a_tell a_map]. by rewrite !lookup_delete_eq.
Qed.

Lemma del_loop_effect ks n A : let f := fold_left (s_del1 cfg) ks (n, A) in
  fst f = n + Z.of_nat (base.size (present ks A)) /\ (forall x, fst (seen cfg x (snd f)) = if decide (x ∈ ks) then None else fst (seen cfg x A)) /\ a_out (snd f) = a_out A.
Proof.
  revert n A. induction ks as [|k ks IH]; intros n A; cbn [fold_left].
  { cbn [fst snd]. assert (E0 : present [] A = ∅) by (apply set_eq; intros x; unfold present; rewrite elem_of_filter; cbn; set_solver).
    split_and!; [rewrite E0, size_empty; lia|intros x; by rewrite decide_False by apply not_elem_of_nil|done]. }
  assert (Es : s_del1 cfg (n, A) k = (if has_key k (a_expire cfg k A) then (n + 1, a_change 1 (a_tell [EvModified k; EvNotify NOTIFY_GENERIC "del" k] (a_delete cfg k (a_expire cfg k A)))) else (n, a_expire cfg k A))) by done.
  rewrite Es, (has_key_seen cfg Hmaster). clear Es. destruct (seen cfg k A) as [ov ox] eqn:Ek. destruct ov as [v|]; cbn [fst].
  - rewrite bool_decide_true by done. set (A1 := a_change 1 _). assert (H1 : forall x, seen cfg x A1 = if decide (k = x) then (None, None) else seen cfg x A).
    { intros x. change (seen cfg x A1) with (seen cfg x (a_delete cfg k (a_expire cfg k A))). by rewrite seen_delete, (seen_expire cfg Hmaster). }
    destruct (IH (n + 1) A1) as (E1 & E2 & E3). cbv zeta in *. rewrite E1, E3. split_and!.
    + assert (Hp : present (k :: ks) A = {[k]} ∪ present ks A1 /\ k ∉ present ks A1).
      { unfold present. split; [apply set_eq; intros x|]; rewrite ?elem_of_union, ?elem_of_filter, ?H1; cbn [list_to_set]; rewrite ?elem_of_union, ?elem_of_singleton.
        - destruct (decide (k = x)) as [<-|Hne]; [rewrite Ek; cbn; naive_solver|]. split; [intros [? [?|?]]; [congruence|by right]|intros [?|[? ?]]; [congruence|by split; [|right]]].
        - rewrite decide_True by done. cbn. intros [[? ?] _]. done. }
      destruct Hp as [-> Hp]. rewrite size_union by set_solver. rewrite size_singleton. lia.
    + intros x. rewrite E2, H1. destruct (decide (x ∈ ks)) as [Hx|Hx]; [by rewrite decide_True by (by right)|].
      destruct (decide (k = x)) as [->|Hne]; [by rewrite decide_True by (by left)|]. rewrite decide_False; [done|]. intros [->|?]%elem_of_cons; done.
    + apply (out_expire cfg k A).
  - rewrite bool_decide_false by (by intros [? ?]). destruct (IH n (a_expire cfg k A)) as (E1 & E2 & E3). cbv zeta in *. rewrite E1, E3. split_and!.
    + f_equal. f_equal. f_equal. unfold present. apply set_eq. intros x. rewrite !elem_of_filter, (seen_expire cfg Hmaster). cbn [list_to_set]. rewrite elem_of_union, elem_of_singleton.
      split; [by intros [? ?]; split; [|right]|]. intros [Hs [->|?]]; [|done]. rewrite Ek in Hs. by destruct Hs.
    + intros x. rewrite E2, (seen_expire cfg Hmaster). destruct (decide (x ∈ ks)) as [Hx|Hx]; [by rewrite decide_True by (by right)|].
      destruct (decide (x = k)) as [->|Hne]; [rewrite decide_True by (by left); by rewrite Ek|]. rewrite decide_False; [done|]. intros [->|?]%elem_of_cons; done.
    + apply out_expire.
Qed.

Lemma del_effect ks A : let A' := effect cfg acc Del ks A in
  a_out A' = say acc (a_out A) (r_int (Z.of_nat (base.size (present ks A)))) /\
  forall x, fst (seen cfg x A') = if decide (x ∈ ks) then None else fst (seen cfg x A).
Proof.
  cbn [effect]. unfold s_del. destruct (del_loop_effect ks 0 A) as (E1 & E2 & E3). cbv zeta in *. rewrite E1. split; [cbn [a_out a_say]; by rewrite E3|exact E2].
Qed.

(** ** EXPIRE *)

(** When the key expires after [c] with the number [n]. *)
Definition deadline (c : command) (n : Z) : option Z :=
  match c with
  | Expire => Some (n * 1000 + mstime cfg)
  | Pexpire => Some (n + mstime cfg)
  | Expireat => Some (n * 1000)
  | Pexpireat => Some n
  | _ => None
  end.

(** The times of the configuration are times. *)
Definition clock_ok : Prop := 0 <= mstime cfg < 2 ^ 63.

Lemma when_of_small base u n : 0 <= base -> 0 < match u with UNIT_SECONDS => n * 1000 | UNIT_MILLISECONDS => n end + base < 2 ^ 63 ->
  - 2 ^ 63 <= match u with UNIT_SECONDS => n * 1000 | UNIT_MILLISECONDS => n end -> when_of base u n = match u with UNIT_SECONDS => n * 1000 | UNIT_MILLISECONDS => n end + base.
Proof.
  intros Hb Hw Hn. unfold when_of. destruct u; [rewrite (swrap_small 64 (n * 1000)) by (unfold in_s; lia)|]; apply swrap_small; unfold in_s; lia.
Qed.

Lemma deadline_effect c k e n w A : clock_ok -> deadline c n = Some w -> num_of e = Some n -> mstime cfg < w < 2 ^ 63 -> is_Some (fst (seen cfg k A)) ->
  effect cfg acc c [k; e] A = a_change 1 (a_tell [EvModified k; EvNotify NOTIFY_GENERIC "expire" k] (a_say acc sh_cone (a_setExpire cfg k w (a_expire cfg k A)))).
Proof.
  intros [Hc1 Hc2] Hd Hn Hw Hk.
  assert (Hs : forall base u, 0 <= base -> w = match u with UNIT_SECONDS => n * 1000 | UNIT_MILLISECONDS => n end + base -> -2 ^ 63 <= match u with UNIT_SECONDS => n * 1000 | UNIT_MILLISECONDS => n end ->
    s_expire cfg acc base u k e A = a_change 1 (a_tell [EvModified k; EvNotify NOTIFY_GENERIC "expire" k] (a_say acc sh_cone (a_setExpire cfg k w (a_expire cfg k A))))).
  { intros base u Hb Ew Hn'. unfold s_expire. rewrite Hn. cbv zeta. rewrite (has_key_seen cfg Hmaster), bool_decide_true by done.
    rewrite when_of_small by (done || lia). rewrite <- Ew. by rewrite (proj2 (Z.leb_gt _ _)) by lia. }
  destruct c; cbn [deadline] in Hd; try discriminate; injection Hd as Hd; cbn [effect]; apply Hs; lia.
Qed.
End Effects.

(** The time to live at a later time. *)
Lemma ttl_effect cfg later acc c k e n w A : masterhost cfg = false -> masterhost later = false -> loading later = false -> lua_caller later = None -> clock_ok cfg -> clock_ok later ->
  deadline cfg c n = Some w -> num_of e = Some n -> mstime cfg < w < 2 ^ 63 -> is_Some (fst (seen cfg k A)) ->
  let A1 := effect cfg acc c [k; e] A in
  a_out A1 = say acc (a_out A) sh_cone /\
  a_out (effect later acc Pttl [k] A1) = say acc (a_out A1) (r_int (if mstime later <=? w then w - mstime later else -2)) /\
  a_out (effect later acc Ttl [k] A1) = say acc (a_out A1) (r_int (if mstime later <=? w then Z.quot (i64 (w - mstime later + 500)) 1000 else -2)).
Proof.
  intros Hm Hm2 Hl2 Hlua Hc [Hc1 Hc2] Hd Hn Hw Hk A1. pose proof (deadline_effect cfg acc Hm c k e n w A Hc Hd Hn Hw Hk) as EA. fold A1 in EA.
  assert (Eex : a_ex A1 !! k = Some w) by (rewrite EA; unfold a_setExpire; cbn [a_ex a_change a_tell a_say a_map]; apply lookup_insert_eq).
  assert (Ekv : is_Some (a_kv A1 !! k)) by (rewrite EA; unfold a_setExpire; cbn [a_kv a_change a_tell a_say a_map]; by rewrite (proj1 (expire_seen cfg Hm k A))).
  split; [rewrite EA; unfold a_setExpire; cbn [a_out a_change a_tell a_say a_map]; by rewrite out_expire|].
  destruct Hc as [Hc3 Hc4]. cbn [effect]. unfold s_ttl, a_read. assert (Hexp : a_expired later k A1 = (w <? mstime later)).
  { unfold a_expired, now. rewrite Eex, Hl2, Hlua, (proj2 (Z.ltb_ge _ 0)) by lia. done. }
  rewrite Hexp, Hm2. cbn [negb orb]. rewrite andb_true_r. destruct Ekv as [v Ekv]. rewrite Ekv.
  destruct (Z.ltb_spec w (mstime later)) as [Hlt|Hge].
  - rewrite (proj2 (Z.leb_gt _ _)) by lia. cbn [a_out a_say]. by rewrite !out_expire.
  - rewrite (proj2 (Z.leb_le _ _)) by lia. cbn [a_out a_say]. rewrite !out_expire. assert (Ee : a_expire later k A1 = A1) by (unfold a_expire; by rewrite Hexp).
    rewrite Ee, Eex. cbn [default from_option id]. unfold ttl_reply. rewrite (proj2 (Z.eqb_neq w (-1))) by lia. rewrite (swrap_small 64 (w - mstime later)) by (unfold in_s; lia).
    rewrite Z.max_r by lia. done.
Qed.

(** The seconds of EXPIRE are multiplied by 1000 without a check: the greatest
    [long long] becomes a time in the past, and the key is deleted. *)
Lemma expire_overflow cfg acc k A : masterhost cfg = false -> loading cfg = false -> mstime cfg = 1700000000000 -> is_Some (fst (seen cfg k A)) ->
  a_kv (effect cfg acc Expire [k; bytes_of "9223372036854775807"] A) !! k = None.
Proof.
  intros Hm Hl Ht Hk. cbn [effect]. unfold s_expire. assert (En : num_of (bytes_of "9223372036854775807") = Some 9223372036854775807) by (by vm_compute).
  rewrite En. cbv zeta. rewrite (has_key_seen cfg Hm), bool_decide_true by done. rewrite Ht, Hl, Hm.
  assert (Ew : (when_of 1700000000000 UNIT_SECONDS 9223372036854775807 <=? 1700000000000) = true) by (by vm_compute). rewrite Ew. cbn [andb negb].
  unfold a_delete. cbn [a_kv a_say a_tell a_change a_map]. apply lookup_delete_eq.
Qed.

(** ** The commands *)

Section Commands.
Context {D E C : Type} `{KeyDictLaws D oaddr} `{KeyDictLaws E Z} `{OutputLaws C}.
Context (shared_integers : Z -> oaddr) (stack : list Z) (acc : bool).

Abbreviation st := (dbst D E C).
Abbreviation ready := (fun cfg => ready cfg shared_integers stack acc).
Abbreviation ends := (ends shared_integers stack acc).
Implicit Types (s : st) (A B : astate) (cfg : config).

Lemma rep_expires_ok s A R : rep shared_integers acc s A R -> expires_ok A.
Proof.
  intros [m Hr] k Hk. pose proof (rp_sub _ _ _ _ _ _ Hr k Hk) as Hm. destruct (a_kv A !! k) eqn:E1; [done|].
  rewrite (proj2 (rep_none shared_integers acc m s A R k Hr) E1) in Hm. by destruct Hm.
Qed.

(** [C5] On a master RENAME of a key that is there to another name answers OK and
    moves the value with its time to live: the new name has them, whatever it had
    before, the old name is gone, and the other keys are as they were. *)
Theorem rename_moves cfg s A name k1 k2 v : masterhost cfg = false -> k1 <> k2 -> fst (seen cfg k1 A) = Some v -> (forall w, a_ex A !! k1 = Some w -> 0 <= w) ->
  ready cfg Rename s A name [k1; k2] ->
  ends cfg Rename s (fun A' => a_out A' = say acc (a_out A) sh_ok /\ seen cfg k2 A' = seen cfg k1 A /\ seen cfg k1 A' = (None, None) /\
    forall x, x <> k1 -> x <> k2 -> seen cfg x A' = seen cfg x A).
Proof.
  intros Hm Hne Hv Hpos Hr. eapply ready_ends; [exact Hr|]. apply (rename_effect cfg acc Hm k1 k2 v A Hne Hv Hpos).
  by apply (rep_expires_ok s A _ (rd_rep _ _ _ _ _ _ _ _ _ Hr)).
Qed.

(** [C6] EXPIRE, PEXPIRE, EXPIREAT and PEXPIREAT of a key that is there, with a time
    in the future, answer 1, and at any later time PTTL and TTL answer what is left,
    in milliseconds and rounded to seconds, or -2 when the time is over. *)
Theorem expire_countdown cfg later c s A name k e n w : masterhost cfg = false -> masterhost later = false -> loading later = false -> lua_caller later = None ->
  clock_ok cfg -> clock_ok later -> deadline cfg c n = Some w -> num_of e = Some n -> mstime cfg < w < 2 ^ 63 -> is_Some (fst (seen cfg k A)) ->
  ready cfg c s A name [k; e] ->
  ends cfg c s (fun A' => a_out A' = say acc (a_out A) sh_cone /\
    (forall s2 name2, ready later Pttl s2 A' name2 [k] -> ends later Pttl s2 (fun A2 => a_out A2 = say acc (a_out A') (r_int (if mstime later <=? w then w - mstime later else -2)))) /\
    forall s2 name2, ready later Ttl s2 A' name2 [k] ->
      ends later Ttl s2 (fun A2 => a_out A2 = say acc (a_out A') (r_int (if mstime later <=? w then Z.quot (i64 (w - mstime later + 500)) 1000 else -2)))).
Proof.
  intros Hm Hm2 Hl2 Hlua Hc Hc2 Hd Hn Hw Hk Hr. eapply ready_ends; [exact Hr|].
  destruct (ttl_effect cfg later acc c k e n w A Hm Hm2 Hl2 Hlua Hc Hc2 Hd Hn Hw Hk) as (E1 & E2 & E3). split; [exact E1|].
  split; intros s2 name2 Hr2; by eapply ready_ends.
Qed.

(** [C7] On a master DEL answers how many different keys among its arguments were
    there, and afterwards none of them is, and the others are as they were. *)
Theorem del_removes cfg s A name ks : masterhost cfg = false -> ready cfg Del s A name ks ->
  ends cfg Del s (fun A' => a_out A' = say acc (a_out A) (r_int (Z.of_nat (base.size (present cfg ks A)))) /\
    forall x, fst (seen cfg x A') = if decide (x ∈ ks) then None else fst (seen cfg x A)).
Proof. intros Hm Hr. eapply ready_ends; [exact Hr|]. by apply (del_effect cfg acc Hm). Qed.
End Commands.

(** ** Witnesses *)

(** The key [k] has a value and a second to live; the name of the command does not
    matter. *)
Lemma key_server : exists (si : Z -> oaddr) (s : map_st), rep si true s (short_lived (bytes_of "k")) ∅.
Proof.
  destruct a_map_server as (si & s & Hs). destruct (short_lived_server si s (bytes_of "k") Hs eq_refl) as [s1 Hs1]. by exists si, s1.
Qed.

Lemma rename_moves_witness : exists (si : Z -> oaddr) (s : map_st), ends si (replicate 128 0) true a_config Rename s (fun A' => seen a_config (bytes_of "j") A' = (Some (VStr (bytes_of "v")), Some 1001000)).
Proof.
  destruct key_server as (si & s & Hs). exists si, (receive [bytes_of "rename"; bytes_of "k"; bytes_of "j"] s).
  destruct (rename_moves si (replicate 128 0) true a_config (receive [bytes_of "rename"; bytes_of "k"; bytes_of "j"] s) (short_lived (bytes_of "k")) (bytes_of "rename")
    (bytes_of "k") (bytes_of "j") (VStr (bytes_of "v"))) as (s' & A' & E1 & Hr & _ & E2 & _).
  - done.
  - by vm_compute.
  - by vm_compute.
  - intros w Hw. vm_compute in Hw. by injection Hw as <-.
  - apply receive_ready; [exact Hs|by repeat constructor|by vm_compute..].
  - exists s', A'. split; [exact E1|]. split; [exact Hr|]. rewrite E2. by vm_compute.
Defined.

Lemma expire_countdown_witness : exists (si : Z -> oaddr) (s : map_st), ends si (replicate 128 0) true a_config Expire s (fun A' => a_out A' = sh_ok ++ sh_cone).
Proof.
  destruct key_server as (si & s & Hs). exists si, (receive [bytes_of "expire"; bytes_of "k"; bytes_of "5000"] s).
  destruct (expire_countdown si (replicate 128 0) true a_config a_later Expire (receive [bytes_of "expire"; bytes_of "k"; bytes_of "5000"] s) (short_lived (bytes_of "k")) (bytes_of "expire")
    (bytes_of "k") (bytes_of "5000") 5000 6000000) as (s' & A' & E1 & Hr & Ho & _ & _); [done|done|done|done|done|done|by vm_compute|by vm_compute|done|vm_compute; by eexists| |].
  - apply receive_ready; [exact Hs|by repeat constructor|by vm_compute..].
  - exists s', A'. split; [exact E1|]. split; [exact Hr|]. rewrite Ho. by vm_compute.
Defined.

Lemma del_removes_witness : exists (si : Z -> oaddr) (s : map_st), ends si (replicate 128 0) true a_config Del s (fun A' => a_out A' = sh_ok ++ sh_cone).
Proof.
  destruct key_server as (si & s & Hs). exists si, (receive [bytes_of "del"; bytes_of "k"; bytes_of "j"; bytes_of "k"] s).
  destruct (del_removes si (replicate 128 0) true a_config (receive [bytes_of "del"; bytes_of "k"; bytes_of "j"; bytes_of "k"] s) (short_lived (bytes_of "k")) (bytes_of "del")
    [bytes_of "k"; bytes_of "j"; bytes_of "k"]) as (s' & A' & E1 & Hr & Ho & _); [done| |].
  - apply receive_ready; [exact Hs|by repeat constructor|by vm_compute..].
  - exists s', A'. split; [exact E1|]. split; [exact Hr|]. rewrite Ho. by vm_compute.
Defined.
