(* ===== verification/Outbuf.v ===== *)
(** * The output buffers of a client (networking.c)

    What is to be sent to a client is in a static buffer and then in a list of
    blocks, on the list heap of [Adlist].  [emit] of [Output] is [addReplyString].
    The usable size of an allocation, what it holds, the limits, the clock and the
    answers of [write] are parameters. *)
From Stdlib Require Import ZArith Lia String.
From stdpp Require Import base numbers list option gmap.
From S2P Require Import Prelude UtilNum Sds Object Reply Adlist.
From S2P Require Resp.

Definition PROTO_REPLY_CHUNK_BYTES : Z := 16 * 1024.
Definition NET_MAX_WRITES_PER_EVENT : Z := 1024 * 64.
Definition CLIENT_MONITOR : Z := Z.shiftl 1 2.
Definition CLIENT_LUA : Z := Z.shiftl 1 8.
Definition CLIENT_MASTER_FORCE_REPLY : Z := Z.shiftl 1 13.
Definition CLIENT_PUBSUB : Z := Z.shiftl 1 18.
Definition CLIENT_PENDING_WRITE : Z := Z.shiftl 1 21.
Definition CLIENT_REPLY_OFF : Z := Z.shiftl 1 22.
Definition CLIENT_MODULE : Z := Z.shiftl 1 27.
Definition CLIENT_TYPE_NORMAL : Z := 0.
Definition CLIENT_TYPE_SLAVE : Z := 1.
Definition CLIENT_TYPE_PUBSUB : Z := 2.
Definition CLIENT_TYPE_MASTER : Z := 3.
Definition REPL_STATE_NONE : Z := 0.
Definition SLAVE_STATE_ONLINE : Z := 9.

(** Sizes on a 64 bit machine. *)
Definition sizeof_clientReplyBlock : Z := 16.
Definition sizeof_listNode : Z := 24.

Record clientReplyBlock := { size : Z; used : Z; bytes : list Z }.

Record clientBufferLimitsConfig := { hard_limit_bytes : Z; soft_limit_bytes : Z; soft_limit_seconds : Z }.

(** What the output functions use of a client, and the two lists of the server
    that they add it to: [pending_writes] is [server.clients_pending_write] and
    [to_close] is [server.clients_to_close], with the descriptors for the clients
    ([OutbufLoop] lends the lists of the server to the client that runs). *)
Record oclient := {
  fd : Z;
  flags : Z;
  replstate : Z;
  repl_put_online_on_ack : bool;
  buf : list Z;
  bufpos : Z;
  sentlen : Z;
  nodes : gmap addr (listNode (option clientReplyBlock));
  reply : adlist;
  reply_bytes : Z;
  obuf_soft_limit_reached_time : Z;
  pending_writes : list Z;
  to_close : list Z
}.

Definition set_flags f (c : oclient) : oclient :=
  {| fd := fd c; flags := f; replstate := replstate c; repl_put_online_on_ack := repl_put_online_on_ack c; buf := buf c; bufpos := bufpos c;
     sentlen := sentlen c; nodes := nodes c; reply := reply c; reply_bytes := reply_bytes c;
     obuf_soft_limit_reached_time := obuf_soft_limit_reached_time c; pending_writes := pending_writes c; to_close := to_close c |}.
Definition set_queues p t (c : oclient) : oclient :=
  {| fd := fd c; flags := flags c; replstate := replstate c; repl_put_online_on_ack := repl_put_online_on_ack c; buf := buf c; bufpos := bufpos c;
     sentlen := sentlen c; nodes := nodes c; reply := reply c; reply_bytes := reply_bytes c;
     obuf_soft_limit_reached_time := obuf_soft_limit_reached_time c; pending_writes := p; to_close := t |}.
Definition set_buf b pos (c : oclient) : oclient :=
  {| fd := fd c; flags := flags c; replstate := replstate c; repl_put_online_on_ack := repl_put_online_on_ack c; buf := b; bufpos := pos;
     sentlen := sentlen c; nodes := nodes c; reply := reply c; reply_bytes := reply_bytes c;
     obuf_soft_limit_reached_time := obuf_soft_limit_reached_time c; pending_writes := pending_writes c; to_close := to_close c |}.
Definition set_sentlen n (c : oclient) : oclient :=
  {| fd := fd c; flags := flags c; replstate := replstate c; repl_put_online_on_ack := repl_put_online_on_ack c; buf := buf c; bufpos := bufpos c;
     sentlen := n; nodes := nodes c; reply := reply c; reply_bytes := reply_bytes c;
     obuf_soft_limit_reached_time := obuf_soft_limit_reached_time c; pending_writes := pending_writes c; to_close := to_close c |}.
Definition set_list h l n (c : oclient) : oclient :=
  {| fd := fd c; flags := flags c; replstate := replstate c; repl_put_online_on_ack := repl_put_online_on_ack c; buf := buf c; bufpos := bufpos c;
     sentlen := sentlen c; nodes := h; reply := l; reply_bytes := n;
     obuf_soft_limit_reached_time := obuf_soft_limit_reached_time c; pending_writes := pending_writes c; to_close := to_close c |}.
Definition set_soft_time t (c : oclient) : oclient :=
  {| fd := fd c; flags := flags c; replstate := replstate c; repl_put_online_on_ack := repl_put_online_on_ack c; buf := buf c; bufpos := bufpos c;
     sentlen := sentlen c; nodes := nodes c; reply := reply c; reply_bytes := reply_bytes c;
     obuf_soft_limit_reached_time := t; pending_writes := pending_writes c; to_close := to_close c |}.

(** [listNodeValue(ln) = v]. *)
Definition set_value (h : gmap addr (listNode (option clientReplyBlock))) (a : addr) (v : option clientReplyBlock) :=
  nd ← h !! a; Some (<[a := {| prev := prev nd; next := next nd; value := v |}]> h).

Definition clientHasPendingReplies (c : oclient) : bool := negb (bufpos c =? 0) || negb (len (reply c) =? 0).

Definition clientInstallWriteHandler (c : oclient) : oclient :=
  if negb (Resp.has (flags c) CLIENT_PENDING_WRITE) &&
     ((replstate c =? REPL_STATE_NONE) || ((replstate c =? SLAVE_STATE_ONLINE) && negb (repl_put_online_on_ack c)))
  then set_queues (fd c :: pending_writes c) (to_close c) (set_flags (Z.lor (flags c) CLIENT_PENDING_WRITE) c)
  else c.

(** [false] is [C_ERR]. *)
Definition prepareClientToWrite (c : oclient) : oclient * bool :=
  if Resp.has (flags c) (Z.lor CLIENT_LUA CLIENT_MODULE) then (c, true)
  else if Resp.has (flags c) (Z.lor CLIENT_REPLY_OFF Resp.CLIENT_REPLY_SKIP) then (c, false)
  else if Resp.has (flags c) Resp.CLIENT_MASTER && negb (Resp.has (flags c) CLIENT_MASTER_FORCE_REPLY) then (c, false)
  else if fd c <=? 0 then (c, false)
  else (if clientHasPendingReplies c then c else clientInstallWriteHandler c, true).

Definition _addReplyToBuffer (c : oclient) (s : list Z) : option (oclient * bool) :=
  let available := u64 (PROTO_REPLY_CHUNK_BYTES - bufpos c) in
  if Resp.has (flags c) Resp.CLIENT_CLOSE_AFTER_REPLY then Some (c, true)
  else if len (reply c) >? 0 then Some (c, false)
  else if zlen s >? available then Some (c, false)
  else b ← mwrite (buf c) (bufpos c) s; Some (set_buf b (i32 (bufpos c + zlen s)) c, true).

Definition getClientOutputBufferMemoryUsage (c : oclient) : Z :=
  u64 (reply_bytes c + (sizeof_listNode + sizeof_clientReplyBlock) * len (reply c)).

Definition getClientType (c : oclient) : Z :=
  if Resp.has (flags c) Resp.CLIENT_MASTER then CLIENT_TYPE_MASTER
  else if Resp.has (flags c) Resp.CLIENT_SLAVE && negb (Resp.has (flags c) CLIENT_MONITOR) then CLIENT_TYPE_SLAVE
  else if Resp.has (flags c) CLIENT_PUBSUB then CLIENT_TYPE_PUBSUB
  else CLIENT_TYPE_NORMAL.

Definition freeClientAsync (c : oclient) : oclient :=
  if Resp.has (flags c) Resp.CLIENT_CLOSE_ASAP || Resp.has (flags c) CLIENT_LUA then c
  else set_queues (pending_writes c) (to_close c ++ [fd c]) (set_flags (Z.lor (flags c) Resp.CLIENT_CLOSE_ASAP) c).

Section Outbuf.
(** [usable n]: the usable size of an allocation of [n] bytes; [junk n]: what [n]
    fresh bytes hold. *)
Context (usable : Z -> Z) (junk : Z -> list Z) (client_obuf_limits : Z -> clientBufferLimitsConfig) (unixtime : Z).

Definition checkClientOutputBufferLimits (c : oclient) : oclient * bool :=
  let used_mem := getClientOutputBufferMemoryUsage c in
  let class := getClientType c in
  let class := if class =? CLIENT_TYPE_MASTER then CLIENT_TYPE_NORMAL else class in
  let limits := client_obuf_limits class in
  let hard := negb (hard_limit_bytes limits =? 0) && (used_mem >=? hard_limit_bytes limits) in
  let soft := negb (soft_limit_bytes limits =? 0) && (used_mem >=? soft_limit_bytes limits) in
  let '(c, soft) :=
    if soft then
      if obuf_soft_limit_reached_time c =? 0 then (set_soft_time unixtime c, false)
      else (c, negb (unixtime - obuf_soft_limit_reached_time c <=? soft_limit_seconds limits))
    else (set_soft_time 0 c, false) in
  (c, soft || hard).

Definition asyncCloseClientOnOutputBufferLimitReached (c : oclient) : option oclient :=
  if negb (reply_bytes c <? 2 ^ 64 - 1 - 1024 * 64) then None
  else if (reply_bytes c =? 0) || Resp.has (flags c) Resp.CLIENT_CLOSE_ASAP then Some c
  else let '(c, over) := checkClientOutputBufferLimits c in Some (if over then freeClientAsync c else c).

(** A block of [zmalloc(n + sizeof(clientReplyBlock))] that holds [s]. *)
Definition new_block (n : Z) (s : list Z) : option clientReplyBlock :=
  let size := u64 (usable (n + sizeof_clientReplyBlock) - sizeof_clientReplyBlock) in
  b ← mwrite (junk size) 0 s; Some {| size := size; used := zlen s; bytes := b |}.

(** What fits is copied to the last block. *)
Definition fill_tail (c : oclient) (s : list Z) : option (oclient * list Z) :=
  match tail (reply c) with
  | None => Some (c, s)
  | Some a =>
      nd ← nodes c !! a;
      match value nd with
      | None => Some (c, s)
      | Some b =>
          let avail := u64 (size b - used b) in
          let copy := if avail >=? zlen s then zlen s else avail in
          bs ← mwrite (bytes b) (used b) (take (Z.to_nat copy) s);
          h ← set_value (nodes c) a (Some {| size := size b; used := used b + copy; bytes := bs |});
          Some (set_list h (reply c) (reply_bytes c) c, drop (Z.to_nat copy) s)
      end
  end.

Definition _addReplyStringToList (c : oclient) (s : list Z) : option oclient :=
  if Resp.has (flags c) Resp.CLIENT_CLOSE_AFTER_REPLY then Some c
  else
    r ← fill_tail c s;
    let '(c, s) := (r : oclient * list Z) in
    c ← (if zlen s =? 0 then Some c
         else
           b ← new_block (if zlen s <? PROTO_REPLY_CHUNK_BYTES then PROTO_REPLY_CHUNK_BYTES else zlen s) s;
           r ← listAddNodeTail (nodes c) (reply c) (Some b);
           Some (set_list (fst r) (snd r) (u64 (reply_bytes c + size b)) c));
    asyncCloseClientOnOutputBufferLimitReached c.

(** [addReplyString]. *)
Definition add_reply_string (c : oclient) (s : list Z) : option oclient :=
  let '(c, ok) := prepareClientToWrite c in
  if negb ok then Some c
  else
    r ← _addReplyToBuffer c s;
    let '(c, ok) := (r : oclient * bool) in
    if ok then Some c else _addReplyStringToList c s.

(** [None] is the NULL pointer. *)
Definition addDeferredMultiBulkLength (c : oclient) : option (oclient * option addr) :=
  let '(c, ok) := prepareClientToWrite c in
  if negb ok then Some (c, None)
  else
    r ← listAddNodeTail (nodes c) (reply c) None;
    Some (set_list (fst r) (snd r) (reply_bytes c) c, tail (snd r)).

Definition setDeferredMultiBulkLength (c : oclient) (node : option addr) (length : Z) : option oclient :=
  let lenstr := bytes_of "*" ++ dec length ++ [13; 10] in
  match node with
  | None => Some c
  | Some ln =>
      nd ← nodes c !! ln;
      match value nd with
      | Some _ => None
      | None =>
          nx ← (match next nd with None => Some None | Some n => nd' ← nodes c !! n; Some (b ← value nd'; Some (n, b)) end : option (option (addr * clientReplyBlock)));
          let glued := (match nx with
                        | Some (_, b) => if (u64 (size b - used b) >=? zlen lenstr) && (used b <? PROTO_REPLY_CHUNK_BYTES * 4) then nx else None
                        | None => None
                        end) in
          c ← (match glued with
               | Some (n, b) =>
                   old ← mread (bytes b) 0 (used b);
                   bs ← mwrite (bytes b) (zlen lenstr) old;
                   bs ← mwrite bs 0 lenstr;
                   h ← set_value (nodes c) n (Some {| size := size b; used := used b + zlen lenstr; bytes := bs |});
                   r ← listDelNode h (reply c) ln;
                   Some (set_list (fst r) (snd r) (reply_bytes c) c)
               | None =>
                   b ← new_block (zlen lenstr) lenstr;
                   h ← set_value (nodes c) ln (Some b);
                   Some (set_list h (reply c) (u64 (reply_bytes c + size b)) c)
               end);
          asyncCloseClientOnOutputBufferLimitReached c
      end
  end.

(** ** Sending *)

Context (maxmemory zmalloc_used_memory : Z).

(** What [write] returns for [chunk]: the next answer of the kernel, which takes no
    more than it is given; without answers, -1 with EAGAIN. *)
Definition write (answers : list Z) (chunk : list Z) : Z * list Z :=
  match answers with
  | [] => (-1, [])
  | n :: answers => (Z.min n (zlen chunk), answers)
  end.

Record progress := { p_client : oclient; p_answers : list Z; p_nwritten : Z; p_totwritten : Z; p_sent : list Z }.

(** The loop of [writeToClient]; the state when it ends. *)
Fixpoint write_loop (fuel : nat) (p : progress) : option progress :=
  let c := p_client p in
  if negb (clientHasPendingReplies c) then Some p
  else
    match fuel with
    | O => None
    | S fuel =>
        let again p :=
          if (p_totwritten p >? NET_MAX_WRITES_PER_EVENT) && ((maxmemory =? 0) || (zmalloc_used_memory <? maxmemory)) &&
             negb (Resp.has (flags (p_client p)) Resp.CLIENT_SLAVE)
          then Some p else write_loop fuel p in
        if bufpos c >? 0 then
          chunk ← mread (buf c) (sentlen c) (bufpos c - sentlen c);
          let '(n, answers) := write (p_answers p) chunk in
          if n <=? 0 then Some {| p_client := c; p_answers := answers; p_nwritten := n; p_totwritten := p_totwritten p; p_sent := p_sent p |}
          else
            let c := set_sentlen (sentlen c + n) c in
            let c := if sentlen c =? bufpos c then set_sentlen 0 (set_buf (buf c) 0 c) else c in
            again {| p_client := c; p_answers := answers; p_nwritten := n; p_totwritten := p_totwritten p + n; p_sent := p_sent p ++ take (Z.to_nat n) chunk |}
        else
          a ← head (reply c);
          nd ← nodes c !! a;
          o ← value nd;
          if used o =? 0 then
            r ← listDelNode (nodes c) (reply c) a;
            write_loop fuel {| p_client := set_list (fst r) (snd r) (u64 (reply_bytes c - size o)) c; p_answers := p_answers p;
              p_nwritten := p_nwritten p; p_totwritten := p_totwritten p; p_sent := p_sent p |}
          else
            chunk ← mread (bytes o) (sentlen c) (used o - sentlen c);
            let '(n, answers) := write (p_answers p) chunk in
            if n <=? 0 then Some {| p_client := c; p_answers := answers; p_nwritten := n; p_totwritten := p_totwritten p; p_sent := p_sent p |}
            else
              let c := set_sentlen (sentlen c + n) c in
              c ← (if sentlen c =? used o then
                     r ← listDelNode (nodes c) (reply c) a;
                     let c := set_sentlen 0 (set_list (fst r) (snd r) (u64 (reply_bytes c - size o)) c) in
                     if (len (reply c) =? 0) && negb (reply_bytes c =? 0) then None else Some c
                   else Some c);
              again {| p_client := c; p_answers := answers; p_nwritten := n; p_totwritten := p_totwritten p + n; p_sent := p_sent p ++ take (Z.to_nat n) chunk |}
    end.

(** The client, [false] ([C_ERR]) when it is to be freed, and the bytes the kernel
    took; [again]: [errno] is EAGAIN.  [OutbufLoop.write_to_client] removes the
    event handler and calls [freeClient]. *)
Definition writeToClient (again : bool) (answers : list Z) (c : oclient) : option (oclient * bool * list Z) :=
  p ← write_loop (S (length answers + Z.to_nat (len (reply c))))
        {| p_client := c; p_answers := answers; p_nwritten := 0; p_totwritten := 0; p_sent := [] |};
  let c := p_client p in
  if (p_nwritten p =? -1) && negb again then Some (c, false, p_sent p)
  else if negb (clientHasPendingReplies c) then
    let c := set_sentlen 0 c in Some (c, negb (Resp.has (flags c) Resp.CLIENT_CLOSE_AFTER_REPLY), p_sent p)
  else Some (c, true, p_sent p).
End Outbuf.
