(* ===== verification/OutbufSpec.v ===== *)
(** * What the output buffers promise

    [buf_ok c ps] is the invariant of a client with the list [ps] of nodes;
    [stored] is what its buffers hold and [pending] what is still to be sent.
    Replies are appended, in order, wherever they go; a deferred length goes to
    its place; [writeToClient] sends a prefix. *)
From Stdlib Require Import ZArith Lia String.
From stdpp Require Import base numbers list option gmap.
From S2P Require Import Prelude UtilNum Sds SdsRefine Object Reply Adlist AdlistRefine Outbuf.
From S2P Require Resp.

Abbreviation entry := (addr * option clientReplyBlock)%type.
Abbreviation node_heap := (gmap addr (listNode (option clientReplyBlock))).
Implicit Types (c : oclient) (ps : list entry) (s : list Z) (b : clientReplyBlock).

(** ** Buffers *)

Lemma mwrite_take {A} (m : list A) off bs : 0 <= off -> off + zlen bs <= zlen m ->
  exists m', mwrite m off bs = Some m' /\ zlen m' = zlen m /\ take (Z.to_nat (off + zlen bs)) m' = take (Z.to_nat off) m ++ bs.
Proof.
  intros H1 H2. destruct (mwrite_ok m off bs H1 H2) as (m' & E & Hl). exists m'. split_and!; [done|done|].
  unfold mwrite in E. destruct (_ && _); [|done]. injection E as <-. pose proof (zlen_nonneg bs).
  rewrite app_assoc. apply take_app_length'. unfold zlen in *. rewrite length_app, length_take. lia.
Qed.

Lemma mwrite_take_before {A} (m : list A) off bs m' n : mwrite m off bs = Some m' -> n <= off -> take (Z.to_nat n) m' = take (Z.to_nat n) m.
Proof.
  unfold mwrite. intros E Hn. destruct ((0 <=? off) && (off + zlen bs <=? zlen m)) eqn:Ec; [|done]. injection E as <-. pose proof (zlen_nonneg bs).
  rewrite take_app_le by (rewrite length_take; unfold zlen in *; lia). rewrite take_take. f_equal. lia.
Qed.

(** ** Nodes *)

Lemma seg_set (h : node_heap) pv A a v w B nx : seg h pv (A ++ (a, v) :: B) nx -> NoDup (A ++ (a, v) :: B).*1 ->
  exists h', set_value h a w = Some h' /\ seg h' pv (A ++ (a, w) :: B) nx.
Proof.
  intros Hs Hnd. destruct (nodup_parts A ((a, v) :: B) Hnd) as (_ & HB & HA & _). apply seg_app in Hs as [HsA HsB]. cbn [seg hdp] in HsA, HsB. destruct HsB as [Ha HsB].
  unfold set_value. rewrite Ha. cbn [mbind option_bind prev next]. eexists. split; [done|]. apply seg_app. cbn [seg hdp].
  cbn [fmap list_fmap fst] in HB. apply NoDup_cons in HB as [HaB _]. split_and!.
  - eapply seg_frame; [|exact HsA]. intros x Hx. rewrite lookup_insert_ne; [done|]. intros <-. apply (HA a Hx). by left.
  - by rewrite lookup_insert_eq.
  - eapply seg_frame; [|exact HsB]. intros x Hx. rewrite lookup_insert_ne; [done|]. by intros <-.
Qed.

Lemma dll_set (h : node_heap) l A a v w B : dll h l (A ++ (a, v) :: B) -> exists h', set_value h a w = Some h' /\ dll h' l (A ++ (a, w) :: B).
Proof.
  intros [Hs Hnd Hh Ht Hl]. destruct (seg_set h None A a v w B None Hs Hnd) as (h' & E & Hs'). exists h'. split; [done|].
  assert (E1 : (A ++ (a, w) :: B).*1 = (A ++ (a, v) :: B).*1) by by rewrite !fmap_app.
  split; [done|by rewrite E1| | |].
  - rewrite Hh. by rewrite !hdp_app.
  - rewrite Ht. by rewrite !lastp_app.
  - rewrite Hl. unfold zlen. by rewrite !length_app.
Qed.

(** ** The invariant *)

Definition content b : list Z := take (Z.to_nat (used b)) (bytes b).

(** A block wastes at most a constant factor. *)
Record block_ok b : Prop := {
  bl_used : 0 < used b <= size b;
  bl_bytes : zlen (bytes b) = size b;
  bl_size : size b <= 40000 * used b
}.

(** What the blocks hold, with [rho] for the deferred lengths that are not known
    yet, which [holes] lists. *)
Fixpoint contents (rho : addr -> list Z) ps : list Z :=
  match ps with [] => [] | (a, v) :: ps => match v with Some b => content b | None => rho a end ++ contents rho ps end.
Fixpoint holes ps : list addr :=
  match ps with [] => [] | (a, None) :: ps => a :: holes ps | (_, Some _) :: ps => holes ps end.
Fixpoint total_size ps : Z :=
  match ps with [] => 0 | (_, v) :: ps => match v with Some b => size b | None => 0 end + total_size ps end.

Definition entry_ok (p : entry) : Prop := match snd p with Some b => block_ok b | None => True end.

(** What of the first node is sent. *)
Definition head_ok (sent : Z) ps : Prop :=
  match ps with (_, Some b) :: _ => sent < used b \/ sent = 0 | _ => sent = 0 end.

Record buf_ok c ps : Prop := {
  ok_dll : dll (nodes c) (reply c) ps;
  ok_buf : zlen (buf c) = PROTO_REPLY_CHUNK_BYTES;
  ok_bufpos : 0 <= bufpos c <= PROTO_REPLY_CHUNK_BYTES;
  ok_blocks : Forall entry_ok ps;
  ok_bytes : reply_bytes c = total_size ps;
  ok_sentlen : 0 <= sentlen c;
  ok_sent_buf : 0 < bufpos c -> sentlen c < bufpos c;
  ok_sent_list : bufpos c = 0 -> head_ok (sentlen c) ps
}.

Definition stored rho c ps : list Z := take (Z.to_nat (bufpos c)) (buf c) ++ contents rho ps.
Definition pending rho c ps : list Z := drop (Z.to_nat (sentlen c)) (stored rho c ps).

Lemma contents_app rho A B : contents rho (A ++ B) = contents rho A ++ contents rho B.
Proof. induction A as [|[a v] A IH]; [done|]. cbn [app contents]. by rewrite IH, app_assoc. Qed.

Lemma holes_app A B : holes (A ++ B) = holes A ++ holes B.
Proof. induction A as [|[a [b|]] A IH]; [done|exact IH|]. cbn [app holes]. by rewrite IH. Qed.

Lemma holes_split ps n : n ∈ holes ps -> exists A B, ps = A ++ (n, None) :: B.
Proof.
  induction ps as [|[a [b|]] ps IH]; cbn [holes].
  - by intros ?%elem_of_nil.
  - intros (A & B & ->)%IH. by exists ((a, Some b) :: A), B.
  - intros [->|(A & B & ->)%IH]%elem_of_cons; [by exists [], ps|]. by exists ((a, None) :: A), B.
Qed.

Lemma total_size_app A B : total_size (A ++ B) = total_size A + total_size B.
Proof. induction A as [|[a v] A IH]; [done|]. cbn [app total_size]. rewrite IH. lia. Qed.

Lemma zlen_content b : block_ok b -> zlen (content b) = used b.
Proof. intros [Hu Hb _]. unfold content, zlen in *. rewrite length_take. lia. Qed.

Lemma total_bound rho ps : Forall entry_ok ps -> 0 <= total_size ps <= 40000 * zlen (contents rho ps).
Proof.
  induction 1 as [|[a v] ps Hv _ IH]; [done|]. cbn [total_size contents]. rewrite zlen_app. destruct v as [b|]; [|pose proof (zlen_nonneg (rho a)); lia].
  rewrite (zlen_content b Hv). destruct Hv. lia.
Qed.

Lemma stored_len rho c ps : buf_ok c ps -> zlen (stored rho c ps) = bufpos c + zlen (contents rho ps).
Proof. intros Hok. unfold stored. rewrite zlen_app. unfold zlen at 1. rewrite length_take. destruct Hok. unfold zlen in *. lia. Qed.

Lemma head_ok_zero ps : head_ok 0 ps.
Proof. destruct ps as [|[a [b|]] ps]; cbn; auto. Qed.

Lemma head_ok_app sent A B : head_ok sent A -> head_ok sent (A ++ B).
Proof. destruct A as [|[a [b|]] A]; cbn; [intros ->; apply head_ok_zero|auto..]. Qed.

Lemma head_ok_change sent A a v w B : head_ok sent (A ++ (a, v) :: B) ->
  match v, w with Some b, Some b' => used b <= used b' | None, _ => True | Some _, None => False end ->
  head_ok sent (A ++ (a, w) :: B).
Proof. destruct A as [|[a' [b'|]] A]; cbn; [|done..]. destruct v as [b|], w as [b'|]; cbn; [lia|done|intros ->; auto|done]. Qed.

Lemma head_ok_remove sent A a B : head_ok sent (A ++ (a, None) :: B) -> head_ok sent (A ++ B).
Proof. destruct A as [|[a' [b'|]] A]; cbn; [|done..]. intros ->. apply head_ok_zero. Qed.

Lemma sent_le rho c ps : buf_ok c ps -> sentlen c <= zlen (stored rho c ps).
Proof.
  intros Hok. rewrite (stored_len rho c ps Hok). destruct Hok. pose proof (zlen_nonneg (contents rho ps)).
  destruct (decide (0 < bufpos c)) as [Hp|Hp]; [specialize (ok_sent_buf0 Hp); lia|]. specialize (ok_sent_list0 ltac:(lia)).
  destruct ps as [|[a [b|]] ps]; cbn [head_ok] in *; [lia| |lia]. cbn [contents]. rewrite zlen_app. apply Forall_cons_1 in ok_blocks0 as [Hb _].
  rewrite (zlen_content b Hb). destruct Hb. pose proof (zlen_nonneg (contents rho ps)). lia.
Qed.

Lemma blocks_len rho ps : Forall entry_ok ps -> zlen ps <= zlen (contents rho ps) + zlen (holes ps).
Proof.
  induction 1 as [|[a v] ps Hv _ IH]; [done|]. cbn [contents holes]. rewrite zlen_cons, zlen_app. destruct v as [b|].
  - rewrite (zlen_content b Hv). destruct Hv. lia.
  - rewrite zlen_cons. pose proof (zlen_nonneg (rho a)). lia.
Qed.

Lemma dll_pending c ps : buf_ok c ps -> clientHasPendingReplies c = negb (bufpos c =? 0) || negb (bool_decide (ps = [])).
Proof.
  intros Hok. unfold clientHasPendingReplies. f_equal. rewrite (dll_len _ _ _ (ok_dll _ _ Hok)). destruct ps as [|p ps]; [done|].
  rewrite bool_decide_false by done. rewrite zlen_cons. pose proof (zlen_nonneg ps). by rewrite (proj2 (Z.eqb_neq _ _)) by lia.
Qed.

(** Changes of the other fields. *)
Lemma ok_same c c' ps : buf_ok c ps -> nodes c' = nodes c -> reply c' = reply c -> buf c' = buf c -> bufpos c' = bufpos c ->
  sentlen c' = sentlen c -> reply_bytes c' = reply_bytes c -> buf_ok c' ps /\ forall rho, stored rho c' ps = stored rho c ps.
Proof. intros [] E1 E2 E3 E4 E5 E6. unfold stored. split; [split|]; by rewrite ?E1, ?E2, ?E3, ?E4, ?E5, ?E6. Qed.

(** The fields that sending leaves alone. *)
Definition fixed c := (fd c, flags c, replstate c, repl_put_online_on_ack c, pending_writes c, to_close c).

Lemma fixed_fields c c' : fixed c' = fixed c -> fd c' = fd c /\ flags c' = flags c /\ replstate c' = replstate c /\
  repl_put_online_on_ack c' = repl_put_online_on_ack c /\ pending_writes c' = pending_writes c /\ to_close c' = to_close c.
Proof. by intros [= -> -> -> -> -> ->]. Qed.

(** ** Flags *)

Lemma has_union f g m : Resp.has (Z.lor f g) m = Resp.has f m || Resp.has g m.
Proof.
  unfold Resp.has. rewrite Z.land_lor_distr_l. destruct (Z.eqb_spec (Z.land f m) 0) as [->|Hf]; [done|]. cbn [negb orb].
  destruct (Z.eqb_spec (Z.lor (Z.land f m) (Z.land g m)) 0) as [[? _]%Z.lor_eq_0_iff|]; done.
Qed.

(** Does the client get replies? *)
Definition takes c : bool := snd (prepareClientToWrite c) && negb (Resp.has (flags c) Resp.CLIENT_CLOSE_AFTER_REPLY).

(** The flags that decide about replies. *)
Record same_role c c' : Prop := {
  sr_takes : takes c' = takes c;
  sr_close : Resp.has (flags c') Resp.CLIENT_CLOSE_AFTER_REPLY = Resp.has (flags c) Resp.CLIENT_CLOSE_AFTER_REPLY;
  sr_slave : Resp.has (flags c') Resp.CLIENT_SLAVE = Resp.has (flags c) Resp.CLIENT_SLAVE
}.

#[export] Instance same_role_pre : PreOrder same_role.
Proof. split; [by split|]. intros a b d [P1 P2 P3] [Q1 Q2 Q3]. split; congruence. Qed.

Lemma prepare_ok c : snd (prepareClientToWrite c) =
  (Resp.has (flags c) (Z.lor CLIENT_LUA CLIENT_MODULE) ||
   (negb (Resp.has (flags c) (Z.lor CLIENT_REPLY_OFF Resp.CLIENT_REPLY_SKIP)) && negb (Resp.has (flags c) Resp.CLIENT_MASTER && negb (Resp.has (flags c) CLIENT_MASTER_FORCE_REPLY)) && negb (fd c <=? 0))).
Proof. unfold prepareClientToWrite. by repeat (destruct (Resp.has _ _); cbn [andb orb negb snd]); destruct (fd c <=? 0). Qed.

(** A new flag that is none of these. *)
Lemma role_flag c c' f : fd c' = fd c -> flags c' = Z.lor (flags c) f -> f = CLIENT_PENDING_WRITE \/ f = Resp.CLIENT_CLOSE_ASAP -> same_role c c'.
Proof.
  intros Ef El Hf. split; unfold takes; rewrite ?prepare_ok, ?El, ?Ef, ?has_union; destruct Hf as [-> | ->];
    repeat match goal with |- context [Resp.has ?x ?y] => is_const x + (match x with Resp.CLIENT_CLOSE_ASAP => idtac end); change (Resp.has x y) with false end;
    by rewrite ?orb_false_r.
Qed.

Lemma role_same c c' : fd c' = fd c -> flags c' = flags c -> same_role c c'.
Proof. intros Ef El. split; unfold takes; by rewrite ?prepare_ok, ?El, ?Ef. Qed.
