(* ===== verification/OutbufProof.v ===== *)
(** * The output buffers keep their promises

    Appending a reply, deferring the length of an array and filling it in. *)
From Stdlib Require Import ZArith Lia String.
From stdpp Require Import base numbers list option gmap.
From S2P Require Import Prelude UtilNum Sds SdsRefine Object Reply Adlist AdlistRefine Outbuf OutbufSpec.
From S2P Require Resp.

Implicit Types (c : oclient) (ps : list entry) (s : list Z) (b : clientReplyBlock) (rho : addr -> list Z).

(** ** Changes of the list *)

Lemma ok_list c ps h l n ps' : buf_ok c ps -> dll h l ps' -> Forall entry_ok ps' -> n = total_size ps' ->
  (head_ok (sentlen c) ps -> head_ok (sentlen c) ps') -> buf_ok (set_list h l n c) ps'.
Proof. intros [] Hd Hb -> Hh. split; cbn [set_list nodes reply buf bufpos sentlen reply_bytes]; auto. Qed.

Lemma stored_list rho c h l n ps : stored rho (set_list h l n c) ps = take (Z.to_nat (bufpos c)) (buf c) ++ contents rho ps.
Proof. done. Qed.

(** The client and its list after [s] is appended, whatever the deferred lengths are. *)
Record appended c ps c' ps' s : Prop := {
  ap_ok : buf_ok c' ps';
  ap_sent : sentlen c' = sentlen c;
  ap_role : same_role c c';
  ap_stored : forall rho, stored rho c' ps' = stored rho c ps ++ s;
  ap_holes : holes ps' = holes ps;
  ap_len : zlen ps <= zlen ps' <= zlen ps + 1
}.

Lemma appended_refl c ps : buf_ok c ps -> appended c ps c ps [].
Proof. intros Hok. split; [done|done|done|intros; by rewrite app_nil_r|done|lia]. Qed.

(** Then the fields that do not matter change. *)
Lemma appended_same c ps c1 ps' c2 s : appended c ps c1 ps' s -> nodes c2 = nodes c1 -> reply c2 = reply c1 -> buf c2 = buf c1 -> bufpos c2 = bufpos c1 ->
  sentlen c2 = sentlen c1 -> reply_bytes c2 = reply_bytes c1 -> same_role c1 c2 -> appended c ps c2 ps' s.
Proof.
  intros [] E1 E2 E3 E4 E5 E6 Hr. destruct (ok_same c1 c2 ps' ap_ok0 E1 E2 E3 E4 E5 E6) as [Hok Hs].
  split; [done|congruence|by etrans|intros rho; by rewrite Hs|done|done].
Qed.

Section OutbufProof.
Context (usable : Z -> Z) (junk : Z -> list Z) (client_obuf_limits : Z -> clientBufferLimitsConfig) (unixtime : Z).
(** An allocator wastes at most as much as it gives. *)
Context (U1 : forall n, 16 <= n -> n <= usable n <= 2 * n) (J1 : forall n, 0 <= n -> zlen (junk n) = n).

Abbreviation new_block := (new_block usable junk).
Abbreviation asyncClose := (asyncCloseClientOnOutputBufferLimitReached client_obuf_limits unixtime).
Abbreviation addList := (_addReplyStringToList usable junk client_obuf_limits unixtime).
Abbreviation add_reply := (add_reply_string usable junk client_obuf_limits unixtime).

(** ** The limits *)

Lemma check_limits_fields c : exists t, fst (checkClientOutputBufferLimits client_obuf_limits unixtime c) = set_soft_time t c.
Proof.
  unfold checkClientOutputBufferLimits. cbv zeta. destruct (_ && (_ >=? soft_limit_bytes _)); [|by exists 0].
  destruct (obuf_soft_limit_reached_time c =? 0) eqn:Et; [by exists unixtime|]. exists (obuf_soft_limit_reached_time c). by destruct c.
Qed.

Lemma free_async_same c : same_role c (freeClientAsync c).
Proof.
  unfold freeClientAsync. destruct (_ || _); [done|]. eapply (role_flag _ _ Resp.CLIENT_CLOSE_ASAP); [done|done|by right].
Qed.

(** The assertion holds, and the buffers stay as they are. *)
Lemma async_close_ok c ps c1 ps1 s rho : appended c ps c1 ps1 s -> zlen (stored rho c1 ps1) < 2 ^ 44 ->
  exists c2, asyncClose c1 = Some c2 /\ appended c ps c2 ps1 s.
Proof.
  intros Ha Hl. pose proof (ap_ok _ _ _ _ _ Ha) as Hok. unfold asyncClose.
  assert (Hb : 0 <= reply_bytes c1 < 2 ^ 60).
  { pose proof (stored_len rho _ _ Hok) as El. rewrite El in Hl. rewrite (ok_bytes _ _ Hok). pose proof (total_bound rho ps1 (ok_blocks _ _ Hok)). pose proof (ok_bufpos _ _ Hok). lia. }
  rewrite (proj2 (Z.ltb_lt _ _)) by lia. cbn [negb]. destruct (_ || _); [by exists c1|].
  destruct (check_limits_fields c1) as [t Et]. destruct (checkClientOutputBufferLimits _ _ c1) as [c2 over] eqn:E2. cbn [fst] in Et. subst c2.
  exists (if over then freeClientAsync (set_soft_time t c1) else set_soft_time t c1). split; [done|].
  assert (Ht : same_role c1 (set_soft_time t c1)) by by apply role_same.
  destruct over; [|by apply (appended_same c ps c1)].
  pose proof (free_async_same (set_soft_time t c1)) as Hf. unfold freeClientAsync in *. destruct (_ || _).
  - by apply (appended_same c ps c1).
  - apply (appended_same c ps c1); [done..|]. by etrans.
Qed.

(** ** Blocks *)

Lemma new_block_ok n s : 0 < zlen s <= n -> n <= 16384 * zlen s -> zlen s < 2 ^ 45 ->
  exists b, new_block n s = Some b /\ block_ok b /\ content b = s /\ n <= size b.
Proof.
  intros Hs Hn Hb. unfold new_block, sizeof_clientReplyBlock. pose proof (U1 (n + 16) ltac:(lia)) as Hu.
  rewrite (uwrap_small 64 (usable (n + 16) - 16)) by lia. set (sz := usable (n + 16) - 16) in *.
  destruct (mwrite_take (junk sz) 0 s) as (m' & E & Hl & Ht); [lia|rewrite J1; lia|]. rewrite E. cbn [mbind option_bind].
  eexists. split; [done|]. rewrite J1 in Hl by lia. split_and!; [split; cbn [used size bytes]; lia|exact Ht|cbn [size]; lia].
Qed.

(** [s] is written at the end of a block that has room. *)
Lemma block_append b s : block_ok b -> zlen s <= size b - used b ->
  exists bs, mwrite (bytes b) (used b) s = Some bs /\
    let b' := {| size := size b; used := used b + zlen s; bytes := bs |} in block_ok b' /\ content b' = content b ++ s.
Proof.
  intros [Hu Hb Hs] Hl. pose proof (zlen_nonneg s). destruct (mwrite_take (bytes b) (used b) s) as (m' & E & Hm & Ht); [lia..|].
  exists m'. split; [done|]. split; [split; cbn [used size bytes]; lia|exact Ht].
Qed.

(** ** Appending to the list *)

Lemma fill_tail_ok c ps s rho : buf_ok c ps -> zlen (stored rho c ps) < 2 ^ 44 ->
  exists c' ps' k, fill_tail c s = Some (c', drop k s) /\ appended c ps c' ps' (take k s) /\ zlen ps' = zlen ps /\ flags c' = flags c.
Proof.
  intros Hok Hl. assert (Hno : exists c' ps' k, Some (c, s) = Some (c', drop k s) /\ appended c ps c' ps' (take k s) /\ zlen ps' = zlen ps /\ flags c' = flags c).
  { exists c, ps, 0%nat. split_and!; [done|by apply appended_refl|done|done]. }
  pose proof (ok_dll _ _ Hok) as Hd. unfold fill_tail. rewrite (dll_tail _ _ _ Hd).
  destruct (decide (ps = [])) as [->|Hne]; [exact Hno|]. destruct (exists_last Hne) as (A & [a v] & ->).
  rewrite lastp_app. cbn [lastp]. rewrite (seg_node _ A [] a v (dll_seg _ _ _ Hd)). cbn [mbind option_bind value].
  destruct v as [b|]; [|exact Hno]. pose proof (ok_blocks _ _ Hok) as Hbs. apply Forall_app in Hbs as [HbA Hb]. apply Forall_cons_1 in Hb as [Hb _]. cbn [entry_ok snd] in Hb.
  assert (Hsz : size b < 2 ^ 60).
  { pose proof (stored_len rho _ _ Hok) as El. rewrite contents_app, zlen_app in El. cbn [contents] in El. rewrite zlen_app, (zlen_content b Hb) in El.
    pose proof (zlen_nonneg (contents rho A)). pose proof (zlen_nonneg (@nil Z)). pose proof (ok_bufpos _ _ Hok). destruct Hb. lia. }
  pose proof (bl_used _ Hb) as Hu. rewrite (uwrap_small 64 (size b - used b)) by lia.
  set (copy := if size b - used b >=? zlen s then zlen s else size b - used b). pose proof (zlen_nonneg s).
  assert (Hc : 0 <= copy <= zlen s /\ copy <= size b - used b) by (subst copy; destruct (Z.geb_spec (size b - used b) (zlen s)); lia).
  set (k := Z.to_nat copy). assert (Hk : zlen (take k s) = copy) by (rewrite zlen_take by lia; lia).
  destruct (block_append b (take k s) Hb) as (bs & Ew & Hb' & Hcb); [lia|]. rewrite Hk in Hb', Hcb. rewrite Ew. cbn [mbind option_bind].
  set (b' := {| size := size b; used := used b + copy; bytes := bs |}) in *.
  destruct (dll_set _ _ A a (Some b) (Some b') [] Hd) as (h' & Es & Hd'). rewrite Es. cbn [mbind option_bind].
  exists (set_list h' (reply c) (reply_bytes c) c), (A ++ [(a, Some b')]), k. split; [done|]. split; [split|split; [|done]].
  - apply (ok_list c _ _ _ _ _ Hok Hd').
    + apply Forall_app. split; [done|]. by constructor.
    + rewrite (ok_bytes _ _ Hok), !total_size_app. done.
    + intros Hh. eapply head_ok_change; [exact Hh|]. cbn [used b']. lia.
  - done.
  - by apply role_same.
  - intros rho'. rewrite stored_list. unfold stored. rewrite !contents_app. cbn [contents]. rewrite Hcb, !app_nil_r. by rewrite !app_assoc.
  - by rewrite !holes_app.
  - unfold zlen. rewrite !length_app. cbn [length]. lia.
  - unfold zlen. rewrite !length_app. done.
Qed.

Lemma appended_trans c ps c1 ps1 c2 ps2 s s' : appended c ps c1 ps1 s -> appended c1 ps1 c2 ps2 s' -> zlen ps1 = zlen ps -> appended c ps c2 ps2 (s ++ s').
Proof.
  intros [] [] Hl. split; [done|congruence|by etrans| |congruence|lia]. intros rho. by rewrite ap_stored1, ap_stored0, app_assoc.
Qed.

(** A node at the end, with a block or for a deferred length. *)
Lemma add_tail_ok c ps v n : buf_ok c ps -> zlen ps < 2 ^ 63 -> entry_ok (1%positive, v) -> n = total_size (ps ++ [(1%positive, v)]) ->
  exists h l, listAddNodeTail (nodes c) (reply c) v = Some (h, l) /\ tail l = Some (alloc (nodes c)) /\
    buf_ok (set_list h l n c) (ps ++ [(alloc (nodes c), v)]).
Proof.
  intros Hok Hl Hv ->. destruct (add_tail_spec _ _ ps v (ok_dll _ _ Hok)) as (h & l & E & Hd & _); [lia|].
  exists h, l. split_and!; [done| |].
  - rewrite (dll_tail _ _ _ Hd), lastp_app. done.
  - apply (ok_list c ps _ _ _ _ Hok Hd).
    + apply Forall_app. split; [exact (ok_blocks _ _ Hok)|]. by constructor.
    + rewrite !total_size_app. done.
    + apply head_ok_app.
Qed.

(** Before the limits are tested. *)
Lemma grow_list_ok c ps s rho : buf_ok c ps -> zlen ps < 2 ^ 63 -> zlen (stored rho c ps) + zlen s < 2 ^ 44 ->
  exists c1 s' c2 ps2, fill_tail c s = Some (c1, s') /\ (if zlen s' =? 0 then Some c1
     else b ← new_block (if zlen s' <? PROTO_REPLY_CHUNK_BYTES then PROTO_REPLY_CHUNK_BYTES else zlen s') s';
       r ← listAddNodeTail (nodes c1) (reply c1) (Some b); Some (set_list (fst r) (snd r) (u64 (reply_bytes c1 + size b)) c1)) = Some c2 /\
    appended c ps c2 ps2 s /\ flags c2 = flags c.
Proof.
  intros Hok Hl Hs. pose proof (zlen_nonneg s). destruct (fill_tail_ok c ps s rho Hok) as (c1 & ps1 & k & E1 & Ha1 & Hl1 & Hf1); [lia|]. exists c1, (drop k s). 
  set (s' := drop k s) in *. destruct (Z.eqb_spec (zlen s') 0) as [E0|Hne].
  - exists c1, ps1. split; [done|]. split; [done|]. split; [|done]. replace s with (take k s); [exact Ha1|]. rewrite <- (take_drop k s) at 2. fold s'. destruct s' as [|x s']; [by rewrite app_nil_r|]. unfold zlen in E0. done.
  - assert (Hle : zlen s' <= zlen s) by (unfold s', zlen; rewrite length_drop; lia). pose proof (zlen_nonneg s').
    assert (Hp : 0 <= zlen (stored rho c ps)) by apply zlen_nonneg.
    destruct (new_block_ok (if zlen s' <? PROTO_REPLY_CHUNK_BYTES then PROTO_REPLY_CHUNK_BYTES else zlen s') s') as (b & Eb & Hb & Hcb & _).
    { unfold PROTO_REPLY_CHUNK_BYTES. destruct (Z.ltb_spec (zlen s') (16 * 1024)); lia. }
    { unfold PROTO_REPLY_CHUNK_BYTES. destruct (Z.ltb_spec (zlen s') (16 * 1024)); lia. }
    { lia. }
    rewrite Eb. cbn [mbind option_bind]. pose proof (ap_ok _ _ _ _ _ Ha1) as Hok1.
    assert (Ht : 0 <= total_size ps1 < 2 ^ 60).
    { pose proof (ap_stored _ _ _ _ _ Ha1 rho) as Es. apply (f_equal zlen) in Es. rewrite zlen_app, (stored_len rho _ _ Hok1) in Es.
      assert (zlen (take k s) <= zlen s) by (unfold zlen; rewrite length_take; lia). pose proof (total_bound rho _ (ok_blocks _ _ Hok1)). pose proof (ok_bufpos _ _ Hok1). lia. }
    destruct (add_tail_ok c1 ps1 (Some b) (u64 (reply_bytes c1 + size b)) Hok1) as (h & l & E & _ & Hok2); [lia|done| |].
    { rewrite (ok_bytes _ _ Hok1), total_size_app. cbn [total_size]. rewrite Z.add_0_r. apply uwrap_small.
      pose proof (bl_size _ Hb). pose proof (bl_used _ Hb). rewrite <- (zlen_content b Hb), Hcb in *. lia. }
    rewrite E. cbn [mbind option_bind fst snd]. eexists _, _. split; [done|]. split; [done|]. split; [|done]. rewrite <- (take_drop k s). fold s'.
    apply (appended_trans c ps c1 ps1); [done| |done]. split; [exact Hok2|done|by apply role_same| | |].
    + intros rho'. rewrite stored_list. unfold stored. rewrite contents_app. cbn [contents]. by rewrite Hcb, app_nil_r, app_assoc.
    + rewrite holes_app. cbn [holes]. by rewrite app_nil_r.
    + unfold zlen. rewrite length_app. cbn [length]. lia.
Qed.

Lemma add_list_ok c ps s rho : buf_ok c ps -> zlen ps < 2 ^ 63 -> zlen (stored rho c ps) + zlen s < 2 ^ 44 ->
  exists c' ps', addList c s = Some c' /\ appended c ps c' ps' (if Resp.has (flags c) Resp.CLIENT_CLOSE_AFTER_REPLY then [] else s).
Proof.
  intros Hok Hl Hs. unfold addList. destruct (Resp.has _ _); [by exists c, ps; split; [|apply appended_refl]|].
  destruct (grow_list_ok c ps s rho Hok Hl Hs) as (c1 & s' & c2 & ps2 & E1 & E2 & Ha2 & _). rewrite E1. cbn [mbind option_bind]. rewrite E2. cbn [mbind option_bind].
  destruct (async_close_ok c ps c2 ps2 s rho Ha2) as (c3 & E3 & Ha3); [rewrite (ap_stored _ _ _ _ _ Ha2), zlen_app; lia|].
  exists c3, ps2. split; [exact E3|exact Ha3].
Qed.

(** ** [addReplyString] *)

Lemma prepare_same c ps : buf_ok c ps -> appended c ps (fst (prepareClientToWrite c)) ps [].
Proof.
  intros Hok. pose proof (appended_refl c ps Hok) as Hr. unfold prepareClientToWrite. destruct (Resp.has (flags c) (Z.lor CLIENT_LUA CLIENT_MODULE)); [exact Hr|].
  destruct (Resp.has (flags c) (Z.lor CLIENT_REPLY_OFF Resp.CLIENT_REPLY_SKIP)); [exact Hr|].
  destruct (Resp.has (flags c) Resp.CLIENT_MASTER && _); [exact Hr|]. destruct (fd c <=? 0); [exact Hr|]. cbn [fst]. destruct (clientHasPendingReplies c); [exact Hr|]. unfold clientInstallWriteHandler. destruct (_ && _); [|exact Hr].
  apply (appended_same c ps c); [done..|]. eapply (role_flag _ _ CLIENT_PENDING_WRITE); [done|done|by left].
Qed.

Lemma appended_then c ps c1 c2 ps2 s : appended c ps c1 ps [] -> appended c1 ps c2 ps2 s -> appended c ps c2 ps2 s.
Proof. intros H1 H2. apply (appended_trans c ps c1 ps c2 ps2 [] s H1 H2). done. Qed.

Lemma add_buffer_ok c ps s : buf_ok c ps ->
  exists c' ok, _addReplyToBuffer c s = Some (c', ok) /\
    (if ok then appended c ps c' ps (if Resp.has (flags c) Resp.CLIENT_CLOSE_AFTER_REPLY then [] else s) else c' = c).
Proof.
  intros Hok. pose proof (zlen_nonneg s). pose proof (ok_bufpos _ _ Hok) as Hp. unfold _addReplyToBuffer, PROTO_REPLY_CHUNK_BYTES in *.
  rewrite (uwrap_small 64) by lia. destruct (Resp.has _ _) eqn:Ec; [exists c, true; split; [done|by apply appended_refl]|].
  rewrite (dll_len _ _ _ (ok_dll _ _ Hok)). destruct (Z.gtb_spec (zlen ps) 0) as [|Hps]; [by exists c, false|].
  destruct (Z.gtb_spec (zlen s) (16 * 1024 - bufpos c)) as [|Hs]; [by exists c, false|].
  assert (ps = []) as -> by (destruct ps; [done|rewrite zlen_cons in Hps; pose proof (zlen_nonneg ps); lia]).
  pose proof (ok_buf _ _ Hok) as Hb. unfold PROTO_REPLY_CHUNK_BYTES in Hb.
  destruct (mwrite_take (buf c) (bufpos c) s) as (m' & E & Hm & Ht); [lia..|]. rewrite E. cbn [mbind option_bind]. rewrite swrap_small by (unfold in_s; lia).
  exists (set_buf m' (bufpos c + zlen s) c), true. split; [done|]. split; [|done|by apply role_same| |done|lia].
  - pose proof (ok_sent_list _ _ Hok) as Hl. split; cbn [set_buf nodes reply buf bufpos sentlen reply_bytes].
    + exact (ok_dll _ _ Hok).
    + unfold PROTO_REPLY_CHUNK_BYTES. lia.
    + unfold PROTO_REPLY_CHUNK_BYTES. lia.
    + exact (ok_blocks _ _ Hok).
    + exact (ok_bytes _ _ Hok).
    + exact (ok_sentlen _ _ Hok).
    + pose proof (ok_sent_buf _ _ Hok) as Hq. intros Hp'. destruct (decide (0 < bufpos c)) as [Hb'|Hb']; [specialize (Hq Hb'); lia|]. specialize (Hl ltac:(lia)). cbn [head_ok] in Hl. lia.
    + intros Hp'. apply Hl. lia.
  - intros rho. unfold stored. cbn [set_buf buf bufpos contents]. by rewrite Ht, !app_nil_r.
Qed.

(** A client that takes replies has the reply at the end of what it stores, one that
    does not is as before. *)
Lemma add_reply_ok c ps s rho : buf_ok c ps -> zlen ps < 2 ^ 63 -> zlen (stored rho c ps) + zlen s < 2 ^ 44 ->
  exists c' ps', add_reply c s = Some c' /\ appended c ps c' ps' (if takes c then s else []).
Proof.
  intros Hok Hl Hs. pose proof (prepare_same c ps Hok) as Hp. unfold add_reply, add_reply_string, takes.
  destruct (prepareClientToWrite c) as [c1 ok]. cbn [fst snd] in *. destruct ok; cbn [negb andb]; [|by exists c1, ps].
  pose proof (ap_ok _ _ _ _ _ Hp) as Hok1. destruct (add_buffer_ok c1 ps s Hok1) as (c2 & ok & E2 & H2). rewrite E2. cbn [mbind option_bind].
  pose proof (ap_role _ _ _ _ _ Hp) as Hr. rewrite <- (sr_close _ _ Hr), if_negb. destruct ok.
  - exists c2, ps. split; [done|]. by apply (appended_then c ps c1).
  - subst c2. destruct (add_list_ok c1 ps s rho Hok1 Hl) as (c3 & ps3 & E3 & H3); [rewrite (ap_stored _ _ _ _ _ Hp), app_nil_r; lia|].
    exists c3, ps3. split; [exact E3|]. by apply (appended_then c ps c1).
Qed.

(** ** Deferred lengths *)

(** A place for the length of an array is left: the address stands for it. *)
Lemma add_deferred_ok c ps : buf_ok c ps -> zlen ps < 2 ^ 63 ->
  if snd (prepareClientToWrite c) then
    exists c' n, addDeferredMultiBulkLength c = Some (c', Some n) /\ (n ∉ ps.*1) /\ buf_ok c' (ps ++ [(n, None)]) /\
    sentlen c' = sentlen c /\ same_role c c' /\ forall rho, stored rho c' (ps ++ [(n, None)]) = stored rho c ps ++ rho n
  else exists c', addDeferredMultiBulkLength c = Some (c', None) /\ appended c ps c' ps [].
Proof.
  intros Hok Hl. pose proof (prepare_same c ps Hok) as Hp. unfold addDeferredMultiBulkLength.
  destruct (prepareClientToWrite c) as [c1 ok]. cbn [fst snd] in *. destruct ok; cbn [negb]; [|by exists c1].
  pose proof (ap_ok _ _ _ _ _ Hp) as Hok1.
  destruct (add_tail_ok c1 ps None (reply_bytes c1) Hok1) as (h & l & E & Ht & Hok2); [done|done|rewrite (ok_bytes _ _ Hok1), total_size_app; cbn [total_size]; lia|].
  rewrite E. cbn [mbind option_bind fst snd]. rewrite Ht. eexists _, _. split; [done|]. split_and!.
  - pose proof (dll_nodup _ _ _ (ok_dll _ _ Hok2)) as Hn. rewrite fmap_app in Hn. apply NoDup_app in Hn as (_ & Hn & _). intros Hin. apply (Hn _ Hin). by left.
  - exact Hok2.
  - apply (ap_sent _ _ _ _ _ Hp).
  - etrans; [apply (ap_role _ _ _ _ _ Hp)|by apply role_same].
  - intros rho. pose proof (ap_stored _ _ _ _ _ Hp rho) as Es. rewrite app_nil_r in Es. rewrite <- Es. rewrite stored_list. unfold stored. rewrite contents_app. cbn [contents]. by rewrite app_nil_r, app_assoc.
Qed.

Definition length_line (n : Z) : list Z := bytes_of "*" ++ dec n ++ [13; 10].

Lemma length_line_len n : in_s 64 n -> 4 <= zlen (length_line n) <= 23.
Proof. intros Hn. unfold length_line. rewrite !zlen_app. pose proof (dec_len_le n Hn). change (zlen (bytes_of "*")) with 1. change (zlen [13; 10]) with 2. lia. Qed.

(** A block with [s] before what it holds. *)
Lemma block_prepend b s : block_ok b -> zlen s <= size b - used b ->
  exists old m bs, mread (bytes b) 0 (used b) = Some old /\ mwrite (bytes b) (zlen s) old = Some m /\ mwrite m 0 s = Some bs /\
    let b' := {| size := size b; used := used b + zlen s; bytes := bs |} in block_ok b' /\ content b' = s ++ content b.
Proof.
  intros [Hu Hb Hs] Hl. pose proof (zlen_nonneg s). destruct (mread_is_Some (bytes b) 0 (used b)) as (old & Eo & Ho); [lia..|].
  assert (Eold : old = content b). { unfold mread in Eo. destruct (_ && _); [|done]. injection Eo as <-. done. }
  destruct (mwrite_take (bytes b) (zlen s) old) as (m & Em & Hm & Htm); [lia..|].
  destruct (mwrite_take m 0 s) as (bs & Ebs & Hbs & _); [lia..|]. exists old, m, bs. split; [done|]. split; [done|]. split; [done|]. split; [split; cbn [used size bytes]; lia|].
  unfold content at 1. cbn [used bytes]. unfold mwrite in Ebs. destruct (_ && _); [|done]. injection Ebs as <-. cbn [Z.to_nat take app Z.add].
  rewrite take_app. rewrite (take_ge s) by (unfold zlen in *; lia). f_equal.
  replace (Z.to_nat (used b + zlen s) - length s)%nat with (Z.to_nat (used b)) by (unfold zlen in *; lia).
  rewrite <- Eold. replace (Z.to_nat (zlen s + zlen old)) with (length s + Z.to_nat (used b))%nat in Htm by (unfold zlen in *; lia).
  rewrite take_drop_commute. replace (Z.to_nat (0 + zlen s)) with (length s) by (unfold zlen; lia).
  rewrite Htm. rewrite drop_app_length'; [done|]. rewrite length_take. unfold zlen in *. lia.
Qed.

Definition rho_set rho (n : addr) s : addr -> list Z := fun a => if decide (a = n) then s else rho a.

Lemma contents_set rho n s ps : n ∉ ps.*1 -> contents (rho_set rho n s) ps = contents rho ps.
Proof.
  induction ps as [|[a v] ps IH]; [done|]. cbn [fmap list_fmap fst contents]. intros [Hne Hn]%not_elem_of_cons. rewrite IH by done.
  destruct v; [done|]. unfold rho_set. by rewrite decide_False by congruence.
Qed.

(** The placeholder [n] has become [line]. *)
Record filled c A (n : addr) B line c' ps' : Prop := {
  fi_ok : buf_ok c' ps';
  fi_sent : sentlen c' = sentlen c;
  fi_role : same_role c c';
  fi_holes : holes ps' = holes A ++ holes B;
  fi_len : zlen ps' <= zlen (A ++ (n, None) :: B);
  fi_stored : forall rho, stored rho c' ps' = stored (rho_set rho n line) c (A ++ (n, None) :: B)
}.

Lemma stored_filled rho n line c A B : n ∉ A.*1 -> n ∉ B.*1 ->
  stored (rho_set rho n line) c (A ++ (n, None) :: B) = take (Z.to_nat (bufpos c)) (buf c) ++ contents rho A ++ line ++ contents rho B.
Proof. intros HA HB. unfold stored. rewrite contents_app. cbn [contents]. rewrite !contents_set by done. unfold rho_set. by rewrite decide_True by done. Qed.

Lemma hole_fresh c A n B : buf_ok c (A ++ (n, None) :: B) -> (n ∉ A.*1) /\ n ∉ B.*1.
Proof.
  intros Hok. destruct (nodup_parts A ((n, None) :: B) (dll_nodup _ _ _ (ok_dll _ _ Hok))) as (_ & HnB & HnA & _). split.
  - intros Hin. apply (HnA _ Hin). by left.
  - cbn [fmap list_fmap fst] in HnB. by apply NoDup_cons in HnB as [HnB _].
Qed.

(** In its own block. *)
Lemma own_block_ok c A n B m : buf_ok c (A ++ (n, None) :: B) -> in_s 64 m -> total_size (A ++ (n, None) :: B) < 2 ^ 60 ->
  exists c' ps', (b ← new_block (zlen (length_line m)) (length_line m); h ← set_value (nodes c) n (Some b); Some (set_list h (reply c) (u64 (reply_bytes c + size b)) c)) = Some c' /\
    filled c A n B (length_line m) c' ps'.
Proof.
  intros Hok Hm Ht. pose proof (length_line_len m Hm) as Hlen. set (line := length_line m) in *. destruct (hole_fresh _ _ _ _ Hok) as [HnA HnB].
  pose proof (ok_blocks _ _ Hok) as Hbs. apply Forall_app in Hbs as [HbA HbB]. apply Forall_cons_1 in HbB as [_ HbB].
  destruct (new_block_ok (zlen line) line) as (b & Eb & Hb & Hcb & _); [lia..|]. rewrite Eb. cbn [mbind option_bind].
  destruct (dll_set _ _ A n None (Some b) B (ok_dll _ _ Hok)) as (h & Eh & Hd'). rewrite Eh. cbn [mbind option_bind].
  eexists _, (A ++ (n, Some b) :: B). split; [done|]. split.
  - apply (ok_list c _ _ _ _ _ Hok Hd').
    + apply Forall_app. split; [done|]. by constructor.
    + rewrite (ok_bytes _ _ Hok). pose proof (total_bound (fun _ => []) A HbA). pose proof (total_bound (fun _ => []) B HbB). rewrite !total_size_app in *. cbn [total_size] in *.
      rewrite uwrap_small; [lia|]. pose proof (bl_size _ Hb). pose proof (bl_used _ Hb). rewrite <- (zlen_content b Hb), Hcb in *. lia.
    + intros Hh'. by eapply head_ok_change.
  - done.
  - by apply role_same.
  - by rewrite holes_app.
  - unfold zlen. rewrite !length_app. done.
  - intros rho. rewrite stored_list, stored_filled, contents_app by done. cbn [contents]. by rewrite Hcb.
Qed.

(** In front of what the next block holds. *)
Lemma glued_ok c A n a b B m : buf_ok c (A ++ (n, None) :: (a, Some b) :: B) -> in_s 64 m -> zlen (A ++ (n, None) :: (a, Some b) :: B) < 2 ^ 63 ->
  zlen (length_line m) <= size b - used b ->
  exists c' ps', (old ← mread (bytes b) 0 (used b); bs ← mwrite (bytes b) (zlen (length_line m)) old; bs ← mwrite bs 0 (length_line m);
      h ← set_value (nodes c) a (Some {| size := size b; used := used b + zlen (length_line m); bytes := bs |});
      r ← listDelNode h (reply c) n; Some (set_list (fst r) (snd r) (reply_bytes c) c)) = Some c' /\
    filled c A n ((a, Some b) :: B) (length_line m) c' ps'.
Proof.
  intros Hok Hm Hl Hge. pose proof (length_line_len m Hm) as Hlen. set (line := length_line m) in *. destruct (hole_fresh _ _ _ _ Hok) as [HnA HnB].
  pose proof (ok_dll _ _ Hok) as Hd. pose proof (ok_blocks _ _ Hok) as Hbs. apply Forall_app in Hbs as [HbA HbB]. apply Forall_cons_1 in HbB as [_ HbB].
  apply Forall_cons_1 in HbB as [Hb HbB]. cbn [entry_ok snd] in Hb.
  destruct (block_prepend b line Hb Hge) as (old & m' & bs & E1 & E2 & E3 & Hb' & Hcb').
  rewrite E1. cbn [mbind option_bind]. rewrite E2. cbn [mbind option_bind]. rewrite E3. cbn [mbind option_bind].
  set (b' := {| size := size b; used := used b + zlen line; bytes := bs |}) in *. pose proof (dll_len _ _ _ Hd) as Hdl.
  replace (A ++ (n, None) :: (a, Some b) :: B) with ((A ++ [(n, None)]) ++ (a, Some b) :: B) in Hd by by rewrite <- app_assoc.
  destruct (dll_set _ _ (A ++ [(n, None)]) a (Some b) (Some b') B Hd) as (h & Eh & Hd'). rewrite Eh. cbn [mbind option_bind].
  rewrite <- app_assoc in Hd'. cbn [app] in Hd'. destruct (del_spec h (reply c) A ((a, Some b') :: B) n None Hd') as (h2 & l2 & E4 & Hd2 & _); [rewrite Hdl; lia|].
  rewrite E4. cbn [mbind option_bind fst snd]. eexists _, (A ++ (a, Some b') :: B). split; [done|]. split.
  - apply (ok_list c _ _ _ _ _ Hok Hd2).
    + apply Forall_app. split; [done|]. by constructor.
    + rewrite (ok_bytes _ _ Hok), !total_size_app. done.
    + intros Hh'. apply head_ok_remove in Hh'. eapply head_ok_change; [exact Hh'|]. cbn [used b']. lia.
  - done.
  - by apply role_same.
  - by rewrite !holes_app.
  - unfold zlen. rewrite !length_app. cbn [length]. lia.
  - intros rho. rewrite stored_list, stored_filled, contents_app by done. cbn [contents]. by rewrite Hcb', !app_assoc.
Qed.

(** The node gets the line, in one way or the other. *)
Lemma set_deferred_ok c A n B m rho : buf_ok c (A ++ (n, None) :: B) -> in_s 64 m -> zlen (A ++ (n, None) :: B) < 2 ^ 63 ->
  zlen (stored rho c (A ++ (n, None) :: B)) < 2 ^ 43 ->
  exists c' ps', setDeferredMultiBulkLength usable junk client_obuf_limits unixtime c (Some n) m = Some c' /\ filled c A n B (length_line m) c' ps'.
Proof.
  intros Hok Hm Hps Hs. pose proof (length_line_len m Hm) as Hlen. unfold setDeferredMultiBulkLength. fold (length_line m).
  assert (Hend : forall c1 ps1, filled c A n B (length_line m) c1 ps1 -> exists c' ps', asyncClose c1 = Some c' /\ filled c A n B (length_line m) c' ps').
  { intros c1 ps1 Hf. destruct (hole_fresh _ _ _ _ Hok) as [HnA HnB]. destruct Hf as [F1 F2 F3 F4 F5 F6]. destruct (async_close_ok c1 ps1 c1 ps1 [] rho (appended_refl _ _ F1)) as (c2 & E2 & Ha).
    - rewrite F6, stored_filled by done. revert Hs. unfold stored. rewrite contents_app, !zlen_app. cbn [contents]. rewrite !zlen_app. pose proof (zlen_nonneg (rho n)). lia.
    - exists c2, ps1. split; [exact E2|]. destruct Ha as [A1 A2 A3 A4 _ _]. split; [done|congruence|by etrans|done|done|]. intros rho'. by rewrite A4, app_nil_r. }
  pose proof (ok_dll _ _ Hok) as Hd. pose proof (ok_blocks _ _ Hok) as Hbs.
  assert (Ht : zlen (contents rho (A ++ (n, None) :: B)) < 2 ^ 43) by (pose proof (stored_len rho _ _ Hok); pose proof (ok_bufpos _ _ Hok); lia).
  destruct (own_block_ok c A n B m Hok Hm) as (c1 & ps1 & E1 & Hf1); [pose proof (total_bound rho _ Hbs); lia|].
  rewrite (seg_node _ A B n None (dll_seg _ _ _ Hd)). cbn [mbind option_bind value next].
  destruct B as [|[a v] B]; cbn [hdp mbind option_bind]; [cbv zeta; rewrite E1; by apply (Hend c1 ps1)|].
  assert (Ea : nodes c !! a = Some {| prev := Some n; next := hdp B None; value := v |}).
  { pose proof (dll_seg _ _ _ Hd) as Hsg. apply seg_app in Hsg as (_ & _ & Hsg). apply Hsg. }
  rewrite Ea. cbn [mbind option_bind value]. destruct v as [b|]; cbn [mbind option_bind]; [|cbv zeta; rewrite E1; by apply (Hend c1 ps1)].
  cbv zeta. destruct (_ && _) eqn:Eg; [|rewrite E1; by apply (Hend c1 ps1)]. apply andb_true_iff in Eg as [Eg _].
  apply Forall_app in Hbs as [_ HbB]. apply Forall_cons_1 in HbB as [_ HbB]. apply Forall_cons_1 in HbB as [Hb _]. cbn [entry_ok snd] in Hb.
  assert (used b < 2 ^ 43).
  { revert Ht. rewrite contents_app. cbn [contents]. rewrite !zlen_app, (zlen_content b Hb). pose proof (zlen_nonneg (contents rho A)). pose proof (zlen_nonneg (contents rho B)).
    pose proof (zlen_nonneg (rho n)). lia. }
  pose proof (bl_used _ Hb). pose proof (bl_size _ Hb). rewrite (uwrap_small 64) in Eg by lia. destruct (Z.geb_spec (size b - used b) (zlen (length_line m))) as [Hge|]; [|done].
  destruct (glued_ok c A n a b B m Hok Hm Hps Hge) as (c2 & ps2 & E2 & Hf2). rewrite E2. by apply (Hend c2 ps2).
Qed.
End OutbufProof.
