(* ===== verification/OutbufSend.v ===== *)
(** * Sending what is stored

    [writeToClient] sends a prefix of what is pending whatever the kernel answers,
    and repeated calls send everything when each can make progress. *)
From Stdlib Require Import ZArith Lia String.
From stdpp Require Import base numbers list option gmap.
From S2P Require Import Prelude UtilNum Sds SdsRefine Object Reply Adlist AdlistRefine Outbuf OutbufSpec OutbufProof.
From S2P Require Resp.

Implicit Types (c : oclient) (ps : list entry) (s : list Z) (b : clientReplyBlock).

(** What is to be sent when no length is deferred. *)
Definition sendable c ps : list Z := pending (fun _ => []) c ps.

Lemma stored_zlen_take c ps : buf_ok c ps -> zlen (take (Z.to_nat (bufpos c)) (buf c)) = bufpos c.
Proof. intros Hok. pose proof (ok_bufpos _ _ Hok). pose proof (ok_buf _ _ Hok). unfold zlen in *. rewrite length_take. lia. Qed.

Lemma drop_take_cut {A} (m : list A) i n : 0 <= i -> 0 <= n -> i + n <= zlen m -> mread m i n = Some (drop (Z.to_nat i) (take (Z.to_nat (i + n)) m)).
Proof.
  intros. unfold mread. rewrite !Zle_imp_le_bool by lia. cbn. rewrite take_drop_commute. do 3 f_equal. lia.
Qed.

Lemma zlen_drop_to {A} (m : list A) i : 0 <= i <= zlen m -> zlen (drop (Z.to_nat i) m) = zlen m - i.
Proof. intros. unfold zlen in *. rewrite length_drop. lia. Qed.

(** Taking [n] bytes from what is left after [i]. *)
Lemma take_then {A} (x r : list A) i n : 0 <= i -> 0 <= n -> i + n <= zlen x ->
  take (Z.to_nat n) (drop (Z.to_nat i) x) ++ drop (Z.to_nat (i + n)) (x ++ r) = drop (Z.to_nat i) (x ++ r).
Proof.
  intros. rewrite !drop_app_le by (unfold zlen in *; lia). rewrite app_assoc. f_equal.
  replace (Z.to_nat (i + n)) with (Z.to_nat i + Z.to_nat n)%nat by lia. rewrite <- drop_drop. apply take_drop.
Qed.

(** ** One write *)

Lemma send_buf c ps : buf_ok c ps -> 0 < bufpos c -> exists chunk, mread (buf c) (sentlen c) (bufpos c - sentlen c) = Some chunk /\ 0 < zlen chunk /\
  forall n, 0 < n <= zlen chunk ->
    let c1 := set_sentlen (sentlen c + n) c in
    let c2 := if sentlen c1 =? bufpos c1 then set_sentlen 0 (set_buf (buf c1) 0 c1) else c1 in
    buf_ok c2 ps /\ sentlen c2 <= sentlen c + n /\ take (Z.to_nat n) chunk ++ sendable c2 ps = sendable c ps.
Proof.
  intros Hok Hp. pose proof (ok_sentlen _ _ Hok). pose proof (ok_sent_buf _ _ Hok Hp). pose proof (ok_bufpos _ _ Hok). pose proof (ok_buf _ _ Hok).
  pose proof (stored_zlen_take _ _ Hok) as Hx. eexists. split; [apply drop_take_cut; lia|]. replace (sentlen c + (bufpos c - sentlen c)) with (bufpos c) by lia.
  set (x := take (Z.to_nat (bufpos c)) (buf c)) in *. rewrite zlen_drop_to by lia. split; [lia|]. intros n Hn c1 c2.
  assert (Hs : take (Z.to_nat n) (drop (Z.to_nat (sentlen c)) x) ++ drop (Z.to_nat (sentlen c + n)) (x ++ contents (fun _ => []) ps) = sendable c ps) by (apply (take_then x); lia).
  subst c2. destruct (Z.eqb_spec (sentlen c1) (bufpos c1)) as [He|He]; cbn [set_sentlen sentlen bufpos c1] in He.
  - split.
    + destruct Hok. split; cbn [c1 set_sentlen set_buf nodes reply buf bufpos sentlen reply_bytes]; try done; try lia. intros _. apply head_ok_zero.
    + split; [cbn [set_sentlen sentlen]; lia|]. rewrite <- Hs. f_equal. unfold sendable, pending, stored. cbn [c1 set_sentlen set_buf sentlen bufpos buf]. cbn [Z.to_nat take app drop]. rewrite He, <- Hx. symmetry. apply drop_zlen_app.
  - split; [|split; [cbn [c1 set_sentlen sentlen]; lia|exact Hs]]. destruct Hok. split; cbn [c1 set_sentlen nodes reply buf bufpos sentlen reply_bytes]; try done; try lia; intros; exfalso; lia.
Qed.

Lemma send_list c a b ps : buf_ok c ((a, Some b) :: ps) -> bufpos c = 0 -> zlen ps < 2 ^ 63 -> total_size ((a, Some b) :: ps) < 2 ^ 64 ->
  exists chunk, mread (bytes b) (sentlen c) (used b - sentlen c) = Some chunk /\ 0 < zlen chunk /\
  forall n, 0 < n <= zlen chunk ->
    let c1 := set_sentlen (sentlen c + n) c in
    exists c2 ps2, (if sentlen c1 =? used b then
        r ← listDelNode (nodes c1) (reply c1) a;
        let c := set_sentlen 0 (set_list (fst r) (snd r) (u64 (reply_bytes c1 - size b)) c1) in
        if (len (reply c) =? 0) && negb (reply_bytes c =? 0) then None else Some c
      else Some c1) = Some c2 /\
    buf_ok c2 ps2 /\ holes ps2 = holes ps /\ zlen ps2 <= zlen ps + 1 /\ total_size ps2 <= total_size ((a, Some b) :: ps) /\ fixed c2 = fixed c /\ sentlen c2 <= sentlen c + n /\
    take (Z.to_nat n) chunk ++ sendable c2 ps2 = sendable c ((a, Some b) :: ps).
Proof.
  intros Hok Hp Hl Ht. pose proof (ok_sentlen _ _ Hok) as Hs0. pose proof (ok_sent_list _ _ Hok Hp) as Hh. cbn [head_ok] in Hh.
  pose proof (ok_blocks _ _ Hok) as Hbs. apply Forall_cons_1 in Hbs as [Hb Hbs]. cbn [entry_ok snd] in Hb. destruct (Hb) as [Hu Hbl Hsz].
  eexists. split; [apply drop_take_cut; lia|]. replace (sentlen c + (used b - sentlen c)) with (used b) by lia. fold (content b). pose proof (zlen_content b Hb) as Hc.
  rewrite zlen_drop_to by lia. split; [lia|]. intros n Hn c1.
  assert (Hs : take (Z.to_nat n) (drop (Z.to_nat (sentlen c)) (content b)) ++ drop (Z.to_nat (sentlen c + n)) (content b ++ contents (fun _ => []) ps) = sendable c ((a, Some b) :: ps)).
  { unfold sendable, pending, stored. rewrite Hp. apply (take_then (content b) (contents (fun _ => []) ps)); lia. }
  destruct (Z.eqb_spec (sentlen c1) (used b)) as [He|He]; cbn [set_sentlen sentlen c1] in He.
  - destruct (del_spec (nodes c1) (reply c1) [] ps a (Some b)) as (h' & l' & E & Hd & _); [exact (ok_dll _ _ Hok)|change (reply c1) with (reply c); rewrite (dll_len _ _ _ (ok_dll _ _ Hok)), zlen_cons; lia|].
    rewrite E. cbn [mbind option_bind fst snd app] in Hd |- *. cbn [set_sentlen set_list reply reply_bytes c1].
    pose proof (ok_bytes _ _ Hok) as Hby. cbn [total_size] in Hby. rewrite Hby. replace (size b + total_size ps - size b) with (total_size ps) by lia.
    pose proof (total_bound (fun _ => []) ps Hbs). cbn [total_size] in Ht. rewrite uwrap_small by lia.
    assert (Hz : (len l' =? 0) && negb (total_size ps =? 0) = false).
    { rewrite (dll_len _ _ _ Hd). destruct ps as [|q ps]; [done|]. rewrite zlen_cons. pose proof (zlen_nonneg ps). by rewrite (proj2 (Z.eqb_neq _ 0)) by lia. }
    rewrite Hz. eexists _, ps. split; [done|]. split.
    + apply (ok_list (set_sentlen 0 c) ((a, Some b) :: ps)); [|exact Hd|done|done|intros _; apply head_ok_zero].
      destruct Hok. split; cbn [set_sentlen nodes reply buf bufpos sentlen reply_bytes]; try done; try lia. intros _. apply head_ok_zero.
    + split; [done|]. split; [lia|]. split; [cbn [total_size]; lia|]. split; [done|]. split; [cbn [set_sentlen sentlen]; lia|]. rewrite <- Hs. f_equal. unfold sendable, pending, stored.
      cbn [c1 set_sentlen set_list sentlen bufpos buf]. rewrite Hp, He, <- Hc. symmetry. apply drop_zlen_app.
  - exists c1, ((a, Some b) :: ps). split; [done|]. split.
    + destruct Hok. split; cbn [c1 set_sentlen nodes reply buf bufpos sentlen reply_bytes head_ok]; try done; try lia.
    + split; [done|]. split; [rewrite zlen_cons; lia|]. split; [lia|]. split; [done|]. split; [cbn [c1 set_sentlen sentlen]; lia|]. rewrite <- Hs. unfold sendable, pending, stored. cbn [c1 set_sentlen sentlen bufpos buf]. by rewrite Hp.
Qed.

(** ** The loop *)

Lemma sendable_zlen c ps : buf_ok c ps -> zlen (sendable c ps) = zlen (stored (fun _ => []) c ps) - sentlen c.
Proof. intros Hok. unfold sendable, pending. apply zlen_drop_to. split; [apply (ok_sentlen _ _ Hok)|by apply sent_le]. Qed.

Lemma sendable_nil c ps : buf_ok c ps -> holes ps = [] -> clientHasPendingReplies c = negb (zlen (sendable c ps) =? 0).
Proof.
  intros Hok Hh. rewrite (dll_pending c ps Hok), (sendable_zlen c ps Hok), (stored_len _ c ps Hok). pose proof (ok_bufpos _ _ Hok).
  destruct (Z.eqb_spec (bufpos c) 0) as [Hp|Hp]; cbn [negb orb].
  - pose proof (ok_sent_list _ _ Hok Hp) as Hs. destruct ps as [|[a [b|]] ps]; [| |done].
    + cbn [head_ok] in Hs. rewrite Hp, Hs. done.
    + cbn [head_ok] in Hs. pose proof (ok_blocks _ _ Hok) as Hb. apply Forall_cons_1 in Hb as [Hb _]. cbn [entry_ok snd] in Hb. pose proof (bl_used _ Hb).
      cbn [contents]. rewrite zlen_app, (zlen_content b Hb). pose proof (zlen_nonneg (contents (fun _ => []) ps)). rewrite (proj2 (Z.eqb_neq _ 0)) by lia. done.
  - pose proof (ok_sent_buf _ _ Hok ltac:(lia)). pose proof (zlen_nonneg (contents (fun _ => []) ps)). rewrite (proj2 (Z.eqb_neq _ 0)) by lia. done.
Qed.

Section OutbufSend.
Context (maxmemory zmalloc_used_memory : Z).

Abbreviation write_loop := (write_loop maxmemory zmalloc_used_memory).
Abbreviation writeToClient := (writeToClient maxmemory zmalloc_used_memory).

(** The invariant between commands: no length is deferred. *)
Record settled c ps : Prop := {
  se_ok : buf_ok c ps;
  se_holes : holes ps = [];
  se_len : zlen ps < 2 ^ 63;
  se_size : total_size ps < 2 ^ 60
}.

(** [p'] is [p] after some writes. *)
Record sent_on (p : progress) ps (p' : progress) ps' : Prop := {
  so_ok : settled (p_client p') ps';
  so_sent : p_sent p' ++ sendable (p_client p') ps' = p_sent p ++ sendable (p_client p) ps;
  so_fixed : fixed (p_client p') = fixed (p_client p);
  so_more : zlen (p_sent p) <= zlen (p_sent p');
  so_sentlen : sentlen (p_client p') + zlen (p_sent p) <= sentlen (p_client p) + zlen (p_sent p')
}.

Lemma settled_size c ps : buf_ok c ps -> holes ps = [] -> zlen (stored (fun _ => []) c ps) < 2 ^ 44 -> settled c ps.
Proof.
  intros Hok Hh Hl. rewrite (stored_len _ c ps Hok) in Hl. pose proof (ok_bufpos _ _ Hok). pose proof (total_bound (fun _ => []) ps (ok_blocks _ _ Hok)).
  pose proof (blocks_len (fun _ => []) ps (ok_blocks _ _ Hok)) as Hb. rewrite Hh in Hb. change (zlen []) with 0 in Hb. split; [done..|lia|lia].
Qed.

(** A write of the loop that takes something. *)
Lemma write_step p ps : settled (p_client p) ps -> clientHasPendingReplies (p_client p) = true ->
  exists chunk, 0 < zlen chunk /\
    forall fuel, let '(n, answers) := write (p_answers p) chunk in
    if n <=? 0 then write_loop (S fuel) p = Some {| p_client := p_client p; p_answers := answers; p_nwritten := n; p_totwritten := p_totwritten p; p_sent := p_sent p |}
    else exists p' ps', sent_on p ps p' ps' /\ p_answers p' = answers /\ zlen (p_sent p) < zlen (p_sent p') /\
      (write_loop (S fuel) p = Some p' \/ write_loop (S fuel) p = write_loop fuel p').
Proof.
  intros [Hok Hh Hl Ht] Hp. set (c := p_client p) in *. pose proof (ok_bufpos _ _ Hok) as Hb.
  assert (Hagain : forall (x : bool) p' fuel, let r := if x then Some p' else write_loop fuel p' in r = Some p' \/ r = write_loop fuel p').
  { intros [] p' fuel; cbn; auto. }
  destruct (Z.gtb_spec (bufpos c) 0) as [Hpos|Hz].
  - destruct (send_buf c ps Hok) as (chunk & E & Hc & Hn); [lia|]. exists chunk. split; [done|]. intros fuel. cbn [Outbuf.write_loop]. fold c. rewrite Hp. cbn [negb].
    rewrite (proj2 (Z.gtb_lt _ _)), E by lia. cbn [mbind option_bind]. destruct (write (p_answers p) chunk) as [n answers] eqn:Ew. destruct (Z.leb_spec n 0); [done|].
    assert (Hnc : n <= zlen chunk) by (unfold write in Ew; destruct (p_answers p); injection Ew as <- _; lia).
    destruct (Hn n ltac:(lia)) as (Hok2 & Hsl & Hs2). cbv zeta in Hok2, Hsl, Hs2 |- *. set (c2 := if sentlen (set_sentlen (sentlen c + n) c) =? _ then _ else _) in *.
    eexists _, ps. split; [|split; [|split; [|apply Hagain]]]; [|done|].
    + assert (Hf : fixed c2 = fixed c) by (subst c2; destruct (_ =? _); done).
      split; cbn [p_client p_sent]; [by split| |exact Hf| |].
      * by rewrite <- app_assoc, Hs2.
      * rewrite zlen_app. pose proof (zlen_nonneg (take (Z.to_nat n) chunk)). lia.
      * rewrite zlen_app, zlen_take by lia. subst c. lia.
    + cbn [p_sent]. rewrite zlen_app, zlen_take by lia. lia.
  - assert (Hb0 : bufpos c = 0) by lia. pose proof (dll_pending c ps Hok) as Hd. rewrite Hp, Hb0 in Hd. cbn [Z.eqb negb orb] in Hd.
    destruct ps as [|[a [b|]] ps]; [done| |done]. pose proof (ok_blocks _ _ Hok) as Hbs. apply Forall_cons_1 in Hbs as [Hbk Hbs]. cbn [entry_ok snd] in Hbk.
    rewrite zlen_cons in Hl. destruct (send_list c a b ps Hok Hb0) as (chunk & E & Hc & Hn); [lia|lia|]. exists chunk. split; [done|]. intros fuel. cbn [Outbuf.write_loop]. fold c. rewrite Hp. cbn [negb].
    rewrite Hb0. cbn [Z.gtb Z.compare]. rewrite (dll_head _ _ _ (ok_dll _ _ Hok)). cbn [hdp mbind option_bind]. destruct (dll_seg _ _ _ (ok_dll _ _ Hok)) as [Ea _]. rewrite Ea. cbn [mbind option_bind value].
    pose proof (bl_used _ Hbk). rewrite (proj2 (Z.eqb_neq (used b) 0)) by lia. rewrite E. cbn [mbind option_bind]. destruct (write (p_answers p) chunk) as [n answers] eqn:Ew. destruct (Z.leb_spec n 0); [done|].
    assert (Hnc : n <= zlen chunk) by (unfold write in Ew; destruct (p_answers p); injection Ew as <- _; lia).
    destruct (Hn n ltac:(lia)) as (c2 & ps2 & E2 & Hok2 & Hh2 & Hl2 & Ht2 & Hfx & Hsl & Hs2). cbv zeta in E2 |- *. rewrite E2. cbn [mbind option_bind].
    eexists _, ps2. split; [|split; [|split; [|apply Hagain]]]; [|done|].
    + split; cbn [p_client p_sent]; [|by rewrite <- app_assoc, Hs2|exact Hfx| |].
      * split; cbn [p_client]; [done|by rewrite Hh2|lia|lia].
      * rewrite zlen_app. pose proof (zlen_nonneg (take (Z.to_nat n) chunk)). lia.
      * rewrite zlen_app, zlen_take by lia. subst c. lia.
    + cbn [p_sent]. rewrite zlen_app, zlen_take by lia. lia.
Qed.

Lemma sent_on_refl p ps : settled (p_client p) ps -> sent_on p ps p ps.
Proof. intros Hs. split; [done..|lia|lia]. Qed.

Lemma sent_on_trans p1 ps1 p2 ps2 p3 ps3 : sent_on p1 ps1 p2 ps2 -> sent_on p2 ps2 p3 ps3 -> sent_on p1 ps1 p3 ps3.
Proof. intros [] []. split; [done|congruence..|lia|lia]. Qed.

(** The loop ends, keeps the invariant and loses nothing; an answer that takes
    something is progress. *)
Lemma write_loop_ok fuel p ps : settled (p_client p) ps -> (length (p_answers p) < fuel)%nat ->
  exists p' ps', write_loop fuel p = Some p' /\ sent_on p ps p' ps' /\
    (match p_answers p with a :: _ => 0 < a | [] => False end -> 0 < zlen (sendable (p_client p) ps) -> zlen (p_sent p) < zlen (p_sent p')).
Proof.
  revert p ps. induction fuel as [|fuel IH]; intros p ps Hs Hf; [lia|]. pose proof (se_ok _ _ Hs) as Hok. pose proof (sendable_nil _ _ Hok (se_holes _ _ Hs)) as Hnil.
  destruct (clientHasPendingReplies (p_client p)) eqn:Hp.
  2:{ exists p, ps. split; [cbn [Outbuf.write_loop]; by rewrite Hp|]. split; [by apply sent_on_refl|]. intros _ Hpos. rewrite (proj2 (Z.eqb_neq _ 0)) in Hnil by lia. done. }
  destruct (write_step p ps Hs Hp) as (chunk & Hc & Hstep). specialize (Hstep fuel). destruct (write (p_answers p) chunk) as [n answers] eqn:Ew.
  destruct (Z.leb_spec n 0) as [Hn|Hn].
  - eexists _, ps. split; [exact Hstep|]. split; [split; cbn [p_client p_sent]; [by destruct Hs; split|done..|lia|lia]|].
    unfold write in Ew. destruct (p_answers p) as [|a l]; [done|]. injection Ew as <- _. intros Ha. lia.
  - destruct Hstep as (p1 & ps1 & H1 & Ha & Hmore & [E|E]).
    + exists p1, ps1. by rewrite E.
    + destruct (IH p1 ps1 (so_ok _ _ _ _ H1)) as (p2 & ps2 & E2 & H2 & _).
      { rewrite Ha. unfold write in Ew. destruct (p_answers p); injection Ew as <- <-; cbn [length] in *; lia. }
      exists p2, ps2. rewrite E, E2. split; [done|]. split; [by eapply sent_on_trans|]. intros _ _. pose proof (so_more _ _ _ _ H2). lia.
Qed.

(** ** [writeToClient] *)

(** A kernel that takes at least a byte. *)
Definition live (answers : list Z) : Prop := match answers with a :: _ => 0 < a | [] => False end.

Lemma write_to_client_ok again answers c ps : settled c ps ->
  exists c' ok sent ps', writeToClient again answers c = Some (c', ok, sent) /\ settled c' ps' /\ fixed c' = fixed c /\
    sentlen c' <= sentlen c + zlen sent /\ sent ++ sendable c' ps' = sendable c ps /\
    (live answers -> 0 < zlen (sendable c ps) -> 0 < zlen sent) /\
    (ok = false -> again = false \/ Resp.has (flags c) Resp.CLIENT_CLOSE_AFTER_REPLY = true /\ sent = sendable c ps).
Proof.
  intros Hs. unfold Outbuf.writeToClient.
  set (p := {| p_client := c; p_answers := answers; p_nwritten := 0; p_totwritten := 0; p_sent := [] |}).
  destruct (write_loop_ok (S (length answers + Z.to_nat (len (reply c)))) p ps Hs) as (p' & ps' & E & [So1 So2 So3 _ So6] & Hmore); [cbn; lia|].
  rewrite E. cbn [mbind option_bind]. cbn [p_sent p_client p app] in So2, So3, So6, Hmore. change (zlen []) with 0 in So6, Hmore. pose proof So1 as [Hok' Hh' _ _].
  assert (Hlive : live answers -> 0 < zlen (sendable c ps) -> 0 < zlen (p_sent p')) by exact Hmore.
  assert (Hsl : sentlen (p_client p') <= sentlen c + zlen (p_sent p')) by lia.
  destruct ((p_nwritten p' =? -1) && negb again) eqn:Ee.
  { eexists _, _, _, ps'. split; [done|]. do 5 (split; [done|]). intros _. left. apply andb_true_iff in Ee as [_ Ee]. by destruct again. }
  pose proof (sendable_nil _ _ Hok' Hh') as Hnil. destruct (clientHasPendingReplies (p_client p')) eqn:Hp; cbn [negb].
  { by eexists _, _, _, ps'. }
  destruct (Z.eqb_spec (zlen (sendable (p_client p') ps')) 0) as [Hz|]; [|done].
  assert (Hz' : sendable (p_client p') ps' = []) by (apply length_zero_iff_nil; unfold zlen in Hz; lia).
  rewrite Hz', app_nil_r in So2. cbn [set_sentlen flags].
  rewrite (dll_pending _ _ Hok') in Hp. destruct (Z.eqb_spec (bufpos (p_client p')) 0) as [Hb|]; [|done]. cbn [negb orb] in Hp.
  apply negb_false_iff, bool_decide_eq_true in Hp. subst ps'. eexists _, _, _, []. split; [done|]. split; [|split; [done|split; [|split; [|split; [done|]]]]].
  - split; [|done..]. destruct Hok'. split; cbn [set_sentlen nodes reply buf bufpos sentlen reply_bytes head_ok]; try done; lia.
  - cbn [set_sentlen sentlen]. pose proof (ok_sentlen _ _ (se_ok _ _ Hs)). pose proof (zlen_nonneg (p_sent p')). lia.
  - unfold sendable at 1, pending, stored. cbn [set_sentlen sentlen bufpos buf]. rewrite Hb. cbn. by rewrite app_nil_r.
  - intros Hc. right. destruct (fixed_fields _ _ So3) as (_ & <- & _). split; [|done]. by apply negb_false_iff.
Qed.
End OutbufSend.
