(* ===== verification/OutbufCorrect.v ===== *)
(** * The output buffers, from the outside

    The client is an implementation of [Output] that satisfies its laws, so that
    every theorem about commands holds with these buffers; deferred lengths go to
    their place, writes keep the order, and the memory is bounded. *)
From Stdlib Require Import ZArith Lia String.
From stdpp Require Import base numbers list option gmap.
From S2P Require Import Prelude UtilNum Sds SdsRefine Object Reply Adlist AdlistRefine Outbuf OutbufSpec OutbufProof OutbufSend.
From S2P Require Resp.

Implicit Types (c : oclient) (ps : list entry) (s : list Z) (b : clientReplyBlock).

#[export] Instance ClientOutput usable junk client_obuf_limits unixtime : Output oclient := {|
  emit := add_reply_string usable junk client_obuf_limits unixtime;
  is_slave c := Resp.has (flags c) Resp.CLIENT_SLAVE
|}.

(** [sent] was sent and the buffers hold the rest of what the client was told. *)
Definition client_told c (old : list Z) : Prop :=
  exists ps sent, settled c ps /\ old = sent ++ sendable c ps /\ sentlen c <= zlen sent.

Section Correct.
Context (usable : Z -> Z) (junk : Z -> list Z) (client_obuf_limits : Z -> clientBufferLimitsConfig) (unixtime : Z).
Context (U1 : forall n, 16 <= n -> n <= usable n <= 2 * n) (J1 : forall n, 0 <= n -> zlen (junk n) = n).

Abbreviation add_reply := (add_reply_string usable junk client_obuf_limits unixtime).

Lemma settled_stored c ps : settled c ps -> zlen (stored (fun _ => []) c ps) = sentlen c + zlen (sendable c ps).
Proof. intros Hs. rewrite (sendable_zlen c ps (se_ok _ _ Hs)). lia. Qed.

(** What is appended is to be sent after the rest. *)
Lemma appended_sendable c ps c' ps' s : settled c ps -> appended c ps c' ps' s -> sentlen c + zlen (sendable c ps) + zlen s < 2 ^ 44 ->
  settled c' ps' /\ sendable c' ps' = sendable c ps ++ s /\ sentlen c' = sentlen c /\ same_role c c'.
Proof.
  intros Hs [A1 A2 A3 A4 A5 A6] Hl. pose proof (settled_stored c ps Hs) as Hst. split; [|split; [|by split]].
  - apply settled_size; [done|by rewrite A5, (se_holes _ _ Hs)|]. rewrite A4, zlen_app. lia.
  - unfold sendable, pending. rewrite A4, A2. apply drop_app_le. pose proof (sent_le (fun _ => []) c ps (se_ok _ _ Hs)). pose proof (ok_sentlen _ _ (se_ok _ _ Hs)). unfold zlen in *. lia.
Qed.

Lemma emit_settled c ps s : settled c ps -> sentlen c + zlen (sendable c ps) + zlen s < 2 ^ 44 ->
  exists c' ps', add_reply c s = Some c' /\ settled c' ps' /\ sendable c' ps' = sendable c ps ++ (if takes c then s else []) /\ sentlen c' = sentlen c /\ same_role c c'.
Proof.
  intros Hs Hl. destruct (add_reply_ok usable junk client_obuf_limits unixtime U1 J1 c ps s (fun _ => []) (se_ok _ _ Hs) (se_len _ _ Hs)) as (c' & ps' & E & Ha).
  { rewrite (settled_stored c ps Hs). lia. }
  exists c', ps'. split; [exact E|]. apply (appended_sendable c ps); [done..|]. pose proof (zlen_nonneg s). destruct (takes c); [lia|]. change (zlen []) with 0. lia.
Qed.

#[export] Program Instance ClientOutputLaws : OutputLaws oclient (H := ClientOutput usable junk client_obuf_limits unixtime) := {|
  told := client_told;
  accepts := takes
|}.
Next Obligation.
  intros c old s (ps & sent & Hs & -> & Hsl) Hl. rewrite zlen_app in Hl.
  destruct (emit_settled c ps s Hs) as (c' & ps' & E & Hs' & Hp & Hse & Hr); [lia|]. exists c'. split; [exact E|]. split; [|by destruct Hr].
  exists ps', sent. split; [done|]. split; [|lia]. rewrite Hp. destruct (takes c); [by rewrite app_assoc|by rewrite app_nil_r].
Qed.

(** Several replies. *)
Fixpoint add_replies c (ss : list (list Z)) : option oclient :=
  match ss with [] => Some c | s :: ss => c ← add_reply c s; add_replies c ss end.

Lemma add_replies_appended ss c ps rho : buf_ok c ps -> zlen ps + zlen ss < 2 ^ 63 -> zlen (stored rho c ps) + zlen (concat ss) < 2 ^ 44 -> takes c = true ->
  exists c' ps', add_replies c ss = Some c' /\ buf_ok c' ps' /\ sentlen c' = sentlen c /\ same_role c c' /\ holes ps' = holes ps /\ zlen ps' <= zlen ps + zlen ss /\
    forall rho, stored rho c' ps' = stored rho c ps ++ concat ss.
Proof.
  revert c ps. induction ss as [|s ss IH]; intros c ps Hok Hl Hs Ht; cbn [add_replies concat] in *.
  - exists c, ps. split; [done|]. split; [done|]. split; [done|]. split; [done|]. split; [done|]. split; [zlia|]. intros rho'. by rewrite app_nil_r.
  - rewrite zlen_app in Hs. rewrite zlen_cons in Hl. pose proof (zlen_nonneg (concat ss)). pose proof (zlen_nonneg ss).
    destruct (add_reply_ok usable junk client_obuf_limits unixtime U1 J1 c ps s rho Hok) as (c1 & ps1 & E & [A1 A2 A3 A4 A5 A6]); [lia..|]. rewrite E. cbn [mbind option_bind]. rewrite Ht in A4.
    destruct (IH c1 ps1 A1) as (c2 & ps2 & E2 & Hok2 & Hs2 & Hr2 & Hh2 & Hl2 & H2); [lia|rewrite A4, zlen_app; lia|by rewrite (sr_takes _ _ A3)|].
    exists c2, ps2. split; [done|]. split; [done|]. split; [congruence|]. split; [by etrans|]. split; [congruence|]. split; [rewrite zlen_cons; lia|].
    intros rho'. by rewrite H2, A4, <- app_assoc.
Qed.

Lemma takes_open c : takes c = true -> snd (prepareClientToWrite c) = true /\ Resp.has (flags c) Resp.CLIENT_CLOSE_AFTER_REPLY = false.
Proof. unfold takes. destruct (snd _), (Resp.has _ _); done. Qed.

(** Without deferred lengths the contents do not depend on them. *)
Lemma contents_known rho rho' ps : holes ps = [] -> contents rho ps = contents rho' ps.
Proof. induction ps as [|[a [b|]] ps IH]; [done| |done]. cbn [holes contents]. intros Hh. by rewrite (IH Hh). Qed.

Lemma deferred_replies ss m c ps : settled c ps -> takes c = true -> in_s 64 m -> sentlen c + zlen (sendable c ps) + zlen (concat ss) < 2 ^ 42 -> zlen ss < 2 ^ 62 ->
  exists c1 n c2 c3 ps3, addDeferredMultiBulkLength c = Some (c1, Some n) /\ add_replies c1 ss = Some c2 /\
    setDeferredMultiBulkLength usable junk client_obuf_limits unixtime c2 (Some n) m = Some c3 /\ settled c3 ps3 /\
    sendable c3 ps3 = sendable c ps ++ r_mbulk m ++ concat ss /\ same_role c c3.
Proof.
  intros Hs Ht Hm Hl Hn. pose proof (settled_stored c ps Hs) as Hst. pose proof (zlen_nonneg (concat ss)). pose proof (length_line_len m Hm) as Hline.
  pose proof (blocks_len (fun _ => []) ps (ok_blocks _ _ (se_ok _ _ Hs))) as Hb. rewrite (se_holes _ _ Hs) in Hb. change (zlen []) with 0 in Hb.
  pose proof (stored_len (fun _ => []) c ps (se_ok _ _ Hs)) as Hst2. pose proof (ok_bufpos _ _ (se_ok _ _ Hs)).
  pose proof (add_deferred_ok c ps (se_ok _ _ Hs) (se_len _ _ Hs)) as Hd. rewrite (proj1 (takes_open c Ht)) in Hd.
  destruct Hd as (c1 & n & E1 & Hfresh & Hok1 & Hse1 & Hr1 & H1).
  destruct (add_replies_appended ss c1 (ps ++ [(n, None)]) (fun _ => []) Hok1) as (c2 & ps2 & E2 & Hok2 & Hse2 & Hr2 & Hh2 & Hl2 & H2).
  { unfold zlen in *. rewrite length_app. cbn [length]. lia. }
  { rewrite H1, app_nil_r. lia. }
  { by rewrite (sr_takes _ _ Hr1). }
  rewrite holes_app, (se_holes _ _ Hs) in Hh2. cbn [app holes] in Hh2. destruct (holes_split ps2 n) as (A & B & ->); [rewrite Hh2; by left|].
  assert (Hps2 : zlen (A ++ (n, None) :: B) < 2 ^ 63) by (unfold zlen in *; rewrite !length_app in *; cbn [length] in *; lia).
  destruct (set_deferred_ok usable junk client_obuf_limits unixtime U1 J1 c2 A n B m (fun _ => []) Hok2 Hm Hps2) as (c3 & ps3 & E3 & [F1 F2 F3 F4 F5 F6]).
  { rewrite H2, H1, app_nil_r, zlen_app. lia. }
  assert (Hholes : holes ps3 = []).
  { rewrite F4. rewrite holes_app in Hh2. cbn [holes] in Hh2. destruct (holes A); cbn [app] in Hh2 |- *; [by injection Hh2|]. injection Hh2 as _ Hh2. by destruct l. }
  assert (Hst3 : stored (fun _ => []) c3 ps3 = stored (fun _ => []) c ps ++ length_line m ++ concat ss).
  { rewrite F6, H2, H1. unfold rho_set at 2. rewrite decide_True by done. rewrite <- app_assoc. f_equal. unfold stored. f_equal. by apply contents_known, (se_holes _ _ Hs). }
  exists c1, n, c2, c3, ps3. split; [done|]. split; [done|]. split; [done|].
  assert (Hs3 : settled c3 ps3) by (apply settled_size; [done..|rewrite Hst3, !zlen_app; lia]).
  split; [done|]. split; [|by etrans; [exact Hr1|etrans]]. unfold sendable, pending. rewrite Hst3. replace (sentlen c3) with (sentlen c) by congruence. apply drop_app_le.
  pose proof (sent_le (fun _ => []) c ps (se_ok _ _ Hs)). pose proof (ok_sentlen _ _ (se_ok _ _ Hs)). unfold zlen in *. lia.
Qed.

(** ** Memory *)

(** The limit for the class of the client. *)
Definition hard_limit c : Z :=
  let class := getClientType c in hard_limit_bytes (client_obuf_limits (if class =? CLIENT_TYPE_MASTER then CLIENT_TYPE_NORMAL else class)).

(** The buffers use less memory than the limit, or the client is to be closed. *)
Definition bounded c : Prop :=
  getClientOutputBufferMemoryUsage c < hard_limit c \/ Resp.has (flags c) Resp.CLIENT_CLOSE_ASAP = true \/ Resp.has (flags c) CLIENT_LUA = true.

Definition same_class c c' : Prop := getClientType c' = getClientType c.

Lemma class_flag c c' f : flags c' = Z.lor (flags c) f -> f = CLIENT_PENDING_WRITE \/ f = Resp.CLIENT_CLOSE_ASAP -> same_class c c'.
Proof.
  intros E Hf. unfold same_class, getClientType. rewrite E, !has_union.
  destruct Hf as [-> | ->]; repeat match goal with |- context [Resp.has ?x ?y] => is_const x + (match x with Resp.CLIENT_CLOSE_ASAP => idtac end); change (Resp.has x y) with false end; by rewrite !orb_false_r.
Qed.

Lemma bounded_same c c' : flags c' = flags c -> reply c' = reply c -> reply_bytes c' = reply_bytes c -> bounded c -> bounded c'.
Proof. intros E1 E2 E3. unfold bounded, hard_limit, getClientOutputBufferMemoryUsage, getClientType. by rewrite E1, E2, E3. Qed.

Lemma no_bytes c ps : buf_ok c ps -> holes ps = [] -> reply_bytes c = 0 -> getClientOutputBufferMemoryUsage c = 0.
Proof.
  intros Hok Hh Hb. unfold getClientOutputBufferMemoryUsage. rewrite Hb, (dll_len _ _ _ (ok_dll _ _ Hok)). destruct ps as [|[a [b|]] ps]; [done| |done].
  rewrite (ok_bytes _ _ Hok) in Hb. cbn [total_size] in Hb. pose proof (ok_blocks _ _ Hok) as Hbs. apply Forall_cons_1 in Hbs as [Hbk Hbs]. cbn [entry_ok snd] in Hbk.
  pose proof (bl_used _ Hbk). pose proof (total_bound (fun _ => []) ps Hbs). lia.
Qed.

Lemma async_bounded c ps c' : buf_ok c ps -> holes ps = [] -> 0 < hard_limit c -> asyncCloseClientOnOutputBufferLimitReached client_obuf_limits unixtime c = Some c' ->
  bounded c' /\ same_class c c'.
Proof.
  intros Hok Hh Hhard. unfold asyncCloseClientOnOutputBufferLimitReached. destruct (negb _); [done|].
  destruct (Z.eqb_spec (reply_bytes c) 0) as [Hz|Hz]; cbn [orb].
  { intros [= <-]. split; [|done]. left. by rewrite (no_bytes c ps). }
  destruct (Resp.has (flags c) Resp.CLIENT_CLOSE_ASAP) eqn:Ec; [intros [= <-]; split; [by right; left|done]|].
  destruct (check_limits_fields client_obuf_limits unixtime c) as [t Et].
  destruct (checkClientOutputBufferLimits client_obuf_limits unixtime c) as [c1 over] eqn:E1. cbn [fst] in Et. intros [= <-].
  destruct over.
  - subst c1. unfold freeClientAsync. change (flags (set_soft_time t c)) with (flags c). rewrite Ec. cbn [orb]. destruct (Resp.has (flags c) CLIENT_LUA) eqn:El.
    + split; [|done]. right; right. exact El.
    + split; [|apply (class_flag c _ Resp.CLIENT_CLOSE_ASAP); [done|by right]]. right; left. cbn [set_queues set_flags flags]. rewrite has_union. by rewrite orb_true_r.
  - split; [|by subst c1]. left. subst c1. change (getClientOutputBufferMemoryUsage (set_soft_time t c)) with (getClientOutputBufferMemoryUsage c). change (hard_limit (set_soft_time t c)) with (hard_limit c).
    unfold checkClientOutputBufferLimits in E1. cbv zeta in E1. fold (hard_limit c) in E1.
    assert (Hx : negb (hard_limit c =? 0) && (getClientOutputBufferMemoryUsage c >=? hard_limit c) = false).
    { unfold hard_limit in E1 |- *. cbv zeta in E1 |- *. destruct (if _ && (_ >=? soft_limit_bytes _) then _ else _) as [c2 soft]. injection E1 as _ E1. by apply orb_false_iff in E1 as [_ E1]. }
    rewrite (proj2 (Z.eqb_neq _ 0)) in Hx by lia. cbn [negb andb] in Hx. destruct (Z.geb_spec (getClientOutputBufferMemoryUsage c) (hard_limit c)); [done|lia].
Qed.

Lemma emit_bounded c ps s c' : settled c ps -> sentlen c + zlen (sendable c ps) + zlen s < 2 ^ 44 -> 0 < hard_limit c -> bounded c -> add_reply c s = Some c' ->
  bounded c' /\ same_class c c'.
Proof.
  intros Hs Hl Hhard Hb. pose proof (prepare_same c ps (se_ok _ _ Hs)) as Hp. unfold add_reply_string.
  assert (H1 : bounded (fst (prepareClientToWrite c)) /\ same_class c (fst (prepareClientToWrite c))).
  { unfold prepareClientToWrite. destruct (Resp.has (flags c) (Z.lor CLIENT_LUA CLIENT_MODULE)); [done|].
    destruct (Resp.has (flags c) (Z.lor CLIENT_REPLY_OFF Resp.CLIENT_REPLY_SKIP)); [done|]. destruct (Resp.has (flags c) Resp.CLIENT_MASTER && _); [done|]. destruct (fd c <=? 0); [done|].
    cbn [fst]. destruct (clientHasPendingReplies c); [done|]. unfold clientInstallWriteHandler. destruct (_ && _); [|done].
    set (c1 := set_queues _ _ _). assert (Hc : same_class c c1) by (apply (class_flag c c1 CLIENT_PENDING_WRITE); [done|by left]). split; [|done].
    unfold bounded, hard_limit in *. rewrite Hc. destruct Hb as [Hb|Hb]; [by left|right]. change (flags c1) with (Z.lor (flags c) CLIENT_PENDING_WRITE). rewrite !has_union.
    destruct Hb as [-> | ->]; [by left|by right]. }
  destruct (prepareClientToWrite c) as [c1 ok]. cbn [fst] in *. destruct H1 as [Hb1 Hc1]. destruct ok; cbn [negb]; [|by intros [= <-]].
  destruct Hp as [P1 P2 P3 P4 P5 P6]. destruct (add_buffer_ok c1 ps s P1) as (c2 & ok & E2 & H2). rewrite E2. cbn [mbind option_bind].
  destruct ok.
  { intros [= <-]. unfold _addReplyToBuffer in E2. destruct (Resp.has _ _); [by injection E2 as <-|]. destruct (len _ >? 0); [done|]. destruct (zlen s >? _); [done|].
    destruct (mwrite _ _ _) as [m|]; [|done]. cbn [mbind option_bind] in E2. injection E2 as <-. split; [|done]. by apply (bounded_same c1). }
  subst c2. unfold _addReplyStringToList. destruct (Resp.has (flags c1) Resp.CLIENT_CLOSE_AFTER_REPLY) eqn:Ea; [by intros [= <-]|].
  assert (Hl1 : zlen (stored (fun _ => []) c1 ps) < 2 ^ 44) by (rewrite P4, app_nil_r, (settled_stored c ps Hs); pose proof (zlen_nonneg s); lia).
  destruct (grow_list_ok usable junk U1 J1 c1 ps s (fun _ => []) P1 (se_len _ _ Hs)) as (d1 & s' & d2 & ps2 & E1 & E3 & [A1 A2 A3 A4 A5 A6] & Hfl); [rewrite P4, app_nil_r, (settled_stored c ps Hs); lia|].
  rewrite E1. cbn [mbind option_bind]. rewrite E3. cbn [mbind option_bind]. intros E4.
  assert (Hc2 : same_class c d2) by (unfold same_class, getClientType in *; by rewrite Hfl).
  destruct (async_bounded d2 ps2 c' A1) as [Hb' Hc']; [by rewrite A5, (se_holes _ _ Hs)|unfold hard_limit in *; by rewrite Hc2|done|]. split; [done|]. unfold same_class in *. congruence.
Qed.

Lemma replies_bounded ss c ps : settled c ps -> takes c = true -> sentlen c + zlen (sendable c ps) + zlen (concat ss) < 2 ^ 44 -> 0 < hard_limit c -> bounded c ->
  exists c', add_replies c ss = Some c' /\ bounded c' /\ hard_limit c' = hard_limit c.
Proof.
  revert c ps. induction ss as [|s ss IH]; intros c ps Hs Ht Hl Hh Hb; cbn [add_replies concat] in *; [by exists c|].
  rewrite zlen_app in Hl. pose proof (zlen_nonneg (concat ss)). destruct (emit_settled c ps s Hs) as (c1 & ps1 & E & Hs1 & Hp & Hse & Hr); [lia|]. rewrite Ht in Hp.
  destruct (emit_bounded c ps s c1 Hs ltac:(lia) Hh Hb E) as [Hb1 Hc1]. rewrite E. cbn [mbind option_bind].
  assert (Hh1 : hard_limit c1 = hard_limit c) by (unfold hard_limit; by rewrite Hc1).
  destruct (IH c1 ps1 Hs1) as (c2 & E2 & Hb2 & Hh2); [by rewrite (sr_takes _ _ Hr)|rewrite Hse, Hp, zlen_app; lia|by rewrite Hh1|done|]. exists c2. split; [done|]. split; [done|congruence].
Qed.

End Correct.

(** * Properties *)

Section Properties.
Context (usable : Z -> Z) (junk : Z -> list Z) (client_obuf_limits : Z -> clientBufferLimitsConfig) (unixtime maxmemory zmalloc_used_memory : Z).
Context (U1 : forall n, 16 <= n -> n <= usable n <= 2 * n) (J1 : forall n, 0 <= n -> zlen (junk n) = n).

Abbreviation replies := (add_replies usable junk client_obuf_limits unixtime).
Abbreviation set_length := (setDeferredMultiBulkLength usable junk client_obuf_limits unixtime).

(** [C14] The length of an array that is not known when its elements are written is
    sent before them: after [addDeferredMultiBulkLength], any replies, and
    [setDeferredMultiBulkLength], what is to be sent is the header, then the
    replies, as if the length had been known. *)
Theorem deferred_length ss m c ps : settled c ps -> takes c = true -> in_s 64 m -> sentlen c + zlen (sendable c ps) + zlen (concat ss) < 2 ^ 42 -> zlen ss < 2 ^ 62 ->
  exists c1 n c2 c3 ps3, addDeferredMultiBulkLength c = Some (c1, Some n) /\ replies c1 ss = Some c2 /\ set_length c2 (Some n) m = Some c3 /\
    settled c3 ps3 /\ sendable c3 ps3 = sendable c ps ++ r_mbulk m ++ concat ss /\ same_role c c3.
Proof. by apply deferred_replies. Qed.

(** Whatever the kernel answers, [writeToClient] ends, no assertion of it
    fails, it reads only what the buffers hold, and what was sent followed by what
    is still to be sent is what was to be sent; a client is to be freed only for
    an error, or when everything is sent and it was to be closed then. *)
Theorem write_keeps_order again answers c ps : settled c ps ->
  exists c' ok sent ps', writeToClient maxmemory zmalloc_used_memory again answers c = Some (c', ok, sent) /\
    settled c' ps' /\ sent ++ sendable c' ps' = sendable c ps /\
    (ok = false -> again = false \/ Resp.has (flags c) Resp.CLIENT_CLOSE_AFTER_REPLY = true /\ sent = sendable c ps).
Proof.
  intros Hs. destruct (write_to_client_ok maxmemory zmalloc_used_memory again answers c ps Hs) as (c' & ok & sent & ps' & E & Hs' & _ & _ & Hsent & _ & Hok).
  by exists c', ok, sent, ps'.
Qed.

(** [C15] Replies do not use more memory than the limit of the class of the client:
    from a client within its hard limit, any replies lead to a client within it, or
    one that is scheduled to be closed, or the client of a script. *)
Theorem output_memory_bounded ss c ps : settled c ps -> takes c = true -> sentlen c + zlen (sendable c ps) + zlen (concat ss) < 2 ^ 44 ->
  0 < hard_limit client_obuf_limits c -> bounded client_obuf_limits c ->
  exists c', replies c ss = Some c' /\ bounded client_obuf_limits c' /\ hard_limit client_obuf_limits c' = hard_limit client_obuf_limits c.
Proof. by apply replies_bounded. Qed.
End Properties.

(** ** Witnesses *)

(** A client that is connected and has nothing to read. *)
Definition a_client : oclient :=
  {| fd := 7; flags := 0; replstate := REPL_STATE_NONE; repl_put_online_on_ack := false; buf := replicate 16384 0; bufpos := 0; sentlen := 0;
     nodes := ∅; reply := listCreate; reply_bytes := 0; obuf_soft_limit_reached_time := 0; pending_writes := []; to_close := [] |}.
Definition a_usable (n : Z) : Z := 8 * ((n + 7) / 8).
Definition a_junk (n : Z) : list Z := replicate (Z.to_nat n) 0.
Definition a_limits (class : Z) : clientBufferLimitsConfig :=
  {| hard_limit_bytes := 20000; soft_limit_bytes := 0; soft_limit_seconds := 0 |}.

Lemma a_client_settled : settled a_client [].
Proof.
  split; [|done..]. split; cbn [a_client nodes reply buf bufpos sentlen reply_bytes]; try done.
  split; try done. constructor.
Qed.

Lemma a_usable_ok n : 16 <= n -> n <= a_usable n <= 2 * n.
Proof. unfold a_usable. intros. pose proof (Z.div_mod (n + 7) 8 ltac:(lia)). pose proof (Z.mod_pos_bound (n + 7) 8 ltac:(lia)). lia. Qed.

Lemma a_junk_ok n : 0 <= n -> zlen (a_junk n) = n.
Proof. intros. unfold a_junk, zlen. rewrite length_replicate. lia. Qed.

Lemma deferred_length_witness : exists c1 n c2 c3 ps3, addDeferredMultiBulkLength a_client = Some (c1, Some n) /\
  add_replies a_usable a_junk a_limits 100 c1 [bytes_of "+a"; bytes_of "+b"] = Some c2 /\
  setDeferredMultiBulkLength a_usable a_junk a_limits 100 c2 (Some n) 2 = Some c3 /\ sendable c3 ps3 = bytes_of "*2" ++ sh_crlf ++ bytes_of "+a+b".
Proof.
  destruct (deferred_length a_usable a_junk a_limits 100 a_usable_ok a_junk_ok [bytes_of "+a"; bytes_of "+b"] 2 a_client [] a_client_settled)
    as (c1 & n & c2 & c3 & ps3 & E1 & E2 & E3 & _ & E4 & _); [by vm_compute..|]. exists c1, n, c2, c3, ps3. split_and!; [exact E1|exact E2|exact E3|by rewrite E4].
Defined.

(** It has a reply to read, and then a limited kernel and an error. *)
Definition waiting_client : oclient := set_buf (bytes_of "+OK" ++ replicate 16381 0) 3 a_client.

Lemma waiting_client_settled : settled waiting_client [].
Proof.
  split; [|done..]. split; cbn [waiting_client a_client set_buf nodes reply buf bufpos sentlen reply_bytes]; try done.
  split; try done. constructor.
Qed.

Lemma write_keeps_order_witness : exists c' ok sent ps', writeToClient 0 0 true [2; -1] waiting_client = Some (c', ok, sent) /\ sent ++ sendable c' ps' = bytes_of "+OK".
Proof.
  destruct (write_keeps_order 0 0 true [2; -1] waiting_client [] waiting_client_settled) as (c' & ok & sent & ps' & E & _ & Hs & _). exists c', ok, sent, ps'. split; [exact E|exact Hs].
Defined.

Lemma output_memory_bounded_witness : exists c', add_replies a_usable a_junk a_limits 100 a_client [replicate 17000 65; replicate 17000 65] = Some c' /\ bounded a_limits c'.
Proof.
  destruct (output_memory_bounded a_usable a_junk a_limits 100 a_usable_ok a_junk_ok [replicate 17000 65; replicate 17000 65] a_client [] a_client_settled)
    as (c' & E & Hb & _); [by vm_compute..|left; by vm_compute|]. exists c'. split; [exact E|exact Hb].
Defined.
