(* ===== verification/OutbufLoop.v ===== *)
(** * Sending from the event loop (networking.c, ae.c)

    The connected clients, the two queues of the server, the descriptors with a
    write handler, and the paths from a reply to the kernel:
    [handleClientsWithPendingWrites] before the loop sleeps, [sendReplyToClient]
    when [aeProcessEvents] finds a descriptor writable, and the clients that are
    freed.  What the kernel answers, which descriptors it reports and which replies
    the commands add are parameters of a turn of the loop. *)
From Stdlib Require Import ZArith Lia.
From stdpp Require Import base numbers list option gmap.
From S2P Require Import Prelude Outbuf.
From S2P Require Resp.

Definition CLIENT_PROTECTED : Z := Z.shiftl 1 28.

(** [clients]: the clients with a socket, by descriptor; [writable]: the
    descriptors for which [sendReplyToClient] is the handler of AE_WRITABLE;
    [wire]: what the kernel took from each descriptor so far. *)
Record net := {
  clients : gmap Z oclient;
  clients_pending_write : list Z;
  clients_to_close : list Z;
  writable : gset Z;
  wire : gmap Z (list Z)
}.

Definition wire_of (n : net) (fd : Z) : list Z := default [] (wire n !! fd).

Definition set_pending l (n : net) : net :=
  {| clients := clients n; clients_pending_write := l; clients_to_close := clients_to_close n; writable := writable n; wire := wire n |}.
Definition set_closing l (n : net) : net :=
  {| clients := clients n; clients_pending_write := clients_pending_write n; clients_to_close := l; writable := writable n; wire := wire n |}.
Definition set_writable w (n : net) : net :=
  {| clients := clients n; clients_pending_write := clients_pending_write n; clients_to_close := clients_to_close n; writable := w; wire := wire n |}.
Definition add_wire fd sent (n : net) : net :=
  {| clients := clients n; clients_pending_write := clients_pending_write n; clients_to_close := clients_to_close n; writable := writable n;
     wire := <[fd := wire_of n fd ++ sent]> (wire n) |}.

(** A client with the lists of the server, and the server with what the client
    made of them. *)
Definition get_client (n : net) (fd : Z) : option oclient :=
  c ← clients n !! fd; Some (set_queues (clients_pending_write n) (clients_to_close n) c).
Definition put_client (fd : Z) (c : oclient) (n : net) : net :=
  {| clients := <[fd := c]> (clients n); clients_pending_write := pending_writes c; clients_to_close := to_close c; writable := writable n; wire := wire n |}.

(** [listSearchKey], the assertion that there is one, and [listDelNode]. *)
Fixpoint remove_client (fd : Z) (l : list Z) : option (list Z) :=
  match l with
  | [] => None
  | x :: l => if x =? fd then Some l else l ← remove_client fd l; Some (x :: l)
  end.

(** [unlinkClient] of a client with a socket. *)
Definition unlinkClient (fd : Z) (n : net) : option net :=
  c ← get_client n fd;
  pending ← (if Resp.has (flags c) CLIENT_PENDING_WRITE then remove_client fd (clients_pending_write n) else Some (clients_pending_write n));
  Some {| clients := delete fd (clients n); clients_pending_write := pending; clients_to_close := clients_to_close n;
          writable := writable n ∖ {[fd]}; wire := wire n |}.

(** [freeClient], as far as the output goes: a master that is cached for a partial
    resynchronization is unlinked as well, and is not one that is to be closed. *)
Definition freeClient (fd : Z) (n : net) : option net :=
  c ← get_client n fd;
  if Resp.has (flags c) CLIENT_PROTECTED then Some (put_client fd (freeClientAsync c) n)
  else
    n ← unlinkClient fd n;
    if Resp.has (flags c) Resp.CLIENT_CLOSE_ASAP then l ← remove_client fd (clients_to_close n); Some (set_closing l n) else Some n.

(** The loop of [freeClientsInAsyncFreeQueue]; a protected client would be queued
    again and again. *)
Fixpoint free_queue (fuel : nat) (n : net) : option net :=
  match clients_to_close n with
  | [] => Some n
  | fd :: _ =>
      match fuel with
      | O => None
      | S fuel =>
          c ← get_client n fd;
          let n := put_client fd (set_flags (Z.ldiff (flags c) Resp.CLIENT_CLOSE_ASAP) c) n in
          n ← freeClient fd n;
          free_queue fuel (set_closing (tail (clients_to_close n)) n)
      end
  end.

Definition freeClientsInAsyncFreeQueue (n : net) : option net := free_queue (length (clients_to_close n)) n.

Section Loop.
Context (usable : Z -> Z) (junk : Z -> list Z) (client_obuf_limits : Z -> clientBufferLimitsConfig) (unixtime maxmemory zmalloc_used_memory : Z).

(** What [write] answers during one call of [writeToClient]; [k_again]: an error is
    EAGAIN. *)
Record kernel := { k_again : bool; k_answers : list Z }.

(** [writeToClient(fd,c,handler_installed)]; [false] is [C_ERR]. *)
Definition write_to_client (handler_installed : bool) (k : kernel) (fd : Z) (n : net) : option (net * bool) :=
  c ← get_client n fd;
  r ← writeToClient maxmemory zmalloc_used_memory (k_again k) (k_answers k) c;
  let '(c, ok, sent) := (r : oclient * bool * list Z) in
  let n := add_wire fd sent (put_client fd c n) in
  let n := if handler_installed && negb (clientHasPendingReplies c) then set_writable (writable n ∖ {[fd]}) n else n in
  if ok then Some (n, true) else n ← freeClient fd n; Some (n, false).

Definition sendReplyToClient (k : kernel) (fd : Z) (n : net) : option net :=
  r ← write_to_client true k fd n; Some (fst r).

(** A client of the list, which is the first one: the earlier ones were removed. *)
Definition handle_client (k : kernel) (create : bool) (fd : Z) (n : net) : option net :=
  c ← get_client n fd;
  let c := set_flags (Z.ldiff (flags c) CLIENT_PENDING_WRITE) c in
  let n := put_client fd c n in
  let n := set_pending (tail (clients_pending_write n)) n in
  if Resp.has (flags c) CLIENT_PROTECTED then Some n
  else
    r ← write_to_client false k fd n;
    let '(n, ok) := (r : net * bool) in
    if negb ok then Some n
    else
      c ← get_client n fd;
      if clientHasPendingReplies c then
        if create then Some (set_writable ({[fd]} ∪ writable n) n) else Some (put_client fd (freeClientAsync c) n)
      else Some n.

(** [create fd]: [aeCreateFileEvent] does not fail. *)
Fixpoint handle_clients (k : Z -> kernel) (create : Z -> bool) (l : list Z) (n : net) : option net :=
  match l with
  | [] => Some n
  | fd :: l => n ← handle_client (k fd) (create fd) fd n; handle_clients k create l n
  end.

Definition handleClientsWithPendingWrites (k : Z -> kernel) (create : Z -> bool) (n : net) : option net :=
  handle_clients k create (clients_pending_write n) n.

(** [addReplyString] to a connected client; there are none to others. *)
Definition reply_to (fd : Z) (s : list Z) (n : net) : option net :=
  match get_client n fd with
  | None => Some n
  | Some c => c ← add_reply_string usable junk client_obuf_limits unixtime c s; Some (put_client fd c n)
  end.

Fixpoint replies_to (rs : list (Z * list Z)) (n : net) : option net :=
  match rs with [] => Some n | (fd, s) :: rs => n ← reply_to fd s n; replies_to rs n end.

(** A descriptor that the kernel reports: it can be read, and the commands of the
    client add these replies, or it can be written. *)
Inductive fired := FReadable (replies : list (Z * list Z)) | FWritable (fd : Z) (k : kernel).

(** [aeProcessEvents]: a handler that was removed meanwhile is not called. *)
Fixpoint process_events (evs : list fired) (n : net) : option net :=
  match evs with
  | [] => Some n
  | ev :: evs =>
      n ← match ev with
          | FReadable rs => replies_to rs n
          | FWritable fd k => if decide (fd ∈ writable n) then sendReplyToClient k fd n else Some n
          end;
      process_events evs n
  end.

(** A turn of [aeMain]: [beforeSleep], the file events, and [serverCron] when its
    time has come. *)
Record turn := { t_before : Z -> kernel; t_create : Z -> bool; t_events : list fired; t_cron : bool }.

Definition run_turn (t : turn) (n : net) : option net :=
  n ← handleClientsWithPendingWrites (t_before t) (t_create t) n;
  n ← process_events (t_events t) n;
  if t_cron t then freeClientsInAsyncFreeQueue n else Some n.

Fixpoint aeMain (ts : list turn) (n : net) : option net :=
  match ts with [] => Some n | t :: ts => n ← run_turn t n; aeMain ts n end.
End Loop.
