(* ===== verification/OutbufServe.v ===== *)
(** * Replies reach the kernel

    The invariant of the queues and handlers of [OutbufLoop], that every step of the
    event loop keeps it and touches one client at a time, and that turns of the
    loop send everything a client was told. *)
From Stdlib Require Import ZArith Lia String.
From stdpp Require Import base numbers list option gmap.
From S2P Require Import Prelude UtilNum Sds SdsRefine Object Reply Adlist AdlistRefine Outbuf OutbufSpec OutbufProof OutbufSend OutbufCorrect OutbufLoop.
From S2P Require Resp.

Implicit Types (c : oclient) (ps : list entry) (s r acc : list Z) (n : net) (B : Z) (k : kernel).

(** ** Generic facts *)

Lemma remove_client_ok fd l : NoDup l -> fd ∈ l -> exists l', remove_client fd l = Some l' /\ NoDup l' /\ forall g, g ∈ l' <-> g ∈ l /\ g <> fd.
Proof.
  induction 1 as [|x l Hx Hl IH]; [by intros ?%elem_of_nil|]. intros Hin. cbn [remove_client]. destruct (Z.eqb_spec x fd) as [->|Hne].
  - exists l. split; [done|]. split; [done|]. intros g. rewrite elem_of_cons. split; [|tauto]. intros Hg. split; [by right|]. by intros ->.
  - apply elem_of_cons in Hin as [->|Hin]; [done|]. destruct (IH Hin) as (l' & -> & Hd & Hg). exists (x :: l'). split; [done|]. split.
    + constructor; [|done]. by rewrite Hg; intros [? _].
    + intros g. rewrite !elem_of_cons, Hg. split; [intros [->|[? ?]]; auto|]. intros [[->|?] ?]; auto.
Qed.

(** A list is represented by one sequence. *)
Lemma seg_unique {V} (h : gmap addr (listNode V)) pv (ps ps' : list (addr * V)) (nx : option addr) : seg h pv ps nx -> seg h pv ps' nx -> nx = None -> hdp ps nx = hdp ps' nx -> ps = ps'.
Proof.
  intros Hs Hs' ->. revert pv ps' Hs Hs'. induction ps as [|[a v] ps IH]; intros pv [|[b w] ps'] Hs Hs'; cbn [hdp]; try done.
  intros [= <-]. destruct Hs as [E Hs], Hs' as [E' Hs']. rewrite E in E'. injection E' as Hh ->. f_equal. by apply (IH (Some a)).
Qed.

Lemma settled_unique c ps ps' : settled c ps -> settled c ps' -> ps = ps'.
Proof.
  intros [[[S1 _ H1 _ _] _ _ _ _ _ _ _] _ _ _] [[[S2 _ H2 _ _] _ _ _ _ _ _ _] _ _ _]. apply (seg_unique (nodes c) None ps ps' None); [done..|]. by rewrite <- H1.
Qed.

(** ** Fields that do not hold replies *)

Lemma settled_fields c c' ps : nodes c' = nodes c -> reply c' = reply c -> buf c' = buf c -> bufpos c' = bufpos c -> sentlen c' = sentlen c ->
  reply_bytes c' = reply_bytes c -> settled c ps -> settled c' ps /\ sendable c' ps = sendable c ps.
Proof.
  intros E1 E2 E3 E4 E5 E6 [Hok Hh Hl Hs]. destruct (ok_same c c' ps Hok E1 E2 E3 E4 E5 E6) as [Hok' Hst]. split; [by split|]. unfold sendable, pending. by rewrite Hst, E5.
Qed.

(** What decides about writing. *)
Definition role c := (fd c, flags c, replstate c, repl_put_online_on_ack c).

Lemma fixed_role c c' : fixed c' = fixed c -> role c' = role c.
Proof. unfold role. by intros (-> & -> & -> & -> & _)%fixed_fields. Qed.

(** May the replies be sent? *)
Definition online c : bool := (replstate c =? REPL_STATE_NONE) || ((replstate c =? SLAVE_STATE_ONLINE) && negb (repl_put_online_on_ack c)).

Definition flagged c f : bool := Resp.has (flags c) f.

(** The client is to stay: it is not to be closed, now or when it has its replies. *)
Definition steady c : Prop := online c = true /\ flagged c Resp.CLIENT_CLOSE_ASAP = false /\ flagged c Resp.CLIENT_CLOSE_AFTER_REPLY = false.

Lemma role_has c c' f : role c' = role c -> flagged c' f = flagged c f.
Proof. unfold flagged. by intros [= _ -> _ _]. Qed.

Lemma role_online c c' : role c' = role c -> online c' = online c.
Proof. unfold online. by intros [= _ _ -> ->]. Qed.

Lemma role_steady c c' : role c' = role c -> steady c -> steady c'.
Proof. intros E. unfold steady. by rewrite !(role_has c c'), (role_online c c'). Qed.

Lemma land_ldiff_other f m x : Z.land m x = 0 -> Z.land (Z.ldiff f m) x = Z.land f x.
Proof.
  intros E. apply Z.bits_inj'. intros i Hi. rewrite !Z.land_spec, Z.ldiff_spec. apply (f_equal (fun z => Z.testbit z i)) in E.
  rewrite Z.land_spec, Z.bits_0 in E. by destruct (Z.testbit f i), (Z.testbit m i), (Z.testbit x i).
Qed.

Lemma has_cleared f m x : Z.land m x = 0 -> Resp.has (Z.ldiff f m) x = Resp.has f x.
Proof. intros E. unfold Resp.has. by rewrite land_ldiff_other. Qed.

Lemma has_clear f m : Resp.has (Z.ldiff f m) m = false.
Proof. unfold Resp.has. apply negb_false_iff, Z.eqb_eq. apply Z.bits_inj'. intros i Hi. rewrite Z.land_spec, Z.ldiff_spec, Z.bits_0. by destruct (Z.testbit f i), (Z.testbit m i). Qed.

(** ** The invariant *)

(** There is room for [B] more bytes. *)
Definition has_room B c : Prop := exists ps, settled c ps /\ sentlen c + zlen (sendable c ps) + B < 2 ^ 44.

(** A client is in a queue when its flag says so; it has a write handler only
    while it has replies and is not queued, and when it has replies that may be
    sent it is queued, or has the handler, or is to be closed. *)
Record served_ok n B (x : Z) c : Prop := {
  cl_fd : fd c = x /\ 0 < x;
  cl_kind : flagged c (Z.lor CLIENT_LUA CLIENT_MODULE) = false /\ flagged c CLIENT_LUA = false /\ flagged c CLIENT_PROTECTED = false;
  cl_room : has_room B c;
  cl_queued : flagged c CLIENT_PENDING_WRITE = true <-> x ∈ clients_pending_write n;
  cl_closing : flagged c Resp.CLIENT_CLOSE_ASAP = true <-> x ∈ clients_to_close n;
  cl_handler : x ∈ writable n -> clientHasPendingReplies c = true /\ x ∉ clients_pending_write n;
  cl_sent : clientHasPendingReplies c = true -> online c = true ->
    x ∈ clients_pending_write n \/ x ∈ writable n \/ flagged c Resp.CLIENT_CLOSE_ASAP = true
}.

Record net_ok n B : Prop := {
  nt_clients : map_Forall (served_ok n B) (clients n);
  nt_pending : NoDup (clients_pending_write n);
  nt_closing : NoDup (clients_to_close n);
  nt_known x : x ∈ clients_pending_write n \/ x ∈ clients_to_close n \/ x ∈ writable n -> is_Some (clients n !! x)
}.

(** A step on behalf of the client of [x]. *)
Definition apart x n n' : Prop := forall g, g <> x ->
  clients n' !! g = clients n !! g /\ (g ∈ clients_pending_write n' <-> g ∈ clients_pending_write n) /\
  (g ∈ clients_to_close n' <-> g ∈ clients_to_close n) /\ (g ∈ writable n' <-> g ∈ writable n) /\ wire_of n' g = wire_of n g.

Lemma apart_refl x n : apart x n n.
Proof. by intros g _. Qed.

Lemma apart_trans x n1 n2 n3 : apart x n1 n2 -> apart x n2 n3 -> apart x n1 n3.
Proof.
  intros H1 H2 g Hg. destruct (H1 g Hg) as (A1 & A2 & A3 & A4 & A5), (H2 g Hg) as (C1 & C2 & C3 & C4 & C5).
  rewrite C1, C2, C3, C4, C5. by split_and!.
Qed.

Lemma client_frame n n' B B' x c : (x ∈ clients_pending_write n' <-> x ∈ clients_pending_write n) -> (x ∈ clients_to_close n' <-> x ∈ clients_to_close n) ->
  (x ∈ writable n' <-> x ∈ writable n) -> B' <= B -> served_ok n B x c -> served_ok n' B' x c.
Proof.
  intros E1 E2 E3 HB [F K R Q C H S]. split; rewrite ?E1, ?E2, ?E3; try done. destruct R as (ps & Hs & Hr). exists ps. split; [done|lia].
Qed.

Definition gone_from x n : Prop := (x ∉ clients_pending_write n) /\ (x ∉ clients_to_close n) /\ x ∉ writable n.

Lemma net_step n n' B B' x : net_ok n B -> B' <= B -> apart x n n' -> NoDup (clients_pending_write n') -> NoDup (clients_to_close n') ->
  match clients n' !! x with Some c => served_ok n' B' x c | None => gone_from x n' end -> net_ok n' B'.
Proof.
  intros [Hc _ _ Hk] HB Ho Hp Hd Hx. split; [|done|done|].
  - intros g c Hg. destruct (decide (g = x)) as [->|Hne]; [by rewrite Hg in Hx|]. destruct (Ho g Hne) as (E1 & E2 & E3 & E4 & _). rewrite E1 in Hg. by apply (client_frame n n' B); [..|apply Hc].
  - intros g Hg. destruct (decide (g = x)) as [->|Hne].
    + destruct (clients n' !! x); [done|]. destruct Hx as (X1 & X2 & X3). tauto.
    + destruct (Ho g Hne) as (E1 & E2 & E3 & E4 & _). rewrite E1. apply Hk. by rewrite <- E2, <- E3, <- E4.
Qed.

Lemma pending_sendable c ps : settled c ps -> clientHasPendingReplies c = negb (zlen (sendable c ps) =? 0).
Proof. intros Hs. apply sendable_nil; apply Hs. Qed.

Lemma get_ok n x c : clients n !! x = Some c -> get_client n x = Some (set_queues (clients_pending_write n) (clients_to_close n) c).
Proof. unfold get_client. by intros ->. Qed.

Lemma put_apart x c n : (forall g, g <> x -> g ∈ pending_writes c <-> g ∈ clients_pending_write n) -> (forall g, g <> x -> g ∈ to_close c <-> g ∈ clients_to_close n) ->
  apart x n (put_client x c n).
Proof. intros H1 H2 g Hg. cbn [put_client clients clients_pending_write clients_to_close writable]. rewrite lookup_insert_ne by done. split_and!; [done|by apply H1|by apply H2|done|done]. Qed.

(** ** Clients that are freed *)

Lemma free_ok x n c : clients n !! x = Some c -> flagged c CLIENT_PROTECTED = false -> NoDup (clients_pending_write n) -> NoDup (clients_to_close n) ->
  (flagged c CLIENT_PENDING_WRITE = true <-> x ∈ clients_pending_write n) -> (flagged c Resp.CLIENT_CLOSE_ASAP = true -> x ∈ clients_to_close n) ->
  exists n', freeClient x n = Some n' /\ apart x n n' /\ clients n' !! x = None /\ wire n' = wire n /\
    (x ∉ clients_pending_write n') /\ (x ∉ writable n') /\ NoDup (clients_pending_write n') /\ NoDup (clients_to_close n') /\
    (x ∉ clients_pending_write n -> clients_pending_write n' = clients_pending_write n) /\
    (if flagged c Resp.CLIENT_CLOSE_ASAP then x ∉ clients_to_close n' else clients_to_close n' = clients_to_close n).
Proof.
  intros Hc Hpr Hp Ht Iq Ic. unfold freeClient, unlinkClient. rewrite (get_ok _ _ _ Hc). cbn [mbind option_bind set_queues flags].
  change (Resp.has (flags c) CLIENT_PROTECTED) with (flagged c CLIENT_PROTECTED). rewrite Hpr.
  change (Resp.has (flags c) CLIENT_PENDING_WRITE) with (flagged c CLIENT_PENDING_WRITE). change (Resp.has (flags c) Resp.CLIENT_CLOSE_ASAP) with (flagged c Resp.CLIENT_CLOSE_ASAP).
  assert (Hpend : exists p, (if flagged c CLIENT_PENDING_WRITE then remove_client x (clients_pending_write n) else Some (clients_pending_write n)) = Some p /\ NoDup p /\ (x ∉ p) /\
    (forall g, g <> x -> g ∈ p <-> g ∈ clients_pending_write n) /\ (x ∉ clients_pending_write n -> p = clients_pending_write n)).
  { destruct (flagged c CLIENT_PENDING_WRITE).
    - destruct (remove_client_ok x _ Hp) as (p & -> & Hd & Hg); [by apply Iq|]. exists p. split; [done|]. split; [done|]. split; [rewrite Hg; tauto|].
      split; [intros g Hne; rewrite Hg; tauto|]. intros []. by apply Iq.
    - exists (clients_pending_write n). split; [done|]. split; [done|]. split; [|done]. intros Hin%Iq. done. }
  destruct Hpend as (p & -> & P1 & P2 & P3 & P4). cbn [mbind option_bind clients_to_close].
  set (n1 := {| clients := delete x (clients n); clients_pending_write := p; clients_to_close := clients_to_close n; writable := writable n ∖ {[x]}; wire := wire n |}).
  assert (Hgo : exists t, (if flagged c Resp.CLIENT_CLOSE_ASAP then l ← remove_client x (clients_to_close n); Some (set_closing l n1) else Some n1) = Some (set_closing t n1) /\
    NoDup t /\ (forall g, g <> x -> g ∈ t <-> g ∈ clients_to_close n) /\ (if flagged c Resp.CLIENT_CLOSE_ASAP then x ∉ t else t = clients_to_close n)).
  { destruct (flagged c Resp.CLIENT_CLOSE_ASAP); [|by exists (clients_to_close n)].
    destruct (remove_client_ok x _ Ht) as (t & -> & Hd & Hg); [by apply Ic|]. exists t. split; [done|]. split; [done|]. split; [intros g Hne; rewrite Hg; tauto|rewrite Hg; tauto]. }
  destruct Hgo as (t & -> & T1 & T2 & T3). exists (set_closing t n1). split; [done|]. cbn [set_closing n1 clients clients_pending_write clients_to_close writable wire].
  split; [|split; [by rewrite lookup_delete_eq|split; [done|split; [done|split; [set_solver|done]]]]].
  intros g Hg. cbn [set_closing n1 clients clients_pending_write clients_to_close writable wire]. rewrite lookup_delete_ne by done. split_and!; [done|by apply P3|by apply T2|set_solver|done].
Qed.

(** The clients that are to be closed. *)
Lemma free_queue_ok fuel n B : net_ok n B -> (List.length (clients_to_close n) <= fuel)%nat ->
  exists n', free_queue fuel n = Some n' /\ net_ok n' B /\ forall x, x ∉ clients_to_close n ->
    clients n' !! x = clients n !! x /\ wire_of n' x = wire_of n x /\ (x ∈ clients_pending_write n' <-> x ∈ clients_pending_write n).
Proof.
  revert n. induction fuel as [|fuel IH]; intros n Hok Hf; cbn [free_queue]; destruct (clients_to_close n) as [|x l] eqn:El; [by exists n|cbn in Hf; lia|by exists n|].
  destruct (nt_known _ _ Hok x) as [c Hc]; [rewrite El; right; left; by left|]. pose proof (nt_clients _ _ Hok x c Hc) as Hcl.
  rewrite (get_ok _ _ _ Hc). cbn [mbind option_bind]. set (c1 := set_flags _ _). set (n1 := put_client x c1 n).
  pose proof (nt_closing _ _ Hok) as Hnd. rewrite El in Hnd. pose proof Hnd as [Hx Hl]%NoDup_cons.
  destruct (free_ok x n1 c1) as (n2 & -> & Ho2 & Hn2 & Hw2 & Hp2 & Hwr2 & Hq2 & _ & _ & Ht2).
  - cbn. by rewrite lookup_insert_eq.
  - unfold flagged. cbn [c1 set_flags set_queues flags]. rewrite has_cleared by done. apply (cl_kind _ _ _ _ Hcl).
  - apply Hok.
  - apply Hok.
  - unfold flagged. cbn [c1 set_flags set_queues flags]. rewrite has_cleared by done. apply (cl_queued _ _ _ _ Hcl).
  - unfold flagged. cbn [c1 set_flags set_queues flags]. by rewrite has_clear.
  - unfold flagged in Ht2. cbn [c1 set_flags set_queues flags] in Ht2. rewrite has_clear in Ht2. cbn [n1 put_client clients_to_close c1 set_flags set_queues to_close] in Ht2. rewrite El in Ht2.
    cbn [mbind option_bind]. rewrite Ht2. cbn [list.tail]. set (n3 := set_closing l n2).
    assert (Ho : apart x n n3).
    { apply (apart_trans x n n1); [by apply put_apart|]. apply (apart_trans x n1 n2); [done|]. intros g Hg. cbn [n3 set_closing clients clients_pending_write clients_to_close writable].
      split_and!; try done. rewrite Ht2, elem_of_cons. tauto. }
    assert (H3 : net_ok n3 B).
    { apply (net_step n n3 B B x); [done|lia|done|done|done|]. cbn [n3 set_closing clients]. rewrite Hn2. done. }
    destruct (IH n3 H3) as (n4 & E4 & H4 & Hf4); [cbn [n3 set_closing clients_to_close List.length] in *; lia|]. exists n4. split; [exact E4|]. split; [done|].
    intros g Hg. rewrite not_elem_of_cons in Hg. destruct Hg as [Hg1 Hg2]. destruct (Ho g Hg1) as (F1 & F2 & _ & _ & F5). destruct (Hf4 g Hg2) as (G1 & G2 & G3).
    rewrite G1, G2, G3, F1, F5. by split_and!.
Qed.

(** ** Writing *)

Section Serve.
Context (usable : Z -> Z) (junk : Z -> list Z) (client_obuf_limits : Z -> clientBufferLimitsConfig) (unixtime maxmemory zmalloc_used_memory : Z).
Context (U1 : forall z, 16 <= z -> z <= usable z <= 2 * z) (J1 : forall z, 0 <= z -> zlen (junk z) = z).

Abbreviation write_to_client := (write_to_client maxmemory zmalloc_used_memory).
Abbreviation handle_client := (handle_client maxmemory zmalloc_used_memory).
Abbreviation reply_to := (reply_to usable junk client_obuf_limits unixtime).
Abbreviation replies_to := (replies_to usable junk client_obuf_limits unixtime).
Abbreviation process_events := (process_events usable junk client_obuf_limits unixtime maxmemory zmalloc_used_memory).
Abbreviation run_turn := (run_turn usable junk client_obuf_limits unixtime maxmemory zmalloc_used_memory).
Abbreviation aeMain := (aeMain usable junk client_obuf_limits unixtime maxmemory zmalloc_used_memory).

(** A client that is not queued is written to. *)
Record write_done n c ps k (handler : bool) x n' c' ps' : Prop := {
  wr_client : clients n' !! x = Some c';
  wr_settled : settled c' ps';
  wr_role : role c' = role c;
  wr_room : sentlen c' + zlen (sendable c' ps') <= sentlen c + zlen (sendable c ps);
  wr_closing : clients_to_close n' = clients_to_close n;
  wr_handler : writable n' = if handler && negb (clientHasPendingReplies c') then writable n ∖ {[x]} else writable n;
  wr_wire : wire_of n' x ++ sendable c' ps' = wire_of n x ++ sendable c ps;
  wr_less : zlen (sendable c' ps') <= zlen (sendable c ps);
  wr_live : live (k_answers k) -> 0 < zlen (sendable c ps) -> zlen (sendable c' ps') < zlen (sendable c ps)
}.

Lemma write_ok handler k x n c ps : clients n !! x = Some c -> settled c ps -> flagged c CLIENT_PROTECTED = false ->
  NoDup (clients_pending_write n) -> NoDup (clients_to_close n) -> flagged c CLIENT_PENDING_WRITE = false -> x ∉ clients_pending_write n ->
  (flagged c Resp.CLIENT_CLOSE_ASAP = true <-> x ∈ clients_to_close n) ->
  exists n' ok, write_to_client handler k x n = Some (n', ok) /\ apart x n n' /\ clients_pending_write n' = clients_pending_write n /\ NoDup (clients_to_close n') /\
    if ok then exists c' ps', write_done n c ps k handler x n' c' ps'
    else clients n' !! x = None /\ gone_from x n' /\ (k_again k = false \/ flagged c Resp.CLIENT_CLOSE_AFTER_REPLY = true).
Proof.
  intros Hc Hs Hpr Hp Ht Hfl Hnq Hcl. unfold OutbufLoop.write_to_client. rewrite (get_ok _ _ _ Hc). cbn [mbind option_bind].
  set (c0 := set_queues _ _ c). destruct (settled_fields c c0 ps eq_refl eq_refl eq_refl eq_refl eq_refl eq_refl Hs) as [Hs0 Hse0].
  destruct (write_to_client_ok maxmemory zmalloc_used_memory (k_again k) (k_answers k) c0 ps Hs0) as (c' & ok & sent & ps' & -> & Hs' & Hfx & Hsl & Hsent & Hlive & Hok).
  cbn [mbind option_bind]. set (n1 := add_wire x sent (put_client x c' n)).
  set (n2 := if handler && negb (clientHasPendingReplies c') then _ else n1).
  pose proof (fixed_role _ _ Hfx) as Hro. destruct (fixed_fields _ _ Hfx) as (_ & Hflags & _ & _ & Hpw & Htc). cbn [c0 set_queues pending_writes to_close flags] in Hpw, Htc, Hflags.
  assert (Ho1 : apart x n n1).
  { intros g Hg. unfold wire_of. cbn [n1 add_wire put_client clients clients_pending_write clients_to_close writable wire]. rewrite Hpw, Htc, !lookup_insert_ne by done. done. }
  assert (Ho2 : apart x n n2).
  { apply (apart_trans x n n1); [done|]. subst n2. destruct (_ && _); [|apply apart_refl]. intros g Hg. cbn [set_writable clients clients_pending_write clients_to_close writable]. split_and!; try done. set_solver. }
  assert (Hq2 : clients_pending_write n2 = clients_pending_write n) by (subst n2; by destruct (_ && _)).
  assert (Ht2 : clients_to_close n2 = clients_to_close n) by (subst n2; by destruct (_ && _)).
  assert (Hc2 : clients n2 !! x = Some c') by (subst n2; destruct (_ && _); cbn; by rewrite lookup_insert_eq).
  destruct ok.
  - exists n2, true. split; [done|]. split; [done|]. split; [done|]. split; [by rewrite Ht2|]. exists c', ps'. pose proof (f_equal zlen Hsent) as Hlen. rewrite zlen_app, Hse0 in Hlen. cbn [c0 set_queues sentlen] in Hsl.
    pose proof (zlen_nonneg sent). rewrite Hse0 in Hlive.
    split; [done|done|done|lia|done| | |lia|intros H1 H2; specialize (Hlive H1 H2); lia].
    + subst n2. destruct (_ && _); [|done]. done.
    + rewrite <- Hse0, <- Hsent, app_assoc. f_equal. unfold wire_of. assert (Hw : wire n2 = <[x := wire_of n x ++ sent]> (wire n)) by (subst n2; by destruct (_ && _)). rewrite Hw, lookup_insert_eq. done.
  - destruct (free_ok x n2 c') as (n3 & -> & Ho3 & Hn3 & Hw3 & Hp3 & Hwr3 & Hq3 & Htc3 & Hk3 & Hcl3); [done|..|].
    + rewrite (role_has _ _ _ Hro). done.
    + by rewrite Hq2.
    + by rewrite Ht2.
    + rewrite (role_has _ _ _ Hro), Hq2. change (flagged c0 CLIENT_PENDING_WRITE) with (flagged c CLIENT_PENDING_WRITE). by rewrite Hfl.
    + rewrite (role_has _ _ _ Hro), Ht2. apply Hcl.
    + cbn [mbind option_bind]. exists n3, false. split; [done|]. split; [by apply (apart_trans x n n2)|]. rewrite Hk3 by (by rewrite Hq2). rewrite Hq2. split; [done|]. split; [done|]. split; [done|]. split.
      * split; [done|]. split; [|done]. rewrite (role_has _ _ _ Hro) in Hcl3. change (flagged c0 Resp.CLIENT_CLOSE_ASAP) with (flagged c Resp.CLIENT_CLOSE_ASAP) in Hcl3.
        destruct (flagged c Resp.CLIENT_CLOSE_ASAP); [done|]. rewrite Hcl3, Ht2. rewrite <- Hcl. done.
      * destruct (Hok eq_refl) as [?|[? _]]; auto.
Qed.

(** A client is scheduled to be closed. *)
Record scheduled c c' : Prop := {
  cg_other f : Z.land Resp.CLIENT_CLOSE_ASAP f = 0 -> flagged c' f = flagged c f;
  cg_flag : flagged c' Resp.CLIENT_CLOSE_ASAP = true;
  cg_fixed : fd c' = fd c /\ online c' = online c /\ pending_writes c' = pending_writes c /\ clientHasPendingReplies c' = clientHasPendingReplies c;
  cg_queue : to_close c' = if flagged c Resp.CLIENT_CLOSE_ASAP then to_close c else to_close c ++ [fd c];
  cg_buffers ps : settled c ps -> settled c' ps /\ sendable c' ps = sendable c ps /\ sentlen c' = sentlen c
}.

Lemma free_async_ok c : flagged c CLIENT_LUA = false -> scheduled c (freeClientAsync c).
Proof.
  intros Hl. unfold freeClientAsync. change (Resp.has (flags c) CLIENT_LUA) with (flagged c CLIENT_LUA). change (Resp.has (flags c) Resp.CLIENT_CLOSE_ASAP) with (flagged c Resp.CLIENT_CLOSE_ASAP). rewrite Hl.
  destruct (flagged c Resp.CLIENT_CLOSE_ASAP) eqn:Ec; cbn [orb].
  - split; try done. by rewrite Ec.
  - split; try done.
    + intros f Hf. unfold flagged, Resp.has. cbn [set_queues set_flags flags]. rewrite Z.land_lor_distr_l, Hf. by rewrite Z.lor_0_r.
    + unfold flagged. cbn [set_queues set_flags flags]. rewrite has_union. by rewrite orb_true_r.
    + by rewrite Ec.
    + intros ps Hs. split; [|split; [|done]]; by apply (settled_fields c).
Qed.

(** The client of [x], which is to stay, with [r] still to be sent of [acc]. *)
Definition mine n x acc r : Prop := exists c ps, clients n !! x = Some c /\ steady c /\ settled c ps /\ r = sendable c ps /\ wire_of n x ++ r = acc.

Lemma mine_frame n n' x acc r : clients n' !! x = clients n !! x -> wire_of n' x = wire_of n x -> mine n x acc r -> mine n' x acc r.
Proof. intros E1 E2 (c & ps & H1 & H2). exists c, ps. by rewrite E1, E2. Qed.

Lemma mine_apart n n' x y acc r : apart y n n' -> x <> y -> mine n x acc r -> mine n' x acc r.
Proof. intros Ho Hne. destruct (Ho x Hne) as (E1 & _ & _ & _ & E2). by apply mine_frame. Qed.

Lemma has_room_le B B' c c' ps : has_room B c -> settled c ps -> B' <= B -> forall ps', settled c' ps' -> sentlen c' + zlen (sendable c' ps') <= sentlen c + zlen (sendable c ps) -> has_room B' c'.
Proof. intros (ps1 & Hs1 & Hr) Hs HB ps' Hs' Hle. rewrite (settled_unique c ps1 ps Hs1 Hs) in Hr. exists ps'. split; [done|lia]. Qed.

(** The write handler. *)
Lemma send_ok k x n B : net_ok n B -> x ∈ writable n ->
  exists n', sendReplyToClient maxmemory zmalloc_used_memory k x n = Some n' /\ net_ok n' B /\ apart x n n' /\ clients_pending_write n' = clients_pending_write n /\
    forall acc r, mine n x acc r -> k_again k = true ->
      exists r', mine n' x acc r' /\ zlen r' <= zlen r /\ (live (k_answers k) -> 0 < zlen r -> zlen r' < zlen r).
Proof.
  intros Hok Hw. destruct (nt_known _ _ Hok x) as [c Hc]; [auto|]. pose proof (nt_clients _ _ Hok x c Hc) as [F K R Q C Hh S]. pose proof R as (ps & Hs & _).
  destruct (Hh Hw) as [Hpe Hnq]. assert (Hfl : flagged c CLIENT_PENDING_WRITE = false) by (destruct (flagged c CLIENT_PENDING_WRITE); [by destruct Hnq; apply Q|done]).
  destruct (write_ok true k x n c ps Hc Hs) as (n' & ok & E & Ho & Hp' & Ht' & Hr); [apply K|apply Hok|apply Hok|done..|].
  exists n'. unfold sendReplyToClient. rewrite E. cbn [mbind option_bind fst]. split; [done|]. split; [|split; [done|split; [done|]]].
  - apply (net_step n n' B B x); [done|lia|done|by rewrite Hp'; apply Hok|done|]. destruct ok; [|by destruct Hr as (-> & Hr & _)].
    destruct Hr as (c' & ps' & [W1 W2 W3 W4 W5 W6 W7 W8 W9]). rewrite W1. cbn [andb] in W6.
    pose proof (fun f => role_has c c' f W3) as Hf. pose proof (role_online c c' W3) as Hon. pose proof (f_equal (fun p => p.1.1.1) W3) as Hfd. cbn in Hfd.
    split; rewrite ?Hp', ?W5, ?Hf, ?Hon, ?Hfd.
    + done.
    + done.
    + by eapply (has_room_le B B c c').
    + done.
    + done.
    + rewrite W6. destruct (clientHasPendingReplies c'); cbn [negb]; [done|set_solver].
    + intros Hp2. rewrite W6, Hp2. cbn [negb]. auto.
  - intros acc r (c1 & ps1 & Hc1 & Hst & Hs1 & -> & Hacc) Hag. rewrite Hc in Hc1. injection Hc1 as <-. rewrite (settled_unique c ps1 ps Hs1 Hs) in *.
    destruct ok; [|by destruct Hst as (_ & _ & Hst), Hr as (_ & _ & [Hr|Hr]); congruence]. destruct Hr as (c' & ps' & [W1 W2 W3 W4 W5 W6 W7 W8 W9]).
    exists (sendable c' ps'). split; [|done]. exists c', ps'. split; [done|]. split; [by apply (role_steady c c')|]. split; [done|]. split; [done|]. by rewrite W7.
Qed.

(** After the write to a client that was taken from the queue: what is left to do
    in [n2] for the invariant of [n]. *)
Record after_write n x l n2 c2 B : Prop := {
  wn_net : net_ok n B;
  wn_others : apart x n n2;
  wn_queue : clients_pending_write n2 = l /\ NoDup l /\ x ∉ l;
  wn_client : clients n2 !! x = Some c2;
  wn_closing : clients_to_close n2 = clients_to_close n;
  wn_handler : writable n2 = writable n /\ x ∉ writable n;
  wn_fd : fd c2 = x /\ 0 < x;
  wn_kind : flagged c2 (Z.lor CLIENT_LUA CLIENT_MODULE) = false /\ flagged c2 CLIENT_LUA = false /\ flagged c2 CLIENT_PROTECTED = false;
  wn_room : has_room B c2;
  wn_flag : flagged c2 CLIENT_PENDING_WRITE = false;
  wn_asap : flagged c2 Resp.CLIENT_CLOSE_ASAP = true <-> x ∈ clients_to_close n
}.

Lemma written_idle n x l n2 c2 B : after_write n x l n2 c2 B -> clientHasPendingReplies c2 = false -> net_ok n2 B.
Proof.
  intros [Hok Ho (Hq & Hl & Hx) Hc Ht (Hw & Hnw) F K R P A] Hp. apply (net_step n n2 B B x); [done|lia|done|by rewrite Hq|rewrite Ht; apply Hok|]. rewrite Hc.
  split; rewrite ?Hq, ?Ht, ?Hw, ?Hp, ?P; try done.
Qed.

Lemma written_install n x l n2 c2 B : after_write n x l n2 c2 B -> clientHasPendingReplies c2 = true ->
  net_ok (set_writable ({[x]} ∪ writable n2) n2) B /\ apart x n (set_writable ({[x]} ∪ writable n2) n2).
Proof.
  intros [Hok Ho (Hq & Hl & Hx) Hc Ht (Hw & Hnw) F K R P A] Hp.
  assert (Ho' : apart x n (set_writable ({[x]} ∪ writable n2) n2)).
  { apply (apart_trans _ _ n2); [done|]. intros g Hg. cbn. split_and!; try done. set_solver. }
  split; [|done]. apply (net_step n _ B B x); [done|lia|done|cbn; by rewrite Hq|cbn; rewrite Ht; apply Hok|]. cbn [set_writable clients]. rewrite Hc.
  split; cbn [set_writable clients clients_pending_write clients_to_close writable]; rewrite ?Hq, ?Ht, ?Hw, ?Hp, ?P; try done. intros _ _. right. left. set_solver.
Qed.

Lemma written_close n x l n2 c2 B : after_write n x l n2 c2 B ->
  let c4 := freeClientAsync (set_queues (clients_pending_write n2) (clients_to_close n2) c2) in
  net_ok (put_client x c4 n2) B /\ apart x n (put_client x c4 n2) /\ clients_pending_write (put_client x c4 n2) = l.
Proof.
  intros [Hok Ho (Hq & Hl & Hx) Hc Ht (Hw & Hnw) (F & F0) K R P A]. set (c3 := set_queues _ _ c2). cbv zeta.
  pose proof (free_async_ok c3 (proj1 (proj2 K))) as [G1 G2 (G3 & G4 & G5 & G6) G7 G8]. set (c4 := freeClientAsync c3) in *. clearbody c4.
  change (flagged c3) with (flagged c2) in *. change (fd c3) with (fd c2) in *. change (online c3) with (online c2) in *. change (clientHasPendingReplies c3) with (clientHasPendingReplies c2) in *.
  change (pending_writes c3) with (clients_pending_write n2) in *. change (to_close c3) with (clients_to_close n2) in *.
  assert (Ht4 : (forall g, g <> x -> g ∈ to_close c4 <-> g ∈ clients_to_close n2) /\ NoDup (to_close c4) /\ x ∈ to_close c4).
  { rewrite G7, Ht, F. destruct (flagged c2 Resp.CLIENT_CLOSE_ASAP) eqn:Ec.
    - split; [done|]. split; [apply Hok|]. by apply A.
    - split; [intros g Hg; rewrite elem_of_app, list_elem_of_singleton; tauto|]. split; [|set_solver]. apply NoDup_app. split; [apply Hok|]. split; [|apply NoDup_singleton].
      intros g Hg ->%list_elem_of_singleton. apply A in Hg. congruence. }
  destruct Ht4 as (T1 & T2 & T3). assert (Ho4 : apart x n (put_client x c4 n2)).
  { apply (apart_trans _ _ n2); [done|]. apply put_apart; [by rewrite G5|exact T1]. }
  split; [|split; [done|by cbn; rewrite G5]].
  apply (net_step n _ B B x); [done|lia|done|cbn; by rewrite G5, Hq|done|]. cbn [put_client clients]. rewrite lookup_insert_eq.
  split; cbn [put_client clients clients_pending_write clients_to_close writable]; rewrite ?G3, ?G4, ?G5, ?G6, ?Hq, ?Hw; try done.
  - by rewrite !G1.
  - destruct R as (ps3 & Hs3 & Hr3). destruct (G8 ps3) as (D1 & D2 & D3); [by apply (settled_fields c2)|]. exists ps3. split; [done|]. by rewrite D2, D3.
  - rewrite G1, P by done. done.
  - auto.
Qed.

(** A client of the queue, before the loop sleeps. *)
Lemma handle_client_ok k create x l n B : net_ok n B -> clients_pending_write n = x :: l ->
  exists n', handle_client k create x n = Some n' /\ net_ok n' B /\ apart x n n' /\ clients_pending_write n' = l /\
    forall acc r, mine n x acc r -> k_again k = true -> create = true -> exists r', mine n' x acc r' /\ zlen r' <= zlen r.
Proof.
  intros Hok Hq. destruct (nt_known _ _ Hok x) as [c Hc]; [left; rewrite Hq; by left|]. pose proof (nt_clients _ _ Hok x c Hc) as [F K R Q C Hh S]. pose proof R as (ps & Hs & _).
  pose proof (nt_pending _ _ Hok) as Hnd. rewrite Hq in Hnd. apply NoDup_cons in Hnd as [Hx Hl].
  assert (Hnw : x ∉ writable n) by (intros Hw; destruct (Hh Hw) as [_ []]; rewrite Hq; by left).
  unfold OutbufLoop.handle_client. rewrite (get_ok _ _ _ Hc). cbn [mbind option_bind]. set (c1 := set_flags _ _). set (n0 := put_client x c1 n).
  change (clients_pending_write n0) with (clients_pending_write n). rewrite Hq. cbn [list.tail]. set (n1 := set_pending l n0).
  assert (Hf1 : forall f, Z.land CLIENT_PENDING_WRITE f = 0 -> flagged c1 f = flagged c f) by (intros f Hf; by apply has_cleared).
  change (Resp.has (flags c1) CLIENT_PROTECTED) with (flagged c1 CLIENT_PROTECTED). rewrite Hf1 by done. rewrite (proj2 (proj2 K)).
  destruct (settled_fields c c1 ps eq_refl eq_refl eq_refl eq_refl eq_refl eq_refl Hs) as [Hs1 Hse1].
  assert (Ho1 : apart x n n1).
  { intros g Hg. cbn [n1 set_pending n0 put_client clients clients_pending_write clients_to_close writable]. rewrite lookup_insert_ne by done. split_and!; try done. rewrite Hq, elem_of_cons. tauto. }
  assert (Hc1 : clients n1 !! x = Some c1) by (cbn; by rewrite lookup_insert_eq).
  destruct (write_ok false k x n1 c1 ps Hc1 Hs1) as (n2 & ok & E & Ho & Hp2 & Ht2 & Hr).
  { rewrite Hf1 by done. apply K. } { exact Hl. } { apply Hok. } { apply has_clear. } { exact Hx. } { rewrite Hf1 by done. exact C. }
  rewrite E. cbn [mbind option_bind]. cbn [n1 set_pending clients_pending_write] in Hp2. pose proof (apart_trans _ _ _ _ Ho1 Ho) as Ho2.
  destruct ok; cbn [negb].
  2:{ destruct Hr as (Hn2 & Hg2 & Hwhy). exists n2. split; [done|]. split; [|split; [done|split; [done|]]].
    - apply (net_step n n2 B B x); [done|lia|done|by rewrite Hp2|done|]. by rewrite Hn2.
    - intros acc r (c2 & ps2 & Hc2 & (_ & _ & Hst) & _) Hag. rewrite Hc in Hc2. injection Hc2 as <-. rewrite Hf1 in Hwhy by done. destruct Hwhy; congruence. }
  destruct Hr as (c2 & ps2 & [W1 W2 W3 W4 W5 W6 W7 W8 W9]). rewrite Hse1 in W4, W7, W8. pose proof (fun f => role_has c1 c2 f W3) as Hf.
  assert (Hwn : after_write n x l n2 c2 B).
  { split; [done|done|done|done|exact W5|done| | |by eapply (has_room_le B B c c2)|rewrite Hf; apply has_clear|rewrite Hf, Hf1 by done; exact C].
    - split; [|apply F]. transitivity (fd c1); [exact (f_equal (fun p => p.1.1.1) W3)|apply F].
    - rewrite !Hf, !Hf1 by done. exact K. }
  assert (Hmine : forall n3, clients n3 !! x = clients n2 !! x -> wire_of n3 x = wire_of n2 x -> forall acc r, mine n x acc r -> exists r', mine n3 x acc r' /\ zlen r' <= zlen r).
  { intros n3 H3 Hw3 acc r (c4 & ps4 & Hc4 & (A1 & A2 & A3) & Hs4 & -> & Hacc). rewrite Hc in Hc4. injection Hc4 as <-. rewrite (settled_unique c ps4 ps Hs4 Hs) in *.
    exists (sendable c2 ps2). split; [|done]. exists c2, ps2. rewrite H3, Hw3, W7. split; [done|]. split; [|done]. split; [by rewrite (role_online c1 c2)|]. by rewrite !Hf, !Hf1. }
  rewrite (get_ok _ _ _ W1). cbn [mbind option_bind]. change (clientHasPendingReplies (set_queues _ _ c2)) with (clientHasPendingReplies c2).
  destruct (clientHasPendingReplies c2) eqn:Hpe; [destruct create|].
  - destruct (written_install _ _ _ _ _ _ Hwn Hpe) as [H3 Ho3]. eexists. split; [done|]. split; [done|]. split; [done|]. split; [done|]. intros acc r Hm _ _. by apply Hmine.
  - destruct (written_close _ _ _ _ _ _ Hwn) as (H3 & Ho3 & Hq3). eexists. split; [done|]. split; [done|]. split; [done|]. by split.
  - exists n2. split; [done|]. split; [by apply (written_idle _ _ _ _ _ _ Hwn)|]. split; [done|]. split; [done|]. intros acc r Hm _ _. by apply Hmine.
Qed.

(** All of them. *)
Lemma handle_clients_ok (ks : Z -> kernel) (create : Z -> bool) l n B : net_ok n B -> clients_pending_write n = l ->
  exists n', handle_clients maxmemory zmalloc_used_memory ks create l n = Some n' /\ net_ok n' B /\ clients_pending_write n' = [] /\
    forall x acc r, mine n x acc r -> k_again (ks x) = true -> create x = true -> exists r', mine n' x acc r' /\ zlen r' <= zlen r.
Proof.
  revert n. induction l as [|y l IH]; intros n Hok Hq; cbn [handle_clients].
  - exists n. split; [done|]. split; [done|]. split; [done|]. intros x acc r Hm _ _. by exists r.
  - destruct (handle_client_ok (ks y) (create y) y l n B Hok Hq) as (n1 & -> & H1 & Ho1 & Hq1 & Hm1). cbn [mbind option_bind].
    destruct (IH n1 H1 Hq1) as (n2 & -> & H2 & Hq2 & Hm2). exists n2. split; [done|]. split; [done|]. split; [done|]. intros x acc r Hm Hk Hcr.
    assert (exists r1, mine n1 x acc r1 /\ zlen r1 <= zlen r) as (r1 & Hr1 & Hl1).
    { destruct (decide (x = y)) as [->|Hne]; [by apply Hm1|]. exists r. split; [by apply (mine_apart n n1 x y)|done]. }
    destruct (Hm2 x acc r1 Hr1 Hk Hcr) as (r2 & Hr2 & Hl2). exists r2. split; [done|lia].
Qed.

(** ** Replies *)

(** What a reply does to the queues. *)
Record queue_step c c' : Prop := {
  qs_fd : fd c' = fd c /\ online c' = online c;
  qs_other f : Z.land (Z.lor CLIENT_PENDING_WRITE Resp.CLIENT_CLOSE_ASAP) f = 0 -> flagged c' f = flagged c f;
  qs_pending : flagged c' CLIENT_PENDING_WRITE = flagged c CLIENT_PENDING_WRITE /\ pending_writes c' = pending_writes c \/
    flagged c CLIENT_PENDING_WRITE = false /\ flagged c' CLIENT_PENDING_WRITE = true /\ pending_writes c' = fd c :: pending_writes c;
  qs_closing : flagged c' Resp.CLIENT_CLOSE_ASAP = flagged c Resp.CLIENT_CLOSE_ASAP /\ to_close c' = to_close c \/
    flagged c Resp.CLIENT_CLOSE_ASAP = false /\ flagged c' Resp.CLIENT_CLOSE_ASAP = true /\ to_close c' = to_close c ++ [fd c]
}.

Lemma has_lor_other f m x : Z.land m x = 0 -> Resp.has (Z.lor f m) x = Resp.has f x.
Proof. intros E. unfold Resp.has. by rewrite Z.land_lor_distr_l, E, Z.lor_0_r. Qed.

Lemma queue_fixed c c' : fixed c' = fixed c -> queue_step c c'.
Proof.
  intros E. pose proof (fixed_role _ _ E) as Hr. destruct (fixed_fields _ _ E) as (E1 & _ & _ & _ & E5 & E6). pose proof (fun f => role_has _ _ f Hr) as Hf.
  split; rewrite ?Hf, ?(role_online _ _ Hr); auto.
Qed.

Lemma land_lor_split a d f : Z.land (Z.lor a d) f = 0 -> Z.land a f = 0 /\ Z.land d f = 0.
Proof. rewrite Z.land_lor_distr_l. apply Z.lor_eq_0_iff. Qed.

Lemma queue_async c : flagged c CLIENT_LUA = false -> queue_step c (freeClientAsync c).
Proof.
  intros [G1 G2 (G3 & G4 & G5 & _) G7 _]%free_async_ok. split.
  - done.
  - intros f [_ Hf]%land_lor_split. by apply G1.
  - left. by rewrite G1.
  - rewrite G7, G2. destruct (flagged c Resp.CLIENT_CLOSE_ASAP); auto.
Qed.

Lemma queue_install c : queue_step c (clientInstallWriteHandler c) /\
  (online c = true -> flagged (clientInstallWriteHandler c) CLIENT_PENDING_WRITE = true).
Proof.
  unfold clientInstallWriteHandler. change (Resp.has (flags c) CLIENT_PENDING_WRITE) with (flagged c CLIENT_PENDING_WRITE). fold (online c).
  destruct (flagged c CLIENT_PENDING_WRITE) eqn:Ep; cbn [negb andb]; [by split; [apply queue_fixed|]|]. destruct (online c) eqn:Eo; [|by split; [apply queue_fixed|]].
  assert (Hp : Resp.has (Z.lor (flags c) CLIENT_PENDING_WRITE) CLIENT_PENDING_WRITE = true) by (rewrite has_union; by rewrite orb_true_r).
  split; [|intros _; exact Hp]. split; try done.
  - intros f [Hf _]%land_lor_split. by apply has_lor_other.
  - right. split; [done|]. split; [exact Hp|done].
  - left. split; [by apply has_lor_other|done].
Qed.

Lemma queue_trans_fixed c c1 c2 : queue_step c c1 -> fixed c2 = fixed c1 -> queue_step c c2.
Proof.
  intros [Q1 Q2 Q3 Q4] E. pose proof (fixed_role _ _ E) as Hr. destruct (fixed_fields _ _ E) as (E1 & _ & _ & _ & E5 & E6).
  pose proof (fun f => role_has _ _ f Hr) as Hf. pose proof (role_online _ _ Hr) as Ho. split; [by rewrite E1, Ho| |by rewrite Hf, E5|by rewrite Hf, E6].
  intros f H. rewrite Hf. by apply Q2.
Qed.
Lemma queue_trans c c1 c2 : queue_step c c1 -> queue_step c1 c2 -> queue_step c c2.
Proof.
  intros [[P1 P1'] P2 P3 P4] [[Q1 Q1'] Q2 Q3 Q4]. split.
  - by rewrite Q1, Q1'.
  - intros f Hf. by rewrite Q2, P2.
  - destruct P3 as [[P3 P3']|(P3 & P3' & P3'')], Q3 as [[Q3 Q3']|(Q3 & Q3' & Q3'')]; [left|right..|congruence]; split_and?; congruence.
  - destruct P4 as [[P4 P4']|(P4 & P4' & P4'')], Q4 as [[Q4 Q4']|(Q4 & Q4' & Q4'')]; [left|right..|congruence]; split_and?; congruence.
Qed.

Abbreviation add_reply := (add_reply_string usable junk client_obuf_limits unixtime).

(** After [prepareClientToWrite] a reply changes the buffers, and may schedule the
    client to be closed. *)
Definition stores c c' : Prop := exists c2, fixed c2 = fixed c /\ (c' = c2 \/ c' = freeClientAsync c2).

Lemma async_stores c c1 c' : fixed c1 = fixed c -> asyncCloseClientOnOutputBufferLimitReached client_obuf_limits unixtime c1 = Some c' -> stores c c'.
Proof.
  intros Hf. unfold asyncCloseClientOnOutputBufferLimitReached. destruct (negb _); [done|]. destruct (_ || _); [intros [= <-]; exists c1; auto|].
  destruct (check_limits_fields client_obuf_limits unixtime c1) as [t Et]. destruct (checkClientOutputBufferLimits client_obuf_limits unixtime c1) as [c4 over]. cbn [fst] in Et. subst c4.
  intros [= <-]. exists (set_soft_time t c1). split; [done|]. destruct over; auto.
Qed.

Lemma fill_tail_fixed c s c' s' : fill_tail c s = Some (c', s') -> fixed c' = fixed c.
Proof.
  unfold fill_tail. destruct (tail (reply c)) as [a|]; [|by intros [= <- _]]. destruct (nodes c !! a) as [nd|]; [|done]. cbn [mbind option_bind].
  destruct (value nd) as [b|]; [|by intros [= <- _]]. destruct (mwrite _ _ _); [|done]. cbn [mbind option_bind]. destruct (set_value _ _ _); [|done]. cbn [mbind option_bind]. by intros [= <- _].
Qed.

Lemma add_list_stores c s c' : _addReplyStringToList usable junk client_obuf_limits unixtime c s = Some c' -> stores c c'.
Proof.
  unfold _addReplyStringToList. destruct (Resp.has _ _); [intros [= <-]; exists c; auto|]. intros E. destruct (fill_tail c s) as [[c1 s1]|] eqn:E1; [|done]. cbn [mbind option_bind] in E.
  apply fill_tail_fixed in E1. set (x := if zlen s1 =? 0 then _ else _) in E. destruct x as [c2|] eqn:E2; [|done]. cbn [mbind option_bind] in E. subst x. apply (async_stores c c2); [|done].
  destruct (zlen s1 =? 0); [by injection E2 as <-|]. destruct (new_block _ _ _ _); [|done]. cbn [mbind option_bind] in E2. destruct (listAddNodeTail _ _ _); [|done]. cbn [mbind option_bind] in E2.
  by injection E2 as <-.
Qed.

Lemma add_reply_stores c s c' : add_reply c s = Some c' ->
  c' = fst (prepareClientToWrite c) \/ snd (prepareClientToWrite c) = true /\ stores (fst (prepareClientToWrite c)) c'.
Proof.
  unfold add_reply_string. destruct (prepareClientToWrite c) as [c1 ok]. cbn [fst snd]. destruct ok; cbn [negb]; [|intros [= <-]; by left]. intros E. right. split; [done|].
  destruct (_addReplyToBuffer c1 s) as [[c2 ok]|] eqn:E2; [|done]. cbn [mbind option_bind] in E.
  assert (H2 : fixed c2 = fixed c1).
  { unfold _addReplyToBuffer in E2. destruct (Resp.has _ _); [by injection E2 as <- _|]. destruct (len _ >? 0); [by injection E2 as <- _|]. destruct (zlen s >? _); [by injection E2 as <- _|].
    destruct (mwrite _ _ _); [|done]. cbn [mbind option_bind] in E2. by injection E2 as <- _. }
  destruct ok; [injection E as <-; exists c2; auto|]. apply add_list_stores in E as (c3 & E3 & H3). exists c3. split; [congruence|done].
Qed.

Definition queued c := (flagged c CLIENT_PENDING_WRITE, pending_writes c).

Lemma reply_queue c s c' : flagged c (Z.lor CLIENT_LUA CLIENT_MODULE) = false -> flagged c CLIENT_LUA = false -> add_reply c s = Some c' ->
  queue_step c c' /\ (clientHasPendingReplies c = true -> queued c' = queued c) /\
  (clientHasPendingReplies c = false -> online c = true -> c' = c \/ flagged c' CLIENT_PENDING_WRITE = true).
Proof.
  intros Hk Hl E. apply add_reply_stores in E. revert E. unfold prepareClientToWrite.
  change (Resp.has (flags c) (Z.lor CLIENT_LUA CLIENT_MODULE)) with (flagged c (Z.lor CLIENT_LUA CLIENT_MODULE)). rewrite Hk.
  assert (Hno : c' = c -> queue_step c c' /\ (clientHasPendingReplies c = true -> queued c' = queued c) /\ (clientHasPendingReplies c = false -> online c = true -> c' = c \/ flagged c' CLIENT_PENDING_WRITE = true)).
  { intros ->. split; [by apply queue_fixed|]. split; [done|]. auto. }
  destruct (Resp.has (flags c) _); cbn [fst snd]; [intros [->|[? _]]; [by apply Hno|done]|]. destruct (Resp.has (flags c) Resp.CLIENT_MASTER && _); cbn [fst snd]; [intros [->|[? _]]; [by apply Hno|done]|].
  destruct (fd c <=? 0); cbn [fst snd]; [intros [->|[? _]]; [by apply Hno|done]|]. set (c1 := if clientHasPendingReplies c then c else _). intros E.
  assert (Hq1 : queue_step c c1) by (subst c1; destruct (clientHasPendingReplies c); [by apply queue_fixed|apply queue_install]).
  assert (Hl1 : flagged c1 CLIENT_LUA = false) by by rewrite (qs_other _ _ Hq1).
  assert (H' : queue_step c1 c' /\ queued c' = queued c1).
  { assert (Hfx : forall c2, fixed c2 = fixed c1 -> queue_step c1 c2 /\ queued c2 = queued c1).
    { intros c2 E2. split; [by apply queue_fixed|]. unfold queued. destruct (fixed_fields _ _ E2) as (_ & _ & _ & _ & -> & _). by rewrite (role_has _ _ _ (fixed_role _ _ E2)). }
    destruct E as [->|(_ & c2 & E2 & [->| ->])]; [by apply Hfx|by apply Hfx|]. destruct (Hfx c2 E2) as [F1 F2]. assert (Hl2 : flagged c2 CLIENT_LUA = false) by by rewrite (qs_other _ _ F1).
    split; [by apply (queue_trans c1 c2); [|apply queue_async]|]. rewrite <- F2. destruct (free_async_ok c2 Hl2) as [G1 _ (_ & _ & G5 & _) _ _]. unfold queued. by rewrite G1, G5. }
  destruct H' as [H1 H2]. split; [by apply (queue_trans c c1)|]. split.
  - intros Hp. rewrite H2. subst c1. by rewrite Hp.
  - intros Hp Ho. right. injection H2 as -> _. subst c1. rewrite Hp. by apply queue_install.
Qed.
Lemma net_weaken n B B' : net_ok n B -> B' <= B -> net_ok n B'.
Proof. intros [Hc Hp Ht Hk] HB. split; [|done..]. intros x c Hx. by apply (client_frame n n B), Hc. Qed.

Lemma takes_role c c' : fd c' = fd c -> flags c' = flags c -> takes c' = takes c.
Proof. intros E1 E2. apply sr_takes. by apply role_same. Qed.

(** A reply to a client. *)
Record replied x n c ps n' c' ps' s : Prop := {
  rp_client : clients n' !! x = Some c';
  rp_settled : settled c' ps';
  rp_sendable : sendable c' ps' = sendable c ps ++ (if takes c then s else []);
  rp_role : takes c' = takes c /\ online c' = online c /\ flagged c' Resp.CLIENT_CLOSE_AFTER_REPLY = flagged c Resp.CLIENT_CLOSE_AFTER_REPLY
}.

Lemma reply_ok x s n B : net_ok n (zlen s + B) -> 0 <= B ->
  exists n', reply_to x s n = Some n' /\ net_ok n' B /\ apart x n n' /\ wire n' = wire n /\
    forall c ps, clients n !! x = Some c -> settled c ps -> exists c' ps', replied x n c ps n' c' ps' s.
Proof.
  intros Hok HB. pose proof (zlen_nonneg s) as Hz. unfold OutbufLoop.reply_to. destruct (clients n !! x) as [c|] eqn:Hc.
  2:{ unfold get_client. rewrite Hc. cbn [mbind option_bind]. exists n. split; [done|]. split; [apply (net_weaken n (zlen s + B)); [done|lia]|]. by split; [apply apart_refl|]. }
  pose proof (nt_clients _ _ Hok x c Hc) as [[F F0] K R Q C Hh S]. destruct R as (ps & Hs & Hroom). rewrite (get_ok _ _ _ Hc). set (c0 := set_queues _ _ c).
  destruct (settled_fields c c0 ps eq_refl eq_refl eq_refl eq_refl eq_refl eq_refl Hs) as [Hs0 Hse0]. assert (Ht0 : takes c0 = takes c) by by apply takes_role.
  destruct (emit_settled usable junk client_obuf_limits unixtime U1 J1 c0 ps s Hs0) as (c' & ps' & E & Hs' & Hse' & Hsl' & Hro'); [rewrite Hse0; change (sentlen c0) with (sentlen c); lia|].
  rewrite E. cbn [mbind option_bind]. rewrite Hse0, Ht0 in Hse'. change (sentlen c0) with (sentlen c) in Hsl'.
  destruct (reply_queue c0 s c') as ([[Q1 Q1'] Q2 Q3 Q4] & Hold & Hnew); [apply K|apply K|done|].
  change (fd c0) with (fd c) in *. change (flagged c0) with (flagged c) in *. change (online c0) with (online c) in *. change (clientHasPendingReplies c0) with (clientHasPendingReplies c) in *.
  change (pending_writes c0) with (clients_pending_write n) in *. change (to_close c0) with (clients_to_close n) in *. rewrite F in *.
  assert (Hpend : (forall g, g <> x -> g ∈ pending_writes c' <-> g ∈ clients_pending_write n) /\ NoDup (pending_writes c') /\ (flagged c' CLIENT_PENDING_WRITE = true <-> x ∈ pending_writes c')).
  { destruct Q3 as [[-> ->]|(P1 & -> & ->)]; [split; [done|split; [apply Hok|done]]|]. split; [intros g Hg; rewrite elem_of_cons; tauto|].
    split; [|by split; [left|]]. constructor; [|apply Hok]. intros Hin%Q. congruence. }
  assert (Hclos : (forall g, g <> x -> g ∈ to_close c' <-> g ∈ clients_to_close n) /\ NoDup (to_close c') /\ (flagged c' Resp.CLIENT_CLOSE_ASAP = true <-> x ∈ to_close c')).
  { destruct Q4 as [[-> ->]|(P1 & -> & ->)]; [split; [done|split; [apply Hok|done]]|]. split; [intros g Hg; rewrite elem_of_app, list_elem_of_singleton; tauto|].
    split; [|split; [set_solver|done]]. apply NoDup_app. split; [apply Hok|]. split; [|apply NoDup_singleton]. intros g Hg ->%list_elem_of_singleton. apply C in Hg. congruence. }
  destruct Hpend as (P1 & P2 & P3), Hclos as (T1 & T2 & T3). assert (Ho : apart x n (put_client x c' n)) by by apply put_apart.
  assert (Hgrow : clientHasPendingReplies c = true -> clientHasPendingReplies c' = true).
  { rewrite (pending_sendable c ps Hs), (pending_sendable c' ps' Hs'), Hse', zlen_app. intros Hn%negb_true_iff%Z.eqb_neq. pose proof (zlen_nonneg (sendable c ps)). pose proof (zlen_nonneg (if takes c then s else [])).
    apply negb_true_iff, Z.eqb_neq. lia. }
  eexists. split; [done|]. split; [|split; [done|split; [done|]]].
  - apply (net_step n _ (zlen s + B) B x); [done|lia|done|exact P2|exact T2|]. cbn [put_client clients]. rewrite lookup_insert_eq.
    split; cbn [put_client clients clients_pending_write clients_to_close writable]; rewrite ?Q1, ?Q1'; try done.
    + by rewrite !Q2.
    + exists ps'. split; [done|]. rewrite Hse', zlen_app, Hsl'. destruct (takes c); [lia|]. change (zlen []) with 0. lia.
    + intros Hw. destruct (Hh Hw) as [Hp Hn]. split; [by apply Hgrow|]. injection (Hold Hp) as _ ->. done.
    + intros Hp' Hon. destruct (clientHasPendingReplies c) eqn:Hp.
      * injection (Hold eq_refl) as H1 H2. destruct (S eq_refl Hon) as [Hi|[Hi|Hi]]; [left; by rewrite H2|auto|]. right. right. destruct Q4 as [[-> _]|(_ & -> & _)]; done.
      * destruct (Hnew eq_refl Hon) as [->|Hq]; [change (clientHasPendingReplies c0) with (clientHasPendingReplies c) in Hp'; congruence|]. left. by apply P3.
  - intros c1 ps1 Hc1 Hs1. injection Hc1 as <-. rewrite (settled_unique c ps1 ps Hs1 Hs). exists c', ps'. split; [cbn; by rewrite lookup_insert_eq|done|done|]. split; [by rewrite (sr_takes _ _ Hro')|]. split; [done|]. by apply Q2.
Qed.
(** Replies to one client. *)
Lemma own_replies ss x n B c ps : net_ok n (zlen (concat ss) + B) -> 0 <= B -> clients n !! x = Some c -> settled c ps -> takes c = true ->
  exists n' c' ps', replies_to (pair x <$> ss) n = Some n' /\ net_ok n' B /\ replied x n c ps n' c' ps' (concat ss) /\ wire n' = wire n.
Proof.
  intros Hok HB Hc Hs Ht. revert n c ps Hok Hc Hs Ht. induction ss as [|s ss IH]; intros n c ps Hok Hc Hs Ht; cbn [fmap list_fmap OutbufLoop.replies_to concat] in *.
  - exists n, c, ps. split; [done|]. split; [exact Hok|]. split; [|done]. split; [done|done| |done]. rewrite Ht. by rewrite app_nil_r.
  - rewrite zlen_app in Hok. pose proof (zlen_nonneg (concat ss)). destruct (reply_ok x s n (zlen (concat ss) + B)) as (n1 & -> & H1 & _ & Hw1 & Hr1); [apply (net_weaken n _ _ Hok); lia|lia|].
    cbn [mbind option_bind]. destruct (Hr1 c ps Hc Hs) as (c1 & ps1 & [R1 R2 R3 (R4 & R5 & R6)]). rewrite Ht in R3, R4.
    destruct (IH n1 c1 ps1 H1 R1 R2 R4) as (n2 & c2 & ps2 & -> & H2 & [S1 S2 S3 (S4 & S5 & S6)] & Hw2). exists n2, c2, ps2. split; [done|]. split; [done|]. split; [|congruence].
    split; [done|done| |rewrite S4, S5, S6; split_and!; congruence]. rewrite Ht. rewrite R4 in S3. by rewrite S3, R3, <- app_assoc.
Qed.

(** ** Turns of the loop *)

Definition replies_size (rs : list (Z * list Z)) : Z := zlen (concat (snd <$> rs)).
Fixpoint events_size (evs : list fired) : Z :=
  match evs with [] => 0 | FReadable rs :: evs => replies_size rs + events_size evs | FWritable _ _ :: evs => events_size evs end.
(** The bytes that commands add during some turns. *)
Fixpoint traffic (ts : list turn) : Z := match ts with [] => 0 | t :: ts => events_size (t_events t) + traffic ts end.

Lemma replies_size_cons p rs : replies_size (p :: rs) = zlen (snd p) + replies_size rs.
Proof. unfold replies_size. cbn [fmap list_fmap concat]. by rewrite zlen_app. Qed.

Lemma events_size_nonneg evs : 0 <= events_size evs.
Proof. induction evs as [|[rs|] evs IH]; cbn [events_size]; [lia| |lia]. unfold replies_size. pose proof (zlen_nonneg (concat (snd <$> rs))). lia. Qed.

Lemma traffic_nonneg ts : 0 <= traffic ts.
Proof. induction ts as [|t ts IH]; cbn [traffic]; [lia|]. pose proof (events_size_nonneg (t_events t)). lia. Qed.

(** Replies, none of them to [x]. *)
Lemma replies_ok rs n B : net_ok n (replies_size rs + B) -> 0 <= B ->
  exists n', replies_to rs n = Some n' /\ net_ok n' B /\
    forall x, Forall (fun p => fst p <> x) rs -> clients n' !! x = clients n !! x /\ wire_of n' x = wire_of n x /\ (x ∈ clients_pending_write n' <-> x ∈ clients_pending_write n).
Proof.
  revert n. induction rs as [|[y s] rs IH]; intros n Hok HB; cbn [OutbufLoop.replies_to].
  - exists n. by split_and!.
  - rewrite replies_size_cons in Hok. cbn [snd] in Hok. assert (0 <= replies_size rs) by apply zlen_nonneg.
    destruct (reply_ok y s n (replies_size rs + B)) as (n1 & -> & H1 & Ho1 & _); [apply (net_weaken n _ _ Hok); lia|lia|]. cbn [mbind option_bind].
    destruct (IH n1 H1 HB) as (n2 & -> & H2 & Hf2). exists n2. split; [done|]. split; [done|]. intros x [Hy Hrs]%Forall_cons_1. cbn [fst] in Hy.
    destruct (Hf2 x Hrs) as (E1 & E2 & E3), (Ho1 x (fun E => Hy (eq_sym E))) as (F1 & F2 & _ & _ & F5). rewrite E1, E2, E3, F1, F2, F5. done.
Qed.

(** No reply is added for [x], and when the kernel does not take anything from it
    the error is EAGAIN. *)
Definition event_ok x (ev : fired) : Prop :=
  match ev with FReadable rs => Forall (fun p => fst p <> x) rs | FWritable y k => y = x -> k_again k = true end.

(** The kernel reports [x] and takes at least a byte. *)
Definition reported x (ev : fired) : Prop := match ev with FReadable _ => False | FWritable y k => y = x /\ live (k_answers k) end.

Lemma mine_handler n B x acc r : net_ok n B -> mine n x acc r -> x ∉ clients_pending_write n -> 0 < zlen r -> x ∈ writable n.
Proof.
  intros Hok (c & ps & Hc & (S1 & S2 & S3) & Hs & -> & _) Hq Hr. destruct (cl_sent _ _ _ _ (nt_clients _ _ Hok x c Hc)) as [H|[H|H]]; [|done|done|done|congruence].
  rewrite (pending_sendable c ps Hs). apply negb_true_iff, Z.eqb_neq. lia.
Qed.

Lemma events_ok evs n B : net_ok n (events_size evs + B) -> 0 <= B ->
  exists n', process_events evs n = Some n' /\ net_ok n' B /\
    forall x acc r, Forall (event_ok x) evs -> x ∉ clients_pending_write n -> mine n x acc r ->
      x ∉ clients_pending_write n' /\ exists r', mine n' x acc r' /\ zlen r' <= zlen r /\ (Exists (reported x) evs -> 0 < zlen r -> zlen r' < zlen r).
Proof.
  revert n. induction evs as [|ev evs IH]; intros n Hok HB; cbn [OutbufLoop.process_events events_size] in *.
  - exists n. split; [done|]. split; [exact Hok|]. intros x acc r _ Hq Hm. split; [done|]. exists r. split; [done|]. split; [done|]. by intros ?%Exists_nil.
  - pose proof (events_size_nonneg evs).
    assert (exists n1, match ev with FReadable rs => replies_to rs n | FWritable fd k => if decide (fd ∈ writable n) then sendReplyToClient maxmemory zmalloc_used_memory k fd n else Some n end = Some n1 /\
      net_ok n1 (events_size evs + B) /\ forall x acc r, event_ok x ev -> x ∉ clients_pending_write n -> mine n x acc r ->
        x ∉ clients_pending_write n1 /\ exists r', mine n1 x acc r' /\ zlen r' <= zlen r /\ (reported x ev -> 0 < zlen r -> zlen r' < zlen r)) as (n1 & -> & H1 & Hm1).
    { destruct ev as [rs|y k].
      - destruct (replies_ok rs n (events_size evs + B)) as (n1 & -> & H1 & Hf1); [apply (net_weaken n _ _ Hok); lia|lia|]. exists n1. split; [done|]. split; [done|].
        intros x acc r Hev Hq Hm. destruct (Hf1 x Hev) as (E1 & E2 & E3). rewrite E3. split; [done|]. exists r. split; [by apply (mine_frame n)|]. by split.
      - destruct (decide (y ∈ writable n)) as [Hw|Hw].
        + destruct (send_ok k y n _ Hok Hw) as (n1 & -> & H1 & Ho1 & Hq1 & Hm1). exists n1. split; [done|]. split; [done|]. intros x acc r Hev Hq Hm. rewrite Hq1. split; [done|].
          destruct (decide (x = y)) as [->|Hne].
          * destruct (Hm1 acc r Hm (Hev eq_refl)) as (r' & Hr' & Hl & Hlt). exists r'. split; [done|]. split; [done|]. intros [_ Hlv]. by apply Hlt.
          * exists r. split; [by apply (mine_apart n n1 x y)|]. split; [done|]. by intros [-> _].
        + exists n. split; [done|]. split; [done|]. intros x acc r _ Hq Hm. split; [done|]. exists r. split; [done|]. split; [done|]. intros [-> _] Hr. destruct Hw. by apply (mine_handler n _ x acc r Hok). }
    cbn [mbind option_bind]. destruct (IH n1 H1 HB) as (n2 & -> & H2 & Hm2). exists n2. split; [done|]. split; [done|]. intros x acc r [Hev Hevs]%Forall_cons_1 Hq Hm.
    destruct (Hm1 x acc r Hev Hq Hm) as (Hq1 & r1 & Hr1 & Hl1 & Hlt1). destruct (Hm2 x acc r1 Hevs Hq1 Hr1) as (Hq2 & r2 & Hr2 & Hl2 & Hlt2). split; [done|]. exists r2. split; [done|]. split; [lia|].
    intros [Hx|Hx]%Exists_cons Hr; [specialize (Hlt1 Hx Hr); lia|]. destruct (Z.eq_dec (zlen r1) 0) as [|]; [lia|]. pose proof (zlen_nonneg r1). specialize (Hlt2 Hx ltac:(lia)). lia.
Qed.
(** A turn in which the kernel reports [x] and takes at least a byte, and nothing
    is added for [x]; the calls of the system for [x] do not fail. *)
Definition serves x (t : turn) : Prop :=
  k_again (t_before t x) = true /\ t_create t x = true /\ Forall (event_ok x) (t_events t) /\ Exists (reported x) (t_events t).

Lemma turn_ok t n B : net_ok n (events_size (t_events t) + B) -> 0 <= B ->
  exists n', run_turn t n = Some n' /\ net_ok n' B /\
    forall x acc r, serves x t -> mine n x acc r ->
      x ∉ clients_pending_write n' /\ exists r', mine n' x acc r' /\ zlen r' <= zlen r /\ (0 < zlen r -> zlen r' < zlen r).
Proof.
  intros Hok HB. unfold OutbufLoop.run_turn, handleClientsWithPendingWrites.
  destruct (handle_clients_ok (t_before t) (t_create t) (clients_pending_write n) n _ Hok eq_refl) as (n1 & -> & H1 & Hq1 & Hm1). cbn [mbind option_bind].
  destruct (events_ok (t_events t) n1 B H1 HB) as (n2 & -> & H2 & Hm2). cbn [mbind option_bind].
  assert (Hcron : exists n3, (if t_cron t then freeClientsInAsyncFreeQueue n2 else Some n2) = Some n3 /\ net_ok n3 B /\ forall x, x ∉ clients_to_close n2 ->
    clients n3 !! x = clients n2 !! x /\ wire_of n3 x = wire_of n2 x /\ (x ∈ clients_pending_write n3 <-> x ∈ clients_pending_write n2)).
  { destruct (t_cron t); [|by exists n2]. by apply free_queue_ok. }
  destruct Hcron as (n3 & -> & H3 & Hf3). exists n3. split; [done|]. split; [done|]. intros x acc r (Hag & Hcr & Hev & Hrep) Hm.
  destruct (Hm1 x acc r Hm Hag Hcr) as (r1 & Hr1 & Hl1). destruct (Hm2 x acc r1 Hev) as (Hq2 & r2 & Hr2 & Hl2 & Hlt2); [rewrite Hq1; by intros ?%elem_of_nil|done|].
  assert (Hnc : x ∉ clients_to_close n2).
  { destruct Hr2 as (c & ps & Hc & (_ & Hst & _) & _). intros Hin%(cl_closing _ _ _ _ (nt_clients _ _ H2 x c Hc)). congruence. }
  destruct (Hf3 x Hnc) as (E1 & E2 & E3). rewrite E3. split; [done|]. exists r2. split; [by apply (mine_frame n2)|]. split; [lia|]. intros Hr. pose proof (zlen_nonneg r1).
  destruct (Z.eq_dec (zlen r1) 0); [lia|]. specialize (Hlt2 Hrep ltac:(lia)). lia.
Qed.

Lemma turns_ok ts n B : net_ok n (traffic ts + B) -> 0 <= B ->
  exists n', aeMain ts n = Some n' /\ net_ok n' B /\
    forall x acc r, Forall (serves x) ts -> mine n x acc r ->
      (ts <> [] \/ x ∉ clients_pending_write n -> x ∉ clients_pending_write n') /\ exists r', mine n' x acc r' /\ (zlen r <= zlen ts -> r' = []).
Proof.
  revert n. induction ts as [|t ts IH]; intros n Hok HB; cbn [OutbufLoop.aeMain traffic] in *.
  - exists n. split; [done|]. split; [done|]. intros x acc r _ Hm. split; [by intros [|]|]. exists r. split; [done|]. change (zlen []) with 0. intros Hr. apply length_zero_iff_nil. unfold zlen in Hr. lia.
  - pose proof (traffic_nonneg ts). destruct (turn_ok t n (traffic ts + B)) as (n1 & -> & H1 & Hm1); [apply (net_weaken n _ _ Hok); lia|lia|]. cbn [mbind option_bind].
    destruct (IH n1 H1 HB) as (n2 & -> & H2 & Hm2). exists n2. split; [done|]. split; [done|]. intros x acc r [Ht Hts]%Forall_cons_1 Hm.
    destruct (Hm1 x acc r Ht Hm) as (Hq1 & r1 & Hr1 & Hl1 & Hlt1). destruct (Hm2 x acc r1 Hts Hr1) as (Hq2 & r2 & Hr2 & Hl2). split; [auto|]. exists r2. split; [done|]. rewrite zlen_cons.
    intros Hr. apply Hl2. pose proof (zlen_nonneg r). pose proof (zlen_nonneg ts). destruct (Z.eq_dec (zlen r) 0) as [|]; [lia|]. specialize (Hlt1 ltac:(lia)). lia.
Qed.

(** [C13] Replies reach the client.  However many clients there are, whatever they
    are told and whatever the kernel answers for them, the event loop runs and
    keeps the invariant of its queues and handlers; and what is added to the buffers
    of a client, after what was there, is sent by it, all of it and in order, after
    as many turns as there are bytes, when in each turn the kernel reports the
    descriptor of the client and takes at least a byte, no call of the system for it
    fails, and it is told nothing more ([serves]).  Then nothing is pending,
    the client is not queued and its write handler is removed.  This is for a client
    that gets replies and, if it is a replica, is online, and unless the replies
    schedule it to be closed because of the limit of its class.  No client is
    protected ([CLIENT_PROTECTED]) and the buffers stay below 2^44 bytes
    ([net_ok]). *)
Theorem replies_reach_client ss ts x n c ps :
  net_ok n (zlen (concat ss) + traffic ts) -> clients n !! x = Some c -> settled c ps -> takes c = true -> online c = true ->
  Forall (serves x) ts -> ts <> [] -> zlen (sendable c ps) + zlen (concat ss) <= zlen ts ->
  exists n1 c1 n2, replies_to (pair x <$> ss) n = Some n1 /\ clients n1 !! x = Some c1 /\ aeMain ts n1 = Some n2 /\ net_ok n2 0 /\
    (flagged c1 Resp.CLIENT_CLOSE_ASAP = false -> wire_of n2 x = wire_of n x ++ sendable c ps ++ concat ss /\
      exists c2, clients n2 !! x = Some c2 /\ clientHasPendingReplies c2 = false /\ (x ∉ clients_pending_write n2) /\ x ∉ writable n2).
Proof.
  intros Hok Hc Hs Ht Hon Hts Hne Hlen. pose proof (traffic_nonneg ts). destruct (own_replies ss x n (traffic ts) c ps Hok) as (n1 & c1 & ps1 & E1 & H1 & [R1 R2 R3 (R4 & R5 & R6)] & Hw); [done..|].
  rewrite Ht in R3. destruct (turns_ok ts n1 0) as (n2 & E2 & H2 & Hm); [apply (net_weaken n1 _ _ H1); lia|done|]. exists n1, c1, n2. split; [done|]. split; [done|]. split; [done|]. split; [done|]. intros Hasap.
  destruct (Hm x (wire_of n x ++ sendable c1 ps1) (sendable c1 ps1) Hts) as (Hq & r & (c2 & ps2 & Hc2 & _ & Hs2 & -> & Hacc) & Hr).
  { exists c1, ps1. split; [done|]. split; [|split; [done|split; [done|unfold wire_of; by rewrite Hw]]]. split; [congruence|]. split; [done|]. rewrite R6. unfold takes in Ht. unfold flagged. by destruct (Resp.has (flags c) Resp.CLIENT_CLOSE_AFTER_REPLY); [rewrite andb_false_r in Ht|]. }
  rewrite Hr in Hacc by (rewrite R3, zlen_app; lia). rewrite app_nil_r, R3 in Hacc. split; [done|]. exists c2. split; [done|].
  assert (Hp : clientHasPendingReplies c2 = false) by (rewrite (pending_sendable c2 ps2 Hs2), Hr by (rewrite R3, zlen_app; lia); done).
  split; [done|]. split; [auto|]. intros Hin. destruct (cl_handler _ _ _ _ (nt_clients _ _ H2 x c2 Hc2) Hin). congruence.
Qed.
End Serve.

(** ** Witness *)

(** Two clients; the second one is told something meanwhile, and its kernel does
    not take it at first. *)
Definition b_client : oclient :=
  {| fd := 8; flags := 0; replstate := REPL_STATE_NONE; repl_put_online_on_ack := false; buf := replicate 16384 0; bufpos := 0; sentlen := 0;
     nodes := ∅; reply := listCreate; reply_bytes := 0; obuf_soft_limit_reached_time := 0; pending_writes := []; to_close := [] |}.

Definition a_net : net :=
  {| clients := {[7 := a_client; 8 := b_client]}; clients_pending_write := []; clients_to_close := []; writable := ∅; wire := ∅ |}.

Definition a_turn : turn :=
  {| t_before fd := {| k_again := true; k_answers := if fd =? 7 then [2] else [] |}; t_create _ := true;
     t_events := [FReadable [(8, bytes_of "+x")]; FWritable 7 {| k_again := true; k_answers := [1; -1] |}]; t_cron := true |}.

Lemma idle_client_ok x c B : clients a_net !! x = Some c -> B < 2 ^ 44 -> served_ok a_net B x c.
Proof.
  intros Hx HB. assert (Hc : (x = 7 /\ c = a_client) \/ (x = 8 /\ c = b_client)).
  { cbn [a_net clients] in Hx. apply lookup_insert_Some in Hx as [[<- <-]|[_ Hx]]; [by left|]. apply lookup_singleton_Some in Hx as [<- <-]. by right. }
  assert (Hset : settled c []).
  { destruct Hc as [[_ ->]|[_ ->]]; [exact a_client_settled|]. by apply (settled_fields a_client b_client [] eq_refl eq_refl eq_refl eq_refl eq_refl eq_refl a_client_settled). }
  split.
  - by destruct Hc as [[-> ->]|[-> ->]].
  - by destruct Hc as [[-> ->]|[-> ->]].
  - exists []. split; [done|]. by destruct Hc as [[-> ->]|[-> ->]].
  - destruct Hc as [[-> ->]|[-> ->]]; (split; [done|by intros ?%elem_of_nil]).
  - destruct Hc as [[-> ->]|[-> ->]]; (split; [done|by intros ?%elem_of_nil]).
  - cbn [a_net writable]. set_solver.
  - by destruct Hc as [[-> ->]|[-> ->]].
Qed.

Lemma a_net_ok B : B < 2 ^ 44 -> net_ok a_net B.
Proof.
  intros HB. split; [|constructor..|].
  - intros x c Hx. by apply idle_client_ok.
  - cbn [a_net clients_pending_write clients_to_close writable]. set_solver.
Qed.

Lemma a_turn_serves : serves 7 a_turn.
Proof. split; [done|]. split; [done|]. split; [by repeat constructor|]. right. left. by split. Qed.

Lemma replies_reach_client_witness : exists n1 c1 n2,
  replies_to a_usable a_junk a_limits 100 [(7, bytes_of "+OK"); (7, bytes_of "+more")] a_net = Some n1 /\ clients n1 !! 7 = Some c1 /\
  aeMain a_usable a_junk a_limits 100 0 0 (replicate 8 a_turn) n1 = Some n2 /\ net_ok n2 0 /\
  (flagged c1 Resp.CLIENT_CLOSE_ASAP = false -> wire_of n2 7 = bytes_of "+OK+more" /\
    exists c2, clients n2 !! 7 = Some c2 /\ clientHasPendingReplies c2 = false /\ (7 ∉ clients_pending_write n2) /\ 7 ∉ writable n2).
Proof.
  destruct (replies_reach_client a_usable a_junk a_limits 100 0 0 a_usable_ok a_junk_ok [bytes_of "+OK"; bytes_of "+more"] (replicate 8 a_turn) 7 a_net a_client [])
    as (n1 & c1 & n2 & E1 & E2 & E3 & E4 & H).
  - apply a_net_ok. by vm_compute.
  - by vm_compute.
  - exact a_client_settled.
  - by vm_compute.
  - by vm_compute.
  - repeat (constructor; [exact a_turn_serves|]). constructor.
  - discriminate.
  - by vm_compute.
  - exists n1, c1, n2. split; [exact E1|]. split; [exact E2|]. split; [exact E3|]. split; [exact E4|]. intros Hc. exact (H Hc).
Defined.

(** The client is not closed in that run, and the other one has a write handler at
    its end, since its kernel takes nothing. *)
Example a_net_runs :
  (n1 ← replies_to a_usable a_junk a_limits 100 [(7, bytes_of "+OK"); (7, bytes_of "+more")] a_net;
   c1 ← clients n1 !! 7; n2 ← aeMain a_usable a_junk a_limits 100 0 0 (replicate 8 a_turn) n1;
   Some (flagged c1 Resp.CLIENT_CLOSE_ASAP, wire_of n2 7, wire_of n2 8, elements (writable n2))) = Some (false, bytes_of "+OK+more", [], [8]).
Proof. by vm_compute. Qed.
