(* ===== verification/Rdb.v ===== *)
(** * The RDB format: lengths, integers, strings and payloads (rdb.c, rdb.h, cluster.c)

    The savers are computations on a stream that may be NULL, the loaders on a
    stream and the heap of objects; the answer -1 of a saver and the answer NULL
    of a loader are values, [None] is a failed assertion, an access outside a
    buffer, the exit of the server because the file is corrupt, or a value of a
    type other than strings. *)
From Stdlib Require Import ZArith Lia.
From stdpp Require Import base numbers list option gmap.
From S2P Require Import Prelude UtilNum Sds Object ObjectHeap Checksum Lzf Rio Keyspace Db.

Definition RDB_VERSION : Z := 9.
Definition RDB_6BITLEN : Z := 0.
Definition RDB_14BITLEN : Z := 1.
Definition RDB_32BITLEN : Z := 0x80.
Definition RDB_64BITLEN : Z := 0x81.
Definition RDB_ENCVAL : Z := 3.
Definition RDB_LENERR : Z := 2 ^ 64 - 1.
Definition RDB_ENC_INT8 : Z := 0.
Definition RDB_ENC_INT16 : Z := 1.
Definition RDB_ENC_INT32 : Z := 2.
Definition RDB_ENC_LZF : Z := 3.
Definition RDB_TYPE_STRING : Z := 0.
Definition RDB_LOAD_NONE : Z := 0.
Definition RDB_LOAD_ENC : Z := Z.shiftl 1 0.
Definition RDB_LOAD_PLAIN : Z := Z.shiftl 1 1.
Definition RDB_LOAD_SDS : Z := Z.shiftl 1 2.
Definition UINT32_MAX : Z := 2 ^ 32 - 1.
Definition LONG_STR_SIZE : Z := 21.

Definition rdbIsObjectType (t : Z) : bool := ((0 <=? t) && (t <=? 7)) || ((9 <=? t) && (t <=? 15)).

(** ** Numbers of the C library

    On the bytes of a string up to its NUL terminator. *)
Fixpoint c_text (s : list Z) : list Z :=
  match s with [] => [] | c :: s => if c =? 0 then [] else c :: c_text s end.


(** The spaces in front, and the number of digits with their value. *)
Fixpoint spaces (s : list Z) : nat := match s with c :: s => if isspace c then S (spaces s) else O | [] => O end.
Fixpoint digit_value (s : list Z) (v : Z) (n : nat) : Z * nat :=
  match s with c :: s => if (48 <=? c) && (c <=? 57) then digit_value s (v * 10 + (c - 48)) (S n) else (v, n) | [] => (v, n) end.

(** [strtoll(s,&endptr,10)]: the value and [endptr - s]. *)
Definition strtoll (s : list Z) : Z * Z :=
  let t := c_text s in
  let sp := spaces t in
  let t := drop sp t in
  let '(neg, sign) := match t with c :: _ => if c =? 45 then (true, 1%nat) else if c =? 43 then (false, 1%nat) else (false, 0%nat) | [] => (false, 0%nat) end in
  let '(v, n) := digit_value (drop sign t) 0 0 in
  if (n =? 0)%nat then (0, 0)
  else (if neg : bool then Z.max LLONG_MIN (- v) else Z.min LLONG_MAX v, Z.of_nat (sp + sign + n)).

Definition atoi (s : list Z) : Z := i32 (fst (strtoll s)).

(** ** Savers *)

(** [if ((n = m) == -1) return -1]. *)
Definition or_return {St} (m : M St Z) (k : Z -> M St Z) : M St Z := n <- m ;; if n =? -1 then ret (-1) else k n.
Notation "n <~ m ;; k" := (or_return m (fun n => k)) (at level 100, m at next level, k at level 200, right associativity) : db_scope.

Section Rdb.
(** The buffer of the C library, uninitialised memory, and [server.rdb_compression]. *)
Context (bufsiz : Z) (junk : Z -> Z) (rdb_compression : bool).

Definition uninit (n : Z) : list Z := junk <$> seqZ 0 n.

Section Save.
Abbreviation W := (M (option rio)).

(** The length is returned as an [int]. *)
Definition rdbWriteRaw (p : list Z) : W Z := fun rdb =>
  match rdb with
  | None => Some (i32 (zlen p), None)
  | Some r => t ← rioWrite bufsiz r p; Some (if snd t : bool then i32 (zlen p) else -1, Some (fst t))
  end.

Definition rdbSaveType (type : Z) : W Z := rdbWriteRaw [u8 type].

Definition rdbSaveMillisecondTime (t : Z) : W Z := rdbWriteRaw (le_bytes 8 t).

(** [htonl] on this machine. *)
Definition htonl (v : Z) : Z := le_val (rev (le_bytes 4 v)).

Definition rdbSaveLen (len : Z) : W Z :=
  if len <? 2 ^ 6 then
    _ <~ rdbWriteRaw [u8 (Z.lor (Z.land len 255) (Z.shiftl RDB_6BITLEN 6))] ;; ret 1
  else if len <? 2 ^ 14 then
    _ <~ rdbWriteRaw [u8 (Z.lor (Z.land (Z.shiftr len 8) 255) (Z.shiftl RDB_14BITLEN 6)); Z.land len 255] ;; ret 2
  else if len <=? UINT32_MAX then
    _ <~ rdbWriteRaw [RDB_32BITLEN] ;;
    let len32 := htonl len in
    _ <~ rdbWriteRaw (le_bytes 4 len32) ;; ret 5
  else
    _ <~ rdbWriteRaw [RDB_64BITLEN] ;;
    len <- lift (intrev64 len) ;;
    _ <~ rdbWriteRaw (le_bytes 8 len) ;; ret 9.

(** The bytes put in [enc]; none when 0 is returned. *)
Definition rdbEncodeInteger (value : Z) : list Z :=
  let byte k := Z.land (Z.shiftr value k) 255 in
  if (- 2 ^ 7 <=? value) && (value <=? 2 ^ 7 - 1) then
    [Z.lor (Z.shiftl RDB_ENCVAL 6) RDB_ENC_INT8; Z.land value 255]
  else if (- 2 ^ 15 <=? value) && (value <=? 2 ^ 15 - 1) then
    [Z.lor (Z.shiftl RDB_ENCVAL 6) RDB_ENC_INT16; Z.land value 255; byte 8]
  else if (- 2 ^ 31 <=? value) && (value <=? 2 ^ 31 - 1) then
    [Z.lor (Z.shiftl RDB_ENCVAL 6) RDB_ENC_INT32; Z.land value 255; byte 8; byte 16; byte 24]
  else [].

(** [s] is followed by a NUL. *)
Definition rdbTryIntegerEncoding (s : list Z) : option (list Z) :=
  let '(value, endptr) := strtoll s in
  if negb (default 0 (mget s endptr) =? 0) then Some []
  else
    r ← ll2string (uninit 32) 32 value;
    buf ← c_string (snd r);
    if negb (zlen buf =? zlen s) || negb (bool_decide (buf = s)) then Some []
    else Some (rdbEncodeInteger value).

Definition rdbSaveLzfBlob (data : list Z) (compress_len original_len : Z) : W Z :=
  n1 <~ rdbWriteRaw [Z.lor (Z.shiftl RDB_ENCVAL 6) RDB_ENC_LZF] ;;
  n2 <~ rdbSaveLen compress_len ;;
  n3 <~ rdbSaveLen original_len ;;
  p <- lift (mread data 0 compress_len) ;;
  n4 <~ rdbWriteRaw p ;;
  ret (n1 + n2 + n3 + n4).

Definition rdbSaveLzfStringObject (s : list Z) : W Z :=
  let len := zlen s in
  if len <=? 4 then ret 0
  else
    let outlen := len - 4 in
    r <- lift (lzf_compress junk s len (uninit (outlen + 1)) outlen) ;;
    let '(comprlen, out) := r in
    if comprlen =? 0 then ret 0 else rdbSaveLzfBlob out comprlen len.

(** "Store verbatim". *)
Definition save_verbatim (s : list Z) : W Z :=
  n <~ rdbSaveLen (zlen s) ;;
  if zlen s >? 0 then _ <~ rdbWriteRaw s ;; ret (n + zlen s) else ret n.

Definition rdbSaveRawString (s : list Z) : W Z :=
  let len := zlen s in
  enc <- (if len <=? 11 then lift (rdbTryIntegerEncoding s) else ret []) ;;
  if zlen enc >? 0 then _ <~ rdbWriteRaw enc ;; ret (zlen enc)
  else if rdb_compression && (len >? 20) then
    n <~ rdbSaveLzfStringObject s ;;
    if n >? 0 then ret n else save_verbatim s
  else save_verbatim s.

Definition rdbSaveLongLongAsStringObject (value : Z) : W Z :=
  let enc := rdbEncodeInteger value in
  if zlen enc >? 0 then rdbWriteRaw enc
  else
    r <- lift (ll2string (uninit 32) 32 value) ;;
    let '(enclen, buf) := r in
    if negb (enclen <? 32) then fail
    else
      n1 <~ rdbSaveLen enclen ;;
      p <- lift (mread buf 0 enclen) ;;
      n2 <~ rdbWriteRaw p ;;
      ret (n1 + n2).

Definition rdbSaveStringObject (obj : robj) : W Z :=
  match enc obj with
  | OInt v => rdbSaveLongLongAsStringObject v
  | OEmbstr s | ORaw s => rdbSaveRawString s
  | OOther _ => fail
  end.

(** Other types than strings are not modelled. *)
Definition rdbSaveObjectType (o : robj) : W Z := match enc o with OOther _ => fail | _ => rdbSaveType RDB_TYPE_STRING end.
Definition rdbSaveObject (o : robj) : W Z := match enc o with OOther _ => fail | _ => rdbSaveStringObject o end.
End Save.

Definition rdbSavedObjectLen (o : robj) : option Z :=
  r ← rdbSaveObject o None;
  if fst r =? -1 then None else Some (fst r).

(** ** Loaders *)

Section Load.
Abbreviation R := (M rio).

Definition rd (len : Z) : R (option (list Z)) := fun r => t ← rioRead r len; Some (snd t, fst t).

(** A short read makes the server exit. *)
Definition rdbLoadRaw (len : Z) : R (list Z) := b <- rd len ;; lift b.

(** -1 for an error. *)
Definition rdbLoadType : R Z :=
  b <- rd 1 ;;
  match b with Some [type] => ret type | _ => ret (-1) end.

Definition rdbLoadTime : R Z := b <- rdbLoadRaw 4 ;; ret (i32 (le_val b)).

(** Files before version 9 are read alike on this machine. *)
Definition rdbLoadMillisecondTime (rdbver : Z) : R Z := b <- rdbLoadRaw 8 ;; ret (i64 (le_val b)).

Definition ntohl (v : Z) : Z := le_val (rev (le_bytes 4 v)).

(** [isencoded] and the length; [None] inside is -1. *)
Definition rdbLoadLenByRef : R (option (bool * Z)) :=
  b <- rd 1 ;;
  match b with
  | Some [b0] =>
      let type := Z.shiftr (Z.land b0 0xC0) 6 in
      if type =? RDB_ENCVAL then ret (Some (true, Z.land b0 0x3F))
      else if type =? RDB_6BITLEN then ret (Some (false, Z.land b0 0x3F))
      else if type =? RDB_14BITLEN then
        b <- rd 1 ;;
        match b with
        | Some [b1] => ret (Some (false, Z.lor (Z.shiftl (Z.land b0 0x3F) 8) b1))
        | _ => ret None
        end
      else if b0 =? RDB_32BITLEN then
        b <- rd 4 ;;
        match b with Some len => ret (Some (false, ntohl (le_val len))) | None => ret None end
      else if b0 =? RDB_64BITLEN then
        b <- rd 8 ;;
        match b with Some len => len <- lift (intrev64 (le_val len)) ;; ret (Some (false, len)) | None => ret None end
      else fail
  | _ => ret None
  end.

Definition rdbLoadLen : R (bool * Z) := r <- rdbLoadLenByRef ;; ret (default (false, RDB_LENERR) r).
End Load.

(** ** Loading objects *)

Section Objects.
Context (shared_integers : Z -> oaddr) (values_shared : bool).

(** What [rdbGenericLoadStringObject] answers: a plain or SDS string, or an object. *)
Inductive loaded := LStr (s : list Z) | LObj (o : oaddr).

Abbreviation heap := (gmap oaddr robj).
Abbreviation L := (M (rio * heap)).

Definition on_rio {A} (m : M rio A) : L A := fun s => t ← m (fst s); Some (fst t, (snd t, snd s)).
Definition new_obj (f : heap -> option (oaddr * heap)) : L oaddr := fun s => t ← f (snd s); Some (fst t, (fst s, snd t)).
Definition free_obj (o : oaddr) : L unit := fun s => h ← decrRefCount (snd s) o; Some (tt, (fst s, h)).

Definition has_flag (flags flag : Z) : bool := negb (Z.land flags flag =? 0).

Definition rdbLoadIntegerObject (enctype flags : Z) : L (option loaded) :=
  let plain := has_flag flags RDB_LOAD_PLAIN in
  let sds := has_flag flags RDB_LOAD_SDS in
  let encode := has_flag flags RDB_LOAD_ENC in
  val <- on_rio (
    if enctype =? RDB_ENC_INT8 then
      b <- rd 1 ;; ret (match b with Some [e0] => Some (i8 e0) | _ => None end)
    else if enctype =? RDB_ENC_INT16 then
      b <- rd 2 ;; ret (match b with Some [e0; e1] => Some (i16 (u16 (Z.lor e0 (Z.shiftl e1 8)))) | _ => None end)
    else if enctype =? RDB_ENC_INT32 then
      b <- rd 4 ;; ret (match b with
        | Some [e0; e1; e2; e3] => Some (i32 (u32 (Z.lor (Z.lor (Z.lor e0 (Z.shiftl e1 8)) (Z.shiftl e2 16)) (Z.shiftl e3 24))))
        | _ => None end)
    else fail) ;;
  match val with
  | None => ret None
  | Some val =>
      if plain || sds then
        r <- lift (ll2string (uninit LONG_STR_SIZE) LONG_STR_SIZE val) ;;
        p <- lift (mread (snd r) 0 (fst r)) ;;
        ret (Some (LStr p))
      else if encode then
        o <- new_obj (fun h => createStringObjectFromLongLongForValue shared_integers values_shared h val) ;; ret (Some (LObj o))
      else
        s <- lift (sdsfromlonglong (uninit 21) val) ;;
        o <- new_obj (fun h => Some (createObject h (ORaw s))) ;; ret (Some (LObj o))
  end.

Definition rdbLoadLzfStringObject (flags : Z) : L (option loaded) :=
  let plain := has_flag flags RDB_LOAD_PLAIN in
  let sds := has_flag flags RDB_LOAD_SDS in
  clen <- on_rio rdbLoadLen ;;
  if snd clen =? RDB_LENERR then ret None
  else
    len <- on_rio rdbLoadLen ;;
    if snd len =? RDB_LENERR then ret None
    else
      c <- on_rio (rd (snd clen)) ;;
      match c with
      | None => ret None
      | Some c =>
          d <- lift (lzf_decompress c (snd clen) (uninit (snd len)) (snd len)) ;;
          match d with
          | DErr _ _ => ret None
          | DOk n val =>
              if n =? 0 then ret None
              else if plain || sds then ret (Some (LStr val))
              else o <- new_obj (fun h => Some (createObject h (ORaw val))) ;; ret (Some (LObj o))
          end
      end.

(** [rioRead] into the string of an object just created. *)
Definition fill_obj (o : oaddr) (s : list Z) : L unit := fun st =>
  ob ← snd st !! o;
  let put e := Some (tt, (fst st, <[o := {| refcount := refcount ob; enc := e |}]> (snd st))) in
  match enc ob with OEmbstr _ => put (OEmbstr s) | ORaw _ => put (ORaw s) | _ => None end.

Definition rdbGenericLoadStringObject (flags : Z) : L (option loaded) :=
  let encode := has_flag flags RDB_LOAD_ENC in
  let plain := has_flag flags RDB_LOAD_PLAIN in
  let sds := has_flag flags RDB_LOAD_SDS in
  r <- on_rio rdbLoadLen ;;
  let '(isencoded, len) := r in
  if isencoded : bool then
    if (len =? RDB_ENC_INT8) || (len =? RDB_ENC_INT16) || (len =? RDB_ENC_INT32) then rdbLoadIntegerObject len flags
    else if len =? RDB_ENC_LZF then rdbLoadLzfStringObject flags
    else fail
  else if len =? RDB_LENERR then ret None
  else if plain || sds then
    b <- (if negb (len =? 0) then on_rio (rd len) else ret (Some [])) ;;
    ret (option_map LStr b)
  else
    o <- new_obj (fun h => Some (if encode then createStringObject h (uninit len) else createRawStringObject h (uninit len))) ;;
    if len =? 0 then ret (Some (LObj o))
    else
      b <- on_rio (rd len) ;;
      match b with
      | None => free_obj o ;; ret None
      | Some b => fill_obj o b ;; ret (Some (LObj o))
      end.

Definition rdbLoadStringObject : L (option loaded) := rdbGenericLoadStringObject RDB_LOAD_NONE.
Definition rdbLoadEncodedStringObject : L (option loaded) := rdbGenericLoadStringObject RDB_LOAD_ENC.

(** -1 for what is not the type of an object. *)
Definition rdbLoadObjectType : L Z :=
  type <- on_rio rdbLoadType ;;
  if type =? -1 then ret (-1) else if negb (rdbIsObjectType type) then ret (-1) else ret type.

(** Strings; [None] inside is NULL. *)
Definition rdbLoadObject (rdbtype : Z) : L (option oaddr) :=
  if rdbtype =? RDB_TYPE_STRING then
    o <- rdbLoadEncodedStringObject ;;
    match o with
    | None => ret None
    | Some (LStr _) => fail
    | Some (LObj o) => o <- new_obj (fun h => tryObjectEncoding shared_integers values_shared h o) ;; ret (Some o)
    end
  else fail.

(** ** DUMP payloads (cluster.c) *)

Definition createDumpPayload (o : robj) : option (list Z) :=
  r ← rdbSaveObjectType o (Some (rioInitWithBuffer []));
  if fst r =? 0 then None
  else
    r ← rdbSaveObject o (snd r);
    if fst r =? 0 then None
    else
      payload ← snd r;
      ptr ← (match io payload with IoBuffer ptr _ => Some ptr | IoFile _ _ _ => None end);
      let ptr := ptr ++ [Z.land RDB_VERSION 0xff; Z.land (Z.shiftr RDB_VERSION 8) 0xff] in
      crc ← crc64 0 ptr (zlen ptr);
      Some (ptr ++ le_bytes 8 crc).

(** [true] is [C_OK]. *)
Definition verifyDumpPayload (p : list Z) (len : Z) : option bool :=
  if len <? 10 then Some false
  else
    let footer := len - 10 in
    f0 ← mget p footer;
    f1 ← mget p (footer + 1);
    let rdbver := u16 (Z.lor (Z.shiftl f1 8) f0) in
    if rdbver >? RDB_VERSION then Some false
    else
      crc ← crc64 0 p (len - 8);
      tail ← mread p (footer + 2) 8;
      Some (bool_decide (le_bytes 8 crc = tail)).
End Objects.
End Rdb.
