(* ===== verification/RdbProof.v ===== *)
(** * The RDB format: what is saved is what is loaded

    [saves m bs n]: the saver [m] puts the bytes [bs] and answers [n], or the
    stream fails and it answers -1.  [loads m bs x]: the loader [m] consumes
    exactly [bs] and answers [x], whatever follows. *)
From Stdlib Require Import ZArith Lia.
From stdpp Require Import base numbers list option gmap gmultiset.
From S2P Require Import Prelude UtilNum Sds SdsRefine Object ObjectHeap Checksum Lzf LzfProof Rio Keyspace Db Rdb.

Lemma zlen_0_nil {A} (l : list A) : zlen l <= 0 -> l = [].
Proof. destruct l; [done|]. rewrite zlen_cons. pose proof (zlen_nonneg l). lia. Qed.

(** ** Savers and loaders *)

Definition saves (m : M (option rio) Z) (bs : list Z) (n : Z) : Prop :=
  m None = Some (n, None) /\
  forall r, rio_ok r -> exists k r', m (Some r) = Some (k, Some r') /\ ((k = n /\ wrote r bs r') \/ (k = -1 /\ broke (zlen bs) r r')).

Lemma saves_ret n : saves (ret n) [] n.
Proof. split; [done|]. intros r Hok. exists n, r. split; [done|]. left. split; [done|by apply wrote_refl]. Qed.

Lemma saves_bind m k bs bs' n n' : saves m bs n -> n <> -1 -> saves (k n) bs' n' -> saves (or_return m k) (bs ++ bs') n'.
Proof.
  intros [N1 S1] Hn [N2 S2]. unfold saves, or_return, bind. rewrite N1, (proj2 (Z.eqb_neq _ _) Hn). split; [done|]. intros r Hok.
  destruct (S1 r Hok) as (n1 & r1 & -> & [[-> W1]|[-> B1]]); [|exists (-1), r1; split; [done|]; right; split; [done|]; eapply broke_mono; [|exact B1]; rewrite zlen_app; pose proof (zlen_nonneg bs'); lia].
  rewrite (proj2 (Z.eqb_neq _ _) Hn). destruct (S2 r1 (wr_ok _ _ _ W1)) as (n2 & r2 & -> & H2). exists n2, r2. split; [done|].
  destruct H2 as [[-> W2]|[-> B2]]; [left|right]; (split; [done|]); [by eapply wrote_trans|rewrite zlen_app; by eapply wrote_broke].
Qed.

Lemma saves_last m k bs n n' : saves m bs n -> n <> -1 -> saves (k n) [] n' -> saves (or_return m k) bs n'.
Proof. intros S1 Hn S2. rewrite <- (app_nil_r bs). by eapply saves_bind. Qed.

(** The saver does not look at the answer. *)
Lemma saves_then m (k : M (option rio) Z) bs bs' n n' : saves m bs n -> n <> -1 -> saves k bs' n' -> saves (or_return m (fun _ => k)) (bs ++ bs') n'.
Proof. apply (saves_bind m (fun _ => k)). Qed.

Lemma saves_lift {A} (o : option A) (x : A) (k : A -> M (option rio) Z) bs n : o = Some x -> saves (k x) bs n -> saves (bind (lift o) k) bs n.
Proof. by intros ->. Qed.

Lemma saves_write bufsiz p : bytes_ok p -> zlen p < 2 ^ 31 -> saves (rdbWriteRaw bufsiz p) p (zlen p).
Proof.
  intros Hb Hl. pose proof (zlen_nonneg p). assert (E : i32 (zlen p) = zlen p) by (apply swrap_small; [lia|]; unfold in_s; lia).
  split; [cbn; by rewrite E|]. intros r Hok. destruct (rioWrite_spec bufsiz r p Hb Hok) as (r' & ok & Ew & Hr).
  unfold rdbWriteRaw. rewrite Ew. cbn [mbind option_bind fst snd]. rewrite E. destruct ok; eexists _, _; (split; [reflexivity|]); auto.
Qed.

Definition loads {A} (m : M rio A) (bs : list Z) (x : A) : Prop :=
  forall r rest, rio_ok r -> pos_ok r -> input r = bs ++ rest -> exists r', m r = Some (x, r') /\ took r bs r' /\ input r' = rest.

Lemma loads_ret {A} (x : A) : loads (ret x) [] x.
Proof. intros r rest Hok Hp Hi. exists r. split; [done|]. split; [by apply took_refl|done]. Qed.

Lemma loads_bind {A B} (m : M rio A) (k : A -> M rio B) bs bs' x y : loads m bs x -> loads (k x) bs' y -> loads (bind m k) (bs ++ bs') y.
Proof.
  intros L1 L2 r rest Hok Hp Hi. rewrite <- app_assoc in Hi. destruct (L1 r _ Hok Hp Hi) as (r1 & E1 & T1 & I1).
  destruct (L2 r1 rest (tk_ok _ _ _ T1) (tk_pos _ _ _ T1) I1) as (r2 & E2 & T2 & I2). unfold bind. rewrite E1, E2.
  exists r2. split; [done|]. split; [by eapply took_trans|done].
Qed.

(** The last step consumes nothing. *)
Lemma loads_last {A B} (m : M rio A) (k : A -> M rio B) bs x y : loads m bs x -> loads (k x) [] y -> loads (bind m k) bs y.
Proof. intros L1 L2. rewrite <- (app_nil_r bs). by eapply loads_bind. Qed.

Lemma loads_rd bs : bytes_ok bs -> loads (rd (zlen bs)) bs (Some bs).
Proof.
  intros Hb r rest Hok Hp Hi. destruct (rioRead_spec r bs rest Hb Hok Hp Hi) as (r' & E & T & I). exists r'. unfold rd. by rewrite E.
Qed.

Lemma loads_rd' n bs : bytes_ok bs -> zlen bs = n -> loads (rd n) bs (Some bs).
Proof. intros Hb <-. by apply loads_rd. Qed.

Lemma bytes_ok_1 b : byte_ok b -> bytes_ok [b].
Proof. intros H. by constructor. Qed.

(** ** Lengths *)

Lemma htonl_bytes v : le_bytes 4 (htonl v) = rev (le_bytes 4 v).
Proof. unfold htonl. exact (le_bytes_le_val (rev (le_bytes 4 v)) (Forall_rev (le_bytes_ok 4 v))). Qed.

Lemma small_byte b : 0 <= b < 256 -> Forall byte_ok [b].
Proof. intros H. by apply bytes_ok_1. Qed.

(** The bytes of a length. *)
Definition len_bytes (len : Z) : list Z :=
  if len <? 2 ^ 6 then [len]
  else if len <? 2 ^ 14 then [64 + len / 256; len mod 256]
  else if len <=? UINT32_MAX then 0x80 :: rev (le_bytes 4 len)
  else 0x81 :: rev (le_bytes 8 len).

Lemma len_bytes_ok len : 0 <= len < 2 ^ 64 -> bytes_ok (len_bytes len) /\ 1 <= zlen (len_bytes len) <= 9.
Proof.
  intros H. unfold len_bytes. repeat case_match; (split; [|vm_compute; split; congruence]).
  - apply bytes_ok_1. unfold byte_ok. lia.
  - repeat constructor; unfold byte_ok; [apply Z.ltb_lt in H1; pose proof (Z.div_lt_upper_bound len 256 64); pose proof (Z.div_pos len 256); lia..| |]; pose proof (Z.mod_pos_bound len 256); lia.
  - constructor; [unfold byte_ok; lia|]. apply Forall_rev, le_bytes_ok.
  - constructor; [unfold byte_ok; lia|]. apply Forall_rev, le_bytes_ok.
Qed.

Lemma rdbSaveLen_saves bufsiz len : 0 <= len < 2 ^ 64 -> saves (rdbSaveLen bufsiz len) (len_bytes len) (zlen (len_bytes len)).
Proof.
  intros H. destruct (len_bytes_ok len H) as [Hok _]. unfold rdbSaveLen, len_bytes in *. destruct (len <? 2 ^ 6) eqn:E6.
  { assert (E : u8 (Z.lor (Z.land len 255) (Z.shiftl RDB_6BITLEN 6)) = len).
    { change (Z.shiftl RDB_6BITLEN 6) with 0. rewrite Z.lor_0_r, land_255. unfold uwrap. change (2 ^ 8) with 256. rewrite Z.mod_mod, Z.mod_small by lia. done. }
    rewrite E. apply (saves_then _ _ [len] [] 1 1); [by apply saves_write|done|apply saves_ret]. }
  destruct (len <? 2 ^ 14) eqn:E14.
  { assert (Hd : 0 <= len / 256 < 64) by (split; [apply Z.div_pos; lia|apply Z.div_lt_upper_bound; lia]).
    assert (E : u8 (Z.lor (Z.land (Z.shiftr len 8) 255) (Z.shiftl RDB_14BITLEN 6)) = 64 + len / 256).
    { rewrite land_255, shiftr_8, (Z.mod_small (len / 256)) by lia. change RDB_14BITLEN with 1. rewrite lor_shiftl by lia. rewrite uwrap_small; lia. }
    rewrite E, land_255. apply (saves_then _ _ [_; _] [] 2 2); [by apply saves_write|done|apply saves_ret]. }
  destruct (len <=? UINT32_MAX) eqn:E32; apply Forall_cons_1 in Hok as [Ho Hrest].
  - cbn zeta. rewrite htonl_bytes. apply (saves_then _ _ [_] _ 1 5); [apply saves_write; [by apply bytes_ok_1|done]|done|].
    rewrite <- (app_nil_r (rev _)). apply (saves_then _ _ _ [] 4 5); [by apply (saves_write bufsiz (rev (le_bytes 4 len)))|done|apply saves_ret].
  - apply (saves_then _ _ [_] _ 1 9); [apply saves_write; [by apply bytes_ok_1|done]|done|].
    eapply saves_lift; [apply intrev64_spec|].
    assert (E : le_bytes 8 (le_val (rev (le_bytes 8 len))) = rev (le_bytes 8 len)) by exact (le_bytes_le_val (rev (le_bytes 8 len)) Hrest).
    rewrite E, <- (app_nil_r (rev _)). apply (saves_then _ _ _ [] 8 9); [by apply (saves_write bufsiz (rev (le_bytes 8 len)))|done|apply saves_ret].
Qed.

(** The two top bits of the first byte. *)
Lemma top_bits t b : 0 <= t < 4 -> 0 <= b < 64 -> Z.shiftr (Z.land (64 * t + b) 0xC0) 6 = t /\ Z.land (64 * t + b) 0x3F = b /\ byte_ok (64 * t + b).
Proof.
  intros Ht Hb. assert (Hc : forall c, 0 <= c < 256 -> (Z.shiftr (Z.land c 0xC0) 6 =? c / 64) && (Z.land c 0x3F =? c mod 64) = true).
  { intros c Hc. apply (all_below_spec 256 (fun c => (Z.shiftr (Z.land c 0xC0) 6 =? c / 64) && (Z.land c 0x3F =? c mod 64))); [by vm_compute|lia]. }
  specialize (Hc (64 * t + b) ltac:(lia)). apply andb_true_iff in Hc as [H1%Z.eqb_eq H2%Z.eqb_eq]. rewrite H1, H2. unfold byte_ok.
  split; [|split; [|lia]].
  - rewrite Z.add_comm, Z.mul_comm, Z.div_add, Z.div_small; lia.
  - rewrite Z.add_comm, Z.mul_comm, Z_mod_plus_full, Z.mod_small; lia.
Qed.

Lemma rdbLoadLen_loads len : 0 <= len < 2 ^ 64 -> loads rdbLoadLenByRef (len_bytes len) (Some (false, len)).
Proof.
  intros H. destruct (len_bytes_ok len H) as [Hok _]. unfold rdbLoadLenByRef, len_bytes in *. destruct (len <? 2 ^ 6) eqn:E6.
  { destruct (top_bits 0 len) as (T1 & T2 & _); [lia..|]. change (64 * 0 + len) with len in *.
    eapply loads_last; [by apply loads_rd'|]. cbn beta iota. rewrite T1, T2. apply loads_ret. }
  destruct (len <? 2 ^ 14) eqn:E14.
  { assert (Hd : 0 <= len / 256 < 64) by (split; [apply Z.div_pos; lia|apply Z.div_lt_upper_bound; lia]).
    destruct (top_bits 1 (len / 256)) as (T1 & T2 & _); [lia..|]. change (64 * 1 + len / 256) with (64 + len / 256) in *.
    apply Forall_cons_1 in Hok as [Ho Hrest]. apply (loads_bind _ _ [_] [_] (Some [64 + len / 256])); [apply loads_rd'; [by apply bytes_ok_1|done]|].
    cbn beta iota. rewrite T1, T2. cbn [Z.eqb]. eapply loads_last; [by apply loads_rd'|]. cbn beta iota.
    assert (E : Z.lor (Z.shiftl (len / 256) 8) (len mod 256) = len).
    { pose proof (Z.mod_pos_bound len 256). rewrite Z.lor_comm, lor_shiftl by lia. change (2 ^ 8) with 256. pose proof (Z.div_mod len 256). lia. }
    rewrite E. apply loads_ret. }
  destruct (len <=? UINT32_MAX) eqn:E32; apply Forall_cons_1 in Hok as [Ho Hrest].
  - apply (loads_bind _ _ [_] _ (Some [128])); [apply loads_rd'; [by apply bytes_ok_1|done]|]. cbn -[le_bytes rd intrev64 le_val bind lift].
    eapply loads_last; [by apply loads_rd'|]. cbn beta iota. unfold ntohl. rewrite (rev_twice 4) by (unfold UINT32_MAX in *; lia). apply loads_ret.
  - apply (loads_bind _ _ [_] _ (Some [129])); [apply loads_rd'; [by apply bytes_ok_1|done]|]. cbn -[le_bytes rd intrev64 le_val bind lift].
    eapply loads_last; [by apply loads_rd'|]. cbn beta iota. unfold bind, lift. rewrite intrev64_spec. rewrite (rev_twice 8) by lia. apply loads_ret.
Qed.

(** ** Integers *)

(** [v] takes [n] bytes, under the encoding [t]. *)
Definition int_kind (v t : Z) (n : nat) : Prop :=
  in_s (8 * Z.of_nat n) v /\ (t = RDB_ENC_INT8 /\ n = 1%nat \/ t = RDB_ENC_INT16 /\ n = 2%nat \/ t = RDB_ENC_INT32 /\ n = 4%nat).

Lemma encode_cases v : rdbEncodeInteger v = [] \/ exists t n, int_kind v t n /\ rdbEncodeInteger v = (192 + t) :: le_bytes n v.
Proof.
  unfold rdbEncodeInteger, int_kind, in_s. destruct (_ && _) eqn:E1.
  { right. exists RDB_ENC_INT8, 1%nat. split; [cbn; split; [lia|auto]|done]. }
  destruct ((- 2 ^ 15 <=? v) && _) eqn:E2.
  { right. exists RDB_ENC_INT16, 2%nat. split; [cbn; split; [lia|auto]|by rewrite le_bytes_2]. }
  destruct ((- 2 ^ 31 <=? v) && _) eqn:E3; [|by left].
  right. exists RDB_ENC_INT32, 4%nat. split; [cbn; split; [lia|auto]|by rewrite le_bytes_4].
Qed.

Lemma le_signed (n : nat) v : (0 < n)%nat -> in_s (8 * Z.of_nat n) v -> swrap (8 * Z.of_nat n) (uwrap (8 * Z.of_nat n) (le_val (le_bytes n v))) = v.
Proof.
  intros Hn Hv. rewrite le_val_le_bytes, swrap_uwrap by lia. change (v mod _) with (uwrap (8 * Z.of_nat n) v).
  rewrite swrap_uwrap by lia. apply swrap_small; [lia|done].
Qed.

(** The first step of the loader, on the integer's own bytes. *)
Definition read_int (enctype : Z) : M rio (option Z) :=
  if enctype =? RDB_ENC_INT8 then
    b <- rd 1 ;; ret (match b with Some [e0] => Some (i8 e0) | _ => None end)
  else if enctype =? RDB_ENC_INT16 then
    b <- rd 2 ;; ret (match b with Some [e0; e1] => Some (i16 (u16 (Z.lor e0 (Z.shiftl e1 8)))) | _ => None end)
  else if enctype =? RDB_ENC_INT32 then
    b <- rd 4 ;; ret (match b with
      | Some [e0; e1; e2; e3] => Some (i32 (u32 (Z.lor (Z.lor (Z.lor e0 (Z.shiftl e1 8)) (Z.shiftl e2 16)) (Z.shiftl e3 24))))
      | _ => None end)
  else fail.

Lemma read_int_loads v t n : int_kind v t n -> loads (read_int t) (le_bytes n v) (Some v).
Proof.
  intros [Hv Hk]. destruct Hk as [[-> ->]|[[-> ->]|[-> ->]]]; unfold read_int; cbn [Z.eqb RDB_ENC_INT8 RDB_ENC_INT16 RDB_ENC_INT32].
  - eapply loads_last; [apply loads_rd'; [apply le_bytes_ok|done]|]. pose proof (le_signed 1 v ltac:(lia) Hv) as E.
    cbn [le_bytes]. cbn [le_bytes le_val] in E. rewrite Z.mul_0_r, Z.add_0_r, swrap_uwrap in E by done.
    change (8 * Z.of_nat 1) with 8 in E. cbn beta iota. rewrite E. apply loads_ret.
  - eapply loads_last; [apply loads_rd'; [apply le_bytes_ok|done]|]. pose proof (le_signed 2 v ltac:(lia) Hv) as E. pose proof (le_bytes_ok 2 v) as Hb.
    rewrite le_bytes_2 in *. cbn beta iota. apply Forall_cons_1 in Hb as [H0 H1]. rewrite <- (lor_bytes_le _ _ H0 H1) in E. cbn [lor_bytes] in E.
    change (8 * Z.of_nat 2) with 16 in E. rewrite E. apply loads_ret.
  - eapply loads_last; [apply loads_rd'; [apply le_bytes_ok|done]|]. pose proof (le_signed 4 v ltac:(lia) Hv) as E. pose proof (le_bytes_ok 4 v) as Hb.
    rewrite le_bytes_4 in *. cbn beta iota. apply Forall_cons_1 in Hb as [H0 H1]. rewrite <- (lor_bytes_le _ _ H0 H1) in E. cbn [lor_bytes] in E.
    change (8 * Z.of_nat 4) with 32 in E. change (8 + 8 + 8) with 24 in E. change (8 + 8) with 16 in E. rewrite E. apply loads_ret.
Qed.

Lemma digit_value_nonneg s v n : 0 <= v -> 0 <= fst (digit_value s v n).
Proof. revert v n. induction s as [|c s IH]; intros v n Hv; cbn; [done|]. destruct (_ && _) eqn:E; [|done]. apply IH. lia. Qed.

Lemma strtoll_range s : in_s 64 (fst (strtoll s)).
Proof.
  unfold strtoll, in_s. cbn zeta. destruct (match drop _ _ with [] => _ | _ => _ end) as [neg sign].
  match goal with |- context [digit_value ?t 0 0] => pose proof (digit_value_nonneg t 0 0 ltac:(lia)) as Hd; destruct (digit_value t 0 0) as [v n] end. cbn in Hd.
  destruct (n =? 0)%nat; [cbn; lia|]. unfold LLONG_MIN, LLONG_MAX. destruct neg; cbn [fst]; lia.
Qed.

Lemma zlen_uninit junk n : 0 <= n -> zlen (uninit junk n) = n.
Proof. intros Hn. unfold uninit, zlen. rewrite length_fmap, length_seqZ. lia. Qed.

Lemma try_integer junk s : exists e, rdbTryIntegerEncoding junk s = Some e /\
  (e = [] \/ exists v, in_s 64 v /\ s = dec v /\ e = rdbEncodeInteger v).
Proof.
  unfold rdbTryIntegerEncoding. pose proof (strtoll_range s) as Hv. destruct (strtoll s) as [v endp]. cbn [fst] in Hv.
  destruct (negb _); [exists []; auto|].
  destruct (ll2string_fits (uninit junk 32) 32 v Hv) as (rest & -> & _ & Hc); [by rewrite zlen_uninit|]. cbn [mbind option_bind snd]. rewrite Hc. cbn [mbind option_bind].
  destruct (_ || _) eqn:E; [exists []; auto|]. exists (rdbEncodeInteger v). split; [done|]. right. exists v. split; [done|]. split; [|done].
  apply orb_false_iff in E as [_ E]. apply negb_false_iff, bool_decide_eq_true in E. done.
Qed.

(** ** Strings in memory *)

Section Strings.
Context (junk : Z -> Z) (si : Z -> oaddr) (vs : bool).
Abbreviation heap := (gmap oaddr robj).
Implicit Types (h : heap) (o : oaddr) (R : gmultiset oaddr) (s : list Z).

Definition plainly (flags : Z) : bool := has_flag flags RDB_LOAD_PLAIN || has_flag flags RDB_LOAD_SDS.

(** The answer stands for the string [s]. *)
Definition holds flags s h R (x : loaded) h' : Prop :=
  match x with
  | LStr s' => plainly flags = true /\ s' = s /\ h' = h
  | LObj o => plainly flags = false /\ own si h' ({[+ o +]} ⊎ R) /\ kept h h' R /\ val_at h' o = Some (VStr s) /\
      (has_flag flags RDB_LOAD_ENC = false -> exists ob, h' !! o = Some ob /\ sds_of (enc ob) = Some s)
  end.

Definition loads_obj (m : M (rio * heap) (option loaded)) flags bs s : Prop :=
  forall r rest h R, rio_ok r -> pos_ok r -> input r = bs ++ rest -> own si h R ->
  exists x r' h', m (r, h) = Some (Some x, (r', h')) /\ took r bs r' /\ input r' = rest /\ holds flags s h R x h'.

Lemma loads_on_rio {A} (m : M rio A) (k : A -> M (rio * heap) (option loaded)) flags bs bs' x s :
  loads m bs x -> loads_obj (k x) flags bs' s -> loads_obj (bind (on_rio m) k) flags (bs ++ bs') s.
Proof.
  intros L1 L2 r rest h R Hok Hp Hi Hown. rewrite <- app_assoc in Hi. destruct (L1 r _ Hok Hp Hi) as (r1 & E1 & T1 & I1).
  destruct (L2 r1 rest h R (tk_ok _ _ _ T1) (tk_pos _ _ _ T1) I1 Hown) as (y & r2 & h2 & E2 & T2 & I2 & H2).
  exists y, r2, h2. unfold bind, on_rio. cbn [fst snd]. rewrite E1. cbn [mbind option_bind fst snd]. rewrite E2.
  split; [done|]. split; [by eapply took_trans|done].
Qed.

Lemma loads_obj_lift {A} (o : option A) (x : A) k flags bs s : o = Some x -> loads_obj (k x) flags bs s -> loads_obj (bind (lift o) k) flags bs s.
Proof. by intros ->. Qed.

(** The last step: the string, or a new object. *)
Lemma loads_str flags s : plainly flags = true -> loads_obj (ret (Some (LStr s))) flags [] s.
Proof. intros Hf r rest h R Hok Hp Hi _. exists (LStr s), r, h. split; [done|]. split; [by apply took_refl|done]. Qed.

Lemma loads_raw flags s : plainly flags = false -> zlen s < 2 ^ 31 ->
  loads_obj (o <- new_obj (fun h => Some (createObject h (ORaw s))) ;; ret (Some (LObj o))) flags [] s.
Proof.
  intros Hf Hs r rest h R Hok Hp Hi Hown. pose proof (own_create si h R (ORaw s) Hown Hs) as Hc.
  unfold bind, new_obj. cbn [snd mbind option_bind fst]. destruct (createObject h (ORaw s)) as [o h']. destruct Hc as (H1 & H2 & _ & H4 & _).
  exists (LObj o), r, h'. split; [done|]. split; [by apply took_refl|]. split; [done|]. split_and!; [done|done|done|unfold val_at; by rewrite H2|].
  intros _. eexists. split; [exact H2|done].
Qed.

Lemma loads_number flags v : plainly flags = false -> has_flag flags RDB_LOAD_ENC = true -> in_s 64 v ->
  loads_obj (o <- new_obj (fun h => createStringObjectFromLongLongForValue si vs h v) ;; ret (Some (LObj o))) flags [] (dec v).
Proof.
  intros Hf He Hv r rest h R Hok Hp Hi Hown. destruct (own_number si vs h R v Hown Hv) as (o & h' & E & H1 & H2 & H3).
  unfold bind, new_obj. cbn [snd]. rewrite E. cbn [mbind option_bind fst snd]. exists (LObj o), r, h'. split; [done|]. split; [by apply took_refl|].
  split; [done|]. split_and!; [done|done|done|done|congruence].
Qed.

(** Like [uninit], a buffer that is overwritten. *)
Lemma loads_integer flags v t n : int_kind v t n -> loads_obj (rdbLoadIntegerObject junk si vs t flags) flags (le_bytes n v) (dec v).
Proof.
  intros Hk. assert (Hv : in_s 64 v).
  { destruct Hk as [Hv Hk]. revert Hv. unfold in_s. destruct Hk as [[_ ->]|[[_ ->]|[_ ->]]]; cbn; lia. }
  pose proof (dec_len_le v Hv) as Hl. unfold rdbLoadIntegerObject. rewrite <- (app_nil_r (le_bytes n v)).
  eapply loads_on_rio; [apply (read_int_loads v t n Hk)|]. cbn beta iota. fold (plainly flags). destruct (plainly flags) eqn:Ep.
  - destruct (ll2string_fits (uninit junk LONG_STR_SIZE) LONG_STR_SIZE v Hv) as (rest & -> & _ & _); [rewrite zlen_uninit; unfold LONG_STR_SIZE; lia|].
    eapply loads_obj_lift; [reflexivity|]. cbn [fst snd]. eapply loads_obj_lift; [|by apply loads_str].
    apply (mread_split [] (dec v) (0 :: rest) 0 (zlen (dec v)) eq_refl eq_refl).
  - destruct (has_flag flags RDB_LOAD_ENC) eqn:Ee; [by apply loads_number|].
    assert (Es : sdsfromlonglong (uninit junk 21) v = Some (dec v)).
    { unfold sdsfromlonglong. rewrite sdsll2str_spec; [|done|by rewrite zlen_uninit]. cbn [mbind option_bind fst snd].
      apply (mread_split [] (dec v) _ 0 (zlen (dec v)) eq_refl eq_refl). }
    eapply loads_obj_lift; [exact Es|]. apply loads_raw; [done|lia].
Qed.

Lemma read_len_loads len : 0 <= len < 2 ^ 64 -> loads rdbLoadLen (len_bytes len) (false, len).
Proof. intros H. eapply loads_last; [by apply rdbLoadLen_loads|]. apply loads_ret. Qed.

Lemma read_enc_loads t : 0 <= t < 64 -> loads rdbLoadLen [192 + t] (true, t).
Proof.
  intros H. destruct (top_bits 3 t) as (T1 & T2 & T3); [lia..|]. change (64 * 3) with 192 in *.
  apply (loads_last _ _ _ (Some (true, t))); [|apply loads_ret]. eapply loads_last; [apply loads_rd'; [by apply bytes_ok_1|done]|].
  cbn beta iota. rewrite T1, T2. apply loads_ret.
Qed.

Lemma has_enc_int t (A B C : M (rio * heap) (option loaded)) :
  t = RDB_ENC_INT8 \/ t = RDB_ENC_INT16 \/ t = RDB_ENC_INT32 ->
  (if (t =? RDB_ENC_INT8) || (t =? RDB_ENC_INT16) || (t =? RDB_ENC_INT32) then A else if t =? RDB_ENC_LZF then B else C) = A.
Proof. by intros [->|[-> | ->]]. Qed.

Lemma string_integer flags v t n : int_kind v t n ->
  loads_obj (rdbGenericLoadStringObject junk si vs flags) flags ((192 + t) :: le_bytes n v) (dec v).
Proof.
  intros Hk. unfold rdbGenericLoadStringObject. assert (Ht : t = RDB_ENC_INT8 \/ t = RDB_ENC_INT16 \/ t = RDB_ENC_INT32) by (destruct Hk as [_ Hk]; tauto).
  assert (0 <= t < 64) by (destruct Ht as [->|[-> | ->]]; vm_compute; split; congruence).
  eapply (loads_on_rio _ _ flags [_] _ (true, t)); [by apply read_enc_loads|]. cbn beta iota. rewrite has_enc_int by done. by apply loads_integer.
Qed.

(** A string in full, of any length. *)
Lemma string_verbatim flags s : bytes_ok s -> zlen s < 2 ^ 31 ->
  loads_obj (rdbGenericLoadStringObject junk si vs flags) flags (len_bytes (zlen s) ++ s) s.
Proof.
  intros Hb Hs. pose proof (zlen_nonneg s). unfold rdbGenericLoadStringObject. eapply loads_on_rio; [apply read_len_loads; lia|]. cbn beta iota.
  rewrite (proj2 (Z.eqb_neq (zlen s) RDB_LENERR)) by (unfold RDB_LENERR; lia). fold (plainly flags). destruct (plainly flags) eqn:Ep.
  - destruct (zlen s =? 0) eqn:E0; cbn [negb].
    + apply Z.eqb_eq in E0. rewrite (zlen_0_nil s) in * by lia. by apply loads_str.
    + rewrite <- (app_nil_r s) at 2. eapply loads_on_rio; [by apply loads_rd|]. by apply loads_str.
  - intros r rest h R Hok Hp Hi Hown. set (mk := fun h => _) in *.
    assert (Hnew : exists e, mk h = Some (createObject h e) /\ data_ok e /\
        (e = OEmbstr (uninit junk (zlen s)) /\ zlen s <= 44 \/ e = ORaw (uninit junk (zlen s)))).
    { pose proof (zlen_uninit junk (zlen s) ltac:(lia)) as Hu. unfold mk, createStringObject, OBJ_ENCODING_EMBSTR_SIZE_LIMIT.
      destruct (has_flag flags RDB_LOAD_ENC); [destruct (zlen (uninit junk (zlen s)) <=? 44) eqn:E; [rewrite embstr_value by lia|]|];
        eexists; (split; [done|]); cbn; rewrite Hu in *; (split; [lia|]); auto. left. split; [done|lia]. }
    destruct Hnew as (e & Emk & Hd & He). unfold bind at 1, new_obj. cbn [snd]. rewrite Emk. cbn [mbind option_bind].
    pose proof (own_create si h R e Hown Hd) as Hc. destruct (createObject h e) as [o h1]. destruct Hc as (C1 & C2 & _ & C4 & C5). cbn [fst snd].
    destruct (zlen s =? 0) eqn:E0.
    { apply Z.eqb_eq in E0. assert (s = []) as -> by (apply zlen_0_nil; lia). exists (LObj o), r, h1. split; [done|]. split; [by apply took_refl|]. split; [done|].
      assert (Hsd : sds_of e = Some []) by (by destruct He as [[-> _] | ->]). split_and!; [done|done|done|unfold val_at; rewrite C2; cbn; by rewrite (proj1 (sds_of_val e [] Hsd))|]. intros _. by eexists. }
    destruct (loads_rd s Hb r rest Hok Hp Hi) as (r1 & E1 & T1 & I1). unfold bind at 1, on_rio. cbn [fst snd]. rewrite E1. cbn [mbind option_bind fst snd].
    unfold bind, fill_obj. cbn [snd]. rewrite C2. cbn [mbind option_bind enc refcount fst].
    set (e' := match e with OEmbstr _ => OEmbstr s | _ => ORaw s end). exists (LObj o), r1, (<[o := {| refcount := 1; enc := e' |}]> h1).
    assert (Hd' : data_ok e' /\ sds_of e' = Some s) by (unfold e'; destruct He as [[-> ?] | ->]; cbn; split; auto; lia). destruct Hd' as [Hd' Hs'].
    split; [unfold e'; by destruct He as [[-> _] | ->]|]. split; [done|]. split; [done|].
    assert (Hrc : forall ob, h1 !! o = Some ob -> refcount ob = 1) by (intros ob Hob; rewrite C2 in Hob; by injection Hob as <-).
    split_and!; [done| | |unfold val_at; rewrite lookup_insert_eq; cbn; by rewrite (proj1 (sds_of_val e' s Hs'))|intros _; eexists; split; [apply lookup_insert_eq|done]].
    + apply (own_set si h1 _ o _ e' C1 C2); [|done]. cbn. unfold OBJ_SHARED_REFCOUNT. lia.
    + intros a Ha. rewrite lookup_insert_ne by (intros ->; done). by apply C4.
Qed.
(** A compressed string. *)
Lemma string_lzf flags s c : bytes_ok s -> bytes_ok c -> zlen s < 2 ^ 31 -> zlen c < 2 ^ 31 ->
  (forall buf, zlen buf = zlen s -> lzf_decompress c (zlen c) buf (zlen s) = Some (DOk (zlen s) s)) -> 0 < zlen s ->
  loads_obj (rdbGenericLoadStringObject junk si vs flags) flags ([195] ++ len_bytes (zlen c) ++ len_bytes (zlen s) ++ c) s.
Proof.
  intros Hb Hc Hs Hcl Hd H0. pose proof (zlen_nonneg c). unfold rdbGenericLoadStringObject.
  eapply (loads_on_rio _ _ flags [195] _ (true, 3)); [by apply (read_enc_loads 3)|]. cbn beta iota. unfold rdbLoadLzfStringObject. cbn [Z.eqb orb RDB_ENC_INT8 RDB_ENC_INT16 RDB_ENC_INT32 RDB_ENC_LZF Pos.eqb].
  eapply loads_on_rio; [apply read_len_loads; lia|]. cbn [snd]. rewrite (proj2 (Z.eqb_neq (zlen c) RDB_LENERR)) by (unfold RDB_LENERR; lia).
  eapply loads_on_rio; [apply read_len_loads; lia|]. cbn [snd]. rewrite (proj2 (Z.eqb_neq (zlen s) RDB_LENERR)) by (unfold RDB_LENERR; lia).
  rewrite <- (app_nil_r c) at 2. eapply loads_on_rio; [by apply loads_rd|]. cbn beta iota.
  eapply loads_obj_lift; [apply Hd, zlen_uninit; lia|]. cbn beta iota. rewrite (proj2 (Z.eqb_neq (zlen s) 0)) by lia.
  fold (plainly flags). destruct (plainly flags) eqn:Ep; [by apply loads_str|by apply loads_raw].
Qed.

End Strings.

(** ** Savers of strings *)

(** The bytes [bs] are loaded as the string [s] by any server. *)
Definition str_bytes s (bs : list Z) : Prop :=
  bytes_ok bs /\ forall junk si vs flags, loads_obj si (rdbGenericLoadStringObject junk si vs flags) flags bs s.

Section Saved.
Context (bufsiz : Z) (junk : Z -> Z).
Implicit Types (s : list Z).

(** What a saver of strings does: it answers the number of bytes, and they are
    loaded as the string. *)
Record string_saved (m : M (option rio) Z) s (bs : list Z) : Prop := {
  ss_saves : saves m bs (zlen bs);
  ss_bytes : bytes_ok bs;
  ss_some : 0 < zlen bs;
  ss_len : zlen bs <= zlen s + 15;
  ss_loads junk si vs flags : loads_obj si (rdbGenericLoadStringObject junk si vs flags) flags bs s
}.

Lemma lzf_saved s : bytes_ok s -> 20 < zlen s < 2 ^ 31 ->
  saves (rdbSaveLzfStringObject bufsiz junk s) [] 0 \/ exists bs, string_saved (rdbSaveLzfStringObject bufsiz junk s) s bs.
Proof.
  intros Hb Hs. unfold rdbSaveLzfStringObject. rewrite (proj2 (Z.leb_gt _ _)) by lia.
  destruct (lzf_codec junk s (uninit junk (zlen s - 4 + 1)) (zlen s - 4) Hb) as (n & o & E & Hn & Ho & Hd); [lia|rewrite zlen_uninit; lia|lia|].
  cbn zeta. destruct (decide (n = 0)) as [->|Hne].
  { left. eapply saves_lift; [exact E|]. cbn. apply saves_ret. }
  right. destruct (Hd Hne) as [Hcb Hdec]. rewrite zlen_uninit in Ho by lia. set (c := take (Z.to_nat n) o) in *.
  assert (Hc : zlen c = n) by (unfold c; rewrite zlen_take; lia). exists ([195] ++ len_bytes (zlen c) ++ len_bytes (zlen s) ++ c).
  destruct (len_bytes_ok n) as [Lb1 Ll1]; [lia|]. destruct (len_bytes_ok (zlen s)) as [Lb2 Ll2]; [lia|]. rewrite Hc. split.
  - eapply saves_lift; [exact E|]. cbn beta iota. rewrite (proj2 (Z.eqb_neq n 0)) by done. unfold rdbSaveLzfBlob.
    eapply saves_bind; [apply saves_write; [by apply (bytes_ok_1 195)|done]|done|].
    eapply saves_bind; [apply rdbSaveLen_saves; lia|lia|]. eapply saves_bind; [apply rdbSaveLen_saves; lia|lia|].
    eapply saves_lift; [rewrite <- (take_drop (Z.to_nat n) o); fold c; apply (mread_split [] c (drop (Z.to_nat n) o)); [done|by rewrite Hc]|].
    eapply saves_last; [apply saves_write; [done|lia]|lia|]. rewrite Hc, !zlen_app, Hc. change (zlen [195]) with 1.
    rewrite !Z.add_assoc. apply saves_ret.
  - rewrite !Forall_app. split_and!; [by apply (bytes_ok_1 195)|done..].
  - rewrite !zlen_app. change (zlen [195]) with 1. lia.
  - rewrite !zlen_app. change (zlen [195]) with 1. lia.
  - intros junk' si vs flags. rewrite <- Hc. apply string_lzf; [done|done|lia|lia| |lia]. intros buf Hbuf.
    destruct (Hdec [] buf) as (rest & Ed & Hr); [lia|]. rewrite app_nil_r, Hbuf in Ed. rewrite Hc, Ed.
    assert (rest = []) as -> by (apply nil_length_inv; unfold zlen in *; lia). by rewrite app_nil_r.
Qed.

Lemma verbatim_saved s : bytes_ok s -> zlen s < 2 ^ 31 -> string_saved (save_verbatim bufsiz s) s (len_bytes (zlen s) ++ s).
Proof.
  intros Hb Hs. pose proof (zlen_nonneg s). destruct (len_bytes_ok (zlen s)) as [Lb Ll]; [lia|]. split.
  - unfold save_verbatim. eapply saves_bind; [apply rdbSaveLen_saves; lia|lia|]. rewrite zlen_app. destruct (zlen s >? 0) eqn:E0.
    + eapply saves_last; [by apply saves_write|lia|]. apply saves_ret.
    + rewrite (zlen_0_nil s) in * by lia. rewrite zlen_nil, Z.add_0_r. apply saves_ret.
  - by apply Forall_app.
  - rewrite zlen_app. lia.
  - rewrite zlen_app. lia.
  - intros junk' si vs flags. by apply string_verbatim.
Qed.

Lemma integer_saved m v : rdbEncodeInteger v <> [] -> saves m (rdbEncodeInteger v) (zlen (rdbEncodeInteger v)) -> string_saved m (dec v) (rdbEncodeInteger v).
Proof.
  intros Hne Hm. destruct (encode_cases v) as [E|(t & n & Hk & E)]; [done|]. split; [done|..]; rewrite E.
  - constructor; [|apply le_bytes_ok]. destruct Hk as [_ [[-> _]|[[-> _]|[-> _]]]]; vm_compute; split; congruence.
  - rewrite zlen_cons. pose proof (zlen_nonneg (le_bytes n v)). lia.
  - rewrite zlen_cons, zlen_le_bytes. pose proof (zlen_nonneg (dec v)). destruct Hk as [_ [[_ ->]|[[_ ->]|[_ ->]]]]; lia.
  - intros junk' si vs flags. by apply string_integer.
Qed.

Lemma integer_bytes v : rdbEncodeInteger v <> [] -> bytes_ok (rdbEncodeInteger v) /\ zlen (rdbEncodeInteger v) <= 5.
Proof.
  intros Hne. destruct (encode_cases v) as [E|(t & n & Hk & E)]; [done|]. rewrite E, zlen_cons, zlen_le_bytes. split.
  - constructor; [|apply le_bytes_ok]. destruct Hk as [_ [[-> _]|[[-> _]|[-> _]]]]; vm_compute; split; congruence.
  - destruct Hk as [_ [[_ ->]|[[_ ->]|[_ ->]]]]; lia.
Qed.

Lemma saved_then_ret m s bs : string_saved m s bs -> string_saved (_ <~ m ;; ret (zlen bs)) s bs.
Proof.
  intros [S B N Ln L]. split; [|done..]. eapply saves_last; [exact S|lia|]. apply saves_ret.
Qed.

Lemma raw_saved compress s : bytes_ok s -> zlen s < 2 ^ 31 -> exists bs, string_saved (rdbSaveRawString bufsiz junk compress s) s bs.
Proof.
  intros Hb Hs. unfold rdbSaveRawString. cbn zeta.
  assert (Henc : exists e, (forall k bs, string_saved (k e) s bs ->
      string_saved (enc <- (if zlen s <=? 11 then lift (rdbTryIntegerEncoding junk s) else ret []) ;; k enc) s bs) /\
      (e = [] \/ exists v, in_s 64 v /\ s = dec v /\ e = rdbEncodeInteger v)).
  { destruct (zlen s <=? 11); [|exists []; split; [by intros k bs|by left]].
    destruct (try_integer junk s) as (e & E & He). exists e. split; [|done]. intros k bs [S B N Ln L]. split; [|done..]. by eapply saves_lift. }
  destruct Henc as (e & Hbind & He).
  assert (Htail : exists bs, string_saved (if compress && (zlen s >? 20) then
      n <~ rdbSaveLzfStringObject bufsiz junk s ;; if n >? 0 then ret n else save_verbatim bufsiz s else save_verbatim bufsiz s) s bs).
  { pose proof (verbatim_saved s Hb Hs) as Hv. destruct (_ && _) eqn:E; [|eauto].
    destruct (lzf_saved s Hb ltac:(lia)) as [S0|(bs & Sb)].
    - exists (len_bytes (zlen s) ++ s). destruct Hv as [S B N Ln L]. split; [|done..]. change (?x ++ s) with ([] ++ (x ++ s)). by eapply saves_bind.
    - exists bs. destruct Sb as [S B N Ln L]. split; [|done..]. eapply saves_last; [exact S|lia|]. cbn beta.
      rewrite gtb_true by done. apply saves_ret. }
  destruct (decide (e = [])) as [->|Hne].
  - destruct Htail as [bs Ht]. exists bs. apply Hbind. done.
  - destruct He as [->|(v & Hv & -> & ->)]; [done|]. exists (rdbEncodeInteger v). apply Hbind. destruct (integer_bytes v Hne) as [Ib Il].
    rewrite gtb_true by (destruct (rdbEncodeInteger v); [done|unfold zlen; cbn; lia]). apply saved_then_ret, integer_saved; [done|]. apply saves_write; [done|lia].
Qed.

Lemma number_saved v : in_s 64 v -> exists bs, string_saved (rdbSaveLongLongAsStringObject bufsiz junk v) (dec v) bs.
Proof.
  intros Hv. unfold rdbSaveLongLongAsStringObject. cbn zeta. pose proof (dec_len_le v Hv) as Hl. destruct (decide (rdbEncodeInteger v = [])) as [E|Hne].
  - rewrite E. cbn [zlen length Z.of_nat]. assert (Hb : bytes_ok (dec v)).
    { rewrite dec_sign. apply Forall_app. split; [destruct (v <? 0); repeat constructor; unfold byte_ok; lia|].
      assert (Hd : 0 <= Z.abs v < 10 ^ 20) by (unfold in_s in Hv; lia).
      eapply List.Forall_impl; [|by apply udec_digits]. intros c Hc. cbn in Hc. unfold byte_ok. lia. }
    destruct (verbatim_saved (dec v) Hb ltac:(lia)) as [S B N Ln L]. exists (len_bytes (zlen (dec v)) ++ dec v). split; [|done..].
    destruct (ll2string_fits (uninit junk 32) 32 v Hv) as (rest & Er & _ & _); [by rewrite zlen_uninit|]. eapply saves_lift; [exact Er|]. cbn beta iota.
    rewrite (proj2 (Z.ltb_lt _ _)) by lia. cbn [negb]. destruct (len_bytes_ok (zlen (dec v))) as [Lb Ll]; [lia|].
    eapply saves_bind; [apply rdbSaveLen_saves; lia|lia|]. eapply saves_lift; [by apply (mread_split [] (dec v) (0 :: rest))|].
    eapply saves_last; [apply saves_write; [done|lia]|lia|]. rewrite zlen_app. apply saves_ret.
  - exists (rdbEncodeInteger v). destruct (integer_bytes v Hne) as [Ib Il].
    rewrite gtb_true by (destruct (rdbEncodeInteger v); [done|unfold zlen; cbn; lia]). apply integer_saved; [done|]. apply saves_write; [done|lia].
Qed.
End Saved.
