(* ===== verification/RdbPayload.v ===== *)
(** * Values in the RDB format and DUMP payloads (rdb.c, cluster.c)

    An object that is a string is saved and loaded as the same string; a payload
    of DUMP passes the check of RESTORE and holds the value, and no longer passes
    it when one octet has changed. *)
From Stdlib Require Import ZArith Lia String.
From stdpp Require Import base numbers list option gmap gmultiset.
From S2P Require Import Prelude UtilNum Sds SdsRefine Object ObjectHeap Checksum Rio Keyspace Db Rdb RdbProof.

Section Payload.
Context (bufsiz : Z) (junk : Z -> Z) (compress : bool) (si : Z -> oaddr) (vs : bool).
Abbreviation heap := (gmap oaddr robj).
Implicit Types (h : heap) (o : oaddr) (R : gmultiset oaddr) (s : list Z).

(** The object [ob] stands for the string [s]. *)
Definition is_string (ob : robj) s : Prop := val_of (enc ob) = VStr s /\ data_ok (enc ob) /\ bytes_ok s.

Lemma object_saved ob s : is_string ob s -> exists bs, string_saved (rdbSaveObject bufsiz junk compress ob) s bs.
Proof.
  intros (Hv & Hd & Hb). destruct (val_of_str _ _ Hv Hd) as [Hok Hs]. unfold rdbSaveObject, rdbSaveStringObject.
  destruct (enc ob) as [v|b|b|ty]; cbn in Hs, Hok; [| | |done]; subst s.
  - by apply number_saved.
  - apply raw_saved; [done|lia].
  - by apply raw_saved.
Qed.

(** A value is loaded. *)
Definition loads_value (m : M (rio * heap) (option oaddr)) bs s : Prop :=
  forall r rest h R, rio_ok r -> pos_ok r -> input r = bs ++ rest -> own si h R ->
  exists o r' h', m (r, h) = Some (Some o, (r', h')) /\ took r bs r' /\ input r' = rest /\
    own si h' ({[+ o +]} ⊎ R) /\ kept h h' R /\ val_at h' o = Some (VStr s).

Lemma object_loads bs s : (forall junk si vs flags, loads_obj si (rdbGenericLoadStringObject junk si vs flags) flags bs s) ->
  loads_value (rdbLoadObject junk si vs RDB_TYPE_STRING) bs s.
Proof.
  intros Hl r rest h R Hok Hp Hi Hown. destruct (Hl junk si vs RDB_LOAD_ENC r rest h R Hok Hp Hi Hown) as (x & r1 & h1 & E & T & I & Hx).
  unfold rdbLoadObject. rewrite Z.eqb_refl. unfold rdbLoadEncodedStringObject, bind. rewrite E.
  destruct x as [s'|o]; [by destruct Hx|]. destruct Hx as (_ & O1 & K1 & V1 & _).
  destruct (own_encode si vs h1 R o s O1 V1) as (o2 & h2 & E2 & O2 & K2 & V2). unfold new_obj. cbn [snd fst]. rewrite E2. cbn [mbind option_bind fst snd ret].
  exists o2, r1, h2. split_and!; try done. by eapply kept_heap_trans.
Qed.

Lemma type_loads ty : byte_ok ty -> loads rdbLoadType [ty] ty.
Proof. intros Hb. eapply loads_last; [apply loads_rd'; [by apply bytes_ok_1|done]|]. apply loads_ret. Qed.

Lemma type_saves ty : byte_ok ty -> saves (rdbSaveType bufsiz ty) [ty] 1.
Proof. intros Hb. unfold rdbSaveType. rewrite uwrap_small by done. apply saves_write; [by apply bytes_ok_1|done]. Qed.

(** A saver on a stream in memory. *)
Lemma saves_memory m bs n r : saves m bs n -> rio_ok r -> in_memory r = true -> exists r', m (Some r) = Some (n, Some r') /\ wrote r bs r'.
Proof. intros [_ S] Hok Hm. destruct (S r Hok) as (k & r' & E & [[-> W]|[_ [_ B _ _]]]); [by exists r'|congruence]. Qed.

Lemma memory_ptr r : in_memory r = true -> exists pos, io r = IoBuffer (written r) pos.
Proof. unfold in_memory, written. destruct (io r) as [ptr pos|]; [eauto|done]. Qed.

Lemma footer_bytes : [Z.land RDB_VERSION 0xff; Z.land (Z.shiftr RDB_VERSION 8) 0xff] = [9; 0].
Proof. reflexivity. Qed.

Lemma payload_form ob s : is_string ob s -> exists bs, string_saved (rdbSaveObject bufsiz junk compress ob) s bs /\
  let body := (RDB_TYPE_STRING :: bs) ++ [9; 0] in
  createDumpPayload bufsiz junk compress ob = Some (body ++ le_bytes 8 (crc64_ref 0 body)).
Proof.
  intros Hs. destruct (object_saved ob s Hs) as [bs Hss]. exists bs. split; [done|]. cbn zeta. destruct Hss as [S B N _].
  unfold createDumpPayload. assert (Et : rdbSaveObjectType bufsiz ob = rdbSaveType bufsiz RDB_TYPE_STRING).
  { unfold rdbSaveObjectType. destruct Hs as (Hv & _). by destruct (enc ob). }
  rewrite Et. destruct (saves_memory _ _ _ (rioInitWithBuffer []) (type_saves RDB_TYPE_STRING ltac:(done))) as (r1 & -> & W1); [by split|done|].
  cbn [mbind option_bind fst snd Z.eqb]. pose proof (sm_memory _ _ _ (wr_sum _ _ _ W1)) as M1.
  destruct (saves_memory _ _ _ r1 S (wr_ok _ _ _ W1) M1) as (r2 & -> & W2). cbn [mbind option_bind fst snd].
  rewrite (proj2 (Z.eqb_neq _ _)) by lia. destruct (memory_ptr r2) as [pos ->]; [rewrite (sm_memory _ _ _ (wr_sum _ _ _ W2)); exact M1|].
  cbn [mbind option_bind]. rewrite footer_bytes, (wr_out _ _ _ W2), (wr_out _ _ _ W1). cbn [written rioInitWithBuffer io app].
  set (body := RDB_TYPE_STRING :: bs ++ [9; 0]). pose proof (crc64_spec 0 body []) as Ec. rewrite app_nil_r in Ec. rewrite Ec; [done| |done].
  unfold body. constructor; [done|]. apply Forall_app. split; [done|]. by repeat constructor.
Qed.

Lemma verify_form body f0 f1 tail : bytes_ok (body ++ [f0; f1]) -> zlen tail = 8 ->
  verifyDumpPayload ((body ++ [f0; f1]) ++ tail) (zlen ((body ++ [f0; f1]) ++ tail)) =
  Some (negb (u16 (Z.lor (Z.shiftl f1 8) f0) >? RDB_VERSION) && bool_decide (le_bytes 8 (crc64_ref 0 (body ++ [f0; f1])) = tail)).
Proof.
  intros Hb Ht. unfold verifyDumpPayload. set (p := (body ++ [f0; f1]) ++ tail). pose proof (zlen_nonneg body).
  assert (Hp : zlen p = zlen body + 10) by (unfold p; zlia).
  rewrite (proj2 (Z.ltb_ge _ _)) by lia. cbn zeta. replace (zlen p - 10) with (zlen body) by lia. replace (zlen p - 8) with (zlen (body ++ [f0; f1])) by zlia.
  assert (Ep : p = body ++ f0 :: f1 :: tail) by (unfold p; by rewrite <- app_assoc).
  assert (M0 : mget p (zlen body) = Some f0) by (rewrite Ep; by apply mget_split).
  assert (M1 : mget p (zlen body + 1) = Some f1) by (rewrite Ep; by apply mget_at1).
  rewrite M0, M1. cbn [mbind option_bind].
  destruct (_ >? RDB_VERSION); [done|]. unfold p. rewrite crc64_spec by done. cbn [mbind option_bind].
  rewrite <- (app_nil_r tail) at 1. rewrite mread_split; [done|zlia|done].
Qed.

(** [C11] A payload of DUMP for an object that is a string, however the object is
    encoded and whether or not it is compressed: RESTORE's check accepts it, and
    reading it back yields a new object for the same string, everything else in
    the heap as it was. *)
Theorem dump_restore ob s (Hs : is_string ob s) :
  exists p, createDumpPayload bufsiz junk compress ob = Some p /\ verifyDumpPayload p (zlen p) = Some true /\
    (zlen p < 2 ^ 63 -> forall h R, own si h R -> exists o r h',
      (type <- rdbLoadObjectType ;; o <- rdbLoadObject junk si vs type ;; ret (type, o)) (rioInitWithBuffer p, h) = Some ((RDB_TYPE_STRING, Some o), (r, h')) /\
      own si h' ({[+ o +]} ⊎ R) /\ kept h h' R /\ val_at h' o = Some (VStr s)).
Proof.
  destruct (payload_form ob s Hs) as (bs & [S B N _ L] & E). cbn zeta in E. set (body := (RDB_TYPE_STRING :: bs) ++ [9; 0]) in *.
  exists (body ++ le_bytes 8 (crc64_ref 0 body)). split; [done|]. split.
  - unfold body. rewrite verify_form; [by rewrite bool_decide_true| |done]. apply Forall_app. split; [by constructor|by repeat constructor].
  - intros Hl h R Hown. set (r0 := rioInitWithBuffer _). assert (Hok : rio_ok r0) by by split. pose proof (zlen_nonneg (body ++ le_bytes 8 (crc64_ref 0 body))).
    assert (Hp : pos_ok r0) by (unfold pos_ok; cbn [r0 rioInitWithBuffer io]; lia).
    assert (Hi : input r0 = [RDB_TYPE_STRING] ++ bs ++ [9; 0] ++ le_bytes 8 (crc64_ref 0 body)).
    { unfold input. cbn [r0 rioInitWithBuffer io Z.to_nat drop]. unfold body at 1. by rewrite <- !app_assoc. }
    destruct (type_loads RDB_TYPE_STRING ltac:(done) r0 _ Hok Hp Hi) as (r1 & E1 & T1 & I1).
    destruct (object_loads bs s L r1 _ h R (tk_ok _ _ _ T1) (tk_pos _ _ _ T1) I1 Hown) as (o & r2 & h2 & E2 & T2 & I2 & O2 & K2 & V2).
    exists o, r2, h2. split; [|done]. unfold rdbLoadObjectType, bind, on_rio. cbn [fst snd]. rewrite E1. cbn [mbind option_bind fst snd].
    change (RDB_TYPE_STRING =? -1) with false. change (negb (rdbIsObjectType RDB_TYPE_STRING)) with false. cbn [ret]. by rewrite E2.
Qed.
End Payload.

(** The check on a payload, whatever its data is. *)
Lemma verify_data D tail : bytes_ok D -> 2 <= zlen D -> zlen tail = 8 -> exists ok,
  verifyDumpPayload (D ++ tail) (zlen (D ++ tail)) = Some (ok && bool_decide (le_bytes 8 (crc64_ref 0 D) = tail)) /\
  (forall tail', zlen tail' = 8 ->
    verifyDumpPayload (D ++ tail') (zlen (D ++ tail')) = Some (ok && bool_decide (le_bytes 8 (crc64_ref 0 D) = tail'))).
Proof.
  intros HD H2 Ht. destruct (zlen_cut D (zlen D - 2) ltac:(lia)) as (body & f & -> & Hl). rewrite zlen_app in Hl.
  destruct f as [|f0 [|f1 [|f2 f]]]; try (exfalso; zlia). eexists. split; [by apply verify_form|]. intros tail' Ht'. by apply verify_form.
Qed.

Lemma le_bytes_inj n x y : 0 <= x < 2 ^ (8 * Z.of_nat n) -> 0 <= y < 2 ^ (8 * Z.of_nat n) -> le_bytes n x = le_bytes n y -> x = y.
Proof. intros Hx Hy E. rewrite <- (le_val_small n x Hx), <- (le_val_small n y Hy). by rewrite E. Qed.

Lemma crc64_changed a b x y : bytes_ok a -> bytes_ok b -> byte_ok x -> byte_ok y -> x <> y -> crc64_ref 0 (a ++ x :: b) <> crc64_ref 0 (a ++ y :: b).
Proof.
  intros Ha Hb Hx Hy Hxy E. apply (crc64_detects_byte 0 a b x y Ha Hb Hx Hy Hxy ltac:(lia)).
  assert (Hz : forall z, byte_ok z -> crc64 0 (a ++ [z] ++ b) (zlen a + 1 + zlen b) = Some (crc64_ref 0 (a ++ z :: b))).
  { intros z Hz. pose proof (crc64_spec 0 (a ++ [z] ++ b) []) as Hs. rewrite app_nil_r in Hs.
    replace (zlen a + 1 + zlen b) with (zlen (a ++ [z] ++ b)) by zlia. apply Hs; [by rewrite !Forall_app, Forall_singleton|lia]. }
  rewrite !Hz by done. by rewrite E.
Qed.

(** [C12] RESTORE refuses a payload when one of its octets is not the one DUMP
    wrote, wherever it is: in the value, in the version or in the checksum. *)
Theorem dump_detects_change (a b : list Z) (x y : Z) (Ha : bytes_ok a) (Hb : bytes_ok b) (Hx : byte_ok x) (Hy : byte_ok y) (Hxy : x <> y)
    (Hv : verifyDumpPayload (a ++ x :: b) (zlen (a ++ x :: b)) = Some true) :
  verifyDumpPayload (a ++ y :: b) (zlen (a ++ y :: b)) = Some false.
Proof.
  assert (Hl : zlen (a ++ x :: b) = zlen a + 1 + zlen b) by zlia.
  assert (H10 : 10 <= zlen a + 1 + zlen b).
  { unfold verifyDumpPayload in Hv. rewrite Hl in Hv. destruct (_ <? 10) eqn:E in Hv; [done|]. lia. }
  pose proof (zlen_nonneg a). pose proof (zlen_nonneg b). destruct (decide (8 <= zlen b)) as [H8|H8].
  - destruct (zlen_cut b (zlen b - 8) ltac:(lia)) as (d & tail & -> & Hd). rewrite zlen_app in Hd, H10. apply Forall_app in Hb as [Hbd Hbt].
    assert (Hform : forall z, a ++ z :: d ++ tail = (a ++ z :: d) ++ tail) by (intros z; by rewrite <- app_assoc).
    assert (Hok : forall z, byte_ok z -> bytes_ok (a ++ z :: d)) by (intros z Hz; apply Forall_app; split; [done|by constructor]).
    rewrite Hform in Hv |- *. destruct (verify_data (a ++ x :: d) tail) as (ok1 & E1 & _); [by apply Hok|zlia|lia|].
    destruct (verify_data (a ++ y :: d) tail) as (ok2 & E2 & _); [by apply Hok|zlia|lia|]. rewrite E1 in Hv. apply (inj Some), andb_true_iff in Hv as [_ Hv].
    apply bool_decide_eq_true in Hv. rewrite E2, bool_decide_false; [by rewrite andb_false_r|]. rewrite <- Hv. intros E. apply le_bytes_inj in E.
    + by apply (crc64_changed a d x y).
    + apply crc64_ref_range; [by apply Hok|lia].
    + apply crc64_ref_range; [by apply Hok|lia].
  - destruct (zlen_cut a (zlen a + 1 + zlen b - 8) ltac:(lia)) as (D & t & -> & HD). rewrite zlen_app in HD, H10. apply Forall_app in Ha as [HaD Hat].
    rewrite <- !app_assoc in Hv |- *. destruct (verify_data D (t ++ x :: b)) as (ok & E1 & E2); [done|lia|zlia|]. rewrite E1 in Hv.
    apply (inj Some), andb_true_iff in Hv as [_ Hv]. apply bool_decide_eq_true in Hv. rewrite E2 by zlia. rewrite bool_decide_false; [by rewrite andb_false_r|].
    rewrite Hv. intros E. apply app_inv_head in E. congruence.
Qed.

(** ** Instances *)

Definition an_object : robj := {| refcount := 1; enc := ORaw (bytes_of "v") |}.

Lemma dump_restore_witness : exists p, createDumpPayload 4096 (fun _ => 0) true an_object = Some p /\ verifyDumpPayload p (zlen p) = Some true.
Proof.
  destruct (dump_restore 4096 (fun _ => 0) true (fun _ => 1%positive) false an_object (bytes_of "v")) as (p & E1 & E2 & _).
  - split; [done|]. split; [done|]. by apply (bool_decide_unpack (Forall (fun c => 0 <= c < 256) _)).
  - by exists p.
Defined.

(** The payload of that object, and one with another letter. *)
Lemma dump_detects_change_witness : exists b, verifyDumpPayload ([0; 1] ++ 118 :: b) 13 = Some true /\ verifyDumpPayload ([0; 1] ++ 119 :: b) 13 = Some false.
Proof.
  set (body := [0; 1; 118; 9; 0]). set (b := [9; 0] ++ le_bytes 8 (crc64_ref 0 body)). exists b.
  assert (Hv : verifyDumpPayload ([0; 1] ++ 118 :: b) 13 = Some true) by by vm_compute. split; [exact Hv|].
  apply (dump_detects_change [0; 1] b 118 119); [| | | |done|exact Hv].
  - by apply (bool_decide_unpack (Forall (fun c => 0 <= c < 256) _)).
  - apply Forall_app. split; [by apply (bool_decide_unpack (Forall (fun c => 0 <= c < 256) _))|apply le_bytes_ok].
  - split; done.
  - split; done.
Defined.
