(* ===== verification/RdbFile.v ===== *)
(** * RDB files (rdb.c, with evict.c and object.c for the access times)

    Saving every database to a stream and to a file, and loading them.  The
    state of the server is its databases, the heap of objects they share, the
    stream, and the files of the directory.  Values of other types than strings,
    the clients served while a file is loaded and the diffs that an AOF rewrite
    interleaves are left out; the scripts are strings that [luaCreateFunction]
    accepts or not. *)
From Stdlib Require Import ZArith Lia String.
From stdpp Require Import base numbers list option gmap.
From S2P Require Import Prelude UtilNum Sds Object ObjectHeap Checksum Reply Keyspace DictIter Db Rio Rdb.

Definition RDB_OPCODE_MODULE_AUX : Z := 247.
Definition RDB_OPCODE_IDLE : Z := 248.
Definition RDB_OPCODE_FREQ : Z := 249.
Definition RDB_OPCODE_AUX : Z := 250.
Definition RDB_OPCODE_RESIZEDB : Z := 251.
Definition RDB_OPCODE_EXPIRETIME_MS : Z := 252.
Definition RDB_OPCODE_EXPIRETIME : Z := 253.
Definition RDB_OPCODE_SELECTDB : Z := 254.
Definition RDB_OPCODE_EOF : Z := 255.
Definition RDB_SAVE_NONE : Z := 0.
Definition RDB_SAVE_AOF_PREAMBLE : Z := Z.shiftl 1 0.
Definition C_OK : Z := 0.
Definition C_ERR : Z := -1.
Definition CONFIG_RUN_ID_SIZE : Z := 40.
Definition REDIS_AUTOSYNC_BYTES : Z := 1024 * 1024 * 32.
Definition REDIS_VERSION : list Z := bytes_of "5.0.0".
Definition LRU_CLOCK_MAX : Z := Z.shiftl 1 24 - 1.
Definition LRU_CLOCK_RESOLUTION : Z := 1000.

(** [rdbSaveInfo]; [repl_id_is_set] is [repl_id] not being [None]. *)
Record rdbSaveInfo := { repl_stream_db : Z; repl_id : option (list Z); repl_offset : Z }.

(** What the source reads of [server]; the time is in [config]. *)
Record rdb_config := {
  rdb_compression : bool;
  rdb_checksum : bool;
  rdb_save_incremental_fsync : bool;
  loading_process_events_interval_bytes : Z;
  maxmemory_policy : Z;
  hz : Z;
  lruclock : Z;             (** the clock that serverCron keeps *)
  unixtime : Z;
  lfu_decay_time : Z;
  time_now : Z;             (** [time(NULL)] *)
  used_memory : Z;
  replid : list Z;
  master_repl_offset : Z
}.

(** Do the calls of the operating system succeed, and the space on the device. *)
Record disk := { dk_open : bool; dk_room : Z; dk_sync : bool; dk_close : bool; dk_rename : bool }.

Definition MAXMEMORY_FLAG_LRU : Z := Z.shiftl 1 0.
Definition MAXMEMORY_FLAG_LFU : Z := Z.shiftl 1 1.

(** ** Access times (evict.c, object.c) *)

Section Access.
Context (cfg : config) (rc : rdb_config).

Definition getLRUClock : Z := Z.land (mstime cfg / LRU_CLOCK_RESOLUTION) LRU_CLOCK_MAX.
Definition LRU_CLOCK : Z := if 1000 / hz rc <=? LRU_CLOCK_RESOLUTION then lruclock rc else getLRUClock.

(** [lru] is [o->lru], a field of 24 bits. *)
Definition estimateObjectIdleTime (lru : Z) : Z :=
  let clock := LRU_CLOCK in
  if clock >=? lru then u64 ((clock - lru) * LRU_CLOCK_RESOLUTION)
  else u64 ((clock + (LRU_CLOCK_MAX - lru)) * LRU_CLOCK_RESOLUTION).

Definition LFUGetTimeInMinutes : Z := Z.land (unixtime rc / 60) 65535.
Definition LFUTimeElapsed (ldt : Z) : Z :=
  let now := LFUGetTimeInMinutes in if now >=? ldt then now - ldt else 65535 - ldt + now.
Definition LFUDecrAndReturn (lru : Z) : Z :=
  let ldt := Z.shiftr lru 8 in
  let counter := Z.land lru 255 in
  let num_periods := if lfu_decay_time rc =? 0 then 0 else LFUTimeElapsed ldt / lfu_decay_time rc in
  if num_periods =? 0 then counter else if num_periods >? counter then 0 else counter - num_periods.

(** The new [o->lru]; [None]: the assertion fails. *)
Definition objectSetLRUOrLFU (lru lfu_freq lru_idle lru_clock : Z) : option Z :=
  if negb (Z.land (maxmemory_policy rc) MAXMEMORY_FLAG_LFU =? 0) then
    if lfu_freq >=? 0 then
      if lfu_freq <=? 255 then Some (uwrap 24 (Z.lor (Z.shiftl LFUGetTimeInMinutes 8) lfu_freq)) else None
    else Some lru
  else if lru_idle >=? 0 then
    let lru_idle := Z.quot (i64 (lru_idle * 1000)) LRU_CLOCK_RESOLUTION in
    let lru := uwrap 24 (lru_clock - lru_idle) in
    Some (if lru <? 0 then uwrap 24 (lru_clock + 1) else lru)
  else Some lru.
End Access.

(** ** The server *)

Record server (D E C : Type) := {
  sv_base : dbst unit unit C;     (** the heap, the log, the client *)
  sv_dbs : list (D * E);
  sv_lru : oaddr -> Z;            (** the access times of the objects *)
  sv_scripts : list (list Z);     (** the bodies of [lua_scripts], as iterated *)
  sv_rio : option rio;
  sv_files : gmap (list Z) (list Z);
  sv_lastsave : Z;
  sv_lastbgsave_ok : bool
}.

Arguments sv_base {D E C}. Arguments sv_dbs {D E C}. Arguments sv_lru {D E C}. Arguments sv_scripts {D E C}. Arguments sv_rio {D E C}.
Arguments sv_files {D E C}. Arguments sv_lastsave {D E C}. Arguments sv_lastbgsave_ok {D E C}.

Section File.
Context {D E C : Type} `{DictIter D oaddr} `{KeyDict E Z} `{!DictIter E Z}.
Context (cfg : config) (rc : rdb_config) (shared_integers : Z -> oaddr) (bufsiz : Z) (junk : Z -> Z).
(** [luaCreateFunction] (scripting.c): the interpreter compiles the script. *)
Context (luaCreateFunction : list Z -> bool).

Abbreviation sv := (server D E C).
Abbreviation st := (dbst D E C).
Abbreviation S := (M sv).

(** The database [de] as the current one, and the rest of the state. *)
Definition view (s : sv) (de : D * E) : st :=
  {| heap := heap (sv_base s); dict := fst de; expires := snd de; out := out (sv_base s); argv := argv (sv_base s); dirty := dirty (sv_base s);
     log := log (sv_base s); stat_keyspace_hits := stat_keyspace_hits (sv_base s); stat_keyspace_misses := stat_keyspace_misses (sv_base s);
     stat_expiredkeys := stat_expiredkeys (sv_base s) |}.
Definition base_of (x : st) : dbst unit unit C :=
  {| heap := heap x; dict := tt; expires := tt; out := out x; argv := argv x; dirty := dirty x; log := log x;
     stat_keyspace_hits := stat_keyspace_hits x; stat_keyspace_misses := stat_keyspace_misses x; stat_expiredkeys := stat_expiredkeys x |}.
Definition with_base (s : sv) b dbs : sv :=
  {| sv_base := b; sv_dbs := dbs; sv_lru := sv_lru s; sv_scripts := sv_scripts s; sv_rio := sv_rio s; sv_files := sv_files s;
     sv_lastsave := sv_lastsave s; sv_lastbgsave_ok := sv_lastbgsave_ok s |}.
Definition with_rio (s : sv) r : sv :=
  {| sv_base := sv_base s; sv_dbs := sv_dbs s; sv_lru := sv_lru s; sv_scripts := sv_scripts s; sv_rio := r; sv_files := sv_files s;
     sv_lastsave := sv_lastsave s; sv_lastbgsave_ok := sv_lastbgsave_ok s |}.
Definition with_lru (s : sv) f : sv :=
  {| sv_base := sv_base s; sv_dbs := sv_dbs s; sv_lru := f; sv_scripts := sv_scripts s; sv_rio := sv_rio s; sv_files := sv_files s;
     sv_lastsave := sv_lastsave s; sv_lastbgsave_ok := sv_lastbgsave_ok s |}.
Definition with_scripts (s : sv) l : sv :=
  {| sv_base := sv_base s; sv_dbs := sv_dbs s; sv_lru := sv_lru s; sv_scripts := l; sv_rio := sv_rio s; sv_files := sv_files s;
     sv_lastsave := sv_lastsave s; sv_lastbgsave_ok := sv_lastbgsave_ok s |}.
Definition with_heap_of (b : dbst unit unit C) h : dbst unit unit C :=
  {| heap := h; dict := tt; expires := tt; out := out b; argv := argv b; dirty := dirty b; log := log b;
     stat_keyspace_hits := stat_keyspace_hits b; stat_keyspace_misses := stat_keyspace_misses b; stat_expiredkeys := stat_expiredkeys b |}.

(** An operation on the database [j], on the stream, on the stream and the heap. *)
Definition on_db {A} (j : nat) (m : M st A) : S A := fun s =>
  de ← sv_dbs s !! j;
  t ← m (view s de);
  Some (fst t, with_base s (base_of (snd t)) (<[j := (dict (snd t), expires (snd t))]> (sv_dbs s))).
Definition on_stream {A} (m : M (option rio) A) : S A := fun s => t ← m (sv_rio s); Some (fst t, with_rio s (snd t)).
Definition on_loader {A} (m : M (rio * gmap oaddr robj) A) : S A := fun s =>
  r ← sv_rio s;
  t ← m (r, heap (sv_base s));
  Some (fst t, with_rio (with_base s (with_heap_of (sv_base s) (snd (snd t))) (sv_dbs s)) (Some (fst (snd t)))).
Definition with_stream {A} (f : rio -> rio) (x : A) : S A := fun s => r ← sv_rio s; Some (x, with_rio s (Some (f r))).

(** ** Saving *)

Section Saving.
Abbreviation W := (M (option rio)).

(** [val] with its access time. *)
Definition rdbSaveKeyValuePair (key : list Z) (val : robj) (lru : Z) (expiretime : Z) : W Z :=
  let savelru := negb (Z.land (maxmemory_policy rc) MAXMEMORY_FLAG_LRU =? 0) in
  let savelfu := negb (Z.land (maxmemory_policy rc) MAXMEMORY_FLAG_LFU =? 0) in
  _ <~ (if negb (expiretime =? -1) then
          _ <~ rdbSaveType bufsiz RDB_OPCODE_EXPIRETIME_MS ;; rdbSaveMillisecondTime bufsiz expiretime
        else ret 0) ;;
  _ <~ (if savelru then
          let idletime := estimateObjectIdleTime cfg rc lru / 1000 in
          _ <~ rdbSaveType bufsiz RDB_OPCODE_IDLE ;; rdbSaveLen bufsiz idletime
        else ret 0) ;;
  _ <~ (if savelfu then
          _ <~ rdbSaveType bufsiz RDB_OPCODE_FREQ ;; rdbWriteRaw bufsiz [u8 (LFUDecrAndReturn rc lru)]
        else ret 0) ;;
  _ <~ rdbSaveObjectType bufsiz val ;;
  _ <~ rdbSaveStringObject bufsiz junk (rdb_compression rc) {| refcount := 1; enc := ORaw key |} ;;
  _ <~ rdbSaveObject bufsiz junk (rdb_compression rc) val ;;
  ret 1.

Definition rdbSaveAuxField (key val : list Z) : W Z :=
  n1 <~ rdbSaveType bufsiz RDB_OPCODE_AUX ;;
  n2 <~ rdbSaveRawString bufsiz junk (rdb_compression rc) key ;;
  n3 <~ rdbSaveRawString bufsiz junk (rdb_compression rc) val ;;
  ret (n1 + n2 + n3).

Definition rdbSaveAuxFieldStrStr (key val : list Z) : W Z := rdbSaveAuxField key (c_text val).
Definition rdbSaveAuxFieldStrInt (key : list Z) (val : Z) : W Z :=
  r <- lift (ll2string (uninit junk LONG_STR_SIZE) LONG_STR_SIZE val) ;;
  buf <- lift (mread (snd r) 0 (fst r)) ;;
  rdbSaveAuxField key buf.

Definition rdbSaveInfoAuxFields (flags : Z) (rsi : option rdbSaveInfo) : W Z :=
  let redis_bits := 64 in
  let aof_preamble := if Z.land flags RDB_SAVE_AOF_PREAMBLE =? 0 then 0 else 1 in
  _ <~ rdbSaveAuxFieldStrStr (bytes_of "redis-ver") REDIS_VERSION ;;
  _ <~ rdbSaveAuxFieldStrInt (bytes_of "redis-bits") redis_bits ;;
  _ <~ rdbSaveAuxFieldStrInt (bytes_of "ctime") (time_now rc) ;;
  _ <~ rdbSaveAuxFieldStrInt (bytes_of "used-mem") (used_memory rc) ;;
  _ <~ match rsi with
       | Some i =>
           _ <~ rdbSaveAuxFieldStrInt (bytes_of "repl-stream-db") (repl_stream_db i) ;;
           _ <~ rdbSaveAuxFieldStrStr (bytes_of "repl-id") (replid rc) ;;
           rdbSaveAuxFieldStrInt (bytes_of "repl-offset") (master_repl_offset rc)
       | None => ret 0
       end ;;
  _ <~ rdbSaveAuxFieldStrInt (bytes_of "aof-preamble") aof_preamble ;;
  ret 1.

(** The scripts, one after the other. *)
Fixpoint save_scripts (bodies : list (list Z)) : W Z :=
  match bodies with
  | [] => ret 0
  | body :: bodies => _ <~ rdbSaveAuxField (bytes_of "lua") body ;; save_scripts bodies
  end.
End Saving.

(** The iterator of a database. *)
Definition db_start (j : nat) : S (kd_iter (D := D)) := on_db j (d <- gets dict ;; ret (kd_start d)).
Definition db_next (j : nat) (it : kd_iter (D := D)) : S (kd_iter (D := D) * option (kd_entry (D := D))) :=
  on_db j (d <- gets dict ;; r <- lift (kd_next d it) ;; let '(d, it, e) := r in put_dict d ;; ret (it, e)).
Definition db_release (j : nat) (it : kd_iter (D := D)) : S unit := on_db j (d <- gets dict ;; put_dict (kd_release d it)).

(** [while((de = dictNext(di)) != NULL)]: the answer and the iterator. *)
Fixpoint save_entries (fuel : nat) (j : nat) (it : kd_iter (D := D)) : S (Z * kd_iter (D := D)) :=
  match fuel with
  | O => fail
  | Datatypes.S fuel =>
      r <- db_next j it ;;
      let '(it, de) := r in
      match de with
      | None => ret (0, it)
      | Some de =>
          kv <- on_db j (d <- gets dict ;; k <- lift (kd_key d de) ;; o <- lift (kd_val d de) ;; ob <- deref o ;; ret (k, o, ob)) ;;
          let '(keystr, o, ob) := kv in
          expire <- on_db j (getExpire keystr) ;;
          lru <- gets sv_lru ;;
          n <- on_stream (rdbSaveKeyValuePair keystr ob (lru o) expire) ;;
          if n =? -1 then ret (-1, it) else save_entries fuel j it
      end
  end.

(** One turn of [for (j = 0; j < server.dbnum; j++)]. *)
Definition save_db (j : nat) : S Z :=
  sizes <- on_db j (d <- gets dict ;; e <- gets expires ;; ret (kd_size d, kd_size e)) ;;
  let '(db_size, expires_size) := sizes in
  if db_size =? 0 then ret 0
  else
    di <- db_start j ;;
    n <- on_stream (
      _ <~ rdbSaveType bufsiz RDB_OPCODE_SELECTDB ;;
      _ <~ rdbSaveLen bufsiz (Z.of_nat j) ;;
      _ <~ rdbSaveType bufsiz RDB_OPCODE_RESIZEDB ;;
      _ <~ rdbSaveLen bufsiz db_size ;;
      rdbSaveLen bufsiz expires_size) ;;
    if n =? -1 then db_release j di ;; ret (-1)
    else
      r <- save_entries (Datatypes.S (Z.to_nat db_size)) j di ;;
      db_release j (snd r) ;;
      ret (fst r).

Fixpoint save_dbs (n : nat) (j : nat) : S Z :=
  match n with
  | O => ret 0
  | Datatypes.S n => r <- save_db j ;; if r =? -1 then ret (-1) else save_dbs n (Datatypes.S j)
  end.

(** ["REDIS%04d"]. *)
Definition magic : list Z := bytes_of "REDIS" ++ replicate (4 - List.length (dec RDB_VERSION)) 48 ++ dec RDB_VERSION.

Definition rdbSaveRio (flags : Z) (rsi : option rdbSaveInfo) : S Z :=
  with_stream (fun r => if rdb_checksum rc
    then {| io := io r; update_cksum := Some Generic; cksum := cksum r; processed_bytes := processed_bytes r; max_processing_chunk := max_processing_chunk r |}
    else r) tt ;;
  n <- on_stream (_ <~ rdbWriteRaw bufsiz magic ;; rdbSaveInfoAuxFields flags rsi) ;;
  if n =? -1 then ret C_ERR
  else
    dbs <- gets sv_dbs ;;
    n <- save_dbs (List.length dbs) 0 ;;
    if n =? -1 then ret C_ERR
    else
      scripts <- gets sv_scripts ;;
      n <- on_stream (
        _ <~ match rsi with Some _ => save_scripts scripts | None => ret 0 end ;;
        _ <~ rdbSaveType bufsiz RDB_OPCODE_EOF ;; ret 0) ;;
      if n =? -1 then ret C_ERR
      else
        rio <- gets sv_rio ;;
        r <- lift rio ;;
        t <- lift (rioWrite bufsiz r (le_bytes 8 (cksum r))) ;;
        with_stream (fun _ => fst t) (if snd t : bool then C_OK else C_ERR).
(** ** Loading *)

(** [strcasecmp(a,b) == 0]. *)
Definition strcasecmp_eq (a b : list Z) : bool :=
  let low c := if (65 <=? c) && (c <=? 90) then c + 32 else c in
  bool_decide (map low (c_text a) = map low (c_text b)).

(** What the opcodes before a key have set, with the current database. *)
Record load_state := {
  ld_db : nat;
  ld_expire : Z;
  ld_freq : Z;
  ld_idle : Z;
  ld_rsi : option rdbSaveInfo
}.

(** An object of [rdbLoadStringObject] and its string. *)
Definition loaded_sds (x : option loaded) : S (oaddr * list Z) :=
  match x with
  | Some (LObj o) => s <- gets (fun s => ob ← heap (sv_base s) !! o; sds_of (enc ob)) ;; s <- lift s ;; ret (o, s)
  | _ => fail
  end.

Definition load_string : S (oaddr * list Z) := x <- on_loader (rdbLoadStringObject junk shared_integers (values_shared cfg)) ;; loaded_sds x.
Definition release (o : oaddr) : S unit := on_loader (free_obj o).

(** The fields this version understands. *)
Definition aux_field (rsi : option rdbSaveInfo) (auxkey auxval : list Z) : S (option rdbSaveInfo) :=
  if default 0 (mget auxkey 0) =? 37 then ret rsi
  else if strcasecmp_eq auxkey (bytes_of "repl-stream-db") then
    ret (option_map (fun i => {| repl_stream_db := atoi auxval; repl_id := repl_id i; repl_offset := repl_offset i |}) rsi)
  else if strcasecmp_eq auxkey (bytes_of "repl-id") then
    ret (option_map (fun i => if zlen auxval =? CONFIG_RUN_ID_SIZE
      then {| repl_stream_db := repl_stream_db i; repl_id := Some auxval; repl_offset := repl_offset i |} else i) rsi)
  else if strcasecmp_eq auxkey (bytes_of "repl-offset") then
    ret (option_map (fun i => {| repl_stream_db := repl_stream_db i; repl_id := repl_id i; repl_offset := fst (strtoll auxval) |}) rsi)
  else if strcasecmp_eq auxkey (bytes_of "lua") then
    if luaCreateFunction auxval then scripts <- gets sv_scripts ;; (fun s => Some (rsi, with_scripts s (scripts ++ [auxval]))) else fail
  else ret rsi.

(** [setExpire] without a client. *)
Definition no_client : config :=
  {| values_shared := values_shared cfg; masterhost := masterhost cfg; repl_slave_ro := repl_slave_ro cfg; loading := loading cfg;
     lua_caller := lua_caller cfg; mstime := mstime cfg; readonly_client := readonly_client cfg; client_master := true;
     cluster_enabled := cluster_enabled cfg; cmd_name := cmd_name cfg; module_type := module_type cfg |}.

(** The key and the value that end a turn. *)
Definition load_pair (ls : load_state) (loading_aof : bool) (now lru_clock type : Z) : S unit :=
  key <- load_string ;;
  val <- on_loader (rdbLoadObject junk shared_integers (values_shared cfg) type) ;;
  match val with
  | None => fail
  | Some val =>
      if negb (masterhost cfg) && negb loading_aof && negb (ld_expire ls =? -1) && (ld_expire ls <? now) then
        release (fst key) ;; release val
      else
        on_db (ld_db ls) (dbAdd cfg (snd key) val) ;;
        (if negb (ld_expire ls =? -1) then on_db (ld_db ls) (setExpire no_client (snd key) (ld_expire ls)) else ret tt) ;;
        lru <- gets sv_lru ;;
        l <- lift (objectSetLRUOrLFU rc (lru val) (ld_freq ls) (ld_idle ls) lru_clock) ;;
        (fun s => Some (tt, with_lru s (fun o => if decide (o = val) then l else lru o))) ;;
        release (fst key)
  end.

(** A length that must be there. *)
Definition load_len : S Z := r <- on_loader (on_rio rdbLoadLen) ;; if snd r =? RDB_LENERR then fail else ret (snd r).

(** One turn of [while(1)]: [None] at the end of the file. *)
Definition load_turn (ls : load_state) (loading_aof : bool) (rdbver now lru_clock : Z) : S (option load_state) :=
  type <- on_loader (on_rio rdbLoadType) ;;
  if type =? -1 then fail
  else if type =? RDB_OPCODE_EXPIRETIME then
    t <- on_loader (on_rio rdbLoadTime) ;;
    ret (Some {| ld_db := ld_db ls; ld_expire := i64 (t * 1000); ld_freq := ld_freq ls; ld_idle := ld_idle ls; ld_rsi := ld_rsi ls |})
  else if type =? RDB_OPCODE_EXPIRETIME_MS then
    t <- on_loader (on_rio (rdbLoadMillisecondTime rdbver)) ;;
    ret (Some {| ld_db := ld_db ls; ld_expire := t; ld_freq := ld_freq ls; ld_idle := ld_idle ls; ld_rsi := ld_rsi ls |})
  else if type =? RDB_OPCODE_FREQ then
    b <- on_loader (on_rio (rd 1)) ;;
    match b with
    | Some [byte] => ret (Some {| ld_db := ld_db ls; ld_expire := ld_expire ls; ld_freq := byte; ld_idle := ld_idle ls; ld_rsi := ld_rsi ls |})
    | _ => fail
    end
  else if type =? RDB_OPCODE_IDLE then
    qword <- load_len ;;
    ret (Some {| ld_db := ld_db ls; ld_expire := ld_expire ls; ld_freq := ld_freq ls; ld_idle := i64 qword; ld_rsi := ld_rsi ls |})
  else if type =? RDB_OPCODE_EOF then ret None
  else if type =? RDB_OPCODE_SELECTDB then
    dbid <- load_len ;;
    dbs <- gets sv_dbs ;;
    if dbid >=? zlen dbs then fail
    else ret (Some {| ld_db := Z.to_nat dbid; ld_expire := ld_expire ls; ld_freq := ld_freq ls; ld_idle := ld_idle ls; ld_rsi := ld_rsi ls |})
  else if type =? RDB_OPCODE_RESIZEDB then
    db_size <- load_len ;;
    expires_size <- load_len ;;
    on_db (ld_db ls) (d <- gets dict ;; d <- lift (kd_expand d db_size) ;; put_dict d) ;;
    on_db (ld_db ls) (e <- gets expires ;; e <- lift (kd_expand e expires_size) ;; put_expires e) ;;
    ret (Some ls)
  else if type =? RDB_OPCODE_AUX then
    auxkey <- load_string ;;
    auxval <- load_string ;;
    rsi <- aux_field (ld_rsi ls) (snd auxkey) (snd auxval) ;;
    release (fst auxkey) ;;
    release (fst auxval) ;;
    ret (Some {| ld_db := ld_db ls; ld_expire := ld_expire ls; ld_freq := ld_freq ls; ld_idle := ld_idle ls; ld_rsi := rsi |})
  else if type =? RDB_OPCODE_MODULE_AUX then fail
  else
    load_pair ls loading_aof now lru_clock type ;;
    ret (Some {| ld_db := ld_db ls; ld_expire := -1; ld_freq := -1; ld_idle := -1; ld_rsi := ld_rsi ls |}).

Fixpoint load_loop (fuel : nat) (ls : load_state) (loading_aof : bool) (rdbver now lru_clock : Z) : S (option rdbSaveInfo) :=
  match fuel with
  | O => fail
  | Datatypes.S fuel =>
      r <- load_turn ls loading_aof rdbver now lru_clock ;;
      match r with
      | None => ret (ld_rsi ls)
      | Some ls => load_loop fuel ls loading_aof rdbver now lru_clock
      end
  end.

(** The checksum at the end of the file. *)
Definition check_sum (rdbver : Z) : S unit :=
  if rdbver >=? 5 then
    rio <- gets sv_rio ;; r <- lift rio ;;
    let expected := cksum r in
    b <- on_loader (on_rio (rd 8)) ;;
    match b with
    | None => fail
    | Some b =>
        if rdb_checksum rc then
          let ck := le_val b in
          if ck =? 0 then ret tt else if negb (ck =? expected) then fail else ret tt
        else ret tt
    end
  else ret tt.

(** Every turn reads an octet: there are no more turns than octets. *)
Definition rdbLoadRio (rsi : option rdbSaveInfo) (loading_aof : bool) : S (Z * option rdbSaveInfo) :=
  with_stream (fun r => {| io := io r; update_cksum := Some (LoadProgress (rdb_checksum rc)); cksum := cksum r; processed_bytes := processed_bytes r;
    max_processing_chunk := loading_process_events_interval_bytes rc |}) tt ;;
  b <- on_loader (on_rio (rd 9)) ;;
  match b with
  | None => fail
  | Some buf =>
      if negb (bool_decide (take 5 buf = bytes_of "REDIS")) then ret (C_ERR, rsi)
      else
        let rdbver := atoi (drop 5 buf) in
        if (rdbver <? 1) || (rdbver >? RDB_VERSION) then ret (C_ERR, rsi)
        else
          rio <- gets sv_rio ;; r <- lift rio ;;
          rsi <- load_loop (Datatypes.S (List.length (input r)))
            {| ld_db := 0; ld_expire := -1; ld_freq := -1; ld_idle := -1; ld_rsi := rsi |} loading_aof rdbver (mstime cfg) (LRU_CLOCK cfg rc) ;;
          check_sum rdbver ;;
          ret (C_OK, rsi)
  end.

(** ** Files *)

Definition with_files (s : sv) f : sv :=
  {| sv_base := sv_base s; sv_dbs := sv_dbs s; sv_lru := sv_lru s; sv_scripts := sv_scripts s; sv_rio := None; sv_files := f;
     sv_lastsave := sv_lastsave s; sv_lastbgsave_ok := sv_lastbgsave_ok s |}.
Definition write_file (name data : list Z) : S unit := fun s => Some (tt, with_files s (<[name := data]> (sv_files s))).
Definition unlink (name : list Z) : S unit := fun s => Some (tt, with_files s (delete name (sv_files s))).
Definition rename (old new : list Z) : S unit := fun s =>
  data ← sv_files s !! old; Some (tt, with_files s (<[new := data]> (delete old (sv_files s)))).

(** [server.dirty = 0], [lastsave], [lastbgsave_status]. *)
Definition saved : S unit := fun s =>
  let b := sv_base s in
  Some (tt, {| sv_base := {| heap := heap b; dict := tt; expires := tt; out := out b; argv := argv b; dirty := 0; log := log b;
                 stat_keyspace_hits := stat_keyspace_hits b; stat_keyspace_misses := stat_keyspace_misses b; stat_expiredkeys := stat_expiredkeys b |};
               sv_dbs := sv_dbs s; sv_lru := sv_lru s; sv_scripts := sv_scripts s; sv_rio := sv_rio s; sv_files := sv_files s;
               sv_lastsave := time_now rc; sv_lastbgsave_ok := true |}).

Definition tmpfile (pid : Z) : list Z := bytes_of "temp-" ++ dec pid ++ bytes_of ".rdb".

(** The file is on the device when it is closed.  When that close fails the error
    path closes the stream a second time, which C leaves undefined. *)
Definition rdbSave (dk : disk) (pid : Z) (filename : list Z) (rsi : option rdbSaveInfo) : S Z :=
  let tmp := tmpfile pid in
  if negb (dk_open dk) then ret C_ERR
  else
    write_file tmp [] ;;
    (fun s => Some (tt, with_rio s (Some (rioInitWithFile (file_new (dk_room dk)))))) ;;
    (if rdb_save_incremental_fsync rc then with_stream (fun r => rioSetAutoSync r REDIS_AUTOSYNC_BYTES) tt else ret tt) ;;
    n <- rdbSaveRio RDB_SAVE_NONE rsi ;;
    rio <- gets sv_rio ;; r <- lift rio ;;
    match io r with
    | IoBuffer _ _ => fail
    | IoFile fp _ _ =>
        let werr := write_file tmp (f_data (fst (fflush fp))) ;; unlink tmp ;; ret C_ERR in
        if n =? C_ERR then werr
        else
          let '(fp, ok) := fflush fp in
          if negb ok then werr
          else if negb (dk_sync dk) then werr
          else if negb (dk_close dk) then fail
          else
            write_file tmp (f_data fp) ;;
            if negb (dk_rename dk) then unlink tmp ;; ret C_ERR
            else rename tmp filename ;; saved ;; ret C_OK
    end.

Definition rdbLoad (filename : list Z) (rsi : option rdbSaveInfo) : S (Z * option rdbSaveInfo) :=
  files <- gets sv_files ;;
  match files !! filename with
  | None => ret (C_ERR, rsi)
  | Some data =>
      (fun s => Some (tt, with_rio s (Some (rioInitWithFile (file_read data))))) ;;
      r <- rdbLoadRio rsi false ;;
      (fun s => Some (tt, with_rio s None)) ;;
      ret r
  end.
End File.

(** The field has no sign: an idle time longer than the clock wraps around and
    the value looks as if it had been used lately, it is not clamped. *)
Lemma access_time_wraps rc lru freq idle lru_clock : Z.land (maxmemory_policy rc) MAXMEMORY_FLAG_LFU = 0 -> 0 <= idle ->
  objectSetLRUOrLFU rc lru freq idle lru_clock = Some (uwrap 24 (lru_clock - Z.quot (i64 (idle * 1000)) LRU_CLOCK_RESOLUTION)).
Proof.
  intros Hp Hi. unfold objectSetLRUOrLFU. rewrite Hp. cbn [Z.eqb negb]. rewrite (proj2 (Z.geb_le _ _)) by lia.
  set (x := uwrap 24 _). assert (0 <= x < 2 ^ 24) by (apply uwrap_range; lia). by rewrite (proj2 (Z.ltb_ge _ _)) by lia.
Qed.
