(* ===== verification/RdbSpec.v ===== *)
(** * What an RDB file says

    A file is a sequence of items; [apply] is what each does to the databases
    being loaded, as maps from keys to strings and to the times at which they
    expire.  [srep] relates a server to its databases: the dictionaries represent
    them and the objects of the heap are exactly their values, the shared integers
    and what is referenced from [R]. *)
From Stdlib Require Import ZArith Lia String.
From stdpp Require Import base numbers list option gmap gmultiset.
From S2P Require Import Prelude UtilNum Sds Object ObjectHeap Checksum Reply Keyspace DictIter Db DbSpec Rio Rdb RdbProof RdbFile.

(** ** Items *)

Inductive item :=
| IExpire (w : Z)
| IIdle (n : Z)
| IFreq (b : Z)
| ISelect (j : nat)
| IResize (a b : Z)
| IAux (k v : list Z)
| IPair (k s : list Z).

Definition item_bytes (it : item) (bs : list Z) : Prop :=
  match it with
  | IExpire w => in_s 64 w /\ bs = RDB_OPCODE_EXPIRETIME_MS :: le_bytes 8 w
  | IIdle n => 0 <= n < 2 ^ 64 - 1 /\ bs = RDB_OPCODE_IDLE :: len_bytes n
  | IFreq b => byte_ok b /\ bs = [RDB_OPCODE_FREQ; b]
  | ISelect j => Z.of_nat j < 2 ^ 62 /\ bs = RDB_OPCODE_SELECTDB :: len_bytes (Z.of_nat j)
  | IResize a b => 0 <= a < 2 ^ 62 /\ 0 <= b < 2 ^ 62 /\ bs = RDB_OPCODE_RESIZEDB :: len_bytes a ++ len_bytes b
  | IAux k v => exists kb vb, str_bytes k kb /\ str_bytes v vb /\ bs = RDB_OPCODE_AUX :: kb ++ vb
  | IPair k s => exists kb sb, str_bytes k kb /\ str_bytes s sb /\ bs = RDB_TYPE_STRING :: kb ++ sb
  end.

(** The bytes of a sequence of items. *)
Inductive items_bytes : list item -> list Z -> Prop :=
| ib_nil : items_bytes [] []
| ib_cons it its b bs : item_bytes it b -> items_bytes its bs -> items_bytes (it :: its) (b ++ bs).

Lemma items_app its1 bs1 its2 bs2 : items_bytes its1 bs1 -> items_bytes its2 bs2 -> items_bytes (its1 ++ its2) (bs1 ++ bs2).
Proof. induction 1 as [|it its b bs Hb _ IH]; [done|]. intros H2. rewrite <- app_assoc. cbn. constructor; auto. Qed.

Lemma items_one it b : item_bytes it b -> items_bytes [it] b.
Proof. intros Hb. rewrite <- (app_nil_r b). by repeat constructor. Qed.

Lemma item_nonempty it b : item_bytes it b -> (0 < List.length b)%nat.
Proof. destruct it; cbn; intros H; decompose [and ex] H; subst; cbn; lia. Qed.

(** ** The databases *)

Abbreviation adb := (gmap key val * gmap key Z)%type.

(** Loading, abstractly: the current database, the expire read before a key, and
    the databases. *)
Record lstate := { l_cur : nat; l_expire : Z; l_dbs : list adb }.

Section Apply.
(** Is a key with this expire left out? *)
Context (gone : Z -> bool).

Definition put_key (k s : list Z) (w : Z) (ke : adb) : adb := (<[k := VStr s]> (fst ke), if w =? -1 then snd ke else <[k := w]> (snd ke)).

Definition apply (it : item) (l : lstate) : lstate :=
  match it with
  | IExpire w => {| l_cur := l_cur l; l_expire := w; l_dbs := l_dbs l |}
  | ISelect j => {| l_cur := j; l_expire := l_expire l; l_dbs := l_dbs l |}
  | IPair k s => {| l_cur := l_cur l; l_expire := -1;
      l_dbs := if gone (l_expire l) then l_dbs l else alter (put_key k s (l_expire l)) (l_cur l) (l_dbs l) |}
  | _ => l
  end.

(** The items make sense: the database exists, and the key is not there yet. *)
Definition item_ok (it : item) (l : lstate) : Prop :=
  match it with
  | ISelect j => (j < List.length (l_dbs l))%nat
  | IPair k s => gone (l_expire l) = true \/ exists ke, l_dbs l !! l_cur l = Some ke /\ fst ke !! k = None
  | _ => True
  end.

Fixpoint items_ok (its : list item) (l : lstate) : Prop :=
  match its with [] => True | it :: its => item_ok it l /\ items_ok its (apply it l) end.

Definition apply_all (its : list item) (l : lstate) : lstate := fold_left (fun l it => apply it l) its l.

Lemma apply_all_app its its' l : apply_all (its ++ its') l = apply_all its' (apply_all its l).
Proof. apply fold_left_app. Qed.

Lemma items_ok_app its its' l : items_ok its l -> items_ok its' (apply_all its l) -> items_ok (its ++ its') l.
Proof. revert l. induction its as [|it its IH]; intros l; [done|]. intros [H1 H2] H3. split; [done|]. by apply IH. Qed.

Lemma length_apply it l : List.length (l_dbs (apply it l)) = List.length (l_dbs l).
Proof. destruct it; cbn; try done. destruct (gone _); [done|]. apply length_alter. Qed.

(** How many keys there are in all. *)
Definition total (dbs : list adb) : Z := foldr (fun ke n => Z.of_nat (base.size (fst ke)) + n) 0 dbs.
Definition pairs (its : list item) : Z := zlen (List.filter (fun it => match it with IPair _ _ => true | _ => false end) its).

Lemma total_cons ke dbs : total (ke :: dbs) = Z.of_nat (base.size (fst ke)) + total dbs.
Proof. done. Qed.

Lemma total_nonneg dbs : 0 <= total dbs.
Proof. induction dbs as [|ke dbs IH]; [done|]. rewrite total_cons. lia. Qed.

Lemma total_alter f j dbs : (forall ke, dbs !! j = Some ke -> Z.of_nat (base.size (fst (f ke))) <= Z.of_nat (base.size (fst ke)) + 1) ->
  total (alter f j dbs) <= total dbs + 1.
Proof.
  revert j. induction dbs as [|ke dbs IH]; intros j Hf; [done|]. destruct j as [|j].
  - change (alter f 0%nat (ke :: dbs)) with (f ke :: dbs). rewrite !total_cons. specialize (Hf ke eq_refl). lia.
  - change (alter f (S j) (ke :: dbs)) with (ke :: alter f j dbs). rewrite !total_cons. specialize (IH j Hf). lia.
Qed.

Lemma total_insert j dbs ke ke' : dbs !! j = Some ke ->
  total (<[j := ke']> dbs) = total dbs - Z.of_nat (base.size (fst ke)) + Z.of_nat (base.size (fst ke')).
Proof.
  revert j. induction dbs as [|ke0 dbs IH]; intros [|j] Hj; [done|done| |].
  - injection Hj as ->. change (<[0%nat := ke']> (ke :: dbs)) with (ke' :: dbs). rewrite !total_cons. lia.
  - change (<[S j := ke']> (ke0 :: dbs)) with (ke0 :: <[j := ke']> dbs). rewrite !total_cons, (IH j Hj). lia.
Qed.

Lemma alter_insert {A} (f : A -> A) (l : list A) j x : l !! j = Some x -> alter f j l = <[j := f x]> l.
Proof. revert j. induction l as [|y l IH]; intros [|j] Hj; [done|done|by injection Hj as ->|]. change (y :: alter f j l = y :: <[j := f x]> l). f_equal. by apply IH. Qed.

Lemma size_put_key k s w ke : Z.of_nat (base.size (fst (put_key k s w ke))) <= Z.of_nat (base.size (fst ke)) + 1.
Proof. cbn. destruct (fst ke !! k) as [v|] eqn:E; [rewrite map_size_insert_Some by eauto; lia|rewrite map_size_insert_None by done; lia]. Qed.

Lemma total_apply it l : total (l_dbs (apply it l)) <= total (l_dbs l) + pairs [it].
Proof.
  assert (Hp : pairs [it] = match it with IPair _ _ => 1 | _ => 0 end) by by destruct it.
  rewrite Hp. destruct it as [w|n|b|j|x y|k s|k s]; cbn [apply l_dbs]; try lia. destruct (gone _); [lia|].
  apply total_alter. intros ke _. apply size_put_key.
Qed.

Lemma pairs_cons it its : pairs (it :: its) = pairs [it] + pairs its.
Proof. unfold pairs. cbn. destruct it; cbn; rewrite ?zlen_cons, ?zlen_nil; lia. Qed.

Lemma total_lookup j dbs ke : dbs !! j = Some ke -> Z.of_nat (base.size (fst ke)) <= total dbs.
Proof.
  revert j. induction dbs as [|ke' dbs IH]; intros [|j] Hj; [done|done| |].
  - injection Hj as ->. rewrite total_cons. pose proof (total_nonneg dbs). lia.
  - specialize (IH j Hj). rewrite total_cons. lia.
Qed.
End Apply.

(** ** Servers and databases *)

Section Rep.
Context {D E C : Type} `{HD : DictIterLaws D oaddr} `{HE : DictIterLaws E Z} `{OutputLaws C}.
Context (si : Z -> oaddr) (acc : bool) (hist : list Z).
Abbreviation sv := (server D E C).
Implicit Types (s : sv) (R : gmultiset oaddr) (ms : list (gmap key oaddr)) (kvs : list adb).

Definition all_vals ms : gmultiset oaddr := foldr (fun m X => vals m ⊎ X) ∅ ms.
Definition others ms (j : nat) : gmultiset oaddr := all_vals (take j ms) ⊎ all_vals (drop (S j) ms).

Lemma all_vals_app ms ms' : all_vals (ms ++ ms') = all_vals ms ⊎ all_vals ms'.
Proof.
  induction ms as [|m ms IH]; [symmetry; apply gmultiset_disj_union_left_id|].
  change (vals m ⊎ all_vals (ms ++ ms') = (vals m ⊎ all_vals ms) ⊎ all_vals ms'). by rewrite IH, gmultiset_disj_union_assoc.
Qed.

Lemma all_vals_at ms j m : ms !! j = Some m -> all_vals ms = vals m ⊎ others ms j.
Proof.
  intros Hj. rewrite <- (take_drop_middle ms j m Hj) at 1. rewrite all_vals_app. unfold others.
  change (all_vals (m :: drop (S j) ms)) with (vals m ⊎ all_vals (drop (S j) ms)). multiset_solver.
Qed.

Lemma all_vals_put ms j m : (j < List.length ms)%nat -> all_vals (<[j := m]> ms) = vals m ⊎ others ms j.
Proof.
  intros Hj. rewrite insert_take_drop by done. rewrite all_vals_app. unfold others.
  change (all_vals (m :: drop (S j) ms)) with (vals m ⊎ all_vals (drop (S j) ms)). multiset_solver.
Qed.

Lemma Forall3_insert {X Y Z : Type} (P : X -> Y -> Z -> Prop) l k k' i x y z :
  Forall3 P l k k' -> P x y z -> Forall3 P (<[i := x]> l) (<[i := y]> k) (<[i := z]> k').
Proof. intros Hf Hp. revert i. induction Hf as [|x' y' z' l k k' Hp' Hf IH]; intros [|i]; cbn; constructor; auto. Qed.

(** The database [de] of a server with heap [h]. *)
Record db_rel (h : gmap oaddr robj) (de : D * E) (m : gmap key oaddr) (ke : adb) : Prop := {
  dr_dict : kd_repr (fst de) m;
  dr_exp : kd_repr (snd de) (snd ke);
  dr_kv k : fst ke !! k = m !! k ≫= val_at h;
  dr_sub k : is_Some (snd ke !! k) -> is_Some (m !! k)
}.

Record srepm ms s kvs R : Prop := {
  sr_dbs : Forall3 (db_rel (heap (sv_base s))) (sv_dbs s) ms kvs;
  sr_own : own si (heap (sv_base s)) (all_vals ms ⊎ R);
  sr_out : sink acc (out (sv_base s)) hist
}.

Definition srep s kvs R : Prop := exists ms, srepm ms s kvs R.

(** The database [j] as one of [Db]. *)
Definition a_of s (ke : adb) : astate := {| a_kv := fst ke; a_ex := snd ke; a_out := hist; a_dirty := dirty (sv_base s); a_log := log (sv_base s) |}.

Lemma srep_at ms s kvs R j ke : srepm ms s kvs R -> kvs !! j = Some ke ->
  exists de m, sv_dbs s !! j = Some de /\ ms !! j = Some m /\ db_rel (heap (sv_base s)) de m ke.
Proof. intros Hr Hj. destruct (Forall3_lookup_r _ _ _ _ j ke (sr_dbs _ _ _ _ Hr) Hj) as (de & m & ? & ? & ?). eauto. Qed.

Lemma srep_view ms s kvs R j ke de m : srepm ms s kvs R -> kvs !! j = Some ke -> sv_dbs s !! j = Some de -> ms !! j = Some m ->
  repm si acc m (view s de) (a_of s ke) (others ms j ⊎ R).
Proof.
  intros Hr Hj Hd Hm. destruct (srep_at ms s kvs R j ke Hr Hj) as (de' & m' & Hd' & Hm' & Hrel).
  assert (de' = de) as -> by congruence. assert (m' = m) as -> by congruence. destruct Hrel, Hr. split; try done.
  cbn. by rewrite (all_vals_at ms j m Hm), <- gmultiset_disj_union_assoc in sr_own0.
Qed.

Lemma srep_put ms s kvs R R' j m' st' A' : srepm ms s kvs R -> (j < List.length ms)%nat -> repm si acc m' st' A' (others ms j ⊎ R') ->
  heap st' = heap (sv_base s) -> a_out A' = hist ->
  srepm (<[j := m']> ms) (with_base s (base_of st') (<[j := (dict st', expires st')]> (sv_dbs s))) (<[j := (a_kv A', a_ex A')]> kvs) R'.
Proof.
  intros Hr Hj Hm Hh Ho. split; cbn [sv_dbs sv_base with_base base_of heap out].
  - rewrite Hh. apply Forall3_insert; [apply Hr|]. destruct Hm. split; try done. by rewrite <- Hh.
  - rewrite (all_vals_put ms j m' Hj), <- gmultiset_disj_union_assoc. apply Hm.
  - rewrite <- Ho. apply Hm.
Qed.
End Rep.
