(* ===== verification/RdbItems.v ===== *)
(** * The items of a saved file

    Which items a file holds for given databases, and what loading them gives:
    the keys that are still alive, with their values and their expires. *)
From Stdlib Require Import ZArith Lia String.
From stdpp Require Import base numbers list option gmap.
From S2P Require Import Prelude UtilNum Object ObjectHeap Keyspace DbSpec Rdb RdbProof RdbFile RdbSpec.

Implicit Types (k s : list Z) (ks : list (list Z)) (w : Z) (ke : adb) (kes : list adb) (its : list item) (gone : Z -> bool).

(** ** What is written *)

(** The access time of a value. *)
Definition is_access (it : item) : Prop := match it with IIdle _ | IFreq _ => True | _ => False end.
Definition is_aux (it : item) : Prop := match it with IAux _ _ => True | _ => False end.

Definition expire_of ke k : Z := default (-1) (snd ke !! k).
Definition expire_items w : list item := if w =? -1 then [] else [IExpire w].

(** The entries of one database, in the order of the keys. *)
Inductive entries_items ke : list (list Z) -> list item -> Prop :=
| en_nil : entries_items ke [] []
| en_cons k ks s acc its : fst ke !! k = Some (VStr s) -> Forall is_access acc -> entries_items ke ks its ->
    entries_items ke (k :: ks) ((expire_items (expire_of ke k) ++ acc ++ [IPair k s]) ++ its).

(** The databases from number [j] on; nothing for an empty one. *)
Inductive dbs_items : nat -> list adb -> list item -> Prop :=
| di_nil j : dbs_items j [] []
| di_empty j ke kes its : fst ke = ∅ -> dbs_items (S j) kes its -> dbs_items j (ke :: kes) its
| di_db j ke kes ks a b its its' : ks ≡ₚ (map_to_list (fst ke)).*1 -> entries_items ke ks its -> dbs_items (S j) kes its' ->
    dbs_items j (ke :: kes) ((ISelect j :: IResize a b :: its) ++ its').

Definition file_items kes its : Prop :=
  exists aux1 mid aux2, its = aux1 ++ mid ++ aux2 /\ Forall is_aux aux1 /\ dbs_items 0 kes mid /\ Forall is_aux aux2.

(** ** What is loaded *)

(** A key stays when its time has not come; an expire of -1 is none. *)
Definition alive gone ke : adb :=
  (filter (fun kv => gone (expire_of ke (fst kv)) = false) (fst ke),
   filter (fun kw => gone (snd kw) = false /\ snd kw <> -1) (snd ke)).

Definition no_keys : adb := (∅, ∅).

(** The keys of [ks] only. *)
Definition alive_in gone ke (ks : list (list Z)) : adb :=
  (filter (fun kv => fst kv ∈ ks) (fst (alive gone ke)), filter (fun kw => fst kw ∈ ks) (snd (alive gone ke))).

Lemma adb_eq ke1 ke2 : (forall k, fst ke1 !! k = fst ke2 !! k) -> (forall k, snd ke1 !! k = snd ke2 !! k) -> ke1 = ke2.
Proof. destruct ke1, ke2. intros H1 H2. f_equal; by apply map_eq. Qed.

(** The expires of a database are those of its keys. *)
Definition expires_ok ke : Prop := forall k, is_Some (snd ke !! k) -> is_Some (fst ke !! k).

Section Alive.
Context gone (Hgone : gone (-1) = false).

Lemma alive_kv ke k : fst (alive gone ke) !! k = if gone (expire_of ke k) then None else fst ke !! k.
Proof.
  cbn [alive fst]. rewrite map_lookup_filter. destruct (fst ke !! k) as [v|]; cbn; [|by destruct (gone (expire_of ke k))].
  destruct (gone (expire_of ke k)) eqn:E; [by rewrite option_guard_False by congruence|by rewrite option_guard_True by congruence].
Qed.

Lemma alive_ex ke k : snd (alive gone ke) !! k = if gone (expire_of ke k) || (expire_of ke k =? -1) then None else Some (expire_of ke k).
Proof.
  cbn [alive snd]. unfold expire_of. rewrite map_lookup_filter. destruct (snd ke !! k) as [w|]; cbn; [|by rewrite Hgone].
  destruct (gone w) eqn:E; cbn; [by rewrite option_guard_False by (intros []; congruence)|].
  destruct (w =? -1) eqn:Ew; [rewrite option_guard_False by (intros []; lia)|rewrite option_guard_True by (split; [done|lia])]; done.
Qed.

Lemma alive_in_kv ke (l : list (list Z)) k : fst (alive_in gone ke l) !! k = if decide (k ∈ l) then fst (alive gone ke) !! k else None.
Proof.
  cbn [alive_in fst]. rewrite map_lookup_filter. destruct (fst (alive gone ke) !! k) as [v|]; cbn; [|by destruct (decide _)].
  destruct (decide (k ∈ l)); [by rewrite option_guard_True|by rewrite option_guard_False].
Qed.

Lemma alive_in_ex ke (l : list (list Z)) k : snd (alive_in gone ke l) !! k = if decide (k ∈ l) then snd (alive gone ke) !! k else None.
Proof.
  cbn [alive_in snd]. rewrite map_lookup_filter. destruct (snd (alive gone ke) !! k) as [w|]; cbn; [|by destruct (decide _)].
  destruct (decide (k ∈ l)); [by rewrite option_guard_True|by rewrite option_guard_False].
Qed.

Lemma alive_in_nil ke : alive_in gone ke [] = no_keys.
Proof.
  apply adb_eq; intros k; [rewrite alive_in_kv|rewrite alive_in_ex]; by rewrite decide_False by apply not_elem_of_nil.
Qed.

Lemma alive_in_all ke ks : ks ≡ₚ (map_to_list (fst ke)).*1 -> expires_ok ke -> alive_in gone ke ks = alive gone ke.
Proof.
  intros Hks Hex. assert (Hin : forall k, is_Some (fst ke !! k) -> k ∈ ks).
  { intros k [v Hv]. rewrite Hks. apply list_elem_of_fmap. exists (k, v). split; [done|by apply elem_of_map_to_list]. }
  apply adb_eq; intros k; [rewrite alive_in_kv|rewrite alive_in_ex]; (destruct (decide (k ∈ ks)) as [|Hn]; [done|]).
  - rewrite alive_kv. destruct (gone (expire_of ke k)); [done|]. destruct (fst ke !! k) as [v|] eqn:E; [|done]. destruct Hn. apply Hin. by exists v.
  - rewrite alive_ex. destruct (snd ke !! k) as [w|] eqn:E; [destruct Hn; apply Hin, Hex; by exists w|]. unfold expire_of. rewrite E. cbn. by rewrite orb_true_r.
Qed.

Lemma alive_in_snoc ke ks k s : k ∉ ks -> fst ke !! k = Some (VStr s) ->
  alive_in gone ke (ks ++ [k]) = if gone (expire_of ke k) then alive_in gone ke ks else put_key k s (expire_of ke k) (alive_in gone ke ks).
Proof.
  intros Hnin Hk.
  pose proof (alive_in_kv ke) as Hkv. pose proof (alive_in_ex ke) as Hkx.
  assert (Hdec : forall (X : Type) (x y : option X) k', (if decide (k' ∈ ks ++ [k]) then x else y) = if decide (k' = k) then x else if decide (k' ∈ ks) then x else y).
  { intros X x y k'. destruct (decide (k' ∈ ks ++ [k])) as [Hi|Hi]; rewrite elem_of_app, list_elem_of_singleton in Hi;
      destruct (decide (k' = k)), (decide (k' ∈ ks)); done || (exfalso; tauto). }
  apply adb_eq; intros k'; [rewrite Hkv|rewrite Hkx]; rewrite Hdec.
  - destruct (gone (expire_of ke k)) eqn:Eg.
    + rewrite Hkv. destruct (decide (k' = k)) as [->|]; [|done]. by rewrite alive_kv, Eg, decide_False.
    + cbn [put_key fst]. destruct (decide (k' = k)) as [->|Hne]; [by rewrite alive_kv, Eg, lookup_insert_eq|]. by rewrite lookup_insert_ne, Hkv.
  - destruct (gone (expire_of ke k)) eqn:Eg.
    + rewrite Hkx. destruct (decide (k' = k)) as [->|]; [|done]. by rewrite alive_ex, Eg, decide_False.
    + cbn [put_key snd]. destruct (expire_of ke k =? -1) eqn:Ew.
      * rewrite Hkx. destruct (decide (k' = k)) as [->|]; [|done]. by rewrite alive_ex, Eg, Ew, decide_False.
      * destruct (decide (k' = k)) as [->|Hne]; [by rewrite alive_ex, Eg, Ew, lookup_insert_eq|]. by rewrite lookup_insert_ne, Hkx.
Qed.

(** ** Loading the items *)

Abbreviation ok := (items_ok gone).
Abbreviation all := (apply_all gone).

(** The items that change nothing. *)
Lemma inert_ok its l : Forall (fun it => is_access it \/ is_aux it) its -> ok its l /\ all its l = l.
Proof.
  intros Hf. revert l. induction Hf as [|it its Hit _ IH]; intros l; [done|]. assert (E : apply gone it l = l /\ item_ok gone it l) by (by destruct it, Hit).
  destruct E as [E Ho]. change (all (it :: its) l) with (all its (apply gone it l)). cbn [items_ok]. rewrite E. destruct (IH l). done.
Qed.

Lemma expire_ok w l : l_expire l = -1 -> ok (expire_items w) l /\ all (expire_items w) l = {| l_cur := l_cur l; l_expire := w; l_dbs := l_dbs l |}.
Proof. intros Hl. unfold expire_items. destruct (w =? -1) eqn:E; [|done]. apply Z.eqb_eq in E as ->. split; [done|]. destruct l. cbn in *. by subst. Qed.

Definition at_db (j : nat) (dbs : list adb) : lstate := {| l_cur := j; l_expire := -1; l_dbs := dbs |}.

(** [done] has been loaded into the database [j]. *)
Lemma entries_loaded ke ks its : entries_items ke ks its -> forall done pre post, NoDup (done ++ ks) ->
  let l := at_db (length pre) (pre ++ alive_in gone ke done :: post) in
  ok its l /\ all its l = at_db (length pre) (pre ++ alive_in gone ke (done ++ ks) :: post).
Proof.
  induction 1 as [|k ks s acc its Hk Hacc _ IH]; intros done pre post Hnd; cbn zeta; [by rewrite app_nil_r|].
  destruct (expire_ok (expire_of ke k) (at_db (length pre) (pre ++ alive_in gone ke done :: post))) as [Oe Ee]; [done|]. cbn [at_db l_cur l_dbs] in Ee.
  set (w := expire_of ke k) in *. set (l := at_db _ _) in *. set (l1 := {| l_cur := length pre; l_expire := w; l_dbs := _ |}) in *.
  destruct (inert_ok acc l1) as [Oa Ea]; [eapply Forall_impl; [exact Hacc|]; by left|].
  assert (Eks : done ++ k :: ks = (done ++ [k]) ++ ks) by (by rewrite <- app_assoc). rewrite Eks in Hnd |- *. assert (Hnin : k ∉ done) by (apply NoDup_app in Hnd as (Hnd & _); apply NoDup_app in Hnd as (_ & Hd & _); intros Hin; by apply (Hd k Hin), list_elem_of_singleton).
  assert (Hj : (pre ++ alive_in gone ke done :: post) !! length pre = Some (alive_in gone ke done)) by by apply list_lookup_middle.
  assert (Op : ok [IPair k s] l1).
  { split; [|done]. destruct (gone w) eqn:Eg; [by left|right]. exists (alive_in gone ke done). split; [exact Hj|]. by rewrite alive_in_kv, decide_False. }
  assert (Ep : all [IPair k s] l1 = at_db (length pre) (pre ++ alive_in gone ke (done ++ [k]) :: post)).
  { cbn [apply_all fold_left apply l1 l_cur l_expire l_dbs]. unfold at_db. f_equal. rewrite (alive_in_snoc ke done k s Hnin Hk). fold w. destruct (gone w); [done|].
    rewrite (alter_insert _ _ _ _ Hj), insert_app_r_alt by done. by rewrite Nat.sub_diag. }
  destruct (IH (done ++ [k]) pre post Hnd) as [Oi Ei]. cbn zeta in Oi, Ei. split.
  - repeat (apply items_ok_app); rewrite ?apply_all_app, ?Ee, ?Ea, ?Ep; done.
  - by rewrite !apply_all_app, Ee, Ea, Ep, Ei.
Qed.

Lemma dbs_loaded j kes its : dbs_items j kes its -> forall done (n cur : nat), length done = j -> (length kes <= n)%nat -> Forall expires_ok kes ->
  let l := at_db cur (done ++ replicate n no_keys) in
  ok its l /\ exists cur', all its l = at_db cur' (done ++ map (alive gone) kes ++ replicate (n - length kes) no_keys).
Proof.
  induction 1 as [j|j ke kes its He _ IH|j ke kes ks a b its its' Hks Hen _ IH]; intros done n cur Hd Hn Hex; cbn zeta.
  - rewrite Nat.sub_0_r. split; [done|]. by exists cur.
  - apply Forall_cons_1 in Hex as [Hk Hex]. cbn in Hn. destruct n as [|n]; [lia|]. assert (Ea : alive gone ke = no_keys).
    { rewrite <- (alive_in_all ke []) by (rewrite ?He, ?map_to_list_empty; done). apply alive_in_nil. }
    destruct (IH (done ++ [no_keys]) n cur) as [O (cur' & Ee)]; [rewrite length_app; cbn; lia|lia|done|]. rewrite <- !app_assoc in O; rewrite <- !app_assoc in Ee. split; [exact O|].
    exists cur'. cbn [map length Nat.sub]. rewrite Ea. exact Ee.
  - apply Forall_cons_1 in Hex as [Hk Hex]. cbn in Hn. destruct n as [|n]; [lia|].
    destruct (entries_loaded ke ks its Hen [] done (replicate n no_keys)) as [Oe Ee].
    { cbn [app]. rewrite Hks. apply NoDup_fst_map_to_list. }
    rewrite alive_in_nil in Oe, Ee. cbn [app] in Ee. rewrite (alive_in_all ke ks Hks Hk) in Ee.
    destruct (IH (done ++ [alive gone ke]) n (length done)) as [O (cur' & El)]; [rewrite length_app; cbn; lia|lia|done|]. rewrite <- !app_assoc in O; rewrite <- !app_assoc in El.
    assert (Ei : all (ISelect j :: IResize a b :: its) (at_db cur (done ++ replicate (S n) no_keys)) = at_db (length done) (done ++ alive gone ke :: replicate n no_keys)).
    { cbn [apply_all fold_left]. subst j. exact Ee. }
    split.
    + apply items_ok_app; [|rewrite Ei; exact O]. split; [cbn; rewrite length_app; cbn; lia|]. split; [done|]. subst j. exact Oe.
    + exists cur'. rewrite apply_all_app, Ei. exact El.
Qed.

(** A file loaded into empty databases. *)
Lemma file_loaded kes its (n : nat) : file_items kes its -> (length kes <= n)%nat -> Forall expires_ok kes ->
  ok its (at_db 0 (replicate n no_keys)) /\
  l_dbs (all its (at_db 0 (replicate n no_keys))) = map (alive gone) kes ++ replicate (n - length kes) no_keys.
Proof.
  intros (aux1 & mid & aux2 & -> & H1 & Hm & H2) Hn Hex. set (l := at_db _ _).
  destruct (inert_ok aux1 l) as [O1 E1]; [eapply Forall_impl; [exact H1|]; by right|].
  destruct (dbs_loaded 0 kes mid Hm [] n 0) as [Om (cur & Em)]; [done..|]. cbn [app] in Om, Em. fold l in Om, Em.
  match type of Em with _ = ?x => set (l2 := x) in * end.
  destruct (inert_ok aux2 l2) as [O2 E2]; [eapply Forall_impl; [exact H2|]; by right|]. split.
  - apply items_ok_app; [done|]. rewrite E1. apply items_ok_app; [done|]. by rewrite Em.
  - by rewrite !apply_all_app, E1, Em, E2.
Qed.
End Alive.

(** ** The number of keys of a file *)

Lemma pairs_app its its' : pairs (its ++ its') = pairs its + pairs its'.
Proof. unfold pairs. by rewrite List.filter_app, zlen_app. Qed.

Lemma pairs_inert its : Forall (fun it => is_access it \/ is_aux it) its -> pairs its = 0.
Proof. induction 1 as [|it its Hit _ IH]; [done|]. rewrite pairs_cons, IH. by destruct it, Hit. Qed.

Lemma pairs_entries ke ks its : entries_items ke ks its -> pairs its = zlen ks.
Proof.
  induction 1 as [|k ks s acc its Hk Hacc _ IH]; [done|]. rewrite !pairs_app, IH, zlen_cons, (pairs_inert acc) by (eapply Forall_impl; [exact Hacc|]; by left).
  unfold expire_items. change (pairs [IPair k s]) with 1. destruct (_ =? -1); [change (pairs []) with 0|change (pairs [IExpire _]) with 0]; lia.
Qed.

Lemma pairs_dbs j kes its : dbs_items j kes its -> pairs its = total kes.
Proof.
  induction 1 as [j|j ke kes its He _ IH|j ke kes ks a b its its' Hks Hen _ IH]; [done| |]; rewrite total_cons.
  - by rewrite IH, He, map_size_empty.
  - rewrite pairs_app, IH, (pairs_cons (ISelect j)), (pairs_cons (IResize a b)), (pairs_entries ke ks its Hen). change (pairs [ISelect j]) with 0. change (pairs [IResize a b]) with 0.
    assert (E : zlen ks = Z.of_nat (base.size (fst ke))) by (unfold zlen; rewrite Hks, length_fmap; by rewrite length_map_to_list). lia.
Qed.

Lemma pairs_file kes its : file_items kes its -> pairs its = total kes.
Proof.
  intros (aux1 & mid & aux2 & -> & H1 & Hm & H2). rewrite !pairs_app, (pairs_dbs 0 kes mid Hm), !pairs_inert; [lia|..]; (eapply Forall_impl; [eassumption|]; by right).
Qed.
