(* ===== verification/RdbLoad.v ===== *)
(** * Loading an RDB file

    Each turn of [rdbLoadRio] takes one item of the file and does to the databases
    of the server what [apply] says; the checksum is that of what was read. *)
From Stdlib Require Import ZArith Lia String.
From stdpp Require Import base numbers list option gmap gmultiset.
From S2P Require Import Prelude UtilNum Sds Object ObjectHeap Checksum Reply Keyspace DictIter Db DbSpec Rio Rdb RdbProof RdbPayload RdbFile RdbSpec.

Section Load.
Context {D E C : Type} `{HD : DictIterLaws D oaddr} `{HE : DictIterLaws E Z} `{OutputLaws C}.
Context (cfg : config) (rc : rdb_config) (si : Z -> oaddr) (junk : Z -> Z) (lua : list Z -> bool).
Context (acc : bool) (hist : list Z).
Abbreviation sv := (server D E C).
Abbreviation st := (dbst D E C).
Abbreviation srepm := (srepm si acc hist).
Implicit Types (s : sv) (R : gmultiset oaddr) (ms : list (gmap key oaddr)) (kvs : list adb).

(** ** Lifting *)

Lemma wp_on_db {A} j (m : M st A) s de (Q : A -> sv -> Prop) : sv_dbs s !! j = Some de ->
  wp m (view s de) (fun x st' => Q x (with_base s (base_of st') (<[j := (dict st', expires st')]> (sv_dbs s)))) -> wp (on_db j m) s Q.
Proof. intros Hj (x & st' & Em & HQ). eexists x, _. split; [|exact HQ]. unfold on_db. rewrite Hj. cbn [mbind option_bind]. by rewrite Em. Qed.

Lemma wp_assoc {X A B G} (m : M X A) (f : A -> M X B) (g : B -> M X G) x Q : wp (bind (bind m f) g) x Q -> wp (bind m (fun y => bind (f y) g)) x Q.
Proof. intros (z & x' & Em & HQ). exists z, x'. split; [|done]. revert Em. unfold bind. by destruct (m x) as [[y x1]|]. Qed.

(** The same databases and heap. *)
Lemma srep_ext ms s s' kvs R : heap (sv_base s') = heap (sv_base s) -> out (sv_base s') = out (sv_base s) -> sv_dbs s' = sv_dbs s ->
  srepm ms s kvs R -> srepm ms s' kvs R.
Proof. intros Eh Eo Ed [P1 P2 P3]. split; by rewrite ?Eh, ?Eo, ?Ed. Qed.

(** The heap has changed, and kept the values. *)
Lemma srep_heap ms s s' kvs R R' : srepm ms s kvs R -> out (sv_base s') = out (sv_base s) -> sv_dbs s' = sv_dbs s ->
  own si (heap (sv_base s')) (all_vals ms ⊎ R') -> kept (heap (sv_base s)) (heap (sv_base s')) (all_vals ms) -> srepm ms s' kvs R'.
Proof.
  intros [P1 P2 P3] Eo Ed Hown Hk. split; [|done|by rewrite Eo]. rewrite Ed. clear P2 Hown Ed. revert Hk. induction P1 as [|de m ke dbs ms kvs Hrel _ IH]; intros Hk; [constructor|].
  change (all_vals (m :: ms)) with (vals m ⊎ all_vals ms) in Hk. constructor.
  - destruct Hrel as [Q1 Q2 Q3 Q4]. split; [done|done| |done]. apply (kv_kept (heap (sv_base s)) _ m ∅); [|done].
    rewrite gmultiset_disj_union_right_id. eapply kept_mono; [exact Hk|apply gmultiset_disj_union_subseteq_l].
  - apply IH. eapply kept_mono; [exact Hk|apply gmultiset_disj_union_subseteq_r].
Qed.

(** ** The stream *)

(** [rest] is left to be read, and [done] was read since the stream was [r0]. *)
Record at_stream (r0 : rio) s (read rest : list Z) : Prop := {
  as_rio : exists r, sv_rio s = Some r /\ rio_ok r /\ pos_ok r /\ input r = rest /\ summed r0 read r
}.

Lemma at_ext r0 s s' read rest : sv_rio s' = sv_rio s -> at_stream r0 s read rest -> at_stream r0 s' read rest.
Proof. intros Er [(r & Hr)]. split. exists r. by rewrite Er. Qed.

Lemma at_took r0 s s' read r bs r' rest : sv_rio s = Some r -> summed r0 read r -> sv_rio s' = Some r' -> took r bs r' -> input r' = rest ->
  at_stream r0 s' (read ++ bs) rest.
Proof. intros _ S1 E2 [_ S2 K2 P2] I2. split. exists r'. split_and!; try done. by eapply summed_trans. Qed.

Lemma wp_load {A} (m : M rio A) bs x ms s kvs R r0 read rest : loads m bs x -> srepm ms s kvs R -> at_stream r0 s read (bs ++ rest) ->
  wp (on_loader (on_rio m)) s (fun y s' => y = x /\ srepm ms s' kvs R /\ at_stream r0 s' (read ++ bs) rest).
Proof.
  intros Hl Hs [(r & Er & Hok & Hp & Hi & Hsum)]. destruct (Hl r rest Hok Hp Hi) as (r' & Em & T & I).
  eexists x, _. split; [unfold on_loader, on_rio; rewrite Er; cbn [mbind option_bind fst snd]; rewrite Em; reflexivity|]. split; [done|]. split.
  - by apply (srep_ext ms s).
  - by eapply at_took.
Qed.

(** A key: an object that is freed after use. *)
Lemma wp_load_string bs b ms s kvs R r0 read rest : str_bytes b bs -> srepm ms s kvs R -> at_stream r0 s read (bs ++ rest) ->
  wp (load_string cfg si junk) s (fun x s' => snd x = b /\ srepm ms s' kvs ({[+ fst x +]} ⊎ R) /\ at_stream r0 s' (read ++ bs) rest).
Proof.
  intros [_ Hl] Hs [(r & Er & Hok & Hp & Hi & Hsum)]. pose proof (sr_own _ _ _ _ _ _ _ Hs) as Hown.
  destruct (Hl junk si (values_shared cfg) RDB_LOAD_NONE r rest _ _ Hok Hp Hi Hown) as (x & r' & h' & Em & T & I & Hx).
  destruct x as [s'|o]; [by destruct Hx|]. destruct Hx as (_ & O1 & K1 & V1 & Hsds). destruct (Hsds eq_refl) as (ob & Eob & Es).
  unfold load_string. apply wp_bind. eexists _, _.
  split; [unfold on_loader; rewrite Er; cbn [mbind option_bind]; unfold rdbLoadStringObject; rewrite Em; reflexivity|].
  unfold loaded_sds. wp_gets. cbn [sv_base with_rio with_base with_heap_of heap fst snd]. rewrite Eob. cbn [mbind option_bind]. wp_lift Es. apply wp_ret. cbn [fst snd].
  split; [done|]. split; [|by eapply at_took]. eapply (srep_heap ms s); [exact Hs|done|done| |].
  - cbn [sv_base with_rio with_base with_heap_of heap]. by rewrite roots_mid.
  - cbn [sv_base with_rio with_base with_heap_of heap]. eapply kept_mono; [exact K1|apply gmultiset_disj_union_subseteq_l].
Qed.

(** A value. *)
Lemma wp_load_value bs b ms s kvs R r0 read rest : str_bytes b bs -> srepm ms s kvs R -> at_stream r0 s read (bs ++ rest) ->
  wp (on_loader (rdbLoadObject junk si (values_shared cfg) RDB_TYPE_STRING)) s (fun v s' => exists o, v = Some o /\
    srepm ms s' kvs ({[+ o +]} ⊎ R) /\ val_at (heap (sv_base s')) o = Some (VStr b) /\ at_stream r0 s' (read ++ bs) rest).
Proof.
  intros [_ Hl] Hs [(r & Er & Hok & Hp & Hi & Hsum)]. pose proof (sr_own _ _ _ _ _ _ _ Hs) as Hown.
  destruct (object_loads junk si (values_shared cfg) bs b Hl r rest _ _ Hok Hp Hi Hown) as (o & r' & h' & Em & T & I & O1 & K1 & V1).
  eexists _, _. split; [unfold on_loader; rewrite Er; cbn [mbind option_bind]; rewrite Em; reflexivity|]. exists o. split; [done|]. split; [|split; [done|by eapply at_took]].
  eapply (srep_heap ms s); [exact Hs|done|done| |].
  - cbn [sv_base with_rio with_base with_heap_of heap fst snd]. by rewrite roots_mid.
  - cbn [sv_base with_rio with_base with_heap_of heap fst snd]. eapply kept_mono; [exact K1|apply gmultiset_disj_union_subseteq_l].
Qed.

Lemma wp_release o ms s kvs R r0 read rest : srepm ms s kvs ({[+ o +]} ⊎ R) -> at_stream r0 s read rest ->
  wp (release o) s (fun _ s' => srepm ms s' kvs R /\ at_stream r0 s' read rest /\ kept (heap (sv_base s)) (heap (sv_base s')) (all_vals ms ⊎ R)).
Proof.
  intros Hs [(r & Er & Hok & Hp & Hi & Hsum)]. pose proof (sr_own _ _ _ _ _ _ _ Hs) as Hown. rewrite roots_mid in Hown.
  destruct (own_decr _ _ _ o Hown) as (h' & Ed & Hown' & Hk).
  eexists _, _. split; [unfold release, on_loader; rewrite Er; cbn [mbind option_bind]; unfold free_obj; cbn [snd]; rewrite Ed; reflexivity|]. split; [|split].
  - eapply (srep_heap ms s); [exact Hs|done|done|exact Hown'|]. eapply kept_mono; [exact Hk|apply gmultiset_disj_union_subseteq_l].
  - split. exists r. done.
  - exact Hk.
Qed.
Lemma wp_load_len n ms s kvs R r0 read rest : 0 <= n < 2 ^ 64 - 1 -> srepm ms s kvs R -> at_stream r0 s read (len_bytes n ++ rest) ->
  wp load_len s (fun y s' => y = n /\ srepm ms s' kvs R /\ at_stream r0 s' (read ++ len_bytes n) rest).
Proof.
  intros Hn Hs Ha. unfold load_len. wp_use (wp_load rdbLoadLen (len_bytes n) (false, n)); [apply read_len_loads; lia|exact Hs|exact Ha|].
  intros y s' (-> & Hs' & Ha'). cbn [snd]. rewrite (proj2 (Z.eqb_neq n RDB_LENERR)) by (unfold RDB_LENERR; lia). by apply wp_ret.
Qed.

Lemma time_loads rdbver w : in_s 64 w -> loads (rdbLoadMillisecondTime rdbver) (le_bytes 8 w) w.
Proof.
  intros Hw. unfold rdbLoadMillisecondTime, rdbLoadRaw. eapply loads_last.
  - eapply loads_last; [apply loads_rd'; [apply le_bytes_ok|done]|]. intros r rest Hok Hp Hi. exists r. split; [done|]. split; [by apply took_refl|done].
  - pose proof (le_signed 8 w ltac:(lia) Hw) as Es. change (8 * Z.of_nat 8) with 64 in Es. rewrite swrap_uwrap in Es by done. rewrite Es. apply loads_ret.
Qed.

(** ** The size of the databases *)

Lemma db_rel_size (h : gmap oaddr robj) (de : D * E) (m : gmap key oaddr) (ke : adb) : db_rel h de m ke -> (forall o, o ∈ vals m -> is_Some (h !! o)) -> base.size m = base.size (fst ke).
Proof.
  intros [_ _ Hkv _] Hin. rewrite <- !size_dom. f_equal. apply set_eq. intros k. rewrite !elem_of_dom, Hkv. destruct (m !! k) as [o|] eqn:Em; cbn; [|done].
  destruct (Hin o) as [ob Eob]; [apply elem_of_vals; eauto|]. unfold val_at. rewrite Eob. cbn. split; by eexists.
Qed.

Lemma all_vals_size ms s kvs R : srepm ms s kvs R -> Z.of_nat (base.size (all_vals ms)) = total kvs.
Proof.
  intros [P1 P2 _]. assert (Hin : forall o, o ∈ all_vals ms -> is_Some (heap (sv_base s) !! o)).
  { intros o Ho. apply (own_dom _ _ _ P2). apply gmultiset_elem_of_disj_union. by left. }
  clear P2. induction P1 as [|de m ke dbs ms kvs Hrel _ IH]; [done|]. change (all_vals (m :: ms)) with (vals m ⊎ all_vals ms) in *.
  rewrite gmultiset_size_disj_union, total_cons, size_vals, (db_rel_size _ _ _ _ Hrel).
  - rewrite Nat2Z.inj_add, IH; [done|]. intros o Ho. apply Hin, gmultiset_elem_of_disj_union. by right.
  - intros o Ho. apply Hin, gmultiset_elem_of_disj_union. by left.
Qed.

Lemma small_at ms s kvs R (j : nat) (ke : adb) n : srepm ms s kvs R -> kvs !! j = Some ke -> total kvs + Z.of_nat (base.size R) + n < 2 ^ 31 - 2 ->
  small (a_of hist s ke) (others ms j ⊎ R) n.
Proof.
  intros Hs Hj Ht. unfold small. cbn [a_of a_kv]. destruct (srep_at si acc hist ms s kvs R j ke Hs Hj) as (de & m & Hd & Hm & Hrel).
  pose proof (all_vals_size ms s kvs R Hs) as Ha. rewrite (all_vals_at ms j m Hm), gmultiset_size_disj_union, size_vals in Ha.
  rewrite gmultiset_size_disj_union. rewrite <- (db_rel_size _ _ _ _ Hrel); [lia|]. intros o Ho. apply (own_dom _ _ _ (sr_own _ _ _ _ _ _ _ Hs)).
  rewrite (all_vals_at ms j m Hm). apply gmultiset_elem_of_disj_union. left. apply gmultiset_elem_of_disj_union. by left.
Qed.

(** An operation of [Db] on one database, which leaves the heap alone. *)
Lemma wp_db_step {A} (j : nat) (m : M st A) ms s kvs R R' (ke : adb) (mj : gmap key oaddr) (de : D * E) (P : A -> gmap key oaddr -> astate -> Prop) : srepm ms s kvs R ->
  kvs !! j = Some ke -> sv_dbs s !! j = Some de -> ms !! j = Some mj ->
  wp m (view s de) (fun x st' => exists m' A', repm si acc m' st' A' (others ms j ⊎ R') /\ same_heap (view s de) st' /\ a_out A' = hist /\ P x m' A') ->
  wp (on_db j m) s (fun x s' => exists m' A', srepm (<[j := m']> ms) s' (<[j := (a_kv A', a_ex A')]> kvs) R' /\ P x m' A' /\
    heap (sv_base s') = heap (sv_base s) /\ sv_rio s' = sv_rio s /\ sv_lru s' = sv_lru s /\ (forall i, i <> j -> sv_dbs s' !! i = sv_dbs s !! i)).
Proof.
  intros Hs Hj Hd Hm Hw. apply (wp_on_db j m s de _ Hd). eapply wp_mono; [exact Hw|]. intros x st' (m' & A' & Hr & [Hh _] & Ho & HP).
  exists m', A'. split; [|split; [done|]].
  - apply (srep_put si acc hist ms s kvs R R'); [done|by eapply lookup_lt_Some|done|exact Hh|done].
  - cbn [with_base sv_base base_of heap sv_rio sv_lru sv_dbs]. split; [exact Hh|]. split; [done|]. split; [done|]. intros i Hi. by rewrite list_lookup_insert_ne by done.
Qed.

Lemma gmultiset_swap_mid (X Y Z : gmultiset oaddr) : X ⊎ (Y ⊎ Z) = Y ⊎ (X ⊎ Z).
Proof. multiset_solver. Qed.

(** The key and its value are added to the database [j]. *)
Lemma wp_add_pair ms s kvs R j ke k o v w : srepm ms s kvs ({[+ o +]} ⊎ R) -> kvs !! j = Some ke -> fst ke !! k = None ->
  val_at (heap (sv_base s)) o = Some v -> total kvs + Z.of_nat (base.size R) + 2 < 2 ^ 31 - 2 ->
  wp (on_db j (dbAdd cfg k o) ;; (if negb (w =? -1) then on_db j (setExpire (no_client cfg) k w) else ret tt)) s
    (fun _ s' => exists ms', srepm ms' s' (<[j := (<[k := v]> (fst ke), if w =? -1 then snd ke else <[k := w]> (snd ke))]> kvs) R /\
      heap (sv_base s') = heap (sv_base s) /\ sv_rio s' = sv_rio s /\ sv_lru s' = sv_lru s).
Proof.
  intros Hs Hj Hk Hv Ht. destruct (srep_at si acc hist ms s kvs _ j ke Hs Hj) as (de & m & Hd & Hm & Hrel).
  pose proof (srep_view si acc hist ms s kvs _ j ke de m Hs Hj Hd Hm) as Hr. rewrite gmultiset_swap_mid in Hr.
  assert (Hmk : m !! k = None) by by apply (rep_none si acc m (view s de) (a_of hist s ke) _ k Hr).
  assert (Hsmall : small (a_of hist s ke) (others ms j ⊎ R) 0).
  { pose proof (small_at ms s kvs _ j ke 0 Hs Hj) as Hsm. rewrite gmultiset_size_disj_union, gmultiset_size_singleton in Hsm.
    specialize (Hsm ltac:(lia)). unfold small in *. rewrite !gmultiset_size_disj_union in *. lia. }
  apply wp_bind. eapply wp_mono.
  { apply (wp_db_step j _ ms s kvs _ R ke m de (fun _ m' A' => m' = <[k := o]> m /\ A' = a_put cfg k v (a_of hist s ke)) Hs Hj Hd Hm).
    eapply wp_mono; [apply (wp_dbAdd cfg si acc m (view s de) (a_of hist s ke) _ k o v Hr Hmk Hv Hsmall)|].
    intros _ st' [Hr' Hh]. eexists _, _. split; [exact Hr'|]. split; [exact Hh|]. unfold a_put. cbn [a_kv a_of]. rewrite Hk. done. }
  intros _ s1 (m' & A' & Hs1 & [-> ->] & Hh1 & Er1 & El1 & _). unfold a_put in Hs1. cbn [a_kv a_of a_ex a_tell a_map] in Hs1.
  destruct (w =? -1) eqn:Ew; cbn [negb].
  { apply wp_ret. by eexists. }
  set (kvs1 := <[j := _]> kvs) in *. set (ke1 := (<[k := v]> ke.1, ke.2)) in *. assert (Hlt : (j < List.length kvs)%nat) by by eapply lookup_lt_Some.
  assert (Hj1 : kvs1 !! j = Some ke1) by by apply list_lookup_insert_eq.
  destruct (srep_at si acc hist _ s1 kvs1 _ j ke1 Hs1 Hj1) as (de1 & m1 & Hd1 & Hm1 & Hrel1).
  pose proof (srep_view si acc hist _ s1 kvs1 _ j ke1 de1 m1 Hs1 Hj1 Hd1 Hm1) as Hr1.
  assert (m1 = <[k := o]> m) as -> by (rewrite list_lookup_insert_eq in Hm1 by (by eapply lookup_lt_Some); congruence).
  eapply wp_mono.
  { apply (wp_db_step j _ _ s1 kvs1 _ R ke1 _ de1 (fun _ m' A' => A' = a_setExpire (no_client cfg) k w (a_of hist s1 ke1)) Hs1 Hj1 Hd1 Hm1).
    eapply wp_mono; [apply (wp_setExpire (no_client cfg) si acc _ _ (a_of hist s1 ke1) _ k w Hr1)|].
    - by rewrite lookup_insert_eq.
    - apply (small_at _ s1 kvs1 R j ke1 0 Hs1 Hj1). unfold kvs1. rewrite (total_insert j kvs ke ke1 Hj).
      cbn [ke1 fst]. rewrite map_size_insert_None by done. lia.
    - intros _ st' [Hr' Hh]. eexists _, _. split; [exact Hr'|]. split; [exact Hh|done]. }
  intros _ s2 (m' & A' & Hs2 & -> & Hh2 & Er2 & El2 & _). eexists. unfold a_setExpire, kvs1 in Hs2. cbn [a_kv a_ex a_tell a_map a_of] in Hs2.
  rewrite !list_insert_insert_eq in Hs2. split; [exact Hs2|]. split_and!; congruence.
Qed.
(** ** One turn *)

Section Turn.
Context (loading_aof : bool) (rdbver now lru_clock : Z).

(** A key is left out when a master loads a file and its time has come. *)
Definition gone (w : Z) : bool := negb (masterhost cfg) && negb loading_aof && negb (w =? -1) && (w <? now).

Definition lst (ls : load_state) kvs : lstate := {| l_cur := ld_db ls; l_expire := ld_expire ls; l_dbs := kvs |}.

(** A script that the interpreter does not accept makes the server exit. *)
Definition aux_ok (it : item) : Prop :=
  match it with IAux k v => strcasecmp_eq k (bytes_of "lua") = true -> lua v = true | _ => True end.

Definition turned (it : item) (bs : list Z) ls kvs R r0 (read rest : list Z) (x : option load_state) s' : Prop :=
  exists ls' ms', x = Some ls' /\ lst ls' (l_dbs (apply gone it (lst ls kvs))) = apply gone it (lst ls kvs) /\ ld_freq ls' <= 255 /\
    srepm ms' s' (l_dbs (apply gone it (lst ls kvs))) R /\ at_stream r0 s' (read ++ bs) rest.

Abbreviation turn ls := (load_turn cfg rc si junk lua ls loading_aof rdbver now lru_clock).

Ltac cbn_op := cbn [Z.eqb Pos.eqb RDB_OPCODE_AUX RDB_OPCODE_EXPIRETIME RDB_OPCODE_EXPIRETIME_MS RDB_OPCODE_FREQ RDB_OPCODE_IDLE RDB_OPCODE_EOF
  RDB_OPCODE_SELECTDB RDB_OPCODE_RESIZEDB RDB_OPCODE_MODULE_AUX RDB_TYPE_STRING].

(** The opcode has been read. *)
Lemma wp_opcode op bs ms s kvs R r0 read rest ls (k : Z -> M sv (option load_state)) Q : byte_ok op -> srepm ms s kvs R ->
  at_stream r0 s read ((op :: bs) ++ rest) ->
  (forall s', srepm ms s' kvs R -> at_stream r0 s' (read ++ [op]) (bs ++ rest) -> wp (k op) s' Q) ->
  turn ls = bind (on_loader (on_rio rdbLoadType)) k -> wp (turn ls) s Q.
Proof.
  intros Hop Hs Ha Hk ->. wp_use (wp_load rdbLoadType [op] op); [by apply type_loads|exact Hs|exact Ha|]. intros y s' (-> & Hs' & Ha'). by apply Hk.
Qed.

Lemma aux_field_ok rsi k v ms s kvs R r0 read rest : (strcasecmp_eq k (bytes_of "lua") = true -> lua v = true) -> srepm ms s kvs R -> at_stream r0 s read rest ->
  wp (aux_field lua rsi k v) s (fun _ s' => srepm ms s' kvs R /\ at_stream r0 s' read rest).
Proof.
  intros Hlua Hs Ha. unfold aux_field. destruct (_ =? 37); [by apply wp_ret|]. destruct (strcasecmp_eq k (bytes_of "repl-stream-db")); [by apply wp_ret|].
  destruct (strcasecmp_eq k (bytes_of "repl-id")); [by apply wp_ret|]. destruct (strcasecmp_eq k (bytes_of "repl-offset")); [by apply wp_ret|].
  destruct (strcasecmp_eq k (bytes_of "lua")) eqn:E1; [|by apply wp_ret]. rewrite Hlua by done. wp_gets. eexists _, _. split; [reflexivity|].
  split; [by apply (srep_ext ms s)|by (eapply at_ext; [|eassumption])].
Qed.

Lemma turn_aux k v bs ms s kvs R r0 read rest ls : item_bytes (IAux k v) bs -> aux_ok (IAux k v) -> srepm ms s kvs R -> at_stream r0 s read (bs ++ rest) ->
  ld_freq ls <= 255 -> wp (turn ls) s (turned (IAux k v) bs ls kvs R r0 read rest).
Proof.
  intros (kb & vb & Hk & Hv & ->) Hlua Hs Ha Hf. eapply (wp_opcode _ (kb ++ vb)); [|exact Hs|exact Ha| |reflexivity]; [by vm_compute|].
  intros s1 Hs1 Ha1. cbn_op.
  rewrite <- app_assoc in Ha1. wp_use (wp_load_string kb k ms s1 kvs R); [exact Hk|exact Hs1|exact Ha1|]. intros [ko ks] s2 (Ek & Hs2 & Ha2). cbn [fst snd] in *. subst ks.
  wp_use (wp_load_string vb v ms s2 kvs _); [exact Hv|exact Hs2|exact Ha2|]. intros [vo vs] s3 (Ev & Hs3 & Ha3). cbn [fst snd] in *. subst vs.
  apply wp_bind. eapply wp_mono; [by apply (aux_field_ok (ld_rsi ls) k v ms s3 kvs _ r0 _ rest Hlua Hs3 Ha3)|]. intros rsi s4 [Hs4 Ha4].
  rewrite gmultiset_swap_mid in Hs4. wp_use (wp_release ko ms s4 kvs _ r0); [exact Hs4|exact Ha4|]. intros _ s5 (Hs5 & Ha5 & _).
  wp_use (wp_release vo ms s5 kvs _ r0); [exact Hs5|exact Ha5|]. intros _ s6 (Hs6 & Ha6 & _). apply wp_ret.
  eexists _, ms. split; [reflexivity|]. split; [done|]. split; [done|]. split; [exact Hs6|]. by rewrite <- !app_assoc in Ha6.
Qed.

Lemma turn_resize a b bs ms s kvs R r0 read rest ls : item_bytes (IResize a b) bs -> (ld_db ls < List.length kvs)%nat -> srepm ms s kvs R -> at_stream r0 s read (bs ++ rest) ->
  ld_freq ls <= 255 -> wp (turn ls) s (turned (IResize a b) bs ls kvs R r0 read rest).
Proof.
  intros (Hab & Hbb & ->) Hj Hs Ha Hf. eapply (wp_opcode _ (len_bytes a ++ len_bytes b)); [|exact Hs|exact Ha| |reflexivity]; [by vm_compute|].
  intros s1 Hs1 Ha1. cbn_op.
  rewrite <- app_assoc in Ha1. wp_use (wp_load_len a ms s1 kvs R r0); [lia|exact Hs1|exact Ha1|]. intros y s2 (-> & Hs2 & Ha2).
  wp_use (wp_load_len b ms s2 kvs R r0); [lia|exact Hs2|exact Ha2|]. intros y s3 (-> & Hs3 & Ha3).
  destruct (lookup_lt_is_Some_2 kvs (ld_db ls) Hj) as [ke Hke]. assert (Hkid : <[ld_db ls := (fst ke, snd ke)]> kvs = kvs) by (destruct ke; by apply list_insert_id).
  assert (Hexp : forall (m : M st unit) ms s, srepm ms s kvs R -> at_stream r0 s ((read ++ [RDB_OPCODE_RESIZEDB]) ++ len_bytes a ++ len_bytes b) rest ->
    (forall mj st A, repm si acc mj st A (others ms (ld_db ls) ⊎ R) -> wp m st (fun _ st' => repm si acc mj st' A (others ms (ld_db ls) ⊎ R) /\ same_heap st st')) ->
    wp (on_db (ld_db ls) m) s (fun _ s' => exists ms', srepm ms' s' kvs R /\ at_stream r0 s' ((read ++ [RDB_OPCODE_RESIZEDB]) ++ len_bytes a ++ len_bytes b) rest)).
  { intros m ms' s' Hs' Ha' Hm. destruct (srep_at si acc hist ms' s' kvs R _ ke Hs' Hke) as (de & mj & Hd & Hmj & _).
    pose proof (srep_view si acc hist ms' s' kvs R _ ke de mj Hs' Hke Hd Hmj) as Hr.
    eapply wp_mono; [apply (wp_db_step _ m ms' s' kvs R R ke mj de (fun _ m' A' => A' = a_of hist s' ke) Hs' Hke Hd Hmj)|].
    - eapply wp_mono; [exact (Hm mj _ _ Hr)|]. intros _ st' [Hr' Hh]. by eexists _, _.
    - intros _ s'' (m' & A' & Hs'' & -> & _ & Er & _). cbn [a_kv a_ex a_of] in Hs''. rewrite Hkid in Hs''. eexists. split; [exact Hs''|]. by (eapply at_ext; [|eassumption]). }
  apply wp_bind. eapply wp_mono; [apply (Hexp _ ms s3 Hs3)|].
  - by rewrite <- app_assoc in Ha3.
  - intros mj x A Hr. wp_gets. destruct (kd_expand_spec (dict x) mj a (rp_dict _ _ _ _ _ _ Hr)) as (d' & Ed & Hd'); [lia|]. wp_lift Ed.
    eexists _, _. split; [reflexivity|]. split; [|done]. destruct Hr. by split.
  - intros _ s4 (ms4 & Hs4 & Ha4). apply wp_bind. eapply wp_mono; [apply (Hexp _ ms4 s4 Hs4 Ha4)|].
    + intros mj x A Hr. wp_gets. destruct (kd_expand_spec (expires x) (a_ex A) b (rp_exp _ _ _ _ _ _ Hr)) as (d' & Ed & Hd'); [lia|]. wp_lift Ed.
      eexists _, _. split; [reflexivity|]. split; [|done]. destruct Hr. by split.
    + intros _ s5 (ms5 & Hs5 & Ha5). apply wp_ret. eexists _, ms5. split; [reflexivity|]. split; [done|]. split; [done|]. split; [exact Hs5|]. by rewrite <- app_assoc in Ha5.
Qed.
Lemma turn_simple it bs ms s kvs R r0 read rest ls : match it with IExpire _ | IIdle _ | IFreq _ | ISelect _ => True | _ => False end ->
  item_bytes it bs -> item_ok gone it (lst ls kvs) -> srepm ms s kvs R -> at_stream r0 s read (bs ++ rest) -> ld_freq ls <= 255 ->
  wp (turn ls) s (turned it bs ls kvs R r0 read rest).
Proof.
  intros Hit Hb Hi Hs Ha Hf. destruct it as [w|n|b|j|x y|k v|k v]; try done; cbn in Hb.
  - destruct Hb as [Hw ->]. eapply (wp_opcode _ (le_bytes 8 w)); [|exact Hs|exact Ha| |reflexivity]; [by vm_compute|]. intros s1 Hs1 Ha1. cbn_op.
    wp_use (wp_load (rdbLoadMillisecondTime rdbver) (le_bytes 8 w) w); [by apply time_loads|exact Hs1|exact Ha1|]. intros y s2 (-> & Hs2 & Ha2). apply wp_ret.
    eexists _, ms. split; [reflexivity|]. split; [done|]. split; [done|]. split; [exact Hs2|]. by rewrite <- app_assoc in Ha2.
  - destruct Hb as [Hn ->]. eapply (wp_opcode _ (len_bytes n)); [|exact Hs|exact Ha| |reflexivity]; [by vm_compute|]. intros s1 Hs1 Ha1. cbn_op.
    wp_use (wp_load_len n ms s1 kvs R r0); [done|exact Hs1|exact Ha1|]. intros y s2 (-> & Hs2 & Ha2). apply wp_ret.
    eexists _, ms. split; [reflexivity|]. split; [done|]. split; [done|]. split; [exact Hs2|]. by rewrite <- app_assoc in Ha2.
  - destruct Hb as [Hby ->]. eapply (wp_opcode _ [b]); [|exact Hs|exact Ha| |reflexivity]; [by vm_compute|]. intros s1 Hs1 Ha1. cbn_op.
    wp_use (wp_load (rd 1) [b] (Some [b])); [apply loads_rd'; [by apply bytes_ok_1|done]|exact Hs1|exact Ha1|]. intros y s2 (-> & Hs2 & Ha2). apply wp_ret.
    eexists _, ms. split; [reflexivity|]. split; [done|]. split; [cbn; unfold byte_ok in Hby; lia|]. split; [exact Hs2|]. by rewrite <- app_assoc in Ha2.
  - destruct Hb as [Hj ->]. eapply (wp_opcode _ (len_bytes (Z.of_nat j))); [|exact Hs|exact Ha| |reflexivity]; [by vm_compute|]. intros s1 Hs1 Ha1. cbn_op.
    wp_use (wp_load_len (Z.of_nat j) ms s1 kvs R r0); [lia|exact Hs1|exact Ha1|]. intros y s2 (-> & Hs2 & Ha2). wp_gets.
    pose proof (Forall3_length_lr _ _ _ _ (sr_dbs _ _ _ _ _ _ _ Hs2)) as Hl. cbn in Hi. rewrite geb_false by (unfold zlen; lia). apply wp_ret. rewrite Nat2Z.id.
    eexists _, ms. split; [reflexivity|]. split; [done|]. split; [done|]. split; [exact Hs2|]. by rewrite <- app_assoc in Ha2.
Qed.

(** The access time of the new value. *)
Lemma lru_set lru freq idle : freq <= 255 -> exists l, objectSetLRUOrLFU rc lru freq idle lru_clock = Some l.
Proof.
  intros Hf. unfold objectSetLRUOrLFU. destruct (negb _); [|destruct (idle >=? 0); by eexists]. destruct (freq >=? 0); [|by eexists]. rewrite (proj2 (Z.leb_le _ _)) by done. by eexists.
Qed.

Lemma turn_pair k v bs ms s kvs R r0 read rest ls : item_bytes (IPair k v) bs -> item_ok gone (IPair k v) (lst ls kvs) -> srepm ms s kvs R ->
  at_stream r0 s read (bs ++ rest) -> ld_freq ls <= 255 -> total kvs + Z.of_nat (base.size R) + 3 < 2 ^ 31 - 2 ->
  wp (turn ls) s (turned (IPair k v) bs ls kvs R r0 read rest).
Proof.
  intros (kb & vb & Hk & Hv & ->) Hi Hs Ha Hf Ht. eapply (wp_opcode _ (kb ++ vb)); [|exact Hs|exact Ha| |reflexivity]; [by vm_compute|].
  intros s1 Hs1 Ha1. cbn_op. apply wp_bind. unfold load_pair. rewrite <- app_assoc in Ha1.
  wp_use (wp_load_string kb k ms s1 kvs R); [exact Hk|exact Hs1|exact Ha1|]. intros [ko ks] s2 (Ek & Hs2 & Ha2). cbn [fst snd] in *. subst ks.
  wp_use (wp_load_value vb v ms s2 kvs _); [exact Hv|exact Hs2|exact Ha2|]. intros x s3 (o & -> & Hs3 & Hval & Ha3).
  rewrite <- app_assoc in Ha3. change (negb (masterhost cfg) && negb loading_aof && negb (ld_expire ls =? -1) && (ld_expire ls <? now)) with (gone (ld_expire ls)).
  assert (Hend : forall s4 ms4, srepm ms4 s4 (l_dbs (apply gone (IPair k v) (lst ls kvs))) R -> at_stream r0 s4 ((read ++ [RDB_TYPE_STRING]) ++ kb ++ vb) rest ->
    wp (ret (Some {| ld_db := ld_db ls; ld_expire := -1; ld_freq := -1; ld_idle := -1; ld_rsi := ld_rsi ls |})) s4 (turned (IPair k v) (RDB_TYPE_STRING :: kb ++ vb) ls kvs R r0 read rest)).
  { intros s4 ms4 Hs4 Ha4. apply wp_ret. eexists _, ms4. split; [reflexivity|]. split; [done|]. split; [cbn; lia|]. split; [exact Hs4|]. by rewrite <- app_assoc in Ha4. }
  destruct (gone (ld_expire ls)) eqn:Eg.
  - rewrite gmultiset_swap_mid in Hs3. wp_use (wp_release ko ms s3 kvs _ r0); [exact Hs3|exact Ha3|]. intros _ s4 (Hs4 & Ha4 & _).
    eapply wp_mono; [exact (wp_release o ms s4 kvs R r0 _ rest Hs4 Ha4)|]. intros _ s5 (Hs5 & Ha5 & _). apply (Hend s5 ms); [|done].
    cbn [apply lst l_expire l_dbs]. by rewrite Eg.
  - destruct Hi as [Hi|(ke & Hke & Hnone)]; [cbn in Hi; congruence|]. cbn [lst l_dbs l_cur] in Hke.
    apply wp_assoc, wp_bind. eapply wp_mono; [apply (wp_add_pair ms s3 kvs ({[+ ko +]} ⊎ R) (ld_db ls) ke k o (VStr v) (ld_expire ls) Hs3 Hke Hnone Hval)|].
    { rewrite gmultiset_size_disj_union, gmultiset_size_singleton. lia. }
    intros _ s4 (ms4 & Hs4 & Hh4 & Er4 & El4). wp_gets. destruct (lru_set (sv_lru s4 o) (ld_freq ls) (ld_idle ls) Hf) as [l El]. wp_lift El.
    apply wp_bind. eexists _, _. split; [reflexivity|].
    match type of Hs4 with RdbSpec.srepm _ _ _ _ _ ?kvs4 _ => set (kvs' := kvs4) in Hs4 end.
    eapply wp_mono; [apply (wp_release ko ms4 _ kvs' R r0 ((read ++ [RDB_TYPE_STRING]) ++ kb ++ vb) rest)|].
    + apply (srep_ext ms4 s4); [done..|exact Hs4].
    + by apply (at_ext r0 s3).
    + intros _ s5 (Hs5 & Ha5 & _). apply (Hend s5 ms4); [|done]. cbn [apply lst l_expire l_dbs l_cur]. rewrite Eg, (alter_insert _ kvs (ld_db ls) ke Hke). exact Hs5.
Qed.

Lemma wp_turn it bs ms s kvs R r0 read rest ls : item_bytes it bs -> aux_ok it -> item_ok gone it (lst ls kvs) -> (ld_db ls < List.length kvs)%nat ->
  srepm ms s kvs R -> at_stream r0 s read (bs ++ rest) -> ld_freq ls <= 255 -> total kvs + Z.of_nat (base.size R) + 3 < 2 ^ 31 - 2 ->
  wp (turn ls) s (turned it bs ls kvs R r0 read rest).
Proof.
  intros Hb Hx Hi Hj Hs Ha Hf Ht. destruct it as [w|n|b|j|x y|k v|k v].
  1-4: by eapply turn_simple. - by eapply turn_resize. - by eapply turn_aux. - by eapply turn_pair.
Qed.

Abbreviation loop fuel ls := (load_loop cfg rc si junk lua fuel ls loading_aof rdbver now lru_clock).

(** Every turn reads something: the fuel is enough. *)
Lemma wp_loop its bs (fuel : nat) ms s kvs R r0 read rest ls : items_bytes its bs -> Forall aux_ok its -> items_ok gone its (lst ls kvs) ->
  (ld_db ls < List.length kvs)%nat -> srepm ms s kvs R -> at_stream r0 s read (bs ++ RDB_OPCODE_EOF :: rest) -> ld_freq ls <= 255 ->
  total kvs + pairs its + Z.of_nat (base.size R) + 3 < 2 ^ 31 - 2 -> (List.length bs < fuel)%nat ->
  wp (loop fuel ls) s (fun _ s' => exists ms', srepm ms' s' (l_dbs (apply_all gone its (lst ls kvs))) R /\ at_stream r0 s' (read ++ bs ++ [RDB_OPCODE_EOF]) rest).
Proof.
  intros Hib. revert fuel ms s kvs read ls. induction Hib as [|it its b bs Hb Hib IH]; intros fuel ms s kvs read ls Hx Hi Hj Hs Ha Hf Ht Hfu; (destruct fuel as [|fuel]; [lia|]).
  - apply wp_bind. eapply (wp_opcode RDB_OPCODE_EOF []); [by vm_compute|exact Hs|exact Ha| |reflexivity]. intros s1 Hs1 Ha1. cbn_op. apply wp_ret. apply wp_ret. by exists ms.
  - apply Forall_cons_1 in Hx as [Hx1 Hx]. destruct Hi as [Hi1 Hi]. rewrite <- app_assoc in Ha. rewrite pairs_cons in Ht. pose proof (item_nonempty _ _ Hb).
    assert (Hp : 0 <= pairs [it]) by apply zlen_nonneg. assert (Hp' : 0 <= pairs its) by apply zlen_nonneg.
    apply wp_bind. eapply wp_mono; [eapply (wp_turn it b ms s kvs R r0 read); [done|done|done|done|done|exact Ha|done|lia]|].
    intros x s1 (ls1 & ms1 & -> & El & Hf1 & Hs1 & Ha1). pose proof (total_apply gone it (lst ls kvs)) as Hta.
    assert (Hj1 : (ld_db ls1 < List.length (l_dbs (apply gone it (lst ls kvs))))%nat).
    { rewrite length_apply. change (ld_db ls1) with (l_cur (lst ls1 (l_dbs (apply gone it (lst ls kvs))))). rewrite El.
      destruct it; try done. }
    eapply wp_mono; [apply (IH fuel ms1 s1 (l_dbs (apply gone it (lst ls kvs))) (read ++ b) ls1)|].
    + done. + by rewrite El. + done. + done. + done. + done.
    + cbn [lst l_dbs] in Hta. lia.
    + rewrite length_app in Hfu. lia.
    + intros y s2 (ms2 & Hs2 & Ha2). rewrite El in Hs2. exists ms2. split; [done|]. by rewrite <- !app_assoc in Ha2 |- *.
Qed.
End Turn.

(** ** The whole stream *)

(** The checksum at the end: none, or that of everything before it. *)
Definition trailer (body t : list Z) : Prop := t = le_bytes 8 0 \/ t = le_bytes 8 (crc64_ref 0 body).

Lemma wp_check_sum ms s kvs R r0 read t rest : srepm ms s kvs R -> at_stream r0 s read (t ++ rest) -> cksum r0 = 0 -> bytes_ok read -> trailer read t ->
  update_cksum r0 = Some (LoadProgress (rdb_checksum rc)) ->
  wp (check_sum rc RDB_VERSION) s (fun _ s' => srepm ms s' kvs R).
Proof.
  intros Hs [(r & Er & Hok & Hp & Hi & Hsum)] Hz Hb Ht Hfn. unfold check_sum. change (RDB_VERSION >=? 5) with true. cbn match.
  apply wp_bind, wp_gets. wp_lift Er.
  assert (Hc : exists c, t = le_bytes 8 c /\ 0 <= c < 2 ^ 64 /\ (c = 0 \/ c = crc64_ref 0 read)).
  { destruct Ht as [-> | ->]; [exists 0|exists (crc64_ref 0 read)]; (split; [done|]); (split; [|auto]); [done|by apply crc64_ref_range]. }
  destruct Hc as (c & -> & Hc & Hcc).
  wp_use (wp_load (rd 8) (le_bytes 8 c) (Some (le_bytes 8 c)) ms s kvs R r0 read rest); [apply loads_rd'; [apply le_bytes_ok|done]|exact Hs|by split; exists r|].
  intros y s1 (-> & Hs1 & _). destruct (rdb_checksum rc) eqn:Erc; [|by apply wp_ret]. cbn zeta. rewrite (le_val_small 8) by exact Hc.
  destruct (c =? 0) eqn:E0; [by apply wp_ret|]. destruct Hcc as [->|Hcc]; [done|]. pose proof (sm_sum _ _ _ Hsum) as Esum. unfold sum_of, sums in Esum. rewrite Hfn in Esum. cbn in Esum.
  rewrite Hz in Esum. rewrite Esum, <- Hcc, Z.eqb_refl. by apply wp_ret.
Qed.

Definition start_state kvs : lstate := {| l_cur := 0; l_expire := -1; l_dbs := kvs |}.

Lemma magic_ok : bytes_ok magic /\ zlen magic = 9 /\ take 5 magic = bytes_of "REDIS" /\ atoi (drop 5 magic) = RDB_VERSION.
Proof.
  split; [|by vm_compute]. assert (Em : magic = [82; 69; 68; 73; 83; 48; 48; 48; 57]) by reflexivity. rewrite Em. repeat constructor; unfold byte_ok; lia.
Qed.

Lemma items_bytes_ok its bs : items_bytes its bs -> bytes_ok bs.
Proof.
  induction 1 as [|it its b bs Hb _ IH]; [constructor|]. apply Forall_app. split; [|done]. unfold item_bytes in Hb.
  destruct it; decompose [and ex] Hb; subst; repeat match goal with Hx : str_bytes _ _ |- _ => destruct Hx as [Hx _] end;
    (constructor; [by vm_compute|]); try (apply Forall_app; split); try done; try (apply len_bytes_ok; lia); try apply le_bytes_ok. by apply bytes_ok_1.
Qed.

Lemma wp_rdbLoadRio rsi loading_aof its bs t rest ms s kvs R r : sv_rio s = Some r -> rio_ok r -> pos_ok r -> cksum r = 0 -> input r = magic ++ bs ++ RDB_OPCODE_EOF :: t ++ rest ->
  items_bytes its bs -> trailer (magic ++ bs ++ [RDB_OPCODE_EOF]) t -> Forall aux_ok its -> items_ok (gone loading_aof (mstime cfg)) its (start_state kvs) ->
  kvs <> [] -> 0 <= loading_process_events_interval_bytes rc -> srepm ms s kvs R -> total kvs + pairs its + Z.of_nat (base.size R) + 3 < 2 ^ 31 - 2 ->
  wp (rdbLoadRio cfg rc si junk lua rsi loading_aof) s (fun x s' => fst x = C_OK /\
    exists ms', srepm ms' s' (l_dbs (apply_all (gone loading_aof (mstime cfg)) its (start_state kvs))) R).
Proof.
  intros Er Hok Hp Hz Hin Hib Htr Hx Hi Hne Hint Hs Ht. unfold rdbLoadRio, with_stream. apply wp_bind. eexists _, _. split; [rewrite Er; cbn [mbind option_bind]; reflexivity|].
  set (r1 := {| io := io r; update_cksum := _; cksum := _; processed_bytes := _; max_processing_chunk := _ |}).
  assert (Hok1 : rio_ok r1) by (split; cbn; [apply Hok|done]).
  assert (Hs1 : srepm ms (with_rio s (Some r1)) kvs R) by by apply (srep_ext ms s).
  assert (Ha1 : at_stream r1 (with_rio s (Some r1)) [] (magic ++ bs ++ RDB_OPCODE_EOF :: t ++ rest)).
  { split. exists r1. split; [done|]. split; [done|]. split; [done|]. split; [done|apply summed_refl]. }
  destruct magic_ok as (Mb & Ml & M5 & Mv).
  wp_use (wp_load (rd 9) magic (Some magic) ms _ kvs R r1 [] (bs ++ RDB_OPCODE_EOF :: t ++ rest)); [by apply loads_rd'|exact Hs1|exact Ha1|].
  intros y s2 (-> & Hs2 & Ha2). rewrite M5, bool_decide_true by done. cbn [negb]. rewrite Mv. change ((RDB_VERSION <? 1) || (RDB_VERSION >? RDB_VERSION)) with false. cbn match.
  apply wp_bind, wp_gets. pose proof Ha2 as [(r2 & Er2 & _ & _ & Hi2 & _)]. wp_lift Er2. apply wp_bind.
  eapply wp_mono; [apply (wp_loop loading_aof RDB_VERSION (mstime cfg) (LRU_CLOCK cfg rc) its bs _ ms s2 kvs R r1 ([] ++ magic) (t ++ rest)); try done|].
  - destruct kvs; [done|cbn; lia]. - rewrite Hi2, length_app. cbn. lia.
  - intros rsi' s3 (ms3 & Hs3 & Ha3). wp_use (wp_check_sum ms3 s3 _ R r1 _ t rest Hs3 Ha3); [done| |exact Htr|done|].
    + rewrite app_nil_l. apply Forall_app; split; [done|apply Forall_app; split; [by eapply items_bytes_ok|by apply bytes_ok_1]].
    + intros y s4 Hs4. apply wp_ret. split; [done|]. by exists ms3.
Qed.
End Load.
