(* ===== verification/RdbSave.v ===== *)
(** * Saving an RDB file

    [rdbSaveRio] puts the items of the databases on the stream, or the stream
    fails because the file has no room; the databases are as they were. *)
From Stdlib Require Import ZArith Lia String.
From stdpp Require Import base numbers list option gmap gmultiset.
From S2P Require Import Prelude UtilNum Sds SdsRefine Object ObjectHeap Checksum Reply Keyspace DictIter Db DbSpec Rio Rdb RdbProof RdbPayload RdbFile RdbSpec RdbItems.

(** ** Writing items: the savers below the level of a database, each of which puts
    the bytes of known items, in at most so many octets, or the stream fails *)

Section Write.
Context (cfg : config) (rc : rdb_config) (bufsiz : Z) (junk : Z -> Z).
Implicit Types (m : M (option rio) Z) (its : list item) (k s : list Z) (n B : Z).

(** [m] puts the items and answers [n], in at most [B] octets. *)
Definition items_saved m its n B : Prop := exists bs, saves m bs n /\ items_bytes its bs /\ zlen bs <= B.

Lemma items_ret n : items_saved (ret n) [] n 0.
Proof. exists []. split; [apply saves_ret|]. split; [constructor|done]. Qed.

Lemma items_bind m (m2 : M (option rio) Z) its its' n n' B B' : items_saved m its n B -> n <> -1 -> items_saved m2 its' n' B' ->
  items_saved (or_return m (fun _ => m2)) (its ++ its') n' (B + B').
Proof.
  intros (bs & S1 & I1 & L1) Hn (bs' & S2 & I2 & L2). exists (bs ++ bs'). split; [by eapply saves_then|]. split; [by apply items_app|]. rewrite zlen_app. lia.
Qed.

Lemma items_mono m its n B B' : B <= B' -> items_saved m its n B -> items_saved m its n B'.
Proof. intros HB (bs & S1 & I1 & L1). exists bs. split_and!; [done|done|lia]. Qed.

Lemma items_if (b : bool) m its B : (b = true -> items_saved m its 1 B) -> 0 <= B ->
  exists n, n <> -1 /\ items_saved (if b then m else ret 0) (if b then its else []) n B.
Proof. intros Hm HB. destruct b; [by exists 1; split; [|apply Hm]|]. exists 0. split; [done|]. eapply items_mono; [exact HB|apply items_ret]. Qed.

(** The opcode and what follows. *)
Lemma items_opcode m op its bs n B : saves m bs n -> byte_ok op -> items_bytes its (op :: bs) -> zlen bs < B ->
  items_saved (or_return (rdbSaveType bufsiz op) (fun _ => m)) its n B.
Proof.
  intros Hm Hop Hb HB. exists (op :: bs). split; [|split; [done|rewrite zlen_cons; lia]]. apply (saves_then _ _ [op] bs 1 n); [by apply type_saves|done|done].
Qed.

(** ** One key *)

Lemma len_saved n : 0 <= n < 2 ^ 64 -> exists a : Z, a <> -1 /\ saves (rdbSaveLen bufsiz n) (len_bytes n) a /\ zlen (len_bytes n) <= 9.
Proof. intros Hn. pose proof (len_bytes_ok n Hn) as [_ Hl]. exists (zlen (len_bytes n)). split; [lia|]. split; [by apply rdbSaveLen_saves|lia]. Qed.

Lemma estimate_range lru : 0 <= estimateObjectIdleTime cfg rc lru / 1000 < 2 ^ 64 - 1.
Proof.
  assert (H0 : 0 <= estimateObjectIdleTime cfg rc lru < 2 ^ 64) by (unfold estimateObjectIdleTime; destruct (_ >=? _); apply uwrap_range; lia).
  split; [apply Z.div_pos; lia|]. apply Z.div_lt_upper_bound; lia.
Qed.

(** The expire, the access time and the pair. *)
Lemma pair_saved ob k s lru w : is_string ob s -> bytes_ok k -> zlen k < 2 ^ 31 -> in_s 64 w -> exists acc, Forall is_access acc /\
  items_saved (rdbSaveKeyValuePair cfg rc bufsiz junk k ob lru w) (expire_items w ++ acc ++ [IPair k s]) 1 (zlen k + zlen s + 60).
Proof.
  intros Hs Hk Hkl Hw. unfold rdbSaveKeyValuePair. cbn zeta. set (b1 := negb (Z.land _ MAXMEMORY_FLAG_LRU =? 0)). set (b2 := negb (Z.land _ MAXMEMORY_FLAG_LFU =? 0)).
  assert (He : exists n, n <> -1 /\ items_saved (if negb (w =? -1) then _ <~ rdbSaveType bufsiz RDB_OPCODE_EXPIRETIME_MS ;; rdbSaveMillisecondTime bufsiz w else ret 0) (expire_items w) n 9).
  { unfold expire_items. destruct (w =? -1); cbn [negb]; [exists 0; split; [done|]; by apply (items_mono _ _ _ 0); [|apply items_ret]|].
    exists 8. split; [done|]. eapply items_opcode; [apply (saves_write bufsiz (le_bytes 8 w)); [apply le_bytes_ok|done]|by vm_compute|by apply items_one|done]. }
  set (idle := estimateObjectIdleTime cfg rc lru / 1000) in *. pose proof (estimate_range lru) as Hi. fold idle in Hi.
  destruct (len_saved idle) as (n1 & Hn1 & Sl & Ll); [lia|].
  assert (H1 : exists n its, n <> -1 /\ Forall is_access its /\ items_saved (if b1 then _ <~ rdbSaveType bufsiz RDB_OPCODE_IDLE ;; rdbSaveLen bufsiz idle else ret 0) its n 10).
  { destruct b1; [|exists 0, []; split; [done|]; split; [done|]; by apply (items_mono _ _ _ 0); [|apply items_ret]].
    exists n1, [IIdle idle]. split; [done|]. split; [by constructor|]. eapply items_opcode; [exact Sl|by vm_compute|by apply items_one|lia]. }
  set (freq := u8 (LFUDecrAndReturn rc lru)).
  assert (H2 : exists n its, n <> -1 /\ Forall is_access its /\ items_saved (if b2 then _ <~ rdbSaveType bufsiz RDB_OPCODE_FREQ ;; rdbWriteRaw bufsiz [freq] else ret 0) its n 2).
  { assert (Hf : byte_ok freq) by (apply uwrap_range; lia). destruct b2; [|exists 0, []; split; [done|]; split; [done|]; by apply (items_mono _ _ _ 0); [|apply items_ret]].
    exists 1, [IFreq freq]. split; [done|]. split; [by constructor|]. eapply (items_opcode _ _ _ [freq] 1); [apply saves_write; [by apply bytes_ok_1|done]|by vm_compute|by apply items_one|done]. }
  assert (H3 : items_saved (_ <~ rdbSaveObjectType bufsiz ob ;; _ <~ rdbSaveStringObject bufsiz junk (rdb_compression rc) {| refcount := 1; enc := ORaw k |} ;;
      _ <~ rdbSaveObject bufsiz junk (rdb_compression rc) ob ;; ret 1) [IPair k s] 1 (zlen k + zlen s + 32)).
  { assert (Et : rdbSaveObjectType bufsiz ob = rdbSaveType bufsiz RDB_TYPE_STRING) by (destruct Hs as (Hv & _); unfold rdbSaveObjectType; by destruct (enc ob)).
    rewrite Et. destruct (raw_saved bufsiz junk (rdb_compression rc) k Hk Hkl) as (kb & [S1 B1 N1 L1 D1]). destruct (object_saved bufsiz junk (rdb_compression rc) ob s Hs) as (vb & [S2 B2 N2 L2 D2]).
    eapply (items_opcode _ _ _ (kb ++ vb)); [|by vm_compute|apply items_one; by exists kb, vb|rewrite zlen_app; lia].
    eapply saves_then; [exact S1|lia|]. eapply saves_last; [exact S2|lia|]. apply saves_ret. }
  destruct He as (n0 & Hn0 & S0), H1 as (m1 & i1 & Hm1 & F1 & S1), H2 as (m2 & i2 & Hm2 & F2 & S2). exists (i1 ++ i2). split; [by apply Forall_app|].
  eapply (items_mono _ _ _ (9 + (10 + (2 + (zlen k + zlen s + 32))))); [lia|]. eapply items_bind; [exact S0|done|]. rewrite <- app_assoc.
  eapply items_bind; [exact S1|done|]. by eapply items_bind.
Qed.

(** ** Auxiliary fields *)

Lemma aux_saved k s : bytes_ok k -> bytes_ok s -> zlen k < 2 ^ 31 -> zlen s < 2 ^ 31 ->
  exists n, n <> -1 /\ items_saved (rdbSaveAuxField rc bufsiz junk k s) [IAux k s] n (zlen k + zlen s + 32).
Proof.
  intros Hk Hs Hkl Hsl. destruct (raw_saved bufsiz junk (rdb_compression rc) k Hk Hkl) as (kb & [S1 B1 N1 L1 D1]). destruct (raw_saved bufsiz junk (rdb_compression rc) s Hs Hsl) as (vb & [S2 B2 N2 L2 D2]).
  exists (1 + zlen kb + zlen vb). split; [lia|]. exists (RDB_OPCODE_AUX :: kb ++ vb). split; [|split; [apply items_one; by exists kb, vb|rewrite zlen_cons, zlen_app; lia]].
  unfold rdbSaveAuxField. eapply (saves_bind _ _ [RDB_OPCODE_AUX]); [apply type_saves; by vm_compute|done|]. eapply saves_bind; [exact S1|lia|].
  eapply saves_last; [exact S2|lia|]. apply saves_ret.
Qed.

(** Fields that are not scripts. *)
Definition plain_aux (it : item) : Prop := match it with IAux k _ => strcasecmp_eq k (bytes_of "lua") = false | _ => False end.
Definition info_saved m B : Prop := exists n its, n <> -1 /\ Forall plain_aux its /\ items_saved m its n B.

Lemma info_ret n : n <> -1 -> info_saved (ret n) 0.
Proof. intros Hn. exists n, []. split; [done|]. split; [done|apply items_ret]. Qed.

Lemma info_bind m (m2 : M (option rio) Z) B B' : info_saved m B -> info_saved m2 B' -> info_saved (or_return m (fun _ => m2)) (B + B').
Proof.
  intros (n & its & Hn & F1 & S1) (n' & its' & Hn' & F2 & S2). exists n', (its ++ its'). split; [done|]. split; [by apply Forall_app|]. by eapply items_bind.
Qed.

Lemma c_text_ok s : bytes_ok s -> bytes_ok (c_text s) /\ zlen (c_text s) <= zlen s.
Proof.
  induction 1 as [|c s Hc _ [IH1 IH2]]; [done|]. cbn [c_text]. rewrite zlen_cons. pose proof (zlen_nonneg s). destruct (c =? 0); [split; [done|unfold zlen; cbn; lia]|]. split; [by constructor|]. rewrite zlen_cons. lia.
Qed.

Lemma dec_bytes v : in_s 64 v -> bytes_ok (dec v).
Proof.
  intros Hv. rewrite dec_sign. apply Forall_app. split; [destruct (v <? 0); repeat constructor; unfold byte_ok; lia|].
  assert (Hd : 0 <= Z.abs v < 10 ^ 20) by (unfold in_s in Hv; lia). eapply List.Forall_impl; [|by apply udec_digits]. intros c Hc. cbn in Hc. unfold byte_ok. lia.
Qed.

Definition field_name k : Prop := bytes_ok k /\ zlen k <= 20 /\ strcasecmp_eq k (bytes_of "lua") = false.

Lemma field_str k s : field_name k -> bytes_ok s -> zlen s < 2 ^ 31 -> info_saved (rdbSaveAuxFieldStrStr rc bufsiz junk k s) (zlen s + 52).
Proof.
  intros (Hk & Hl & Hn) Hs Hsl. destruct (c_text_ok s Hs) as [Ht Htl]. destruct (aux_saved k (c_text s)) as (n & Hne & Sa); [done|done|lia|lia|].
  exists n, [IAux k (c_text s)]. split; [done|]. split; [by constructor|]. eapply items_mono; [|exact Sa]. lia.
Qed.

Lemma field_int k v : field_name k -> in_s 64 v -> info_saved (rdbSaveAuxFieldStrInt rc bufsiz junk k v) 73.
Proof.
  intros (Hk & Hl & Hn) Hv. pose proof (dec_len_le v Hv) as Hd. destruct (aux_saved k (dec v)) as (n & Hne & Sa); [done|by apply dec_bytes|lia|lia|].
  exists n, [IAux k (dec v)]. split; [done|]. split; [by constructor|]. destruct Sa as (bs & S1 & I1 & L1). exists bs. split; [|split; [done|lia]].
  unfold rdbSaveAuxFieldStrInt. destruct (ll2string_fits (uninit junk LONG_STR_SIZE) LONG_STR_SIZE v Hv) as (rest & Er & _ & _); [rewrite zlen_uninit; unfold LONG_STR_SIZE; lia|].
  eapply saves_lift; [exact Er|]. cbn [fst snd]. eapply saves_lift; [apply (mread_split [] (dec v) (0 :: rest) 0 (zlen (dec v)) eq_refl eq_refl)|exact S1].
Qed.

(** What the server says of itself fits its types. *)
Record info_ok (rsi : option rdbSaveInfo) : Prop := {
  io_time : in_s 64 (time_now rc);
  io_memory : in_s 64 (used_memory rc);
  io_offset : in_s 64 (master_repl_offset rc);
  io_replid : bytes_ok (replid rc) /\ zlen (replid rc) = CONFIG_RUN_ID_SIZE;
  io_db i : rsi = Some i -> in_s 64 (repl_stream_db i)
}.

Lemma info_fields flags rsi : info_ok rsi -> info_saved (rdbSaveInfoAuxFields rc bufsiz junk flags rsi) 600.
Proof.
  intros [Ht Hm Ho [Hr Hl] Hd]. assert (Hname : forall k, bool_decide (Forall (fun c => 0 <= c < 256) k) && (zlen k <=? 20) && negb (strcasecmp_eq k (bytes_of "lua")) = true -> field_name k).
  { intros k Hk. rewrite !andb_true_iff, bool_decide_eq_true, negb_true_iff in Hk. destruct Hk as [[H1 H2%Z.leb_le] H3]. done. }
  unfold rdbSaveInfoAuxFields. cbn zeta. change 600 with (57 + (73 + (73 + (73 + (238 + (73 + 13)))))).
  apply info_bind; [by apply (field_str _ REDIS_VERSION); [apply Hname|repeat constructor|]|].
  apply info_bind; [by apply field_int; [apply Hname|]|]. apply info_bind; [by apply field_int; [apply Hname|]|]. apply info_bind; [by apply field_int; [apply Hname|]|].
  apply info_bind.
  - destruct rsi as [i|]; [|destruct (info_ret 0) as (n & its & Hn & F & S); [done|]; exists n, its; split; [done|]; split; [done|]; by apply (items_mono _ _ _ 0)].
    change 238 with (73 + (92 + 73)). apply info_bind; [apply field_int; [by apply Hname|by apply Hd]|]. apply info_bind; [|apply field_int; [by apply Hname|done]].
    change 92 with (CONFIG_RUN_ID_SIZE + 52). rewrite <- Hl. apply field_str; [by apply Hname|done|rewrite Hl; done].
  - apply info_bind; [apply field_int; [by apply Hname|by destruct (_ =? 0)]|]. destruct (info_ret 1) as (n & its & Hn & F & S); [done|].
    exists n, its. split; [done|]. split; [done|]. by apply (items_mono _ _ _ 0).
Qed.

Definition scripts_cost (bodies : list (list Z)) : Z := foldr (fun b n => zlen b + 35 + n) 0 bodies.

Lemma scripts_saved bodies : Forall (fun b => bytes_ok b /\ zlen b < 2 ^ 31) bodies ->
  items_saved (save_scripts rc bufsiz junk bodies) (map (IAux (bytes_of "lua")) bodies) 0 (scripts_cost bodies).
Proof.
  induction 1 as [|b bodies [Hb Hl] _ IH]; [apply items_ret|]. destruct (aux_saved (bytes_of "lua") b) as (n & Hn & Sa); [by apply (bool_decide_unpack (Forall (fun c => 0 <= c < 256) _))|done|done|done|].
  cbn [scripts_cost foldr map]. eapply items_mono; [|eapply (items_bind _ _ [IAux (bytes_of "lua") b]); [exact Sa|done|exact IH]]. change (zlen (bytes_of "lua")) with 3. unfold scripts_cost. lia.
Qed.
End Write.

(** What can be saved: strings under keys, with expires of 64 bits. *)
Record storable (ke : adb) : Prop := {
  so_key k : is_Some (fst ke !! k) -> bytes_ok k /\ zlen k < 2 ^ 31;
  so_value k v : fst ke !! k = Some v -> exists s, v = VStr s /\ bytes_ok s;
  so_expire k w : snd ke !! k = Some w -> in_s 64 w
}.

(** A bound on the octets of a database. *)
Definition entry_cost (ke : adb) (k : list Z) : Z := zlen k + 60 + match fst ke !! k with Some (VStr s) => zlen s | _ => 0 end.
Definition entries_cost (ke : adb) (ks : list (list Z)) : Z := foldr (fun k n => entry_cost ke k + n) 0 ks.
Definition dbs_cost (kes : list adb) : Z := foldr (fun ke n => 30 + entries_cost ke (map_to_list (fst ke)).*1 + n) 0 kes.

Lemma entry_cost_nonneg ke k : 0 <= entry_cost ke k.
Proof. unfold entry_cost. pose proof (zlen_nonneg k). destruct (fst ke !! k) as [[s|]|]; [pose proof (zlen_nonneg s)|..]; lia. Qed.

Lemma entries_cost_nonneg ke ks : 0 <= entries_cost ke ks.
Proof. induction ks as [|k ks IH]; [done|]. unfold entries_cost in *. cbn. pose proof (entry_cost_nonneg ke k). lia. Qed.

Lemma entries_cost_perm ke ks ks' : ks ≡ₚ ks' -> entries_cost ke ks = entries_cost ke ks'.
Proof. induction 1 as [|k ks ks' _ IH|k k' ks|ks1 ks2 ks3 _ IH1 _ IH2]; unfold entries_cost in *; cbn; lia. Qed.

Lemma dbs_cost_nonneg kes : 0 <= dbs_cost kes.
Proof. induction kes as [|ke kes IH]; [done|]. unfold dbs_cost in *. cbn. pose proof (entries_cost_nonneg ke (map_to_list (fst ke)).*1). lia. Qed.

Lemma getExpire_dict {D E C : Type} `{KeyDict D oaddr} `{KeyDict E Z} `{Output C} k (s : dbst D E C) w s' :
  getExpire k s = Some (w, s') -> dict s' = dict s \/ exists r, kd_find (dict s) k = Some (dict s', r).
Proof.
  unfold getExpire, assert_key, dict_find, bind, gets, lift, ret, put_expires, put_dict, fail. destruct (kd_size _ =? 0); [intros [= <- <-]; by left|].
  destruct (kd_find (expires s) k) as [[e' [de|]]|]; cbn [fst snd]; [|intros [= <- <-]; by left|done]. cbn [dict expires].
  destruct (kd_find (dict s) k) as [[d' [de'|]]|]; cbn [fst snd]; [|done|done]. cbn [expires]. destruct (kd_val _ _); [|done]. intros [= <- <-]. right. by eexists.
Qed.

Section Save.
Context {D E C : Type} `{HD : DictIterLaws D oaddr} `{HE : DictIterLaws E Z} `{OutputLaws C}.
Context (cfg : config) (rc : rdb_config) (si : Z -> oaddr) (bufsiz : Z) (junk : Z -> Z).
Context (acc : bool) (hist : list Z).
Abbreviation sv := (server D E C).
Abbreviation st := (dbst D E C).
Abbreviation srepm := (srepm si acc hist).
Implicit Types (s : sv) (R : gmultiset oaddr) (ms : list (gmap key oaddr)) (kvs kes : list adb).

(** No iterator is running in the databases. *)
Definition all_quiet (dbs : list (D * E)) : Prop := Forall (fun de => kd_quiet (fst de)) dbs.

(** Everything but the databases, the stream and the client's side. *)
Record same_server s s' : Prop := {
  ss_heap : heap (sv_base s') = heap (sv_base s);
  ss_lru : sv_lru s' = sv_lru s;
  ss_scripts : sv_scripts s' = sv_scripts s;
  ss_files : sv_files s' = sv_files s
}.

Lemma srv_refl s : same_server s s.
Proof. done. Qed.

Lemma srv_trans s s' s'' : same_server s s' -> same_server s' s'' -> same_server s s''.
Proof. intros [] []. split; congruence. Qed.

(** What [dictNext] and the like do to the database [j]. *)
Lemma wp_db_read {A} (j : nat) (m : M st A) ms s kvs R (ke : adb) (mj : gmap key oaddr) (de : D * E) (P : A -> st -> Prop) : srepm ms s kvs R ->
  kvs !! j = Some ke -> sv_dbs s !! j = Some de -> ms !! j = Some mj ->
  wp m (view s de) (fun x st' => repm si acc mj st' (a_of hist s ke) (others ms j ⊎ R) /\ same_heap (view s de) st' /\ P x st') ->
  wp (on_db j m) s (fun x s' => exists st', srepm ms s' kvs R /\ same_server s s' /\ sv_rio s' = sv_rio s /\
    sv_dbs s' = <[j := (dict st', expires st')]> (sv_dbs s) /\ P x st').
Proof.
  intros Hs Hj Hd Hm (x & st' & Em & Hr & [Hh _] & HP). eexists x, _. split; [unfold on_db; rewrite Hd; cbn [mbind option_bind]; rewrite Em; reflexivity|].
  exists st'. cbn [fst snd]. split; [|split; [by split|done]].
  pose proof (srep_put si acc hist ms s kvs R R j mj st' (a_of hist s ke) Hs) as Hp. rewrite (list_insert_id ms) in Hp by done. rewrite (list_insert_id kvs) in Hp by (by destruct ke).
  apply Hp; [by eapply lookup_lt_Some|done|done|done].
Qed.

(** ** The stream *)

(** A saver has put items, or the stream has failed. *)
Definition outcome (P : list item -> Prop) (B : Z) (r : rio) (x : Z) s' : Prop :=
  exists r', sv_rio s' = Some r' /\ rio_ok r' /\
    ((x <> -1 /\ exists its bs, P its /\ items_bytes its bs /\ zlen bs <= B /\ wrote r bs r') \/ (x = -1 /\ broke B r r')).

Lemma wp_saver (m : M (option rio) Z) its n B s r : items_saved m its n B -> n <> -1 -> sv_rio s = Some r -> rio_ok r ->
  wp (on_stream m) s (fun x s' => s' = with_rio s (sv_rio s') /\ (x = n \/ x = -1) /\ outcome (eq its) B r x s').
Proof.
  intros (bs & [_ Sv] & Hb & HB) Hn Er Hok. destruct (Sv r Hok) as (k & r' & E1 & Hk). eexists _, _.
  split; [unfold on_stream; rewrite Er, E1; reflexivity|]. split; [done|]. cbn [fst snd]. split; [destruct Hk as [[-> _]|[-> _]]; auto|].
  exists r'. split; [done|]. destruct Hk as [[-> W]|[-> Bk]].
  - split; [by apply W|]. left. split; [done|]. by exists its, bs.
  - split; [by apply Bk|]. right. split; [done|]. by eapply broke_mono.
Qed.

Lemma outcome_mono (P Q : list item -> Prop) B B' r x s' : (forall its, P its -> Q its) -> B <= B' -> outcome P B r x s' -> outcome Q B' r x s'.
Proof.
  intros HPQ HB (r' & Er & Hok & [[Hx (its & bs & HP & Hb & Hl & W)]|[-> Bk]]); exists r'; (split; [done|]); (split; [done|]).
  - left. split; [done|]. exists its, bs. split_and!; [by apply HPQ|done|lia|done].
  - right. split; [done|]. by eapply broke_mono.
Qed.

(** The items of two steps. *)
Lemma outcome_app (P Q : list item -> Prop) B B' r its bs r1 x s' : P its -> items_bytes its bs -> zlen bs <= B -> wrote r bs r1 ->
  outcome Q B' r1 x s' -> outcome (fun i => exists i1 i2, i = i1 ++ i2 /\ P i1 /\ Q i2) (B + B') r x s'.
Proof.
  intros HP Hb HB W (r' & Er & Hok & [[Hx (its' & bs' & HQ & Hb' & Hl & W')]|[-> Bk]]); exists r'; (split; [done|]); (split; [done|]).
  - left. split; [done|]. exists (its ++ its'), (bs ++ bs'). split; [by exists its, its'|]. split; [by apply items_app|]. rewrite zlen_app. split; [lia|]. by eapply wrote_trans.
  - right. split; [done|]. eapply broke_mono; [|by eapply wrote_broke]. lia.
Qed.

Lemma srep_rio ms s kvs R r : srepm ms s kvs R -> srepm ms (with_rio s r) kvs R.
Proof. intros [P1 P2 P3]. by split. Qed.

(** ** The entries of a database *)

Definition iterating s (j : nat) (b : bool) it ks : Prop := exists de, sv_dbs s !! j = Some de /\ kd_left b (fst de) it ks.

(** The other databases are as they were. *)
Definition others_same (j : nat) s s' : Prop := forall i, i <> j -> sv_dbs s' !! i = sv_dbs s !! i.

Lemma others_insert (j : nat) s s' de : sv_dbs s' = <[j := de]> (sv_dbs s) -> others_same j s s'.
Proof. intros E1 i Hi. by rewrite E1, list_lookup_insert_ne by done. Qed.

Lemma others_trans (j : nat) s s' s'' : others_same j s s' -> others_same j s' s'' -> others_same j s s''.
Proof. intros P1 P2 i Hi. by rewrite P2, P1 by done. Qed.

Lemma wp_db_next ms s kvs R (j : nat) (b : bool) it ks : srepm ms s kvs R -> is_Some (kvs !! j) -> iterating s j b it ks ->
  wp (db_next j it) s (fun x s' => srepm ms s' kvs R /\ same_server s s' /\ sv_rio s' = sv_rio s /\ others_same j s s' /\
    iterating s' j true (fst x) (tail ks) /\
    match ks with
    | [] => snd x = None
    | k :: _ => exists e de, snd x = Some e /\ sv_dbs s' !! j = Some de /\ kd_at (fst de) e k
    end).
Proof.
  intros Hs [ke Hj] (de & Hd & Hl). destruct (srep_at si acc hist ms s kvs R j ke Hs Hj) as (de' & mj & Hd' & Hm & Hrel).
  assert (de' = de) as -> by congruence. pose proof (srep_view si acc hist ms s kvs R j ke de mj Hs Hj Hd Hm) as Hr.
  destruct (kd_next_spec b (fst de) mj it ks (rp_dict _ _ _ _ _ _ Hr) Hl) as (d' & it' & r & En & Hd1 & Hk).
  eapply wp_mono; [apply (wp_db_read j _ ms s kvs R ke mj de (fun x st' => dict st' = d' /\ x = (it', r)) Hs Hj Hd Hm)|].
  - wp_gets. cbn [view dict]. wp_lift En. eexists _, _. split; [reflexivity|]. split; [destruct Hr; by split|]. split; [done|]. done.
  - intros x s' (st' & Hs' & Hsame & Er & Edb & Hdict & ->). cbn [fst snd]. split_and!; [done|done|done|by eapply others_insert|..].
    + exists (dict st', expires st'). split; [rewrite Edb; apply list_lookup_insert_eq; by eapply lookup_lt_Some|]. cbn [fst]. rewrite Hdict. destruct ks as [|k ks]; [tauto|]. by destruct Hk as (e & _ & _ & Hk).
    + destruct ks as [|k ks]; [tauto|]. destruct Hk as (e & -> & Hat & _). exists e, (dict st', expires st'). split; [done|].
      split; [rewrite Edb; apply list_lookup_insert_eq; by eapply lookup_lt_Some|]. cbn [fst]. by rewrite Hdict.
Qed.

(** The object under a key. *)
Lemma wp_entry ms s kvs R (j : nat) e k de ke : srepm ms s kvs R -> kvs !! j = Some ke -> storable ke -> sv_dbs s !! j = Some de -> kd_at (fst de) e k ->
  wp (on_db j (d <- gets dict ;; k <- lift (kd_key d e) ;; o <- lift (kd_val d e) ;; ob <- deref o ;; ret (k, o, ob))) s
    (fun x s' => exists o ob b, x = (k, o, ob) /\ s' = s /\ fst ke !! k = Some (VStr b) /\ is_string ob b).
Proof.
  intros Hs Hj Hst Hd Hat. destruct (srep_at si acc hist ms s kvs R j ke Hs Hj) as (de' & mj & Hd' & Hm & Hrel).
  assert (de' = de) as -> by congruence. pose proof (srep_view si acc hist ms s kvs R j ke de mj Hs Hj Hd Hm) as Hr.
  pose proof (kd_key_spec (fst de) mj e k (rp_dict _ _ _ _ _ _ Hr) Hat) as Ek. destruct (kd_val_spec (fst de) mj e k (rp_dict _ _ _ _ _ _ Hr) Hat) as [Ev [o Ho]].
  destruct (rep_val si acc mj (view s de) _ _ k o Hr Ho) as (v & Hv & Hkv). cbn [a_of a_kv] in Hkv. destruct (so_value ke Hst k v Hkv) as (b & -> & Hb).
  unfold val_at in Hv. destruct (heap (view s de) !! o) as [ob|] eqn:Eo; [|done]. cbn in Hv. injection Hv as Hv.
  eexists _, _. split.
  - unfold on_db. rewrite Hd. cbn [mbind option_bind]. unfold deref, bind, gets, lift, ret. cbn [view dict]. rewrite Ek, Ev, Ho. cbn [view heap] in Eo |- *. rewrite Eo. cbn [mbind option_bind fst snd dict expires]. reflexivity.
  - exists o, ob, b. split; [done|]. split; [|split; [done|split_and!; [done|by apply (own_data _ _ _ (sr_own _ _ _ _ _ _ _ Hs) o)|done]]].
    unfold with_base, base_of. cbn. rewrite list_insert_id by (by destruct de). clear. by destruct s as [[h [] [] ? ? ? ? ? ? ?] ? ? ? ? ? ? ?].
Qed.

Lemma wp_get_expire ms s kvs R (j : nat) k it ks ke : srepm ms s kvs R -> kvs !! j = Some ke -> iterating s j true it ks ->
  wp (on_db j (getExpire k)) s (fun w s' => srepm ms s' kvs R /\ same_server s s' /\ sv_rio s' = sv_rio s /\ others_same j s s' /\
    iterating s' j true it ks /\ w = expire_of ke k).
Proof.
  intros Hs Hj (de & Hd & Hl). destruct (srep_at si acc hist ms s kvs R j ke Hs Hj) as (de' & mj & Hd' & Hm & Hrel).
  assert (de' = de) as -> by congruence. pose proof (srep_view si acc hist ms s kvs R j ke de mj Hs Hj Hd Hm) as Hr.
  eapply wp_mono; [apply (wp_db_read j _ ms s kvs R ke mj de (fun w st' => w = expire_of ke k /\ kd_left true (dict st') it ks) Hs Hj Hd Hm)|].
  - destruct (wp_getExpire si acc mj (view s de) (a_of hist s ke) _ k Hr) as (w & st' & Ew & Hr' & Hh & Hw). exists w, st'. split; [done|]. split; [done|]. split; [done|]. split; [done|].
    destruct (getExpire_dict k (view s de) w st' Ew) as [Ed|(r & Ef)]; [by rewrite Ed|]. eapply kd_find_left; [apply (rp_dict _ _ _ _ _ _ Hr)|exact Hl|exact Ef].
  - intros w s' (st' & Hs' & Hsame & Er & Edb & -> & Hleft). split_and!; [done|done|done|by eapply others_insert| |done].
    exists (dict st', expires st'). split; [rewrite Edb; apply list_lookup_insert_eq; by eapply lookup_lt_Some|done].
Qed.

Lemma wp_entries ke (j : nat) ks : storable ke -> forall (fuel : nat) (b : bool) it ms s kvs R r, srepm ms s kvs R -> kvs !! j = Some ke ->
  iterating s j b it ks -> sv_rio s = Some r -> rio_ok r -> (List.length ks < fuel)%nat ->
  wp (save_entries cfg rc bufsiz junk fuel j it) s (fun x s' => srepm ms s' kvs R /\ same_server s s' /\ others_same j s s' /\
    (exists ks', iterating s' j true (snd x) ks') /\ outcome (entries_items ke ks) (entries_cost ke ks) r (fst x) s').
Proof.
  intros Hst. induction ks as [|k ks IH]; intros fuel b it ms s kvs R r Hs Hj Hit Er Hok Hf; (destruct fuel as [|fuel]; [lia|]); cbn [save_entries].
  - apply wp_bind. eapply wp_mono; [eapply (wp_db_next ms s kvs R j b it [] Hs); [by eexists|done]|]. intros [it1 e] s1 (Hs1 & S1 & Er1 & O1 & I1 & Ee). cbn [fst snd] in *. subst e.
    apply wp_ret. cbn [fst snd]. split_and!; [done|done|done|by exists []|]. exists r. split; [congruence|]. split; [done|]. left. split; [done|].
    exists [], []. split_and!; [constructor|constructor|done|by apply wrote_refl].
  - apply wp_bind. eapply wp_mono; [eapply (wp_db_next ms s kvs R j b it (k :: ks) Hs); [by eexists|done]|].
    intros [it1 e0] s1 (Hs1 & S1 & Er1 & O1 & I1 & (e & de & Ee & Hde & Hat)). cbn [fst snd tail] in *. subst e0.
    apply wp_bind. eapply wp_mono; [by apply (wp_entry ms s1 kvs R j e k de ke)|]. intros x s1' (o & ob & v & -> & -> & Hk & Hob).
    apply wp_bind. eapply wp_mono; [by apply (wp_get_expire ms s1 kvs R j k it1 ks ke)|]. intros w s2 (Hs2 & S2 & Er2 & O2 & I2 & ->). wp_gets.
    destruct (so_key ke Hst k ltac:(eauto)) as [Hkb Hkl]. assert (Hw : in_s 64 (expire_of ke k)).
    { unfold expire_of. destruct (snd ke !! k) as [w|] eqn:Ew; [by apply (so_expire ke Hst k w)|done]. }
    destruct (pair_saved cfg rc bufsiz junk ob k v (sv_lru s2 o) (expire_of ke k) Hob Hkb Hkl Hw) as (ac & Hac & Sp).
    apply wp_bind. eapply wp_mono; [apply (wp_saver _ _ 1 _ s2 r Sp); [done|congruence|done]|]. intros x s3 (E3 & Hx & (r3 & Er3 & Hok3 & Hout)).
    assert (Hs3 : srepm ms s3 kvs R) by (rewrite E3; by apply srep_rio).
    assert (S3 : same_server s s3) by (eapply srv_trans; [exact S1|]; eapply srv_trans; [exact S2|]; by rewrite E3).
    assert (O3 : others_same j s s3) by (eapply others_trans; [exact O1|]; eapply others_trans; [exact O2|]; by rewrite E3).
    assert (I3 : iterating s3 j true it1 ks) by by rewrite E3.
    assert (Hcost : entries_cost ke (k :: ks) = (zlen k + zlen v + 60) + entries_cost ke ks).
    { unfold entries_cost. cbn. unfold entry_cost. rewrite Hk. lia. }
    pose proof (entries_cost_nonneg ke ks). destruct Hout as [[Hne (its & bs & <- & Hb & Hl & W)]|[-> Bk]].
    + rewrite (proj2 (Z.eqb_neq _ _) Hne). eapply wp_mono; [apply (IH fuel true it1 ms s3 kvs R r3 Hs3 Hj I3 Er3 Hok3); cbn in Hf; lia|].
      intros y s4 (Hs4 & S4 & O4 & I4 & Hout4). split_and!; [done|by eapply srv_trans|by eapply others_trans|done|]. rewrite Hcost.
      eapply outcome_mono; [|done|eapply (outcome_app (eq _)); [reflexivity|exact Hb|exact Hl|exact W|exact Hout4]].
      intros i (i1 & i2 & -> & <- & Hi2). by eapply en_cons.
    + apply wp_ret. cbn [fst snd]. split_and!; [done|done|done|by exists ks|]. exists r3. split; [done|]. split; [done|]. right. split; [done|]. eapply broke_mono; [|exact Bk]. lia.
Qed.

(** ** One database *)

Lemma keys_perm (h : gmap oaddr robj) (de : D * E) (m : gmap key oaddr) (ke : adb) : db_rel h de m ke -> (forall o, o ∈ vals m -> is_Some (h !! o)) ->
  (map_to_list m).*1 ≡ₚ (map_to_list (fst ke)).*1.
Proof.
  intros [_ _ Hkv _] Hin. apply NoDup_Permutation; [apply NoDup_fst_map_to_list..|]. intros k. rewrite !list_elem_of_fmap. split.
  - intros ([k' o] & -> & Hk%elem_of_map_to_list). destruct (Hin o) as [ob Eo]; [apply elem_of_vals; eauto|].
    exists (k', val_of (enc ob)). split; [done|]. apply elem_of_map_to_list. rewrite Hkv, Hk. cbn. unfold val_at. by rewrite Eo.
  - intros ([k' v] & -> & Hk%elem_of_map_to_list). rewrite Hkv in Hk. destruct (m !! k') as [o|] eqn:Eo; [|done]. exists (k', o). split; [done|]. by apply elem_of_map_to_list.
Qed.

Lemma srep_in ms s kvs R (j : nat) m : srepm ms s kvs R -> ms !! j = Some m -> forall o, o ∈ vals m -> is_Some (heap (sv_base s) !! o).
Proof.
  intros Hs Hm o Ho. apply (own_dom _ _ _ (sr_own _ _ _ _ _ _ _ Hs)). rewrite (all_vals_at ms j m Hm). apply gmultiset_elem_of_disj_union. left. apply gmultiset_elem_of_disj_union. by left.
Qed.

Lemma wp_db_start ms s kvs R (j : nat) ke : srepm ms s kvs R -> kvs !! j = Some ke -> all_quiet (sv_dbs s) ->
  wp (db_start j) s (fun it s' => srepm ms s' kvs R /\ same_server s s' /\ sv_rio s' = sv_rio s /\ others_same j s s' /\
    exists ks, ks ≡ₚ (map_to_list (fst ke)).*1 /\ iterating s' j false it ks).
Proof.
  intros Hs Hj Hq. destruct (srep_at si acc hist ms s kvs R j ke Hs Hj) as (de & mj & Hd & Hm & Hrel).
  pose proof (srep_view si acc hist ms s kvs R j ke de mj Hs Hj Hd Hm) as Hr.
  pose proof (keys_perm _ _ _ _ Hrel (srep_in ms s kvs R j mj Hs Hm)) as Hperm.
  assert (Hqd : kd_quiet (fst de)) by (unfold all_quiet in Hq; rewrite Forall_lookup in Hq; by apply (Hq j)).
  destruct (kd_start_spec (fst de) mj (rp_dict _ _ _ _ _ _ Hr) Hqd) as (ks & Hks & Hl).
  eapply wp_mono; [apply (wp_db_read j _ ms s kvs R ke mj de (fun x st' => x = kd_start (fst de) /\ st' = view s de) Hs Hj Hd Hm)|].
  - wp_gets. by apply wp_ret.
  - intros x s' (st' & Hs' & Hsame & Er & Edb & -> & ->). split_and!; [done|done|done|by eapply others_insert|]. exists ks. split; [by rewrite Hks|].
    exists de. split; [rewrite Edb; cbn; rewrite list_lookup_insert_eq by (by eapply lookup_lt_Some); by destruct de|done].
Qed.

Lemma wp_db_release s0 ms s kvs R (j : nat) (b : bool) it ks : srepm ms s kvs R -> is_Some (kvs !! j) -> all_quiet (sv_dbs s0) -> others_same j s0 s -> iterating s j b it ks ->
  wp (db_release j it) s (fun _ s' => srepm ms s' kvs R /\ same_server s s' /\ sv_rio s' = sv_rio s /\ all_quiet (sv_dbs s')).
Proof.
  intros Hs [ke Hj] Hq Ho (de & Hd & Hl). destruct (srep_at si acc hist ms s kvs R j ke Hs Hj) as (de' & mj & Hd' & Hm & Hrel).
  assert (de' = de) as -> by congruence. pose proof (srep_view si acc hist ms s kvs R j ke de mj Hs Hj Hd Hm) as Hr.
  destruct (kd_release_spec b (fst de) mj it ks (rp_dict _ _ _ _ _ _ Hr) Hl) as [Hr' Hq'].
  eapply wp_mono; [apply (wp_db_read j _ ms s kvs R ke mj de (fun x st' => dict st' = kd_release (fst de) it) Hs Hj Hd Hm)|].
  - wp_gets. eexists _, _. split; [reflexivity|]. split; [destruct Hr; by split|]. done.
  - intros x s' (st' & Hs' & Hsame & Er & Edb & Ed). split_and!; [done|done|done|]. unfold all_quiet in *. rewrite Forall_lookup in Hq |- *. intros i d Hi. rewrite Edb in Hi.
    destruct (decide (i = j)) as [->|Hne].
    + rewrite list_lookup_insert_eq in Hi by (by eapply lookup_lt_Some). injection Hi as <-. cbn [fst]. by rewrite Ed.
    + rewrite list_lookup_insert_ne in Hi by done. apply (Hq i). by rewrite <- Ho.
Qed.

Lemma wp_sizes ms s kvs R (j : nat) ke : srepm ms s kvs R -> kvs !! j = Some ke ->
  wp (on_db j (d <- gets dict ;; e <- gets expires ;; ret (kd_size d, kd_size e))) s
    (fun x s' => srepm ms s' kvs R /\ same_server s s' /\ sv_rio s' = sv_rio s /\ sv_dbs s' = sv_dbs s /\ x = (Z.of_nat (base.size (fst ke)), Z.of_nat (base.size (snd ke)))).
Proof.
  intros Hs Hj. destruct (srep_at si acc hist ms s kvs R j ke Hs Hj) as (de & mj & Hd & Hm & Hrel).
  pose proof (srep_view si acc hist ms s kvs R j ke de mj Hs Hj Hd Hm) as Hr.
  eapply wp_mono; [apply (wp_db_read j _ ms s kvs R ke mj de (fun x st' => x = (Z.of_nat (base.size (fst ke)), Z.of_nat (base.size (snd ke))) /\ st' = view s de) Hs Hj Hd Hm)|].
  - wp_gets. wp_gets. apply wp_ret. split; [done|]. split; [done|]. split; [|done].
    rewrite (kd_size_spec _ _ (rp_dict _ _ _ _ _ _ Hr)), (kd_size_spec _ _ (rp_exp _ _ _ _ _ _ Hr)). by rewrite (rep_size si acc mj (view s de) _ _ Hr).
  - intros x s' (st' & Hs' & Hsame & Er & Edb & -> & ->). split_and!; try done. rewrite Edb. cbn. apply list_insert_id. by destruct de.
Qed.

(** The items of the database [j]. *)
Definition db_items (j : nat) ke its : Prop :=
  (fst ke = ∅ /\ its = []) \/ (exists ks a b its', ks ≡ₚ (map_to_list (fst ke)).*1 /\ entries_items ke ks its' /\ its = ISelect j :: IResize a b :: its').

Lemma head_saved (j : nat) a b : Z.of_nat j < 2 ^ 62 -> 0 <= a < 2 ^ 62 -> 0 <= b < 2 ^ 62 ->
  exists n, n <> -1 /\ items_saved (
      _ <~ rdbSaveType bufsiz RDB_OPCODE_SELECTDB ;;
      _ <~ rdbSaveLen bufsiz (Z.of_nat j) ;;
      _ <~ rdbSaveType bufsiz RDB_OPCODE_RESIZEDB ;;
      _ <~ rdbSaveLen bufsiz a ;;
      rdbSaveLen bufsiz b) [ISelect j; IResize a b] n 30.
Proof.
  intros Hj Ha Hb. destruct (len_saved bufsiz (Z.of_nat j)) as (nj & Hnj & Sj & Lj); [lia|]. destruct (len_saved bufsiz a) as (na & Hna & Sa & La); [lia|].
  destruct (len_saved bufsiz b) as (nb & Hnb & Sb & Lb); [lia|]. exists nb. split; [done|].
  exists ([RDB_OPCODE_SELECTDB] ++ len_bytes (Z.of_nat j) ++ [RDB_OPCODE_RESIZEDB] ++ len_bytes a ++ len_bytes b). split; [|split].
  - eapply saves_then; [apply type_saves; by vm_compute|done|]. eapply saves_then; [exact Sj|done|]. eapply saves_then; [apply type_saves; by vm_compute|done|]. by eapply saves_then.
  - rewrite (app_assoc [RDB_OPCODE_SELECTDB]). apply (items_app [ISelect j] _ [IResize a b]); by apply items_one.
  - rewrite !zlen_app. change (zlen [RDB_OPCODE_SELECTDB]) with 1. change (zlen [RDB_OPCODE_RESIZEDB]) with 1. lia.
Qed.

Lemma wp_save_db ms s kvs R (j : nat) ke r : srepm ms s kvs R -> kvs !! j = Some ke -> storable ke -> all_quiet (sv_dbs s) -> sv_rio s = Some r -> rio_ok r ->
  Z.of_nat j < 2 ^ 62 -> Z.of_nat (base.size (fst ke)) < 2 ^ 62 ->
  wp (save_db cfg rc bufsiz junk j) s (fun x s' => srepm ms s' kvs R /\ same_server s s' /\ all_quiet (sv_dbs s') /\
    outcome (db_items j ke) (30 + entries_cost ke (map_to_list (fst ke)).*1) r x s').
Proof.
  intros Hs Hj Hst Hq Er Hok Hjb Hsz. unfold save_db. pose proof (entries_cost_nonneg ke (map_to_list (fst ke)).*1) as Hcost.
  apply wp_bind. eapply wp_mono; [by apply (wp_sizes ms s kvs R j ke)|]. intros x s1 (Hs1 & S1 & Er1 & Ed1 & ->).
  destruct (_ =? 0) eqn:E0.
  { apply wp_ret. split_and!; [done|done|by rewrite Ed1|]. exists r. split; [congruence|]. split; [done|]. left. split; [done|]. exists [], []. split; [left|split; [constructor|split; [rewrite zlen_nil; lia|by apply wrote_refl]]].
    split; [|done]. apply map_size_empty_inv. lia. }
  assert (Hex : Z.of_nat (base.size (snd ke)) <= Z.of_nat (base.size (fst ke))).
  { destruct (srep_at si acc hist ms s kvs R j ke Hs Hj) as (de & mj & Hd & Hm & Hrel). pose proof (srep_view si acc hist ms s kvs R j ke de mj Hs Hj Hd Hm) as Hr.
    pose proof (ex_size si acc mj (view s de) _ _ Hr). pose proof (rep_size si acc mj (view s de) _ _ Hr) as Hrs. cbn [a_of a_kv a_ex] in *. lia. }
  rewrite <- Ed1 in Hq. apply wp_bind. eapply wp_mono; [by apply (wp_db_start ms s1 kvs R j ke)|]. intros it s2 (Hs2 & S2 & Er2 & O2 & ks & Hks & I2).
  destruct (head_saved j (Z.of_nat (base.size (fst ke))) (Z.of_nat (base.size (snd ke)))) as (n & Hn & Sh); [lia..|].
  apply wp_bind. eapply wp_mono; [apply (wp_saver _ _ n _ s2 r Sh); [done|congruence|done]|]. intros x s3 (E3 & Hx & (r3 & Er3 & Hok3 & Hout)).
  assert (Hs3 : srepm ms s3 kvs R) by (rewrite E3; by apply srep_rio).
  assert (S3 : same_server s s3) by (eapply srv_trans; [exact S1|]; eapply srv_trans; [exact S2|]; by rewrite E3).
  assert (O3 : others_same j s1 s3) by (eapply others_trans; [exact O2|]; by rewrite E3).
  assert (I3 : iterating s3 j false it ks) by by rewrite E3.
  destruct Hout as [[Hne (its & bs & <- & Hb & Hl & W)]|[-> Bk]].
  - rewrite (proj2 (Z.eqb_neq _ _) Hne).
    apply wp_bind. eapply wp_mono; [apply (wp_entries ke j ks Hst _ false it ms s3 kvs R r3 Hs3 Hj I3 Er3 Hok3)|].
    { rewrite Hks, length_fmap, length_map_to_list. lia. }
    intros y s4 (Hs4 & S4 & O4 & (ks4 & I4) & Hout4). apply wp_bind. eapply wp_mono; [apply (wp_db_release s1 ms s4 kvs R j true (snd y) ks4 Hs4); [by eexists|done|by eapply others_trans|done]|].
    intros _ s5 (Hs5 & S5 & Er5 & Q5). apply wp_ret. split_and!; [done|eapply srv_trans; [exact S3|]; by eapply srv_trans|done|].
    assert (Hout5 : outcome (entries_items ke ks) (entries_cost ke ks) r3 (fst y) s5).
    { destruct Hout4 as (r4 & Er4 & Ho4). exists r4. split; [congruence|done]. }
    rewrite <- (entries_cost_perm ke _ _ Hks). eapply outcome_mono; [|done|eapply (outcome_app (eq _)); [reflexivity|exact Hb|exact Hl|exact W|exact Hout5]].
    intros i (i1 & i2 & -> & <- & Hi2). right. eexists ks, _, _, i2. split_and!; [done|done|reflexivity].
  - apply wp_bind. eapply wp_mono; [apply (wp_db_release s1 ms s3 kvs R j false it ks Hs3); [by eexists|done|done|done]|].
    intros _ s5 (Hs5 & S5 & Er5 & Q5). apply wp_ret. split_and!; [done|by eapply srv_trans|done|]. exists r3. split; [congruence|]. split; [done|]. right. split; [done|]. eapply broke_mono; [|exact Bk]. lia.
Qed.

Lemma wp_save_dbs (kes pre : list adb) ms s R r : srepm ms s (pre ++ kes) R -> Forall storable kes -> all_quiet (sv_dbs s) -> sv_rio s = Some r -> rio_ok r ->
  Z.of_nat (List.length (pre ++ kes)) < 2 ^ 62 -> Forall (fun ke : adb => Z.of_nat (base.size (fst ke)) < 2 ^ 62) kes ->
  wp (save_dbs cfg rc bufsiz junk (List.length kes) (List.length pre)) s (fun x s' => srepm ms s' (pre ++ kes) R /\ same_server s s' /\ all_quiet (sv_dbs s') /\
    outcome (dbs_items (List.length pre) kes) (dbs_cost kes) r x s').
Proof.
  revert pre s r. induction kes as [|ke kes IH]; intros pre s r Hs Hst Hq Er Hok Hlen Hsz; cbn [save_dbs List.length].
  { apply wp_ret. split_and!; [done|done|done|]. exists r. split; [done|]. split; [done|]. left. split; [done|]. exists [], []. split_and!; [constructor|constructor|done|by apply wrote_refl]. }
  apply Forall_cons_1 in Hst as [Hst1 Hst]. apply Forall_cons_1 in Hsz as [Hsz1 Hsz]. assert (Hj : (pre ++ ke :: kes) !! List.length pre = Some ke) by by apply list_lookup_middle.
  pose proof (dbs_cost_nonneg kes). apply wp_bind. eapply wp_mono; [apply (wp_save_db ms s _ R (List.length pre) ke r Hs Hj Hst1 Hq Er Hok); [rewrite length_app in Hlen; lia|done]|].
  intros x s1 (Hs1 & S1 & Q1 & (r1 & Er1 & Hok1 & [[Hne (its & bs & Hi & Hb & Hl & W)]|[-> Bk]])).
  - rewrite (proj2 (Z.eqb_neq _ _) Hne). assert (Eapp : pre ++ ke :: kes = (pre ++ [ke]) ++ kes) by by rewrite <- app_assoc.
    assert (Elen : S (List.length pre) = List.length (pre ++ [ke])) by (rewrite length_app; cbn; lia). rewrite Elen, Eapp in *.
    eapply wp_mono; [by apply (IH (pre ++ [ke]) s1 r1)|]. intros y s2 (Hs2 & S2 & Q2 & Hout). split_and!; [done|by eapply srv_trans|done|].
    eapply outcome_mono; [|done|eapply (outcome_app (db_items (List.length pre) ke)); [exact Hi|exact Hb|exact Hl|exact W|exact Hout]].
    intros i (i1 & i2 & -> & Hi1 & Hi2). rewrite <- Elen in Hi2. destruct Hi1 as [[He ->]|(ks & a & b & its' & Hks & Hen & ->)]; [by apply di_empty|by eapply di_db].
  - apply wp_ret. split_and!; [done|done|done|]. exists r1. split; [done|]. split; [done|]. right. split; [done|]. eapply broke_mono; [|exact Bk]. unfold dbs_cost. cbn. fold (dbs_cost kes). lia.
Qed.
End Save.
