(* ===== verification/RdbCorrect.v ===== *)
(** * Saving and loading RDB files: what is promised

    The stream as a whole, the file on the disk, and the databases of a server
    that loads it. *)
From Stdlib Require Import ZArith Lia String.
From stdpp Require Import base numbers list option gmap gmultiset.
From S2P Require Import Prelude UtilNum Sds Object ObjectHeap Checksum Reply Keyspace DictIter Db DbSpec Rio Rdb RdbProof RdbPayload RdbFile RdbSpec RdbItems RdbLoad RdbSave.

(** The scripts of a file are those of the server. *)
Definition script_of (scripts : list (list Z)) (it : item) : Prop :=
  match it with IAux k v => strcasecmp_eq k (bytes_of "lua") = true -> v ∈ scripts | _ => True end.

(** [data] is a file for the databases. *)
Definition rdb_bytes (kes : list adb) (scripts : list (list Z)) (data : list Z) : Prop :=
  exists its bs t, file_items kes its /\ Forall (script_of scripts) its /\ items_bytes its bs /\
    trailer (magic ++ bs ++ [RDB_OPCODE_EOF]) t /\ data = magic ++ bs ++ RDB_OPCODE_EOF :: t.

Definition file_cost (kes : list adb) (scripts : list (list Z)) : Z := 618 + dbs_cost kes + scripts_cost scripts.

Lemma entries_scripts scripts ke ks its : entries_items ke ks its -> Forall (script_of scripts) its.
Proof.
  induction 1 as [|k ks s acc its Hk Hacc _ IH]; [done|]. rewrite !Forall_app. split_and!; [|eapply List.Forall_impl; [|exact Hacc]; by intros []|by repeat constructor|done].
  unfold expire_items. destruct (_ =? -1); by repeat constructor.
Qed.

Lemma dbs_scripts scripts j kes its : dbs_items j kes its -> Forall (script_of scripts) its.
Proof.
  induction 1 as [j|j ke kes its He _ IH|j ke kes ks a b its its' Hks Hen _ IH]; [done|done|]. apply Forall_app. split; [|done].
  do 2 (constructor; [done|]). by eapply entries_scripts.
Qed.

Lemma le_bytes_zlen (n : nat) v : zlen (le_bytes n v) = Z.of_nat n.
Proof. by rewrite zlen_le_bytes. Qed.

Section Correct.
Context {D E C : Type} `{HD : DictIterLaws D oaddr} `{HE : DictIterLaws E Z} `{OutputLaws C}.
Context (cfg : config) (rc : rdb_config) (si : Z -> oaddr) (bufsiz : Z) (junk : Z -> Z).
Context (acc : bool) (hist : list Z).
Abbreviation sv := (server D E C).
Abbreviation srepm := (srepm si acc hist).
Implicit Types (s : sv) (R : gmultiset oaddr) (ms : list (gmap key oaddr)) (kvs : list adb).

(** What a server must be like for its databases to be saved. *)
Record savable (rsi : option rdbSaveInfo) s kvs : Prop := {
  sa_store : Forall storable kvs;
  sa_quiet : all_quiet (sv_dbs s);
  sa_info : info_ok rc rsi;
  sa_scripts : Forall (fun b => bytes_ok b /\ zlen b < 2 ^ 31) (sv_scripts s);
  sa_dbnum : 0 < zlen kvs < 2 ^ 62;
  sa_total : total kvs < 2 ^ 31
}.

(** ** The whole stream *)

Definition stream_outcome kvs (scripts : list (list Z)) (r : rio) (x : Z) s' : Prop :=
  exists r', sv_rio s' = Some r' /\
    ((x = C_OK /\ exists data, rdb_bytes kvs scripts data /\ zlen data <= file_cost kvs scripts /\
        written r' = written r ++ data /\ in_memory r' = in_memory r /\ capacity r' = capacity r) \/
     (x = C_ERR /\ broke (file_cost kvs scripts) r r')).

Lemma with_rio_twice s r r' : with_rio (with_rio s r) r' = with_rio s r'.
Proof. done. Qed.

(** The magic and the fields before the databases. *)
Lemma first_saved flags rsi : info_ok rc rsi -> exists n its bs, n <> -1 /\ Forall plain_aux its /\ items_bytes its bs /\ zlen bs <= 600 /\
  saves (_ <~ rdbWriteRaw bufsiz magic ;; rdbSaveInfoAuxFields rc bufsiz junk flags rsi) (magic ++ bs) n.
Proof.
  intros Hi. destruct (info_fields rc bufsiz junk flags rsi Hi) as (n & its & Hn & Hp & bs & Sv & Hb & Hl). destruct magic_ok as (Mb & Ml & _).
  exists n, its, bs. split_and!; try done. eapply saves_then; [by apply saves_write; [|rewrite Ml]|by rewrite Ml|exact Sv].
Qed.

(** The scripts, the end of the file. *)
Lemma last_saved (rsi : option rdbSaveInfo) scripts : Forall (fun b => bytes_ok b /\ zlen b < 2 ^ 31) scripts -> exists its bs, Forall is_aux its /\ Forall (script_of scripts) its /\
  items_bytes its bs /\ zlen bs <= scripts_cost scripts /\
  saves (_ <~ match rsi with Some _ => save_scripts rc bufsiz junk scripts | None => ret 0 end ;; _ <~ rdbSaveType bufsiz RDB_OPCODE_EOF ;; ret 0) (bs ++ [RDB_OPCODE_EOF]) 0.
Proof.
  intros Hsc. assert (Hl : exists its, Forall is_aux its /\ Forall (script_of scripts) its /\
      items_saved (match rsi with Some _ => save_scripts rc bufsiz junk scripts | None => ret 0 end) its 0 (scripts_cost scripts)).
  { destruct rsi as [i|].
    - eexists. split_and!; [| |by apply scripts_saved]; apply List.Forall_forall; intros it (b & <- & Hin)%in_map_iff; cbn; [done|]; intros _; by apply list_elem_of_In.
    - exists []. split; [done|]. split; [done|]. eapply items_mono; [|apply items_ret]. clear. induction scripts as [|b l IH]; [done|]. unfold scripts_cost in *. cbn. pose proof (zlen_nonneg b). lia. }
  destruct Hl as (its & Ha & Hs & bs & Sv & Hb & Hc). exists its, bs. split_and!; try done.
  eapply saves_then; [exact Sv|done|]. eapply saves_last; [apply type_saves; by vm_compute|done|apply saves_ret].
Qed.

Lemma plain_scripts scripts its : Forall plain_aux its -> Forall is_aux its /\ Forall (script_of scripts) its.
Proof. intros Hf. split; (eapply List.Forall_impl; [|exact Hf]); intros []; cbn; try done. intros E1 E2. congruence. Qed.

Lemma wp_rdbSaveRio flags rsi ms s kvs R r : srepm ms s kvs R -> savable rsi s kvs -> sv_rio s = Some r -> rio_ok r -> cksum r = 0 -> update_cksum r = None ->
  wp (rdbSaveRio cfg rc bufsiz junk flags rsi) s (fun x s' => srepm ms s' kvs R /\ same_server s s' /\ all_quiet (sv_dbs s') /\ stream_outcome kvs (sv_scripts s) r x s').
Proof.
  intros Hs [Hst Hq Hi Hsc Hnum Htot] Er Hok Hz Hfn. unfold rdbSaveRio. pose proof (dbs_cost_nonneg kvs) as Hdc.
  set (f := fun r : rio => if rdb_checksum rc then _ else r). set (r1 := f r).
  assert (Hr1 : rio_ok r1 /\ written r1 = written r /\ in_memory r1 = in_memory r /\ capacity r1 = capacity r /\ cksum r1 = 0 /\
    forall data, sum_of r1 data = 0 \/ sum_of r1 data = crc64_ref 0 data).
  { unfold r1, f. destruct (rdb_checksum rc).
    - split; [by destruct Hok; split|]. split_and!; try done. intros data. right. unfold sum_of. cbn. by rewrite Hz.
    - split_and!; try done. intros data. left. unfold sum_of, sums. by rewrite Hfn. }
  destruct Hr1 as (Hok1 & W1 & M1 & C1 & Z1 & Hsum).
  assert (Hbroke : forall n r', broke n r1 r' -> n <= file_cost kvs (sv_scripts s) -> broke (file_cost kvs (sv_scripts s)) r r').
  { intros n r' [B1 B2 B3 B4] Hn. rewrite W1, C1, M1 in *. split; [done..|lia]. }
  apply wp_bind. eexists _, _. split; [unfold with_stream; rewrite Er; reflexivity|]. fold r1.
  destruct (first_saved flags rsi Hi) as (n & its1 & bs1 & Hn & Hp1 & Hb1 & Hl1 & Sv1). destruct (plain_scripts (sv_scripts s) its1 Hp1) as [Ha1 Hs1].
  assert (Hscn : 0 <= scripts_cost (sv_scripts s)).
  { clear. induction (sv_scripts s) as [|b l IH]; [done|]. unfold scripts_cost in *. cbn. pose proof (zlen_nonneg b). lia. }
  destruct Sv1 as [_ Sv1]. destruct (Sv1 r1 Hok1) as (k & r2 & E2 & Hk). apply wp_bind. eexists _, _. split; [unfold on_stream; cbn [with_rio sv_rio]; rewrite E2; reflexivity|].
  cbn [fst snd]. rewrite with_rio_twice. destruct magic_ok as (Mb & Ml & _).
  destruct Hk as [[-> Wr2]|[-> Bk]].
  2:{ cbn [Z.eqb]. apply wp_ret. split; [by apply srep_rio|]. split; [done|]. split; [done|]. exists r2. split; [done|]. right. split; [done|].
    eapply Hbroke; [exact Bk|]. rewrite zlen_app, Ml. unfold file_cost. lia. }
  rewrite (proj2 (Z.eqb_neq _ _) Hn). wp_gets. cbn [with_rio sv_dbs].
  assert (Hlen : List.length (sv_dbs s) = List.length kvs) by by destruct (Forall3_length_lr _ _ _ _ (sr_dbs _ _ _ _ _ _ _ Hs)).
  rewrite Hlen. apply wp_bind. eapply wp_mono; [apply (wp_save_dbs cfg rc si bufsiz junk acc hist kvs [] ms (with_rio s (Some r2)) R r2); [by apply srep_rio|done|done|done|by apply Wr2|apply Hnum|]|].
  { apply Forall_lookup. intros j ke Hj. pose proof (total_lookup j kvs ke Hj). lia. }
  cbn [app List.length]. intros x s3 (Hs3 & S3' & Q3 & Hout3). assert (S3 : same_server s s3) by (by destruct S3'; split).
  destruct Hout3 as (r3 & Er3 & Hok3 & [[Hne (its3 & bs3 & Hi3 & Hb3 & Hl3 & Wr3)]|[-> Bk]]).
  2:{ cbn [Z.eqb Pos.eqb]. apply wp_ret. split; [done|]. split; [done|]. split; [done|]. exists r3. split; [done|]. right. split; [done|].
    eapply Hbroke; [by eapply wrote_broke|]. rewrite zlen_app, Ml. unfold file_cost. lia. }
  rewrite (proj2 (Z.eqb_neq _ _) Hne). wp_gets. pose proof (ss_scripts _ _ S3) as Escr. rewrite Escr.
  destruct (last_saved rsi (sv_scripts s) Hsc) as (its4 & bs4 & Ha4 & Hs4 & Hb4 & Hl4 & Sv4). destruct Sv4 as [_ Sv4]. destruct (Sv4 r3 Hok3) as (k & r4 & E4 & Hk).
  apply wp_bind. eexists _, _. split; [unfold on_stream; rewrite Er3, E4; reflexivity|]. cbn [fst snd]. pose proof (wrote_trans _ _ _ _ _ Wr2 Wr3) as Wr23.
  destruct Hk as [[-> Wr4]|[-> Bk]].
  2:{ cbn [Z.eqb Pos.eqb]. apply wp_ret. split; [by apply srep_rio|]. split; [by destruct S3; split|]. split; [done|]. exists r4. split; [done|]. right. split; [done|].
    eapply Hbroke; [by eapply wrote_broke|]. rewrite !zlen_app, Ml. change (zlen [RDB_OPCODE_EOF]) with 1. unfold file_cost. lia. }
  cbn [Z.eqb Pos.eqb]. wp_gets. cbn [with_rio sv_rio]. apply wp_bind, (wp_lift _ r4); [done|]. pose proof (wrote_trans _ _ _ _ _ Wr23 Wr4) as Wr.
  destruct (rioWrite_spec bufsiz r4 (le_bytes 8 (cksum r4))) as (r5 & ok & E5 & Hr5); [apply le_bytes_ok|apply Wr4|]. wp_lift E5.
  eexists _, _. split; [unfold with_stream; cbn [with_rio sv_rio mbind option_bind]; reflexivity|]. cbn [fst snd].
  split; [by apply srep_rio, srep_rio|]. split; [by destruct S3; split|]. split; [done|]. exists r5. split; [done|].
  set (body := ((magic ++ bs1) ++ bs3) ++ bs4 ++ [RDB_OPCODE_EOF]) in *.
  destruct ok; [left|right]; (split; [done|]).
  - exists (body ++ le_bytes 8 (cksum r4)). pose proof (wrote_trans _ _ _ _ _ Wr Hr5) as W5. split_and!.
    + exists (its1 ++ its3 ++ its4), (bs1 ++ bs3 ++ bs4), (le_bytes 8 (cksum r4)). split_and!.
      * by exists its1, its3, its4.
      * rewrite !Forall_app. split_and!; [done|by eapply dbs_scripts|done].
      * by repeat apply items_app.
      * assert (Eb : magic ++ (bs1 ++ bs3 ++ bs4) ++ [RDB_OPCODE_EOF] = body) by (unfold body; by rewrite <- !app_assoc). rewrite Eb. unfold trailer.
        rewrite (sm_sum _ _ _ (wr_sum _ _ _ Wr)). fold body. destruct (Hsum body) as [-> | ->]; auto.
      * unfold body. by rewrite <- !app_assoc.
    + unfold body. rewrite !zlen_app, Ml, zlen_le_bytes. change (zlen [RDB_OPCODE_EOF]) with 1. unfold file_cost. lia.
    + by rewrite (wr_out _ _ _ W5), W1.
    + by rewrite (sm_memory _ _ _ (wr_sum _ _ _ W5)), M1.
    + by rewrite (wr_cap _ _ _ W5), C1.
  - eapply Hbroke; [by eapply wrote_broke|]. unfold body. rewrite !zlen_app, Ml, zlen_le_bytes. change (zlen [RDB_OPCODE_EOF]) with 1. unfold file_cost. lia.
Qed.

(** ** Files *)

Lemma srep_same ms s s' kvs R : sv_base s' = sv_base s -> sv_dbs s' = sv_dbs s -> srepm ms s kvs R -> srepm ms s' kvs R.
Proof. intros Eb Ed [P1 P2 P3]. split; by rewrite ?Eb, ?Ed. Qed.

(** The outcome of [rdbSave]: the file is there, or nothing but the temporary
    file has been touched, because the system or the device refused. *)
Definition save_outcome kvs (dk : disk) (tmp filename : list Z) s (x : Z) s' : Prop :=
  (x = C_OK /\ exists data, rdb_bytes kvs (sv_scripts s) data /\ sv_files s' = <[filename := data]> (delete tmp (sv_files s))) \/
  (x = C_ERR /\ delete tmp (sv_files s') = delete tmp (sv_files s) /\
    (dk_open dk && dk_sync dk && dk_rename dk = false \/ dk_room dk < file_cost kvs (sv_scripts s))).

(** The state in which the stream is opened. *)
Lemma wp_open rsi (tmp : list Z) (room : Z) s kvs {A} (k : M sv A) (Q : A -> sv -> Prop) : savable rsi s kvs ->
  (forall s' r, sv_base s' = sv_base s -> sv_dbs s' = sv_dbs s -> sv_lru s' = sv_lru s -> sv_scripts s' = sv_scripts s -> sv_files s' = <[tmp := []]> (sv_files s) ->
    savable rsi s' kvs -> sv_rio s' = Some r -> rio_ok r -> cksum r = 0 -> update_cksum r = None -> written r = [] -> in_memory r = false -> capacity r = room ->
    wp k s' Q) ->
  wp (write_file tmp [] ;; (fun s => Some (tt, with_rio s (Some (rioInitWithFile (file_new room))))) ;;
    (if rdb_save_incremental_fsync rc then with_stream (fun r => rioSetAutoSync r REDIS_AUTOSYNC_BYTES) tt else ret tt) ;; k) s Q.
Proof.
  intros Hsa HQ. assert (Hsa' : forall s', sv_dbs s' = sv_dbs s -> sv_scripts s' = sv_scripts s -> savable rsi s' kvs) by (intros s' Ed Es; destruct Hsa; split; by rewrite ?Ed, ?Es).
  destruct (rdb_save_incremental_fsync rc); unfold bind, write_file, with_stream, ret; cbn [with_rio sv_rio mbind option_bind]; eapply HQ; try done; try (by apply Hsa'); by split.
Qed.

Lemma fflush_all fp : snd (fflush fp) = true -> f_data (fst (fflush fp)) = f_data fp ++ f_pending fp.
Proof. cbn. intros E1%bool_decide_eq_true. by rewrite take_ge by (unfold zlen in *; lia). Qed.

(** The server when the stream has been written. *)
Record saved_post kvs (dk : disk) (tmp filename : list Z) ms s R s2 : Prop := {
  sp_rep : srepm ms s2 kvs R;
  sp_quiet : all_quiet (sv_dbs s2);
  sp_lru : sv_lru s2 = sv_lru s;
  sp_heap : heap (sv_base s2) = heap (sv_base s);
  sp_files : sv_files s2 = <[tmp := []]> (sv_files s)
}.

(** The error path. *)
Lemma wp_werr kvs dk (tmp filename : list Z) ms s R s2 d : saved_post kvs dk tmp filename ms s R s2 ->
  dk_open dk && dk_sync dk && dk_rename dk = false \/ dk_room dk < file_cost kvs (sv_scripts s) ->
  wp (write_file tmp d ;; unlink tmp ;; ret C_ERR) s2 (fun x s' => srepm ms s' kvs R /\ all_quiet (sv_dbs s') /\ sv_lru s' = sv_lru s /\
    heap (sv_base s') = heap (sv_base s) /\ save_outcome kvs dk tmp filename s x s').
Proof.
  intros [P1 P2 P3 P4 P5] Hwhy. eexists _, _. split; [reflexivity|]. split; [by apply (srep_same ms s2)|]. split; [done|]. split; [done|]. split; [done|]. right. split; [done|].
  split; [|done]. cbn [with_files sv_files]. by rewrite P5, !delete_insert_eq, delete_delete_eq.
Qed.

Lemma wp_rdbSave dk pid filename rsi ms s kvs R : srepm ms s kvs R -> savable rsi s kvs -> dk_close dk = true ->
  wp (rdbSave cfg rc bufsiz junk dk pid filename rsi) s (fun x s' => srepm ms s' kvs R /\ all_quiet (sv_dbs s') /\ sv_lru s' = sv_lru s /\
    heap (sv_base s') = heap (sv_base s) /\ save_outcome kvs dk (tmpfile pid) filename s x s').
Proof.
  intros Hs Hsa Hclose. unfold rdbSave. cbn zeta. set (tmp := tmpfile pid). destruct (dk_open dk) eqn:Eo; cbn [negb].
  2:{ apply wp_ret. split; [done|]. split; [apply Hsa|]. split; [done|]. split; [done|]. right. rewrite Eo. auto. }
  apply (wp_open rsi tmp (dk_room dk) s kvs); [exact Hsa|]. intros s1 r1 Eb1 Ed1 El1 Es1 Ef1 Hsa1 Er1 Hok1 Hz1 Hfn1 W1 M1 C1.
  apply wp_bind. eapply wp_mono; [apply (wp_rdbSaveRio RDB_SAVE_NONE rsi ms s1 kvs R r1); try done; by apply (srep_same ms s)|].
  intros x s2 (Hs2 & S2 & Q2 & (r2 & Er2 & Hout)). wp_gets. apply wp_bind, (wp_lift _ r2); [done|].
  assert (Hpost : saved_post kvs dk tmp filename ms s R s2).
  { destruct S2 as [T1 T2 T3 T4]. split; [done|done|congruence|congruence|congruence]. }
  pose proof (fun reason d => wp_werr kvs dk tmp filename ms s R s2 d Hpost reason) as Hwerr.
  destruct Hout as [[-> (data & Hdata & Hlen & W2 & M2 & C2)]|[-> Bk]].
  2:{ pose proof (br_memory _ _ _ Bk) as M2. unfold in_memory in M2. destruct (io r2) as [|fp buffered autosync]; [done|]. cbn [Z.eqb Pos.eqb].
    apply Hwerr. right. pose proof (br_room _ _ _ Bk) as Hroom. rewrite W1, C1, Es1, zlen_nil in Hroom. lia. }
  rewrite M1 in M2. rewrite W1 in W2. rewrite C1 in C2. rewrite Es1 in Hdata, Hlen. unfold in_memory, written, capacity in M2, W2, C2.
  destruct (io r2) as [|fp buffered autosync]; [done|]. cbn [Z.eqb Pos.eqb app] in W2 |- *.
  pose proof (fflush_fails fp) as Hfail. pose proof (fflush_all fp) as Hall. destruct (fflush fp) as [fp2 ok]. cbn [fst snd] in *. destruct ok; cbn [negb].
  2:{ apply Hwerr. right. specialize (Hfail eq_refl). rewrite W2, C2 in Hfail. lia. }
  destruct (dk_sync dk) eqn:Esy; cbn [negb]; [|apply Hwerr; left; by rewrite ?Esy, ?andb_false_r].
  rewrite Hclose. cbn [negb]. rewrite Hall, W2 by done. destruct (dk_rename dk) eqn:Ern; cbn [negb]; [|apply Hwerr; left; by rewrite ?Ern, ?andb_false_r].
  destruct Hpost as [P1 P2 P3 P4 P5]. apply wp_bind. eexists _, _. split; [reflexivity|]. apply wp_bind.
  eexists _, _. split; [unfold rename; cbn [with_files sv_files]; rewrite lookup_insert_eq; reflexivity|].
  eexists _, _. split; [reflexivity|]. split; [destruct P1; by split|]. split; [done|]. split; [done|]. split; [done|]. left. split; [done|]. exists data. split; [done|]. cbn [with_files sv_files].
  by rewrite P5, !delete_insert_eq.
Qed.

End Correct.

Section Loading.
Context {D E C : Type} `{HD : DictIterLaws D oaddr} `{HE : DictIterLaws E Z} `{OutputLaws C}.
Abbreviation sv := (server D E C).
Implicit Types (s : sv) (R : gmultiset oaddr) (kvs : list adb).

(** The expires are those of keys. *)
Lemma srep_expires (si : Z -> oaddr) acc hist s kvs R : srep si acc hist s kvs R -> Forall expires_ok kvs.
Proof.
  intros [ms Hs]. apply Forall_lookup. intros j ke Hj k Hk. destruct (srep_at si acc hist ms s kvs R j ke Hs Hj) as (de & m & Hd & Hm & Hrel).
  destruct (dr_sub _ _ _ _ Hrel k Hk) as [o Ho]. rewrite (dr_kv _ _ _ _ Hrel k), Ho. cbn.
  destruct (srep_in si acc hist ms s kvs R j m Hs Hm o) as [ob Eo]; [apply elem_of_vals; eauto|]. unfold val_at. rewrite Eo. by eexists.
Qed.

(** A server of [n] empty databases that accepts the scripts. *)
Record loadable (rc : rdb_config) (lua : list Z -> bool) (n : nat) kvs (scripts : list (list Z)) R : Prop := {
  lo_dbnum : (List.length kvs <= n)%nat /\ (0 < n)%nat;
  lo_lua : Forall (fun b => lua b = true) scripts;
  lo_events : 0 <= loading_process_events_interval_bytes rc;
  lo_total : total kvs + Z.of_nat (base.size R) + 3 < 2 ^ 31 - 2
}.

(** What is left of the databases at the time [mstime cfg]. *)
Definition loaded_dbs (cfg : config) (n : nat) kvs : list adb := map (alive (gone cfg false (mstime cfg))) kvs ++ replicate (n - List.length kvs) no_keys.

Lemma total_empty (n : nat) : total (replicate n no_keys) = 0.
Proof. induction n as [|n IH]; [done|]. cbn [replicate]. rewrite total_cons, IH. unfold no_keys. cbn [fst]. by rewrite map_size_empty. Qed.

Lemma wp_rdbLoad cfg rc (si : Z -> oaddr) junk lua acc hist filename rsi data (n : nat) s kvs scripts R :
  rdb_bytes kvs scripts data -> Forall expires_ok kvs -> loadable rc lua n kvs scripts R -> sv_files s !! filename = Some data -> srep si acc hist s (replicate n no_keys) R ->
  exists rsi' s', rdbLoad cfg rc si junk lua filename rsi s = Some ((C_OK, rsi'), s') /\ srep si acc hist s' (loaded_dbs cfg n kvs) R.
Proof.
  intros (its & bs & t & Hits & Hscr & Hbs & Ht & ->) Hex [[Hlen Hn] Hlua Hev Htot] Hf [ms Hs].
  set (r := rioInitWithFile (file_read (magic ++ bs ++ RDB_OPCODE_EOF :: t))). set (g := gone cfg false (mstime cfg)).
  assert (Hg : g (-1) = false) by (unfold g, gone; by rewrite andb_false_r).
  destruct (file_loaded g Hg kvs its n Hits Hlen Hex) as [Hok Hres].
  destruct (wp_rdbLoadRio cfg rc si junk lua acc hist rsi false its bs t [] ms (with_rio s (Some r)) (replicate n no_keys) R r) as ([x rsi'] & s1 & E1 & Ex & ms1 & Hs1); try done.
  - by rewrite app_nil_r.
  - eapply List.Forall_impl; [|exact Hscr]. intros [] Hv; try done. cbn. intros E2. specialize (Hv E2). rewrite List.Forall_forall in Hlua. by apply Hlua, list_elem_of_In.
  - destruct n; [lia|done].
  - by apply (srep_ext si acc hist ms s).
  - rewrite total_empty, (pairs_file kvs its Hits). lia.
  - cbn [fst] in Ex. subst x. exists rsi'. eexists. split.
    + unfold rdbLoad, bind at 1, gets. rewrite Hf. unfold bind. cbn beta iota. fold r. rewrite E1. reflexivity.
    + exists ms1. apply (srep_ext si acc hist ms1 s1); [done..|]. unfold loaded_dbs. fold g. rewrite <- Hres. exact Hs1.
Qed.
End Loading.

Section Theorems.
Context {D E C : Type} `{HD : DictIterLaws D oaddr} `{HE : DictIterLaws E Z} `{OutputLaws C}.
Abbreviation sv := (server D E C).
Implicit Types (s : sv) (R : gmultiset oaddr) (kvs : list adb).

(** [C8] Saving every database to a file and loading it in another server, or in
    this one after a restart, gives each database back: the keys whose time has
    not come on a master, all of them on a replica, with their strings and their
    expires.  However the two servers compress, sum, share and represent things;
    the server that saves is as it was.  A device with enough room and the calls
    of the system not failing are enough for the file to be written. *)
Theorem rdb_roundtrip cfg rc (si : Z -> oaddr) bufsiz junk acc hist dk pid filename rsi s kvs R (Hs : srep si acc hist s kvs R) (Hsa : savable rc rsi s kvs)
    (Hdk : dk_open dk && dk_sync dk && dk_rename dk = true) (Hclose : dk_close dk = true) (Hroom : file_cost kvs (sv_scripts s) <= dk_room dk) :
  exists s' data, rdbSave cfg rc bufsiz junk dk pid filename rsi s = Some (C_OK, s') /\ srep si acc hist s' kvs R /\ sv_files s' !! filename = Some data /\
    forall cfg2 rc2 (si2 : Z -> oaddr) junk2 lua2 acc2 hist2 rsi2 filename2 (n : nat) s2 R2, loadable rc2 lua2 n kvs (sv_scripts s) R2 ->
      srep si2 acc2 hist2 s2 (replicate n no_keys) R2 -> sv_files s2 !! filename2 = Some data ->
      exists rsi' s2', rdbLoad cfg2 rc2 si2 junk2 lua2 filename2 rsi2 s2 = Some ((C_OK, rsi'), s2') /\ srep si2 acc2 hist2 s2' (loaded_dbs cfg2 n kvs) R2.
Proof.
  pose proof (srep_expires si acc hist s kvs R Hs) as Hex. destruct Hs as [ms Hs].
  destruct (wp_rdbSave cfg rc si bufsiz junk acc hist dk pid filename rsi ms s kvs R Hs Hsa Hclose) as (x & s' & E1 & Hs' & _ & _ & _ & [[-> (data & Hd & Ef)]|(_ & _ & [Hno|Hno])]).
  2:{ congruence. } 2:{ lia. }
  exists s', data. split; [done|]. split; [by exists ms|]. split; [by rewrite Ef, lookup_insert_eq|].
  intros cfg2 rc2 si2 junk2 lua2 acc2 hist2 rsi2 filename2 n s2 R2 Hl Hs2 Hf2. by eapply wp_rdbLoad.
Qed.

(** [C9] [rdbSave] replaces the file at once or not at all, whatever opening,
    writing, flushing, syncing and renaming do: when it answers an error the file of
    that name is the one there was before, and the error is one of the system or of
    a full device; when it does not, the file is complete and the temporary one is
    gone.  The databases, the objects and the other files are not touched.  The name
    is not that of the temporary file, the values are strings ([savable]), and the
    last [fclose] must not fail ([dk_close]): when it does, the error path closes
    the stream a second time, which is not defined. *)
Theorem rdbSave_atomic cfg rc (si : Z -> oaddr) bufsiz junk acc hist dk pid filename rsi s kvs R (Hs : srep si acc hist s kvs R) (Hsa : savable rc rsi s kvs)
    (Hclose : dk_close dk = true) (Hname : filename <> tmpfile pid) :
  exists x s', rdbSave cfg rc bufsiz junk dk pid filename rsi s = Some (x, s') /\ srep si acc hist s' kvs R /\ all_quiet (sv_dbs s') /\
    heap (sv_base s') = heap (sv_base s) /\ (forall name, name <> filename -> name <> tmpfile pid -> sv_files s' !! name = sv_files s !! name) /\
    (x = C_ERR /\ sv_files s' !! filename = sv_files s !! filename /\
       (dk_open dk && dk_sync dk && dk_rename dk = false \/ dk_room dk < file_cost kvs (sv_scripts s)) \/
     x = C_OK /\ sv_files s' !! tmpfile pid = None /\ exists data, sv_files s' !! filename = Some data /\ rdb_bytes kvs (sv_scripts s) data).
Proof.
  destruct Hs as [ms Hs].
  destruct (wp_rdbSave cfg rc si bufsiz junk acc hist dk pid filename rsi ms s kvs R Hs Hsa Hclose) as (x & s' & E1 & Hs' & Hq & _ & Hh & Hout).
  exists x, s'. split; [done|]. split; [by exists ms|]. split; [done|]. split; [done|]. destruct Hout as [[-> (data & Hd & Ef)]|(-> & Ef & Hwhy)].
  - rewrite Ef. split; [intros name N1 N2; by rewrite lookup_insert_ne, lookup_delete_ne|]. right. split; [done|]. split; [by rewrite lookup_insert_ne, lookup_delete_eq|].
    exists data. by rewrite lookup_insert_eq.
  - assert (Hsame : forall name, name <> tmpfile pid -> sv_files s' !! name = sv_files s !! name).
    { intros name Hne. rewrite <- (lookup_delete_ne (sv_files s') (tmpfile pid) name), Ef, lookup_delete_ne; done. }
    split; [auto|]. left. split; [done|]. split; [by apply Hsame|done].
Qed.
End Theorems.

(** ** A server *)

Abbreviation map_sv := (server (gmap key oaddr) (gmap key Z) (list Z)).
#[local] Instance a_dict : KeyDict (gmap key oaddr) oaddr := MapKeyDict oaddr 1%positive.
#[local] Instance a_dict_laws : KeyDictLaws (gmap key oaddr) oaddr := MapKeyDictLaws oaddr 1%positive.
#[local] Instance a_dict_iter : DictIter (gmap key oaddr) oaddr := MapDictIter oaddr 1%positive.
#[local] Instance a_dict_iter_laws : DictIterLaws (gmap key oaddr) oaddr := MapDictIterLaws oaddr 1%positive.
#[local] Instance an_expire : KeyDict (gmap key Z) Z := MapKeyDict Z 0.
#[local] Instance an_expire_laws : KeyDictLaws (gmap key Z) Z := MapKeyDictLaws Z 0.
#[local] Instance an_expire_iter : DictIter (gmap key Z) Z := MapDictIter Z 0.
#[local] Instance an_expire_iter_laws : DictIterLaws (gmap key Z) Z := MapDictIterLaws Z 0.

Definition server_of (h : gmap oaddr robj) (dbs : list (gmap key oaddr * gmap key Z)) (files : gmap (list Z) (list Z)) : map_sv :=
  {| sv_base := {| heap := h; dict := tt; expires := tt; out := []; argv := []; dirty := 0; log := []; stat_keyspace_hits := 0; stat_keyspace_misses := 0; stat_expiredkeys := 0 |};
     sv_dbs := dbs; sv_lru := fun _ => 0; sv_scripts := []; sv_rio := None; sv_files := files; sv_lastsave := 0; sv_lastbgsave_ok := true |}.

(** One key, with an expire. *)
Definition a_key : list Z := bytes_of "k".
Definition a_db : adb := ({[ a_key := VStr (bytes_of "v") ]}, {[ a_key := 2000000 ]}).

Lemma a_server_rep (si : Z -> oaddr) h : own si h ∅ -> exists (o : oaddr) h', srep si true [] (server_of h' [({[ a_key := o ]}, {[ a_key := 2000000 ]})] ∅) [a_db] ∅.
Proof.
  intros Hown. pose proof (own_create si h ∅ (ORaw (bytes_of "v")) Hown eq_refl) as Hc. destruct (createObject h (ORaw (bytes_of "v"))) as [o h'].
  destruct Hc as (C1 & C2 & _). exists o, h', [ {[ a_key := o ]} ]. split; [|cbn [server_of sv_base heap all_vals foldr]|by split].
  - constructor; [|constructor]. split; [done|done| |].
    + intros k. cbn [a_db fst server_of sv_base heap]. rewrite !lookup_singleton. destruct (decide (a_key = k)); [|done]. cbn. unfold val_at. by rewrite C2.
    + intros k. cbn [a_db snd]. rewrite !lookup_singleton. by destruct (decide (a_key = k)).
  - assert (Ev : vals {[ a_key := o ]} = {[+ o +]}) by (rewrite <- insert_empty, vals_insert, vals_empty by apply lookup_empty; apply gmultiset_disj_union_right_id).
    rewrite Ev. by rewrite !gmultiset_disj_union_right_id in *.
Qed.

Lemma an_empty_rep (si : Z -> oaddr) h files : own si h ∅ -> srep si true [] (server_of h [(∅, ∅)] files) (replicate 1 no_keys) ∅.
Proof.
  intros Hown. exists [∅]. split; [|cbn [server_of sv_base heap all_vals foldr]|by split].
  - constructor; [|constructor]. split; [done|done|done|]. intros k [w Hk]. cbn [no_keys snd] in Hk. by rewrite lookup_empty in Hk.
  - rewrite vals_empty. by rewrite !gmultiset_disj_union_right_id.
Qed.

Definition a_conf : config :=
  {| values_shared := true; masterhost := false; repl_slave_ro := true; loading := true; lua_caller := None; mstime := 1000000;
     readonly_client := false; client_master := false; cluster_enabled := false; cmd_name := "save"; module_type := [] |}.
Definition a_rdb_conf : rdb_config :=
  {| rdb_compression := true; rdb_checksum := true; rdb_save_incremental_fsync := true; loading_process_events_interval_bytes := 0; maxmemory_policy := 1;
     hz := 10; lruclock := 0; unixtime := 1000; lfu_decay_time := 1; time_now := 1000; used_memory := 900000; replid := replicate 40 48; master_repl_offset := 0 |}.
Definition a_disk (room : Z) : disk := {| dk_open := true; dk_room := room; dk_sync := true; dk_close := true; dk_rename := true |}.

Lemma a_savable h (o : oaddr) : savable a_rdb_conf None (server_of h [({[ a_key := o ]}, {[ a_key := 2000000 ]})] ∅) [a_db].
Proof.
  split; [| | |done|done|by vm_compute].
  - constructor; [|done]. assert (Hk : forall k v, fst a_db !! k = Some v -> k = a_key /\ v = VStr (bytes_of "v")) by (intros k v Hv; cbn [a_db fst] in Hv; by apply lookup_singleton_Some in Hv as [<- <-]).
    split.
    + intros k [v Hv]. destruct (Hk k v Hv) as [-> _]. split; [by apply (bool_decide_unpack (Forall (fun c => 0 <= c < 256) _))|done].
    + intros k v Hv. destruct (Hk k v Hv) as [-> ->]. eexists. split; [done|by apply (bool_decide_unpack (Forall (fun c => 0 <= c < 256) _))].
    + intros k w Hw. cbn [a_db snd] in Hw. by apply lookup_singleton_Some in Hw as [<- <-].
  - by constructor.
  - split; try done. split; [by apply (bool_decide_unpack (Forall (fun c => 0 <= c < 256) _))|done].
Qed.

Lemma rdb_roundtrip_witness : exists (si : Z -> oaddr) (s s' s2 s2' : map_sv) (rsi' : option rdbSaveInfo),
  rdbSave a_conf a_rdb_conf 4096 (fun _ => 0) (a_disk 10000) 42 (bytes_of "dump.rdb") None s = Some (C_OK, s') /\
  rdbLoad a_conf a_rdb_conf si (fun _ => 0) (fun _ => true) (bytes_of "dump.rdb") None s2 = Some ((C_OK, rsi'), s2') /\ srep si true [] s2' [a_db] ∅.
Proof.
  destruct own_created as (h & tbl & _ & Hown). destruct (a_server_rep (integer_at tbl) h Hown) as (o & h' & Hs).
  destruct (rdb_roundtrip a_conf a_rdb_conf (integer_at tbl) 4096 (fun _ => 0) true [] (a_disk 10000) 42 (bytes_of "dump.rdb") None _ _ _ Hs (a_savable h' o)) as (s' & data & E1 & _ & _ & Hl);
    [done|done|by vm_compute|].
  destruct (Hl a_conf a_rdb_conf (integer_at tbl) (fun _ => 0) (fun _ => true) true [] None (bytes_of "dump.rdb") 1%nat (server_of h [(∅, ∅)] {[ bytes_of "dump.rdb" := data ]}) ∅) as (rsi' & s2' & E2 & Hr2).
  - split; [split; cbn; lia|done|done|by vm_compute].
  - by apply an_empty_rep.
  - by apply lookup_singleton_eq.
  - eexists _, _, s', _, s2', rsi'. split; [exact E1|]. split; [exact E2|exact Hr2].
Defined.

(** A device with no room for the file. *)
Lemma rdbSave_atomic_witness : exists (si : Z -> oaddr) (s : map_sv) (x : Z) (s' : map_sv),
  rdbSave a_conf a_rdb_conf 4096 (fun _ => 0) (a_disk 10) 42 (bytes_of "dump.rdb") None s = Some (x, s') /\ srep si true [] s' [a_db] ∅.
Proof.
  destruct own_created as (h & tbl & _ & Hown). destruct (a_server_rep (integer_at tbl) h Hown) as (o & h' & Hs).
  destruct (rdbSave_atomic a_conf a_rdb_conf (integer_at tbl) 4096 (fun _ => 0) true [] (a_disk 10) 42 (bytes_of "dump.rdb") None _ _ _ Hs (a_savable h' o)) as (x & s' & E1 & Hs' & _); [done|by vm_compute|].
  eexists _, _, x, s'. split; [exact E1|exact Hs'].
Defined.
