(* ===== verification/DictObj.v ===== *)
(** * The hash tables of hash objects (dict.c, server.c)

    [ObjDict] adds to [KeyDict] and [DictIter] what t_hash.c needs besides:
    creating a dictionary, iterators that are not safe, and shrinking.  The
    iterators that are not safe leave the dictionary as it is. *)
From Stdlib Require Import ZArith Lia.
From stdpp Require Import base numbers list option gmap.
From S2P Require Import Prelude Siphash Dict DictRefine Keyspace DictIter.

Definition OBJ_ENCODING_HT : Z := 2.
Definition HASHTABLE_MIN_FILL : Z := 10.

Definition dictSlots {K V} (d : dict K V) : Z := u64 (size (ht0 d) + size (ht1 d)).

Definition htNeedsResize {K V} (d : dict K V) : bool :=
  let size := i64 (dictSlots d) in
  let used := i64 (dictSize d) in
  (size >? DICT_HT_INITIAL_SIZE) && (Z.quot (i64 (used * 100)) size <? HASHTABLE_MIN_FILL).

(** ** The interface *)

Class ObjDict (D V : Type) `{DictIter D V} := {
  kd_create : D;
  kd_unsafe : D -> kd_iter;
  kd_needsResize : D -> bool;
  kd_resize : D -> option D
}.

(** [kd_togo d it ks]: an iterator that is not safe, with the keys [ks] left. *)
Class ObjDictLaws (D V : Type) `{DictIterLaws D V} `{!ObjDict D V} := {
  kd_togo : D -> kd_iter -> list key -> Prop;
  kd_create_spec : kd_repr kd_create ∅;
  kd_unsafe_spec d m : kd_repr d m -> exists ks, ks ≡ₚ (map_to_list m).*1 /\ kd_togo d (kd_unsafe d) ks;
  kd_step_spec d m it ks : kd_repr d m -> kd_togo d it ks ->
    exists it' r, kd_next d it = Some (d, it', r) /\
    match ks with
    | [] => r = None /\ kd_togo d it' []
    | k :: ks' => exists e, r = Some e /\ kd_at d e k /\ kd_togo d it' ks'
    end;
  kd_done_spec d m it ks : kd_repr d m -> kd_togo d it ks -> kd_release d it = d;
  kd_resize_spec d m : kd_repr d m -> exists d', kd_resize d = Some d' /\ kd_repr d' m
}.

(** ** A finite map *)

#[global] Instance MapObjDict (V : Type) (uninit : V) : @ObjDict (gmap key V) V (MapKeyDict V uninit) (MapDictIter V uninit) :=
  @Build_ObjDict (gmap key V) V (MapKeyDict V uninit) (MapDictIter V uninit)
    ∅ (fun d => (map_to_list d).*1) (fun _ => false) (fun d => Some d).

#[global] Program Instance MapObjDictLaws (V : Type) (uninit : V) :
    @ObjDictLaws _ _ _ (MapKeyDictLaws V uninit) _ (MapDictIterLaws V uninit) (MapObjDict V uninit) := {|
  kd_togo d it ks := it = ks /\ Forall (fun k => is_Some (d !! k)) ks
|}.
Next Obligation. done. Qed.
Next Obligation.
  intros V u d m Hr. cbn in Hr. subst d. exists (map_to_list m).*1. split; [done|]. split; [done|].
  apply Forall_forall. intros k ([k' v] & -> & Hk)%list_elem_of_fmap. apply elem_of_map_to_list in Hk. by exists v.
Qed.
Next Obligation.
  intros V u d m it ks Hr [-> Hk]. exists (tail ks), (head ks). split; [done|]. destruct ks as [|k ks]; [done|].
  apply Forall_cons_1 in Hk as [Hk Hks]. by exists k.
Qed.
Next Obligation. done. Qed.
Next Obligation. intros V u d m Hr. by exists d. Qed.

(** ** The hash tables *)

Section HashTables.
Context {V : Type} (uninit : V) (seed : list Z) (dict_can_resize : bool).
Abbreviation hash := (dictSdsHash seed).
Implicit Types (d : dict key V) (m : gmap key V) (k : key).

#[global] Instance HashObjDict : @ObjDict (dict key V) V (HashKeyDict uninit seed dict_can_resize) (HashDictIter uninit seed dict_can_resize) :=
  @Build_ObjDict (dict key V) V (HashKeyDict uninit seed dict_can_resize) (HashDictIter uninit seed dict_can_resize)
    _dictInit (fun _ => dictGetIterator) htNeedsResize (fun d => r ← dictResize dict_can_resize d; Some (fst r)).

Lemma same_unsafe d d' : same_tables d d' -> iterators d' = iterators d -> d' = d.
Proof. intros (E0 & E1 & E2) E3. destruct d, d'. cbn in *. by subst. Qed.

#[global] Program Instance HashObjDictLaws :
    @ObjDictLaws _ _ _ (HashKeyDictLaws uninit seed dict_can_resize) _ (HashDictIterLaws uninit seed dict_can_resize) HashObjDict := {|
  kd_togo d it ks := it_safe it = false /\ (it_entry it <> None -> it_index it <> -1) /\
    exists l, iter_at d it l /\ ks = l.*1 /\ Forall (fun e => e ∈ entries d) l
|}.
Next Obligation. apply init_repr. Qed.
Next Obligation.
  intros d m Hr. destruct (repr_entries hash d m Hr) as [E1 E2]. exists (entries d).*1. split; [by rewrite E2|].
  split; [done|]. split; [done|]. exists (entries d). split; [|split; [done|by apply Forall_forall]]. split; [done|]. symmetry. exact E1.
Qed.
Next Obligation.
  intros d m it ks Hr (Hs & Hne & l & Hat & -> & Hin). cbn.
  destruct (dictNext_spec d it l (repr_shaped hash d m Hr) Hat Hne) as ([[d1 it1] r] & -> & Hsame & Hs1 & Hi & Hit & Hl).
  rewrite Hs, andb_false_r in Hit. apply (same_unsafe d d1 Hsame) in Hit as ->. exists it1, r. split; [done|].
  rewrite Hs in Hs1. destruct l as [|[k v] l]; cbn [fmap list_fmap fst].
  - destruct Hl as [-> Hat1]. split; [done|]. split; [done|]. split; [done|]. by exists [].
  - destruct Hl as (e & c & -> & Hc & Hp & Hat1). apply Forall_cons_1 in Hin as [Hk Hin]. exists e. split; [done|]. split.
    + exists v. by apply (entry_loc hash d m e c k v Hr).
    + split; [done|]. split; [done|]. by exists l.
Qed.
Next Obligation. intros d m it ks Hr (Hs & _). cbn. unfold dictReleaseIterator. by rewrite Hs, andb_false_r. Qed.
Next Obligation.
  intros d m Hr. cbn. destruct (proj2 (dictExpand_refines hash dict_can_resize d m 0 Hr ltac:(lia))) as (d' & b & -> & Hr' & _). by exists d'.
Qed.
End HashTables.
