(* ===== verification/THash.v ===== *)
(** * Hash objects (t_hash.c)

    A hash with few and short fields is a ziplist of fields and values in turn,
    otherwise a dictionary; it goes from the one to the other and not back.  An
    object is its encoding with what [ptr] points to, and is replaced by each
    operation: reading a dictionary may rehash it, and counting a ziplist may
    store its length.  The dictionary is any implementation of [ObjDict]; an sds
    string is its bytes, and what becomes of the strings that a caller gives
    away is an answer. *)
From Stdlib Require Import ZArith Lia.
From stdpp Require Import base numbers list option gmap.
From S2P Require Import Prelude UtilNum Sds Object ObjectHeap Dict Keyspace DictIter DictObj Ziplist.

Definition OBJ_ENCODING_ZIPLIST : Z := 5.
Definition OBJ_HASH_KEY : Z := 1.
Definition OBJ_HASH_VALUE : Z := 2.
Definition HASH_SET_TAKE_FIELD : Z := Z.shiftl 1 0.
Definition HASH_SET_TAKE_VALUE : Z := Z.shiftl 1 1.
Definition HASH_SET_COPY : Z := 0.

(** The answer of a lookup: [*vstr] and [*vlen], or [*vll]. *)
Inductive hvalue := HStr (vstr : list Z) | HInt (vll : Z).

(** What an operation did with a string of its caller: it was not kept, or the
    dictionary has it now, or it was freed. *)
Inductive sds_fate := Kept | Stored | Freed.

Section HashType.
Context {D : Type} `{ObjDict D (list Z)}.
(** What fresh memory holds, the uninitialised buffer of [sdsfromlonglong], and
    the configuration. *)
Context (junk : nat -> Z) (buf : list Z) (hash_max_ziplist_value hash_max_ziplist_entries : Z).

Inductive hobj := HZiplist (zl : list Z) | HDict (d : D).

Implicit Types (o : hobj) (field value : list Z).

Definition createHashObject : option hobj := zl ← ziplistNew junk; Some (HZiplist zl).

(** ** Reading *)

(** [ziplistIndex(zl, ZIPLIST_HEAD)] and [ziplistFind(fptr, field, sdslen(field), 1)]. *)
Definition find_field (zl : list Z) field : option (option Z) :=
  fptr ← ziplistIndex zl ZIPLIST_HEAD;
  match fptr with
  | None => Some None
  | Some fptr => ziplistFind zl fptr field (u32 (zlen field)) 1
  end.

(** -1 is [Some None]. *)
Definition hashTypeGetFromZiplist o field : option (option zval) :=
  match o with
  | HDict _ => None
  | HZiplist zl =>
      fptr ← find_field zl field;
      match fptr with
      | None => Some None
      | Some fptr =>
          vptr ← ziplistNext zl fptr;
          match vptr with
          | None => None
          | Some vptr =>
              ret ← ziplistGet zl (Some vptr);
              match ret with Some v => Some (Some v) | None => None end
          end
      end
  end.

Definition hashTypeGetFromHashTable o field : option (hobj * option (list Z)) :=
  match o with
  | HZiplist _ => None
  | HDict d =>
      r ← kd_find d field;
      match r with
      | (d, None) => Some (HDict d, None)
      | (d, Some de) => v ← kd_val d de; Some (HDict d, Some v)
      end
  end.

(** The bytes at [vstr], and the first [vlen] bytes of an sds string. *)
Definition of_zval (zl : list Z) (v : zval) : option hvalue :=
  match v with
  | ZStr sstr slen => s ← mread zl sstr slen; Some (HStr s)
  | ZInt sval => Some (HInt sval)
  end.
Definition of_sds (s : list Z) : hvalue := HStr (take (Z.to_nat (u32 (zlen s))) s).

(** [C_ERR] is [None]. *)
Definition hashTypeGetValue o field : option (hobj * option hvalue) :=
  match o with
  | HZiplist zl =>
      r ← hashTypeGetFromZiplist o field;
      match r with
      | Some v => h ← of_zval zl v; Some (o, Some h)
      | None => Some (o, None)
      end
  | HDict _ => r ← hashTypeGetFromHashTable o field; Some (fst r, match snd r with Some value => Some (of_sds value) | None => None end)
  end.

(** Result: the new object, if there is one, and the heap. *)
Definition hashTypeGetValueObject (shared_integers : Z -> oaddr) (values_shared : bool) (h : gmap oaddr robj) o field
    : option (hobj * option oaddr * gmap oaddr robj) :=
  r ← hashTypeGetValue o field;
  let '(o, v) := r in
  match v with
  | None => Some (o, None, h)
  | Some (HStr vstr) => let '(a, h) := createStringObject h vstr in Some (o, Some a, h)
  | Some (HInt vll) => p ← createStringObjectFromLongLong shared_integers values_shared h vll; Some (o, Some (fst p), snd p)
  end.

Definition hashTypeGetValueLength o field : option (hobj * Z) :=
  match o with
  | HZiplist zl =>
      r ← hashTypeGetFromZiplist o field;
      match r with
      | Some (ZStr _ vlen) => Some (o, vlen)
      | Some (ZInt vll) => n ← sdigits10 vll; Some (o, n)
      | None => Some (o, 0)
      end
  | HDict _ =>
      r ← hashTypeGetFromHashTable o field;
      Some (fst r, match snd r with Some aux => zlen aux | None => 0 end)
  end.

Definition hashTypeExists o field : option (hobj * bool) :=
  match o with
  | HZiplist _ => r ← hashTypeGetFromZiplist o field; Some (o, bool_decide (is_Some r))
  | HDict _ => r ← hashTypeGetFromHashTable o field; Some (fst r, bool_decide (is_Some (snd r)))
  end.

Definition hashTypeLength o : option (hobj * Z) :=
  match o with
  | HZiplist zl => r ← ziplistLen zl; Some (HZiplist (snd r), fst r / 2)
  | HDict d => Some (o, kd_size d)
  end.

(** ** Iterating *)

Inductive hashTypeIterator := HIZiplist (fptr vptr : option Z) | HIDict (di : kd_iter) (de : option kd_entry).
Implicit Types hi : hashTypeIterator.

(** [de] is not set yet. *)
Definition hashTypeInitIterator (subject : hobj) : hashTypeIterator :=
  match subject with
  | HZiplist _ => HIZiplist None None
  | HDict d => HIDict (kd_unsafe d) None
  end.

Definition hashTypeReleaseIterator o hi : option hobj :=
  match hi, o with
  | HIZiplist _ _, _ => Some o
  | HIDict di _, HDict d => Some (HDict (kd_release d di))
  | HIDict _ _, HZiplist _ => None
  end.

(** [false] is [C_ERR].  The subject has to keep the encoding of the iterator. *)
Definition hashTypeNext o hi : option (hobj * hashTypeIterator * bool) :=
  match hi, o with
  | HIZiplist fptr vptr, HZiplist zl =>
      fptr ← (match fptr, vptr with
              | None, None => ziplistIndex zl 0
              | Some _, Some vptr => ziplistNext zl vptr
              | _, _ => None
              end);
      match fptr with
      | None => Some (o, hi, false)
      | Some fptr =>
          vptr ← ziplistNext zl fptr;
          match vptr with
          | None => None
          | Some vptr => Some (o, HIZiplist (Some fptr) (Some vptr), true)
          end
      end
  | HIDict di de, HDict d =>
      r ← kd_next d di;
      let '(d, di, de) := r in
      Some (HDict d, HIDict di de, bool_decide (is_Some de))
  | _, _ => None
  end.

Definition hashTypeCurrentFromZiplist o hi (what : Z) : option zval :=
  match hi, o with
  | HIZiplist fptr vptr, HZiplist zl =>
      ret ← ziplistGet zl (if negb (Z.land what OBJ_HASH_KEY =? 0) then fptr else vptr);
      ret
  | _, _ => None
  end.

Definition hashTypeCurrentFromHashTable o hi (what : Z) : option (list Z) :=
  match hi, o with
  | HIDict di de, HDict d =>
      de ← de;
      if negb (Z.land what OBJ_HASH_KEY =? 0) then kd_key d de else kd_val d de
  | _, _ => None
  end.

Definition hashTypeCurrentObject o hi (what : Z) : option hvalue :=
  match hi, o with
  | HIZiplist _ _, HZiplist zl => v ← hashTypeCurrentFromZiplist o hi what; of_zval zl v
  | HIDict _ _, _ => ele ← hashTypeCurrentFromHashTable o hi what; Some (of_sds ele)
  | _, _ => None
  end.

Definition hashTypeCurrentObjectNewSds o hi (what : Z) : option (list Z) :=
  v ← hashTypeCurrentObject o hi what;
  match v with
  | HStr vstr => Some vstr
  | HInt vll => sdsfromlonglong buf vll
  end.

(** ** Conversion *)

(** [while (hashTypeNext(hi) != C_ERR)]; the panic is [None]. *)
Fixpoint convert_loop (fuel : nat) o hi (dict : D) : option (hobj * hashTypeIterator * D) :=
  match fuel with
  | O => None
  | S fuel' =>
      r ← hashTypeNext o hi;
      let '(o, hi, more) := r in
      if negb more then Some (o, hi, dict)
      else
        key ← hashTypeCurrentObjectNewSds o hi OBJ_HASH_KEY;
        value ← hashTypeCurrentObjectNewSds o hi OBJ_HASH_VALUE;
        ret ← kd_add dict key value;
        let '(dict, ok) := ret in
        if (ok : bool) then convert_loop fuel' o hi dict else None
  end.

(** Every turn goes two entries further: the bytes of the list are enough turns. *)
Definition hashTypeConvertZiplist o (enc : Z) : option hobj :=
  match o with
  | HDict _ => None
  | HZiplist zl =>
      if enc =? OBJ_ENCODING_ZIPLIST then Some o
      else if enc =? OBJ_ENCODING_HT then
        r ← convert_loop (length zl) o (hashTypeInitIterator o) kd_create;
        let '(o, hi, dict) := r in
        _ ← hashTypeReleaseIterator o hi;
        Some (HDict dict)
      else None
  end.

Definition hashTypeConvert o (enc : Z) : option hobj :=
  match o with
  | HZiplist _ => hashTypeConvertZiplist o enc
  | HDict _ => None
  end.

(** [for (i = start; i <= end; i++)], with the objects of [argv]. *)
Fixpoint try_loop (n : nat) o (argv : list robj) (i end_ : Z) : option hobj :=
  match n with
  | O => Some o
  | S n =>
      ob ← mget argv i;
      match sds_of (enc ob) with
      | Some s =>
          if zlen s >? hash_max_ziplist_value then hashTypeConvert o OBJ_ENCODING_HT
          else try_loop n o argv (i + 1) end_
      | None => try_loop n o argv (i + 1) end_
      end
  end.

Definition hashTypeTryConversion o (argv : list robj) (start end_ : Z) : option hobj :=
  match o with
  | HZiplist _ => try_loop (Z.to_nat (end_ - start + 1)) o argv start end_
  | HDict _ => Some o
  end.

(** ** Writing *)

Definition takes_sds (flags f : Z) : bool := negb (Z.land flags f =? 0).

(** The value is replaced, or the field and the value are pushed; [true] for an
    update. *)
Definition set_ziplist (zl : list Z) field value : option (list Z * bool) :=
  fptr ← find_field zl field;
  match fptr with
  | Some fptr =>
      vptr ← ziplistNext zl fptr;
      match vptr with
      | None => None
      | Some vptr =>
          r ← ziplistDelete junk zl vptr;
          let '(zl, vptr) := r in
          zl ← ziplistInsert junk zl vptr value (u32 (zlen value));
          Some (zl, true)
      end
  | None =>
      zl ← ziplistPush junk zl field (u32 (zlen field)) ZIPLIST_TAIL;
      zl ← ziplistPush junk zl value (u32 (zlen value)) ZIPLIST_TAIL;
      Some (zl, false)
  end.

(** Result: the object, whether it is an update, and what became of [field] and
    of [value]. *)
Definition hashTypeSet o field value (flags : Z) : option (hobj * bool * sds_fate * sds_fate) :=
  let free f := if takes_sds flags f then Freed else Kept in
  let give f := if takes_sds flags f then Stored else Kept in
  match o with
  | HZiplist zl =>
      r ← set_ziplist zl field value;
      let '(zl, update) := r in
      r ← hashTypeLength (HZiplist zl);
      let '(o, length) := r in
      o ← (if length >? hash_max_ziplist_entries then hashTypeConvert o OBJ_ENCODING_HT else Some o);
      Some (o, update, free HASH_SET_TAKE_FIELD, free HASH_SET_TAKE_VALUE)
  | HDict d =>
      r ← kd_find d field;
      match r with
      | (d, Some de) =>
          d ← kd_setval d de value;
          Some (HDict d, true, free HASH_SET_TAKE_FIELD, give HASH_SET_TAKE_VALUE)
      | (d, None) =>
          r ← kd_add d field value;
          Some (HDict (fst r), false, give HASH_SET_TAKE_FIELD, give HASH_SET_TAKE_VALUE)
      end
  end.

Definition hashTypeDelete o field : option (hobj * bool) :=
  match o with
  | HZiplist zl =>
      fptr ← find_field zl field;
      match fptr with
      | Some fptr =>
          r ← ziplistDelete junk zl fptr;
          let '(zl, fptr) := r in
          r ← ziplistDelete junk zl fptr;
          Some (HZiplist (fst r), true)
      | None => Some (o, false)
      end
  | HDict d =>
      r ← kd_delete d field;
      match r with
      | (d, Some _) =>
          d ← (if kd_needsResize d then kd_resize d else Some d);
          Some (HDict d, true)
      | (d, None) => Some (HDict d, false)
      end
  end.
End HashType.
Arguments hobj : clear implicits.
Arguments HZiplist {D} zl.
Arguments HDict {D} d.
