(* ===== verification/THashSpec.v ===== *)
(** * Hash objects as finite maps (t_hash.c)

    [hash_repr o m] says that the object holds the map [m], in either encoding.
    The order of a ziplist is that of a list of pairs without duplicates. *)
From Stdlib Require Import ZArith Lia.
From stdpp Require Import base numbers list option gmap.
From S2P Require Import Prelude UtilNum Keyspace DictIter DictObj Ziplist ZiplistWalk ZiplistSpec THash.

Abbreviation hash_map := (gmap key (list Z)).
Abbreviation pairs := (list (key * list Z)).

(** ** Fields and values in turn *)

Fixpoint flat (l : pairs) : list (list Z) :=
  match l with
  | [] => []
  | (k, v) :: l => k :: v :: flat l
  end.

Lemma flat_app l1 l2 : flat (l1 ++ l2) = flat l1 ++ flat l2.
Proof. induction l1 as [|[k v] l1 IH]; [done|]. cbn [app flat]. by rewrite IH. Qed.

Lemma flat_length l : length (flat l) = (2 * length l)%nat.
Proof. induction l as [|[k v] l IH]; [done|]. cbn [flat length]. lia. Qed.

Lemma zlen_flat l : zlen (flat l) = 2 * zlen l.
Proof. unfold zlen. rewrite flat_length. lia. Qed.

#[global] Instance zroom_flat_perm : Proper ((≡ₚ) ==> eq) (fun l => zroom (flat l)).
Proof. induction 1 as [|[k v] l1 l2 _ IH|[k1 v1] [k2 v2] l|l1 l2 l3 _ IH1 _ IH2]; cbn [flat zroom]; lia. Qed.

(** The room that the pairs of a map take in a ziplist. *)
Definition hroom (m : hash_map) : Z := zroom (flat (map_to_list m)).

Lemma hroom_pairs l : NoDup l.*1 -> hroom (list_to_map l) = zroom (flat l).
Proof. intros Hl. unfold hroom. apply zroom_flat_perm. by apply map_to_list_to_map. Qed.

Lemma hroom_fresh m k v : m !! k = None -> hroom (<[k := v]> m) = 36 + zlen k + zlen v + hroom m.
Proof. intros Hk. unfold hroom. etrans; [apply zroom_flat_perm; by apply map_to_list_insert|]. cbn [flat zroom]. lia. Qed.

Lemma hroom_delete m k : hroom (delete k m) <= hroom m.
Proof.
  destruct (m !! k) as [v|] eqn:E; [|by rewrite delete_id].
  rewrite <- (insert_delete_id m k v E) at 2. rewrite hroom_fresh by apply lookup_delete_eq. pose_zlen. lia.
Qed.

Lemma hroom_insert m k v : hroom (<[k := v]> m) <= 36 + zlen k + zlen v + hroom m.
Proof. rewrite <- insert_delete_eq, hroom_fresh by apply lookup_delete_eq. pose proof (hroom_delete m k). lia. Qed.

(** ** Editing the pairs *)

(** Where the pair of a field is. *)
Lemma pairs_split (l : pairs) (f : key) : f ∉ l.*1 \/ exists l1 v l2, l = l1 ++ (f, v) :: l2 /\ f ∉ l1.*1.
Proof.
  induction l as [|[k v] l IH]; [left; apply not_elem_of_nil|]. destruct (decide (f = k)) as [->|Hk].
  - right. exists [], v, l. split; [done|apply not_elem_of_nil].
  - destruct IH as [Hf|(l1 & w & l2 & -> & Hf)]; [left|right].
    + cbn. by rewrite not_elem_of_cons.
    + exists ((k, v) :: l1), w, l2. split; [done|]. cbn. by rewrite not_elem_of_cons.
Qed.

Lemma zfind_flat l1 f v l2 : f ∉ l1.*1 -> zfind f 1 0 (flat (l1 ++ (f, v) :: l2)) = Some (length (flat l1)).
Proof.
  induction l1 as [|[k w] l1 IH]; cbn [app flat zfind fmap list_fmap fst]; [by rewrite bool_decide_true|].
  intros [Hk Hf]%not_elem_of_cons. rewrite bool_decide_false by done. by rewrite IH.
Qed.

Lemma zfind_flat_none l f : f ∉ l.*1 -> zfind f 1 0 (flat l) = None.
Proof.
  induction l as [|[k w] l IH]; cbn [flat zfind fmap list_fmap fst]; [done|].
  intros [Hk Hf]%not_elem_of_cons. rewrite bool_decide_false by done. by rewrite IH.
Qed.

Section Pairs.
Context (l1 : pairs) (f : key) (v : list Z) (l2 : pairs).
Hypothesis Hnd : NoDup (l1 ++ (f, v) :: l2).*1.

Lemma pairs_lookup : (list_to_map (l1 ++ (f, v) :: l2) : hash_map) !! f = Some v.
Proof. apply elem_of_list_to_map_1; [done|]. apply elem_of_app. right. apply elem_of_cons. by left. Qed.

Lemma pairs_others : f ∉ (l1 ++ l2).*1 /\ NoDup (l1 ++ l2).*1.
Proof.
  assert (Hp : (l1 ++ (f, v) :: l2).*1 ≡ₚ f :: (l1 ++ l2).*1) by (by rewrite <- Permutation_middle).
  rewrite Hp in Hnd. by apply NoDup_cons in Hnd.
Qed.

Lemma pairs_delete : (list_to_map (l1 ++ l2) : hash_map) = delete f (list_to_map (l1 ++ (f, v) :: l2)).
Proof.
  destruct pairs_others as [Hf Hn]. rewrite (list_to_map_proper (l1 ++ (f, v) :: l2) ((f, v) :: l1 ++ l2)); [|done|by rewrite <- Permutation_middle].
  cbn. rewrite delete_insert_id; [done|]. by apply not_elem_of_list_to_map_1.
Qed.

Lemma pairs_update w : NoDup (l1 ++ (f, w) :: l2).*1 /\
  (list_to_map (l1 ++ (f, w) :: l2) : hash_map) = <[f := w]> (list_to_map (l1 ++ (f, v) :: l2)).
Proof.
  assert (Hn : NoDup (l1 ++ (f, w) :: l2).*1) by (revert Hnd; by rewrite !fmap_app).
  split; [done|]. rewrite <- insert_delete_eq, <- pairs_delete. symmetry.
  rewrite (list_to_map_proper (l1 ++ (f, w) :: l2) ((f, w) :: l1 ++ l2)); [done|done|by rewrite <- Permutation_middle].
Qed.
End Pairs.

Lemma pairs_new (l : pairs) (f : key) w : NoDup l.*1 -> f ∉ l.*1 ->
  NoDup (l ++ [(f, w)]).*1 /\ (list_to_map (l ++ [(f, w)]) : hash_map) = <[f := w]> (list_to_map l).
Proof.
  intros Hn Hf. assert (Hp : (l ++ [(f, w)]) ≡ₚ (f, w) :: l) by (by rewrite <- Permutation_cons_append).
  assert (Hn' : NoDup (l ++ [(f, w)]).*1) by (rewrite Hp; cbn; by apply NoDup_cons). split; [done|].
  by rewrite (list_to_map_proper _ _ Hn' Hp).
Qed.

(** ** Objects *)

Definition small (s : list Z) : Prop := zlen s < 2 ^ 32.

Section Repr.
Context {D : Type} `{ODL : ObjDictLaws D (list Z)}.
Implicit Types (o : hobj D) (m : hash_map) (zl : list Z) (f field v : list Z).

Definition hash_repr o m : Prop :=
  match o with
  | HZiplist zl => exists l, NoDup l.*1 /\ m = list_to_map l /\ zl_repr zl (flat l)
  | HDict d => kd_repr d m /\ map_Forall (fun k v => small k /\ small v) m
  end.

Definition in_ziplist o : Prop := match o with HZiplist _ => True | HDict _ => False end.

Lemma createHashObject_repr junk : exists o, createHashObject junk = Some o /\ hash_repr o ∅ /\ in_ziplist o.
Proof.
  destruct (ziplistNew_repr junk) as (zl & Hz & Hr). exists (HZiplist zl). unfold createHashObject. rewrite Hz. split; [done|].
  split; [|done]. exists []. split; [constructor|]. by split.
Qed.

(** ** Looking a field up in a ziplist *)

(** What [find_field] answers. *)
Definition found zl (l : pairs) f (r : option Z) : Prop :=
  match r with
  | None => f ∉ l.*1
  | Some p => exists l1 v l2 q, l = l1 ++ (f, v) :: l2 /\ zl_at zl (flat l) (length (flat l1)) p /\
      ziplistNext zl p = Some (Some q) /\ zl_at zl (flat l) (S (length (flat l1))) q
  end.

Lemma small_u32 (s : list Z) : small s -> u32 (zlen s) = zlen s.
Proof. intros Hs. apply uwrap_small. unfold small in Hs. pose_zlen. lia. Qed.

Lemma find_field_spec zl l f : zl_repr zl (flat l) -> small f -> exists r, find_field zl f = Some r /\ found zl l f r.
Proof.
  intros Hr Hf. unfold find_field. destruct (ziplistIndex_at zl (flat l) 0 Hr) as (r & Hi & Hp); [by unfold in_s; lia|].
  change ZIPLIST_HEAD with 0. rewrite Hi. cbn [mbind option_bind]. destruct l as [|kv0 l0] eqn:El.
  { destruct r as [p|]; [destruct Hp as [Hlt _]; cbn in Hlt; lia|]. exists None. split; [done|]. apply not_elem_of_nil. }
  rewrite <- El in *. assert (Hix : index_of (flat l) 0 = Some 0%nat).
  { unfold index_of. rewrite zlen_flat, El. unfold zlen. cbn [length]. cbn. rewrite (proj2 (Z.ltb_lt _ _)) by lia. done. }
  rewrite Hix in Hp. cbn [default id] in Hp. destruct r as [p|]; [|exfalso; cbn in Hp; rewrite flat_length, El in Hp; cbn in Hp; lia].
  destruct Hp as [_ Hat]. rewrite small_u32 by done. destruct (ziplistFind_at zl (flat l) 0 p f 1 Hat ltac:(lia)) as (r & Hfind & Hz).
  rewrite drop_0 in Hz. exists r. split; [exact Hfind|]. destruct (pairs_split l f) as [Hn|(l1 & v & l2 & E & Hn)].
  { rewrite zfind_flat_none in Hz by done. by subst r. }
  rewrite E, zfind_flat, <- E in Hz by done. destruct Hz as (q & -> & Hq). cbn [plus] in Hq.
  destruct (ziplistNext_at zl (flat l) _ q Hq) as (r' & Hnext & Hr'); [rewrite E, flat_app, length_app; cbn [flat length]; lia|].
  destruct r' as [q'|]; [|exfalso; cbn in Hr'; rewrite E, flat_app, length_app in Hr'; cbn [flat length] in Hr'; lia].
  destruct Hr' as [_ Hq']. by exists l1, v, l2, q'.
Qed.

(** The value that an answer stands for. *)
Definition hvalue_is (h : hvalue) v : Prop :=
  match h with
  | HStr s => s = v
  | HInt n => v = dec n /\ in_s 64 n
  end.

Definition zval_is zl (z : zval) v : Prop :=
  zval_bytes zl z = Some v /\ match z with ZStr _ n => n = zlen v | ZInt w => in_s 64 w end.

Lemma of_zval_spec zl z v : zval_is zl z v -> exists h, of_zval zl z = Some h /\ hvalue_is h v.
Proof.
  intros [Hb Hz]. destruct z as [off n|w]; cbn [zval_bytes of_zval] in *.
  - rewrite Hb. cbn [mbind option_bind]. by exists (HStr v).
  - injection Hb as <-. by exists (HInt w).
Qed.

Lemma of_sds_spec v : small v -> hvalue_is (of_sds v) v.
Proof. intros Hv. unfold of_sds. rewrite small_u32 by done. cbn. apply firstn_all2. unfold zlen. lia. Qed.

Lemma flat_value l1 f v l2 : flat (l1 ++ (f, v) :: l2) !! S (length (flat l1)) = Some v.
Proof. rewrite flat_app. rewrite lookup_app_r by lia. replace (S (length (flat l1)) - length (flat l1))%nat with 1%nat by lia. done. Qed.

Lemma flat_field l1 f v l2 : flat (l1 ++ (f, v) :: l2) !! length (flat l1) = Some f.
Proof. rewrite flat_app. rewrite lookup_app_r by lia. by rewrite Nat.sub_diag. Qed.

Lemma get_ziplist zl l f : NoDup l.*1 -> zl_repr zl (flat l) -> small f ->
  exists r, hashTypeGetFromZiplist (D := D) (HZiplist zl) f = Some r /\
    match (list_to_map l : hash_map) !! f with
    | Some v => exists z, r = Some z /\ zval_is zl z v
    | None => r = None
    end.
Proof.
  intros Hn Hr Hf. unfold hashTypeGetFromZiplist. destruct (find_field_spec zl l f Hr Hf) as (r & -> & Hfd).
  cbn [mbind option_bind]. destruct r as [p|].
  - destruct Hfd as (l1 & v & l2 & q & -> & Hp & -> & Hq). cbn [mbind option_bind]. rewrite pairs_lookup by done.
    destruct (ziplistGet_val zl _ _ q v Hq (flat_value l1 f v l2)) as (z & -> & Hz). cbn [mbind option_bind]. eauto.
  - cbn in Hfd. rewrite not_elem_of_list_to_map_1 by done. eauto.
Qed.

Lemma get_table o d m f : o = HDict d -> hash_repr o m ->
  exists o', hashTypeGetFromHashTable o f = Some (o', m !! f) /\ hash_repr o' m.
Proof.
  intros -> [Hr Hsm]. unfold hashTypeGetFromHashTable. destruct (kd_find_spec d m f Hr) as (d' & r & -> & Hr' & Hm).
  cbn [mbind option_bind]. destruct (m !! f) as [v|] eqn:E.
  - destruct Hm as (e & -> & He). destruct (kd_val_spec d' m e f Hr' He) as [-> _]. rewrite E. cbn [mbind option_bind].
    exists (HDict d'). done.
  - subst r. exists (HDict d'). done.
Qed.

(** ** The operations that read *)

Lemma hash_get o m f : hash_repr o m -> small f ->
  exists o' r, hashTypeGetValue o f = Some (o', r) /\ hash_repr o' m /\
    match m !! f with
    | Some v => exists h, r = Some h /\ hvalue_is h v
    | None => r = None
    end.
Proof.
  intros Hr Hf. destruct o as [zl|d]; unfold hashTypeGetValue.
  - destruct Hr as (l & Hn & -> & Hr). destruct (get_ziplist zl l f Hn Hr Hf) as (r & -> & Hm). cbn [mbind option_bind].
    assert (Hr' : hash_repr (HZiplist zl) (list_to_map l)) by by exists l.
    destruct (list_to_map l !! f) as [v|].
    + destruct Hm as (z & -> & Hz). destruct (of_zval_spec zl z v Hz) as (h & -> & Hh). cbn [mbind option_bind]. eauto 10.
    + subst r. eauto.
  - destruct (get_table (HDict d) d m f eq_refl Hr) as (o' & -> & Hr'). cbn [mbind option_bind fst snd].
    eexists o', _. split; [done|]. split; [done|]. destruct (m !! f) as [v|] eqn:E; [|done]. eexists. split; [done|].
    apply of_sds_spec. destruct Hr as [_ Hsm]. by apply (Hsm f).
Qed.

Lemma hash_strlen o m f : hash_repr o m -> small f ->
  exists o', hashTypeGetValueLength o f = Some (o', zlen (default [] (m !! f))) /\ hash_repr o' m.
Proof.
  intros Hr Hf. destruct o as [zl|d]; unfold hashTypeGetValueLength.
  - destruct Hr as (l & Hn & -> & Hr). destruct (get_ziplist zl l f Hn Hr Hf) as (r & -> & Hm). cbn [mbind option_bind].
    exists (HZiplist zl). split; [|by exists l]. destruct (list_to_map l !! f) as [v|]; [|by subst r].
    destruct Hm as (z & -> & Hz & Hn'). destruct z as [off n|w]; [by subst n|]. cbn in Hz. injection Hz as <-.
    by rewrite sdigits10_dec.
  - destruct (get_table (HDict d) d m f eq_refl Hr) as (o' & -> & Hr'). cbn [mbind option_bind fst snd].
    exists o'. split; [|done]. by destruct (m !! f).
Qed.

Lemma hash_exists o m f : hash_repr o m -> small f ->
  exists o', hashTypeExists o f = Some (o', bool_decide (is_Some (m !! f))) /\ hash_repr o' m.
Proof.
  intros Hr Hf. destruct o as [zl|d]; unfold hashTypeExists.
  - destruct Hr as (l & Hn & -> & Hr). destruct (get_ziplist zl l f Hn Hr Hf) as (r & -> & Hm). cbn [mbind option_bind].
    exists (HZiplist zl). split; [|by exists l]. do 2 f_equal. apply bool_decide_ext.
    destruct (list_to_map l !! f) as [v|]; [|by subst r]. destruct Hm as (z & -> & _). by split; eexists.
  - destruct (get_table (HDict d) d m f eq_refl Hr) as (o' & -> & Hr'). cbn [mbind option_bind fst snd]. by exists o'.
Qed.

Lemma size_pairs (l : pairs) : NoDup l.*1 -> base.size (list_to_map l : hash_map) = length l.
Proof. intros Hn. rewrite <- length_map_to_list. by rewrite map_to_list_to_map. Qed.

Lemma hash_length o m : hash_repr o m ->
  exists o', hashTypeLength o = Some (o', Z.of_nat (base.size m)) /\ hash_repr o' m /\ (in_ziplist o -> in_ziplist o').
Proof.
  intros Hr. destruct o as [zl|d]; unfold hashTypeLength.
  - destruct Hr as (l & Hn & -> & Hr). destruct (ziplistLen_at zl (flat l) Hr) as (zl' & -> & Hr'). cbn [mbind option_bind fst snd].
    exists (HZiplist zl'). rewrite zlen_flat, size_pairs by done. split; [|split; [by exists l|done]].
    do 2 f_equal. unfold zlen. rewrite Z.mul_comm. by apply Z.div_mul.
  - exists (HDict d). rewrite (kd_size_spec d m (proj1 Hr)). done.
Qed.
End Repr.
