(* ===== verification/THashProof.v ===== *)
(** * Iterating over hash objects, converting and changing them (t_hash.c)

    [hash_left m o hi l] says that the iterator [hi] still has to visit the pairs
    [l] of the map [m]; the iterators change nothing.  Converting a ziplist gives
    a dictionary with the same map, and every change is that of the map. *)
From Stdlib Require Import ZArith Lia.
From stdpp Require Import base numbers list option gmap.
From S2P Require Import Prelude UtilNum Sds SdsRefine Object ObjectHeap Keyspace DictIter DictObj Ziplist ZiplistWalk ZiplistSpec THash THashSpec.

Section Proof.
Context {D : Type} `{ODL : ObjDictLaws D (list Z)}.
Context (junk : nat -> Z) (buf : list Z) (hash_max_ziplist_value hash_max_ziplist_entries : Z).
Hypothesis Hbuf : SDS_LLSTR_SIZE <= zlen buf.
Implicit Types (o : hobj D) (m : hash_map) (zl : list Z) (f v : list Z) (hi : hashTypeIterator (D := D)).

(** ** Iterating *)

Definition hash_left m o hi (l : pairs) : Prop :=
  match o, hi with
  | HZiplist zl, HIZiplist None None => zl_repr zl (flat l) /\ NoDup l.*1 /\ m = list_to_map l
  | HZiplist zl, HIZiplist (Some fptr) (Some vptr) => exists l0 f v,
      m = list_to_map (l0 ++ (f, v) :: l) /\ NoDup (l0 ++ (f, v) :: l).*1 /\
      zl_at zl (flat (l0 ++ (f, v) :: l)) (length (flat l0)) fptr /\
      zl_at zl (flat (l0 ++ (f, v) :: l)) (S (length (flat l0))) vptr
  | HDict d, HIDict di _ => kd_togo d di l.*1 /\ Forall (fun e => m !! fst e = Some (snd e)) l
  | _, _ => False
  end.

(** The pair that the iterator stands at. *)
Definition hash_current o hi f v : Prop :=
  (exists h, hashTypeCurrentObject o hi OBJ_HASH_KEY = Some h /\ hvalue_is h f) /\
  (exists h, hashTypeCurrentObject o hi OBJ_HASH_VALUE = Some h /\ hvalue_is h v).

Lemma iter_start o m : hash_repr o m -> exists l, l ≡ₚ map_to_list m /\ hash_left m o (hashTypeInitIterator o) l.
Proof.
  destruct o as [zl|d]; cbn [hash_repr hashTypeInitIterator].
  - intros (l & Hn & -> & Hr). exists l. split; [symmetry; by apply map_to_list_to_map|]. done.
  - intros [Hr _]. destruct (kd_unsafe_spec d m Hr) as (ks & Hks & Hg). exists ((fun k => (k, default [] (m !! k))) <$> ks).
    assert (Hmap : (fun k => (k, default [] (m !! k))) <$> (map_to_list m).*1 = map_to_list m).
    { rewrite <- list_fmap_compose. rewrite <- (list_fmap_id (map_to_list m)) at 2. apply list_fmap_ext.
      intros i [k v] Hi. cbn. apply list_elem_of_lookup_2, elem_of_map_to_list in Hi. by rewrite Hi. }
    split; [by rewrite Hks, Hmap|]. split.
    + rewrite <- list_fmap_compose. rewrite (list_fmap_ext _ id); [by rewrite list_fmap_id|done].
    + rewrite Forall_fmap. apply Forall_forall. intros k Hk. cbn. rewrite Hks in Hk.
      apply list_elem_of_fmap in Hk as ([k' v] & -> & Hk%elem_of_map_to_list). cbn. by rewrite Hk.
Qed.

Lemma current_ziplist zl l0 f v l fptr vptr :
  zl_at zl (flat (l0 ++ (f, v) :: l)) (length (flat l0)) fptr -> zl_at zl (flat (l0 ++ (f, v) :: l)) (S (length (flat l0))) vptr ->
  hash_current (HZiplist zl) (HIZiplist (Some fptr) (Some vptr)) f v.
Proof.
  intros Hf Hv. destruct (ziplistGet_val zl _ _ fptr f Hf (flat_field l0 f v l)) as (a & Ea & Ha).
  destruct (ziplistGet_val zl _ _ vptr v Hv (flat_value l0 f v l)) as (b & Eb & Hb).
  destruct (of_zval_spec zl a f Ha) as (x & Ex & Hx). destruct (of_zval_spec zl b v Hb) as (y & Ey & Hy).
  assert (E : forall what r z h, ziplistGet zl r = Some (Some z) -> of_zval zl z = Some h ->
    (if negb (Z.land what OBJ_HASH_KEY =? 0) then Some fptr else Some vptr) = r ->
    hashTypeCurrentObject (D := D) (HZiplist zl) (HIZiplist (Some fptr) (Some vptr)) what = Some h).
  { intros what r z h Hg Hz Er. unfold hashTypeCurrentObject, hashTypeCurrentFromZiplist. rewrite Er, Hg. exact Hz. }
  split; [exists x|exists y]; (split; [|done]); [exact (E OBJ_HASH_KEY _ _ _ Ea Ex eq_refl)|exact (E OBJ_HASH_VALUE _ _ _ Eb Ey eq_refl)].
Qed.

Lemma next_ziplist zl l0 l fptr : zl_at zl (flat (l0 ++ l)) (length (flat l0)) fptr -> l <> [] ->
  exists vptr, ziplistNext zl fptr = Some (Some vptr) /\ zl_at zl (flat (l0 ++ l)) (S (length (flat l0))) vptr.
Proof.
  intros Hf Hl. destruct l as [|[f v] l]; [done|].
  assert (Hlen : (S (length (flat l0)) < length (flat (l0 ++ (f, v) :: l)))%nat) by (rewrite flat_app, length_app; cbn [flat length]; lia).
  destruct (ziplistNext_at zl _ _ fptr Hf) as (r & Hn & Hr); [lia|]. destruct r as [q|]; [|cbn in Hr; lia].
  destruct Hr as [_ Hr]. by exists q.
Qed.

(** The pointer after a value is that of the next field. *)
Lemma next_field zl l0 f v l vptr : zl_at zl (flat (l0 ++ (f, v) :: l)) (S (length (flat l0))) vptr ->
  exists r, ziplistNext zl vptr = Some r /\
  match r with
  | Some p => l <> [] /\ zl_at zl (flat ((l0 ++ [(f, v)]) ++ l)) (length (flat (l0 ++ [(f, v)]))) p
  | None => l = []
  end.
Proof.
  intros Hv. assert (Hlen : length (flat (l0 ++ [(f, v)])) = S (S (length (flat l0)))) by (rewrite flat_app, length_app; cbn [flat length]; lia).
  assert (Hall : length (flat (l0 ++ (f, v) :: l)) = (S (S (length (flat l0))) + length (flat l))%nat) by (rewrite flat_app, length_app; cbn [flat length]; lia).
  destruct (ziplistNext_at zl _ _ vptr Hv) as (r & Hn & Hr); [lia|]. exists r. split; [done|]. destruct r as [p|]; cbn [zl_ptr] in Hr.
  - destruct Hr as [Hlt Hr]. rewrite Hlen, <- app_assoc. split; [|done]. intros ->. cbn in Hall. lia.
  - destruct l as [|[k w] l]; [done|]. cbn [flat length] in Hall. lia.
Qed.

Lemma iter_next o m hi l : hash_repr o m -> hash_left m o hi l ->
  match l with
  | [] => exists hi', hashTypeNext o hi = Some (o, hi', false) /\ hash_left m o hi' []
  | (f, v) :: l' => exists hi', hashTypeNext o hi = Some (o, hi', true) /\ hash_left m o hi' l' /\ hash_current o hi' f v
  end.
Proof.
  intros Hrep Hleft. destruct o as [zl|d], hi as [fptr vptr|di de]; try done.
  - assert (Hstep : exists r l0, (match fptr, vptr with
        | None, None => ziplistIndex zl 0 | Some _, Some vptr => ziplistNext zl vptr | _, _ => None end) = Some r /\
        m = list_to_map (l0 ++ l) /\ NoDup (l0 ++ l).*1 /\
        match r with Some p => l <> [] /\ zl_at zl (flat (l0 ++ l)) (length (flat l0)) p | None => l = [] end).
    { destruct fptr as [fptr|], vptr as [vptr|]; try done.
      - destruct Hleft as (l0 & f & v & Hm & Hn & Hf & Hv). destruct (next_field zl l0 f v l vptr Hv) as (r & E & Hr).
        exists r, (l0 ++ [(f, v)]). rewrite <- app_assoc. cbn [app]. split; [done|]. split; [done|]. split; [done|].
        rewrite <- app_assoc in Hr. exact Hr.
      - destruct Hleft as (Hr & Hn & Hm). destruct (ziplistIndex_at zl (flat l) 0 Hr) as (r & E & Hp); [by unfold in_s; lia|].
        exists r, []. split; [done|]. split; [done|]. split; [done|]. destruct l as [|[k w] l].
        + destruct r as [p|]; [|done]. destruct Hp as [Hlt _]. cbn in Hlt. lia.
        + unfold index_of in Hp. rewrite zlen_flat in Hp. cbn in Hp. rewrite (proj2 (Z.ltb_lt _ _)) in Hp by (unfold zlen; cbn; lia).
          cbn in Hp. destruct r as [p|]; [by destruct Hp|done]. }
    unfold hashTypeNext. destruct Hstep as (r & l0 & -> & Hm & Hn & Hr). cbn [mbind option_bind].
    destruct r as [p|].
    + destruct Hr as [Hne Hp]. destruct (next_ziplist zl l0 l p Hp Hne) as (q & -> & Hq). cbn [mbind option_bind].
      destruct l as [|[f v] l]; [done|]. eexists. split; [done|]. split; [|by eapply current_ziplist].
      cbn [hash_left]. exists l0, f, v. done.
    + subst l. eexists. split; [done|]. exact Hleft.
  - destruct Hleft as [Hg Hall]. destruct Hrep as [Hr Hsm]. unfold hashTypeNext.
    destruct (kd_step_spec d m di _ Hr Hg) as (di' & r & -> & Hl). cbn [mbind option_bind]. destruct l as [|[f v] l]; cbn [fmap list_fmap fst] in Hl.
    + destruct Hl as [-> Hg']. eexists. split; [done|]. done.
    + destruct Hl as (e & -> & He & Hg'). apply Forall_cons_1 in Hall as [Hk Hall]. cbn in Hk. eexists. split; [done|].
      split; [done|]. destruct (kd_val_spec d m e f Hr He) as [Hv _]. rewrite Hk in Hv. pose proof (kd_key_spec d m e f Hr He) as Hkey.
      split; eexists; (split; [cbn; unfold hashTypeCurrentFromHashTable; cbn; rewrite ?Hkey, ?Hv; reflexivity|]);
        apply of_sds_spec; by apply (Hsm f v).
Qed.

(** ** Conversion *)

Lemma new_sds o hi what v : (exists h, hashTypeCurrentObject o hi what = Some h /\ hvalue_is h v) ->
  hashTypeCurrentObjectNewSds buf o hi what = Some v.
Proof.
  intros (h & E & Hh). unfold hashTypeCurrentObjectNewSds. rewrite E. cbn [mbind option_bind].
  destruct h as [s|n]; cbn in Hh; [by subst s|]. destruct Hh as [-> Hn].
  unfold sdsfromlonglong. rewrite (sdsll2str_spec buf n Hn Hbuf). cbn [mbind option_bind fst snd]. by apply mread_0.
Qed.

Lemma convert_loop_spec (fuel : nat) o m hi (l : pairs) (d : D) m0 : hash_repr o m -> hash_left m o hi l -> NoDup l.*1 ->
  kd_repr d m0 -> (forall f, f ∈ l.*1 -> m0 !! f = None) -> Z.of_nat (base.size m0 + length l) < 2 ^ 60 -> (length l < fuel)%nat ->
  exists hi' d', convert_loop buf fuel o hi d = Some (o, hi', d') /\ hash_left m o hi' [] /\ kd_repr d' (list_to_map l ∪ m0).
Proof.
  intros Hrep. revert hi l d m0. induction fuel as [|fuel IH]; intros hi l d m0 Hleft Hnd Hd Hnew Hsz Hf; [lia|].
  cbn [convert_loop]. pose proof (iter_next o m hi l Hrep Hleft) as Hnext. destruct l as [|[f v] l].
  - destruct Hnext as (hi' & -> & Hl). cbn [mbind option_bind negb]. exists hi', d. split; [done|]. split; [done|].
    cbn. by rewrite (left_id_L ∅ (∪)).
  - destruct Hnext as (hi' & -> & Hl & Hk & Hv). cbn [mbind option_bind negb].
    rewrite (new_sds _ _ _ _ Hk), (new_sds _ _ _ _ Hv). cbn [mbind option_bind].
    cbn [fmap list_fmap fst] in Hnd, Hnew. apply NoDup_cons in Hnd as [Hfl Hnd]. cbn [length] in Hf, Hsz.
    assert (Hnone : m0 !! f = None) by (apply Hnew; by left).
    destruct (kd_add_spec d m0 f v Hd ltac:(lia)) as (d' & -> & Hd'). cbn [mbind option_bind].
    rewrite bool_decide_true by done. rewrite decide_True in Hd' by done.
    destruct (IH hi' l d' (<[f := v]> m0)) as (hi2 & d2 & -> & Hl2 & Hr2); [done|done|done| | |lia|].
    + intros g Hg. rewrite lookup_insert_ne by (intros ->; done). apply Hnew. by right.
    + rewrite map_size_insert_None by done. lia.
    + exists hi2, d2. split; [done|]. split; [done|]. cbn [list_to_map foldr fst snd].
      rewrite <- insert_union_l. rewrite insert_union_r by (by apply not_elem_of_list_to_map_1). exact Hr2.
Qed.

Lemma pairs_small zl (l : pairs) : zl_repr zl (flat l) -> map_Forall (fun k v => small k /\ small v) (list_to_map l : hash_map).
Proof.
  intros [Hroom _]. assert (Hall : Forall (fun e => small (fst e) /\ small (snd e)) l).
  { induction l as [|[k v] l IH]; [constructor|]. cbn [flat zroom] in Hroom. pose proof (zroom_min (flat l)). constructor.
    - unfold small. cbn. pose_zlen. lia.
    - apply IH. pose_zlen. lia. }
  intros k v Hk. apply elem_of_list_to_map_2 in Hk. rewrite Forall_forall in Hall. exact (Hall (k, v) Hk).
Qed.

(** A ziplist is converted to a dictionary that holds the same map. *)
Lemma convert_spec o m : hash_repr o m -> in_ziplist o ->
  exists d, hashTypeConvert buf o OBJ_ENCODING_HT = Some (HDict d) /\ hash_repr (HDict d) m.
Proof.
  intros Hr Hz. destruct o as [zl|]; [|done]. pose proof Hr as (l & Hn & -> & Hzl). unfold hashTypeConvert, hashTypeConvertZiplist.
  cbn [Z.eqb Pos.eqb OBJ_ENCODING_HT OBJ_ENCODING_ZIPLIST].
  assert (Hlen : (length l < length zl)%nat) by (pose proof (zl_repr_fuel zl _ Hzl) as Hf; rewrite flat_length in Hf; lia).
  assert (Hsz : Z.of_nat (length l) < 2 ^ 32).
  { destruct Hzl as [Hroom _]. pose proof (zroom_length (flat l)) as Hf. rewrite zlen_flat in Hf. unfold zlen in Hf. lia. }
  destruct (convert_loop_spec (length zl) (HZiplist zl) (list_to_map l) (hashTypeInitIterator (HZiplist zl)) l kd_create ∅)
    as (hi & d & E & Hl & Hd); [done|by split|done|apply kd_create_spec|by intros; apply lookup_empty|rewrite map_size_empty; lia|done|].
  rewrite E. cbn [mbind option_bind]. rewrite (right_id_L ∅ (∪)) in Hd.
  assert (Hrel : hashTypeReleaseIterator (HZiplist zl) hi = Some (HZiplist zl)) by (destruct hi; done).
  rewrite Hrel. cbn [mbind option_bind]. exists d. split; [done|]. split; [done|by eapply pairs_small].
Qed.

(** [hashTypeTryConversion] converts when one of the arguments is too long. *)
Lemma try_conversion_spec o m (argv : list robj) (start : Z) (n : nat) : hash_repr o m -> 0 <= start -> start + Z.of_nat n <= zlen argv ->
  exists o', hashTypeTryConversion buf hash_max_ziplist_value o argv start (start + Z.of_nat n - 1) = Some o' /\ hash_repr o' m.
Proof.
  intros Hr Hs Hn. destruct o as [zl|d]; [|by exists (HDict d)]. unfold hashTypeTryConversion.
  replace (Z.to_nat _) with n by lia. generalize (start + Z.of_nat n - 1) as end_. revert start Hs Hn.
  induction n as [|n IH]; intros start Hs Hn end_; cbn [try_loop]; [by exists (HZiplist zl)|].
  destruct (mget_is_Some argv start) as [ob ->]; [lia|]. cbn [mbind option_bind].
  destruct (sds_of (enc ob)) as [s|]; [|apply IH; lia]. destruct (_ >? _); [|apply IH; lia].
  destruct (convert_spec (HZiplist zl) m Hr I) as (d & -> & Hd). by exists (HDict d).
Qed.

(** ** Changing *)

Lemma set_ziplist_spec zl (l : pairs) f v : NoDup l.*1 -> zl_repr zl (flat l) -> small f ->
  hroom (<[f := v]> (list_to_map l)) < 2 ^ 32 ->
  exists zl' l', set_ziplist junk zl f v = Some (zl', bool_decide (is_Some ((list_to_map l : hash_map) !! f))) /\
    zl_repr zl' (flat l') /\ NoDup l'.*1 /\ <[f := v]> (list_to_map l : hash_map) = list_to_map l'.
Proof.
  intros Hn Hr Hf Hroom. unfold set_ziplist. destruct (find_field_spec zl l f Hr Hf) as (r & -> & Hfd). cbn [mbind option_bind].
  destruct r as [p|].
  - destruct Hfd as (l1 & w & l2 & q & -> & Hp & -> & Hq). cbn [mbind option_bind]. rewrite pairs_lookup by done.
    destruct (pairs_update l1 f w l2 Hn v) as [Hn' Hm]. rewrite <- Hm, hroom_pairs in Hroom by done.
    rewrite flat_app in Hq, Hroom. cbn [flat] in Hq, Hroom.
    destruct (ziplistDelete_at junk zl _ _ q Hq) as (zl1 & -> & Hz1); [rewrite length_app; cbn [length]; lia|]. cbn [mbind option_bind].
    rewrite take_app_ge in Hz1 by lia. rewrite drop_app_ge in Hz1 by lia.
    replace (S (length (flat l1)) - length (flat l1))%nat with 1%nat in Hz1 by lia.
    replace (S (S (length (flat l1))) - length (flat l1))%nat with 2%nat in Hz1 by lia. cbn [take drop] in Hz1. rewrite drop_0 in Hz1.
    assert (Hv : small v) by (unfold small; rewrite zroom_app in Hroom; cbn [zroom] in Hroom; pose proof (zroom_min (flat l1)); pose proof (zroom_min (flat l2)); pose_zlen; lia).
    assert (Ht : take (S (length (flat l1))) ((flat l1 ++ [f]) ++ flat l2) = flat l1 ++ [f]).
    { rewrite take_app_length' by (rewrite length_app; cbn [length]; lia). done. }
    assert (Hd : drop (S (length (flat l1))) ((flat l1 ++ [f]) ++ flat l2) = flat l2).
    { rewrite drop_app_length' by (rewrite length_app; cbn [length]; lia). done. }
    destruct (ziplistInsert_at junk zl1 _ _ q v Hz1) as (zl2 & Hi & Hz2).
    + rewrite Ht, Hd, <- app_assoc. exact Hroom.
    + unfold ziplistInsert. rewrite small_u32 by done. rewrite Hi. cbn [mbind option_bind]. exists zl2, (l1 ++ (f, v) :: l2).
      split; [done|]. split; [|done]. rewrite Ht, Hd, <- app_assoc in Hz2. rewrite flat_app. by apply zl_at_repr in Hz2.
  - cbn in Hfd. destruct (pairs_new l f v Hn Hfd) as [Hn' Hm]. rewrite <- Hm, hroom_pairs in Hroom by done.
    rewrite flat_app, zroom_app in Hroom. cbn [flat zroom] in Hroom. pose proof (zroom_min (flat l)) as Hmin.
    assert (Hv : small v) by (unfold small; pose_zlen; lia). rewrite !small_u32 by done.
    destruct (zl_push_spec junk zl (flat l) f ZIPLIST_TAIL Hr) as (zl1 & -> & Hz1); [cbn [zroom]; pose_zlen; lia|]. cbn [mbind option_bind].
    cbn [Z.eqb Pos.eqb ZIPLIST_TAIL ZIPLIST_HEAD] in Hz1.
    destruct (zl_push_spec junk zl1 (flat l ++ [f]) v ZIPLIST_TAIL Hz1) as (zl2 & -> & Hz2); [cbn [zroom]; rewrite zroom_app; cbn [zroom]; lia|].
    cbn [mbind option_bind]. cbn [Z.eqb Pos.eqb ZIPLIST_TAIL ZIPLIST_HEAD] in Hz2. rewrite not_elem_of_list_to_map_1 by done.
    exists zl2, (l ++ [(f, v)]). split; [done|]. split; [|done]. rewrite flat_app. cbn [flat]. by rewrite <- app_assoc in Hz2.
Qed.

(** What became of the two strings. *)
Definition set_fates o m f (flags : Z) : sds_fate * sds_fate :=
  let fate t s := if takes_sds flags t then s else Kept in
  match o with
  | HZiplist _ => (fate HASH_SET_TAKE_FIELD Freed, fate HASH_SET_TAKE_VALUE Freed)
  | HDict _ => (fate HASH_SET_TAKE_FIELD (if bool_decide (is_Some (m !! f)) then Freed else Stored), fate HASH_SET_TAKE_VALUE Stored)
  end.

(** There is room: a ziplist has at most [2^32] bytes, and a dictionary can grow. *)
Definition set_room o m f v : Prop :=
  match o with
  | HZiplist _ => hroom (<[f := v]> m) < 2 ^ 32
  | HDict _ => small v /\ Z.of_nat (base.size m) < 2 ^ 60
  end.

(** The encoding after a field was set: a dictionary stays one, and a ziplist
    becomes one exactly when there are now too many fields. *)
Definition set_encoding o o' m : Prop :=
  match o, o' with
  | HZiplist _, HZiplist _ => Z.of_nat (base.size m) <= hash_max_ziplist_entries
  | HZiplist _, HDict _ => hash_max_ziplist_entries < Z.of_nat (base.size m)
  | HDict _, HDict _ => True
  | HDict _, HZiplist _ => False
  end.

Lemma hash_set o m f v flags : hash_repr o m -> small f -> set_room o m f v ->
  exists o', hashTypeSet junk buf hash_max_ziplist_entries o f v flags
    = Some (o', bool_decide (is_Some (m !! f)), fst (set_fates o m f flags), snd (set_fates o m f flags)) /\
    hash_repr o' (<[f := v]> m) /\ set_encoding o o' (<[f := v]> m).
Proof.
  intros Hr Hf Hroom. destruct o as [zl|d]; unfold hashTypeSet.
  - destruct Hr as (l & Hn & -> & Hr). destruct (set_ziplist_spec zl l f v Hn Hr Hf Hroom) as (zl1 & l1 & -> & Hz1 & Hn1 & Hm).
    cbn [mbind option_bind]. assert (Hr1 : hash_repr (HZiplist zl1 : hobj D) (<[f := v]> (list_to_map l))) by by exists l1.
    destruct (hash_length _ _ Hr1) as (o2 & -> & Hr2 & Hin). cbn [mbind option_bind].
    specialize (Hin I). destruct (Z.gtb_spec (Z.of_nat (base.size (<[f := v]> (list_to_map l : gmap _ _)))) hash_max_ziplist_entries) as [Hgt|Hle].
    + destruct (convert_spec o2 _ Hr2 Hin) as (d & -> & Hd). cbn [mbind option_bind]. by exists (HDict d).
    + cbn [mbind option_bind]. exists o2. split; [done|]. split; [done|]. destruct o2; [exact Hle|done].
  - destruct Hr as [Hr Hsm], Hroom as [Hv Hsz]. destruct (kd_find_spec d m f Hr) as (d1 & r & -> & Hr1 & Hm). cbn [mbind option_bind].
    assert (Hsm' : map_Forall (fun k v => small k /\ small v) (<[f := v]> m)) by (apply map_Forall_insert_2; done).
    destruct (m !! f) as [w|] eqn:E.
    + destruct Hm as (e & -> & He). destruct (kd_setval_spec d1 m e f v Hr1 He) as (d2 & -> & Hr2). cbn [mbind option_bind].
      exists (HDict d2). cbn [set_fates fst snd]. by rewrite E.
    + subst r. destruct (kd_add_spec d1 m f v Hr1 Hsz) as (d2 & -> & Hr2). cbn [mbind option_bind fst snd].
      rewrite decide_True in Hr2 by done. exists (HDict d2). cbn [set_fates fst snd]. by rewrite E.
Qed.

Lemma hash_delete o m f : hash_repr o m -> small f ->
  exists o', hashTypeDelete junk o f = Some (o', bool_decide (is_Some (m !! f))) /\ hash_repr o' (delete f m).
Proof.
  intros Hr Hf. destruct o as [zl|d]; unfold hashTypeDelete.
  - destruct Hr as (l & Hn & -> & Hr). destruct (find_field_spec zl l f Hr Hf) as (r & -> & Hfd). cbn [mbind option_bind].
    destruct r as [p|].
    + destruct Hfd as (l1 & w & l2 & q & -> & Hp & _ & _). rewrite pairs_lookup by done. rewrite flat_app in Hp. cbn [flat] in Hp.
      destruct (ziplistDelete_at junk zl _ _ p Hp) as (zl1 & -> & Hz1); [rewrite length_app; cbn [length]; lia|]. cbn [mbind option_bind].
      rewrite take_app_length, drop_app_ge in Hz1 by lia.
      replace (S (length (flat l1)) - length (flat l1))%nat with 1%nat in Hz1 by lia. cbn [drop] in Hz1.
      destruct (ziplistDelete_at junk zl1 _ _ p Hz1) as (zl2 & -> & Hz2); [rewrite length_app; cbn [length]; lia|]. cbn [mbind option_bind fst].
      rewrite take_app_length, drop_app_ge in Hz2 by lia.
      replace (S (length (flat l1)) - length (flat l1))%nat with 1%nat in Hz2 by lia. cbn [drop] in Hz2. rewrite drop_0 in Hz2.
      exists (HZiplist zl2). split; [done|]. exists (l1 ++ l2). destruct (pairs_others l1 f w l2 Hn) as [_ Hn'].
      split; [done|]. rewrite (pairs_delete l1 f w l2 Hn). split; [done|]. rewrite flat_app. by apply zl_at_repr in Hz2.
    + cbn in Hfd. exists (HZiplist zl). rewrite not_elem_of_list_to_map_1 by done. split; [done|].
      exists l. split; [done|]. split; [|done]. apply delete_id. by apply not_elem_of_list_to_map_1.
  - destruct Hr as [Hr Hsm]. destruct (kd_delete_spec d m f Hr) as (d1 & -> & Hr1). cbn [mbind option_bind].
    assert (Hsm' : map_Forall (fun k v => small k /\ small v) (delete f m)) by by apply map_Forall_delete.
    destruct (m !! f) as [w|]; [|by exists (HDict d1)]. destruct (kd_needsResize d1); cbn [mbind option_bind]; [|by exists (HDict d1)].
    destruct (kd_resize_spec d1 _ Hr1) as (d2 & -> & Hr2). cbn [mbind option_bind]. by exists (HDict d2).
Qed.
End Proof.
