(* ===== verification/THashCorrect.v ===== *)
(** * What hash objects promise (t_hash.c)

    A sequence of operations on a new hash object gives the answers of a finite
    map, whatever the thresholds of the configuration make of its encoding and
    whatever dictionary it is converted to. *)
From Stdlib Require Import ZArith Lia String.
From stdpp Require Import base numbers list option gmap gmultiset.
From S2P Require Import Prelude UtilNum Sds SdsRefine Siphash Object ObjectHeap Dict DictRefine Keyspace DictIter DictObj.
From S2P Require Import Ziplist ZiplistSpec THash THashSpec THashProof.

(** ** Operations and answers *)

Inductive hop :=
  | HSet (field value : list Z) (flags : Z)
  | HDel (field : list Z)
  | HGet (field : list Z)
  | HExists (field : list Z)
  | HStrlen (field : list Z)
  | HLen
  | HTry (argv : list robj) (start end_ : Z).

Inductive hanswer := ABool (b : bool) | AValue (v : option (list Z)) | ANumber (n : Z) | ANothing.

(** What the operation does to a finite map. *)
Definition map_op (m : hash_map) (op : hop) : hash_map * hanswer :=
  match op with
  | HSet f v _ => (<[f := v]> m, ABool (bool_decide (is_Some (m !! f))))
  | HDel f => (delete f m, ABool (bool_decide (is_Some (m !! f))))
  | HGet f => (m, AValue (m !! f))
  | HExists f => (m, ABool (bool_decide (is_Some (m !! f))))
  | HStrlen f => (m, ANumber (zlen (default [] (m !! f))))
  | HLen => (m, ANumber (Z.of_nat (base.size m)))
  | HTry _ _ _ => (m, ANothing)
  end.

Fixpoint map_ops (m : hash_map) (ops : list hop) : hash_map * list hanswer :=
  match ops with
  | [] => (m, [])
  | op :: ops => let '(m, a) := map_op m op in let '(m, l) := map_ops m ops in (m, a :: l)
  end.

(** The bytes an operation adds at most, and what it may be asked. *)
Definition hop_cost (op : hop) : Z := match op with HSet f v _ => 36 + zlen f + zlen v | _ => 0 end.
Definition hops_cost (ops : list hop) : Z := foldr (fun op n => hop_cost op + n) 11 ops.

Definition hop_ok (op : hop) : Prop :=
  match op with
  | HSet f _ _ | HDel f | HGet f | HExists f | HStrlen f => small f
  | HLen => True
  | HTry argv start end_ => 0 <= start <= end_ + 1 /\ end_ < zlen argv
  end.

Section Correct.
Context {D : Type} `{ODL : ObjDictLaws D (list Z)}.
Context (junk : nat -> Z) (buf : list Z) (hash_max_ziplist_value hash_max_ziplist_entries : Z).
Implicit Types (o : hobj D) (m : hash_map) (f v : list Z) (hi : hashTypeIterator (D := D)).

Definition value_bytes (h : hvalue) : option (list Z) :=
  match h with
  | HStr s => Some s
  | HInt n => sdsfromlonglong buf n
  end.

Definition hash_op o (op : hop) : option (hobj D * hanswer) :=
  match op with
  | HSet f v flags => r ← hashTypeSet junk buf hash_max_ziplist_entries o f v flags; let '(o, update, _, _) := r in Some (o, ABool update)
  | HDel f => r ← hashTypeDelete junk o f; Some (fst r, ABool (snd r))
  | HGet f =>
      r ← hashTypeGetValue o f;
      match snd r with
      | Some h => s ← value_bytes h; Some (fst r, AValue (Some s))
      | None => Some (fst r, AValue None)
      end
  | HExists f => r ← hashTypeExists o f; Some (fst r, ABool (snd r))
  | HStrlen f => r ← hashTypeGetValueLength o f; Some (fst r, ANumber (snd r))
  | HLen => r ← hashTypeLength o; Some (fst r, ANumber (snd r))
  | HTry argv start end_ => o ← hashTypeTryConversion buf hash_max_ziplist_value o argv start end_; Some (o, ANothing)
  end.

Fixpoint hash_ops o (ops : list hop) : option (hobj D * list hanswer) :=
  match ops with
  | [] => Some (o, [])
  | op :: ops => r ← hash_op o op; t ← hash_ops (fst r) ops; Some (fst t, snd r :: snd t)
  end.

(** [while (hashTypeNext(hi) != C_ERR)], with the field and the value as strings. *)
Fixpoint hash_walk (fuel : nat) o hi : option (hobj D * hashTypeIterator (D := D) * pairs) :=
  match fuel with
  | O => None
  | S fuel =>
      r ← hashTypeNext o hi;
      let '(o, hi, more) := r in
      if negb more then Some (o, hi, [])
      else
        k ← hashTypeCurrentObjectNewSds buf o hi OBJ_HASH_KEY;
        v ← hashTypeCurrentObjectNewSds buf o hi OBJ_HASH_VALUE;
        t ← hash_walk fuel o hi;
        Some (fst t, (k, v) :: snd t)
  end.

Lemma hroom_size m : 11 + 36 * Z.of_nat (base.size m) <= hroom m.
Proof.
  unfold hroom. pose proof (zroom_length (flat (map_to_list m))) as Hl. rewrite zlen_flat in Hl. unfold zlen in Hl.
  rewrite length_map_to_list in Hl. lia.
Qed.

Hypothesis Hbuf : SDS_LLSTR_SIZE <= zlen buf.

Lemma value_bytes_spec h v : hvalue_is h v -> value_bytes h = Some v.
Proof.
  destruct h as [s|n]; cbn [value_bytes hvalue_is]; [by intros ->|]. intros [-> Hn].
  unfold sdsfromlonglong. rewrite (sdsll2str_spec buf n Hn Hbuf). cbn [mbind option_bind fst snd]. by apply mread_0.
Qed.

Lemma room_set o m f v : 36 + zlen f + zlen v + hroom m < 2 ^ 32 -> set_room o m f v.
Proof.
  intros Hc. pose proof (hroom_size m) as Hs. pose proof (hroom_insert m f v). pose_zlen.
  destruct o; cbn [set_room]; [lia|]. unfold small. split; lia.
Qed.

Lemma hash_op_spec o m op : hash_repr o m -> hop_ok op -> hop_cost op + hroom m < 2 ^ 32 ->
  exists o', hash_op o op = Some (o', snd (map_op m op)) /\ hash_repr o' (fst (map_op m op)) /\
    hroom (fst (map_op m op)) <= hop_cost op + hroom m.
Proof.
  intros Hr Hok Hc. destruct op as [f v flags|f|f|f|f| |argv start end_]; cbn [hop_cost hop_ok hash_op map_op fst snd] in *.
  - destruct (hash_set junk buf hash_max_ziplist_entries Hbuf o m f v flags Hr Hok (room_set o m f v Hc)) as (o' & -> & Hr' & _).
    cbn [mbind option_bind]. exists o'. split; [done|]. split; [done|]. apply hroom_insert.
  - destruct (hash_delete junk o m f Hr Hok) as (o' & -> & Hr'). cbn [mbind option_bind fst snd]. exists o'.
    split; [done|]. split; [done|]. pose proof (hroom_delete m f). lia.
  - destruct (hash_get o m f Hr Hok) as (o' & r & -> & Hr' & Hm). cbn [mbind option_bind fst snd]. exists o'.
    destruct (m !! f) as [v|]; [|subst r; split; [done|]; split; [done|lia]].
    destruct Hm as (h & -> & Hh). rewrite (value_bytes_spec h v Hh). split; [done|]. split; [done|lia].
  - destruct (hash_exists o m f Hr Hok) as (o' & -> & Hr'). cbn [mbind option_bind fst snd]. exists o'. split; [done|]. split; [done|lia].
  - destruct (hash_strlen o m f Hr Hok) as (o' & -> & Hr'). cbn [mbind option_bind fst snd]. exists o'. split; [done|]. split; [done|lia].
  - destruct (hash_length o m Hr) as (o' & -> & Hr' & _). cbn [mbind option_bind fst snd]. exists o'. split; [done|]. split; [done|lia].
  - destruct (try_conversion_spec buf hash_max_ziplist_value Hbuf o m argv start (Z.to_nat (end_ - start + 1)) Hr) as (o' & E & Hr'); [lia|lia|].
    replace (start + Z.of_nat (Z.to_nat (end_ - start + 1)) - 1) with end_ in E by lia. rewrite E. cbn [mbind option_bind].
    exists o'. split; [done|]. split; [done|lia].
Qed.

Lemma hops_cost_min ops : 11 <= hops_cost ops.
Proof. induction ops as [|op ops IH]; cbn [hops_cost foldr]; [done|]. destruct op; cbn [hop_cost]; fold (hops_cost ops); pose_zlen; lia. Qed.

Lemma hash_ops_spec ops o m : hash_repr o m -> Forall hop_ok ops -> hops_cost ops + hroom m < 2 ^ 32 ->
  exists o', hash_ops o ops = Some (o', snd (map_ops m ops)) /\ hash_repr o' (fst (map_ops m ops)).
Proof.
  revert o m. induction ops as [|op ops IH]; intros o m Hr Hok Hc; cbn [hash_ops map_ops]; [by exists o|].
  apply Forall_cons_1 in Hok as [Hop Hok]. cbn [hops_cost foldr] in Hc. fold (hops_cost ops) in Hc. pose proof (hops_cost_min ops).
  destruct (hash_op_spec o m op Hr Hop) as (o1 & -> & Hr1 & Hc1); [lia|]. cbn [mbind option_bind fst snd].
  destruct (map_op m op) as [m1 a] eqn:E. cbn [fst snd] in *. destruct (IH o1 m1 Hr1 Hok) as (o2 & -> & Hr2); [lia|].
  destruct (map_ops m1 ops) as [m2 l]. cbn [mbind option_bind fst snd] in *. by exists o2.
Qed.

Lemma walk_spec (fuel : nat) o m hi (l : pairs) : hash_repr o m -> hash_left m o hi l -> (length l < fuel)%nat ->
  exists hi', hash_walk fuel o hi = Some (o, hi', l) /\ hash_left m o hi' [].
Proof.
  intros Hr. revert hi l. induction fuel as [|fuel IH]; intros hi l Hl Hf; [lia|]. cbn [hash_walk].
  pose proof (iter_next o m hi l Hr Hl) as Hn. destruct l as [|[f v] l].
  - destruct Hn as (hi' & -> & Hl'). cbn [mbind option_bind negb]. by exists hi'.
  - destruct Hn as (hi' & -> & Hl' & Hk & Hv). cbn [mbind option_bind negb].
    rewrite (new_sds buf Hbuf _ _ _ _ Hk), (new_sds buf Hbuf _ _ _ _ Hv). cbn [mbind option_bind].
    destruct (IH hi' l Hl') as (hi2 & -> & Hl2); [cbn [length] in Hf; lia|]. cbn [mbind option_bind fst snd]. by exists hi2.
Qed.

Lemma release_spec o m hi : hash_repr o m -> hash_left m o hi [] -> hashTypeReleaseIterator o hi = Some o.
Proof.
  intros Hr Hl. destruct o as [zl|d], hi as [fptr vptr|di de]; try done. cbn. destruct Hl as [Hg _], Hr as [Hr _].
  by rewrite (kd_done_spec d m di _ Hr Hg).
Qed.

(** [hashTypeGetValueObject] makes a new string object, or shares an integer. *)
Lemma hash_get_object (si : Z -> oaddr) (b : bool) h (R : gmultiset oaddr) o m f v :
  hash_repr o m -> small f -> own si h R -> m !! f = Some v -> zlen v < 2 ^ 31 ->
  exists o' a h', hashTypeGetValueObject si b h o f = Some (o', Some a, h') /\ hash_repr o' m /\
    own si h' ({[+ a +]} ⊎ R) /\ ObjectHeap.kept h h' R /\ ObjectHeap.val_at h' a = Some (VStr v).
Proof.
  intros Hr Hf Hown Hv Hlen. destruct (hash_get o m f Hr Hf) as (o' & r & E & Hr' & Hm). rewrite Hv in Hm.
  destruct Hm as (x & -> & Hx). unfold hashTypeGetValueObject. rewrite E. cbn [mbind option_bind].
  destruct x as [s|n]; cbn [hvalue_is] in Hx.
  - subst s. destruct (own_string si h R v Hown Hlen) as (e & -> & Hs & He). pose proof (own_create si h R e Hown He) as Hc.
    destruct (createObject h e) as [a h']. destruct Hc as (Ho & Hl & _ & Hk & _). exists o', a, h'.
    split_and!; [done|done|done|done|]. unfold ObjectHeap.val_at. rewrite Hl. cbn. by destruct (sds_of_val e v Hs) as [-> _].
  - destruct Hx as [-> Hn]. destruct (own_long si b h R n false Hown Hn) as (a & h' & Ec & Ho & Hk & Hval).
    unfold createStringObjectFromLongLong. rewrite Ec. cbn [mbind option_bind fst snd]. by exists o', a, h'.
Qed.

(** ** The theorems *)

(** [C23] Any sequence of operations on a new hash object runs to its end without
    an access outside a block, a failed assertion or a panic, and gives the
    answers of a finite map, as long as the fields and values that are set fit in
    4 gigabytes: when the object becomes a dictionary cannot be seen. *)
Theorem hash_session ops (Hok : Forall hop_ok ops) (Hc : hops_cost ops + 11 < 2 ^ 32) :
  exists o0 o, createHashObject junk = Some o0 /\
    hash_ops o0 ops = Some (o, snd (map_ops ∅ ops)) /\ hash_repr o (fst (map_ops ∅ ops)).
Proof.
  destruct (createHashObject_repr (D := D) junk) as (o0 & E0 & Hr & _). destruct (hash_ops_spec ops o0 ∅ Hr Hok Hc) as (o & E & Hr').
  by exists o0, o.
Qed.

(** [C24] [hashTypeSet] adds the field or replaces its value and tells which; it
    converts a ziplist to a dictionary exactly when the fields are then more than
    [hash_max_ziplist_entries], and never converts a dictionary.  A string whose ownership it
    takes is stored in the dictionary or freed, and others are left to the caller:
    a ziplist copies both, a dictionary that has the field keeps its own. *)
Theorem hashTypeSet_refines o m f v flags (Hr : hash_repr o m) (Hf : small f) (Hroom : set_room o m f v) :
  exists o', hashTypeSet junk buf hash_max_ziplist_entries o f v flags
    = Some (o', bool_decide (is_Some (m !! f)), fst (set_fates o m f flags), snd (set_fates o m f flags)) /\
    hash_repr o' (<[f := v]> m) /\ set_encoding hash_max_ziplist_entries o o' (<[f := v]> m).
Proof. by apply hash_set. Qed.

(** [hashTypeDelete] removes the field with its value and tells whether it was
    there; a dictionary that has become too empty is shrunk. *)
Theorem hashTypeDelete_refines o m f (Hr : hash_repr o m) (Hf : small f) :
  exists o', hashTypeDelete junk o f = Some (o', bool_decide (is_Some (m !! f))) /\ hash_repr o' (delete f m).
Proof. by apply hash_delete. Qed.

(** [C25] Iterating over a hash object gives every field once with its value, leaves
    the object as it is, a dictionary in the middle of a rehash too, and ends. *)
Theorem hash_iteration o m (Hr : hash_repr o m) :
  exists hi l, hash_walk (S (base.size m)) o (hashTypeInitIterator o) = Some (o, hi, l) /\
    l ≡ₚ map_to_list m /\ hashTypeReleaseIterator o hi = Some o.
Proof.
  destruct (iter_start o m Hr) as (l & Hp & Hl). destruct (walk_spec (S (base.size m)) o m _ l Hr Hl) as (hi & E & Hl').
  - rewrite Hp, length_map_to_list. lia.
  - exists hi, l. split; [done|]. split; [done|]. by apply (release_spec o m).
Qed.
End Correct.

(** ** At concrete inputs, with hash tables *)

Definition ex_seed : list Z := replicate 16 7.
Definition ex_number_buf : list Z := replicate 21 0.
Definition ex_bytes (_ : nat) : Z := 77.
Definition ex_hops : list hop :=
  [HSet (bytes_of "a") (bytes_of "1") HASH_SET_COPY; HSet (bytes_of "10") (bytes_of "hello") (HASH_SET_TAKE_FIELD + HASH_SET_TAKE_VALUE);
   HSet (bytes_of "a") (bytes_of "-7") HASH_SET_TAKE_VALUE; HGet (bytes_of "a"); HStrlen (bytes_of "10"); HDel (bytes_of "10"); HLen].

Section Example.
Abbreviation table := (dict key (list Z)).
#[local] Instance ex_table : KeyDict table (list Z) := HashKeyDict [] ex_seed true.
#[local] Instance ex_table_laws : KeyDictLaws table (list Z) := HashKeyDictLaws [] ex_seed true.
#[local] Instance ex_iter : DictIter table (list Z) := HashDictIter [] ex_seed true.
#[local] Instance ex_iter_laws : DictIterLaws table (list Z) := HashDictIterLaws [] ex_seed true.
#[local] Instance ex_obj : ObjDict table (list Z) := HashObjDict [] ex_seed true.
#[local] Instance ex_obj_laws : ObjDictLaws table (list Z) := HashObjDictLaws [] ex_seed true.

Lemma ex_session : snd (map_ops ∅ ex_hops)
  = [ABool false; ABool false; ABool true; AValue (Some (bytes_of "-7")); ANumber 5; ABool true; ANumber 1].
Proof. vm_compute. reflexivity. Qed.

(** With a limit of one field the second HSET converts the object. *)
Lemma hash_session_witness :
  exists (o0 o : hobj table), createHashObject ex_bytes = Some o0 /\
    hash_ops ex_bytes ex_number_buf 64 1 o0 ex_hops = Some (o, snd (map_ops ∅ ex_hops)) /\
    hash_repr o (fst (map_ops ∅ ex_hops)).
Proof.
  exact (hash_session (D := table) ex_bytes ex_number_buf 64 1 ltac:(by vm_compute) ex_hops
    ltac:(repeat constructor) ltac:(by vm_compute)).
Defined.

(** A ziplist with two fields, and the dictionary it is converted to. *)
Definition ex_fields : list Z := default [] (zl ← ziplistNew ex_bytes;
  fold_left (fun zl s => zl ← zl; ziplistPush ex_bytes zl s (zlen s) ZIPLIST_TAIL)
    [bytes_of "a"; bytes_of "1"; bytes_of "10"; bytes_of "hello"] (Some zl)).
Definition ex_pairs : pairs := [(bytes_of "a", bytes_of "1"); (bytes_of "10", bytes_of "hello")].
Definition ex_hmap : hash_map := list_to_map ex_pairs.

Lemma ex_hash_repr : hash_repr (HZiplist ex_fields : hobj table) ex_hmap.
Proof.
  destruct (ziplistNew_repr ex_bytes) as (z0 & E0 & R0).
  destruct (zl_push_spec ex_bytes z0 [] (bytes_of "a") ZIPLIST_TAIL R0) as (z1 & E1 & R1); [by vm_compute|].
  destruct (zl_push_spec ex_bytes z1 _ (bytes_of "1") ZIPLIST_TAIL R1) as (z2 & E2 & R2); [by vm_compute|].
  destruct (zl_push_spec ex_bytes z2 _ (bytes_of "10") ZIPLIST_TAIL R2) as (z3 & E3 & R3); [by vm_compute|].
  destruct (zl_push_spec ex_bytes z3 _ (bytes_of "hello") ZIPLIST_TAIL R3) as (z4 & E4 & R4); [by vm_compute|].
  exists ex_pairs. split; [by apply (bool_decide_unpack _); vm_compute|]. split; [done|].
  unfold ex_fields. rewrite E0. cbn [mbind option_bind fold_left]. rewrite E1. cbn [mbind option_bind]. rewrite E2.
  cbn [mbind option_bind]. rewrite E3. cbn [mbind option_bind]. rewrite E4. exact R4.
Qed.

Lemma hashTypeSet_witness :
  exists o', hashTypeSet ex_bytes ex_number_buf 2 (HZiplist ex_fields : hobj table) (bytes_of "a") (bytes_of "22") HASH_SET_TAKE_VALUE
    = Some (o', true, Kept, Freed) /\ hash_repr o' (<[bytes_of "a" := bytes_of "22"]> ex_hmap) /\
    set_encoding 2 (HZiplist ex_fields) o' (<[bytes_of "a" := bytes_of "22"]> ex_hmap).
Proof.
  exact (hashTypeSet_refines ex_bytes ex_number_buf 2 ltac:(by vm_compute) (HZiplist ex_fields : hobj table) ex_hmap (bytes_of "a") (bytes_of "22")
    HASH_SET_TAKE_VALUE ex_hash_repr ltac:(by vm_compute) ltac:(by vm_compute)).
Defined.

Lemma hashTypeDelete_witness :
  exists o', hashTypeDelete ex_bytes (HZiplist ex_fields : hobj table) (bytes_of "10") = Some (o', true) /\
    hash_repr o' (delete (bytes_of "10") ex_hmap).
Proof.
  exact (hashTypeDelete_refines ex_bytes (HZiplist ex_fields : hobj table) ex_hmap (bytes_of "10") ex_hash_repr ltac:(by vm_compute)).
Defined.

(** The iteration over the dictionary that [ex_fields] is converted to. *)
Lemma hash_iteration_witness : exists d hi l,
  hashTypeConvert ex_number_buf (HZiplist ex_fields : hobj table) OBJ_ENCODING_HT = Some (HDict d) /\
  hash_walk ex_number_buf 3 (HDict d) (hashTypeInitIterator (HDict d)) = Some (HDict d, hi, l) /\
  l ≡ₚ map_to_list ex_hmap /\ hashTypeReleaseIterator (HDict d) hi = Some (HDict d).
Proof.
  destruct (convert_spec ex_number_buf ltac:(by vm_compute) (HZiplist ex_fields : hobj table) ex_hmap ex_hash_repr I) as (d & E & Hd).
  destruct (hash_iteration ex_number_buf ltac:(by vm_compute) (HDict d : hobj table) ex_hmap Hd) as (hi & l & W).
  exists d, hi, l. split; [exact E|exact W].
Defined.
End Example.
