(* ===== verification/TSet.v ===== *)
(** * Set objects (t_set.c)

    A set of few integers is an intset, any other a dictionary whose values are
    NULL; it goes from the one to the other and not back.  As in [THash] an object
    is its encoding with what [ptr] points to, and the dictionary is any
    implementation of [ObjDict].  Choosing a random element is not modelled. *)
From Stdlib Require Import ZArith Lia.
From stdpp Require Import base numbers list option gmap.
From S2P Require Import Prelude UtilNum Sds Object Dict Keyspace DictIter DictObj Intset.

Definition OBJ_ENCODING_INTSET : Z := 6.

(** [*sdsele] or [*llele]: the encoding that is answered says which one is set. *)
Inductive set_element := SetSds (sdsele : list Z) | SetInt (llele : Z).

Section SetType.
Context {D : Type} `{ObjDict D unit}.
(** What fresh memory holds, the uninitialised buffer of [sdsfromlonglong], and
    the configuration. *)
Context (junk : nat -> Z) (buf : list Z) (set_max_intset_entries : Z).

Inductive sobj := SIntset (iset : intset) | SDict (d : D).
Inductive setTypeIterator := SIIntset (ii : Z) | SIDict (di : kd_iter).

Implicit Types (o : sobj) (si : setTypeIterator) (value : list Z).

Definition createSetObject : sobj := SDict kd_create.
Definition createIntsetObject : sobj := SIntset intsetNew.

Definition setTypeCreate value : option sobj :=
  llval ← isSdsRepresentableAsLongLong value;
  Some (match llval with Some _ => createIntsetObject | None => createSetObject end).

(** ** Iterating *)

Definition setTypeInitIterator (subject : sobj) : setTypeIterator :=
  match subject with
  | SDict d => SIDict (kd_unsafe d)
  | SIntset _ => SIIntset 0
  end.

Definition setTypeReleaseIterator o si : option sobj :=
  match si, o with
  | SIDict di, SDict d => Some (SDict (kd_release d di))
  | SIIntset _, _ => Some o
  | SIDict _, SIntset _ => None
  end.

(** -1 is [None]. *)
Definition setTypeNext o si : option (sobj * setTypeIterator * option set_element) :=
  match si, o with
  | SIDict di, SDict d =>
      r ← kd_next d di;
      let '(d, di, de) := r in
      match de with
      | None => Some (SDict d, SIDict di, None)
      | Some de => sdsele ← kd_key d de; Some (SDict d, SIDict di, Some (SetSds sdsele))
      end
  | SIIntset ii, SIntset iset =>
      r ← intsetGet iset (u32 ii);
      Some (o, SIIntset (i32 (ii + 1)), match r with Some llele => Some (SetInt llele) | None => None end)
  | _, _ => None
  end.

(** NULL is [None]. *)
Definition setTypeNextObject o si : option (sobj * setTypeIterator * option (list Z)) :=
  r ← setTypeNext o si;
  let '(o, si, e) := r in
  match e with
  | None => Some (o, si, None)
  | Some (SetInt intele) => s ← sdsfromlonglong buf intele; Some (o, si, Some s)
  | Some (SetSds sdsele) => Some (o, si, Some sdsele)
  end.

(** ** Conversion *)

Definition setTypeSize o : Z :=
  match o with
  | SDict d => kd_size d
  | SIntset iset => intsetLen iset
  end.

(** [while (setTypeNext(si,&element,&intele) != -1)]; the failed assertion is
    [None]. *)
Fixpoint set_convert_loop (fuel : nat) o si (d : D) : option (sobj * setTypeIterator * D) :=
  match fuel with
  | O => None
  | S fuel' =>
      r ← setTypeNext o si;
      let '(o, si, e) := r in
      match e with
      | None => Some (o, si, d)
      | Some (SetInt intele) =>
          element ← sdsfromlonglong buf intele;
          ret ← kd_add d element tt;
          let '(d, ok) := ret in
          if (ok : bool) then set_convert_loop fuel' o si d else None
      | Some (SetSds _) => None
      end
  end.

(** There is one turn for every element. *)
Definition setTypeConvert o (enc : Z) : option sobj :=
  match o with
  | SDict _ => None
  | SIntset iset =>
      if enc =? OBJ_ENCODING_HT then
        d ← kd_expand kd_create (intsetLen iset);
        r ← set_convert_loop (S (Z.to_nat (intsetLen iset))) o (setTypeInitIterator o) d;
        let '(o, si, d) := r in
        _ ← setTypeReleaseIterator o si;
        Some (SDict d)
      else None
  end.

(** ** Elements *)

(** The entry that [dictAddRaw] makes gets a copy of [value] as its key, and NULL
    as its value: this is [dictAdd]. *)
Definition setTypeAdd o value : option (sobj * bool) :=
  match o with
  | SDict ht => r ← kd_add ht value tt; Some (SDict (fst r), snd r)
  | SIntset iset =>
      llval ← isSdsRepresentableAsLongLong value;
      match llval with
      | Some llval =>
          r ← intsetAdd junk iset llval;
          let '(iset, success) := r in
          if (success : bool) then
            o ← (if intsetLen iset >? set_max_intset_entries then setTypeConvert (SIntset iset) OBJ_ENCODING_HT
                 else Some (SIntset iset));
            Some (o, true)
          else Some (SIntset iset, false)
      | None =>
          o ← setTypeConvert o OBJ_ENCODING_HT;
          match o with
          | SDict d =>
              ret ← kd_add d value tt;
              if (snd ret : bool) then Some (SDict (fst ret), true) else None
          | SIntset _ => None
          end
      end
  end.

Definition setTypeRemove o value : option (sobj * bool) :=
  match o with
  | SDict d =>
      r ← kd_delete d value;
      match r with
      | (d, Some _) =>
          d ← (if kd_needsResize d then kd_resize d else Some d);
          Some (SDict d, true)
      | (d, None) => Some (SDict d, false)
      end
  | SIntset iset =>
      llval ← isSdsRepresentableAsLongLong value;
      match llval with
      | Some llval => r ← intsetRemove junk iset llval; Some (SIntset (fst r), snd r)
      | None => Some (o, false)
      end
  end.

Definition setTypeIsMember o value : option (sobj * bool) :=
  match o with
  | SDict d => r ← kd_find d value; Some (SDict (fst r), match snd r with Some _ => true | None => false end)
  | SIntset iset =>
      llval ← isSdsRepresentableAsLongLong value;
      match llval with
      | Some llval => b ← intsetFind iset llval; Some (o, b)
      | None => Some (o, false)
      end
  end.
End SetType.
Arguments sobj : clear implicits.
Arguments SIntset {D} iset.
Arguments SDict {D} d.
