(* ===== verification/TSetSpec.v ===== *)
(** * Set objects as finite sets of strings (t_set.c)

    [set_repr o X] says that the object holds the set [X], in either encoding: an
    intset holds the integers whose canonical notations are the elements. *)
From Stdlib Require Import ZArith Lia.
From stdpp Require Import base numbers list option gmap.
From S2P Require Import Prelude UtilNum Sds SdsRefine Object Dict DictRefine Keyspace DictIter DictObj Intset TSet.

Abbreviation strings := (gset key).

(** ** Integers and their notations *)

Section Numbers.
Implicit Types (l : list Z) (v : Z).

Definition names l : strings := list_to_set (dec <$> l).

Lemma sds_number s : exists r, isSdsRepresentableAsLongLong s = Some r /\ forall v, r = Some v <-> in_s 64 v /\ s = dec v.
Proof. apply string2ll_total. Qed.

Lemma dec_long_inj v w : in_s 64 v -> in_s 64 w -> dec v = dec w -> v = w.
Proof.
  intros Hv Hw E. destruct (sds_number (dec v)) as (r & _ & Hr).
  assert (E1 : r = Some v) by (by apply Hr). assert (E2 : r = Some w) by (by apply Hr). congruence.
Qed.

Lemma intset_long s l : intset_ok s l -> Forall (in_s 64) l.
Proof.
  intros [[He _ _ Hf _] _]. eapply Forall_impl; [exact Hf|]. intros v. unfold in_s. destruct He as [-> |[-> | ->]]; lia.
Qed.

Lemma elem_names s l v : intset_ok s l -> in_s 64 v -> dec v ∈ names l <-> In v l.
Proof.
  intros Hok Hv. pose proof (intset_long s l Hok) as Hl. unfold names. rewrite elem_of_list_to_set, list_elem_of_fmap. split.
  - intros (w & E & Hw). rewrite Forall_forall in Hl. rewrite (dec_long_inj v w Hv (Hl w Hw) E). by apply list_elem_of_In.
  - intros Hi. exists v. split; [done|]. by apply list_elem_of_In.
Qed.

Lemma elem_names_none s l e : intset_ok s l -> (forall v, in_s 64 v -> e <> dec v) -> e ∉ names l.
Proof.
  intros Hok He. unfold names. rewrite elem_of_list_to_set, list_elem_of_fmap. intros (w & -> & Hw).
  pose proof (intset_long s l Hok) as Hl. rewrite Forall_forall in Hl. by apply (He w (Hl w Hw)).
Qed.

Lemma names_perm l l' : l ≡ₚ l' -> names l = names l'.
Proof. intros Hp. unfold names. apply leibniz_equiv. by rewrite Hp. Qed.

Lemma names_size s l : intset_ok s l -> Z.of_nat (base.size (names l)) = zlen l.
Proof.
  intros Hok. unfold names. rewrite size_list_to_set; [by rewrite length_fmap|].
  pose proof (intset_long s l Hok) as Hl. rewrite Forall_forall in Hl. apply NoDup_fmap_2_strong; [|by eapply ok_nodup].
  intros v w Hv Hw. apply dec_long_inj; by apply Hl.
Qed.
End Numbers.

Section Sets.
Context {D : Type} `{ODL : ObjDictLaws D unit}.
Context (junk : nat -> Z).
Implicit Types (o : sobj D) (X : strings) (e : list Z) (si : setTypeIterator (D := D)).

Definition set_repr o X : Prop :=
  match o with
  | SIntset s => exists l, intset_ok s l /\ X = names l
  | SDict d => exists m, kd_repr d m /\ X = dom m
  end.

(** ** Iterating *)

Definition set_left o si (l : list (list Z)) : Prop :=
  match o, si with
  | SIntset s, SIIntset ii => exists es, intset_ok s es /\ 0 <= ii <= zlen es /\ l = dec <$> drop (Z.to_nat ii) es
  | SDict d, SIDict di => kd_togo d di l
  | _, _ => False
  end.

Definition element_is (x : set_element) e : Prop :=
  match x with
  | SetSds s => s = e
  | SetInt v => e = dec v /\ in_s 64 v
  end.

Lemma intset_next s es ii : intset_ok s es -> 0 <= ii <= zlen es ->
  setTypeNext (D := D) (SIntset s) (SIIntset ii) = Some (SIntset s, SIIntset (ii + 1), SetInt <$> es !! Z.to_nat ii).
Proof.
  intros [Hr _] Hii. pose proof Hr as [_ Hl _ _ Hs]. unfold setTypeNext, intsetGet. rewrite (uwrap_small 32 ii) by lia. rewrite Hl.
  rewrite (swrap_small 32 (ii + 1)) by (unfold in_s; lia). destruct (ii <? zlen es) eqn:E.
  - destruct (lookup_lt_is_Some_2 es (Z.to_nat ii)) as [v Hv]; [unfold zlen in *; lia|].
    rewrite swrap_small by (unfold in_s; lia). rewrite (repr_get s es ii v Hr Hv) by lia. by rewrite Hv.
  - rewrite lookup_ge_None_2 by (unfold zlen in *; lia). done.
Qed.

Lemma set_iter_start o X : set_repr o X -> exists l, NoDup l /\ X = list_to_set l /\ set_left o (setTypeInitIterator o) l.
Proof.
  destruct o as [s|d]; cbn [set_repr].
  - intros (l & Hok & ->). exists (dec <$> l). pose proof (intset_long s l Hok) as Hl. rewrite Forall_forall in Hl. split; [|split; [done|]].
    + apply NoDup_fmap_2_strong; [|by eapply ok_nodup]. intros v w Hv Hw. apply dec_long_inj; by apply Hl.
    + exists l. split; [done|]. pose_zlen. split; [lia|]. by rewrite drop_0.
  - intros (m & Hr & ->). destruct (kd_unsafe_spec d m Hr) as (ks & Hks & Hg). exists ks. split; [|split; [|done]].
    + rewrite Hks. apply NoDup_fst_map_to_list.
    + apply set_eq. intros k. rewrite elem_of_dom, elem_of_list_to_set, Hks, list_elem_of_fmap. split.
      * intros [v Hv]. exists (k, v). split; [done|]. by apply elem_of_map_to_list.
      * intros ([k' v] & -> & Hv%elem_of_map_to_list). by exists v.
Qed.

Lemma set_iter_next o X si l : set_repr o X -> set_left o si l ->
  match l with
  | [] => exists si', setTypeNext o si = Some (o, si', None) /\ setTypeReleaseIterator o si' = Some o
  | e :: l' => exists si' x, setTypeNext o si = Some (o, si', Some x) /\ element_is x e /\ set_left o si' l'
  end.
Proof.
  intros Hrep Hleft. destruct o as [s|d], si as [ii|di]; try done.
  - destruct Hleft as (es & Hok & Hii & ->). rewrite (intset_next s es ii Hok Hii).
    destruct (es !! Z.to_nat ii) as [v|] eqn:E.
    + pose proof (intset_long s es Hok) as Hl. pose proof (Forall_lookup_1 _ _ _ _ Hl E) as Hv. apply lookup_lt_Some in E as Hlt.
      rewrite (drop_S _ v _ E), fmap_cons. eexists _, _. split; [done|]. split; [done|]. exists es. split; [done|].
      split; [unfold zlen; lia|]. f_equal. f_equal. lia.
    + apply lookup_ge_None in E. rewrite drop_ge by done. cbn. by eexists.
  - destruct Hrep as (m & Hr & ->). destruct (kd_step_spec d m di l Hr Hleft) as (di' & r & E & Hl). unfold setTypeNext. rewrite E.
    cbn [mbind option_bind]. destruct l as [|k l].
    + destruct Hl as [-> Hg]. eexists. split; [done|]. cbn. by rewrite (kd_done_spec d m di' [] Hr Hg).
    + destruct Hl as (en & -> & He & Hg). rewrite (kd_key_spec d m en k Hr He). cbn [mbind option_bind]. eexists _, _. done.
Qed.

(** ** Elements *)

Lemma setTypeCreate_repr e : exists o, setTypeCreate e = Some o /\ set_repr o ∅.
Proof.
  destruct (sds_number e) as (r & Er & _). unfold setTypeCreate. rewrite Er. cbn [mbind option_bind]. destruct r as [v|].
  - exists (SIntset intsetNew). split; [done|]. exists []. split; [|done]. split; [|constructor]. split; [by left|done|done|constructor|done].
  - exists (SDict kd_create). split; [done|]. exists ∅. split; [apply kd_create_spec|]. by rewrite dom_empty_L.
Qed.

Lemma dict_add (d : D) (m : gmap key unit) e : kd_repr d m -> Z.of_nat (base.size (dom m)) < 2 ^ 60 ->
  exists d' m', kd_add d e tt = Some (d', bool_decide (e ∉ dom m)) /\ kd_repr d' m' /\ dom m' = {[e]} ∪ dom m.
Proof.
  intros Hr Hsz. rewrite size_dom in Hsz. destruct (kd_add_spec d m e tt Hr Hsz) as (d' & -> & Hr').
  destruct (decide (m !! e = None)) as [Hn|Hn].
  - rewrite bool_decide_true by done. rewrite bool_decide_true by (by apply not_elem_of_dom). exists d', (<[e := tt]> m).
    split; [done|]. split; [done|]. apply dom_insert_L.
  - rewrite bool_decide_false by done. assert (He : e ∈ dom m) by (apply elem_of_dom; by apply not_eq_None_Some).
    rewrite bool_decide_false by tauto. exists d', m. split; [done|]. split; [done|]. set_solver.
Qed.

Lemma set_remove o X e : set_repr o X ->
  exists o', setTypeRemove junk o e = Some (o', bool_decide (e ∈ X)) /\ set_repr o' (X ∖ {[e]}).
Proof.
  intros Hr. destruct o as [s|d]; unfold setTypeRemove.
  - destruct Hr as (l & Hok & ->). destruct (sds_number e) as (r & -> & Hv). cbn [mbind option_bind]. destruct r as [v|].
    + destruct (proj1 (Hv v) eq_refl) as [Hin ->].
      destruct (remove_spec junk s l v Hok Hin) as [[Hi ->]|(Hi & s' & l' & -> & Hp & Hok')]; cbn [mbind option_bind fst snd].
      * assert (He : dec v ∉ names l) by (by rewrite (elem_names s l v Hok Hin)). rewrite bool_decide_false by done.
        exists (SIntset s). split; [done|]. exists l. split; [done|]. set_solver.
      * rewrite bool_decide_true by (by rewrite (elem_names s l v Hok Hin)). exists (SIntset s'). split; [done|]. exists l'. split; [done|].
        assert (Hni : dec v ∉ names l').
        { rewrite (elem_names s' l' v Hok' Hin), <- list_elem_of_In. pose proof (ok_nodup s l Hok) as Hnd. rewrite Hp in Hnd. by apply NoDup_cons in Hnd as [? _]. }
        rewrite (names_perm _ _ Hp). unfold names in *. cbn. set_solver.
    + assert (He : e ∉ names l).
      { apply (elem_names_none s l e Hok). intros v Hin E. assert (None = Some v) by (by apply Hv). done. }
      rewrite bool_decide_false by done. exists (SIntset s). split; [done|]. exists l. split; [done|]. set_solver.
  - destruct Hr as (m & Hr & ->). destruct (kd_delete_spec d m e Hr) as (d1 & -> & Hr1). cbn [mbind option_bind].
    assert (Hset : forall d', kd_repr d' (delete e m) -> set_repr (SDict d') (dom m ∖ {[e]})).
    { intros d' Hd'. exists (delete e m). split; [done|]. by rewrite dom_delete_L. }
    destruct (m !! e) as [[]|] eqn:E.
    + rewrite bool_decide_true by (by apply elem_of_dom_2 in E). destruct (kd_needsResize d1); cbn [mbind option_bind]; [|by eauto].
      destruct (kd_resize_spec d1 _ Hr1) as (d2 & -> & Hr2). cbn [mbind option_bind]. by eauto.
    + rewrite bool_decide_false by (by apply not_elem_of_dom in E). by eauto.
Qed.

Lemma set_member o X e : set_repr o X ->
  exists o', setTypeIsMember o e = Some (o', bool_decide (e ∈ X)) /\ set_repr o' X.
Proof.
  intros Hr. destruct o as [s|d]; unfold setTypeIsMember.
  - pose proof Hr as (l & Hok & ->). destruct (sds_number e) as (r & -> & Hv). cbn [mbind option_bind]. exists (SIntset s).
    destruct r as [v|]; cbn [mbind option_bind].
    + destruct (proj1 (Hv v) eq_refl) as [Hin ->]. destruct (find_spec s l v Hok Hin) as (b & -> & Hb). cbn [mbind option_bind].
      split; [|done]. do 2 f_equal. rewrite <- (elem_names s l v Hok Hin) in Hb. destruct b.
      * rewrite bool_decide_true; [done|by apply Hb].
      * rewrite bool_decide_false; [done|]. intros He. by apply Hb in He.
    + split; [|done]. rewrite bool_decide_false; [done|]. apply (elem_names_none s l e Hok). intros v Hin E.
      assert (None = Some v) by (by apply Hv). done.
  - destruct Hr as (m & Hr & ->). destruct (kd_find_spec d m e Hr) as (d' & r & -> & Hr' & Hm). cbn [mbind option_bind fst snd].
    exists (SDict d'). split; [|by exists m]. do 2 f_equal. destruct (m !! e) as [u|] eqn:E.
    + destruct Hm as (en & -> & _). rewrite bool_decide_true; [done|]. by apply elem_of_dom_2 in E.
    + subst r. rewrite bool_decide_false; [done|]. by apply not_elem_of_dom.
Qed.

Lemma set_size o X : set_repr o X -> setTypeSize o = Z.of_nat (base.size X).
Proof.
  intros Hr. destruct o as [s|d]; cbn [setTypeSize].
  - destruct Hr as (l & Hok & ->). rewrite (names_size s l Hok). by destruct Hok as [[_ Hl _ _ _] _].
  - destruct Hr as (m & Hr & ->). rewrite (kd_size_spec d m Hr). by rewrite size_dom.
Qed.

(** ** Conversion *)

Context (buf : list Z) (set_max_intset_entries : Z).
Hypothesis Hbuf : SDS_LLSTR_SIZE <= zlen buf.

Lemma element_string x e : element_is x e ->
  (match x with SetSds s => Some s | SetInt v => sdsfromlonglong buf v end) = Some e.
Proof.
  destruct x as [s|v]; cbn [element_is]; [by intros ->|]. intros [-> Hv].
  unfold sdsfromlonglong. rewrite (sdsll2str_spec buf v Hv Hbuf). cbn [mbind option_bind fst snd]. by apply mread_0.
Qed.

Lemma set_convert_loop_spec (fuel : nat) (s : intset) (es : list Z) (ii : Z) (d : D) (m : gmap key unit) : intset_ok s es -> 0 <= ii <= zlen es -> kd_repr d m ->
  dom m = names (take (Z.to_nat ii) es) -> (length (drop (Z.to_nat ii) es) < fuel)%nat ->
  exists j d' m', set_convert_loop buf fuel (SIntset s) (SIIntset ii) d = Some (SIntset s, SIIntset j, d') /\
    kd_repr d' m' /\ dom m' = names es.
Proof.
  intros Hok. revert ii d m. induction fuel as [|fuel IH]; intros ii d m Hii Hr Hdom Hf; [lia|]. cbn [set_convert_loop].
  rewrite (intset_next s es ii Hok Hii). cbn [mbind option_bind].
  destruct (es !! Z.to_nat ii) as [v|] eqn:E; cbn [fmap option_fmap option_map].
  - pose proof (intset_long s es Hok) as Hl. pose proof (Forall_lookup_1 _ _ _ _ Hl E) as Hv. apply lookup_lt_Some in E as Hlt.
    pose proof (element_string (SetInt v) (dec v) (conj eq_refl Hv)) as ->. cbn [mbind option_bind].
    assert (Hnew : m !! dec v = None).
    { apply not_elem_of_dom. rewrite Hdom. unfold names. rewrite elem_of_list_to_set, list_elem_of_fmap. intros (w & Ew & Hw).
      rewrite Forall_forall in Hl. assert (v = w) as <- by (apply dec_long_inj; [done| |done]; apply Hl; apply elem_of_take in Hw as (i & Hi & _); by eapply list_elem_of_lookup_2).
      pose proof (ok_nodup s es Hok) as Hnd. rewrite <- (take_drop_middle es _ v E) in Hnd.
      apply NoDup_app in Hnd as (_ & Hnd & _). apply (Hnd v Hw). by left. }
    assert (Hsz : Z.of_nat (base.size m) < 2 ^ 60).
    { pose proof (names_size s es Hok) as Hn. destruct Hok as [[_ _ _ _ Hs] _]. rewrite <- size_dom, Hdom.
      assert (Hsub : names (take (Z.to_nat ii) es) ⊆ names es).
      { unfold names. rewrite <- (take_drop (Z.to_nat ii) es) at 2. rewrite fmap_app, list_to_set_app_L. set_solver. }
      apply subseteq_size in Hsub. lia. }
    destruct (kd_add_spec d m (dec v) tt Hr Hsz) as (d' & -> & Hr'). cbn [mbind option_bind].
    rewrite bool_decide_true by done. rewrite decide_True in Hr' by done.
    destruct (IH (ii + 1) d' (<[dec v := tt]> m)) as (j & d2 & m2 & Hi & Hr2 & Hd2); [unfold zlen; lia|done| | |].
    + replace (Z.to_nat (ii + 1)) with (S (Z.to_nat ii)) by lia. rewrite (take_S_r es _ v E), dom_insert_L, Hdom.
      unfold names. rewrite fmap_app, list_to_set_app_L. cbn. set_solver.
    + rewrite length_drop in *. lia.
    + by exists j, d2, m2.
  - apply lookup_ge_None in E. exists (ii + 1), d, m. split; [done|]. split; [done|]. by rewrite Hdom, take_ge.
Qed.

(** An intset is converted to a dictionary that holds the same set. *)
Lemma set_convert_spec s (es : list Z) : intset_ok s es ->
  exists d m, setTypeConvert buf (SIntset s) OBJ_ENCODING_HT = Some (SDict d) /\ kd_repr d m /\ dom m = names es.
Proof.
  intros Hok. pose proof Hok as [[_ Hl _ _ Hs] _]. unfold setTypeConvert, intsetLen. rewrite Hl.
  cbn [Z.eqb Pos.eqb OBJ_ENCODING_HT].
  destruct (kd_expand_spec kd_create ∅ (zlen es) kd_create_spec) as (d0 & -> & Hr0); [lia|]. cbn [mbind option_bind setTypeInitIterator].
  destruct (set_convert_loop_spec (S (Z.to_nat (zlen es))) s es 0 d0 ∅ Hok) as (j & d & m & -> & Hr & Hd).
  - pose_zlen. lia.
  - done.
  - by rewrite take_0, dom_empty_L.
  - rewrite drop_0. unfold zlen. lia.
  - cbn [mbind option_bind setTypeReleaseIterator]. by exists d, m.
Qed.

(** ** Adding *)

Lemma set_add o X e : set_repr o X -> Z.of_nat (base.size X) < 2 ^ 29 - 2 ->
  exists o', setTypeAdd junk buf set_max_intset_entries o e = Some (o', bool_decide (e ∉ X)) /\ set_repr o' ({[e]} ∪ X).
Proof.
  intros Hr Hsz. destruct o as [s|d]; unfold setTypeAdd.
  - destruct Hr as (l & Hok & ->). destruct (sds_number e) as (r & -> & Hv). cbn [mbind option_bind]. destruct r as [v|].
    + destruct (proj1 (Hv v) eq_refl) as [Hin ->]. pose proof (names_size s l Hok) as Hn.
      destruct (add_spec junk s l v Hok Hin) as [[Hi ->]|(Hi & s' & l' & -> & Hp & Hok')]; [lia| |]; cbn [mbind option_bind].
      * apply (elem_names s l v Hok Hin) in Hi as He. rewrite bool_decide_false by tauto. exists (SIntset s). split; [done|].
        exists l. split; [done|]. set_solver.
      * rewrite bool_decide_true by (by rewrite (elem_names s l v Hok Hin)).
        assert (HX : {[dec v]} ∪ names l = names l') by (by rewrite (names_perm _ _ Hp)). rewrite HX.
        destruct (_ >? _); [|cbn [mbind option_bind]; exists (SIntset s'); split; [done|by exists l']].
        destruct (set_convert_spec s' l' Hok') as (d & m & -> & Hd & <-). cbn [mbind option_bind].
        exists (SDict d). split; [done|]. by exists m.
    + destruct (set_convert_spec s l Hok) as (d & m & -> & Hd & Hm). cbn [mbind option_bind].
      assert (He : e ∉ dom m).
      { rewrite Hm. apply (elem_names_none s l e Hok). intros v Hin E. assert (None = Some v) by (by apply Hv). done. }
      destruct (dict_add d m e Hd) as (d' & m' & -> & Hd' & Hm'); [rewrite Hm; lia|]. cbn [mbind option_bind snd fst].
      rewrite <- Hm, bool_decide_true by done. exists (SDict d'). split; [done|]. exists m'. by rewrite Hm'.
  - destruct Hr as (m & Hr & ->). destruct (dict_add d m e Hr) as (d' & m' & -> & Hd' & Hm'); [lia|]. cbn [mbind option_bind fst snd].
    exists (SDict d'). split; [done|]. exists m'. by rewrite Hm'.
Qed.

End Sets.
