(* ===== verification/TSetCorrect.v ===== *)
(** * What set objects promise (t_set.c)

    A sequence of operations on a new set object gives the answers of a finite set
    of strings, and an iteration gives every element once, whatever the encoding. *)
From Stdlib Require Import ZArith Lia String.
From stdpp Require Import base numbers list option gmap.
From S2P Require Import Prelude UtilNum Sds SdsRefine Siphash Object Dict DictRefine Keyspace DictIter DictObj Intset TSet TSetSpec.

Inductive set_op := SAdd (value : list Z) | SRem (value : list Z) | SIsMember (value : list Z) | SCard.
Inductive set_answer := SBool (b : bool) | SNumber (n : Z).

(** What the operation does to a finite set. *)
Definition abstract_op (X : strings) (op : set_op) : strings * set_answer :=
  match op with
  | SAdd e => ({[e]} ∪ X, SBool (bool_decide (e ∉ X)))
  | SRem e => (X ∖ {[e]}, SBool (bool_decide (e ∈ X)))
  | SIsMember e => (X, SBool (bool_decide (e ∈ X)))
  | SCard => (X, SNumber (Z.of_nat (base.size X)))
  end.

Fixpoint abstract_ops (X : strings) (ops : list set_op) : strings * list set_answer :=
  match ops with
  | [] => (X, [])
  | op :: ops => let '(X, a) := abstract_op X op in let '(X, l) := abstract_ops X ops in (X, a :: l)
  end.

Section Correct.
Context {D : Type} `{ODL : ObjDictLaws D unit}.
Context (junk : nat -> Z) (buf : list Z) (set_max_intset_entries : Z).
Implicit Types (o : sobj D) (X : strings) (si : setTypeIterator (D := D)).

Definition set_do o (op : set_op) : option (sobj D * set_answer) :=
  match op with
  | SAdd e => r ← setTypeAdd junk buf set_max_intset_entries o e; Some (fst r, SBool (snd r))
  | SRem e => r ← setTypeRemove junk o e; Some (fst r, SBool (snd r))
  | SIsMember e => r ← setTypeIsMember o e; Some (fst r, SBool (snd r))
  | SCard => Some (o, SNumber (setTypeSize o))
  end.

Fixpoint set_ops o (ops : list set_op) : option (sobj D * list set_answer) :=
  match ops with
  | [] => Some (o, [])
  | op :: ops => r ← set_do o op; t ← set_ops (fst r) ops; Some (fst t, snd r :: snd t)
  end.

(** [while ((ele = setTypeNextObject(si)) != NULL)] *)
Fixpoint set_walk (fuel : nat) o si : option (sobj D * setTypeIterator (D := D) * list (list Z)) :=
  match fuel with
  | O => None
  | S fuel =>
      r ← setTypeNextObject buf o si;
      let '(o, si, ele) := r in
      match ele with
      | None => Some (o, si, [])
      | Some ele => t ← set_walk fuel o si; Some (fst t, ele :: snd t)
      end
  end.

Hypothesis Hbuf : SDS_LLSTR_SIZE <= zlen buf.

Lemma set_do_spec o X op : set_repr o X -> Z.of_nat (base.size X) < 2 ^ 29 - 2 ->
  exists o', set_do o op = Some (o', snd (abstract_op X op)) /\ set_repr o' (fst (abstract_op X op)) /\
    (base.size (fst (abstract_op X op)) <= S (base.size X))%nat.
Proof.
  intros Hr Hsz. destruct op as [e|e|e|]; cbn [set_do abstract_op fst snd].
  - destruct (set_add junk buf set_max_intset_entries Hbuf o X e Hr Hsz) as (o' & -> & Hr'). cbn [mbind option_bind fst snd].
    exists o'. split; [done|]. split; [done|]. rewrite size_union_alt, size_singleton.
    pose proof (subseteq_size (X ∖ {[e]}) X ltac:(set_solver)). lia.
  - destruct (set_remove junk o X e Hr) as (o' & -> & Hr'). cbn [mbind option_bind fst snd].
    exists o'. split; [done|]. split; [done|]. pose proof (subseteq_size (X ∖ {[e]}) X ltac:(set_solver)). lia.
  - destruct (set_member o X e Hr) as (o' & -> & Hr'). cbn [mbind option_bind fst snd]. exists o'. split; [done|]. split; [done|lia].
  - exists o. rewrite (set_size o X Hr). split; [done|]. split; [done|lia].
Qed.

Lemma set_ops_spec ops o X : set_repr o X -> Z.of_nat (base.size X + length ops) < 2 ^ 29 - 2 ->
  exists o', set_ops o ops = Some (o', snd (abstract_ops X ops)) /\ set_repr o' (fst (abstract_ops X ops)).
Proof.
  revert o X. induction ops as [|op ops IH]; intros o X Hr Hsz; cbn [set_ops abstract_ops]; [by exists o|].
  cbn [length] in Hsz. destruct (set_do_spec o X op Hr) as (o1 & -> & Hr1 & Hs1); [lia|]. cbn [mbind option_bind fst snd].
  destruct (abstract_op X op) as [X1 a]. cbn [fst snd] in *. destruct (IH o1 X1 Hr1) as (o2 & -> & Hr2); [lia|].
  destruct (abstract_ops X1 ops) as [X2 l]. cbn [mbind option_bind fst snd] in *. by exists o2.
Qed.

Lemma set_walk_spec (fuel : nat) o X si (l : list (list Z)) : set_repr o X -> set_left o si l -> (length l < fuel)%nat ->
  exists si', set_walk fuel o si = Some (o, si', l) /\ setTypeReleaseIterator o si' = Some o.
Proof.
  intros Hr. revert si l. induction fuel as [|fuel IH]; intros si l Hl Hf; [lia|]. cbn [set_walk]. unfold setTypeNextObject.
  pose proof (set_iter_next o X si l Hr Hl) as Hn. destruct l as [|e l].
  - destruct Hn as (si' & -> & Hrel). cbn [mbind option_bind]. by exists si'.
  - destruct Hn as (si' & x & -> & Hx & Hl'). cbn [mbind option_bind]. pose proof (element_string buf Hbuf x e Hx) as Hs.
    destruct (IH si' l Hl') as (si2 & E2 & Hrel); [cbn [length] in Hf; lia|]. exists si2. split; [|done].
    destruct x as [s|v]; [injection Hs as ->|rewrite Hs]; cbn [mbind option_bind]; by rewrite E2.
Qed.

(** ** The theorems *)

(** [C26] Any sequence of operations on a new set object, created for any first
    element, runs to its end without a failed assertion and gives the answers of a
    finite set of strings, as long as there are fewer than [2^29 - 2] operations:
    when the object becomes a dictionary cannot be seen. *)
Theorem set_session first ops (Hlen : Z.of_nat (length ops) < 2 ^ 29 - 2) :
  exists o0 o, setTypeCreate first = Some o0 /\
    set_ops o0 ops = Some (o, snd (abstract_ops ∅ ops)) /\ set_repr o (fst (abstract_ops ∅ ops)).
Proof.
  destruct (setTypeCreate_repr first) as (o0 & E0 & Hr). destruct (set_ops_spec ops o0 ∅ Hr) as (o & E & Hr'); [by rewrite size_empty|].
  by exists o0, o.
Qed.

(** Iterating over a set object gives every element once, leaves the object as it
    is, and ends. *)
Theorem set_iteration o X (Hr : set_repr o X) :
  exists si l, set_walk (S (base.size X)) o (setTypeInitIterator o) = Some (o, si, l) /\
    NoDup l /\ X = list_to_set l /\ setTypeReleaseIterator o si = Some o.
Proof.
  destruct (set_iter_start o X Hr) as (l & Hn & HX & Hl). destruct (set_walk_spec (S (base.size X)) o X _ l Hr Hl) as (si & E & Hrel).
  - rewrite HX, size_list_to_set by done. lia.
  - by exists si, l.
Qed.
End Correct.

(** ** At concrete inputs, with hash tables *)

Section Example.
Abbreviation table := (dict key unit).
Abbreviation seed := (replicate 16 7).
#[local] Instance sx_table : KeyDict table unit := HashKeyDict tt seed true.
#[local] Instance sx_table_laws : KeyDictLaws table unit := HashKeyDictLaws tt seed true.
#[local] Instance sx_iter : DictIter table unit := HashDictIter tt seed true.
#[local] Instance sx_iter_laws : DictIterLaws table unit := HashDictIterLaws tt seed true.
#[local] Instance sx_obj : ObjDict table unit := HashObjDict tt seed true.
#[local] Instance sx_obj_laws : ObjDictLaws table unit := HashObjDictLaws tt seed true.

Definition ex_set_ops : list set_op :=
  [SAdd (bytes_of "10"); SAdd (bytes_of "-3"); SAdd (bytes_of "10"); SIsMember (bytes_of "010"); SAdd (bytes_of "ten");
   SIsMember (bytes_of "-3"); SRem (bytes_of "10"); SCard].

Lemma ex_set_answers : snd (abstract_ops ∅ ex_set_ops)
  = [SBool true; SBool true; SBool false; SBool false; SBool true; SBool true; SBool true; SNumber 2].
Proof. vm_compute. reflexivity. Qed.

(** The first element makes an intset, the fifth operation a hash table. *)
Lemma set_session_witness :
  exists o0 o : sobj table, setTypeCreate (bytes_of "10") = Some o0 /\
    set_ops (fun _ => 77) (replicate 21 0) 512 o0 ex_set_ops = Some (o, snd (abstract_ops ∅ ex_set_ops)) /\
    set_repr o (fst (abstract_ops ∅ ex_set_ops)).
Proof.
  exact (set_session (D := table) (fun _ => 77) (replicate 21 0) 512 ltac:(by vm_compute) (bytes_of "10") ex_set_ops ltac:(by vm_compute)).
Defined.
End Example.
